(* ===== verification/_CoqProject ===== *)
-Q . S2P
Prelude.v
Float.v
Bitmap.v
NetTypes.v
Packet.v
Pool.v
Crypto.v
IpsecSa.v
AntiReplay.v
Sad.v
SpdTypes.v
SpdPolicy.v
SpdLookup.v
IpsecNodes.v
SpdInv.v
FlowCache.v
FastPath.v
FpInv.v
FpRefine.v
BondTypes.v
Bond.v
Lacp.v
LacpMux.v
LacpInv.v
LacpRx.v
BondInv.v
LacpProps.v
LacpLive.v
BondTx.v
LacpPdu.v
BondInput.v
Policer.v
PolicerMeter.v
PolicerProps.v
PolicerMark.v
Dpo.v
Mtrie.v
MtrieSpec.v
MtrieInv.v
MtrieAdd.v
MtrieDel.v
MtrieTables.v
Ip4Fib.v
Ip4FibInv.v
MtrieProps.v
UrpfList.v
LbNormalize.v
FibNodeList.v
LoadBalanceMap.v
LbMapFill.v
LbMapInv.v
LoadBalance.v
LbFill.v
LbUpdate.v
LoadBalanceProps.v
LbPool.v
LbPoolInv.v
LbPoolProps.v
IpCsum.v
IpCsumSum.v
IpCsumProps.v
Ip4Input.v
Ip4Rewrite.v
Ip4InputProps.v
FlowHash.v
Ip4Lookup.v
Ip4LookupBatch.v
Ip4LookupProps.v
