(* ===== verification/Prelude.v ===== *)
(** * Verification of parts of the VPP data plane

    FD.io VPP is a user-space packet processor: a graph of nodes that each handle a frame
    of packets, with control-plane functions that change the tables the nodes read.  This
    development models some of its subsystems, with the vppinfra containers they stand on.
    Paths below are relative to [src/vpp-src/vpp/src].

    ** IPsec ([vnet/ipsec])

    A packet is matched against the policies of the SPD of its interface; a policy says
    bypass, discard or protect, and in the last case names a security association (SA),
    which has keys and a receive window against replays.  Policies hold locks on
    associations, associations hold keys, and caches and hash tables stand in front of the
    search for a policy.

    - [Bitmap] : [vppinfra/bitops.h], [bitmap.h].  [NetTypes] : byte order and addresses.
      [Pool] : [vppinfra/pool.h] and the vector operations of [vec.h].
    - [Crypto] : algorithms and the key store, [vnet/crypto].
    - [IpsecSa], [AntiReplay] : the association and its window, [ipsec_sa.h].
    - [Sad] : creation, locking, update and release of associations, [ipsec_sa.c], with the
      UDP ports and tunnels they register.
    - [SpdTypes], [SpdPolicy] : policies and SPDs, [ipsec_spd.c], [ipsec_spd_policy.c].
    - [SpdLookup] : linear search, flow caches and fast path, [ipsec_output.h],
      [ipsec_input.c], [ipsec_spd_fp_lookup.h].
    - [IpsecNodes] : the input and output nodes and the start-up options.
    - [SpdInv], [FlowCache], [FastPath], [FpInv], [FpRefine] : theorems.

    The theorems: the window refines that of RFC 4303 (a highest number and a set of
    received ones), for 32-bit and extended sequence numbers and both sizes of window, but
    for one shift of a huge window in a build without BMI2; frames of packets, checked as a
    whole and again one by one, are never accepted twice, with extended numbers if the
    packets of a frame are less than a window apart; every history of SA operations keeps
    locks and registrations in step, while a failed creation leaves its keys behind; every
    history of SPD operations keeps the vectors of policies ordered, so that a lookup finds
    a policy of highest priority; the outbound flow cache answers as the search does for
    the packets of one SPD until this SPD is deleted, and again after the next change of a
    policy; and every history of the outbound fast path is a history of a map of policies,
    step by step and with exact counts of masks, with lookups equal to a search of the map.

    ** Link bonding and LACP ([vnet/bonding], [plugins/lacp])

    A bond is an interface that spreads packets over its active members.  Without LACP a
    member is active while it is up; with LACP four state machines for each member
    (receive, mux, periodic and transmit) and a selection over the members of a bond decide
    it, from the frames of the partner and from timers.

    - [BondTypes], [Bond] : the data, creation, members, active members, transmission
      ([cli.c], [device.c], [node.h]).  The plugin is a parameter of the bonding functions,
      as the code calls it through a function pointer.
    - [BondInput] : the node [bond-input] ([node.c]).
    - [Lacp] : frames, tables, machines, selection, input, process ([plugins/lacp]).
    - [LacpMux], [LacpRx] : termination of the machines and what they leave alone.
      [LacpInv] : the invariant of the whole state.  [BondInv] : bonding operations keep
      it, proved against the class [LacpPlugin], which the plugin fulfils.
    - [LacpProps], [LacpLive], [LacpPdu], [BondTx] : theorems.

    The theorems: through every history of operations, packets and ticks, active members
    are members without repetition and are exactly those whose machine says so; every
    operation ends; the mux machine settles in the state that selection and partner call
    for and announces it; a frame changes of other ports only what their mux machines change,
    and transmits nothing on them; a port whose partner is silent falls back to the default
    partner and is removed by the process; frames are read as they were written; refused frames are
    counted and run no machine; accepted ones are recorded; transmission uses active
    members only, each packet once or once per member when broadcasting, by the remainder
    of the hash, and leaves the queues of the thread empty; reception treats the packets of
    members that carry traffic one after the other although it handles four at a time, and
    lets none of a passive member into the bond.

    ** Policers ([vnet/policer])

    A policer meters packets with token buckets and says whether they conform, exceed or
    violate, and an action for each.

    - [Policer] : metering ([police.h]), translation of a configuration ([xlate.c], in
      double precision by [SpecFloat]), policers by name and interface ([policer.c]),
      marking and nodes ([police_inlines.h], [node_funcs.c]).
    - [PolicerMeter] : what passes is bounded by burst and rate, and traffic within them
      passes.  [PolicerProps] : which configurations are accepted and what they become;
      the tables through every history.  [PolicerMark] : marked packets are valid.

    ** IPv4 forwarding ([vnet/ip/ip4_mtrie.c], [vnet/fib])

    Each table keeps its routes twice: in hash tables, one per mask length, for the control
    plane, and in a trie of plies for the data plane, in which every lookup takes at most
    three or four steps.  The plies of all tables live in one pool.

    - [Mtrie] : leaves, plies, addition, removal and lookup in both variants, 16-8-8 and
      8-8-8-8 ([ip4_mtrie.c], [ip4_mtrie.h], [ip4_fib.h]).
    - [MtrieSpec] : the specification, longest prefix match in a finite map of routes.
      [MtrieInv] : what a trie that is right for some routes looks like, which plies it owns,
      and what an operation leaves alone.  [MtrieAdd], [MtrieDel] : addition and removal
      of a route keep a trie right.  [MtrieTables] : tables that share the pool, as a
      transition system with its specification.
    - [Ip4Fib], [Ip4FibInv] : the hash tables and the installation of routes in both
      ([ip4_fib_hash.c], [ip4_fib_16.c], [ip4_fib_8.c], parts of [fib_table.c],
      [fib_entry_src.c]).  [MtrieProps] : theorems.

    The theorems: through every history of creating and freeing tables, adding, replacing
    and removing routes, a lookup gives the longest match; every operation returns, within
    the four levels of an address; a ply is in use exactly as long as some route needs it;
    and both tables of a FIB give the same load-balance for every address.  A removed route
    must not share its adjacency with a route inside of it
    ([MtrieProps.shared_adjacency_removed] shows why); the code gives every entry a
    load-balance of its own.  Its cover is the match for a prefix one bit shorter, which is
    why the default route stays.

    ** Load-balances ([vnet/dpo], [vnet/fib])

    A route leads to a load-balance: a power of two of buckets, each stacked on the object
    of a path, as many per path as its weight asks for.  A load-balance with many paths has
    a map, shared with others over the same paths, which leads the buckets of failed paths
    to those of resolved ones; the maps of a path are found by a linked list.  It also
    holds a uRPF list, the interfaces on which sources of the route may arrive.

    - [Dpo] : references to data-path objects ([dpo.h], [dpo.c], [drop_dpo.c]).
      [UrpfList] : uRPF lists ([fib_urpf_list.c]).  [FibNodeList] : the linked lists
      ([fib_node_list.c]).  [LbNormalize] : weights into buckets, in double precision.
    - [LoadBalanceMap] : the maps ([load_balance_map.c]); [LbMapFill], [LbMapInv] : what
      they contain, and that database and lists find them.
    - [LoadBalance] : buckets and the update of a load-balance ([load_balance.c]) in a
      monad that records what workers can see after every store; [LbFill], [LbUpdate],
      [LoadBalanceProps] : what the update leaves and what is seen meanwhile.
    - [LbPool] : creation, change, lock, destruction; [LbPoolInv], [LbPoolProps] :
      histories.

    The theorems: normalisation gives out all of a power of two of buckets unless it drops
    every path; if it keeps one, an update
    leaves the buckets of the new paths and gives back the references of the old, and
    meanwhile every packet gets an object of the old or of the new paths but in the cases
    that examples show; references are conserved through every history of such updates and
    nothing stays behind; maps translate for the states their paths had when they were
    filled last, at creation or when the maps of a path were told of its loss; the linked
    lists refine finite sequences.

    ** IPv4 nodes ([vnet/ip], [vppinfra/vector])

    Packets pass ip4-input, which checks their headers, ip4-lookup, which finds the
    load-balance of the destination and a bucket of it by the flow hash, perhaps
    ip4-load-balance, and ip4-rewrite, which takes one from the hop limit.

    - [Packet] : fields of packets.  [IpCsum] : Internet checksums for all widths of
      vectors ([ip_csum.h]); [IpCsumSum], [IpCsumProps] : their equivalence with the sum
      of 16-bit words.
    - [Ip4Input] : header checks ([ip4_input.h]); [Ip4InputProps].  [Ip4Rewrite] : hop
      limit and checks of length ([ip4_forward.c]).  [FlowHash] : ([ip4_inlines.h]).
    - [Ip4Lookup] : both lookup nodes ([ip4_forward.h], [ip4_forward.c]), over the tries
      of [Mtrie], the tables of [MtrieTables] and the load-balances of [LbPool].
      [Ip4LookupBatch], [Ip4LookupProps].

    The theorems: with the tables and load-balances of any histories, a packet goes to the
    object of a bucket of the load-balance of the longest match, if the map in front of its
    buckets, which others may share, covers them; four or two packets at a
    time are treated as one by one; checksums in chunks are those of the whole, for every
    variant but for the lengths that counterexamples show; the checks report exactly the
    faults there are; the hop limit changes without making the checksum wrong; and the
    hash is symmetric, or that of the other direction, when configured so with equal flags
    for both ends.

    ** Conventions, bounds and fuel

    An unsigned integer of w bits is a [Z] with the wrap-around written out; state is
    passed explicitly; an error is a value; a failed assertion or a dangling index is
    excluded by the invariants.  Hash tables are finite maps.  The loops over vectors are
    structural.  The machines of LACP post events from their actions: a dispatch takes a
    bound on the depth, [PTX_FUEL] = 5, [MUX_FUEL] = 5 and [RX_FUEL] = 9, and the lemmas
    [ptx_terminates], [mux_terminates] and [rx_terminates] show that it is never reached
    from a state of the invariant.  The recursions over a trie take the number of levels left,
    4 below the root, 2 below the 16-bit root, and [None] for a deeper descent or an access
    out of bounds, which [MtrieProps.mtrie_operations_return] excludes.  Normalisation
    doubles the number of buckets at most 14 times, up to 8192.  A walk of a linked list is
    bounded by the size of its pool, which [FibNodeList] shows to be enough, and a loop of
    a checksum by the bytes left.  Times are whole milliseconds.

    What the code takes from outside these files is an argument: the clock, NUMA nodes,
    facts about interfaces, success of buffer allocation, hash functions of packets, the
    next node of an arc, whether a path is resolved, the router's identifier, the vectors
    of the machine, and [qsort], of which is used that it permutes and, where it matters,
    that it sorts.

    ** Not modelled

    Encryption and decryption of packets (crypto engines, [esp_encrypt.c],
    [esp_decrypt.c]) and IPsec tunnel interfaces; the inbound fast path has a model but no
    theorem of its own.  Worker threads: an operation is atomic, as under the barrier that
    the control plane takes, but for the update of a load-balance, of which every
    intermediate state is recorded.  Tracing, counters of the statistics segment (but those
    that the code reads or that the theorems name), prefetching, the CLI and the binary API.
    Of the FIB, sources, path lists, adjacencies with their rewrite strings and the graph of
    dependent entries, IPv6 and MPLS tables; a lookup that runs while a route changes (the
    code orders its stores for it).  Of the IPv4 nodes, feature arcs, multicast, local
    delivery, the writing of rewrites and the enqueueing to next nodes.  The other
    subsystems of VPP (graph scheduler, TCP and sessions, NAT, ACL, IKEv2, tunnels, drivers)
    are not begun.

    This file holds what all others share: record update, machine integers, and lemmas
    and tactics about lists, options and bits. *)

From Stdlib Require Export ZArith Lia Bool.
From stdpp Require Export base list relations.

#[global] Open Scope Z_scope.

(** ** Record update

    [r <| f := v |>] is the record [r] with the field [f] replaced by [v].
    A record type declares how it is rebuilt from its projections ([Eta]); the
    setter of a field is found by abstracting that projection in the rebuilt
    term. *)

Class Eta (R : Type) := eta : R -> R.
Class Setter {R T : Type} (proj : R -> T) := set_field : T -> R -> R.
Arguments set_field {R T} proj {_} _ _.

Ltac build_setter p :=
  lazymatch type of p with
  | ?R -> ?T =>
      let e := eval hnf in (@eta R _) in
      refine (fun (v : T) (r : R) =>
                ltac:(let b := eval cbv beta in (e r) in
                      lazymatch eval pattern (p r) in b with
                      | ?g _ => let t := eval cbv beta in (g v) in exact t
                      end))
  end.

#[export] Hint Extern 1 (@Setter _ _ ?p) => build_setter p : typeclass_instances.

Notation "r <| f := v |>" := (set_field f v r)
  (at level 1, left associativity, format "r  <| f  :=  v |>").

(** ** Machine integers

    A C unsigned integer of [w] bits is a [Z] in [[0, 2^w)]; each arithmetic
    operation of the code is followed by the wrap-around of its type. *)

Definition u8 (x : Z) : Z := x mod 2 ^ 8.
Definition u16 (x : Z) : Z := x mod 2 ^ 16.
Definition u32 (x : Z) : Z := x mod 2 ^ 32.
Definition u64 (x : Z) : Z := x mod 2 ^ 64.

(** Conversion of a 32-bit pattern to [int] (two's complement). *)
Definition i32 (x : Z) : Z := (x + 2 ^ 31) mod 2 ^ 32 - 2 ^ 31.

(** Bitwise complement at 32 and 64 bits. *)
Definition not32 (x : Z) : Z := Z.ldiff (Z.ones 32) x.
Definition not64 (x : Z) : Z := Z.ldiff (Z.ones 64) x.

(** Variable shifts of 64-bit words.  A count of 64 or more is undefined in C;
    the shift instructions of the supported 64-bit targets use the count modulo
    64, and that is what is modelled. *)
Definition shl64 (x n : Z) : Z := u64 (Z.shiftl x (n mod 64)).
Definition shr64 (x n : Z) : Z := Z.shiftr x (n mod 64).

(** Values a machine integer can hold. *)
Definition is_u (w x : Z) : Prop := 0 <= x < 2 ^ w.

(** ** Counting *)

(** Number of [k] in [[lo, lo + n)] with [f k]. *)
Fixpoint count_range (f : Z -> bool) (lo : Z) (n : nat) : Z :=
  match n with
  | O => 0
  | S n' => Z.b2z (f lo) + count_range f (lo + 1) n'
  end.

Definition popcount (x : Z) : Z := count_range (Z.testbit x) 0 64.

(** ** Tactics and hint databases *)

Create HintDb vpp.
Create HintDb zbits.

(** Turns the boolean comparisons of the code into propositions. *)
Ltac breflect :=
  repeat match goal with
    | H : (_ && _) = true |- _ => apply andb_true_iff in H; destruct H
    | H : (_ || _) = false |- _ => apply orb_false_iff in H; destruct H
    | H : negb _ = true |- _ => apply negb_true_iff in H
    | H : negb _ = false |- _ => apply negb_false_iff in H
    | H : (_ <? _) = true |- _ => apply Z.ltb_lt in H
    | H : (_ <? _) = false |- _ => apply Z.ltb_ge in H
    | H : (_ <=? _) = true |- _ => apply Z.leb_le in H
    | H : (_ <=? _) = false |- _ => apply Z.leb_gt in H
    | H : (_ =? _) = true |- _ => apply Z.eqb_eq in H
    | H : (_ =? _) = false |- _ => apply Z.eqb_neq in H
    end.

(** Splits on the comparisons that guard the code's branches. *)
Ltac cmp_cases :=
  repeat match goal with
    | |- context [if ?a <? ?b then _ else _] => destruct (Z.ltb_spec a b)
    | |- context [if ?a <=? ?b then _ else _] => destruct (Z.leb_spec a b)
    | |- context [if ?a =? ?b then _ else _] => destruct (Z.eqb_spec a b)
    end.

(** Arithmetic with [mod] by constants: [lia] after naming the quotients. *)
Ltac mod_lia := Z.div_mod_to_equations; lia.

(** ** Lemmas on machine integers *)

Lemma u32_range x : is_u 32 (u32 x).
Proof. apply Z.mod_pos_bound. lia. Qed.

Lemma u64_range x : is_u 64 (u64 x).
Proof. apply Z.mod_pos_bound. lia. Qed.

Lemma u16_range x : is_u 16 (u16 x).
Proof. apply Z.mod_pos_bound. lia. Qed.

Lemma u32_small x : is_u 32 x -> u32 x = x.
Proof. apply Z.mod_small. Qed.

Lemma u64_small x : is_u 64 x -> u64 x = x.
Proof. apply Z.mod_small. Qed.

#[export] Hint Resolve u16_range u32_range u64_range : vpp.

Lemma testbit_u64 x i : 0 <= i -> Z.testbit (u64 x) i = (i <? 64) && Z.testbit x i.
Proof. intros. unfold u64. now rewrite Z.testbit_mod_pow2 by lia. Qed.

Lemma testbit_ones n i : 0 <= n -> 0 <= i -> Z.testbit (Z.ones n) i = (i <? n).
Proof.
  intros Hn Hi. rewrite Z.testbit_ones_nonneg by lia. reflexivity.
Qed.

Lemma testbit_not64 x i : 0 <= i -> Z.testbit (not64 x) i = (i <? 64) && negb (Z.testbit x i).
Proof. intros. unfold not64. now rewrite Z.ldiff_spec, testbit_ones by lia. Qed.

Lemma is_u_testbit_high w x i : 0 <= w -> is_u w x -> w <= i -> Z.testbit x i = false.
Proof.
  intros Hw Hx Hi. rewrite <- (Z.mod_small x (2 ^ w)) by exact Hx.
  now apply Z.mod_pow2_bits_high.
Qed.

Lemma testbit_shl64 x n i :
  0 <= n < 64 -> 0 <= i ->
  Z.testbit (shl64 x n) i = (i <? 64) && (n <=? i) && Z.testbit x (i - n).
Proof.
  intros Hn Hi. unfold shl64. rewrite testbit_u64, (Z.mod_small n) by lia.
  rewrite Z.shiftl_spec by lia.
  destruct (Z.leb_spec n i); simpl; [now rewrite andb_true_r|].
  rewrite (Z.testbit_neg_r x) by lia. now rewrite !andb_false_r.
Qed.

Lemma testbit_shr64 x n i :
  0 <= n < 64 -> 0 <= i -> Z.testbit (shr64 x n) i = Z.testbit x (i + n).
Proof.
  intros Hn Hi. unfold shr64. now rewrite (Z.mod_small n), Z.shiftr_spec by lia.
Qed.

Lemma is_u_bits w x :
  0 <= w -> 0 <= x -> (forall i, w <= i -> Z.testbit x i = false) -> is_u w x.
Proof.
  intros Hw Hx Hb. split; [exact Hx|].
  assert (x mod 2 ^ w = x) as <-; [|apply Z.mod_pos_bound; lia].
  apply Z.bits_inj'. intros i Hi. rewrite Z.testbit_mod_pow2 by lia.
  destruct (Z.ltb_spec i w); simpl; [reflexivity|]. symmetry. now apply Hb.
Qed.

Lemma is_u_land w x y : 0 <= w -> is_u w x -> 0 <= y -> is_u w (Z.land x y).
Proof.
  intros Hw Hx Hy. apply is_u_bits; [lia|apply Z.land_nonneg; right; lia|].
  intros i Hi. rewrite Z.land_spec, (is_u_testbit_high w x) by (assumption || lia). reflexivity.
Qed.

Lemma is_u_lor w x y : 0 <= w -> is_u w x -> is_u w y -> is_u w (Z.lor x y).
Proof.
  intros Hw Hx Hy. apply is_u_bits; [lia|apply Z.lor_nonneg; split; [apply Hx|apply Hy]|].
  intros i Hi. rewrite Z.lor_spec, !(is_u_testbit_high w) by (assumption || lia). reflexivity.
Qed.

Lemma is_u_not64 x : is_u 64 x -> is_u 64 (not64 x).
Proof.
  intros Hx. apply is_u_bits; [lia|apply Z.ldiff_nonneg; left; vm_compute; discriminate|].
  intros i Hi. rewrite testbit_not64 by lia. now rewrite (proj2 (Z.ltb_ge i 64)) by lia.
Qed.

Lemma is_u_shr64 x n : is_u 64 x -> is_u 64 (shr64 x n).
Proof.
  intros Hx. unfold shr64. pose proof (Z.mod_pos_bound n 64 ltac:(lia)) as Hn.
  apply is_u_bits; [lia|apply Z.shiftr_nonneg; apply Hx|].
  intros i Hi. rewrite Z.shiftr_spec by lia. apply (is_u_testbit_high 64); [lia|exact Hx|lia].
Qed.

Lemma is_u_shl64 x n : is_u 64 (shl64 x n).
Proof. apply u64_range. Qed.

#[export] Hint Resolve is_u_land is_u_lor is_u_not64 is_u_shr64 is_u_shl64 : vpp.

Lemma land_lor_disjoint x v f : Z.land v f = 0 -> Z.land (Z.lor x v) f = Z.land x f.
Proof. intros H. now rewrite Z.land_lor_distr_l, H, Z.lor_0_r. Qed.

(** Packing of a field above an [n]-bit one. *)
Lemma lor_shiftl_add a b n : 0 <= n -> is_u n a -> Z.lor a (Z.shiftl b n) = a + b * 2 ^ n.
Proof.
  intros Hn Ha. rewrite <- Z.shiftl_mul_pow2 by lia. symmetry.
  rewrite Z.add_nocarry_lxor, <- Z.lxor_lor; [reflexivity|..];
    apply Z.bits_inj'; intros i Hi; rewrite Z.land_spec, Z.bits_0, Z.shiftl_spec by lia;
    (destruct (decide (i < n)); [rewrite (Z.testbit_neg_r b) by lia; apply andb_false_r|]);
    now rewrite (is_u_testbit_high n a) by (assumption || lia).
Qed.

Lemma land_pow2_minus1 x n : 0 <= n -> Z.land x (2 ^ n - 1) = x mod 2 ^ n.
Proof. intros. now rewrite Z.sub_1_r, <- Z.ones_equiv, Z.land_ones. Qed.

Lemma mod_mod_pow2 x n m : 0 <= n <= m -> (x mod 2 ^ m) mod 2 ^ n = x mod 2 ^ n.
Proof.
  intros H. apply Z.mod_mod_divide.
  exists (2 ^ (m - n)). rewrite <- Z.pow_add_r by lia. f_equal. lia.
Qed.

Lemma not32_val x : is_u 32 x -> not32 x = 2 ^ 32 - 1 - x.
Proof.
  intros Hx. unfold not32. rewrite <- Z.sub_nocarry_ldiff; [rewrite Z.ones_equiv; lia|].
  apply Z.bits_inj'. intros i Hi. rewrite Z.ldiff_spec, Z.bits_0, testbit_ones by lia.
  destruct (Z.ltb_spec i 32); simpl; [now rewrite andb_false_r|].
  now rewrite (is_u_testbit_high 32) by (lia || exact Hx).
Qed.

(** ** Lemmas on counting *)

Lemma count_range_ext f g lo n :
  (forall k, lo <= k < lo + Z.of_nat n -> f k = g k) -> count_range f lo n = count_range g lo n.
Proof.
  revert lo. induction n as [|n IH]; intros lo H; simpl; [reflexivity|].
  rewrite (H lo), (IH (lo + 1)) by (lia || (intros; apply H; lia)). reflexivity.
Qed.

Lemma count_range_app f lo n m :
  count_range f lo (n + m) = count_range f lo n + count_range f (lo + Z.of_nat n) m.
Proof.
  revert lo. induction n as [|n IH]; intros lo; simpl; [now rewrite Z.add_0_r|].
  rewrite IH. replace (lo + 1 + Z.of_nat n) with (lo + Z.of_nat (S n)) by lia. lia.
Qed.

Lemma count_range_shift f lo d n :
  count_range (fun k => f (k + d)) lo n = count_range f (lo + d) n.
Proof.
  revert lo. induction n as [|n IH]; intros lo; simpl; [reflexivity|].
  rewrite IH. now replace (lo + 1 + d) with (lo + d + 1) by lia.
Qed.

Lemma count_range_bounds f lo n : 0 <= count_range f lo n <= Z.of_nat n.
Proof.
  revert lo. induction n as [|n IH]; intros lo; simpl; [lia|].
  specialize (IH (lo + 1)). destruct (f lo); simpl; lia.
Qed.

Lemma count_range_false f lo n :
  (forall k, lo <= k < lo + Z.of_nat n -> f k = false) -> count_range f lo n = 0.
Proof.
  revert lo. induction n as [|n IH]; intros lo H; simpl; [reflexivity|].
  rewrite H, IH by (lia || (intros; apply H; lia)). reflexivity.
Qed.

(** Unseen and seen positions partition the range. *)
Lemma count_range_negb f lo n :
  count_range (fun k => negb (f k)) lo n = Z.of_nat n - count_range f lo n.
Proof.
  revert lo. induction n as [|n IH]; intros lo; cbn [count_range]; [reflexivity|].
  rewrite IH. destruct (f lo); simpl Z.b2z; simpl negb; simpl Z.b2z; lia.
Qed.

Lemma popcount_ext x y : (forall i, 0 <= i < 64 -> Z.testbit x i = Z.testbit y i) -> popcount x = popcount y.
Proof. intros H. apply count_range_ext. intros. apply H. lia. Qed.

(** The population of a contiguous range of bits. *)
Lemma popcount_land_range w m st len :
  0 <= st -> 0 <= len -> st + len <= 64 ->
  (forall i, 0 <= i < 64 -> Z.testbit m i = (st <=? i) && (i <? st + len)) ->
  popcount (Z.land w m) = count_range (Z.testbit w) st (Z.to_nat len).
Proof.
  intros Hst Hlen Hle Hm. unfold popcount.
  replace 64%nat with (Z.to_nat st + (Z.to_nat len + Z.to_nat (64 - st - len)))%nat by lia.
  rewrite !count_range_app.
  assert (forall i, 0 <= i < 64 -> Z.testbit (Z.land w m) i = Z.testbit w i && ((st <=? i) && (i <? st + len))) as E
    by (intros; rewrite Z.land_spec, Hm by lia; reflexivity).
  rewrite (count_range_false _ 0), (count_range_false _ (_ + _ + _)), (count_range_ext _ (Z.testbit w)).
  - replace (0 + Z.of_nat (Z.to_nat st)) with st by lia. lia.
  - intros k Hk. rewrite E by lia.
    now rewrite (proj2 (Z.leb_le st k)), (proj2 (Z.ltb_lt k _)), andb_true_r by lia.
  - intros k Hk. rewrite E by lia. now rewrite (proj2 (Z.ltb_ge k _)), !andb_false_r by lia.
  - intros k Hk. rewrite E by lia. now rewrite (proj2 (Z.leb_gt st k)), andb_false_r by lia.
Qed.

(** Cyclic ranges: extending by [len] positions that do not wrap. *)
Lemma cyclic_range_extend W lb n p len j :
  0 < W -> 0 <= n -> 0 <= len -> n + len <= W ->
  (lb + n) mod W = p -> p + len <= W -> 0 <= j < W ->
  ((j - lb) mod W <? n + len) = ((j - lb) mod W <? n) || ((p <=? j) && (j <? p + len)).
Proof.
  intros HW Hn Hlen Hle Hp Hpl Hj.
  pose proof (Z.mod_pos_bound (j - lb) W HW) as Hd.
  pose proof (Z.mod_pos_bound (lb + n) W HW) as Hp'.
  assert ((p + ((j - lb) mod W - n)) mod W = j) as E1.
  { rewrite <- Hp, Zplus_mod_idemp_l.
    replace (lb + n + ((j - lb) mod W - n)) with ((j - lb) mod W + lb) by lia.
    rewrite Zplus_mod_idemp_l. replace (j - lb + lb) with j by lia. now apply Z.mod_small. }
  assert ((n + (j - p)) mod W = (j - lb) mod W) as E2.
  { rewrite <- Hp, Z.add_sub_assoc, Zminus_mod_idemp_r. f_equal. lia. }
  set (d := (j - lb) mod W) in *.
  destruct (Z.ltb_spec d n); [rewrite (proj2 (Z.ltb_lt d _)) by lia; reflexivity|].
  destruct (Z.ltb_spec d (n + len)).
  - rewrite Z.mod_small in E1 by lia.
    now rewrite (proj2 (Z.leb_le p j)), (proj2 (Z.ltb_lt j _)) by lia.
  - destruct (Z.leb_spec p j); simpl; [|reflexivity].
    destruct (Z.ltb_spec j (p + len)); simpl; [|reflexivity].
    rewrite Z.mod_small in E2 by lia. lia.
Qed.

(** Counting all positions of a ring does not depend on where one starts. *)
Lemma count_range_rotate f c W :
  0 <= c < W ->
  count_range (fun k => f ((c + k) mod W)) 0 (Z.to_nat W) = count_range f 0 (Z.to_nat W).
Proof.
  intros Hc.
  replace (Z.to_nat W) with (Z.to_nat (W - c) + Z.to_nat c)%nat at 1 by lia.
  replace (Z.to_nat W) with (Z.to_nat c + Z.to_nat (W - c))%nat by lia.
  rewrite !count_range_app, !Z.add_0_l, !Z2Nat.id by lia. rewrite Z.add_comm. f_equal.
  - replace (W - c) with (0 + (W - c)) by lia. rewrite <- count_range_shift.
    apply count_range_ext. intros k Hk. f_equal.
    replace (c + (k + (W - c))) with (k + 1 * W) by lia. rewrite Z.mod_add by lia.
    apply Z.mod_small. lia.
  - change (count_range f c) with (count_range f (0 + c)). rewrite <- count_range_shift.
    apply count_range_ext. intros k Hk. f_equal. rewrite Z.mod_small by lia. lia.
Qed.
