(* ===== verification/Float.v ===== *)
(** * Double-precision numbers

    The C type [f64]: IEEE 754 binary64 with rounding to nearest, by the Standard
    Library's [SpecFloat] with 53 bits of precision and exponents below 1024. *)

From Stdlib Require Import SpecFloat.
From S2P Require Import Prelude.

Definition f64_of_u64 (x : Z) : spec_float := binary_normalize 53 1024 x 0 false.
Definition f64_div : spec_float -> spec_float -> spec_float := SFdiv 53 1024.
Definition f64_mul : spec_float -> spec_float -> spec_float := SFmul 53 1024.
Definition f64_add : spec_float -> spec_float -> spec_float := SFadd 53 1024.
Definition f64_sub : spec_float -> spec_float -> spec_float := SFsub 53 1024.

(** The integer part of a finite number: conversions to integers go towards zero. *)
Definition f64_trunc (x : spec_float) : Z :=
  match x with
  | S754_finite s m e => (if s then -1 else 1) * Z.shiftl (Zpos m) e
  | _ => 0
  end.

Definition u32_of_f64 (x : spec_float) : Z := u32 (f64_trunc x).

(** Conversion to [word], as its bits. *)
Definition u64_of_f64 (x : spec_float) : Z := u64 (f64_trunc x).

(** The literals 0.5 and 0.1: the quotients are rounded as literals are. *)
Definition f64_half : spec_float := f64_div (f64_of_u64 1) (f64_of_u64 2).
Definition f64_tenth : spec_float := f64_div (f64_of_u64 1) (f64_of_u64 10).

(** [flt_round_nearest]. *)
Definition flt_round_nearest (x : spec_float) : Z := u64_of_f64 (f64_add x f64_half).

Lemma u32_of_f64_range x : is_u 32 (u32_of_f64 x).
Proof. apply u32_range. Qed.
