(* ===== verification/Bitmap.v ===== *)
(** * Bit operations and bitmaps of vppinfra

    Models [src/vpp-src/vpp/src/vppinfra/bitops.h], the power-of-two helpers of
    [clib.h] and the bitmaps of [bitmap.h].  A bitmap is a vector of 64-bit words
    ([list Z]); bit [i] is bit [i mod 64] of word [i / 64].  Each operation has a
    lemma that gives its effect on the bits ([bm_bit]), and its clients are proved
    against those lemmas only. *)

From S2P Require Import Prelude.

(** ** Helpers of clib.h and bitops.h *)

(** [pow2_mask]: with BMI2 the [bzhi] instruction (counts of 64 and more select
    every bit), otherwise the portable shift. *)
Definition pow2_mask (bmi2 : bool) (x : Z) : Z :=
  if bmi2
  then (if u8 x <? 64 then Z.ones (u8 x) else Z.ones 64)
  else u64 (shl64 1 x - 1).

(** [count_set_bits] of a build with the POPCNT instruction. *)
Definition count_set_bits (x : Z) : Z := popcount x.

(** [count_set_bits] of a build without it (Hacker's Delight). *)
Definition count_set_bits_portable (x : Z) : Z :=
  let c1 := 0x5555555555555555 in
  let c2 := 0x3333333333333333 in
  let c3 := 0x0f0f0f0f0f0f0f0f in
  let x := u64 (x - Z.land (Z.shiftr x 1) c1) in
  let x := u64 (Z.land x c2 + Z.land (Z.shiftr x 2) c2) in
  let x := Z.land (u64 (x + Z.shiftr x 4)) c3 in
  let x := u64 (x + Z.shiftr x 8) in
  let x := u64 (x + Z.shiftr x 16) in
  let x := u64 (x + Z.shiftr x 32) in
  Z.land x (2 * 64 - 1).

(** [min_log2] through [count_leading_zeros]; undefined at 0. *)
Definition min_log2 (x : Z) : Z := Z.log2 x.

Definition max_log2 (x : Z) : Z :=
  let l := min_log2 x in
  if shl64 1 l <? x then l + 1 else l.

(** ** Vectors of words *)

Definition vec_len (a : list Z) : Z := Z.of_nat (length a).
Definition word_at (a : list Z) (i : Z) : Z := nth (Z.to_nat i) a 0.
Definition word_set (a : list Z) (i v : Z) : list Z := <[Z.to_nat i := v]> a.

(** [vec_validate]: make element [i] exist, new elements are zero. *)
Definition vec_validate (a : list Z) (i : Z) : list Z :=
  a ++ replicate (Z.to_nat (i + 1) - length a) 0.

(** ** Bitmap operations *)

Definition clib_bitmap_bytes (a : list Z) : Z := 8 * vec_len a.
Definition clib_bitmap_zero (a : list Z) : list Z := map (fun _ => 0) a.

Fixpoint remove_trailing_zeros_loop (a : list Z) (n : nat) : list Z :=
  match n with
  | O => []
  | S i => if word_at a (Z.of_nat i) =? 0 then remove_trailing_zeros_loop a i else take n a
  end.

Definition clib_bitmap_remove_trailing_zeros (a : list Z) : list Z :=
  remove_trailing_zeros_loop a (length a).

(** Returns the bitmap and the old value of the bit. *)
Definition clib_bitmap_set_no_check (a : list Z) (i new_value : Z) : list Z * Z :=
  let i0 := i / 64 in
  let i1 := i mod 64 in
  let bit := shl64 1 i1 in
  let ai := word_at a i0 in
  let old_value := Z.b2z (negb (Z.land ai bit =? 0)) in
  let ai := Z.land ai (not64 bit) in
  let ai := Z.lor ai (shl64 (Z.b2z (negb (new_value =? 0))) i1) in
  (word_set a i0 ai, old_value).

Definition clib_bitmap_set (ai : list Z) (i value : Z) : list Z :=
  let i0 := i / 64 in
  let i1 := i mod 64 in
  if (value =? 0) && (vec_len ai <=? i0) then ai
  else
    let ai := vec_validate ai i0 in
    let a := word_at ai i0 in
    let a := Z.land a (not64 (shl64 1 i1)) in
    let a := Z.lor a (shl64 (Z.b2z (negb (value =? 0))) i1) in
    let ai := word_set ai i0 a in
    if a =? 0 then clib_bitmap_remove_trailing_zeros ai else ai.

Definition clib_bitmap_get (ai : list Z) (i : Z) : Z :=
  let i0 := i / 64 in
  let i1 := i mod 64 in
  Z.b2z ((i0 <? vec_len ai) && negb (0 =? Z.land (shr64 (word_at ai i0) i1) 1)).

Definition clib_bitmap_get_multiple_no_check (bmi2 : bool) (ai : list Z) (i n_bits : Z) : Z :=
  let i0 := i / 64 in
  let i1 := i mod 64 in
  Z.land (shr64 (word_at ai i0) i1) (pow2_mask bmi2 n_bits).

Definition clib_bitmap_get_multiple (bitmap : list Z) (i n_bits : Z) : Z :=
  let l := vec_len bitmap in
  let i0 := i / 64 in
  let i1 := i mod 64 in
  let result :=
    if i0 <? l
    then let result := shr64 (word_at bitmap i0) i1 in
         if n_bits <? 64 then Z.land result (u64 (shl64 1 n_bits - 1)) else result
    else 0 in
  let i0 := i0 + 1 in
  if (64 <? i1 + n_bits) && (i0 <? l)
  then let n_bits := n_bits - (64 - i1) in
       Z.lor result (shl64 (Z.land (word_at bitmap i0) (u64 (shl64 1 n_bits - 1))) (64 - i1))
  else result.

(** The middle words of a region. *)
Fixpoint set_region_loop (bitmap : list Z) (a0 : Z) (value : Z) (n : nat) : list Z :=
  match n with
  | O => bitmap
  | S n' =>
      set_region_loop (word_set bitmap a0 (if value =? 0 then 0 else Z.ones 64)) (a0 + 1) value n'
  end.

Definition set_region_word (bitmap : list Z) (i value mask : Z) : list Z :=
  word_set bitmap i
    (if value =? 0 then Z.land (word_at bitmap i) (not64 mask) else Z.lor (word_at bitmap i) mask).

Definition clib_bitmap_set_region (bmi2 : bool) (bitmap : list Z) (i value n_bits : Z) : list Z :=
  let a0 := i / 64 in
  let a1 := i mod 64 in
  let i_end := u64 (i + n_bits - 1) in
  let b0 := i_end / 64 in
  let b1 := i_end mod 64 in
  let bitmap := vec_validate bitmap b0 in
  let mask := if n_bits <? 64 then pow2_mask bmi2 n_bits else Z.ones 64 in
  let mask := shl64 mask a1 in
  let bitmap := set_region_word bitmap a0 value mask in
  let a0 := a0 + 1 in
  let n := Z.to_nat (b0 - a0) in
  let bitmap := set_region_loop bitmap a0 value n in
  let a0 := a0 + Z.of_nat n in
  if a0 =? b0
  then set_region_word bitmap a0 value (shr64 (Z.ones 64) (64 - b1 - 1))
  else bitmap.

Fixpoint clib_bitmap_count_set_bits (ai : list Z) : Z :=
  match ai with
  | [] => 0
  | x :: ai' => count_set_bits x + clib_bitmap_count_set_bits ai'
  end.

(** ** Specification: the bits of a bitmap *)

Definition bm_bit (a : list Z) (i : Z) : bool := Z.testbit (word_at a (i / 64)) (i mod 64).

(** Every word is a 64-bit value. *)
Definition bm_ok (a : list Z) : Prop := Forall (is_u 64) a.

(** ** Words *)

Lemma word_at_set_eq a i v : 0 <= i < vec_len a -> word_at (word_set a i v) i = v.
Proof.
  unfold word_at, word_set, vec_len. intros H. rewrite nth_lookup.
  now rewrite list_lookup_insert_eq by lia.
Qed.

Lemma word_at_set_ne a i j v : 0 <= i -> 0 <= j -> i <> j -> word_at (word_set a i v) j = word_at a j.
Proof.
  unfold word_at, word_set. intros Hi Hj Hne. rewrite !nth_lookup.
  now rewrite list_lookup_insert_ne by lia.
Qed.

Lemma vec_len_set a i v : vec_len (word_set a i v) = vec_len a.
Proof. unfold vec_len, word_set. now rewrite length_insert. Qed.

Lemma bm_ok_word a i : bm_ok a -> is_u 64 (word_at a i).
Proof.
  intros H. unfold word_at. rewrite nth_lookup.
  destruct (a !! Z.to_nat i) eqn:E; simpl; [|split; lia].
  unfold bm_ok in H. rewrite Forall_lookup in H. eauto.
Qed.

Lemma bm_ok_set a i v : bm_ok a -> is_u 64 v -> bm_ok (word_set a i v).
Proof. intros. now apply Forall_insert. Qed.

#[export] Hint Resolve bm_ok_word bm_ok_set : vpp.

Lemma bm_bit_set a i v j :
  0 <= i < vec_len a -> 0 <= j ->
  bm_bit (word_set a i v) j = if j / 64 =? i then Z.testbit v (j mod 64) else bm_bit a j.
Proof.
  intros Hi Hj. unfold bm_bit. pose proof (Z.div_pos j 64 Hj ltac:(lia)).
  destruct (Z.eqb_spec (j / 64) i) as [->|Hne].
  - now rewrite word_at_set_eq.
  - now rewrite word_at_set_ne by lia.
Qed.

(** ** Masks *)

Lemma testbit_pow2_mask bmi2 n i :
  0 <= n < 64 -> 0 <= i -> Z.testbit (pow2_mask bmi2 n) i = (i <? n).
Proof.
  intros Hn Hi. unfold pow2_mask. destruct bmi2.
  - unfold u8. rewrite Z.mod_small, (proj2 (Z.ltb_lt n 64)), testbit_ones by lia. reflexivity.
  - unfold shl64. rewrite (Z.mod_small n), Z.shiftl_1_l by lia.
    assert (0 < 2 ^ n < 2 ^ 64) by (split; [apply Z.pow_pos_nonneg; lia|apply Z.pow_lt_mono_r; lia]).
    rewrite (u64_small (2 ^ n)), u64_small by (split; lia).
    rewrite Z.sub_1_r, <- Z.ones_equiv. apply testbit_ones; lia.
Qed.

Lemma pow2_mask_u64 bmi2 n : is_u 64 (pow2_mask bmi2 n).
Proof.
  unfold pow2_mask. destruct bmi2; [|apply u64_range].
  pose proof (Z.mod_pos_bound n (2 ^ 8) ltac:(lia)) as Hm. unfold u8.
  destruct (Z.ltb_spec (n mod 2 ^ 8) 64).
  - rewrite Z.ones_equiv. pose proof (Z.pow_lt_mono_r 2 (n mod 2 ^ 8) 64).
    pose proof (Z.pow_pos_nonneg 2 (n mod 2 ^ 8)). unfold is_u. lia.
  - vm_compute; split; congruence.
Qed.

#[export] Hint Resolve pow2_mask_u64 : vpp.

(** ** Effect of the operations on the bits *)

Lemma div_mod_64_eq i j : i / 64 = j / 64 -> i mod 64 = j mod 64 -> i = j.
Proof. intros. rewrite (Z.div_mod i 64), (Z.div_mod j 64) by lia. congruence. Qed.

Lemma bm_bit_set_no_check a i v j :
  0 <= i < 64 * vec_len a -> 0 <= j ->
  bm_bit (fst (clib_bitmap_set_no_check a i v)) j =
  if i =? j then negb (v =? 0) else bm_bit a j.
Proof.
  intros Hi Hj. unfold clib_bitmap_set_no_check. cbn [fst].
  assert (0 <= i / 64 < vec_len a) by (split; [apply Z.div_pos; lia|apply Z.div_lt_upper_bound; lia]).
  rewrite bm_bit_set by lia.
  pose proof (Z.mod_pos_bound i 64 ltac:(lia)). pose proof (Z.mod_pos_bound j 64 ltac:(lia)).
  destruct (Z.eqb_spec (j / 64) (i / 64)) as [Hd|Hd].
  - rewrite Z.lor_spec, Z.land_spec, testbit_not64, !testbit_shl64 by lia.
    rewrite (proj2 (Z.ltb_lt (j mod 64) 64)) by lia. simpl.
    destruct (Z.eqb_spec i j) as [->|Hne].
    + rewrite Z.leb_refl, Z.sub_diag. simpl. rewrite andb_false_r.
      now destruct (v =? 0).
    + assert (i mod 64 <> j mod 64) by (intros ?; apply Hne; now apply div_mod_64_eq).
      unfold bm_bit. rewrite Hd.
      assert (forall b, (i mod 64 <=? j mod 64) && Z.testbit (Z.b2z b) (j mod 64 - i mod 64) = false) as E.
      { intros b. destruct (Z.leb_spec (i mod 64) (j mod 64)); simpl; [|reflexivity].
        destruct b; [|apply Z.bits_0]. rewrite (is_u_testbit_high 1); [reflexivity|lia| |lia]. split; vm_compute; congruence. }
      change 1 with (Z.b2z true). rewrite !E. simpl. now rewrite andb_true_r, orb_false_r.
  - destruct (Z.eqb_spec i j) as [->|]; [congruence|reflexivity].
Qed.

Lemma vec_len_set_no_check a i v : vec_len (fst (clib_bitmap_set_no_check a i v)) = vec_len a.
Proof. apply vec_len_set. Qed.

Lemma bm_ok_set_no_check a i v : bm_ok a -> bm_ok (fst (clib_bitmap_set_no_check a i v)).
Proof.
  intros H. unfold clib_bitmap_set_no_check. cbn [fst].
  apply bm_ok_set; [exact H|]. apply is_u_lor; [lia| |apply u64_range].
  apply is_u_land; [lia|auto with vpp|]. apply is_u_not64, u64_range.
Qed.

Lemma land_1_testbit x : negb (0 =? Z.land x 1) = Z.testbit x 0.
Proof.
  change 1 with (Z.ones 1). rewrite Z.land_ones by lia. change (2 ^ 1) with 2.
  rewrite <- Z.bit0_mod. now destruct (Z.testbit x 0).
Qed.

Lemma clib_bitmap_get_bit a i : 0 <= i -> clib_bitmap_get a i = Z.b2z (bm_bit a i).
Proof.
  intros Hi. unfold clib_bitmap_get, bm_bit.
  pose proof (Z.mod_pos_bound i 64 ltac:(lia)).
  rewrite land_1_testbit, testbit_shr64, Z.add_0_l by lia.
  destruct (Z.ltb_spec (i / 64) (vec_len a)) as [|Hge]; [reflexivity|].
  unfold word_at. rewrite nth_overflow by (unfold vec_len in Hge; lia). now rewrite Z.bits_0.
Qed.

Lemma bm_bit_cons x a j :
  0 <= j -> bm_bit (x :: a) j = if j <? 64 then Z.testbit x j else bm_bit a (j - 64).
Proof.
  intros Hj. unfold bm_bit, word_at. destruct (Z.ltb_spec j 64).
  - now rewrite Z.div_small, Z.mod_small by lia.
  - replace (j / 64) with ((j - 64) / 64 + 1)
      by (replace j with (j - 64 + 1 * 64) at 2 by lia; now rewrite Z.div_add by lia).
    replace (j mod 64) with ((j - 64) mod 64)
      by (replace j with (j - 64 + 1 * 64) at 2 by lia; now rewrite Z.mod_add by lia).
    pose proof (Z.div_pos (j - 64) 64 ltac:(lia) ltac:(lia)).
    replace (Z.to_nat ((j - 64) / 64 + 1)) with (S (Z.to_nat ((j - 64) / 64))) by lia. reflexivity.
Qed.

Lemma clib_bitmap_count_bits a :
  clib_bitmap_count_set_bits a = count_range (bm_bit a) 0 (Z.to_nat (64 * vec_len a)).
Proof.
  induction a as [|x a IH]; [reflexivity|]. cbn [clib_bitmap_count_set_bits]. rewrite IH.
  assert (Z.to_nat (64 * vec_len (x :: a)) = 64 + Z.to_nat (64 * vec_len a))%nat as ->
    by (unfold vec_len; cbn [length]; lia).
  rewrite (count_range_app (bm_bit (x :: a))). f_equal.
  change (0 + Z.of_nat 64) with (0 + 64). rewrite <- count_range_shift.
  apply count_range_ext. intros k Hk. rewrite bm_bit_cons by lia.
  rewrite (proj2 (Z.ltb_ge (k + 64) 64)) by lia. f_equal. lia.
Qed.

Lemma bm_bit_zero a j : bm_bit (clib_bitmap_zero a) j = false.
Proof.
  unfold bm_bit, word_at, clib_bitmap_zero.
  rewrite (map_nth (fun _ => 0) a 0). apply Z.bits_0.
Qed.

Lemma vec_len_zero a : vec_len (clib_bitmap_zero a) = vec_len a.
Proof. unfold vec_len, clib_bitmap_zero. now rewrite length_map. Qed.

Lemma bm_ok_zero a : bm_ok (clib_bitmap_zero a).
Proof.
  unfold bm_ok, clib_bitmap_zero. apply Forall_forall. intros x Hx.
  apply list_elem_of_In, in_map_iff in Hx. destruct Hx as (_ & <- & _). split; lia.
Qed.

(** ** Regions *)

Lemma vec_len_validate a i : 0 <= i -> vec_len (vec_validate a i) = Z.max (vec_len a) (i + 1).
Proof. intros. unfold vec_len, vec_validate. rewrite length_app, length_replicate. lia. Qed.

Lemma word_at_validate a i j : word_at (vec_validate a i) j = word_at a j.
Proof.
  unfold word_at, vec_validate. destruct (Nat.lt_ge_cases (Z.to_nat j) (length a)).
  - now rewrite app_nth1.
  - rewrite app_nth2, nth_overflow with (l := a) by lia. rewrite nth_lookup.
    destruct (replicate _ 0 !! _) as [x|] eqn:E; [|reflexivity].
    apply lookup_replicate in E. destruct E as [-> _]. reflexivity.
Qed.

Lemma bm_ok_validate a i : bm_ok a -> bm_ok (vec_validate a i).
Proof. intros. apply Forall_app. split; [assumption|]. apply Forall_replicate. split; lia. Qed.

Lemma vec_len_region_word a k v m : vec_len (set_region_word a k v m) = vec_len a.
Proof. apply vec_len_set. Qed.

Lemma bm_bit_region_word a k v m j :
  0 <= k < vec_len a -> 0 <= j ->
  bm_bit (set_region_word a k v m) j =
  if (j / 64 =? k) && Z.testbit m (j mod 64) then negb (v =? 0) else bm_bit a j.
Proof.
  intros Hk Hj. unfold set_region_word. rewrite bm_bit_set by assumption.
  pose proof (Z.mod_pos_bound j 64 ltac:(lia)).
  destruct (Z.eqb_spec (j / 64) k) as [<-|]; cbn [andb]; [|reflexivity].
  destruct (v =? 0); cbn [negb]; [rewrite Z.land_spec, testbit_not64 by lia|rewrite Z.lor_spec];
    fold (bm_bit a j); destruct (Z.testbit m (j mod 64)); cbn [negb];
    rewrite ?(proj2 (Z.ltb_lt (j mod 64) 64)), ?andb_true_r, ?andb_false_r, ?orb_true_r, ?orb_false_r by lia;
    reflexivity.
Qed.

Lemma set_region_loop_bits v n : forall a k j,
  0 <= k -> k + Z.of_nat n <= vec_len a -> 0 <= j ->
  vec_len (set_region_loop a k v n) = vec_len a /\
  bm_bit (set_region_loop a k v n) j =
  if (k <=? j / 64) && (j / 64 <? k + Z.of_nat n) then negb (v =? 0) else bm_bit a j.
Proof.
  induction n as [|n IH]; intros a k j Hk Hle Hj; cbn [set_region_loop].
  - split; [reflexivity|]. destruct (Z.leb_spec k (j / 64)), (Z.ltb_spec (j / 64) (k + Z.of_nat 0)); cbn [andb]; reflexivity || lia.
  - destruct (IH (word_set a k (if v =? 0 then 0 else Z.ones 64)) (k + 1) j) as [El Eb];
      rewrite ?vec_len_set; try lia.
    split; [now rewrite El, vec_len_set|]. rewrite Eb, bm_bit_set by lia.
    destruct (Z.eqb_spec (j / 64) k) as [->|].
    + rewrite (proj2 (Z.leb_gt (k + 1) k)), (proj2 (Z.leb_le k k)), (proj2 (Z.ltb_lt k (k + Z.of_nat (S n)))) by lia. cbn [andb].
      pose proof (Z.mod_pos_bound j 64 ltac:(lia)).
      destruct (v =? 0); [apply Z.bits_0|]. rewrite testbit_ones by lia. now apply Z.ltb_lt.
    + destruct (Z.leb_spec (k + 1) (j / 64)), (Z.leb_spec k (j / 64)),
        (Z.ltb_spec (j / 64) (k + 1 + Z.of_nat n)), (Z.ltb_spec (j / 64) (k + Z.of_nat (S n)));
        cbn [andb]; reflexivity || lia.
Qed.

(** The mask of the first word covers the region's part of that word. *)
Lemma region_first_mask bmi2 n a1 t :
  0 < n -> 0 <= a1 < 64 -> 0 <= t < 64 ->
  Z.testbit (shl64 (if n <? 64 then pow2_mask bmi2 n else Z.ones 64) a1) t = (a1 <=? t) && (t <? a1 + n).
Proof.
  intros Hn Ha Ht. rewrite testbit_shl64 by lia. rewrite (proj2 (Z.ltb_lt t 64)) by lia. cbn [andb].
  destruct (Z.leb_spec a1 t); cbn [andb]; [|reflexivity].
  destruct (Z.ltb_spec n 64).
  - rewrite testbit_pow2_mask by lia. destruct (Z.ltb_spec (t - a1) n), (Z.ltb_spec t (a1 + n)); reflexivity || lia.
  - rewrite testbit_ones by lia. destruct (Z.ltb_spec (t - a1) 64), (Z.ltb_spec t (a1 + n)); reflexivity || lia.
Qed.

Lemma region_last_mask b1 t :
  0 <= b1 < 64 -> 0 <= t < 64 -> Z.testbit (shr64 (Z.ones 64) (64 - b1 - 1)) t = (t <=? b1).
Proof.
  intros Hb Ht. rewrite testbit_shr64, testbit_ones by lia.
  destruct (Z.ltb_spec (t + (64 - b1 - 1)) 64), (Z.leb_spec t b1); reflexivity || lia.
Qed.

(** [clib_bitmap_set_region] sets exactly the bits [i .. i + n_bits - 1]. *)
Lemma set_region_bits bmi2 a i v n j :
  0 <= i -> 0 < n -> i + n <= 2 ^ 64 -> 0 <= j ->
  let r := clib_bitmap_set_region bmi2 a i v n in
  vec_len r = Z.max (vec_len a) ((i + n - 1) / 64 + 1) /\
  bm_bit r j = if (i <=? j) && (j <? i + n) then negb (v =? 0) else bm_bit a j.
Proof.
  intros Hi Hn Hle Hj. cbv zeta. unfold clib_bitmap_set_region.
  rewrite u64_small by (unfold is_u; lia).
  pose proof (Z.div_mod i 64 ltac:(lia)) as Di. pose proof (Z.mod_pos_bound i 64 ltac:(lia)) as Mi.
  pose proof (Z.div_mod (i + n - 1) 64 ltac:(lia)) as De. pose proof (Z.mod_pos_bound (i + n - 1) 64 ltac:(lia)) as Me.
  pose proof (Z.div_mod j 64 ltac:(lia)) as Dj. pose proof (Z.mod_pos_bound j 64 ltac:(lia)) as Mj.
  assert (bm_bit a j = bm_bit (vec_validate a ((i + n - 1) / 64)) j) as ->
    by (unfold bm_bit; now rewrite word_at_validate).
  rewrite <- (vec_len_validate a ((i + n - 1) / 64)) by lia.
  pose proof (vec_len_validate a ((i + n - 1) / 64) ltac:(lia)) as Hlen.
  set (a1 := vec_validate a ((i + n - 1) / 64)) in *. clearbody a1.
  set (qi := i / 64) in *. set (mi := i mod 64) in *. set (qe := (i + n - 1) / 64) in *.
  set (me := (i + n - 1) mod 64) in *. clearbody qi mi qe me.
  set (m := shl64 _ mi). assert (Hm : forall t, 0 <= t < 64 -> Z.testbit m t = (mi <=? t) && (t <? mi + n))
    by (intros; now apply region_first_mask). clearbody m.
  set (k := Z.to_nat (qe - (qi + 1))).
  destruct (set_region_loop_bits v k (set_region_word a1 qi v m) (qi + 1) j) as [El Eb];
    rewrite ?vec_len_region_word; try lia.
  rewrite vec_len_region_word in El. rewrite bm_bit_region_word, Hm in Eb by lia.
  set (a2 := set_region_loop _ _ _ _) in *. clearbody a2.
  destruct (Z.eqb_spec (qi + 1 + Z.of_nat k) qe) as [E|E].
  - split; [now rewrite vec_len_region_word|]. rewrite bm_bit_region_word, Eb, region_last_mask by lia.
    destruct (Z.eqb_spec (j / 64) (qi + 1 + Z.of_nat k)), (Z.leb_spec (j mod 64) me), (Z.leb_spec (qi + 1) (j / 64)),
      (Z.ltb_spec (j / 64) (qi + 1 + Z.of_nat k)), (Z.eqb_spec (j / 64) qi), (Z.leb_spec mi (j mod 64)),
      (Z.ltb_spec (j mod 64) (mi + n)), (Z.leb_spec i j), (Z.ltb_spec j (i + n)); cbn [andb]; reflexivity || lia.
  - split; [assumption|]. rewrite Eb.
    destruct (Z.leb_spec (qi + 1) (j / 64)), (Z.ltb_spec (j / 64) (qi + 1 + Z.of_nat k)), (Z.eqb_spec (j / 64) qi),
      (Z.leb_spec mi (j mod 64)), (Z.ltb_spec (j mod 64) (mi + n)), (Z.leb_spec i j), (Z.ltb_spec j (i + n));
      cbn [andb]; reflexivity || lia.
Qed.

Lemma bm_ok_region_word a k v m : bm_ok a -> is_u 64 m -> bm_ok (set_region_word a k v m).
Proof.
  intros Ha Hm. apply bm_ok_set; [assumption|]. destruct (v =? 0).
  - apply is_u_land; [lia|auto with vpp|]. apply is_u_not64. assumption.
  - apply is_u_lor; auto with vpp; lia.
Qed.

Lemma bm_ok_region_loop v n : forall a k, bm_ok a -> bm_ok (set_region_loop a k v n).
Proof.
  induction n as [|n IH]; intros a k Ha; cbn [set_region_loop]; [assumption|].
  apply IH, bm_ok_set; [assumption|]. destruct (v =? 0); unfold is_u; [lia|].
  rewrite Z.ones_equiv. lia.
Qed.

Lemma bm_ok_set_region bmi2 a i v n : bm_ok a -> bm_ok (clib_bitmap_set_region bmi2 a i v n).
Proof.
  intros Ha. unfold clib_bitmap_set_region.
  assert (bm_ok (set_region_loop (set_region_word (vec_validate a (u64 (i + n - 1) / 64)) (i / 64) v
           (shl64 (if n <? 64 then pow2_mask bmi2 n else Z.ones 64) (i mod 64))) (i / 64 + 1) v
           (Z.to_nat (u64 (i + n - 1) / 64 - (i / 64 + 1))))) as H.
  { apply bm_ok_region_loop, bm_ok_region_word; [now apply bm_ok_validate|apply u64_range]. }
  destruct (_ =? _); [|assumption]. apply bm_ok_region_word; [assumption|].
  apply is_u_shr64. unfold is_u. rewrite Z.ones_equiv. lia.
Qed.

(** ** Reading several bits at once *)

Lemma bm_bit_split a i k :
  0 <= i -> 0 <= k < 64 ->
  bm_bit a (i + k) =
  if i mod 64 + k <? 64 then Z.testbit (word_at a (i / 64)) (i mod 64 + k)
  else Z.testbit (word_at a (i / 64 + 1)) (i mod 64 + k - 64).
Proof.
  intros Hi Hk. unfold bm_bit.
  pose proof (Z.div_mod i 64 ltac:(lia)). pose proof (Z.mod_pos_bound i 64 ltac:(lia)).
  set (q := i / 64) in *. set (r := i mod 64) in *. clearbody q r. subst i.
  destruct (Z.ltb_spec (r + k) 64).
  - replace (64 * q + r + k) with (r + k + q * 64) by lia.
    now rewrite Z.div_add, Z.mod_add, Z.div_small, Z.mod_small by lia.
  - replace (64 * q + r + k) with (r + k - 64 + (q + 1) * 64) by lia.
    now rewrite Z.div_add, Z.mod_add, Z.div_small, Z.mod_small by lia.
Qed.

Lemma get_multiple_no_check_bits bmi2 a i n k :
  0 <= i -> 0 <= n < 64 -> i mod 64 + n <= 64 -> 0 <= k < 64 ->
  Z.testbit (clib_bitmap_get_multiple_no_check bmi2 a i n) k = (k <? n) && bm_bit a (i + k).
Proof.
  intros Hi Hn Hle Hk. unfold clib_bitmap_get_multiple_no_check.
  pose proof (Z.mod_pos_bound i 64 ltac:(lia)).
  rewrite Z.land_spec, testbit_shr64, testbit_pow2_mask by lia. rewrite andb_comm.
  destruct (Z.ltb_spec k n); cbn [andb]; [|reflexivity].
  rewrite bm_bit_split by lia. rewrite (proj2 (Z.ltb_lt _ 64)) by lia. f_equal. lia.
Qed.

Lemma word_at_overflow a i : vec_len a <= i -> word_at a i = 0.
Proof. intros. unfold word_at. apply nth_overflow. unfold vec_len in *. lia. Qed.

(** A full word read at any bit position. *)
Lemma get_multiple_64_bits a i k :
  bm_ok a -> 0 <= i -> 0 <= k < 64 ->
  Z.testbit (clib_bitmap_get_multiple a i 64) k = bm_bit a (i + k).
Proof.
  intros Ha Hi Hk. unfold clib_bitmap_get_multiple. cbn [Z.ltb Z.compare Pos.compare Pos.compare_cont].
  pose proof (Z.mod_pos_bound i 64 ltac:(lia)) as Hm. rewrite bm_bit_split by lia.
  set (r := i mod 64) in *. clearbody r.
  replace (if i / 64 <? vec_len a then shr64 (word_at a (i / 64)) r else 0) with (shr64 (word_at a (i / 64)) r).
  2:{ destruct (Z.ltb_spec (i / 64) (vec_len a)); [reflexivity|]. rewrite word_at_overflow by lia. apply Z.shiftr_0_l. }
  assert (Z.testbit (shr64 (word_at a (i / 64)) r) k = (r + k <? 64) && Z.testbit (word_at a (i / 64)) (r + k)) as E1.
  { rewrite testbit_shr64, (Z.add_comm k r) by lia. destruct (Z.ltb_spec (r + k) 64); [reflexivity|].
    apply (is_u_testbit_high 64); [lia|now apply bm_ok_word|lia]. }
  destruct (Z.ltb_spec 64 (r + 64)); cbn [andb].
  - destruct (Z.ltb_spec (i / 64 + 1) (vec_len a)).
    + rewrite Z.lor_spec, E1, testbit_shl64 by lia. rewrite (proj2 (Z.ltb_lt k 64)) by lia. cbn [andb].
      destruct (Z.ltb_spec (r + k) 64); cbn [andb].
      * rewrite (proj2 (Z.leb_gt (64 - r) k)) by lia. apply orb_false_r.
      * rewrite (proj2 (Z.leb_le (64 - r) k)), orb_false_l, Z.land_spec by lia. cbn [andb].
        change (u64 (shl64 1 (64 - (64 - r)) - 1)) with (pow2_mask false (64 - (64 - r))).
        rewrite testbit_pow2_mask, (proj2 (Z.ltb_lt _ (64 - (64 - r)))), andb_true_r by lia. f_equal. lia.
    + rewrite E1, (word_at_overflow a (i / 64 + 1)), Z.bits_0 by lia. now destruct (r + k <? 64).
  - rewrite E1, (proj2 (Z.ltb_lt (r + k) 64)) by lia. reflexivity.
Qed.
