(* ===== verification/NetTypes.v ===== *)
(** * Network byte order and IP addresses

    Conversions between network and host order on the little-endian targets
    ([clib_net_to_host_*], [clib_host_to_net_*] of [vppinfra/byte_order.h]) and the
    address union of [vnet/ip/ip46_address.h]. *)

From S2P Require Import Prelude.

(** ** API errors ([vnet/error.h]) *)

Inductive vnet_api_error_t :=
| NO_SUCH_FIB | NO_SUCH_ENTRY | INVALID_VALUE | UNIMPLEMENTED | SYSCALL_ERROR_1 | SYSCALL_ERROR_2
| INVALID_WORKER | ENTRY_ALREADY_EXISTS | INIT_FAILED | KEY_LENGTH | UNSPECIFIED
| INVALID_SW_IF_INDEX | FEATURE_DISABLED | INVALID_INTERFACE | INVALID_ARGUMENT | VALUE_EXIST | INSTANCE_IN_USE.

(** ** Byte order *)

(** The [n] low bytes of [x] in reverse order. *)
Fixpoint bswap (n : nat) (x : Z) : Z :=
  match n with
  | O => 0
  | S n' => Z.lor (Z.shiftl (Z.land x 255) (8 * Z.of_nat n')) (bswap n' (Z.shiftr x 8))
  end.

Definition net_to_host_u16 (x : Z) : Z := bswap 2 x.
Definition net_to_host_u32 (x : Z) : Z := bswap 4 x.
Definition net_to_host_u64 (x : Z) : Z := bswap 8 x.
Definition host_to_net_u16 (x : Z) : Z := bswap 2 x.
Definition host_to_net_u32 (x : Z) : Z := bswap 4 x.
Definition host_to_net_u64 (x : Z) : Z := bswap 8 x.

(** ** Addresses *)

(** [ip46_address_t] as its two 64-bit words; the IPv4 address is the last of the
    four 32-bit words, in network order. *)
Record ip46_address_t := mk_ip46 { ip46_w0 : Z; ip46_w1 : Z }.

#[export] Instance ip46_eta : Eta ip46_address_t := fun a => mk_ip46 (ip46_w0 a) (ip46_w1 a).

#[export] Instance ip46_eq_dec : EqDecision ip46_address_t.
Proof. solve_decision. Defined.

Definition ip46_ip4 (a : ip46_address_t) : Z := Z.shiftr (ip46_w1 a) 32.
Definition ip46_of_ip4 (x : Z) : ip46_address_t := mk_ip46 0 (Z.shiftl x 32).
Definition ip46_address_is_ip4 (a : ip46_address_t) : bool := (ip46_w0 a =? 0) && (u32 (ip46_w1 a) =? 0).
Definition ip46_address_is_zero (a : ip46_address_t) : bool := (ip46_w0 a =? 0) && (ip46_w1 a =? 0).

Definition ip46_ok (a : ip46_address_t) : Prop := is_u 64 (ip46_w0 a) /\ is_u 64 (ip46_w1 a).

(** The value of an IPv6 address as a number, most significant byte first. *)
Definition ip6_num (a : ip46_address_t) : Z :=
  Z.lor (Z.shiftl (net_to_host_u64 (ip46_w0 a)) 64) (net_to_host_u64 (ip46_w1 a)).

(** [memcmp] of two addresses orders them as these numbers. *)
Definition ip6_address_compare (a b : ip46_address_t) : comparison := Z.compare (ip6_num a) (ip6_num b).

Inductive ip_address_family_t := AF_IP4 | AF_IP6.

#[export] Instance af_eq_dec : EqDecision ip_address_family_t.
Proof. solve_decision. Defined.

Record ip_address_t := mk_ip_address { ip_addr_46 : ip46_address_t; ip_addr_version : ip_address_family_t }.

#[export] Instance ip_address_eta : Eta ip_address_t := fun a => mk_ip_address (ip_addr_46 a) (ip_addr_version a).

#[export] Instance ip_address_eq_dec : EqDecision ip_address_t.
Proof. solve_decision. Defined.

(** [ip_address_copy]: of an IPv4 address only the 32 bits. *)
Definition ip_address_copy (src : ip_address_t) : ip_address_t :=
  match ip_addr_version src with
  | AF_IP4 => mk_ip_address (ip46_of_ip4 (ip46_ip4 (ip_addr_46 src))) AF_IP4
  | AF_IP6 => src
  end.

(** ** Lemmas on byte order *)

Lemma land_255_bits x i : 0 <= i -> Z.testbit (Z.land x 255) i = (i <? 8) && Z.testbit x i.
Proof.
  intros Hi. change 255 with (Z.ones 8). rewrite Z.land_spec, testbit_ones by lia. apply andb_comm.
Qed.

Lemma bswap_bits_high n x i : 8 * Z.of_nat n <= i -> Z.testbit (bswap n x) i = false.
Proof.
  revert x. induction n as [|n IH]; intros x Hi; cbn [bswap]; [apply Z.bits_0|].
  rewrite Z.lor_spec, IH, Z.shiftl_spec, land_255_bits by lia.
  now rewrite (proj2 (Z.ltb_ge _ 8)) by lia.
Qed.

Lemma bswap_bits n x i :
  0 <= i < 8 * Z.of_nat n ->
  Z.testbit (bswap n x) i = Z.testbit x (8 * (Z.of_nat n - 1 - i / 8) + i mod 8).
Proof.
  revert x. induction n as [|n IH]; intros x Hi; [lia|]. cbn [bswap]. rewrite Z.lor_spec, Z.shiftl_spec by lia.
  destruct (Z.leb_spec (8 * Z.of_nat n) i).
  - rewrite land_255_bits, (bswap_bits_high n), orb_false_r, (proj2 (Z.ltb_lt _ 8)) by lia. cbn [andb].
    f_equal. mod_lia.
  - rewrite (Z.testbit_neg_r _ (i - _)), IH, Z.shiftr_spec by mod_lia. cbn [orb]. f_equal. lia.
Qed.

Lemma bswap_is_u n x : is_u (8 * Z.of_nat n) (bswap n x).
Proof.
  apply is_u_bits; [lia| |intros; now apply bswap_bits_high].
  revert x. induction n as [|n IH]; intros x; cbn [bswap]; [lia|].
  apply Z.lor_nonneg. split; [apply Z.shiftl_nonneg, Z.land_nonneg; lia|apply IH].
Qed.

(** An equation between words of [8 n] bits, by bits. *)
Lemma bswap_ext n x y :
  (forall i, 0 <= i < 8 * Z.of_nat n -> Z.testbit (bswap n x) i = Z.testbit y i) ->
  (forall i, 8 * Z.of_nat n <= i -> Z.testbit y i = false) -> bswap n x = y.
Proof.
  intros H1 H2. apply Z.bits_inj'. intros i Hi.
  destruct (decide (i < 8 * Z.of_nat n)); [apply H1; lia|]. rewrite bswap_bits_high, H2 by lia. reflexivity.
Qed.

Lemma bswap_land n x y : bswap n (Z.land x y) = Z.land (bswap n x) (bswap n y).
Proof.
  apply bswap_ext; intros i Hi; rewrite Z.land_spec.
  - rewrite !bswap_bits by lia. apply Z.land_spec.
  - now rewrite !bswap_bits_high.
Qed.

Lemma bswap_lxor n x y : bswap n (Z.lxor x y) = Z.lxor (bswap n x) (bswap n y).
Proof.
  apply bswap_ext; intros i Hi; rewrite Z.lxor_spec.
  - rewrite !bswap_bits by lia. apply Z.lxor_spec.
  - now rewrite !bswap_bits_high.
Qed.

Lemma bswap_involutive n x : is_u (8 * Z.of_nat n) x -> bswap n (bswap n x) = x.
Proof.
  intros Hx. apply bswap_ext; intros i Hi.
  - rewrite !bswap_bits by mod_lia. f_equal.
    mod_lia.
  - now apply (is_u_testbit_high (8 * Z.of_nat n)); [lia|..].
Qed.

Lemma bswap_inj n x y :
  is_u (8 * Z.of_nat n) x -> is_u (8 * Z.of_nat n) y -> bswap n x = bswap n y -> x = y.
Proof. intros Hx Hy H. now rewrite <- (bswap_involutive n x Hx), H, bswap_involutive. Qed.

Lemma net_host_u32 x : is_u 32 x -> host_to_net_u32 (net_to_host_u32 x) = x.
Proof. apply (bswap_involutive 4). Qed.

Lemma host_net_u32 x : is_u 32 x -> net_to_host_u32 (host_to_net_u32 x) = x.
Proof. apply (bswap_involutive 4). Qed.

Lemma host_net_u16 x : is_u 16 x -> net_to_host_u16 (host_to_net_u16 x) = x.
Proof. apply (bswap_involutive 2). Qed.

Lemma net_host_u16 x : is_u 16 x -> host_to_net_u16 (net_to_host_u16 x) = x.
Proof. apply (bswap_involutive 2). Qed.

Lemma net_to_host_u32_range x : is_u 32 (net_to_host_u32 x).
Proof. apply (bswap_is_u 4). Qed.

Lemma net_to_host_u16_range x : is_u 16 (net_to_host_u16 x).
Proof. apply (bswap_is_u 2). Qed.

Lemma host_to_net_u32_range x : is_u 32 (host_to_net_u32 x).
Proof. apply (bswap_is_u 4). Qed.

Lemma host_to_net_u16_range x : is_u 16 (host_to_net_u16 x).
Proof. apply (bswap_is_u 2). Qed.

(** The range of a converted word, or of zero. *)
Ltac net_range :=
  match goal with
  | |- is_u _ (net_to_host_u32 _) => apply net_to_host_u32_range
  | |- is_u _ (net_to_host_u16 _) => apply net_to_host_u16_range
  | |- is_u _ (host_to_net_u32 _) => apply host_to_net_u32_range
  | |- is_u _ (host_to_net_u16 _) => apply host_to_net_u16_range
  | |- is_u _ 0 => split; [lia|reflexivity]
  end.

#[export] Hint Resolve net_to_host_u32_range net_to_host_u16_range : vpp.
