(* ===== verification/Packet.v ===== *)
(** * Bytes of packets

    Packet data is a list of bytes; fields are read as the little-endian loads of the
    targets do. *)

From stdpp Require Import base list numbers.
From S2P Require Import Prelude.

Definition byte_at (d : list Z) (i : nat) : Z := nth i d 0.
Definition u16_at (d : list Z) (i : nat) : Z := byte_at d i + 256 * byte_at d (i + 1).
Definition u32_at (d : list Z) (i : nat) : Z := u16_at d i + 65536 * u16_at d (i + 2).

Definition bytes_ok (d : list Z) : Prop := Forall (is_u 8) d.

Lemma byte_range d i : bytes_ok d -> is_u 8 (byte_at d i).
Proof.
  intros H. unfold byte_at. destruct (nth_in_or_default i d 0) as [Hin | ->]; [|split; reflexivity || discriminate].
  unfold bytes_ok in H. rewrite Forall_forall in H. now apply H, list_elem_of_In.
Qed.

Lemma u16_at_range d i : bytes_ok d -> 0 <= u16_at d i < 65536.
Proof. intros H. unfold u16_at. pose proof (byte_range d i H). pose proof (byte_range d (i + 1) H). unfold is_u in *. lia. Qed.

Lemma u32_at_range d i : bytes_ok d -> 0 <= u32_at d i < 4294967296.
Proof. intros H. unfold u32_at. pose proof (u16_at_range d i H). pose proof (u16_at_range d (i + 2) H). lia. Qed.

Lemma byte_at_insert d i j x : (i < length d)%nat -> byte_at (<[i := x]> d) j = if decide (j = i) then x else byte_at d j.
Proof.
  intros Hi. unfold byte_at. rewrite !nth_lookup, list_lookup_insert. destruct (decide (j = i)) as [->|Hne].
  - now rewrite decide_True by (split; [reflexivity|exact Hi]).
  - now rewrite decide_False by (intros [E _]; congruence).
Qed.

Lemma u32_at_ext d d' i : (forall j, (i <= j < i + 4)%nat -> byte_at d' j = byte_at d j) -> u32_at d' i = u32_at d i.
Proof. intros H. unfold u32_at, u16_at. now rewrite !H by lia. Qed.
