(* ===== verification/Pool.v ===== *)
(** * Pools of fixed-size objects

    The allocator of [vppinfra/pool.h]: a vector of elements, a bitmap that says
    which of them are free, and the vector of free indices used as a stack.
    Policies, SPDs, associations, keys and mask types live in such pools and refer
    to each other by index. *)

From S2P Require Import Prelude.

(** One slot per element of the vector: its bit in [free_bitmap] and its contents
    (a freed element keeps them).  [pool_free_indices] is [free_indices] with its
    last element first. *)
Record pool (A : Type) := mk_pool {
  pool_slots : list (bool * A);
  pool_free_indices : list Z
}.
Arguments mk_pool {A} _ _.
Arguments pool_slots {A} _.
Arguments pool_free_indices {A} _.

#[export] Instance pool_eta A : Eta (pool A) := fun p => mk_pool (pool_slots p) (pool_free_indices p).

(** Element [i] of a vector, for an unsigned index. *)
Definition vec_elt {A} (l : list A) (i : Z) : option A :=
  if i <? 0 then None else l !! Z.to_nat i.

(** [~0], the index of no object. *)
Definition INDEX_INVALID : Z := 2 ^ 32 - 1.

(** ** Vectors *)

(** [vec_del1]: the last element takes the place of the deleted one. *)
Definition vec_del1 {A} (l : list A) (i : nat) : list A :=
  match last l with
  | None => l
  | Some x => take (length l - 1) (<[i := x]> l)
  end.

(** [vec_delete (v, 1, i)]. *)
Definition vec_delete {A} (l : list A) (i : nat) : list A := delete i l.

(** First position of a vector at which [f] holds. *)
Fixpoint vec_search {A} (f : A -> bool) (l : list A) : option nat :=
  match l with
  | [] => None
  | x :: l' => if f x then Some 0%nat else S <$> vec_search f l'
  end.

Section Ops.
Context {A : Type}.
Implicit Types (p : pool A) (i : Z) (x : A).

Definition pool_empty : pool A := mk_pool [] [].

Definition pool_len p : Z := Z.of_nat (length (pool_slots p)).

(** Number of elements in use. *)
Definition pool_elts p : Z := pool_len p - Z.of_nat (length (pool_free_indices p)).

Definition pool_is_free_index p i : bool :=
  match vec_elt (pool_slots p) i with
  | Some (b, _) => b
  | None => true
  end.

(** [pool_elt_at_index]: the contents of slot [i], whether it is in use or not
    (the check of the macro is an [ASSERT]). *)
Definition pool_elt_at_index p i : option A := snd <$> vec_elt (pool_slots p) i.

(** Assignment through a pointer to element [i]. *)
Definition pool_write p i x : pool A :=
  match vec_elt (pool_slots p) i with
  | Some (b, _) => p <| pool_slots := <[Z.to_nat i := (b, x)]> (pool_slots p) |>
  | None => p
  end.

Definition pool_set_free_bit p i (b : bool) : pool A :=
  match vec_elt (pool_slots p) i with
  | Some (_, x) => p <| pool_slots := <[Z.to_nat i := (b, x)]> (pool_slots p) |>
  | None => p
  end.

(** [pool_get]: the top of the free stack if there is one, a new element at the
    end of the vector otherwise ([dflt] is the contents of fresh memory). *)
Definition pool_get (dflt : A) p : pool A * Z :=
  match pool_free_indices p with
  | i :: free => (pool_set_free_bit (p <| pool_free_indices := free |>) i false, i)
  | [] => (p <| pool_slots := pool_slots p ++ [(false, dflt)] |>, pool_len p)
  end.

(** [pool_get_zero]. *)
Definition pool_get_zero (zero : A) p : pool A * Z :=
  let '(p, i) := pool_get zero p in (pool_write p i zero, i).

Definition pool_put_index p i : pool A :=
  let p := pool_set_free_bit p i true in
  p <| pool_free_indices := i :: pool_free_indices p |>.

(** The elements in use, in the order of [pool_foreach]. *)
Fixpoint live_from (k : Z) (l : list (bool * A)) : list (Z * A) :=
  match l with
  | [] => []
  | (b, x) :: l' => (if b : bool then [] else [(k, x)]) ++ live_from (k + 1) l'
  end.

Definition pool_foreach p : list (Z * A) := live_from 0 (pool_slots p).

(** Number of elements in use that satisfy [f]. *)
Definition slot_count (f : A -> bool) (sl : bool * A) : Z := Z.b2z (negb (fst sl) && f (snd sl)).

Fixpoint slots_count (f : A -> bool) (l : list (bool * A)) : Z :=
  match l with
  | [] => 0
  | sl :: l' => slot_count f sl + slots_count f l'
  end.

Definition pool_count (f : A -> bool) p : Z := slots_count f (pool_slots p).

(** ** Specification: a finite map from indices to the elements in use *)

Definition pool_lookup p i : option A :=
  match vec_elt (pool_slots p) i with
  | Some (false, x) => Some x
  | _ => None
  end.

(** The free stack lists each free slot once and nothing else
    ([pool_validate]). *)
Record pool_ok p : Prop := {
  pool_free_nodup : NoDup (pool_free_indices p);
  pool_free_bits : forall i, i ∈ pool_free_indices p <-> exists x, vec_elt (pool_slots p) i = Some (true, x)
}.

End Ops.

(** ** Lemmas *)

(** [vec_del1] is a removal up to the order. *)
Lemma vec_del1_perm {A} (l : list A) k x : l !! k = Some x -> vec_del1 l k ≡ₚ delete k l.
Proof.
  intros Hk. assert (l <> []) as Hne by (intros ->; now rewrite lookup_nil in Hk).
  destruct (exists_last Hne) as (l' & y & ->). unfold vec_del1. rewrite last_snoc, length_app. cbn [length].
  replace (length l' + 1 - 1)%nat with (length l') by lia. pose proof (lookup_lt_Some _ _ _ Hk) as Hlt.
  rewrite length_app in Hlt. cbn [length] in Hlt. destruct (decide (k = length l')) as [->|Hn].
  - rewrite insert_app_r_alt, Nat.sub_diag by lia. cbn. rewrite take_app_length.
    now rewrite delete_take_drop, take_app_length, drop_ge, app_nil_r by (rewrite length_app; cbn; lia).
  - rewrite insert_app_l, take_app_length' by (rewrite ?length_insert; lia).
    rewrite lookup_app_l in Hk by lia. rewrite <- (take_drop_middle l' k x Hk) at 1. rewrite insert_app_r_alt by (rewrite length_take; lia).
    rewrite length_take, Nat.min_l, Nat.sub_diag by lia. cbn.
    rewrite delete_take_drop, take_app_le, drop_app_le by lia. solve_Permutation.
Qed.

Lemma vec_search_lookup {A} (f : A -> bool) l k : vec_search f l = Some k -> exists x, l !! k = Some x /\ f x = true.
Proof.
  revert k. induction l as [|x l IH]; cbn; intros k; [easy|]. destruct (f x) eqn:E; [intros [= <-]; eauto|].
  destruct (vec_search f l) as [n|]; [|easy]. intros [= <-]. cbn. auto.
Qed.

(** Removal. *)
Lemma vec_search_complete {A} (f : A -> bool) l x : x ∈ l -> f x = true -> is_Some (vec_search f l).
Proof.
  intros Hx Hf. induction l as [|y l IH]; [set_solver|]. cbn. destruct (f y) eqn:E; [eauto|].
  destruct IH as [n ->]; [|cbn; eauto]. apply elem_of_cons in Hx as [->|]; [congruence|assumption].
Qed.

Lemma elem_of_delete {A} (l : list A) k x : x ∈ delete k l -> x ∈ l.
Proof.
  rewrite !list_elem_of_lookup. intros [n Hn]. destruct (decide (n < k)%nat).
  - rewrite list_lookup_delete_lt in Hn by lia. eauto.
  - rewrite list_lookup_delete_ge in Hn by lia. eauto.
Qed.

Lemma nodup_delete {A} (l : list A) k : NoDup l -> NoDup (delete k l).
Proof. intros H. eapply sublist_NoDup; [exact H|apply sublist_delete]. Qed.

Lemma nodup_delete_notin {A} (l : list A) k x : NoDup l -> l !! k = Some x -> x ∉ delete k l.
Proof.
  intros Hn Hk. rewrite list_elem_of_lookup. intros [n Hx]. rewrite NoDup_alt in Hn.
  destruct (decide (n < k)%nat).
  - rewrite list_lookup_delete_lt in Hx by lia. specialize (Hn _ _ _ Hx Hk). lia.
  - rewrite list_lookup_delete_ge in Hx by lia. specialize (Hn _ _ _ Hx Hk). lia.
Qed.

Lemma delete_elem {A} (ids : list A) n i j : ids !! n = Some i -> j ∈ ids -> j <> i -> j ∈ delete n ids.
Proof.
  intros Hn Hj Hne. apply list_elem_of_lookup in Hj as [m Hm]. apply list_elem_of_lookup.
  destruct (decide (m < n)%nat); [exists m; now rewrite list_lookup_delete_lt|].
  destruct (decide (m = n)) as [->|]; [congruence|]. exists (m - 1)%nat.
  rewrite list_lookup_delete_ge by lia. now replace (S (m - 1)) with m by lia.
Qed.

(** Removal of an element of a vector without duplicates. *)
Lemma vec_del1_elem {A} (l : list A) k x y : NoDup l -> l !! k = Some x -> y ∈ vec_del1 l k <-> y ∈ l /\ y <> x.
Proof.
  intros Hn Hk. rewrite (vec_del1_perm _ _ _ Hk). split.
  - intros Hy. split; [exact (elem_of_delete _ _ _ Hy)|]. intros ->. exact (nodup_delete_notin _ _ _ Hn Hk Hy).
  - intros [Hy Hne]. exact (delete_elem _ _ _ _ Hk Hy Hne).
Qed.

Lemma vec_del1_nodup {A} (l : list A) k x : NoDup l -> l !! k = Some x -> NoDup (vec_del1 l k).
Proof. intros Hn Hk. rewrite (vec_del1_perm _ _ _ Hk). now apply nodup_delete. Qed.

Section Lemmas.
Context {A : Type}.
Implicit Types (p : pool A) (i j : Z) (x : A).

Lemma vec_elt_lt {B} (l : list B) i y : vec_elt l i = Some y -> 0 <= i < Z.of_nat (length l).
Proof.
  unfold vec_elt. destruct (Z.ltb_spec i 0); [easy|]. intros Hl%lookup_lt_Some. lia.
Qed.

Lemma vec_elt_ge {B} (l : list B) i : Z.of_nat (length l) <= i -> vec_elt l i = None.
Proof.
  unfold vec_elt. intros H. destruct (i <? 0); [easy|]. apply lookup_ge_None. lia.
Qed.

Lemma vec_elt_insert {B} (l : list B) i j y z :
  vec_elt l i = Some z ->
  vec_elt (<[Z.to_nat i := y]> l) j = if decide (j = i) then Some y else vec_elt l j.
Proof.
  intros Hi. apply vec_elt_lt in Hi. unfold vec_elt. destruct (Z.ltb_spec j 0).
  - destruct (decide (j = i)); [lia|reflexivity].
  - destruct (decide (j = i)) as [->|Hne].
    + apply list_lookup_insert_eq. lia.
    + apply list_lookup_insert_ne. lia.
Qed.

Lemma vec_elt_snoc {B} (l : list B) j y :
  vec_elt (l ++ [y]) j = if decide (j = Z.of_nat (length l)) then Some y else vec_elt l j.
Proof.
  unfold vec_elt. destruct (Z.ltb_spec j 0), (decide (j = Z.of_nat (length l))) as [->|Hne]; try lia; try easy.
  - rewrite lookup_app_r by lia. now rewrite Nat2Z.id, Nat.sub_diag.
  - destruct (decide (Z.to_nat j < length l)%nat).
    + now rewrite lookup_app_l by lia.
    + rewrite !lookup_ge_None_2; rewrite ?length_app; cbn; auto; lia.
Qed.

Lemma pool_lookup_elt p i x : pool_lookup p i = Some x -> pool_elt_at_index p i = Some x.
Proof. unfold pool_lookup, pool_elt_at_index. now destruct (vec_elt _ i) as [[[|] y]|]; intros [=->]. Qed.

Lemma pool_lookup_range p i x : pool_lookup p i = Some x -> 0 <= i < pool_len p.
Proof.
  unfold pool_lookup. destruct (vec_elt _ i) as [y|] eqn:E; [|easy]. intros _. now apply vec_elt_lt in E.
Qed.

Lemma pool_is_free_lookup p i : pool_is_free_index p i = true <-> pool_lookup p i = None.
Proof. unfold pool_is_free_index, pool_lookup. now destruct (vec_elt _ i) as [[[|] y]|]. Qed.

Lemma pool_empty_lookup i : pool_lookup (@pool_empty A) i = None.
Proof. unfold pool_lookup, vec_elt. now destruct (i <? 0). Qed.

Lemma pool_empty_ok : pool_ok (@pool_empty A).
Proof.
  split; [constructor|]. intros i. split; [intros H; now apply elem_of_nil in H|].
  intros (x & Hx%vec_elt_lt). cbn in Hx. lia.
Qed.

Lemma pool_write_lookup p i x y j :
  pool_lookup p i = Some y ->
  pool_lookup (pool_write p i x) j = if decide (j = i) then Some x else pool_lookup p j.
Proof.
  unfold pool_lookup, pool_write. destruct (vec_elt _ i) as [[[|] z]|] eqn:E; try easy. intros _.
  cbn. rewrite (vec_elt_insert _ _ _ _ _ E). now destruct (decide _).
Qed.

Lemma pool_write_free p i x : pool_free_indices (pool_write p i x) = pool_free_indices p.
Proof. unfold pool_write. now destruct (vec_elt _ i) as [[]|]. Qed.

Lemma pool_write_len p i x : pool_len (pool_write p i x) = pool_len p.
Proof.
  unfold pool_write, pool_len. destruct (vec_elt _ i) as [[]|]; cbn; [now rewrite length_insert|reflexivity].
Qed.

Lemma pool_write_elts p i x : pool_elts (pool_write p i x) = pool_elts p.
Proof. unfold pool_elts. now rewrite pool_write_len, pool_write_free. Qed.

Lemma pool_write_write p i x y : pool_write (pool_write p i x) i y = pool_write p i y.
Proof.
  unfold pool_write. destruct (vec_elt (pool_slots p) i) as [[b z]|] eqn:E; [|now rewrite E].
  cbn. rewrite (vec_elt_insert _ _ _ _ _ E), decide_True by reflexivity. cbn.
  now rewrite list_insert_insert_eq.
Qed.

Lemma pool_write_ok p i x : pool_ok p -> pool_ok (pool_write p i x).
Proof.
  intros [H1 H2]. split; [now rewrite pool_write_free|].
  intros j. rewrite pool_write_free, H2. unfold pool_write.
  destruct (vec_elt _ i) as [[b y]|] eqn:E; [|reflexivity]. cbn.
  rewrite (vec_elt_insert _ _ _ _ _ E). destruct (decide (j = i)) as [->|]; [|reflexivity].
  rewrite E. split; intros [z [=->]]; eauto.
Qed.

Lemma set_free_bit_slots p i b j y :
  vec_elt (pool_slots p) i = Some y ->
  vec_elt (pool_slots (pool_set_free_bit p i b)) j =
  if decide (j = i) then Some (b, snd y) else vec_elt (pool_slots p) j.
Proof. intros E. unfold pool_set_free_bit. rewrite E. destruct y. cbn. apply (vec_elt_insert _ _ _ _ _ E). Qed.

Lemma set_free_bit_free p i b : pool_free_indices (pool_set_free_bit p i b) = pool_free_indices p.
Proof. unfold pool_set_free_bit. now destruct (vec_elt _ i) as [[]|]. Qed.

Lemma set_free_bit_len p i b : pool_len (pool_set_free_bit p i b) = pool_len p.
Proof.
  unfold pool_set_free_bit, pool_len. destruct (vec_elt _ i) as [[]|]; cbn; [now rewrite length_insert|reflexivity].
Qed.

(** A successful allocation of index [i]: the pool [p'] has one more element in
    use, the others are untouched. *)
Record allocated p p' i : Prop := {
  al_ok : pool_ok p';
  al_fresh : pool_lookup p i = None;
  al_live : is_Some (pool_lookup p' i);
  al_other : forall j, j <> i -> pool_lookup p' j = pool_lookup p j;
  al_elts : pool_elts p' = pool_elts p + 1;
  al_range : 0 <= i < pool_len p';
  al_len : pool_len p <= pool_len p' <= pool_len p + 1
}.

Lemma pool_get_allocated dflt p : pool_ok p -> let '(p', i) := pool_get dflt p in allocated p p' i.
Proof.
  intros [Hnd Hfb]. unfold pool_get. destruct (pool_free_indices p) as [|i free] eqn:Ef.
  - assert (forall j, vec_elt (pool_slots p ++ [(false, dflt)]) j =
      if decide (j = pool_len p) then Some (false, dflt) else vec_elt (pool_slots p) j) as Hl
      by (intros j; apply vec_elt_snoc).
    split; cbn; unfold pool_lookup, pool_elts, pool_len in *; cbn; rewrite ?length_app; cbn; try lia.
    + split; cbn; rewrite ?Ef; [easy|]. intros i. rewrite Hfb, Hl.
      destruct (decide _) as [->|]; [|reflexivity]. rewrite vec_elt_ge by lia. now split; intros [? [=]].
    + now rewrite vec_elt_ge by lia.
    + rewrite Hl, decide_True by reflexivity. eauto.
    + intros j Hj. now rewrite Hl, decide_False.
  - destruct (proj1 (Hfb i) (list_elem_of_here _ _)) as [x Ex].
    set (q := p <| pool_free_indices := free |>).
    assert (forall j, vec_elt (pool_slots (pool_set_free_bit q i false)) j =
      if decide (j = i) then Some (false, x) else vec_elt (pool_slots p) j) as Hl
      by (intros j; now rewrite (set_free_bit_slots q i false j (true, x))).
    apply NoDup_cons in Hnd as [Hni Hnd'].
    pose proof (set_free_bit_len q i false) as Hlen. change (pool_len q) with (pool_len p) in Hlen.
    split; unfold pool_lookup, pool_elts; rewrite ?Hlen, ?set_free_bit_free; cbn; rewrite ?Ef; cbn; try lia.
    + split; rewrite set_free_bit_free; cbn; [easy|]. intros j. rewrite Hl.
      destruct (decide (j = i)) as [->|Hne].
      * split; [easy|]. now intros [? [=]].
      * rewrite <- Hfb, elem_of_cons. intuition.
    + now rewrite Ex.
    + rewrite Hl, decide_True by reflexivity. eauto.
    + intros j Hj. now rewrite Hl, decide_False.
    + apply (vec_elt_lt _ _ _ Ex).
Qed.

Lemma pool_get_zero_allocated zero p :
  pool_ok p -> let '(p', i) := pool_get_zero zero p in allocated p p' i /\ pool_lookup p' i = Some zero.
Proof.
  intros H. unfold pool_get_zero. pose proof (pool_get_allocated zero p H) as Ha.
  destruct (pool_get zero p) as [p' i]. destruct Ha as [H1 H2 [y Hy] H4 H5 H6 H7].
  assert (forall j, pool_lookup (pool_write p' i zero) j = if decide (j = i) then Some zero else pool_lookup p' j)
    as Hl by (intros j; now apply (pool_write_lookup p' i zero y)).
  split; [|now rewrite Hl, decide_True]. split; rewrite ?pool_write_elts, ?pool_write_len; auto.
  - now apply pool_write_ok.
  - rewrite Hl, decide_True by reflexivity. eauto.
  - intros j Hj. rewrite Hl, decide_False by easy. auto.
Qed.

Lemma pool_put_lookup p i x j :
  pool_lookup p i = Some x ->
  pool_lookup (pool_put_index p i) j = if decide (j = i) then None else pool_lookup p j.
Proof.
  unfold pool_lookup, pool_put_index. destruct (vec_elt _ i) as [[[|] y]|] eqn:E; try easy. intros _.
  cbn. rewrite (set_free_bit_slots p i true j _ E). now destruct (decide _).
Qed.

Lemma pool_put_ok p i x : pool_ok p -> pool_lookup p i = Some x -> pool_ok (pool_put_index p i).
Proof.
  intros [Hnd Hfb]. unfold pool_lookup. destruct (vec_elt _ i) as [[[|] y]|] eqn:E; try easy. intros _.
  unfold pool_put_index. split; cbn; rewrite set_free_bit_free.
  - constructor; [|easy]. rewrite Hfb, E. now intros [? [=]].
  - intros j. rewrite elem_of_cons, Hfb, (set_free_bit_slots p i true j _ E).
    destruct (decide (j = i)) as [->|]; [|intuition]. rewrite E. split; eauto.
Qed.

Lemma pool_put_len p i : pool_len (pool_put_index p i) = pool_len p.
Proof. unfold pool_put_index. cbn. apply set_free_bit_len. Qed.

Lemma pool_put_elts p i : pool_elts (pool_put_index p i) = pool_elts p - 1.
Proof.
  unfold pool_elts. rewrite pool_put_len. unfold pool_put_index. cbn. rewrite set_free_bit_free. lia.
Qed.

Lemma live_from_elem k (l : list (bool * A)) i x :
  (i, x) ∈ live_from k l <-> exists n : nat, i = k + Z.of_nat n /\ l !! n = Some (false, x).
Proof.
  revert k. induction l as [|[b y] l IH]; intros k; cbn.
  - rewrite elem_of_nil. split; [easy|]. intros (n & _ & H). now rewrite lookup_nil in H.
  - rewrite elem_of_app, IH. split.
    + intros [H|(n & -> & H)]; [|exists (S n); split; [lia|exact H]].
      destruct b; [now apply elem_of_nil in H|]. apply list_elem_of_singleton in H as [= -> ->].
      exists O. split; [lia|reflexivity].
    + intros ([|n] & -> & H); [left|right; exists n; split; [lia|exact H]].
      injection H as -> ->. rewrite Z.add_0_r. now apply list_elem_of_singleton.
Qed.

Lemma pool_foreach_elem p i x : (i, x) ∈ pool_foreach p <-> pool_lookup p i = Some x.
Proof.
  unfold pool_foreach. rewrite live_from_elem. unfold pool_lookup, vec_elt. split.
  - intros (n & -> & H). rewrite Z.add_0_l, (proj2 (Z.ltb_ge _ 0)) by lia. now rewrite Nat2Z.id, H.
  - destruct (Z.ltb_spec i 0); [easy|]. destruct (pool_slots p !! Z.to_nat i) as [[[|] y]|] eqn:E; try easy.
    intros [= ->]. exists (Z.to_nat i). split; [lia|exact E].
Qed.

Lemma live_from_nodup k (l : list (bool * A)) : NoDup (map fst (live_from k l)).
Proof.
  revert k. induction l as [|[b x] l IH]; intros k; cbn; [constructor|]. rewrite map_app. apply NoDup_app. split; [destruct b; cbn; [constructor|apply NoDup_singleton]|].
  split; [|apply IH]. intros i Hi Hl. apply list_elem_of_fmap in Hl as ([j y] & -> & Hy). apply live_from_elem in Hy as (n & -> & _).
  destruct b; cbn in Hi; [now apply elem_of_nil in Hi|]. apply list_elem_of_singleton in Hi. lia.
Qed.

Lemma pool_foreach_nodup p : NoDup (map fst (pool_foreach p)).
Proof. apply live_from_nodup. Qed.

(** Elements stay where they are when others are allocated. *)
Lemma allocated_elt p p' i j x :
  allocated p p' i -> pool_lookup p j = Some x -> pool_lookup p' j = Some x.
Proof.
  intros Ha Hj. rewrite (al_other _ _ _ Ha); [exact Hj|]. intros ->. rewrite (al_fresh _ _ _ Ha) in Hj. discriminate.
Qed.

Lemma elt_some_range p i : 0 <= i < pool_len p -> is_Some (pool_elt_at_index p i).
Proof.
  intros Hi. unfold pool_elt_at_index, vec_elt. destruct (Z.ltb_spec i 0); [lia|].
  unfold pool_len in Hi. destruct (lookup_lt_is_Some_2 (pool_slots p) (Z.to_nat i)) as [x Hx]; [lia|].
  rewrite Hx. eauto.
Qed.

(** Allocation followed by an assignment. *)
Lemma pool_get_write dflt p x :
  pool_ok p ->
  let '(p', i) := pool_get dflt p in
  allocated p (pool_write p' i x) i /\ pool_lookup (pool_write p' i x) i = Some x.
Proof.
  intros Hp. pose proof (pool_get_allocated dflt p Hp) as Ha. destruct (pool_get dflt p) as [p' i].
  destruct Ha as [A1 A2 [y Hy] A4 A5 A6 A7]. pose proof (pool_write_lookup p' i x y) as Hw.
  assert (pool_lookup (pool_write p' i x) i = Some x) as Hx by now rewrite Hw, decide_True.
  split; [|exact Hx]. split; rewrite ?pool_write_elts, ?pool_write_len; try assumption.
  - now apply pool_write_ok.
  - now rewrite Hx.
  - intros j Hj. rewrite Hw, decide_False by assumption. auto.
Qed.

(** Counting: one slot changes at a time. *)
Lemma slots_count_insert (f : A -> bool) (l : list (bool * A)) n old new :
  l !! n = Some old ->
  slots_count f (<[n := new]> l) = slots_count f l - slot_count f old + slot_count f new.
Proof.
  revert n. induction l as [|a l IH]; intros [|n] H; try easy.
  - injection H as ->. cbn [insert list_insert slots_count]. lia.
  - change (<[S n := new]> (a :: l)) with (a :: <[n := new]> l). cbn [slots_count]. rewrite (IH _ H). lia.
Qed.

Lemma slots_count_app f (l1 l2 : list (bool * A)) :
  slots_count f (l1 ++ l2) = slots_count f l1 + slots_count f l2.
Proof. induction l1 as [|a l IH]; cbn [slots_count app]; [reflexivity|]. rewrite IH. lia. Qed.

Lemma vec_elt_lookup {B} (l : list B) i y : vec_elt l i = Some y -> l !! Z.to_nat i = Some y.
Proof. unfold vec_elt. now destruct (i <? 0). Qed.

Lemma pool_count_write f p i x y :
  pool_lookup p i = Some y -> pool_count f (pool_write p i x) = pool_count f p - Z.b2z (f y) + Z.b2z (f x).
Proof.
  unfold pool_lookup, pool_write. destruct (vec_elt _ i) as [[[|] z]|] eqn:E; try easy. intros [= ->].
  unfold pool_count. cbn. now rewrite (slots_count_insert f _ _ _ _ (vec_elt_lookup _ _ _ E)).
Qed.

Lemma pool_count_put f p i x :
  pool_lookup p i = Some x -> pool_count f (pool_put_index p i) = pool_count f p - Z.b2z (f x).
Proof.
  unfold pool_lookup, pool_put_index, pool_set_free_bit. destruct (vec_elt _ i) as [[[|] z]|] eqn:E; try easy.
  intros [= ->]. unfold pool_count. cbn. rewrite (slots_count_insert f _ _ _ _ (vec_elt_lookup _ _ _ E)).
  unfold slot_count. cbn. lia.
Qed.

Lemma pool_count_get f zero p :
  pool_ok p -> pool_count f (fst (pool_get_zero zero p)) = pool_count f p + Z.b2z (f zero).
Proof.
  intros [Hnd Hfb]. unfold pool_get_zero, pool_get. destruct (pool_free_indices p) as [|i free] eqn:Ef; cbn.
  - set (q := p <| pool_slots := pool_slots p ++ [(false, zero)] |>).
    rewrite (pool_count_write f q _ zero zero).
    + unfold pool_count, q. cbn. rewrite slots_count_app. unfold slots_count at 2, slot_count. cbn. lia.
    + unfold pool_lookup, q. cbn. rewrite vec_elt_snoc, decide_True by reflexivity. reflexivity.
  - destruct (proj1 (Hfb i) (list_elem_of_here _ _)) as [x Ex].
    set (q := pool_set_free_bit (p <| pool_free_indices := free |>) i false).
    rewrite (pool_count_write f q _ zero x).
    + unfold q, pool_set_free_bit. cbn. rewrite Ex. unfold pool_count. cbn.
      rewrite (slots_count_insert f _ _ _ _ (vec_elt_lookup _ _ _ Ex)). unfold slot_count. cbn. lia.
    + unfold pool_lookup, q.
      rewrite (set_free_bit_slots _ i false i (true, x)) by exact Ex. now rewrite decide_True.
Qed.

Lemma pool_count_get_write f dflt p x :
  pool_ok p ->
  let '(p', i) := pool_get dflt p in pool_count f (pool_write p' i x) = pool_count f p + Z.b2z (f x).
Proof.
  intros Hp. pose proof (pool_count_get f dflt p Hp) as Hc. pose proof (pool_get_write dflt p dflt Hp) as Hw.
  unfold pool_get_zero in Hc. destruct (pool_get dflt p) as [p' i]. destruct Hw as [_ Hl]. cbn in Hc.
  rewrite <- (pool_write_write p' i dflt x), (pool_count_write f _ i x dflt Hl). lia.
Qed.

Lemma slots_count_pos f (l : list (bool * A)) :
  0 <= slots_count f l <= Z.of_nat (length l).
Proof.
  induction l as [|[[|] x] l IH]; cbn [slots_count length]; unfold slot_count; cbn [fst snd negb andb Z.b2z]; [lia..|].
  destruct (f x); cbn [Z.b2z]; lia.
Qed.

Lemma pool_count_bounds f p : 0 <= pool_count f p <= pool_len p.
Proof. apply slots_count_pos. Qed.

Lemma pool_count_pos f p i x : pool_lookup p i = Some x -> f x = true -> 0 < pool_count f p.
Proof.
  intros Hx Hf. pose proof (pool_count_put f p i x Hx) as E. rewrite Hf in E. cbn [Z.b2z] in E.
  pose proof (pool_count_bounds f (pool_put_index p i)) as Hb. lia.
Qed.

Lemma pool_count_ext f g p : (forall x, f x = g x) -> pool_count f p = pool_count g p.
Proof.
  intros H. unfold pool_count. induction (pool_slots p) as [|[b x] l IH]; cbn [slots_count]; [reflexivity|].
  rewrite IH. unfold slot_count. cbn. now rewrite H.
Qed.

End Lemmas.

#[export] Hint Resolve pool_empty_ok pool_write_ok pool_put_ok pool_lookup_elt : vpp.

(** ** Sums over the elements in use *)

Section Sum.
Context {A : Type}.
Implicit Types (f : A -> Z) (p : pool A).

Definition slot_val f (sl : bool * A) : Z := if fst sl then 0 else f (snd sl).
Definition slots_sum f (l : list (bool * A)) : Z := foldr (fun sl n => slot_val f sl + n) 0 l.
Definition pool_sum f p : Z := slots_sum f (pool_slots p).
#[local] Arguments slots_sum : simpl never.

Lemma slots_sum_insert f l n old new : l !! n = Some old -> slots_sum f (<[n := new]> l) = slots_sum f l - slot_val f old + slot_val f new.
Proof.
  unfold slots_sum. revert n. induction l as [|a l IH]; intros [|n] H; try easy.
  - injection H as ->. cbn. lia.
  - change (<[S n := new]> (a :: l)) with (a :: <[n := new]> l). cbn [foldr]. rewrite (IH _ H). lia.
Qed.

Lemma slots_sum_app f l1 l2 : slots_sum f (l1 ++ l2) = slots_sum f l1 + slots_sum f l2.
Proof. unfold slots_sum. induction l1 as [|a l IH]; cbn [app foldr]; [reflexivity|]. rewrite IH. lia. Qed.

Lemma pool_sum_write f p i x y : pool_lookup p i = Some y -> pool_sum f (pool_write p i x) = pool_sum f p - f y + f x.
Proof.
  unfold pool_lookup, pool_write. destruct (vec_elt _ i) as [[[|] z]|] eqn:E; try easy. intros [= ->].
  unfold pool_sum. cbn. now rewrite (slots_sum_insert f _ _ _ _ (vec_elt_lookup _ _ _ E)).
Qed.

Lemma pool_sum_put f p i x : pool_lookup p i = Some x -> pool_sum f (pool_put_index p i) = pool_sum f p - f x.
Proof.
  unfold pool_lookup, pool_put_index, pool_set_free_bit. destruct (vec_elt _ i) as [[[|] z]|] eqn:E; try easy.
  intros [= ->]. unfold pool_sum. cbn. rewrite (slots_sum_insert f _ _ _ _ (vec_elt_lookup _ _ _ E)). unfold slot_val. cbn. lia.
Qed.

Lemma pool_sum_get_write f dflt p x : pool_ok p -> let '(p', i) := pool_get dflt p in pool_sum f (pool_write p' i x) = pool_sum f p + f x.
Proof.
  intros Hok. pose proof (pool_get_allocated dflt p Hok) as Ha. unfold pool_get in *. destruct (pool_free_indices p) as [|i free] eqn:Ef.
  - destruct (al_live _ _ _ Ha) as [y Hy]. rewrite (pool_sum_write f _ _ x y Hy). unfold pool_lookup in Hy. cbn in Hy. unfold pool_len in Hy. rewrite vec_elt_snoc, decide_True in Hy by reflexivity. injection Hy as <-.
    unfold pool_sum. cbn. rewrite slots_sum_app. unfold slots_sum at 2. cbn. lia.
  - destruct (proj1 (pool_free_bits _ Hok i)) as [z Hz]; [rewrite Ef; apply list_elem_of_here|]. destruct (al_live _ _ _ Ha) as [y Hy]. rewrite (pool_sum_write f _ _ x y Hy).
    unfold pool_lookup in Hy. rewrite (set_free_bit_slots _ i false i (true, z)), decide_True in Hy by (reflexivity || exact Hz). injection Hy as <-.
    unfold pool_set_free_bit. cbn. rewrite Hz. unfold pool_sum. cbn. rewrite (slots_sum_insert f _ _ _ _ (vec_elt_lookup _ _ _ Hz)). unfold slot_val. cbn. lia.
Qed.

Lemma pool_sum_empty f p : (forall i, pool_lookup p i = None) -> pool_sum f p = 0.
Proof.
  intros H. unfold pool_sum. assert (Forall (fun sl => fst sl = true) (pool_slots p)) as Hf.
  { apply Forall_lookup. intros n [b x] Hn. specialize (H (Z.of_nat n)). unfold pool_lookup, vec_elt in H. rewrite (proj2 (Z.ltb_ge _ 0)), Nat2Z.id, Hn in H by lia. now destruct b. }
  induction Hf as [|[b x] l Hb _ IH]; [reflexivity|]. unfold slots_sum, slot_val in *. cbn in *. now rewrite Hb.
Qed.

Lemma slots_sum_nonneg f l : (forall x, 0 <= f x) -> 0 <= slots_sum f l.
Proof. intros H. unfold slots_sum, slot_val in *. induction l as [|[[|] x] l IH]; cbn; [lia|lia|]. specialize (H x). lia. Qed.

(** An element in use is part of the sum. *)
Lemma pool_sum_ge f p i x : (forall x, 0 <= f x) -> pool_lookup p i = Some x -> f x <= pool_sum f p.
Proof.
  intros H Hx. pose proof (pool_sum_put f p i x Hx). pose proof (slots_sum_nonneg f (pool_slots (pool_put_index p i)) H) as Hn. unfold pool_sum in *. lia.
Qed.

End Sum.
