(* ===== verification/Crypto.v ===== *)
(** * Crypto algorithms and keys

    The algorithm identifiers of [vnet/crypto/crypto.h] and the key store of
    [vnet/crypto/crypto.c]: keys of a given length, and keys that link a cipher key
    with an integrity key.  Crypto engines are plugins called through function
    pointers; they do not change the store. *)

From S2P Require Import Prelude Pool.

(** ** Algorithms *)

Inductive crypto_cipher_alg :=
| DES_CBC | TDES_CBC
| AES_128_CBC | AES_192_CBC | AES_256_CBC
| AES_128_CTR | AES_192_CTR | AES_256_CTR.

Inductive crypto_aead_alg :=
| AES_128_GCM | AES_192_GCM | AES_256_GCM
| AES_128_NULL_GMAC | AES_192_NULL_GMAC | AES_256_NULL_GMAC
| CHACHA20_POLY1305.

Inductive crypto_hmac_alg := MD5 | SHA1 | SHA224 | SHA256 | SHA384 | SHA512.
Inductive crypto_hash_alg := HASH_SHA1 | HASH_SHA224 | HASH_SHA256 | HASH_SHA384 | HASH_SHA512.

#[export] Instance cipher_eq_dec : EqDecision crypto_cipher_alg.
Proof. solve_decision. Defined.
#[export] Instance aead_eq_dec : EqDecision crypto_aead_alg.
Proof. solve_decision. Defined.
#[export] Instance hmac_eq_dec : EqDecision crypto_hmac_alg.
Proof. solve_decision. Defined.
#[export] Instance hash_eq_dec : EqDecision crypto_hash_alg.
Proof. solve_decision. Defined.

Inductive vnet_crypto_alg_t :=
| ALG_NONE
| ALG_CIPHER (c : crypto_cipher_alg)
| ALG_AEAD (a : crypto_aead_alg)
| ALG_HMAC (h : crypto_hmac_alg)
| ALG_HASH (h : crypto_hash_alg).

#[export] Instance crypto_alg_eq_dec : EqDecision vnet_crypto_alg_t.
Proof. solve_decision. Defined.

(** Synchronous operations. *)
Inductive vnet_crypto_op_id_t :=
| OP_NONE
| OP_ENC (c : crypto_cipher_alg) | OP_DEC (c : crypto_cipher_alg)
| OP_AEAD_ENC (a : crypto_aead_alg) | OP_AEAD_DEC (a : crypto_aead_alg)
| OP_HMAC (h : crypto_hmac_alg).

#[export] Instance crypto_op_eq_dec : EqDecision vnet_crypto_op_id_t.
Proof. solve_decision. Defined.

(** Asynchronous algorithms and operations: an AEAD with its tag and AAD lengths,
    or a cipher linked with an HMAC of a digest length. *)
Inductive vnet_crypto_async_alg_t :=
| ASYNC_ALG_NONE
| ASYNC_ALG_AEAD (a : crypto_aead_alg) (tag aad : Z)
| ASYNC_ALG_LINK (c : crypto_cipher_alg) (h : crypto_hmac_alg) (digest : Z).

Inductive vnet_crypto_async_op_id_t :=
| ASYNC_OP_NONE
| ASYNC_OP_AEAD_ENC (a : crypto_aead_alg) (tag aad : Z)
| ASYNC_OP_AEAD_DEC (a : crypto_aead_alg) (tag aad : Z)
| ASYNC_OP_LINK_ENC (c : crypto_cipher_alg) (h : crypto_hmac_alg) (digest : Z)
| ASYNC_OP_LINK_DEC (c : crypto_cipher_alg) (h : crypto_hmac_alg) (digest : Z).

#[export] Instance async_op_eq_dec : EqDecision vnet_crypto_async_op_id_t.
Proof. solve_decision. Defined.

(** Key lengths of [foreach_crypto_cipher_alg] and [foreach_crypto_aead_alg]. *)
Definition cipher_key_len (c : crypto_cipher_alg) : Z :=
  match c with
  | DES_CBC => 7
  | TDES_CBC => 24
  | AES_128_CBC | AES_128_CTR => 16
  | AES_192_CBC | AES_192_CTR => 24
  | AES_256_CBC | AES_256_CTR => 32
  end.

Definition aead_key_len (a : crypto_aead_alg) : Z :=
  match a with
  | AES_128_GCM | AES_128_NULL_GMAC => 16
  | AES_192_GCM | AES_192_NULL_GMAC => 24
  | AES_256_GCM | AES_256_NULL_GMAC => 32
  | CHACHA20_POLY1305 => 32
  end.

(** Digest length of the pairs of [foreach_crypto_link_async_alg]. *)
Definition foreach_crypto_link_async_alg (c : crypto_cipher_alg) (h : crypto_hmac_alg) : option Z :=
  match c, h with
  | (TDES_CBC | AES_128_CBC | AES_192_CBC | AES_256_CBC), MD5 => Some 12
  | (TDES_CBC | AES_128_CBC | AES_192_CBC | AES_256_CBC), SHA1 => Some 12
  | (TDES_CBC | AES_128_CBC | AES_192_CBC | AES_256_CBC), SHA224 => Some 14
  | (TDES_CBC | AES_128_CBC | AES_192_CBC | AES_256_CBC), SHA256 => Some 16
  | (TDES_CBC | AES_128_CBC | AES_192_CBC | AES_256_CBC), SHA384 => Some 24
  | (TDES_CBC | AES_128_CBC | AES_192_CBC | AES_256_CBC), SHA512 => Some 32
  | (AES_128_CTR | AES_192_CTR | AES_256_CTR), SHA1 => Some 12
  | _, _ => None
  end.

(** ** Keys *)

Inductive crypto_key_type := VNET_CRYPTO_KEY_TYPE_DATA | VNET_CRYPTO_KEY_TYPE_LINK.

(** [vnet_crypto_key_t]; [key_data] and [key_alg] are live in a data key, the
    other fields in a link key. *)
Record vnet_crypto_key_t := mk_key {
  key_type : crypto_key_type;
  key_data : list Z;
  key_alg : vnet_crypto_alg_t;
  key_index_crypto : Z;
  key_index_integ : Z;
  key_async_alg : vnet_crypto_async_alg_t
}.

#[export] Instance key_eta : Eta vnet_crypto_key_t := fun k =>
  mk_key (key_type k) (key_data k) (key_alg k) (key_index_crypto k) (key_index_integ k) (key_async_alg k).

Definition key_zero : vnet_crypto_key_t := mk_key VNET_CRYPTO_KEY_TYPE_DATA [] ALG_NONE 0 0 ASYNC_ALG_NONE.

Definition vnet_crypto_key_len_check (alg : vnet_crypto_alg_t) (length : Z) : bool :=
  match alg with
  | ALG_NONE => true
  | ALG_CIPHER c => cipher_key_len c =? length
  | ALG_AEAD a => aead_key_len a =? length
  | ALG_HMAC _ => true
  | ALG_HASH _ => true
  end.

Definition vnet_crypto_key_add (keys : pool vnet_crypto_key_t) (alg : vnet_crypto_alg_t)
    (data : list Z) (length : Z) : pool vnet_crypto_key_t * Z :=
  if negb (vnet_crypto_key_len_check alg length) then (keys, INDEX_INVALID)
  else
    let '(keys, index) := pool_get_zero key_zero keys in
    let key := key_zero <| key_type := VNET_CRYPTO_KEY_TYPE_DATA |> <| key_alg := alg |>
                 <| key_data := take (Z.to_nat length) data |> in
    (pool_write keys index key, index).

Definition vnet_crypto_key_del (keys : pool vnet_crypto_key_t) (index : Z) : pool vnet_crypto_key_t :=
  match pool_elt_at_index keys index with
  | None => keys
  | Some key =>
      let key :=
        match key_type key with
        | VNET_CRYPTO_KEY_TYPE_DATA => key <| key_data := [] |>
        | VNET_CRYPTO_KEY_TYPE_LINK =>
            key <| key_index_crypto := INDEX_INVALID |> <| key_index_integ := INDEX_INVALID |>
        end in
      pool_put_index (pool_write keys index key) index
  end.

Definition vnet_crypto_link_algs (crypto_alg integ_alg : vnet_crypto_alg_t) : option vnet_crypto_async_alg_t :=
  match crypto_alg, integ_alg with
  | ALG_CIPHER c, ALG_HMAC h => ASYNC_ALG_LINK c h <$> foreach_crypto_link_async_alg c h
  | _, _ => None
  end.

Definition vnet_crypto_key_add_linked (keys : pool vnet_crypto_key_t) (index_crypto index_integ : Z)
  : pool vnet_crypto_key_t * Z :=
  match pool_elt_at_index keys index_crypto, pool_elt_at_index keys index_integ with
  | Some key_crypto, Some key_integ =>
      match vnet_crypto_link_algs (key_alg key_crypto) (key_alg key_integ) with
      | None => (keys, INDEX_INVALID)
      | Some linked_alg =>
          let '(keys, index) := pool_get_zero key_zero keys in
          let key := key_zero <| key_type := VNET_CRYPTO_KEY_TYPE_LINK |>
                       <| key_index_crypto := index_crypto |> <| key_index_integ := index_integ |>
                       <| key_async_alg := linked_alg |> in
          (pool_write keys index key, index)
      end
  | _, _ => (keys, INDEX_INVALID)
  end.
