(* ===== verification/IpsecSa.v ===== *)
(** * IPsec security associations: data model

    The state of a security association, from [vnet/ipsec/ipsec_sa.h], and the
    accessors of its flags.  Field names are those of [ipsec_sa_replay_t] with the
    prefix [sa_]. *)

From S2P Require Import Prelude Bitmap NetTypes Crypto.

(** ** Flags ([foreach_ipsec_sa_flags]) *)

Definition IPSEC_SA_FLAG_USE_ESN : Z := 1.
Definition IPSEC_SA_FLAG_USE_ANTI_REPLAY : Z := 2.
Definition IPSEC_SA_FLAG_IS_TUNNEL : Z := 4.
Definition IPSEC_SA_FLAG_IS_TUNNEL_V6 : Z := 8.
Definition IPSEC_SA_FLAG_UDP_ENCAP : Z := 16.
Definition IPSEC_SA_FLAG_IS_PROTECT : Z := 32.
Definition IPSEC_SA_FLAG_IS_INBOUND : Z := 64.
Definition IPSEC_SA_FLAG_IS_AEAD : Z := 128.
Definition IPSEC_SA_FLAG_IS_CTR : Z := 256.
Definition IPSEC_SA_FLAG_IS_ASYNC : Z := 512.
Definition IPSEC_SA_FLAG_NO_ALGO_NO_DROP : Z := 1024.
Definition IPSEC_SA_FLAG_IS_NULL_GMAC : Z := 2048.
Definition IPSEC_SA_FLAG_ANTI_REPLAY_HUGE : Z := 4096.

(** ** Anti-replay state *)

(** The fields of [ipsec_sa_t] that the anti-replay code reads or writes.
    [replay_window] and [replay_window_huge] are a union in the source; the flag
    [ANTI_REPLAY_HUGE] says which member is live. *)
Record ipsec_sa_replay_t := mk_ipsec_sa_replay {
  sa_replay_window : Z;
  sa_replay_window_huge : list Z;
  sa_spi : Z;
  sa_seq : Z;
  sa_seq_hi : Z;
  sa_flags : Z
}.

#[export] Instance ipsec_sa_eta : Eta ipsec_sa_replay_t := fun r =>
  mk_ipsec_sa_replay (sa_replay_window r) (sa_replay_window_huge r) (sa_spi r) (sa_seq r)
    (sa_seq_hi r) (sa_flags r).

(** [ipsec_sa_is_set_<flag>], [ipsec_sa_set_<flag>], [ipsec_sa_unset_<flag>]. *)
Definition ipsec_sa_is_set (f : Z) (sa : ipsec_sa_replay_t) : bool :=
  negb (Z.land (sa_flags sa) f =? 0).

Definition ipsec_sa_set (f : Z) (sa : ipsec_sa_replay_t) : ipsec_sa_replay_t :=
  sa <| sa_flags := Z.lor (sa_flags sa) f |>.

Definition ipsec_sa_unset (f : Z) (sa : ipsec_sa_replay_t) : ipsec_sa_replay_t :=
  sa <| sa_flags := Z.ldiff (sa_flags sa) f |>.

Abbreviation is_ESN := (ipsec_sa_is_set IPSEC_SA_FLAG_USE_ESN).
Abbreviation is_ANTI_REPLAY := (ipsec_sa_is_set IPSEC_SA_FLAG_USE_ANTI_REPLAY).
Abbreviation is_HUGE := (ipsec_sa_is_set IPSEC_SA_FLAG_ANTI_REPLAY_HUGE).

(** ** Algorithms *)

Inductive ipsec_crypto_alg_t :=
| CRYPTO_ALG_NONE
| CRYPTO_ALG_AES_CBC_128 | CRYPTO_ALG_AES_CBC_192 | CRYPTO_ALG_AES_CBC_256
| CRYPTO_ALG_AES_CTR_128 | CRYPTO_ALG_AES_CTR_192 | CRYPTO_ALG_AES_CTR_256
| CRYPTO_ALG_AES_GCM_128 | CRYPTO_ALG_AES_GCM_192 | CRYPTO_ALG_AES_GCM_256
| CRYPTO_ALG_DES_CBC | CRYPTO_ALG_3DES_CBC
| CRYPTO_ALG_CHACHA20_POLY1305
| CRYPTO_ALG_AES_NULL_GMAC_128 | CRYPTO_ALG_AES_NULL_GMAC_192 | CRYPTO_ALG_AES_NULL_GMAC_256.

Inductive ipsec_integ_alg_t :=
| INTEG_ALG_NONE | INTEG_ALG_MD5_96 | INTEG_ALG_SHA1_96 | INTEG_ALG_SHA_256_96
| INTEG_ALG_SHA_256_128 | INTEG_ALG_SHA_384_192 | INTEG_ALG_SHA_512_256.

Inductive ipsec_protocol_t := IPSEC_PROTOCOL_AH | IPSEC_PROTOCOL_ESP.

#[export] Instance ipsec_crypto_alg_eq_dec : EqDecision ipsec_crypto_alg_t.
Proof. solve_decision. Defined.
#[export] Instance ipsec_integ_alg_eq_dec : EqDecision ipsec_integ_alg_t.
Proof. solve_decision. Defined.
#[export] Instance ipsec_protocol_eq_dec : EqDecision ipsec_protocol_t.
Proof. solve_decision. Defined.

Definition IPSEC_CRYPTO_ALG_IS_NULL_GMAC (alg : ipsec_crypto_alg_t) : bool :=
  match alg with
  | CRYPTO_ALG_AES_NULL_GMAC_128 | CRYPTO_ALG_AES_NULL_GMAC_192 | CRYPTO_ALG_AES_NULL_GMAC_256 => true
  | _ => false
  end.

Definition IPSEC_CRYPTO_ALG_IS_GCM (alg : ipsec_crypto_alg_t) : bool :=
  match alg with
  | CRYPTO_ALG_AES_GCM_128 | CRYPTO_ALG_AES_GCM_192 | CRYPTO_ALG_AES_GCM_256 => true
  | _ => false
  end.

Definition IPSEC_CRYPTO_ALG_IS_CTR (alg : ipsec_crypto_alg_t) : bool :=
  match alg with
  | CRYPTO_ALG_AES_CTR_128 | CRYPTO_ALG_AES_CTR_192 | CRYPTO_ALG_AES_CTR_256 => true
  | _ => false
  end.

Definition IPSEC_CRYPTO_ALG_CTR_AEAD_OTHERS (alg : ipsec_crypto_alg_t) : bool :=
  match alg with
  | CRYPTO_ALG_CHACHA20_POLY1305 => true
  | _ => false
  end.

(** The entries of [im->crypto_algs] and [im->integ_algs]. *)
Record ipsec_main_crypto_alg_t := mk_crypto_alg {
  ca_enc_op_id : vnet_crypto_op_id_t;
  ca_dec_op_id : vnet_crypto_op_id_t;
  ca_alg : vnet_crypto_alg_t;
  ca_iv_size : Z;
  ca_block_align : Z;
  ca_icv_size : Z
}.

Record ipsec_main_integ_alg_t := mk_integ_alg {
  ia_op_id : vnet_crypto_op_id_t;
  ia_alg : vnet_crypto_alg_t;
  ia_icv_size : Z
}.

(** The tables as [ipsec_init] fills them; a field it does not set is zero. *)
Definition crypto_algs (a : ipsec_crypto_alg_t) : ipsec_main_crypto_alg_t :=
  let cbc c n := mk_crypto_alg (OP_ENC c) (OP_DEC c) (ALG_CIPHER c) n n 0 in
  let ctr c := mk_crypto_alg (OP_ENC c) (OP_DEC c) (ALG_CIPHER c) 8 1 0 in
  let gcm c := mk_crypto_alg (OP_AEAD_ENC c) (OP_AEAD_DEC c) (ALG_AEAD c) 8 1 16 in
  let gmac c g := mk_crypto_alg (OP_AEAD_ENC c) (OP_AEAD_DEC c) (ALG_AEAD g) 8 1 16 in
  match a with
  | CRYPTO_ALG_NONE => mk_crypto_alg OP_NONE OP_NONE ALG_NONE 0 1 0
  | CRYPTO_ALG_DES_CBC => cbc DES_CBC 8
  | CRYPTO_ALG_3DES_CBC => cbc TDES_CBC 8
  | CRYPTO_ALG_AES_CBC_128 => cbc AES_128_CBC 16
  | CRYPTO_ALG_AES_CBC_192 => cbc AES_192_CBC 16
  | CRYPTO_ALG_AES_CBC_256 => cbc AES_256_CBC 16
  | CRYPTO_ALG_AES_CTR_128 => ctr AES_128_CTR
  | CRYPTO_ALG_AES_CTR_192 => ctr AES_192_CTR
  | CRYPTO_ALG_AES_CTR_256 => ctr AES_256_CTR
  | CRYPTO_ALG_AES_GCM_128 => gcm AES_128_GCM
  | CRYPTO_ALG_AES_GCM_192 => gcm AES_192_GCM
  | CRYPTO_ALG_AES_GCM_256 => gcm AES_256_GCM
  | CRYPTO_ALG_CHACHA20_POLY1305 =>
      mk_crypto_alg (OP_AEAD_ENC CHACHA20_POLY1305) (OP_AEAD_DEC CHACHA20_POLY1305)
        (ALG_AEAD CHACHA20_POLY1305) 8 0 16
  | CRYPTO_ALG_AES_NULL_GMAC_128 => gmac AES_128_NULL_GMAC AES_128_GCM
  | CRYPTO_ALG_AES_NULL_GMAC_192 => gmac AES_192_NULL_GMAC AES_192_GCM
  | CRYPTO_ALG_AES_NULL_GMAC_256 => gmac AES_256_NULL_GMAC AES_256_GCM
  end.

Definition integ_algs (i : ipsec_integ_alg_t) : ipsec_main_integ_alg_t :=
  match i with
  | INTEG_ALG_NONE => mk_integ_alg OP_NONE ALG_NONE 0
  | INTEG_ALG_MD5_96 => mk_integ_alg (OP_HMAC MD5) (ALG_HMAC MD5) 12
  | INTEG_ALG_SHA1_96 => mk_integ_alg (OP_HMAC SHA1) (ALG_HMAC SHA1) 12
  | INTEG_ALG_SHA_256_96 => mk_integ_alg (OP_HMAC SHA1) (ALG_HMAC SHA256) 12
  | INTEG_ALG_SHA_256_128 => mk_integ_alg (OP_HMAC SHA256) (ALG_HMAC SHA256) 16
  | INTEG_ALG_SHA_384_192 => mk_integ_alg (OP_HMAC SHA384) (ALG_HMAC SHA384) 24
  | INTEG_ALG_SHA_512_256 => mk_integ_alg (OP_HMAC SHA512) (ALG_HMAC SHA512) 32
  end.

(** ** The association *)

(** [tunnel_t] of [vnet/tunnel/tunnel.h]. *)
Record tunnel_t := mk_tunnel {
  t_src : ip_address_t;
  t_dst : ip_address_t;
  t_encap_decap_flags : Z;
  t_flags : Z;
  t_mode : Z;
  t_table_id : Z;
  t_dscp : Z;
  t_hop_limit : Z;
  t_fib_index : Z;
  t_fib_entry_index : Z;
  t_sibling : Z
}.

#[export] Instance tunnel_eta : Eta tunnel_t := fun t =>
  mk_tunnel (t_src t) (t_dst t) (t_encap_decap_flags t) (t_flags t) (t_mode t) (t_table_id t)
    (t_dscp t) (t_hop_limit t) (t_fib_index t) (t_fib_entry_index t) (t_sibling t).

(** What the header templates ([ip4_hdr], [ip6_hdr]) are built from; the IPv4
    checksum and the IPv6 flow label are functions of these fields. *)
Record tunnel_hdr_t := mk_tunnel_hdr {
  th_version : ip_address_family_t;
  th_src : ip46_address_t;
  th_dst : ip46_address_t;
  th_protocol : Z;
  th_ttl : Z;
  th_dscp : Z
}.

(** [ipsec_key_t]. *)
Record ipsec_key_t := mk_ipsec_key { ik_len : Z; ik_data : list Z }.

(** Operation and key of an association that its packets are to use, in the
    synchronous and the asynchronous mode ([sa->crypto_enc_op_id] and the other
    op ids share one [u16] field between the two enumerations). *)
Inductive sa_op := SYNC (op : vnet_crypto_op_id_t) | ASYNC (op : vnet_crypto_async_op_id_t) | NO_OP.

(** [ipsec_sa_t], with its anti-replay part [sa_replay] and the
    header template [sa_hdr].  The random generator of initialisation vectors and
    the stacked DPO are not modelled. *)
Record ipsec_sa_t := mk_ipsec_sa {
  sa_replay : ipsec_sa_replay_t;
  sa_crypto_key_index : Z;
  sa_integ_key_index : Z;
  sa_crypto_enc_op_id : sa_op;
  sa_crypto_dec_op_id : sa_op;
  sa_integ_op_id : sa_op;
  sa_thread_index : Z;
  sa_integ_icv_size : Z;
  sa_crypto_iv_size : Z;
  sa_esp_block_align : Z;
  sa_udp_src_port : Z;
  sa_udp_dst_port : Z;
  sa_salt : Z;
  sa_protocol : ipsec_protocol_t;
  sa_tunnel_flags : Z;
  sa_tunnel : tunnel_t;
  sa_hdr : option tunnel_hdr_t;
  sa_locks : Z;
  sa_id : Z;
  sa_stat_index : Z;
  sa_integ_calg : vnet_crypto_alg_t;
  sa_crypto_calg : vnet_crypto_alg_t;
  sa_crypto_sync_key_index : Z;
  sa_integ_sync_key_index : Z;
  sa_crypto_async_key_index : Z;
  sa_crypto_sync_enc_op_id : vnet_crypto_op_id_t;
  sa_crypto_sync_dec_op_id : vnet_crypto_op_id_t;
  sa_integ_sync_op_id : vnet_crypto_op_id_t;
  sa_crypto_async_enc_op_id : vnet_crypto_async_op_id_t;
  sa_crypto_async_dec_op_id : vnet_crypto_async_op_id_t;
  sa_crypto_alg : ipsec_crypto_alg_t;
  sa_integ_alg : ipsec_integ_alg_t;
  sa_integ_key : ipsec_key_t;
  sa_crypto_key : ipsec_key_t
}.

#[export] Instance ipsec_sa_full_eta : Eta ipsec_sa_t := fun r =>
  mk_ipsec_sa (sa_replay r) (sa_crypto_key_index r) (sa_integ_key_index r) (sa_crypto_enc_op_id r)
    (sa_crypto_dec_op_id r) (sa_integ_op_id r) (sa_thread_index r) (sa_integ_icv_size r)
    (sa_crypto_iv_size r) (sa_esp_block_align r) (sa_udp_src_port r) (sa_udp_dst_port r)
    (sa_salt r) (sa_protocol r) (sa_tunnel_flags r) (sa_tunnel r) (sa_hdr r)
    (sa_locks r) (sa_id r) (sa_stat_index r) (sa_integ_calg r)
    (sa_crypto_calg r) (sa_crypto_sync_key_index r) (sa_integ_sync_key_index r) (sa_crypto_async_key_index r)
    (sa_crypto_sync_enc_op_id r) (sa_crypto_sync_dec_op_id r) (sa_integ_sync_op_id r) (sa_crypto_async_enc_op_id r)
    (sa_crypto_async_dec_op_id r) (sa_crypto_alg r) (sa_integ_alg r) (sa_integ_key r)
    (sa_crypto_key r).

(** The flags live in the anti-replay part. *)
Definition sa_is_set (f : Z) (sa : ipsec_sa_t) : bool := ipsec_sa_is_set f (sa_replay sa).
Definition sa_set (f : Z) (sa : ipsec_sa_t) : ipsec_sa_t := sa <| sa_replay := ipsec_sa_set f (sa_replay sa) |>.
