(* ===== verification/AntiReplay.v ===== *)
(** * IPsec anti-replay window

    Models the receive window of [vnet/ipsec/ipsec_sa.h]: the replay check and
    inference of the high half of an extended sequence number
    ([ipsec_sa_anti_replay_and_sn_advance], run before and after decryption), the
    window shift with its lost-packet count and the window update
    ([ipsec_sa_anti_replay_advance]), for the 64-bit window and for the "huge"
    window kept as a circular bitmap.

    The specification is the window of RFC 4303: a highest sequence number and a
    set of received ones.  The operations refine it, and from the refinement
    follow that no sequence number is accepted twice and that every fresh number
    inside the window is accepted. *)

From S2P Require Import Prelude Bitmap IpsecSa.

(** ** Operations *)

Section Ops.

(** Whether the build has BMI2 ([pow2_mask]). *)
Context (bmi2 : bool).

(** [IPSEC_SA_ANTI_REPLAY_WINDOW_SIZE_KNOWN_WIN] *)
Definition window_size (sa : ipsec_sa_replay_t) (is_huge : bool) : Z :=
  u32 (if is_huge then clib_bitmap_bytes (sa_replay_window_huge sa) * 8 else 64).

(** [IPSEC_SA_ANTI_REPLAY_WINDOW_LOWER_BOUND_KNOWN_WIN] *)
Definition window_lower_bound (sa : ipsec_sa_replay_t) (is_huge : bool) : Z :=
  u32 (sa_seq sa - window_size sa is_huge + 1).

(** [IPSEC_SA_ANTI_REPLAY_WINDOW_N_SEEN_KNOWN_WIN] *)
Definition window_n_seen (sa : ipsec_sa_replay_t) (is_huge : bool) : Z :=
  if is_huge then clib_bitmap_count_set_bits (sa_replay_window_huge sa)
  else count_set_bits (sa_replay_window sa).

Definition ipsec_sa_anti_replay_get_64b_window (sa : ipsec_sa_replay_t) : Z :=
  if negb (is_HUGE sa) then sa_replay_window sa
  else
    let window_size := window_size sa true in
    let tl_win_index := Z.land (sa_seq sa) (window_size - 1) in
    if 63 <=? tl_win_index
    then clib_bitmap_get_multiple (sa_replay_window_huge sa) (tl_win_index - 63) 64
    else
      let w := shl64 (clib_bitmap_get_multiple_no_check bmi2 (sa_replay_window_huge sa) 0
                        (tl_win_index + 1)) (63 - tl_win_index) in
      Z.lor w (clib_bitmap_get_multiple_no_check bmi2 (sa_replay_window_huge sa)
                 (u32 (window_size - 63 + tl_win_index)) (63 - tl_win_index)).

Definition ipsec_sa_anti_replay_check (sa : ipsec_sa_replay_t) (seq : Z) (ar_huge : bool) : Z :=
  let window_size := window_size sa ar_huge in
  if ar_huge
  then clib_bitmap_get (sa_replay_window_huge sa) (Z.land seq (u32 (window_size - 1)))
  else Z.land (shr64 (sa_replay_window sa) (u32 (window_size + seq - sa_seq sa - 1))) 1.

(** [ipsec_sa_anti_replay_and_sn_advance].  The result is the return value and
    what is stored through [hi_seq_req] ([None]: nothing); [hi_seq_req] says
    whether that pointer is given. *)
Definition ipsec_sa_anti_replay_and_sn_advance (sa : ipsec_sa_replay_t) (seq hi_seq_used : Z)
    (post_decrypt hi_seq_req ar_huge : bool) : Z * option Z :=
  let store v := if hi_seq_req then Some v else None in
  let window_size := window_size sa ar_huge in
  let window_lower_bound := window_lower_bound sa ar_huge in
  if negb (is_ESN sa) then
    if negb (is_ANTI_REPLAY sa) then (0, store 0)
    else if sa_seq sa <? seq then (0, store 0)
    else if u32 (seq + window_size) <=? sa_seq sa then (1, store 0)
    else (ipsec_sa_anti_replay_check sa seq ar_huge, store 0)
  else if negb (is_ANTI_REPLAY sa) then
    (0, store (if sa_seq sa <=? seq then sa_seq_hi sa
               else if 2 ^ 30 <? u32 (sa_seq sa - seq) then u32 (sa_seq_hi sa + 1)
               else sa_seq_hi sa))
  else if u32 (window_size - 1) <=? sa_seq sa then
    (* Case A from RFC 4303 Appendix A *)
    if seq <? window_lower_bound then
      if post_decrypt then
        if hi_seq_used =? sa_seq_hi sa then (1, None) else (0, None)
      else (0, store (u32 (sa_seq_hi sa + 1)))
    else if seq <=? sa_seq sa
         then (ipsec_sa_anti_replay_check sa seq ar_huge, store (sa_seq_hi sa))
         else (0, store (sa_seq_hi sa))
  else
    (* Case B from RFC 4303 Appendix A *)
    if seq <? window_lower_bound then
      if seq <=? sa_seq sa
      then (ipsec_sa_anti_replay_check sa seq ar_huge, store (sa_seq_hi sa))
      else (0, store (sa_seq_hi sa))
    else (ipsec_sa_anti_replay_check sa seq ar_huge, store (u32 (sa_seq_hi sa - 1))).

(** Count and clear the bits of [mask] in one word of the huge window. *)
Definition clear_word_bits (window : list Z) (i_block mask : Z) : list Z * Z :=
  (word_set window i_block (Z.land (word_at window i_block) (not64 mask)),
   count_set_bits (Z.land (word_at window i_block) mask)).

(** Loop over whole words, eight at a time; returns the window, the next block,
    the words left and the count. *)
Fixpoint clear_words8 (fuel : nat) (window : list Z) (n_blocks i_block full_words seen : Z)
  : list Z * Z * Z * Z :=
  match fuel with
  | O => (window, i_block, full_words, seen)
  | S fuel' =>
      if 8 <=? full_words then
        let blk k := Z.land (i_block + k) (n_blocks - 1) in
        let seen := seen + count_set_bits (word_at window i_block) in
        let seen := seen + count_set_bits (word_at window (blk 1)) in
        let seen := seen + count_set_bits (word_at window (blk 2)) in
        let seen := seen + count_set_bits (word_at window (blk 3)) in
        let seen := seen + count_set_bits (word_at window (blk 4)) in
        let seen := seen + count_set_bits (word_at window (blk 5)) in
        let seen := seen + count_set_bits (word_at window (blk 6)) in
        let seen := seen + count_set_bits (word_at window (blk 7)) in
        let window := word_set window i_block 0 in
        let window := word_set window (blk 1) 0 in
        let window := word_set window (blk 2) 0 in
        let window := word_set window (blk 3) 0 in
        let window := word_set window (blk 4) 0 in
        let window := word_set window (blk 5) 0 in
        let window := word_set window (blk 6) 0 in
        let window := word_set window (blk 7) 0 in
        clear_words8 fuel' window n_blocks (blk 8) (full_words - 8) seen
      else (window, i_block, full_words, seen)
  end.

Fixpoint clear_words (fuel : nat) (window : list Z) (n_blocks i_block full_words seen : Z)
  : list Z * Z * Z :=
  match fuel with
  | O => (window, i_block, seen)
  | S fuel' =>
      if 0 <? full_words then
        let seen := seen + count_set_bits (word_at window i_block) in
        let window := word_set window i_block 0 in
        clear_words fuel' window n_blocks (Z.land (i_block + 1) (n_blocks - 1))
          (full_words - 1) seen
      else (window, i_block, seen)
  end.

(** The section of the huge window that a shift by [inc] pushes out: cleared, and
    its set bits counted. *)
Definition shift_huge_window (window : list Z) (window_size sa_seq inc : Z) : list Z * Z :=
  let window_lower_bound := Z.land (u32 (sa_seq + 1)) (u32 (window_size - 1)) in
  let window_next_lower_bound := Z.land (u32 (window_lower_bound + inc)) (u32 (window_size - 1)) in
  let n_blocks := Z.shiftr window_size 6 in
  let i_block := Z.shiftr window_lower_bound 6 in
  let i_word_start := Z.land window_lower_bound (64 - 1) in
  let i_word_end := Z.land window_next_lower_bound (64 - 1) in
  if i_word_start + inc <=? 64 then
    clear_word_bits window i_block (shl64 (pow2_mask bmi2 inc) i_word_start)
  else
    let full_words := Z.shiftr (u64 (inc + i_word_start - 64 - i_word_end)) 6 in
    let '(window, seen) := clear_word_bits window i_block (shl64 (Z.ones 64) i_word_start) in
    let i_block := Z.land (i_block + 1) (n_blocks - 1) in
    let '(window, i_block, full_words, seen) :=
      clear_words8 (Z.to_nat full_words) window n_blocks i_block full_words seen in
    let '(window, i_block, seen) :=
      clear_words (Z.to_nat full_words) window n_blocks i_block full_words seen in
    let '(window, last) := clear_word_bits window i_block (pow2_mask bmi2 i_word_end) in
    (window, seen + last).

(** Returns the association and the number of lost packets. *)
Definition ipsec_sa_anti_replay_window_shift (sa : ipsec_sa_replay_t) (inc : Z) (ar_huge : bool)
  : ipsec_sa_replay_t * Z :=
  let window_size := window_size sa ar_huge in
  if inc <? window_size then
    if ar_huge then
      let '(window, seen) :=
        shift_huge_window (sa_replay_window_huge sa) window_size (sa_seq sa) inc in
      let window := fst (clib_bitmap_set_no_check window
                           (Z.land (u32 (sa_seq sa + inc)) (u32 (window_size - 1))) 1) in
      (sa <| sa_replay_window_huge := window |>, u32 (inc - u32 seen))
    else
      let old := Z.land (sa_replay_window sa) (pow2_mask bmi2 inc) in
      let seen := count_set_bits old in
      (sa <| sa_replay_window :=
               Z.lor (shr64 (sa_replay_window sa) inc) (shl64 1 (u32 (window_size - 1))) |>,
       u32 (inc - u32 seen))
  else
    let n_lost := u32 (window_size - window_n_seen sa ar_huge) in
    let n_lost := u32 (n_lost + u32 (inc - window_size)) in
    (if ar_huge
     then sa <| sa_replay_window_huge :=
                  fst (clib_bitmap_set_no_check (clib_bitmap_zero (sa_replay_window_huge sa))
                         (Z.land (u32 (sa_seq sa + inc)) (u32 (window_size - 1))) 1) |>
     else sa <| sa_replay_window := shl64 1 (u32 (window_size - 1)) |>,
     n_lost).

(** Mark [seq], [pos] behind the top of the window, as received. *)
Definition ar_mark (sa : ipsec_sa_replay_t) (seq pos : Z) (ar_huge : bool) : ipsec_sa_replay_t :=
  let window_size := window_size sa ar_huge in
  if ar_huge
  then sa <| sa_replay_window_huge :=
               fst (clib_bitmap_set_no_check (sa_replay_window_huge sa)
                      (Z.land seq (u32 (window_size - 1))) 1) |>
  else sa <| sa_replay_window :=
               Z.lor (sa_replay_window sa) (shl64 1 (u32 (window_size - 1 - pos))) |>.

(** [ipsec_sa_anti_replay_advance]; returns the association and the lost count. *)
Definition ipsec_sa_anti_replay_advance (sa : ipsec_sa_replay_t) (seq hi_seq : Z) (ar_huge : bool)
  : ipsec_sa_replay_t * Z :=
  if is_ESN sa then
    let wrap := i32 (u32 (hi_seq - sa_seq_hi sa)) in
    if (wrap =? 0) && (sa_seq sa <? seq) then
      let pos := u32 (seq - sa_seq sa) in
      let '(sa, n_lost) := ipsec_sa_anti_replay_window_shift sa pos ar_huge in
      (sa <| sa_seq := seq |>, n_lost)
    else if 0 <? wrap then
      let pos := u32 (seq + not32 (sa_seq sa) + 1) in
      let '(sa, n_lost) := ipsec_sa_anti_replay_window_shift sa pos ar_huge in
      (sa <| sa_seq := seq |> <| sa_seq_hi := hi_seq |>, n_lost)
    else if wrap <? 0 then
      let pos := u32 (not32 seq + sa_seq sa + 1) in
      (ar_mark sa seq pos ar_huge, 0)
    else
      let pos := u32 (sa_seq sa - seq) in
      (ar_mark sa seq pos ar_huge, 0)
  else
    if sa_seq sa <? seq then
      let pos := u32 (seq - sa_seq sa) in
      let '(sa, n_lost) := ipsec_sa_anti_replay_window_shift sa pos ar_huge in
      (sa <| sa_seq := seq |>, n_lost)
    else
      let pos := u32 (sa_seq sa - seq) in
      (ar_mark sa seq pos ar_huge, 0).

(** The replay window of a new association ([ipsec_sa_add_and_lock]): a requested
    window of more than 64 is huge and rounded up to a power of two; every number
    up to the initial one counts as seen. *)
Definition ipsec_sa_init_replay_flag (sa : ipsec_sa_replay_t) (anti_replay_window_size : Z) : ipsec_sa_replay_t :=
  if is_ANTI_REPLAY sa && (64 <? anti_replay_window_size)
  then ipsec_sa_set IPSEC_SA_FLAG_ANTI_REPLAY_HUGE sa
  else sa.

Definition ipsec_sa_init_replay (sa : ipsec_sa_replay_t) (anti_replay_window_size : Z) : ipsec_sa_replay_t :=
  if is_HUGE sa then
    let anti_replay_window_size := u32 (2 ^ max_log2 anti_replay_window_size) in
    sa <| sa_replay_window_huge := clib_bitmap_set_region bmi2 [] 0 1 anti_replay_window_size |>
  else sa <| sa_replay_window := u64 (-1) |>.

(** Reception of the packets of one association in a frame.  [esp_decrypt_inline] checks
    all of them against the association as it is before the frame, and infers the high
    halves; those that pass are decrypted, and [auth] says for which high halves a packet
    authenticates. *)
Definition ar_check (sa : ipsec_sa_replay_t) (pkt : Z * (Z -> bool)) : option (Z * Z) :=
  match ipsec_sa_anti_replay_and_sn_advance sa (fst pkt) (2 ^ 32 - 1) false true (is_HUGE sa) with
  | (0, Some hi) => if snd pkt hi then Some (hi, fst pkt) else None
  | _ => None
  end.

(** [esp_decrypt_post_crypto]: the check is redone, and the window advanced.  The numbers
    accepted are kept, latest first. *)
Definition ar_post_crypto (st : ipsec_sa_replay_t * list (Z * Z)) (p : Z * Z) : ipsec_sa_replay_t * list (Z * Z) :=
  let '(sa, acc) := st in
  let '(hi, seq) := p in
  if fst (ipsec_sa_anti_replay_and_sn_advance sa seq hi true false (is_HUGE sa)) =? 0
  then (fst (ipsec_sa_anti_replay_advance sa seq hi (is_HUGE sa)), (hi, seq) :: acc)
  else (sa, acc).

Definition ar_receive_frame (st : ipsec_sa_replay_t * list (Z * Z)) (pkts : list (Z * (Z -> bool)))
  : ipsec_sa_replay_t * list (Z * Z) :=
  fold_left ar_post_crypto (omap (ar_check (fst st)) pkts) st.

(** Frames one after the other. *)
Definition ar_receive_all (sa : ipsec_sa_replay_t) (frames : list (list (Z * (Z -> bool)))) (acc : list (Z * Z))
  : ipsec_sa_replay_t * list (Z * Z) :=
  fold_left ar_receive_frame frames (sa, acc).

(** Reception in any interleaving, as with asynchronous engines: a packet passes the first
    check some time before it is decrypted and runs the second one. *)
Record ar_batch := mk_ar_batch {
  ab_sa : ipsec_sa_replay_t;
  ab_inflight : list (Z * Z);
  ab_accepted : list (Z * Z)
}.

Inductive ar_batch_step : ar_batch -> ar_batch -> Prop :=
| ab_pre sa infl acc seq hi :
    is_u 32 seq ->
    ipsec_sa_anti_replay_and_sn_advance sa seq (2 ^ 32 - 1) false true (is_HUGE sa) = (0, Some hi) ->
    ar_batch_step (mk_ar_batch sa infl acc) (mk_ar_batch sa ((hi, seq) :: infl) acc)
| ab_accept sa infl1 infl2 acc seq hi :
    fst (ipsec_sa_anti_replay_and_sn_advance sa seq hi true false (is_HUGE sa)) = 0 ->
    ar_batch_step
      (mk_ar_batch sa (infl1 ++ (hi, seq) :: infl2) acc)
      (mk_ar_batch (fst (ipsec_sa_anti_replay_advance sa seq hi (is_HUGE sa)))
         (infl1 ++ infl2) ((hi, seq) :: acc))
| ab_drop sa infl1 infl2 acc p :
    ar_batch_step (mk_ar_batch sa (infl1 ++ p :: infl2) acc) (mk_ar_batch sa (infl1 ++ infl2) acc).

End Ops.

(** ** Specification: the window of RFC 4303 *)

(** The highest sequence number received and the numbers received so far. *)
Record rwindow := mk_rwindow { rw_top : Z; rw_seen : Z -> bool }.

(** Number [s] must be dropped: left of the window, or already received. *)
Definition rw_replay (W : Z) (a : rwindow) (s : Z) : bool :=
  (s <=? rw_top a - W) || ((s <=? rw_top a) && rw_seen a s).

Definition rw_accept (a : rwindow) (s : Z) : rwindow :=
  if rw_top a <? s
  then mk_rwindow s (fun x => (x =? s) || ((x <=? rw_top a) && rw_seen a x))
  else mk_rwindow (rw_top a) (fun x => (x =? s) || rw_seen a x).

(** Numbers that leave the window when [s] is accepted and were never received. *)
Definition rw_lost (W : Z) (a : rwindow) (s : Z) : Z :=
  if rw_top a <? s
  then count_range (fun x => negb ((x <=? rw_top a) && rw_seen a x)) (rw_top a - W + 1)
         (Z.to_nat (s - rw_top a))
  else 0.

(** The (extended) sequence number at the top of the window. *)
Definition esn_of (sa : ipsec_sa_replay_t) : Z :=
  (if is_ESN sa then sa_seq_hi sa * 2 ^ 32 else 0) + sa_seq sa.

(** The window's bit for number [s], when the window ends at [top]. *)
Definition win_bit_at (sa : ipsec_sa_replay_t) (huge : bool) (top s : Z) : bool :=
  if huge then bm_bit (sa_replay_window_huge sa) (s mod window_size sa true)
  else Z.testbit (sa_replay_window sa) (63 - (top - s)).

Definition win_bit (sa : ipsec_sa_replay_t) (huge : bool) (s : Z) : bool :=
  win_bit_at sa huge (esn_of sa) s.

(** The bits of the huge window [w0] (of [W] bits, the oldest at [lb]) after its
    [n] oldest have been cleared, with the number of set bits found there. *)
Record cleared (w0 : list Z) (W lb n : Z) (w : list Z) (seen : Z) : Prop := {
  cl_len : vec_len w = vec_len w0;
  cl_ok : bm_ok w;
  cl_bits : forall j, 0 <= j < W ->
              bm_bit w j = bm_bit w0 j && negb ((j - lb) mod W <? n);
  cl_seen : seen = count_range (fun k => bm_bit w0 ((lb + k) mod W)) 0 (Z.to_nat n)
}.

(** The blocks at offsets [ks] from block [i] on the ring: zeroed, and their
    population (latest offset first). *)
Fixpoint zero_blocks (ks : list Z) (w : list Z) (n_blocks i : Z) : list Z :=
  match ks with
  | [] => w
  | k :: ks' => word_set (zero_blocks ks' w n_blocks i) (Z.land (i + k) (n_blocks - 1)) 0
  end.

Fixpoint sum_blocks (ks : list Z) (w : list Z) (n_blocks i seen : Z) : Z :=
  match ks with
  | [] => seen
  | k :: ks' => sum_blocks ks' w n_blocks i seen +
                count_set_bits (word_at w (Z.land (i + k) (n_blocks - 1)))
  end.

(** [ks] is [m - 1; ...; 1; 0]. *)
Fixpoint countdown (ks : list Z) : Prop :=
  match ks with
  | [] => True
  | k :: ks' => k = Z.of_nat (length ks') /\ countdown ks'
  end.

(** Well-formed windows: machine-width fields, and a huge window of a power of
    two of words. *)
Record ar_ok (sa : ipsec_sa_replay_t) (huge : bool) : Prop := {
  ar_seq : is_u 32 (sa_seq sa);
  ar_seq_hi : is_u 32 (sa_seq_hi sa);
  ar_win : if huge
           then bm_ok (sa_replay_window_huge sa) /\
                exists k, 1 <= k <= 25 /\ vec_len (sa_replay_window_huge sa) = 2 ^ k
           else is_u 64 (sa_replay_window sa)
}.

(** The association's window represents the abstract one. *)
Record ar_refines (sa : ipsec_sa_replay_t) (huge : bool) (a : rwindow) : Prop := {
  arr_ok : ar_ok sa huge;
  arr_top : rw_top a = esn_of sa;
  arr_bits : forall s, rw_top a - window_size sa huge < s <= rw_top a ->
                       win_bit sa huge s = rw_seen a s
}.

(** ** Window geometry *)

Lemma window_size_pow2 sa huge :
  ar_ok sa huge -> exists n, 6 <= n <= 31 /\ window_size sa huge = 2 ^ n /\
    (huge = true -> 7 <= n /\ 64 * vec_len (sa_replay_window_huge sa) = 2 ^ n).
Proof.
  intros [_ _ Hw]. unfold window_size. destruct huge.
  - destruct Hw as (_ & k & Hk & Hl). exists (k + 6). unfold clib_bitmap_bytes. rewrite Hl.
    assert (64 * 2 ^ k = 2 ^ (k + 6)) as E by (rewrite Z.pow_add_r by lia; lia).
    assert (2 ^ (k + 6) < 2 ^ 32) by (apply Z.pow_lt_mono_r; lia).
    assert (0 < 2 ^ (k + 6)) by (apply Z.pow_pos_nonneg; lia).
    rewrite u32_small; [|unfold is_u; lia]. repeat split; lia.
  - exists 6. repeat split; (lia || discriminate).
Qed.

Lemma window_size_bounds sa huge : ar_ok sa huge -> 64 <= window_size sa huge <= 2 ^ 31.
Proof.
  intros H. destruct (window_size_pow2 _ _ H) as (n & Hn & -> & _).
  split; [change 64 with (2 ^ 6)|]; apply Z.pow_le_mono_r; lia.
Qed.

(** Position of a number in the huge window, computed from its low half. *)
Lemma win_index sa s :
  ar_ok sa true ->
  Z.land (s mod 2 ^ 32) (u32 (window_size sa true - 1)) = s mod window_size sa true.
Proof.
  intros H. pose proof (window_size_bounds _ _ H).
  destruct (window_size_pow2 _ _ H) as (n & Hn & E & _).
  rewrite u32_small by (unfold is_u; lia). rewrite E, land_pow2_minus1 by lia.
  apply mod_mod_pow2. lia.
Qed.

Lemma esn_low sa huge : ar_ok sa huge -> esn_of sa mod 2 ^ 32 = sa_seq sa.
Proof.
  intros [Hs _ _]. unfold esn_of, is_u in *. destruct (is_ESN sa).
  - rewrite Z.add_comm, Z.mod_add by lia. apply Z.mod_small. lia.
  - apply Z.mod_small. lia.
Qed.

(** The replay check reads the bit of the number. *)
Lemma check_win_bit sa huge s :
  ar_ok sa huge -> esn_of sa - window_size sa huge < s <= esn_of sa ->
  ipsec_sa_anti_replay_check sa (s mod 2 ^ 32) huge = Z.b2z (win_bit sa huge s).
Proof.
  intros Hok Hs. pose proof (window_size_bounds _ _ Hok).
  unfold ipsec_sa_anti_replay_check, win_bit, win_bit_at. destruct huge.
  - rewrite win_index by assumption. apply clib_bitmap_get_bit.
    apply Z.mod_pos_bound. lia.
  - change (window_size sa false) with 64 in *. pose proof (esn_low _ _ Hok) as E.
    assert (u32 (64 + s mod 2 ^ 32 - sa_seq sa - 1) = 63 - (esn_of sa - s)) as ->.
    { unfold u32. rewrite <- E. rewrite <- (Z.mod_small (63 - (esn_of sa - s)) (2 ^ 32)) by lia.
      mod_lia. }
    change 1 with (Z.ones 1). rewrite Z.land_ones by lia. change (2 ^ 1) with 2.
    rewrite <- Z.bit0_mod, testbit_shr64 by lia. f_equal.
Qed.

(** ** The replay check refines the specification *)

(** What the four cases of the check compute, for the number [s] that the low
    half [seq] stands for. *)
Lemma sn_advance_esn sa huge a s hi_used post :
  ar_refines sa huge a -> is_ESN sa = true -> is_ANTI_REPLAY sa = true ->
  rw_top a - window_size sa huge < s <= rw_top a - window_size sa huge + 2 ^ 32 ->
  (post = true -> hi_used = u32 (s / 2 ^ 32)) ->
  ipsec_sa_anti_replay_and_sn_advance sa (s mod 2 ^ 32) hi_used post (negb post) huge =
  (Z.b2z (rw_replay (window_size sa huge) a s),
   if post then None else Some (u32 (s / 2 ^ 32))).
Proof.
  intros [Hok Htop Hbits] He Har Hs Hused.
  pose proof (window_size_bounds _ _ Hok) as HW.
  pose proof (ar_seq _ _ Hok) as Hq. pose proof (ar_seq_hi _ _ Hok) as Hh.
  assert (esn_of sa = sa_seq_hi sa * 2 ^ 32 + sa_seq sa) as HT by (unfold esn_of; now rewrite He).
  assert (s <= rw_top a -> ipsec_sa_anti_replay_check sa (s mod 2 ^ 32) huge = Z.b2z (rw_seen a s)) as Hc.
  { intros. rewrite check_win_bit by (assumption || lia). rewrite Hbits by lia. reflexivity. }
  rewrite Htop in *. unfold rw_replay. rewrite Htop.
  pose proof (Z.div_mod s (2 ^ 32) ltac:(lia)) as Hds.
  pose proof (Z.mod_pos_bound s (2 ^ 32) ltac:(lia)) as Hms.
  set (lo := s mod 2 ^ 32) in *. set (h := s / 2 ^ 32) in *.
  clearbody lo h.
  rewrite (proj2 (Z.leb_gt s (esn_of sa - _))) by lia. cbn [orb].
  unfold ipsec_sa_anti_replay_and_sn_advance. rewrite He, Har. cbn [negb].
  unfold window_lower_bound. rewrite (u32_small (_ - 1)) by (unfold is_u; lia).
  set (W := window_size sa huge) in *. unfold is_u in *.
  assert (forall x, x = h -> 0 <= x < 2 ^ 32 -> x = u32 h) as Hu.
  { intros x -> Hx. now rewrite u32_small by (unfold is_u; lia). }
  destruct (Z.leb_spec (W - 1) (sa_seq sa)) as [HA|HB].
  - rewrite u32_small by (unfold is_u; lia).
    destruct (Z.ltb_spec lo (sa_seq sa - W + 1)).
    + assert (h = sa_seq_hi sa + 1) by lia. rewrite (proj2 (Z.leb_gt s _)) by lia. cbn [andb Z.b2z].
      destruct post; cbn [negb]; [|congruence].
      rewrite Hused by reflexivity.
      destruct (Z.eqb_spec (u32 h) (sa_seq_hi sa)) as [E|]; [|reflexivity].
      exfalso. unfold u32 in E. subst h. mod_lia.
    + assert (sa_seq_hi sa = h) by lia.
      destruct (Z.leb_spec lo (sa_seq sa)).
      * rewrite Hc, (proj2 (Z.leb_le s _)) by lia. cbn [andb]. destruct post; cbn [negb]; f_equal; f_equal; auto.
      * rewrite (proj2 (Z.leb_gt s _)) by lia. destruct post; cbn [negb andb Z.b2z]; f_equal; f_equal; auto.
  - assert (u32 (sa_seq sa - W + 1) = sa_seq sa - W + 1 + 2 ^ 32) as ->.
    { unfold u32. rewrite <- (Z.mod_add _ 1) by lia. apply Z.mod_small. lia. }
    destruct (Z.ltb_spec lo (sa_seq sa - W + 1 + 2 ^ 32)).
    + assert (sa_seq_hi sa = h) by lia.
      destruct (Z.leb_spec lo (sa_seq sa)).
      * rewrite Hc, (proj2 (Z.leb_le s _)) by lia. cbn [andb]. destruct post; cbn [negb]; f_equal; f_equal; auto.
      * rewrite (proj2 (Z.leb_gt s _)) by lia. destruct post; cbn [negb andb Z.b2z]; f_equal; f_equal; auto.
    + assert (h = sa_seq_hi sa - 1) by lia.
      rewrite Hc, (proj2 (Z.leb_le s _)) by lia. cbn [andb]. destruct post; cbn [negb]; congruence.
Qed.

(** Without extended numbers the low half is the number itself. *)
Lemma sn_advance_no_esn sa huge a s hi_used post :
  ar_refines sa huge a -> is_ESN sa = false -> is_ANTI_REPLAY sa = true ->
  0 <= s < 2 ^ 32 - window_size sa huge ->
  ipsec_sa_anti_replay_and_sn_advance sa s hi_used post (negb post) huge =
  (Z.b2z (rw_replay (window_size sa huge) a s), if post then None else Some 0).
Proof.
  intros [Hok Htop Hbits] He Har Hs.
  pose proof (window_size_bounds _ _ Hok) as HW. pose proof (ar_seq _ _ Hok) as Hq.
  assert (esn_of sa = sa_seq sa) as HT by (unfold esn_of; now rewrite He).
  unfold ipsec_sa_anti_replay_and_sn_advance, rw_replay. rewrite He, Har. cbn [negb].
  rewrite Htop, HT in *. replace (if negb post then Some 0 else None) with (if post then None else Some 0)
    by now destruct post.
  destruct (Z.ltb_spec (sa_seq sa) s).
  - rewrite (proj2 (Z.leb_gt s (_ - _))), (proj2 (Z.leb_gt s (sa_seq sa))) by lia. reflexivity.
  - rewrite u32_small by (unfold is_u; lia). rewrite (proj2 (Z.leb_le s (sa_seq sa))) by lia.
    destruct (Z.leb_spec (s + window_size sa huge) (sa_seq sa)).
    + now rewrite (proj2 (Z.leb_le s (_ - _))) by lia.
    + rewrite (proj2 (Z.leb_gt s (_ - _))) by lia. cbn [orb andb].
      rewrite <- (Z.mod_small s (2 ^ 32)) at 1 by lia.
      rewrite check_win_bit, Hbits by (assumption || lia). reflexivity.
Qed.

(** ** Clearing the oldest section of the huge window *)

Section Clear.

Context (w0 : list Z) (W lb : Z).
Context (HW : 64 * vec_len w0 = W) (HW0 : 0 < W).

Local Abbreviation bit_of k := (bm_bit w0 ((lb + k) mod W)).

Lemma cleared_0 : bm_ok w0 -> cleared w0 W lb 0 w0 0.
Proof.
  intros. split; try reflexivity; [assumption|]. intros j Hj.
  pose proof (Z.mod_pos_bound (j - lb) W HW0).
  rewrite (proj2 (Z.ltb_ge _ 0)) by lia. now rewrite andb_true_r.
Qed.

(** Bits of the part not yet cleared are those of the original window. *)
Lemma cleared_bit n w seen p b st k :
  cleared w0 W lb n w seen -> n <= p -> 0 <= p -> p + k < W -> 0 <= k -> 0 <= st -> st + k < 64 ->
  0 <= b < vec_len w0 -> (lb + p) mod W = 64 * b + st ->
  Z.testbit (word_at w b) (st + k) = bit_of (p + k).
Proof.
  intros [_ _ Hb _] Hnp Hp Hpk Hk Hst Hsk Hbl Hm.
  assert ((lb + (p + k)) mod W = 64 * b + (st + k)) as Hj.
  { rewrite Z.add_assoc, <- Zplus_mod_idemp_l, Hm, Z.mod_small by lia. lia. }
  assert ((64 * b + (st + k) - lb) mod W = p + k) as Hd.
  { rewrite <- Hj, Zminus_mod_idemp_l, Z.mod_small by lia. lia. }
  specialize (Hb (64 * b + (st + k)) ltac:(lia)).
  rewrite Hd, (proj2 (Z.ltb_ge _ n)), andb_true_r in Hb by lia.
  rewrite Hj, <- Hb. unfold bm_bit.
  replace (64 * b + (st + k)) with (st + k + b * 64) by lia.
  now rewrite Z.div_add, Z.mod_add, Z.div_small, Z.mod_small by lia.
Qed.

Lemma cleared_range n w seen p b st len :
  cleared w0 W lb n w seen -> n <= p -> 0 <= p -> 0 <= len -> p + len <= W -> 0 <= st -> st + len <= 64 ->
  0 <= b < vec_len w0 -> (lb + p) mod W = 64 * b + st ->
  count_range (Z.testbit (word_at w b)) st (Z.to_nat len) =
  count_range (fun k => bit_of k) p (Z.to_nat len).
Proof.
  intros Hc Hnp Hp Hlen Hpl Hst Hsl Hb Hm.
  replace st with (0 + st) at 1 by lia. replace p with (0 + p) at 1 by lia.
  rewrite <- !count_range_shift. apply count_range_ext. intros k Hk.
  rewrite (Z.add_comm k st), (Z.add_comm k p).
  apply (cleared_bit n w seen p b st k); try assumption; lia.
Qed.

(** One word: the bits of [mask], a range from [st] on. *)
Lemma cleared_step n w seen b st len mask :
  cleared w0 W lb n w seen -> 0 <= n -> 0 <= len -> n + len <= W -> 0 <= b < vec_len w0 ->
  0 <= st -> st + len <= 64 -> (lb + n) mod W = 64 * b + st -> is_u 64 mask ->
  (forall i, 0 <= i < 64 -> Z.testbit mask i = (st <=? i) && (i <? st + len)) ->
  cleared w0 W lb (n + len) (fst (clear_word_bits w b mask)) (seen + snd (clear_word_bits w b mask)).
Proof.
  intros Hc Hn Hlen Hnl Hb Hst Hsl Hm Hu Hmask.
  pose proof Hc as [Hl Hok Hbits Hseen]. unfold clear_word_bits. cbn [fst snd]. split.
  - now rewrite vec_len_set.
  - auto with vpp zarith. apply bm_ok_set; [assumption|].
    apply is_u_land; [lia|auto with vpp|]. now apply is_u_not64.
  - intros j Hj. rewrite bm_bit_set by lia.
    rewrite (cyclic_range_extend W lb n (64 * b + st) len j) by lia.
    rewrite negb_orb, andb_assoc, <- Hbits by lia.
    pose proof (Z.mod_pos_bound j 64 ltac:(lia)).
    pose proof (Z.div_mod j 64 ltac:(lia)).
    destruct (Z.eqb_spec (j / 64) b) as [E|E].
    + rewrite Z.land_spec, testbit_not64, Hmask by lia. unfold bm_bit. rewrite E.
      rewrite (proj2 (Z.ltb_lt (j mod 64) 64)) by lia. cbn [andb]. f_equal. f_equal.
      f_equal; [destruct (Z.leb_spec st (j mod 64)), (Z.leb_spec (64 * b + st) j)
               |destruct (Z.ltb_spec (j mod 64) (st + len)), (Z.ltb_spec j (64 * b + st + len))];
        reflexivity || lia.
    + destruct (Z.leb_spec (64 * b + st) j), (Z.ltb_spec j (64 * b + st + len)); cbn [andb negb];
        rewrite ?andb_true_r; reflexivity || lia.
  - unfold count_set_bits. rewrite (popcount_land_range _ _ st len) by assumption.
    rewrite (cleared_range n w seen n b st len) by (assumption || lia).
    rewrite Hseen, Z2Nat.inj_add, count_range_app by lia.
    now replace (0 + Z.of_nat (Z.to_nat n)) with n by lia.
Qed.

(** A whole word. *)
Lemma cleared_word n w seen b :
  cleared w0 W lb n w seen -> 0 <= n -> n + 64 <= W -> 0 <= b < vec_len w0 ->
  (lb + n) mod W = 64 * b ->
  cleared w0 W lb (n + 64) (word_set w b 0) (seen + count_set_bits (word_at w b)).
Proof.
  intros Hc Hn Hnl Hb Hm. pose proof (cl_ok _ _ _ _ _ _ Hc) as Hok.
  pose proof (cleared_step n w seen b 0 64 (Z.ones 64) Hc) as H.
  unfold clear_word_bits in H. cbn [fst snd] in H.
  assert (Z.land (word_at w b) (Z.ones 64) = word_at w b) as E1.
  { rewrite Z.land_ones by lia. apply Z.mod_small. now apply bm_ok_word. }
  assert (Z.land (word_at w b) (not64 (Z.ones 64)) = 0) as E2 by apply Z.land_0_r.
  rewrite E1, E2 in H. apply H; try lia; [vm_compute; split; congruence|].
  intros i Hi. rewrite testbit_ones by lia.
  now rewrite (proj2 (Z.leb_le 0 i)), !(proj2 (Z.ltb_lt i _)) by lia.
Qed.

(** Successive blocks around the ring. *)
Lemma next_block p b m q :
  0 <= q -> vec_len w0 = 2 ^ q -> (lb + p) mod W = 64 * b -> 0 <= m ->
  (lb + (p + 64 * m)) mod W = 64 * Z.land (b + m) (vec_len w0 - 1) /\
  0 <= Z.land (b + m) (vec_len w0 - 1) < vec_len w0.
Proof.
  intros Hq Hl Hm Hm0. rewrite Hl, land_pow2_minus1 by lia.
  pose proof (Z.pow_pos_nonneg 2 q ltac:(lia) ltac:(lia)).
  split; [|apply Z.mod_pos_bound; lia].
  rewrite Z.add_assoc, <- Zplus_mod_idemp_l, Hm. rewrite <- HW, Hl.
  replace (64 * b + 64 * m) with (64 * (b + m)) by lia. now rewrite Z.mul_mod_distr_l by lia.
Qed.

Lemma cleared_blocks n w seen b ks q :
  0 <= q -> vec_len w0 = 2 ^ q -> countdown ks ->
  cleared w0 W lb n w seen -> 0 <= n -> n + 64 * Z.of_nat (length ks) <= W ->
  (lb + n) mod W = 64 * b ->
  cleared w0 W lb (n + 64 * Z.of_nat (length ks)) (zero_blocks ks w (vec_len w0) b)
    (sum_blocks ks w (vec_len w0) b seen).
Proof.
  intros Hq Hl Hks Hc Hn Hle Hm. induction ks as [|k ks IH]; cbn [length] in *.
  - cbn [zero_blocks sum_blocks]. now rewrite Z.mul_0_r, !Z.add_0_r.
  - destruct Hks as [-> Hks]. set (m := Z.of_nat (length ks)) in *. specialize (IH Hks ltac:(lia)).
    destruct (next_block n b m q) as [Hb Hr]; try assumption; [lia|].
    cbn [zero_blocks sum_blocks]. set (bm := Z.land (b + m) (vec_len w0 - 1)) in *.
    assert (count_set_bits (word_at w bm) =
            count_set_bits (word_at (zero_blocks ks w (vec_len w0) b) bm)) as ->.
    { unfold count_set_bits, popcount. change 64%nat with (Z.to_nat 64).
      rewrite !(cleared_range _ _ _ (n + 64 * m) bm 0 64) by (eassumption || lia).
      reflexivity. }
    replace (n + 64 * Z.of_nat (S (length ks))) with (n + 64 * m + 64) by lia.
    apply cleared_word; (assumption || lia).
Qed.

Lemma land_idx b q : 0 <= q -> vec_len w0 = 2 ^ q -> 0 <= b < vec_len w0 -> Z.land (b + 0) (vec_len w0 - 1) = b.
Proof. intros Hq -> Hb. rewrite Z.add_0_r, land_pow2_minus1 by lia. now apply Z.mod_small. Qed.

(** The loop over eight words at a time. *)
Lemma clear_words8_cleared q fuel : forall n w seen b fw,
  0 <= q -> vec_len w0 = 2 ^ q ->
  cleared w0 W lb n w seen -> 0 <= n -> 0 <= fw -> n + 64 * fw <= W -> 0 <= b < vec_len w0 ->
  (lb + n) mod W = 64 * b ->
  let '(w', b', fw', seen') := clear_words8 fuel w (vec_len w0) b fw seen in
  exists d, 0 <= d <= fw /\ fw' = fw - d /\ cleared w0 W lb (n + 64 * d) w' seen' /\
            0 <= b' < vec_len w0 /\ (lb + (n + 64 * d)) mod W = 64 * b'.
Proof.
  induction fuel as [|fuel IH]; intros n w seen b fw Hq Hl Hc Hn Hfw Hle Hb Hm.
  - cbn [clear_words8]. exists 0. rewrite Z.mul_0_r, !Z.add_0_r, Z.sub_0_r. split_and!; (assumption || lia).
  - cbn [clear_words8]. destruct (Z.leb_spec 8 fw) as [H8|H8].
    2:{ exists 0. rewrite Z.mul_0_r, !Z.add_0_r, Z.sub_0_r. split_and!; (assumption || lia). }
    pose proof (cleared_blocks n w seen b [7; 6; 5; 4; 3; 2; 1; 0] q Hq Hl
                  ltac:(cbn; lia) Hc Hn ltac:(cbn [length]; lia) Hm) as H.
    destruct (next_block n b 8 q) as [Hb8 Hr8]; try (assumption || lia).
    cbn [zero_blocks sum_blocks length] in H. rewrite (land_idx b q) in H by assumption.
    replace (64 * Z.of_nat 8) with 512 in H by reflexivity. rewrite Z.mul_comm in Hb8. change (8 * 64) with 512 in Hb8.
    match goal with |- context [clear_words8 fuel ?w1 _ ?b1 ?f1 ?s1] =>
      specialize (IH (n + 512) w1 s1 b1 f1 Hq Hl H ltac:(lia) ltac:(lia) ltac:(lia) Hr8 Hb8);
      destruct (clear_words8 fuel w1 (vec_len w0) b1 f1 s1) as [[[w' b'] fw'] seen'] end.
    destruct IH as (d & Hd & -> & Hc' & Hb' & Hm'). exists (d + 8).
    replace (n + 64 * (d + 8)) with (n + 512 + 64 * d) by lia. split_and!; (assumption || lia).
Qed.

(** The loop over the remaining words runs to completion. *)
Lemma clear_words_cleared q fuel : forall n w seen b fw,
  0 <= q -> vec_len w0 = 2 ^ q ->
  cleared w0 W lb n w seen -> 0 <= n -> 0 <= fw <= Z.of_nat fuel -> n + 64 * fw <= W ->
  0 <= b < vec_len w0 -> (lb + n) mod W = 64 * b ->
  let '(w', b', seen') := clear_words fuel w (vec_len w0) b fw seen in
  cleared w0 W lb (n + 64 * fw) w' seen' /\ 0 <= b' < vec_len w0 /\
  (lb + (n + 64 * fw)) mod W = 64 * b'.
Proof.
  induction fuel as [|fuel IH]; intros n w seen b fw Hq Hl Hc Hn Hfw Hle Hb Hm; cbn [clear_words].
  - replace fw with 0 by lia. rewrite Z.mul_0_r, Z.add_0_r. auto.
  - destruct (Z.ltb_spec 0 fw) as [H1|H1].
    2:{ replace fw with 0 by lia. rewrite Z.mul_0_r, Z.add_0_r. auto. }
    destruct (next_block n b 1 q) as [Hb1 Hr1]; try (assumption || lia).
    pose proof (cleared_word n w seen b Hc Hn ltac:(lia) Hb Hm) as H. rewrite Z.mul_1_r in Hb1.
    specialize (IH (n + 64) _ _ _ (fw - 1) Hq Hl H ltac:(lia) ltac:(lia) ltac:(lia) Hr1 Hb1).
    now replace (n + 64 * fw) with (n + 64 + 64 * (fw - 1)) by lia.
Qed.

End Clear.

(** ** The window shift refines the specification *)

Section Shift.

Context (bmi2 : bool).

(** The shift is computed by defined operations: [pow2_mask (64)] is needed when
    the section to clear is exactly one aligned word, and only a BMI2 build gives
    it the value meant. *)
Definition shift_defined (seq inc : Z) (huge : bool) : bool :=
  bmi2 || negb huge || negb ((inc =? 64) && ((seq + 1) mod 64 =? 0)).

Lemma testbit_pow2_mask_64 i : 0 <= i -> Z.testbit (pow2_mask true 64) i = (i <? 64).
Proof. intros. change (pow2_mask true 64) with (Z.ones 64). now apply testbit_ones. Qed.

Lemma shift_huge_window_cleared w0 q seq inc :
  1 <= q <= 25 -> vec_len w0 = 2 ^ q -> bm_ok w0 -> is_u 32 seq ->
  0 < inc < 64 * 2 ^ q -> shift_defined seq inc true = true ->
  let r := shift_huge_window bmi2 w0 (64 * 2 ^ q) seq inc in
  cleared w0 (64 * 2 ^ q) ((seq + 1) mod (64 * 2 ^ q)) inc (fst r) (snd r).
Proof.
  intros Hq Hl Hok Hseq Hinc Hdef. cbv zeta. unfold shift_huge_window.
  assert (64 * 2 ^ q = 2 ^ (q + 6)) as EW by (rewrite Z.pow_add_r by lia; lia).
  assert (2 ^ (q + 6) <= 2 ^ 31) as HW31 by (apply Z.pow_le_mono_r; lia).
  assert (2 ^ q <= 2 ^ 25) as Hq25 by (apply Z.pow_le_mono_r; lia).
  pose proof (Z.pow_pos_nonneg 2 q ltac:(lia) ltac:(lia)) as Hq0.
  set (W := 64 * 2 ^ q) in *.
  assert (forall x, Z.land (u32 x) (u32 (W - 1)) = x mod W) as Hland.
  { intros x. rewrite (u32_small (W - 1)) by (unfold is_u; lia).
    rewrite EW, land_pow2_minus1 by lia. unfold u32. apply mod_mod_pow2. lia. }
  rewrite !Hland. change (64 - 1) with (2 ^ 6 - 1). rewrite !land_pow2_minus1 by lia. change (2 ^ 6) with 64.
  rewrite !Z.shiftr_div_pow2 by lia. change (2 ^ 6) with 64.
  set (lb := (seq + 1) mod W). pose proof (Z.mod_pos_bound (seq + 1) W ltac:(lia)) as Hlb. fold lb in Hlb.
  replace (W / 64) with (vec_len w0) by (rewrite Hl; unfold W; rewrite Z.mul_comm, Z.div_mul; lia).
  assert (((lb + inc) mod W) mod 64 = (lb + inc) mod 64) as ->.
  { apply Z.mod_mod_divide. exists (2 ^ q). unfold W. lia. }
  assert ((seq + 1) mod 64 = lb mod 64) as Est.
  { unfold lb. symmetry. apply Z.mod_mod_divide. exists (2 ^ q). unfold W. lia. }
  pose proof (Z.mod_pos_bound lb 64 ltac:(lia)) as Hst. pose proof (Z.div_mod lb 64 ltac:(lia)) as Hlbd.
  set (st := lb mod 64) in *. set (b := lb / 64) in *.
  assert (0 <= b < vec_len w0) as Hb by (rewrite Hl; split; [apply Z.div_pos; lia|apply Z.div_lt_upper_bound; lia]).
  assert (64 * vec_len w0 = W) as HWl by (rewrite Hl; reflexivity).
  assert (W > 0) as HWpos by lia.
  assert (W <= 2 ^ 31) as HWle by (rewrite EW; exact HW31).
  clearbody st b lb W.
  pose proof (cleared_0 w0 W lb ltac:(lia) Hok) as C0.
  assert ((lb + 0) mod W = 64 * b + st) as Hm0 by (rewrite Z.add_0_r, Z.mod_small by lia; lia).
  destruct (Z.leb_spec (st + inc) 64) as [Hone|Hmany].
  - replace inc with (0 + inc) at 1 by lia.
    replace (snd _) with (0 + snd (clear_word_bits w0 b (shl64 (pow2_mask bmi2 inc) st))) by lia.
    apply (cleared_step w0 W lb) with (st := st); try (assumption || lia); [apply u64_range|].
    intros i Hi. rewrite testbit_shl64 by lia. rewrite (proj2 (Z.ltb_lt i 64)) by lia. cbn [andb].
    destruct (Z.leb_spec st i); cbn [andb]; [|reflexivity].
    destruct (Z.eq_dec inc 64) as [->|].
    + replace bmi2 with true; [rewrite testbit_pow2_mask_64 by lia|].
      * destruct (Z.ltb_spec (i - st) 64), (Z.ltb_spec i (st + 64)); reflexivity || lia.
      * unfold shift_defined in Hdef. rewrite Est in Hdef. replace st with 0 in Hdef by lia.
        destruct bmi2; [reflexivity|discriminate].
    + rewrite testbit_pow2_mask by lia.
      destruct (Z.ltb_spec (i - st) inc), (Z.ltb_spec i (st + inc)); reflexivity || lia.
  - set (en := (lb + inc) mod 64). pose proof (Z.mod_pos_bound (lb + inc) 64 ltac:(lia)) as Hen. fold en in Hen.
    pose proof (Z.div_mod (lb + inc) 64 ltac:(lia)) as Hde. fold en in Hde.
    set (qe := (lb + inc) / 64) in *. clearbody en qe.
    assert (inc + st - 64 - en = 64 * (qe - b - 1)) as Efw by lia.
    rewrite Efw, u64_small by (unfold is_u; lia).
    rewrite (Z.mul_comm 64 (qe - b - 1)), Z.div_mul by lia. set (fw := qe - b - 1) in *.
    assert (0 <= fw) as Hfw by lia.
    pose proof (cleared_step w0 W lb HWl ltac:(lia) 0 w0 0 b st (64 - st) (shl64 (Z.ones 64) st) C0) as C1.
    destruct (clear_word_bits w0 b (shl64 (Z.ones 64) st)) as [w1 s1]. cbn [fst snd] in C1.
    rewrite !Z.add_0_l in C1. specialize (C1 ltac:(lia) ltac:(lia) ltac:(lia) Hb ltac:(lia) ltac:(lia)).
    rewrite Z.add_0_r in Hm0. rewrite Z.add_0_r in C1. specialize (C1 Hm0 (u64_range _)).
    assert (cleared w0 W lb (64 - st) w1 s1) as C1'.
    { apply C1. intros i Hi. rewrite testbit_shl64 by lia.
      rewrite (proj2 (Z.ltb_lt i 64)), (proj2 (Z.ltb_lt i (st + _))) by lia.
      destruct (Z.leb_spec st i); cbn [andb]; [|reflexivity]. rewrite testbit_ones by lia.
      apply Z.ltb_lt. lia. }
    clear C1. destruct (next_block w0 W lb HWl (- st) b 1 q) as [Hb1 Hr1]; try (assumption || lia).
    { rewrite Z.mod_small; lia. }
    replace (- st + 64 * 1) with (64 - st) in Hb1 by lia.
    pose proof (clear_words8_cleared w0 W lb HWl ltac:(lia) q (Z.to_nat fw) (64 - st) w1 s1 _ fw
                  ltac:(lia) Hl C1' ltac:(lia) Hfw ltac:(lia) Hr1 Hb1) as C2.
    destruct (clear_words8 _ _ _ _ _ _) as [[[w2 b2] fw2] s2].
    destruct C2 as (d & Hd & -> & C2 & Hr2 & Hb2).
    pose proof (clear_words_cleared w0 W lb HWl ltac:(lia) q (Z.to_nat (fw - d)) (64 - st + 64 * d) w2 s2 b2 (fw - d)
                  ltac:(lia) Hl C2 ltac:(lia) ltac:(lia) ltac:(lia) Hr2 Hb2) as C3.
    destruct (clear_words _ _ _ _ _ _) as [[w3 b3] s3]. destruct C3 as (C3 & Hr3 & Hb3).
    replace (64 - st + 64 * d + 64 * (fw - d)) with (64 - st + 64 * fw) in * by lia.
    pose proof (cleared_step w0 W lb HWl ltac:(lia) _ w3 s3 b3 0 en (pow2_mask bmi2 en) C3
                  ltac:(lia) ltac:(lia) ltac:(lia) Hr3 ltac:(lia) ltac:(lia)) as C4.
    rewrite Z.add_0_r in C4. specialize (C4 Hb3 (pow2_mask_u64 _ _)).
    destruct (clear_word_bits w3 b3 (pow2_mask bmi2 en)) as [w4 s4]. cbn [fst snd] in *.
    replace inc with (64 - st + 64 * fw + en) by lia. apply C4.
    intros i Hi. rewrite testbit_pow2_mask by lia. now rewrite (proj2 (Z.leb_le 0 i)) by lia.
Qed.

End Shift.

(** ** Effect of a shift on the whole association *)

(** What a shift by [inc] must establish: the window of [sa'] ends [inc] further,
    holds what was seen before and the new top, and nothing else changes. *)
Record shifted (sa : ipsec_sa_replay_t) (huge : bool) (a : rwindow) (inc : Z) (sa' : ipsec_sa_replay_t) (lost : Z)
  : Prop := {
  sh_seq : sa_seq sa' = sa_seq sa;
  sh_seq_hi : sa_seq_hi sa' = sa_seq_hi sa;
  sh_flags : sa_flags sa' = sa_flags sa;
  sh_ok : ar_ok sa' huge;
  sh_size : window_size sa' huge = window_size sa huge;
  sh_bits : forall s, rw_top a + inc - window_size sa huge < s <= rw_top a + inc ->
              win_bit_at sa' huge (rw_top a + inc) s = rw_seen (rw_accept a (rw_top a + inc)) s;
  sh_lost : lost = rw_lost (window_size sa huge) a (rw_top a + inc)
}.

Lemma rw_accept_seen a inc s :
  0 < inc -> rw_seen (rw_accept a (rw_top a + inc)) s =
             (s =? rw_top a + inc) || ((s <=? rw_top a) && rw_seen a s).
Proof. intros. unfold rw_accept. now rewrite (proj2 (Z.ltb_lt _ _)) by lia. Qed.

(** The lost count from the number of set bits among those pushed out. *)
Lemma rw_lost_small W a inc n :
  0 < inc <= W ->
  n = count_range (rw_seen a) (rw_top a - W + 1) (Z.to_nat inc) ->
  rw_lost W a (rw_top a + inc) = inc - n.
Proof.
  intros Hinc ->. unfold rw_lost. rewrite (proj2 (Z.ltb_lt _ _)) by lia.
  replace (rw_top a + inc - rw_top a) with inc by lia.
  rewrite count_range_negb, Z2Nat.id by lia. f_equal.
  apply count_range_ext. intros k Hk. now rewrite (proj2 (Z.leb_le k _)) by lia.
Qed.

Lemma rw_lost_big W a inc n :
  0 <= W <= inc -> 0 < inc ->
  n = count_range (rw_seen a) (rw_top a - W + 1) (Z.to_nat W) ->
  rw_lost W a (rw_top a + inc) = (W - n) + (inc - W).
Proof.
  intros Hinc Hi ->. unfold rw_lost. rewrite (proj2 (Z.ltb_lt _ _)) by lia.
  replace (rw_top a + inc - rw_top a) with inc by lia.
  rewrite count_range_negb, Z2Nat.id by lia.
  replace (Z.to_nat inc) with (Z.to_nat W + Z.to_nat (inc - W))%nat by lia.
  rewrite count_range_app.
  rewrite (count_range_false _ (_ + Z.of_nat _)).
  - rewrite (count_range_ext _ (rw_seen a)); [lia|].
    intros k Hk. now rewrite (proj2 (Z.leb_le k _)) by lia.
  - intros k Hk. now rewrite (proj2 (Z.leb_gt k _)) by lia.
Qed.

(** *** Facts on the 64-bit window *)

Section Window64.

Context (sa : ipsec_sa_replay_t) (a : rwindow) (Href : ar_refines sa false a).

Lemma win64_bit k :
  0 <= k < 64 -> Z.testbit (sa_replay_window sa) k = rw_seen a (rw_top a - 63 + k).
Proof.
  intros Hk. destruct Href as [Hok Htop Hbits].
  change (window_size sa false) with 64 in Hbits.
  rewrite <- Hbits by lia. unfold win_bit, win_bit_at. rewrite Htop. f_equal. lia.
Qed.

Lemma win64_count n :
  0 <= n <= 64 ->
  count_range (Z.testbit (sa_replay_window sa)) 0 (Z.to_nat n) =
  count_range (rw_seen a) (rw_top a - 64 + 1) (Z.to_nat n).
Proof.
  intros Hn. replace (rw_top a - 64 + 1) with (0 + (rw_top a - 63)) by lia.
  rewrite <- count_range_shift. apply count_range_ext. intros k Hk.
  rewrite win64_bit by lia. f_equal. lia.
Qed.

End Window64.

(** *** Facts on the huge window *)

Section WindowHuge.

Context (sa : ipsec_sa_replay_t) (a : rwindow) (Href : ar_refines sa true a).

Lemma huge_pos : 0 < window_size sa true.
Proof. pose proof (window_size_bounds _ _ (arr_ok _ _ _ Href)). lia. Qed.

Lemma huge_words : 64 * vec_len (sa_replay_window_huge sa) = window_size sa true.
Proof.
  destruct (window_size_pow2 _ _ (arr_ok _ _ _ Href)) as (n & Hn & -> & Hl). now apply Hl.
Qed.

(** Ring position of the number [d] after the top. *)
Lemma huge_index d : (sa_seq sa + d) mod window_size sa true = (rw_top a + d) mod window_size sa true.
Proof.
  destruct (window_size_pow2 _ _ (arr_ok _ _ _ Href)) as (n & Hn & -> & _).
  rewrite (arr_top _ _ _ Href), <- (esn_low _ _ (arr_ok _ _ _ Href)).
  rewrite <- (Zplus_mod_idemp_l _ d), mod_mod_pow2, Zplus_mod_idemp_l by lia. reflexivity.
Qed.

Lemma huge_land d :
  Z.land (u32 (sa_seq sa + d)) (u32 (window_size sa true - 1)) = (rw_top a + d) mod window_size sa true.
Proof. rewrite <- huge_index. apply win_index. exact (arr_ok _ _ _ Href). Qed.

Lemma huge_bit s :
  rw_top a - window_size sa true < s <= rw_top a ->
  bm_bit (sa_replay_window_huge sa) (s mod window_size sa true) = rw_seen a s.
Proof. intros Hs. now rewrite <- (arr_bits _ _ _ Href) by exact Hs. Qed.

Lemma huge_count n :
  0 <= n <= window_size sa true ->
  count_range (fun k => bm_bit (sa_replay_window_huge sa)
                 (((sa_seq sa + 1) mod window_size sa true + k) mod window_size sa true)) 0 (Z.to_nat n) =
  count_range (rw_seen a) (rw_top a - window_size sa true + 1) (Z.to_nat n).
Proof.
  intros Hn. pose proof huge_pos as HW.
  replace (rw_top a - window_size sa true + 1) with (0 + (rw_top a - window_size sa true + 1)) by lia.
  rewrite <- count_range_shift. apply count_range_ext. intros k Hk.
  rewrite <- huge_bit by lia. f_equal.
  rewrite huge_index, Zplus_mod_idemp_l.
  replace (k + (rw_top a - window_size sa true + 1)) with (rw_top a + 1 + k + (-1) * window_size sa true) by lia.
  now rewrite Z.mod_add by lia.
Qed.

Lemma huge_size_of w : vec_len w = vec_len (sa_replay_window_huge sa) ->
  window_size (sa <| sa_replay_window_huge := w |>) true = window_size sa true.
Proof. intros E. unfold window_size, clib_bitmap_bytes. cbn. now rewrite E. Qed.

Lemma huge_ok_of w : vec_len w = vec_len (sa_replay_window_huge sa) -> bm_ok w ->
  ar_ok (sa <| sa_replay_window_huge := w |>) true.
Proof.
  intros E Hok. destruct (arr_ok _ _ _ Href) as [Hq Hh [_ (k & Hk & Hl)]].
  split; cbn; try assumption. split; [assumption|]. exists k. now rewrite E.
Qed.

End WindowHuge.

(** *** The shift of each window *)

Section ShiftOk.

Context (bmi2 : bool) (sa : ipsec_sa_replay_t) (a : rwindow) (inc : Z).
Context (Hinc : 0 < inc < 2 ^ 32).

Lemma shift64_small :
  ar_refines sa false a -> inc < 64 ->
  let r := ipsec_sa_anti_replay_window_shift bmi2 sa inc false in
  shifted sa false a inc (fst r) (snd r).
Proof.
  intros Href Hlt. cbv zeta. pose proof (arr_ok _ _ _ Href) as [Hq Hh Hw].
  unfold ipsec_sa_anti_replay_window_shift. change (window_size sa false) with 64.
  rewrite (proj2 (Z.ltb_lt inc 64)) by lia. cbn [fst snd].
  change (u32 (64 - 1)) with 63.
  assert (is_u 64 (Z.lor (shr64 (sa_replay_window sa) inc) (shl64 1 63))) as Hu.
  { apply is_u_lor; [lia| |apply u64_range]. now apply is_u_shr64. }
  split; cbn [set_field sa_seq sa_seq_hi sa_flags]; try reflexivity.
  - now split; cbn.
  - intros s Hs. change (window_size sa false) with 64 in Hs. rewrite rw_accept_seen by lia.
    unfold win_bit_at. cbn [set_field sa_replay_window].
    rewrite Z.lor_spec, testbit_shr64, testbit_shl64 by lia.
    rewrite (proj2 (Z.ltb_lt _ 64)) by lia. cbn [andb].
    replace (63 - (rw_top a + inc - s) + inc) with (63 - (rw_top a - s)) by lia. rewrite orb_comm. f_equal.
    + destruct (Z.eqb_spec s (rw_top a + inc)) as [->|].
      * replace (63 - (_ - _)) with 63 by lia. reflexivity.
      * rewrite (proj2 (Z.leb_gt 63 _)) by lia. reflexivity.
    + destruct (Z.leb_spec s (rw_top a)); cbn [andb].
      * rewrite (win64_bit sa a Href) by lia. f_equal. lia.
      * apply (is_u_testbit_high 64); [lia|exact Hw|lia].
  - change (window_size sa false) with 64.
    unfold count_set_bits. rewrite (popcount_land_range _ _ 0 inc); try lia.
    + rewrite (win64_count sa a Href) by lia.
      pose proof (count_range_bounds (rw_seen a) (rw_top a - 64 + 1) (Z.to_nat inc)).
      rewrite (rw_lost_small 64 a inc _ ltac:(lia) eq_refl).
      rewrite (u32_small (count_range _ _ _)) by (unfold is_u; lia).
      apply u32_small. unfold is_u. lia.
    + intros i Hi. rewrite testbit_pow2_mask by lia. now rewrite (proj2 (Z.leb_le 0 i)) by lia.
Qed.

Lemma shift64_big :
  ar_refines sa false a -> 64 <= inc ->
  let r := ipsec_sa_anti_replay_window_shift bmi2 sa inc false in
  shifted sa false a inc (fst r) (snd r).
Proof.
  intros Href Hge. cbv zeta. pose proof (arr_ok _ _ _ Href) as [Hq Hh Hw].
  unfold ipsec_sa_anti_replay_window_shift. change (window_size sa false) with 64.
  rewrite (proj2 (Z.ltb_ge inc 64)) by lia. cbn [fst snd].
  change (u32 (64 - 1)) with 63. change (shl64 1 63) with (2 ^ 63).
  split; cbn [set_field sa_seq sa_seq_hi sa_flags]; try reflexivity.
  - split; cbn; try assumption. unfold is_u; lia.
  - intros s Hs. change (window_size sa false) with 64 in Hs. rewrite rw_accept_seen by lia.
    unfold win_bit_at. cbn [set_field sa_replay_window].
    rewrite Z.pow2_bits_eqb, (proj2 (Z.leb_gt s (rw_top a))) by lia.
    rewrite orb_false_r. destruct (Z.eqb_spec 63 (63 - (rw_top a + inc - s))), (Z.eqb_spec s (rw_top a + inc)); reflexivity || lia.
  - change (window_size sa false) with 64. unfold window_n_seen, count_set_bits, popcount.
    change 64%nat with (Z.to_nat 64). rewrite (win64_count sa a Href) by lia.
    rewrite (rw_lost_big 64 a inc _ ltac:(lia) ltac:(lia) eq_refl).
    pose proof (count_range_bounds (rw_seen a) (rw_top a - 64 + 1) (Z.to_nat 64)).
    rewrite (u32_small (64 - _)), (u32_small (inc - 64)) by (unfold is_u; lia).
    apply u32_small. unfold is_u. lia.
Qed.

(** Setting the bit of the new top in a window [w] that keeps exactly the bits
    still inside. *)
Lemma huge_shifted w lost :
  ar_refines sa true a -> vec_len w = vec_len (sa_replay_window_huge sa) -> bm_ok w ->
  (forall s, rw_top a + inc - window_size sa true < s < rw_top a + inc ->
     bm_bit w (s mod window_size sa true) = (s <=? rw_top a) && rw_seen a s) ->
  lost = rw_lost (window_size sa true) a (rw_top a + inc) ->
  shifted sa true a inc
    (sa <| sa_replay_window_huge :=
             fst (clib_bitmap_set_no_check w ((rw_top a + inc) mod window_size sa true) 1) |>) lost.
Proof.
  intros Href El Hok Hb Hlost. pose proof (huge_pos sa a Href) as HW. pose proof (huge_words sa a Href) as Hwd.
  pose proof (Z.mod_pos_bound (rw_top a + inc) _ HW) as Hm.
  split; try reflexivity; try assumption.
  - apply (huge_ok_of sa a Href); [now rewrite vec_len_set_no_check|now apply bm_ok_set_no_check].
  - apply huge_size_of. now rewrite vec_len_set_no_check.
  - intros s Hs. rewrite rw_accept_seen by lia. unfold win_bit_at.
    rewrite huge_size_of by now rewrite vec_len_set_no_check.
    cbn [set_field sa_replay_window_huge].
    rewrite bm_bit_set_no_check by (rewrite ?El, ?Hwd; (lia || apply Z.mod_pos_bound; lia)).
    destruct (Z.eqb_spec s (rw_top a + inc)) as [->|Hne]; [now rewrite Z.eqb_refl|]. cbn [orb].
    rewrite Hb by lia.
    destruct (Z.eqb_spec ((rw_top a + inc) mod window_size sa true) (s mod window_size sa true)) as [E|]; [|reflexivity].
    exfalso. assert ((rw_top a + inc - s) mod window_size sa true = 0) as E0.
    { rewrite <- Zminus_mod_idemp_l, <- Zminus_mod_idemp_r, E, Z.sub_diag. apply Z.mod_0_l. lia. }
    rewrite Z.mod_small in E0 by lia. lia.
Qed.

Lemma shift_huge_small :
  ar_refines sa true a -> inc < window_size sa true -> shift_defined bmi2 (sa_seq sa) inc true = true ->
  let r := ipsec_sa_anti_replay_window_shift bmi2 sa inc true in
  shifted sa true a inc (fst r) (snd r).
Proof.
  intros Href Hlt Hdef. cbv zeta. pose proof (huge_pos sa a Href) as HW. pose proof (huge_words sa a Href) as Hwd.
  destruct (arr_ok _ _ _ Href) as [Hq Hh [Hok (k & Hk & Hl)]].
  unfold ipsec_sa_anti_replay_window_shift. rewrite (proj2 (Z.ltb_lt inc _)) by lia.
  pose proof (shift_huge_window_cleared bmi2 (sa_replay_window_huge sa) k (sa_seq sa) inc) as C.
  rewrite <- Hl, Hwd in C. specialize (C Hk eq_refl Hok Hq ltac:(lia) Hdef). cbv zeta in C.
  destruct (shift_huge_window _ _ _ _ _) as [w seen]. cbn [fst snd] in *.
  destruct C as [Cl Cok Cb Cs]. rewrite (huge_land sa a Href). apply huge_shifted; try assumption.
  - intros s Hs. rewrite Cb by (apply Z.mod_pos_bound; lia). rewrite (huge_index sa a Href).
    rewrite Zminus_mod_idemp_l, Zminus_mod_idemp_r.
    destruct (Z.leb_spec s (rw_top a)).
    + rewrite (huge_bit sa a Href) by lia.
      replace (s - (rw_top a + 1)) with (s - rw_top a - 1 + window_size sa true + (-1) * window_size sa true) by lia.
      rewrite Z.mod_add, Z.mod_small by lia.
      rewrite (proj2 (Z.ltb_ge _ inc)) by lia. now rewrite andb_true_r.
    + rewrite (Z.mod_small (s - _)) by lia.
      rewrite (proj2 (Z.ltb_lt _ inc)) by lia. now rewrite andb_false_r.
  - rewrite (huge_count sa a Href) in Cs by lia.
    pose proof (count_range_bounds (rw_seen a) (rw_top a - window_size sa true + 1) (Z.to_nat inc)).
    rewrite (rw_lost_small (window_size sa true) a inc _ ltac:(lia) Cs).
    rewrite (u32_small seen), u32_small by (unfold is_u; lia). reflexivity.
Qed.

Lemma shift_huge_big :
  ar_refines sa true a -> window_size sa true <= inc ->
  let r := ipsec_sa_anti_replay_window_shift bmi2 sa inc true in
  shifted sa true a inc (fst r) (snd r).
Proof.
  intros Href Hge. cbv zeta. pose proof (huge_pos sa a Href) as HW. pose proof (huge_words sa a Href) as Hwd.
  pose proof (window_size_bounds _ _ (arr_ok _ _ _ Href)) as HWb.
  unfold ipsec_sa_anti_replay_window_shift. rewrite (proj2 (Z.ltb_ge inc _)) by lia. cbn [fst snd].
  rewrite (huge_land sa a Href). apply huge_shifted; [exact Href|apply vec_len_zero|apply bm_ok_zero| |].
  - intros s Hs. rewrite bm_bit_zero. now rewrite (proj2 (Z.leb_gt s _)) by lia.
  - unfold window_n_seen. rewrite clib_bitmap_count_bits, Hwd.
    pose proof (huge_count sa a Href (window_size sa true) ltac:(lia)) as E.
    rewrite count_range_rotate in E by (apply Z.mod_pos_bound; lia).
    rewrite (rw_lost_big (window_size sa true) a inc _ ltac:(lia) ltac:(lia) E).
    pose proof (count_range_bounds (bm_bit (sa_replay_window_huge sa)) 0 (Z.to_nat (window_size sa true))).
    rewrite (u32_small (window_size sa true - _)), (u32_small (inc - _)) by (unfold is_u; lia).
    apply u32_small. unfold is_u. lia.
Qed.

End ShiftOk.

(** The shift, for both windows. *)
Lemma window_shift_shifted bmi2 sa huge a inc :
  ar_refines sa huge a -> 0 < inc < 2 ^ 32 ->
  shift_defined bmi2 (sa_seq sa) inc huge = true ->
  let r := ipsec_sa_anti_replay_window_shift bmi2 sa inc huge in
  shifted sa huge a inc (fst r) (snd r).
Proof.
  intros Href Hinc Hdef. destruct huge.
  - destruct (Z.lt_ge_cases inc (window_size sa true)).
    + now apply shift_huge_small.
    + now apply shift_huge_big.
  - destruct (Z.lt_ge_cases inc 64).
    + now apply shift64_small.
    + now apply shift64_big.
Qed.

(** ** The window update refines the specification *)

(** Numbers the association can count to. *)
Definition num_ok (sa : ipsec_sa_replay_t) (s : Z) : Prop := 0 <= s < (if is_ESN sa then 2 ^ 64 else 2 ^ 32).

(** An updated association represents the abstract window after [s]. *)
Record advanced (sa : ipsec_sa_replay_t) (huge : bool) (a : rwindow) (s : Z) (sa' : ipsec_sa_replay_t) (lost : Z)
  : Prop := {
  adv_refines : ar_refines sa' huge (rw_accept a s);
  adv_flags : sa_flags sa' = sa_flags sa;
  adv_size : window_size sa' huge = window_size sa huge;
  adv_lost : lost = rw_lost (window_size sa huge) a s
}.

Lemma is_set_flags f sa sa' : sa_flags sa' = sa_flags sa -> ipsec_sa_is_set f sa' = ipsec_sa_is_set f sa.
Proof. unfold ipsec_sa_is_set. now intros ->. Qed.

Lemma ar_mark_advanced sa huge a s :
  ar_refines sa huge a -> rw_top a - window_size sa huge < s <= rw_top a ->
  advanced sa huge a s (ar_mark sa (s mod 2 ^ 32) (rw_top a - s) huge) 0.
Proof.
  intros Href Hs. pose proof Href as [Hok Htop Hbits]. pose proof Hok as [Hq Hh Hw].
  pose proof (window_size_bounds _ _ Hok) as HW. unfold ar_mark.
  assert (rw_accept a s = mk_rwindow (rw_top a) (fun x => (x =? s) || rw_seen a x)) as Ea
    by (unfold rw_accept; now rewrite (proj2 (Z.ltb_ge _ _)) by lia).
  assert (0 = rw_lost (window_size sa huge) a s) as El
    by (unfold rw_lost; now rewrite (proj2 (Z.ltb_ge _ _)) by lia).
  destruct huge.
  - rewrite win_index by exact Hok. pose proof (huge_words sa a Href) as Hwd.
    pose proof (Z.mod_pos_bound s (window_size sa true) ltac:(lia)) as Hm.
    set (w := fst (clib_bitmap_set_no_check _ _ _)).
    assert (vec_len w = vec_len (sa_replay_window_huge sa)) as Ew by apply vec_len_set_no_check.
    pose proof (huge_size_of sa w Ew) as Esz.
    split; try assumption; try reflexivity. rewrite Ea. split; cbn [rw_top rw_seen].
    + apply (huge_ok_of sa a Href); [assumption|]. now apply bm_ok_set_no_check.
    + exact Htop.
    + intros x Hx. rewrite Esz in Hx. unfold win_bit, win_bit_at. rewrite Esz. cbn [set_field sa_replay_window_huge].
      unfold w. rewrite bm_bit_set_no_check by (rewrite ?Hwd; (lia || apply Z.mod_pos_bound; lia)).
      rewrite (huge_bit sa a Href) by lia. change (negb (1 =? 0)) with true.
      destruct (Z.eqb_spec x s) as [->|Hne]; [now rewrite Z.eqb_refl|].
      destruct (Z.eqb_spec (s mod window_size sa true) (x mod window_size sa true)) as [E|]; [|reflexivity].
      exfalso. apply Hne.
      assert ((x - s) mod window_size sa true = 0 /\ (s - x) mod window_size sa true = 0) as [E0 E1].
      { split; rewrite <- Zminus_mod_idemp_l, <- Zminus_mod_idemp_r, E, Z.sub_diag; apply Z.mod_0_l; lia. }
      destruct (Z.le_gt_cases s x); [rewrite Z.mod_small in E0 by lia|rewrite Z.mod_small in E1 by lia]; lia.
  - change (window_size sa false) with 64 in *.
    rewrite u32_small by (unfold is_u; lia).
    set (w := Z.lor _ _). assert (is_u 64 w) as Hu by (apply is_u_lor; [lia|exact Hw|apply u64_range]).
    split; try assumption; try reflexivity. rewrite Ea. split; cbn [rw_top rw_seen].
    + split; cbn; assumption.
    + exact Htop.
    + intros x Hx. change (window_size _ false) with 64 in Hx. unfold win_bit, win_bit_at.
      change (esn_of (sa <| sa_replay_window := w |>)) with (esn_of sa). cbn [set_field sa_replay_window].
      rewrite <- Htop. unfold w. rewrite Z.lor_spec, (win64_bit sa a Href), testbit_shl64 by lia.
      rewrite (proj2 (Z.ltb_lt _ 64)) by lia. cbn [andb]. rewrite orb_comm.
      replace (rw_top a - 63 + (63 - (rw_top a - x))) with x by lia. f_equal.
      destruct (Z.eqb_spec x s) as [->|].
      * replace (63 - (rw_top a - s) - (64 - 1 - (rw_top a - s))) with 0 by lia.
        rewrite (proj2 (Z.leb_le _ _)) by lia. reflexivity.
      * destruct (Z.leb_spec (64 - 1 - (rw_top a - s)) (63 - (rw_top a - x))); cbn [andb]; [|reflexivity].
        apply (is_u_testbit_high 1); [lia|unfold is_u; lia|lia].
Qed.

(** Moving the top: the shift followed by the new sequence number. *)
Lemma shifted_advanced sa huge a inc sa' lost lo hi :
  ar_refines sa huge a -> 0 < inc -> shifted sa huge a inc sa' lost ->
  is_u 32 lo -> is_u 32 hi ->
  (if is_ESN sa then hi * 2 ^ 32 else 0) + lo = rw_top a + inc ->
  advanced sa huge a (rw_top a + inc) (sa' <| sa_seq := lo |> <| sa_seq_hi := hi |>) lost.
Proof.
  intros Href Hinc [E1 E2 E3 Hok' E4 Hb Hl] Hlo Hhi Hsum.
  set (sa'' := sa' <| sa_seq := lo |> <| sa_seq_hi := hi |>).
  assert (esn_of sa'' = rw_top a + inc) as Et.
  { unfold esn_of, sa''. cbn [set_field sa_seq sa_seq_hi].
    rewrite (is_set_flags _ sa) by (cbn; exact E3). exact Hsum. }
  assert (rw_top (rw_accept a (rw_top a + inc)) = rw_top a + inc) as Etop.
  { unfold rw_accept. now rewrite (proj2 (Z.ltb_lt _ _)) by lia. }
  split; [split| | |]; try assumption.
  - destruct Hok' as [_ _ Hw']. split; cbn; assumption.
  - congruence.
  - rewrite Etop. change (window_size sa'' huge) with (window_size sa' huge). rewrite E4.
    intros s Hs. rewrite <- Hb by exact Hs. unfold win_bit. rewrite Et. reflexivity.
Qed.

(** The same when the high half stays. *)
Lemma shifted_advanced_same_hi bmi2 sa huge a s :
  ar_refines sa huge a -> rw_top a < s < rw_top a + 2 ^ 32 ->
  shift_defined bmi2 (sa_seq sa) (s - rw_top a) huge = true ->
  (if is_ESN sa then sa_seq_hi sa * 2 ^ 32 else 0) + s mod 2 ^ 32 = s ->
  let r := ipsec_sa_anti_replay_window_shift bmi2 sa (s - rw_top a) huge in
  advanced sa huge a s ((fst r) <| sa_seq := s mod 2 ^ 32 |>) (snd r).
Proof.
  intros Href Hs Hdef Hsum. cbv zeta.
  pose proof (window_shift_shifted bmi2 sa huge a (s - rw_top a) Href ltac:(lia) Hdef) as Hsh. cbv zeta in Hsh.
  destruct (ipsec_sa_anti_replay_window_shift _ _ _ _) as [sa' n]. cbn [fst snd] in *.
  pose proof (sh_seq_hi _ _ _ _ _ _ Hsh) as Ehi.
  assert (sa' <| sa_seq := s mod 2 ^ 32 |> =
          sa' <| sa_seq := s mod 2 ^ 32 |> <| sa_seq_hi := sa_seq_hi sa |>) as ->
    by (rewrite <- Ehi; now destruct sa').
  replace s with (rw_top a + (s - rw_top a)) at 1 by lia.
  apply (shifted_advanced sa huge a); try (assumption || lia).
  - apply u32_range.
  - apply (ar_seq_hi _ _ (arr_ok _ _ _ Href)).
Qed.

(** A step of the high half by at most one, read back as an [int]. *)
Lemma i32_diff x y : -1 <= x - y <= 1 -> i32 (u32 (x - y)) = x - y.
Proof. intros H. unfold i32, u32. rewrite Zplus_mod_idemp_l, Z.mod_small; lia. Qed.

Lemma advance_advanced bmi2 sa huge a s :
  ar_refines sa huge a -> num_ok sa s ->
  rw_top a - window_size sa huge < s < rw_top a + 2 ^ 32 ->
  shift_defined bmi2 (sa_seq sa) (s - rw_top a) huge = true ->
  let r := ipsec_sa_anti_replay_advance bmi2 sa (s mod 2 ^ 32) (s / 2 ^ 32) huge in
  advanced sa huge a s (fst r) (snd r).
Proof.
  intros Href Hnum Hs Hdef. cbv zeta. pose proof Href as [Hok Htop _].
  pose proof Hok as [Hq Hh _]. unfold is_u, num_ok in *.
  pose proof (Z.div_mod s (2 ^ 32) ltac:(lia)) as Hds.
  pose proof (Z.mod_pos_bound s (2 ^ 32) ltac:(lia)) as Hms.
  pose proof (window_size_bounds _ _ Hok) as HW.
  pose proof (ar_mark_advanced sa huge a s Href) as Hmk.
  pose proof (fun H => shifted_advanced_same_hi bmi2 sa huge a s Href H Hdef) as Hsame. cbv zeta in Hsame.
  pose proof (fun H => window_shift_shifted bmi2 sa huge a (s - rw_top a) Href H Hdef) as Hsh. cbv zeta in Hsh.
  unfold ipsec_sa_anti_replay_advance, esn_of in *.
  set (lo := s mod 2 ^ 32) in *. set (h := s / 2 ^ 32) in *. clearbody lo h.
  rewrite !not32_val by (unfold is_u; lia).
  assert (Hpos : forall x, x = s - rw_top a -> rw_top a < s -> u32 x = s - rw_top a).
  { intros x -> ?. rewrite u32_small; unfold is_u; lia. }
  assert (Hneg : forall x, x = rw_top a - s -> s <= rw_top a -> u32 x = rw_top a - s).
  { intros x -> ?. rewrite u32_small; unfold is_u; lia. }
  destruct (is_ESN sa) eqn:He.
  - rewrite i32_diff by lia. destruct (Z.eqb_spec (h - sa_seq_hi sa) 0); cbn [andb].
    + destruct (Z.ltb_spec (sa_seq sa) lo).
      * rewrite Hpos by lia. specialize (Hsame ltac:(lia) ltac:(lia)).
        now destruct (ipsec_sa_anti_replay_window_shift _ _ _ _).
      * rewrite (proj2 (Z.ltb_ge 0 _)), (proj2 (Z.ltb_ge _ 0)) by lia. cbn [fst snd].
        rewrite Hneg by lia. apply Hmk. lia.
    + destruct (Z.ltb_spec 0 (h - sa_seq_hi sa)).
      * rewrite Hpos by lia. specialize (Hsh ltac:(lia)).
        destruct (ipsec_sa_anti_replay_window_shift _ _ _ _) as [sa' lost]. cbn [fst snd] in *.
        replace s with (rw_top a + (s - rw_top a)) by lia.
        apply (shifted_advanced sa huge a); try (assumption || lia); try (unfold is_u; lia). rewrite He. lia.
      * rewrite (proj2 (Z.ltb_lt _ 0)) by lia. cbn [fst snd].
        rewrite Hneg by lia. apply Hmk. lia.
  - destruct (Z.ltb_spec (sa_seq sa) lo).
    + rewrite Hpos by lia. specialize (Hsame ltac:(lia) ltac:(lia)).
      now destruct (ipsec_sa_anti_replay_window_shift _ _ _ _).
    + cbn [fst snd]. rewrite Hneg by lia. apply Hmk. lia.
Qed.

(** ** A new association *)

Lemma max_log2_spec x : 1 < x <= 2 ^ 31 -> max_log2 x = Z.log2_up x.
Proof.
  intros Hx. unfold max_log2, min_log2.
  pose proof (Z.log2_spec x ltac:(lia)) as Hl. pose proof (Z.log2_nonneg x).
  pose proof (Z.log2_le_mono x (2 ^ 31) ltac:(lia)) as Hm. rewrite Z.log2_pow2 in Hm by lia.
  unfold shl64. rewrite Z.mod_small, Z.shiftl_1_l, u64_small by
    (unfold is_u; pose proof (Z.pow_lt_mono_r 2 (Z.log2 x) 64); pose proof (Z.pow_pos_nonneg 2 (Z.log2 x)); lia).
  pose proof (Z.le_log2_log2_up x). pose proof (Z.le_log2_up_succ_log2 x).
  destruct (Z.ltb_spec (2 ^ Z.log2 x) x) as [Hlt|Hge].
  - pose proof (Z.log2_up_spec x ltac:(lia)) as [_ Hup].
    destruct (Z.eq_dec (Z.log2_up x) (Z.log2 x)) as [E|]; [rewrite E in Hup|]; lia.
  - assert (x = 2 ^ Z.log2 x) as E by lia. rewrite E at 2. now rewrite Z.log2_up_pow2 by lia.
Qed.

(** The window of nothing received: numbers up to zero count as seen. *)
Definition rw_init : rwindow := mk_rwindow 0 (fun s => s <=? 0).

(** A requested size is rounded up to the next power of two, of whole words. *)
Lemma rounded_size sz :
  64 < sz <= 2 ^ 31 ->
  exists q, 1 <= q <= 25 /\ 2 ^ max_log2 sz = 64 * 2 ^ q /\ sz <= 64 * 2 ^ q < 2 * sz.
Proof.
  intros Hsz. rewrite max_log2_spec by lia. exists (Z.log2_up sz - 6).
  pose proof (Z.log2_up_spec sz ltac:(lia)) as [Hlo Hup].
  assert (7 <= Z.log2_up sz <= 31) as Hl.
  { split; [apply (Z.log2_up_le_mono 65 sz); lia|].
    pose proof (Z.log2_up_le_mono sz (2 ^ 31) ltac:(lia)) as H. now rewrite Z.log2_up_pow2 in H by lia. }
  assert (64 * 2 ^ (Z.log2_up sz - 6) = 2 ^ Z.log2_up sz) as ->.
  { change 64 with (2 ^ 6). rewrite <- Z.pow_add_r by lia. f_equal. lia. }
  assert (2 ^ Z.log2_up sz = 2 * 2 ^ Z.pred (Z.log2_up sz)) by (rewrite <- Z.pow_succ_r by lia; f_equal; lia).
  lia.
Qed.

Lemma init_replay_refines bmi2 sa sz :
  sa_seq sa = 0 -> sa_seq_hi sa = 0 -> (is_HUGE sa = true -> 64 < sz <= 2 ^ 31) ->
  ar_refines (ipsec_sa_init_replay bmi2 sa sz) (is_HUGE sa) rw_init.
Proof.
  intros Hq Hh Hsz. unfold ipsec_sa_init_replay.
  assert (esn_of sa = 0) as He by (unfold esn_of; rewrite Hq, Hh; now destruct (is_ESN sa)).
  destruct (is_HUGE sa) eqn:E.
  - destruct (rounded_size sz (Hsz eq_refl)) as (q & Hq25 & -> & _).
    assert (0 < 2 ^ q <= 2 ^ 25) as Hq2 by (split; [apply Z.pow_pos_nonneg; lia|apply Z.pow_le_mono_r; lia]).
    rewrite u32_small by (unfold is_u; lia). set (w := clib_bitmap_set_region bmi2 [] 0 1 (64 * 2 ^ q)).
    pose proof (fun j => set_region_bits bmi2 [] 0 1 (64 * 2 ^ q) j ltac:(lia) ltac:(lia) ltac:(lia)) as Hr.
    cbv zeta in Hr. fold w in Hr.
    assert (vec_len w = 2 ^ q) as Hlen.
    { destruct (Hr 0 ltac:(lia)) as [-> _].
      replace (0 + 64 * 2 ^ q - 1) with (63 + (2 ^ q - 1) * 64) by lia. rewrite Z.div_add by lia.
      change (vec_len []) with 0. change (63 / 64) with 0. lia. }
    assert (window_size (sa <| sa_replay_window_huge := w |>) true = 64 * 2 ^ q) as HW.
    { unfold window_size, clib_bitmap_bytes. cbn [set_field sa_replay_window_huge].
      rewrite Hlen, u32_small by (unfold is_u; lia). lia. }
    split; [split| |]; cbn [set_field sa_seq sa_seq_hi sa_replay_window_huge rw_top rw_seen rw_init].
    + rewrite Hq. unfold is_u. lia.
    + rewrite Hh. unfold is_u. lia.
    + split; [apply bm_ok_set_region; constructor|]. exists q. split; [lia|assumption].
    + symmetry. exact He.
    + intros s Hs. rewrite HW in Hs. unfold win_bit, win_bit_at. rewrite HW. cbn [set_field sa_replay_window_huge].
      pose proof (Z.mod_pos_bound s (64 * 2 ^ q) ltac:(lia)).
      destruct (Hr (s mod (64 * 2 ^ q)) ltac:(lia)) as [_ ->].
      rewrite (proj2 (Z.leb_le 0 _)), (proj2 (Z.ltb_lt _ _)), (proj2 (Z.leb_le s 0)) by lia. reflexivity.
  - split; [split| |]; cbn [set_field sa_seq sa_seq_hi sa_replay_window rw_top rw_seen rw_init].
    + rewrite Hq. unfold is_u. lia.
    + rewrite Hh. unfold is_u. lia.
    + apply u64_range.
    + symmetry. exact He.
    + intros s Hs. change (window_size _ false) with 64 in Hs. unfold win_bit, win_bit_at.
      change (esn_of _) with (esn_of sa). rewrite He. cbn [set_field sa_replay_window].
      change (u64 (-1)) with (Z.ones 64). rewrite testbit_ones, (proj2 (Z.leb_le s 0)) by lia.
      apply Z.ltb_lt. lia.
Qed.

(** ** Reception without replays *)

(** Accepted numbers, as far as the window can tell: each is at or below the top
    and, if still inside the window, marked. *)
Definition remembered (W : Z) (a : rwindow) (l : list Z) : Prop :=
  Forall (fun s => s <= rw_top a /\ (rw_top a - W < s -> rw_seen a s = true)) l.

Lemma remembered_accept W a l s :
  remembered W a l -> rw_replay W a s = false ->
  (s ∉ l) /\ remembered W (rw_accept a s) (s :: l).
Proof.
  intros Hrem Hr. unfold rw_replay in Hr. apply orb_false_iff in Hr as [H1 H2]. breflect.
  unfold remembered in *. rewrite Forall_forall in Hrem. split.
  - intros Hin. destruct (Hrem s Hin) as [Hle Hs]. rewrite (proj2 (Z.leb_le s _)), Hs in H2 by lia. discriminate.
  - apply Forall_cons. unfold rw_accept. destruct (Z.ltb_spec (rw_top a) s); cbn [rw_top rw_seen].
    + rewrite Z.eqb_refl. split; [split; [lia|reflexivity]|]. apply Forall_forall. intros x Hx.
      destruct (Hrem x Hx) as [Hle Hs]. split; [lia|]. intros.
      rewrite (proj2 (Z.leb_le x _)), Hs by lia. apply orb_true_r.
    + rewrite Z.eqb_refl. split; [split; [lia|reflexivity]|]. apply Forall_forall. intros x Hx.
      destruct (Hrem x Hx) as [Hle Hs]. split; [lia|]. intros. rewrite Hs by lia. apply orb_true_r.
Qed.

(** A check that passes is right, for all sequence numbers. *)
Lemma sn_advance_no_esn_sound sa huge a s hi_used post req :
  ar_refines sa huge a -> is_ESN sa = false -> is_ANTI_REPLAY sa = true -> is_u 32 s ->
  fst (ipsec_sa_anti_replay_and_sn_advance sa s hi_used post req huge) = 0 ->
  rw_replay (window_size sa huge) a s = false.
Proof.
  intros [Hok Htop Hbits] He Har Hs. unfold is_u in Hs.
  pose proof (window_size_bounds _ _ Hok) as HW. pose proof (ar_seq _ _ Hok) as Hq. unfold is_u in Hq.
  assert (esn_of sa = sa_seq sa) as HT by (unfold esn_of; now rewrite He).
  unfold ipsec_sa_anti_replay_and_sn_advance, rw_replay. rewrite He, Har. cbn [negb].
  rewrite Htop, HT in *. destruct (Z.ltb_spec (sa_seq sa) s); cbn [fst].
  - intros _. rewrite (proj2 (Z.leb_gt s (_ - _))), (proj2 (Z.leb_gt s (sa_seq sa))) by lia. reflexivity.
  - destruct (Z.leb_spec (u32 (s + window_size sa huge)) (sa_seq sa)) as [|Hgt]; cbn [fst]; [discriminate|].
    assert (sa_seq sa - window_size sa huge < s) as Hin.
    { unfold u32 in Hgt. destruct (Z.lt_ge_cases (s + window_size sa huge) (2 ^ 32)).
      - rewrite Z.mod_small in Hgt; lia.
      - lia. }
    rewrite <- (Z.mod_small s (2 ^ 32)) at 1 by lia. rewrite check_win_bit, Hbits by (assumption || lia).
    rewrite (proj2 (Z.leb_gt s (_ - _))), (proj2 (Z.leb_le s (sa_seq sa))) by lia.
    now destruct (rw_seen a s).
Qed.

(** The number a low half stands for, given the window. *)
Lemma decode_number top W lo :
  0 <= lo < 2 ^ 32 ->
  exists s, top - W < s <= top - W + 2 ^ 32 /\ s mod 2 ^ 32 = lo.
Proof.
  intros Hlo. exists (top - W + 1 + (lo - (top - W + 1)) mod 2 ^ 32).
  pose proof (Z.mod_pos_bound (lo - (top - W + 1)) (2 ^ 32) ltac:(lia)). split; [lia|].
  rewrite Zplus_mod_idemp_r. replace (top - W + 1 + (lo - (top - W + 1))) with lo by lia.
  now apply Z.mod_small.
Qed.

(** Nothing below zero is ever fresh. *)
Definition rw_grounded (a : rwindow) : Prop := 0 <= rw_top a /\ forall s, s < 0 -> rw_seen a s = true.

Lemma rw_grounded_accept a s : rw_grounded a -> rw_grounded (rw_accept a s).
Proof.
  intros [Ht Hs]. unfold rw_accept, rw_grounded. destruct (Z.ltb_spec (rw_top a) s); cbn [rw_top rw_seen].
  - split; [lia|]. intros x Hx. rewrite Hs, (proj2 (Z.leb_le x _)) by lia. apply orb_true_r.
  - split; [lia|]. intros x Hx. rewrite Hs by lia. apply orb_true_r.
Qed.

Lemma rw_replay_negative W a s :
  rw_grounded a -> rw_replay W a s = false -> 0 <= s.
Proof.
  intros [Ht Hs] Hr. destruct (Z.lt_ge_cases s 0); [|assumption].
  unfold rw_replay in Hr. rewrite Hs, (proj2 (Z.leb_le s (rw_top a))), orb_true_r in Hr by lia. discriminate.
Qed.

(** Everything the reception of packets relies on. *)
Record rx_inv (bmi2 : bool) (sa : ipsec_sa_replay_t) (a : rwindow) (acc : list (Z * Z)) : Prop := {
  rx_refines : ar_refines sa (is_HUGE sa) a;
  rx_grounded : rw_grounded a;
  rx_ar : is_ANTI_REPLAY sa = true;
  rx_build : bmi2 = true \/ is_HUGE sa = false;
  rx_nodup : NoDup (map (fun p => fst p * 2 ^ 32 + snd p) acc);
  rx_mem : remembered (window_size sa (is_HUGE sa)) a (map (fun p => fst p * 2 ^ 32 + snd p) acc)
}.

Lemma shift_defined_build bmi2 sa seq inc :
  bmi2 = true \/ is_HUGE sa = false -> shift_defined bmi2 seq inc (is_HUGE sa) = true.
Proof. unfold shift_defined. intros [->| ->]; [reflexivity|]. cbn. now rewrite orb_true_r. Qed.

(** Accepting a number that is not a replay preserves the invariant. *)
Lemma rx_inv_accept bmi2 sa a acc s :
  rx_inv bmi2 sa a acc -> num_ok sa s -> s < rw_top a + 2 ^ 32 ->
  rw_replay (window_size sa (is_HUGE sa)) a s = false ->
  rx_inv bmi2 (fst (ipsec_sa_anti_replay_advance bmi2 sa (s mod 2 ^ 32) (s / 2 ^ 32) (is_HUGE sa)))
    (rw_accept a s) ((s / 2 ^ 32, s mod 2 ^ 32) :: acc) /\
  sa_flags (fst (ipsec_sa_anti_replay_advance bmi2 sa (s mod 2 ^ 32) (s / 2 ^ 32) (is_HUGE sa))) = sa_flags sa /\
  window_size (fst (ipsec_sa_anti_replay_advance bmi2 sa (s mod 2 ^ 32) (s / 2 ^ 32) (is_HUGE sa))) (is_HUGE sa) = window_size sa (is_HUGE sa).
Proof.
  intros [Href Hg Har Hb Hnd Hmem] Hnum Hlt Hr.
  pose proof Hr as Hr'. unfold rw_replay in Hr'. apply orb_false_iff in Hr' as [Hlow _]. breflect.
  pose proof (advance_advanced bmi2 sa (is_HUGE sa) a s Href Hnum ltac:(lia)
                (shift_defined_build _ _ _ _ Hb)) as Hadv. cbv zeta in Hadv.
  destruct (ipsec_sa_anti_replay_advance _ _ _ _ _) as [sa' lost]. cbn [fst snd] in *.
  destruct Hadv as [Href' Hf Hsz _].
  assert (s / 2 ^ 32 * 2 ^ 32 + s mod 2 ^ 32 = s) as Es by (pose proof (Z.div_mod s (2 ^ 32)); lia).
  destruct (remembered_accept _ _ _ _ Hmem Hr) as [Hnin Hmem'].
  split; [|now split]. split; rewrite ?(is_set_flags _ sa) by assumption; try assumption.
  - now apply rw_grounded_accept.
  - cbn [map fst snd]. rewrite Es. now apply NoDup_cons.
  - rewrite Hsz. cbn [map fst snd]. now rewrite Es.
Qed.

Definition number (p : Z * Z) : Z := fst p * 2 ^ 32 + snd p.

Lemma no_esn_hi_0 sa lo used post req huge hi :
  is_ESN sa = false ->
  snd (ipsec_sa_anti_replay_and_sn_advance sa lo used post req huge) = Some hi -> hi = 0.
Proof.
  intros He. unfold ipsec_sa_anti_replay_and_sn_advance. rewrite He. cbn [negb].
  destruct (negb _), req; try (destruct (_ <? _); [|destruct (_ <=? _)]); cbn; congruence.
Qed.

(** Numbers that passed the first check, against the window as it is now. *)
Definition pending_ok (sa : ipsec_sa_replay_t) (a : rwindow) (p : Z * Z) : Prop :=
  is_u 32 (snd p) /\
  if is_ESN sa
  then is_u 32 (fst p) /\ rw_top a - window_size sa (is_HUGE sa) < number p <= rw_top a - window_size sa (is_HUGE sa) + 2 ^ 32
  else fst p = 0.

Lemma number_split p : is_u 32 (snd p) -> number p / 2 ^ 32 = fst p /\ number p mod 2 ^ 32 = snd p.
Proof.
  unfold is_u, number. intros H. rewrite Z.div_add_l, Z.div_small, Z.add_0_r by lia. split; [reflexivity|].
  rewrite Z.add_comm, Z.mod_add, Z.mod_small by lia. reflexivity.
Qed.

(** The first check. *)
Lemma ar_check_ok bmi2 sa a acc pkt p :
  rx_inv bmi2 sa a acc -> is_u 32 (fst pkt) -> (is_ESN sa = true -> rw_top a + 2 ^ 32 <= 2 ^ 64) ->
  ar_check sa pkt = Some p -> pending_ok sa a p.
Proof.
  intros Hinv Hlo Hroom. unfold ar_check. pose proof (rx_refines _ _ _ _ Hinv) as Href.
  pose proof (rx_ar _ _ _ _ Hinv) as Har. destruct pkt as [lo auth]. cbn [fst snd] in *. destruct (is_ESN sa) eqn:He.
  - pose proof (window_size_bounds _ _ (arr_ok _ _ _ Href)) as HW.
    destruct (decode_number (rw_top a) (window_size sa (is_HUGE sa)) lo Hlo) as (s & Hs & <-).
    pose proof (sn_advance_esn sa (is_HUGE sa) a s (2 ^ 32 - 1) false Href He Har Hs ltac:(discriminate)) as Epre.
    cbn [negb] in Epre. rewrite Epre. destruct (rw_replay _ a s) eqn:Hr; [easy|]. cbn [Z.b2z]. destruct (auth _); [|easy].
    intros [= <-]. pose proof (rw_replay_negative _ _ _ (rx_grounded _ _ _ _ Hinv) Hr) as Hpos. specialize (Hroom eq_refl).
    assert (is_u 32 (s / 2 ^ 32)) as Hh by (unfold is_u; split; [apply Z.div_pos; lia|apply Z.div_lt_upper_bound; lia]).
    unfold pending_ok. rewrite He. cbn [fst snd]. rewrite (u32_small _ Hh). split; [exact Hlo|]. split; [exact Hh|].
    unfold number. cbn [fst snd]. pose proof (Z.div_mod s (2 ^ 32)). lia.
  - pose proof (fun hi => no_esn_hi_0 sa lo (2 ^ 32 - 1) false true (is_HUGE sa) hi He) as Hhi.
    destruct (ipsec_sa_anti_replay_and_sn_advance _ _ _ _ _ _) as [[| |] [hi|]]; try easy. destruct (auth hi); [|easy].
    intros [= <-]. unfold pending_ok. rewrite He. split; [exact Hlo|]. exact (Hhi hi eq_refl).
Qed.

(** What the second check leaves, whether the number is accepted or not. *)
Definition rx_step_ok (bmi2 : bool) (sa : ipsec_sa_replay_t) (a : rwindow) (st : ipsec_sa_replay_t * list (Z * Z)) (s : Z) : Prop :=
  exists a', rx_inv bmi2 (fst st) a' (snd st) /\ sa_flags (fst st) = sa_flags sa /\
    window_size (fst st) (is_HUGE (fst st)) = window_size sa (is_HUGE sa) /\
    rw_top a <= rw_top a' <= rw_top a + 2 ^ 32 /\ (rw_top a' = rw_top a \/ rw_top a' = s).

Lemma ar_post_ok bmi2 sa a acc p :
  rx_inv bmi2 sa a acc -> pending_ok sa a p -> (is_ESN sa = true -> rw_top a + 2 ^ 32 <= 2 ^ 64) ->
  rx_step_ok bmi2 sa a (ar_post_crypto bmi2 (sa, acc) p) (number p).
Proof.
  intros Hinv Hp Hroom. destruct (number_split p (proj1 Hp)) as [E1 E2]. destruct p as [hi lo]. cbn [fst snd] in *.
  pose proof (rx_refines _ _ _ _ Hinv) as Href. pose proof (rx_ar _ _ _ _ Hinv) as Har.
  pose proof (window_size_bounds _ _ (arr_ok _ _ _ Href)) as HW. pose proof (proj1 (rx_grounded _ _ _ _ Hinv)) as Hg.
  set (s := number (hi, lo)) in *. unfold ar_post_crypto.
  assert (rx_step_ok bmi2 sa a (sa, acc) s) as Hstay by (exists a; cbn; split; [assumption|]; repeat split; try lia; now left).
  assert (fst (ipsec_sa_anti_replay_and_sn_advance sa lo hi true false (is_HUGE sa)) = 0 ->
    rw_replay (window_size sa (is_HUGE sa)) a s = false /\ num_ok sa s /\ s < rw_top a + 2 ^ 32) as Hpass.
  { destruct Hp as [Hlo Hp]. unfold num_ok. cbn [fst snd] in *. unfold is_u in Hlo. destruct (is_ESN sa) eqn:He.
    - destruct Hp as [Hhi Hs]. unfold is_u in Hhi. specialize (Hroom eq_refl). fold s in Hs.
      pose proof (sn_advance_esn sa (is_HUGE sa) a s hi true Href He Har Hs ltac:(intros _; rewrite E1; now rewrite u32_small)) as Epost.
      cbn [negb] in Epost. rewrite E2 in Epost. rewrite Epost. cbn [fst]. intros Hz. split; [now destruct (rw_replay _ a s)|].
      unfold s, number in *. cbn [fst snd] in *. lia.
    - subst hi. intros Hz. assert (s = lo) as -> by (unfold s, number; cbn; lia).
      split; [|unfold is_u in *; lia]. apply (sn_advance_no_esn_sound sa (is_HUGE sa) a lo 0 true false Href He Har); [exact Hlo|exact Hz]. }
  destruct (Z.eqb_spec (fst (ipsec_sa_anti_replay_and_sn_advance sa lo hi true false (is_HUGE sa))) 0) as [Ez|]; [|exact Hstay].
  destruct (Hpass Ez) as (Hr & Hnum & Hlt). pose proof (rx_inv_accept bmi2 sa a acc s Hinv Hnum Hlt Hr) as (Hi & Hf & Hsz). rewrite E1, E2 in Hi, Hf, Hsz.
  exists (rw_accept a s). cbn [fst snd]. split; [exact Hi|]. split; [exact Hf|]. split; [rewrite (is_set_flags _ _ _ Hf); exact Hsz|].
  unfold rw_accept. destruct (Z.ltb_spec (rw_top a) s); cbn [rw_top]; split; lia || auto.
Qed.

(** The numbers of a frame are less than a window apart. *)
Definition close_together (W : Z) (l : list (Z * Z)) : Prop := forall p q, p ∈ l -> q ∈ l -> number p - number q < W.

Lemma close_together_forallb W l :
  forallb (fun p => forallb (fun q => number p - number q <? W) l) l = true -> close_together W l.
Proof.
  rewrite forallb_forall. intros H p q Hp Hq. apply list_elem_of_In in Hp, Hq.
  specialize (H p Hp). rewrite forallb_forall in H. now apply Z.ltb_lt, H.
Qed.

(** With extended numbers, the packets of each frame that decrypt are less than a window
    apart. *)
Fixpoint frames_close (bmi2 : bool) (st : ipsec_sa_replay_t * list (Z * Z)) (frames : list (list (Z * (Z -> bool)))) : Prop :=
  match frames with
  | [] => True
  | pkts :: frames =>
      (is_ESN (fst st) = true -> close_together (window_size (fst st) (is_HUGE (fst st))) (omap (ar_check (fst st)) pkts)) /\
      frames_close bmi2 (ar_receive_frame bmi2 st pkts) frames
  end.

(** The second pass over the numbers of a frame. *)
Lemma ar_posts_ok bmi2 l : forall sa a acc,
  rx_inv bmi2 sa a acc -> Forall (pending_ok sa a) l ->
  (is_ESN sa = true -> close_together (window_size sa (is_HUGE sa)) l) ->
  (is_ESN sa = true -> rw_top a + 2 ^ 32 * Z.of_nat (length l) <= 2 ^ 64) ->
  exists a', let st := fold_left (ar_post_crypto bmi2) l (sa, acc) in
    rx_inv bmi2 (fst st) a' (snd st) /\ sa_flags (fst st) = sa_flags sa /\ rw_top a' <= rw_top a + 2 ^ 32 * Z.of_nat (length l).
Proof.
  induction l as [|p l IH]; intros sa a acc Hinv Hl Hc Hroom; cbn [fold_left].
  - exists a. cbn. split; [assumption|]. split; [reflexivity|lia].
  - apply Forall_cons in Hl as [Hp Hl]. cbn [length] in *.
    destruct (ar_post_ok bmi2 sa a acc p Hinv Hp ltac:(intros H; specialize (Hroom H); lia)) as (a1 & Hinv1 & Hf1 & Hw1 & Ht1 & Hs1).
    destruct (ar_post_crypto bmi2 (sa, acc) p) as [sa1 acc1]. cbn [fst snd] in *.
    assert (is_ESN sa1 = is_ESN sa) as He by now apply is_set_flags.
    destruct (IH sa1 a1 acc1 Hinv1) as (a2 & Hinv2 & Hf2 & Ht2).
    + rewrite Forall_forall in Hl |- *. intros q Hq. specialize (Hl q Hq) as [Q1 Q2]. split; [exact Q1|]. rewrite He, Hw1.
      destruct (is_ESN sa) eqn:Ee; [|exact Q2]. destruct Q2 as [Q2 Q3]. split; [exact Q2|].
      specialize (Hc eq_refl p q ltac:(left) ltac:(now right)). lia.
    + rewrite He, Hw1. intros H x y Hx Hy. apply (Hc H); now right.
    + rewrite He. intros H. specialize (Hroom H). lia.
    + exists a2. split; [exact Hinv2|]. split; [congruence|lia].
Qed.

Lemma ar_frame_ok bmi2 pkts sa a acc :
  rx_inv bmi2 sa a acc -> Forall (fun p => is_u 32 (fst p)) pkts ->
  (is_ESN sa = true -> close_together (window_size sa (is_HUGE sa)) (omap (ar_check sa) pkts)) ->
  (is_ESN sa = true -> rw_top a + 2 ^ 32 * Z.of_nat (length pkts) <= 2 ^ 64) ->
  exists a', let st := ar_receive_frame bmi2 (sa, acc) pkts in
    rx_inv bmi2 (fst st) a' (snd st) /\ sa_flags (fst st) = sa_flags sa /\ rw_top a' <= rw_top a + 2 ^ 32 * Z.of_nat (length pkts).
Proof.
  intros Hinv Hp Hc Hroom. assert (length (omap (ar_check sa) pkts) <= length pkts)%nat as Hlen by
    (clear; induction pkts as [|x l IH]; cbn; [lia|]; destruct (ar_check sa x); cbn; lia).
  destruct (ar_posts_ok bmi2 (omap (ar_check sa) pkts) sa a acc Hinv) as (a' & H1 & H2 & H3).
  - apply Forall_forall. intros q (x & Hx & Ex)%list_elem_of_omap.
    apply (ar_check_ok bmi2 sa a acc x q Hinv (proj1 (Forall_forall _ _) Hp x Hx)); [|exact Ex]. intros H. specialize (Hroom H).
    destruct pkts; [now apply elem_of_nil in Hx|]. cbn [length] in Hroom. lia.
  - exact Hc.
  - intros H. specialize (Hroom H). lia.
  - exists a'. split; [exact H1|]. split; [exact H2|]. lia.
Qed.

Lemma ar_receive_all_ok bmi2 frames : forall sa a acc,
  rx_inv bmi2 sa a acc -> Forall (Forall (fun p => is_u 32 (fst p))) frames -> frames_close bmi2 (sa, acc) frames ->
  (is_ESN sa = true -> rw_top a + 2 ^ 32 * Z.of_nat (length (concat frames)) <= 2 ^ 64) ->
  exists a', rx_inv bmi2 (fst (ar_receive_all bmi2 sa frames acc)) a' (snd (ar_receive_all bmi2 sa frames acc)).
Proof.
  induction frames as [|pkts frames IH]; intros sa a acc Hinv Hall Hc Hroom.
  - exists a. assumption.
  - apply Forall_cons in Hall as [Hp Hall]. destruct Hc as [Hc1 Hc]. cbn [concat] in Hroom. rewrite length_app in Hroom.
    destruct (ar_frame_ok bmi2 pkts sa a acc Hinv Hp Hc1 ltac:(intros H; specialize (Hroom H); lia)) as (a1 & H1 & H2 & H3).
    change (ar_receive_all bmi2 sa (pkts :: frames) acc) with (fold_left (ar_receive_frame bmi2) frames (ar_receive_frame bmi2 (sa, acc) pkts)).
    destruct (ar_receive_frame bmi2 (sa, acc) pkts) as [sa1 acc1]. cbn [fst snd] in *.
    apply (IH sa1 a1 acc1 H1 Hall Hc). rewrite (is_set_flags _ sa) by assumption. intros H. specialize (Hroom H). lia.
Qed.

(** Frames of one packet. *)
Lemma singletons_close bmi2 pkts : forall sa a acc,
  rx_inv bmi2 sa a acc -> Forall (fun p => is_u 32 (fst p)) pkts ->
  (is_ESN sa = true -> rw_top a + 2 ^ 32 * Z.of_nat (length pkts) <= 2 ^ 64) ->
  frames_close bmi2 (sa, acc) (map (fun p => [p]) pkts).
Proof.
  induction pkts as [|x pkts IH]; intros sa a acc Hinv Hp Hroom; [exact I|]. apply Forall_cons in Hp as [Hx Hp]. cbn [length] in Hroom.
  assert (close_together (window_size sa (is_HUGE sa)) (omap (ar_check sa) [x])) as Hc.
  { pose proof (window_size_bounds _ _ (arr_ok _ _ _ (rx_refines _ _ _ _ Hinv))) as HW. intros p q. cbn. destruct (ar_check sa x); [|now intros H%elem_of_nil].
    intros ->%list_elem_of_singleton ->%list_elem_of_singleton. lia. }
  split; [now intros _|].
  destruct (ar_frame_ok bmi2 [x] sa a acc Hinv ltac:(now constructor) ltac:(now intros _) ltac:(intros H; specialize (Hroom H); cbn; lia)) as (a1 & H1 & H2 & H3).
  destruct (ar_receive_frame bmi2 (sa, acc) [x]) as [sa1 acc1]. cbn [fst snd length] in *. apply (IH sa1 a1 acc1 H1 Hp).
  rewrite (is_set_flags _ sa) by assumption. intros H. specialize (Hroom H). lia.
Qed.

(** ** Reception in any interleaving, without extended numbers *)

(** The invariant of a batch: packets in flight carry a zero high half. *)
Record batch_inv (bmi2 : bool) (st : ar_batch) (a : rwindow) : Prop := {
  bi_rx : rx_inv bmi2 (ab_sa st) a (ab_accepted st);
  bi_esn : is_ESN (ab_sa st) = false;
  bi_infl : Forall (fun p => fst p = 0 /\ is_u 32 (snd p)) (ab_inflight st)
}.

Lemma batch_inv_step bmi2 st st' a :
  batch_inv bmi2 st a -> ar_batch_step bmi2 st st' -> exists a', batch_inv bmi2 st' a'.
Proof.
  intros [Hrx He Hin] Hstep.
  destruct Hstep as [sa infl acc seq hi Hseq Epre|sa infl1 infl2 acc seq hi Epost|sa infl1 infl2 acc p];
    cbn [ab_sa ab_inflight ab_accepted] in *.
  - exists a. split; cbn; try assumption. apply Forall_cons. split; [|assumption]. cbn. split; [|assumption].
    apply (no_esn_hi_0 sa seq (2 ^ 32 - 1) false true (is_HUGE sa) hi He). now rewrite Epre.
  - apply Forall_app in Hin as [Hin1 Hin2]. apply Forall_cons in Hin2 as [[Hhi Hseq] Hin2]. cbn [fst snd] in *. subst hi.
    pose proof (sn_advance_no_esn_sound sa (is_HUGE sa) a seq 0 true false (rx_refines _ _ _ _ Hrx) He
                  (rx_ar _ _ _ _ Hrx) Hseq Epost) as Hr.
    unfold is_u in Hseq. pose proof (proj1 (rx_grounded _ _ _ _ Hrx)).
    pose proof (rx_inv_accept bmi2 sa a acc seq Hrx) as H'.
    rewrite (Z.mod_small seq), (Z.div_small seq) in H' by lia.
    destruct H' as (Hinv' & Hf & _); [unfold num_ok; rewrite He; lia|lia|assumption|].
    exists (rw_accept a seq). split; cbn [ab_sa ab_inflight ab_accepted]; try assumption.
    + now rewrite (is_set_flags _ sa).
    + now apply Forall_app.
  - exists a. split; cbn; try assumption.
    apply Forall_app in Hin as [Hin1 Hin2]. apply Forall_cons in Hin2 as [_ Hin2]. now apply Forall_app.
Qed.

Lemma batch_inv_steps bmi2 st st' :
  rtc (ar_batch_step bmi2) st st' -> forall a, batch_inv bmi2 st a -> exists a', batch_inv bmi2 st' a'.
Proof.
  induction 1 as [|x y z Hxy _ IH]; intros a Ha; [now exists a|].
  destruct (batch_inv_step _ _ _ _ Ha Hxy) as [a' Ha']. eauto.
Qed.

(** The state of an association just created. *)
Definition new_sa (bmi2 : bool) (spi flags sz : Z) : ipsec_sa_replay_t :=
  ipsec_sa_init_replay bmi2 (ipsec_sa_init_replay_flag (mk_ipsec_sa_replay 0 [] spi 0 0 flags) sz) sz.

(** Flags a caller may give to a new association: the huge-window flag is the
    association's own. *)
Definition caller_flags (flags : Z) : Prop := Z.land flags IPSEC_SA_FLAG_ANTI_REPLAY_HUGE = 0.

Lemma new_sa_flags_eq bmi2 spi flags sz :
  sa_flags (new_sa bmi2 spi flags sz) =
  if negb (Z.land flags IPSEC_SA_FLAG_USE_ANTI_REPLAY =? 0) && (64 <? sz)
  then Z.lor flags IPSEC_SA_FLAG_ANTI_REPLAY_HUGE else flags.
Proof.
  unfold new_sa, ipsec_sa_init_replay.
  set (sa0 := ipsec_sa_init_replay_flag _ sz).
  assert (sa_flags sa0 = if negb (Z.land flags IPSEC_SA_FLAG_USE_ANTI_REPLAY =? 0) && (64 <? sz)
    then Z.lor flags IPSEC_SA_FLAG_ANTI_REPLAY_HUGE else flags) as <-
    by (unfold sa0, ipsec_sa_init_replay_flag, ipsec_sa_is_set; cbn [sa_flags]; now destruct (_ && _)).
  now destruct (is_HUGE sa0).
Qed.

Lemma new_sa_flags bmi2 spi flags sz f :
  Z.land IPSEC_SA_FLAG_ANTI_REPLAY_HUGE f = 0 ->
  ipsec_sa_is_set f (new_sa bmi2 spi flags sz) = negb (Z.land flags f =? 0).
Proof.
  intros Hf. unfold ipsec_sa_is_set. rewrite new_sa_flags_eq.
  destruct (_ && _); [|reflexivity]. now rewrite Z.land_lor_distr_l, Hf, Z.lor_0_r.
Qed.

Lemma new_sa_huge bmi2 spi flags sz :
  caller_flags flags ->
  is_HUGE (new_sa bmi2 spi flags sz) =
  negb (Z.land flags IPSEC_SA_FLAG_USE_ANTI_REPLAY =? 0) && (64 <? sz).
Proof.
  unfold caller_flags. intros Hf. unfold ipsec_sa_is_set at 1. rewrite new_sa_flags_eq.
  destruct (_ && _); [rewrite Z.land_lor_distr_l|]; now rewrite Hf.
Qed.

Lemma new_sa_inv bmi2 spi flags sz :
  caller_flags flags -> Z.land flags IPSEC_SA_FLAG_USE_ANTI_REPLAY <> 0 -> sz <= 2 ^ 31 ->
  (bmi2 = true \/ sz <= 64) ->
  rx_inv bmi2 (new_sa bmi2 spi flags sz) rw_init [].
Proof.
  intros Hf Har Hsz Hb. pose proof (new_sa_huge bmi2 spi flags sz Hf) as Hh.
  rewrite (proj2 (Z.eqb_neq _ 0) Har) in Hh. cbn [negb andb] in Hh.
  set (sa0 := ipsec_sa_init_replay_flag (mk_ipsec_sa_replay 0 [] spi 0 0 flags) sz).
  assert (is_HUGE sa0 = is_HUGE (new_sa bmi2 spi flags sz)) as E0.
  { unfold new_sa, ipsec_sa_init_replay. fold sa0.
    destruct (is_HUGE sa0) eqn:E; symmetry; rewrite (is_set_flags _ sa0) by reflexivity; exact E. }
  assert (sa_seq sa0 = 0 /\ sa_seq_hi sa0 = 0) as [E1 E2] by (unfold sa0, ipsec_sa_init_replay_flag; now destruct (_ && _)).
  split.
  - rewrite <- E0. apply init_replay_refines; try assumption. rewrite E0, Hh. intros H. apply Z.ltb_lt in H. lia.
  - split; [cbn; lia|]. intros s Hs. cbn. apply Z.leb_le. lia.
  - rewrite new_sa_flags by reflexivity. now rewrite (proj2 (Z.eqb_neq _ 0)).
  - destruct Hb as [|Hle]; [now left|right]. rewrite Hh. apply Z.ltb_ge. lia.
  - constructor.
  - constructor.
Qed.

Lemma new_sa_no_replay bmi2 spi flags sz frames :
  caller_flags flags -> Z.land flags IPSEC_SA_FLAG_USE_ANTI_REPLAY <> 0 -> sz <= 2 ^ 31 ->
  (bmi2 = true \/ sz <= 64) -> Forall (Forall (fun p => is_u 32 (fst p))) frames ->
  frames_close bmi2 (new_sa bmi2 spi flags sz, []) frames ->
  (Z.land flags IPSEC_SA_FLAG_USE_ESN <> 0 -> 2 ^ 32 * Z.of_nat (length (concat frames)) <= 2 ^ 64) ->
  NoDup (snd (ar_receive_all bmi2 (new_sa bmi2 spi flags sz) frames [])).
Proof.
  intros Hf Har Hsz Hb Hp Hc Hlen.
  destruct (ar_receive_all_ok bmi2 frames _ _ _ (new_sa_inv bmi2 spi flags sz Hf Har Hsz Hb) Hp Hc) as [a' Hinv].
  { rewrite new_sa_flags by reflexivity. intros H%negb_true_iff%Z.eqb_neq. specialize (Hlen H). cbn. lia. }
  eapply NoDup_fmap_1, (rx_nodup _ _ _ _ Hinv).
Qed.

(** * Properties *)

(** C1: The replay check refines the RFC 4303 window, for extended sequence
    numbers.  For every low half of a number [s] in the 2^32 numbers that start
    with the window, the check run before decryption stores the high half of [s]
    and returns "replay" exactly when [s] lies in the window and was already
    received; run again after decryption with that high half, it decides the
    same. *)
Theorem replay_check_refines_esn sa huge a s :
  ar_refines sa huge a -> is_ESN sa = true -> is_ANTI_REPLAY sa = true ->
  rw_top a - window_size sa huge < s <= rw_top a - window_size sa huge + 2 ^ 32 ->
  ipsec_sa_anti_replay_and_sn_advance sa (s mod 2 ^ 32) (2 ^ 32 - 1) false true huge =
    (Z.b2z (rw_replay (window_size sa huge) a s), Some (u32 (s / 2 ^ 32))) /\
  ipsec_sa_anti_replay_and_sn_advance sa (s mod 2 ^ 32) (u32 (s / 2 ^ 32)) true false huge =
    (Z.b2z (rw_replay (window_size sa huge) a s), None).
Proof.
  intros Href He Har Hs. split.
  - now apply (sn_advance_esn sa huge a s (2 ^ 32 - 1) false).
  - now apply (sn_advance_esn sa huge a s _ true).
Qed.

(** An association in its second cycle of low halves, just after the wrap, with
    only the top received. *)
Definition ar_example : ipsec_sa_replay_t := mk_ipsec_sa_replay (2 ^ 63) [] 1000 5 1 3.
Definition rw_example : rwindow := mk_rwindow (2 ^ 32 + 5) (fun s => s =? 2 ^ 32 + 5).

Lemma ar_example_refines : ar_refines ar_example false rw_example.
Proof.
  split; [split; vm_compute; split; congruence|reflexivity|].
  intros s Hs. change (window_size ar_example false) with 64 in Hs.
  change (rw_top rw_example) with (2 ^ 32 + 5) in Hs.
  unfold win_bit, win_bit_at. change (esn_of ar_example) with (2 ^ 32 + 5).
  cbn [ar_example sa_replay_window]. rewrite Z.pow2_bits_eqb by lia. cbn [rw_example rw_seen].
  destruct (Z.eqb_spec 63 (63 - (2 ^ 32 + 5 - s))), (Z.eqb_spec s (2 ^ 32 + 5)); reflexivity || lia.
Qed.

Lemma replay_check_refines_esn_witness :
  ipsec_sa_anti_replay_and_sn_advance ar_example ((2 ^ 32 - 7) mod 2 ^ 32) (2 ^ 32 - 1) false true false =
    (0, Some 0) /\
  ipsec_sa_anti_replay_and_sn_advance ar_example ((2 ^ 32 - 7) mod 2 ^ 32) (u32 ((2 ^ 32 - 7) / 2 ^ 32)) true false false =
    (0, None).
Proof.
  apply (replay_check_refines_esn ar_example false rw_example (2 ^ 32 - 7));
    [exact ar_example_refines|reflexivity|reflexivity|vm_compute; split; congruence].
Defined.

(** C2: Without extended numbers the check, before or after decryption, returns
    "replay" exactly when the number is left of the window or already received,
    for every number below the last window of the 32-bit space. *)
Theorem replay_check_refines_32 sa huge a s hi_used post :
  ar_refines sa huge a -> is_ESN sa = false -> is_ANTI_REPLAY sa = true ->
  0 <= s < 2 ^ 32 - window_size sa huge ->
  ipsec_sa_anti_replay_and_sn_advance sa s hi_used post (negb post) huge =
    (Z.b2z (rw_replay (window_size sa huge) a s), if post then None else Some 0).
Proof. apply sn_advance_no_esn. Qed.

Lemma new_sa_refines_example : ar_refines (new_sa true 1000 2 128) true rw_init.
Proof.
  change true with (is_HUGE (new_sa true 1000 2 128)) at 2. apply (rx_refines true _ _ []).
  apply new_sa_inv; [reflexivity|discriminate|lia|now left].
Qed.

Lemma replay_check_refines_32_witness :
  ipsec_sa_anti_replay_and_sn_advance (new_sa true 1000 2 128) 77 0 false true true = (0, Some 0).
Proof.
  apply (replay_check_refines_32 (new_sa true 1000 2 128) true rw_init 77 0 false);
    [exact new_sa_refines_example|reflexivity|reflexivity|vm_compute; split; congruence].
Defined.

(** C3: The window update refines the specification, for the 64-bit and for the
    huge circular window and with or without extended numbers, except when a build
    without BMI2 shifts a huge window by exactly one aligned word ([shift_defined];
    [huge_shift_portable_drops_fresh] shows what happens then): accepting a number
    right of the window's lower edge yields an association that represents the
    abstract window after that number, and the returned count is the number of
    sequence numbers that left the window unseen. *)
Theorem replay_advance_refines bmi2 sa huge a s :
  ar_refines sa huge a -> num_ok sa s ->
  rw_top a - window_size sa huge < s < rw_top a + 2 ^ 32 ->
  shift_defined bmi2 (sa_seq sa) (s - rw_top a) huge = true ->
  let r := ipsec_sa_anti_replay_advance bmi2 sa (s mod 2 ^ 32) (s / 2 ^ 32) huge in
  ar_refines (fst r) huge (rw_accept a s) /\
  snd r = rw_lost (window_size sa huge) a s /\
  sa_flags (fst r) = sa_flags sa /\ window_size (fst r) huge = window_size sa huge.
Proof. intros H1 H2 H3 H4 r. now destruct (advance_advanced bmi2 sa huge a s H1 H2 H3 H4). Qed.

Lemma replay_advance_refines_witness :
  ar_refines (fst (ipsec_sa_anti_replay_advance true (new_sa true 1000 2 128) 300 0 true)) true
    (rw_accept rw_init 300) /\
  snd (ipsec_sa_anti_replay_advance true (new_sa true 1000 2 128) 300 0 true) = 172.
Proof.
  destruct (replay_advance_refines true (new_sa true 1000 2 128) true rw_init 300) as (H1 & H2 & _);
    [exact new_sa_refines_example|vm_compute; split; congruence|vm_compute; split; congruence|reflexivity|].
  split; [exact H1|exact H2].
Defined.

(** C4: No sequence number is accepted twice.  A new association with anti-replay
    (64-bit or huge window, 32-bit or extended numbers) receives any frames of packets,
    of which any authenticate; each frame is checked as a whole before it is decrypted, and
    checked again packet by packet.  The accepted (high, low) numbers are pairwise
    different, provided that: the window is huge only in a build with BMI2; and with
    extended numbers, those packets of a frame that decrypt are less than a window apart (as
    frames of one packet are) and the packets are at most 2^32.  The proviso on frames is
    needed ([esn_batch_accepts_replay]). *)
Theorem no_replay_accepted bmi2 spi flags sz frames :
  caller_flags flags -> Z.land flags IPSEC_SA_FLAG_USE_ANTI_REPLAY <> 0 -> sz <= 2 ^ 31 ->
  (bmi2 = true \/ sz <= 64) -> Forall (Forall (fun p => is_u 32 (fst p))) frames ->
  frames_close bmi2 (new_sa bmi2 spi flags sz, []) frames ->
  (Z.land flags IPSEC_SA_FLAG_USE_ESN <> 0 -> 2 ^ 32 * Z.of_nat (length (concat frames)) <= 2 ^ 64) ->
  NoDup (snd (ar_receive_all bmi2 (new_sa bmi2 spi flags sz) frames [])).
Proof. apply new_sa_no_replay. Qed.

Definition frames_ex : list (list (Z * (Z -> bool))) :=
  [[(5, fun _ => true)]; [(2000, fun _ => true); (1999, fun _ => true); (2000, fun _ => true)]; [(5, fun hi => hi =? 0)]; [(1999, fun _ => true)]].

Lemma no_replay_accepted_witness :
  NoDup (snd (ar_receive_all true (new_sa true 1000 3 1000) frames_ex [])) /\
  snd (ar_receive_all true (new_sa true 1000 3 1000) frames_ex []) = [(0, 1999); (0, 2000); (0, 5)].
Proof.
  split; [|vm_compute; reflexivity].
  apply no_replay_accepted; [reflexivity|discriminate|lia|now left| | |vm_compute; congruence].
  - repeat constructor; vm_compute; congruence.
  - repeat (split; [intros _; apply close_together_forallb; vm_compute; reflexivity|]). exact I.
Defined.

(** C5: Batching is safe without extended numbers: when the packets of a frame
    all pass the first check before any is decrypted, and are then checked again,
    accepted or dropped in any order and interleaving, no number is accepted
    twice. *)
Theorem no_replay_accepted_batched bmi2 spi flags sz st :
  caller_flags flags -> Z.land flags IPSEC_SA_FLAG_USE_ANTI_REPLAY <> 0 ->
  Z.land flags IPSEC_SA_FLAG_USE_ESN = 0 -> sz <= 2 ^ 31 -> (bmi2 = true \/ sz <= 64) ->
  rtc (ar_batch_step bmi2) (mk_ar_batch (new_sa bmi2 spi flags sz) [] []) st ->
  NoDup (ab_accepted st).
Proof.
  intros Hf Har He Hsz Hb Hsteps.
  destruct (batch_inv_steps bmi2 _ _ Hsteps rw_init) as [a' Ha'].
  - split; cbn; [now apply new_sa_inv| |constructor].
    rewrite new_sa_flags by reflexivity. now rewrite He.
  - eapply NoDup_fmap_1, (rx_nodup _ _ _ _ (bi_rx _ _ _ Ha')).
Qed.

Lemma no_replay_accepted_batched_witness :
  exists st, ab_accepted st = [(0, 9)] /\ NoDup (ab_accepted st).
Proof.
  eexists (mk_ar_batch _ [(0, 9)] [(0, 9)]). split; [reflexivity|].
  apply (no_replay_accepted_batched false 1000 2 0); [reflexivity|discriminate|reflexivity|lia|right; lia|].
  eapply rtc_l; [apply (ab_pre false _ [] [] 9 0); [split; lia|reflexivity]|].
  eapply rtc_l; [apply (ab_pre false _ [(0, 9)] [] 9 0); [split; lia|reflexivity]|].
  eapply rtc_l; [apply (ab_accept false _ [] [(0, 9)] [] 9 0); reflexivity|].
  apply rtc_refl.
Defined.

(** The 64-bit view of the window that the API reports: bit [k] is set exactly
    when the number [63 - k] behind the top was received, whichever window the
    association keeps. *)
Theorem replay_window_64b_view bmi2 sa a k :
  ar_refines sa (is_HUGE sa) a -> 0 <= k < 64 ->
  Z.testbit (ipsec_sa_anti_replay_get_64b_window bmi2 sa) k = rw_seen a (rw_top a - 63 + k).
Proof.
  intros Href Hk. unfold ipsec_sa_anti_replay_get_64b_window. destruct (is_HUGE sa) eqn:E; cbn [negb].
  - pose proof (arr_ok _ _ _ Href) as Hok. pose proof (window_size_bounds _ _ Hok) as HW.
    pose proof (proj1 (ar_win _ _ Hok)) as Hbm.
    assert (Z.land (sa_seq sa) (window_size sa true - 1) = rw_top a mod window_size sa true) as ->.
    { pose proof (huge_land sa a Href 0) as H. rewrite !Z.add_0_r in H.
      rewrite (u32_small (window_size sa true - 1)), (u32_small (sa_seq sa)) in H; [exact H| |unfold is_u; lia].
      apply (ar_seq _ _ Hok). }
    set (W := window_size sa true) in *. pose proof (Z.mod_pos_bound (rw_top a) W ltac:(lia)) as Ht.
    assert (forall j s, rw_top a - W < s <= rw_top a -> 0 <= j < W -> (exists q, s = j + q * W) ->
              bm_bit (sa_replay_window_huge sa) j = rw_seen a s) as Hj.
    { intros j s Hs Hjr (q & ->). rewrite <- (huge_bit sa a Href _ Hs). fold W.
      now rewrite Z.mod_add, Z.mod_small by lia. }
    pose proof (Z.div_mod (rw_top a) W ltac:(lia)) as Hd.
    destruct (window_size_pow2 _ _ Hok) as (n & Hn & HWn & Hl64). fold W in HWn.
    assert (W mod 64 = 0) as HW64.
    { rewrite HWn. change 64 with (2 ^ 6). apply Z.mod_divide; [lia|]. exists (2 ^ (n - 6)).
      rewrite <- Z.pow_add_r by lia. f_equal. lia. }
    set (t := rw_top a mod W) in *. set (qt := rw_top a / W) in *. clearbody t qt W.
    destruct (Z.leb_spec 63 t).
    + rewrite get_multiple_64_bits by (assumption || lia). apply Hj; [lia|lia|]. exists qt. lia.
    + rewrite u32_small by (unfold is_u; lia).
      assert ((W - 63 + t) mod 64 = t + 1) as Em.
      { replace (W - 63 + t) with (W + (t + 1) + (-1) * 64) by lia. rewrite Z.mod_add by lia.
        rewrite <- Z.add_mod_idemp_l, HW64, Z.mod_small by lia. lia. }
      rewrite Z.lor_spec, testbit_shl64 by lia. rewrite (proj2 (Z.ltb_lt k 64)) by lia. cbn [andb].
      rewrite (get_multiple_no_check_bits bmi2 _ (W - 63 + t)) by lia.
      destruct (Z.ltb_spec k (63 - t)).
      * rewrite (proj2 (Z.leb_gt (63 - t) k)) by lia. cbn [andb orb]. apply Hj; [lia|lia|]. exists (qt - 1). lia.
      * rewrite (proj2 (Z.leb_le (63 - t) k)), orb_false_r by lia. cbn [andb].
        rewrite get_multiple_no_check_bits by (rewrite ?Z.mod_0_l; lia).
        rewrite (proj2 (Z.ltb_lt _ (t + 1))) by lia. cbn [andb]. apply Hj; [lia|lia|]. exists qt. lia.
  - apply (win64_bit sa a Href k Hk).
Qed.

Lemma replay_window_64b_view_witness :
  Z.testbit (ipsec_sa_anti_replay_get_64b_window false (new_sa true 1000 2 128)) 20 = true.
Proof.
  apply (replay_window_64b_view false (new_sa true 1000 2 128) rw_init 20);
    [exact new_sa_refines_example|lia].
Defined.

(** Without extended numbers, a number in the last window of the 32-bit space
    is dropped whenever the association has reached it, received or not: the test
    for the left edge adds the window size in 32 bits and wraps. *)
Theorem last_window_always_dropped sa huge s hi_used post req :
  ar_ok sa huge -> is_ESN sa = false -> is_ANTI_REPLAY sa = true ->
  2 ^ 32 - window_size sa huge <= s <= sa_seq sa ->
  fst (ipsec_sa_anti_replay_and_sn_advance sa s hi_used post req huge) = 1.
Proof.
  intros Hok He Har Hs. pose proof (window_size_bounds _ _ Hok). pose proof (ar_seq _ _ Hok) as Hq. unfold is_u in Hq.
  unfold ipsec_sa_anti_replay_and_sn_advance. rewrite He, Har. cbn [negb].
  rewrite (proj2 (Z.ltb_ge _ s)) by lia.
  assert (u32 (s + window_size sa huge) = s + window_size sa huge - 2 ^ 32) as ->.
  { unfold u32. rewrite <- (Z.mod_add _ (-1)) by lia. apply Z.mod_small. lia. }
  now rewrite (proj2 (Z.leb_le _ (sa_seq sa))) by lia.
Qed.

(** Only the last number received: the one before it is fresh, and dropped. *)
Lemma last_window_always_dropped_witness :
  rw_replay 64 (mk_rwindow (2 ^ 32 - 1) (fun s => s =? 2 ^ 32 - 1)) (2 ^ 32 - 2) = false /\
  fst (ipsec_sa_anti_replay_and_sn_advance (mk_ipsec_sa_replay (2 ^ 63) [] 1000 (2 ^ 32 - 1) 0 2) (2 ^ 32 - 2)
         (2 ^ 32 - 1) false true false) = 1.
Proof.
  split; [reflexivity|]. apply last_window_always_dropped; [|reflexivity|reflexivity|vm_compute; split; congruence].
  split; vm_compute; split; congruence.
Defined.

(** The build matters for the huge window.  In a build without BMI2 a shift by
    exactly one aligned word computes [pow2_mask (64)] by a 64-bit shift by 64, so
    the word is not cleared: with the same packets and a 128-bit window the
    portable build drops number 100, which was never received, and the BMI2 build
    accepts it. *)
Theorem huge_shift_portable_drops_fresh :
  let pkts := map (fun s => [(s, fun _ : Z => true)]) [63; 127; 100] in
  snd (ar_receive_all false (new_sa false 1000 2 128) pkts []) = [(0, 127); (0, 63)] /\
  snd (ar_receive_all true (new_sa true 1000 2 128) pkts []) = [(0, 100); (0, 127); (0, 63)].
Proof. split; vm_compute; reflexivity. Qed.

(** Batching is not safe with extended numbers: there is a reachable batch,
    around the wrap of the low half, in which one (high, low) number is accepted
    twice.  The check after decryption ignores the high half used unless the low
    half is below the window. *)
Theorem esn_batch_accepts_replay :
  exists st,
    rtc (ar_batch_step true) (mk_ar_batch (new_sa true 1000 3 64) [] []) st /\
    ab_accepted st =
      [(0, 2 ^ 32 - 40); (1, 100); (0, 2 ^ 32 - 40); (0, 2 ^ 32 - 11); (0, 2 ^ 31)].
Proof.
  eexists. split.
  - eapply rtc_l; [apply (ab_pre true _ [] _ (2 ^ 31) 0); [split; lia|reflexivity]|].
    eapply rtc_l; [apply (ab_accept true _ [] []); vm_compute; reflexivity|]. cbn [app].
    eapply rtc_l; [apply (ab_pre true _ [] _ (2 ^ 32 - 11) 0); [split; lia|vm_compute; reflexivity]|].
    eapply rtc_l; [apply (ab_accept true _ [] []); vm_compute; reflexivity|]. cbn [app].
    eapply rtc_l; [apply (ab_pre true _ [] _ (2 ^ 32 - 40) 0); [split; lia|vm_compute; reflexivity]|].
    eapply rtc_l; [apply (ab_pre true _ _ _ 100 1); [split; lia|vm_compute; reflexivity]|].
    eapply rtc_l; [apply (ab_pre true _ _ _ (2 ^ 32 - 40) 0); [split; lia|vm_compute; reflexivity]|].
    eapply rtc_l; [apply (ab_accept true _ [] [(1, 100); (0, 2 ^ 32 - 40)]); vm_compute; reflexivity|]. cbn [app].
    eapply rtc_l; [apply (ab_accept true _ [] [(0, 2 ^ 32 - 40)]); vm_compute; reflexivity|]. cbn [app].
    eapply rtc_l; [apply (ab_accept true _ [] []); vm_compute; reflexivity|]. cbn [app].
    apply rtc_refl.
  - reflexivity.
Qed.
