(* ===== verification/Sad.v ===== *)
(** * The security association database

    Life cycle of security associations, from [vnet/ipsec/ipsec_sa.c], with the
    functions it calls in [vnet/ipsec/ipsec.c] (UDP port registrations, backend
    checks) and [vnet/tunnel/tunnel.c].  An association is reference counted: it is
    created with one lock and freed when the last lock goes. *)

From stdpp Require Import gmap.
From S2P Require Import Prelude Bitmap NetTypes Pool Crypto IpsecSa AntiReplay.

(** ** State *)

(** [pool_get_aligned_zero] of an association. *)
Definition addr_zero : ip_address_t := mk_ip_address (mk_ip46 0 0) AF_IP4.
Definition tunnel_zero : tunnel_t := mk_tunnel addr_zero addr_zero 0 0 0 0 0 0 0 0 0.
Definition ipsec_key_zero : ipsec_key_t := mk_ipsec_key 0 (replicate 128 0).
Definition sa_zero : ipsec_sa_t :=
  mk_ipsec_sa (mk_ipsec_sa_replay 0 [] 0 0 0 0) 0 0 (SYNC OP_NONE) (SYNC OP_NONE) (SYNC OP_NONE)
    0 0 0 0 0 0 0 IPSEC_PROTOCOL_AH 0 tunnel_zero None 0 0 0 ALG_NONE ALG_NONE 0 0 0
    OP_NONE OP_NONE OP_NONE ASYNC_OP_NONE ASYNC_OP_NONE CRYPTO_ALG_NONE INTEG_ALG_NONE
    ipsec_key_zero ipsec_key_zero.

(** The parts of [ipsec_main] and of the crypto layer that associations use.
    [udp_dst_ports] holds the ports registered with the UDP layer (with the family
    bit), [tun4_protect_by_key] and [tun6_protect_by_key] the tunnel-protect lookup
    tables. *)
Record sad_t := mk_sad {
  sa_pool : pool ipsec_sa_t;
  sa_index_by_sa_id : gmap Z Z;
  crypto_keys : pool vnet_crypto_key_t;
  udp_port_registrations : gmap Z Z;
  udp_dst_ports : gset (Z * bool);
  tun4_protect_by_key : gmap Z Z;
  tun6_protect_by_key : gmap (Z * Z * Z) Z;
  async_mode : bool
}.

#[export] Instance sad_eta : Eta sad_t := fun s =>
  mk_sad (sa_pool s) (sa_index_by_sa_id s) (crypto_keys s) (udp_port_registrations s)
    (udp_dst_ports s) (tun4_protect_by_key s) (tun6_protect_by_key s) (async_mode s).

(** What the operations ask of their surroundings: whether [getrandom] filled its
    buffer, the number of workers and their threads, the support check of each
    backend ([true] is an error), the session callback of each backend, the FIB. *)
Record sad_env := mk_sad_env {
  getrandom_ok : bool;
  vlib_num_workers : Z;
  vlib_get_worker_thread_index : Z -> Z;
  check_support_cb : ipsec_protocol_t -> ipsec_sa_t -> bool;
  add_del_sa_sess_cb : ipsec_protocol_t -> option (Z -> bool -> bool);
  fib_table_find : ip_address_family_t -> Z -> Z;
  fib_entry_track : Z -> ip_address_t -> Z -> Z * Z
}.

Definition IPSEC_UDP_PORT_NONE : Z := 65535.
Definition UDP_DST_PORT_ipsec : Z := 4500.
Definition IP_PROTOCOL_UDP : Z := 17.
Definition IP_PROTOCOL_IPSEC_ESP : Z := 50.

Section Ops.
Context (bmi2 : bool) (env : sad_env).

(** ** Keys and algorithms of an association *)

Definition ipsec_mk_key (data : list Z) (len : Z) : ipsec_key_t :=
  let len := if 128 <? len then 128 else len in
  mk_ipsec_key len (take (Z.to_nat len) data ++ replicate (128 - Z.to_nat len) 0).

Definition ipsec_sa_set_async_mode (sa : ipsec_sa_t) (is_enabled : bool) : ipsec_sa_t :=
  if is_enabled then
    sa <| sa_crypto_key_index := sa_crypto_async_key_index sa |>
       <| sa_crypto_enc_op_id := ASYNC (sa_crypto_async_enc_op_id sa) |>
       <| sa_crypto_dec_op_id := ASYNC (sa_crypto_async_dec_op_id sa) |>
       <| sa_integ_key_index := INDEX_INVALID |>
       <| sa_integ_op_id := NO_OP |>
  else
    sa <| sa_crypto_key_index := sa_crypto_sync_key_index sa |>
       <| sa_crypto_enc_op_id := SYNC (sa_crypto_sync_enc_op_id sa) |>
       <| sa_crypto_dec_op_id := SYNC (sa_crypto_sync_dec_op_id sa) |>
       <| sa_integ_key_index := sa_integ_sync_key_index sa |>
       <| sa_integ_op_id := SYNC (sa_integ_sync_op_id sa) |>.

Definition ipsec_sa_set_crypto_alg (sa : ipsec_sa_t) (crypto_alg : ipsec_crypto_alg_t) : ipsec_sa_t :=
  let a := crypto_algs crypto_alg in
  let sa := sa <| sa_crypto_alg := crypto_alg |>
               <| sa_crypto_iv_size := ca_iv_size a |>
               <| sa_esp_block_align := Z.max 4 (ca_block_align a) |>
               <| sa_crypto_sync_enc_op_id := ca_enc_op_id a |>
               <| sa_crypto_sync_dec_op_id := ca_dec_op_id a |>
               <| sa_crypto_calg := ca_alg a |> in
  if IPSEC_CRYPTO_ALG_IS_GCM crypto_alg || IPSEC_CRYPTO_ALG_CTR_AEAD_OTHERS crypto_alg then
    sa_set IPSEC_SA_FLAG_IS_AEAD (sa_set IPSEC_SA_FLAG_IS_CTR (sa <| sa_integ_icv_size := ca_icv_size a |>))
  else if IPSEC_CRYPTO_ALG_IS_CTR crypto_alg then sa_set IPSEC_SA_FLAG_IS_CTR sa
  else if IPSEC_CRYPTO_ALG_IS_NULL_GMAC crypto_alg then
    sa_set IPSEC_SA_FLAG_IS_NULL_GMAC (sa_set IPSEC_SA_FLAG_IS_AEAD
      (sa_set IPSEC_SA_FLAG_IS_CTR (sa <| sa_integ_icv_size := ca_icv_size a |>)))
  else sa.

Definition ipsec_sa_set_integ_alg (sa : ipsec_sa_t) (integ_alg : ipsec_integ_alg_t) : ipsec_sa_t :=
  let i := integ_algs integ_alg in
  sa <| sa_integ_alg := integ_alg |>
     <| sa_integ_icv_size := ia_icv_size i |>
     <| sa_integ_sync_op_id := ia_op_id i |>
     <| sa_integ_calg := ia_alg i |>.

Definition ipsec_sa_set_async_op_ids (sa : ipsec_sa_t) : ipsec_sa_t :=
  let aad := if sa_is_set IPSEC_SA_FLAG_USE_ESN sa then 12 else 8 in
  let sa :=
    match sa_crypto_sync_enc_op_id sa with
    | OP_AEAD_ENC n => sa <| sa_crypto_async_enc_op_id := ASYNC_OP_AEAD_ENC n 16 aad |>
    | _ => sa
    end in
  let sa :=
    match sa_crypto_sync_dec_op_id sa with
    | OP_AEAD_DEC n => sa <| sa_crypto_async_dec_op_id := ASYNC_OP_AEAD_DEC n 16 aad |>
    | _ => sa
    end in
  let sa :=
    match sa_crypto_sync_enc_op_id sa, sa_integ_sync_op_id sa with
    | OP_ENC c, OP_HMAC h =>
        match foreach_crypto_link_async_alg c h with
        | Some d => sa <| sa_crypto_async_enc_op_id := ASYNC_OP_LINK_ENC c h d |>
        | None => sa
        end
    | _, _ => sa
    end in
  match sa_crypto_sync_dec_op_id sa, sa_integ_sync_op_id sa with
  | OP_DEC c, OP_HMAC h =>
      match foreach_crypto_link_async_alg c h with
      | Some d => sa <| sa_crypto_async_dec_op_id := ASYNC_OP_LINK_DEC c h d |>
      | None => sa
      end
  | _, _ => sa
  end.

(** ** Backends *)

Definition ipsec_call_add_del_callbacks (sa : ipsec_sa_t) (sa_index : Z) (is_add : bool) : bool :=
  match add_del_sa_sess_cb env (sa_protocol sa) with
  | Some cb => cb sa_index is_add
  | None => false
  end.

Definition ipsec_check_support (sa : ipsec_sa_t) : bool := check_support_cb env (sa_protocol sa) sa.

(** ** Tunnels *)

Definition TUNNEL_FLAG_RESOLVED : Z := 1.

Definition tunnel_copy (src : tunnel_t) : tunnel_t :=
  src <| t_src := ip_address_copy (t_src src) |>
      <| t_dst := ip_address_copy (t_dst src) |>
      <| t_flags := Z.ldiff (t_flags src) TUNNEL_FLAG_RESOLVED |>
      <| t_fib_entry_index := INDEX_INVALID |>
      <| t_sibling := INDEX_INVALID |>.

Definition tunnel_resolve (t : tunnel_t) (child_index : Z) : tunnel_t * option vnet_api_error_t :=
  let t := t <| t_fib_index := fib_table_find env (ip_addr_version (t_dst t)) (t_table_id t) |> in
  if t_fib_index t =? INDEX_INVALID then (t, Some NO_SUCH_FIB)
  else
    let '(entry, sibling) := fib_entry_track env (t_fib_index t) (t_dst t) child_index in
    (t <| t_fib_entry_index := entry |> <| t_sibling := sibling |>
       <| t_flags := Z.lor (t_flags t) TUNNEL_FLAG_RESOLVED |>, None).

Definition tunnel_unresolve (t : tunnel_t) : tunnel_t :=
  t <| t_flags := Z.ldiff (t_flags t) TUNNEL_FLAG_RESOLVED |>.

Definition tunnel_build_v4_hdr (t : tunnel_t) (next_proto : Z) : tunnel_hdr_t :=
  mk_tunnel_hdr AF_IP4 (ip46_of_ip4 (ip46_ip4 (ip_addr_46 (t_src t))))
    (ip46_of_ip4 (ip46_ip4 (ip_addr_46 (t_dst t)))) next_proto
    (if t_hop_limit t =? 0 then 254 else t_hop_limit t) (t_dscp t).

Definition tunnel_build_v6_hdr (t : tunnel_t) (next_proto : Z) : tunnel_hdr_t :=
  mk_tunnel_hdr AF_IP6 (ip_addr_46 (t_src t)) (ip_addr_46 (t_dst t)) next_proto
    (if t_hop_limit t =? 0 then 254 else t_hop_limit t) (t_dscp t).

(** Resolution of the tunnel of an outbound association and its header template. *)
Definition sa_build_hdr (sa : ipsec_sa_t) : ipsec_sa_t :=
  let next_proto := if sa_is_set IPSEC_SA_FLAG_UDP_ENCAP sa then IP_PROTOCOL_UDP else IP_PROTOCOL_IPSEC_ESP in
  sa <| sa_hdr := Some (if sa_is_set IPSEC_SA_FLAG_IS_TUNNEL_V6 sa
                        then tunnel_build_v6_hdr (sa_tunnel sa) next_proto
                        else tunnel_build_v4_hdr (sa_tunnel sa) next_proto) |>.

(** ** UDP encapsulation *)

Definition ipsec_udp_registration_key (port : Z) (is_ip4 : bool) : Z :=
  Z.lor (if is_ip4 then 0 else 1) (Z.shiftl port 16).

Definition ipsec_register_udp_port (s : sad_t) (port : Z) (is_ip4 : bool) : sad_t :=
  let key := ipsec_udp_registration_key port is_ip4 in
  let n_regs := default 0 (udp_port_registrations s !! key) in
  let s := if n_regs =? 0 then s <| udp_dst_ports := {[ (port, is_ip4) ]} ∪ udp_dst_ports s |> else s in
  s <| udp_port_registrations := <[key := u32 (n_regs + 1)]> (udp_port_registrations s) |>.

(** The entry exists when the function is called ([ASSERT (p)]). *)
Definition ipsec_unregister_udp_port (s : sad_t) (port : Z) (is_ip4 : bool) : sad_t :=
  let key := ipsec_udp_registration_key port is_ip4 in
  match udp_port_registrations s !! key with
  | None => s
  | Some n_regs =>
      let n_regs := u32 (n_regs - 1) in
      if n_regs =? 0 then
        s <| udp_dst_ports := udp_dst_ports s ∖ {[ (port, is_ip4) ]} |>
          <| udp_port_registrations := delete key (udp_port_registrations s) |>
      else s <| udp_port_registrations := <[key := n_regs]> (udp_port_registrations s) |>
  end.

(** ** Creation *)

(** The fields set from the arguments, up to the anti-replay flag. *)
Definition sa_add_fields (sa_index id spi : Z) (proto : ipsec_protocol_t) (crypto_alg : ipsec_crypto_alg_t)
    (integ_alg : ipsec_integ_alg_t) (ik : ipsec_key_t) (flags salt anti_replay_window_size : Z)
    (tun : tunnel_t) : ipsec_sa_t :=
  let sa := sa_zero <| sa_locks := 1 |>
              <| sa_tunnel := tunnel_copy tun |>
              <| sa_id := id |>
              <| sa_replay := mk_ipsec_sa_replay 0 [] spi 0 0 flags |>
              <| sa_stat_index := sa_index |>
              <| sa_protocol := proto |>
              <| sa_salt := salt |>
              <| sa_thread_index := if vlib_num_workers env =? 0 then 0 else 65535 |> in
  let sa :=
    match integ_alg with
    | INTEG_ALG_NONE => sa
    | _ => (ipsec_sa_set_integ_alg sa integ_alg) <| sa_integ_key := ik |>
    end in
  let sa := ipsec_sa_set_async_op_ids (ipsec_sa_set_crypto_alg sa crypto_alg) in
  sa <| sa_replay := ipsec_sa_init_replay_flag (sa_replay sa) anti_replay_window_size |>.

(** The keys; on failure the association as it is given back to the pool. *)
Definition sa_add_keys (keys : pool vnet_crypto_key_t) (sa : ipsec_sa_t) (crypto_alg : ipsec_crypto_alg_t)
    (ck : ipsec_key_t) (integ_alg : ipsec_integ_alg_t) (ik : ipsec_key_t)
  : pool vnet_crypto_key_t * ipsec_sa_t * bool :=
  let sa := sa <| sa_crypto_key := ck |> in
  let '(keys, kc) := vnet_crypto_key_add keys (ca_alg (crypto_algs crypto_alg)) (ik_data ck) (ik_len ck) in
  let sa := sa <| sa_crypto_sync_key_index := kc |> in
  if kc =? INDEX_INVALID then (keys, sa, false)
  else
    let '(keys, sa, ok) :=
      match integ_alg with
      | INTEG_ALG_NONE => (keys, sa, true)
      | _ =>
          let '(keys, ki) :=
            vnet_crypto_key_add keys (ia_alg (integ_algs integ_alg)) (ik_data ik) (ik_len ik) in
          (keys, sa <| sa_integ_sync_key_index := ki |>, negb (ki =? INDEX_INVALID))
      end in
    if negb ok then (keys, sa, false)
    else if negb (bool_decide (sa_crypto_async_enc_op_id sa = ASYNC_OP_NONE)) &&
            negb (sa_is_set IPSEC_SA_FLAG_IS_AEAD sa) then
      let '(keys, kl) :=
        vnet_crypto_key_add_linked keys (sa_crypto_sync_key_index sa) (sa_integ_sync_key_index sa) in
      (keys, sa <| sa_crypto_async_key_index := kl |>, true)
    else (keys, sa <| sa_crypto_async_key_index := sa_crypto_sync_key_index sa |>, true).

(** Tunnel resolution of an outbound tunnel association. *)
Definition sa_add_tunnel (sa : ipsec_sa_t) (sa_index : Z) (tun : tunnel_t)
  : ipsec_sa_t * option vnet_api_error_t :=
  let sa :=
    if sa_is_set IPSEC_SA_FLAG_IS_TUNNEL sa && bool_decide (ip_addr_version (t_src tun) = AF_IP6)
    then sa_set IPSEC_SA_FLAG_IS_TUNNEL_V6 sa else sa in
  if sa_is_set IPSEC_SA_FLAG_IS_TUNNEL sa && negb (sa_is_set IPSEC_SA_FLAG_IS_INBOUND sa) then
    let sa := sa <| sa_tunnel_flags := t_encap_decap_flags (sa_tunnel sa) |> in
    let '(t, rv) := tunnel_resolve (sa_tunnel sa) sa_index in
    let sa := sa <| sa_tunnel := t |> in
    match rv with
    | Some e => (sa, Some e)
    | None => (sa_build_hdr sa, None)
    end
  else (sa, None).

(** The UDP header and, for an inbound association, the port registration. *)
Definition sa_add_udp (s : sad_t) (sa : ipsec_sa_t) (src_port dst_port : Z) : sad_t * ipsec_sa_t :=
  if sa_is_set IPSEC_SA_FLAG_UDP_ENCAP sa then
    let sa := sa <| sa_udp_dst_port := host_to_net_u16
                      (if dst_port =? IPSEC_UDP_PORT_NONE then UDP_DST_PORT_ipsec else dst_port) |>
                 <| sa_udp_src_port := host_to_net_u16
                      (if src_port =? IPSEC_UDP_PORT_NONE then UDP_DST_PORT_ipsec else src_port) |> in
    if sa_is_set IPSEC_SA_FLAG_IS_INBOUND sa then
      (ipsec_register_udp_port s (host_to_net_u16 (sa_udp_dst_port sa))
         (negb (sa_is_set IPSEC_SA_FLAG_IS_TUNNEL_V6 sa)), sa)
    else (s, sa)
  else (s, sa).

(** [pool_put] of the association under construction, on an error. *)
Definition sa_add_fail (s : sad_t) (p : pool ipsec_sa_t) (sa_index : Z) (sa : ipsec_sa_t) (e : vnet_api_error_t)
  : sad_t * (vnet_api_error_t + Z) :=
  (s <| sa_pool := pool_put_index (pool_write p sa_index sa) sa_index |>, inl e).

Definition ipsec_sa_add_and_lock (s : sad_t) (id spi : Z) (proto : ipsec_protocol_t)
    (crypto_alg : ipsec_crypto_alg_t) (ck : ipsec_key_t) (integ_alg : ipsec_integ_alg_t) (ik : ipsec_key_t)
    (flags salt src_port dst_port anti_replay_window_size : Z) (tun : tunnel_t)
  : sad_t * (vnet_api_error_t + Z) :=
  match sa_index_by_sa_id s !! id with
  | Some _ => (s, inl ENTRY_ALREADY_EXISTS)
  | None =>
      if negb (getrandom_ok env) then (s, inl INIT_FAILED)
      else
        let '(p, sa_index) := pool_get_zero sa_zero (sa_pool s) in
        let sa := sa_add_fields sa_index id spi proto crypto_alg integ_alg ik flags salt
                    anti_replay_window_size tun in
        let '(keys, sa, keys_ok) := sa_add_keys (crypto_keys s) sa crypto_alg ck integ_alg ik in
        let s := s <| crypto_keys := keys |> in
        if negb keys_ok then sa_add_fail s p sa_index sa KEY_LENGTH
        else
          let sa := ipsec_sa_set_async_mode sa (async_mode s || sa_is_set IPSEC_SA_FLAG_IS_ASYNC sa) in
          if ipsec_check_support sa then sa_add_fail s p sa_index sa UNIMPLEMENTED
          else if ipsec_call_add_del_callbacks sa sa_index true then
            sa_add_fail s p sa_index sa SYSCALL_ERROR_1
          else
            let '(sa, rv) := sa_add_tunnel sa sa_index tun in
            match rv with
            | Some e => sa_add_fail s p sa_index sa e
            | None =>
                let '(s, sa) := sa_add_udp s sa src_port dst_port in
                let sa := sa <| sa_replay := ipsec_sa_init_replay bmi2 (sa_replay sa) anti_replay_window_size |> in
                (s <| sa_pool := pool_write p sa_index sa |>
                   <| sa_index_by_sa_id := <[sa_id sa := sa_index]> (sa_index_by_sa_id s) |>,
                 inr sa_index)
            end
  end.

(** ** Deletion, locks *)

(** The registration of an inbound association is released. *)
Definition sa_del_udp (s : sad_t) (sa : ipsec_sa_t) : sad_t :=
  if sa_is_set IPSEC_SA_FLAG_UDP_ENCAP sa && sa_is_set IPSEC_SA_FLAG_IS_INBOUND sa
  then ipsec_unregister_udp_port s (net_to_host_u16 (sa_udp_dst_port sa))
         (negb (sa_is_set IPSEC_SA_FLAG_IS_TUNNEL_V6 sa))
  else s.

Definition ipsec_sa_del (s : sad_t) (sa_index : Z) (sa : ipsec_sa_t) : sad_t :=
  let s := s <| sa_index_by_sa_id := delete (sa_id sa) (sa_index_by_sa_id s) |> in
  let sa := sa <| sa_tunnel := tunnel_unresolve (sa_tunnel sa) |> in
  let keys := crypto_keys s in
  let keys :=
    if sa_is_set IPSEC_SA_FLAG_IS_ASYNC sa && negb (sa_is_set IPSEC_SA_FLAG_IS_AEAD sa)
    then vnet_crypto_key_del keys (sa_crypto_async_key_index sa) else keys in
  let s := sa_del_udp s sa in
  let keys := vnet_crypto_key_del keys (sa_crypto_sync_key_index sa) in
  let keys :=
    match sa_integ_alg sa with
    | INTEG_ALG_NONE => keys
    | _ => vnet_crypto_key_del keys (sa_integ_sync_key_index sa)
    end in
  let sa :=
    if sa_is_set IPSEC_SA_FLAG_ANTI_REPLAY_HUGE sa
    then sa <| sa_replay := (sa_replay sa) <| sa_replay_window_huge := [] |> |> else sa in
  s <| crypto_keys := keys |>
    <| sa_pool := pool_put_index (pool_write (sa_pool s) sa_index sa) sa_index |>.

Definition ipsec_sa_lock (s : sad_t) (sai : Z) : sad_t :=
  if sai =? INDEX_INVALID then s
  else match pool_elt_at_index (sa_pool s) sai with
       | None => s
       | Some sa => s <| sa_pool := pool_write (sa_pool s) sai (sa <| sa_locks := u32 (sa_locks sa + 1) |>) |>
       end.

(** [fib_node_unlock] calls the last-lock function of the association
    ([ipsec_sa_last_lock_gone]) when the count reaches zero. *)
Definition ipsec_sa_unlock (s : sad_t) (sai : Z) : sad_t :=
  if sai =? INDEX_INVALID then s
  else match pool_elt_at_index (sa_pool s) sai with
       | None => s
       | Some sa =>
           let sa := sa <| sa_locks := u32 (sa_locks sa - 1) |> in
           let s := s <| sa_pool := pool_write (sa_pool s) sai sa |> in
           if sa_locks sa =? 0 then ipsec_sa_del s sai sa else s
       end.

Definition ipsec_sa_find_and_lock (s : sad_t) (id : Z) : sad_t * Z :=
  match sa_index_by_sa_id s !! id with
  | None => (s, INDEX_INVALID)
  | Some i =>
      match pool_elt_at_index (sa_pool s) i with
      | None => (s, i)
      | Some sa => (s <| sa_pool := pool_write (sa_pool s) i (sa <| sa_locks := u32 (sa_locks sa + 1) |>) |>, i)
      end
  end.

Definition ipsec_sa_unlock_id (s : sad_t) (id : Z) : sad_t * option vnet_api_error_t :=
  match sa_index_by_sa_id s !! id with
  | None => (s, Some NO_SUCH_ENTRY)
  | Some i => (ipsec_sa_unlock s i, None)
  end.

Definition ipsec_sa_bind (s : sad_t) (id worker : Z) (bind : bool) : sad_t * option vnet_api_error_t :=
  match sa_index_by_sa_id s !! id with
  | None => (s, Some INVALID_VALUE)
  | Some i =>
      match pool_elt_at_index (sa_pool s) i with
      | None => (s, None)
      | Some sa =>
          if negb bind then
            (s <| sa_pool := pool_write (sa_pool s) i (sa <| sa_thread_index := 65535 |>) |>, None)
          else if vlib_num_workers env <=? worker then (s, Some INVALID_WORKER)
          else (s <| sa_pool := pool_write (sa_pool s) i
                       (sa <| sa_thread_index := u16 (vlib_get_worker_thread_index env worker) |>) |>, None)
      end
  end.

(** [ipsec_set_async_mode]: the mode of every association. *)
Definition ipsec_set_async_mode (s : sad_t) (is_enabled : bool) : sad_t :=
  (s <| async_mode := is_enabled |>)
    <| sa_pool := fold_left (fun p '(i, sa) => pool_write p i (ipsec_sa_set_async_mode sa is_enabled))
                    (pool_foreach (sa_pool s)) (sa_pool s) |>.

(** ** Update *)

Definition ipsec4_tunnel_mk_key (ip spi : Z) : Z := Z.lor (Z.shiftl ip 32) spi.

(** [clib_memcpy (&res.key, &new_key.key, 3)]: three bytes. *)
Definition memcpy3 (old new : Z) : Z := Z.lor (Z.ldiff old (Z.ones 24)) (Z.land new (Z.ones 24)).

(** The tunnel-protect entry of an inbound association moves to its new source. *)
Definition sa_update_protect (s : sad_t) (sa : ipsec_sa_t) (tun : tunnel_t) : sad_t :=
  let spi := host_to_net_u32 (sa_spi (sa_replay sa)) in
  let old_ip := ip_addr_46 (t_src (sa_tunnel sa)) in
  let new_ip := ip_addr_46 (t_src tun) in
  if ip46_address_is_ip4 old_ip then
    let old_key := ipsec4_tunnel_mk_key (ip46_ip4 old_ip) spi in
    let new_key := ipsec4_tunnel_mk_key (ip46_ip4 new_ip) spi in
    match tun4_protect_by_key s !! old_key with
    | None => s
    | Some res => s <| tun4_protect_by_key := <[new_key := res]> (delete old_key (tun4_protect_by_key s)) |>
    end
  else
    let old_key := (ip46_w0 old_ip, ip46_w1 old_ip, spi) in
    match tun6_protect_by_key s !! old_key with
    | None => s
    | Some res =>
        s <| tun6_protect_by_key :=
               <[(memcpy3 (ip46_w0 old_ip) (ip46_w0 new_ip), ip46_w1 old_ip, spi) := res]>
                 (delete old_key (tun6_protect_by_key s)) |>
    end.

(** The new tunnel of an association; [inl] when its resolution fails and the
    association is freed. *)
Definition sa_update_tunnel (s : sad_t) (sa_index : Z) (sa : ipsec_sa_t) (tun : tunnel_t)
  : sad_t * (vnet_api_error_t + ipsec_sa_t) :=
  let s :=
    if sa_is_set IPSEC_SA_FLAG_IS_INBOUND sa && negb (bool_decide (t_src tun = t_src (sa_tunnel sa))) &&
       negb (ip46_address_is_zero (ip_addr_46 (t_src tun)))
    then sa_update_protect s sa tun else s in
  let sa := sa <| sa_tunnel := tunnel_copy tun |> in
  if negb (sa_is_set IPSEC_SA_FLAG_IS_INBOUND sa) then
    let sa := sa <| sa_tunnel_flags := t_encap_decap_flags (sa_tunnel sa) |> in
    let '(t, rv) := tunnel_resolve (sa_tunnel sa) sa_index in
    let sa := sa <| sa_tunnel := t |> in
    match rv with
    | Some e =>
        (s <| sa_index_by_sa_id := delete (sa_id sa) (sa_index_by_sa_id s) |>
           <| sa_pool := pool_put_index (pool_write (sa_pool s) sa_index sa) sa_index |>, inl e)
    | None => (s, inr (sa_build_hdr sa))
    end
  else (s, inr sa).

Definition sa_update_udp (s : sad_t) (sa : ipsec_sa_t) (src_port dst_port : Z) : sad_t * ipsec_sa_t :=
  if sa_is_set IPSEC_SA_FLAG_UDP_ENCAP sa then
    let '(s, sa) :=
      if negb (dst_port =? IPSEC_UDP_PORT_NONE) && negb (dst_port =? net_to_host_u16 (sa_udp_dst_port sa)) then
        let s :=
          if sa_is_set IPSEC_SA_FLAG_IS_INBOUND sa then
            let is_ip4 := negb (sa_is_set IPSEC_SA_FLAG_IS_TUNNEL_V6 sa) in
            ipsec_register_udp_port
              (ipsec_unregister_udp_port s (net_to_host_u16 (sa_udp_dst_port sa)) is_ip4) dst_port is_ip4
          else s in
        (s, sa <| sa_udp_dst_port := host_to_net_u16 dst_port |>)
      else (s, sa) in
    if negb (src_port =? IPSEC_UDP_PORT_NONE) && negb (src_port =? net_to_host_u16 (sa_udp_src_port sa))
    then (s, sa <| sa_udp_src_port := host_to_net_u16 src_port |>)
    else (s, sa)
  else (s, sa).

Definition ipsec_sa_update (s : sad_t) (id src_port dst_port : Z) (tun : tunnel_t) (is_tun : bool)
  : sad_t * option vnet_api_error_t :=
  match sa_index_by_sa_id s !! id with
  | None => (s, Some NO_SUCH_ENTRY)
  | Some sa_index =>
      match pool_elt_at_index (sa_pool s) sa_index with
      | None => (s, Some NO_SUCH_ENTRY)
      | Some sa =>
          let '(s, r) :=
            if is_tun && sa_is_set IPSEC_SA_FLAG_IS_TUNNEL sa &&
               (negb (bool_decide (t_src tun = t_src (sa_tunnel sa))) ||
                negb (bool_decide (t_dst tun = t_dst (sa_tunnel sa))))
            then sa_update_tunnel s sa_index sa tun
            else (s, inr sa) in
          match r with
          | inl e => (s, Some e)
          | inr sa =>
              let '(s, sa) := sa_update_udp s sa src_port dst_port in
              (s <| sa_pool := pool_write (sa_pool s) sa_index sa |>, None)
          end
      end
  end.

End Ops.

(** ** Invariant *)

(** The UDP registration an association holds. *)
Definition udp_key_of (sa : ipsec_sa_t) : option Z :=
  if sa_is_set IPSEC_SA_FLAG_UDP_ENCAP sa && sa_is_set IPSEC_SA_FLAG_IS_INBOUND sa
  then Some (ipsec_udp_registration_key (net_to_host_u16 (sa_udp_dst_port sa))
               (negb (sa_is_set IPSEC_SA_FLAG_IS_TUNNEL_V6 sa)))
  else None.

Definition uses_port (key : Z) (sa : ipsec_sa_t) : bool := bool_decide (udp_key_of sa = Some key).

Definition ports_match (regs : gmap Z Z) (ports : gset (Z * bool)) : Prop :=
  forall port b, is_u 16 port -> (port, b) ∈ ports <-> is_Some (regs !! ipsec_udp_registration_key port b).

(** The registration table counts the users of each port, and the UDP layer knows
    exactly the ports that have users. *)
Record udp_ok (regs : gmap Z Z) (ports : gset (Z * bool)) (users : Z -> Z) : Prop := {
  uo_count : forall k, default 0 (regs !! k) = users k;
  uo_pos : forall k n, regs !! k = Some n -> 0 < n;
  uo_ports : ports_match regs ports
}.

(** The table of ids lists exactly the associations in use, each of them is locked,
    and the UDP registrations are those of the associations in use. *)
Record sad_inv (p : pool ipsec_sa_t) (ids : gmap Z Z) (regs : gmap Z Z) (ports : gset (Z * bool)) : Prop := {
  si_pool : pool_ok p;
  si_len : pool_len p < 2 ^ 32 - 1;
  si_ids : forall id i, ids !! id = Some i <-> exists sa, pool_lookup p i = Some sa /\ sa_id sa = id;
  si_locks : forall i sa, pool_lookup p i = Some sa -> 1 <= sa_locks sa < 2 ^ 32;
  si_udp : udp_ok regs ports (fun k => pool_count (uses_port k) p)
}.

Definition sad_ok (s : sad_t) : Prop :=
  sad_inv (sa_pool s) (sa_index_by_sa_id s) (udp_port_registrations s) (udp_dst_ports s).

(** ** Lemmas on registrations *)

Lemma registration_key_val port b :
  ipsec_udp_registration_key port b = (if b then 0 else 1) + port * 2 ^ 16.
Proof. unfold ipsec_udp_registration_key. destruct b; now rewrite lor_shiftl_add by (lia || (split; lia)). Qed.

Lemma registration_key_inj p1 b1 p2 b2 :
  ipsec_udp_registration_key p1 b1 = ipsec_udp_registration_key p2 b2 -> p1 = p2 /\ b1 = b2.
Proof. rewrite !registration_key_val. destruct b1, b2; intros H; split; (reflexivity || lia). Qed.

Lemma udp_ok_ext regs ports f g : (forall k, f k = g k) -> udp_ok regs ports f -> udp_ok regs ports g.
Proof. intros E [H1 H2 H3]. split; auto. intros k. now rewrite H1. Qed.

(** The set of ports follows the table when one key is inserted or deleted. *)
Lemma ports_insert regs ports port b n :
  ports_match regs ports ->
  ports_match (<[ipsec_udp_registration_key port b := n]> regs) ({[ (port, b) ]} ∪ ports).
Proof.
  intros H port' b' Hp. rewrite elem_of_union, elem_of_singleton, (H port' b' Hp).
  destruct (decide ((port', b') = (port, b))) as [[= -> ->]|Hne].
  - rewrite lookup_insert_eq. split; eauto.
  - rewrite lookup_insert_ne; [intuition|]. intros E. apply registration_key_inj in E as [-> ->]. congruence.
Qed.

Lemma ports_delete regs ports port b :
  ports_match regs ports ->
  ports_match (delete (ipsec_udp_registration_key port b) regs) (ports ∖ {[ (port, b) ]}).
Proof.
  intros H port' b' Hp. rewrite elem_of_difference, elem_of_singleton, (H port' b' Hp).
  destruct (decide ((port', b') = (port, b))) as [[= -> ->]|Hne].
  - rewrite lookup_delete_eq. split; [now intros [_ []]|]. now intros [? [=]].
  - rewrite lookup_delete_ne; [intuition|]. intros E. apply registration_key_inj in E as [-> ->]. congruence.
Qed.

Lemma register_ok s port b f :
  udp_ok (udp_port_registrations s) (udp_dst_ports s) f ->
  f (ipsec_udp_registration_key port b) < 2 ^ 32 - 1 ->
  let s' := ipsec_register_udp_port s port b in
  udp_ok (udp_port_registrations s') (udp_dst_ports s')
    (fun k => f k + Z.b2z (k =? ipsec_udp_registration_key port b)).
Proof.
  intros [H1 H2 H3] Hb s'. set (key := ipsec_udp_registration_key port b) in *.
  pose proof (H1 key) as Hk. set (n := default 0 (udp_port_registrations s !! key)) in *.
  assert (0 <= n) as Hn by (unfold n; destruct (_ !! key) eqn:E; cbn; [apply H2 in E; lia|lia]).
  assert (udp_port_registrations s' = <[key := n + 1]> (udp_port_registrations s)) as Er.
  { unfold s', ipsec_register_udp_port. fold key. fold n. rewrite u32_small by (split; lia).
    now destruct (n =? 0). }
  rewrite Er. split.
  - intros k. destruct (decide (k = key)) as [->|Hne].
    + rewrite lookup_insert_eq, Z.eqb_refl. cbn. lia.
    + rewrite lookup_insert_ne, H1, (proj2 (Z.eqb_neq _ _)) by congruence. cbn. lia.
  - intros k m. destruct (decide (k = key)) as [->|Hne].
    + rewrite lookup_insert_eq. intros [= <-]. lia.
    + rewrite lookup_insert_ne by congruence. apply H2.
  - assert (udp_dst_ports s' = {[ (port, b) ]} ∪ udp_dst_ports s \/
            (udp_dst_ports s' = udp_dst_ports s /\ n <> 0)) as [->|[-> Hnz]].
    { unfold s', ipsec_register_udp_port. fold key. fold n. destruct (Z.eqb_spec n 0); auto. }
    + now apply ports_insert.
    + intros port' b' Hp. rewrite (H3 port' b' Hp).
      destruct (decide (ipsec_udp_registration_key port' b' = key)) as [E|Hne].
      * rewrite E, lookup_insert_eq. unfold n in Hnz. destruct (_ !! key); [split; eauto|now cbn in Hnz].
      * now rewrite lookup_insert_ne.
Qed.

Lemma unregister_ok s port b f :
  udp_ok (udp_port_registrations s) (udp_dst_ports s) f ->
  0 < f (ipsec_udp_registration_key port b) < 2 ^ 32 ->
  let s' := ipsec_unregister_udp_port s port b in
  udp_ok (udp_port_registrations s') (udp_dst_ports s')
    (fun k => f k - Z.b2z (k =? ipsec_udp_registration_key port b)).
Proof.
  intros [H1 H2 H3] Hb s'. set (key := ipsec_udp_registration_key port b) in *.
  pose proof (H1 key) as Hk. unfold s', ipsec_unregister_udp_port. fold key.
  destruct (udp_port_registrations s !! key) as [n|] eqn:En; cbn in Hk; [|lia].
  assert (u32 (n - 1) = n - 1) as -> by (apply u32_small; split; lia).
  destruct (Z.eqb_spec (n - 1) 0); cbn; split.
  - intros k. destruct (decide (k = key)) as [->|Hne].
    + rewrite lookup_delete_eq, Z.eqb_refl. cbn. lia.
    + rewrite lookup_delete_ne, H1, (proj2 (Z.eqb_neq _ _)) by congruence. cbn. lia.
  - intros k m. destruct (decide (k = key)) as [->|Hne].
    + now rewrite lookup_delete_eq.
    + rewrite lookup_delete_ne by congruence. apply H2.
  - now apply ports_delete.
  - intros k. destruct (decide (k = key)) as [->|Hne].
    + rewrite lookup_insert_eq, Z.eqb_refl. cbn. lia.
    + rewrite lookup_insert_ne, H1, (proj2 (Z.eqb_neq _ _)) by congruence. cbn. lia.
  - intros k m. destruct (decide (k = key)) as [->|Hne].
    + rewrite lookup_insert_eq. intros [= <-]. apply H2 in En. lia.
    + rewrite lookup_insert_ne by congruence. apply H2.
  - intros port' b' Hp. rewrite (H3 port' b' Hp).
    destruct (decide (ipsec_udp_registration_key port' b' = key)) as [E|Hne].
    + rewrite E, lookup_insert_eq, En. split; eauto.
    + now rewrite lookup_insert_ne.
Qed.

(** What the registration functions leave alone. *)
Lemma register_frame s port b :
  sa_pool (ipsec_register_udp_port s port b) = sa_pool s /\
  sa_index_by_sa_id (ipsec_register_udp_port s port b) = sa_index_by_sa_id s /\
  crypto_keys (ipsec_register_udp_port s port b) = crypto_keys s.
Proof. unfold ipsec_register_udp_port. now destruct (_ =? 0). Qed.

Lemma unregister_frame s port b :
  sa_pool (ipsec_unregister_udp_port s port b) = sa_pool s /\
  sa_index_by_sa_id (ipsec_unregister_udp_port s port b) = sa_index_by_sa_id s /\
  crypto_keys (ipsec_unregister_udp_port s port b) = crypto_keys s.
Proof.
  unfold ipsec_unregister_udp_port. destruct (_ !! _); [|auto]. now destruct (_ =? 0).
Qed.

(** ** Lemmas on the invariant *)

Section Inv.
Context {p : pool ipsec_sa_t} {ids regs : gmap Z Z} {ports : gset (Z * bool)}.
Hypothesis Hinv : sad_inv p ids regs ports.

Lemma sad_id_unique i j sa sa' :
  pool_lookup p i = Some sa -> pool_lookup p j = Some sa' -> sa_id sa = sa_id sa' -> i = j.
Proof.
  intros Hi Hj E. assert (ids !! sa_id sa = Some i) as E1 by (apply (si_ids _ _ _ _ Hinv); eauto).
  assert (ids !! sa_id sa = Some j) as E2 by (apply (si_ids _ _ _ _ Hinv); eauto). congruence.
Qed.

(** One association rewritten in place. *)
Lemma sad_inv_change i sa sa' regs' ports' :
  pool_lookup p i = Some sa -> sa_id sa' = sa_id sa -> 1 <= sa_locks sa' < 2 ^ 32 ->
  udp_ok regs' ports' (fun k => pool_count (uses_port k) p - Z.b2z (uses_port k sa) + Z.b2z (uses_port k sa')) ->
  sad_inv (pool_write p i sa') ids regs' ports'.
Proof.
  intros Hi Hid Hl Hu. pose proof (pool_write_lookup p i sa' sa) as Hlk. destruct Hinv as [H1 H2 H3 H4 H5]. split.
  - now apply pool_write_ok.
  - now rewrite pool_write_len.
  - intros id j. rewrite H3, Hlk by assumption. destruct (decide (j = i)) as [->|]; [|reflexivity].
    rewrite Hi. split; intros (x & [= <-] & <-); eauto.
  - intros j x. rewrite Hlk by assumption. destruct (decide (j = i)); [now intros [= <-]|apply H4].
  - eapply udp_ok_ext; [|exact Hu]. intros k. cbn beta. symmetry. now apply pool_count_write.
Qed.

Lemma sad_inv_write i sa sa' :
  pool_lookup p i = Some sa -> sa_id sa' = sa_id sa -> udp_key_of sa' = udp_key_of sa ->
  1 <= sa_locks sa' < 2 ^ 32 -> sad_inv (pool_write p i sa') ids regs ports.
Proof.
  intros Hi Hid Hk Hl. apply (sad_inv_change i sa); auto.
  eapply udp_ok_ext; [|exact (si_udp _ _ _ _ Hinv)]. intros k. cbn beta. unfold uses_port. rewrite Hk. lia.
Qed.

(** One association freed. *)
Lemma sad_inv_free i sa sa' regs' ports' :
  pool_lookup p i = Some sa ->
  udp_ok regs' ports' (fun k => pool_count (uses_port k) p - Z.b2z (uses_port k sa)) ->
  sad_inv (pool_put_index (pool_write p i sa') i) (delete (sa_id sa) ids) regs' ports'.
Proof.
  intros Hi Hu. pose proof (pool_write_lookup p i sa' sa) as Hw.
  assert (pool_lookup (pool_write p i sa') i = Some sa') as Hi' by (rewrite Hw, decide_True; auto).
  assert (forall j, pool_lookup (pool_put_index (pool_write p i sa') i) j =
    if decide (j = i) then None else pool_lookup p j) as Hlk.
  { intros j. rewrite (pool_put_lookup _ i sa') by assumption. rewrite Hw by assumption. now destruct (decide _). }
  destruct Hinv as [H1 H2 H3 H4 H5]. split.
  - apply (pool_put_ok _ i sa'); [now apply pool_write_ok|assumption].
  - now rewrite pool_put_len, pool_write_len.
  - intros id j. rewrite Hlk. destruct (decide (id = sa_id sa)) as [->|Hne].
    + rewrite lookup_delete_eq. split; [easy|]. intros (x & Hx & E). destruct (decide (j = i)); [easy|].
      assert (j = i) by (eapply sad_id_unique; eauto). contradiction.
    + rewrite lookup_delete_ne, H3 by congruence. destruct (decide (j = i)) as [->|]; [|reflexivity].
      rewrite Hi. split; [|now intros (? & [=] & _)]. intros (x & [= <-] & <-). congruence.
  - intros j x. rewrite Hlk. destruct (decide _); [easy|apply H4].
  - eapply udp_ok_ext; [|exact Hu]. intros k. cbn beta.
    rewrite (pool_count_put _ _ i sa'), (pool_count_write _ _ i sa' sa) by assumption. lia.
Qed.

(** A new association. *)
Lemma sad_inv_new sa regs' ports' :
  ids !! sa_id sa = None -> 1 <= sa_locks sa < 2 ^ 32 -> pool_len p < 2 ^ 32 - 2 ->
  udp_ok regs' ports' (fun k => pool_count (uses_port k) p + Z.b2z (uses_port k sa)) ->
  let '(p', i) := pool_get_zero sa_zero p in
  sad_inv (pool_write p' i sa) (<[sa_id sa := i]> ids) regs' ports'.
Proof.
  intros Hid Hl Hlen Hu. pose proof (pool_get_zero_allocated sa_zero p (si_pool _ _ _ _ Hinv)) as Ha.
  pose proof (fun f => pool_count_get f sa_zero p (si_pool _ _ _ _ Hinv)) as Hc.
  destruct (pool_get_zero sa_zero p) as [p' i]. cbn [fst] in Hc. destruct Ha as [[A1 A2 A3 A4 A5 A6 A7] A8].
  pose proof (pool_write_lookup p' i sa sa_zero) as Hw. destruct Hinv as [H1 H2 H3 H4 H5]. split.
  - now apply pool_write_ok.
  - rewrite pool_write_len. lia.
  - intros id j. rewrite Hw by assumption. destruct (decide (j = i)) as [->|Hji].
    + destruct (decide (id = sa_id sa)) as [->|Hne].
      * rewrite lookup_insert_eq. split; eauto.
      * rewrite lookup_insert_ne, H3, A2 by congruence. split; [now intros (? & [=] & _)|].
        intros (x & [= <-] & E). congruence.
    + rewrite A4 by assumption. destruct (decide (id = sa_id sa)) as [->|Hne].
      * rewrite lookup_insert_eq, <- H3, Hid. split; congruence.
      * now rewrite lookup_insert_ne, H3 by congruence.
  - intros j x. rewrite Hw by assumption. destruct (decide (j = i)); [now intros [= <-]|].
    rewrite A4 by assumption. apply H4.
  - eapply udp_ok_ext; [|exact Hu]. intros k. cbn beta.
    rewrite (pool_count_write _ _ i sa sa_zero), Hc by assumption. cbn [uses_port]. change (uses_port k sa_zero) with false. cbn. lia.
Qed.

(** Allocation undone on an error. *)
Lemma sad_inv_undo sa :
  pool_len p < 2 ^ 32 - 2 ->
  let '(p', i) := pool_get_zero sa_zero p in
  sad_inv (pool_put_index (pool_write p' i sa) i) ids regs ports /\
  forall j, pool_lookup (pool_put_index (pool_write p' i sa) i) j = pool_lookup p j.
Proof.
  intros Hlen. pose proof (pool_get_zero_allocated sa_zero p (si_pool _ _ _ _ Hinv)) as Ha.
  pose proof (fun f => pool_count_get f sa_zero p (si_pool _ _ _ _ Hinv)) as Hc.
  destruct (pool_get_zero sa_zero p) as [p' i]. cbn [fst] in Hc. destruct Ha as [[A1 A2 A3 A4 A5 A6 A7] A8].
  pose proof (pool_write_lookup p' i sa sa_zero) as Hw.
  assert (pool_lookup (pool_write p' i sa) i = Some sa) as Hi' by (rewrite Hw, decide_True; auto).
  assert (forall j, pool_lookup (pool_put_index (pool_write p' i sa) i) j = pool_lookup p j) as Hlk.
  { intros j. rewrite (pool_put_lookup _ i sa), Hw by assumption.
    destruct (decide (j = i)) as [->|]; [now rewrite A2|auto]. }
  split; [|exact Hlk]. destruct Hinv as [H1 H2 H3 H4 H5]. split.
  - apply (pool_put_ok _ i sa); [now apply pool_write_ok|assumption].
  - rewrite pool_put_len, pool_write_len. lia.
  - intros id j. now rewrite Hlk, H3.
  - intros j x. rewrite Hlk. apply H4.
  - eapply udp_ok_ext; [|exact H5]. intros k. cbn beta.
    rewrite (pool_count_put _ _ i sa), (pool_count_write _ _ i sa sa_zero), Hc by assumption.
    change (uses_port k sa_zero) with false. cbn. lia.
Qed.

End Inv.

(** ** Each operation keeps the invariant *)

(** The registration depends on the flags and the port. *)
Lemma udp_key_of_ext sa sa' :
  sa_flags (sa_replay sa') = sa_flags (sa_replay sa) -> sa_udp_dst_port sa' = sa_udp_dst_port sa ->
  udp_key_of sa' = udp_key_of sa.
Proof. intros E1 E2. unfold udp_key_of, sa_is_set, ipsec_sa_is_set. now rewrite E1, E2. Qed.

Lemma udp_key_of_outbound sa : sa_is_set IPSEC_SA_FLAG_IS_INBOUND sa = false -> udp_key_of sa = None.
Proof. intros E. unfold udp_key_of. now rewrite E, andb_false_r. Qed.

Lemma uses_port_some k sa key : udp_key_of sa = Some key -> uses_port k sa = (k =? key).
Proof.
  intros E. unfold uses_port. rewrite E. destruct (Z.eqb_spec k key) as [->|Hne].
  - now rewrite bool_decide_eq_true.
  - rewrite bool_decide_eq_false. congruence.
Qed.

Lemma uses_port_none k sa : udp_key_of sa = None -> uses_port k sa = false.
Proof. intros E. unfold uses_port. rewrite E. now apply bool_decide_eq_false. Qed.

Lemma users_bounds s k : sad_ok s -> 0 <= pool_count (uses_port k) (sa_pool s) < 2 ^ 32 - 1.
Proof. intros H. pose proof (pool_count_bounds (uses_port k) (sa_pool s)). pose proof (si_len _ _ _ _ H). lia. Qed.

Lemma sad_ok_lock s i sa :
  sad_ok s -> pool_lookup (sa_pool s) i = Some sa -> sa_locks sa < 2 ^ 32 - 1 -> sad_ok (ipsec_sa_lock s i).
Proof.
  intros H Hi Hl. unfold ipsec_sa_lock. destruct (i =? INDEX_INVALID); [exact H|].
  rewrite (pool_lookup_elt _ _ _ Hi). pose proof (si_locks _ _ _ _ H i sa Hi).
  apply (sad_inv_write H i sa); [exact Hi|reflexivity|now apply udp_key_of_ext|].
  cbn. rewrite u32_small by (split; lia). lia.
Qed.

Lemma sad_ok_find_and_lock s id :
  sad_ok s -> (forall i sa, pool_lookup (sa_pool s) i = Some sa -> sa_id sa = id -> sa_locks sa < 2 ^ 32 - 1) ->
  sad_ok (fst (ipsec_sa_find_and_lock s id)).
Proof.
  intros H Hl. unfold ipsec_sa_find_and_lock. destruct (sa_index_by_sa_id s !! id) as [i|] eqn:Ei; [|exact H].
  apply (si_ids _ _ _ _ H) in Ei as (sa & Hi & Hid). rewrite (pool_lookup_elt _ _ _ Hi).
  pose proof (si_locks _ _ _ _ H i sa Hi). specialize (Hl i sa Hi Hid).
  apply (sad_inv_write H i sa); [exact Hi|reflexivity|now apply udp_key_of_ext|].
  cbn. rewrite u32_small by (split; lia). lia.
Qed.

(** The registration of a freed association is dropped. *)
Lemma drop_udp_ok s sa f :
  udp_ok (udp_port_registrations s) (udp_dst_ports s) f ->
  (forall k, uses_port k sa = true -> 0 < f k < 2 ^ 32) ->
  let s' := sa_del_udp s sa in
  udp_ok (udp_port_registrations s') (udp_dst_ports s') (fun k => f k - Z.b2z (uses_port k sa)).
Proof.
  intros Hu Hf s'. assert (udp_key_of sa = udp_key_of sa) as Ek by reflexivity. unfold udp_key_of at 2 in Ek.
  unfold s', sa_del_udp. destruct (_ && _).
  - eapply udp_ok_ext; [intros k; cbn beta; now rewrite (uses_port_some k sa _ Ek)|].
    apply unregister_ok; [exact Hu|]. apply Hf. now rewrite (uses_port_some _ sa _ Ek), Z.eqb_refl.
  - eapply udp_ok_ext; [|exact Hu]. intros k. cbn beta. rewrite (uses_port_none k sa Ek). cbn. lia.
Qed.

(** Freeing the association that slot [i] holds; [sa'] is what the slot contains
    when [ipsec_sa_del] is called. *)
Lemma sad_ok_del s i sa sa' :
  sad_ok s -> pool_lookup (sa_pool s) i = Some sa -> sa_id sa' = sa_id sa -> udp_key_of sa' = udp_key_of sa ->
  sad_ok (ipsec_sa_del (s <| sa_pool := pool_write (sa_pool s) i sa' |>) i sa') /\
  (forall j, pool_lookup (sa_pool (ipsec_sa_del (s <| sa_pool := pool_write (sa_pool s) i sa' |>) i sa')) j =
     if decide (j = i) then None else pool_lookup (sa_pool s) j).
Proof.
  intros H Hi Hid Hk. unfold ipsec_sa_del. cbn beta zeta.
  set (sa2 := sa' <| sa_tunnel := tunnel_unresolve (sa_tunnel sa') |>).
  set (s0 := s <| sa_pool := pool_write (sa_pool s) i sa' |>).
  set (s1 := s0 <| sa_index_by_sa_id := delete (sa_id sa') (sa_index_by_sa_id s0) |>).
  pose proof (drop_udp_ok s1 sa2 (fun k => pool_count (uses_port k) (sa_pool s))) as Hd. cbv zeta in Hd.
  set (s2 := sa_del_udp s1 sa2) in *.
  assert (sa_pool s2 = pool_write (sa_pool s) i sa' /\ sa_index_by_sa_id s2 = delete (sa_id sa) (sa_index_by_sa_id s))
    as [Ep Ei].
  { unfold s2, sa_del_udp. rewrite <- Hid. destruct (_ && _); [|split; reflexivity].
    pose proof (unregister_frame s1 (net_to_host_u16 (sa_udp_dst_port sa2))
      (negb (sa_is_set IPSEC_SA_FLAG_IS_TUNNEL_V6 sa2))) as (E1 & E2 & _). now rewrite E1, E2. }
  assert (udp_key_of sa2 = udp_key_of sa) as Hk2 by (rewrite <- Hk; now apply udp_key_of_ext).
  set (sa3 := if sa_is_set IPSEC_SA_FLAG_ANTI_REPLAY_HUGE sa2
              then sa2 <| sa_replay := (sa_replay sa2) <| sa_replay_window_huge := [] |> |> else sa2).
  clearbody s2 sa3. split.
  - unfold sad_ok. cbn. rewrite Ep, Ei, pool_write_write. apply (sad_inv_free H i sa); [exact Hi|].
    eapply udp_ok_ext; [|apply Hd].
    + intros k. cbn beta. unfold uses_port. now rewrite Hk2.
    + exact (si_udp _ _ _ _ H).
    + intros k Hu. pose proof (users_bounds s k H). split; [|lia].
      apply (pool_count_pos _ _ i sa Hi). unfold uses_port in *. now rewrite <- Hk2.
  - intros j. cbn. rewrite Ep, pool_write_write, (pool_put_lookup _ i sa3), (pool_write_lookup _ i sa3 sa) by
      (rewrite ?(pool_write_lookup _ i sa3 sa), ?decide_True; auto). now destruct (decide _).
Qed.

Lemma sad_ok_unlock s i sa :
  sad_ok s -> pool_lookup (sa_pool s) i = Some sa -> sad_ok (ipsec_sa_unlock s i).
Proof.
  intros H Hi. unfold ipsec_sa_unlock. destruct (i =? INDEX_INVALID); [exact H|].
  rewrite (pool_lookup_elt _ _ _ Hi). pose proof (si_locks _ _ _ _ H i sa Hi) as Hl.
  set (sa' := sa <| sa_locks := u32 (sa_locks sa - 1) |>).
  assert (sa_locks sa' = sa_locks sa - 1) as El by (cbn; apply u32_small; split; lia).
  destruct (Z.eqb_spec (sa_locks sa') 0).
  - apply (sad_ok_del s i sa); [exact H|exact Hi|reflexivity|now apply udp_key_of_ext].
  - apply (sad_inv_write H i sa); [exact Hi|reflexivity|now apply udp_key_of_ext|lia].
Qed.

Lemma sad_ok_unlock_id s id : sad_ok s -> sad_ok (fst (ipsec_sa_unlock_id s id)).
Proof.
  intros H. unfold ipsec_sa_unlock_id. destruct (sa_index_by_sa_id s !! id) as [i|] eqn:Ei; [|exact H].
  apply (si_ids _ _ _ _ H) in Ei as (sa & Hi & _). now apply (sad_ok_unlock s i sa).
Qed.

Lemma sad_ok_bind env s id worker bind : sad_ok s -> sad_ok (fst (ipsec_sa_bind env s id worker bind)).
Proof.
  intros H. unfold ipsec_sa_bind. destruct (sa_index_by_sa_id s !! id) as [i|] eqn:Ei; [|exact H].
  apply (si_ids _ _ _ _ H) in Ei as (sa & Hi & _). rewrite (pool_lookup_elt _ _ _ Hi).
  pose proof (si_locks _ _ _ _ H i sa Hi).
  destruct bind; [destruct (_ <=? _); [exact H|]|];
    (apply (sad_inv_write H i sa); [exact Hi|reflexivity|now apply udp_key_of_ext|assumption]).
Qed.

Lemma set_async_mode_frame sa b :
  sa_id (ipsec_sa_set_async_mode sa b) = sa_id sa /\ sa_locks (ipsec_sa_set_async_mode sa b) = sa_locks sa /\
  udp_key_of (ipsec_sa_set_async_mode sa b) = udp_key_of sa /\
  sa_replay (ipsec_sa_set_async_mode sa b) = sa_replay sa.
Proof. now destruct b. Qed.

Lemma sad_ok_set_async_mode s b : sad_ok s -> sad_ok (ipsec_set_async_mode s b).
Proof.
  intros H. unfold sad_ok, ipsec_set_async_mode. cbn -[pool_foreach].
  assert (forall i sa, (i, sa) ∈ pool_foreach (sa_pool s) -> pool_lookup (sa_pool s) i = Some sa) as Hin
    by (intros; now apply pool_foreach_elem).
  assert (forall l p, sad_inv p (sa_index_by_sa_id s) (udp_port_registrations s) (udp_dst_ports s) ->
    (forall i sa, (i, sa) ∈ l -> exists sa', pool_lookup p i = Some sa' /\ sa_id sa' = sa_id sa /\
       sa_locks sa' = sa_locks sa /\ udp_key_of sa' = udp_key_of sa) ->
    sad_inv (fold_left (fun p '(i, sa) => pool_write p i (ipsec_sa_set_async_mode sa b)) l p)
      (sa_index_by_sa_id s) (udp_port_registrations s) (udp_dst_ports s)) as Hgen.
  { induction l as [|[i sa] l IH]; intros p Hp Hl; cbn; [exact Hp|].
    destruct (Hl i sa (list_elem_of_here _ _)) as (sa' & Hi & E1 & E2 & E3).
    destruct (set_async_mode_frame sa b) as (F1 & F2 & F3 & _). apply IH.
    - pose proof (si_locks _ _ _ _ Hp i sa' Hi).
      apply (sad_inv_write Hp i sa'); [exact Hi|congruence|congruence|lia].
    - intros j x Hx. destruct (Hl j x (list_elem_of_further _ _ _ Hx)) as (x' & Hj & G1 & G2 & G3).
      rewrite (pool_write_lookup p i _ sa') by exact Hi. destruct (decide (j = i)) as [->|]; [|eauto 6].
      assert (x' = sa') as -> by congruence. eexists. split; [reflexivity|]. split_and!; congruence. }
  apply Hgen; [exact H|]. intros i sa Hi. exists sa. auto.
Qed.

(** ** Creation *)

(** Flags that the algorithms and the tunnel add to those of the caller. *)
Definition crypto_alg_flags (a : ipsec_crypto_alg_t) : Z :=
  if IPSEC_CRYPTO_ALG_IS_GCM a || IPSEC_CRYPTO_ALG_CTR_AEAD_OTHERS a
  then Z.lor IPSEC_SA_FLAG_IS_CTR IPSEC_SA_FLAG_IS_AEAD
  else if IPSEC_CRYPTO_ALG_IS_CTR a then IPSEC_SA_FLAG_IS_CTR
  else if IPSEC_CRYPTO_ALG_IS_NULL_GMAC a
       then Z.lor (Z.lor IPSEC_SA_FLAG_IS_CTR IPSEC_SA_FLAG_IS_AEAD) IPSEC_SA_FLAG_IS_NULL_GMAC
       else 0.

Definition sa_new_flags (flags : Z) (a : ipsec_crypto_alg_t) (tun : tunnel_t) : Z :=
  Z.lor (Z.lor flags (crypto_alg_flags a))
    (if negb (Z.land flags IPSEC_SA_FLAG_IS_TUNNEL =? 0) && bool_decide (ip_addr_version (t_src tun) = AF_IP6)
     then IPSEC_SA_FLAG_IS_TUNNEL_V6 else 0).

(** What a step of the creation keeps. *)
Record sa_same (sa sa' : ipsec_sa_t) : Prop := {
  ss_id : sa_id sa' = sa_id sa;
  ss_locks : sa_locks sa' = sa_locks sa;
  ss_replay : sa_replay sa' = sa_replay sa
}.

Lemma sa_same_trans sa1 sa2 sa3 : sa_same sa1 sa2 -> sa_same sa2 sa3 -> sa_same sa1 sa3.
Proof. intros [] []. split; congruence. Qed.

Lemma set_async_mode_same sa b : sa_same sa (ipsec_sa_set_async_mode sa b).
Proof. destruct (set_async_mode_frame sa b) as (? & ? & _ & ?). now split. Qed.

Lemma set_async_op_ids_same sa : sa_same sa (ipsec_sa_set_async_op_ids sa).
Proof.
  unfold ipsec_sa_set_async_op_ids. cbv zeta.
  set (aad := if sa_is_set _ sa then 12 else 8). clearbody aad.
  set (sa1 := match sa_crypto_sync_enc_op_id sa with OP_AEAD_ENC n => _ | _ => sa end).
  assert (sa_same sa sa1) as H1 by (unfold sa1; destruct (sa_crypto_sync_enc_op_id sa); now split).
  clearbody sa1. apply (sa_same_trans _ _ _ H1). clear H1.
  set (sa2 := match sa_crypto_sync_dec_op_id sa1 with OP_AEAD_DEC n => _ | _ => sa1 end).
  assert (sa_same sa1 sa2) as H2 by (unfold sa2; destruct (sa_crypto_sync_dec_op_id sa1); now split).
  clearbody sa2. apply (sa_same_trans _ _ _ H2). clear H2.
  set (sa3 := match sa_crypto_sync_enc_op_id sa2 with OP_ENC c => _ | _ => sa2 end).
  assert (sa_same sa2 sa3) as H3 by (unfold sa3; destruct (sa_crypto_sync_enc_op_id sa2), (sa_integ_sync_op_id sa2);
    try destruct (foreach_crypto_link_async_alg _ _); now split).
  clearbody sa3. apply (sa_same_trans _ _ _ H3).
  destruct (sa_crypto_sync_dec_op_id sa3), (sa_integ_sync_op_id sa3);
    try destruct (foreach_crypto_link_async_alg _ _); now split.
Qed.

Lemma sa_set_flags sa f : sa_flags (sa_replay (sa_set f sa)) = Z.lor (sa_flags (sa_replay sa)) f.
Proof. reflexivity. Qed.

Lemma sa_set_same sa f :
  sa_id (sa_set f sa) = sa_id sa /\ sa_locks (sa_set f sa) = sa_locks sa /\
  sa_replay (sa_set f sa) = (sa_replay sa) <| sa_flags := Z.lor (sa_flags (sa_replay sa)) f |>.
Proof. auto. Qed.

Lemma set_crypto_alg_same sa a :
  sa_id (ipsec_sa_set_crypto_alg sa a) = sa_id sa /\ sa_locks (ipsec_sa_set_crypto_alg sa a) = sa_locks sa /\
  sa_replay (ipsec_sa_set_crypto_alg sa a) =
    (sa_replay sa) <| sa_flags := Z.lor (sa_flags (sa_replay sa)) (crypto_alg_flags a) |>.
Proof.
  destruct a; cbn; (split; [reflexivity|split; [reflexivity|]]); destruct (sa_replay sa); cbn;
    f_equal; rewrite ?Z.lor_0_r, ?Z.lor_assoc; try reflexivity;
    rewrite <- ?Z.lor_assoc; reflexivity.
Qed.

Lemma sa_add_fields_spec env i id spi proto ca ia ik flags salt sz tun :
  let sa := sa_add_fields env i id spi proto ca ia ik flags salt sz tun in
  sa_id sa = id /\ sa_locks sa = 1 /\
  sa_replay sa = ipsec_sa_init_replay_flag (mk_ipsec_sa_replay 0 [] spi 0 0 (Z.lor flags (crypto_alg_flags ca))) sz.
Proof.
  intros sa. unfold sa, sa_add_fields. cbn beta zeta.
  match goal with |- context [ipsec_sa_set_crypto_alg ?x ca] => set (sa1 := x) end.
  assert (sa_id sa1 = id /\ sa_locks sa1 = 1 /\ sa_replay sa1 = mk_ipsec_sa_replay 0 [] spi 0 0 flags) as (E1 & E2 & E3)
    by (unfold sa1; destruct ia; auto).
  clearbody sa1. destruct (set_crypto_alg_same sa1 ca) as (F1 & F2 & F3).
  destruct (set_async_op_ids_same (ipsec_sa_set_crypto_alg sa1 ca)) as [G1 G2 G3].
  cbn -[ipsec_sa_set_async_op_ids ipsec_sa_set_crypto_alg ipsec_sa_init_replay_flag].
  rewrite G1, G2, G3, F1, F2, F3, E1, E2, E3. auto.
Qed.

Lemma sa_add_keys_same keys sa ca ck ia ik :
  sa_same sa (snd (fst (sa_add_keys keys sa ca ck ia ik))).
Proof.
  unfold sa_add_keys. destruct (vnet_crypto_key_add _ _ _ _) as [keys1 kc]. destruct (kc =? _); [now split|].
  set (r := match ia with INTEG_ALG_NONE => _ | _ => _ end).
  assert (sa_same sa (snd (fst r))) as Hr by (unfold r; destruct ia; try (destruct (vnet_crypto_key_add _ _ _ _)); now split).
  destruct r as [[keys2 sa2] ok]. cbn [fst snd] in Hr. destruct ok; cbn [negb]; [|exact Hr].
  destruct (_ && _).
  - destruct (vnet_crypto_key_add_linked _ _ _). apply (sa_same_trans _ _ _ Hr). now split.
  - apply (sa_same_trans _ _ _ Hr). now split.
Qed.

Lemma sa_add_tunnel_spec env sa i tun :
  let sa' := fst (sa_add_tunnel env sa i tun) in
  sa_id sa' = sa_id sa /\ sa_locks sa' = sa_locks sa /\
  sa_replay sa' = (sa_replay sa) <| sa_flags := Z.lor (sa_flags (sa_replay sa))
    (if sa_is_set IPSEC_SA_FLAG_IS_TUNNEL sa && bool_decide (ip_addr_version (t_src tun) = AF_IP6)
     then IPSEC_SA_FLAG_IS_TUNNEL_V6 else 0) |>.
Proof.
  cbv zeta. unfold sa_add_tunnel. set (c := _ && bool_decide _).
  set (sa1 := if c then sa_set IPSEC_SA_FLAG_IS_TUNNEL_V6 sa else sa).
  assert (sa_id sa1 = sa_id sa /\ sa_locks sa1 = sa_locks sa /\ sa_replay sa1 = (sa_replay sa) <| sa_flags :=
    Z.lor (sa_flags (sa_replay sa)) (if c then IPSEC_SA_FLAG_IS_TUNNEL_V6 else 0) |>) as (E1 & E2 & E3).
  { unfold sa1. destruct c; [auto|]. rewrite Z.lor_0_r. now destruct (sa_replay sa). }
  clearbody sa1. destruct (_ && negb _); [|auto].
  destruct (tunnel_resolve _ _ _) as [t [e|]]; cbn; rewrite ?E1, ?E2, ?E3; auto.
Qed.

Lemma sa_add_udp_spec s sa sp dp f :
  udp_ok (udp_port_registrations s) (udp_dst_ports s) f -> (forall k, f k < 2 ^ 32 - 1) ->
  let '(s', sa') := sa_add_udp s sa sp dp in
  udp_ok (udp_port_registrations s') (udp_dst_ports s') (fun k => f k + Z.b2z (uses_port k sa')) /\
  sa_pool s' = sa_pool s /\ sa_index_by_sa_id s' = sa_index_by_sa_id s /\ crypto_keys s' = crypto_keys s /\
  sa_same sa sa'.
Proof.
  intros Hu Hf. assert (forall sa', udp_key_of sa' = None ->
    udp_ok (udp_port_registrations s) (udp_dst_ports s) (fun k => f k + Z.b2z (uses_port k sa'))) as Hnone.
  { intros sa' E. eapply udp_ok_ext; [|exact Hu]. intros k. cbn beta. rewrite (uses_port_none k sa' E). cbn. lia. }
  unfold sa_add_udp. destruct (sa_is_set IPSEC_SA_FLAG_UDP_ENCAP sa) eqn:Ee.
  - match goal with |- context [sa_is_set IPSEC_SA_FLAG_IS_INBOUND ?x] => set (sa1 := x) end.
    assert (sa_same sa sa1) as Hs by now split.
    assert (sa_is_set IPSEC_SA_FLAG_UDP_ENCAP sa1 = true) as Ee1 by exact Ee.
    clearbody sa1. destruct (sa_is_set IPSEC_SA_FLAG_IS_INBOUND sa1) eqn:Ei.
    + destruct (register_frame s (host_to_net_u16 (sa_udp_dst_port sa1))
        (negb (sa_is_set IPSEC_SA_FLAG_IS_TUNNEL_V6 sa1))) as (F1 & F2 & F3). split; [|auto].
      assert (udp_key_of sa1 = Some (ipsec_udp_registration_key (net_to_host_u16 (sa_udp_dst_port sa1))
        (negb (sa_is_set IPSEC_SA_FLAG_IS_TUNNEL_V6 sa1)))) as Ek by (unfold udp_key_of; now rewrite Ee1, Ei).
      eapply udp_ok_ext; [intros k; cbn beta; now rewrite (uses_port_some k sa1 _ Ek)|].
      now apply register_ok.
    + split; [|auto]. now apply Hnone, udp_key_of_outbound.
  - split; [|repeat split; auto]. apply Hnone. unfold udp_key_of. now rewrite Ee.
Qed.

Lemma crypto_alg_flags_disjoint a f :
  Z.land (Z.lor (Z.lor IPSEC_SA_FLAG_IS_CTR IPSEC_SA_FLAG_IS_AEAD) IPSEC_SA_FLAG_IS_NULL_GMAC) f = 0 ->
  Z.land (crypto_alg_flags a) f = 0.
Proof.
  intros H. rewrite !Z.land_lor_distr_l in H. apply Z.lor_eq_0_iff in H as [H H3]. apply Z.lor_eq_0_iff in H as [H1 H2].
  destruct a; cbn -[Z.lor Z.land]; rewrite ?Z.land_lor_distr_l, ?H1, ?H2, ?H3; reflexivity.
Qed.

(** Flags that do not concern the window can be set before or after its flag. *)
Lemma init_replay_flag_lor spi flags v sz :
  Z.land v IPSEC_SA_FLAG_USE_ANTI_REPLAY = 0 ->
  ipsec_sa_init_replay_flag (mk_ipsec_sa_replay 0 [] spi 0 0 (Z.lor flags v)) sz =
  (ipsec_sa_init_replay_flag (mk_ipsec_sa_replay 0 [] spi 0 0 flags) sz)
    <| sa_flags := Z.lor (sa_flags (ipsec_sa_init_replay_flag (mk_ipsec_sa_replay 0 [] spi 0 0 flags) sz)) v |>.
Proof.
  intros Hv. unfold ipsec_sa_init_replay_flag, ipsec_sa_is_set. cbn [sa_flags]. rewrite land_lor_disjoint by exact Hv.
  destruct (_ && _); [|reflexivity]. unfold ipsec_sa_set.
  cbn [set_field sa_flags]. rewrite <- !Z.lor_assoc, (Z.lor_comm v). reflexivity.
Qed.

Lemma init_replay_flag_is_set spi flags sz f :
  Z.land IPSEC_SA_FLAG_ANTI_REPLAY_HUGE f = 0 ->
  ipsec_sa_is_set f (ipsec_sa_init_replay_flag (mk_ipsec_sa_replay 0 [] spi 0 0 flags) sz) =
  negb (Z.land flags f =? 0).
Proof.
  intros Hf. unfold ipsec_sa_init_replay_flag, ipsec_sa_is_set at 1. destruct (_ && _); [|reflexivity].
  cbn. now rewrite land_lor_disjoint.
Qed.

Section Add.
Context (bmi2 : bool) (env : sad_env) (s : sad_t).
Context (id spi : Z) (proto : ipsec_protocol_t) (ca : ipsec_crypto_alg_t) (ck : ipsec_key_t).
Context (ia : ipsec_integ_alg_t) (ik : ipsec_key_t) (flags salt sp dp sz : Z) (tun : tunnel_t).
Hypothesis Hok : sad_ok s.
Hypothesis Hlen : pool_len (sa_pool s) < 2 ^ 32 - 2.

Abbreviation add_result := (ipsec_sa_add_and_lock bmi2 env s id spi proto ca ck ia ik flags salt sp dp sz tun).

(** On an error the database is as before. *)
Definition add_rejected (s' : sad_t) : Prop :=
  (forall j, pool_lookup (sa_pool s') j = pool_lookup (sa_pool s) j) /\
  sa_index_by_sa_id s' = sa_index_by_sa_id s /\
  udp_port_registrations s' = udp_port_registrations s /\ udp_dst_ports s' = udp_dst_ports s.

(** On success slot [i] holds the new association, with one lock. *)
Definition add_accepted (s' : sad_t) (i : Z) : Prop :=
  pool_lookup (sa_pool s) i = None /\ sa_index_by_sa_id s !! id = None /\
  sa_index_by_sa_id s' = <[id := i]> (sa_index_by_sa_id s) /\
  (forall j, j <> i -> pool_lookup (sa_pool s') j = pool_lookup (sa_pool s) j) /\
  exists sa, pool_lookup (sa_pool s') i = Some sa /\ sa_id sa = id /\ sa_locks sa = 1 /\
    sa_replay sa = new_sa bmi2 spi (sa_new_flags flags ca tun) sz.

Lemma sa_add_fail_spec s1 sa e :
  sa_index_by_sa_id s1 = sa_index_by_sa_id s -> udp_port_registrations s1 = udp_port_registrations s ->
  udp_dst_ports s1 = udp_dst_ports s ->
  let '(p, i) := pool_get_zero sa_zero (sa_pool s) in
  let r := sa_add_fail s1 p i sa e in
  sad_ok (fst r) /\ match snd r with inl _ => add_rejected (fst r) | inr i => add_accepted (fst r) i end.
Proof.
  intros E1 E2 E3. pose proof (sad_inv_undo Hok sa Hlen) as H. destruct (pool_get_zero _ _) as [p i].
  destruct H as [H1 H2]. cbn. unfold sad_ok, add_rejected. cbn. rewrite E1, E2, E3. auto.
Qed.

Lemma new_replay_eq sa1 sa2 (H1 : sa_replay sa1 = ipsec_sa_init_replay_flag
    (mk_ipsec_sa_replay 0 [] spi 0 0 (Z.lor flags (crypto_alg_flags ca))) sz)
  (H2 : sa_replay sa2 = (sa_replay sa1) <| sa_flags := Z.lor (sa_flags (sa_replay sa1))
    (if sa_is_set IPSEC_SA_FLAG_IS_TUNNEL sa1 && bool_decide (ip_addr_version (t_src tun) = AF_IP6)
     then IPSEC_SA_FLAG_IS_TUNNEL_V6 else 0) |>) :
  ipsec_sa_init_replay bmi2 (sa_replay sa2) sz = new_sa bmi2 spi (sa_new_flags flags ca tun) sz.
Proof.
  unfold new_sa, sa_new_flags. f_equal. rewrite H2, H1.
  unfold sa_is_set. rewrite H1, init_replay_flag_is_set by reflexivity.
  rewrite land_lor_disjoint by (apply crypto_alg_flags_disjoint; reflexivity).
  symmetry. apply init_replay_flag_lor. clear H1 H2. now destruct (_ && _).
Qed.

Lemma sa_add_spec :
  sad_ok (fst add_result) /\
  match snd add_result with inl _ => add_rejected (fst add_result) | inr i => add_accepted (fst add_result) i end.
Proof.
  unfold ipsec_sa_add_and_lock. destruct (sa_index_by_sa_id s !! id) as [i0|] eqn:Eid; [split; [exact Hok|now split_and!]|].
  destruct (getrandom_ok env); cbn [negb]; [|split; [exact Hok|now split_and!]].
  pose proof (sa_add_fail_spec) as Hfail.
  assert (forall sa regs' ports', sa_id sa = id -> sa_locks sa = 1 ->
    udp_ok regs' ports' (fun k => pool_count (uses_port k) (sa_pool s) + Z.b2z (uses_port k sa)) ->
    let '(p, i) := pool_get_zero sa_zero (sa_pool s) in
    sad_inv (pool_write p i sa) (<[id := i]> (sa_index_by_sa_id s)) regs' ports') as Hnew.
  { intros sa regs' ports' Hi Hl Hu. rewrite <- Hi. apply (sad_inv_new Hok); [now rewrite Hi|lia|exact Hlen|exact Hu]. }
  pose proof (pool_get_zero_allocated sa_zero (sa_pool s) (si_pool _ _ _ _ Hok)) as Ha.
  revert Hfail Hnew Ha. destruct (pool_get_zero sa_zero (sa_pool s)) as [p i].
  intros Hfail Hnew [[A1 A2 A3 A4 A5 A6 A7] A8].
  pose proof (sa_add_fields_spec env i id spi proto ca ia ik flags salt sz tun) as Hf. cbv zeta in Hf.
  set (sa0 := sa_add_fields _ _ _ _ _ _ _ _ _ _ _ _) in *.
  pose proof (sa_add_keys_same (crypto_keys s) sa0 ca ck ia ik) as Hk.
  destruct (sa_add_keys (crypto_keys s) sa0 ca ck ia ik) as [[keys sa1] kok]. cbn [fst snd] in Hk.
  set (s1 := s <| crypto_keys := keys |>).
  destruct kok; cbn [negb]; [|apply (Hfail s1); reflexivity].
  set (sa2 := ipsec_sa_set_async_mode sa1 _). assert (sa_same sa1 sa2) as Hm by apply set_async_mode_same.
  clearbody sa2. pose proof (sa_same_trans _ _ _ Hk Hm) as [G1 G2 G3]. destruct Hf as (Hf1 & Hf2 & Hf3).
  destruct (ipsec_check_support env sa2); [apply (Hfail s1); reflexivity|].
  destruct (ipsec_call_add_del_callbacks env sa2 i true); [apply (Hfail s1); reflexivity|].
  pose proof (sa_add_tunnel_spec env sa2 i tun) as Ht. cbv zeta in Ht.
  destruct (sa_add_tunnel env sa2 i tun) as [sa3 [e|]]; [apply (Hfail s1); reflexivity|]. cbn [fst] in Ht.
  destruct Ht as (T1 & T2 & T3).
  pose proof (sa_add_udp_spec s1 sa3 sp dp _ (si_udp _ _ _ _ Hok)) as Hu.
  destruct (sa_add_udp s1 sa3 sp dp) as [s2 sa4].
  destruct Hu as (U1 & U2 & U3 & U4 & [V1 V2 V3]).
  { intros k. pose proof (pool_count_bounds (uses_port k) (sa_pool s)). cbn beta. lia. }
  set (sa5 := sa4 <| sa_replay := ipsec_sa_init_replay bmi2 (sa_replay sa4) sz |>).
  assert (sa_id sa5 = id) as Eid5 by (change (sa_id sa5) with (sa_id sa4); congruence).
  assert (sa_locks sa5 = 1) as El5 by (change (sa_locks sa5) with (sa_locks sa4); congruence).
  assert (udp_key_of sa5 = udp_key_of sa4) as Eu5.
  { apply udp_key_of_ext; [|reflexivity]. cbn. unfold ipsec_sa_init_replay. now destruct (ipsec_sa_is_set _ _). }
  cbn [fst snd]. unfold sad_ok, add_accepted. cbn -[sa5]. rewrite U3. change (sa_id sa4) with (sa_id sa5). rewrite Eid5.
  split; [apply Hnew; auto|].
  - eapply udp_ok_ext; [|exact U1]. intros k. cbn beta. unfold uses_port. now rewrite Eu5.
  - split_and!; auto.
    + intros j Hj. rewrite (pool_write_lookup p i sa5 sa_zero), decide_False by assumption. auto.
    + exists sa5. rewrite (pool_write_lookup p i sa5 sa_zero), decide_True by auto. split_and!; auto.
      change (sa_replay sa5) with (ipsec_sa_init_replay bmi2 (sa_replay sa4) sz). rewrite V3.
      apply (new_replay_eq sa2); [now rewrite G3|exact T3].
Qed.

End Add.

(** ** Update *)

Lemma sa_update_protect_frame s sa tun :
  sa_pool (sa_update_protect s sa tun) = sa_pool s /\
  sa_index_by_sa_id (sa_update_protect s sa tun) = sa_index_by_sa_id s /\
  udp_port_registrations (sa_update_protect s sa tun) = udp_port_registrations s /\
  udp_dst_ports (sa_update_protect s sa tun) = udp_dst_ports s.
Proof.
  unfold sa_update_protect. destruct (ip46_address_is_ip4 _).
  - now destruct (tun4_protect_by_key s !! _).
  - now destruct (tun6_protect_by_key s !! _).
Qed.

Lemma sa_update_udp_spec s sa sp dp f :
  is_u 16 dp -> udp_ok (udp_port_registrations s) (udp_dst_ports s) f ->
  (forall k, 0 <= f k < 2 ^ 32 - 1) -> (forall k, uses_port k sa = true -> 0 < f k) ->
  let '(s', sa') := sa_update_udp s sa sp dp in
  udp_ok (udp_port_registrations s') (udp_dst_ports s')
    (fun k => f k - Z.b2z (uses_port k sa) + Z.b2z (uses_port k sa')) /\
  sa_pool s' = sa_pool s /\ sa_index_by_sa_id s' = sa_index_by_sa_id s /\ sa_same sa sa'.
Proof.
  intros Hdp Hu Hf Hpos.
  assert (forall sa', udp_key_of sa' = udp_key_of sa ->
    udp_ok (udp_port_registrations s) (udp_dst_ports s)
      (fun k => f k - Z.b2z (uses_port k sa) + Z.b2z (uses_port k sa'))) as Hsame.
  { intros sa' E. eapply udp_ok_ext; [|exact Hu]. intros k. cbn beta. unfold uses_port. rewrite E. lia. }
  unfold sa_update_udp. destruct (sa_is_set IPSEC_SA_FLAG_UDP_ENCAP sa) eqn:Ee; [|now split; [apply Hsame|]].
  set (r := if negb (dp =? _) && _ then _ else (s, sa)).
  assert (udp_ok (udp_port_registrations (fst r)) (udp_dst_ports (fst r))
      (fun k => f k - Z.b2z (uses_port k sa) + Z.b2z (uses_port k (snd r))) /\
    sa_pool (fst r) = sa_pool s /\ sa_index_by_sa_id (fst r) = sa_index_by_sa_id s /\ sa_same sa (snd r)) as Hr.
  { unfold r. destruct (_ && _); [|now split; [apply Hsame|]]. clear r.
    destruct (sa_is_set IPSEC_SA_FLAG_IS_INBOUND sa) eqn:Ei; cbn [fst snd];
      [|now split; [apply Hsame; now rewrite !udp_key_of_outbound|]].
    set (b := negb (sa_is_set IPSEC_SA_FLAG_IS_TUNNEL_V6 sa)).
    set (sa' := sa <| sa_udp_dst_port := host_to_net_u16 dp |>).
    assert (udp_key_of sa = Some (ipsec_udp_registration_key (net_to_host_u16 (sa_udp_dst_port sa)) b)) as Ek
      by (unfold udp_key_of; now rewrite Ee, Ei).
    assert (udp_key_of sa' = Some (ipsec_udp_registration_key dp b)) as Ek'.
    { unfold udp_key_of. change (sa_is_set IPSEC_SA_FLAG_UDP_ENCAP sa') with (sa_is_set IPSEC_SA_FLAG_UDP_ENCAP sa).
      change (sa_is_set IPSEC_SA_FLAG_IS_INBOUND sa') with (sa_is_set IPSEC_SA_FLAG_IS_INBOUND sa).
      rewrite Ee, Ei. cbn -[net_to_host_u16 host_to_net_u16]. now rewrite host_net_u16. }
    set (s1 := ipsec_unregister_udp_port s (net_to_host_u16 (sa_udp_dst_port sa)) b).
    destruct (unregister_frame s (net_to_host_u16 (sa_udp_dst_port sa)) b) as (U1 & U2 & _). fold s1 in U1, U2.
    destruct (register_frame s1 dp b) as (R1 & R2 & _). rewrite R1, R2. split; [|now split_and!].
    eapply udp_ok_ext; [intros k; cbn beta; now rewrite (uses_port_some k sa _ Ek), (uses_port_some k sa' _ Ek')|].
    apply (register_ok s1 dp b).
    - apply unregister_ok; [exact Hu|]. pose proof (Hpos (ipsec_udp_registration_key (net_to_host_u16 (sa_udp_dst_port sa)) b)) as Hp.
      rewrite (uses_port_some _ sa _ Ek), Z.eqb_refl in Hp.
      pose proof (Hf (ipsec_udp_registration_key (net_to_host_u16 (sa_udp_dst_port sa)) b)). split; [now apply Hp|lia].
    - pose proof (Hf (ipsec_udp_registration_key dp b)). cbn beta. destruct (_ =? _); cbn; lia. }
  destruct r as [s1 sa1]. cbn [fst snd] in Hr. destruct Hr as (R1 & R2 & R3 & R4).
  destruct (_ && _); split_and!; auto.
  apply (sa_same_trans _ _ _ R4). now split.
Qed.

Lemma sad_ok_update env s id sp dp tun is_tun :
  sad_ok s -> is_u 16 dp -> sad_ok (fst (ipsec_sa_update env s id sp dp tun is_tun)).
Proof.
  intros H Hdp. unfold ipsec_sa_update. destruct (sa_index_by_sa_id s !! id) as [i|] eqn:Ei; [|exact H].
  apply (si_ids _ _ _ _ H) in Ei as (sa & Hi & Hid). rewrite (pool_lookup_elt _ _ _ Hi).
  pose proof (si_locks _ _ _ _ H i sa Hi) as Hl.
  set (r := if is_tun && _ && _ then _ else (s, inr sa)).
  assert (match snd r with
    | inl _ => sad_ok (fst r)
    | inr sa' => sa_pool (fst r) = sa_pool s /\ sa_index_by_sa_id (fst r) = sa_index_by_sa_id s /\
        udp_port_registrations (fst r) = udp_port_registrations s /\ udp_dst_ports (fst r) = udp_dst_ports s /\
        sa_same sa sa' /\ sa_udp_dst_port sa' = sa_udp_dst_port sa
    end) as Hr.
  { unfold r. destruct (_ && _ && _); [|now split_and!]. clear r. unfold sa_update_tunnel.
    set (s1 := if _ && _ && _ then sa_update_protect s sa tun else s).
    assert (sa_pool s1 = sa_pool s /\ sa_index_by_sa_id s1 = sa_index_by_sa_id s /\
      udp_port_registrations s1 = udp_port_registrations s /\ udp_dst_ports s1 = udp_dst_ports s) as (F1 & F2 & F3 & F4)
      by (unfold s1; destruct (_ && _ && _); [apply sa_update_protect_frame|auto]).
    clearbody s1. cbn -[tunnel_resolve]. change (sa_is_set _ (sa <| sa_tunnel := _ |>)) with (sa_is_set IPSEC_SA_FLAG_IS_INBOUND sa).
    destruct (sa_is_set IPSEC_SA_FLAG_IS_INBOUND sa) eqn:Einb; cbn -[tunnel_resolve]; [now split_and!|].
    destruct (tunnel_resolve _ _ _) as [t [e|]]; cbn; [|now split_and!].
    unfold sad_ok. cbn. rewrite F1, F2, F3, F4. apply (sad_inv_free H i sa); [exact Hi|].
    eapply udp_ok_ext; [|exact (si_udp _ _ _ _ H)]. intros k. cbn beta.
    rewrite (uses_port_none k sa) by now apply udp_key_of_outbound. cbn. lia. }
  destruct r as [s1 [e|sa1]]; cbn [fst snd] in Hr; [exact Hr|].
  destruct Hr as (F1 & F2 & F3 & F4 & [G1 G2 G3] & G4).
  assert (udp_key_of sa1 = udp_key_of sa) as Ek by (apply udp_key_of_ext; congruence).
  pose proof (sa_update_udp_spec s1 sa1 sp dp (fun k => pool_count (uses_port k) (sa_pool s)) Hdp) as Hu.
  destruct (sa_update_udp s1 sa1 sp dp) as [s2 sa2].
  destruct Hu as (U1 & U2 & U3 & [V1 V2 V3]).
  - rewrite F3, F4. exact (si_udp _ _ _ _ H).
  - intros k. apply (users_bounds s k H).
  - intros k Huse. apply (pool_count_pos _ _ i sa Hi). unfold uses_port in *. now rewrite <- Ek.
  - unfold sad_ok. cbn. rewrite U2, U3, F1, F2. apply (sad_inv_change H i sa); [exact Hi|congruence|lia|].
    eapply udp_ok_ext; [|exact U1]. intros k. cbn beta. unfold uses_port. now rewrite Ek.
Qed.

(** ** Histories of the database *)

(** The operations, with what their callers respect: an index names an
    association in use, and no lock count wraps. *)
Inductive sad_step (bmi2 : bool) (env : sad_env) : sad_t -> sad_t -> Prop :=
| ss_add s id spi proto ca ck ia ik flags salt sp dp sz tun :
    pool_len (sa_pool s) < 2 ^ 32 - 2 ->
    sad_step bmi2 env s (fst (ipsec_sa_add_and_lock bmi2 env s id spi proto ca ck ia ik flags salt sp dp sz tun))
| ss_lock s i sa :
    pool_lookup (sa_pool s) i = Some sa -> sa_locks sa < 2 ^ 32 - 1 -> sad_step bmi2 env s (ipsec_sa_lock s i)
| ss_find s id :
    (forall i sa, pool_lookup (sa_pool s) i = Some sa -> sa_id sa = id -> sa_locks sa < 2 ^ 32 - 1) ->
    sad_step bmi2 env s (fst (ipsec_sa_find_and_lock s id))
| ss_unlock s i sa : pool_lookup (sa_pool s) i = Some sa -> sad_step bmi2 env s (ipsec_sa_unlock s i)
| ss_unlock_id s id : sad_step bmi2 env s (fst (ipsec_sa_unlock_id s id))
| ss_bind s id worker bind : sad_step bmi2 env s (fst (ipsec_sa_bind env s id worker bind))
| ss_async s b : sad_step bmi2 env s (ipsec_set_async_mode s b)
| ss_update s id sp dp tun is_tun :
    is_u 16 dp -> sad_step bmi2 env s (fst (ipsec_sa_update env s id sp dp tun is_tun)).

Definition sad_init : sad_t := mk_sad pool_empty ∅ pool_empty ∅ ∅ ∅ ∅ false.

Lemma sad_init_ok : sad_ok sad_init.
Proof.
  split; cbn.
  - apply pool_empty_ok.
  - reflexivity.
  - intros id i. rewrite lookup_empty. split; [easy|]. intros (? & H & _). now rewrite pool_empty_lookup in H.
  - intros i sa. now rewrite pool_empty_lookup.
  - split; [intros k; now rewrite lookup_empty|intros k n; now rewrite lookup_empty|].
    intros port b _. rewrite lookup_empty. split; [now intros H%elem_of_empty|now intros [? [=]]].
Qed.

Lemma sad_step_ok bmi2 env s s' : sad_ok s -> sad_step bmi2 env s s' -> sad_ok s'.
Proof.
  intros H Hs. destruct Hs.
  - eapply sa_add_spec; eassumption.
  - eapply sad_ok_lock; eassumption.
  - now apply sad_ok_find_and_lock.
  - eapply sad_ok_unlock; eassumption.
  - now apply sad_ok_unlock_id.
  - now apply sad_ok_bind.
  - now apply sad_ok_set_async_mode.
  - now apply sad_ok_update.
Qed.

(** ** Locks *)

Lemma pool_index_valid s i sa : sad_ok s -> pool_lookup (sa_pool s) i = Some sa -> (i =? INDEX_INVALID) = false.
Proof.
  intros H Hi. apply pool_lookup_range in Hi. pose proof (si_len _ _ _ _ H). apply Z.eqb_neq. unfold INDEX_INVALID. lia.
Qed.

Lemma unlock_lookup s i sa :
  sad_ok s -> pool_lookup (sa_pool s) i = Some sa ->
  pool_lookup (sa_pool (ipsec_sa_unlock s i)) i =
  if sa_locks sa =? 1 then None else Some (sa <| sa_locks := sa_locks sa - 1 |>).
Proof.
  intros H Hi. pose proof (si_locks _ _ _ _ H i sa Hi) as Hl. unfold ipsec_sa_unlock.
  rewrite (pool_index_valid s i sa), (pool_lookup_elt _ _ _ Hi) by assumption.
  rewrite (u32_small (sa_locks sa - 1)) by (split; lia).
  set (sa' := sa <| sa_locks := sa_locks sa - 1 |>). change (sa_locks sa') with (sa_locks sa - 1).
  destruct (Z.eqb_spec (sa_locks sa - 1) 0), (Z.eqb_spec (sa_locks sa) 1); try lia.
  - destruct (sad_ok_del s i sa sa') as [_ Hd]; [assumption..|reflexivity|now apply udp_key_of_ext|].
    now rewrite Hd, decide_True.
  - cbn -[sa']. now rewrite (pool_write_lookup _ i sa' sa), decide_True.
Qed.

(** ** Keys *)

(** Whether creation links the cipher key with the integrity key: the operations
    are linked, and so are the algorithms of the two keys. *)
Definition ops_linked (ca : ipsec_crypto_alg_t) (ia : ipsec_integ_alg_t) : bool :=
  match ca_enc_op_id (crypto_algs ca), ia_op_id (integ_algs ia) with
  | OP_ENC c, OP_HMAC h => bool_decide (is_Some (foreach_crypto_link_async_alg c h))
  | _, _ => false
  end.

Definition keys_linked (ca : ipsec_crypto_alg_t) (ia : ipsec_integ_alg_t) : bool :=
  ops_linked ca ia && bool_decide (is_Some (vnet_crypto_link_algs (ca_alg (crypto_algs ca)) (ia_alg (integ_algs ia)))).

Lemma key_add_alloc keys alg data len :
  pool_ok keys -> vnet_crypto_key_len_check alg len = true ->
  let '(keys', i) := vnet_crypto_key_add keys alg data len in
  allocated keys keys' i /\ exists k, pool_elt_at_index keys' i = Some k /\ key_alg k = alg.
Proof.
  intros H Hc. unfold vnet_crypto_key_add. rewrite Hc. cbn [negb].
  pose proof (pool_get_zero_allocated key_zero keys H) as Ha. destruct (pool_get_zero key_zero keys) as [keys' i].
  destruct Ha as [[A1 A2 A3 A4 A5 A6 A7] A8].
  match goal with |- context [pool_write keys' i ?x] => set (k := x) end.
  pose proof (pool_write_lookup keys' i k key_zero) as Hw.
  assert (pool_lookup (pool_write keys' i k) i = Some k) as Hi by (rewrite Hw, decide_True; auto).
  split; [|exists k; split; [now apply pool_lookup_elt|reflexivity]].
  split; rewrite ?pool_write_elts, ?pool_write_len; eauto with vpp.
  intros j Hj. rewrite Hw, decide_False by assumption. auto.
Qed.

Lemma key_del_elts keys i : is_Some (pool_elt_at_index keys i) -> pool_elts (vnet_crypto_key_del keys i) = pool_elts keys - 1.
Proof.
  intros [k Hk]. unfold vnet_crypto_key_del. rewrite Hk. now rewrite pool_put_elts, pool_write_elts.
Qed.

Lemma key_del_len keys i : pool_len (vnet_crypto_key_del keys i) = pool_len keys.
Proof. unfold vnet_crypto_key_del. destruct (pool_elt_at_index keys i); [|reflexivity]. now rewrite pool_put_len, pool_write_len. Qed.

(** The key fields of an association. *)
Record keys_same (sa sa' : ipsec_sa_t) : Prop := {
  ks_crypto : sa_crypto_sync_key_index sa' = sa_crypto_sync_key_index sa;
  ks_integ : sa_integ_sync_key_index sa' = sa_integ_sync_key_index sa;
  ks_async : sa_crypto_async_key_index sa' = sa_crypto_async_key_index sa;
  ks_integ_alg : sa_integ_alg sa' = sa_integ_alg sa
}.

Lemma keys_same_trans sa1 sa2 sa3 : keys_same sa1 sa2 -> keys_same sa2 sa3 -> keys_same sa1 sa3.
Proof. intros [] []. split; congruence. Qed.

Lemma set_async_mode_keys sa b : keys_same sa (ipsec_sa_set_async_mode sa b).
Proof. now destruct b. Qed.

Lemma sa_add_tunnel_keys env sa i tun : keys_same sa (fst (sa_add_tunnel env sa i tun)).
Proof.
  unfold sa_add_tunnel. set (sa1 := if _ && bool_decide _ then _ else sa).
  assert (keys_same sa sa1) as H1 by (unfold sa1; destruct (_ && bool_decide _); now split).
  clearbody sa1. destruct (_ && negb _); [|exact H1].
  destruct (tunnel_resolve _ _ _) as [t [e|]]; apply (keys_same_trans _ _ _ H1); now split.
Qed.

Lemma sa_add_udp_keys s sa sp dp :
  keys_same sa (snd (sa_add_udp s sa sp dp)) /\ crypto_keys (fst (sa_add_udp s sa sp dp)) = crypto_keys s.
Proof.
  unfold sa_add_udp. destruct (sa_is_set _ sa); [|now split].
  destruct (sa_is_set _ _); cbn [fst snd]; [|now split]. split; [now split|]. apply register_frame.
Qed.

(** The asynchronous operation that creation prepares, for a caller that leaves the
    AEAD flag to the algorithm. *)
Lemma sa_add_fields_async env i id spi proto ca ia ik flags salt sz tun :
  Z.land flags IPSEC_SA_FLAG_IS_AEAD = 0 ->
  let sa := sa_add_fields env i id spi proto ca ia ik flags salt sz tun in
  negb (bool_decide (sa_crypto_async_enc_op_id sa = ASYNC_OP_NONE)) && negb (sa_is_set IPSEC_SA_FLAG_IS_AEAD sa) =
    ops_linked ca ia /\
  sa_integ_alg sa = ia /\
  sa_is_set IPSEC_SA_FLAG_IS_AEAD sa = negb (Z.land (crypto_alg_flags ca) IPSEC_SA_FLAG_IS_AEAD =? 0) /\
  sa_is_set IPSEC_SA_FLAG_IS_ASYNC sa = negb (Z.land flags IPSEC_SA_FLAG_IS_ASYNC =? 0).
Proof.
  intros Hf sa. pose proof (sa_add_fields_spec env i id spi proto ca ia ik flags salt sz tun) as (_ & _ & Hr).
  assert (sa_is_set IPSEC_SA_FLAG_IS_AEAD sa = negb (Z.land (crypto_alg_flags ca) IPSEC_SA_FLAG_IS_AEAD =? 0)) as Ea.
  { unfold sa_is_set, sa. rewrite Hr, init_replay_flag_is_set by reflexivity. now rewrite Z.land_lor_distr_l, Hf. }
  assert (sa_is_set IPSEC_SA_FLAG_IS_ASYNC sa = negb (Z.land flags IPSEC_SA_FLAG_IS_ASYNC =? 0)) as Es.
  { unfold sa_is_set, sa. rewrite Hr, init_replay_flag_is_set by reflexivity.
    now rewrite land_lor_disjoint by (apply crypto_alg_flags_disjoint; reflexivity). }
  rewrite Ea. split_and!; auto; unfold sa, sa_add_fields; destruct ia, ca; reflexivity.
Qed.

Lemma key_linked_alloc keys kc ki k1 k2 :
  pool_ok keys -> pool_elt_at_index keys kc = Some k1 -> pool_elt_at_index keys ki = Some k2 ->
  let '(keys', kl) := vnet_crypto_key_add_linked keys kc ki in
  if bool_decide (is_Some (vnet_crypto_link_algs (key_alg k1) (key_alg k2))) then allocated keys keys' kl
  else keys' = keys.
Proof.
  intros H H1 H2. unfold vnet_crypto_key_add_linked. rewrite H1, H2.
  destruct (vnet_crypto_link_algs _ _) as [la|]; [|reflexivity]. rewrite bool_decide_eq_true_2 by eauto.
  pose proof (pool_get_zero_allocated key_zero keys H) as Ha. destruct (pool_get_zero key_zero keys) as [keys' i].
  destruct Ha as [[A1 A2 A3 A4 A5 A6 A7] A8].
  match goal with |- context [pool_write keys' i ?x] => set (k := x) end.
  pose proof (pool_write_lookup keys' i k key_zero) as Hw.
  split; rewrite ?pool_write_elts, ?pool_write_len; eauto with vpp.
  - rewrite Hw, decide_True by auto. eauto.
  - intros j Hj. rewrite Hw, decide_False by assumption. auto.
Qed.

(** What the key part of the creation allocates. *)
Record keys_added (keys keys' : pool vnet_crypto_key_t) (sa : ipsec_sa_t) (ia : ipsec_integ_alg_t)
    (linked_op linked : bool) : Prop := {
  ka_elts : pool_elts keys' = pool_elts keys + 1 + Z.b2z (negb (bool_decide (ia = INTEG_ALG_NONE))) + Z.b2z linked;
  ka_crypto : 0 <= sa_crypto_sync_key_index sa < pool_len keys';
  ka_integ : ia <> INTEG_ALG_NONE -> 0 <= sa_integ_sync_key_index sa < pool_len keys';
  ka_async : linked = true -> 0 <= sa_crypto_async_key_index sa < pool_len keys'
}.

Lemma key_add_fails keys alg data len :
  vnet_crypto_key_len_check alg len = false -> vnet_crypto_key_add keys alg data len = (keys, INDEX_INVALID).
Proof. intros H. unfold vnet_crypto_key_add. now rewrite H. Qed.

Lemma sa_add_keys_spec keys sa ca ck ia ik keys' sa' :
  pool_ok keys ->
  negb (bool_decide (sa_crypto_async_enc_op_id sa = ASYNC_OP_NONE)) && negb (sa_is_set IPSEC_SA_FLAG_IS_AEAD sa) =
    ops_linked ca ia ->
  sa_add_keys keys sa ca ck ia ik = (keys', sa', true) ->
  keys_added keys keys' sa' ia (ops_linked ca ia) (keys_linked ca ia) /\ sa_integ_alg sa' = sa_integ_alg sa.
Proof.
  intros Hp Hop. unfold sa_add_keys.
  destruct (vnet_crypto_key_len_check (ca_alg (crypto_algs ca)) (ik_len ck)) eqn:Ec;
    [|rewrite key_add_fails by assumption; now intros [= ]].
  pose proof (key_add_alloc keys _ (ik_data ck) _ Hp Ec) as H1.
  destruct (vnet_crypto_key_add keys _ _ _) as [keys1 kc]. destruct H1 as [A1 (k1 & K1 & Ka1)].
  destruct (kc =? INDEX_INVALID); [now intros [=]|].
  set (sa1 := (sa <| sa_crypto_key := ck |>) <| sa_crypto_sync_key_index := kc |>).
  assert (forall keys2 sa2,
    sa_crypto_sync_key_index sa2 = kc -> sa_crypto_async_enc_op_id sa2 = sa_crypto_async_enc_op_id sa ->
    sa_replay sa2 = sa_replay sa -> sa_integ_alg sa2 = sa_integ_alg sa ->
    pool_ok keys2 -> pool_len keys1 <= pool_len keys2 ->
    pool_elts keys2 = pool_elts keys + 1 + Z.b2z (negb (bool_decide (ia = INTEG_ALG_NONE))) ->
    (ia <> INTEG_ALG_NONE -> 0 <= sa_integ_sync_key_index sa2 < pool_len keys2) ->
    (ops_linked ca ia = true -> pool_elt_at_index keys2 kc = Some k1 /\
       exists k2, pool_elt_at_index keys2 (sa_integ_sync_key_index sa2) = Some k2 /\ key_alg k2 = ia_alg (integ_algs ia)) ->
    (if negb (bool_decide (sa_crypto_async_enc_op_id sa2 = ASYNC_OP_NONE)) &&
        negb (sa_is_set IPSEC_SA_FLAG_IS_AEAD sa2) then
       let '(keys, kl) := vnet_crypto_key_add_linked keys2 (sa_crypto_sync_key_index sa2) (sa_integ_sync_key_index sa2) in
       (keys, sa2 <| sa_crypto_async_key_index := kl |>, true)
     else (keys2, sa2 <| sa_crypto_async_key_index := sa_crypto_sync_key_index sa2 |>, true)) = (keys', sa', true) ->
    keys_added keys keys' sa' ia (ops_linked ca ia) (keys_linked ca ia) /\ sa_integ_alg sa' = sa_integ_alg sa) as Hlink.
  { intros keys2 sa2 E1 E2 E3 E4 P1 P2 P3 P4 P5. unfold sa_is_set in *. rewrite E2, E3, Hop, E1. unfold keys_linked.
    pose proof (al_range _ _ _ A1). destruct (ops_linked ca ia) eqn:Eo; cbn [andb].
    - destruct (P5 eq_refl) as (Q1 & k2 & Q2 & Q3). pose proof (key_linked_alloc keys2 kc _ k1 k2 P1 Q1 Q2) as HL.
      destruct (vnet_crypto_key_add_linked _ _ _) as [keys3 kl]. rewrite Ka1, Q3 in HL. intros [= <- <-].
      split; [|exact E4]. destruct (bool_decide (is_Some (vnet_crypto_link_algs _ _))).
      + destruct HL as [_ _ _ _ L5 L6 L7]. split; cbn; try lia; intros Hn; try specialize (P4 Hn); lia.
      + subst keys3. split; cbn; try lia; intros Hn; try specialize (P4 Hn); (lia || easy).
    - intros [= <- <-]. split; [|exact E4]. split; cbn; try lia; intros Hn; try specialize (P4 Hn); (lia || easy). }
  destruct A1 as [B1 B2 B3 B4 B5 B6 B7].
  destruct (decide (ia = INTEG_ALG_NONE)) as [->|Hia].
  - cbn [negb]. intros Heq. apply (Hlink keys1 sa1); auto; try easy.
    + rewrite B5, bool_decide_eq_true_2 by reflexivity. cbn [negb Z.b2z]. lia.
    + unfold ops_linked. now destruct (ca_enc_op_id _).
  - set (r := match ia with INTEG_ALG_NONE => _ | _ => _ end).
    assert (r = let '(keys, ki) := vnet_crypto_key_add keys1 (ia_alg (integ_algs ia)) (ik_data ik) (ik_len ik) in
      (keys, sa1 <| sa_integ_sync_key_index := ki |>, negb (ki =? INDEX_INVALID))) as -> by (unfold r; now destruct ia).
    destruct (vnet_crypto_key_len_check (ia_alg (integ_algs ia)) (ik_len ik)) eqn:Ei;
      [|rewrite key_add_fails by assumption; now intros [= ]].
    pose proof (key_add_alloc keys1 _ (ik_data ik) _ B1 Ei) as H2.
    destruct (vnet_crypto_key_add keys1 _ _ _) as [keys2 ki]. destruct H2 as [A2 (k2 & K2 & Ka2)].
    destruct (negb (ki =? INDEX_INVALID)); cbn [negb]; [|now intros [=]]. intros Heq.
    pose proof A2 as [C1 C2 C3 C4 C5 C6 C7].
    apply (Hlink keys2 (sa1 <| sa_integ_sync_key_index := ki |>)); auto; try lia.
    + rewrite C5, B5, bool_decide_eq_false_2 by assumption. cbn [negb Z.b2z]. lia.
    + intros _. split; [|eauto]. destruct B3 as [k B3]. pose proof (pool_lookup_elt _ _ _ B3) as E.
      rewrite K1 in E. injection E as <-. apply pool_lookup_elt, (allocated_elt _ _ _ _ _ A2 B3).
Qed.

(** Creation only adds keys: those that are there keep their index. *)
Definition keys_grow (keys keys' : pool vnet_crypto_key_t) : Prop :=
  pool_ok keys' /\ forall j k, pool_lookup keys j = Some k -> pool_lookup keys' j = Some k.

Lemma keys_grow_trans k1 k2 k3 : keys_grow k1 k2 -> keys_grow k2 k3 -> keys_grow k1 k3.
Proof. intros [_ H1] [H2 H3]. split; auto. Qed.

Lemma keys_grow_new keys : pool_ok keys -> let '(keys', i) := pool_get_zero key_zero keys in forall k, keys_grow keys (pool_write keys' i k).
Proof.
  intros H. pose proof (pool_get_zero_allocated key_zero keys H) as Ha. destruct (pool_get_zero key_zero keys) as [keys' i]. destruct Ha as [Ha A8].
  intros k. pose proof Ha as [A1 A2 A3 A4 A5 A6 A7]. split; [eauto with vpp|]. intros j x Hj.
  rewrite (pool_write_lookup keys' i k key_zero) by assumption. destruct (decide (j = i)) as [->|Hne]; [congruence|]. rewrite A4 by assumption. exact Hj.
Qed.

Lemma key_add_grows keys alg data len : pool_ok keys -> keys_grow keys (fst (vnet_crypto_key_add keys alg data len)).
Proof.
  intros H. unfold vnet_crypto_key_add. destruct (negb _); [now split|]. pose proof (keys_grow_new keys H) as Hn.
  destruct (pool_get_zero key_zero keys). apply Hn.
Qed.

Lemma key_add_linked_grows keys kc ki : pool_ok keys -> keys_grow keys (fst (vnet_crypto_key_add_linked keys kc ki)).
Proof.
  intros H. unfold vnet_crypto_key_add_linked. destruct (pool_elt_at_index keys kc), (pool_elt_at_index keys ki); try (now split).
  destruct (vnet_crypto_link_algs _ _); [|now split]. pose proof (keys_grow_new keys H) as Hn. destruct (pool_get_zero key_zero keys). apply Hn.
Qed.

Lemma sa_add_keys_grows keys sa ca ck ia ik : pool_ok keys -> keys_grow keys (fst (fst (sa_add_keys keys sa ca ck ia ik))).
Proof.
  intros H. unfold sa_add_keys. pose proof (key_add_grows keys (ca_alg (crypto_algs ca)) (ik_data ck) (ik_len ck) H) as H1.
  destruct (vnet_crypto_key_add keys _ _ _) as [keys1 kc]. cbn [fst] in H1. destruct (kc =? INDEX_INVALID); [exact H1|].
  set (r := match ia with INTEG_ALG_NONE => _ | _ => _ end).
  assert (keys_grow keys (fst (fst r))) as Hr.
  { subst r. pose proof (key_add_grows keys1 (ia_alg (integ_algs ia)) (ik_data ik) (ik_len ik) (proj1 H1)) as H2.
    pose proof (keys_grow_trans _ _ _ H1 H2) as H3. clear -H1 H3. destruct ia; [exact H1|..]; now destruct (vnet_crypto_key_add keys1 _ _ _). }
  destruct r as [[keys2 sa2] ok]. cbn [fst] in Hr. destruct (negb ok); [exact Hr|]. destruct (_ && _); [|exact Hr].
  pose proof (key_add_linked_grows keys2 (sa_crypto_sync_key_index sa2) (sa_integ_sync_key_index sa2) (proj1 Hr)) as H4.
  destruct (vnet_crypto_key_add_linked _ _ _). exact (keys_grow_trans _ _ _ Hr H4).
Qed.

Lemma sa_add_grows bmi2 env s id spi proto ca ck ia ik flags salt sp dp sz tun :
  pool_ok (crypto_keys s) -> keys_grow (crypto_keys s) (crypto_keys (fst (ipsec_sa_add_and_lock bmi2 env s id spi proto ca ck ia ik flags salt sp dp sz tun))).
Proof.
  intros H. unfold ipsec_sa_add_and_lock. destruct (sa_index_by_sa_id s !! id); [now split|]. destruct (negb (getrandom_ok env)); [now split|].
  destruct (pool_get_zero sa_zero (sa_pool s)) as [p i]. set (sa0 := sa_add_fields _ _ _ _ _ _ _ _ _ _ _ _).
  pose proof (sa_add_keys_grows (crypto_keys s) sa0 ca ck ia ik H) as Hk. destruct (sa_add_keys _ _ _ _ _ _) as [[keys sa1] ok]. cbn [fst] in Hk.
  destruct (negb ok); [exact Hk|]. destruct (ipsec_check_support _ _); [exact Hk|]. destruct (ipsec_call_add_del_callbacks _ _ _ _); [exact Hk|].
  destruct (sa_add_tunnel _ _ _ _) as [sa3 [e|]]; [exact Hk|]. set (s1 := s <| crypto_keys := keys |>).
  destruct (sa_add_udp_keys s1 sa3 sp dp) as [_ E]. destruct (sa_add_udp s1 sa3 sp dp) as [s2 sa4]. cbn in *. now rewrite E.
Qed.

Lemma sa_add_fail_inr s p i sa e s' j (P : Prop) : sa_add_fail s p i sa e = (s', inr j) -> P.
Proof. intros H. apply (f_equal snd) in H. discriminate. Qed.

(** The keys of an association that creation returns. *)
Lemma sa_add_final_keys bmi2 env s id spi proto ca ck ia ik flags salt sp dp sz tun s' i :
  sad_ok s -> pool_ok (crypto_keys s) -> Z.land flags IPSEC_SA_FLAG_IS_AEAD = 0 ->
  ipsec_sa_add_and_lock bmi2 env s id spi proto ca ck ia ik flags salt sp dp sz tun = (s', inr i) ->
  exists sa, pool_lookup (sa_pool s') i = Some sa /\ sa_integ_alg sa = ia /\
    keys_added (crypto_keys s) (crypto_keys s') sa ia (ops_linked ca ia) (keys_linked ca ia).
Proof.
  intros Hok Hk Hf. unfold ipsec_sa_add_and_lock. destruct (sa_index_by_sa_id s !! id); [easy|].
  destruct (getrandom_ok env); cbn [negb]; [|easy].
  pose proof (pool_get_zero_allocated sa_zero (sa_pool s) (si_pool _ _ _ _ Hok)) as Ha.
  destruct (pool_get_zero sa_zero (sa_pool s)) as [p j]. destruct Ha as [_ Ha].
  destruct (sa_add_fields_async env j id spi proto ca ia ik flags salt sz tun Hf) as (F1 & F2 & _ & _).
  set (sa0 := sa_add_fields _ _ _ _ _ _ _ _ _ _ _ _) in *.
  pose proof (sa_add_keys_spec (crypto_keys s) sa0 ca ck ia ik) as Hs.
  destruct (sa_add_keys (crypto_keys s) sa0 ca ck ia ik) as [[keys sa1] [|]]; cbn [negb]; [|apply sa_add_fail_inr].
  destruct (Hs keys sa1 Hk F1 eq_refl) as [K1 K2]. clear Hs.
  set (s1 := s <| crypto_keys := keys |>). set (sa2 := ipsec_sa_set_async_mode sa1 _).
  assert (keys_same sa1 sa2) as M1 by apply set_async_mode_keys. clearbody sa2.
  destruct (ipsec_check_support env sa2); [apply sa_add_fail_inr|].
  destruct (ipsec_call_add_del_callbacks env sa2 j true); [apply sa_add_fail_inr|].
  pose proof (sa_add_tunnel_keys env sa2 j tun) as M2. destruct (sa_add_tunnel env sa2 j tun) as [sa3 [e|]]; [apply sa_add_fail_inr|].
  cbn [fst] in M2. destruct (sa_add_udp_keys s1 sa3 sp dp) as [M3 M4].
  destruct (sa_add_udp s1 sa3 sp dp) as [s2 sa4]. cbn [fst snd] in M3, M4.
  pose proof (keys_same_trans _ _ _ (keys_same_trans _ _ _ M1 M2) M3) as [N1 N2 N3 N4].
  set (sa5 := sa4 <| sa_replay := ipsec_sa_init_replay bmi2 (sa_replay sa4) sz |>).
  intros [= <- <-]. exists sa5. cbn -[sa5]. rewrite (pool_write_lookup p j sa5 sa_zero), decide_True by auto.
  split; [reflexivity|]. split; [cbn; congruence|]. rewrite M4. destruct K1 as [L1 L2 L3 L4].
  split; [exact L1|..]; cbn; rewrite ?N1, ?N2, ?N3; assumption.
Qed.

(** Which keys freeing an association gives back. *)
Lemma sa_del_keys_elts s i sa linked_op linked keys0 ia :
  keys_added keys0 (crypto_keys s) sa ia linked_op linked -> sa_integ_alg sa = ia ->
  (sa_is_set IPSEC_SA_FLAG_IS_ASYNC sa && negb (sa_is_set IPSEC_SA_FLAG_IS_AEAD sa) = true -> linked = true) ->
  pool_elts (crypto_keys (ipsec_sa_del s i sa)) = pool_elts keys0 +
    Z.b2z linked - Z.b2z (sa_is_set IPSEC_SA_FLAG_IS_ASYNC sa && negb (sa_is_set IPSEC_SA_FLAG_IS_AEAD sa)).
Proof.
  intros [L1 L2 L3 L4] Hia Hasync. unfold ipsec_sa_del. cbn -[pool_elts sa_is_set vnet_crypto_key_del sa_del_udp].
  set (sa2 := sa <| sa_tunnel := tunnel_unresolve (sa_tunnel sa) |>).
  change (sa_is_set IPSEC_SA_FLAG_IS_ASYNC sa2) with (sa_is_set IPSEC_SA_FLAG_IS_ASYNC sa).
  change (sa_is_set IPSEC_SA_FLAG_IS_AEAD sa2) with (sa_is_set IPSEC_SA_FLAG_IS_AEAD sa).
  rewrite Hia. set (a := sa_is_set _ sa && _) in *.
  set (k1 := if a then vnet_crypto_key_del (crypto_keys s) _ else crypto_keys s).
  assert (pool_elts k1 = pool_elts (crypto_keys s) - Z.b2z a /\ pool_len k1 = pool_len (crypto_keys s)) as [E1 E2].
  { unfold k1. destruct a; [|split; [cbn [Z.b2z]; lia|reflexivity]].
    split; [|apply key_del_len]. apply key_del_elts, elt_some_range. now apply L4, Hasync. }
  clearbody k1. set (k2 := vnet_crypto_key_del k1 _).
  assert (pool_elts k2 = pool_elts k1 - 1 /\ pool_len k2 = pool_len k1) as [E3 E4].
  { split; [|apply key_del_len]. apply key_del_elts, elt_some_range. now rewrite E2. }
  clearbody k2. destruct (decide (ia = INTEG_ALG_NONE)) as [->|Hne].
  - rewrite bool_decide_eq_true_2 in L1 by reflexivity. cbn [negb Z.b2z] in L1. lia.
  - rewrite bool_decide_eq_false_2 in L1 by assumption. cbn [negb Z.b2z] in L1.
    assert (pool_elts (vnet_crypto_key_del k2 (sa_integ_sync_key_index sa)) = pool_elts k2 - 1) as E5
      by (apply key_del_elts, elt_some_range; specialize (L3 Hne); lia).
    destruct ia; [contradiction|..]; rewrite E5; lia.
Qed.

(** * Properties *)

(** Surroundings in which every request is granted, and the arguments of the
    examples. *)
Definition env_example : sad_env :=
  mk_sad_env true 2 (fun w => w + 1) (fun _ _ => false) (fun _ => None) (fun _ _ => 0) (fun _ _ _ => (7, 3)).
Definition tun_example : tunnel_t :=
  tunnel_zero <| t_src := mk_ip_address (ip46_of_ip4 16777226) AF_IP4 |>
              <| t_dst := mk_ip_address (ip46_of_ip4 33554442) AF_IP4 |>.
Definition key16 : ipsec_key_t := ipsec_mk_key (replicate 16 7) 16.
Definition key20 : ipsec_key_t := ipsec_mk_key (replicate 20 9) 20.

(** An inbound AES-CBC / SHA1 association with UDP encapsulation and anti-replay. *)
Definition add_example (s : sad_t) : sad_t * (vnet_api_error_t + Z) :=
  ipsec_sa_add_and_lock true env_example s 10 1000 IPSEC_PROTOCOL_ESP CRYPTO_ALG_AES_CBC_128 key16
    INTEG_ALG_SHA1_96 key20 (Z.lor IPSEC_SA_FLAG_USE_ANTI_REPLAY (Z.lor IPSEC_SA_FLAG_UDP_ENCAP IPSEC_SA_FLAG_IS_INBOUND))
    0 65535 65535 128 tun_example.

(** C34: The association database stays consistent through every history of its
    operations: the table of ids lists exactly the associations in use, each of
    them holds at least one lock, and the UDP port registrations count exactly the
    inbound associations that use each port. *)
Theorem sad_invariant bmi2 env s : rtc (sad_step bmi2 env) sad_init s -> sad_ok s.
Proof. apply (rtc_ind_r (fun s => sad_ok s)); [apply sad_init_ok|]. intros. eapply sad_step_ok; eassumption. Qed.

Lemma sad_invariant_witness :
  sad_ok (fst (add_example sad_init)) /\
  udp_port_registrations (fst (add_example sad_init)) !! ipsec_udp_registration_key 4500 true = Some 1.
Proof.
  split; [|vm_compute; reflexivity].
  apply (sad_invariant true env_example), rtc_once, ss_add. vm_compute. reflexivity.
Defined.

(** C35: Creation of an association succeeds or leaves the associations as they were:
    every error (existing id, no randomness, key length, unsupported algorithm,
    backend refusal, unresolvable tunnel) restores the pool of associations, the
    table of ids and the port registrations.  The keys are not restored: in every case
    the keys of others stay at their index, and keys that were added before an error
    remain ([failed_add_leaves_keys]), as does the session of the backend.  On success a free slot holds the new
    association with one lock, the id is bound to it, and its replay window is the
    initial window of the requested size. *)
Theorem sa_add_and_lock_correct bmi2 env s id spi proto ca ck ia ik flags salt sp dp sz tun :
  sad_ok s -> pool_len (sa_pool s) < 2 ^ 32 - 2 ->
  let '(s', r) := ipsec_sa_add_and_lock bmi2 env s id spi proto ca ck ia ik flags salt sp dp sz tun in
  sad_ok s' /\
  (pool_ok (crypto_keys s) -> pool_ok (crypto_keys s') /\
     forall j k, pool_lookup (crypto_keys s) j = Some k -> pool_lookup (crypto_keys s') j = Some k) /\
  match r with
  | inl _ =>
      (forall j, pool_lookup (sa_pool s') j = pool_lookup (sa_pool s) j) /\
      sa_index_by_sa_id s' = sa_index_by_sa_id s /\
      udp_port_registrations s' = udp_port_registrations s /\ udp_dst_ports s' = udp_dst_ports s
  | inr i =>
      pool_lookup (sa_pool s) i = None /\ sa_index_by_sa_id s !! id = None /\
      sa_index_by_sa_id s' = <[id := i]> (sa_index_by_sa_id s) /\
      (forall j, j <> i -> pool_lookup (sa_pool s') j = pool_lookup (sa_pool s) j) /\
      exists sa, pool_lookup (sa_pool s') i = Some sa /\ sa_id sa = id /\ sa_locks sa = 1 /\
        sa_replay sa = new_sa bmi2 spi (sa_new_flags flags ca tun) sz
  end.
Proof.
  intros H Hl. pose proof (sa_add_spec bmi2 env s id spi proto ca ck ia ik flags salt sp dp sz tun H Hl) as Hs.
  pose proof (sa_add_grows bmi2 env s id spi proto ca ck ia ik flags salt sp dp sz tun) as Hg.
  destruct (ipsec_sa_add_and_lock _ _ _ _ _ _ _ _ _ _ _ _ _ _ _ _) as [s' [e|i]]; (split; [apply Hs|]; split; [exact Hg|apply Hs]).
Qed.

(** A backend that refuses the association leaves its three keys in the store. *)
Example failed_add_leaves_keys :
  let env := mk_sad_env true 0 (fun i => i) (fun _ _ => true) (fun _ => None) (fun _ _ => 0) (fun _ _ _ => (0, 0)) in
  let r := ipsec_sa_add_and_lock true env sad_init 10 1000 IPSEC_PROTOCOL_ESP CRYPTO_ALG_AES_CBC_128 key16 INTEG_ALG_SHA1_96 key20
    IPSEC_SA_FLAG_USE_ANTI_REPLAY 0 65535 65535 128 tun_example in
  snd r = inl UNIMPLEMENTED /\ pool_elts (sa_pool (fst r)) = 0 /\ pool_elts (crypto_keys (fst r)) = 3.
Proof. vm_compute. now repeat split. Qed.

Lemma sa_add_and_lock_correct_witness :
  snd (add_example sad_init) = inr 0 /\
  exists sa, pool_lookup (sa_pool (fst (add_example sad_init))) 0 = Some sa /\ sa_locks sa = 1.
Proof.
  split; [vm_compute; reflexivity|].
  pose proof (sa_add_and_lock_correct true env_example sad_init 10 1000 IPSEC_PROTOCOL_ESP CRYPTO_ALG_AES_CBC_128
    key16 INTEG_ALG_SHA1_96 key20
    (Z.lor IPSEC_SA_FLAG_USE_ANTI_REPLAY (Z.lor IPSEC_SA_FLAG_UDP_ENCAP IPSEC_SA_FLAG_IS_INBOUND))
    0 65535 65535 128 tun_example sad_init_ok ltac:(vm_compute; reflexivity)) as H.
  change (ipsec_sa_add_and_lock _ _ _ _ _ _ _ _ _ _ _ _ _ _ _ _) with (add_example sad_init) in H.
  assert (snd (add_example sad_init) = inr 0) as E by (vm_compute; reflexivity).
  destruct (add_example sad_init) as [s' r]. cbn [snd] in E. subst r.
  destruct H as (_ & _ & _ & _ & _ & _ & sa & H1 & _ & H2 & _). exists sa. split; assumption.
Defined.

(** An association lives exactly as long as it is locked: after [k] unlocks,
    [k] at most its lock count, it is in use with [k] locks less, and it is gone,
    and its slot free, when [k] reaches the count. *)
Theorem sa_freed_on_last_unlock s i sa (k : nat) :
  sad_ok s -> pool_lookup (sa_pool s) i = Some sa -> Z.of_nat k <= sa_locks sa ->
  sad_ok (Nat.iter k (fun s => ipsec_sa_unlock s i) s) /\
  pool_lookup (sa_pool (Nat.iter k (fun s => ipsec_sa_unlock s i) s)) i =
  if Z.of_nat k =? sa_locks sa then None else Some (sa <| sa_locks := sa_locks sa - Z.of_nat k |>).
Proof.
  intros H Hi. induction k as [|k IH]; intros Hk.
  - pose proof (si_locks _ _ _ _ H i sa Hi). rewrite (proj2 (Z.eqb_neq _ _)) by lia. split; [exact H|].
    change (Nat.iter 0 (fun s => ipsec_sa_unlock s i) s) with s. rewrite Hi, Z.sub_0_r. now destruct sa.
  - destruct IH as [H1 H2]; [lia|]. rewrite (proj2 (Z.eqb_neq _ _)) in H2 by lia.
    change (Nat.iter (S k) (fun s => ipsec_sa_unlock s i) s)
      with (ipsec_sa_unlock (Nat.iter k (fun s => ipsec_sa_unlock s i) s) i).
    split; [eapply sad_ok_unlock; eassumption|]. rewrite (unlock_lookup _ i _ H1 H2).
    change (sa_locks (sa <| sa_locks := sa_locks sa - Z.of_nat k |>)) with (sa_locks sa - Z.of_nat k).
    destruct (Z.eqb_spec (sa_locks sa - Z.of_nat k) 1), (Z.eqb_spec (Z.of_nat (S k)) (sa_locks sa)); try lia; [reflexivity|].
    replace (sa_locks sa - Z.of_nat (S k)) with (sa_locks sa - Z.of_nat k - 1) by lia. reflexivity.
Qed.

Lemma sa_freed_on_last_unlock_witness :
  let s := fst (ipsec_sa_find_and_lock (fst (add_example sad_init)) 10) in
  pool_lookup (sa_pool (ipsec_sa_unlock (ipsec_sa_unlock s 0) 0)) 0 = None.
Proof.
  intros s. assert (sad_ok s) as H.
  { eapply (sad_step_ok true env_example);
      [eapply (sad_step_ok true env_example); [apply sad_init_ok|apply ss_add; vm_compute; reflexivity]|].
    apply ss_find. intros i sa H _. destruct (decide (i = 0)) as [->|Hi].
    - vm_compute in H. injection H as <-. vm_compute. reflexivity.
    - apply pool_lookup_range in H. change (pool_len _) with 1 in H. lia. }
  destruct (pool_lookup (sa_pool s) 0) as [sa|] eqn:E; [|vm_compute in E; discriminate].
  assert (sa_locks sa = 2) as El by (vm_compute in E; injection E as <-; reflexivity).
  destruct (sa_freed_on_last_unlock s 0 sa 2 H E) as [_ Hf]; [rewrite El; vm_compute; congruence|].
  change (Nat.iter 2 (fun s0 => ipsec_sa_unlock s0 0) s) with (ipsec_sa_unlock (ipsec_sa_unlock s 0) 0) in Hf.
  rewrite Hf, El. reflexivity.
Defined.

(** Key accounting of an association created and then released.  When its
    cipher and integrity operations are linked, the link key that creation adds is
    given back only if the association is asynchronous: otherwise one key of the
    store is lost for each such association. *)
Theorem sa_release_leaks_link_key bmi2 env s id spi proto ca ck ia ik flags salt sp dp sz tun s' i :
  sad_ok s -> pool_len (sa_pool s) < 2 ^ 32 - 2 -> pool_ok (crypto_keys s) ->
  Z.land flags IPSEC_SA_FLAG_IS_AEAD = 0 -> Z.land flags IPSEC_SA_FLAG_IS_ASYNC = 0 \/ keys_linked ca ia = true ->
  ipsec_sa_add_and_lock bmi2 env s id spi proto ca ck ia ik flags salt sp dp sz tun = (s', inr i) ->
  pool_elts (crypto_keys (ipsec_sa_unlock s' i)) = pool_elts (crypto_keys s) +
    Z.b2z (keys_linked ca ia && (Z.land flags IPSEC_SA_FLAG_IS_ASYNC =? 0)).
Proof.
  intros H Hl Hk Haead Hasync Hadd.
  destruct (sa_add_final_keys _ _ _ _ _ _ _ _ _ _ _ _ _ _ _ _ _ _ H Hk Haead Hadd) as (sa & Hi & Hia & Hka).
  pose proof (sa_add_spec bmi2 env s id spi proto ca ck ia ik flags salt sp dp sz tun H Hl) as Hs.
  rewrite Hadd in Hs. cbn [fst snd] in Hs. destruct Hs as (Hok & _ & _ & _ & _ & sa' & Hi' & _ & Hlk & Hr).
  rewrite Hi in Hi'. injection Hi' as <-.
  assert (forall f, Z.land IPSEC_SA_FLAG_ANTI_REPLAY_HUGE f = 0 -> sa_is_set f sa =
    negb (Z.land (sa_new_flags flags ca tun) f =? 0)) as Hset
    by (intros f Hf; unfold sa_is_set; rewrite Hr; now apply new_sa_flags).
  assert (sa_is_set IPSEC_SA_FLAG_IS_ASYNC sa = negb (Z.land flags IPSEC_SA_FLAG_IS_ASYNC =? 0)) as Es.
  { rewrite Hset by reflexivity. unfold sa_new_flags. f_equal. f_equal.
    rewrite land_lor_disjoint by (now destruct (_ && _)).
    now rewrite land_lor_disjoint by (apply crypto_alg_flags_disjoint; reflexivity). }
  assert (keys_linked ca ia = true -> sa_is_set IPSEC_SA_FLAG_IS_AEAD sa = false) as Ea.
  { intros El. rewrite Hset by reflexivity. unfold sa_new_flags.
    rewrite land_lor_disjoint by (now destruct (_ && _)). rewrite Z.land_lor_distr_l, Haead.
    revert El. destruct ca, ia; vm_compute; congruence. }
  unfold ipsec_sa_unlock. rewrite (pool_index_valid s' i sa), (pool_lookup_elt _ _ _ Hi) by assumption.
  cbv zeta. set (sa1 := sa <| sa_locks := u32 (sa_locks sa - 1) |>).
  replace (sa_locks sa1 =? 0) with true by (change (sa_locks sa1) with (u32 (sa_locks sa - 1)); now rewrite Hlk).
  rewrite (sa_del_keys_elts _ i sa1 (ops_linked ca ia) (keys_linked ca ia) (crypto_keys s) ia);
    [|destruct Hka as [L1 L2 L3 L4]; now split|exact Hia|].
  - change (sa_is_set IPSEC_SA_FLAG_IS_ASYNC sa1) with (sa_is_set IPSEC_SA_FLAG_IS_ASYNC sa).
    change (sa_is_set IPSEC_SA_FLAG_IS_AEAD sa1) with (sa_is_set IPSEC_SA_FLAG_IS_AEAD sa). rewrite Es.
    destruct (Z.eqb_spec (Z.land flags IPSEC_SA_FLAG_IS_ASYNC) 0); cbn [negb andb].
    + rewrite andb_true_r. cbn [Z.b2z]. lia.
    + destruct Hasync as [|El]; [easy|]. rewrite El, (Ea El). cbn. lia.
  - change (sa_is_set IPSEC_SA_FLAG_IS_ASYNC sa1) with (sa_is_set IPSEC_SA_FLAG_IS_ASYNC sa). rewrite Es.
    intros [Hs _]%andb_true_iff. destruct Hasync as [E|El]; [rewrite E in Hs; discriminate|exact El].
Qed.

Lemma sa_release_leaks_link_key_witness :
  pool_elts (crypto_keys sad_init) = 0 /\
  pool_elts (crypto_keys (ipsec_sa_unlock (fst (add_example sad_init)) 0)) = 1.
Proof.
  split; [reflexivity|].
  rewrite (sa_release_leaks_link_key true env_example sad_init 10 1000 IPSEC_PROTOCOL_ESP CRYPTO_ALG_AES_CBC_128
    key16 INTEG_ALG_SHA1_96 key20
    (Z.lor IPSEC_SA_FLAG_USE_ANTI_REPLAY (Z.lor IPSEC_SA_FLAG_UDP_ENCAP IPSEC_SA_FLAG_IS_INBOUND))
    0 65535 65535 128 tun_example (fst (add_example sad_init)) 0);
    [reflexivity|exact sad_init_ok|reflexivity|exact pool_empty_ok|reflexivity|left; reflexivity|].
  vm_compute. reflexivity.
Defined.

(** An association added with anti-replay never accepts a sequence number
    twice, from frames whose numbers are less than a window apart: creation
    establishes what the receive path needs. *)
Theorem added_sa_no_replay bmi2 env s id spi proto ca ck ia ik flags salt sp dp sz tun s' i :
  sad_ok s -> pool_len (sa_pool s) < 2 ^ 32 - 2 ->
  caller_flags flags -> Z.land flags IPSEC_SA_FLAG_USE_ANTI_REPLAY <> 0 -> sz <= 2 ^ 31 -> bmi2 = true \/ sz <= 64 ->
  ipsec_sa_add_and_lock bmi2 env s id spi proto ca ck ia ik flags salt sp dp sz tun = (s', inr i) ->
  exists sa, pool_lookup (sa_pool s') i = Some sa /\
    forall frames, Forall (Forall (fun p => is_u 32 (fst p))) frames -> frames_close bmi2 (sa_replay sa, []) frames ->
      2 ^ 32 * Z.of_nat (length (concat frames)) <= 2 ^ 64 ->
      NoDup (snd (ar_receive_all bmi2 (sa_replay sa) frames [])).
Proof.
  intros H Hl Hc Har Hsz Hb Hadd.
  pose proof (sa_add_spec bmi2 env s id spi proto ca ck ia ik flags salt sp dp sz tun H Hl) as Hs.
  rewrite Hadd in Hs. destruct Hs as (_ & _ & _ & _ & _ & sa & Hi & _ & _ & Hr). cbn [fst] in Hi.
  exists sa. split; [exact Hi|]. intros frames H1 H2 H3. rewrite Hr in *. apply new_sa_no_replay; auto.
  - unfold caller_flags, sa_new_flags. rewrite land_lor_disjoint by (now destruct (_ && _)).
    now rewrite land_lor_disjoint by (apply crypto_alg_flags_disjoint; reflexivity).
  - unfold sa_new_flags. rewrite land_lor_disjoint by (now destruct (_ && _)).
    now rewrite land_lor_disjoint by (apply crypto_alg_flags_disjoint; reflexivity).
Qed.

Lemma added_sa_no_replay_witness :
  exists sa, pool_lookup (sa_pool (fst (add_example sad_init))) 0 = Some sa /\
    snd (ar_receive_all true (sa_replay sa) [[(7, fun _ => true); (7, fun _ => true)]] []) = [(0, 7)] /\
    NoDup (snd (ar_receive_all true (sa_replay sa) [[(7, fun _ => true); (7, fun _ => true)]] [])).
Proof.
  destruct (added_sa_no_replay true env_example sad_init 10 1000 IPSEC_PROTOCOL_ESP CRYPTO_ALG_AES_CBC_128
    key16 INTEG_ALG_SHA1_96 key20
    (Z.lor IPSEC_SA_FLAG_USE_ANTI_REPLAY (Z.lor IPSEC_SA_FLAG_UDP_ENCAP IPSEC_SA_FLAG_IS_INBOUND))
    0 65535 65535 128 tun_example (fst (add_example sad_init)) 0) as (sa & H1 & H2);
    [exact sad_init_ok|reflexivity|reflexivity|discriminate|vm_compute; congruence|now left|vm_compute; reflexivity|].
  exists sa. split; [exact H1|]. split.
  - vm_compute in H1. injection H1 as <-. vm_compute. reflexivity.
  - apply H2; [repeat constructor; vm_compute; congruence| |vm_compute; congruence]. split; [|exact I].
    vm_compute in H1. injection H1 as <-. vm_compute. discriminate.
Defined.

(** The tables of [ipsec_init] give each integrity algorithm the HMAC
    operation of its own hash, except SHA-256-96, which is given the SHA-1
    operation with a SHA-256 key; linked with a CTR cipher the two do not even
    agree on whether a link key exists. *)
Theorem integ_tables_agree_but_sha_256_96 :
  (forall i h, ia_alg (integ_algs i) = ALG_HMAC h ->
     ia_op_id (integ_algs i) = OP_HMAC h <-> i <> INTEG_ALG_SHA_256_96) /\
  (forall ca ia, ops_linked ca ia = true ->
     keys_linked ca ia = false <->
     ia = INTEG_ALG_SHA_256_96 /\ IPSEC_CRYPTO_ALG_IS_CTR ca = true).
Proof.
  split.
  - intros [] h; cbn; intros [= <-]; split; congruence.
  - intros ca ia. destruct ca, ia; vm_compute; intuition congruence.
Qed.

Lemma integ_tables_agree_but_sha_256_96_witness :
  ia_op_id (integ_algs INTEG_ALG_SHA_256_96) <> OP_HMAC SHA256 /\
  keys_linked CRYPTO_ALG_AES_CTR_128 INTEG_ALG_SHA_256_96 = false.
Proof.
  split.
  - intros E. exact (proj1 (proj1 integ_tables_agree_but_sha_256_96 INTEG_ALG_SHA_256_96 SHA256 eq_refl) E eq_refl).
  - exact (proj2 (proj2 integ_tables_agree_but_sha_256_96 CRYPTO_ALG_AES_CTR_128 INTEG_ALG_SHA_256_96 eq_refl)
      (conj eq_refl eq_refl)).
Defined.

Lemma memcpy3_same old new : 0 <= old -> old mod 2 ^ 24 = new mod 2 ^ 24 -> memcpy3 old new = old.
Proof.
  intros Ho E. unfold memcpy3. rewrite (Z.land_ones new), <- E, <- Z.land_ones by lia.
  apply Z.bits_inj'. intros k Hk. rewrite Z.lor_spec, Z.ldiff_spec, Z.land_spec. now destruct (Z.testbit old k), (Z.testbit _ k).
Qed.

(** A change of the IPv6 source of an inbound tunnel does not move its entry of
    the tunnel-protect table when the new address has the same first three bytes:
    the entry stays under the old address and, if nothing was under the new one,
    the new source is not found. *)
Theorem sa_update_ip6_source_lost s sa tun res :
  let old := ip_addr_46 (t_src (sa_tunnel sa)) in
  let new := ip_addr_46 (t_src tun) in
  let spi := host_to_net_u32 (sa_spi (sa_replay sa)) in
  ip46_ok old -> ip46_address_is_ip4 old = false -> old <> new ->
  ip46_w0 old mod 2 ^ 24 = ip46_w0 new mod 2 ^ 24 ->
  tun6_protect_by_key s !! (ip46_w0 old, ip46_w1 old, spi) = Some res ->
  tun6_protect_by_key s !! (ip46_w0 new, ip46_w1 new, spi) = None ->
  tun6_protect_by_key (sa_update_protect s sa tun) !! (ip46_w0 old, ip46_w1 old, spi) = Some res /\
  tun6_protect_by_key (sa_update_protect s sa tun) !! (ip46_w0 new, ip46_w1 new, spi) = None.
Proof.
  intros old new spi [[Ho _] _] H4 Hne E Hold Hnew. unfold sa_update_protect. fold old new spi. rewrite H4, Hold. cbn.
  rewrite memcpy3_same by assumption. rewrite lookup_insert_eq. split; [reflexivity|].
  assert ((ip46_w0 old, ip46_w1 old, spi) <> (ip46_w0 new, ip46_w1 new, spi)) as Hk.
  { intros [= E0 E1]. apply Hne. destruct old, new. cbn in *. now rewrite E0, E1. }
  rewrite lookup_insert_ne, lookup_delete_ne by exact Hk. exact Hnew.
Qed.

Definition ip6_addr (w0 w1 : Z) : ip_address_t := mk_ip_address (mk_ip46 w0 w1) AF_IP6.

Lemma sa_update_ip6_source_lost_witness :
  let sa := sa_zero <| sa_tunnel := tunnel_zero <| t_src := ip6_addr 253 (2 ^ 56) |> |> in
  let tun := tunnel_zero <| t_src := ip6_addr 253 (2 ^ 57) |> in
  let s := sad_init <| tun6_protect_by_key := {[ (253, 2 ^ 56, 0) := 5 ]} |> in
  tun6_protect_by_key (sa_update_protect s sa tun) !! (253, 2 ^ 57, 0) = None.
Proof.
  intros sa tun s. apply (sa_update_ip6_source_lost s sa tun 5);
    [split; vm_compute; split; congruence|reflexivity|discriminate|reflexivity|vm_compute; reflexivity|vm_compute; reflexivity].
Defined.
