(* ===== verification/SpdTypes.v ===== *)
(** * Security policy databases: data model

    Policies, policy databases (SPDs), the fast-path lookup structures and the flow
    caches, from [vnet/ipsec/ipsec_spd.h], [ipsec_spd_policy.h] and [ipsec.h].

    Hash tables ([hash_get], [hash_set], [hash_unset] and the bihash tables) are
    finite maps; adding to a bihash overwrites and cannot fail.  A vector held by a
    table is updated in place or moved and written back; both are the update of the
    value in the map. *)

From stdpp Require Import gmap.
From S2P Require Import Prelude NetTypes Pool Crypto IpsecSa Sad.

(** ** Policies *)

Inductive ipsec_spd_policy_type_t :=
| IP4_OUTBOUND | IP6_OUTBOUND
| IP4_INBOUND_PROTECT | IP6_INBOUND_PROTECT
| IP4_INBOUND_BYPASS | IP6_INBOUND_BYPASS
| IP4_INBOUND_DISCARD | IP6_INBOUND_DISCARD.

Inductive ipsec_policy_action_t := ACTION_BYPASS | ACTION_DISCARD | ACTION_RESOLVE | ACTION_PROTECT.

#[export] Instance policy_type_eq_dec : EqDecision ipsec_spd_policy_type_t.
Proof. solve_decision. Defined.
#[export] Instance policy_action_eq_dec : EqDecision ipsec_policy_action_t.
Proof. solve_decision. Defined.

(** The value of the enumeration, stored in the [action] byte of a tuple. *)
Definition policy_type_num (t : ipsec_spd_policy_type_t) : Z :=
  match t with
  | IP4_OUTBOUND => 0 | IP6_OUTBOUND => 1
  | IP4_INBOUND_PROTECT => 2 | IP6_INBOUND_PROTECT => 3
  | IP4_INBOUND_BYPASS => 4 | IP6_INBOUND_BYPASS => 5
  | IP4_INBOUND_DISCARD => 6 | IP6_INBOUND_DISCARD => 7
  end.

Record ip46_address_range_t := mk_arange { ar_start : ip46_address_t; ar_stop : ip46_address_t }.
Record port_range_t := mk_prange { pr_start : Z; pr_stop : Z }.

Record ipsec_policy_t := mk_policy {
  p_id : Z;
  p_priority : Z;
  p_type : ipsec_spd_policy_type_t;
  p_is_ipv6 : bool;
  p_laddr : ip46_address_range_t;
  p_raddr : ip46_address_range_t;
  p_protocol : Z;
  p_lport : port_range_t;
  p_rport : port_range_t;
  p_policy : ipsec_policy_action_t;
  p_sa_id : Z;
  p_sa_index : Z;
  p_fp_mask_type_id : Z
}.

#[export] Instance policy_eta : Eta ipsec_policy_t := fun p =>
  mk_policy (p_id p) (p_priority p) (p_type p) (p_is_ipv6 p) (p_laddr p) (p_raddr p) (p_protocol p)
    (p_lport p) (p_rport p) (p_policy p) (p_sa_id p) (p_sa_index p) (p_fp_mask_type_id p).

Definition IP_PROTOCOL_TCP : Z := 6.
Definition IP_PROTOCOL_SCTP : Z := 132.
Definition IP_PROTOCOL_IPSEC_AH : Z := 51.
Definition IPSEC_POLICY_PROTOCOL_ANY : Z := 255.

(** The protocols whose ports policies look at. *)
Definition has_ports (pr : Z) : bool :=
  (pr =? IP_PROTOCOL_TCP) || (pr =? IP_PROTOCOL_UDP) || (pr =? IP_PROTOCOL_SCTP).

(** IPv4 bounds in host order. *)
Definition ip4_host (a : ip46_address_t) : Z := net_to_host_u32 (ip46_ip4 a).

(** ** Fast path *)

(** [ipsec_fp_5tuple_t]: four words of addresses, the ports (or the SPI, which
    shares their 32 bits), protocol, action and family.  For IPv4 the first three
    words are the zero padding and the last one holds the two addresses. *)
Record ipsec_fp_5tuple_t := mk_tuple {
  ft_w0 : Z; ft_w1 : Z; ft_w2 : Z; ft_w3 : Z;
  ft_ports : Z;
  ft_protocol : Z;
  ft_action : Z;
  ft_is_ipv6 : Z
}.

#[export] Instance tuple_eta : Eta ipsec_fp_5tuple_t := fun t =>
  mk_tuple (ft_w0 t) (ft_w1 t) (ft_w2 t) (ft_w3 t) (ft_ports t) (ft_protocol t) (ft_action t) (ft_is_ipv6 t).

#[export] Instance tuple_eq_dec : EqDecision ipsec_fp_5tuple_t.
Proof. solve_decision. Defined.

(** The views of the union. *)
Definition ft_laddr (t : ipsec_fp_5tuple_t) : Z := u32 (ft_w3 t).
Definition ft_raddr (t : ipsec_fp_5tuple_t) : Z := Z.shiftr (ft_w3 t) 32.
Definition ft_ip6_laddr (t : ipsec_fp_5tuple_t) : ip46_address_t := mk_ip46 (ft_w0 t) (ft_w1 t).
Definition ft_ip6_raddr (t : ipsec_fp_5tuple_t) : ip46_address_t := mk_ip46 (ft_w2 t) (ft_w3 t).
Definition ft_lport (t : ipsec_fp_5tuple_t) : Z := u16 (ft_ports t).
Definition ft_rport (t : ipsec_fp_5tuple_t) : Z := Z.shiftr (ft_ports t) 16.
Definition ft_spi (t : ipsec_fp_5tuple_t) : Z := ft_ports t.
Definition pack_addrs (laddr raddr : Z) : Z := Z.lor laddr (Z.shiftl raddr 32).
Definition pack_ports (lport rport : Z) : Z := Z.lor lport (Z.shiftl rport 16).

(** The last word of the hash keys. *)
Definition ft_w4 (t : ipsec_fp_5tuple_t) : Z :=
  Z.lor (ft_ports t) (Z.lor (Z.shiftl (ft_protocol t) 32)
    (Z.lor (Z.shiftl (ft_action t) 40) (Z.shiftl (ft_is_ipv6 t) 48))).

(** Keys of the IPv4 (16 bytes) and IPv6 (40 bytes) tables. *)
Definition fp4_key : Type := Z * Z.
Definition fp6_key : Type := Z * Z * Z * Z * Z.

Record ipsec_fp_mask_type_entry_t := mk_mte { mte_mask : ipsec_fp_5tuple_t; mte_refcount : Z }.

#[export] Instance mte_eta : Eta ipsec_fp_mask_type_entry_t := fun m => mk_mte (mte_mask m) (mte_refcount m).

Record ipsec_fp_mask_id_t := mk_mask_id { mask_type_idx : Z; mi_refcount : Z }.

#[export] Instance mask_id_eta : Eta ipsec_fp_mask_id_t := fun m => mk_mask_id (mask_type_idx m) (mi_refcount m).

(** An array indexed by policy type, and its update. *)
Definition by_type (A : Type) : Type := ipsec_spd_policy_type_t -> A.
Definition set_type {A} (f : by_type A) (t : ipsec_spd_policy_type_t) (v : A) : by_type A :=
  fun t' => if decide (t' = t) then v else f t'.

(** [ipsec_spd_fp_t] without the names of its tables. *)
Record ipsec_spd_fp_t := mk_spd_fp {
  fp_mask_ids : by_type (list ipsec_fp_mask_id_t);
  ip6_out_lookup_hash_idx : Z;
  ip4_out_lookup_hash_idx : Z;
  ip6_in_lookup_hash_idx : Z;
  ip4_in_lookup_hash_idx : Z
}.

#[export] Instance spd_fp_eta : Eta ipsec_spd_fp_t := fun f =>
  mk_spd_fp (fp_mask_ids f) (ip6_out_lookup_hash_idx f) (ip4_out_lookup_hash_idx f)
    (ip6_in_lookup_hash_idx f) (ip4_in_lookup_hash_idx f).

(** ** SPDs *)

Record ipsec_spd_t := mk_spd {
  spd_id : Z;
  spd_policies : by_type (list Z);
  fp_spd : ipsec_spd_fp_t
}.

#[export] Instance spd_eta : Eta ipsec_spd_t := fun s => mk_spd (spd_id s) (spd_policies s) (fp_spd s).

(** ** Flow cache *)

(** [ipsec4_hash_kv_16_8_t] without its bucket lock, which makes each access to a
    bucket atomic. *)
Record ipsec4_hash_kv_16_8_t := mk_kv { kv_key0 : Z; kv_key1 : Z; kv_value : Z }.

Definition kv_zero : ipsec4_hash_kv_16_8_t := mk_kv 0 0 0.

(** One flow cache: the table (of [2^n] buckets), the number of current entries, the
    epoch and whether the cache is enabled. *)
Record flow_cache := mk_flow_cache {
  fc_tbl : list ipsec4_hash_kv_16_8_t;
  fc_entries : Z;
  fc_epoch : Z;
  fc_flag : bool
}.

#[export] Instance flow_cache_eta : Eta flow_cache := fun c =>
  mk_flow_cache (fc_tbl c) (fc_entries c) (fc_epoch c) (fc_flag c).

(** ** [ipsec_main_t], the part that policies use *)

Record ipsec_main_t := mk_ipsec_main {
  spds : pool ipsec_spd_t;
  policies : pool ipsec_policy_t;
  fp_ip4_lookup_hashes : pool (gmap fp4_key (list Z));
  fp_ip6_lookup_hashes : pool (gmap fp6_key (list Z));
  (* [pool_max_len] of the two pools of tables *)
  fp_ip4_hashes_max : Z;
  fp_ip6_hashes_max : Z;
  fp_spd_ipv4_out_is_enabled : bool;
  fp_spd_ipv4_in_is_enabled : bool;
  fp_spd_ipv6_out_is_enabled : bool;
  fp_spd_ipv6_in_is_enabled : bool;
  fp_mask_types : pool ipsec_fp_mask_type_entry_t;
  spd_index_by_spd_id : gmap Z Z;
  spd_index_by_sw_if_index : gmap Z Z;
  (* SPD index given to the IPsec features of an interface *)
  if_features : gmap Z Z;
  out_cache : flow_cache;
  in_cache : flow_cache;
  sad : sad_t
}.

#[export] Instance ipsec_main_eta : Eta ipsec_main_t := fun m =>
  mk_ipsec_main (spds m) (policies m) (fp_ip4_lookup_hashes m) (fp_ip6_lookup_hashes m)
    (fp_ip4_hashes_max m) (fp_ip6_hashes_max m)
    (fp_spd_ipv4_out_is_enabled m) (fp_spd_ipv4_in_is_enabled m)
    (fp_spd_ipv6_out_is_enabled m) (fp_spd_ipv6_in_is_enabled m)
    (fp_mask_types m) (spd_index_by_spd_id m) (spd_index_by_sw_if_index m) (if_features m)
    (out_cache m) (in_cache m) (sad m).

(** [ipsec_sa_get]. *)
Definition ipsec_sa_get (im : ipsec_main_t) (i : Z) : option ipsec_sa_t := pool_elt_at_index (sa_pool (sad im)) i.

(** The state after [ipsec_init]. *)
Definition ipsec_main_init : ipsec_main_t :=
  let cache := mk_flow_cache [] 0 0 false in
  mk_ipsec_main pool_empty pool_empty pool_empty pool_empty 0 0 false false false false pool_empty ∅ ∅ ∅
    cache cache sad_init.
