(* ===== verification/SpdPolicy.v ===== *)
(** * Security policy databases: control plane

    Addition and removal of policies and SPDs, from [vnet/ipsec/ipsec_spd.c] and
    [vnet/ipsec/ipsec_spd_policy.c], with the lookup structures of the fast path:
    each policy has a mask made of the common prefix of its address and port
    ranges, and is stored in a hash table under its masked 5-tuple. *)

From stdpp Require Import gmap.
From S2P Require Import Prelude NetTypes Pool Crypto IpsecSa Sad SpdTypes.

(** ** Policy types and equality *)

Definition ipsec_policy_mk_type (is_outbound is_ipv6 : bool) (action : ipsec_policy_action_t)
  : option ipsec_spd_policy_type_t :=
  if is_outbound then Some (if is_ipv6 then IP6_OUTBOUND else IP4_OUTBOUND)
  else
    match action with
    | ACTION_PROTECT => Some (if is_ipv6 then IP6_INBOUND_PROTECT else IP4_INBOUND_PROTECT)
    | ACTION_BYPASS => Some (if is_ipv6 then IP6_INBOUND_BYPASS else IP4_INBOUND_BYPASS)
    | ACTION_DISCARD => Some (if is_ipv6 then IP6_INBOUND_DISCARD else IP4_INBOUND_DISCARD)
    | ACTION_RESOLVE => None
    end.

Definition ipsec_is_policy_inbound (policy : ipsec_policy_t) : bool :=
  match p_type policy with
  | IP4_INBOUND_PROTECT | IP4_INBOUND_BYPASS | IP4_INBOUND_DISCARD
  | IP6_INBOUND_PROTECT | IP6_INBOUND_BYPASS | IP6_INBOUND_DISCARD => true
  | IP4_OUTBOUND | IP6_OUTBOUND => false
  end.

Definition ipsec_policy_is_equal (p1 p2 : ipsec_policy_t) : bool :=
  (p_priority p1 =? p_priority p2) &&
  bool_decide (p_type p1 = p_type p2) &&
  bool_decide (p_policy p1 = p_policy p2) &&
  (p_sa_id p1 =? p_sa_id p2) &&
  (p_protocol p1 =? p_protocol p2) &&
  (pr_start (p_lport p1) =? pr_start (p_lport p2)) &&
  (pr_stop (p_lport p1) =? pr_stop (p_lport p2)) &&
  (pr_start (p_rport p1) =? pr_start (p_rport p2)) &&
  (pr_stop (p_rport p1) =? pr_stop (p_rport p2)) &&
  Bool.eqb (p_is_ipv6 p1) (p_is_ipv6 p2) &&
  if p_is_ipv6 p2 then
    (ip46_w0 (ar_start (p_laddr p1)) =? ip46_w0 (ar_start (p_laddr p2))) &&
    (ip46_w1 (ar_start (p_laddr p1)) =? ip46_w1 (ar_start (p_laddr p2))) &&
    (ip46_w0 (ar_stop (p_laddr p1)) =? ip46_w0 (ar_stop (p_laddr p2))) &&
    (ip46_w1 (ar_stop (p_laddr p1)) =? ip46_w1 (ar_stop (p_laddr p2))) &&
    (ip46_w0 (ar_start (p_raddr p1)) =? ip46_w0 (ar_start (p_raddr p2))) &&
    (ip46_w1 (ar_start (p_raddr p1)) =? ip46_w1 (ar_start (p_raddr p2))) &&
    (ip46_w0 (ar_stop (p_raddr p1)) =? ip46_w0 (ar_stop (p_raddr p2))) &&
    (ip46_w1 (ar_stop (p_laddr p1)) =? ip46_w1 (ar_stop (p_laddr p2)))
  else
    (ip46_ip4 (ar_start (p_laddr p1)) =? ip46_ip4 (ar_start (p_laddr p2))) &&
    (ip46_ip4 (ar_stop (p_laddr p1)) =? ip46_ip4 (ar_stop (p_laddr p2))) &&
    (ip46_ip4 (ar_start (p_raddr p1)) =? ip46_ip4 (ar_start (p_raddr p2))) &&
    (ip46_ip4 (ar_stop (p_raddr p1)) =? ip46_ip4 (ar_stop (p_raddr p2))).

Definition ipsec_is_fp_enabled (im : ipsec_main_t) (spd : ipsec_spd_t) (policy : ipsec_policy_t) : bool :=
  (fp_spd_ipv4_out_is_enabled im && negb (ip4_out_lookup_hash_idx (fp_spd spd) =? INDEX_INVALID) &&
   bool_decide (p_type policy = IP4_OUTBOUND)) ||
  (fp_spd_ipv4_in_is_enabled im && negb (ip4_in_lookup_hash_idx (fp_spd spd) =? INDEX_INVALID) &&
   bool_decide (p_type policy = IP4_INBOUND_PROTECT \/ p_type policy = IP4_INBOUND_BYPASS \/
                p_type policy = IP4_INBOUND_DISCARD)) ||
  (fp_spd_ipv6_in_is_enabled im && negb (ip6_in_lookup_hash_idx (fp_spd spd) =? INDEX_INVALID) &&
   bool_decide (p_type policy = IP6_INBOUND_PROTECT \/ p_type policy = IP6_INBOUND_BYPASS \/
                p_type policy = IP6_INBOUND_DISCARD)) ||
  (fp_spd_ipv6_out_is_enabled im && negb (ip6_out_lookup_hash_idx (fp_spd spd) =? INDEX_INVALID) &&
   bool_decide (p_type policy = IP6_OUTBOUND)).

(** ** Masks of the fast path *)

(** All bits below the highest bit set in [x], and that bit, are cleared. *)
Definition mask_out_highest_set_bit_u16 (x : Z) : Z :=
  let x := Z.lor x (Z.shiftr x 8) in
  let x := Z.lor x (Z.shiftr x 4) in
  let x := Z.lor x (Z.shiftr x 2) in
  let x := Z.lor x (Z.shiftr x 1) in
  Z.ldiff (Z.ones 16) x.

Definition mask_out_highest_set_bit_u32 (x : Z) : Z :=
  let x := Z.lor x (Z.shiftr x 16) in
  let x := Z.lor x (Z.shiftr x 8) in
  let x := Z.lor x (Z.shiftr x 4) in
  let x := Z.lor x (Z.shiftr x 2) in
  let x := Z.lor x (Z.shiftr x 1) in
  Z.ldiff (Z.ones 32) x.

Definition mask_out_highest_set_bit_u64 (x : Z) : Z :=
  let x := Z.lor x (Z.shiftr x 32) in
  let x := Z.lor x (Z.shiftr x 16) in
  let x := Z.lor x (Z.shiftr x 8) in
  let x := Z.lor x (Z.shiftr x 4) in
  let x := Z.lor x (Z.shiftr x 2) in
  let x := Z.lor x (Z.shiftr x 1) in
  Z.ldiff (Z.ones 64) x.

(** All bytes [0xff]. *)
Definition tuple_ones : ipsec_fp_5tuple_t :=
  mk_tuple (Z.ones 64) (Z.ones 64) (Z.ones 64) (Z.ones 64) (Z.ones 32) 255 255 65535.

Definition tuple_zero : ipsec_fp_5tuple_t := mk_tuple 0 0 0 0 0 0 0 0.

Definition ipsec_fp_get_policy_ports_mask (policy : ipsec_policy_t) (mask : ipsec_fp_5tuple_t) : ipsec_fp_5tuple_t :=
  let mask :=
    if has_ports (p_protocol policy) then
      let lport := mask_out_highest_set_bit_u16 (Z.lxor (pr_start (p_lport policy)) (pr_stop (p_lport policy))) in
      let rport := mask_out_highest_set_bit_u16 (Z.lxor (pr_start (p_rport policy)) (pr_stop (p_rport policy))) in
      mask <| ft_ports := pack_ports lport rport |>
    else mask <| ft_ports := 0 |> in
  mask <| ft_protocol := if p_protocol policy =? IPSEC_POLICY_PROTOCOL_ANY then 0 else 255 |>.

(** An inbound protect policy of a tunnel association: its mask keeps whole addresses. *)
Definition is_tunnel_protect (im : ipsec_main_t) (policy : ipsec_policy_t) (t : ipsec_spd_policy_type_t) : bool :=
  bool_decide (p_type policy = t) && negb (p_sa_index policy =? INDEX_INVALID) &&
  match ipsec_sa_get im (p_sa_index policy) with
  | Some s => sa_is_set IPSEC_SA_FLAG_IS_TUNNEL s
  | None => false
  end.

(** The label [set_spi_mask]. *)
Definition fp_set_spi_mask (policy : ipsec_policy_t) (mask : ipsec_fp_5tuple_t) (inbound : bool)
    (protect : ipsec_spd_policy_type_t) : ipsec_fp_5tuple_t :=
  if inbound then
    let mask := if bool_decide (p_type policy = protect) then mask else mask <| ft_ports := 0 |> in
    mask <| ft_protocol := 0 |>
  else ipsec_fp_get_policy_ports_mask policy (mask <| ft_action := 0 |>).

(** The prefix mask of two 32-bit words in network order. *)
Definition net_mask_u32 (start stop : Z) : Z :=
  host_to_net_u32 (mask_out_highest_set_bit_u32 (net_to_host_u32 (Z.lxor start stop))).

Definition ipsec_fp_ip4_get_policy_mask (im : ipsec_main_t) (policy : ipsec_policy_t) (inbound : bool)
  : ipsec_fp_5tuple_t :=
  let mask := tuple_ones <| ft_w0 := 0 |> <| ft_w1 := 0 |> <| ft_w2 := 0 |> in
  let mask :=
    if inbound && is_tunnel_protect im policy IP4_INBOUND_PROTECT then mask
    else
      let plmask := net_mask_u32 (ip46_ip4 (ar_start (p_laddr policy))) (ip46_ip4 (ar_stop (p_laddr policy))) in
      let prmask := net_mask_u32 (ip46_ip4 (ar_start (p_raddr policy))) (ip46_ip4 (ar_stop (p_raddr policy))) in
      mask <| ft_w3 := pack_addrs plmask prmask |> in
  fp_set_spi_mask policy mask inbound IP4_INBOUND_PROTECT.

(** The prefix mask of two IPv6 addresses, a word at a time. *)
Definition net_mask_u64 (start stop : Z) : Z :=
  host_to_net_u64 (mask_out_highest_set_bit_u64 (net_to_host_u64 (Z.lxor start stop))).

Definition ip6_mask (start stop : ip46_address_t) : Z * Z :=
  let m0 := net_mask_u64 (ip46_w0 start) (ip46_w0 stop) in
  if negb (Z.land m0 (host_to_net_u64 1) =? 0)
  then (m0, net_mask_u64 (ip46_w1 start) (ip46_w1 stop))
  else (m0, 0).

Definition ipsec_fp_ip6_get_policy_mask (im : ipsec_main_t) (policy : ipsec_policy_t) (inbound : bool)
  : ipsec_fp_5tuple_t :=
  let mask :=
    if inbound && is_tunnel_protect im policy IP6_INBOUND_PROTECT then tuple_ones
    else
      let '(l0, l1) := ip6_mask (ar_start (p_laddr policy)) (ar_stop (p_laddr policy)) in
      let '(r0, r1) := ip6_mask (ar_start (p_raddr policy)) (ar_stop (p_raddr policy)) in
      tuple_ones <| ft_w0 := l0 |> <| ft_w1 := l1 |> <| ft_w2 := r0 |> <| ft_w3 := r1 |> in
  fp_set_spi_mask policy mask inbound IP6_INBOUND_PROTECT.

(** The addresses of a tuple. *)
Definition tuple_set_addrs (is_ipv6 : bool) (l r : ip46_address_t) (t : ipsec_fp_5tuple_t) : ipsec_fp_5tuple_t :=
  if is_ipv6 then
    t <| ft_w0 := ip46_w0 l |> <| ft_w1 := ip46_w1 l |> <| ft_w2 := ip46_w0 r |> <| ft_w3 := ip46_w1 r |>
  else t <| ft_w3 := pack_addrs (ip46_ip4 l) (ip46_ip4 r) |>.

Definition ipsec_fp_get_policy_5tuple (im : ipsec_main_t) (policy : ipsec_policy_t) (inbound : bool)
  : ipsec_fp_5tuple_t :=
  let tuple := tuple_set_addrs (p_is_ipv6 policy) (ar_start (p_laddr policy)) (ar_start (p_raddr policy))
                 (tuple_zero <| ft_is_ipv6 := Z.b2z (p_is_ipv6 policy) |>) in
  if inbound then
    let tuple :=
      if bool_decide (p_type policy = IP4_INBOUND_PROTECT \/ p_type policy = IP6_INBOUND_PROTECT) &&
         negb (p_sa_index policy =? INDEX_INVALID) then
        match ipsec_sa_get im (p_sa_index policy) with
        | None => tuple
        | Some s =>
            let tuple := tuple <| ft_ports := sa_spi (sa_replay s) |> in
            if sa_is_set IPSEC_SA_FLAG_IS_TUNNEL s then
              tuple_set_addrs (p_is_ipv6 policy) (ip_addr_46 (t_dst (sa_tunnel s)))
                (ip_addr_46 (t_src (sa_tunnel s))) tuple
            else tuple
        end
      else tuple <| ft_ports := INDEX_INVALID |> in
    tuple <| ft_action := policy_type_num (p_type policy) |>
  else
    tuple <| ft_protocol := p_protocol policy |>
          <| ft_ports := pack_ports (pr_start (p_lport policy)) (pr_start (p_rport policy)) |>.

Definition fill_ip4_hash_policy_kv (match_ mask : ipsec_fp_5tuple_t) : fp4_key :=
  (Z.land (ft_w3 match_) (ft_w3 mask), Z.land (ft_w4 match_) (ft_w4 mask)).

Definition fill_ip6_hash_policy_kv (match_ mask : ipsec_fp_5tuple_t) : fp6_key :=
  (Z.land (ft_w0 match_) (ft_w0 mask), Z.land (ft_w1 match_) (ft_w1 mask),
   Z.land (ft_w2 match_) (ft_w2 mask), Z.land (ft_w3 match_) (ft_w3 mask),
   Z.land (ft_w4 match_) (ft_w4 mask)).

(** ** Vectors of policies *)

(** The position at which a policy of priority [prio] goes: before the first policy
    of the same or a lower priority. *)
Fixpoint priority_insert (prio_of : Z -> Z) (prio idx : Z) (ids : list Z) : list Z :=
  match ids with
  | [] => [idx]
  | j :: ids' => if prio_of j <=? prio then idx :: j :: ids' else j :: priority_insert prio_of prio idx ids'
  end.

Definition policy_zero : ipsec_policy_t :=
  let a := mk_arange (mk_ip46 0 0) (mk_ip46 0 0) in
  mk_policy 0 0 IP4_OUTBOUND false a a 0 (mk_prange 0 0) (mk_prange 0 0) ACTION_BYPASS 0 0 0.

(** Policy [i] of the pool. *)
Definition policy_at (im : ipsec_main_t) (i : Z) : ipsec_policy_t :=
  default policy_zero (pool_elt_at_index (policies im) i).

(** ** Mask types *)

Definition ipsec_fp_release_mask_type (im : ipsec_main_t) (mask_type_index : Z) : ipsec_main_t :=
  match pool_elt_at_index (fp_mask_types im) mask_type_index with
  | None => im
  | Some mte =>
      let mte := mte <| mte_refcount := u32 (mte_refcount mte - 1) |> in
      let p := pool_write (fp_mask_types im) mask_type_index mte in
      im <| fp_mask_types := if mte_refcount mte =? 0 then pool_put_index p mask_type_index else p |>
  end.

Definition find_mask_type_index (im : ipsec_main_t) (mask : ipsec_fp_5tuple_t) : Z :=
  match filter (fun '(_, mte) => mte_mask mte = mask) (pool_foreach (fp_mask_types im)) with
  | (i, _) :: _ => i
  | [] => INDEX_INVALID
  end.

(** ** The two families of fast-path tables *)

(** What the IPv4 and the IPv6 code differ in: the pool of tables, the mask, the key
    and the index of the table of an SPD. *)
Record fp_family (K : Type) `{Countable K} := mk_fp_family {
  ff_tables : ipsec_main_t -> pool (gmap K (list Z));
  ff_set_tables : ipsec_main_t -> pool (gmap K (list Z)) -> ipsec_main_t;
  ff_mask : ipsec_main_t -> ipsec_policy_t -> bool -> ipsec_fp_5tuple_t;
  ff_key : ipsec_fp_5tuple_t -> ipsec_fp_5tuple_t -> K;
  ff_hash_idx : ipsec_spd_fp_t -> bool -> Z
}.
Arguments mk_fp_family {K _ _} _ _ _ _ _.
Arguments ff_tables {K _ _} _ _.
Arguments ff_set_tables {K _ _} _ _ _.
Arguments ff_mask {K _ _} _ _ _ _.
Arguments ff_key {K _ _} _ _ _.
Arguments ff_hash_idx {K _ _} _ _ _.

Definition fp_ip4 : fp_family fp4_key :=
  mk_fp_family fp_ip4_lookup_hashes (fun im p => im <| fp_ip4_lookup_hashes := p |>)
    ipsec_fp_ip4_get_policy_mask fill_ip4_hash_policy_kv
    (fun fp inbound => if inbound : bool then ip4_in_lookup_hash_idx fp else ip4_out_lookup_hash_idx fp).

Definition fp_ip6 : fp_family fp6_key :=
  mk_fp_family fp_ip6_lookup_hashes (fun im p => im <| fp_ip6_lookup_hashes := p |>)
    ipsec_fp_ip6_get_policy_mask fill_ip6_hash_policy_kv
    (fun fp inbound => if inbound : bool then ip6_in_lookup_hash_idx fp else ip6_out_lookup_hash_idx fp).

Section Family.
Context {K : Type} `{Countable K} (F : fp_family K).

Definition fp_table (im : ipsec_main_t) (idx : Z) : gmap K (list Z) :=
  default ∅ (pool_elt_at_index (ff_tables F im) idx).

Definition fp_set_table (im : ipsec_main_t) (idx : Z) (t : gmap K (list Z)) : ipsec_main_t :=
  ff_set_tables F im (pool_write (ff_tables F im) idx t).

(** The reference of a policy type of an SPD on a mask type. *)
Definition mask_ids_add (ids : list ipsec_fp_mask_id_t) (mask_index : Z) : list ipsec_fp_mask_id_t :=
  match vec_search (fun m => mask_type_idx m =? mask_index) ids with
  | None => ids ++ [mk_mask_id mask_index 1]
  | Some k => alter (fun m => m <| mi_refcount := u32 (mi_refcount m + 1) |>) k ids
  end.

Definition mask_ids_del (ids : list ipsec_fp_mask_id_t) (mask_index : Z) : list ipsec_fp_mask_id_t :=
  match vec_search (fun m => mask_type_idx m =? mask_index) ids with
  | None => ids
  | Some k =>
      match ids !! k with
      | None => ids
      | Some m =>
          if mi_refcount m =? 1 then vec_del1 ids k
          else <[k := m <| mi_refcount := u32 (mi_refcount m - 1) |>]> ids
      end
  end.

(** The mask type of [mask]: an entry that has it, or a new one. *)
Definition fp_get_mask_type (im : ipsec_main_t) (mask : ipsec_fp_5tuple_t) : ipsec_main_t * Z :=
  let i := find_mask_type_index im mask in
  if i =? INDEX_INVALID then
    let '(p, i) := pool_get (mk_mte tuple_zero 0) (fp_mask_types im) in
    let mte := default (mk_mte tuple_zero 0) (pool_elt_at_index p i) in
    (im <| fp_mask_types := pool_write p i (mte <| mte_refcount := 0 |>) |>, i)
  else (im, i).

(** One more reference to a mask type; the first one sets the mask. *)
Definition fp_ref_mask_type (im : ipsec_main_t) (mask_index : Z) (mask : ipsec_fp_5tuple_t) : ipsec_main_t :=
  match pool_elt_at_index (fp_mask_types im) mask_index with
  | None => im
  | Some mte =>
      let mte := if mte_refcount mte =? 0 then mte <| mte_mask := mask |> else mte in
      im <| fp_mask_types := pool_write (fp_mask_types im) mask_index
                               (mte <| mte_refcount := u32 (mte_refcount mte + 1) |>) |>
  end.

(** [ipsec_fp_ip4_add_policy], [ipsec_fp_ip6_add_policy]: the new state, the SPD's
    fast path and the index of the policy. *)
Definition fp_add_policy (im : ipsec_main_t) (fp : ipsec_spd_fp_t) (policy : ipsec_policy_t)
  : ipsec_main_t * ipsec_spd_fp_t * Z :=
  let inbound := ipsec_is_policy_inbound policy in
  let tbl := ff_hash_idx F fp inbound in
  let mask := ff_mask F im policy inbound in
  let '(pols, policy_index) := pool_get policy_zero (policies im) in
  let im := im <| policies := pols |> in
  let '(im, mask_index) := fp_get_mask_type im mask in
  let policy := policy <| p_fp_mask_type_id := mask_index |> in
  let policy_5tuple := ipsec_fp_get_policy_5tuple im policy inbound in
  let key := ff_key F policy_5tuple mask in
  let ids :=
    match fp_table im tbl !! key with
    | None => [policy_index]
    | Some ids => priority_insert (fun i => p_priority (policy_at im i)) (p_priority policy) policy_index ids
    end in
  let im := fp_set_table im tbl (<[key := ids]> (fp_table im tbl)) in
  let fp := fp <| fp_mask_ids := set_type (fp_mask_ids fp) (p_type policy)
                                   (mask_ids_add (fp_mask_ids fp (p_type policy)) mask_index) |> in
  let im := fp_ref_mask_type im mask_index mask in
  let im := im <| policies := pool_write (policies im) policy_index policy |> in
  (im, fp, policy_index).

(** [ipsec_fp_ip4_del_policy], [ipsec_fp_ip6_del_policy]; [None] is -1. *)
Definition fp_del_policy (im : ipsec_main_t) (fp : ipsec_spd_fp_t) (policy : ipsec_policy_t)
  : option (ipsec_main_t * ipsec_spd_fp_t) :=
  let inbound := ipsec_is_policy_inbound policy in
  let tbl := ff_hash_idx F fp inbound in
  let mask := ff_mask F im policy inbound in
  let policy_5tuple := ipsec_fp_get_policy_5tuple im policy inbound in
  let key := ff_key F policy_5tuple mask in
  match fp_table im tbl !! key with
  | None => None
  | Some ids =>
      match vec_search (fun i => ipsec_policy_is_equal (policy_at im i) policy) ids with
      | None => None
      | Some ii =>
          let id := nth ii ids 0 in
          let vp := policy_at im id in
          let t := fp_table im tbl in
          let t := if (length ids =? 1)%nat then delete key t else <[key := vec_delete ids ii]> t in
          let im := fp_set_table im tbl t in
          let fp := fp <| fp_mask_ids := set_type (fp_mask_ids fp) (p_type policy)
                            (mask_ids_del (fp_mask_ids fp (p_type policy)) (p_fp_mask_type_id vp)) |> in
          let im := ipsec_fp_release_mask_type im (p_fp_mask_type_id vp) in
          let im := im <| sad := ipsec_sa_unlock (sad im) (p_sa_index vp) |> in
          Some (im <| policies := pool_put_index (policies im) id |>, fp)
      end
  end.

End Family.

Definition ipsec_fp_ip4_add_policy := fp_add_policy fp_ip4.
Definition ipsec_fp_ip6_add_policy := fp_add_policy fp_ip6.
Definition ipsec_fp_ip4_del_policy := fp_del_policy fp_ip4.
Definition ipsec_fp_ip6_del_policy := fp_del_policy fp_ip6.

Definition ipsec_fp_add_del_policy (im : ipsec_main_t) (fp : ipsec_spd_fp_t) (policy : ipsec_policy_t) (is_add : bool)
  : option (ipsec_main_t * ipsec_spd_fp_t * Z) :=
  if is_add then
    Some (if p_is_ipv6 policy then ipsec_fp_ip6_add_policy im fp policy else ipsec_fp_ip4_add_policy im fp policy)
  else
    (fun '(im, fp) => (im, fp, 0)) <$>
      (if p_is_ipv6 policy then ipsec_fp_ip6_del_policy im fp policy else ipsec_fp_ip4_del_policy im fp policy).

(** ** Policies *)

(** All entries of a flow cache become stale: the epoch is incremented, and when it
    wraps the table is cleared. *)
Definition flow_cache_invalidate (c : flow_cache) : flow_cache :=
  let c := if fc_epoch c =? 2 ^ 32 - 1 then c <| fc_tbl := map (fun _ => kv_zero) (fc_tbl c) |> else c in
  c <| fc_epoch := u32 (fc_epoch c + 1) |> <| fc_entries := 0 |>.

Definition invalidate_flow_caches (im : ipsec_main_t) (policy : ipsec_policy_t) : ipsec_main_t :=
  let im :=
    if fc_flag (out_cache im) && negb (p_is_ipv6 policy) && bool_decide (p_type policy = IP4_OUTBOUND)
    then im <| out_cache := flow_cache_invalidate (out_cache im) |> else im in
  if bool_decide (p_type policy = IP4_INBOUND_PROTECT \/ p_type policy = IP4_INBOUND_BYPASS \/
                  p_type policy = IP4_INBOUND_DISCARD) &&
     fc_flag (in_cache im) && negb (p_is_ipv6 policy)
  then im <| in_cache := flow_cache_invalidate (in_cache im) |> else im.

(** Insertion of a policy in the vector of its type. *)
Definition spd_insert_policy (im : ipsec_main_t) (spd_index : Z) (spd : ipsec_spd_t) (policy : ipsec_policy_t)
  : ipsec_main_t * Z :=
  let '(pols, policy_index) := pool_get policy_zero (policies im) in
  let im := im <| policies := pool_write pols policy_index policy |> in
  let t := p_type policy in
  let ids := priority_insert (fun i => p_priority (policy_at im i)) (p_priority policy) policy_index
               (spd_policies spd t) in
  (im <| spds := pool_write (spds im) spd_index (spd <| spd_policies := set_type (spd_policies spd) t ids |>) |>,
   policy_index).

(** Removal of the first policy equal to [policy], if any. *)
Definition spd_remove_policy (im : ipsec_main_t) (spd_index : Z) (spd : ipsec_spd_t) (policy : ipsec_policy_t)
  : ipsec_main_t :=
  let t := p_type policy in
  match vec_search (fun i => ipsec_policy_is_equal (policy_at im i) policy) (spd_policies spd t) with
  | None => im
  | Some ii =>
      let id := nth ii (spd_policies spd t) 0 in
      let spd := spd <| spd_policies := set_type (spd_policies spd) t (vec_delete (spd_policies spd t) ii) |> in
      im <| spds := pool_write (spds im) spd_index spd |>
         <| sad := ipsec_sa_unlock (sad im) (p_sa_index (policy_at im id)) |>
         <| policies := pool_put_index (policies im) id |>
  end.

(** The association of a protect policy. *)
Definition policy_lock_sa (im : ipsec_main_t) (policy : ipsec_policy_t) : option (ipsec_main_t * ipsec_policy_t) :=
  match p_policy policy with
  | ACTION_PROTECT =>
      let '(s, sa_index) := ipsec_sa_find_and_lock (sad im) (p_sa_id policy) in
      if sa_index =? INDEX_INVALID then None
      else Some (im <| sad := s |>, policy <| p_sa_index := sa_index |>)
  | _ => Some (im, policy <| p_sa_index := INDEX_INVALID |>)
  end.

(** [ipsec_add_del_policy]: the state, and the statistics index on success. *)
Definition ipsec_add_del_policy (im : ipsec_main_t) (policy : ipsec_policy_t) (is_add : bool)
  : ipsec_main_t * (vnet_api_error_t + Z) :=
  match spd_index_by_spd_id im !! p_id policy with
  | None => (im, inl SYSCALL_ERROR_1)
  | Some spd_index =>
      match pool_elt_at_index (spds im) spd_index with
      | None => (im, inl SYSCALL_ERROR_1)
      | Some spd =>
          let im := invalidate_flow_caches im policy in
          let set_fp im fp := im <| spds := pool_write (spds im) spd_index (spd <| fp_spd := fp |>) |> in
          if is_add then
            match policy_lock_sa im policy with
            | None => (im, inl SYSCALL_ERROR_1)
            | Some (im, policy) =>
                if ipsec_is_fp_enabled im spd policy then
                  match ipsec_fp_add_del_policy im (fp_spd spd) policy true with
                  | None => (im, inl UNSPECIFIED)
                  | Some (im, fp, stat_index) => (set_fp im fp, inr stat_index)
                  end
                else
                  let '(im, stat_index) := spd_insert_policy im spd_index spd policy in
                  (im, inr stat_index)
            end
          else if ipsec_is_fp_enabled im spd policy then
            match policy_lock_sa im policy with
            | None => (im, inl SYSCALL_ERROR_1)
            | Some (im, policy) =>
                let im :=
                  match p_policy policy with
                  | ACTION_PROTECT => im <| sad := fst (ipsec_sa_unlock_id (sad im) (p_sa_id policy)) |>
                  | _ => im
                  end in
                match ipsec_fp_add_del_policy im (fp_spd spd) policy false with
                | None => (im, inl UNSPECIFIED)
                | Some (im, fp, _) => (set_fp im fp, inr 0)
                end
            end
          else (spd_remove_policy im spd_index spd policy, inr 0)
      end
  end.

(** ** SPDs *)

Definition ipsec_set_interface_spd (im : ipsec_main_t) (sw_if_index id : Z) (is_add : bool)
  : ipsec_main_t * option vnet_api_error_t :=
  match spd_index_by_spd_id im !! id with
  | None => (im, Some SYSCALL_ERROR_1)
  | Some spd_index =>
      match spd_index_by_sw_if_index im !! sw_if_index, is_add with
      | Some _, true => (im, Some SYSCALL_ERROR_2)
      | _, true =>
          (im <| spd_index_by_sw_if_index := <[sw_if_index := spd_index]> (spd_index_by_sw_if_index im) |>
              <| if_features := <[sw_if_index := spd_index]> (if_features im) |>, None)
      | _, false =>
          (im <| spd_index_by_sw_if_index := delete sw_if_index (spd_index_by_sw_if_index im) |>
              <| if_features := delete sw_if_index (if_features im) |>, None)
      end
  end.

(** A lookup table for a new SPD, when the family is enabled and the pool of tables
    has room. *)
Definition spd_new_table {K} `{Countable K} (enabled : bool) (p : pool (gmap K (list Z))) (max : Z)
  : pool (gmap K (list Z)) * Z :=
  if enabled && (pool_elts p <? max) then
    let '(p, i) := pool_get ∅ p in (pool_write p i ∅, i)
  else (p, INDEX_INVALID).

Definition spd_free_table {K} `{Countable K} (enabled : bool) (p : pool (gmap K (list Z))) (idx : Z)
  : pool (gmap K (list Z)) :=
  if enabled && negb (idx =? INDEX_INVALID) then pool_put_index (pool_write p idx ∅) idx else p.

Definition ipsec_del_spd (im : ipsec_main_t) (id spd_index : Z) (spd : ipsec_spd_t) : ipsec_main_t :=
  let im := fold_left (fun im '(k, v) => if v =? spd_index then fst (ipsec_set_interface_spd im k id false) else im)
              (map_to_list (spd_index_by_sw_if_index im)) im in
  let im := im <| spd_index_by_spd_id := delete id (spd_index_by_spd_id im) |> in
  let spd := spd <| spd_policies := fun _ => [] |> in
  let fp := fp_spd spd in
  let h4 := spd_free_table (fp_spd_ipv4_out_is_enabled im) (fp_ip4_lookup_hashes im) (ip4_out_lookup_hash_idx fp) in
  let h4 := spd_free_table (fp_spd_ipv4_in_is_enabled im) h4 (ip4_in_lookup_hash_idx fp) in
  let h6 := spd_free_table (fp_spd_ipv6_out_is_enabled im) (fp_ip6_lookup_hashes im) (ip6_out_lookup_hash_idx fp) in
  let h6 := spd_free_table (fp_spd_ipv6_in_is_enabled im) h6 (ip6_in_lookup_hash_idx fp) in
  im <| fp_ip4_lookup_hashes := h4 |> <| fp_ip6_lookup_hashes := h6 |>
     <| spds := pool_put_index (pool_write (spds im) spd_index spd) spd_index |>.

Definition ipsec_new_spd (im : ipsec_main_t) (id : Z) : ipsec_main_t :=
  let spd0 := mk_spd 0 (fun _ => []) (mk_spd_fp (fun _ => []) 0 0 0 0) in
  let '(p, spd_index) := pool_get spd0 (spds im) in
  let '(h4, o4) := spd_new_table (fp_spd_ipv4_out_is_enabled im) (fp_ip4_lookup_hashes im) (fp_ip4_hashes_max im) in
  let '(h4, i4) := spd_new_table (fp_spd_ipv4_in_is_enabled im) h4 (fp_ip4_hashes_max im) in
  let '(h6, o6) := spd_new_table (fp_spd_ipv6_out_is_enabled im) (fp_ip6_lookup_hashes im) (fp_ip6_hashes_max im) in
  let '(h6, i6) := spd_new_table (fp_spd_ipv6_in_is_enabled im) h6 (fp_ip6_hashes_max im) in
  let spd := mk_spd id (fun _ => []) (mk_spd_fp (fun _ => []) o6 o4 i6 i4) in
  im <| spd_index_by_spd_id := <[id := spd_index]> (spd_index_by_spd_id im) |>
     <| spds := pool_write p spd_index spd |>
     <| fp_ip4_lookup_hashes := h4 |> <| fp_ip6_lookup_hashes := h6 |>.

Definition ipsec_add_del_spd (im : ipsec_main_t) (id : Z) (is_add : bool) : ipsec_main_t * option vnet_api_error_t :=
  match spd_index_by_spd_id im !! id, is_add with
  | Some _, true => (im, Some ENTRY_ALREADY_EXISTS)
  | None, false => (im, Some NO_SUCH_ENTRY)
  | Some spd_index, false =>
      match pool_elt_at_index (spds im) spd_index with
      | None => (im, Some INVALID_VALUE)
      | Some spd => (ipsec_del_spd im id spd_index spd, None)
      end
  | None, true => (ipsec_new_spd im id, None)
  end.
