(* ===== verification/SpdLookup.v ===== *)
(** * Security policy databases: lookup

    Which policy applies to a packet: the fast path of
    [vnet/ipsec/ipsec_spd_fp_lookup.h], the flow caches and the linear searches of
    [ipsec_output.h] and [ipsec_input.c].

    A pointer to a policy is modelled by its index in the pool; a null pointer is
    [None].  Tuples that the code keeps on its stack uninitialised are arguments. *)

From stdpp Require Import gmap.
From S2P Require Import Prelude NetTypes Pool Crypto IpsecSa Sad SpdTypes SpdPolicy.

(** ** Rules *)

Definition in_range (x lo hi : Z) : bool := negb (x <? lo) && negb (hi <? x).

(** [ip6_addr_match_range]. *)
Definition ip6_addr_match_range (a la ua : ip46_address_t) : bool :=
  match ip6_address_compare a la with Lt => false | _ => true end &&
  match ip6_address_compare a ua with Gt => false | _ => true end.

(** The conditions of the loops over outbound policies. *)
Definition proto_match (p : ipsec_policy_t) (pr : Z) : bool :=
  (p_protocol p =? IPSEC_POLICY_PROTOCOL_ANY) || (p_protocol p =? pr).

Definition policy_ports_match (p : ipsec_policy_t) (pr lp rp : Z) : bool :=
  negb (has_ports pr) ||
  (in_range lp (pr_start (p_lport p)) (pr_stop (p_lport p)) &&
   in_range rp (pr_start (p_rport p)) (pr_stop (p_rport p))).

Definition addr4_match (p : ipsec_policy_t) (la ra : Z) : bool :=
  in_range ra (ip4_host (ar_start (p_raddr p))) (ip4_host (ar_stop (p_raddr p))) &&
  in_range la (ip4_host (ar_start (p_laddr p))) (ip4_host (ar_stop (p_laddr p))).

Definition addr6_match (p : ipsec_policy_t) (la ra : ip46_address_t) : bool :=
  ip6_addr_match_range ra (ar_start (p_raddr p)) (ar_stop (p_raddr p)) &&
  ip6_addr_match_range la (ar_start (p_laddr p)) (ar_stop (p_laddr p)).

(** An outbound IPv4 policy applies to the packet (addresses and ports in host order). *)
Definition out4_rule (p : ipsec_policy_t) (pr la ra lp rp : Z) : bool :=
  proto_match p pr && addr4_match p la ra && policy_ports_match p pr lp rp.

Definition out6_rule (p : ipsec_policy_t) (la ra : ip46_address_t) (lp rp pr : Z) : bool :=
  proto_match p pr && addr6_match p la ra && policy_ports_match p pr lp rp.

(** An inbound protect policy applies to an IPv4 packet of the given SPI. *)
Definition in4_protect_rule (im : ipsec_main_t) (p : ipsec_policy_t) (sa da spi : Z) : bool :=
  match ipsec_sa_get im (p_sa_index p) with
  | None => false
  | Some s =>
      (spi =? sa_spi (sa_replay s)) &&
      if sa_is_set IPSEC_SA_FLAG_IS_TUNNEL s then
        (da =? ip4_host (ip_addr_46 (t_dst (sa_tunnel s)))) && (sa =? ip4_host (ip_addr_46 (t_src (sa_tunnel s))))
      else addr4_match p da sa
  end.

Definition in6_protect_rule (im : ipsec_main_t) (p : ipsec_policy_t) (sa da : ip46_address_t) (spi : Z) : bool :=
  match ipsec_sa_get im (p_sa_index p) with
  | None => false
  | Some s =>
      (spi =? sa_spi (sa_replay s)) &&
      if sa_is_set IPSEC_SA_FLAG_IS_TUNNEL s then
        bool_decide (sa = ip_addr_46 (t_src (sa_tunnel s))) && bool_decide (da = ip_addr_46 (t_dst (sa_tunnel s)))
      else addr6_match p da sa
  end.

(** ** Fast path *)

(** [single_rule_out_match_5tuple]. *)
Definition single_rule_out_match_5tuple (policy : ipsec_policy_t) (match_ : ipsec_fp_5tuple_t) : bool :=
  if negb (Z.b2z (p_is_ipv6 policy) =? ft_is_ipv6 match_) then false
  else if negb (proto_match policy (ft_protocol match_)) then false
  else
    (if p_is_ipv6 policy then
       negb (bool_decide (ip6_address_compare (ft_ip6_laddr match_) (ar_start (p_laddr policy)) = Lt)) &&
       negb (bool_decide (ip6_address_compare (ar_stop (p_laddr policy)) (ft_ip6_laddr match_) = Lt)) &&
       negb (bool_decide (ip6_address_compare (ft_ip6_raddr match_) (ar_start (p_raddr policy)) = Lt)) &&
       negb (bool_decide (ip6_address_compare (ar_stop (p_raddr policy)) (ft_ip6_raddr match_) = Lt))
     else
       in_range (net_to_host_u32 (ft_laddr match_)) (ip4_host (ar_start (p_laddr policy)))
         (ip4_host (ar_stop (p_laddr policy))) &&
       in_range (net_to_host_u32 (ft_raddr match_)) (ip4_host (ar_start (p_raddr policy)))
         (ip4_host (ar_stop (p_raddr policy)))) &&
    policy_ports_match policy (ft_protocol match_) (ft_lport match_) (ft_rport match_).

(** [single_rule_in_match_5tuple]: of both families it reads the IPv4 members. *)
Definition single_rule_in_match_5tuple (im : ipsec_main_t) (policy : ipsec_policy_t) (match_ : ipsec_fp_5tuple_t) : bool :=
  let da := net_to_host_u32 (ft_laddr match_) in
  let sa := net_to_host_u32 (ft_raddr match_) in
  match p_policy policy with
  | ACTION_PROTECT =>
      match ipsec_sa_get im (p_sa_index policy) with
      | None => false
      | Some s =>
          (ft_spi match_ =? sa_spi (sa_replay s)) &&
          if sa_is_set IPSEC_SA_FLAG_IS_TUNNEL s then
            (da =? ip4_host (ip_addr_46 (t_dst (sa_tunnel s)))) && (sa =? ip4_host (ip_addr_46 (t_src (sa_tunnel s))))
          else true
      end
  | _ => addr4_match policy da sa
  end.

(** Mask type [i] of the pool. *)
Definition mask_type_at (im : ipsec_main_t) (i : Z) : ipsec_fp_mask_type_entry_t :=
  default (mk_mte tuple_zero 0) (pool_elt_at_index (fp_mask_types im) i).

(** The best policy so far and its priority, as a [u32]; a policy replaces it when its
    priority, converted to [u32], is greater. *)
Record fp_best := mk_fp_best { last_priority : Z; best_policy : option Z }.

Definition fp_update (im : ipsec_main_t) (best : fp_best) (id : Z) : fp_best :=
  let prio := u32 (p_priority (policy_at im id)) in
  if last_priority best <? prio then mk_fp_best prio (Some id) else best.

Section FpMatch.
Context {K : Type} `{Countable K} (F : fp_family K).

(** The lookup with one mask: the first policy of the bucket that matches. *)
Definition fp_match_mask (im : ipsec_main_t) (tbl : gmap K (list Z)) (rule : ipsec_policy_t -> bool)
    (match_ mask : ipsec_fp_5tuple_t) (best : fp_best) : fp_best :=
  match tbl !! ff_key F match_ mask with
  | None => best
  | Some ids =>
      if (1 <? length ids)%nat then
        match List.find (fun id => rule (policy_at im id)) ids with
        | None => best
        | Some id => fp_update im best id
        end
      else
        match ids with
        | [] => best
        | id :: _ => if rule (policy_at im id) then fp_update im best id else best
        end
  end.

(** One packet: the loop over the mask types of a policy type.  Inbound lookups skip the
    masks without action, outbound ones the others. *)
Definition fp_match_1 (im : ipsec_main_t) (tbl : gmap K (list Z)) (mask_type_ids : list ipsec_fp_mask_id_t)
    (inbound : bool) (rule : ipsec_policy_t -> ipsec_fp_5tuple_t -> bool) (match_ : ipsec_fp_5tuple_t) : option Z :=
  best_policy
    (fold_left (fun best mti =>
       let mask := mte_mask (mask_type_at im (mask_type_idx mti)) in
       if Bool.eqb (ft_action mask =? 0) inbound then best
       else fp_match_mask im tbl (fun p => rule p match_) match_ mask best)
     mask_type_ids (mk_fp_best 0 None)).

(** A burst: the policies and how many were found. *)
Definition fp_match_n (im : ipsec_main_t) (tbl : gmap K (list Z)) (mask_type_ids : list ipsec_fp_mask_id_t)
    (inbound : bool) (rule : ipsec_policy_t -> ipsec_fp_5tuple_t -> bool) (tuples : list ipsec_fp_5tuple_t)
  : list (option Z) * Z :=
  let ps := map (fp_match_1 im tbl mask_type_ids inbound rule) tuples in
  (ps, Z.of_nat (length (filter is_Some ps))).

End FpMatch.

(** The policy type of an [action] byte. *)
Definition policy_type_of_num (n : Z) : option ipsec_spd_policy_type_t :=
  List.find (fun t => policy_type_num t =? n)
    [IP4_OUTBOUND; IP6_OUTBOUND; IP4_INBOUND_PROTECT; IP6_INBOUND_PROTECT; IP4_INBOUND_BYPASS; IP6_INBOUND_BYPASS;
     IP4_INBOUND_DISCARD; IP6_INBOUND_DISCARD].

(** The mask types of a burst are those of the action of its first tuple. *)
Definition in_mask_type_ids (fp : ipsec_spd_fp_t) (tuples : list ipsec_fp_5tuple_t) : list ipsec_fp_mask_id_t :=
  match tuples with
  | [] => []
  | t :: _ => match policy_type_of_num (ft_action t) with Some ty => fp_mask_ids fp ty | None => [] end
  end.

Definition ipsec_fp_in_ip6_policy_match_n im (fp : ipsec_spd_fp_t) (tuples : list ipsec_fp_5tuple_t) :=
  fp_match_n fp_ip6 im (fp_table fp_ip6 im (ip6_in_lookup_hash_idx fp)) (in_mask_type_ids fp tuples) true
    (single_rule_in_match_5tuple im) tuples.

Definition ipsec_fp_in_ip4_policy_match_n im (fp : ipsec_spd_fp_t) (tuples : list ipsec_fp_5tuple_t) :=
  fp_match_n fp_ip4 im (fp_table fp_ip4 im (ip4_in_lookup_hash_idx fp)) (in_mask_type_ids fp tuples) true
    (single_rule_in_match_5tuple im) tuples.

Definition ipsec_fp_in_policy_match_n im (fp : ipsec_spd_fp_t) (is_ipv6 : bool) (tuples : list ipsec_fp_5tuple_t) :=
  if is_ipv6 then ipsec_fp_in_ip6_policy_match_n im fp tuples else ipsec_fp_in_ip4_policy_match_n im fp tuples.

Definition ipsec_fp_out_ip6_policy_match_n im (fp : ipsec_spd_fp_t) (tuples : list ipsec_fp_5tuple_t) :=
  fp_match_n fp_ip6 im (fp_table fp_ip6 im (ip6_out_lookup_hash_idx fp)) (fp_mask_ids fp IP6_OUTBOUND) false
    single_rule_out_match_5tuple tuples.

Definition ipsec_fp_out_ip4_policy_match_n im (fp : ipsec_spd_fp_t) (tuples : list ipsec_fp_5tuple_t) :=
  fp_match_n fp_ip4 im (fp_table fp_ip4 im (ip4_out_lookup_hash_idx fp)) (fp_mask_ids fp IP4_OUTBOUND) false
    single_rule_out_match_5tuple tuples.

Definition ipsec_fp_out_policy_match_n im (fp : ipsec_spd_fp_t) (is_ipv6 : bool) (tuples : list ipsec_fp_5tuple_t) :=
  if is_ipv6 then ipsec_fp_out_ip6_policy_match_n im fp tuples else ipsec_fp_out_ip4_policy_match_n im fp tuples.

(** The tuples of packets; [tuple] is what the variable held before. *)
Definition ipsec_fp_5tuple_from_ip4_range (tuple : ipsec_fp_5tuple_t) (la ra lp rp pr : Z) : ipsec_fp_5tuple_t :=
  tuple <| ft_w0 := 0 |> <| ft_w1 := 0 |> <| ft_w2 := 0 |>
        <| ft_w3 := pack_addrs (host_to_net_u32 la) (host_to_net_u32 ra) |>
        <| ft_ports := if has_ports pr then pack_ports lp rp else 0 |>
        <| ft_protocol := pr |> <| ft_is_ipv6 := 0 |>.

Definition ipsec_fp_5tuple_from_ip6_range (tuple : ipsec_fp_5tuple_t) (la ra : ip46_address_t) (lp rp pr : Z)
  : ipsec_fp_5tuple_t :=
  tuple <| ft_w0 := ip46_w0 la |> <| ft_w1 := ip46_w1 la |> <| ft_w2 := ip46_w0 ra |> <| ft_w3 := ip46_w1 ra |>
        <| ft_ports := pack_ports lp rp |> <| ft_protocol := pr |> <| ft_is_ipv6 := 1 |>.

(** Addresses in network order. *)
Definition ipsec_fp_in_5tuple_from_ip4_range (tuple : ipsec_fp_5tuple_t) (sa da spi action : Z) : ipsec_fp_5tuple_t :=
  tuple <| ft_w0 := 0 |> <| ft_w1 := 0 |> <| ft_w2 := 0 |> <| ft_w3 := pack_addrs da sa |>
        <| ft_ports := spi |> <| ft_action := action |> <| ft_is_ipv6 := 0 |>.

Definition ipsec_fp_in_5tuple_from_ip6_range (tuple : ipsec_fp_5tuple_t) (sa da : ip46_address_t) (spi action : Z)
  : ipsec_fp_5tuple_t :=
  tuple <| ft_w0 := ip46_w0 da |> <| ft_w1 := ip46_w1 da |> <| ft_w2 := ip46_w0 sa |> <| ft_w3 := ip46_w1 sa |>
        <| ft_ports := spi |> <| ft_action := action |> <| ft_is_ipv6 := 1 |>.

(** ** Flow caches *)

(** [clib_xxhash]. *)
Definition clib_xxhash (key : Z) : Z :=
  let prime64_1 := 11400714785074694791 in
  let prime64_2 := 14029467366897019727 in
  let prime64_3 := 1609587929392839161 in
  let prime64_4 := 9650029242287828579 in
  let prime64_5 := 2870177450012600261 in
  let rotl64 x r := Z.lor (u64 (Z.shiftl x r)) (Z.shiftr x (64 - r)) in
  let k1 := u64 (rotl64 (u64 (key * prime64_2)) 31 * prime64_1) in
  let h64 := Z.lxor (u64 (0x9e3779b97f4a7c13 + prime64_5 + 8)) k1 in
  let h64 := u64 (rotl64 h64 27 * prime64_1 + prime64_4) in
  let h64 := u64 (Z.lxor h64 (Z.shiftr h64 33) * prime64_2) in
  let h64 := u64 (Z.lxor h64 (Z.shiftr h64 29) * prime64_3) in
  Z.lxor h64 (Z.shiftr h64 32).

(** [ipsec4_hash_16_8] without the CRC32C instruction. *)
Definition ipsec4_hash_16_8 (key0 key1 : Z) : Z := clib_xxhash (Z.lxor key0 key1).

(** The keys: [ipsec4_spd_5tuple_t] and [ipsec4_inbound_spd_tuple_t]. *)
Definition ip4_5tuple_key (a0 a1 port0 port1 proto : Z) : Z * Z :=
  (pack_addrs a0 a1, Z.lor (pack_ports port0 port1) (Z.shiftl proto 32)).

Definition ip4_inbound_key (src dst : Z) (ty : ipsec_spd_policy_type_t) : Z * Z :=
  (pack_addrs src dst, policy_type_num ty).

Section Lookup.

(** The hash of the caches: CRC32C where the processor has it. *)
Variable hash : Z -> Z -> Z.

Definition fc_bucket (c : flow_cache) (key : Z * Z) : nat :=
  Z.to_nat (Z.land (hash (fst key) (snd key)) (Z.of_nat (length (fc_tbl c)) - 1)).

Definition fc_add (c : flow_cache) (key : Z * Z) (pol_id : Z) : flow_cache :=
  let value := Z.lor (Z.shiftl pol_id 32) (fc_epoch c) in
  let b := fc_bucket c key in
  let old := kv_value (default kv_zero (fc_tbl c !! b)) in
  let overwrite := negb (old =? 0) in
  let stale_overwrite := overwrite && negb (fc_epoch c =? u32 old) in
  c <| fc_tbl := <[b := mk_kv (fst key) (snd key) value]> (fc_tbl c) |>
    <| fc_entries := if negb overwrite || stale_overwrite then u32 (fc_entries c + 1) else fc_entries c |>.

Definition fc_find (c : flow_cache) (key : Z * Z) : option Z :=
  let kv_result := default kv_zero (fc_tbl c !! fc_bucket c key) in
  if (kv_key0 kv_result =? fst key) && (kv_key1 kv_result =? snd key) && (fc_epoch c =? u32 (kv_value kv_result))
  then Some (Z.shiftr (kv_value kv_result) 32) else None.

(** Addresses and ports in network order. *)
Definition ipsec4_out_spd_add_flow_cache_entry im (pr la ra lp rp pol_id : Z) : ipsec_main_t :=
  im <| out_cache := fc_add (out_cache im) (ip4_5tuple_key la ra lp rp pr) pol_id |>.

Definition ipsec4_out_spd_find_flow_cache_entry im (pr la ra lp rp : Z) : option Z :=
  let '(lp, rp) := if has_ports pr then (lp, rp) else (0, 0) in
  fc_find (out_cache im) (ip4_5tuple_key la ra lp rp pr).

(** Addresses in host order. *)
Definition ipsec4_input_spd_add_flow_cache_entry im (sa da : Z) (policy_type : ipsec_spd_policy_type_t) (pol_id : Z)
  : ipsec_main_t :=
  im <| in_cache := fc_add (in_cache im) (ip4_inbound_key (host_to_net_u32 sa) (host_to_net_u32 da) policy_type) pol_id |>.

(** Addresses in network order. *)
Definition ipsec4_input_spd_find_flow_cache_entry im (sa da : Z) (policy_type : ipsec_spd_policy_type_t) : option Z :=
  fc_find (in_cache im) (ip4_inbound_key sa da policy_type).

(** ** Linear searches *)

(** The first policy of a vector for which the conditions of the loop hold. *)
Definition find_policy im (ids : list Z) (rule : ipsec_policy_t -> bool) : option Z :=
  List.find (fun i => rule (policy_at im i)) ids.

(** [ipsec_output_policy_match]; [tuple] and [fp_policy_id] are the initial contents of
    the variables [tuples] and [fp_policy_ids]. *)
Definition ipsec_output_policy_match im (spd : ipsec_spd_t) (tuple : ipsec_fp_5tuple_t) (fp_policy_id : Z)
    (pr la ra lp rp : Z) (flow_cache_enabled : bool) : ipsec_main_t * option Z :=
  let add_flow_cache lp rp id :=
    if flow_cache_enabled then
      ipsec4_out_spd_add_flow_cache_entry im pr (host_to_net_u32 la) (host_to_net_u32 ra)
        (host_to_net_u16 lp) (host_to_net_u16 rp) id
    else im in
  let '(lp', rp') := if has_ports pr then (lp, rp) else (0, 0) in
  if fp_spd_ipv4_out_is_enabled im && negb (ip4_out_lookup_hash_idx (fp_spd spd) =? INDEX_INVALID) then
    let t := ipsec_fp_5tuple_from_ip4_range tuple la ra lp rp pr in
    let p := mjoin (head (fst (ipsec_fp_out_policy_match_n im (fp_spd spd) false [t]))) in
    (add_flow_cache lp' rp' (default fp_policy_id p), p)
  else
    match find_policy im (spd_policies spd IP4_OUTBOUND) (fun p => out4_rule p pr la ra lp rp) with
    | None => (im, None)
    | Some i => (add_flow_cache lp' rp' i, Some i)
    end.

Definition ipsec6_output_policy_match im (spd : ipsec_spd_t) (tuple : ipsec_fp_5tuple_t)
    (la ra : ip46_address_t) (lp rp pr : Z) : option Z :=
  if fp_spd_ipv6_out_is_enabled im && negb (ip6_out_lookup_hash_idx (fp_spd spd) =? INDEX_INVALID) then
    let t := ipsec_fp_5tuple_from_ip6_range tuple la ra lp rp pr in
    mjoin (head (fst (ipsec_fp_out_policy_match_n im (fp_spd spd) true [t])))
  else find_policy im (spd_policies spd IP6_OUTBOUND) (fun p => out6_rule p la ra lp rp pr).

(** Addresses in host order. *)
Definition ipsec_input_policy_match im (spd : ipsec_spd_t) (sa da : Z) (policy_type : ipsec_spd_policy_type_t)
  : ipsec_main_t * option Z :=
  match find_policy im (spd_policies spd policy_type) (fun p => addr4_match p da sa) with
  | None => (im, None)
  | Some i =>
      (if fc_flag (in_cache im) then ipsec4_input_spd_add_flow_cache_entry im sa da policy_type i else im, Some i)
  end.

Definition ipsec_input_protect_policy_match im (spd : ipsec_spd_t) (sa da spi : Z) : ipsec_main_t * option Z :=
  match find_policy im (spd_policies spd IP4_INBOUND_PROTECT) (fun p => in4_protect_rule im p sa da spi) with
  | None => (im, None)
  | Some i =>
      (if fc_flag (in_cache im) then ipsec4_input_spd_add_flow_cache_entry im sa da IP4_INBOUND_PROTECT i else im,
       Some i)
  end.

Definition ipsec6_input_protect_policy_match im (spd : ipsec_spd_t) (sa da : ip46_address_t) (spi : Z) : option Z :=
  find_policy im (spd_policies spd IP6_INBOUND_PROTECT) (fun p => in6_protect_rule im p sa da spi).

(** ** The burst lookup *)

(** [ipsec4_spd_5tuple_t] of a packet, in host order. *)
Record ipsec4_spd_5tuple_t := mk_ip4_5tuple { t5_addr0 : Z; t5_addr1 : Z; t5_port0 : Z; t5_port1 : Z; t5_proto : Z }.

(** The conditions of the loop of [ipsec_output_policy_match_n]. *)
Definition out4_rule_n (p : ipsec_policy_t) (t : ipsec4_spd_5tuple_t) : bool :=
  ((p_protocol p =? 0) || (p_protocol p =? t5_proto t)) &&
  negb (t5_addr0 t <? ip4_host (ar_start (p_raddr p))) && negb (ip4_host (ar_stop (p_raddr p)) <? t5_addr1 t) &&
  negb (t5_addr0 t <? ip4_host (ar_start (p_laddr p))) && negb (ip4_host (ar_stop (p_laddr p)) <? t5_addr1 t) &&
  policy_ports_match p (t5_proto t) (t5_port0 t) (t5_port1 t).

(** The linear search for one packet: it clears the ports of the tuple when a policy
    matches a protocol without ports. *)
Definition out_match_n_linear im (spd : ipsec_spd_t) (t : ipsec4_spd_5tuple_t) : ipsec4_spd_5tuple_t * option Z :=
  match find_policy im (spd_policies spd IP4_OUTBOUND) (fun p => out4_rule_n p t) with
  | None => (t, None)
  | Some i =>
      (if has_ports (t5_proto t) then t else mk_ip4_5tuple (t5_addr0 t) (t5_addr1 t) 0 0 (t5_proto t), Some i)
  end.

Definition ipsec_output_policy_match_n im (spd : ipsec_spd_t) (tuple : ipsec_fp_5tuple_t)
    (ip4_5tuples : list ipsec4_spd_5tuple_t) (flow_cache_enabled : bool) : ipsec_main_t * list (option Z) * Z :=
  let '(pols, counter) :=
    if fp_spd_ipv4_out_is_enabled im && negb (ip4_out_lookup_hash_idx (fp_spd spd) =? INDEX_INVALID) then
      ipsec_fp_out_policy_match_n im (fp_spd spd) false
        (map (fun t => ipsec_fp_5tuple_from_ip4_range tuple (t5_addr0 t) (t5_addr1 t) (t5_port0 t) (t5_port1 t)
                         (t5_proto t)) ip4_5tuples)
    else (map (fun _ => None) ip4_5tuples, 0) in
  let step '(t, p) :=
    match p with
    | Some i => (t, Some i, 0)
    | None => let '(t, p) := out_match_n_linear im spd t in (t, p, match p with Some _ => 1 | None => 0 end)
    end in
  let res := map step (zip ip4_5tuples pols) in
  let im :=
    if flow_cache_enabled then
      fold_left (fun im '(t, p, _) =>
        match p with
        | None => im
        | Some i =>
            im <| out_cache := fc_add (out_cache im)
                    (ip4_5tuple_key (t5_addr0 t) (t5_addr1 t) (t5_port0 t) (t5_port1 t) (t5_proto t)) i |>
        end) res im
    else im in
  (im, map (fun '(_, p, _) => p) res, counter + fold_right Z.add 0 (map snd res)).

End Lookup.
