(* ===== verification/IpsecNodes.v ===== *)
(** * IPsec: the graph nodes that apply policies, and the configuration

    [ipsec4-input-feature], [ipsec6-input-feature] ([vnet/ipsec/ipsec_input.c]),
    [ipsec4-output-feature], [ipsec6-output-feature] ([ipsec_output.c]) and the
    [ipsec] section of the start-up configuration ([ipsec.c]).

    A packet is the fields the nodes read; what a node does to it (next node,
    association, advance of the buffer, checksums filled in) is its result, in the order of
    the frame.  Prefetches, traces and the batching of results into frames are left out. *)

From stdpp Require Import gmap.
From S2P Require Import Prelude NetTypes Pool Crypto IpsecSa Sad SpdTypes SpdPolicy SpdLookup.

(** The counters of a frame. *)
Record in_counters := mk_in_counters { c_bypassed : Z; c_dropped : Z; c_matched : Z; c_unprocessed : Z }.

#[export] Instance in_counters_eta : Eta in_counters := fun c =>
  mk_in_counters (c_bypassed c) (c_dropped c) (c_matched c) (c_unprocessed c).

Definition counters_zero : in_counters := mk_in_counters 0 0 0 0.

(** ** Input *)

Inductive in_next := IPSEC_INPUT_NEXT_DROP | NEXT_ESP_DECRYPT | NEXT_AH_DECRYPT | NEXT_FEATURE.

(** What a node decides for a packet: the next node, the association given to the
    buffer, whether the buffer moves on to the ESP header, and the policy whose counters
    are incremented. *)
Record in_result := mk_in_result {
  r_next : in_next;
  r_sad_index : option Z;
  r_advance : bool;
  r_policy : option Z
}.

(** An IPv4 packet: addresses and SPI in network order; the SPI is the one of the header
    that follows (ESP, AH, or ESP behind UDP), [k_has_space] whether the buffer holds that
    header. *)
Record ip4_packet := mk_ip4_packet {
  k_spd_index : Z;
  k_src : Z;
  k_dst : Z;
  k_protocol : Z;
  k_udp_checksum : Z;
  k_spi : Z;
  k_has_space : bool
}.

Inductive in_verdict := V_PROTECT (pi : Z) | V_BYPASS (pi : Z) | V_DISCARD (pi : Z).

Section Input.
Variable hash : Z -> Z -> Z.

(** The policy of type [ty] for the packet, from the fast path, the flow cache or the
    vectors. *)
Definition in4_find im (spd : ipsec_spd_t) (tuple : ipsec_fp_5tuple_t) (use_fp search_flow_cache : bool)
    (k : ip4_packet) (ty : ipsec_spd_policy_type_t) : ipsec_main_t * option Z :=
  if use_fp then
    let t := ipsec_fp_in_5tuple_from_ip4_range tuple (k_src k) (k_dst k) (net_to_host_u32 (k_spi k))
               (policy_type_num ty) in
    (im, mjoin (head (fst (ipsec_fp_in_policy_match_n im (fp_spd spd) false [t]))))
  else if search_flow_cache then (im, ipsec4_input_spd_find_flow_cache_entry hash im (k_src k) (k_dst k) ty)
  else
    let sa := net_to_host_u32 (k_src k) in
    let da := net_to_host_u32 (k_dst k) in
    if bool_decide (ty = IP4_INBOUND_PROTECT) then
      ipsec_input_protect_policy_match hash im spd sa da (net_to_host_u32 (k_spi k))
    else ipsec_input_policy_match hash im spd sa da ty.

(** One pass over protect, bypass and discard policies, in this order. *)
Definition in4_pass im spd tuple use_fp search_flow_cache k : ipsec_main_t * option in_verdict :=
  let '(im, p0) := in4_find im spd tuple use_fp search_flow_cache k IP4_INBOUND_PROTECT in
  match p0, k_has_space k with
  | Some pi0, true => (im, Some (V_PROTECT pi0))
  | _, _ =>
      let '(im, p0) := in4_find im spd tuple use_fp search_flow_cache k IP4_INBOUND_BYPASS in
      match p0 with
      | Some pi0 => (im, Some (V_BYPASS pi0))
      | None =>
          let '(im, p0) := in4_find im spd tuple use_fp search_flow_cache k IP4_INBOUND_DISCARD in
          (im, V_DISCARD <$> p0)
      end
  end.

(** The pass with the flow cache, and another one without when it finds nothing. *)
Definition in4_verdict im spd tuple use_fp k : ipsec_main_t * option in_verdict :=
  let search_flow_cache := fc_flag (in_cache im) in
  let '(im, v) := in4_pass im spd tuple use_fp search_flow_cache k in
  match v, search_flow_cache with
  | None, true => in4_pass im spd tuple use_fp false k
  | _, _ => (im, v)
  end.

(** What a verdict makes of the packet. *)
Definition in4_apply im (next : in_next) (advance : bool) (v : option in_verdict) (c : in_counters)
  : in_result * in_counters :=
  match v with
  | Some (V_PROTECT pi0) =>
      (mk_in_result next (Some (p_sa_index (policy_at im pi0))) advance (Some pi0),
       c <| c_matched := c_matched c + 1 |>)
  | Some (V_BYPASS pi0) => (mk_in_result NEXT_FEATURE None false (Some pi0), c <| c_bypassed := c_bypassed c + 1 |>)
  | Some (V_DISCARD pi0) =>
      (mk_in_result IPSEC_INPUT_NEXT_DROP None false (Some pi0), c <| c_dropped := c_dropped c + 1 |>)
  | None => (mk_in_result IPSEC_INPUT_NEXT_DROP None false None, c <| c_unprocessed := c_unprocessed c + 1 |>)
  end.

Definition ipsec_esp_packet_process im (spd : ipsec_spd_t) (tuple : ipsec_fp_5tuple_t) (k : ip4_packet) (c : in_counters)
  : ipsec_main_t * in_result * in_counters :=
  if k_spi k =? 0 then
    (im, mk_in_result IPSEC_INPUT_NEXT_DROP None false None, c <| c_unprocessed := c_unprocessed c + 1 |>)
  else
    let use_fp := fp_spd_ipv4_in_is_enabled im && negb (ip4_in_lookup_hash_idx (fp_spd spd) =? INDEX_INVALID) in
    let '(im, v) := in4_verdict im spd tuple use_fp k in
    let '(r, c) := in4_apply im NEXT_ESP_DECRYPT true v c in
    (im, r, c).

(** The counter of unprocessed packets is incremented when a packet of the frame has been
    bypassed so far. *)
Definition count_bypassed (c : in_counters) : in_counters :=
  if 0 <? c_bypassed c then c <| c_unprocessed := c_unprocessed c + 1 |> else c.

(** One packet of [ipsec4_input_node]. *)
Definition ipsec4_input_1 im (tuple : ipsec_fp_5tuple_t) (k : ip4_packet) (c : in_counters)
  : ipsec_main_t * in_result * in_counters :=
  let feature := mk_in_result NEXT_FEATURE None false None in
  match pool_elt_at_index (spds im) (k_spd_index k) with
  | None => (im, feature, c)
  | Some spd0 =>
      if k_protocol k =? IP_PROTOCOL_UDP then
        if k_udp_checksum k =? 0 then
          let '(im, r, c) := ipsec_esp_packet_process im spd0 tuple k c in
          (im, r, count_bypassed c)
        else (im, feature, c)
      else if k_protocol k =? IP_PROTOCOL_IPSEC_ESP then
        let '(im, r, c) := ipsec_esp_packet_process im spd0 tuple k c in
        (im, r, count_bypassed c)
      else if k_protocol k =? IP_PROTOCOL_IPSEC_AH then
        let '(im, v) := in4_verdict im spd0 tuple false k in
        let '(r, c) := in4_apply im NEXT_AH_DECRYPT false v c in
        (im, r, c)
      else (im, feature, c <| c_unprocessed := c_unprocessed c + 1 |>)
  end.

(** A frame. *)
Fixpoint ipsec4_input_frame im (tuple : ipsec_fp_5tuple_t) (ks : list ip4_packet) (c : in_counters)
  : ipsec_main_t * list in_result * in_counters :=
  match ks with
  | [] => (im, [], c)
  | k :: ks' =>
      let '(im, r, c) := ipsec4_input_1 im tuple k c in
      let '(im, rs, c) := ipsec4_input_frame im tuple ks' c in
      (im, r :: rs, c)
  end.

Definition ipsec4_input_node im (tuple : ipsec_fp_5tuple_t) (ks : list ip4_packet) :=
  ipsec4_input_frame im tuple ks counters_zero.

End Input.

(** An IPv6 packet. *)
Record ip6_packet := mk_ip6_packet {
  k6_spd_index : Z;
  k6_src : ip46_address_t;
  k6_dst : ip46_address_t;
  k6_protocol : Z;
  k6_spi : Z
}.

Definition in6_apply im (next : in_next) (advance : bool) (p0 : option Z) (c : in_counters) : in_result * in_counters :=
  match p0 with
  | Some pi0 =>
      (mk_in_result next (Some (p_sa_index (policy_at im pi0))) advance (Some pi0),
       c <| c_matched := u32 (c_matched c + 1) |>)
  | None => (mk_in_result IPSEC_INPUT_NEXT_DROP None false None, c <| c_unprocessed := u32 (c_unprocessed c + 1) |>)
  end.

(** One packet of [ipsec6_input_node]. *)
Definition ipsec6_input_1 im (tuple : ipsec_fp_5tuple_t) (k : ip6_packet) (c : in_counters) : in_result * in_counters :=
  let feature := mk_in_result NEXT_FEATURE None false None in
  match pool_elt_at_index (spds im) (k6_spd_index k) with
  | None => (feature, c)
  | Some spd0 =>
      let spi := net_to_host_u32 (k6_spi k) in
      if k6_protocol k =? IP_PROTOCOL_IPSEC_ESP then
        let p0 :=
          if fp_spd_ipv6_in_is_enabled im && negb (ip6_in_lookup_hash_idx (fp_spd spd0) =? INDEX_INVALID) then
            let t := ipsec_fp_in_5tuple_from_ip6_range tuple (k6_src k) (k6_dst k) spi
                       (policy_type_num IP6_INBOUND_PROTECT) in
            mjoin (head (fst (ipsec_fp_in_policy_match_n im (fp_spd spd0) true [t])))
          else ipsec6_input_protect_policy_match im spd0 (k6_src k) (k6_dst k) spi in
        in6_apply im NEXT_ESP_DECRYPT true p0 c
      else if k6_protocol k =? IP_PROTOCOL_IPSEC_AH then
        in6_apply im NEXT_AH_DECRYPT false (ipsec6_input_protect_policy_match im spd0 (k6_src k) (k6_dst k) spi) c
      else (feature, c <| c_unprocessed := u32 (c_unprocessed c + 1) |>)
  end.

Fixpoint ipsec6_input_frame im (tuple : ipsec_fp_5tuple_t) (ks : list ip6_packet) (c : in_counters)
  : list in_result * in_counters :=
  match ks with
  | [] => ([], c)
  | k :: ks' =>
      let '(r, c) := ipsec6_input_1 im tuple k c in
      let '(rs, c) := ipsec6_input_frame im tuple ks' c in
      (r :: rs, c)
  end.

Definition ipsec6_input_node im (tuple : ipsec_fp_5tuple_t) (ks : list ip6_packet) :=
  ipsec6_input_frame im tuple ks counters_zero.

(** ** Output *)

Record out_counters := mk_out_counters { nc_protect : Z; nc_bypass : Z; nc_discard : Z; nc_nomatch : Z }.

#[export] Instance out_counters_eta : Eta out_counters := fun c =>
  mk_out_counters (nc_protect c) (nc_bypass c) (nc_discard c) (nc_nomatch c).

Inductive out_next := ERROR_DROP | NEXT_OUTPUT_FEATURE | ESP4_ENCRYPT | ESP6_ENCRYPT | AH4_ENCRYPT | AH6_ENCRYPT.

Definition VNET_BUFFER_OFFLOAD_F_IP_CKSUM : Z := 1.
Definition VNET_BUFFER_OFFLOAD_F_TCP_CKSUM : Z := 2.
Definition VNET_BUFFER_OFFLOAD_F_UDP_CKSUM : Z := 4.

(** A packet of either family: IPv4 addresses are in the IPv4 part of the address, all in
    network order; [o_oflags] are its offload flags, zero when the buffer has none. *)
Record out_packet := mk_out_packet {
  o_sw_if_index : Z;
  o_src : ip46_address_t;
  o_dst : ip46_address_t;
  o_protocol : Z;
  o_src_port : Z;
  o_dst_port : Z;
  o_oflags : Z
}.

#[export] Instance out_packet_eta : Eta out_packet := fun k =>
  mk_out_packet (o_sw_if_index k) (o_src k) (o_dst k) (o_protocol k) (o_src_port k) (o_dst_port k) (o_oflags k).

(** The checksums computed before the packet is encrypted. *)
Inductive cksum := IP_CKSUM | TCP_CKSUM | UDP_CKSUM.

Record out_result := mk_out_result {
  s_next : out_next;
  s_sad_index : option Z;
  s_cksums : list cksum;
  s_oflags : Z;
  s_policy : option Z
}.

Definition flag_set (f x : Z) : bool := negb (Z.land x f =? 0).

Definition fill_cksums (is_ipv6 : bool) (oflags : Z) : list cksum :=
  (if negb is_ipv6 && flag_set VNET_BUFFER_OFFLOAD_F_IP_CKSUM oflags then [IP_CKSUM] else []) ++
  (if flag_set VNET_BUFFER_OFFLOAD_F_TCP_CKSUM oflags then [TCP_CKSUM] else []) ++
  (if flag_set VNET_BUFFER_OFFLOAD_F_UDP_CKSUM oflags then [UDP_CKSUM] else []).

Section Output.
Variable hash : Z -> Z -> Z.

(** The policy of a packet; without SPD there is none, but the flow cache is searched. *)
Definition out_find im (spd0 : option ipsec_spd_t) (tuple : ipsec_fp_5tuple_t) (fp_policy_id : Z)
    (is_ipv6 flow_cache_enabled : bool) (k : out_packet) : ipsec_main_t * option Z :=
  if is_ipv6 then
    (im, spd0 ≫= fun spd => ipsec6_output_policy_match im spd tuple (o_src k) (o_dst k)
                              (net_to_host_u16 (o_src_port k)) (net_to_host_u16 (o_dst_port k)) (o_protocol k))
  else
    let cached :=
      if flow_cache_enabled then
        ipsec4_out_spd_find_flow_cache_entry hash im (o_protocol k) (ip46_ip4 (o_src k)) (ip46_ip4 (o_dst k))
          (o_src_port k) (o_dst_port k)
      else None in
    match cached, spd0 with
    | Some pi0, _ => (im, Some pi0)
    | None, None => (im, None)
    | None, Some spd =>
        ipsec_output_policy_match hash im spd tuple fp_policy_id (o_protocol k)
          (net_to_host_u32 (ip46_ip4 (o_src k))) (net_to_host_u32 (ip46_ip4 (o_dst k)))
          (net_to_host_u16 (o_src_port k)) (net_to_host_u16 (o_dst_port k)) flow_cache_enabled
    end.

Definition encrypt_next (is_ipv6 : bool) (pr : ipsec_protocol_t) : out_next :=
  match pr, is_ipv6 with
  | IPSEC_PROTOCOL_ESP, true => ESP6_ENCRYPT
  | IPSEC_PROTOCOL_ESP, false => ESP4_ENCRYPT
  | IPSEC_PROTOCOL_AH, true => AH6_ENCRYPT
  | IPSEC_PROTOCOL_AH, false => AH4_ENCRYPT
  end.

Definition out_apply im (is_ipv6 : bool) (k : out_packet) (p0 : option Z) (c : out_counters)
  : out_result * out_counters :=
  match p0 with
  | None => (mk_out_result ERROR_DROP None [] (o_oflags k) None, c <| nc_nomatch := nc_nomatch c + 1 |>)
  | Some pi0 =>
      let p := policy_at im pi0 in
      match p_policy p with
      | ACTION_PROTECT =>
          let pr := match ipsec_sa_get im (p_sa_index p) with Some sa => sa_protocol sa | None => IPSEC_PROTOCOL_AH end in
          (mk_out_result (encrypt_next is_ipv6 pr) (Some (p_sa_index p)) (fill_cksums is_ipv6 (o_oflags k)) 0 (Some pi0),
           c <| nc_protect := nc_protect c + 1 |>)
      | ACTION_BYPASS =>
          (mk_out_result NEXT_OUTPUT_FEATURE None [] (o_oflags k) (Some pi0), c <| nc_bypass := nc_bypass c + 1 |>)
      | ACTION_DISCARD | ACTION_RESOLVE =>
          (mk_out_result ERROR_DROP None [] (o_oflags k) (Some pi0), c <| nc_discard := nc_discard c + 1 |>)
      end
  end.

(** The SPD of the interface, looked up when the interface changes; [None] is a failed
    assertion. *)
Definition out_spd im (last_sw_if_index : Z) (spd0 : option ipsec_spd_t) (k : out_packet) : option (option ipsec_spd_t) :=
  if last_sw_if_index =? o_sw_if_index k then Some spd0
  else Some <$> (spd_index_by_sw_if_index im !! o_sw_if_index k ≫= pool_elt_at_index (spds im)).

Fixpoint ipsec_output_frame im (tuple : ipsec_fp_5tuple_t) (fp_policy_id : Z) (is_ipv6 flow_cache_enabled : bool)
    (last_sw_if_index : Z) (spd0 : option ipsec_spd_t) (ks : list out_packet) (c : out_counters)
  : option (ipsec_main_t * list out_result * out_counters) :=
  match ks with
  | [] => Some (im, [], c)
  | k :: ks' =>
      spd0 ← out_spd im last_sw_if_index spd0 k;
      let '(im, p0) := out_find im spd0 tuple fp_policy_id is_ipv6 flow_cache_enabled k in
      let '(r, c) := out_apply im is_ipv6 k p0 c in
      '(im, rs, c) ← ipsec_output_frame im tuple fp_policy_id is_ipv6 flow_cache_enabled (o_sw_if_index k) spd0 ks' c;
      Some (im, r :: rs, c)
  end.

Definition ipsec_output_inline im (tuple : ipsec_fp_5tuple_t) (fp_policy_id : Z) (is_ipv6 : bool) (ks : list out_packet) :=
  ipsec_output_frame im tuple fp_policy_id is_ipv6 (fc_flag (out_cache im)) INDEX_INVALID None ks
    (mk_out_counters 0 0 0 0).

End Output.

(** ** Configuration *)

(** The options of the [ipsec] section that concern policies and tunnel tables. *)
Inductive ipsec_option :=
| IP6_OUT_FP (on : bool) | IP4_OUT_FP (on : bool) | IP6_IN_FP (on : bool) | IP4_IN_FP (on : bool)
| FP_NUM_BUCKETS (n : Z)
| IP4_OUT_FLOW_CACHE (on : bool) | IP4_OUT_HASH_BUCKETS (n : Z)
| IP4_IN_FLOW_CACHE (on : bool) | IP4_IN_HASH_BUCKETS (n : Z)
| TUN_TABLE (is_ip6 : bool) (n_buckets : Z)
| UNKNOWN_INPUT.

Record ipsec_conf := mk_ipsec_conf {
  cf_im : ipsec_main_t;
  ipsec4_out_spd_hash_num_buckets : Z;
  ipsec4_in_spd_hash_num_buckets : Z;
  fp_lookup_hash_buckets : Z;
  (* arguments of [ipsec_tun_table_init], last call first *)
  tun_table_init : list (bool * Z);
  fp_spd_ip4_enabled : bool;
  fp_spd_ip6_enabled : bool
}.

#[export] Instance ipsec_conf_eta : Eta ipsec_conf := fun c =>
  mk_ipsec_conf (cf_im c) (ipsec4_out_spd_hash_num_buckets c) (ipsec4_in_spd_hash_num_buckets c)
    (fp_lookup_hash_buckets c) (tun_table_init c) (fp_spd_ip4_enabled c) (fp_spd_ip6_enabled c).

(** [1ULL << max_log2 (n)], stored in 32 bits. *)
Definition pow2_buckets (n : Z) : Z := u32 (Z.shiftl 1 (Z.log2_up n)).

Definition set_out_flag (on : bool) im : ipsec_main_t := im <| out_cache := (out_cache im) <| fc_flag := on |> |>.
Definition set_in_flag (on : bool) im : ipsec_main_t := im <| in_cache := (in_cache im) <| fc_flag := on |> |>.

Definition ipsec_config_option (c : ipsec_conf) (o : ipsec_option) : option ipsec_conf :=
  let im := cf_im c in
  match o with
  | IP6_OUT_FP on =>
      let c := c <| cf_im := im <| fp_spd_ipv6_out_is_enabled := on |> |> in
      Some (if on then c <| fp_spd_ip6_enabled := true |> else c)
  | IP4_OUT_FP true =>
      Some (c <| cf_im := set_out_flag false (im <| fp_spd_ipv4_out_is_enabled := true |>) |>
              <| fp_spd_ip4_enabled := true |>)
  | IP4_OUT_FP false => Some (c <| cf_im := im <| fp_spd_ipv4_out_is_enabled := false |> |>)
  | IP6_IN_FP on =>
      let c := c <| cf_im := im <| fp_spd_ipv6_in_is_enabled := on |> |> in
      Some (if on then c <| fp_spd_ip6_enabled := true |> else c)
  | IP4_IN_FP true =>
      Some (c <| cf_im := set_in_flag false (im <| fp_spd_ipv4_in_is_enabled := true |>) |>
              <| fp_spd_ip4_enabled := true |>)
  | IP4_IN_FP false => Some (c <| cf_im := im <| fp_spd_ipv4_in_is_enabled := false |> |>)
  | FP_NUM_BUCKETS n => Some (c <| fp_lookup_hash_buckets := pow2_buckets n |>)
  | IP4_OUT_FLOW_CACHE on => Some (c <| cf_im := set_out_flag (on && negb (fp_spd_ipv4_out_is_enabled im)) im |>)
  | IP4_OUT_HASH_BUCKETS n => Some (c <| ipsec4_out_spd_hash_num_buckets := pow2_buckets n |>)
  | IP4_IN_FLOW_CACHE on => Some (c <| cf_im := set_in_flag (on && negb (fp_spd_ipv4_in_is_enabled im)) im |>)
  | IP4_IN_HASH_BUCKETS n => Some (c <| ipsec4_in_spd_hash_num_buckets := pow2_buckets n |>)
  | TUN_TABLE is_ip6 n => Some (c <| tun_table_init := (is_ip6, n) :: tun_table_init c |>)
  | UNKNOWN_INPUT => None
  end.

(** The options in order, until one is unknown. *)
Fixpoint ipsec_config_options (c : ipsec_conf) (os : list ipsec_option) : ipsec_conf * bool :=
  match os with
  | [] => (c, true)
  | o :: os' => match ipsec_config_option c o with Some c => ipsec_config_options c os' | None => (c, false) end
  end.

Definition fc_alloc (c : flow_cache) (n : Z) : flow_cache :=
  if fc_flag c then c <| fc_tbl := fc_tbl c ++ repeat kv_zero (Z.to_nat n) |> else c.

(** [ipsec_config]: the flow caches are allocated, and the pools of tables get their
    maximal size, when all input was understood. *)
Definition ipsec_config (c : ipsec_conf) (os : list ipsec_option) : ipsec_conf * bool :=
  let '(c, ok) := ipsec_config_options (c <| fp_spd_ip4_enabled := false |> <| fp_spd_ip6_enabled := false |>) os in
  if ok then
    let im := cf_im c in
    let im := im <| out_cache := fc_alloc (out_cache im) (ipsec4_out_spd_hash_num_buckets c) |>
                 <| in_cache := fc_alloc (in_cache im) (ipsec4_in_spd_hash_num_buckets c) |>
                 <| fp_ip4_hashes_max := if fp_spd_ip4_enabled c then 128 else fp_ip4_hashes_max im |>
                 <| fp_ip6_hashes_max := if fp_spd_ip6_enabled c then 128 else fp_ip6_hashes_max im |> in
    (c <| cf_im := im |>, true)
  else (c, false).

Definition ipsec_conf_init : ipsec_conf :=
  mk_ipsec_conf ipsec_main_init (2 ^ 22) (2 ^ 22) 256 [] false false.
