(* ===== verification/SpdInv.v ===== *)
(** * Security policy databases: invariant of the control plane

    With the fast path off (the default configuration), through every history of the
    operations on SPDs, policies, interfaces and associations: each vector of an SPD
    lists policies in use, of its type, in the order of their priorities; no policy is
    in two vectors; ids and interfaces name SPDs in use; and a policy in use that has
    an association holds a lock on it.  A lookup therefore finds the policy of highest
    priority, and after an addition or a removal it finds what it should. *)

From Stdlib Require Import Sorting.Sorted.
From stdpp Require Import gmap.
From S2P Require Import Prelude NetTypes Pool Crypto IpsecSa Sad SpdTypes SpdPolicy SpdLookup.

(** ** Vectors ordered by priority *)

Definition prio (pols : pool ipsec_policy_t) (i : Z) : Z :=
  p_priority (default policy_zero (pool_elt_at_index pols i)).

Definition prio_sorted (f : Z -> Z) (ids : list Z) : Prop := StronglySorted (fun i j => f j <= f i) ids.

Lemma priority_insert_split f p i ids :
  prio_sorted f ids ->
  exists l1 l2, ids = l1 ++ l2 /\ priority_insert f p i ids = l1 ++ i :: l2 /\
    Forall (fun j => p < f j) l1 /\ Forall (fun j => f j <= p) l2.
Proof.
  induction 1 as [|j ids Hs IH Hj]; cbn.
  - exists [], []. repeat split; constructor.
  - destruct (Z.leb_spec (f j) p).
    + exists [], (j :: ids). repeat split; [constructor|]. constructor; [assumption|].
      eapply Forall_impl; [exact Hj|]. cbn. lia.
    + destruct IH as (l1 & l2 & -> & -> & H1 & H2). exists (j :: l1), l2. repeat split; auto.
Qed.

Lemma priority_insert_elem f p i ids j : j ∈ priority_insert f p i ids <-> j = i \/ j ∈ ids.
Proof.
  induction ids as [|k ids IH]; cbn; [set_solver|]. destruct (_ <=? _); set_solver.
Qed.

Lemma priority_insert_nodup f p i ids : NoDup ids -> i ∉ ids -> NoDup (priority_insert f p i ids).
Proof.
  induction 1 as [|k ids Hk Hn IH]; cbn; intros Hi; [repeat constructor; set_solver|].
  destruct (_ <=? _); [repeat constructor; set_solver|].
  constructor; [rewrite priority_insert_elem; set_solver|apply IH; set_solver].
Qed.

Lemma priority_insert_sorted f i ids : prio_sorted f ids -> prio_sorted f (priority_insert f (f i) i ids).
Proof.
  induction 1 as [|j ids Hs IH Hj]; cbn; [repeat constructor|].
  destruct (Z.leb_spec (f j) (f i)).
  - repeat constructor; auto. eapply Forall_impl; [exact Hj|]. cbn. lia.
  - constructor; [exact IH|]. apply Forall_forall. intros k [->|Hk]%priority_insert_elem; [lia|].
    rewrite Forall_forall in Hj. auto.
Qed.

Lemma prio_sorted_ext f g ids : (forall i, i ∈ ids -> f i = g i) -> prio_sorted f ids -> prio_sorted g ids.
Proof.
  intros He. induction 1 as [|j ids Hs IH Hj]; constructor.
  - apply IH. set_solver.
  - apply Forall_forall. intros k Hk. rewrite Forall_forall in Hj. rewrite <- !He by set_solver. auto.
Qed.

Lemma priority_insert_ext f g p i ids :
  (forall j, j ∈ ids -> f j = g j) -> priority_insert f p i ids = priority_insert g p i ids.
Proof.
  induction ids as [|j ids IH]; cbn; intros He; [reflexivity|]. rewrite He, IH by set_solver. reflexivity.
Qed.

Lemma prio_sorted_delete f ids k : prio_sorted f ids -> prio_sorted f (delete k ids).
Proof.
  intros Hs. revert k. induction Hs as [|j ids Hs IH Hj]; intros [|k]; [constructor..|exact Hs|].
  change (delete (S k) (j :: ids)) with (j :: delete k ids). constructor; [apply IH|].
  apply Forall_forall. intros x Hx%elem_of_delete. rewrite Forall_forall in Hj. auto.
Qed.

(** ** The invariant *)

(** A vector of an SPD. *)
Record vec_ok (pols : pool ipsec_policy_t) (id : Z) (t : ipsec_spd_policy_type_t) (ids : list Z) : Prop := {
  vo_live : forall i, i ∈ ids -> exists p, pool_lookup pols i = Some p /\ p_type p = t /\ p_id p = id;
  vo_sorted : prio_sorted (prio pols) ids;
  vo_nodup : NoDup ids
}.

(** The SPDs, the policies, and the tables of ids and interfaces. *)
Record spd_inv (pols : pool ipsec_policy_t) (sp : pool ipsec_spd_t) (ids ifs feats : gmap Z Z) : Prop := {
  pi_pols : pool_ok pols;
  pi_spds : pool_ok sp;
  pi_vec : forall k spd t, pool_lookup sp k = Some spd -> vec_ok pols (spd_id spd) t (spd_policies spd t);
  pi_ids : forall id k, ids !! id = Some k <-> exists spd, pool_lookup sp k = Some spd /\ spd_id spd = id;
  pi_ifs : forall i k, ifs !! i = Some k -> is_Some (pool_lookup sp k);
  pi_feats : feats = ifs
}.

(** Policies that refer to association [k]. *)
Definition refers (k : Z) (p : ipsec_policy_t) : bool := p_sa_index p =? k.

(** Policies in use hold locks on their associations. *)
Record refs_ok (pols : pool ipsec_policy_t) (s : sad_t) : Prop := {
  ro_live : forall i p, pool_lookup pols i = Some p -> p_sa_index p <> INDEX_INVALID ->
              is_Some (pool_lookup (sa_pool s) (p_sa_index p));
  ro_count : forall k sa, pool_lookup (sa_pool s) k = Some sa -> pool_count (refers k) pols <= sa_locks sa
}.

Record spd_ok (im : ipsec_main_t) : Prop := {
  so_spds : spd_inv (policies im) (spds im) (spd_index_by_spd_id im) (spd_index_by_sw_if_index im) (if_features im);
  so_sad : sad_ok (sad im);
  so_refs : refs_ok (policies im) (sad im)
}.

(** The fast path is off. *)
Definition fp_off (im : ipsec_main_t) : Prop :=
  fp_spd_ipv4_out_is_enabled im = false /\ fp_spd_ipv4_in_is_enabled im = false /\
  fp_spd_ipv6_out_is_enabled im = false /\ fp_spd_ipv6_in_is_enabled im = false.

Lemma fp_off_not_enabled im spd p : fp_off im -> ipsec_is_fp_enabled im spd p = false.
Proof. intros (H1 & H2 & H3 & H4). unfold ipsec_is_fp_enabled. now rewrite H1, H2, H3, H4. Qed.

(** ** Policies *)

Lemma prio_lookup pols i p : pool_lookup pols i = Some p -> prio pols i = p_priority p.
Proof. intros H. unfold prio. now rewrite (pool_lookup_elt _ _ _ H). Qed.

Lemma prio_same pols pols' i p : pool_lookup pols i = Some p -> pool_lookup pols' i = Some p -> prio pols i = prio pols' i.
Proof. intros H H'. now rewrite (prio_lookup _ _ _ H), (prio_lookup _ _ _ H'). Qed.

(** The vector keeps its properties while its policies stay as they are. *)
Lemma vec_ok_pols pols pols' id t ids :
  (forall i, i ∈ ids -> pool_lookup pols' i = pool_lookup pols i) -> vec_ok pols id t ids -> vec_ok pols' id t ids.
Proof.
  intros He [H1 H2 H3]. split; [|eapply prio_sorted_ext; [|exact H2]|exact H3]; intros i Hi.
  - rewrite He by exact Hi. auto.
  - destruct (H1 i Hi) as (p & Hp & _). apply (prio_same _ _ _ p); [exact Hp|now rewrite He].
Qed.

Lemma vec_ok_insert pols pols' i p id t ids :
  pool_lookup pols i = None -> pool_lookup pols' i = Some p -> (forall j, j <> i -> pool_lookup pols' j = pool_lookup pols j) ->
  p_type p = t -> p_id p = id -> vec_ok pols id t ids ->
  vec_ok pols' id t (priority_insert (prio pols') (p_priority p) i ids).
Proof.
  intros Hf Hi Ho Ht Hid H. assert (i ∉ ids) as Hn.
  { intros E. destruct (vo_live _ _ _ _ H i E) as (q & Hq & _). congruence. }
  apply (vec_ok_pols _ pols') in H as [H1 H2 H3]; [|intros j Hj; apply Ho; congruence]. split.
  - intros j [->|Hj]%priority_insert_elem; eauto.
  - rewrite <- (prio_lookup _ _ _ Hi). now apply priority_insert_sorted.
  - now apply priority_insert_nodup.
Qed.

Lemma vec_ok_delete pols pols' id t ids k i :
  ids !! k = Some i -> (forall j, j <> i -> pool_lookup pols' j = pool_lookup pols j) ->
  vec_ok pols id t ids -> vec_ok pols' id t (delete k ids).
Proof.
  intros Hk Ho H. apply (vec_ok_pols pols).
  - intros j Hj. apply Ho. intros ->. exact (nodup_delete_notin _ _ _ (vo_nodup _ _ _ _ H) Hk Hj).
  - destruct H as [H1 H2 H3]. split; [|now apply prio_sorted_delete|now apply nodup_delete].
    intros j Hj%elem_of_delete. auto.
Qed.

(** One SPD rewritten, with the policies that changed. *)
Lemma spd_inv_change pols pols' sp ids ifs feats k spd spd' :
  spd_inv pols sp ids ifs feats -> pool_lookup sp k = Some spd -> spd_id spd' = spd_id spd -> pool_ok pols' ->
  (forall t, vec_ok pols' (spd_id spd) t (spd_policies spd' t)) ->
  (forall k2 spd2 t, k2 <> k -> pool_lookup sp k2 = Some spd2 -> vec_ok pols' (spd_id spd2) t (spd_policies spd2 t)) ->
  spd_inv pols' (pool_write sp k spd') ids ifs feats.
Proof.
  intros [H1 H2 H3 H4 H5 H6] Hk Hid Hp Hv Ho. pose proof (pool_write_lookup sp k spd' spd) as Hw. split; auto with vpp.
  - intros k2 spd2 t. rewrite Hw by assumption. destruct (decide (k2 = k)); [|now apply Ho].
    intros [= <-]. rewrite Hid. auto.
  - intros id k2. rewrite H4, Hw by assumption. destruct (decide (k2 = k)) as [->|]; [|reflexivity].
    rewrite Hk. split; intros (x & [= <-] & <-); eauto.
  - intros i k2 Hi%H5. rewrite Hw by assumption. destruct (decide (k2 = k)); eauto.
Qed.

(** A policy belongs to one SPD. *)
Lemma vec_disjoint pols sp ids ifs feats k1 spd1 t1 k2 spd2 t2 i :
  spd_inv pols sp ids ifs feats -> pool_lookup sp k1 = Some spd1 -> pool_lookup sp k2 = Some spd2 ->
  i ∈ spd_policies spd1 t1 -> i ∈ spd_policies spd2 t2 -> k1 = k2 /\ t1 = t2.
Proof.
  intros H Hk1 Hk2 Hi1 Hi2. apply (vo_live _ _ _ _ (pi_vec _ _ _ _ _ H _ _ _ Hk1)) in Hi1 as (p & Hp & <- & Hid1).
  apply (vo_live _ _ _ _ (pi_vec _ _ _ _ _ H _ _ _ Hk2)) in Hi2 as (q & Hq & Ht & Hid2).
  assert (q = p) as -> by congruence. split; [|exact Ht].
  assert (ids !! p_id p = Some k1) as E1 by (apply (pi_ids _ _ _ _ _ H); eauto).
  assert (ids !! p_id p = Some k2) as E2 by (apply (pi_ids _ _ _ _ _ H); eauto). congruence.
Qed.

(** ** Locks *)

Lemma find_and_lock_spec s id i s' :
  sad_ok s -> ipsec_sa_find_and_lock s id = (s', i) -> i <> INDEX_INVALID ->
  exists sa, pool_lookup (sa_pool s) i = Some sa /\ sa_id sa = id /\
    forall j, pool_lookup (sa_pool s') j =
      if decide (j = i) then Some (sa <| sa_locks := u32 (sa_locks sa + 1) |>) else pool_lookup (sa_pool s) j.
Proof.
  intros H. unfold ipsec_sa_find_and_lock. destruct (_ !! id) as [k|] eqn:E; [|now intros [= _ <-]].
  apply (si_ids _ _ _ _ H) in E as (sa & Hk & Hid). rewrite (pool_lookup_elt _ _ _ Hk).
  intros [= <- <-] _. exists sa. repeat split; auto. intros j. cbn. now apply (pool_write_lookup _ k _ sa).
Qed.

Lemma unlock_others s i sa j :
  sad_ok s -> pool_lookup (sa_pool s) i = Some sa -> j <> i ->
  pool_lookup (sa_pool (ipsec_sa_unlock s i)) j = pool_lookup (sa_pool s) j.
Proof.
  intros H Hi Hj. pose proof (si_locks _ _ _ _ H i sa Hi) as Hl. unfold ipsec_sa_unlock.
  rewrite (pool_index_valid s i sa), (pool_lookup_elt _ _ _ Hi) by assumption. cbv zeta.
  set (sa' := sa <| sa_locks := u32 (sa_locks sa - 1) |>). destruct (sa_locks sa' =? 0).
  - destruct (sad_ok_del s i sa sa') as [_ Hd]; [assumption..|reflexivity|now apply udp_key_of_ext|].
    now rewrite Hd, decide_False.
  - cbn -[sa']. now rewrite (pool_write_lookup _ i sa' sa), decide_False.
Qed.

(** No lock count is at its maximum. *)
Definition locks_bounded (s : sad_t) : Prop :=
  forall i sa, pool_lookup (sa_pool s) i = Some sa -> sa_locks sa < 2 ^ 32 - 1.

(** A new policy with the lock that [policy_lock_sa] took for it. *)
Lemma refs_ok_new pols s d p s' i :
  sad_ok s -> locks_bounded s -> pool_ok pols -> refs_ok pols s ->
  (i = INDEX_INVALID /\ s' = s \/ i <> INDEX_INVALID /\ ipsec_sa_find_and_lock s (p_sa_id p) = (s', i)) ->
  let '(q, j) := pool_get d pols in refs_ok (pool_write q j (p <| p_sa_index := i |>)) s'.
Proof.
  intros Hs Hb Hp [R1 R2] Hi. set (p' := p <| p_sa_index := i |>).
  pose proof (pool_get_write d pols p' Hp) as Ha. pose proof (fun f => pool_count_get_write f d pols p' Hp) as Hc.
  destruct (pool_get d pols) as [q j]. destruct Ha as [Ha Hl].
  assert (forall k p2, pool_lookup (pool_write q j p') k = Some p2 -> k = j /\ p2 = p' \/ pool_lookup pols k = Some p2) as Hq.
  { intros k p2 Hk. destruct (decide (k = j)) as [->|Hne]; [left; split; congruence|].
    right. now rewrite <- (al_other _ _ _ Ha). }
  destruct Hi as [[-> ->]|[Hi Hf]].
  - split; [intros k p2 [[-> ->]|Hk]%Hq; [easy|eauto]|]. intros k sa Hk. rewrite Hc.
    replace (refers k p') with false by (symmetry; unfold refers; cbn; rewrite Z.eqb_sym; eapply pool_index_valid; eassumption).
    specialize (R2 k sa Hk). cbn. lia.
  - destruct (find_and_lock_spec _ _ _ _ Hs Hf Hi) as (sa0 & Hi0 & _ & Hl'). pose proof (Hb i sa0 Hi0) as Hb0.
    pose proof (si_locks _ _ _ _ Hs i sa0 Hi0) as Hl0.
    split.
    + intros k p2 [[-> ->]|Hk]%Hq Hne; rewrite Hl'; cbn; [now rewrite decide_True|]. destruct (decide _); eauto.
    + intros k sa. rewrite Hl', Hc. unfold refers at 2, p'. cbn. destruct (decide (k = i)) as [->|Hne].
      * intros [= <-]. cbn. rewrite Z.eqb_refl, u32_small by (split; lia). specialize (R2 i sa0 Hi0). cbn. lia.
      * intros Hk. rewrite (proj2 (Z.eqb_neq i k)) by congruence. specialize (R2 k sa Hk). cbn. lia.
Qed.

(** A policy freed, and its lock released. *)
Lemma refs_ok_free pols s i p :
  sad_ok s -> refs_ok pols s -> pool_lookup pols i = Some p ->
  refs_ok (pool_put_index pols i) (ipsec_sa_unlock s (p_sa_index p)) /\ sad_ok (ipsec_sa_unlock s (p_sa_index p)).
Proof.
  intros Hs [R1 R2] Hi. pose proof (fun f => pool_count_put f pols i p Hi) as Hc.
  pose proof (fun j => pool_put_lookup pols i p j Hi) as Hl. set (k := p_sa_index p).
  destruct (decide (k = INDEX_INVALID)) as [E|Hne].
  - unfold ipsec_sa_unlock. rewrite E. cbn. split; [|exact Hs]. split.
    + intros j q. rewrite Hl. destruct (decide _); [easy|eauto].
    + intros j sa Hj. rewrite Hc. specialize (R2 j sa Hj). destruct (refers j p); cbn; lia.
  - destruct (R1 i p Hi Hne) as [sa Hk]. fold k in Hk. split; [|exact (sad_ok_unlock s k sa Hs Hk)].
    pose proof (si_locks _ _ _ _ Hs k sa Hk) as Hlk. pose proof (unlock_lookup s k sa Hs Hk) as Hu.
    pose proof (fun j => unlock_others s k sa j Hs Hk) as Ho. pose proof (R2 k sa Hk) as Hck.
    assert (refers k p = true) as Ek by (unfold refers, k; apply Z.eqb_refl). split.
    + intros j q. rewrite Hl. destruct (decide (j = i)); [easy|]. intros Hj Hq.
      destruct (decide (p_sa_index q = k)) as [Eq|]; [|rewrite Ho by assumption; eauto].
      rewrite Eq, Hu. destruct (Z.eqb_spec (sa_locks sa) 1); [|eauto].
      pose proof (pool_count_pos (refers k) (pool_put_index pols i) j q) as Hpos.
      rewrite Hl, decide_False in Hpos by assumption. unfold refers at 1 in Hpos. rewrite (proj2 (Z.eqb_eq _ _) Eq) in Hpos.
      specialize (Hpos Hj eq_refl). rewrite Hc, Ek in Hpos. cbn in Hpos. lia.
    + intros j sa2. rewrite Hc. destruct (decide (j = k)) as [->|Hne2].
      * rewrite Hu, Ek. destruct (Z.eqb_spec (sa_locks sa) 1); [easy|]. intros [= <-]. cbn. lia.
      * rewrite Ho by assumption. intros Hj%R2. destruct (refers j p); cbn; lia.
Qed.

(** *** The other users of associations *)

Lemma pool_count_none {A} (f : A -> bool) p : (forall i x, pool_lookup p i = Some x -> f x = false) -> pool_count f p <= 0.
Proof.
  intros H. assert (forall n x, pool_slots p !! n = Some (false, x) -> f x = false) as Hs.
  { intros n x Hn. apply (H (Z.of_nat n)). unfold pool_lookup, vec_elt. rewrite (proj2 (Z.ltb_ge _ _)), Nat2Z.id, Hn by lia. reflexivity. }
  clear H. unfold pool_count. induction (pool_slots p) as [|[b x] l IH]; cbn [slots_count]; [lia|].
  assert (slot_count f (b, x) = 0) as -> by (unfold slot_count; destruct b; [reflexivity|]; cbn; now rewrite (Hs 0%nat x eq_refl)).
  apply IH. intros n y Hn. exact (Hs (S n) y Hn).
Qed.

(** Operations on associations by others than the policies, of which [held] counts the locks per
    association.  A user gives back only a lock that it holds; an association that policies
    use is not updated to a tunnel that cannot be resolved (there [ipsec_sa_update] frees the
    association under the locks of the policies). *)
Inductive sa_user_step (bmi2 : bool) (env : sad_env) (held : Z -> Z) (s : sad_t) : sad_t -> Prop :=
| su_add id spi proto ca ck ia ik flags salt sp dp sz tun :
    pool_len (sa_pool s) < 2 ^ 32 - 2 ->
    sa_user_step bmi2 env held s (fst (ipsec_sa_add_and_lock bmi2 env s id spi proto ca ck ia ik flags salt sp dp sz tun))
| su_lock i sa :
    pool_lookup (sa_pool s) i = Some sa -> sa_locks sa < 2 ^ 32 - 1 -> sa_user_step bmi2 env held s (ipsec_sa_lock s i)
| su_find id :
    (forall i sa, pool_lookup (sa_pool s) i = Some sa -> sa_id sa = id -> sa_locks sa < 2 ^ 32 - 1) ->
    sa_user_step bmi2 env held s (fst (ipsec_sa_find_and_lock s id))
| su_unlock i sa :
    pool_lookup (sa_pool s) i = Some sa -> held i < sa_locks sa -> sa_user_step bmi2 env held s (ipsec_sa_unlock s i)
| su_unlock_id id :
    (forall i sa, pool_lookup (sa_pool s) i = Some sa -> sa_id sa = id -> held i < sa_locks sa) ->
    sa_user_step bmi2 env held s (fst (ipsec_sa_unlock_id s id))
| su_bind id worker bind : sa_user_step bmi2 env held s (fst (ipsec_sa_bind env s id worker bind))
| su_async b : sa_user_step bmi2 env held s (ipsec_set_async_mode s b)
| su_update id sp dp tun is_tun :
    is_u 16 dp ->
    (forall i sa, pool_lookup (sa_pool s) i = Some sa -> sa_id sa = id ->
       held i = 0 \/ snd (ipsec_sa_update env s id sp dp tun is_tun) = None) ->
    sa_user_step bmi2 env held s (fst (ipsec_sa_update env s id sp dp tun is_tun)).

Lemma sa_user_sad_step bmi2 env held s s' : sa_user_step bmi2 env held s s' -> sad_step bmi2 env s s'.
Proof. destruct 1; econstructor; eassumption. Qed.

(** Association [i] stays, with at least [n] locks. *)
Definition stays (s' : sad_t) (i n : Z) : Prop := exists sa', pool_lookup (sa_pool s') i = Some sa' /\ n <= sa_locks sa'.

Lemma stays_write s s' i sa j x y n :
  pool_lookup (sa_pool s) i = Some sa -> n <= sa_locks sa -> pool_lookup (sa_pool s) j = Some x -> sa_locks x <= sa_locks y ->
  sa_pool s' = pool_write (sa_pool s) j y -> stays s' i n.
Proof.
  intros Hi Hn Hj Hy E. unfold stays. rewrite E, (pool_write_lookup _ j y x) by exact Hj. destruct (decide (i = j)) as [->|Hne]; [|eauto].
  exists y. split; [reflexivity|]. assert (x = sa) as -> by congruence. lia.
Qed.

Lemma async_stays b l : forall p i sa,
  (forall j x, (j, x) ∈ l -> exists y, pool_lookup p j = Some y /\ sa_locks y = sa_locks x) -> pool_lookup p i = Some sa ->
  exists sa', pool_lookup (fold_left (fun p '(i, sa) => pool_write p i (ipsec_sa_set_async_mode sa b)) l p) i = Some sa' /\ sa_locks sa' = sa_locks sa.
Proof.
  induction l as [|[j x] l IH]; intros p i sa Hl Hi; cbn [fold_left]; [eauto|].
  destruct (Hl j x (list_elem_of_here _ _)) as (y & Hj & Ey). destruct (set_async_mode_frame x b) as (_ & F & _).
  assert (forall k z, pool_lookup p k = Some z -> exists z', pool_lookup (pool_write p j (ipsec_sa_set_async_mode x b)) k = Some z' /\ sa_locks z' = sa_locks z) as Hw.
  { intros k z Hk. rewrite (pool_write_lookup p j _ y) by exact Hj. destruct (decide (k = j)) as [->|]; [|eauto]. eexists. split; [reflexivity|]. congruence. }
  destruct (Hw i sa Hi) as (z & Hz & Ez). destruct (IH (pool_write p j (ipsec_sa_set_async_mode x b)) i z) as (sa' & H1 & H2); [|exact Hz|].
  - intros k v Hk. destruct (Hl k v (list_elem_of_further _ _ _ Hk)) as (w & Hw1 & Ew). destruct (Hw k w Hw1) as (w' & Hw2 & Ew'). exists w'. split; [exact Hw2|congruence].
  - exists sa'. split; [exact H1|congruence].
Qed.

Lemma update_tunnel_pool env s i sa tun :
  match snd (sa_update_tunnel env s i sa tun) with
  | inl _ => exists y, sa_pool (fst (sa_update_tunnel env s i sa tun)) = pool_put_index (pool_write (sa_pool s) i y) i
  | inr sa' => sa_pool (fst (sa_update_tunnel env s i sa tun)) = sa_pool s /\ sa_locks sa' = sa_locks sa
  end.
Proof.
  unfold sa_update_tunnel. set (s1 := if _ && _ && _ then sa_update_protect s sa tun else s).
  assert (sa_pool s1 = sa_pool s) as F1 by (unfold s1; destruct (_ && _ && _); [apply sa_update_protect_frame|auto]).
  clearbody s1. cbn -[tunnel_resolve]. destruct (negb _); [|now split].
  destruct (tunnel_resolve _ _ _) as [t [e|]]; cbn; [rewrite F1; eauto|]. split; [exact F1|]. reflexivity.
Qed.

Lemma update_udp_pool s sa sp dp :
  sa_pool (fst (sa_update_udp s sa sp dp)) = sa_pool s /\ sa_locks (snd (sa_update_udp s sa sp dp)) = sa_locks sa.
Proof.
  unfold sa_update_udp. destruct (sa_is_set _ sa); [|now split]. set (r := if _ && _ then _ else (s, sa)).
  assert (sa_pool (fst r) = sa_pool s /\ sa_locks (snd r) = sa_locks sa) as Hr.
  { subst r. destruct (_ && _); [|now split]. split; [|reflexivity]. cbn [fst]. destruct (sa_is_set _ sa); [|reflexivity].
    rewrite (proj1 (register_frame _ _ _)). apply unregister_frame. }
  destruct r as [s1 sa1]. cbn [fst snd] in Hr. destruct (_ && _); exact Hr.
Qed.

Lemma update_stays env s id sp dp tun is_tun i sa n :
  sad_ok s -> pool_lookup (sa_pool s) i = Some sa -> n <= sa_locks sa ->
  (sa_id sa = id -> n = 0 \/ snd (ipsec_sa_update env s id sp dp tun is_tun) = None) -> 0 < n ->
  stays (fst (ipsec_sa_update env s id sp dp tun is_tun)) i n.
Proof.
  intros H Hi Hn. unfold ipsec_sa_update. destruct (sa_index_by_sa_id s !! id) as [j|] eqn:Ej; [|intros _ _; now exists sa].
  apply (si_ids _ _ _ _ H) in Ej as (y & Hj & Hid). rewrite (pool_lookup_elt _ _ _ Hj).
  set (r := if _ && _ && _ then _ else (s, inr y)).
  assert (match snd r with
    | inl _ => exists z, sa_pool (fst r) = pool_put_index (pool_write (sa_pool s) j z) j
    | inr y' => sa_pool (fst r) = sa_pool s /\ sa_locks y' = sa_locks y end) as Hr.
  { subst r. destruct (_ && _ && _); [apply update_tunnel_pool|now split]. }
  destruct r as [s1 [e|y1]]; cbn [fst snd] in Hr.
  - intros Hok Hpos. destruct Hr as [z Ez]. cbn [fst snd] in *. destruct (decide (i = j)) as [->|Hne].
    + assert (y = sa) as -> by congruence. destruct (Hok Hid); [lia|discriminate].
    + exists sa. rewrite Ez, (pool_put_lookup _ j z), decide_False, (pool_write_lookup _ j z y), decide_False by
        (assumption || now rewrite (pool_write_lookup _ j z y), decide_True). now split.
  - intros _ _. destruct Hr as [E1 E2]. destruct (update_udp_pool s1 y1 sp dp) as [U1 U2]. destruct (sa_update_udp s1 y1 sp dp) as [s2 y2]. cbn [fst snd] in *.
    apply (stays_write s _ i sa j y y2 n); [exact Hi|exact Hn|exact Hj|lia|]. cbn. now rewrite U1, E1.
Qed.

Lemma unlock_stays s i n held j sa :
  sad_ok s -> pool_lookup (sa_pool s) i = Some sa -> n <= sa_locks sa -> 0 < n ->
  pool_lookup (sa_pool s) j = Some held -> (i = j -> n < sa_locks held) -> stays (ipsec_sa_unlock s j) i n.
Proof.
  intros H Hi Hn Hpos Hj Hlt. destruct (decide (i = j)) as [->|Hne].
  - assert (held = sa) as -> by congruence. specialize (Hlt eq_refl). exists (sa <| sa_locks := sa_locks sa - 1 |>).
    rewrite (unlock_lookup s j sa H Hi), (proj2 (Z.eqb_neq (sa_locks sa) 1)) by lia. split; [reflexivity|cbn; lia].
  - exists sa. rewrite (unlock_others s j held i H Hj Hne). now split.
Qed.

(** The associations of policies outlive what their other users do. *)
Lemma sa_user_stays bmi2 env held s s' i sa :
  sad_ok s -> sa_user_step bmi2 env held s s' -> pool_lookup (sa_pool s) i = Some sa -> 0 < held i <= sa_locks sa -> stays s' i (held i).
Proof.
  intros H Hs Hi [Hpos Hn]. pose proof (fun j x Hj => si_locks _ _ _ _ H j x Hj) as Hl.
  destruct Hs as [id spi proto ca ck ia ik flags salt sp dp sz tun Hlen|j y Hj Hb|id Hb|j y Hj Hb|id Hb|id w b|b|id sp dp tun is_tun Hdp Hu].
  - pose proof (sa_add_spec bmi2 env s id spi proto ca ck ia ik flags salt sp dp sz tun H Hlen) as [_ Ha].
    destruct (ipsec_sa_add_and_lock _ _ _ _ _ _ _ _ _ _ _ _ _ _ _ _) as [s' [e|j]]; cbn [fst snd] in *; exists sa.
    + destruct Ha as [-> _]. now split.
    + destruct Ha as (Hf & _ & _ & Ho & _). rewrite Ho by congruence. now split.
  - pose proof (Hl j y Hj). apply (stays_write s _ i sa j y (y <| sa_locks := u32 (sa_locks y + 1) |>)); [exact Hi|exact Hn|exact Hj|cbn; rewrite u32_small by (split; lia); lia|].
    unfold ipsec_sa_lock. now rewrite (pool_index_valid s j y), (pool_lookup_elt _ _ _ Hj).
  - unfold ipsec_sa_find_and_lock. destruct (_ !! id) as [j|] eqn:E; [|now exists sa]. apply (si_ids _ _ _ _ H) in E as (y & Hj & Hid).
    rewrite (pool_lookup_elt _ _ _ Hj). pose proof (Hl j y Hj). specialize (Hb j y Hj Hid). cbn [fst].
    apply (stays_write s _ i sa j y (y <| sa_locks := u32 (sa_locks y + 1) |>)); [exact Hi|exact Hn|exact Hj|cbn; rewrite u32_small by (split; lia); lia|reflexivity].
  - apply (unlock_stays s i (held i) y j sa); auto. now intros ->.
  - unfold ipsec_sa_unlock_id. destruct (_ !! id) as [j|] eqn:E; [|now exists sa]. apply (si_ids _ _ _ _ H) in E as (y & Hj & Hid).
    apply (unlock_stays s i (held i) y j sa); auto. intros ->. now apply (Hb j y).
  - unfold ipsec_sa_bind. destruct (_ !! id) as [j|] eqn:E; [|now exists sa]. apply (si_ids _ _ _ _ H) in E as (y & Hj & Hid).
    rewrite (pool_lookup_elt _ _ _ Hj). destruct (negb b); [|destruct (_ <=? w); [now exists sa|]];
      (eapply (stays_write s _ i sa j y); [exact Hi|exact Hn|exact Hj| |reflexivity]; reflexivity).
  - destruct (async_stays b (pool_foreach (sa_pool s)) (sa_pool s) i sa) as (sa' & H1 & H2); [|exact Hi|].
    + intros j x Hx%pool_foreach_elem. eauto.
    + exists sa'. split; [exact H1|lia].
  - apply (update_stays env s id sp dp tun is_tun i sa); auto. intros Hid. destruct (Hu i sa Hi Hid); auto.
Qed.

Lemma refs_ok_user bmi2 env pols s s' :
  sad_ok s -> refs_ok pols s -> sa_user_step bmi2 env (fun k => pool_count (refers k) pols) s s' -> refs_ok pols s'.
Proof.
  intros H [R1 R2] Hs. pose proof (sad_step_ok _ _ _ _ H (sa_user_sad_step _ _ _ _ _ Hs)) as H'.
  assert (forall k sa, pool_lookup (sa_pool s) k = Some sa -> 0 < pool_count (refers k) pols -> stays s' k (pool_count (refers k) pols)) as Hk.
  { intros k sa Hk Hpos. apply (sa_user_stays _ _ _ _ _ _ sa H Hs Hk). split; [exact Hpos|exact (R2 k sa Hk)]. }
  split.
  - intros i p Hi Hne. destruct (R1 i p Hi Hne) as [sa Hsa]. destruct (Hk _ _ Hsa) as (sa' & Hsa' & _); [|eauto].
    apply (pool_count_pos _ _ i p Hi). apply Z.eqb_refl.
  - intros k sa' Hk'. pose proof (si_locks _ _ _ _ H' k sa' Hk'). pose proof (pool_index_valid s' k sa' H' Hk') as Hv%Z.eqb_neq.
    destruct (pool_lookup (sa_pool s) k) as [sa|] eqn:Ek.
    + destruct (Z.le_gt_cases (pool_count (refers k) pols) 0) as [|Hpos]; [lia|]. destruct (Hk k sa Ek) as (x & Hx & Hle); [lia|]. assert (x = sa') as -> by congruence. exact Hle.
    + assert (pool_count (refers k) pols <= 0); [|lia]. apply pool_count_none. intros i p Hi. apply Z.eqb_neq. intros E.
      destruct (R1 i p Hi) as [sa Hsa]; congruence.
Qed.

(** ** Preservation *)

Lemma invalidate_frame im p :
  exists oc ic, invalidate_flow_caches im p = im <| out_cache := oc |> <| in_cache := ic |>.
Proof.
  unfold invalidate_flow_caches.
  destruct (fc_flag (out_cache im) && negb (p_is_ipv6 p) && bool_decide (p_type p = IP4_OUTBOUND)); destruct (_ && _);
    [eexists _, _; reflexivity|exists (flow_cache_invalidate (out_cache im)), (in_cache im)
    |exists (out_cache im), (flow_cache_invalidate (in_cache im))|exists (out_cache im), (in_cache im)];
    now destruct im.
Qed.

Lemma lock_sa_cases im p im' p' :
  policy_lock_sa im p = Some (im', p') ->
  exists s' i, im' = im <| sad := s' |> /\ p' = p <| p_sa_index := i |> /\
    (i = INDEX_INVALID /\ s' = sad im \/ i <> INDEX_INVALID /\ ipsec_sa_find_and_lock (sad im) (p_sa_id p) = (s', i)).
Proof.
  unfold policy_lock_sa. destruct (p_policy p) eqn:Ep.
  1-3: intros [= <- <-]; exists (sad im), INDEX_INVALID; destruct im; auto.
  destruct (ipsec_sa_find_and_lock _ _) as [s' i]. destruct (Z.eqb_spec i INDEX_INVALID); [easy|].
  intros [= <- <-]. exists s', i. auto.
Qed.

Definition main_inv (im : ipsec_main_t) : Prop :=
  spd_inv (policies im) (spds im) (spd_index_by_spd_id im) (spd_index_by_sw_if_index im) (if_features im).

(** Insertion: the new index, and what the state is made of. *)
Lemma spd_insert_spec im k spd p im' j :
  main_inv im -> pool_lookup (spds im) k = Some spd -> p_id p = spd_id spd ->
  spd_insert_policy im k spd p = (im', j) ->
  main_inv im' /\ sad im' = sad im /\ pool_lookup (policies im) j = None /\
  (exists q, pool_get policy_zero (policies im) = (q, j) /\ policies im' = pool_write q j p) /\
  spds im' = pool_write (spds im) k (spd <| spd_policies := set_type (spd_policies spd) (p_type p)
    (priority_insert (prio (policies im')) (p_priority p) j (spd_policies spd (p_type p))) |>).
Proof.
  intros H Hk Hid. unfold spd_insert_policy. pose proof (pool_get_write policy_zero (policies im) p (pi_pols _ _ _ _ _ H)) as Ha.
  destruct (pool_get policy_zero (policies im)) as [q j0]. destruct Ha as [Ha Hl]. intros [= <- <-].
  set (ids := priority_insert _ _ _ _). set (t := p_type p).
  change (fun i => p_priority (policy_at (im <| policies := pool_write q j0 p |>) i)) with (prio (pool_write q j0 p)) in ids.
  pose proof (al_other _ _ _ Ha) as Ho. pose proof (al_fresh _ _ _ Ha) as Hf.
  split; [|repeat split; eauto]. unfold main_inv. cbn.
  apply (spd_inv_change (policies im) _ _ _ _ _ k spd); [exact H|exact Hk|reflexivity|exact (al_ok _ _ _ Ha)|..].
  - intros t'. cbn. unfold set_type. destruct (decide (t' = t)) as [->|].
    + apply (vec_ok_insert (policies im)); auto. now apply (pi_vec _ _ _ _ _ H k).
    + eapply vec_ok_pols; [|exact (pi_vec _ _ _ _ _ H k spd t' Hk)]. intros i Hi. apply Ho. intros ->.
      apply (vo_live _ _ _ _ (pi_vec _ _ _ _ _ H k spd t' Hk)) in Hi as (x & Hx & _). congruence.
  - intros k2 spd2 t' _ Hk2. eapply vec_ok_pols; [|exact (pi_vec _ _ _ _ _ H k2 spd2 t' Hk2)]. intros i Hi. apply Ho. intros ->.
    apply (vo_live _ _ _ _ (pi_vec _ _ _ _ _ H k2 spd2 t' Hk2)) in Hi as (x & Hx & _). congruence.
Qed.

Lemma spd_remove_spec im k spd p :
  main_inv im -> pool_lookup (spds im) k = Some spd ->
  let im' := spd_remove_policy im k spd p in
  match vec_search (fun i => ipsec_policy_is_equal (policy_at im i) p) (spd_policies spd (p_type p)) with
  | None => im' = im
  | Some ii => exists i q, spd_policies spd (p_type p) !! ii = Some i /\ pool_lookup (policies im) i = Some q /\
      ipsec_policy_is_equal q p = true /\ main_inv im' /\
      sad im' = ipsec_sa_unlock (sad im) (p_sa_index q) /\ policies im' = pool_put_index (policies im) i /\
      spds im' = pool_write (spds im) k (spd <| spd_policies := set_type (spd_policies spd) (p_type p)
                   (delete ii (spd_policies spd (p_type p))) |>)
  end.
Proof.
  intros H Hk. cbv zeta. unfold spd_remove_policy. destruct (vec_search _ _) as [ii|] eqn:E; [|reflexivity].
  apply vec_search_lookup in E as (i & Hii & Heq). rewrite (nth_lookup_Some _ _ _ _ Hii).
  pose proof (pi_vec _ _ _ _ _ H k spd (p_type p) Hk) as Hv.
  destruct (vo_live _ _ _ _ Hv i) as (q & Hq & Ht & _); [now apply list_elem_of_lookup; eauto|].
  unfold policy_at in Heq |- *. rewrite (pool_lookup_elt _ _ _ Hq) in *. cbn in Heq. exists i, q.
  pose proof (fun j => pool_put_lookup (policies im) i q j Hq) as Hl.
  assert (forall j, j <> i -> pool_lookup (pool_put_index (policies im) i) j = pool_lookup (policies im) j) as Ho
    by (intros j Hj; now rewrite Hl, decide_False).
  split; [exact Hii|]. split; [exact Hq|]. split; [exact Heq|]. split; [|auto]. change (main_inv _) with (spd_inv (pool_put_index (policies im) i)
    (pool_write (spds im) k (spd <| spd_policies := set_type (spd_policies spd) (p_type p)
       (delete ii (spd_policies spd (p_type p))) |>))
    (spd_index_by_spd_id im) (spd_index_by_sw_if_index im) (if_features im)).
  apply (spd_inv_change (policies im) _ _ _ _ _ k spd); [exact H|exact Hk|reflexivity
    |apply (pool_put_ok _ i q); [exact (pi_pols _ _ _ _ _ H)|exact Hq]|..].
  - intros t'. cbn. unfold set_type. destruct (decide (t' = p_type p)) as [->|Hne].
    + now apply (vec_ok_delete (policies im) _ _ _ _ ii i).
    + eapply vec_ok_pols; [|exact (pi_vec _ _ _ _ _ H k spd t' Hk)]. intros j Hj. apply Ho. intros ->. apply Hne.
      eapply (vec_disjoint _ _ _ _ _ k spd t' k spd (p_type p) i H Hk Hk); [exact Hj|]. apply list_elem_of_lookup. eauto.
  - intros k2 spd2 t' Hne Hk2. eapply vec_ok_pols; [|exact (pi_vec _ _ _ _ _ H k2 spd2 t' Hk2)].
    intros j Hj. apply Ho. intros ->. apply Hne.
    eapply (vec_disjoint _ _ _ _ _ k2 spd2 t' k spd (p_type p) i H Hk2 Hk); [exact Hj|]. apply list_elem_of_lookup. eauto.
Qed.

Lemma spd_ok_caches im oc ic : spd_ok im -> spd_ok (im <| out_cache := oc |> <| in_cache := ic |>).
Proof. intros [H1 H2 H3]. now split. Qed.

Lemma spd_ok_invalidate im p : spd_ok im -> spd_ok (invalidate_flow_caches im p).
Proof. destruct (invalidate_frame im p) as (oc & ic & ->). apply spd_ok_caches. Qed.

(** The two operations on policies without the fast path. *)
Lemma add_policy_linear im p :
  fp_off im ->
  ipsec_add_del_policy im p true =
  match spd_index_by_spd_id im !! p_id p with
  | None => (im, inl SYSCALL_ERROR_1)
  | Some k =>
      match pool_elt_at_index (spds im) k with
      | None => (im, inl SYSCALL_ERROR_1)
      | Some spd =>
          let im := invalidate_flow_caches im p in
          match policy_lock_sa im p with
          | None => (im, inl SYSCALL_ERROR_1)
          | Some (im, p) => let '(im, j) := spd_insert_policy im k spd p in (im, inr j)
          end
      end
  end.
Proof.
  intros H. unfold ipsec_add_del_policy. destruct (_ !! _) as [k|]; [|reflexivity].
  destruct (pool_elt_at_index _ k) as [spd|]; [|reflexivity]. cbv zeta.
  destruct (invalidate_frame im p) as (oc & ic & ->). set (im1 := im <| out_cache := oc |> <| in_cache := ic |>).
  destruct (policy_lock_sa im1 p) as [[im2 p2]|] eqn:E; [|reflexivity].
  apply lock_sa_cases in E as (s' & i & -> & -> & _). rewrite fp_off_not_enabled by exact H. reflexivity.
Qed.

Lemma del_policy_linear im p :
  fp_off im ->
  ipsec_add_del_policy im p false =
  match spd_index_by_spd_id im !! p_id p with
  | None => (im, inl SYSCALL_ERROR_1)
  | Some k =>
      match pool_elt_at_index (spds im) k with
      | None => (im, inl SYSCALL_ERROR_1)
      | Some spd => (spd_remove_policy (invalidate_flow_caches im p) k spd p, inr 0)
      end
  end.
Proof.
  intros H. unfold ipsec_add_del_policy. destruct (_ !! _) as [k|]; [|reflexivity].
  destruct (pool_elt_at_index _ k) as [spd|]; [|reflexivity]. cbv zeta.
  destruct (invalidate_frame im p) as (oc & ic & ->). rewrite fp_off_not_enabled by exact H. reflexivity.
Qed.

(** Addition: the state when it succeeds. *)
Lemma add_policy_spec im p im' j :
  spd_ok im -> fp_off im -> locks_bounded (sad im) -> ipsec_add_del_policy im p true = (im', inr j) ->
  spd_ok im' /\ exists k spd i q,
    spd_index_by_spd_id im !! p_id p = Some k /\ pool_lookup (spds im) k = Some spd /\
    pool_lookup (policies im) j = None /\
    pool_get policy_zero (policies im) = (q, j) /\ policies im' = pool_write q j (p <| p_sa_index := i |>) /\
    spds im' = pool_write (spds im) k (spd <| spd_policies := set_type (spd_policies spd) (p_type p)
      (priority_insert (prio (policies im')) (p_priority p) j (spd_policies spd (p_type p))) |>).
Proof.
  intros Hok Hfp Hb. rewrite add_policy_linear by exact Hfp. destruct (_ !! p_id p) as [k|] eqn:Ek; [|easy].
  pose proof Ek as (spd & Hk & Hid)%(pi_ids _ _ _ _ _ (so_spds _ Hok)). rewrite (pool_lookup_elt _ _ _ Hk). cbv zeta.
  destruct (invalidate_frame im p) as (oc & ic & ->). set (im1 := im <| out_cache := oc |> <| in_cache := ic |>).
  destruct (policy_lock_sa im1 p) as [[im2 p2]|] eqn:E; [|easy].
  apply lock_sa_cases in E as (s' & i & -> & -> & Hlock). change (sad im1) with (sad im) in Hlock.
  set (p2 := p <| p_sa_index := i |>). destruct (spd_insert_policy _ k spd p2) as [im3 j3] eqn:Ei. intros [= <- <-].
  pose proof (refs_ok_new (policies im) (sad im) policy_zero p s' i (so_sad _ Hok) Hb (pi_pols _ _ _ _ _ (so_spds _ Hok))
    (so_refs _ Hok) Hlock) as Hr.
  assert (sad_ok s') as Hs'.
  { destruct Hlock as [[_ ->]|[_ Hf]]; [exact (so_sad _ Hok)|]. replace s' with (fst (ipsec_sa_find_and_lock (sad im) (p_sa_id p)))
      by now rewrite Hf. apply sad_ok_find_and_lock; [exact (so_sad _ Hok)|]. intros x sa Hx _. exact (Hb x sa Hx). }
  apply spd_insert_spec in Ei as (Hm & Es & Hf & (q & Eq & Ep) & Esp); [|exact (so_spds _ Hok)|exact Hk|symmetry; exact Hid].
  change (policies (im1 <| sad := s' |>)) with (policies im) in Eq, Hf. rewrite Eq in Hr. split.
  - split; [exact Hm|rewrite Es; exact Hs'|rewrite Ep, Es; exact Hr].
  - exists k, spd, i, q. repeat split; auto.
Qed.

Lemma spd_ok_add_policy im p :
  spd_ok im -> fp_off im -> locks_bounded (sad im) -> spd_ok (fst (ipsec_add_del_policy im p true)).
Proof.
  intros Hok Hfp Hb. destruct (ipsec_add_del_policy im p true) as [im' [e|j]] eqn:E;
    [|now eapply add_policy_spec in E as [H _]].
  rewrite add_policy_linear in E by exact Hfp. destruct (_ !! p_id p) as [k|]; [|now injection E as <- <-].
  destruct (pool_elt_at_index _ k) as [spd|]; [|now injection E as <- <-]. cbv zeta in E.
  destruct (policy_lock_sa _ p) as [[im2 p2]|]; [|injection E as <- <-; now apply spd_ok_invalidate].
  destruct (spd_insert_policy _ _ _ _); easy.
Qed.

Lemma spd_ok_del_policy im p : spd_ok im -> fp_off im -> spd_ok (fst (ipsec_add_del_policy im p false)).
Proof.
  intros Hok Hfp. rewrite del_policy_linear by exact Hfp. destruct (_ !! p_id p) as [k|] eqn:Ek; [|exact Hok].
  pose proof Ek as (spd & Hk & Hid)%(pi_ids _ _ _ _ _ (so_spds _ Hok)). rewrite (pool_lookup_elt _ _ _ Hk).
  pose proof (spd_ok_invalidate im p Hok) as Hok'. destruct (invalidate_frame im p) as (oc & ic & E). rewrite E in *.
  set (im1 := im <| out_cache := oc |> <| in_cache := ic |>) in *. cbn [fst].
  pose proof (spd_remove_spec im1 k spd p (so_spds _ Hok') Hk) as Hr. cbv zeta in Hr. destruct (vec_search _ _) as [ii|].
  - destruct Hr as (i & q & _ & Hq & _ & Hm & Es & Ep & _). destruct (refs_ok_free _ _ _ _ (so_sad _ Hok') (so_refs _ Hok') Hq).
    split; [exact Hm|now rewrite Es|now rewrite Es, Ep].
  - rewrite Hr. exact Hok'.
Qed.

(** ** SPDs and interfaces *)

Lemma fp_off_ifs im m1 m2 : fp_off im -> fp_off (im <| spd_index_by_sw_if_index := m1 |> <| if_features := m2 |>).
Proof. auto. Qed.

Lemma spd_ok_set_interface im sw id is_add : spd_ok im -> spd_ok (fst (ipsec_set_interface_spd im sw id is_add)).
Proof.
  intros Hok. unfold ipsec_set_interface_spd. destruct (spd_index_by_spd_id im !! id) as [k|] eqn:Ek; [|exact Hok].
  pose proof Hok as [[H1 H2 H3 H4 H5 H6] Hs Hr]. apply H4 in Ek as (spd & Hk & _).
  assert (forall (m : gmap Z Z), (forall i k2, m !! i = Some k2 -> is_Some (pool_lookup (spds im) k2)) ->
    spd_ok (im <| spd_index_by_sw_if_index := m |> <| if_features := m |>)) as Hm by (intros m Hm; now split).
  destruct (spd_index_by_sw_if_index im !! sw), is_add; cbn [fst]; try exact Hok; rewrite H6; apply Hm; intros i k2.
  - rewrite lookup_delete_Some. intros [_ Hi]. eauto.
  - rewrite lookup_insert_Some. intros [[_ <-]|[_ Hi]]; eauto.
  - rewrite lookup_delete_Some. intros [_ Hi]. eauto.
Qed.

(** The interfaces of an SPD are released before it is deleted. *)
Lemma del_spd_ifs im id k l :
  if_features im = spd_index_by_sw_if_index im -> is_Some (spd_index_by_spd_id im !! id) ->
  exists m, fold_left (fun im '(x, v) => if v =? k then fst (ipsec_set_interface_spd im x id false) else im) l im =
      im <| spd_index_by_sw_if_index := m |> <| if_features := m |> /\
    (forall x v, m !! x = Some v -> spd_index_by_sw_if_index im !! x = Some v /\ (x, k) ∉ l).
Proof.
  revert im. induction l as [|[x v] l IH]; intros im Hf Hid; cbn [fold_left].
  - exists (spd_index_by_sw_if_index im). split; [destruct im; cbn in Hf; subst; reflexivity|]. intros x v Hx. split; [exact Hx|].
    apply not_elem_of_nil.
  - destruct (Z.eqb_spec v k) as [->|Hv].
    + destruct (IH (fst (ipsec_set_interface_spd im x id false))) as (m & -> & Hm).
      * unfold ipsec_set_interface_spd. destruct Hid as [i ->].
        assert (delete x (if_features im) = delete x (spd_index_by_sw_if_index im)) by now rewrite Hf.
        now destruct (spd_index_by_sw_if_index im !! x).
      * unfold ipsec_set_interface_spd. destruct Hid as [i E]. rewrite E. destruct (_ !! x); exists i; exact E.
      * exists m. unfold ipsec_set_interface_spd in *. destruct Hid as [i E]. rewrite E in *.
        split; [destruct (spd_index_by_sw_if_index im !! x); reflexivity|]. intros y w Hy%Hm. destruct Hy as [Hy Hn].
        assert (delete x (spd_index_by_sw_if_index im) !! y = Some w) as Hd by (destruct (spd_index_by_sw_if_index im !! x); exact Hy).
        apply lookup_delete_Some in Hd as [Hne Hd]. split; [exact Hd|]. intros [[= -> ]|Hin]%elem_of_cons; auto.
    + destruct (IH im Hf Hid) as (m & E & Hm). exists m. split; [exact E|]. intros y w Hy%Hm. destruct Hy as [Hy Hn].
      split; [exact Hy|]. intros [[= -> ->]|Hin]%elem_of_cons; auto.
Qed.

Lemma spd_inv_put pols sp ids ifs ifs' feats k spd spd' :
  spd_inv pols sp ids ifs feats -> pool_lookup sp k = Some spd ->
  (forall x v, ifs' !! x = Some v -> ifs !! x = Some v /\ v <> k) ->
  spd_inv pols (pool_put_index (pool_write sp k spd') k) (delete (spd_id spd) ids) ifs' ifs'.
Proof.
  intros [H1 H2 H3 H4 H5 H6] Hk Hi. pose proof (pool_write_lookup sp k spd' spd) as Hw.
  assert (pool_lookup (pool_write sp k spd') k = Some spd') as Hk' by (rewrite Hw, decide_True; auto).
  assert (forall j, pool_lookup (pool_put_index (pool_write sp k spd') k) j =
    if decide (j = k) then None else pool_lookup sp j) as Hl.
  { intros j. rewrite (pool_put_lookup _ k spd') by assumption. rewrite Hw by assumption. now destruct (decide _). }
  split; auto.
  - apply (pool_put_ok _ k spd'); [now apply pool_write_ok|assumption].
  - intros j s t. rewrite Hl. destruct (decide _); [easy|apply H3].
  - intros id j. rewrite lookup_delete_Some, H4, Hl. split.
    + intros [Hne (s & Hs & <-)]. destruct (decide (j = k)); [congruence|eauto].
    + intros (s & Hs & <-). destruct (decide (j = k)) as [|Hne]; [easy|]. split; [|eauto]. intros E. apply Hne.
      assert (ids !! spd_id s = Some j) as E1 by (apply H4; eauto).
      assert (ids !! spd_id spd = Some k) as E2 by (apply H4; eauto). congruence.
  - intros x v (Hx & Hne)%Hi. rewrite Hl, decide_False by assumption. eauto.
Qed.

Lemma spd_inv_new pols sp ids ifs feats d spd :
  spd_inv pols sp ids ifs feats -> ids !! spd_id spd = None -> (forall t, spd_policies spd t = []) ->
  let '(q, k) := pool_get d sp in spd_inv pols (pool_write q k spd) (<[spd_id spd := k]> ids) ifs feats.
Proof.
  intros [H1 H2 H3 H4 H5 H6] Hid Hv. pose proof (pool_get_write d sp spd H2) as Ha. destruct (pool_get d sp) as [q k].
  destruct Ha as [Ha Hl]. pose proof (al_other _ _ _ Ha) as Ho. pose proof (al_fresh _ _ _ Ha) as Hf. split; auto.
  - exact (al_ok _ _ _ Ha).
  - intros j s t Hj. destruct (decide (j = k)) as [->|Hne]; [|rewrite Ho in Hj by assumption; now apply (H3 j)].
    assert (s = spd) as -> by congruence. rewrite Hv. split; [set_solver|constructor|constructor].
  - intros id j. rewrite lookup_insert_Some. split.
    + intros [[<- <-]|[Hne Hj]]; [eauto|]. apply H4 in Hj as (s & Hs & <-). exists s. rewrite Ho; [auto|congruence].
    + intros (s & Hs & <-). destruct (decide (j = k)) as [->|Hne]; [left; split; congruence|].
      rewrite Ho in Hs by assumption. right. assert (ids !! spd_id s = Some j) as E by (apply H4; eauto). split; congruence.
  - intros x v [s Hs]%H5. rewrite Ho; [eauto|congruence].
Qed.

Lemma spd_ok_add_del_spd im id is_add : spd_ok im -> fp_off im -> spd_ok (fst (ipsec_add_del_spd im id is_add)).
Proof.
  intros Hok (F1 & F2 & F3 & F4). unfold ipsec_add_del_spd. pose proof (so_spds _ Hok) as Hinv.
  destruct (spd_index_by_spd_id im !! id) as [k|] eqn:Ek, is_add; try exact Hok.
  - pose proof Ek as (spd & Hk & Hid)%(pi_ids _ _ _ _ _ Hinv). rewrite (pool_lookup_elt _ _ _ Hk). cbn [fst].
    unfold ipsec_del_spd. destruct (del_spd_ifs im id k (map_to_list (spd_index_by_sw_if_index im))
      (pi_feats _ _ _ _ _ Hinv)) as (m & -> & Hm); [eauto|].
    split; [|exact (so_sad _ Hok)|exact (so_refs _ Hok)]. cbn. rewrite <- Hid.
    apply (spd_inv_put _ _ _ (spd_index_by_sw_if_index im) _ (if_features im)); [exact Hinv|exact Hk|].
    intros x v [Hx Hn]%Hm. split; [exact Hx|]. intros ->. apply Hn. now apply elem_of_map_to_list.
  - unfold ipsec_new_spd, spd_new_table. rewrite F1, F2, F3, F4. cbn [andb fst].
    set (spd := mk_spd id _ _). pose proof (spd_inv_new _ _ _ _ _ (mk_spd 0 (fun _ => []) (mk_spd_fp (fun _ => []) 0 0 0 0))
      spd Hinv Ek (fun _ => eq_refl)) as Hn. destruct (pool_get _ _) as [q k].
    split; [exact Hn|exact (so_sad _ Hok)|exact (so_refs _ Hok)].
Qed.

(** ** Histories *)

(** The operations of the control plane and the lookups of the data plane.  Associations have
    other users, who respect the locks of the policies. *)
Inductive spd_step (bmi2 : bool) (env : sad_env) (hash : Z -> Z -> Z) (im : ipsec_main_t) : ipsec_main_t -> Prop :=
| st_spd id is_add : spd_step bmi2 env hash im (fst (ipsec_add_del_spd im id is_add))
| st_interface sw id is_add : spd_step bmi2 env hash im (fst (ipsec_set_interface_spd im sw id is_add))
| st_add_policy p : locks_bounded (sad im) -> spd_step bmi2 env hash im (fst (ipsec_add_del_policy im p true))
| st_del_policy p : spd_step bmi2 env hash im (fst (ipsec_add_del_policy im p false))
| st_sad s' : sa_user_step bmi2 env (fun i => pool_count (refers i) (policies im)) (sad im) s' -> spd_step bmi2 env hash im (im <| sad := s' |>)
| st_output spd tuple fp_policy_id pr la ra lp rp fc :
    spd_step bmi2 env hash im (fst (ipsec_output_policy_match hash im spd tuple fp_policy_id pr la ra lp rp fc))
| st_input spd sa da t : spd_step bmi2 env hash im (fst (ipsec_input_policy_match hash im spd sa da t))
| st_input_protect spd sa da spi : spd_step bmi2 env hash im (fst (ipsec_input_protect_policy_match hash im spd sa da spi)).

Lemma fp_off_add_del_policy im p is_add : fp_off im -> fp_off (fst (ipsec_add_del_policy im p is_add)).
Proof.
  intros H. destruct is_add; [rewrite add_policy_linear by exact H|rewrite del_policy_linear by exact H].
  - destruct (_ !! p_id p) as [k|]; [|exact H]. destruct (pool_elt_at_index _ k) as [spd|]; [|exact H]. cbv zeta.
    destruct (invalidate_frame im p) as (oc & ic & ->). destruct (policy_lock_sa _ p) as [[im2 p2]|] eqn:E; [|exact H].
    apply lock_sa_cases in E as (s' & i & -> & _). unfold spd_insert_policy. destruct (pool_get _ _). exact H.
  - destruct (_ !! p_id p) as [k|]; [|exact H]. destruct (pool_elt_at_index _ k) as [spd|]; [|exact H].
    destruct (invalidate_frame im p) as (oc & ic & ->). unfold spd_remove_policy. destruct (vec_search _ _); exact H.
Qed.

Lemma fp_off_add_del_spd im id is_add : spd_ok im -> fp_off im -> fp_off (fst (ipsec_add_del_spd im id is_add)).
Proof.
  intros Hok H. unfold ipsec_add_del_spd. destruct (_ !! id) as [k|] eqn:Ek, is_add; try exact H.
  - destruct (pool_elt_at_index _ k) as [spd|]; [|exact H]. cbn [fst]. unfold ipsec_del_spd.
    destruct (del_spd_ifs im id k (map_to_list (spd_index_by_sw_if_index im)) (pi_feats _ _ _ _ _ (so_spds _ Hok))) as (m & -> & _);
      [eauto|]. exact H.
  - unfold ipsec_new_spd. destruct (pool_get _ _). repeat destruct (spd_new_table _ _ _). exact H.
Qed.

Lemma out_match_caches hash im spd tuple fid pr la ra lp rp fc :
  exists oc, fst (ipsec_output_policy_match hash im spd tuple fid pr la ra lp rp fc) = im <| out_cache := oc |>.
Proof.
  unfold ipsec_output_policy_match, ipsec4_out_spd_add_flow_cache_entry. destruct (has_ports pr), (_ && _);
    [|destruct (find_policy _ _ (fun p => out4_rule _ _ _ _ _ _))| |destruct (find_policy _ _ (fun p => out4_rule _ _ _ _ _ _))];
    destruct fc; cbn [fst]; eauto; exists (out_cache im); now destruct im.
Qed.

Lemma in_match_caches hash im spd sa da t spi :
  (exists ic, fst (ipsec_input_policy_match hash im spd sa da t) = im <| in_cache := ic |>) /\
  (exists ic, fst (ipsec_input_protect_policy_match hash im spd sa da spi) = im <| in_cache := ic |>).
Proof.
  unfold ipsec_input_policy_match, ipsec_input_protect_policy_match, ipsec4_input_spd_add_flow_cache_entry.
  split; (destruct (find_policy _ _ _); [destruct (fc_flag _)|]; cbn [fst]; eauto; exists (in_cache im); now destruct im).
Qed.

Lemma spd_step_ok bmi2 env hash im im' :
  spd_ok im /\ fp_off im -> spd_step bmi2 env hash im im' -> spd_ok im' /\ fp_off im'.
Proof.
  intros [H Hfp] Hs. destruct Hs.
  - split; [now apply spd_ok_add_del_spd|now apply fp_off_add_del_spd].
  - split; [now apply spd_ok_set_interface|]. unfold ipsec_set_interface_spd.
    destruct (_ !! id); [|exact Hfp]. destruct (_ !! sw), is_add; exact Hfp.
  - split; [now apply spd_ok_add_policy|now apply fp_off_add_del_policy].
  - split; [now apply spd_ok_del_policy|now apply fp_off_add_del_policy].
  - split; [|exact Hfp]. destruct H as [A1 A2 A3]. split; [exact A1|exact (sad_step_ok bmi2 env _ _ A2 (sa_user_sad_step _ _ _ _ _ ltac:(eassumption)))|exact (refs_ok_user _ _ _ _ _ A2 A3 ltac:(eassumption))].
  - destruct (out_match_caches hash im spd tuple fp_policy_id pr la ra lp rp fc) as [oc ->]. split; [destruct H; now split|exact Hfp].
  - destruct (in_match_caches hash im spd sa da t 0) as [[ic ->] _]. split; [destruct H; now split|exact Hfp].
  - destruct (in_match_caches hash im spd sa da IP4_OUTBOUND spi) as [_ [ic ->]]. split; [destruct H; now split|exact Hfp].
Qed.

(** A state from which the histories start: nothing is configured but the caches. *)
Definition spd_start (oc ic : flow_cache) : ipsec_main_t := ipsec_main_init <| out_cache := oc |> <| in_cache := ic |>.

Lemma spd_start_ok oc ic : spd_ok (spd_start oc ic) /\ fp_off (spd_start oc ic).
Proof.
  split; [|now repeat split]. split; [split|exact sad_init_ok|split]; cbn; auto with vpp.
  - intros k spd t. now rewrite pool_empty_lookup.
  - intros id k. rewrite lookup_empty. split; [easy|]. intros (? & H & _). now rewrite pool_empty_lookup in H.
  - intros i k. now rewrite lookup_empty.
  - intros i p. now rewrite pool_empty_lookup.
  - intros k sa. now rewrite pool_empty_lookup.
Qed.

Lemma reachable_ok bmi2 env hash oc ic im :
  rtc (spd_step bmi2 env hash) (spd_start oc ic) im -> spd_ok im /\ fp_off im.
Proof.
  intros H. pose proof (spd_start_ok oc ic) as H0. revert H H0. generalize (spd_start oc ic).
  induction 1 as [|x y z Hs _ IH]; [auto|]. intros Hx. apply IH. exact (spd_step_ok _ _ _ _ _ Hx Hs).
Qed.

(** ** Lookups *)

(** [r] is a policy of [ids] of highest priority that satisfies [rule]. *)
Definition best_policy_of (im : ipsec_main_t) (ids : list Z) (rule : ipsec_policy_t -> Prop) (r : option Z) : Prop :=
  match r with
  | None => forall i, i ∈ ids -> ~ rule (policy_at im i)
  | Some i => i ∈ ids /\ rule (policy_at im i) /\
      forall j, j ∈ ids -> rule (policy_at im j) -> p_priority (policy_at im j) <= p_priority (policy_at im i)
  end.

Lemma find_policy_best im ids rule P :
  (forall p, rule p = true <-> P p) -> prio_sorted (prio (policies im)) ids ->
  best_policy_of im ids P (find_policy im ids rule).
Proof.
  intros He Hs. unfold find_policy. induction Hs as [|i ids Hs IH Hi]; cbn; [intros i Hi; set_solver|].
  destruct (rule (policy_at im i)) eqn:E.
  - split; [left|]. split; [now apply He|]. intros j [->|Hj]%elem_of_cons _; [reflexivity|].
    rewrite Forall_forall in Hi. now apply Hi.
  - assert (~ P (policy_at im i)) as Hn by (rewrite <- He; congruence). destruct (List.find _ ids) as [k|]; cbn in *.
    + destruct IH as (Hk & HP & Hbest). split; [now right|]. split; [exact HP|]. intros j [->|Hj]%elem_of_cons HPj; [easy|auto].
    + intros j [->|Hj]%elem_of_cons; [exact Hn|auto].
Qed.

(** The packet of an outbound IPv4 policy, as a condition. *)
Definition out4_packet (pr la ra lp rp : Z) (p : ipsec_policy_t) : Prop :=
  (p_protocol p = IPSEC_POLICY_PROTOCOL_ANY \/ p_protocol p = pr) /\
  ip4_host (ar_start (p_laddr p)) <= la <= ip4_host (ar_stop (p_laddr p)) /\
  ip4_host (ar_start (p_raddr p)) <= ra <= ip4_host (ar_stop (p_raddr p)) /\
  (pr = IP_PROTOCOL_TCP \/ pr = IP_PROTOCOL_UDP \/ pr = IP_PROTOCOL_SCTP ->
   pr_start (p_lport p) <= lp <= pr_stop (p_lport p) /\ pr_start (p_rport p) <= rp <= pr_stop (p_rport p)).

Lemma in_range_iff x lo hi : in_range x lo hi = true <-> lo <= x <= hi.
Proof. unfold in_range. rewrite andb_true_iff, !negb_true_iff, !Z.ltb_ge. reflexivity. Qed.

Lemma has_ports_iff pr : has_ports pr = true <-> pr = IP_PROTOCOL_TCP \/ pr = IP_PROTOCOL_UDP \/ pr = IP_PROTOCOL_SCTP.
Proof. unfold has_ports. rewrite !orb_true_iff, !Z.eqb_eq. tauto. Qed.

Lemma policy_ports_match_iff p pr lp rp :
  policy_ports_match p pr lp rp = true <->
  (pr = IP_PROTOCOL_TCP \/ pr = IP_PROTOCOL_UDP \/ pr = IP_PROTOCOL_SCTP ->
   pr_start (p_lport p) <= lp <= pr_stop (p_lport p) /\ pr_start (p_rport p) <= rp <= pr_stop (p_rport p)).
Proof.
  unfold policy_ports_match. rewrite orb_true_iff, andb_true_iff, negb_true_iff, !in_range_iff, <- has_ports_iff.
  destruct (has_ports pr); intuition congruence.
Qed.

Lemma out4_rule_iff p pr la ra lp rp : out4_rule p pr la ra lp rp = true <-> out4_packet pr la ra lp rp p.
Proof.
  unfold out4_rule, out4_packet, proto_match, addr4_match.
  rewrite !andb_true_iff, orb_true_iff, !Z.eqb_eq, !in_range_iff, policy_ports_match_iff. tauto.
Qed.

(** Without the fast path, the outbound lookup is the search of the vector. *)
Lemma out_match_linear hash im spd tuple fid pr la ra lp rp fc :
  fp_off im -> snd (ipsec_output_policy_match hash im spd tuple fid pr la ra lp rp fc) =
  find_policy im (spd_policies spd IP4_OUTBOUND) (fun p => out4_rule p pr la ra lp rp).
Proof.
  intros (H & _). unfold ipsec_output_policy_match. rewrite H. cbn [andb].
  destruct (has_ports pr); now destruct (find_policy _ _ _).
Qed.

(** The search after an insertion. *)
Lemma find_insert f (rule : Z -> bool) i ids :
  prio_sorted f ids -> 
  List.find rule (priority_insert f (f i) i ids) =
  match List.find rule ids with
  | Some j => if rule i && (f j <=? f i) then Some i else Some j
  | None => if rule i then Some i else None
  end.
Proof.
  intros Hs. destruct (priority_insert_split f (f i) i ids Hs) as (l1 & l2 & -> & -> & H1 & H2). clear Hs.
  induction H1 as [|j l1 Hj H1 IH]; cbn.
  - destruct (rule i); [|now destruct (List.find rule l2)]. destruct (List.find rule l2) as [j|] eqn:E; [|reflexivity].
    apply find_some in E as [Hj _]. rewrite Forall_forall in H2. apply list_elem_of_In in Hj.
    rewrite (proj2 (Z.leb_le _ _)) by auto. reflexivity.
  - destruct (rule j) eqn:Ej; [|exact IH]. rewrite (proj2 (Z.leb_gt (f j) (f i))) by lia. now rewrite andb_false_r.
Qed.

Lemma find_ext_in {A} (f g : A -> bool) l : (forall x, x ∈ l -> f x = g x) -> List.find f l = List.find g l.
Proof. induction l as [|x l IH]; cbn; intros H; [reflexivity|]. rewrite H, IH by set_solver. reflexivity. Qed.

Lemma find_app_list {A} (f : A -> bool) l1 l2 :
  List.find f (l1 ++ l2) = match List.find f l1 with Some x => Some x | None => List.find f l2 end.
Proof. induction l1 as [|x l1 IH]; cbn; [reflexivity|]. now destruct (f x). Qed.

(** The search after a removal. *)
Lemma find_delete {A} (f : A -> bool) l k y :
  l !! k = Some y -> List.find f l <> Some y -> List.find f (delete k l) = List.find f l.
Proof.
  intros Hk. pose proof (take_drop_middle _ _ _ Hk) as E. rewrite delete_take_drop.
  set (a := take k l) in *. set (b := drop (S k) l) in *. clearbody a b. subst l. rewrite !find_app_list. cbn.
  destruct (List.find f a); [reflexivity|]. now destruct (f y).
Qed.

(** Policies in use before stay as they are. *)
Lemma policy_at_same im im' i q :
  pool_lookup (policies im) i = Some q -> pool_lookup (policies im') i = Some q -> policy_at im' i = policy_at im i.
Proof. intros H H'. unfold policy_at. now rewrite (pool_lookup_elt _ _ _ H), (pool_lookup_elt _ _ _ H'). Qed.

Lemma find_policy_same im im' ids rule :
  (forall i, i ∈ ids -> policy_at im' i = policy_at im i) -> find_policy im' ids rule = find_policy im ids rule.
Proof. intros H. apply find_ext_in. intros i Hi. now rewrite H. Qed.

(** What an addition changes. *)
Lemma add_policy_lookups im p im' j k spd rule :
  spd_ok im -> fp_off im -> locks_bounded (sad im) ->
  ipsec_add_del_policy im p true = (im', inr j) ->
  spd_index_by_spd_id im !! p_id p = Some k -> pool_lookup (spds im) k = Some spd ->
  exists spd' i, pool_lookup (spds im') k = Some spd' /\ policy_at im' j = p <| p_sa_index := i |> /\
    find_policy im' (spd_policies spd' (p_type p)) rule =
      match find_policy im (spd_policies spd (p_type p)) rule with
      | Some m => if rule (policy_at im' j) && (p_priority (policy_at im m) <=? p_priority p) then Some j else Some m
      | None => if rule (policy_at im' j) then Some j else None
      end /\
    (forall t, t <> p_type p ->
       find_policy im' (spd_policies spd' t) rule = find_policy im (spd_policies spd t) rule) /\
    (forall k2 spd2 t, k2 <> k -> pool_lookup (spds im) k2 = Some spd2 -> pool_lookup (spds im') k2 = Some spd2 /\
       find_policy im' (spd_policies spd2 t) rule = find_policy im (spd_policies spd2 t) rule).
Proof.
  intros Hok Hfp Hb Ha Ek Hk. pose proof (so_spds _ Hok) as Hinv.
  apply add_policy_spec in Ha as (_ & k0 & spd0 & i & q & Ek0 & Hk0 & Hj & Eq & Ep & Es); [|assumption..].
  rewrite Ek in Ek0. injection Ek0 as <-. rewrite Hk in Hk0. injection Hk0 as <-.
  pose proof (pool_get_write policy_zero (policies im) (p <| p_sa_index := i |>) (pi_pols _ _ _ _ _ Hinv)) as Hg.
  rewrite Eq, <- Ep in Hg. destruct Hg as [Hal Hl].
  assert (forall k2 spd2 t m, pool_lookup (spds im) k2 = Some spd2 -> m ∈ spd_policies spd2 t ->
    policy_at im' m = policy_at im m) as Hsame.
  { intros k2 spd2 t m Hk2 Hm. destruct (vo_live _ _ _ _ (pi_vec _ _ _ _ _ Hinv _ _ t Hk2) m Hm) as (x & Hx & _).
    eapply policy_at_same; [exact Hx|eapply allocated_elt; eassumption]. }
  pose proof (fun x => pool_write_lookup (spds im) k x spd) as Hw. rewrite Es.
  eexists _, i. split; [now rewrite Hw, decide_True|]. split; [unfold policy_at; now rewrite (pool_lookup_elt _ _ _ Hl)|].
  cbn [spd_policies]. split; [|split].
  - cbn. unfold set_type. rewrite decide_True by reflexivity. unfold find_policy.
    change (p_priority p) with (p_priority (p <| p_sa_index := i |>)). rewrite <- (prio_lookup _ _ _ Hl), find_insert.
    + rewrite (find_ext_in _ (fun m => rule (policy_at im m))) by (intros m Hm; now rewrite (Hsame k spd _ m Hk Hm)).
      destruct (List.find _ (spd_policies spd (p_type p))) as [m|] eqn:Em; [|reflexivity].
      apply find_some in Em as [Hm%list_elem_of_In _]. change (prio (policies im') m) with (p_priority (policy_at im' m)).
      now rewrite (Hsame k spd _ m Hk Hm).
    + eapply prio_sorted_ext; [|exact (vo_sorted _ _ _ _ (pi_vec _ _ _ _ _ Hinv k spd (p_type p) Hk))].
      intros m Hm. change (p_priority (policy_at im m) = p_priority (policy_at im' m)). now rewrite (Hsame k spd _ m Hk Hm).
  - intros t Ht. cbn. unfold set_type. rewrite decide_False by assumption. apply find_policy_same. eauto.
  - intros k2 spd2 t Hne Hk2. rewrite Hw, decide_False by assumption. split; [exact Hk2|]. apply find_policy_same. eauto.
Qed.

(** What a removal changes. *)
Lemma del_policy_lookups im p k spd ii i rule :
  spd_ok im -> fp_off im ->
  spd_index_by_spd_id im !! p_id p = Some k -> pool_lookup (spds im) k = Some spd ->
  vec_search (fun i => ipsec_policy_is_equal (policy_at im i) p) (spd_policies spd (p_type p)) = Some ii ->
  spd_policies spd (p_type p) !! ii = Some i ->
  let im' := fst (ipsec_add_del_policy im p false) in
  exists spd', pool_lookup (spds im') k = Some spd' /\ pool_lookup (policies im') i = None /\
    find_policy im' (spd_policies spd' (p_type p)) rule <> Some i /\
    (find_policy im (spd_policies spd (p_type p)) rule <> Some i ->
     find_policy im' (spd_policies spd' (p_type p)) rule = find_policy im (spd_policies spd (p_type p)) rule) /\
    (forall t, t <> p_type p ->
       find_policy im' (spd_policies spd' t) rule = find_policy im (spd_policies spd t) rule) /\
    (forall k2 spd2 t, k2 <> k -> pool_lookup (spds im) k2 = Some spd2 -> pool_lookup (spds im') k2 = Some spd2 /\
       find_policy im' (spd_policies spd2 t) rule = find_policy im (spd_policies spd2 t) rule).
Proof.
  intros Hok Hfp Ek Hk Hii Hi. cbv zeta. rewrite del_policy_linear, Ek, (pool_lookup_elt _ _ _ Hk) by exact Hfp.
  cbn [fst]. pose proof (so_spds _ Hok) as Hinv. destruct (invalidate_frame im p) as (oc' & ic' & E). rewrite E.
  set (im1 := im <| out_cache := oc' |> <| in_cache := ic' |>).
  pose proof (spd_remove_spec im1 k spd p Hinv Hk) as Hr. cbv zeta in Hr.
  change (policy_at im1) with (policy_at im) in Hr. rewrite Hii in Hr. destruct Hr as (i' & q & Hi' & Hq & _ & _ & _ & Ep & Es).
  rewrite Hi in Hi'. injection Hi' as <-. set (im' := spd_remove_policy im1 k spd p) in *. clearbody im'.
  change (policies im1) with (policies im) in *. change (spds im1) with (spds im) in *.
  pose proof (fun j => pool_put_lookup (policies im) i q j Hq) as Hl. rewrite <- Ep in Hl.
  pose proof (pi_vec _ _ _ _ _ Hinv k spd (p_type p) Hk) as Hv.
  pose proof (fun x => pool_write_lookup (spds im) k x spd) as Hw. rewrite Es.
  assert (forall k2 spd2 t m, pool_lookup (spds im) k2 = Some spd2 -> m ∈ spd_policies spd2 t -> m <> i ->
    policy_at im' m = policy_at im m) as Hsame.
  { intros k2 spd2 t m Hk2 Hm Hne. destruct (vo_live _ _ _ _ (pi_vec _ _ _ _ _ Hinv _ _ t Hk2) m Hm) as (x & Hx & _).
    eapply policy_at_same; [exact Hx|]. now rewrite Hl, decide_False. }
  assert (i ∈ spd_policies spd (p_type p)) as Hin by (apply list_elem_of_lookup; eauto).
  pose proof (nodup_delete_notin _ _ _ (vo_nodup _ _ _ _ Hv) Hi) as Hnotin.
  eexists. split; [now rewrite Hw, decide_True|]. split; [now rewrite Hl, decide_True|]. cbn. unfold set_type.
  rewrite decide_True by reflexivity. split; [|split; [|split]].
  - intros [Hf%list_elem_of_In _]%find_some. auto.
  - intros Hne. etransitivity; [apply (find_policy_same im)|exact (find_delete _ _ _ _ Hi Hne)].
    intros m Hm. apply (Hsame k spd (p_type p)); [exact Hk|now apply elem_of_delete in Hm|congruence].
  - intros t Ht. destruct (decide (t = p_type p)) as [?|_]; [contradiction|]. apply find_policy_same. intros m Hm. apply (Hsame k spd t); auto.
    intros ->. apply Ht. exact (proj2 (vec_disjoint _ _ _ _ _ _ _ _ _ _ _ _ Hinv Hk Hk Hm Hin)).
  - intros k2 spd2 t Hne Hk2. rewrite Hw, decide_False by assumption. split; [exact Hk2|]. apply find_policy_same.
    intros m Hm. apply (Hsame k2 spd2 t); auto. intros ->. apply Hne.
    exact (proj1 (vec_disjoint _ _ _ _ _ _ _ _ _ _ _ _ Hinv Hk2 Hk Hm Hin)).
Qed.

(** ** Properties *)

(** C36.  Through every history of the operations on SPDs, policies, interfaces and
    associations without the fast path (other users of an association release only locks of
    their own, and do not update one that policies use to a tunnel that cannot be resolved,
    which would free it, see [update_frees_locked]): every vector of an SPD lists policies in use, of
    its type and of this SPD, without repetition and by decreasing priority; the table of
    ids names exactly the SPDs in use, and an interface is attached to an SPD in use; each
    policy in use with an association refers to an association in use, whose locks are at
    least as many as the policies that refer to it. *)
Theorem spd_invariant bmi2 env hash oc ic im :
  rtc (spd_step bmi2 env hash) (spd_start oc ic) im -> spd_ok im.
Proof. intros H. exact (proj1 (reachable_ok _ _ _ _ _ _ H)). Qed.

(** C37.  The outbound IPv4 lookup returns a policy of the SPD that applies to the packet and
    has the highest priority among those that do, and nothing exactly when none applies. *)
Theorem output_lookup_best bmi2 env hash oc ic im k spd tuple fid pr la ra lp rp fc :
  rtc (spd_step bmi2 env hash) (spd_start oc ic) im -> pool_lookup (spds im) k = Some spd ->
  best_policy_of im (spd_policies spd IP4_OUTBOUND) (out4_packet pr la ra lp rp)
    (snd (ipsec_output_policy_match hash im spd tuple fid pr la ra lp rp fc)).
Proof.
  intros [Hok Hfp]%reachable_ok Hk. rewrite out_match_linear by exact Hfp.
  apply find_policy_best; [intros p; apply out4_rule_iff|].
  exact (vo_sorted _ _ _ _ (pi_vec _ _ _ _ _ (so_spds _ Hok) k spd _ Hk)).
Qed.

(** A policy that is added is found for exactly the packets it applies to and for
    which no policy of higher priority applies (between equals the newer one wins); every
    other lookup in this SPD, in the vectors of the other types and in the other SPDs
    gives what it gave before. *)
Theorem added_policy_lookup bmi2 env hash oc ic im p im' j k spd rule :
  rtc (spd_step bmi2 env hash) (spd_start oc ic) im -> locks_bounded (sad im) ->
  ipsec_add_del_policy im p true = (im', inr j) ->
  spd_index_by_spd_id im !! p_id p = Some k -> pool_lookup (spds im) k = Some spd ->
  exists spd' i, pool_lookup (spds im') k = Some spd' /\ policy_at im' j = p <| p_sa_index := i |> /\
    find_policy im' (spd_policies spd' (p_type p)) rule =
      match find_policy im (spd_policies spd (p_type p)) rule with
      | Some m => if rule (policy_at im' j) && (p_priority (policy_at im m) <=? p_priority p) then Some j else Some m
      | None => if rule (policy_at im' j) then Some j else None
      end /\
    (forall t, t <> p_type p ->
       find_policy im' (spd_policies spd' t) rule = find_policy im (spd_policies spd t) rule) /\
    (forall k2 spd2 t, k2 <> k -> pool_lookup (spds im) k2 = Some spd2 -> pool_lookup (spds im') k2 = Some spd2 /\
       find_policy im' (spd_policies spd2 t) rule = find_policy im (spd_policies spd2 t) rule).
Proof. intros [Hok Hfp]%reachable_ok Hb Ha Ek Hk. now apply add_policy_lookups. Qed.

(** Removal takes out of the SPD the first policy equal to the given one and releases
    it; a lookup never returns it again, a lookup that returned another policy still
    does, and lookups in other vectors and SPDs are unchanged. *)
Theorem removed_policy_lookup bmi2 env hash oc ic im p k spd ii i rule :
  rtc (spd_step bmi2 env hash) (spd_start oc ic) im ->
  spd_index_by_spd_id im !! p_id p = Some k -> pool_lookup (spds im) k = Some spd ->
  vec_search (fun i => ipsec_policy_is_equal (policy_at im i) p) (spd_policies spd (p_type p)) = Some ii ->
  spd_policies spd (p_type p) !! ii = Some i ->
  let im' := fst (ipsec_add_del_policy im p false) in
  exists spd', pool_lookup (spds im') k = Some spd' /\ pool_lookup (policies im') i = None /\
    find_policy im' (spd_policies spd' (p_type p)) rule <> Some i /\
    (find_policy im (spd_policies spd (p_type p)) rule <> Some i ->
     find_policy im' (spd_policies spd' (p_type p)) rule = find_policy im (spd_policies spd (p_type p)) rule) /\
    (forall t, t <> p_type p ->
       find_policy im' (spd_policies spd' t) rule = find_policy im (spd_policies spd t) rule) /\
    (forall k2 spd2 t, k2 <> k -> pool_lookup (spds im) k2 = Some spd2 -> pool_lookup (spds im') k2 = Some spd2 /\
       find_policy im' (spd_policies spd2 t) rule = find_policy im (spd_policies spd2 t) rule).
Proof. intros [Hok Hfp]%reachable_ok Ek Hk Hii Hi. exact (del_policy_lookups im p k spd ii i rule Hok Hfp Ek Hk Hii Hi). Qed.

(** ** Examples *)

Definition ip4_range (lo hi : Z) : ip46_address_range_t :=
  mk_arange (ip46_of_ip4 (host_to_net_u32 lo)) (ip46_of_ip4 (host_to_net_u32 hi)).

(** An outbound policy of SPD 1 for local addresses from [lo] to [hi]. *)
Definition policy_ex (priority lo hi : Z) (action : ipsec_policy_action_t) : ipsec_policy_t :=
  mk_policy 1 priority IP4_OUTBOUND false (ip4_range lo hi) (ip4_range 0 (2 ^ 32 - 1)) IPSEC_POLICY_PROTOCOL_ANY
    (mk_prange 0 65535) (mk_prange 0 65535) action 0 0 0.

Definition cache_ex : flow_cache := mk_flow_cache (repeat kv_zero 4) 0 0 true.
Definition im_ex0 : ipsec_main_t := fst (ipsec_add_del_spd (spd_start cache_ex cache_ex) 1 true).
Definition im_ex1 : ipsec_main_t := fst (ipsec_add_del_policy im_ex0 (policy_ex 10 100 200 ACTION_BYPASS) true).
Definition im_ex2 : ipsec_main_t := fst (ipsec_add_del_policy im_ex1 (policy_ex 20 150 300 ACTION_DISCARD) true).
Definition spd_at (im : ipsec_main_t) (k : Z) : ipsec_spd_t :=
  default (mk_spd 0 (fun _ => []) (mk_spd_fp (fun _ => []) 0 0 0 0)) (pool_lookup (spds im) k).

Lemma spd_at_some im k : pool_is_free_index (spds im) k = false -> pool_lookup (spds im) k = Some (spd_at im k).
Proof.
  intros H. unfold spd_at. destruct (pool_lookup (spds im) k) eqn:E; [reflexivity|].
  apply pool_is_free_lookup in E. congruence.
Qed.

Lemma no_locks s : sa_pool s = pool_empty -> locks_bounded s.
Proof. intros E i sa. rewrite E. now rewrite pool_empty_lookup. Qed.

Lemma ex2_reachable : rtc (spd_step false env_example ipsec4_hash_16_8) (spd_start cache_ex cache_ex) im_ex2.
Proof.
  apply (rtc_l _ _ im_ex0); [apply st_spd|]. apply (rtc_l _ _ im_ex1); [apply st_add_policy, no_locks; vm_compute; reflexivity|].
  apply (rtc_l _ _ im_ex2); [apply st_add_policy, no_locks; vm_compute; reflexivity|]. apply rtc_refl.
Qed.

(** An outbound tunnel association that is locked twice, and its update to a tunnel whose table does
    not exist: it is freed. *)
Example update_frees_locked :
  let env := mk_sad_env true 0 (fun i => i) (fun _ _ => false) (fun _ => None) (fun _ t => if t =? 0 then 0 else INDEX_INVALID) (fun _ _ _ => (7, 3)) in
  let s := ipsec_sa_lock (fst (ipsec_sa_add_and_lock true env sad_init 10 1000 IPSEC_PROTOCOL_ESP CRYPTO_ALG_AES_CBC_128 key16
    INTEG_ALG_SHA1_96 key20 IPSEC_SA_FLAG_IS_TUNNEL 0 65535 65535 64 tun_example)) 0 in
  let r := ipsec_sa_update env s 10 65535 65535 (tun_example <| t_dst := t_src tun_example |> <| t_table_id := 1 |>) true in
  sa_locks <$> pool_lookup (sa_pool s) 0 = Some 2 /\ snd r <> None /\ pool_lookup (sa_pool (fst r)) 0 = None.
Proof. vm_compute. repeat split. discriminate. Qed.

Lemma spd_invariant_witness : spd_ok im_ex2 /\ spd_policies (spd_at im_ex2 0) IP4_OUTBOUND = [1; 0].
Proof. split; [exact (spd_invariant _ _ _ _ _ _ ex2_reachable)|vm_compute; reflexivity]. Defined.

Lemma output_lookup_best_witness :
  best_policy_of im_ex2 (spd_policies (spd_at im_ex2 0) IP4_OUTBOUND) (out4_packet 17 160 5 1 2)
    (snd (ipsec_output_policy_match ipsec4_hash_16_8 im_ex2 (spd_at im_ex2 0) tuple_zero 0 17 160 5 1 2 false)).
Proof. eapply output_lookup_best; [exact ex2_reachable|apply spd_at_some; vm_compute; reflexivity]. Defined.

Definition rule_ex (la : Z) (p : ipsec_policy_t) : bool := out4_rule p 17 la 5 1 2.

Lemma added_policy_lookup_witness :
  exists im' spd', ipsec_add_del_policy im_ex2 (policy_ex 20 180 190 ACTION_BYPASS) true = (im', inr 2) /\
    find_policy im' (spd_policies spd' IP4_OUTBOUND) (rule_ex 185) = Some 2.
Proof.
  destruct (ipsec_add_del_policy im_ex2 (policy_ex 20 180 190 ACTION_BYPASS) true) as [im' r] eqn:E.
  assert (r = inr 2) as -> by (transitivity (snd (im', r)); [reflexivity|rewrite <- E; vm_compute; reflexivity]).
  destruct (added_policy_lookup _ _ _ _ _ _ (policy_ex 20 180 190 ACTION_BYPASS) im' 2 0 (spd_at im_ex2 0) (rule_ex 185) ex2_reachable)
    as (spd' & i & _ & Ep & Hf & _); [apply no_locks; vm_compute; reflexivity|exact E|vm_compute; reflexivity|apply spd_at_some; vm_compute; reflexivity|].
  exists im', spd'. split; [reflexivity|]. etransitivity; [exact Hf|]. rewrite Ep. vm_compute. reflexivity.
Defined.

Lemma removed_policy_lookup_witness :
  let im' := fst (ipsec_add_del_policy im_ex2 (policy_ex 20 150 300 ACTION_DISCARD) false) in
  exists spd', pool_lookup (policies im') 1 = None /\ find_policy im' (spd_policies spd' IP4_OUTBOUND) (rule_ex 160) <> Some 1.
Proof.
  destruct (removed_policy_lookup _ _ _ _ _ _ (policy_ex 20 150 300 ACTION_DISCARD) 0 (spd_at im_ex2 0) 0 1 (rule_ex 160) ex2_reachable)
    as (spd' & _ & H1 & H2 & _);
    [vm_compute; reflexivity|apply spd_at_some; vm_compute; reflexivity|vm_compute; reflexivity..|]. exists spd'. split; [exact H1|exact H2].
Defined.
