(* ===== verification/FlowCache.v ===== *)
(** * The outbound flow cache

    The cache of [ipsec_output.h] answers as the search of the policies would, through
    every interleaving of packets and changes of the policies, when one SPD is in use;
    after the deletion of this SPD only once an outbound policy has changed, since the
    deletion leaves the cache as it is.  Entries become stale when the epoch changes; the
    table is cleared when the epoch wraps. *)

From stdpp Require Import gmap.
From S2P Require Import Prelude NetTypes Pool Crypto IpsecSa Sad SpdTypes SpdPolicy SpdLookup IpsecNodes SpdInv.

(** ** Keys *)

(** The fields of a packet, in host order. *)
Record flow := mk_flow { fl_pr : Z; fl_la : Z; fl_ra : Z; fl_lp : Z; fl_rp : Z }.

Definition flow_ok (f : flow) : Prop :=
  is_u 8 (fl_pr f) /\ is_u 32 (fl_la f) /\ is_u 32 (fl_ra f) /\ is_u 16 (fl_lp f) /\ is_u 16 (fl_rp f).

(** Ports count only for some protocols. *)
Definition flow_ports (f : flow) : Z * Z := if has_ports (fl_pr f) then (fl_lp f, fl_rp f) else (0, 0).

Definition flow_key (f : flow) : Z * Z :=
  ip4_5tuple_key (host_to_net_u32 (fl_la f)) (host_to_net_u32 (fl_ra f)) (host_to_net_u16 (fst (flow_ports f)))
    (host_to_net_u16 (snd (flow_ports f))) (fl_pr f).

Definition flow_rule (f : flow) (p : ipsec_policy_t) : bool := out4_rule p (fl_pr f) (fl_la f) (fl_ra f) (fl_lp f) (fl_rp f).

Lemma pack_inj n a b c d :
  0 <= n -> is_u n a -> is_u n c -> Z.lor a (Z.shiftl b n) = Z.lor c (Z.shiftl d n) -> a = c /\ b = d.
Proof.
  intros Hn Ha Hc. rewrite !lor_shiftl_add by assumption. unfold is_u in *. intros E.
  assert (a = (a + b * 2 ^ n) mod 2 ^ n) as -> by (rewrite Z.mod_add, Z.mod_small; lia).
  assert (c = (c + d * 2 ^ n) mod 2 ^ n) as Ec by (rewrite Z.mod_add, Z.mod_small; lia).
  rewrite E, <- Ec. split; [reflexivity|]. nia.
Qed.

Lemma is_u_pack n a b : 0 <= n -> is_u n a -> is_u n b -> is_u (2 * n) (Z.lor a (Z.shiftl b n)).
Proof.
  intros Hn Ha Hb. rewrite lor_shiftl_add by assumption. unfold is_u in *. replace (2 * n) with (n + n) by lia.
  rewrite Z.pow_add_r by lia. nia.
Qed.

Lemma ip4_5tuple_key_inj a0 a1 p0 p1 pr b0 b1 q0 q1 pr' :
  is_u 32 a0 -> is_u 16 p0 -> is_u 16 p1 -> is_u 32 b0 -> is_u 16 q0 -> is_u 16 q1 ->
  ip4_5tuple_key a0 a1 p0 p1 pr = ip4_5tuple_key b0 b1 q0 q1 pr' ->
  a0 = b0 /\ a1 = b1 /\ p0 = q0 /\ p1 = q1 /\ pr = pr'.
Proof.
  intros Ha Hp0 Hp1 Hb Hq0 Hq1 [= E1 E2]. unfold pack_addrs, pack_ports in *.
  apply pack_inj in E1 as [-> ->]; [|lia|assumption..].
  apply pack_inj in E2 as [E2 ->]; [|lia|apply (is_u_pack 16); auto; lia..].
  apply pack_inj in E2 as [-> ->]; [|lia|assumption..]. auto.
Qed.

Lemma flow_ports_ok f : flow_ok f -> is_u 16 (fst (flow_ports f)) /\ is_u 16 (snd (flow_ports f)).
Proof.
  intros (_ & _ & _ & H1 & H2). unfold flow_ports. destruct (has_ports _); cbn; [auto|]. split; split; lia.
Qed.

(** Two packets with one key are treated alike. *)
Lemma flow_key_rule f g p : flow_ok f -> flow_ok g -> flow_key f = flow_key g -> flow_rule f p = flow_rule g p.
Proof.
  intros Hf Hg E. destruct (flow_ports_ok f Hf) as [F1 F2], (flow_ports_ok g Hg) as [G1 G2].
  destruct Hf as (_ & Fl & Fr & _), Hg as (_ & Gl & Gr & _).
  apply ip4_5tuple_key_inj in E as (E1 & E2 & E3 & E4 & E5); 
    [|net_range..].
  apply (bswap_inj 4) in E1, E2; [|assumption..]. apply (bswap_inj 2) in E3, E4; [|assumption..].
  unfold flow_rule, out4_rule. rewrite E5, E1, E2. f_equal. unfold policy_ports_match, flow_ports in *. rewrite E5 in *.
  destruct (has_ports (fl_pr g)); [|reflexivity]. cbn in E3, E4. now rewrite E3, E4.
Qed.

Lemma find_policy_rule im ids r1 r2 : (forall p, r1 p = r2 p) -> find_policy im ids r1 = find_policy im ids r2.
Proof. intros H. apply find_ext_in. intros i _. apply H. Qed.

(** ** The invariant *)

(** An entry of the current epoch is blank or agrees with the lookup [look]. *)
Definition entry_ok (look : (ipsec_policy_t -> bool) -> option Z) (kv : ipsec4_hash_kv_16_8_t) : Prop :=
  kv = kv_zero \/
  exists f, flow_ok f /\ (kv_key0 kv, kv_key1 kv) = flow_key f /\ look (flow_rule f) = Some (Z.shiftr (kv_value kv) 32).

(** The entries of the current epoch agree, unless the cache is stale. *)
Record fc_ok (stale : bool) (c : flow_cache) (look : (ipsec_policy_t -> bool) -> option Z) : Prop := {
  fo_epoch : is_u 32 (fc_epoch c);
  fo_past : forall kv, kv ∈ fc_tbl c -> u32 (kv_value kv) <= fc_epoch c;
  fo_entry : stale = false -> forall kv, kv ∈ fc_tbl c -> u32 (kv_value kv) = fc_epoch c -> entry_ok look kv
}.

Lemma fc_ok_look (st st' : bool) c look look' :
  (st' = false -> st = false /\ forall r, look' r = look r) -> fc_ok st c look -> fc_ok st' c look'.
Proof.
  intros He [H1 H2 H3]. split; auto. intros Hst kv Hk E. destruct (He Hst) as [Hst' Hl']. destruct (H3 Hst' kv Hk E) as [->|(f & Hf & Hkey & Hl)]; [now left|].
  right. exists f. now rewrite Hl'.
Qed.

(** After a change of the policies no entry is current. *)
Lemma fc_ok_invalidate st st' c look look' : fc_ok st c look -> fc_ok st' (flow_cache_invalidate c) look'.
Proof.
  intros [H1 H2 H3]. unfold flow_cache_invalidate. destruct (Z.eqb_spec (fc_epoch c) (2 ^ 32 - 1)) as [E|Hne]; split; cbn.
  - apply u32_range.
  - intros kv (x & -> & _)%list_elem_of_fmap_1. rewrite E. vm_compute. discriminate.
  - intros _ kv (x & -> & _)%list_elem_of_fmap_1 _. now left.
  - apply u32_range.
  - intros kv Hk. apply H2 in Hk. unfold is_u in H1. rewrite (u32_small (fc_epoch c + 1)) by (split; lia). lia.
  - intros _ kv Hk. apply H2 in Hk. unfold is_u in H1. rewrite (u32_small (fc_epoch c + 1)) by (split; lia). lia.
Qed.

Lemma cache_value id e : is_u 32 e -> u32 (Z.lor (Z.shiftl id 32) e) = e /\ Z.shiftr (Z.lor (Z.shiftl id 32) e) 32 = id.
Proof.
  intros He. rewrite Z.lor_comm, lor_shiftl_add by (lia || assumption). unfold u32, is_u in *.
  rewrite Z.mod_add, Z.mod_small by lia. split; [reflexivity|]. rewrite Z.shiftr_div_pow2, Z.div_add, Z.div_small by lia. lia.
Qed.

Lemma fc_ok_add hash st c look f id :
  fc_ok st c look -> flow_ok f -> look (flow_rule f) = Some id -> fc_ok st (fc_add hash c (flow_key f) id) look.
Proof.
  intros [H1 H2 H3] Hf Hl. destruct (cache_value id (fc_epoch c) H1) as [E1 E2].
  unfold fc_add. set (b := fc_bucket hash c (flow_key f)). set (v := Z.lor _ _) in *.
  set (kv0 := mk_kv (fst (flow_key f)) (snd (flow_key f)) v).
  assert (forall kv, kv ∈ <[b := kv0]> (fc_tbl c) -> kv = kv0 \/ kv ∈ fc_tbl c) as Hin.
  { intros kv [i Hi]%list_elem_of_lookup. apply list_lookup_insert_Some in Hi as [(_ & <- & _)|[_ Hi]]; [now left|].
    right. apply list_elem_of_lookup. eauto. }
  split; cbn -[kv0]; [exact H1|intros kv [->|Hk]%Hin; auto|intros Hst kv [->|Hk]%Hin; auto].
  - cbn. fold v. lia.
  - intros _. right. exists f. cbn. fold v. rewrite E2. repeat split; auto; apply Hf.
Qed.

Lemma fc_find_ok hash c look f id :
  fc_ok false c look -> flow_ok f -> flow_key f <> (0, 0) ->
  (forall r1 r2, (forall p, r1 p = r2 p) -> look r1 = look r2) ->
  fc_find hash c (flow_key f) = Some id -> look (flow_rule f) = Some id.
Proof.
  intros [H1 H2 H3] Hf Hnz Hext. unfold fc_find. cbv zeta. set (b := fc_bucket hash c (flow_key f)).
  destruct (fc_tbl c !! b) as [kv|] eqn:Ekv; cbn [from_option Datatypes.id].
  - destruct (Z.eqb_spec (kv_key0 kv) (fst (flow_key f))) as [Ek0|]; [|easy].
    destruct (Z.eqb_spec (kv_key1 kv) (snd (flow_key f))) as [Ek1|]; [|easy]. cbn [andb].
    destruct (Z.eqb_spec (fc_epoch c) (u32 (kv_value kv))) as [Ee|]; [|discriminate]. intros [= <-].
    destruct (H3 eq_refl kv) as [->|(g & Hg & Hkey & Hl)]; [apply list_elem_of_lookup; eauto|now symmetry| |].
    + exfalso. apply Hnz. rewrite (surjective_pairing (flow_key f)), <- Ek0, <- Ek1. reflexivity.
    + rewrite <- Hl. apply Hext. intros p. apply flow_key_rule; [assumption..|].
      rewrite <- Hkey, Ek0, Ek1. now destruct (flow_key f).
  - cbn [kv_zero kv_key0 kv_key1]. destruct (Z.eqb_spec 0 (fst (flow_key f))) as [E0|]; [|easy]. destruct (Z.eqb_spec 0 (snd (flow_key f))) as [E1|]; [|easy].
    exfalso. apply Hnz. now rewrite (surjective_pairing (flow_key f)), <- E0, <- E1.
Qed.

(** ** What operations do to the lookups of a vector *)

Definition look (im : ipsec_main_t) (k : Z) (t : ipsec_spd_policy_type_t) (rule : ipsec_policy_t -> bool) : option Z :=
  pool_lookup (spds im) k ≫= fun spd => find_policy im (spd_policies spd t) rule.

Lemma look_ext im k t r1 r2 : (forall p, r1 p = r2 p) -> look im k t r1 = look im k t r2.
Proof. intros H. unfold look. destruct (pool_lookup _ k); [|reflexivity]. cbn. now apply find_policy_rule. Qed.

Lemma look_frame im im' k t rule : spds im' = spds im -> policies im' = policies im -> look im' k t rule = look im k t rule.
Proof. intros E1 E2. unfold look, find_policy, policy_at. now rewrite E1, E2. Qed.

Lemma look_eq im sp pols k t rule :
  spds im = sp -> policies im = pols ->
  look im k t rule = (pool_lookup sp k ≫= fun spd =>
    List.find (fun i => rule (default policy_zero (pool_elt_at_index pols i))) (spd_policies spd t)).
Proof. now intros <- <-. Qed.

Lemma look_add_policy im p k t rule :
  spd_ok im -> fp_off im -> locks_bounded (sad im) -> p_type p <> t ->
  look (fst (ipsec_add_del_policy im p true)) k t rule = look im k t rule.
Proof.
  intros Hok Hfp Hb Ht. destruct (ipsec_add_del_policy im p true) as [im' [e|j]] eqn:E; cbn [fst].
  - rewrite add_policy_linear in E by exact Hfp. destruct (_ !! p_id p) as [k0|]; [|now injection E as <- <-].
    destruct (pool_elt_at_index _ k0) as [spd|]; [|now injection E as <- <-]. cbv zeta in E.
    destruct (invalidate_frame im p) as (oc & ic & Ei). rewrite Ei in E.
    destruct (policy_lock_sa _ p) as [[im2 p2]|]; [|injection E as <- <-; now apply look_frame].
    destruct (spd_insert_policy _ _ _ _); discriminate.
  - pose proof (add_policy_spec im p im' j Hok Hfp Hb E) as (_ & k0 & spd & i & q & Ek & Hk & _ & _ & _ & Es).
    destruct (add_policy_lookups im p im' j k0 spd rule Hok Hfp Hb E Ek Hk) as (spd' & i' & Hk' & _ & _ & Hot & Hok2).
    unfold look. destruct (decide (k = k0)) as [->|Hne]; [rewrite Hk, Hk'; cbn; now apply Hot|].
    rewrite Es, (pool_write_lookup _ k0 _ spd), decide_False by assumption.
    destruct (pool_lookup (spds im) k) as [spd2|] eqn:E2; [|reflexivity]. cbn. now apply (Hok2 k spd2).
Qed.

Lemma look_del_policy im p k t rule :
  spd_ok im -> fp_off im -> p_type p <> t ->
  look (fst (ipsec_add_del_policy im p false)) k t rule = look im k t rule.
Proof.
  intros Hok Hfp Ht. destruct (spd_index_by_spd_id im !! p_id p) as [k0|] eqn:Ek;
    [|now rewrite del_policy_linear, Ek by exact Hfp].
  pose proof Ek as (spd & Hk & Hid)%(pi_ids _ _ _ _ _ (so_spds _ Hok)).
  destruct (vec_search (fun i => ipsec_policy_is_equal (policy_at im i) p) (spd_policies spd (p_type p))) as [ii|] eqn:Ev.
  - pose proof Ev as (i & Hi & _)%vec_search_lookup.
    destruct (del_policy_lookups im p k0 spd ii i rule Hok Hfp Ek Hk Ev Hi) as (spd' & Hk' & _ & _ & _ & Hot & Hok2).
    unfold look. destruct (decide (k = k0)) as [->|Hne]; [rewrite Hk, Hk'; cbn; now apply Hot|].
    destruct (pool_lookup (spds im) k) as [spd2|] eqn:E2.
    + destruct (Hok2 k spd2 t Hne E2) as [-> Hl]. exact Hl.
    + rewrite del_policy_linear, Ek, (pool_lookup_elt _ _ _ Hk) by exact Hfp. cbn [fst].
      destruct (invalidate_frame im p) as (oc & ic & ->). set (im1 := im <| out_cache := oc |> <| in_cache := ic |>).
      pose proof (spd_remove_spec im1 k0 spd p (so_spds _ Hok) Hk) as Hr. cbv zeta in Hr.
      change (policy_at im1) with (policy_at im) in Hr. rewrite Ev in Hr.
      destruct Hr as (i0 & q & _ & _ & _ & _ & _ & _ & ->). change (spds im1) with (spds im).
      now rewrite (pool_write_lookup _ k0 _ spd), decide_False, E2 by assumption.
  - rewrite del_policy_linear, Ek, (pool_lookup_elt _ _ _ Hk) by exact Hfp. cbn [fst].
    destruct (invalidate_frame im p) as (oc & ic & ->). unfold spd_remove_policy.
    change (policy_at (im <| out_cache := oc |> <| in_cache := ic |>)) with (policy_at im). rewrite Ev. now apply look_frame.
Qed.

Lemma look_add_spd im id k t rule :
  spd_ok im -> fp_off im -> look (fst (ipsec_add_del_spd im id true)) k t rule = look im k t rule.
Proof.
  intros Hok (F1 & F2 & F3 & F4). unfold ipsec_add_del_spd. destruct (_ !! id) as [k0|]; [reflexivity|]. cbn [fst].
  unfold ipsec_new_spd, spd_new_table. rewrite F1, F2, F3, F4. cbn [andb]. set (d := mk_spd 0 _ _).
  pose proof (fun x => pool_get_write d (spds im) x (pi_spds _ _ _ _ _ (so_spds _ Hok))) as Hg.
  destruct (pool_get d (spds im)) as [q k0]. set (x := mk_spd id _ _).
  rewrite (look_eq _ (pool_write q k0 x) (policies im)), (look_eq im (spds im) (policies im)) by reflexivity.
  destruct (Hg x) as [Ha Hx]. destruct (decide (k = k0)) as [->|Hne]; [now rewrite Hx, (al_fresh _ _ _ Ha)|].
  now rewrite (al_other _ _ _ Ha).
Qed.

Lemma look_del_spd im id k t rule :
  spd_ok im -> spd_index_by_spd_id im !! id <> Some k ->
  look (fst (ipsec_add_del_spd im id false)) k t rule = look im k t rule.
Proof.
  intros Hok Hne. unfold ipsec_add_del_spd. destruct (_ !! id) as [k0|] eqn:Ek; [|reflexivity].
  pose proof Ek as (spd & Hk & Hid)%(pi_ids _ _ _ _ _ (so_spds _ Hok)). rewrite (pool_lookup_elt _ _ _ Hk). cbn [fst].
  unfold ipsec_del_spd. destruct (del_spd_ifs im id k0 (map_to_list (spd_index_by_sw_if_index im))
    (pi_feats _ _ _ _ _ (so_spds _ Hok))) as (m & -> & _); [eauto|].
  set (x := spd <| spd_policies := fun _ => [] |>).
  rewrite (look_eq _ (pool_put_index (pool_write (spds im) k0 x) k0) (policies im)), (look_eq im (spds im) (policies im)) by reflexivity.
  rewrite (pool_put_lookup _ k0 x), decide_False, (pool_write_lookup _ k0 x spd), decide_False by
    (congruence || now rewrite (pool_write_lookup _ k0 x spd), decide_True). reflexivity.
Qed.

(** ** Packets *)

Definition out4_packet_ok (o : out_packet) : Prop :=
  is_u 8 (o_protocol o) /\ is_u 32 (ip46_ip4 (o_src o)) /\ is_u 32 (ip46_ip4 (o_dst o)) /\
  is_u 16 (o_src_port o) /\ is_u 16 (o_dst_port o).

Definition flow_of (o : out_packet) : flow :=
  mk_flow (o_protocol o) (net_to_host_u32 (ip46_ip4 (o_src o))) (net_to_host_u32 (ip46_ip4 (o_dst o)))
    (net_to_host_u16 (o_src_port o)) (net_to_host_u16 (o_dst_port o)).

Lemma flow_of_ok o : out4_packet_ok o -> flow_ok (flow_of o).
Proof. intros (H & _). unfold flow_ok. cbn [flow_of fl_pr fl_la fl_ra fl_lp fl_rp]. split; [exact H|]. repeat (split; [net_range|]). net_range. Qed.

Lemma find_key hash im o :
  out4_packet_ok o ->
  ipsec4_out_spd_find_flow_cache_entry hash im (o_protocol o) (ip46_ip4 (o_src o)) (ip46_ip4 (o_dst o)) (o_src_port o)
    (o_dst_port o) = fc_find hash (out_cache im) (flow_key (flow_of o)).
Proof.
  intros (_ & H1 & H2 & H3 & H4). unfold ipsec4_out_spd_find_flow_cache_entry, flow_key, flow_ports. cbn [flow_of fl_pr fl_la fl_ra fl_lp fl_rp].
  rewrite !net_host_u32 by assumption. destruct (has_ports _); cbn [fst snd]; [now rewrite !net_host_u16|reflexivity].
Qed.

(** The blank packet has the key of a blank entry. *)
Definition blank (o : out_packet) : Prop := o_protocol o = 0 /\ ip46_ip4 (o_src o) = 0 /\ ip46_ip4 (o_dst o) = 0.

Lemma not_blank_key o : out4_packet_ok o -> ~ blank o -> flow_key (flow_of o) <> (0, 0).
Proof.
  intros Ho Hb E. apply Hb. change (0, 0) with (ip4_5tuple_key 0 0 0 0 0) in E.
  apply ip4_5tuple_key_inj in E as (E1 & E2 & _ & _ & E3);
    [|net_range..].
  destruct Ho as (_ & H1 & H2 & _). cbn [flow_of fl_la fl_ra fl_pr] in *. rewrite net_host_u32 in E1, E2 by assumption. now split.
Qed.

(** ** Histories *)

(** The change of policy [p] invalidates the outbound cache. *)
Definition invalidates (im : ipsec_main_t) (p : ipsec_policy_t) : bool :=
  bool_decide (p_type p = IP4_OUTBOUND) && bool_decide (is_Some (spd_index_by_spd_id im !! p_id p)).

(** Packets of SPD [k] and every other operation.  The flag says that SPD [k] was deleted and that no
    outbound policy changed since: the cache may hold policies of the deleted SPD. *)
Inductive cache_step (bmi2 : bool) (env : sad_env) (hash : Z -> Z -> Z) (k : Z) : ipsec_main_t * bool -> ipsec_main_t * bool -> Prop :=
| cs_add_policy im st p : (p_type p = IP4_OUTBOUND -> p_is_ipv6 p = false) -> locks_bounded (sad im) ->
    cache_step bmi2 env hash k (im, st) (fst (ipsec_add_del_policy im p true), st && negb (invalidates im p))
| cs_del_policy im st p : (p_type p = IP4_OUTBOUND -> p_is_ipv6 p = false) ->
    cache_step bmi2 env hash k (im, st) (fst (ipsec_add_del_policy im p false), st && negb (invalidates im p))
| cs_packet im st spd tuple fid o : pool_lookup (spds im) k = Some spd -> out4_packet_ok o ->
    cache_step bmi2 env hash k (im, st) (fst (out_find hash im (Some spd) tuple fid false true o), st)
| cs_add_spd im st id : cache_step bmi2 env hash k (im, st) (fst (ipsec_add_del_spd im id true), st)
| cs_del_spd im st id :
    cache_step bmi2 env hash k (im, st)
      (fst (ipsec_add_del_spd im id false), st || bool_decide (spd_index_by_spd_id im !! id = Some k))
| cs_interface im st sw id is_add : cache_step bmi2 env hash k (im, st) (fst (ipsec_set_interface_spd im sw id is_add), st)
| cs_sad im st s' : sa_user_step bmi2 env (fun i => pool_count (refers i) (policies im)) (sad im) s' ->
    cache_step bmi2 env hash k (im, st) (im <| sad := s' |>, st)
| cs_input im st spd sa da t : cache_step bmi2 env hash k (im, st) (fst (ipsec_input_policy_match hash im spd sa da t), st)
| cs_input_protect im st spd sa da spi :
    cache_step bmi2 env hash k (im, st) (fst (ipsec_input_protect_policy_match hash im spd sa da spi), st).

Lemma out_find_linear hash im spd tuple fid fc o :
  fst (out_find hash im (Some spd) tuple fid false fc o) = im \/
  fst (out_find hash im (Some spd) tuple fid false fc o) =
    fst (ipsec_output_policy_match hash im spd tuple fid (o_protocol o)
      (net_to_host_u32 (ip46_ip4 (o_src o))) (net_to_host_u32 (ip46_ip4 (o_dst o)))
      (net_to_host_u16 (o_src_port o)) (net_to_host_u16 (o_dst_port o)) fc).
Proof. unfold out_find. destruct fc; [destruct (ipsec4_out_spd_find_flow_cache_entry _ _ _ _ _ _ _)|]; auto. Qed.

Lemma cache_step_spd_step bmi2 env hash k x y :
  cache_step bmi2 env hash k x y -> rtc (spd_step bmi2 env hash) (fst x) (fst y).
Proof.
  destruct 1; cbn [fst]; try (apply rtc_once; now constructor).
  destruct (out_find_linear hash im spd tuple fid true o) as [->| ->]; [apply rtc_refl|apply rtc_once, st_output].
Qed.

Definition cache_inv (k : Z) (st : bool) (im : ipsec_main_t) : Prop :=
  fc_flag (out_cache im) = true /\ fc_ok st (out_cache im) (look im k IP4_OUTBOUND).

(** The cache is invalidated when an outbound IPv4 policy changes, and kept otherwise. *)
Lemma invalidate_out im p :
  fc_flag (out_cache im) = true -> (p_type p = IP4_OUTBOUND -> p_is_ipv6 p = false) ->
  out_cache (invalidate_flow_caches im p) =
  if decide (p_type p = IP4_OUTBOUND) then flow_cache_invalidate (out_cache im) else out_cache im.
Proof.
  intros Hf Hp. unfold invalidate_flow_caches. rewrite Hf. destruct (decide (p_type p = IP4_OUTBOUND)) as [E|E].
  - rewrite (Hp E), (bool_decide_eq_true_2 _ E). cbn [andb negb]. now destruct (_ && _).
  - rewrite (bool_decide_eq_false_2 _ E), andb_false_r. now destruct (_ && _).
Qed.

Lemma policy_out_cache im p is_add :
  fp_off im ->
  out_cache (fst (ipsec_add_del_policy im p is_add)) =
  (if spd_index_by_spd_id im !! p_id p is Some k
   then if pool_elt_at_index (spds im) k is Some _ then out_cache (invalidate_flow_caches im p) else out_cache im
   else out_cache im).
Proof.
  intros H. destruct is_add; [rewrite add_policy_linear by exact H|rewrite del_policy_linear by exact H].
  - destruct (_ !! p_id p) as [k|]; [|reflexivity]. destruct (pool_elt_at_index _ k) as [spd|]; [|reflexivity]. cbv zeta.
    destruct (policy_lock_sa _ p) as [[im2 p2]|] eqn:E; [|reflexivity].
    apply lock_sa_cases in E as (s' & i & -> & _). unfold spd_insert_policy. destruct (pool_get _ _). reflexivity.
  - destruct (_ !! p_id p) as [k|]; [|reflexivity]. destruct (pool_elt_at_index _ k) as [spd|]; [|reflexivity]. cbn [fst].
    unfold spd_remove_policy. destruct (vec_search _ _); reflexivity.
Qed.

Lemma cache_inv_policy k st im p is_add :
  spd_ok im -> fp_off im -> (p_type p = IP4_OUTBOUND -> p_is_ipv6 p = false) -> (is_add = true -> locks_bounded (sad im)) ->
  cache_inv k st im -> cache_inv k (st && negb (invalidates im p)) (fst (ipsec_add_del_policy im p is_add)).
Proof.
  intros Hok Hfp Hp Hb [Hf Hc]. unfold cache_inv, invalidates. rewrite (policy_out_cache im p is_add Hfp).
  destruct (spd_index_by_spd_id im !! p_id p) as [k0|] eqn:Ek.
  - pose proof Ek as (spd & Hk & _)%(pi_ids _ _ _ _ _ (so_spds _ Hok)). rewrite (pool_lookup_elt _ _ _ Hk).
    rewrite invalidate_out by assumption. destruct (decide (p_type p = IP4_OUTBOUND)) as [E|E].
    + split; [unfold flow_cache_invalidate; destruct (_ =? _); exact Hf|]. eapply fc_ok_invalidate, Hc.
    + split; [exact Hf|]. rewrite (bool_decide_eq_false_2 _ E), andb_true_r. eapply fc_ok_look, Hc. intros Hst. split; [exact Hst|].
      intros r. destruct is_add; [apply look_add_policy|apply look_del_policy]; auto.
  - split; [exact Hf|]. rewrite (bool_decide_eq_false_2 (is_Some None)), andb_false_r, andb_true_r by (now intros [? [=]]).
    eapply fc_ok_look, Hc. intros Hst. split; [exact Hst|]. intros r.
    destruct is_add; [rewrite add_policy_linear by exact Hfp|rewrite del_policy_linear by exact Hfp]; now rewrite Ek.
Qed.

Lemma look_spd im k spd t rule : pool_lookup (spds im) k = Some spd -> look im k t rule = find_policy im (spd_policies spd t) rule.
Proof. intros H. unfold look. now rewrite H. Qed.

Lemma cache_inv_packet hash k st im spd tuple fid o :
  fp_off im -> pool_lookup (spds im) k = Some spd -> out4_packet_ok o -> cache_inv k st im ->
  cache_inv k st (fst (out_find hash im (Some spd) tuple fid false true o)).
Proof.
  intros Hfp Hk Ho Hc. unfold out_find. rewrite find_key by exact Ho.
  destruct (fc_find _ _ _); [exact Hc|]. unfold ipsec_output_policy_match. destruct Hfp as (-> & _). cbn [andb].
  set (f := flow_of o). fold (fl_pr f) (fl_la f) (fl_ra f) (fl_lp f) (fl_rp f).
  change (fun p => out4_rule p (o_protocol o) _ _ _ _) with (flow_rule f).
  destruct (find_policy im (spd_policies spd IP4_OUTBOUND) (flow_rule f)) as [i|] eqn:E;
    [|destruct (has_ports _); exact Hc].
  replace (fst (let '(lp', rp') := if has_ports (o_protocol o) then _ else _ in _))
    with (im <| out_cache := fc_add hash (out_cache im) (flow_key f) i |>)
    by (unfold flow_key, flow_ports; change (fl_pr f) with (o_protocol o); now destruct (has_ports (o_protocol o))).
  destruct Hc as [Hf Hc]. split; [exact Hf|]. cbn [out_cache].
  apply (fc_ok_look st _ _ (look im k IP4_OUTBOUND)); [intros Hst; split; [exact Hst|]; intros r; now apply look_frame|].
  apply fc_ok_add; [exact Hc|now apply flow_of_ok|]. now rewrite (look_spd im k spd).
Qed.

Lemma cache_inv_frame k st im im' :
  out_cache im' = out_cache im -> (forall r, look im' k IP4_OUTBOUND r = look im k IP4_OUTBOUND r) ->
  cache_inv k st im -> cache_inv k st im'.
Proof. intros E Hl [Hf Hc]. unfold cache_inv. rewrite E. split; [exact Hf|]. eapply fc_ok_look, Hc. auto. Qed.

Lemma del_spd_out_cache im id : spd_ok im -> out_cache (fst (ipsec_add_del_spd im id false)) = out_cache im.
Proof.
  intros Hok. unfold ipsec_add_del_spd. destruct (_ !! id) as [k0|] eqn:Ek; [|reflexivity]. destruct (pool_elt_at_index _ k0); [|reflexivity]. cbn [fst].
  unfold ipsec_del_spd. destruct (del_spd_ifs im id k0 (map_to_list (spd_index_by_sw_if_index im))
    (pi_feats _ _ _ _ _ (so_spds _ Hok))) as (m & -> & _); [eauto|]. reflexivity.
Qed.

Lemma cache_inv_del_spd k st im id :
  spd_ok im -> cache_inv k st im ->
  cache_inv k (st || bool_decide (spd_index_by_spd_id im !! id = Some k)) (fst (ipsec_add_del_spd im id false)).
Proof.
  intros Hok [Hf Hc]. unfold cache_inv. rewrite del_spd_out_cache by exact Hok. split; [exact Hf|]. eapply fc_ok_look, Hc.
  intros [Hst Hne%bool_decide_eq_false]%orb_false_iff. split; [exact Hst|]. intros r. now apply look_del_spd.
Qed.

Lemma cache_inv_step bmi2 env hash k x y :
  spd_ok (fst x) -> fp_off (fst x) -> cache_inv k (snd x) (fst x) -> cache_step bmi2 env hash k x y -> cache_inv k (snd y) (fst y).
Proof.
  intros Hok Hfp Hc Hs. destruct Hs; cbn [fst snd] in *.
  - now apply cache_inv_policy.
  - now apply cache_inv_policy.
  - now apply (cache_inv_packet hash k st im spd).
  - eapply cache_inv_frame; [|intros r; now apply look_add_spd|exact Hc]. unfold ipsec_add_del_spd.
    destruct (_ !! id); [reflexivity|]. cbn [fst]. unfold ipsec_new_spd. destruct (pool_get _ _).
    repeat destruct (spd_new_table _ _ _). reflexivity.
  - now apply cache_inv_del_spd.
  - eapply cache_inv_frame; [| |exact Hc]; unfold ipsec_set_interface_spd; destruct (_ !! id); try reflexivity;
      destruct (_ !! sw), is_add; try reflexivity; intros r; now apply look_frame.
  - eapply cache_inv_frame; [reflexivity| |exact Hc]. intros r. now apply look_frame.
  - destruct (in_match_caches hash im spd sa da t 0) as [[ic ->] _].
    eapply cache_inv_frame; [reflexivity| |exact Hc]. intros r. now apply look_frame.
  - destruct (in_match_caches hash im spd sa da IP4_OUTBOUND spi) as [_ [ic ->]].
    eapply cache_inv_frame; [reflexivity| |exact Hc]. intros r. now apply look_frame.
Qed.

(** A cache of [n] blank entries. *)
Definition cache_start (n : nat) : flow_cache := mk_flow_cache (repeat kv_zero n) 0 0 true.

Definition cache_state_ok (k : Z) (x : ipsec_main_t * bool) : Prop := spd_ok (fst x) /\ fp_off (fst x) /\ cache_inv k (snd x) (fst x).

Lemma cache_start_ok k n ic : cache_state_ok k (spd_start (cache_start n) ic, false).
Proof.
  destruct (spd_start_ok (cache_start n) ic) as [A B]. split; [exact A|]. split; [exact B|]. split; [reflexivity|]. split; cbn.
  - split; [lia|reflexivity].
  - intros kv ->%list_elem_of_In%repeat_spec. vm_compute. discriminate.
  - intros _ kv ->%list_elem_of_In%repeat_spec _. now left.
Qed.

Lemma spd_steps_ok bmi2 env hash im im' : rtc (spd_step bmi2 env hash) im im' -> spd_ok im /\ fp_off im -> spd_ok im' /\ fp_off im'.
Proof. induction 1 as [|a b c Hs _ IH]; [auto|]. intros H. apply IH. exact (spd_step_ok _ _ _ _ _ H Hs). Qed.

Lemma cache_reachable bmi2 env hash k n ic x :
  rtc (cache_step bmi2 env hash k) (spd_start (cache_start n) ic, false) x -> cache_state_ok k x.
Proof.
  apply (rtc_ind_r (cache_state_ok k)); [apply cache_start_ok|]. intros y z _ Hs (H1 & H2 & H3).
  destruct (spd_steps_ok _ _ _ _ _ (cache_step_spd_step _ _ _ _ _ _ Hs) (conj H1 H2)). split; [assumption|]. split; [assumption|].
  exact (cache_inv_step _ _ _ _ _ _ H1 H2 H3 Hs).
Qed.

(** ** What an entry is found for *)

(** A table of [2^n] entries and an epoch of 32 bits. *)
Definition fc_sized (c : flow_cache) : Prop := (exists n : nat, length (fc_tbl c) = (2 ^ n)%nat) /\ is_u 32 (fc_epoch c).

Lemma fc_find_add hash c key id : fc_sized c -> fc_find hash (fc_add hash c key id) key = Some id.
Proof.
  intros [[n Hn] He]. destruct (cache_value id (fc_epoch c) He) as [E1 E2]. unfold fc_find, fc_add. cbv zeta.
  set (b := fc_bucket hash c key). set (v := Z.lor _ _) in *. set (kv := mk_kv (fst key) (snd key) v).
  assert (b < length (fc_tbl c))%nat as Hb.
  { unfold b, fc_bucket. rewrite Hn. replace (Z.of_nat (2 ^ n)) with (2 ^ Z.of_nat n) by (now rewrite Nat2Z.inj_pow).
    rewrite land_pow2_minus1 by lia. pose proof (Z.mod_pos_bound (hash (fst key) (snd key)) (2 ^ Z.of_nat n)).
    assert (Z.of_nat (2 ^ n) = 2 ^ Z.of_nat n) by now rewrite Nat2Z.inj_pow. lia. }
  match goal with |- context [fc_bucket hash ?c' key] => replace (fc_bucket hash c' key) with b end.
  2: { unfold b, fc_bucket. cbn. now rewrite length_insert. }
  cbn [fc_tbl fc_epoch]. match goal with |- context [default kv_zero ?x] => replace x with (Some kv) end.
  2: { symmetry. exact (list_lookup_insert_eq _ _ _ Hb). }
  cbn [from_option Datatypes.id kv_key0 kv_key1 kv_value kv]. rewrite !Z.eqb_refl, E1, E2. cbn [andb].
  match goal with |- context [?x =? fc_epoch c] => change x with (fc_epoch c) end. now rewrite Z.eqb_refl.
Qed.

(** ** Properties *)

(** C38.  With the flow cache, an outbound IPv4 packet gets the policy that the search of
    the policies gives, through every interleaving of packets of one SPD with changes of
    policies, SPDs, interfaces and associations, in every state but those after the deletion
    of this SPD and before the next addition or removal of an outbound policy: the deletion
    leaves the cache as it is ([deleted_spd_cached]).  The packet must not be blank (protocol
    and addresses zero), since blank entries have its key. *)
Theorem output_cache_coherent bmi2 env hash k n ic im spd tuple fid o :
  rtc (cache_step bmi2 env hash k) (spd_start (cache_start n) ic, false) (im, false) ->
  pool_lookup (spds im) k = Some spd -> out4_packet_ok o -> ~ blank o ->
  snd (out_find hash im (Some spd) tuple fid false true o) = snd (out_find hash im (Some spd) tuple fid false false o).
Proof.
  intros (_ & Hfp & _ & Hc)%cache_reachable Hk Ho Hb. unfold out_find. rewrite find_key by exact Ho.
  rewrite !out_match_linear by exact Hfp. destruct (fc_find _ _ _) as [i|] eqn:E; [|now rewrite out_match_linear].
  eapply fc_find_ok in E; [|exact Hc|now apply flow_of_ok|now apply not_blank_key|intros; now apply look_ext].
  rewrite (look_spd im k spd) in E by exact Hk. symmetry. exact E.
Qed.

(** The key of the outbound flow cache does not name the SPD: once a packet has found a
    policy in one SPD, the same packet on an interface of any other SPD gets that policy,
    whatever the other SPD says. *)
Theorem output_cache_ignores_spd hash im spd1 spd2 tuple fid o i :
  fp_off im -> fc_sized (out_cache im) -> out4_packet_ok o ->
  snd (out_find hash im (Some spd1) tuple fid false true o) = Some i ->
  let im' := fst (out_find hash im (Some spd1) tuple fid false true o) in
  snd (out_find hash im' (Some spd2) tuple fid false true o) = Some i.
Proof.
  intros Hfp Hs Ho. cbv zeta. unfold out_find. rewrite !find_key by exact Ho.
  destruct (fc_find hash (out_cache im) (flow_key (flow_of o))) as [j|] eqn:E; [cbn [fst snd]; now rewrite E|].
  unfold ipsec_output_policy_match. destruct Hfp as (-> & _). cbn [andb]. set (f := flow_of o) in *.
  destruct (find_policy _ (spd_policies spd1 _) _) as [j|]; [|now destruct (has_ports _)].
  replace (fst (let '(lp', rp') := if has_ports (o_protocol o) then _ else _ in _))
    with (im <| out_cache := fc_add hash (out_cache im) (flow_key f) j |>)
    by (unfold flow_key, flow_ports; change (fl_pr f) with (o_protocol o); now destruct (has_ports (o_protocol o))).
  intros Ei. assert (j = i) as -> by (destruct (has_ports _); now injection Ei).
  set (im' := im <| out_cache := _ |>). change (out_cache im') with (fc_add hash (out_cache im) (flow_key f) i).
  now rewrite fc_find_add.
Qed.

(** ** The inbound cache *)

Lemma in4_find_cached hash im spd tuple k ty :
  in4_find hash im spd tuple false true k ty = (im, fc_find hash (in_cache im) (ip4_inbound_key (k_src k) (k_dst k) ty)).
Proof. reflexivity. Qed.

Lemma in4_pass_protect hash im spd tuple use_fp sc k im' i :
  in4_pass hash im spd tuple use_fp sc k = (im', Some (V_PROTECT i)) ->
  k_has_space k = true /\ in4_find hash im spd tuple use_fp sc k IP4_INBOUND_PROTECT = (im', Some i).
Proof.
  unfold in4_pass. destruct (in4_find _ _ _ _ _ _ _ IP4_INBOUND_PROTECT) as [a [p|]], (k_has_space k);
    [intros [= <- <-]; auto|..];
    (destruct (in4_find _ a _ _ _ _ _ IP4_INBOUND_BYPASS) as [b [q|]]; [easy|];
     destruct (in4_find _ b _ _ _ _ _ IP4_INBOUND_DISCARD) as [c [r|]]; easy).
Qed.

(** A pass over the cache leaves the state. *)
Lemma in4_pass_cached hash im spd tuple k : fst (in4_pass hash im spd tuple false true k) = im.
Proof.
  cbv beta iota zeta delta [in4_pass in4_find].
  destruct (ipsec4_input_spd_find_flow_cache_entry _ _ _ _ IP4_INBOUND_PROTECT), (k_has_space k); try reflexivity;
    destruct (ipsec4_input_spd_find_flow_cache_entry _ _ _ _ IP4_INBOUND_BYPASS); reflexivity.
Qed.

(** The key of the inbound flow cache does not hold the SPI: once an IPsec packet has
    been given to a protect policy, every later packet between the same addresses is given
    to that policy and its association, whatever its SPI. *)
Theorem input_cache_ignores_spi hash im spd tuple k k2 i :
  fc_flag (in_cache im) = true -> fc_sized (in_cache im) -> is_u 32 (k_src k) -> is_u 32 (k_dst k) ->
  snd (in4_verdict hash im spd tuple false k) = Some (V_PROTECT i) ->
  k_src k2 = k_src k -> k_dst k2 = k_dst k -> k_has_space k2 = true ->
  let im' := fst (in4_verdict hash im spd tuple false k) in
  snd (in4_verdict hash im' spd tuple false k2) = Some (V_PROTECT i).
Proof.
  intros Hf Hs H1 H2 Hv Es Ed Hsp. cbv zeta. set (key := ip4_inbound_key (k_src k) (k_dst k) IP4_INBOUND_PROTECT).
  assert (forall im2, fc_flag (in_cache im2) = true -> fc_find hash (in_cache im2) key = Some i ->
    snd (in4_verdict hash im2 spd tuple false k2) = Some (V_PROTECT i)) as Hhit.
  { intros im2 Hf2 Hfind. unfold in4_verdict, in4_pass. rewrite Hf2, in4_find_cached, Es, Ed. fold key. now rewrite Hfind, Hsp. }
  unfold in4_verdict in Hv |- * at 2. rewrite Hf in *. pose proof (in4_pass_cached hash im spd tuple k) as E1.
  destruct (in4_pass hash im spd tuple false true k) as [im1 [v|]] eqn:Ep; cbn [fst] in E1; subst im1.
  - cbn [fst snd] in *. injection Hv as ->. apply in4_pass_protect in Ep as [_ Ep]. rewrite in4_find_cached in Ep.
    injection Ep as Ep. now apply Hhit.
  - clear Ep. destruct (in4_pass hash im spd tuple false false k) as [im2 v] eqn:Ep. cbn [fst snd] in *. subst v.
    apply in4_pass_protect in Ep as [_ Ep]. unfold in4_find, ipsec_input_protect_policy_match in Ep.
    rewrite (bool_decide_eq_true_2 (IP4_INBOUND_PROTECT = _) eq_refl), Hf in Ep.
    destruct (find_policy _ _ _) as [j|]; [|easy]. injection Ep as <- <-. unfold ipsec4_input_spd_add_flow_cache_entry.
    rewrite !net_host_u32 by assumption. apply Hhit; [exact Hf|]. exact (fc_find_add hash (in_cache im) key j Hs).
Qed.

(** ** Examples *)

(** A UDP packet of local address [la] to address 5. *)
Definition packet_ex (la : Z) : out_packet :=
  mk_out_packet 7 (ip46_of_ip4 (host_to_net_u32 la)) (ip46_of_ip4 (host_to_net_u32 5)) 17 (host_to_net_u16 1) (host_to_net_u16 2) 0.

Definition im_ex3 : ipsec_main_t :=
  fst (out_find ipsec4_hash_16_8 im_ex2 (Some (spd_at im_ex2 0)) tuple_zero 0 false true (packet_ex 160)).

Lemma packet_ex_ok la : is_u 32 (host_to_net_u32 la) -> ip46_ip4 (o_src (packet_ex la)) = host_to_net_u32 la -> out4_packet_ok (packet_ex la).
Proof.
  intros H E. unfold out4_packet_ok. rewrite E. split; [split; [discriminate|reflexivity]|]. split; [exact H|].
  repeat split; vm_compute; discriminate || reflexivity.
Qed.

(** SPD 1 is deleted and made again, and gets a policy: the cache is used before, and again after. *)
Definition im_del : ipsec_main_t := fst (ipsec_add_del_spd (fst (ipsec_add_del_spd im_ex3 1 false)) 1 true).
Definition im_again : ipsec_main_t := fst (ipsec_add_del_policy im_del (policy_ex 30 100 200 ACTION_BYPASS) true).
Definition im_hit : ipsec_main_t :=
  fst (out_find ipsec4_hash_16_8 im_again (Some (spd_at im_again 0)) tuple_zero 0 false true (packet_ex 160)).

Lemma ex_hit_reachable : rtc (cache_step false env_example ipsec4_hash_16_8 0) (spd_start (cache_start 4) cache_ex, false) (im_hit, false).
Proof.
  apply (rtc_l _ _ (im_ex0, false)); [apply cs_add_spd|].
  apply (rtc_l _ _ (im_ex1, false)); [apply (cs_add_policy _ _ _ _ im_ex0 false); [reflexivity|apply no_locks; vm_compute; reflexivity]|].
  apply (rtc_l _ _ (im_ex2, false)); [apply (cs_add_policy _ _ _ _ im_ex1 false); [reflexivity|apply no_locks; vm_compute; reflexivity]|].
  apply (rtc_l _ _ (im_ex3, false)); [apply cs_packet; [apply spd_at_some; vm_compute; reflexivity|apply packet_ex_ok; [net_range|vm_compute; reflexivity]]|].
  apply (rtc_l _ _ (fst (ipsec_add_del_spd im_ex3 1 false), true)); [exact (cs_del_spd _ _ _ _ im_ex3 false 1)|].
  apply (rtc_l _ _ (im_del, true)); [apply cs_add_spd|].
  apply (rtc_l _ _ (im_again, false)); [|apply rtc_once, cs_packet; [apply spd_at_some; vm_compute; reflexivity|apply packet_ex_ok; [net_range|vm_compute; reflexivity]]].
  replace false with (true && negb (invalidates im_del (policy_ex 30 100 200 ACTION_BYPASS))) at 2 by (vm_compute; reflexivity).
  apply (cs_add_policy _ _ _ _ im_del true); [reflexivity|apply no_locks; vm_compute; reflexivity].
Qed.

Lemma output_cache_coherent_witness :
  fc_entries (out_cache im_hit) = 1 /\
  snd (out_find ipsec4_hash_16_8 im_hit (Some (spd_at im_hit 0)) tuple_zero 0 false true (packet_ex 160)) =
  snd (out_find ipsec4_hash_16_8 im_hit (Some (spd_at im_hit 0)) tuple_zero 0 false false (packet_ex 160)).
Proof.
  split; [vm_compute; reflexivity|].
  eapply output_cache_coherent; [exact ex_hit_reachable|apply spd_at_some; vm_compute; reflexivity| |].
  - apply packet_ex_ok; [net_range|vm_compute; reflexivity].
  - intros (H & _). discriminate H.
Defined.

(** Until then the packet gets the policy of the deleted SPD, although the new one has none. *)
Example deleted_spd_cached :
  snd (out_find ipsec4_hash_16_8 im_del (Some (spd_at im_del 0)) tuple_zero 0 false true (packet_ex 160)) = Some 1 /\
  snd (out_find ipsec4_hash_16_8 im_del (Some (spd_at im_del 0)) tuple_zero 0 false false (packet_ex 160)) = None.
Proof. split; vm_compute; reflexivity. Qed.

(** SPD 2 has no policy, so it drops the packet; after SPD 1 has let it pass, it does not. *)
Definition im_ex4 : ipsec_main_t := fst (ipsec_add_del_spd im_ex2 2 true).

Lemma output_cache_ignores_spd_witness :
  snd (out_find ipsec4_hash_16_8 im_ex4 (Some (spd_at im_ex4 1)) tuple_zero 0 false true (packet_ex 120)) = None /\
  snd (out_find ipsec4_hash_16_8
         (fst (out_find ipsec4_hash_16_8 im_ex4 (Some (spd_at im_ex4 0)) tuple_zero 0 false true (packet_ex 120)))
         (Some (spd_at im_ex4 1)) tuple_zero 0 false true (packet_ex 120)) = Some 0.
Proof.
  split; [vm_compute; reflexivity|]. apply (output_cache_ignores_spd ipsec4_hash_16_8 im_ex4 (spd_at im_ex4 0) (spd_at im_ex4 1)).
  - repeat split; vm_compute; reflexivity.
  - split; [exists 2%nat; vm_compute; reflexivity|]. split; vm_compute; [discriminate|reflexivity].
  - apply packet_ex_ok; [net_range|vm_compute; reflexivity].
  - vm_compute. reflexivity.
Defined.

(** A protect policy of the association 10 (SPI 1000, tunnel from 10.0.0.1 to 10.0.0.2). *)
Definition policy_in_ex : ipsec_policy_t :=
  mk_policy 1 10 IP4_INBOUND_PROTECT false (ip4_range 0 (2 ^ 32 - 1)) (ip4_range 0 (2 ^ 32 - 1)) IPSEC_POLICY_PROTOCOL_ANY
    (mk_prange 0 65535) (mk_prange 0 65535) ACTION_PROTECT 10 0 0.
Definition im_ex5 : ipsec_main_t :=
  fst (ipsec_add_del_policy (im_ex0 <| sad := fst (add_example sad_init) |>) policy_in_ex true).
Definition esp_ex (spi : Z) : ip4_packet := mk_ip4_packet 0 16777226 33554442 50 0 (host_to_net_u32 spi) true.

Lemma input_cache_ignores_spi_witness :
  snd (in4_verdict ipsec4_hash_16_8 im_ex5 (spd_at im_ex5 0) tuple_zero false (esp_ex 2000)) = None /\
  snd (in4_verdict ipsec4_hash_16_8
         (fst (in4_verdict ipsec4_hash_16_8 im_ex5 (spd_at im_ex5 0) tuple_zero false (esp_ex 1000)))
         (spd_at im_ex5 0) tuple_zero false (esp_ex 2000)) = Some (V_PROTECT 0).
Proof.
  split; [vm_compute; reflexivity|].
  apply (input_cache_ignores_spi ipsec4_hash_16_8 im_ex5 (spd_at im_ex5 0) tuple_zero (esp_ex 1000) (esp_ex 2000) 0);
    try reflexivity; try (vm_compute; reflexivity).
  - split; [exists 2%nat; vm_compute; reflexivity|]. split; vm_compute; [discriminate|reflexivity].
  - split; vm_compute; [discriminate|reflexivity].
  - split; vm_compute; [discriminate|reflexivity].
Defined.
