(* ===== verification/FastPath.v ===== *)
(** * The fast path of outbound policies

    Each policy is stored in a hash table under its 5-tuple masked with the common
    prefix of its ranges.  A packet that a policy applies to has the same masked tuple
    (completeness of the masks), so that the lookup, one probe per mask in use, finds a
    policy of highest priority. *)

From Stdlib Require Import Sorting.Sorted.
From stdpp Require Import gmap.
From S2P Require Import Prelude NetTypes Pool Crypto IpsecSa Sad SpdTypes SpdPolicy SpdLookup SpdInv.

(** ** Smearing *)

(** [x |= x >> n] for each shift; bit [i] collects the bits at the sums of shifts. *)
Definition smear (shifts : list Z) (x : Z) : Z := fold_left (fun x n => Z.lor x (Z.shiftr x n)) shifts x.

Definition offsets (shifts : list Z) : list Z := fold_left (fun ds n => ds ++ map (Z.add n) ds) shifts [0].

Lemma smear_bits_from ds shifts x y i :
  0 <= i -> Forall (fun n => 0 <= n) shifts ->
  (forall i, 0 <= i -> Z.testbit y i = existsb (fun d => Z.testbit x (i + d)) ds) ->
  Z.testbit (smear shifts y) i =
  existsb (fun d => Z.testbit x (i + d)) (fold_left (fun ds n => ds ++ map (Z.add n) ds) shifts ds).
Proof.
  intros Hi Hs. revert y ds. induction Hs as [|n shifts Hn Hs IH]; intros y ds Hy; cbn; [now apply Hy|].
  apply IH. intros j Hj. rewrite Z.lor_spec, Z.shiftr_spec, !Hy, existsb_app by lia. f_equal.
  clear. induction ds as [|d ds IH]; cbn; [reflexivity|]. rewrite IH. do 2 f_equal. lia.
Qed.

Lemma smear_bits shifts x i :
  0 <= i -> Forall (fun n => 0 <= n) shifts ->
  Z.testbit (smear shifts x) i = existsb (fun d => Z.testbit x (i + d)) (offsets shifts).
Proof.
  intros Hi Hs. apply smear_bits_from; [assumption..|]. intros j _. cbn. now rewrite Z.add_0_r, orb_false_r.
Qed.

(** The shifts cover a word of [w] bits. *)
Definition covers (w : Z) (shifts : list Z) : bool :=
  forallb (fun d => existsb (Z.eqb (Z.of_nat d)) (offsets shifts)) (seq 0 (Z.to_nat w)).

(** A bit of the complement is set only when no bit at or above it is. *)
Lemma smear_mask_bits w shifts x i :
  0 <= w -> covers w shifts = true -> Forall (fun n => 0 <= n) shifts -> is_u w x ->
  0 <= i -> Z.testbit (Z.ldiff (Z.ones w) (smear shifts x)) i = true -> Z.shiftr x i = 0.
Proof.
  intros Hw Hc Hs Hx Hi. rewrite Z.ldiff_spec, testbit_ones, smear_bits by assumption.
  rewrite andb_true_iff, negb_true_iff, Z.ltb_lt. intros [Hiw He]. apply Z.bits_inj'. intros j Hj.
  rewrite Z.shiftr_spec, Z.bits_0 by assumption. destruct (Z.ltb_spec (j + i) w); [|now apply (is_u_testbit_high w)].
  unfold covers in Hc. rewrite forallb_forall in Hc. specialize (Hc (Z.to_nat j)). rewrite existsb_exists in Hc.
  destruct Hc as (d & Hd & Ed); [apply in_seq; lia|]. apply Z.eqb_eq in Ed. rewrite Z2Nat.id in Ed by assumption. subst d.
  apply not_true_is_false. intros Ht. apply not_true_iff_false in He. apply He. apply existsb_exists.
  exists j. split; [assumption|]. now rewrite Z.add_comm.
Qed.

(** A value between two bounds has their common prefix. *)
Lemma between_prefix lo v hi i :
  0 <= i -> lo <= v <= hi -> Z.shiftr (Z.lxor lo hi) i = 0 -> Z.testbit v i = Z.testbit lo i.
Proof.
  intros Hi Hv Hx. rewrite Z.shiftr_lxor in Hx. apply Z.lxor_eq in Hx.
  assert (Z.shiftr v i = Z.shiftr lo i) as E.
  { rewrite !Z.shiftr_div_pow2 in * by assumption. assert (0 < 2 ^ i) by (apply Z.pow_pos_nonneg; lia).
    pose proof (Z.div_le_mono lo v (2 ^ i)). pose proof (Z.div_le_mono v hi (2 ^ i)). lia. }
  rewrite <- (Z.add_0_l i). rewrite <- !Z.shiftr_spec by lia. now rewrite E.
Qed.

Definition prefix_mask (w : Z) (shifts : list Z) (x : Z) : Z := Z.ldiff (Z.ones w) (smear shifts x).

Lemma prefix_mask_between w shifts lo v hi :
  0 <= w -> covers w shifts = true -> Forall (fun n => 0 <= n) shifts -> is_u w lo -> is_u w hi -> lo <= v <= hi ->
  Z.land v (prefix_mask w shifts (Z.lxor lo hi)) = Z.land lo (prefix_mask w shifts (Z.lxor lo hi)).
Proof.
  intros Hw Hc Hs Hlo Hhi Hv. apply Z.bits_inj'. intros i Hi. rewrite !Z.land_spec.
  destruct (Z.testbit (prefix_mask w shifts (Z.lxor lo hi)) i) eqn:E; [|now rewrite !andb_false_r].
  f_equal. apply (between_prefix lo v hi); [assumption..|]. apply (smear_mask_bits w shifts); auto.
  apply is_u_bits; [assumption|apply Z.lxor_nonneg; unfold is_u in *; lia|].
  intros j Hj. rewrite Z.lxor_spec, !(is_u_testbit_high w); auto.
Qed.

(** The three masks. *)
Lemma mask_u16_eq x : mask_out_highest_set_bit_u16 x = prefix_mask 16 [8; 4; 2; 1] x.
Proof. reflexivity. Qed.
Lemma mask_u32_eq x : mask_out_highest_set_bit_u32 x = prefix_mask 32 [16; 8; 4; 2; 1] x.
Proof. reflexivity. Qed.
Lemma mask_u64_eq x : mask_out_highest_set_bit_u64 x = prefix_mask 64 [32; 16; 8; 4; 2; 1] x.
Proof. reflexivity. Qed.

Ltac mask_side := first [lia | reflexivity | repeat constructor; lia].

Lemma mask_u16_between lo v hi :
  is_u 16 lo -> is_u 16 hi -> lo <= v <= hi ->
  Z.land v (mask_out_highest_set_bit_u16 (Z.lxor lo hi)) = Z.land lo (mask_out_highest_set_bit_u16 (Z.lxor lo hi)).
Proof. rewrite mask_u16_eq. apply prefix_mask_between; mask_side. Qed.

Lemma prefix_mask_range w shifts x : 0 <= w -> is_u w (prefix_mask w shifts x).
Proof.
  intros Hw. unfold prefix_mask. apply is_u_bits; [assumption| |].
  - apply Z.ldiff_nonneg. left. rewrite Z.ones_equiv. assert (0 < 2 ^ w) by (apply Z.pow_pos_nonneg; lia). lia.
  - intros i Hi. rewrite Z.ldiff_spec, testbit_ones by lia. now rewrite (proj2 (Z.ltb_ge i w)).
Qed.

(** Words of [w = 8 n] bits in network order. *)
Lemma net_mask_between n w shifts lo v hi :
  w = 8 * Z.of_nat n -> covers w shifts = true -> Forall (fun n => 0 <= n) shifts -> is_u w lo -> is_u w v ->
  bswap n lo <= bswap n v <= bswap n hi ->
  let m := bswap n (prefix_mask w shifts (bswap n (Z.lxor lo hi))) in Z.land v m = Z.land lo m.
Proof.
  intros -> Hc Hs Hlo Hv Hb. cbv zeta. set (m := prefix_mask _ _ _).
  assert (is_u (8 * Z.of_nat n) m) as Hm by (apply prefix_mask_range; lia).
  assert (forall x, is_u (8 * Z.of_nat n) x -> is_u (8 * Z.of_nat n) (Z.land x (bswap n m))) as Hr.
  { intros x Hx. apply is_u_land; [lia|assumption|]. pose proof (bswap_is_u n m) as H. unfold is_u in H. lia. }
  apply (bswap_inj n); [auto..|]. rewrite !bswap_land, bswap_involutive by assumption.
  unfold m. rewrite bswap_lxor. apply prefix_mask_between; auto using bswap_is_u. lia.
Qed.

Lemma covers_32 : covers 32 [16; 8; 4; 2; 1] = true.
Proof. vm_compute. reflexivity. Qed.

Lemma covers_64 : covers 64 [32; 16; 8; 4; 2; 1] = true.
Proof. vm_compute. reflexivity. Qed.

Lemma net_mask_u32_between lo v hi :
  is_u 32 lo -> is_u 32 v -> net_to_host_u32 lo <= net_to_host_u32 v <= net_to_host_u32 hi ->
  Z.land v (net_mask_u32 lo hi) = Z.land lo (net_mask_u32 lo hi).
Proof.
  intros Hlo Hv Hb. unfold net_mask_u32. rewrite mask_u32_eq.
  apply (net_mask_between 4 32 _ lo v hi); [reflexivity|apply covers_32|repeat constructor; lia|assumption..].
Qed.

Lemma net_mask_u64_between lo v hi :
  is_u 64 lo -> is_u 64 v -> net_to_host_u64 lo <= net_to_host_u64 v <= net_to_host_u64 hi ->
  Z.land v (net_mask_u64 lo hi) = Z.land lo (net_mask_u64 lo hi).
Proof.
  intros Hlo Hv Hb. unfold net_mask_u64. rewrite mask_u64_eq.
  apply (net_mask_between 8 64 _ lo v hi); [reflexivity|apply covers_64|repeat constructor; lia|assumption..].
Qed.

Lemma land_last_bit n m : Z.testbit m 0 = false -> Z.land (bswap n m) (bswap n 1) = 0.
Proof.
  intros E. rewrite <- bswap_land. replace (Z.land m 1) with 0.
  - induction n as [|n IH]; [reflexivity|]. cbn [bswap]. rewrite Z.shiftr_0_l, IH. cbn. now rewrite Z.shiftl_0_l.
  - symmetry. apply Z.bits_inj'. intros i Hi. rewrite Z.land_spec, Z.bits_0. change 1 with (2 ^ 0).
    destruct (decide (i = 0)) as [->|Hne]; [now rewrite E|]. rewrite Z.pow2_bits_false by congruence. apply andb_false_r.
Qed.

Lemma net_to_host_u64_range x : is_u 64 (net_to_host_u64 x).
Proof. exact (bswap_is_u 8 x). Qed.

Lemma net_to_host_u64_xor x y : net_to_host_u64 (Z.lxor x y) = Z.lxor (net_to_host_u64 x) (net_to_host_u64 y).
Proof. exact (bswap_lxor 8 x y). Qed.

Lemma net_to_host_u64_inj x y : is_u 64 x -> is_u 64 y -> net_to_host_u64 x = net_to_host_u64 y -> x = y.
Proof. exact (bswap_inj 8 x y). Qed.

(** A full mask of the first word means that the bounds agree there. *)
Lemma net_mask_u64_full lo hi :
  is_u 64 lo -> is_u 64 hi -> Z.land (net_mask_u64 lo hi) (host_to_net_u64 1) <> 0 -> lo = hi.
Proof.
  intros Hlo Hhi Hl. apply net_to_host_u64_inj; [assumption..|]. apply Z.lxor_eq. rewrite <- net_to_host_u64_xor.
  pose proof (smear_mask_bits 64 [32; 16; 8; 4; 2; 1] (net_to_host_u64 (Z.lxor lo hi)) 0) as H.
  rewrite Z.shiftr_0_r in H. apply H; [lia|apply covers_64|repeat constructor; lia|apply net_to_host_u64_range|lia|].
  apply not_false_iff_true. intros E. apply Hl.
  unfold net_mask_u64, host_to_net_u64. rewrite mask_u64_eq. unfold prefix_mask. exact (land_last_bit 8 _ E).
Qed.

(** ** Keys *)

Lemma pack_land n a b c d :
  0 <= n -> is_u n a -> is_u n c -> 
  Z.land (Z.lor a (Z.shiftl b n)) (Z.lor c (Z.shiftl d n)) = Z.lor (Z.land a c) (Z.shiftl (Z.land b d) n).
Proof.
  intros Hn Ha Hc. apply Z.bits_inj'. intros i Hi. rewrite !Z.land_spec, !Z.lor_spec, !Z.shiftl_spec, !Z.land_spec by assumption.
  destruct (Z.ltb_spec i n).
  - rewrite !(Z.testbit_neg_r _ (i - n)), !orb_false_r by lia. reflexivity.
  - rewrite (is_u_testbit_high n a), (is_u_testbit_high n c) by auto. reflexivity.
Qed.

(** The words of a tuple are in range. *)
Record tuple_ok (t : ipsec_fp_5tuple_t) : Prop := {
  to_ports : is_u 32 (ft_ports t);
  to_protocol : is_u 8 (ft_protocol t);
  to_action : is_u 8 (ft_action t)
}.

Lemma ft_w4_eq t :
  ft_w4 t = Z.lor (ft_ports t) (Z.shiftl (Z.lor (ft_protocol t) (Z.shiftl (Z.lor (ft_action t) (Z.shiftl (ft_is_ipv6 t) 8)) 8)) 32).
Proof.
  unfold ft_w4. rewrite !Z.shiftl_lor, !Z.shiftl_shiftl by lia. reflexivity.
Qed.

Lemma ft_w4_land t m :
  tuple_ok t -> tuple_ok m ->
  Z.land (ft_w4 t) (ft_w4 m) =
  Z.lor (Z.land (ft_ports t) (ft_ports m)) (Z.shiftl (Z.lor (Z.land (ft_protocol t) (ft_protocol m))
    (Z.shiftl (Z.lor (Z.land (ft_action t) (ft_action m)) (Z.shiftl (Z.land (ft_is_ipv6 t) (ft_is_ipv6 m)) 8)) 8)) 32).
Proof.
  intros [T1 T2 T3] [M1 M2 M3]. rewrite !ft_w4_eq. now rewrite !pack_land by (assumption || lia).
Qed.

(** Masked keys agree when the masked fields do. *)
Record fields_agree (t u m : ipsec_fp_5tuple_t) : Prop := {
  fa_ports : Z.land (ft_ports t) (ft_ports m) = Z.land (ft_ports u) (ft_ports m);
  fa_protocol : Z.land (ft_protocol t) (ft_protocol m) = Z.land (ft_protocol u) (ft_protocol m);
  fa_action : Z.land (ft_action t) (ft_action m) = Z.land (ft_action u) (ft_action m);
  fa_is_ipv6 : ft_is_ipv6 t = ft_is_ipv6 u
}.

Lemma w4_agree t u m :
  tuple_ok t -> tuple_ok u -> tuple_ok m -> fields_agree t u m -> Z.land (ft_w4 t) (ft_w4 m) = Z.land (ft_w4 u) (ft_w4 m).
Proof. intros Ht Hu Hm [F1 F2 F3 F4]. now rewrite !ft_w4_land, F1, F2, F3, F4. Qed.

(** ** Completeness of the outbound masks *)

(** The fields of a policy are in range. *)
Record policy_ok (p : ipsec_policy_t) : Prop := {
  po_ls : ip46_ok (ar_start (p_laddr p)); po_le : ip46_ok (ar_stop (p_laddr p));
  po_rs : ip46_ok (ar_start (p_raddr p)); po_re : ip46_ok (ar_stop (p_raddr p));
  po_protocol : is_u 8 (p_protocol p);
  po_lps : is_u 16 (pr_start (p_lport p)); po_lpe : is_u 16 (pr_stop (p_lport p));
  po_rps : is_u 16 (pr_start (p_rport p)); po_rpe : is_u 16 (pr_stop (p_rport p))
}.

(** The words of a packet's tuple. *)
Record packet_ok (t : ipsec_fp_5tuple_t) : Prop := {
  ko_tuple : tuple_ok t;
  ko_w0 : is_u 64 (ft_w0 t); ko_w1 : is_u 64 (ft_w1 t); ko_w2 : is_u 64 (ft_w2 t); ko_w3 : is_u 64 (ft_w3 t)
}.

Lemma is_u_shiftr n m x : 0 <= n -> 0 <= m -> is_u (n + m) x -> is_u m (Z.shiftr x n).
Proof.
  intros Hn Hm Hx. rewrite Z.shiftr_div_pow2 by assumption. unfold is_u in *. rewrite Z.pow_add_r in Hx by assumption.
  assert (0 < 2 ^ n) by (apply Z.pow_pos_nonneg; lia).
  split; [apply Z.div_pos; lia|apply Z.div_lt_upper_bound; lia].
Qed.

Lemma split_word n x : 0 <= n -> 0 <= x -> x = Z.lor (x mod 2 ^ n) (Z.shiftl (Z.shiftr x n) n).
Proof.
  intros Hn Hx. assert (0 < 2 ^ n) by (apply Z.pow_pos_nonneg; lia).
  rewrite lor_shiftl_add; [|assumption|apply Z.mod_pos_bound; assumption].
  rewrite Z.shiftr_div_pow2 by assumption. pose proof (Z.div_mod x (2 ^ n)). lia.
Qed.

Lemma mask_u16_range x : is_u 16 (mask_out_highest_set_bit_u16 x).
Proof. rewrite mask_u16_eq. apply prefix_mask_range. lia. Qed.

Lemma net_mask_u32_range lo hi : is_u 32 (net_mask_u32 lo hi).
Proof. exact (bswap_is_u 4 _). Qed.

Lemma ip46_ip4_range a : ip46_ok a -> is_u 32 (ip46_ip4 a).
Proof. intros [_ H]. apply (is_u_shiftr 32 32); [lia..|exact H]. Qed.

(** The fields of the outbound mask that both families share. *)
Record out_mask_fields (p : ipsec_policy_t) (m : ipsec_fp_5tuple_t) : Prop := {
  om_ports : ft_ports m =
    if has_ports (p_protocol p)
    then pack_ports (mask_out_highest_set_bit_u16 (Z.lxor (pr_start (p_lport p)) (pr_stop (p_lport p))))
           (mask_out_highest_set_bit_u16 (Z.lxor (pr_start (p_rport p)) (pr_stop (p_rport p))))
    else 0;
  om_protocol : ft_protocol m = if p_protocol p =? IPSEC_POLICY_PROTOCOL_ANY then 0 else 255;
  om_action : ft_action m = 0
}.

Lemma out_mask_spec p m pr : out_mask_fields p (fp_set_spi_mask p m false pr).
Proof. split; unfold fp_set_spi_mask, ipsec_fp_get_policy_ports_mask; destruct (has_ports _); reflexivity. Qed.

Lemma out_mask_ok p m : out_mask_fields p m -> tuple_ok m.
Proof.
  intros [E1 E2 E3]. split; rewrite ?E1, ?E2, ?E3.
  - destruct (has_ports _); [|split; [lia|reflexivity]]. unfold pack_ports.
    rewrite lor_shiftl_add by (lia || apply mask_u16_range). pose proof (mask_u16_range (Z.lxor (pr_start (p_lport p)) (pr_stop (p_lport p)))).
    pose proof (mask_u16_range (Z.lxor (pr_start (p_rport p)) (pr_stop (p_rport p)))). unfold is_u in *. lia.
  - destruct (_ =? _); split; try lia; reflexivity.
  - split; [lia|reflexivity].
Qed.

Lemma pack_ports_range a b : is_u 16 a -> is_u 16 b -> is_u 32 (pack_ports a b).
Proof. intros Ha Hb. unfold pack_ports. rewrite lor_shiftl_add by (lia || assumption). unfold is_u in *. lia. Qed.

(** Ports, protocol and family of the packet and of the policy agree under the mask. *)
Lemma out_fields_agree im p m t :
  policy_ok p -> packet_ok t -> out_mask_fields p m -> single_rule_out_match_5tuple p t = true ->
  fields_agree t (ipsec_fp_get_policy_5tuple im p false) m /\ tuple_ok (ipsec_fp_get_policy_5tuple im p false).
Proof.
  intros Hp Ht [E1 E2 E3] Hr. unfold single_rule_out_match_5tuple in Hr.
  destruct (Z.eqb_spec (Z.b2z (p_is_ipv6 p)) (ft_is_ipv6 t)) as [E6|]; [|easy]. cbn [negb] in Hr.
  destruct (proto_match p (ft_protocol t)) eqn:Epr; [|easy]. cbn [negb] in Hr. apply andb_true_iff in Hr as [_ Hports].
  rewrite policy_ports_match_iff in Hports. unfold proto_match in Epr. rewrite orb_true_iff, !Z.eqb_eq in Epr.
  set (u := ipsec_fp_get_policy_5tuple im p false).
  assert (ft_ports u = pack_ports (pr_start (p_lport p)) (pr_start (p_rport p)) /\ ft_protocol u = p_protocol p /\
    ft_action u = 0 /\ ft_is_ipv6 u = Z.b2z (p_is_ipv6 p)) as (U1 & U2 & U3 & U4).
  { unfold u, ipsec_fp_get_policy_5tuple, tuple_set_addrs. destruct (p_is_ipv6 p); repeat split. }
  clearbody u. destruct Hp. destruct Ht as [[T1 T2 T3] _ _ _ _]. split; split; rewrite ?E1, ?E2, ?E3, ?U1, ?U2, ?U3, ?U4, ?Z.land_0_r.
  - destruct (has_ports (p_protocol p)) eqn:Eh; [|now rewrite !Z.land_0_r].
    assert (p_protocol p = ft_protocol t) as Epp.
    { destruct Epr as [Epr|Epr]; [|exact Epr]. rewrite Epr in Eh. discriminate. }
    rewrite Epp, has_ports_iff in Eh. destruct (Hports Eh) as [Hl Hrp].
    assert (ft_ports t = pack_ports (ft_lport t) (ft_rport t)) as ->.
    { unfold pack_ports, ft_lport, ft_rport, u16. apply split_word; [lia|apply T1]. }
    assert (is_u 16 (ft_lport t)) by apply u16_range. unfold pack_ports.
    rewrite !pack_land by (lia || assumption || apply mask_u16_range). now rewrite (mask_u16_between _ (ft_lport t)), (mask_u16_between _ (ft_rport t)).
  - destruct (Z.eqb_spec (p_protocol p) IPSEC_POLICY_PROTOCOL_ANY); [now rewrite !Z.land_0_r|]. destruct Epr as [Epr|Epr]; [easy|].
    now rewrite Epr.
  - reflexivity.
  - now symmetry.
  - now apply pack_ports_range.
  - assumption.
  - split; [lia|reflexivity].
Qed.

(** The address words are not changed by the rest of the mask. *)
Lemma spi_mask_words p m pr :
  let m' := fp_set_spi_mask p m false pr in
  ft_w0 m' = ft_w0 m /\ ft_w1 m' = ft_w1 m /\ ft_w2 m' = ft_w2 m /\ ft_w3 m' = ft_w3 m.
Proof. cbv zeta. unfold fp_set_spi_mask, ipsec_fp_get_policy_ports_mask. destruct (has_ports _); repeat split. Qed.

Lemma ip4_mask_complete im p t :
  policy_ok p -> packet_ok t -> p_is_ipv6 p = false -> single_rule_out_match_5tuple p t = true ->
  let m := ipsec_fp_ip4_get_policy_mask im p false in
  fill_ip4_hash_policy_kv t m = fill_ip4_hash_policy_kv (ipsec_fp_get_policy_5tuple im p false) m.
Proof.
  intros Hp Ht H6 Hr. cbv zeta. unfold ipsec_fp_ip4_get_policy_mask. cbn [andb]. set (m0 := _ <| ft_w3 := _ |>).
  pose proof (out_mask_spec p m0 IP4_INBOUND_PROTECT) as Hm. pose proof (out_mask_ok _ _ Hm) as Hmo.
  destruct (spi_mask_words p m0 IP4_INBOUND_PROTECT) as (_ & _ & _ & W3).
  destruct (out_fields_agree im p _ t Hp Ht Hm Hr) as [Hf Hu].
  set (m := fp_set_spi_mask p m0 false IP4_INBOUND_PROTECT) in *.
  unfold fill_ip4_hash_policy_kv. f_equal; [|exact (w4_agree _ _ _ (ko_tuple _ Ht) Hu Hmo Hf)].
  clear Hf Hu Hmo Hm. rewrite W3. clear W3 m. subst m0. cbn [ft_w3].
  replace (ft_w3 (ipsec_fp_get_policy_5tuple im p false))
    with (pack_addrs (ip46_ip4 (ar_start (p_laddr p))) (ip46_ip4 (ar_start (p_raddr p))))
    by (unfold ipsec_fp_get_policy_5tuple, tuple_set_addrs; now rewrite H6).
  match goal with |- Z.land (ft_w3 t) ?x = _ => change x with
    (pack_addrs (net_mask_u32 (ip46_ip4 (ar_start (p_laddr p))) (ip46_ip4 (ar_stop (p_laddr p))))
                (net_mask_u32 (ip46_ip4 (ar_start (p_raddr p))) (ip46_ip4 (ar_stop (p_raddr p))))) end.
  unfold single_rule_out_match_5tuple in Hr. rewrite H6 in Hr. destruct (negb _); [easy|]. destruct (negb _); [easy|].
  rewrite !andb_true_iff, !in_range_iff in Hr. destruct Hr as [[Hl Hrr] _].
  assert (ft_w3 t = pack_addrs (ft_laddr t) (ft_raddr t)) as ->.
  { unfold pack_addrs, ft_laddr, ft_raddr, u32. apply split_word; [lia|apply Ht]. }
  pose proof (ip46_ip4_range _ (po_ls _ Hp)) as Ls. pose proof (ip46_ip4_range _ (po_rs _ Hp)) as Rs.
  assert (is_u 32 (ft_laddr t)) as Tl by apply u32_range.
  assert (is_u 32 (ft_raddr t)) as Tr by (apply (is_u_shiftr 32 32); [lia..|exact (ko_w3 _ Ht)]).
  pose proof (net_mask_u32_range (ip46_ip4 (ar_start (p_laddr p))) (ip46_ip4 (ar_stop (p_laddr p)))) as Ml.
  pose proof (net_mask_u32_between _ _ _ Ls Tl Hl) as El. pose proof (net_mask_u32_between _ _ _ Rs Tr Hrr) as Er.
  unfold pack_addrs. rewrite !pack_land by (assumption || lia). now rewrite El, Er.
Qed.

(** ** IPv6 *)

Lemma ip6_num_val a : ip6_num a = net_to_host_u64 (ip46_w1 a) + net_to_host_u64 (ip46_w0 a) * 2 ^ 64.
Proof. unfold ip6_num. rewrite Z.lor_comm. apply lor_shiftl_add; [lia|apply net_to_host_u64_range]. Qed.

Lemma net_mask_u64_range lo hi : is_u 64 (net_mask_u64 lo hi).
Proof. exact (bswap_is_u 8 _). Qed.

(** The two words of an address between two bounds, under their mask. *)
Lemma ip6_mask_between lo v hi :
  ip46_ok lo -> ip46_ok hi -> ip46_ok v -> ip6_num lo <= ip6_num v <= ip6_num hi ->
  Z.land (ip46_w0 v) (fst (ip6_mask lo hi)) = Z.land (ip46_w0 lo) (fst (ip6_mask lo hi)) /\
  Z.land (ip46_w1 v) (snd (ip6_mask lo hi)) = Z.land (ip46_w1 lo) (snd (ip6_mask lo hi)).
Proof.
  intros [L0 L1] [H0 H1] [V0 V1] Hb. rewrite !ip6_num_val in Hb.
  pose proof (net_to_host_u64_range (ip46_w1 lo)) as RL. pose proof (net_to_host_u64_range (ip46_w1 v)) as RV.
  pose proof (net_to_host_u64_range (ip46_w1 hi)) as RH. unfold is_u in RL, RV, RH.
  assert (net_to_host_u64 (ip46_w0 lo) <= net_to_host_u64 (ip46_w0 v) <= net_to_host_u64 (ip46_w0 hi)) as Hb0 by nia.
  unfold ip6_mask. destruct (Z.eqb_spec (Z.land (net_mask_u64 (ip46_w0 lo) (ip46_w0 hi)) (host_to_net_u64 1)) 0) as [E|E]; cbn [negb fst snd].
  - split; [now apply net_mask_u64_between|now rewrite !Z.land_0_r].
  - apply net_mask_u64_full in E; [|assumption..]. split; [now apply net_mask_u64_between|].
    apply net_mask_u64_between; [assumption..|]. rewrite E in *. nia.
Qed.

Lemma ip6_compare_not_lt a b : negb (bool_decide (ip6_address_compare a b = Lt)) = true <-> ip6_num b <= ip6_num a.
Proof.
  rewrite negb_true_iff, bool_decide_eq_false. unfold ip6_address_compare. rewrite Z.compare_lt_iff. lia.
Qed.

Lemma ip6_mask_complete im p t :
  policy_ok p -> packet_ok t -> p_is_ipv6 p = true -> single_rule_out_match_5tuple p t = true ->
  let m := ipsec_fp_ip6_get_policy_mask im p false in
  fill_ip6_hash_policy_kv t m = fill_ip6_hash_policy_kv (ipsec_fp_get_policy_5tuple im p false) m.
Proof.
  intros Hp Ht H6 Hr. cbv zeta. unfold ipsec_fp_ip6_get_policy_mask. cbn [andb].
  pose proof (ip6_mask_between (ar_start (p_laddr p)) (ft_ip6_laddr t) (ar_stop (p_laddr p))) as Bl.
  pose proof (ip6_mask_between (ar_start (p_raddr p)) (ft_ip6_raddr t) (ar_stop (p_raddr p))) as Br.
  destruct (ip6_mask (ar_start (p_laddr p)) _) as [l0 l1]. destruct (ip6_mask (ar_start (p_raddr p)) _) as [r0 r1].
  set (m0 := _ <| ft_w3 := r1 |>).
  pose proof (out_mask_spec p m0 IP6_INBOUND_PROTECT) as Hm. pose proof (out_mask_ok _ _ Hm) as Hmo.
  destruct (spi_mask_words p m0 IP6_INBOUND_PROTECT) as (W0 & W1 & W2 & W3).
  destruct (out_fields_agree im p _ t Hp Ht Hm Hr) as [Hf Hu].
  set (m := fp_set_spi_mask p m0 false IP6_INBOUND_PROTECT) in *. unfold fill_ip6_hash_policy_kv.
  rewrite (w4_agree _ _ _ (ko_tuple _ Ht) Hu Hmo Hf), W0, W1, W2, W3.
  generalize (Z.land (ft_w4 (ipsec_fp_get_policy_5tuple im p false)) (ft_w4 m)). intros k4. clear Hf Hu Hmo Hm W0 W1 W2 W3 m. subst m0.
  cbn [ft_w0 ft_w1 ft_w2 ft_w3].
  unfold single_rule_out_match_5tuple in Hr. rewrite H6 in Hr. destruct (negb (_ =? _)); [easy|]. destruct (negb (proto_match _ _)); [easy|].
  rewrite !andb_true_iff, !ip6_compare_not_lt in Hr. destruct Hr as [[[[R1 R2] R3] R4] _].
  unfold ipsec_fp_get_policy_5tuple, tuple_set_addrs. rewrite H6. cbn [ft_w0 ft_w1 ft_w2 ft_w3 fst snd] in *.
  destruct Hp, Ht. destruct Bl as [Bl0 Bl1]; [assumption..|split; assumption|lia|].
  destruct Br as [Br0 Br1]; [assumption..|split; assumption|lia|]. cbn [ft_ip6_laddr ft_ip6_raddr ip46_w0 ip46_w1] in *.
  change ((Z.land (ft_w0 t) l0, Z.land (ft_w1 t) l1, Z.land (ft_w2 t) r0, Z.land (ft_w3 t) r1, k4) =
    (Z.land (ip46_w0 (ar_start (p_laddr p))) l0, Z.land (ip46_w1 (ar_start (p_laddr p))) l1,
     Z.land (ip46_w0 (ar_start (p_raddr p))) r0, Z.land (ip46_w1 (ar_start (p_raddr p))) r1, k4)).
  now rewrite Bl0, Bl1, Br0, Br1.
Qed.

(** ** The interface of a family *)

(** The mask and the key of an outbound policy; neither depends on the state. *)
Section OutKey.
Context {K : Type} `{Countable K} (F : fp_family K).

Definition out_mask (p : ipsec_policy_t) : ipsec_fp_5tuple_t := ff_mask F ipsec_main_init p false.

Definition out_key (p : ipsec_policy_t) : K :=
  ff_key F (ipsec_fp_get_policy_5tuple ipsec_main_init p false) (out_mask p).

End OutKey.

(** What the lookup and the updates rely on: the tables are a field of their own, masks
    have no action, and keys are complete. *)
Class FpOutbound {K : Type} `{Countable K} (F : fp_family K) (ty : ipsec_spd_policy_type_t) (v6 : bool) : Prop := {
  fo_inbound p : p_type p = ty -> ipsec_is_policy_inbound p = false;
  fo_get_set im t : ff_tables F (ff_set_tables F im t) = t;
  fo_set_policies im t : policies (ff_set_tables F im t) = policies im;
  fo_set_masks im t : fp_mask_types (ff_set_tables F im t) = fp_mask_types im;
  fo_set_sad im t : sad (ff_set_tables F im t) = sad im;
  fo_policies im v : ff_tables F (im <| policies := v |>) = ff_tables F im;
  fo_masks im v : ff_tables F (im <| fp_mask_types := v |>) = ff_tables F im;
  fo_sad im v : ff_tables F (im <| sad := v |>) = ff_tables F im;
  fo_idx fp m : ff_hash_idx F (fp <| fp_mask_ids := m |>) false = ff_hash_idx F fp false;
  fo_mask im p : ff_mask F im p false = out_mask F p;
  fo_mask_id p k : out_mask F (p <| p_fp_mask_type_id := k |>) = out_mask F p;
  fo_action p : ft_action (out_mask F p) = 0;
  fo_complete p t : policy_ok p -> packet_ok t -> p_is_ipv6 p = v6 -> single_rule_out_match_5tuple p t = true ->
    ff_key F t (out_mask F p) = out_key F p
}.

#[export] Instance fp_ip4_outbound : FpOutbound fp_ip4 IP4_OUTBOUND false.
Proof.
  split; [| intros; reflexivity.. | | | |].
  - intros p E. unfold ipsec_is_policy_inbound. now rewrite E.
  - intros im p. reflexivity.
  - intros p k. reflexivity.
  - intros p. apply (om_action p). apply out_mask_spec.
  - intros p t Hp Ht H6 Hr. now apply ip4_mask_complete.
Qed.

Lemma ip6_out_mask_spec im p : out_mask_fields p (ipsec_fp_ip6_get_policy_mask im p false).
Proof.
  unfold ipsec_fp_ip6_get_policy_mask. cbn [andb]. destruct (ip6_mask _ _), (ip6_mask _ _). apply out_mask_spec.
Qed.

#[export] Instance fp_ip6_outbound : FpOutbound fp_ip6 IP6_OUTBOUND true.
Proof.
  split; [| intros; reflexivity.. | | | |].
  - intros p E. unfold ipsec_is_policy_inbound. now rewrite E.
  - intros im p. unfold out_mask. cbn [ff_mask fp_ip6]. unfold ipsec_fp_ip6_get_policy_mask. cbn [andb]. reflexivity.
  - intros p k. unfold out_mask. cbn [ff_mask fp_ip6]. unfold ipsec_fp_ip6_get_policy_mask. cbn [andb]. reflexivity.
  - intros p. apply (om_action p). apply ip6_out_mask_spec.
  - intros p t Hp Ht H6 Hr. now apply ip6_mask_complete.
Qed.
