(* ===== verification/FpInv.v ===== *)
(** * Fast path: lookup and updates

    The tables of the outbound fast path through every history of additions and
    removals.  A ghost list [inst] of the installed policies is the abstract state: the
    lookup finds a policy of [inst] of highest priority, an addition adds one element to
    [inst], a removal takes one away, and the reference counts of mask types keep a mask
    in use as long as a policy needs it.  Everything is proved for a family of tables
    that satisfies [FpOutbound]. *)

From Stdlib Require Import Sorting.Sorted.
From stdpp Require Import gmap.
From S2P Require Import Prelude NetTypes Pool Crypto IpsecSa Sad SpdTypes SpdPolicy SpdLookup SpdInv FastPath.

(** ** Mask ids of an SPD *)

(** Number of references that a vector of mask ids holds on mask type [k]. *)
Fixpoint mid_ref (mids : list ipsec_fp_mask_id_t) (k : Z) : Z :=
  match mids with
  | [] => 0
  | m :: mids' => if mask_type_idx m =? k then mi_refcount m else mid_ref mids' k
  end.

(** No mask type is listed twice, and every listed one is in use. *)
Record mids_ok (mids : list ipsec_fp_mask_id_t) : Prop := {
  mo_nodup : NoDup (map mask_type_idx mids);
  mo_pos : forall m, m ∈ mids -> 0 < mi_refcount m < 2 ^ 32
}.

Lemma mids_ok_cons m mids :
  mids_ok (m :: mids) <-> (mask_type_idx m ∉ map mask_type_idx mids) /\ 0 < mi_refcount m < 2 ^ 32 /\ mids_ok mids.
Proof.
  split.
  - intros [Hn Hp]. cbn in Hn. apply NoDup_cons in Hn as [H1 H2]. repeat split; auto; apply Hp; set_solver.
  - intros (H1 & H2 & [H3 H4]). split; [now constructor|]. intros m' [->|Hm]%elem_of_cons; auto.
Qed.

Lemma mid_ref_notin mids k : k ∉ map mask_type_idx mids -> mid_ref mids k = 0.
Proof.
  induction mids as [|m mids IH]; cbn; [easy|]. intros Hk. destruct (Z.eqb_spec (mask_type_idx m) k); [set_solver|].
  apply IH. set_solver.
Qed.

Lemma mid_ref_in mids k : mids_ok mids -> 0 < mid_ref mids k -> exists m, m ∈ mids /\ mask_type_idx m = k.
Proof.
  induction mids as [|m mids IH]; cbn; [lia|]. intros (_ & _ & Hok)%mids_ok_cons.
  destruct (Z.eqb_spec (mask_type_idx m) k) as [E|E]; intros Hk.
  - exists m. split; [left|exact E].
  - destruct (IH Hok Hk) as (m' & Hm & E'). exists m'. split; [now right|exact E'].
Qed.

(** Equations of the two updates. *)
Lemma mask_ids_add_cons m mids k :
  mask_ids_add (m :: mids) k =
  if mask_type_idx m =? k then m <| mi_refcount := u32 (mi_refcount m + 1) |> :: mids else m :: mask_ids_add mids k.
Proof.
  unfold mask_ids_add. cbn [vec_search]. destruct (_ =? _); [reflexivity|].
  destruct (vec_search _ mids); reflexivity.
Qed.

Lemma map_idx_add mids k j : j ∈ map mask_type_idx (mask_ids_add mids k) <-> j = k \/ j ∈ map mask_type_idx mids.
Proof.
  induction mids as [|m mids IH]; [cbn; set_solver|]. rewrite mask_ids_add_cons.
  destruct (Z.eqb_spec (mask_type_idx m) k) as [E|E]; cbn; set_solver.
Qed.

Lemma mask_ids_add_spec mids k :
  mids_ok mids -> mid_ref mids k < 2 ^ 32 - 1 ->
  mids_ok (mask_ids_add mids k) /\ forall j, mid_ref (mask_ids_add mids k) j = mid_ref mids j + Z.b2z (j =? k).
Proof.
  induction mids as [|m mids IH].
  - intros _ _. split; [split|].
    + cbn. repeat constructor. set_solver.
    + intros m ->%list_elem_of_singleton. cbn. lia.
    + cbn. intros j. rewrite (Z.eqb_sym k j). now destruct (_ =? _).
  - rewrite mids_ok_cons. intros (Hn & Hp & Hok) Hk. rewrite mask_ids_add_cons. cbn [mid_ref] in Hk.
    destruct (Z.eqb_spec (mask_type_idx m) k) as [E|E].
    + assert (u32 (mi_refcount m + 1) = mi_refcount m + 1) as Eu by (apply u32_small; unfold is_u; lia).
      split; [apply mids_ok_cons; cbn; rewrite Eu; split; [assumption|split; [lia|assumption]]|].
      intros j. cbn. rewrite Eu, E. destruct (Z.eqb_spec k j), (Z.eqb_spec j k); cbn; subst; lia.
    + destruct (IH Hok Hk) as [IH1 IH2]. split.
      * apply mids_ok_cons. split; [|now split]. rewrite map_idx_add. intros [?|?]; congruence.
      * intros j. cbn. destruct (Z.eqb_spec (mask_type_idx m) j) as [Ej|Ej]; [|apply IH2].
        destruct (Z.eqb_spec j k); cbn; [congruence|lia].
Qed.

Lemma mids_ok_perm mids mids' : mids ≡ₚ mids' -> mids_ok mids -> mids_ok mids'.
Proof.
  intros HP [H1 H2]. split; [|intros m; rewrite <- HP; apply H2]. eapply NoDup_Permutation_proper; [|exact H1].
  now apply Permutation_map.
Qed.

Lemma mid_ref_perm mids mids' k : mids ≡ₚ mids' -> mids_ok mids -> mid_ref mids k = mid_ref mids' k.
Proof.
  intros HP. induction HP as [|m l l' HP IH|m m' l|l1 l2 l3 H1 IH1 H2 IH2]; intros Hok; [reflexivity|..].
  - apply mids_ok_cons in Hok as (_ & _ & Hok). cbn. now rewrite IH.
  - apply mids_ok_cons in Hok as (Hn & _ & _). cbn.
    destruct (Z.eqb_spec (mask_type_idx m) k), (Z.eqb_spec (mask_type_idx m') k); try reflexivity. set_solver.
  - rewrite IH1, IH2; eauto using mids_ok_perm.
Qed.

(** The removal with the order kept. *)
Fixpoint mids_drop (mids : list ipsec_fp_mask_id_t) (k : Z) : list ipsec_fp_mask_id_t :=
  match mids with
  | [] => []
  | m :: mids' =>
      if mask_type_idx m =? k then
        if mi_refcount m =? 1 then mids' else m <| mi_refcount := u32 (mi_refcount m - 1) |> :: mids'
      else m :: mids_drop mids' k
  end.

Lemma mask_ids_del_perm mids k : mask_ids_del mids k ≡ₚ mids_drop mids k.
Proof.
  unfold mask_ids_del. destruct (vec_search _ mids) as [n|] eqn:E.
  - destruct (vec_search_lookup _ _ _ E) as (m & Hm & _). rewrite Hm.
    assert (mids_drop mids k = if mi_refcount m =? 1 then delete n mids
            else <[n := m <| mi_refcount := u32 (mi_refcount m - 1) |>]> mids) as ->.
    { revert n E Hm. induction mids as [|m' mids IH]; intros n E Hm; [easy|]. cbn [vec_search mids_drop] in *.
      destruct (mask_type_idx m' =? k); [now injection E as <-; injection Hm as <-|].
      destruct (vec_search _ mids) as [n'|]; [|easy]. injection E as <-. rewrite (IH n' eq_refl Hm). now destruct (_ =? 1). }
    destruct (_ =? 1); [exact (vec_del1_perm _ _ _ Hm)|reflexivity].
  - induction mids as [|m mids IH]; [reflexivity|]. cbn in *. destruct (_ =? k); [easy|].
    destruct (vec_search _ mids); [easy|]. constructor. now apply IH.
Qed.

Lemma map_idx_drop mids k j : j ∈ map mask_type_idx (mids_drop mids k) -> j ∈ map mask_type_idx mids.
Proof.
  induction mids as [|m mids IH]; cbn; [easy|]. destruct (_ =? k); [destruct (_ =? 1)|]; cbn; set_solver.
Qed.

Lemma mids_drop_spec mids k :
  mids_ok mids -> 0 < mid_ref mids k ->
  mids_ok (mids_drop mids k) /\ forall j, mid_ref (mids_drop mids k) j = mid_ref mids j - Z.b2z (j =? k).
Proof.
  induction mids as [|m mids IH]; cbn [mid_ref mids_drop]; [lia|]. rewrite mids_ok_cons. intros (Hn & Hp & Hok) Hk.
  destruct (Z.eqb_spec (mask_type_idx m) k) as [<-|E].
  - destruct (Z.eqb_spec (mi_refcount m) 1) as [E1|E1].
    + split; [exact Hok|]. intros j. destruct (Z.eqb_spec (mask_type_idx m) j) as [<-|Ej].
      * rewrite Z.eqb_refl, mid_ref_notin by exact Hn. cbn. lia.
      * destruct (Z.eqb_spec j (mask_type_idx m)); cbn; [congruence|lia].
    + assert (u32 (mi_refcount m - 1) = mi_refcount m - 1) as Eu by (apply u32_small; unfold is_u; lia).
      split; [apply mids_ok_cons; cbn; rewrite Eu; split; [assumption|split; [lia|assumption]]|].
      intros j. cbn. rewrite Eu. destruct (Z.eqb_spec (mask_type_idx m) j), (Z.eqb_spec j (mask_type_idx m)); cbn; subst; lia || congruence.
  - destruct (IH Hok Hk) as [IH1 IH2]. split.
    + apply mids_ok_cons. split; [|now split]. intros Hin%map_idx_drop. contradiction.
    + intros j. cbn. destruct (Z.eqb_spec (mask_type_idx m) j) as [Ej|Ej]; [|apply IH2].
      destruct (Z.eqb_spec j k); cbn; [congruence|lia].
Qed.

Lemma mask_ids_del_spec mids k :
  mids_ok mids -> 0 < mid_ref mids k ->
  mids_ok (mask_ids_del mids k) /\ forall j, mid_ref (mask_ids_del mids k) j = mid_ref mids j - Z.b2z (j =? k).
Proof.
  intros Hok Hk. destruct (mids_drop_spec mids k Hok Hk) as [H1 H2].
  pose proof (mask_ids_del_perm mids k) as HP. symmetry in HP. split; [exact (mids_ok_perm _ _ HP H1)|].
  intros j. now rewrite <- (mid_ref_perm _ _ _ HP H1).
Qed.

(** ** Mask types *)

Definition mask_pool : Type := pool ipsec_fp_mask_type_entry_t.

(** References on mask type [k]; a free entry has none. *)
Definition mt_refs (masks : mask_pool) (k : Z) : Z :=
  match pool_lookup masks k with Some mte => mte_refcount mte | None => 0 end.

(** A live mask type [k] whose mask is [m]. *)
Definition mt_is (masks : mask_pool) (k : Z) (m : ipsec_fp_5tuple_t) : Prop :=
  exists mte, pool_lookup masks k = Some mte /\ mte_mask mte = m.

(** Reference counts are in range, and adding one does not wrap. *)
Definition mt_bounded (masks : mask_pool) : Prop := forall k mte, pool_lookup masks k = Some mte -> 0 <= mte_refcount mte < 2 ^ 32.
Definition mt_room (masks : mask_pool) : Prop := forall k, mt_refs masks k < 2 ^ 32 - 1.

(** No mask type is kept without a reference. *)
Definition mt_positive (masks : mask_pool) : Prop := forall k mte, pool_lookup masks k = Some mte -> 0 < mte_refcount mte.

Lemma find_mask_type_spec im m k :
  find_mask_type_index im m = k -> k <> INDEX_INVALID -> mt_is (fp_mask_types im) k m.
Proof.
  unfold find_mask_type_index. destruct (filter _ _) as [|[i mte] l] eqn:E; [congruence|]. intros <- _.
  assert ((i, mte) ∈ filter (fun '(_, mte) => mte_mask mte = m) (pool_foreach (fp_mask_types im))) as Hin by (rewrite E; left).
  apply list_elem_of_filter in Hin as [Hm Hin]. apply pool_foreach_elem in Hin. now exists mte.
Qed.

(** The new reference: entry [k] has the mask and one more reference. *)
Record mask_referenced (masks masks' : mask_pool) (k : Z) (m : ipsec_fp_5tuple_t) : Prop := {
  mr_ok : pool_ok masks';
  mr_bounded : mt_bounded masks';
  mr_is : mt_is masks' k m;
  mr_refs : forall j, mt_refs masks' j = mt_refs masks j + Z.b2z (j =? k);
  mr_keep : forall j m', mt_is masks j m' -> mt_is masks' j m';
  mr_positive : mt_positive masks -> mt_positive masks'
}.

(** Both steps of an addition, on the pool. *)
Lemma fp_mask_type_spec im m :
  pool_ok (fp_mask_types im) -> mt_bounded (fp_mask_types im) -> mt_room (fp_mask_types im) ->
  let '(im1, k) := fp_get_mask_type im m in
  policies im1 = policies im /\ mask_referenced (fp_mask_types im) (fp_mask_types (fp_ref_mask_type im1 k m)) k m.
Proof.
  intros Hok Hb Hroom. unfold fp_get_mask_type. destruct (Z.eqb_spec (find_mask_type_index im m) INDEX_INVALID) as [E|E].
  - pose proof (pool_get_write (mk_mte tuple_zero 0) (fp_mask_types im)) as Hw.
    destruct (pool_get _ _) as [p i]. set (mte := default _ _). specialize (Hw (mte <| mte_refcount := 0 |>) Hok).
    destruct Hw as [Ha Hl]. split; [reflexivity|]. unfold fp_ref_mask_type. cbn [fp_mask_types].
    set (q := pool_write p i _) in *. change (fp_mask_types (im <| fp_mask_types := q |>)) with q.
    rewrite (pool_lookup_elt _ _ _ Hl). cbn [mte_refcount set_field]. cbn.
    set (e := mk_mte m (u32 (0 + 1))).
    assert (forall j, pool_lookup (pool_write q i e) j = if decide (j = i) then Some e else pool_lookup (fp_mask_types im) j) as Hq.
    { intros j. rewrite (pool_write_lookup q i e _ j Hl). destruct (decide _) as [|Hne]; [reflexivity|]. exact (al_other _ _ _ Ha j Hne). }
    split; cbn.
    + apply pool_write_ok, Ha.
    + intros j mte'. rewrite Hq. destruct (decide _); [intros [= <-]; now vm_compute|apply Hb].
    + exists e. now rewrite Hq, decide_True.
    + intros j. unfold mt_refs. rewrite Hq. destruct (decide (j = i)) as [->|Hne].
      * rewrite (al_fresh _ _ _ Ha), Z.eqb_refl. reflexivity.
      * rewrite (proj2 (Z.eqb_neq j i) Hne). cbn. lia.
    + intros j m' (mte' & Hj & <-). exists mte'. rewrite Hq, decide_False; [now split|].
      intros ->. rewrite (al_fresh _ _ _ Ha) in Hj. discriminate.
    + intros Hpos j mte'. rewrite Hq. destruct (decide _); [intros [= <-]; now vm_compute|apply Hpos].
  - destruct (find_mask_type_spec im m _ eq_refl E) as (mte & Hl & Hm). set (i := find_mask_type_index im m) in *.
    split; [reflexivity|]. unfold fp_ref_mask_type. rewrite (pool_lookup_elt _ _ _ Hl).
    set (mte1 := if mte_refcount mte =? 0 then _ else _).
    assert (mte1 = mte) as -> by (subst mte1; destruct (_ =? 0); [destruct mte; cbn in *; now subst|reflexivity]).
    set (e := mte <| mte_refcount := u32 (mte_refcount mte + 1) |>). cbn.
    assert (forall j, pool_lookup (pool_write (fp_mask_types im) i e) j = if decide (j = i) then Some e else pool_lookup (fp_mask_types im) j) as Hq
      by (intros j; exact (pool_write_lookup _ _ _ _ _ Hl)).
    specialize (Hb _ _ Hl) as Hbi. specialize (Hroom i) as Hri. unfold mt_refs in Hri. rewrite Hl in Hri.
    assert (mte_refcount e = mte_refcount mte + 1) as Ee by (apply u32_small; unfold is_u; lia).
    assert (mte_mask e = m) as Em by exact Hm.
    split; cbn.
    + now apply pool_write_ok.
    + intros j mte'. rewrite Hq. destruct (decide _); [intros [= <-]; lia|apply Hb].
    + exists e. now rewrite Hq, decide_True.
    + intros j. unfold mt_refs. rewrite Hq. destruct (decide (j = i)) as [->|Hne].
      * now rewrite Hl, Z.eqb_refl.
      * rewrite (proj2 (Z.eqb_neq j i) Hne). cbn. lia.
    + intros j m' (mte' & Hj & <-). destruct (decide (j = i)) as [->|Hne].
      * exists e. rewrite Hq, decide_True by easy. split; [easy|]. congruence.
      * exists mte'. now rewrite Hq, decide_False.
    + intros Hpos j mte'. rewrite Hq. destruct (decide _); [intros [= <-]; lia|apply Hpos].
Qed.

(** A reference is given back. *)
Record mask_released (masks masks' : mask_pool) (k : Z) : Prop := {
  ml_ok : pool_ok masks';
  ml_bounded : mt_bounded masks';
  ml_refs : forall j, mt_refs masks' j = mt_refs masks j - Z.b2z (j =? k);
  ml_keep : forall j m, 0 < mt_refs masks' j -> mt_is masks j m -> mt_is masks' j m;
  ml_positive : mt_positive masks -> mt_positive masks'
}.

Lemma release_mask_spec im k :
  pool_ok (fp_mask_types im) -> mt_bounded (fp_mask_types im) -> 0 < mt_refs (fp_mask_types im) k ->
  mask_released (fp_mask_types im) (fp_mask_types (ipsec_fp_release_mask_type im k)) k.
Proof.
  intros Hok Hb Hk. unfold mt_refs in Hk. destruct (pool_lookup (fp_mask_types im) k) as [mte|] eqn:Hl; [|lia].
  unfold ipsec_fp_release_mask_type. rewrite (pool_lookup_elt _ _ _ Hl). cbv zeta.
  set (e := mte <| mte_refcount := u32 (mte_refcount mte - 1) |>).
  specialize (Hb _ _ Hl) as Hbi. assert (mte_refcount e = mte_refcount mte - 1) as Ee by (apply u32_small; unfold is_u; lia).
  set (q := pool_write (fp_mask_types im) k e).
  assert (forall j, pool_lookup q j = if decide (j = k) then Some e else pool_lookup (fp_mask_types im) j) as Hq
    by (intros j; exact (pool_write_lookup _ _ _ _ _ Hl)).
  assert (pool_lookup q k = Some e) as Hqk by now rewrite Hq, decide_True.
  assert (pool_ok q) as Hqo by now apply pool_write_ok.
  match goal with |- mask_released _ (fp_mask_types (im <| fp_mask_types := ?x |>)) _ =>
    change (fp_mask_types (im <| fp_mask_types := x |>)) with x end.
  destruct (Z.eqb_spec (mte_refcount e) 0) as [E0|E0].
  - assert (forall j, pool_lookup (pool_put_index q k) j = if decide (j = k) then None else pool_lookup (fp_mask_types im) j) as Hp
      by (intros j; rewrite (pool_put_lookup q k e j Hqk), Hq; now destruct (decide _)).
    split.
    + now apply (pool_put_ok q k e).
    + intros j mte'. rewrite Hp. destruct (decide _); [easy|apply Hb].
    + intros j. unfold mt_refs. rewrite Hp. destruct (decide (j = k)) as [->|Hne].
      * rewrite Hl, Z.eqb_refl. cbn. lia.
      * rewrite (proj2 (Z.eqb_neq j k) Hne). cbn. lia.
    + intros j m Hj (mte' & Hj' & <-). exists mte'. unfold mt_refs in Hj. rewrite Hp in *. destruct (decide _); [lia|now split].
    + intros Hpos j mte'. rewrite Hp. destruct (decide _); [easy|apply Hpos].
  - split.
    + exact Hqo.
    + intros j mte'. rewrite Hq. destruct (decide _); [intros [= <-]; lia|apply Hb].
    + intros j. unfold mt_refs. rewrite Hq. destruct (decide (j = k)) as [->|Hne].
      * rewrite Hl, Z.eqb_refl. cbn [Z.b2z]. lia.
      * rewrite (proj2 (Z.eqb_neq j k) Hne). cbn. lia.
    + intros j m Hj (mte' & Hj' & <-). destruct (decide (j = k)) as [->|Hne].
      * exists e. split; [exact Hqk|]. rewrite Hl in Hj'. now injection Hj' as <-.
      * exists mte'. now rewrite Hq, decide_False.
    + intros Hpos j mte'. rewrite Hq. destruct (decide _); [intros [= <-]; lia|apply Hpos].
Qed.

(** ** The invariant *)

Definition pol (pols : pool ipsec_policy_t) (i : Z) : ipsec_policy_t := default policy_zero (pool_elt_at_index pols i).

(** Number of installed policies that use mask type [k]. *)
Definition mask_users (pols : pool ipsec_policy_t) (inst : list Z) (k : Z) : Z :=
  Z.of_nat (length (filter (fun i => p_fp_mask_type_id (pol pols i) = k) inst)).

Lemma mask_users_nonneg pols inst k : 0 <= mask_users pols inst k.
Proof. unfold mask_users. lia. Qed.

Lemma mask_users_cons pols i inst k :
  mask_users pols (i :: inst) k = mask_users pols inst k + Z.b2z (k =? p_fp_mask_type_id (pol pols i)).
Proof.
  unfold mask_users. rewrite filter_cons. destruct (decide _) as [E|E].
  - rewrite E, Z.eqb_refl. cbn [length Z.b2z]. lia.
  - rewrite (proj2 (Z.eqb_neq _ _)) by congruence. cbn [Z.b2z]. lia.
Qed.

Lemma mask_users_ext pols pols' inst k :
  (forall i, i ∈ inst -> pol pols i = pol pols' i) -> mask_users pols inst k = mask_users pols' inst k.
Proof.
  induction inst as [|i inst IH]; intros He; [reflexivity|]. rewrite !mask_users_cons, IH by set_solver.
  now rewrite He by left.
Qed.

Lemma mask_users_in pols inst i : i ∈ inst -> 0 < mask_users pols inst (p_fp_mask_type_id (pol pols i)).
Proof.
  intros Hi. unfold mask_users. set (l := filter _ inst).
  assert (i ∈ l) as Hl by now apply list_elem_of_filter. destruct l; [set_solver|]. cbn. lia.
Qed.

Lemma mask_users_le pols inst k : mask_users pols inst k <= Z.of_nat (length inst).
Proof. unfold mask_users. pose proof (length_filter (fun i => p_fp_mask_type_id (pol pols i) = k) inst). lia. Qed.

Lemma mask_users_perm pols l l' k : l ≡ₚ l' -> mask_users pols l k = mask_users pols l' k.
Proof. intros HP. unfold mask_users. now rewrite HP. Qed.

Section Inv.
Context {K : Type} `{Countable K} (F : fp_family K) (ty : ipsec_spd_policy_type_t) (v6 : bool) `{!FpOutbound F ty v6}.

(** Policies that the code is given: fields in range, of the type of the table. *)
Definition out_policy (p : ipsec_policy_t) : Prop := policy_ok p /\ p_type p = ty /\ p_is_ipv6 p = v6.

(** A bucket is not empty and in order of priority, and its policies have its key. *)
Record bucket_ok (pols : pool ipsec_policy_t) (inst : list Z) (k : K) (ids : list Z) : Prop := {
  bo_nonempty : ids <> [];
  bo_sorted : prio_sorted (prio pols) ids;
  bo_nodup : NoDup ids;
  bo_inst : forall i, i ∈ ids -> i ∈ inst /\ out_key F (pol pols i) = k
}.

(** [other k] references on mask type [k] belong to other policies. *)
Record fp_inv (pols : pool ipsec_policy_t) (masks : mask_pool) (tbl : gmap K (list Z)) (mids : list ipsec_fp_mask_id_t)
    (inst : list Z) (other : Z -> Z) : Prop := {
  fi_pols : pool_ok pols;
  fi_masks : pool_ok masks;
  fi_bounded : mt_bounded masks;
  fi_nodup : NoDup inst;
  fi_live : forall i, i ∈ inst -> pool_lookup pols i = Some (pol pols i);
  fi_out : forall i, i ∈ inst -> out_policy (pol pols i);
  fi_mask : forall i, i ∈ inst -> mt_is masks (p_fp_mask_type_id (pol pols i)) (out_mask F (pol pols i));
  fi_in : forall i, i ∈ inst -> exists ids, tbl !! out_key F (pol pols i) = Some ids /\ i ∈ ids;
  fi_bucket : forall k ids, tbl !! k = Some ids -> bucket_ok pols inst k ids;
  fi_mids : mids_ok mids;
  fi_mid_ref : forall k, mid_ref mids k = mask_users pols inst k;
  fi_other : forall k, 0 <= other k;
  fi_refs : forall k, mask_users pols inst k + other k <= mt_refs masks k
}.

(** ** Lookup *)

(** Priorities that the lookup ranks correctly: positive [int]s. *)
Definition prio_positive (p : ipsec_policy_t) : Prop := 0 < p_priority p < 2 ^ 31.

(** The best policy so far. *)
Definition best_ok im (inst : list Z) (rule : ipsec_policy_t -> bool) (b : fp_best) : Prop :=
  match best_policy b with
  | None => last_priority b = 0
  | Some i => i ∈ inst /\ rule (policy_at im i) = true /\ last_priority b = p_priority (policy_at im i)
  end.

Lemma fp_update_ok im inst rule b i :
  best_ok im inst rule b -> i ∈ inst -> rule (policy_at im i) = true -> prio_positive (policy_at im i) ->
  best_ok im inst rule (fp_update im b i) /\ last_priority b <= last_priority (fp_update im b i) /\
  p_priority (policy_at im i) <= last_priority (fp_update im b i).
Proof.
  intros Hb Hi Hr Hp. unfold fp_update. unfold prio_positive in Hp. cbv zeta. rewrite u32_small by (unfold is_u; lia).
  destruct (Z.ltb_spec (last_priority b) (p_priority (policy_at im i))); cbn [last_priority best_policy]; [|now split; [|lia]].
  unfold best_ok. cbn [last_priority best_policy]. repeat split; lia || assumption.
Qed.

(** A probe with one mask finds the first policy of the bucket that matches. *)
Lemma fp_match_mask_find im tbl rule t m b :
  fp_match_mask F im tbl rule t m b =
  match List.find (fun id => rule (policy_at im id)) (default [] (tbl !! ff_key F t m)) with
  | None => b | Some id => fp_update im b id end.
Proof.
  unfold fp_match_mask. destruct (tbl !! _) as [[|i [|j ids]]|]; try reflexivity. cbn. now destruct (rule _).
Qed.

Context (im : ipsec_main_t) (masks_ids : list ipsec_fp_mask_id_t) (tbl : gmap K (list Z)) (inst : list Z) (other : Z -> Z).
Hypothesis Hinv : fp_inv (policies im) (fp_mask_types im) tbl masks_ids inst other.
Hypothesis Hprio : forall i, i ∈ inst -> prio_positive (policy_at im i).

Lemma fp_probe_ok rule t m b :
  best_ok im inst rule b ->
  let b' := fp_match_mask F im tbl rule t m b in
  best_ok im inst rule b' /\ last_priority b <= last_priority b' /\
  forall j, j ∈ inst -> rule (policy_at im j) = true -> ff_key F t m = out_key F (policy_at im j) ->
    p_priority (policy_at im j) <= last_priority b'.
Proof.
  intros Hb. cbv zeta. rewrite fp_match_mask_find. destruct (tbl !! ff_key F t m) as [ids|] eqn:Et; [change (default [] (Some ids)) with ids|].
  - destruct (fi_bucket _ _ _ _ _ _ Hinv _ _ Et) as [_ Hs _ Hin].
    pose proof (find_policy_best im ids rule (fun p => rule p = true) (fun p => iff_refl _) Hs) as Hf. unfold find_policy in Hf.
    destruct (List.find _ ids) as [i|].
    + destruct Hf as (Hi & Hr & Hmax). destruct (Hin i Hi) as [Hi' _].
      destruct (fp_update_ok im inst rule b i Hb Hi' Hr (Hprio i Hi')) as (H1 & H2 & H3). split; [exact H1|split; [exact H2|]].
      intros j Hj Hrj Ek. destruct (fi_in _ _ _ _ _ _ Hinv j Hj) as (ids' & Et' & Hjd). change (pol (policies im) j) with (policy_at im j) in Et'.
      rewrite <- Ek, Et in Et'. injection Et' as <-. specialize (Hmax j Hjd Hrj). lia.
    + split; [assumption|split; [lia|]]. intros j Hj Hrj Ek. destruct (fi_in _ _ _ _ _ _ Hinv j Hj) as (ids' & Et' & Hjd).
      change (pol (policies im) j) with (policy_at im j) in Et'. rewrite <- Ek, Et in Et'. injection Et' as <-. now destruct (Hf j Hjd).
  - split; [assumption|split; [cbn; lia|]]. intros j Hj Hrj Ek. destruct (fi_in _ _ _ _ _ _ Hinv j Hj) as (ids' & Et' & _).
    change (pol (policies im) j) with (policy_at im j) in Et'. congruence.
Qed.

(** The body of the loop over the mask ids. *)
Definition probe_mask (t : ipsec_fp_5tuple_t) (b : fp_best) (mti : ipsec_fp_mask_id_t) : fp_best :=
  let mask := mte_mask (mask_type_at im (mask_type_idx mti)) in
  if Bool.eqb (ft_action mask =? 0) false then b
  else fp_match_mask F im tbl (fun p => single_rule_out_match_5tuple p t) t mask b.

Lemma mask_type_installed j : j ∈ inst -> mte_mask (mask_type_at im (p_fp_mask_type_id (policy_at im j))) = out_mask F (policy_at im j).
Proof.
  intros Hj. destruct (fi_mask _ _ _ _ _ _ Hinv j Hj) as (mte & Hl & Hm). unfold mask_type_at.
  change (pol (policies im) j) with (policy_at im j) in *. now rewrite (pool_lookup_elt _ _ _ Hl).
Qed.

Lemma probe_mask_ok t b m :
  let rule p := single_rule_out_match_5tuple p t in
  packet_ok t -> best_ok im inst rule b ->
  best_ok im inst rule (probe_mask t b m) /\ last_priority b <= last_priority (probe_mask t b m) /\
  forall j, j ∈ inst -> rule (policy_at im j) = true -> mask_type_idx m = p_fp_mask_type_id (policy_at im j) ->
    p_priority (policy_at im j) <= last_priority (probe_mask t b m).
Proof.
  cbv zeta. intros Ht Hb. unfold probe_mask. cbv zeta.
  destruct (fp_probe_ok _ t (mte_mask (mask_type_at im (mask_type_idx m))) b Hb) as (P1 & P2 & P3).
  destruct (Z.eqb_spec (ft_action (mte_mask (mask_type_at im (mask_type_idx m)))) 0) as [Ea|Ea]; cbn [Bool.eqb].
  - split; [exact P1|split; [exact P2|]]. intros j Hj Hr Em. apply P3; [assumption..|].
    rewrite Em, mask_type_installed by assumption. destruct (fi_out _ _ _ _ _ _ Hinv j Hj) as (Hp & _ & H6).
    exact (fo_complete _ _ Hp Ht H6 Hr).
  - split; [exact Hb|split; [lia|]]. intros j Hj Hr Em. destruct Ea.
    rewrite Em, mask_type_installed by assumption. apply fo_action.
Qed.

Lemma probe_masks_ok t mids b :
  let rule p := single_rule_out_match_5tuple p t in
  packet_ok t -> best_ok im inst rule b ->
  let b' := fold_left (probe_mask t) mids b in
  best_ok im inst rule b' /\ last_priority b <= last_priority b' /\
  forall j, j ∈ inst -> rule (policy_at im j) = true ->
    (exists m, m ∈ mids /\ mask_type_idx m = p_fp_mask_type_id (policy_at im j)) ->
    p_priority (policy_at im j) <= last_priority b'.
Proof.
  cbv zeta. intros Ht. revert b. induction mids as [|m mids IH]; intros b Hb; cbn [fold_left].
  - split; [exact Hb|split; [lia|]]. intros j _ _ (m & Hm & _). set_solver.
  - destruct (probe_mask_ok t b m Ht Hb) as (F1 & F2 & F3). destruct (IH _ F1) as (I1 & I2 & I3).
    split; [exact I1|split; [lia|]]. intros j Hj Hr (m' & [->|Hm']%elem_of_cons & Em); [|eauto].
    specialize (F3 j Hj Hr Em). lia.
Qed.

(** The lookup of one packet. *)
Lemma fp_match_1_best t :
  packet_ok t ->
  best_policy_of im inst (fun p => single_rule_out_match_5tuple p t = true)
    (fp_match_1 F im tbl masks_ids false single_rule_out_match_5tuple t).
Proof.
  intros Ht. destruct (probe_masks_ok t masks_ids (mk_fp_best 0 None) Ht) as (B1 & _ & B3); [reflexivity|].
  change (fp_match_1 F im tbl masks_ids false single_rule_out_match_5tuple t)
    with (best_policy (fold_left (probe_mask t) masks_ids (mk_fp_best 0 None))).
  set (b := fold_left _ masks_ids _) in *. unfold best_ok in B1. clearbody b.
  assert (forall j, j ∈ inst -> single_rule_out_match_5tuple (policy_at im j) t = true ->
    p_priority (policy_at im j) <= last_priority b) as Hall.
  { intros j Hj Hr. apply B3; [assumption..|]. apply mid_ref_in; [apply (fi_mids _ _ _ _ _ _ Hinv)|].
    rewrite (fi_mid_ref _ _ _ _ _ _ Hinv). now apply (mask_users_in (policies im)). }
  destruct (best_policy b) as [i|]; cbn.
  - destruct B1 as (Hi & Hr & El). split; [exact Hi|split; [exact Hr|]]. intros j Hj Hrj. rewrite <- El. now apply Hall.
  - intros j Hj Hr. specialize (Hall j Hj Hr). specialize (Hprio j Hj). unfold prio_positive in Hprio. lia.
Qed.

End Inv.

(** ** Addition *)

Lemma fp_ref_same a b k m :
  fp_mask_types a = fp_mask_types b -> fp_mask_types (fp_ref_mask_type a k m) = fp_mask_types (fp_ref_mask_type b k m).
Proof. intros E. unfold fp_ref_mask_type. rewrite E. now destruct (pool_elt_at_index _ k). Qed.

Lemma pol_lookup pols i p : pool_lookup pols i = Some p -> pol pols i = p.
Proof. intros H. unfold pol. now rewrite (pool_lookup_elt _ _ _ H). Qed.

(** Distinct live indices fit in the pool. *)
Lemma inst_length (pols : pool ipsec_policy_t) inst :
  NoDup inst -> (forall i, i ∈ inst -> pool_lookup pols i = Some (pol pols i)) -> Z.of_nat (length inst) <= pool_len pols.
Proof.
  intros Hn Hl. assert (inst ⊆+ seqZ 0 (pool_len pols)) as Hs.
  { apply NoDup_submseteq; [assumption|]. intros i Hi. apply elem_of_seqZ. specialize (Hl i Hi).
    apply pool_lookup_range in Hl. lia. }
  apply submseteq_length in Hs. rewrite length_seqZ in Hs. unfold pool_len in *. lia.
Qed.

Lemma fp_ref_policies im k m : policies (fp_ref_mask_type im k m) = policies im.
Proof. unfold fp_ref_mask_type. now destruct (pool_elt_at_index _ k). Qed.

Section Update.
Context {K : Type} `{Countable K} (F : fp_family K) (ty : ipsec_spd_policy_type_t) (v6 : bool) `{!FpOutbound F ty v6}.

Lemma fp_ref_tables im k m : ff_tables F (fp_ref_mask_type im k m) = ff_tables F im.
Proof. unfold fp_ref_mask_type. destruct (pool_elt_at_index _ k); [apply fo_masks|reflexivity]. Qed.

(** A bucket whose policies are still there. *)
Lemma bucket_ok_ext pols pols' inst inst' k ids :
  bucket_ok F pols inst k ids -> (forall j, j ∈ ids -> j ∈ inst' /\ pol pols' j = pol pols j) -> bucket_ok F pols' inst' k ids.
Proof.
  intros [B1 B2 B3 B4] He. split; auto.
  - apply (prio_sorted_ext (prio pols)); [|exact B2]. intros j Hj. destruct (He j Hj) as [_ E].
    change (p_priority (pol pols j) = p_priority (pol pols' j)). now rewrite E.
  - intros j Hj. destruct (B4 j Hj) as [_ Ej]. destruct (He j Hj) as [Hj' ->]. now split.
Qed.

Lemma bucket_ok_insert pols inst k ids i p :
  bucket_ok F pols inst k ids -> i ∈ inst -> i ∉ ids -> pol pols i = p -> out_key F p = k ->
  bucket_ok F pols inst k (priority_insert (prio pols) (p_priority p) i ids).
Proof.
  intros [B1 B2 B3 B4] Hi Hni Ep Ek. split.
  - destruct ids; cbn; [easy|]. now destruct (_ <=? _).
  - rewrite <- Ep. exact (priority_insert_sorted (prio pols) i ids B2).
  - now apply priority_insert_nodup.
  - intros j [->|Hj]%priority_insert_elem; [split; congruence|auto].
Qed.

Lemma bucket_ok_delete pols inst k ids n :
  bucket_ok F pols inst k ids -> delete n ids <> [] -> bucket_ok F pols inst k (delete n ids).
Proof.
  intros [B1 B2 B3 B4] Hne. split; [exact Hne|now apply prio_sorted_delete|now apply nodup_delete|].
  intros j Hj%elem_of_delete. auto.
Qed.

(** The policy index goes to the bucket of its key. *)
Lemma tbl_insert_ok pols pols' masks masks' tbl mids inst other i p :
  fp_inv F ty v6 pols masks tbl mids inst other ->
  allocated pols pols' i -> pool_lookup pols' i = Some p -> out_policy ty v6 p ->
  mask_referenced masks masks' (p_fp_mask_type_id p) (out_mask F p) ->
  pool_len pols < 2 ^ 32 - 1 ->
  let ids := match tbl !! out_key F p with
             | None => [i]
             | Some ids => priority_insert (prio pols') (p_priority p) i ids end in
  fp_inv F ty v6 pols' masks' (<[out_key F p := ids]> tbl) (mask_ids_add mids (p_fp_mask_type_id p)) (i :: inst) other.
Proof.
  intros [I1 I2 I3 I4 I5 I6 I7 I8 I9 I10 I11 I13 I12] Ha Hi Hp [R1 R2 R3 R4 R5 _] Hlen. cbv zeta.
  assert (forall j, j ∈ inst -> pool_lookup pols' j = Some (pol pols j)) as Hold by (intros j Hj; apply (allocated_elt _ _ _ _ _ Ha); auto).
  assert (forall j, j ∈ inst -> pol pols' j = pol pols j) as Hpol by (intros j Hj; apply pol_lookup; auto).
  assert (pol pols' i = p) as Epi by now apply pol_lookup.
  assert (i ∉ inst) as Hni by (intros Hj; specialize (I5 i Hj); rewrite (al_fresh _ _ _ Ha) in I5; discriminate).
  pose proof (mask_users_ext pols' pols inst) as Hu.
  assert (forall k ids, tbl !! k = Some ids -> bucket_ok F pols' (i :: inst) k ids) as Hbuckets.
  { intros k ids Hk. apply (bucket_ok_ext pols _ inst); [auto|]. intros j Hj.
    destruct (bo_inst _ _ _ _ _ (I9 k ids Hk) j Hj) as [Hji _]. split; [now right|auto]. }
  set (ids := match tbl !! _ with None => _ | _ => _ end).
  assert (i ∈ ids) as Hids by (subst ids; destruct (tbl !! _); [rewrite priority_insert_elem; auto|left]).
  destruct (mask_ids_add_spec mids (p_fp_mask_type_id p) I10) as [M1 M2].
  { rewrite I11. pose proof (mask_users_le pols inst (p_fp_mask_type_id p)). pose proof (inst_length pols inst I4 I5). lia. }
  split; try assumption.
  - apply Ha.
  - now constructor.
  - intros j [->|Hj]%elem_of_cons; [congruence|]. rewrite Hpol by assumption. auto.
  - intros j [->|Hj]%elem_of_cons; [congruence|]. rewrite Hpol by assumption. auto.
  - intros j [->|Hj]%elem_of_cons; [congruence|]. rewrite Hpol by assumption. auto.
  - intros j [->|Hj]%elem_of_cons.
    + exists ids. rewrite Epi, lookup_insert_eq. now split.
    + rewrite Hpol by assumption. destruct (I8 j Hj) as (ids' & Hk & Hj'). destruct (decide (out_key F p = out_key F (pol pols j))) as [E|E].
      * exists ids. rewrite <- E, lookup_insert_eq. split; [reflexivity|]. subst ids. rewrite E, Hk. apply priority_insert_elem. auto.
      * exists ids'. now rewrite lookup_insert_ne.
  - intros k l Hk. destruct (decide (out_key F p = k)) as [<-|E].
    + rewrite lookup_insert_eq in Hk. injection Hk as <-. subst ids. destruct (tbl !! out_key F p) as [ids|] eqn:Et.
      * apply bucket_ok_insert; auto using list_elem_of_here. intros Hj. now destruct (bo_inst _ _ _ _ _ (I9 _ _ Et) i Hj).
      * split; [easy|repeat constructor|repeat constructor; set_solver|]. intros j ->%list_elem_of_singleton. split; [left|congruence].
    + rewrite lookup_insert_ne in Hk by exact E. auto.
  - intros k. rewrite M2, mask_users_cons, Hu, I11, Epi by auto. reflexivity.
  - intros k. rewrite R4, mask_users_cons, Hu, Epi by auto. specialize (I12 k). lia.
Qed.

(** What an update leaves alone: live policies outside [gone], masks that others use,
    the mask ids of other types and the tables of other SPDs and families. *)
Record fp_frame (im im' : ipsec_main_t) (fp fp' : ipsec_spd_fp_t) (gone : list Z) (other : Z -> Z) : Prop := {
  ff_pols : forall j q, j ∉ gone -> pool_lookup (policies im) j = Some q -> pool_lookup (policies im') j = Some q;
  ff_masks : forall k m, 0 < other k -> mt_is (fp_mask_types im) k m -> mt_is (fp_mask_types im') k m;
  ff_mids : forall t, t <> ty -> fp_mask_ids fp' t = fp_mask_ids fp t;
  ff_idx4 : forall b, ff_hash_idx fp_ip4 fp' b = ff_hash_idx fp_ip4 fp b;
  ff_idx6 : forall b, ff_hash_idx fp_ip6 fp' b = ff_hash_idx fp_ip6 fp b;
  ff_others : forall k, k <> ff_hash_idx F fp false -> pool_lookup (ff_tables F im') k = pool_lookup (ff_tables F im) k
}.

Lemma fp_table_lookup im k tbl : pool_lookup (ff_tables F im) k = Some tbl -> fp_table F im k = tbl.
Proof. intros Ht. unfold fp_table. now rewrite (pool_lookup_elt _ _ _ Ht). Qed.

Lemma set_type_same {A} (f : by_type A) t v : set_type f t v t = v.
Proof. unfold set_type. now rewrite decide_True. Qed.

Lemma set_type_other {A} (f : by_type A) t v t' : t' <> t -> set_type f t v t' = f t'.
Proof. intros Hn. unfold set_type. now rewrite decide_False. Qed.

Lemma fp_add_spec im fp p tbl inst other :
  pool_lookup (ff_tables F im) (ff_hash_idx F fp false) = Some tbl ->
  fp_inv F ty v6 (policies im) (fp_mask_types im) tbl (fp_mask_ids fp ty) inst other ->
  out_policy ty v6 p -> mt_room (fp_mask_types im) -> pool_len (policies im) < 2 ^ 32 - 1 ->
  let '(im', fp', i) := fp_add_policy F im fp p in
  exists tbl' k,
    pool_lookup (ff_tables F im') (ff_hash_idx F fp' false) = Some tbl' /\
    fp_inv F ty v6 (policies im') (fp_mask_types im') tbl' (fp_mask_ids fp' ty) (i :: inst) other /\
    pool_lookup (policies im) i = None /\ policy_at im' i = p <| p_fp_mask_type_id := k |> /\
    (exists m, mask_referenced (fp_mask_types im) (fp_mask_types im') k m) /\ fp_frame im im' fp fp' [] other.
Proof.
  intros Htbl Hinv Hp Hroom Hlen. destruct Hp as (Hok & Hty & H6). unfold fp_add_policy. rewrite (fo_inbound p Hty). cbv zeta.
  rewrite fo_mask.
  pose proof (pool_get_write policy_zero (policies im)) as Hw.
  pose proof (pool_get_allocated policy_zero (policies im) (fi_pols _ _ _ _ _ _ _ _ _ Hinv)) as Ha0. destruct (pool_get policy_zero (policies im)) as [pols i].
  pose proof (fp_mask_type_spec (im <| policies := pols |>) (out_mask F p)) as Hm.
  specialize (Hm (fi_masks _ _ _ _ _ _ _ _ _ Hinv) (fi_bounded _ _ _ _ _ _ _ _ _ Hinv) Hroom).
  assert (ff_tables F (fst (fp_get_mask_type (im <| policies := pols |>) (out_mask F p))) = ff_tables F im) as Et.
  { unfold fp_get_mask_type. destruct (_ =? _); [|apply fo_policies]. destruct (pool_get _ _). cbn [fst]. now rewrite fo_masks, fo_policies. }
  destruct (fp_get_mask_type _ _) as [im1 k]. destruct Hm as [Epol Hm]. cbn [fst] in Et. cbn in Epol.
  set (p' := p <| p_fp_mask_type_id := k |>) in *. specialize (Hw p' (fi_pols _ _ _ _ _ _ _ _ _ Hinv)) as [Ha Hi].
  assert (out_policy ty v6 p') as Hp' by (repeat split; assumption || apply Hok).
  assert (ff_key F (ipsec_fp_get_policy_5tuple im1 p' false) (out_mask F p) = out_key F p') as Ekey.
  { unfold out_key, p'. now rewrite fo_mask_id. }
  rewrite Ekey.
  assert (fp_table F im1 (ff_hash_idx F fp false) = tbl) as Etab by (apply fp_table_lookup; now rewrite Et).
  rewrite Etab. set (t' := <[out_key F p' := _]> tbl).
  match goal with |- exists _ _, pool_lookup (ff_tables F ?x) (ff_hash_idx F ?y _) = _ /\ _ => set (im' := x); set (fp' := y) end.
  assert (policies im' = pool_write pols i p') as E1.
  { subst im'. cbn [policies set_field]. rewrite fp_ref_policies. unfold fp_set_table. now rewrite fo_set_policies, Epol. }
  assert (fp_mask_types im' = fp_mask_types (fp_ref_mask_type im1 k (out_mask F p))) as E2.
  { subst im'. cbn [fp_mask_types set_field]. apply fp_ref_same. unfold fp_set_table. apply fo_set_masks. }
  assert (ff_tables F im' = pool_write (ff_tables F im) (ff_hash_idx F fp false) t') as E3.
  { subst im'. rewrite fo_policies, fp_ref_tables. unfold fp_set_table. now rewrite fo_get_set, Et. }
  assert (ff_hash_idx F fp' false = ff_hash_idx F fp false) as E4 by apply fo_idx.
  assert (fp_mask_ids fp' ty = mask_ids_add (fp_mask_ids fp ty) k) as E5.
  { subst fp'. cbn [fp_mask_ids set_field]. change (p_type p') with (p_type p). rewrite Hty. apply set_type_same. }
  clearbody im'. exists t', k.
  assert (forall j, pool_lookup (ff_tables F im') j = if decide (j = ff_hash_idx F fp false) then Some t' else pool_lookup (ff_tables F im) j) as Hl.
  { intros j. rewrite E3. exact (pool_write_lookup _ _ _ _ _ Htbl). }
  split; [now rewrite E4, Hl, decide_True|]. rewrite E1, E2, E5.
  split; [|split; [|split; [|split; [exact (ex_intro _ _ Hm)|]]]].
  - assert (t' = <[out_key F p' := match tbl !! out_key F p' with
             | None => [i] | Some ids => priority_insert (prio (pool_write pols i p')) (p_priority p') i ids end]> tbl) as ->.
    { subst t'. f_equal. destruct (tbl !! out_key F p') as [ids|] eqn:Ek; [|reflexivity]. apply priority_insert_ext. intros j Hj.
      destruct (bo_inst _ _ _ _ _ (fi_bucket _ _ _ _ _ _ _ _ _ Hinv _ _ Ek) j Hj) as [Hji _].
      pose proof (fi_live _ _ _ _ _ _ _ _ _ Hinv j Hji) as Hj1. pose proof (allocated_elt _ _ _ _ _ Ha Hj1) as Hj2.
      pose proof (allocated_elt _ _ _ _ _ Ha0 Hj1) as Hj3.
      unfold prio, policy_at. now rewrite Epol, (pool_lookup_elt _ _ _ Hj2), (pool_lookup_elt _ _ _ Hj3). }
    apply (tbl_insert_ok (policies im) _ (fp_mask_types im)); try assumption. unfold p' at 2. now rewrite fo_mask_id.
  - exact (al_fresh _ _ _ Ha).
  - unfold policy_at. now rewrite E1, (pool_lookup_elt _ _ _ Hi).
  - split; try reflexivity.
    + intros j q _ Hj. rewrite E1. exact (allocated_elt _ _ _ _ _ Ha Hj).
    + intros j m _ Hj. rewrite E2. now apply (mr_keep _ _ _ _ Hm).
    + intros t Hne. subst fp'. cbn [fp_mask_ids set_field]. change (p_type p') with (p_type p). rewrite Hty. now apply set_type_other.
    + intros j Hj. now rewrite Hl, decide_False.
Qed.

(** ** Removal *)

Lemma filter_ne_perm (inst : list Z) i : NoDup inst -> i ∈ inst -> inst ≡ₚ i :: filter (fun j => j <> i) inst.
Proof.
  intros Hn Hi. apply NoDup_Permutation; [assumption| |].
  - constructor; [|now apply NoDup_filter]. rewrite list_elem_of_filter. intros [? _]. easy.
  - intros j. rewrite elem_of_cons, list_elem_of_filter. destruct (decide (j = i)) as [->|]; intuition.
Qed.

Lemma delete_nonempty (ids : list Z) n : (length ids =? 1)%nat = false -> ids <> [] -> delete n ids <> [].
Proof. destruct ids as [|x [|y ids]]; cbn; try easy. intros _ _. now destruct n as [|[|n]]. Qed.

(** The tables after a removal. *)
Definition tbl_remove (tbl : gmap K (list Z)) (k : K) (ids : list Z) (n : nat) : gmap K (list Z) :=
  if (length ids =? 1)%nat then delete k tbl else <[k := vec_delete ids n]> tbl.

Lemma tbl_remove_lookup tbl k ids n i l k' :
  tbl !! k = Some ids -> ids !! n = Some i -> NoDup ids -> tbl_remove tbl k ids n !! k' = Some l ->
  (k' = k /\ l = delete n ids /\ l <> []) \/ (k' <> k /\ tbl !! k' = Some l).
Proof.
  intros Hk Hn Hnd. unfold tbl_remove, vec_delete. destruct (Nat.eqb_spec (length ids) 1) as [E|E].
  - rewrite lookup_delete_Some. intros [? ?]. right. split; [congruence|assumption].
  - rewrite lookup_insert_Some. intros [[<- <-]|[? ?]]; [left|right; split; congruence].
    split; [reflexivity|split; [reflexivity|]]. apply delete_nonempty; [now apply Nat.eqb_neq|]. intros ->. now rewrite lookup_nil in Hn.
Qed.

Lemma tbl_delete_ok pols masks masks' tbl mids inst other k ids n i :
  let p := pol pols i in
  let inst' := filter (fun j => j <> i) inst in
  fp_inv F ty v6 pols masks tbl mids inst other -> tbl !! k = Some ids -> ids !! n = Some i ->
  mask_released masks masks' (p_fp_mask_type_id p) ->
  fp_inv F ty v6 (pool_put_index pols i) masks' (tbl_remove tbl k ids n) (mask_ids_del mids (p_fp_mask_type_id p)) inst' other.
Proof.
  cbv zeta. intros [I1 I2 I3 I4 I5 I6 I7 I8 I9 I10 I11 I13 I12] Hk Hn [R1 R2 R3 R4 _].
  destruct (I9 _ _ Hk) as [B1 B2 B3 B4]. destruct (B4 i (list_elem_of_lookup_2 _ _ _ Hn)) as [Hi Ei].
  set (p := pol pols i) in *. set (inst' := filter _ inst).
  assert (forall j, j ∈ inst' <-> j ∈ inst /\ j <> i) as Hin' by (intros j; unfold inst'; rewrite list_elem_of_filter; tauto).
  assert (forall j, j ∈ inst' -> pool_lookup (pool_put_index pols i) j = Some (pol pols j)) as Hold.
  { intros j [Hj Hne]%Hin'. rewrite (pool_put_lookup pols i p j (I5 i Hi)), decide_False by exact Hne. auto. }
  assert (forall j, j ∈ inst' -> pol (pool_put_index pols i) j = pol pols j) as Hpol by (intros j Hj; apply pol_lookup; auto).
  assert (forall c, mask_users pols inst c = mask_users (pool_put_index pols i) inst' c + Z.b2z (c =? p_fp_mask_type_id p)) as Hu.
  { intros c. rewrite (mask_users_perm _ _ _ _ (filter_ne_perm inst i I4 Hi)), mask_users_cons. fold p inst'.
    f_equal. symmetry. now apply mask_users_ext. }
  assert (forall c, mask_users (pool_put_index pols i) inst' c + other c <= mt_refs masks' c) as Hrefs.
  { intros c. specialize (I12 c). rewrite R3. rewrite Hu in I12. lia. }
  assert (0 < mid_ref mids (p_fp_mask_type_id p)) as Hpos by (rewrite I11; now apply mask_users_in).
  destruct (mask_ids_del_spec mids (p_fp_mask_type_id p) I10 Hpos) as [M1 M2].
  split; try assumption.
  - exact (pool_put_ok pols i p I1 (I5 i Hi)).
  - now apply NoDup_filter.
  - intros j Hj. rewrite Hpol by assumption. auto.
  - intros j Hj. rewrite Hpol by assumption. apply I6. now apply Hin'.
  - intros j Hj. pose proof (mask_users_in (pool_put_index pols i) inst' j Hj) as Huj. rewrite Hpol in * by assumption.
    apply R4; [|apply I7; now apply Hin']. specialize (Hrefs (p_fp_mask_type_id (pol pols j))).
    specialize (I13 (p_fp_mask_type_id (pol pols j))). lia.
  - intros j Hj. rewrite Hpol by assumption. apply Hin' in Hj as [Hj Hne]. destruct (I8 j Hj) as (ids' & Hk' & Hj').
    destruct (decide (out_key F (pol pols j) = k)) as [Ek|Ek].
    + rewrite Ek in *. assert (ids' = ids) as -> by congruence. exists (delete n ids).
      pose proof (delete_elem ids n i j Hn Hj' Hne) as Hd. split; [|exact Hd]. unfold tbl_remove.
      destruct (Nat.eqb_spec (length ids) 1) as [El|El]; [|now rewrite lookup_insert_eq].
      destruct ids as [|x [|]]; try easy. destruct n; [|easy]. set_solver.
    + exists ids'. unfold tbl_remove. destruct (_ =? 1)%nat; [rewrite lookup_delete_ne|rewrite lookup_insert_ne]; auto.
  - intros k' l Hl. destruct (tbl_remove_lookup tbl k ids n i l k' Hk Hn B3 Hl) as [(-> & -> & Hne)|[Hne Hl']].
    + apply (bucket_ok_ext pols _ inst); [now apply bucket_ok_delete|]. intros j Hj.
      destruct (B4 j (elem_of_delete _ _ _ Hj)) as [Hji _]. assert (j ∈ inst') as Hj'; [|auto].
      apply Hin'. split; [assumption|]. intros ->. now apply (nodup_delete_notin ids n i).
    + apply (bucket_ok_ext pols _ inst); [auto|]. intros j Hj. destruct (bo_inst _ _ _ _ _ (I9 _ _ Hl') j Hj) as [Hji Ej].
      assert (j ∈ inst') as Hj'; [|auto]. apply Hin'. split; [assumption|]. intros ->. apply Hne. now rewrite <- Ej.
  - intros c. rewrite M2, I11, Hu. lia.
Qed.

Lemma release_policies im k : policies (ipsec_fp_release_mask_type im k) = policies im.
Proof. unfold ipsec_fp_release_mask_type. now destruct (pool_elt_at_index _ k). Qed.

Lemma release_sad im k : sad (ipsec_fp_release_mask_type im k) = sad im.
Proof. unfold ipsec_fp_release_mask_type. now destruct (pool_elt_at_index _ k). Qed.

Lemma release_tables im k : ff_tables F (ipsec_fp_release_mask_type im k) = ff_tables F im.
Proof. unfold ipsec_fp_release_mask_type. destruct (pool_elt_at_index _ k); [apply fo_masks|reflexivity]. Qed.

Lemma release_same a b k :
  fp_mask_types a = fp_mask_types b -> fp_mask_types (ipsec_fp_release_mask_type a k) = fp_mask_types (ipsec_fp_release_mask_type b k).
Proof. intros E. unfold ipsec_fp_release_mask_type. rewrite E. now destruct (pool_elt_at_index _ k). Qed.

Lemma fp_del_spec im fp p tbl inst other im' fp' :
  pool_lookup (ff_tables F im) (ff_hash_idx F fp false) = Some tbl ->
  fp_inv F ty v6 (policies im) (fp_mask_types im) tbl (fp_mask_ids fp ty) inst other ->
  p_type p = ty -> fp_del_policy F im fp p = Some (im', fp') ->
  exists tbl' i,
    i ∈ inst /\ ipsec_policy_is_equal (policy_at im i) p = true /\
    pool_lookup (ff_tables F im') (ff_hash_idx F fp' false) = Some tbl' /\
    fp_inv F ty v6 (policies im') (fp_mask_types im') tbl' (fp_mask_ids fp' ty) (filter (fun j => j <> i) inst) other /\
    mask_released (fp_mask_types im) (fp_mask_types im') (p_fp_mask_type_id (policy_at im i)) /\
    fp_frame im im' fp fp' [i] other.
Proof.
  intros Htbl Hinv Hty. unfold fp_del_policy. rewrite (fo_inbound p Hty), (fp_table_lookup _ _ _ Htbl). cbv zeta.
  set (key := ff_key F _ _). destruct (tbl !! key) as [ids|] eqn:Ek; [|easy].
  destruct (vec_search _ ids) as [n|] eqn:Ev; [|easy]. destruct (vec_search_lookup _ _ _ Ev) as (i & Hn & Heq).
  rewrite (nth_lookup_Some ids n 0 i Hn). fold (tbl_remove tbl key ids n). intros [= Eim Efp].
  destruct (bo_inst _ _ _ _ _ (fi_bucket _ _ _ _ _ _ _ _ _ Hinv _ _ Ek) i (list_elem_of_lookup_2 _ _ _ Hn)) as [Hi _].
  pose proof (fi_live _ _ _ _ _ _ _ _ _ Hinv i Hi) as Hlive. change (pol (policies im) i) with (policy_at im i) in Hlive.
  set (k := p_fp_mask_type_id (policy_at im i)) in *.
  assert (policies im' = pool_put_index (policies im) i) as E1.
  { subst im'. cbn [policies set_field]. rewrite release_policies. unfold fp_set_table. now rewrite fo_set_policies. }
  assert (fp_mask_types im' = fp_mask_types (ipsec_fp_release_mask_type im k)) as E2.
  { subst im'. cbn [fp_mask_types set_field]. apply release_same. unfold fp_set_table. apply fo_set_masks. }
  assert (ff_tables F im' = pool_write (ff_tables F im) (ff_hash_idx F fp false) (tbl_remove tbl key ids n)) as E3.
  { subst im'. rewrite fo_policies, fo_sad, release_tables. unfold fp_set_table. apply fo_get_set. }
  assert (fp_mask_ids fp' ty = mask_ids_del (fp_mask_ids fp ty) k) as E5.
  { subst fp'. cbn [fp_mask_ids set_field]. rewrite Hty. apply set_type_same. }
  assert (0 < mt_refs (fp_mask_types im) k) as Hpos.
  { pose proof (fi_refs _ _ _ _ _ _ _ _ _ Hinv k). pose proof (fi_other _ _ _ _ _ _ _ _ _ Hinv k).
    pose proof (mask_users_in (policies im) inst i Hi) as Hu. change (p_fp_mask_type_id (pol (policies im) i)) with k in Hu. lia. }
  pose proof (release_mask_spec im k (fi_masks _ _ _ _ _ _ _ _ _ Hinv) (fi_bounded _ _ _ _ _ _ _ _ _ Hinv) Hpos) as Hrel.
  pose proof (tbl_delete_ok _ _ _ tbl _ inst other key ids n i Hinv Ek Hn Hrel) as Hinv'.
  assert (forall j, pool_lookup (ff_tables F im') j =
    if decide (j = ff_hash_idx F fp false) then Some (tbl_remove tbl key ids n) else pool_lookup (ff_tables F im) j) as Hl.
  { intros j. rewrite E3. exact (pool_write_lookup _ _ _ _ _ Htbl). }
  exists (tbl_remove tbl key ids n), i. rewrite E1, E2, E5. split; [exact Hi|split; [exact Heq|split; [|split; [exact Hinv'|split; [exact Hrel|]]]]].
  - rewrite Hl, decide_True; [reflexivity|]. subst fp'. apply fo_idx.
  - split.
    + intros j q Hj Hq. rewrite E1, (pool_put_lookup _ _ _ j Hlive), decide_False; [exact Hq|set_solver].
    + intros c m Hc Hm. rewrite E2. apply (ml_keep _ _ _ Hrel); [|exact Hm]. pose proof (fi_refs _ _ _ _ _ _ _ _ _ Hinv' c) as Hr.
      pose proof (mask_users_nonneg (pool_put_index (policies im) i) (filter (fun j => j <> i) inst) c). lia.
    + intros t Hne. subst fp'. cbn [fp_mask_ids set_field]. rewrite Hty. now apply set_type_other.
    + intros b. now subst fp'.
    + intros b. now subst fp'.
    + intros j Hj. now rewrite Hl, decide_False.
Qed.

End Update.
