(* ===== verification/FpRefine.v ===== *)
(** * Fast path: refinement of a map of policies

    The outbound fast path of an SPD, IPv4 and IPv6 tables with the mask types that
    they share, refines a finite map from indices to policies: additions and removals of
    [ipsec_fp_add_del_policy] are insertions and deletions of the map, and the lookups of
    [ipsec_output_policy_match] and [ipsec6_output_policy_match] return a policy of the
    map of highest priority among those that apply. *)

From stdpp Require Import gmap.
From S2P Require Import Prelude NetTypes Pool Crypto IpsecSa Sad SpdTypes SpdPolicy SpdLookup SpdInv FastPath FpInv.

(** ** The abstract specification *)

(** An outbound policy of either family, fields in range. *)
Definition out_either (p : ipsec_policy_t) : Prop := out_policy IP4_OUTBOUND false p \/ out_policy IP6_OUTBOUND true p.

(** Addresses of a family. *)
Definition addr_same (v6 : bool) (x y : ip46_address_t) : Prop := if v6 then x = y else ip46_ip4 x = ip46_ip4 y.

Definition range_same (v6 : bool) (x y : ip46_address_range_t) : Prop :=
  addr_same v6 (ar_start x) (ar_start y) /\ addr_same v6 (ar_stop x) (ar_stop y).

(** Both policies are the same rule: the same packets, priority and action. *)
Record same_rule (q p : ipsec_policy_t) : Prop := {
  sr_priority : p_priority q = p_priority p;
  sr_type : p_type q = p_type p;
  sr_family : p_is_ipv6 q = p_is_ipv6 p;
  sr_laddr : range_same (p_is_ipv6 p) (p_laddr q) (p_laddr p);
  sr_raddr : range_same (p_is_ipv6 p) (p_raddr q) (p_raddr p);
  sr_protocol : p_protocol q = p_protocol p;
  sr_lport : p_lport q = p_lport p;
  sr_rport : p_rport q = p_rport p;
  sr_action : p_policy q = p_policy p;
  sr_sa : p_sa_id q = p_sa_id p
}.

(** Policy [q] with the last eight bytes of the remote end of [p]. *)
Definition with_remote_end (p q : ipsec_policy_t) : ipsec_policy_t :=
  q <| p_raddr := mk_arange (ar_start (p_raddr q)) (mk_ip46 (ip46_w0 (ar_stop (p_raddr q))) (ip46_w1 (ar_stop (p_raddr p)))) |>.

(** [q] may be removed for [p]: the same rule; in IPv6 the last eight bytes of the
    remote end are not compared. *)
Definition removable (q p : ipsec_policy_t) : Prop :=
  if p_is_ipv6 p then same_rule (with_remote_end p q) p else same_rule q p.

(** The operations: policy [p] is added and index [i] returned, or [p] is removed. *)
Inductive fp_op :=
| FpAdd (p : ipsec_policy_t) (i : Z)
| FpDel (p : ipsec_policy_t).

Inductive policy_map_step (a : gmap Z ipsec_policy_t) : fp_op -> gmap Z ipsec_policy_t -> Prop :=
| spec_add i p : a !! i = None -> policy_map_step a (FpAdd p i) (<[i := p]> a)
| spec_del i p q : a !! i = Some q -> removable q p -> policy_map_step a (FpDel p) (delete i a)
| spec_absent p : (forall i q, a !! i = Some q -> ~ same_rule q p) -> policy_map_step a (FpDel p) a.

(** A sequence of labelled steps. *)
Inductive labelled {S L : Type} (step : S -> L -> S -> Prop) : S -> list L -> S -> Prop :=
| lab_nil s : labelled step s [] s
| lab_cons s1 s2 s3 l ls : step s1 l s2 -> labelled step s2 ls s3 -> labelled step s1 (l :: ls) s3.

(** [r] is a policy of the map of highest priority among those that satisfy [rule]. *)
Definition map_best (a : gmap Z ipsec_policy_t) (rule : ipsec_policy_t -> Prop) (r : option Z) : Prop :=
  match r with
  | None => forall i p, a !! i = Some p -> ~ rule p
  | Some i => exists p, a !! i = Some p /\ rule p /\
      forall j q, a !! j = Some q -> rule q -> p_priority q <= p_priority p
  end.

(** ** The relation *)

(** Both families of the SPD whose fast path is [fp]; each counts the masks of the other. *)
Record fp_out_inv (im : ipsec_main_t) (fp : ipsec_spd_fp_t) (l4 l6 : list Z) : Prop := {
  oi_4 : exists tbl, pool_lookup (fp_ip4_lookup_hashes im) (ip4_out_lookup_hash_idx fp) = Some tbl /\
           fp_inv fp_ip4 IP4_OUTBOUND false (policies im) (fp_mask_types im) tbl (fp_mask_ids fp IP4_OUTBOUND) l4
             (mask_users (policies im) l6);
  oi_6 : exists tbl, pool_lookup (fp_ip6_lookup_hashes im) (ip6_out_lookup_hash_idx fp) = Some tbl /\
           fp_inv fp_ip6 IP6_OUTBOUND true (policies im) (fp_mask_types im) tbl (fp_mask_ids fp IP6_OUTBOUND) l6
             (mask_users (policies im) l4)
}.

(** Policy [i] of the map is stored at index [i] with the id of its mask type. *)
Record fp_rel (im : ipsec_main_t) (fp : ipsec_spd_fp_t) (a : gmap Z ipsec_policy_t) : Prop := {
  fr_stored : forall i p, a !! i = Some p -> exists k, policy_at im i = p <| p_fp_mask_type_id := k |>;
  fr_inst : exists l4 l6, fp_out_inv im fp l4 l6 /\ forall i, is_Some (a !! i) <-> i ∈ l4 ++ l6
}.

(** ** One family while the other changes *)

Section Frame.
Context {K : Type} `{Countable K} (F : fp_family K) (ty : ipsec_spd_policy_type_t) (v6 : bool).

(** The invariant only looks at the installed policies, their masks and the counts. *)
Lemma fp_inv_frame pols pols' masks masks' tbl mids inst other other' :
  fp_inv F ty v6 pols masks tbl mids inst other ->
  pool_ok pols' -> pool_ok masks' -> mt_bounded masks' ->
  (forall i, i ∈ inst -> pool_lookup pols' i = Some (pol pols i)) ->
  (forall k m, 0 < mask_users pols inst k -> mt_is masks k m -> mt_is masks' k m) ->
  (forall k, 0 <= other' k) -> (forall k, mask_users pols inst k + other' k <= mt_refs masks' k) ->
  fp_inv F ty v6 pols' masks' tbl mids inst other'.
Proof.
  intros [I1 I2 I3 I4 I5 I6 I7 I8 I9 I10 I11 I13 I12] Hp Hm Hb Hold Hkeep Ho Hr.
  assert (forall i, i ∈ inst -> pol pols' i = pol pols i) as Hpol by (intros i Hi; apply pol_lookup; auto).
  assert (forall k, mask_users pols' inst k = mask_users pols inst k) as Hu by (intros k; now apply mask_users_ext).
  split; try assumption.
  - intros i Hi. rewrite Hpol by assumption. auto.
  - intros i Hi. rewrite Hpol by assumption. auto.
  - intros i Hi. rewrite Hpol by assumption. apply Hkeep; [|auto]. now apply mask_users_in.
  - intros i Hi. rewrite Hpol by assumption. auto.
  - intros k ids Hk. apply (bucket_ok_ext F pols _ inst); [auto|]. intros j Hj.
    destruct (bo_inst _ _ _ _ _ (I9 k ids Hk) j Hj) as [Hji _]. auto.
  - intros k. now rewrite Hu.
  - intros k. now rewrite Hu.
Qed.

End Frame.

(** [F] is updated, [G] is the other family. *)
Lemma joint_update {K L} `{Countable K} `{Countable L} (F : fp_family K) (G : fp_family L) tyF tyG vF vG
    pols pols' masks masks' tF tF' tG mF mF' mG lF lF' lG (gone : list Z) :
  fp_inv F tyF vF pols masks tF mF lF (mask_users pols lG) ->
  fp_inv G tyG vG pols masks tG mG lG (mask_users pols lF) ->
  fp_inv F tyF vF pols' masks' tF' mF' lF' (mask_users pols lG) ->
  tyF <> tyG -> (forall i, i ∈ gone -> i ∈ lF) ->
  (forall j q, j ∉ gone -> pool_lookup pols j = Some q -> pool_lookup pols' j = Some q) ->
  (forall k m, 0 < mask_users pols lG k -> mt_is masks k m -> mt_is masks' k m) ->
  fp_inv F tyF vF pols' masks' tF' mF' lF' (mask_users pols' lG) /\
  fp_inv G tyG vG pols' masks' tG mG lG (mask_users pols' lF').
Proof.
  intros HF HG HF' Hty Hgone Hpols Hmasks.
  assert (forall i, i ∈ lG -> pool_lookup pols' i = Some (pol pols i)) as Hold.
  { intros i Hi. apply Hpols; [|exact (fi_live _ _ _ _ _ _ _ _ _ HG i Hi)]. intros Hg%Hgone.
    destruct (fi_out _ _ _ _ _ _ _ _ _ HG i Hi) as (_ & E1 & _). destruct (fi_out _ _ _ _ _ _ _ _ _ HF i Hg) as (_ & E2 & _). congruence. }
  assert (forall k, mask_users pols' lG k = mask_users pols lG k) as Hu.
  { intros k. apply mask_users_ext. intros i Hi. apply pol_lookup. auto. }
  assert (forall k, mask_users pols' lF' k + mask_users pols lG k <= mt_refs masks' k) as Hr by exact (fi_refs _ _ _ _ _ _ _ _ _ HF').
  split.
  - apply (fp_inv_frame F tyF vF _ _ _ _ _ _ _ _ _ HF'); try apply HF'; auto.
    + intros k. apply mask_users_nonneg.
    + intros k. rewrite Hu. apply Hr.
  - apply (fp_inv_frame G tyG vG _ _ _ _ _ _ _ _ _ HG); try apply HF'; auto.
    + intros k. apply mask_users_nonneg.
    + intros k. specialize (Hr k). lia.
Qed.

(** The tables of the other family. *)
Lemma fp_mask_ops_frame im k m :
  fp_ip4_lookup_hashes (fp_ref_mask_type im k m) = fp_ip4_lookup_hashes im /\
  fp_ip6_lookup_hashes (fp_ref_mask_type im k m) = fp_ip6_lookup_hashes im /\
  fp_ip4_lookup_hashes (ipsec_fp_release_mask_type im k) = fp_ip4_lookup_hashes im /\
  fp_ip6_lookup_hashes (ipsec_fp_release_mask_type im k) = fp_ip6_lookup_hashes im /\
  fp_ip4_lookup_hashes (fst (fp_get_mask_type im m)) = fp_ip4_lookup_hashes im /\
  fp_ip6_lookup_hashes (fst (fp_get_mask_type im m)) = fp_ip6_lookup_hashes im.
Proof.
  unfold fp_ref_mask_type, ipsec_fp_release_mask_type, fp_get_mask_type.
  repeat split; try (now destruct (pool_elt_at_index _ k)); destruct (_ =? _); try reflexivity; now destruct (pool_get _ _).
Qed.

Lemma add_other_tables im fp p :
  fp_ip6_lookup_hashes (fst (fst (ipsec_fp_ip4_add_policy im fp p))) = fp_ip6_lookup_hashes im /\
  fp_ip4_lookup_hashes (fst (fst (ipsec_fp_ip6_add_policy im fp p))) = fp_ip4_lookup_hashes im.
Proof.
  unfold ipsec_fp_ip4_add_policy, ipsec_fp_ip6_add_policy, fp_add_policy.
  destruct (pool_get policy_zero (policies im)) as [pols i]. split.
  - set (im1 := im <| policies := pols |>). set (m := ff_mask _ _ _ _).
    destruct (fp_mask_ops_frame im1 0 m) as (_ & _ & _ & _ & _ & E). destruct (fp_get_mask_type im1 m) as [im2 k]. cbn [fst] in *.
    match goal with |- context [fp_ref_mask_type ?x k m] => destruct (fp_mask_ops_frame x k m) as (_ & E2 & _) end.
    etransitivity; [exact E2|]. exact E.
  - set (im1 := im <| policies := pols |>). set (m := ff_mask _ _ _ _).
    destruct (fp_mask_ops_frame im1 0 m) as (_ & _ & _ & _ & E & _). destruct (fp_get_mask_type im1 m) as [im2 k]. cbn [fst] in *.
    match goal with |- context [fp_ref_mask_type ?x k m] => destruct (fp_mask_ops_frame x k m) as (E2 & _) end.
    etransitivity; [exact E2|]. exact E.
Qed.

Lemma del_other_tables im fp p im' fp' :
  (ipsec_fp_ip4_del_policy im fp p = Some (im', fp') -> fp_ip6_lookup_hashes im' = fp_ip6_lookup_hashes im) /\
  (ipsec_fp_ip6_del_policy im fp p = Some (im', fp') -> fp_ip4_lookup_hashes im' = fp_ip4_lookup_hashes im).
Proof.
  unfold ipsec_fp_ip4_del_policy, ipsec_fp_ip6_del_policy, fp_del_policy. split.
  - destruct (_ !! _) as [ids|]; [|easy]. destruct (vec_search _ ids) as [n|]; [|easy]. intros [= <- _].
    match goal with |- context [ipsec_fp_release_mask_type ?x ?k] => destruct (fp_mask_ops_frame x k tuple_zero) as (_ & _ & _ & E & _) end.
    exact E.
  - destruct (_ !! _) as [ids|]; [|easy]. destruct (vec_search _ ids) as [n|]; [|easy]. intros [= <- _].
    match goal with |- context [ipsec_fp_release_mask_type ?x ?k] => destruct (fp_mask_ops_frame x k tuple_zero) as (_ & _ & E & _) end.
    exact E.
Qed.

(** ** Updates *)

(** A step of the code on the fast path [fp] of an SPD: a call of
    [ipsec_fp_add_del_policy] with an outbound policy; a removal that fails changes
    nothing.  The indices and the reference counts of the pools fit in 32 bits. *)
Inductive fp_step : ipsec_main_t * ipsec_spd_fp_t -> fp_op -> ipsec_main_t * ipsec_spd_fp_t -> Prop :=
| fp_step_add im fp p im' fp' i :
    out_either p -> mt_room (fp_mask_types im) -> pool_len (policies im) < 2 ^ 32 - 1 ->
    ipsec_fp_add_del_policy im fp p true = Some (im', fp', i) -> fp_step (im, fp) (FpAdd p i) (im', fp')
| fp_step_del im fp p im' fp' i :
    out_either p -> ipsec_fp_add_del_policy im fp p false = Some (im', fp', i) -> fp_step (im, fp) (FpDel p) (im', fp')
| fp_step_del_fails im fp p :
    out_either p -> ipsec_fp_add_del_policy im fp p false = None -> fp_step (im, fp) (FpDel p) (im, fp).

Lemma out_inv_live im fp l4 l6 j :
  fp_out_inv im fp l4 l6 -> j ∈ l4 ++ l6 -> pool_lookup (policies im) j = Some (pol (policies im) j).
Proof.
  intros [(t4 & _ & H4) (t6 & _ & H6)] [Hj|Hj]%elem_of_app;
    [exact (fi_live _ _ _ _ _ _ _ _ _ H4 j Hj)|exact (fi_live _ _ _ _ _ _ _ _ _ H6 j Hj)].
Qed.

(** Stored policies when indices are added and removed. *)
Lemma rel_add im im' fp fp' a l4 l6 l4' l6' i p k :
  fp_rel im fp a -> fp_out_inv im fp l4 l6 -> (forall j, is_Some (a !! j) <-> j ∈ l4 ++ l6) ->
  fp_out_inv im' fp' l4' l6' -> (forall j, j ∈ l4' ++ l6' <-> j = i \/ j ∈ l4 ++ l6) -> i ∉ l4 ++ l6 ->
  policy_at im' i = p <| p_fp_mask_type_id := k |> ->
  (forall j q, pool_lookup (policies im) j = Some q -> pool_lookup (policies im') j = Some q) ->
  a !! i = None /\ fp_rel im' fp' (<[i := p]> a).
Proof.
  intros [Hst _] Hinv Hd Hinv' Hl Hni Hi Hold.
  assert (a !! i = None) as Hnone by (apply eq_None_not_Some; now rewrite Hd). split; [exact Hnone|]. split.
  - intros j q. destruct (decide (i = j)) as [<-|Hne].
    + rewrite lookup_insert_eq. intros [= <-]. now exists k.
    + rewrite lookup_insert_ne by exact Hne. intros Hq. destruct (Hst j q Hq) as [k' Ek]. exists k'. rewrite <- Ek.
      assert (j ∈ l4 ++ l6) as Hj by (apply Hd; eauto).
      pose proof (out_inv_live _ _ _ _ _ Hinv Hj) as Hlj.
      exact (pol_lookup _ _ _ (Hold _ _ Hlj)).
  - exists l4', l6'. split; [exact Hinv'|]. intros j. rewrite Hl, lookup_insert_is_Some, <- Hd. destruct (decide (i = j)); intuition congruence.
Qed.

Lemma rel_del im im' fp fp' a l4 l6 l4' l6' i :
  fp_rel im fp a -> fp_out_inv im fp l4 l6 -> (forall j, is_Some (a !! j) <-> j ∈ l4 ++ l6) ->
  fp_out_inv im' fp' l4' l6' -> (forall j, j ∈ l4' ++ l6' <-> j <> i /\ j ∈ l4 ++ l6) ->
  (forall j q, j ∉ [i] -> pool_lookup (policies im) j = Some q -> pool_lookup (policies im') j = Some q) ->
  fp_rel im' fp' (delete i a).
Proof.
  intros [Hst _] Hinv Hd Hinv' Hl Hold. split.
  - intros j q. rewrite lookup_delete_Some. intros [Hne Hq]. destruct (Hst j q Hq) as [k' Ek]. exists k'. rewrite <- Ek.
    assert (j ∈ l4 ++ l6) as Hj by (apply Hd; eauto).
    pose proof (out_inv_live _ _ _ _ _ Hinv Hj) as Hlj.
    apply (pol_lookup _ _ _), Hold; [set_solver|exact Hlj].
  - exists l4', l6'. split; [exact Hinv'|]. intros j. rewrite Hl, lookup_delete_is_Some, <- Hd. intuition.
Qed.

(** The new policy is stored with the id of its mask type, which has one more reference. *)
Definition stored_with_mask (im im' : ipsec_main_t) (p : ipsec_policy_t) (i : Z) : Prop :=
  exists k, policy_at im' i = p <| p_fp_mask_type_id := k |> /\ exists m, mask_referenced (fp_mask_types im) (fp_mask_types im') k m.

Lemma fp_add4 im fp p l4 l6 :
  fp_out_inv im fp l4 l6 -> out_policy IP4_OUTBOUND false p -> mt_room (fp_mask_types im) -> pool_len (policies im) < 2 ^ 32 - 1 ->
  let '(im', fp', i) := ipsec_fp_ip4_add_policy im fp p in
  fp_out_inv im' fp' (i :: l4) l6 /\ pool_lookup (policies im) i = None /\ stored_with_mask im im' p i /\
  (forall j q, pool_lookup (policies im) j = Some q -> pool_lookup (policies im') j = Some q).
Proof.
  intros [(t4 & E4 & H4) (t6 & E6 & H6)] Hp Hroom Hlen.
  pose proof (fp_add_spec fp_ip4 IP4_OUTBOUND false im fp p t4 l4 _ E4 H4 Hp Hroom Hlen) as Ha.
  destruct (add_other_tables im fp p) as [Eo _]. unfold ipsec_fp_ip4_add_policy in *.
  destruct (fp_add_policy fp_ip4 im fp p) as [[im' fp'] i]. cbn [fst] in Eo.
  destruct Ha as (t4' & k & Et & Hinv & Hni & Hi & Hmr & [F1 F2 F3 F4 F5 F6]).
  destruct (joint_update fp_ip4 fp_ip6 _ _ _ _ _ (policies im') _ (fp_mask_types im') _ _ _ _ _ _ _ _ _ [] H4 H6 Hinv) as [J4 J6];
    [easy|set_solver|exact F1|exact F2|].
  split; [|split; [exact Hni|split; [now exists k|intros j q; apply F1; set_solver]]]. split; [now exists t4'|].
  exists t6. rewrite Eo, F3 by easy. pose proof (F5 false) as Ei. cbn in Ei. rewrite Ei. now split.
Qed.

Lemma fp_add6 im fp p l4 l6 :
  fp_out_inv im fp l4 l6 -> out_policy IP6_OUTBOUND true p -> mt_room (fp_mask_types im) -> pool_len (policies im) < 2 ^ 32 - 1 ->
  let '(im', fp', i) := ipsec_fp_ip6_add_policy im fp p in
  fp_out_inv im' fp' l4 (i :: l6) /\ pool_lookup (policies im) i = None /\ stored_with_mask im im' p i /\
  (forall j q, pool_lookup (policies im) j = Some q -> pool_lookup (policies im') j = Some q).
Proof.
  intros [(t4 & E4 & H4) (t6 & E6 & H6)] Hp Hroom Hlen.
  pose proof (fp_add_spec fp_ip6 IP6_OUTBOUND true im fp p t6 l6 _ E6 H6 Hp Hroom Hlen) as Ha.
  destruct (add_other_tables im fp p) as [_ Eo]. unfold ipsec_fp_ip6_add_policy in *.
  destruct (fp_add_policy fp_ip6 im fp p) as [[im' fp'] i]. cbn [fst] in Eo.
  destruct Ha as (t6' & k & Et & Hinv & Hni & Hi & Hmr & [F1 F2 F3 F4 F5 F6]).
  destruct (joint_update fp_ip6 fp_ip4 _ _ _ _ _ (policies im') _ (fp_mask_types im') _ _ _ _ _ _ _ _ _ [] H6 H4 Hinv) as [J6 J4];
    [easy|set_solver|exact F1|exact F2|].
  split; [|split; [exact Hni|split; [now exists k|intros j q; apply F1; set_solver]]]. split; [|now exists t6'].
  exists t4. rewrite Eo, F3 by easy. pose proof (F4 false) as Ei. cbn in Ei. rewrite Ei. now split.
Qed.

(** What a removal does, for the list of its family. *)
Definition removed_from (im im' : ipsec_main_t) (p : ipsec_policy_t) (l l' : list Z) (i : Z) : Prop :=
  i ∈ l /\ ipsec_policy_is_equal (policy_at im i) p = true /\ l' = filter (fun j => j <> i) l /\
  mask_released (fp_mask_types im) (fp_mask_types im') (p_fp_mask_type_id (policy_at im i)) /\
  forall j q, j ∉ [i] -> pool_lookup (policies im) j = Some q -> pool_lookup (policies im') j = Some q.

Lemma fp_del4 im fp p l4 l6 im' fp' :
  fp_out_inv im fp l4 l6 -> p_type p = IP4_OUTBOUND -> ipsec_fp_ip4_del_policy im fp p = Some (im', fp') ->
  exists i l4', removed_from im im' p l4 l4' i /\ fp_out_inv im' fp' l4' l6.
Proof.
  intros [(t4 & E4 & H4) (t6 & E6 & H6)] Hp Hd. pose proof (proj1 (del_other_tables im fp p im' fp') Hd) as Eo.
  destruct (fp_del_spec fp_ip4 IP4_OUTBOUND false im fp p t4 l4 _ im' fp' E4 H4 Hp Hd) as (t4' & i & Hi & Heq & Et & Hinv & Hml & [F1 F2 F3 F4 F5 F6]).
  destruct (joint_update fp_ip4 fp_ip6 _ _ _ _ _ (policies im') _ (fp_mask_types im') _ _ _ _ _ _ _ _ _ [i] H4 H6 Hinv) as [J4 J6];
    [easy|set_solver|exact F1|exact F2|].
  exists i, (filter (fun j => j <> i) l4). split; [split; [exact Hi|split; [exact Heq|split; [reflexivity|split; [exact Hml|exact F1]]]]|]. split; [now exists t4'|].
  exists t6. rewrite Eo, F3 by easy. pose proof (F5 false) as Ei. cbn in Ei. rewrite Ei. now split.
Qed.

Lemma fp_del6 im fp p l4 l6 im' fp' :
  fp_out_inv im fp l4 l6 -> p_type p = IP6_OUTBOUND -> ipsec_fp_ip6_del_policy im fp p = Some (im', fp') ->
  exists i l6', removed_from im im' p l6 l6' i /\ fp_out_inv im' fp' l4 l6'.
Proof.
  intros [(t4 & E4 & H4) (t6 & E6 & H6)] Hp Hd. pose proof (proj2 (del_other_tables im fp p im' fp') Hd) as Eo.
  destruct (fp_del_spec fp_ip6 IP6_OUTBOUND true im fp p t6 l6 _ im' fp' E6 H6 Hp Hd) as (t6' & i & Hi & Heq & Et & Hinv & Hml & [F1 F2 F3 F4 F5 F6]).
  destruct (joint_update fp_ip6 fp_ip4 _ _ _ _ _ (policies im') _ (fp_mask_types im') _ _ _ _ _ _ _ _ _ [i] H6 H4 Hinv) as [J6 J4];
    [easy|set_solver|exact F1|exact F2|].
  exists i, (filter (fun j => j <> i) l6). split; [split; [exact Hi|split; [exact Heq|split; [reflexivity|split; [exact Hml|exact F1]]]]|]. split; [|now exists t6'].
  exists t4. rewrite Eo, F3 by easy. pose proof (F4 false) as Ei. cbn in Ei. rewrite Ei. now split.
Qed.

Lemma fresh_not_installed im fp l4 l6 i : fp_out_inv im fp l4 l6 -> pool_lookup (policies im) i = None -> i ∉ l4 ++ l6.
Proof. intros Hinv Hn Hi. rewrite (out_inv_live _ _ _ _ _ Hinv Hi) in Hn. discriminate. Qed.

(** An installed policy compares as the policy of the map. *)
Lemma rel_equal im fp a i p q :
  fp_rel im fp a -> a !! i = Some q -> ipsec_policy_is_equal (policy_at im i) p = ipsec_policy_is_equal q p.
Proof. intros Hr Hq. destruct (fr_stored _ _ _ Hr i q Hq) as [k ->]. reflexivity. Qed.

Lemma out_inv_disjoint im fp l4 l6 j : fp_out_inv im fp l4 l6 -> j ∈ l4 -> j ∈ l6 -> False.
Proof.
  intros [(t4 & _ & H4) (t6 & _ & H6)] Hj4 Hj6.
  destruct (fi_out _ _ _ _ _ _ _ _ _ H4 j Hj4) as (_ & E1 & _). destruct (fi_out _ _ _ _ _ _ _ _ _ H6 j Hj6) as (_ & E2 & _). congruence.
Qed.

(** ** Reference counts *)

(** Mask type [k] has one reference for each policy of the map that uses it, beside those
    it had in [im0], and is freed with its last reference. *)
Definition mask_counts (im0 im : ipsec_main_t) (a : gmap Z ipsec_policy_t) : Prop :=
  mt_positive (fp_mask_types im) /\
  forall k, mt_refs (fp_mask_types im) k = mt_refs (fp_mask_types im0) k + mask_users (policies im) (elements (dom a)) k.

Lemma mask_users_insert pols (a : gmap Z ipsec_policy_t) i p k :
  a !! i = None ->
  mask_users pols (elements (dom (<[i := p]> a))) k = mask_users pols (elements (dom a)) k + Z.b2z (k =? p_fp_mask_type_id (pol pols i)).
Proof.
  intros Hi%not_elem_of_dom. rewrite <- mask_users_cons. apply mask_users_perm. rewrite dom_insert_L. now apply elements_union_singleton.
Qed.

Lemma mask_users_kept im im' fp a (a' : gmap Z ipsec_policy_t) k :
  fp_rel im fp a ->
  (forall j, is_Some (a' !! j) -> is_Some (a !! j) /\ forall q, pool_lookup (policies im) j = Some q -> pool_lookup (policies im') j = Some q) ->
  mask_users (policies im') (elements (dom a')) k = mask_users (policies im) (elements (dom a')) k.
Proof.
  intros [_ (l4 & l6 & Hinv & Hd)] Hkeep. apply mask_users_ext. intros j [Hj Hold]%elem_of_elements%elem_of_dom%Hkeep. symmetry.
  rewrite Hd in Hj. pose proof (out_inv_live _ _ _ _ _ Hinv Hj) as Hl. now rewrite (pol_lookup _ _ _ (Hold _ Hl)).
Qed.

Lemma counts_add im0 im im' fp a p i :
  fp_rel im fp a -> mask_counts im0 im a -> a !! i = None -> stored_with_mask im im' p i ->
  (forall j q, pool_lookup (policies im) j = Some q -> pool_lookup (policies im') j = Some q) -> mask_counts im0 im' (<[i := p]> a).
Proof.
  intros Hrel [Hpos Hc] Hi (k & Hk & m & Hm) Hold. split; [exact (mr_positive _ _ _ _ Hm Hpos)|]. intros j.
  rewrite mask_users_insert, (mr_refs _ _ _ _ Hm), Hc by exact Hi. change (pol (policies im') i) with (policy_at im' i). rewrite Hk.
  rewrite (mask_users_kept im im' fp a a j Hrel) by eauto. cbn. lia.
Qed.

Lemma counts_del im0 im im' fp a i q :
  fp_rel im fp a -> mask_counts im0 im a -> a !! i = Some q ->
  mask_released (fp_mask_types im) (fp_mask_types im') (p_fp_mask_type_id (policy_at im i)) ->
  (forall j q, j ∉ [i] -> pool_lookup (policies im) j = Some q -> pool_lookup (policies im') j = Some q) -> mask_counts im0 im' (delete i a).
Proof.
  intros Hrel [Hpos Hc] Hi Hm Hold. split; [exact (ml_positive _ _ _ Hm Hpos)|]. intros j.
  rewrite (ml_refs _ _ _ Hm), Hc. pose proof (mask_users_insert (policies im) (delete i a) i q j (lookup_delete_eq a i)) as Hu.
  rewrite insert_delete_id in Hu by exact Hi. rewrite Hu. change (pol (policies im) i) with (policy_at im i).
  rewrite (mask_users_kept im im' fp a (delete i a) j Hrel); [lia|]. intros l [Hne Hl]%lookup_delete_is_Some. split; [exact Hl|].
  intros q'. apply Hold. set_solver.
Qed.

(** ** Simulation *)

Lemma sim_add im fp im' fp' a p i :
  fp_rel im fp a -> out_either p -> mt_room (fp_mask_types im) -> pool_len (policies im) < 2 ^ 32 - 1 ->
  ipsec_fp_add_del_policy im fp p true = Some (im', fp', i) ->
  a !! i = None /\ fp_rel im' fp' (<[i := p]> a) /\ forall im0, mask_counts im0 im a -> mask_counts im0 im' (<[i := p]> a).
Proof.
  intros Hrel Hp Hroom Hlen He. pose proof Hrel as [_ (l4 & l6 & Hinv & Hd)]. unfold ipsec_fp_add_del_policy in He.
  assert (exists l4' l6', fp_out_inv im' fp' l4' l6' /\ (forall j, j ∈ l4' ++ l6' <-> j = i \/ j ∈ l4 ++ l6) /\
    pool_lookup (policies im) i = None /\ stored_with_mask im im' p i /\
    (forall j q, pool_lookup (policies im) j = Some q -> pool_lookup (policies im') j = Some q)) as (l4' & l6' & Hinv' & Hl & Hf & Hk & Hold).
  { destruct Hp as [Hp|Hp]; pose proof Hp as (_ & _ & H6); rewrite H6 in He; injection He as He.
    - pose proof (fp_add4 im fp p l4 l6 Hinv Hp Hroom Hlen) as Ha. rewrite He in Ha. destruct Ha as (Hinv' & Ha).
      exists (i :: l4), l6. split; [exact Hinv'|]. split; [set_solver|exact Ha].
    - pose proof (fp_add6 im fp p l4 l6 Hinv Hp Hroom Hlen) as Ha. rewrite He in Ha. destruct Ha as (Hinv' & Ha).
      exists l4, (i :: l6). split; [exact Hinv'|]. split; [set_solver|exact Ha]. }
  pose proof Hk as (k & Ek & _).
  destruct (rel_add im im' fp fp' a l4 l6 l4' l6' i p k) as [Hn Hr]; eauto using fresh_not_installed.
  split; [exact Hn|split; [exact Hr|]]. intros im0 Hc. exact (counts_add im0 im im' fp a p i Hrel Hc Hn Hk Hold).
Qed.

Lemma sim_del im fp im' fp' a p n :
  fp_rel im fp a -> out_either p -> ipsec_fp_add_del_policy im fp p false = Some (im', fp', n) ->
  exists i q, a !! i = Some q /\ ipsec_policy_is_equal q p = true /\ fp_rel im' fp' (delete i a) /\
    forall im0, mask_counts im0 im a -> mask_counts im0 im' (delete i a).
Proof.
  intros Hrel Hp He. pose proof Hrel as [_ (l4 & l6 & Hinv & Hd)]. unfold ipsec_fp_add_del_policy in He.
  assert (exists i l l' l4' l6', removed_from im im' p l l' i /\ fp_out_inv im' fp' l4' l6' /\ (forall j, j ∈ l -> j ∈ l4 ++ l6) /\
    forall j, j ∈ l4' ++ l6' <-> j <> i /\ j ∈ l4 ++ l6) as (i & l & l' & l4' & l6' & Hr & Hinv' & Hl & Hl').
  { assert (forall i j l l', removed_from im im' p l l' i -> j ∈ l' <-> j <> i /\ j ∈ l) as Hrm.
    { intros i j l l' (_ & _ & -> & _). now rewrite list_elem_of_filter. }
    destruct Hp as [(_ & Hty & H6)|(_ & Hty & H6)]; rewrite H6 in He.
    - destruct (ipsec_fp_ip4_del_policy im fp p) as [[im1 fp1]|] eqn:Ed; [|easy]. injection He as -> -> _.
      destruct (fp_del4 _ _ _ _ _ _ _ Hinv Hty Ed) as (i & l4' & Hr & Hinv'). exists i, l4, l4', l4', l6.
      split; [exact Hr|split; [exact Hinv'|split; [set_solver|]]]. intros j. rewrite !elem_of_app, (Hrm i j l4 l4' Hr).
      pose proof (out_inv_disjoint _ _ _ _ i Hinv (proj1 Hr)). destruct (decide (j = i)) as [->|]; intuition.
    - destruct (ipsec_fp_ip6_del_policy im fp p) as [[im1 fp1]|] eqn:Ed; [|easy]. injection He as -> -> _.
      destruct (fp_del6 _ _ _ _ _ _ _ Hinv Hty Ed) as (i & l6' & Hr & Hinv'). exists i, l6, l6', l4, l6'.
      split; [exact Hr|split; [exact Hinv'|split; [set_solver|]]]. intros j. rewrite !elem_of_app, (Hrm i j l6 l6' Hr).
      pose proof (fun H => out_inv_disjoint _ _ _ _ i Hinv H (proj1 Hr)). destruct (decide (j = i)) as [->|]; intuition. }
  destruct Hr as (Hi & Heq & _ & Hm & Hold). destruct (proj2 (Hd i) (Hl i Hi)) as [q Hq]. exists i, q. split; [exact Hq|].
  rewrite (rel_equal _ _ _ _ _ _ Hrel Hq) in Heq. split; [exact Heq|].
  split; [now apply (rel_del im im' fp fp' a l4 l6 l4' l6' i)|]. intros im0 Hc. exact (counts_del im0 im im' fp a i q Hrel Hc Hq Hm Hold).
Qed.

(** The comparison of the code is the specified one. *)
Lemma is_equal_removable q p : ipsec_policy_is_equal q p = true <-> removable q p.
Proof.
  unfold ipsec_policy_is_equal, removable. destruct q as [? ? ? ? [[] []] [[] []] ? [] [] ? ? ? ?], p as [? ? ? v6 [[] []] [[] []] ? [] [] ? ? ? ?].
  destruct v6; cbn; rewrite !andb_true_iff, !bool_decide_eq_true, !Z.eqb_eq, eqb_true_iff; (split; [intros; split; cbn; unfold range_same, addr_same; cbn; intuition congruence|]).
  - intros [E1 E2 E3 [E4 E5] [E6 E7] E8 E9 E10 E11 E12]. cbn in *. simplify_eq. tauto.
  - intros [E1 E2 E3 [E4 E5] [E6 E7] E8 E9 E10 E11 E12]. cbn in *. simplify_eq. tauto.
Qed.

Lemma same_rule_removable q p : same_rule q p -> removable q p.
Proof.
  unfold removable. destruct (p_is_ipv6 p) eqn:H6; [|easy]. intros [E1 E2 E3 E4 E5 E6 E7 E8 E9 E10].
  rewrite H6 in E5. destruct E5 as [Ea Eb]. cbn in Ea, Eb. split; try assumption. rewrite H6. split; [exact Ea|]. cbn. rewrite Eb. now destruct (ar_stop (p_raddr p)).
Qed.

(** ** The empty fast path *)

(** The tables exist and are empty. *)
Record fp_empty (im : ipsec_main_t) (fp : ipsec_spd_fp_t) : Prop := {
  fe_4 : pool_lookup (fp_ip4_lookup_hashes im) (ip4_out_lookup_hash_idx fp) = Some ∅;
  fe_6 : pool_lookup (fp_ip6_lookup_hashes im) (ip6_out_lookup_hash_idx fp) = Some ∅;
  fe_mids : forall t, fp_mask_ids fp t = [];
  fe_pols : pool_ok (policies im);
  fe_masks : pool_ok (fp_mask_types im);
  fe_bounded : mt_bounded (fp_mask_types im);
  fe_positive : mt_positive (fp_mask_types im)
}.

Lemma fp_inv_empty {K} `{Countable K} (F : fp_family K) ty v6 pols masks other :
  pool_ok pols -> pool_ok masks -> mt_bounded masks -> (forall k, other k = 0) -> fp_inv F ty v6 pols masks ∅ [] [] other.
Proof.
  intros H1 H2 H3 H4. split; try assumption.
  - constructor.
  - set_solver.
  - set_solver.
  - set_solver.
  - set_solver.
  - intros k ids Hk. now rewrite lookup_empty in Hk.
  - split; [constructor|set_solver].
  - reflexivity.
  - intros k. rewrite H4. lia.
  - intros k. rewrite H4. unfold mask_users, mt_refs. cbn. destruct (pool_lookup masks k) as [mte|] eqn:E; [|lia].
    specialize (H3 k mte E). lia.
Qed.

Lemma fp_empty_rel im fp : fp_empty im fp -> fp_rel im fp ∅.
Proof.
  intros [E4 E6 Em Hp Hm Hb _]. split; [intros i p Hi; now rewrite lookup_empty in Hi|]. exists [], []. split.
  - split; [exists ∅|exists ∅]; (split; [assumption|]); rewrite Em; now apply fp_inv_empty.
  - intros i. rewrite lookup_empty. split; [now intros [? ?]|set_solver].
Qed.

(** ** Lookups *)

(** The words of the tuple of a packet. *)
Definition ip4_packet_ok (pr la ra lp rp : Z) : Prop := is_u 8 pr /\ is_u 32 la /\ is_u 32 ra /\ is_u 16 lp /\ is_u 16 rp.
Definition ip6_packet_ok (la ra : ip46_address_t) (lp rp pr : Z) : Prop :=
  ip46_ok la /\ ip46_ok ra /\ is_u 16 lp /\ is_u 16 rp /\ is_u 8 pr.

Lemma pack_addrs_range a b : is_u 32 a -> is_u 32 b -> is_u 64 (pack_addrs a b).
Proof. intros Ha Hb. unfold pack_addrs. rewrite lor_shiftl_add by (lia || assumption). unfold is_u in *. lia. Qed.

Lemma pack_addrs_low a b : is_u 32 a -> u32 (pack_addrs a b) = a.
Proof.
  intros Ha. unfold pack_addrs, u32. rewrite lor_shiftl_add by (lia || assumption). rewrite Z.mod_add by lia. now apply Z.mod_small.
Qed.

Lemma pack_addrs_high a b : is_u 32 a -> Z.shiftr (pack_addrs a b) 32 = b.
Proof.
  intros Ha. unfold pack_addrs. rewrite lor_shiftl_add, Z.shiftr_div_pow2, Z.div_add by (lia || assumption).
  rewrite Z.div_small by exact Ha. lia.
Qed.

Lemma pack_ports_low a b : is_u 16 a -> u16 (pack_ports a b) = a.
Proof.
  intros Ha. unfold pack_ports, u16. rewrite lor_shiftl_add by (lia || assumption). rewrite Z.mod_add by lia. now apply Z.mod_small.
Qed.

Lemma pack_ports_high a b : is_u 16 a -> Z.shiftr (pack_ports a b) 16 = b.
Proof.
  intros Ha. unfold pack_ports. rewrite lor_shiftl_add, Z.shiftr_div_pow2, Z.div_add by (lia || assumption).
  rewrite Z.div_small by exact Ha. lia.
Qed.

(** The fast-path rule of an IPv4 policy is the rule of the linear search. *)
Lemma out4_tuple_rule p tuple pr la ra lp rp :
  ip4_packet_ok pr la ra lp rp -> p_is_ipv6 p = false ->
  single_rule_out_match_5tuple p (ipsec_fp_5tuple_from_ip4_range tuple la ra lp rp pr) = out4_rule p pr la ra lp rp.
Proof.
  intros (Hpr & Hla & Hra & Hlp & Hrp) H6. unfold single_rule_out_match_5tuple, out4_rule, addr4_match. rewrite H6.
  set (t := ipsec_fp_5tuple_from_ip4_range tuple la ra lp rp pr).
  assert (ft_laddr t = host_to_net_u32 la) as -> by exact (pack_addrs_low _ _ (host_to_net_u32_range la)).
  assert (ft_raddr t = host_to_net_u32 ra) as -> by exact (pack_addrs_high _ _ (host_to_net_u32_range la)).
  change (ft_protocol t) with pr. change (ft_is_ipv6 t) with 0. change (negb (Z.b2z false =? 0)) with false. cbv iota.
  rewrite !net_host_u32 by assumption.
  assert (policy_ports_match p pr (ft_lport t) (ft_rport t) = policy_ports_match p pr lp rp) as ->.
  { unfold policy_ports_match. destruct (has_ports pr) eqn:Ep; [|reflexivity].
    assert (ft_ports t = pack_ports lp rp) as Et by (unfold t, ipsec_fp_5tuple_from_ip4_range; now rewrite Ep).
    unfold ft_lport, ft_rport. now rewrite Et, pack_ports_low, pack_ports_high. }
  destruct (proto_match p pr); cbn [negb andb]; [|reflexivity].
  now rewrite (andb_comm (in_range la _ _)).
Qed.

Lemma out4_tuple_ok tuple pr la ra lp rp :
  is_u 8 (ft_action tuple) -> ip4_packet_ok pr la ra lp rp ->
  packet_ok (ipsec_fp_5tuple_from_ip4_range tuple la ra lp rp pr).
Proof.
  intros Hact (Hpr & Hla & Hra & Hlp & Hrp). set (t := ipsec_fp_5tuple_from_ip4_range tuple la ra lp rp pr).
  assert (is_u 32 (ft_ports t)) as Hports.
  { unfold t, ipsec_fp_5tuple_from_ip4_range. cbn. destruct (has_ports pr); [now apply pack_ports_range|split; [lia|reflexivity]]. }
  assert (is_u 64 0) as H0 by (split; [lia|reflexivity]).
  assert (is_u 64 (ft_w3 t)) as Hw3 by exact (pack_addrs_range _ _ (host_to_net_u32_range la) (host_to_net_u32_range ra)).
  split; [split; assumption|exact H0..|exact Hw3].
Qed.

(** Lookups of the fast path, on the map. *)
Definition map_positive (a : gmap Z ipsec_policy_t) : Prop := forall i p, a !! i = Some p -> prio_positive p.

Lemma rel_best im fp a l l' rule P r :
  fp_rel im fp a -> (forall i, is_Some (a !! i) <-> i ∈ l ++ l') ->
  (forall i, i ∈ l -> rule (policy_at im i) <-> P (policy_at im i)) -> (forall i, i ∈ l' -> ~ P (policy_at im i)) ->
  (forall p k, P (p <| p_fp_mask_type_id := k |>) <-> P p) ->
  best_policy_of im l rule r -> map_best a P r.
Proof.
  intros Hrel Hd Hl Hl' Hk Hb.
  assert (forall i p, a !! i = Some p -> (P p <-> P (policy_at im i)) /\ p_priority p = p_priority (policy_at im i) /\ (P p -> i ∈ l)) as Hst.
  { intros i p Hi. destruct (fr_stored _ _ _ Hrel i p Hi) as [k E]. rewrite E, Hk. repeat split; auto. intros HP.
    assert (i ∈ l ++ l') as Hin by (apply Hd; eauto). apply elem_of_app in Hin as [|Hin]; [assumption|].
    destruct (Hl' i Hin). now rewrite E, Hk. }
  destruct r as [i|]; cbn in *.
  - destruct Hb as (Hi & Hr & Hmax). assert (is_Some (a !! i)) as [p Hp] by (apply Hd; set_solver).
    destruct (Hst i p Hp) as (EP & Epr & _). exists p. split; [exact Hp|]. split; [apply EP, Hl; assumption|].
    intros j q Hq HP. destruct (Hst j q Hq) as (EPj & Eprj & Hj). rewrite Epr, Eprj. apply Hmax; [auto|]. apply Hl; [auto|]. now apply EPj.
  - intros j q Hq HP. destruct (Hst j q Hq) as (EPj & _ & Hj). apply (Hb j (Hj HP)). apply Hl; [auto|]. now apply EPj.
Qed.

Lemma rel_prio im fp a l4 l6 i :
  fp_rel im fp a -> map_positive a -> (forall j, is_Some (a !! j) <-> j ∈ l4 ++ l6) -> i ∈ l4 ++ l6 -> prio_positive (policy_at im i).
Proof.
  intros Hrel Hpos Hd Hi. apply Hd in Hi as [p Hp]. destruct (fr_stored _ _ _ Hrel i p Hp) as [k ->]. exact (Hpos i p Hp).
Qed.

(** An outbound IPv6 policy applies to the packet. *)
Definition out6_packet (la ra : ip46_address_t) (lp rp pr : Z) (p : ipsec_policy_t) : Prop :=
  (p_protocol p = IPSEC_POLICY_PROTOCOL_ANY \/ p_protocol p = pr) /\
  ip6_num (ar_start (p_laddr p)) <= ip6_num la <= ip6_num (ar_stop (p_laddr p)) /\
  ip6_num (ar_start (p_raddr p)) <= ip6_num ra <= ip6_num (ar_stop (p_raddr p)) /\
  (pr = IP_PROTOCOL_TCP \/ pr = IP_PROTOCOL_UDP \/ pr = IP_PROTOCOL_SCTP ->
   pr_start (p_lport p) <= lp <= pr_stop (p_lport p) /\ pr_start (p_rport p) <= rp <= pr_stop (p_rport p)).

Lemma out6_tuple_rule p tuple la ra lp rp pr :
  ip6_packet_ok la ra lp rp pr -> p_is_ipv6 p = true ->
  single_rule_out_match_5tuple p (ipsec_fp_5tuple_from_ip6_range tuple la ra lp rp pr) = true <-> out6_packet la ra lp rp pr p.
Proof.
  intros (Hla & Hra & Hlp & Hrp & Hpr) H6. unfold single_rule_out_match_5tuple, out6_packet. rewrite H6.
  set (t := ipsec_fp_5tuple_from_ip6_range tuple la ra lp rp pr).
  assert (ft_ip6_laddr t = la) as -> by now destruct la. assert (ft_ip6_raddr t = ra) as -> by now destruct ra.
  change (ft_protocol t) with pr. change (negb (Z.b2z true =? ft_is_ipv6 t)) with false. cbv iota.
  assert (ft_lport t = lp) as -> by exact (pack_ports_low lp rp Hlp). assert (ft_rport t = rp) as -> by exact (pack_ports_high lp rp Hlp).
  unfold proto_match. destruct (negb _) eqn:E.
  - rewrite negb_true_iff, orb_false_iff, !Z.eqb_neq in E. intuition congruence.
  - rewrite negb_false_iff, orb_true_iff, !Z.eqb_eq in E.
    rewrite !andb_true_iff, !ip6_compare_not_lt, policy_ports_match_iff. tauto.
Qed.

Lemma out6_tuple_ok tuple la ra lp rp pr :
  is_u 8 (ft_action tuple) -> ip6_packet_ok la ra lp rp pr ->
  packet_ok (ipsec_fp_5tuple_from_ip6_range tuple la ra lp rp pr).
Proof.
  intros Hact ([La0 La1] & [Ra0 Ra1] & Hlp & Hrp & Hpr). set (t := ipsec_fp_5tuple_from_ip6_range tuple la ra lp rp pr).
  assert (is_u 32 (ft_ports t)) as Hports by exact (pack_ports_range _ _ Hlp Hrp).
  split; [split; assumption|assumption..].
Qed.

(** The fast path is what the lookup of one packet uses. *)
Lemma out_match_fast hash im spd tuple fid pr la ra lp rp fc tbl :
  fp_spd_ipv4_out_is_enabled im = true -> ip4_out_lookup_hash_idx (fp_spd spd) <> INDEX_INVALID ->
  pool_lookup (fp_ip4_lookup_hashes im) (ip4_out_lookup_hash_idx (fp_spd spd)) = Some tbl ->
  snd (ipsec_output_policy_match hash im spd tuple fid pr la ra lp rp fc) =
  fp_match_1 fp_ip4 im tbl (fp_mask_ids (fp_spd spd) IP4_OUTBOUND) false single_rule_out_match_5tuple
    (ipsec_fp_5tuple_from_ip4_range tuple la ra lp rp pr).
Proof.
  intros He Hi Ht. unfold ipsec_output_policy_match. rewrite He, (proj2 (Z.eqb_neq _ _) Hi). cbn [andb negb].
  replace tbl with (fp_table fp_ip4 im (ip4_out_lookup_hash_idx (fp_spd spd))) by (now apply fp_table_lookup).
  destruct (has_ports pr); reflexivity.
Qed.

Lemma out6_match_fast im spd tuple la ra lp rp pr tbl :
  fp_spd_ipv6_out_is_enabled im = true -> ip6_out_lookup_hash_idx (fp_spd spd) <> INDEX_INVALID ->
  pool_lookup (fp_ip6_lookup_hashes im) (ip6_out_lookup_hash_idx (fp_spd spd)) = Some tbl ->
  ipsec6_output_policy_match im spd tuple la ra lp rp pr =
  fp_match_1 fp_ip6 im tbl (fp_mask_ids (fp_spd spd) IP6_OUTBOUND) false single_rule_out_match_5tuple
    (ipsec_fp_5tuple_from_ip6_range tuple la ra lp rp pr).
Proof.
  intros He Hi Ht. unfold ipsec6_output_policy_match. rewrite He, (proj2 (Z.eqb_neq _ _) Hi). cbn [andb negb].
  replace tbl with (fp_table fp_ip6 im (ip6_out_lookup_hash_idx (fp_spd spd))) by (now apply fp_table_lookup).
  reflexivity.
Qed.

(** ** Removal of a policy that is not there *)

(** Policies that are the same rule have the same key. *)
Lemma same_rule_key4 q p : same_rule q p -> p_is_ipv6 p = false -> out_key fp_ip4 q = out_key fp_ip4 p.
Proof.
  intros [_ _ Ei [A1 A2] [A3 A4] Ep El Er _ _] H6. rewrite H6 in *. cbn in A1, A2, A3, A4.
  unfold out_key, out_mask. cbn [ff_mask ff_key fp_ip4].
  unfold ipsec_fp_ip4_get_policy_mask, fp_set_spi_mask, ipsec_fp_get_policy_ports_mask, ipsec_fp_get_policy_5tuple, tuple_set_addrs.
  cbn [andb]. rewrite Ei, H6, Ep, El, Er, A1, A2, A3, A4. reflexivity.
Qed.

Lemma same_rule_key6 q p : same_rule q p -> p_is_ipv6 p = true -> out_key fp_ip6 q = out_key fp_ip6 p.
Proof.
  intros [_ _ Ei [A1 A2] [A3 A4] Ep El Er _ _] H6. rewrite H6 in *. cbn in A1, A2, A3, A4.
  unfold out_key, out_mask. cbn [ff_mask ff_key fp_ip6].
  unfold ipsec_fp_ip6_get_policy_mask, fp_set_spi_mask, ipsec_fp_get_policy_ports_mask, ipsec_fp_get_policy_5tuple, tuple_set_addrs.
  cbn [andb]. rewrite Ei, H6, Ep, El, Er, A1, A2, A3, A4. reflexivity.
Qed.

(** A removal fails when the bucket of the key has no equal policy. *)
Lemma del_finds {K} `{Countable K} (F : fp_family K) ty v6 `{!FpOutbound F ty v6} im fp p tbl inst other i :
  pool_lookup (ff_tables F im) (ff_hash_idx F fp false) = Some tbl ->
  fp_inv F ty v6 (policies im) (fp_mask_types im) tbl (fp_mask_ids fp ty) inst other ->
  p_type p = ty -> i ∈ inst -> out_key F (policy_at im i) = out_key F p -> ipsec_policy_is_equal (policy_at im i) p = true ->
  fp_del_policy F im fp p <> None.
Proof.
  intros Ht Hinv Hty Hi Ek Heq. destruct (fi_in _ _ _ _ _ _ _ _ _ Hinv i Hi) as (ids & Hk & Hids).
  change (pol (policies im) i) with (policy_at im i) in Hk. rewrite Ek in Hk. unfold fp_del_policy.
  rewrite (fo_inbound p Hty). cbv zeta. rewrite (fp_table_lookup F im _ tbl Ht), (fo_mask (F := F) (ty := ty) (v6 := v6) im p).
  change (ff_key F (ipsec_fp_get_policy_5tuple im p false) (out_mask F p)) with (out_key F p). rewrite Hk.
  destruct (vec_search_complete (fun j => ipsec_policy_is_equal (policy_at im j) p) ids i Hids Heq) as [n En]. now rewrite En.
Qed.

(** The list that holds a policy of a family. *)
Lemma rel_inst im fp a l4 l6 i q :
  fp_rel im fp a -> fp_out_inv im fp l4 l6 -> (forall j, is_Some (a !! j) <-> j ∈ l4 ++ l6) -> a !! i = Some q ->
  (p_is_ipv6 q = false -> i ∈ l4) /\ (p_is_ipv6 q = true -> i ∈ l6).
Proof.
  intros Hrel [(t4 & _ & H4) (t6 & _ & H6)] Hd Hq. destruct (fr_stored _ _ _ Hrel i q Hq) as [k Ek].
  assert (p_is_ipv6 (pol (policies im) i) = p_is_ipv6 q) as Ev by (change (pol (policies im) i) with (policy_at im i); now rewrite Ek).
  assert (i ∈ l4 ++ l6) as [Hi|Hi]%elem_of_app by (apply Hd; eauto).
  - destruct (fi_out _ _ _ _ _ _ _ _ _ H4 i Hi) as (_ & _ & E). split; [auto|congruence].
  - destruct (fi_out _ _ _ _ _ _ _ _ _ H6 i Hi) as (_ & _ & E). split; [congruence|auto].
Qed.

Lemma del_fails im fp a p :
  fp_rel im fp a -> out_either p ->
  ipsec_fp_add_del_policy im fp p false = None -> forall i q, a !! i = Some q -> ~ same_rule q p.
Proof.
  intros Hrel Hp Hnone i q Hq Hs. pose proof Hrel as [_ (l4 & l6 & Hinv & Hd)].
  destruct (rel_inst im fp a l4 l6 i q Hrel Hinv Hd Hq) as [Hi4 Hi6]. destruct Hinv as [(t4 & E4 & H4) (t6 & E6 & H6)].
  pose proof (proj2 (is_equal_removable q p) (same_rule_removable q p Hs)) as Heq.
  rewrite <- (rel_equal im fp a i p q Hrel Hq) in Heq. destruct (fr_stored _ _ _ Hrel i q Hq) as [k Ek].
  assert (same_rule (policy_at im i) p) as Hs' by (rewrite Ek; destruct Hs; now split).
  unfold ipsec_fp_add_del_policy in Hnone. pose proof (sr_family _ _ Hs) as Ev.
  destruct Hp as [(_ & Hty & Hv)|(_ & Hty & Hv)]; rewrite Hv in Hnone, Ev.
  - apply (del_finds fp_ip4 IP4_OUTBOUND false im fp p t4 l4 _ i E4 H4 Hty (Hi4 Ev) (same_rule_key4 _ _ Hs' Hv) Heq).
    unfold ipsec_fp_ip4_del_policy in Hnone. now destruct (fp_del_policy fp_ip4 im fp p) as [[]|].
  - apply (del_finds fp_ip6 IP6_OUTBOUND true im fp p t6 l6 _ i E6 H6 Hty (Hi6 Ev) (same_rule_key6 _ _ Hs' Hv) Heq).
    unfold ipsec_fp_ip6_del_policy in Hnone. now destruct (fp_del_policy fp_ip6 im fp p) as [[]|].
Qed.

(** ** Runs *)

Lemma fp_step_sim im0 s op s' a :
  fp_rel (fst s) (snd s) a -> mask_counts im0 (fst s) a -> fp_step s op s' ->
  exists a', policy_map_step a op a' /\ fp_rel (fst s') (snd s') a' /\ mask_counts im0 (fst s') a'.
Proof.
  intros Hrel Hc Hs. revert Hrel Hc. destruct Hs as [im fp p im' fp' i Hp Hroom Hlen He|im fp p im' fp' i Hp He|im fp p Hp He]; cbn [fst snd]; intros Hrel Hc.
  - destruct (sim_add _ _ _ _ _ _ _ Hrel Hp Hroom Hlen He) as (Hn & Hr & Hc'). exists (<[i := p]> a). split; [now constructor|auto].
  - destruct (sim_del _ _ _ _ _ _ _ Hrel Hp He) as (j & q & Hj & Heq & Hr & Hc'). exists (delete j a).
    split; [apply (spec_del a j p q); [exact Hj|now apply is_equal_removable]|auto].
  - exists a. split; [constructor; exact (del_fails im fp a p Hrel Hp He)|now split].
Qed.

Lemma fp_run_sim im0 s ops s' a :
  fp_rel (fst s) (snd s) a -> mask_counts im0 (fst s) a -> labelled fp_step s ops s' ->
  exists a', labelled policy_map_step a ops a' /\ fp_rel (fst s') (snd s') a' /\ mask_counts im0 (fst s') a'.
Proof.
  intros Hrel Hc Hrun. revert a Hrel Hc. induction Hrun as [s|s1 s2 s3 op ops Hs Hr IH]; intros a Ha Hc; [exists a; split; [constructor|now split]|].
  destruct (fp_step_sim _ _ _ _ _ Ha Hc Hs) as (a2 & Hs2 & Ha2 & Hc2). destruct (IH a2 Ha2 Hc2) as (a3 & Hr3 & Ha3 & Hc3).
  exists a3. split; [now apply (lab_cons _ a a2)|now split].
Qed.

Lemma mask_counts_empty im : mt_positive (fp_mask_types im) -> mask_counts im im ∅.
Proof. intros Hp. split; [exact Hp|]. intros k. rewrite dom_empty_L, elements_empty. change (mask_users (policies im) [] k) with 0. lia. Qed.

(** ** Properties *)

(** C39 Every history of additions and removals of outbound policies, IPv4 and IPv6,
    succeeding or not, is the same history on a map of policies: an addition inserts its
    policy at a fresh index, the one returned; a removal deletes a policy that is the same
    rule (in IPv6 up to the last eight bytes of the remote end, which the code does not
    compare) and fails only when the rule is not there.  At the end the tables hold the
    policies of the map, each in the bucket of its key by priority, and every mask type
    has exactly one reference more than at the start for each policy that uses it and is
    freed with the last one. *)
Theorem fast_path_refines_map im fp ops im' fp' :
  fp_empty im fp -> labelled fp_step (im, fp) ops (im', fp') ->
  exists a, labelled policy_map_step ∅ ops a /\ fp_rel im' fp' a /\ mask_counts im im' a.
Proof.
  intros He Hr. exact (fp_run_sim im (im, fp) ops (im', fp') ∅ (fp_empty_rel im fp He) (mask_counts_empty im (fe_positive _ _ He)) Hr).
Qed.

(** C40 With the fast path, the outbound IPv4 lookup returns an installed policy of highest
    priority among those whose ranges contain the packet, and none exactly when none
    does: it agrees with the specification of the linear search. *)
Theorem fast_path_ip4_best hash im spd a tuple fid pr la ra lp rp fc :
  fp_rel im (fp_spd spd) a -> map_positive a ->
  fp_spd_ipv4_out_is_enabled im = true -> ip4_out_lookup_hash_idx (fp_spd spd) <> INDEX_INVALID ->
  is_u 8 (ft_action tuple) -> ip4_packet_ok pr la ra lp rp ->
  map_best a (fun p => p_is_ipv6 p = false /\ out4_packet pr la ra lp rp p)
    (snd (ipsec_output_policy_match hash im spd tuple fid pr la ra lp rp fc)).
Proof.
  intros Hrel Hpos He Hi Hact Hpk. pose proof Hrel as [_ (l4 & l6 & [(t4 & E4 & H4) (t6 & E6 & H6)] & Hd)].
  rewrite (out_match_fast hash im spd tuple fid pr la ra lp rp fc t4 He Hi E4).
  eapply (rel_best im (fp_spd spd) a l4 l6); [exact Hrel|exact Hd| | | |apply (fp_match_1_best fp_ip4 IP4_OUTBOUND false _ _ _ _ _ H4)].
  - intros i Hin. destruct (fi_out _ _ _ _ _ _ _ _ _ H4 i Hin) as (_ & _ & Hv). change (pol (policies im) i) with (policy_at im i) in Hv.
    rewrite out4_tuple_rule, out4_rule_iff by assumption. tauto.
  - intros i Hin [Hv _]. destruct (fi_out _ _ _ _ _ _ _ _ _ H6 i Hin) as (_ & _ & Hv'). unfold pol, policy_at in *. congruence.
  - reflexivity.
  - intros i Hin. apply (rel_prio im (fp_spd spd) a l4 l6); auto. apply elem_of_app. now left.
  - now apply out4_tuple_ok.
Qed.

(** The same for IPv6: the masks of 128-bit ranges are complete. *)
Theorem fast_path_ip6_best im spd a tuple la ra lp rp pr :
  fp_rel im (fp_spd spd) a -> map_positive a ->
  fp_spd_ipv6_out_is_enabled im = true -> ip6_out_lookup_hash_idx (fp_spd spd) <> INDEX_INVALID ->
  is_u 8 (ft_action tuple) -> ip6_packet_ok la ra lp rp pr ->
  map_best a (fun p => p_is_ipv6 p = true /\ out6_packet la ra lp rp pr p) (ipsec6_output_policy_match im spd tuple la ra lp rp pr).
Proof.
  intros Hrel Hpos He Hi Hact Hpk. pose proof Hrel as [_ (l4 & l6 & [(t4 & E4 & H4) (t6 & E6 & H6)] & Hd)].
  rewrite (out6_match_fast im spd tuple la ra lp rp pr t6 He Hi E6).
  assert (forall j, is_Some (a !! j) <-> j ∈ l6 ++ l4) as Hd' by (intros j; rewrite Hd, !elem_of_app; tauto).
  eapply (rel_best im (fp_spd spd) a l6 l4); [exact Hrel|exact Hd'| | | |apply (fp_match_1_best fp_ip6 IP6_OUTBOUND true _ _ _ _ _ H6)].
  - intros i Hin. destruct (fi_out _ _ _ _ _ _ _ _ _ H6 i Hin) as (_ & _ & Hv). change (pol (policies im) i) with (policy_at im i) in Hv.
    rewrite out6_tuple_rule by assumption. tauto.
  - intros i Hin [Hv _]. destruct (fi_out _ _ _ _ _ _ _ _ _ H4 i Hin) as (_ & _ & Hv'). unfold pol, policy_at in *. congruence.
  - reflexivity.
  - intros i Hin. apply (rel_prio im (fp_spd spd) a l4 l6); auto. apply elem_of_app. now right.
  - now apply out6_tuple_ok.
Qed.

(** Removing an outbound IPv4 policy from the fast path fails exactly when no
    installed policy is equal to it; otherwise it removes one that is. *)
Theorem fast_path_ip4_delete im fp a p :
  fp_rel im fp a -> out_policy IP4_OUTBOUND false p ->
  match ipsec_fp_add_del_policy im fp p false with
  | None => forall i q, a !! i = Some q -> ipsec_policy_is_equal q p = false
  | Some (im', fp', _) =>
      exists i q, a !! i = Some q /\ ipsec_policy_is_equal q p = true /\ fp_rel im' fp' (delete i a)
  end.
Proof.
  intros Hrel Hp. destruct (ipsec_fp_add_del_policy im fp p false) as [[[im' fp'] n]|] eqn:E.
  - destruct (sim_del im fp im' fp' a p n Hrel (or_introl Hp) E) as (i & q & Hq & Heq & Hr & _). eauto.
  - intros i q Hq. apply not_true_iff_false. rewrite is_equal_removable. unfold removable.
    destruct Hp as (Hok & Hty & H6). rewrite H6. exact (del_fails im fp a p Hrel (or_introl (conj Hok (conj Hty H6))) E i q Hq).
Qed.

(** ** Examples *)

(** SPD 1 with both outbound fast paths. *)
Definition fpx0 : ipsec_main_t :=
  fst (ipsec_add_del_spd
    (ipsec_main_init <| fp_spd_ipv4_out_is_enabled := true |> <| fp_spd_ipv6_out_is_enabled := true |>
       <| fp_ip4_hashes_max := 2 |> <| fp_ip6_hashes_max := 2 |>) 1 true).

Definition ip6_range (lo hi : Z) : ip46_address_range_t :=
  mk_arange (mk_ip46 0x20 (host_to_net_u64 lo)) (mk_ip46 0x20 (host_to_net_u64 hi)).

Definition policy6_ex (priority lo hi : Z) : ipsec_policy_t :=
  mk_policy 1 priority IP6_OUTBOUND true (ip6_range lo hi) (ip6_range 0 (2 ^ 64 - 1)) IPSEC_POLICY_PROTOCOL_ANY
    (mk_prange 0 65535) (mk_prange 0 65535) ACTION_BYPASS 0 0 0.

Definition fpx_add (s : ipsec_main_t * ipsec_spd_fp_t) (p : ipsec_policy_t) : ipsec_main_t * ipsec_spd_fp_t :=
  match ipsec_fp_add_del_policy (fst s) (snd s) p true with Some (im, fp, _) => (im, fp) | None => s end.

Definition fpx_index (s : ipsec_main_t * ipsec_spd_fp_t) (p : ipsec_policy_t) : Z :=
  match ipsec_fp_add_del_policy (fst s) (snd s) p true with Some (_, _, i) => i | None => 0 end.

Definition fpx1 := (fpx0, fp_spd (spd_at fpx0 0)).
Definition fpx2 := fpx_add fpx1 (policy_ex 10 100 200 ACTION_BYPASS).
Definition fpx3 := fpx_add fpx2 (policy_ex 20 150 300 ACTION_DISCARD).
Definition fpx4 := fpx_add fpx3 (policy6_ex 30 100 200).

(** Two removals after that: the first policy, and one that is not there. *)
Definition fpx_del (s : ipsec_main_t * ipsec_spd_fp_t) (p : ipsec_policy_t) : ipsec_main_t * ipsec_spd_fp_t :=
  match ipsec_fp_add_del_policy (fst s) (snd s) p false with Some (im, fp, _) => (im, fp) | None => s end.

Definition fpx5 := fpx_del fpx4 (policy_ex 10 100 200 ACTION_BYPASS).

Definition fpx_ops : list fp_op :=
  [FpAdd (policy_ex 10 100 200 ACTION_BYPASS) 0; FpAdd (policy_ex 20 150 300 ACTION_DISCARD) 1; FpAdd (policy6_ex 30 100 200) 2;
   FpDel (policy_ex 10 100 200 ACTION_BYPASS); FpDel (policy_ex 10 100 200 ACTION_BYPASS)].

Lemma fp_step_fpx s p :
  out_either p -> mt_room (fp_mask_types (fst s)) -> pool_len (policies (fst s)) < 2 ^ 32 - 1 ->
  fp_step s (FpAdd p (fpx_index s p)) (fpx_add s p).
Proof.
  intros Hp Hr Hl. destruct s as [im fp]. unfold fpx_add, fpx_index. cbn [fst snd] in *. unfold ipsec_fp_add_del_policy.
  destruct (if p_is_ipv6 p then _ else _) as [[im' fp'] i] eqn:E.
  apply (fp_step_add im fp p im' fp' i); [assumption..|]. unfold ipsec_fp_add_del_policy. now rewrite E.
Qed.

Lemma mt_room_slots (masks : mask_pool) :
  forallb (fun sl => mte_refcount (snd sl) <? 2 ^ 32 - 1) (pool_slots masks) = true -> mt_room masks.
Proof.
  intros Hf k. unfold mt_refs, pool_lookup, vec_elt. destruct (k <? 0); [lia|].
  destruct (pool_slots masks !! Z.to_nat k) as [[[|] mte]|] eqn:E; try lia.
  rewrite forallb_forall in Hf. apply Z.ltb_lt. apply (Hf (false, mte)). apply list_elem_of_In. exact (list_elem_of_lookup_2 _ _ _ E).
Qed.

Ltac range_side := vm_compute; split; [intros ?; discriminate|reflexivity].

Lemma fpx_policies :
  out_either (policy_ex 10 100 200 ACTION_BYPASS) /\ out_either (policy_ex 20 150 300 ACTION_DISCARD) /\ out_either (policy6_ex 30 100 200).
Proof.
  split; [|split]; [left|left|right]; (split; [|split; reflexivity]); split; try range_side; split; range_side.
Qed.

Lemma fpx1_empty : fp_empty (fst fpx1) (snd fpx1).
Proof.
  assert (policies fpx0 = pool_empty) as E1 by reflexivity. assert (fp_mask_types fpx0 = pool_empty) as E2 by reflexivity.
  split; [vm_compute; reflexivity..|intros t; vm_compute; reflexivity| | | |]; unfold fpx1; cbn [fst snd]; rewrite ?E1, ?E2.
  - apply pool_empty_ok.
  - apply pool_empty_ok.
  - intros k mte Hk. now rewrite pool_empty_lookup in Hk.
  - intros k mte Hk. now rewrite pool_empty_lookup in Hk.
Qed.

Lemma fp_step_fpx_del s p : out_either p -> fp_step s (FpDel p) (fpx_del s p).
Proof.
  intros Hp. destruct s as [im fp]. unfold fpx_del. cbn [fst snd].
  destruct (ipsec_fp_add_del_policy im fp p false) as [[[im' fp'] i]|] eqn:E; [exact (fp_step_del _ _ _ _ _ _ Hp E)|exact (fp_step_del_fails _ _ _ Hp E)].
Qed.

Lemma fpx_run : labelled fp_step fpx1 fpx_ops (fpx_del fpx5 (policy_ex 10 100 200 ACTION_BYPASS)).
Proof.
  destruct fpx_policies as (H1 & H2 & H3).
  apply (lab_cons _ _ fpx2); [apply fp_step_fpx; [exact H1|apply mt_room_slots; vm_compute; reflexivity|vm_compute; reflexivity]|].
  apply (lab_cons _ _ fpx3); [apply fp_step_fpx; [exact H2|apply mt_room_slots; vm_compute; reflexivity|vm_compute; reflexivity]|].
  apply (lab_cons _ _ fpx4); [apply fp_step_fpx; [exact H3|apply mt_room_slots; vm_compute; reflexivity|vm_compute; reflexivity]|].
  apply (lab_cons _ _ fpx5); [exact (fp_step_fpx_del fpx4 _ H1)|]. eapply lab_cons; [exact (fp_step_fpx_del fpx5 _ H1)|]. apply lab_nil.
Qed.

Definition fpx_map : gmap Z ipsec_policy_t :=
  <[2 := policy6_ex 30 100 200]> (<[1 := policy_ex 20 150 300 ACTION_DISCARD]> (<[0 := policy_ex 10 100 200 ACTION_BYPASS]> ∅)).

Lemma fpx_add_rel s a p i :
  fp_rel (fst s) (snd s) a -> out_either p -> mt_room (fp_mask_types (fst s)) -> pool_len (policies (fst s)) < 2 ^ 32 - 1 ->
  fpx_index s p = i -> fp_rel (fst (fpx_add s p)) (snd (fpx_add s p)) (<[i := p]> a).
Proof.
  intros Hrel Hp Hr Hl Hi. destruct s as [im fp]. unfold fpx_add, fpx_index in *. cbn [fst snd] in *.
  destruct (ipsec_fp_add_del_policy im fp p true) as [[[im' fp'] j]|] eqn:E; [|easy]. subst j. cbn [fst snd].
  exact (proj1 (proj2 (sim_add _ _ _ _ _ _ _ Hrel Hp Hr Hl E))).
Qed.

Lemma fpx_rel : fp_rel (fst fpx4) (snd fpx4) fpx_map.
Proof.
  destruct fpx_policies as (H1 & H2 & H3). unfold fpx_map.
  apply fpx_add_rel; [|exact H3|apply mt_room_slots; vm_compute; reflexivity|vm_compute; reflexivity..].
  apply fpx_add_rel; [|exact H2|apply mt_room_slots; vm_compute; reflexivity|vm_compute; reflexivity..].
  apply fpx_add_rel; [|exact H1|apply mt_room_slots; vm_compute; reflexivity|vm_compute; reflexivity..].
  apply fp_empty_rel. exact fpx1_empty.
Qed.

Lemma fpx_positive : map_positive fpx_map.
Proof.
  intros i p. unfold fpx_map. rewrite !lookup_insert_Some, lookup_empty. intros [[_ <-]|[_ [[_ <-]|[_ [[_ <-]|[_ ?]]]]]]; [split; reflexivity..|easy].
Qed.

Definition fpx_spd : ipsec_spd_t := mk_spd 1 (fun _ => []) (snd fpx4).

Lemma fpx_spd_rel : fp_rel (fst fpx4) (fp_spd fpx_spd) fpx_map.
Proof. unfold fpx_spd. cbn [fp_spd]. exact fpx_rel. Qed.

Lemma fast_path_refines_map_witness :
  let s := fpx_del fpx5 (policy_ex 10 100 200 ACTION_BYPASS) in
  pool_is_free_index (policies (fst s)) 0 = true /\
  exists a, labelled policy_map_step ∅ fpx_ops a /\ fp_rel (fst s) (snd s) a /\ mask_counts (fst fpx1) (fst s) a.
Proof.
  cbv zeta. split; [vm_compute; reflexivity|].
  apply (fast_path_refines_map (fst fpx1) (snd fpx1)); [exact fpx1_empty|]. rewrite <- !surjective_pairing. exact fpx_run.
Defined.

Lemma fast_path_ip4_best_witness :
  map_best fpx_map (fun p => p_is_ipv6 p = false /\ out4_packet 17 160 5 1 2 p)
    (snd (ipsec_output_policy_match ipsec4_hash_16_8 (fst fpx4) fpx_spd tuple_zero 0 17 160 5 1 2 false)) /\
  snd (ipsec_output_policy_match ipsec4_hash_16_8 (fst fpx4) fpx_spd tuple_zero 0 17 160 5 1 2 false) = Some 1.
Proof.
  split; [|vm_compute; reflexivity].
  apply fast_path_ip4_best; [exact fpx_spd_rel|exact fpx_positive|vm_compute; reflexivity|vm_compute; discriminate|range_side|].
  repeat (split; [range_side|]); range_side.
Defined.

Lemma fast_path_ip6_best_witness :
  let la := mk_ip46 0x20 (host_to_net_u64 150) in
  let ra := mk_ip46 0x20 (host_to_net_u64 7) in
  map_best fpx_map (fun p => p_is_ipv6 p = true /\ out6_packet la ra 1 2 17 p)
    (ipsec6_output_policy_match (fst fpx4) fpx_spd tuple_zero la ra 1 2 17) /\
  ipsec6_output_policy_match (fst fpx4) fpx_spd tuple_zero la ra 1 2 17 = Some 2.
Proof.
  split; [|vm_compute; reflexivity].
  apply fast_path_ip6_best; [exact fpx_spd_rel|exact fpx_positive|vm_compute; reflexivity|vm_compute; discriminate|range_side|].
  split; [split; range_side|]. split; [split; range_side|]. repeat (split; [range_side|]); range_side.
Defined.

Lemma fast_path_ip4_delete_witness :
  ipsec_fp_add_del_policy (fst fpx4) (snd fpx4) (policy_ex 10 100 201 ACTION_BYPASS) false = None /\
  forall i q, fpx_map !! i = Some q -> ipsec_policy_is_equal q (policy_ex 10 100 201 ACTION_BYPASS) = false.
Proof.
  assert (ipsec_fp_add_del_policy (fst fpx4) (snd fpx4) (policy_ex 10 100 201 ACTION_BYPASS) false = None) as E by (vm_compute; reflexivity).
  split; [exact E|].
  pose proof (fast_path_ip4_delete (fst fpx4) (snd fpx4) fpx_map (policy_ex 10 100 201 ACTION_BYPASS) fpx_rel) as H.
  rewrite E in H. apply H. split; [|split; reflexivity]. split; try range_side; split; range_side.
Defined.

(** A policy of priority 0 that applies to the packet is installed and never found. *)
Lemma fast_path_priority_zero :
  let s := fpx_add fpx1 (policy_ex 0 100 200 ACTION_DISCARD) in
  let spd := mk_spd 1 (fun _ => []) (snd s) in
  out4_rule (policy_at (fst s) 0) 17 160 5 1 2 = true /\
  snd (ipsec_output_policy_match ipsec4_hash_16_8 (fst s) spd tuple_zero 0 17 160 5 1 2 false) = None.
Proof. vm_compute. split; reflexivity. Qed.

(** Removing an IPv6 policy removes another one, whose remote range ends elsewhere. *)
Definition policy6_to (hi : Z) : ipsec_policy_t := (policy6_ex 30 100 200) <| p_raddr := ip6_range 128 hi |>.

Lemma fast_path_ip6_delete_other :
  let s := fpx_add fpx1 (policy6_to 255) in
  ip46_w1 (ar_stop (p_raddr (policy_at (fst s) 0))) <> ip46_w1 (ar_stop (p_raddr (policy6_to 253))) /\
  match ipsec_fp_add_del_policy (fst s) (snd s) (policy6_to 253) false with
  | Some (im, _, _) => pool_is_free_index (policies im) 0 = true
  | None => False
  end.
Proof. vm_compute. split; [discriminate|reflexivity]. Qed.
