(* ===== verification/BondTypes.v ===== *)
(** * Link bonding: data model

    Bond interfaces, their members and the LACP variables of each member, from
    [vnet/bonding/node.h] and [plugins/lacp/protocol.h].

    Times ([f64] seconds in the code) are whole milliseconds; 0 is a stopped timer.  A
    handler reads the clock once.  Flags ([u8] used as 0 or 1) are booleans.  The
    variables of the churn timers, which nothing reads, and the debug flag are left
    out. *)

From stdpp Require Import gmap.
From S2P Require Import Prelude NetTypes Pool.

(** ** LACP port information *)

(** [lacp_port_info_t]; the 16-bit fields hold the network order bytes as stored. *)
Record lacp_port_info_t := mk_port_info {
  pi_system_priority : Z;
  pi_system : list Z;
  pi_key : Z;
  pi_port_priority : Z;
  pi_port_number : Z;
  pi_state : Z
}.

#[export] Instance port_info_eta : Eta lacp_port_info_t := fun p =>
  mk_port_info (pi_system_priority p) (pi_system p) (pi_key p) (pi_port_priority p) (pi_port_number p) (pi_state p).

#[export] Instance port_info_eq_dec : EqDecision lacp_port_info_t.
Proof. solve_decision. Defined.

(** [lacp_state_t]: the bits of the state byte. *)
Definition LACP_STATE_LACP_ACTIVITY : Z := 1.
Definition LACP_STATE_LACP_TIMEOUT : Z := 2.
Definition LACP_STATE_AGGREGATION : Z := 4.
Definition LACP_STATE_SYNCHRONIZATION : Z := 8.
Definition LACP_STATE_COLLECTING : Z := 16.
Definition LACP_STATE_DISTRIBUTING : Z := 32.
Definition LACP_STATE_DEFAULTED : Z := 64.
Definition LACP_STATE_EXPIRED : Z := 128.
Definition LACP_STEADY_STATE : Z := 56.

(** [state & f], [state |= f] and [state &= ~f]. *)
Definition has (st f : Z) : bool := negb (Z.land st f =? 0).
Definition pi_set (f : Z) (p : lacp_port_info_t) : lacp_port_info_t := p <| pi_state := Z.lor (pi_state p) f |>.
Definition pi_clear (f : Z) (p : lacp_port_info_t) : lacp_port_info_t := p <| pi_state := Z.ldiff (pi_state p) f |>.

(** [memcmp] of everything but the state. *)
Definition port_info_same (p q : lacp_port_info_t) : bool :=
  (pi_system_priority p =? pi_system_priority q) && bool_decide (pi_system p = pi_system q) &&
  (pi_key p =? pi_key q) && (pi_port_priority p =? pi_port_priority q) && (pi_port_number p =? pi_port_number q).

(** ** States of the machines *)

Inductive lacp_rx_sm_state_t :=
  RX_INITIALIZE | RX_PORT_DISABLED | RX_EXPIRED | RX_LACP_DISABLED | RX_DEFAULTED | RX_CURRENT.
Inductive lacp_tx_sm_state_t := TX_TRANSMIT.
Inductive lacp_mux_sm_state_t := MUX_DETACHED | MUX_WAITING | MUX_ATTACHED | MUX_COLLECTING_DISTRIBUTING.
Inductive lacp_ptx_sm_state_t := PTX_NO_PERIODIC | PTX_FAST_PERIODIC | PTX_SLOW_PERIODIC | PTX_PERIODIC_TX.

(** [lacp_port_t]. *)
Inductive lacp_port_t := LACP_PORT_UNSELECTED | LACP_PORT_SELECTED | LACP_PORT_STANDBY.

#[export] Instance rx_state_eq_dec : EqDecision lacp_rx_sm_state_t.
Proof. solve_decision. Defined.
#[export] Instance mux_state_eq_dec : EqDecision lacp_mux_sm_state_t.
Proof. solve_decision. Defined.
#[export] Instance ptx_state_eq_dec : EqDecision lacp_ptx_sm_state_t.
Proof. solve_decision. Defined.
#[export] Instance lacp_port_eq_dec : EqDecision lacp_port_t.
Proof. solve_decision. Defined.

(** ** Members *)

Record member_if_t := mk_mif {
  m_sw_if_index : Z;
  m_hw_if_index : Z;
  m_ttl_in_seconds : Z;
  m_is_long_timeout : bool;
  m_packet_template_index : Z;
  m_last_packet_signature_valid : bool;
  m_last_packet_signature : Z;
  m_last_rx_pkt : list Z;
  m_last_marker_pkt : list Z;
  m_weight : Z;
  m_is_passive : bool;
  m_partner : lacp_port_info_t;
  m_partner_admin : lacp_port_info_t;
  m_actor : lacp_port_info_t;
  m_actor_admin : lacp_port_info_t;
  m_ntt : bool;
  m_port_enabled : bool;
  m_lacp_enabled : bool;
  m_ready_n : bool;
  m_ready : bool;
  m_selected : lacp_port_t;
  m_port_moved : bool;
  m_current_while_timer : Z;
  m_last_lacpdu_sent_time : Z;
  m_last_lacpdu_recd_time : Z;
  m_last_marker_pdu_sent_time : Z;
  m_last_marker_pdu_recd_time : Z;
  m_periodic_timer : Z;
  m_wait_while_timer : Z;
  m_rx_state : lacp_rx_sm_state_t;
  m_tx_state : lacp_tx_sm_state_t;
  m_mux_state : lacp_mux_sm_state_t;
  m_ptx_state : lacp_ptx_sm_state_t;
  m_group : Z;
  m_bif_dev_instance : Z;
  m_loopback_port : bool;
  m_mode : Z;
  m_pdu_received : Z;
  m_bad_pdu_received : Z;
  m_pdu_sent : Z;
  m_marker_pdu_received : Z;
  m_marker_bad_pdu_received : Z;
  m_marker_pdu_sent : Z;
  m_is_local_numa : bool
}.

#[export] Instance mif_eta : Eta member_if_t := fun m =>
  mk_mif (m_sw_if_index m) (m_hw_if_index m) (m_ttl_in_seconds m) (m_is_long_timeout m) (m_packet_template_index m)
    (m_last_packet_signature_valid m) (m_last_packet_signature m) (m_last_rx_pkt m) (m_last_marker_pkt m) (m_weight m)
    (m_is_passive m) (m_partner m) (m_partner_admin m) (m_actor m) (m_actor_admin m) (m_ntt m) (m_port_enabled m)
    (m_lacp_enabled m) (m_ready_n m) (m_ready m) (m_selected m) (m_port_moved m) (m_current_while_timer m)
    (m_last_lacpdu_sent_time m) (m_last_lacpdu_recd_time m) (m_last_marker_pdu_sent_time m)
    (m_last_marker_pdu_recd_time m) (m_periodic_timer m) (m_wait_while_timer m) (m_rx_state m) (m_tx_state m)
    (m_mux_state m) (m_ptx_state m) (m_group m) (m_bif_dev_instance m) (m_loopback_port m) (m_mode m)
    (m_pdu_received m) (m_bad_pdu_received m) (m_pdu_sent m) (m_marker_pdu_received m) (m_marker_bad_pdu_received m)
    (m_marker_pdu_sent m) (m_is_local_numa m).

Definition port_info_zero : lacp_port_info_t := mk_port_info 0 [0; 0; 0; 0; 0; 0] 0 0 0 0.

(** A member whose memory has been cleared. *)
Definition mif_zero : member_if_t :=
  mk_mif 0 0 0 false 0 false 0 [] [] 0 false port_info_zero port_info_zero port_info_zero port_info_zero
    false false false false false LACP_PORT_UNSELECTED false 0 0 0 0 0 0 0
    RX_INITIALIZE TX_TRANSMIT MUX_DETACHED PTX_NO_PERIODIC 0 0 false 0 0 0 0 0 0 0 false.

(** ** Bond interfaces *)

Definition BOND_MODE_ROUND_ROBIN : Z := 1.
Definition BOND_MODE_ACTIVE_BACKUP : Z := 2.
Definition BOND_MODE_XOR : Z := 3.
Definition BOND_MODE_BROADCAST : Z := 4.
Definition BOND_MODE_LACP : Z := 5.

Definition BOND_LB_L2 : Z := 0.
Definition BOND_LB_L34 : Z := 1.
Definition BOND_LB_L23 : Z := 2.
Definition BOND_LB_RR : Z := 3.
Definition BOND_LB_BC : Z := 4.
Definition BOND_LB_AB : Z := 5.

Record bond_if_t := mk_bif {
  b_admin_up : bool;
  b_mode : Z;
  b_lb : Z;
  b_lb_rr_last_index : Z;
  b_dev_instance : Z;
  b_id : Z;
  b_hw_if_index : Z;
  b_sw_if_index : Z;
  b_members : list Z;
  b_active_members : list Z;
  b_numa_only : bool;
  b_gso : bool;
  b_n_numa_members : Z;
  b_group : Z;
  b_port_numbers : gset Z;
  b_use_custom_mac : bool;
  b_hw_address : list Z
}.

#[export] Instance bif_eta : Eta bond_if_t := fun b =>
  mk_bif (b_admin_up b) (b_mode b) (b_lb b) (b_lb_rr_last_index b) (b_dev_instance b) (b_id b) (b_hw_if_index b)
    (b_sw_if_index b) (b_members b) (b_active_members b) (b_numa_only b) (b_gso b) (b_n_numa_members b) (b_group b)
    (b_port_numbers b) (b_use_custom_mac b) (b_hw_address b).

Definition bif_zero : bond_if_t := mk_bif false 0 0 0 0 0 0 0 [] [] false false 0 0 ∅ false [0; 0; 0; 0; 0; 0].

(** What the code does to the outside: an LACP or marker frame sent on an interface, and
    the event that makes [bond_process] announce the addresses of a bond. *)
Inductive bond_output :=
| LACP_PDU_SENT (sw_if_index : Z) (frame : list Z)
| GARP_NA (hw_if_index : Z).

(** [bond_main_t] with the outputs so far and the number of LACP interfaces of
    [lacp_main_t]. *)
Record bond_main_t := mk_bond_main {
  interfaces : pool bond_if_t;
  neighbors : pool member_if_t;
  bond_by_sw_if_index : gmap Z Z;
  id_used : gset Z;
  member_by_sw_if_index : gmap Z Z;
  lacp_plugin_loaded : bool;
  lacp_int : Z;
  outputs : list bond_output
}.

#[export] Instance bond_main_eta : Eta bond_main_t := fun m =>
  mk_bond_main (interfaces m) (neighbors m) (bond_by_sw_if_index m) (id_used m) (member_by_sw_if_index m)
    (lacp_plugin_loaded m) (lacp_int m) (outputs m).

(** What the code asks its environment: the time, the NUMA nodes of the main thread and
    of the interfaces, their addresses, whether a buffer can be allocated, and a hash. *)
Record bond_env := mk_bond_env {
  e_now : Z;
  e_numa_node : Z;
  e_if_numa : Z -> Z;
  e_hw_address : Z -> list Z;
  e_buffer : bool;
  e_hash_memory : list Z -> Z
}.

(** ** Lemmas on the bits of a state *)

Lemma has_lor a c f : has (Z.lor a c) f = has a f || has c f.
Proof.
  unfold has. rewrite Z.land_lor_distr_l. destruct (Z.eqb_spec (Z.lor (Z.land a f) (Z.land c f)) 0) as [E|E].
  - apply Z.lor_eq_0_iff in E as [-> ->]. reflexivity.
  - destruct (Z.eqb_spec (Z.land a f) 0) as [E1|]; [|reflexivity]. destruct (Z.eqb_spec (Z.land c f) 0) as [E2|]; [|reflexivity].
    destruct E. now rewrite E1, E2.
Qed.

Lemma has_ldiff a c f : has (Z.ldiff a c) f = has a (Z.ldiff f c).
Proof.
  unfold has. do 2 f_equal. apply Z.bits_inj'. intros i Hi. rewrite !Z.land_spec, !Z.ldiff_spec.
  destruct (Z.testbit a i), (Z.testbit c i), (Z.testbit f i); reflexivity.
Qed.

Lemma has_0 a : has a 0 = false.
Proof. unfold has. now rewrite Z.land_0_r. Qed.

Lemma has_set f p g : has (pi_state (pi_set f p)) g = has (pi_state p) g || has f g.
Proof. apply has_lor. Qed.

Lemma has_clear f p g : has (pi_state (pi_clear f p)) g = has (pi_state p) (Z.ldiff g f).
Proof. apply has_ldiff. Qed.

Create Rewrite HintDb lacp.
#[export] Hint Rewrite has_set has_clear has_0 : lacp.

(** Evaluates differences of constant flags. *)
Ltac eval_bits :=
  repeat match goal with
  | |- context [Z.ldiff ?a ?b] => let v := eval vm_compute in (Z.ldiff a b) in progress change (Z.ldiff a b) with v
  end.
