(* ===== verification/Bond.v ===== *)
(** * Link bonding: bond interfaces and their members

    Creation and deletion of bonds, addition and removal of members, and the vector of
    active members that the transmit function spreads packets over, from
    [vnet/bonding/cli.c], [node.c], [node.h] and [device.c].

    The interface layer (registration of interfaces, MAC addresses, feature arcs, the
    statistics segment) is outside: what the code learns from it is an argument.  The
    LACP plugin is called through a function pointer, which is a parameter here, as is
    [qsort].  A lookup table of member pointers is the map from [sw_if_index] to the
    index of the member. *)

From stdpp Require Import gmap.
From S2P Require Import Prelude NetTypes Pool BondTypes.

(** ** Access *)

Definition mif_at (bm : bond_main_t) (i : Z) : member_if_t := default mif_zero (pool_elt_at_index (neighbors bm) i).
Definition bif_at (bm : bond_main_t) (i : Z) : bond_if_t := default bif_zero (pool_elt_at_index (interfaces bm) i).

Definition set_mif (bm : bond_main_t) (i : Z) (m : member_if_t) : bond_main_t :=
  bm <| neighbors := pool_write (neighbors bm) i m |>.
Definition set_bif (bm : bond_main_t) (i : Z) (b : bond_if_t) : bond_main_t :=
  bm <| interfaces := pool_write (interfaces bm) i b |>.

(** Indices stand for the pointers that the lookups return. *)
Definition bond_get_bond_if_by_sw_if_index (bm : bond_main_t) (sw_if_index : Z) : option Z :=
  bond_by_sw_if_index bm !! sw_if_index.

Definition bond_get_member_by_sw_if_index (bm : bond_main_t) (sw_if_index : Z) : option Z :=
  member_by_sw_if_index bm !! sw_if_index.

(** A member with its bond, as the functions that get a [member_if_t] pointer use them. *)
Record member_ctx := mk_ctx { c_mif : member_if_t; c_bif : bond_if_t; c_out : list bond_output }.

#[export] Instance member_ctx_eta : Eta member_ctx := fun c => mk_ctx (c_mif c) (c_bif c) (c_out c).

Definition load_ctx (bm : bond_main_t) (i : Z) : member_ctx :=
  let m := mif_at bm i in mk_ctx m (bif_at bm (m_bif_dev_instance m)) (outputs bm).

Definition store_ctx (bm : bond_main_t) (i : Z) (c : member_ctx) : bond_main_t :=
  let bm := set_mif bm i (c_mif c) in
  let bm := set_bif bm (m_bif_dev_instance (c_mif c)) (c_bif c) in
  bm <| outputs := c_out c |>.

(** Runs [f] on member [i] and its bond. *)
Definition run_ctx (f : member_ctx -> option member_ctx) (i : Z) (bm : bond_main_t) : option bond_main_t :=
  c ← f (load_ctx bm i); Some (store_ctx bm i c).

(** ** Active members *)

Definition bond_disable_collecting_distributing (c : member_ctx) : member_ctx :=
  let m := c_mif c in
  let b := c_bif c in
  match vec_search (Z.eqb (m_sw_if_index m)) (b_active_members b) with
  | None => c
  | Some i =>
      let switching_active :=
        (b_mode b =? BOND_MODE_ACTIVE_BACKUP) && (i =? 0)%nat && (1 <? length (b_active_members b))%nat in
      let b := b <| b_active_members := vec_del1 (b_active_members b) i |> in
      let b :=
        if m_lacp_enabled m && b_numa_only b && (Z.of_nat i <? b_n_numa_members b)
        then b <| b_n_numa_members := b_n_numa_members b - 1 |> else b in
      let c := c <| c_bif := b |> in
      if switching_active then c <| c_out := c_out c ++ [GARP_NA (b_hw_if_index b)] |> else c
  end.

(** [bond_member_sort]: -1 when the first member is preferred. *)
Definition bond_member_sort (active0 : Z) (mif1 mif2 : member_if_t) : Z :=
  if m_weight mif1 <? m_weight mif2 then 1
  else if m_weight mif2 <? m_weight mif1 then -1
  else if negb (m_is_local_numa mif1) && m_is_local_numa mif2 then 1
  else if m_is_local_numa mif1 && negb (m_is_local_numa mif2) then -1
  else if active0 =? m_sw_if_index mif2 then 1
  else if active0 =? m_sw_if_index mif1 then -1
  else if m_sw_if_index mif2 <? m_sw_if_index mif1 then 1
  else if m_sw_if_index mif1 <? m_sw_if_index mif2 then -1
  else 0.

Section Bond.
Variable env : bond_env.

(** [qsort] with the comparison [bond_member_sort] on the vector of active members. *)
Variable qsort : list Z -> list Z.

Definition bond_sort_members (c : member_ctx) : member_ctx :=
  let b := c_bif c in
  let old_active := head (b_active_members b) in
  let b := b <| b_active_members := qsort (b_active_members b) |> in
  let c := c <| c_bif := b |> in
  if bool_decide (old_active = head (b_active_members b)) then c
  else c <| c_out := c_out c ++ [GARP_NA (b_hw_if_index b)] |>.

Definition bond_enable_collecting_distributing (c : member_ctx) : member_ctx :=
  let m := c_mif c in
  let b := c_bif c in
  let sw_if_index := m_sw_if_index m in
  match vec_search (Z.eqb sw_if_index) (b_active_members b) with
  | Some _ => c
  | None =>
      let local := e_numa_node env =? e_if_numa env sw_if_index in
      let b :=
        if m_lacp_enabled m && b_numa_only b && local then
          let n := Z.to_nat (b_n_numa_members b) in
          b <| b_active_members := take n (b_active_members b) ++ sw_if_index :: drop n (b_active_members b) |>
            <| b_n_numa_members := b_n_numa_members b + 1 |>
        else b <| b_active_members := b_active_members b ++ [sw_if_index] |> in
      let c := c <| c_bif := b |> <| c_mif := m <| m_is_local_numa := local |> |> in
      if b_mode b =? BOND_MODE_ACTIVE_BACKUP then
        if (length (b_active_members b) =? 1)%nat
        then c <| c_out := c_out c ++ [GARP_NA (b_hw_if_index b)] |>
        else bond_sort_members c
      else c
  end.

(** Administrative or link state of a member of a bond without LACP. *)
Definition bond_interface_up_down (bm : bond_main_t) (sw_if_index : Z) (up : bool) : bond_main_t :=
  match bond_get_member_by_sw_if_index bm sw_if_index with
  | None => bm
  | Some i =>
      if m_lacp_enabled (mif_at bm i) then bm
      else
        let bm := set_mif bm i ((mif_at bm i) <| m_port_enabled := up |>) in
        let c := load_ctx bm i in
        store_ctx bm i (if up then bond_enable_collecting_distributing c else bond_disable_collecting_distributing c)
  end.

(** ** Creation and deletion *)

Record bond_create_if_args_t := mk_create_args {
  ca_id : Z; ca_hw_addr_set : bool; ca_hw_addr : list Z; ca_mode : Z; ca_lb : Z; ca_numa_only : bool; ca_gso : bool
}.

(** [hw_if_index] and [sw_if_index] are those of the registered interface; [hw_addr] is
    the configured address or the random one. *)
Definition bond_create_if (bm : bond_main_t) (args : bond_create_if_args_t) (hw_if_index sw_if_index : Z)
  : bond_main_t * (vnet_api_error_t + Z) :=
  if (ca_mode args =? BOND_MODE_LACP) && negb (lacp_plugin_loaded bm) then (bm, inl FEATURE_DISABLED)
  else if (BOND_MODE_LACP <? ca_mode args) || (ca_mode args <? BOND_MODE_ROUND_ROBIN) then (bm, inl INVALID_ARGUMENT)
  else if BOND_LB_L23 <? ca_lb args then (bm, inl INVALID_ARGUMENT)
  else
    let '(p, dev_instance) := pool_get bif_zero (interfaces bm) in
    let id := if ca_id args =? 2 ^ 32 - 1 then dev_instance else ca_id args in
    let b := bif_zero <| b_dev_instance := dev_instance |> <| b_id := id |> <| b_lb := ca_lb args |>
               <| b_mode := ca_mode args |> <| b_gso := ca_gso args |> in
    if bool_decide (id ∈ id_used bm) then
      (bm <| interfaces := pool_put_index (pool_write p dev_instance b) dev_instance |>, inl INSTANCE_IN_USE)
    else
      let lb := if b_mode b =? BOND_MODE_ROUND_ROBIN then BOND_LB_RR
                else if b_mode b =? BOND_MODE_BROADCAST then BOND_LB_BC
                else if b_mode b =? BOND_MODE_ACTIVE_BACKUP then BOND_LB_AB else b_lb b in
      let b := b <| b_lb := lb |> <| b_use_custom_mac := ca_hw_addr_set args |> <| b_hw_address := ca_hw_addr args |>
                 <| b_hw_if_index := hw_if_index |> <| b_sw_if_index := sw_if_index |> <| b_group := sw_if_index |>
                 <| b_numa_only := ca_numa_only args |> in
      (bm <| interfaces := pool_write p dev_instance b |> <| id_used := {[id]} ∪ id_used bm |>
          <| bond_by_sw_if_index := <[sw_if_index := dev_instance]> (bond_by_sw_if_index bm) |>, inr sw_if_index).

(** Administrative state of the bond itself. *)
Definition bond_interface_admin_up_down (bm : bond_main_t) (dev_instance : Z) (is_up : bool) : bond_main_t :=
  set_bif bm dev_instance ((bif_at bm dev_instance) <| b_admin_up := is_up |>).

(** [is_up] is [vnet_sw_interface_is_up] of the member.  The bond of a member always exists. *)
Definition bond_set_intf_weight (bm : bond_main_t) (sw_if_index weight : Z) (is_up : bool) : bond_main_t * option vnet_api_error_t :=
  match bond_get_member_by_sw_if_index bm sw_if_index with
  | None => (bm, Some INVALID_INTERFACE)
  | Some i =>
      let c := load_ctx bm i in
      if negb (b_mode (c_bif c) =? BOND_MODE_ACTIVE_BACKUP) then (bm, Some INVALID_ARGUMENT)
      else
        let old_weight := m_weight (c_mif c) in
        let active := b_active_members (c_bif c) in
        let c := c <| c_mif := (c_mif c) <| m_weight := weight |> |> in
        if negb is_up || (length active =? 1)%nat ||
           (bool_decide (head active = Some (m_sw_if_index (c_mif c))) && (old_weight <=? weight))
        then (store_ctx bm i c, None)
        else (store_ctx bm i (bond_sort_members c), None)
  end.

(** The function that the LACP plugin registers: bond, member and whether LACP starts. *)
Variable lacp_enable_disable : bond_main_t -> Z -> Z -> bool -> option bond_main_t.

(** What the interface layer says about a new member. *)
Record member_facts := mk_member_facts {
  mf_is_bond : bool;
  mf_gso : bool;
  mf_stats : bool;
  mf_up : bool;
  mf_hw_if_index : Z;
  mf_hw_address : list Z;
  mf_feature_rv : option vnet_api_error_t
}.

Record bond_add_member_args_t := mk_add_args {
  am_member : Z; am_group : Z; am_is_passive : bool; am_is_long_timeout : bool
}.

(** The new member before it is started. *)
Definition new_member (bm : bond_main_t) (bi : Z) (args : bond_add_member_args_t) (f : member_facts) : member_if_t :=
  let b := bif_at bm bi in
  mif_zero <| m_port_enabled := mf_up f |> <| m_sw_if_index := am_member args |> <| m_hw_if_index := mf_hw_if_index f |>
    <| m_packet_template_index := 255 |> <| m_is_passive := am_is_passive args |> <| m_group := am_group args |>
    <| m_bif_dev_instance := b_dev_instance b |> <| m_mode := b_mode b |>
    <| m_is_long_timeout := am_is_long_timeout args |>
    <| m_ttl_in_seconds := if am_is_long_timeout args then 90 else 3 |>.

Definition bond_add_member (bm : bond_main_t) (args : bond_add_member_args_t) (f : member_facts)
  : option (bond_main_t * option vnet_api_error_t) :=
  match bond_get_bond_if_by_sw_if_index bm (am_group args) with
  | None => Some (bm, Some INVALID_INTERFACE)
  | Some bi =>
      match bond_get_member_by_sw_if_index bm (am_member args) with
      | Some _ => Some (bm, Some VALUE_EXIST)
      | None =>
          let b := bif_at bm bi in
          if mf_is_bond f then Some (bm, Some INVALID_INTERFACE)
          else if b_gso b && negb (mf_gso f) then Some (bm, Some INVALID_INTERFACE)
          else if (b_mode b =? BOND_MODE_LACP) && negb (mf_stats f) then Some (bm, Some INVALID_INTERFACE)
          else
            let '(p, mi) := pool_get mif_zero (neighbors bm) in
            let m := new_member bm bi args f in
            let bm := bm <| neighbors := pool_write p mi m |>
                         <| member_by_sw_if_index := <[m_sw_if_index m := mi]> (member_by_sw_if_index bm) |> in
            let b := b <| b_members := b_members b ++ [m_sw_if_index m] |> in
            let b := if negb (b_use_custom_mac b) && (length (b_members b) =? 1)%nat
                     then b <| b_hw_address := mf_hw_address f |> else b in
            let bm := set_bif bm bi b in
            bm ← (if b_mode b =? BOND_MODE_LACP then
                    (if lacp_plugin_loaded bm then lacp_enable_disable bm bi mi true else Some bm)
                  else if m_port_enabled m then
                    Some (store_ctx bm mi (bond_enable_collecting_distributing (load_ctx bm mi)))
                  else Some bm);
            Some (bm, mf_feature_rv f)
      end
  end.

Definition bond_delete_neighbor (bm : bond_main_t) (bi mi : Z) : option bond_main_t :=
  let m := mif_at bm mi in
  let b := bif_at bm bi in
  let b := b <| b_port_numbers := b_port_numbers b ∖ {[net_to_host_u16 (pi_port_number (m_actor_admin m)) - 1]} |> in
  let bm := bm <| member_by_sw_if_index := delete (m_sw_if_index m) (member_by_sw_if_index bm) |> in
  let m := m <| m_last_marker_pkt := [] |> <| m_last_rx_pkt := [] |> in
  let b := match vec_search (Z.eqb (m_sw_if_index m)) (b_members b) with
           | Some i => b <| b_members := vec_del1 (b_members b) i |>
           | None => b
           end in
  let bm := set_bif (set_mif bm mi m) bi b in
  let bm := store_ctx bm mi (bond_disable_collecting_distributing (load_ctx bm mi)) in
  bm ← (if (b_mode b =? BOND_MODE_LACP) && lacp_plugin_loaded bm then lacp_enable_disable bm bi mi false else Some bm);
  Some (bm <| neighbors := pool_put_index (neighbors bm) mi |>).

Definition bond_detach_member (bm : bond_main_t) (member : Z) : option (bond_main_t * option vnet_api_error_t) :=
  match bond_get_member_by_sw_if_index bm member with
  | None => Some (bm, Some INVALID_INTERFACE)
  | Some mi => bm ← bond_delete_neighbor bm (m_bif_dev_instance (mif_at bm mi)) mi; Some (bm, None)
  end.

(** A deleted interface leaves its bond. *)
Definition bond_member_interface_add_del (bm : bond_main_t) (sw_if_index : Z) (is_add : bool) : option bond_main_t :=
  if is_add then Some bm
  else match bond_get_member_by_sw_if_index bm sw_if_index with
       | None => Some bm
       | Some _ => fst <$> bond_detach_member bm sw_if_index
       end.

(** The members of a deleted bond, one after the other. *)
Fixpoint delete_members (bm : bond_main_t) (bi : Z) (s_list : list Z) : option bond_main_t :=
  match s_list with
  | [] => Some bm
  | sw :: s_list =>
      match bond_get_member_by_sw_if_index bm sw with
      | None => delete_members bm bi s_list
      | Some mi => bm ← bond_delete_neighbor bm bi mi; delete_members bm bi s_list
      end
  end.

(** [dev] is the bond instance of the interface, if it is a bond. *)
Definition bond_delete_if (bm : bond_main_t) (dev : option Z) : option (bond_main_t * option vnet_api_error_t) :=
  match dev with
  | None => Some (bm, Some INVALID_SW_IF_INDEX)
  | Some bi =>
      bm ← delete_members bm bi (b_members (bif_at bm bi));
      let b := bif_at bm bi in
      Some (bm <| bond_by_sw_if_index := delete (b_sw_if_index b) (bond_by_sw_if_index bm) |>
               <| id_used := id_used bm ∖ {[b_id b]} |>
               <| interfaces := pool_put_index (pool_write (interfaces bm) bi bif_zero) bi |>, None)
  end.

End Bond.

(** ** Transmission *)

Definition bond_lb_round_robin (b : bond_if_t) (n_members : Z) : bond_if_t * Z :=
  let i := u32 (b_lb_rr_last_index b + 1) in
  let i := if n_members <=? i then 0 else i in
  (b <| b_lb_rr_last_index := i |>, i).

Fixpoint bond_tx_round_robin (b : bond_if_t) (n_members : Z) (n : nat) : bond_if_t * list Z :=
  match n with
  | O => (b, [])
  | S n => let '(b, h) := bond_lb_round_robin b n_members in
           let '(b, hs) := bond_tx_round_robin b n_members n in (b, h :: hs)
  end.

(** [bond_hash_to_port] with and without the shortcut for powers of two. *)
Definition bond_hash_to_port (n_members h : Z) (use_modulo_shortcut : bool) : Z :=
  if use_modulo_shortcut then Z.land h (n_members - 1) else h mod n_members.

Definition is_pow2 (x : Z) : bool := Z.land x (x - 1) =? 0.

(** A queue of [bond_per_port_queue_t]: its buffers, each with the interface written to
    its [sw_if_index[VLIB_TX]].  A thread has a queue for each position of the vector of
    active members. *)
Abbreviation bond_per_port_queue_t := (list (Z * Z)).

Definition bond_tx_add_to_queue (qs : list bond_per_port_queue_t) (port : nat) (sw_if_index bi : Z)
  : list bond_per_port_queue_t := alter (fun q => q ++ [(sw_if_index, bi)]) port qs.

(** The end of [bond_add_member]: a queue for each member, and all of them empty. *)
Definition bond_validate_queues (b : bond_if_t) (qs : list bond_per_port_queue_t) : list bond_per_port_queue_t :=
  replicate (length qs `max` length (b_members b)) [].

(** [copy bi port] is the buffer of the copy of [bi] for a port, if one can be allocated. *)
Definition bond_lb_broadcast (copy : Z -> nat -> option Z) (active : list Z) (qs : list bond_per_port_queue_t) (bi : Z)
  : list bond_per_port_queue_t :=
  foldl (fun qs port => match copy bi port with
                        | Some c0 => bond_tx_add_to_queue qs port (nth port active 0) c0
                        | None => qs
                        end) qs (seq 1 (length active - 1)).

Definition bond_update_sw_if_index (active frame data : list Z) (single_sw_if_index : bool)
  (qs : list bond_per_port_queue_t) : list bond_per_port_queue_t :=
  if single_sw_if_index then foldl (fun qs bi => bond_tx_add_to_queue qs 0 (nth 0 data 0) bi) qs frame
  else foldl (fun qs '(h, bi) => bond_tx_add_to_queue qs (Z.to_nat h) (nth (Z.to_nat h) active 0) bi) qs (zip data frame).

(** The loop at [done]: a frame to each member whose queue has buffers, and the queue is
    emptied. *)
Definition bond_tx_done (active : list Z) (n_members : nat) (qs : list bond_per_port_queue_t)
  : list bond_per_port_queue_t * list (Z * bond_per_port_queue_t) :=
  foldl (fun '(qs, out) p => match qs !! p with
                             | Some (x :: q) => (<[p := []]> qs, out ++ [(nth p active 0, x :: q)])
                             | _ => (qs, out)
                             end) (qs, []) (seq 0 n_members).

(** The bond, the queues of the thread, and the frames sent: interface and buffers.
    [hash] is the hash of a packet. *)
Definition bond_tx (b : bond_if_t) (qs : list bond_per_port_queue_t) (hash : Z -> Z) (copy : Z -> nat -> option Z)
  (frame : list Z) : bond_if_t * (list bond_per_port_queue_t * list (Z * bond_per_port_queue_t)) :=
  if negb (b_admin_up b) then (b, (qs, []))
  else
    let active := b_active_members b in
    let n_members := Z.of_nat (length active) in
    if n_members =? 0 then (b, (qs, []))
    else
      let sw_if_index := nth 0 active 0 in
      if (b_lb b =? BOND_LB_AB) || (n_members =? 1) then
        (b, bond_tx_done active (Z.to_nat n_members) (bond_update_sw_if_index active frame [sw_if_index] true qs))
      else if b_lb b =? BOND_LB_BC then
        let qs := foldl (bond_lb_broadcast copy active) qs frame in
        (b, bond_tx_done active (Z.to_nat n_members) (bond_update_sw_if_index active frame [sw_if_index] true qs))
      else
        let n_members := if 1 <=? b_n_numa_members b then b_n_numa_members b else n_members in
        let '(b, hs) := if b_lb b =? BOND_LB_RR then bond_tx_round_robin b n_members (length frame)
                        else (b, map hash frame) in
        let hs := map (fun h => bond_hash_to_port n_members h (is_pow2 n_members)) hs in
        (b, bond_tx_done active (Z.to_nat n_members) (bond_update_sw_if_index active frame hs false qs)).
