(* ===== verification/Lacp.v ===== *)
(** * Link Aggregation Control Protocol

    The four state machines of [plugins/lacp] (receive, mux, periodic transmission and
    transmit), the selection logic, the input of LACP frames, the periodic process and
    the reaction to interface changes.

    A machine is a table from state and event to an action and the next state.  Actions
    post further events, so a dispatch is recursive: it takes a bound on the depth and
    returns [None] only if the bound is reached. *)

From stdpp Require Import gmap.
From S2P Require Import Prelude NetTypes Pool BondTypes Bond.

(** ** Frames *)

Definition get_u8 (pkt : list Z) (off : nat) : Z := nth off pkt 0.
(** A 16-bit field as stored in memory. *)
Definition get_u16 (pkt : list Z) (off : nat) : Z := get_u8 pkt off + 256 * get_u8 pkt (S off).
Definition put_u16 (x : Z) : list Z := [x mod 256; x / 256].

(** [lacp_port_info_t] in a packet, and as bytes. *)
Definition port_info_at (pkt : list Z) (off : nat) : lacp_port_info_t :=
  mk_port_info (get_u16 pkt off) (take 6 (drop (off + 2) pkt)) (get_u16 pkt (off + 8)) (get_u16 pkt (off + 10))
    (get_u16 pkt (off + 12)) (get_u8 pkt (off + 14)).

Definition port_info_bytes (p : lacp_port_info_t) : list Z :=
  put_u16 (pi_system_priority p) ++ pi_system p ++ put_u16 (pi_key p) ++ put_u16 (pi_port_priority p) ++
  put_u16 (pi_port_number p) ++ [pi_state p].

(** [lacp_pdu_t] : the fields that the receiver reads. *)
Definition SIZEOF_LACP_PDU : nat := 110.
Definition lacpdu_subtype (pkt : list Z) : Z := get_u8 pkt 0.
Definition lacpdu_actor_tlv_length (pkt : list Z) : Z := get_u8 pkt 3.
Definition lacpdu_actor (pkt : list Z) : lacp_port_info_t := port_info_at pkt 4.
Definition lacpdu_partner_tlv_length (pkt : list Z) : Z := get_u8 pkt 23.
Definition lacpdu_partner (pkt : list Z) : lacp_port_info_t := port_info_at pkt 24.
Definition lacpdu_collector_tlv_length (pkt : list Z) : Z := get_u8 pkt 43.
Definition lacpdu_terminator_tlv_length (pkt : list Z) : Z := get_u8 pkt 59.

(** The packet template of [lacp_periodic_init] filled by [lacp_fill_pdu]. *)
Definition lacp_fill_pdu (actor partner : lacp_port_info_t) : list Z :=
  [1; 1] ++ ([1; 20] ++ port_info_bytes actor ++ [0; 0; 0]) ++ ([2; 20] ++ port_info_bytes partner ++ [0; 0; 0]) ++
  ([3; 16; 0; 0] ++ repeat 0 12) ++ ([0; 0] ++ repeat 0 50).

(** The Ethernet header of a slow protocol. *)
Definition slow_protocol_header (src : list Z) : list Z := [0x01; 0x80; 0xc2; 0x00; 0x00; 0x02] ++ src ++ [0x88; 0x09].

(** ** Events, actions and tables *)

Inductive lacp_rx_event_t :=
  RX_BEGIN | RX_EV_PORT_DISABLED | RX_PORT_MOVED | RX_LACP_ENABLED | RX_EV_LACP_DISABLED | RX_PDU_RECEIVED
| RX_TIMER_EXPIRED.
Inductive lacp_tx_event_t := TX_BEGIN | TX_NTT.
Inductive lacp_mux_event_t := MUX_BEGIN | MUX_SELECTED | MUX_STANDBY | MUX_UNSELECTED | MUX_READY | MUX_SYNC.
Inductive lacp_ptx_event_t := PTX_EV_NO_PERIODIC | PTX_LONG_TIMEOUT | PTX_TIMER_EXPIRED | PTX_SHORT_TIMEOUT.

Inductive rx_action_t :=
  ACT_INITIALIZE | ACT_PORT_DISABLED | ACT_EXPIRED | ACT_LACP_DISABLED | ACT_DEFAULTED | ACT_CURRENT.
Inductive tx_action_t := ACT_TRANSMIT.
Inductive mux_action_t := ACT_DETACHED | ACT_WAITING | ACT_ATTACHED | ACT_COLLECTING_DISTRIBUTING.
Inductive ptx_action_t := ACT_NO_PERIODIC | ACT_SLOW_PERIODIC | ACT_FAST_PERIODIC | ACT_TIMER_EXPIRED.

(** The values of the enumerations, which index the tables. *)
Definition rx_state_num (s : lacp_rx_sm_state_t) : nat :=
  match s with
  | RX_INITIALIZE => 0 | RX_PORT_DISABLED => 1 | RX_EXPIRED => 2 | RX_LACP_DISABLED => 3 | RX_DEFAULTED => 4
  | RX_CURRENT => 5
  end.
Definition rx_event_num (e : lacp_rx_event_t) : nat :=
  match e with
  | RX_BEGIN => 0 | RX_EV_PORT_DISABLED => 1 | RX_PORT_MOVED => 2 | RX_LACP_ENABLED => 3 | RX_EV_LACP_DISABLED => 4
  | RX_PDU_RECEIVED => 5 | RX_TIMER_EXPIRED => 6
  end.
Definition tx_state_num (s : lacp_tx_sm_state_t) : nat := 0.
Definition tx_event_num (e : lacp_tx_event_t) : nat := match e with TX_BEGIN => 0 | TX_NTT => 1 end.
Definition mux_state_num (s : lacp_mux_sm_state_t) : nat :=
  match s with MUX_DETACHED => 0 | MUX_WAITING => 1 | MUX_ATTACHED => 2 | MUX_COLLECTING_DISTRIBUTING => 3 end.
Definition mux_event_num (e : lacp_mux_event_t) : nat :=
  match e with
  | MUX_BEGIN => 0 | MUX_SELECTED => 1 | MUX_STANDBY => 2 | MUX_UNSELECTED => 3 | MUX_READY => 4 | MUX_SYNC => 5
  end.
Definition ptx_state_num (s : lacp_ptx_sm_state_t) : nat :=
  match s with PTX_NO_PERIODIC => 0 | PTX_FAST_PERIODIC => 1 | PTX_SLOW_PERIODIC => 2 | PTX_PERIODIC_TX => 3 end.
Definition ptx_event_num (e : lacp_ptx_event_t) : nat :=
  match e with PTX_EV_NO_PERIODIC => 0 | PTX_LONG_TIMEOUT => 1 | PTX_TIMER_EXPIRED => 2 | PTX_SHORT_TIMEOUT => 3 end.

(** [lacp_fsm_state_t]: an action, or none, and the next state. *)
Definition lacp_fsm_state_t (A S : Type) : Type := option A * S.
Definition lacp_machine_t (A S : Type) : Type := list (list (lacp_fsm_state_t A S)).

Definition lacp_rx_state_initialize : list (lacp_fsm_state_t rx_action_t lacp_rx_sm_state_t) :=
  [(Some ACT_INITIALIZE, RX_PORT_DISABLED); (Some ACT_INITIALIZE, RX_PORT_DISABLED);
   (Some ACT_INITIALIZE, RX_PORT_DISABLED); (None, RX_INITIALIZE); (None, RX_INITIALIZE); (None, RX_INITIALIZE);
   (None, RX_INITIALIZE)].
Definition lacp_rx_state_port_disabled : list (lacp_fsm_state_t rx_action_t lacp_rx_sm_state_t) :=
  [(Some ACT_PORT_DISABLED, RX_PORT_DISABLED); (Some ACT_PORT_DISABLED, RX_PORT_DISABLED);
   (Some ACT_INITIALIZE, RX_INITIALIZE); (Some ACT_EXPIRED, RX_EXPIRED); (Some ACT_LACP_DISABLED, RX_LACP_DISABLED);
   (None, RX_PORT_DISABLED); (None, RX_PORT_DISABLED)].
Definition lacp_rx_state_expired : list (lacp_fsm_state_t rx_action_t lacp_rx_sm_state_t) :=
  [(Some ACT_INITIALIZE, RX_INITIALIZE); (None, RX_EXPIRED); (None, RX_EXPIRED); (None, RX_EXPIRED);
   (None, RX_EXPIRED); (Some ACT_CURRENT, RX_CURRENT); (Some ACT_DEFAULTED, RX_DEFAULTED)].
Definition lacp_rx_state_lacp_disabled : list (lacp_fsm_state_t rx_action_t lacp_rx_sm_state_t) :=
  [(Some ACT_INITIALIZE, RX_INITIALIZE); (None, RX_LACP_DISABLED); (None, RX_LACP_DISABLED);
   (Some ACT_EXPIRED, RX_EXPIRED); (Some ACT_LACP_DISABLED, RX_LACP_DISABLED); (None, RX_LACP_DISABLED);
   (None, RX_LACP_DISABLED)].
Definition lacp_rx_state_defaulted : list (lacp_fsm_state_t rx_action_t lacp_rx_sm_state_t) :=
  [(Some ACT_INITIALIZE, RX_INITIALIZE); (None, RX_DEFAULTED); (None, RX_DEFAULTED); (None, RX_DEFAULTED);
   (Some ACT_LACP_DISABLED, RX_LACP_DISABLED); (Some ACT_CURRENT, RX_CURRENT); (Some ACT_DEFAULTED, RX_DEFAULTED)].
Definition lacp_rx_state_current : list (lacp_fsm_state_t rx_action_t lacp_rx_sm_state_t) :=
  [(Some ACT_INITIALIZE, RX_INITIALIZE); (None, RX_CURRENT); (None, RX_CURRENT); (None, RX_CURRENT);
   (Some ACT_LACP_DISABLED, RX_LACP_DISABLED); (Some ACT_CURRENT, RX_CURRENT); (Some ACT_EXPIRED, RX_EXPIRED)].

Definition lacp_rx_fsm_table : lacp_machine_t rx_action_t lacp_rx_sm_state_t :=
  [lacp_rx_state_initialize; lacp_rx_state_port_disabled; lacp_rx_state_expired; lacp_rx_state_lacp_disabled;
   lacp_rx_state_defaulted; lacp_rx_state_current].

Definition lacp_tx_fsm_table : lacp_machine_t tx_action_t lacp_tx_sm_state_t :=
  [[(Some ACT_TRANSMIT, TX_TRANSMIT); (Some ACT_TRANSMIT, TX_TRANSMIT)]].

Definition lacp_mux_state_detached : list (lacp_fsm_state_t mux_action_t lacp_mux_sm_state_t) :=
  [(Some ACT_DETACHED, MUX_DETACHED); (Some ACT_WAITING, MUX_WAITING); (Some ACT_WAITING, MUX_WAITING);
   (Some ACT_DETACHED, MUX_DETACHED); (Some ACT_DETACHED, MUX_DETACHED); (Some ACT_DETACHED, MUX_DETACHED)].
Definition lacp_mux_state_waiting : list (lacp_fsm_state_t mux_action_t lacp_mux_sm_state_t) :=
  [(Some ACT_DETACHED, MUX_DETACHED); (Some ACT_WAITING, MUX_WAITING); (Some ACT_WAITING, MUX_WAITING);
   (Some ACT_DETACHED, MUX_DETACHED); (Some ACT_ATTACHED, MUX_ATTACHED); (Some ACT_WAITING, MUX_WAITING)].
Definition lacp_mux_state_attached : list (lacp_fsm_state_t mux_action_t lacp_mux_sm_state_t) :=
  [(Some ACT_DETACHED, MUX_DETACHED); (Some ACT_ATTACHED, MUX_ATTACHED); (Some ACT_DETACHED, MUX_DETACHED);
   (Some ACT_DETACHED, MUX_DETACHED); (Some ACT_ATTACHED, MUX_ATTACHED);
   (Some ACT_COLLECTING_DISTRIBUTING, MUX_COLLECTING_DISTRIBUTING)].
Definition lacp_mux_state_collecting_distributing : list (lacp_fsm_state_t mux_action_t lacp_mux_sm_state_t) :=
  [(Some ACT_DETACHED, MUX_DETACHED); (Some ACT_COLLECTING_DISTRIBUTING, MUX_COLLECTING_DISTRIBUTING);
   (Some ACT_COLLECTING_DISTRIBUTING, MUX_COLLECTING_DISTRIBUTING); (Some ACT_ATTACHED, MUX_ATTACHED);
   (Some ACT_COLLECTING_DISTRIBUTING, MUX_COLLECTING_DISTRIBUTING);
   (Some ACT_COLLECTING_DISTRIBUTING, MUX_COLLECTING_DISTRIBUTING)].

Definition lacp_mux_fsm_table : lacp_machine_t mux_action_t lacp_mux_sm_state_t :=
  [lacp_mux_state_detached; lacp_mux_state_waiting; lacp_mux_state_attached; lacp_mux_state_collecting_distributing].

Definition lacp_ptx_state_no_periodic : list (lacp_fsm_state_t ptx_action_t lacp_ptx_sm_state_t) :=
  [(Some ACT_NO_PERIODIC, PTX_NO_PERIODIC); (Some ACT_SLOW_PERIODIC, PTX_SLOW_PERIODIC);
   (Some ACT_NO_PERIODIC, PTX_NO_PERIODIC); (Some ACT_FAST_PERIODIC, PTX_FAST_PERIODIC)].
Definition lacp_ptx_state_fast_periodic : list (lacp_fsm_state_t ptx_action_t lacp_ptx_sm_state_t) :=
  [(Some ACT_NO_PERIODIC, PTX_NO_PERIODIC); (Some ACT_SLOW_PERIODIC, PTX_SLOW_PERIODIC);
   (Some ACT_TIMER_EXPIRED, PTX_PERIODIC_TX); (Some ACT_FAST_PERIODIC, PTX_FAST_PERIODIC)].
Definition lacp_ptx_state_slow_periodic : list (lacp_fsm_state_t ptx_action_t lacp_ptx_sm_state_t) :=
  [(Some ACT_NO_PERIODIC, PTX_NO_PERIODIC); (Some ACT_SLOW_PERIODIC, PTX_SLOW_PERIODIC);
   (Some ACT_TIMER_EXPIRED, PTX_PERIODIC_TX); (Some ACT_FAST_PERIODIC, PTX_FAST_PERIODIC)].
Definition lacp_ptx_state_periodic_tx : list (lacp_fsm_state_t ptx_action_t lacp_ptx_sm_state_t) :=
  [(Some ACT_NO_PERIODIC, PTX_NO_PERIODIC); (None, PTX_PERIODIC_TX); (Some ACT_TIMER_EXPIRED, PTX_PERIODIC_TX);
   (None, PTX_PERIODIC_TX)].

Definition lacp_ptx_fsm_table : lacp_machine_t ptx_action_t lacp_ptx_sm_state_t :=
  [lacp_ptx_state_no_periodic; lacp_ptx_state_fast_periodic; lacp_ptx_state_slow_periodic; lacp_ptx_state_periodic_tx].

(** [&machine->tables[state].state_table[event]]; outside the tables nothing is done. *)
Definition fsm_entry {A S} (machine : lacp_machine_t A S) (state event : nat) : option (lacp_fsm_state_t A S) :=
  table ← machine !! state; table !! event.

Definition fsm_transition {A S} (machine : lacp_machine_t A S) (num : S -> nat) (state : S) (event : nat)
  : lacp_fsm_state_t A S :=
  default (None, state) (fsm_entry machine (num state) event).

(** [lacp_error_t]. *)
Inductive lacp_error_t :=
  LACP_ERROR_NONE | LACP_ERROR_CACHE_HIT | LACP_ERROR_UNSUPPORTED | LACP_ERROR_TOO_SMALL | LACP_ERROR_BAD_TLV
| LACP_ERROR_BAD_KEY | LACP_ERROR_LOOPBACK_PORT | LACP_ERROR_DISABLED.

(** ** Timers *)

Definition lacp_timer_is_running (timer : Z) : bool := negb (timer =? 0).

(** Updates of the member of a context. *)
Definition on_mif (f : member_if_t -> member_if_t) (c : member_ctx) : member_ctx := c <| c_mif := f (c_mif c) |>.
Definition on_actor (f : lacp_port_info_t -> lacp_port_info_t) : member_ctx -> member_ctx :=
  on_mif (fun m => m <| m_actor := f (m_actor m) |>).
Definition on_partner (f : lacp_port_info_t -> lacp_port_info_t) : member_ctx -> member_ctx :=
  on_mif (fun m => m <| m_partner := f (m_partner m) |>).

Definition actor_has (f : Z) (c : member_ctx) : bool := has (pi_state (m_actor (c_mif c))) f.
Definition partner_has (f : Z) (c : member_ctx) : bool := has (pi_state (m_partner (c_mif c))) f.

Section Lacp.
Variable env : bond_env.
Variable qsort : list Z -> list Z.

Definition lacp_timer_is_expired (timer : Z) : bool := timer <=? e_now env.

(** Expirations are [u8] seconds. *)
Definition lacp_start_periodic_timer (expiration : Z) : member_ctx -> member_ctx :=
  on_mif (fun m => m <| m_periodic_timer := e_now env + 1000 * expiration |>).
Definition lacp_start_current_while_timer (c : member_ctx) : member_ctx :=
  on_mif (fun m => m <| m_current_while_timer := e_now env + 1000 * u8 (m_ttl_in_seconds m) |>) c.
Definition lacp_start_wait_while_timer (expiration : Z) : member_ctx -> member_ctx :=
  on_mif (fun m => m <| m_wait_while_timer := e_now env + 1000 * expiration |>).

Definition LACP_FAST_PERIODIC_TIMER : Z := 1.
Definition LACP_SLOW_PERIODIC_TIMER : Z := 30.
Definition LACP_SHORT_TIMOUT_TIME : Z := 3.
Definition LACP_AGGREGATE_WAIT_TIME : Z := 2.

Definition lacp_schedule_periodic_timer (c : member_ctx) : member_ctx :=
  if partner_has LACP_STATE_LACP_TIMEOUT c ||
     (negb (Z.land (pi_state (m_actor (c_mif c))) LACP_STEADY_STATE =? LACP_STEADY_STATE) &&
      partner_has LACP_STATE_AGGREGATION c)
  then lacp_start_periodic_timer LACP_FAST_PERIODIC_TIMER c
  else lacp_start_periodic_timer LACP_SLOW_PERIODIC_TIMER c.

(** ** Transmit machine *)

Definition lacp_send_ethernet_lacp_pdu (c : member_ctx) : member_ctx :=
  if negb (e_buffer env) then c
  else
    let m := c_mif c in
    let frame := slow_protocol_header (e_hw_address env (m_sw_if_index m)) ++ lacp_fill_pdu (m_actor m) (m_partner m) in
    c <| c_out := c_out c ++ [LACP_PDU_SENT (m_sw_if_index m) frame] |>
      <| c_mif := m <| m_last_lacpdu_sent_time := e_now env |> <| m_pdu_sent := u64 (m_pdu_sent m + 1) |> |>.

Definition lacp_send_lacp_pdu (c : member_ctx) : member_ctx :=
  let m := c_mif c in
  if negb (m_mode m =? BOND_MODE_LACP) || negb (m_port_enabled m)
  then on_mif (fun m => m <| m_periodic_timer := 0 |>) c
  else
    let c := if m_packet_template_index m =? 255 then on_mif (fun m => m <| m_packet_template_index := 0 |>) c else c in
    if m_packet_template_index (c_mif c) =? 0 then lacp_send_ethernet_lacp_pdu c else c.

Definition lacp_tx_action_transmit (c : member_ctx) : member_ctx :=
  let m := c_mif c in
  if negb (lacp_timer_is_running (m_periodic_timer m)) then c
  else if e_now env <=? m_last_lacpdu_sent_time m + 333 then c
  else
    let c := if m_ntt m then lacp_schedule_periodic_timer (lacp_send_lacp_pdu c) else c in
    on_mif (fun m => m <| m_ntt := false |>) c.

Definition lacp_tx_dispatch (ev : lacp_tx_event_t) (c : member_ctx) : member_ctx :=
  let '(action, next) := fsm_transition lacp_tx_fsm_table tx_state_num (m_tx_state (c_mif c)) (tx_event_num ev) in
  let c := on_mif (fun m => m <| m_tx_state := next |>) c in
  match action with
  | None => c
  | Some ACT_TRANSMIT => lacp_tx_action_transmit c
  end.

(** ** Periodic transmission machine *)

Definition lacp_active (c : member_ctx) : bool :=
  partner_has LACP_STATE_LACP_ACTIVITY c || actor_has LACP_STATE_LACP_ACTIVITY c.

Section PtxActions.
Variable dispatch : lacp_ptx_event_t -> member_ctx -> option member_ctx.

Definition lacp_ptx_post_short_timeout_event (c : member_ctx) : option member_ctx :=
  if m_lacp_enabled (c_mif c) && m_port_enabled (c_mif c) && lacp_active c then dispatch PTX_SHORT_TIMEOUT c else Some c.

Definition lacp_ptx_action_no_periodic (c : member_ctx) : option member_ctx :=
  lacp_ptx_post_short_timeout_event (on_mif (fun m => m <| m_periodic_timer := 0 |>) c).

Definition periodic_timer_expired (c : member_ctx) : bool :=
  lacp_timer_is_running (m_periodic_timer (c_mif c)) && lacp_timer_is_expired (m_periodic_timer (c_mif c)).

Definition lacp_ptx_action_slow_periodic (c : member_ctx) : option member_ctx :=
  if negb (lacp_active c) then dispatch PTX_EV_NO_PERIODIC c
  else
    let timer_expired := periodic_timer_expired c in
    let c := lacp_schedule_periodic_timer c in
    if timer_expired || partner_has LACP_STATE_LACP_TIMEOUT c then dispatch PTX_TIMER_EXPIRED c else Some c.

Definition lacp_ptx_action_fast_periodic (c : member_ctx) : option member_ctx :=
  if negb (lacp_active c) then dispatch PTX_EV_NO_PERIODIC c
  else
    let timer_expired := periodic_timer_expired c in
    let c := lacp_start_periodic_timer LACP_FAST_PERIODIC_TIMER c in
    c ← (if timer_expired then dispatch PTX_TIMER_EXPIRED c else Some c);
    if negb (partner_has LACP_STATE_LACP_TIMEOUT c) then dispatch PTX_LONG_TIMEOUT c else Some c.

Definition lacp_ptx_action_timer_expired (c : member_ctx) : option member_ctx :=
  if negb (lacp_active c) then dispatch PTX_EV_NO_PERIODIC c
  else
    let c := lacp_tx_dispatch TX_NTT (on_mif (fun m => m <| m_ntt := true |>) c) in
    if partner_has LACP_STATE_LACP_TIMEOUT c then dispatch PTX_SHORT_TIMEOUT c else dispatch PTX_LONG_TIMEOUT c.

Definition ptx_action (a : ptx_action_t) : member_ctx -> option member_ctx :=
  match a with
  | ACT_NO_PERIODIC => lacp_ptx_action_no_periodic
  | ACT_SLOW_PERIODIC => lacp_ptx_action_slow_periodic
  | ACT_FAST_PERIODIC => lacp_ptx_action_fast_periodic
  | ACT_TIMER_EXPIRED => lacp_ptx_action_timer_expired
  end.

End PtxActions.

(** [lacp_machine_dispatch] on the periodic transmission machine. *)
Fixpoint lacp_ptx_dispatch (fuel : nat) (ev : lacp_ptx_event_t) (c : member_ctx) : option member_ctx :=
  match fuel with
  | O => None
  | S fuel =>
      let '(action, next) :=
        fsm_transition lacp_ptx_fsm_table ptx_state_num (m_ptx_state (c_mif c)) (ptx_event_num ev) in
      let c := on_mif (fun m => m <| m_ptx_state := next |>) c in
      match action with
      | None => Some c
      | Some a => ptx_action (lacp_ptx_dispatch fuel) a c
      end
  end.

(** Enough for every chain of events; see [ptx_terminates]. *)
Definition PTX_FUEL : nat := 5.
Definition ptx_run : lacp_ptx_event_t -> member_ctx -> option member_ctx := lacp_ptx_dispatch PTX_FUEL.

(** ** Mux machine *)

Definition lacp_detach_mux_from_aggregator (c : member_ctx) : member_ctx :=
  on_mif (fun m => m <| m_ready := false |> <| m_ready_n := false |>) (on_actor (pi_clear LACP_STATE_SYNCHRONIZATION) c).

Definition lacp_attach_mux_to_aggregator (c : member_ctx) : member_ctx :=
  on_actor (pi_set LACP_STATE_SYNCHRONIZATION) c.

(** The end of the actions that stop distributing. *)
Definition stop_distributing (c : member_ctx) : member_ctx :=
  let c := on_actor (pi_clear LACP_STATE_COLLECTING) c in
  let c := bond_disable_collecting_distributing c in
  let c := on_actor (pi_clear LACP_STATE_DISTRIBUTING) c in
  lacp_start_periodic_timer 0 (on_mif (fun m => m <| m_ntt := true |>) c).

Definition is_selected (s : lacp_port_t) (c : member_ctx) : bool := bool_decide (m_selected (c_mif c) = s).

Section MuxActions.
Variable dispatch : lacp_mux_event_t -> member_ctx -> option member_ctx.

Definition lacp_mux_action_detached (c : member_ctx) : option member_ctx :=
  let c := stop_distributing (lacp_detach_mux_from_aggregator c) in
  c ← (if is_selected LACP_PORT_SELECTED c then dispatch MUX_SELECTED c else Some c);
  if is_selected LACP_PORT_STANDBY c then dispatch MUX_STANDBY c else Some c.

Definition lacp_mux_action_attached (c : member_ctx) : option member_ctx :=
  let c := stop_distributing (lacp_attach_mux_to_aggregator c) in
  c ← (if is_selected LACP_PORT_UNSELECTED c || is_selected LACP_PORT_STANDBY c then dispatch MUX_UNSELECTED c else Some c);
  if is_selected LACP_PORT_SELECTED c && partner_has LACP_STATE_SYNCHRONIZATION c then dispatch MUX_SYNC c else Some c.

Definition lacp_mux_action_waiting (c : member_ctx) : option member_ctx :=
  let c := if lacp_timer_is_running (m_wait_while_timer (c_mif c)) then c
           else lacp_start_wait_while_timer LACP_AGGREGATE_WAIT_TIME c in
  c ← (if is_selected LACP_PORT_SELECTED c && m_ready (c_mif c) then dispatch MUX_READY c else Some c);
  if is_selected LACP_PORT_UNSELECTED c then dispatch MUX_UNSELECTED c else Some c.

Definition lacp_mux_action_collecting_distributing (c : member_ctx) : option member_ctx :=
  let c := on_actor (pi_set (Z.lor LACP_STATE_SYNCHRONIZATION (Z.lor LACP_STATE_COLLECTING LACP_STATE_DISTRIBUTING))) c in
  let c := bond_enable_collecting_distributing env qsort c in
  let c := lacp_start_periodic_timer 0 (on_mif (fun m => m <| m_ntt := true |>) c) in
  if is_selected LACP_PORT_UNSELECTED c || is_selected LACP_PORT_STANDBY c ||
     negb (partner_has LACP_STATE_SYNCHRONIZATION c)
  then dispatch MUX_UNSELECTED c else Some c.

Definition mux_action (a : mux_action_t) : member_ctx -> option member_ctx :=
  match a with
  | ACT_DETACHED => lacp_mux_action_detached
  | ACT_WAITING => lacp_mux_action_waiting
  | ACT_ATTACHED => lacp_mux_action_attached
  | ACT_COLLECTING_DISTRIBUTING => lacp_mux_action_collecting_distributing
  end.

End MuxActions.

Fixpoint lacp_mux_dispatch (fuel : nat) (ev : lacp_mux_event_t) (c : member_ctx) : option member_ctx :=
  match fuel with
  | O => None
  | S fuel =>
      let '(action, next) :=
        fsm_transition lacp_mux_fsm_table mux_state_num (m_mux_state (c_mif c)) (mux_event_num ev) in
      let c := on_mif (fun m => m <| m_mux_state := next |>) c in
      match action with
      | None => Some c
      | Some a => mux_action (lacp_mux_dispatch fuel) a c
      end
  end.

(** Enough for every chain of events; see [mux_terminates]. *)
Definition MUX_FUEL : nat := 5.
Definition mux_run : lacp_mux_event_t -> member_ctx -> option member_ctx := lacp_mux_dispatch MUX_FUEL.

(** ** Selection logic *)

Definition set_selected (s : lacp_port_t) : member_ctx -> member_ctx := on_mif (fun m => m <| m_selected := s |>).

Definition same_system_key (p q : lacp_port_info_t) : bool :=
  bool_decide (pi_system p = pi_system q) && (pi_key p =? pi_key q).

(** The active member that fixes the partner of the bond. *)
Definition first_active (bm : bond_main_t) (b : bond_if_t) : option member_if_t :=
  p ← head (b_active_members b); i ← bond_get_member_by_sw_if_index bm p; Some (mif_at bm i).

Definition lacp_set_port_selected (mi : Z) (bm : bond_main_t) : option (bond_main_t * lacp_error_t) :=
  let m := mif_at bm mi in
  let b := bif_at bm (m_bif_dev_instance m) in
  let unselect e bm := bm ← run_ctx (fun c => mux_run MUX_UNSELECTED (set_selected LACP_PORT_UNSELECTED c)) mi bm; Some (bm, e) in
  if same_system_key (m_partner m) (m_actor m) then
    unselect LACP_ERROR_LOOPBACK_PORT
      (set_mif bm mi (m <| m_loopback_port := true |> <| m_actor := pi_clear LACP_STATE_AGGREGATION (m_actor m) |>))
  else if match first_active bm b with Some mif2 => negb (same_system_key (m_partner mif2) (m_partner m)) | None => false end
  then unselect LACP_ERROR_BAD_KEY bm
  else
    let bm := set_mif bm mi (m <| m_selected := LACP_PORT_SELECTED |>) in
    if match m_mux_state m with
       | MUX_WAITING => negb (m_ready m)
       | MUX_ATTACHED => negb (has (pi_state (m_partner m)) LACP_STATE_SYNCHRONIZATION)
       | _ => false
       end
    then Some (bm, LACP_ERROR_NONE)
    else bm ← run_ctx (mux_run MUX_SELECTED) mi bm; Some (bm, LACP_ERROR_NONE).

(** Members are given by [sw_if_index]; those without a [member_if_t] are skipped. *)
Definition not_ready (bm : bond_main_t) (sw_if_index : Z) : bool :=
  match bond_get_member_by_sw_if_index bm sw_if_index with
  | None => false
  | Some i => let m := mif_at bm i in has (pi_state (m_actor m)) LACP_STATE_SYNCHRONIZATION && negb (m_ready_n m)
  end.

Definition set_ready (bm : bond_main_t) (sw_if_index : Z) : option bond_main_t :=
  match bond_get_member_by_sw_if_index bm sw_if_index with
  | None => Some bm
  | Some i =>
      run_ctx (fun c =>
        let c := on_mif (fun m => m <| m_ready := true |>) c in
        if is_selected LACP_PORT_SELECTED c then mux_run MUX_READY c else Some c) i bm
  end.

Fixpoint set_all_ready (members : list Z) (bm : bond_main_t) : option bond_main_t :=
  match members with
  | [] => Some bm
  | sw :: members => bm ← set_ready bm sw; set_all_ready members bm
  end.

Definition lacp_selection_logic (mi : Z) (bm : bond_main_t) : option (bond_main_t * lacp_error_t) :=
  let members := b_members (bif_at bm (m_bif_dev_instance (mif_at bm mi))) in
  bm ← (if existsb (not_ready bm) members then Some bm else set_all_ready members bm);
  lacp_set_port_selected mi bm.

(** ** Receive machine *)

Definition lacp_set_port_unselected (c : member_ctx) : option member_ctx :=
  let c := set_selected LACP_PORT_UNSELECTED c in
  match m_mux_state (c_mif c) with
  | MUX_ATTACHED => Some c
  | MUX_COLLECTING_DISTRIBUTING =>
      if partner_has LACP_STATE_SYNCHRONIZATION c then Some c else mux_run MUX_UNSELECTED c
  | _ => mux_run MUX_UNSELECTED c
  end.

(** Unselects the port when its partner is not [p]. *)
Definition unselect_unless_partner (p : lacp_port_info_t) (c : member_ctx) : option member_ctx :=
  let partner := m_partner (c_mif c) in
  if negb (Bool.eqb (has (pi_state p) LACP_STATE_AGGREGATION) (has (pi_state partner) LACP_STATE_AGGREGATION)) ||
     negb (port_info_same partner p)
  then lacp_set_port_unselected c else Some c.

Definition lacp_update_default_selected (c : member_ctx) : option member_ctx :=
  unselect_unless_partner (m_partner_admin (c_mif c)) c.

Definition lacp_record_default (c : member_ctx) : member_ctx :=
  on_actor (pi_set LACP_STATE_DEFAULTED) (on_mif (fun m => m <| m_partner := m_partner_admin m |>) c).

Definition rx_pdu (c : member_ctx) : list Z := m_last_rx_pkt (c_mif c).

Definition lacp_update_selected (c : member_ctx) : option member_ctx :=
  unselect_unless_partner (lacpdu_actor (rx_pdu c)) c.

Definition lacp_update_ntt (c : member_ctx) : member_ctx :=
  let p := lacpdu_partner (rx_pdu c) in
  let actor := m_actor (c_mif c) in
  if negb (Z.land 15 (pi_state p) =? Z.land 15 (pi_state actor)) || negb (port_info_same actor p)
  then lacp_start_periodic_timer 0 (on_mif (fun m => m <| m_ntt := true |>) c) else c.

Definition lacp_compare_partner (c : member_ctx) : bool :=
  let pdu := rx_pdu c in
  (port_info_same (m_partner (c_mif c)) (lacpdu_actor pdu) &&
   Bool.eqb (actor_has LACP_STATE_AGGREGATION c) (has (pi_state (lacpdu_partner pdu)) LACP_STATE_AGGREGATION)) ||
  negb (has (pi_state (lacpdu_actor pdu)) LACP_STATE_AGGREGATION).

Definition lacp_record_pdu (c : member_ctx) : option member_ctx :=
  let a := lacpdu_actor (rx_pdu c) in
  c ← (if negb (partner_has LACP_STATE_LACP_ACTIVITY c) && has (pi_state a) LACP_STATE_LACP_ACTIVITY
       then lacp_ptx_post_short_timeout_event ptx_run c else Some c);
  let matched := lacp_compare_partner c in
  let c := on_actor (pi_clear LACP_STATE_DEFAULTED) (on_mif (fun m => m <| m_partner := a |>) c) in
  Some (on_partner (if matched && has (pi_state a) LACP_STATE_SYNCHRONIZATION
                    then pi_set LACP_STATE_SYNCHRONIZATION else pi_clear LACP_STATE_SYNCHRONIZATION) c).

(** Another port, disabled, had the partner that the PDU names. *)
Definition lacp_port_is_moved (mi : Z) (bm : bond_main_t) : bool :=
  let p := lacpdu_partner (m_last_rx_pkt (mif_at bm mi)) in
  existsb (fun '(j, mif2) =>
    negb (j =? mi) && bool_decide (m_rx_state mif2 = RX_PORT_DISABLED) &&
    bool_decide (pi_system (m_partner mif2) = pi_system p) && (pi_port_number (m_partner mif2) =? pi_port_number p))
    (pool_foreach (neighbors bm)).

Definition has_rx_pkt (m : member_if_t) : bool := negb (length (m_last_rx_pkt m) =? 0)%nat.

Section RxActions.
Variable mi : Z.
Variable dispatch : lacp_rx_event_t -> bond_main_t -> option (bond_main_t * lacp_error_t).

Definition post (ev : lacp_rx_event_t) (bm : bond_main_t) : option bond_main_t := fst <$> dispatch ev bm.

Definition lacp_set_port_moved (val : bool) (bm : bond_main_t) : option bond_main_t :=
  let bm := set_mif bm mi ((mif_at bm mi) <| m_port_moved := val |>) in
  if val then post RX_PORT_MOVED bm
  else if negb (m_port_enabled (mif_at bm mi)) then post RX_EV_PORT_DISABLED bm else Some bm.

Definition lacp_rx_action_initialize (bm : bond_main_t) : option bond_main_t :=
  bm ← run_ctx lacp_set_port_unselected mi bm;
  bm ← run_ctx (fun c => Some (on_actor (pi_clear LACP_STATE_EXPIRED) (lacp_record_default c))) mi bm;
  bm ← lacp_set_port_moved false bm;
  post RX_BEGIN bm.

Definition lacp_rx_action_port_disabled (bm : bond_main_t) : option bond_main_t :=
  bm ← run_ctx (fun c => Some (on_partner (pi_clear LACP_STATE_SYNCHRONIZATION) c)) mi bm;
  bm ← (if m_port_moved (mif_at bm mi) then post RX_PORT_MOVED bm else Some bm);
  if m_port_enabled (mif_at bm mi) then
    post (if m_lacp_enabled (mif_at bm mi) then RX_LACP_ENABLED else RX_EV_LACP_DISABLED) bm
  else Some bm.

Definition current_while_expired (m : member_if_t) : bool :=
  lacp_timer_is_running (m_current_while_timer m) && lacp_timer_is_expired (m_current_while_timer m).

Definition lacp_rx_action_expired (bm : bond_main_t) : option bond_main_t :=
  bm ← run_ctx (fun c => lacp_ptx_post_short_timeout_event ptx_run
         (on_partner (pi_set LACP_STATE_LACP_TIMEOUT) (on_partner (pi_clear LACP_STATE_SYNCHRONIZATION) c))) mi bm;
  let timer_expired := current_while_expired (mif_at bm mi) in
  bm ← run_ctx (fun c => Some (on_actor (pi_set LACP_STATE_EXPIRED) (lacp_start_current_while_timer c))) mi bm;
  bm ← (if timer_expired then post RX_TIMER_EXPIRED bm else Some bm);
  if has_rx_pkt (mif_at bm mi) then post RX_PDU_RECEIVED bm else Some bm.

Definition lacp_rx_action_lacp_disabled (bm : bond_main_t) : option bond_main_t :=
  bm ← run_ctx lacp_set_port_unselected mi bm;
  run_ctx (fun c => Some (on_actor (pi_clear LACP_STATE_EXPIRED)
    (on_partner (pi_clear LACP_STATE_AGGREGATION) (lacp_record_default c)))) mi bm.

Definition lacp_rx_action_defaulted (bm : bond_main_t) : option bond_main_t :=
  bm ← run_ctx (fun c => lacp_update_default_selected (on_mif (fun m => m <| m_current_while_timer := 0 |>) c)) mi bm;
  bm ← run_ctx (fun c => Some (on_actor (pi_clear LACP_STATE_EXPIRED) (lacp_record_default c))) mi bm;
  if has_rx_pkt (mif_at bm mi) then post RX_PDU_RECEIVED bm else Some bm.

Definition lacp_rx_action_current (bm : bond_main_t) : option (bond_main_t * lacp_error_t) :=
  bm ← run_ctx lacp_update_selected mi bm;
  bm ← run_ctx (fun c => lacp_record_pdu (lacp_update_ntt c)) mi bm;
  bm ← run_ctx (fun c => Some (on_actor (pi_clear LACP_STATE_EXPIRED) (lacp_start_current_while_timer c))) mi bm;
  bm ← (if lacp_port_is_moved mi bm then lacp_set_port_moved true bm else Some bm);
  lacp_selection_logic mi bm.

Definition rx_action (a : rx_action_t) (bm : bond_main_t) : option (bond_main_t * lacp_error_t) :=
  match a with
  | ACT_INITIALIZE => bm ← lacp_rx_action_initialize bm; Some (bm, LACP_ERROR_NONE)
  | ACT_PORT_DISABLED => bm ← lacp_rx_action_port_disabled bm; Some (bm, LACP_ERROR_NONE)
  | ACT_EXPIRED => bm ← lacp_rx_action_expired bm; Some (bm, LACP_ERROR_NONE)
  | ACT_LACP_DISABLED => bm ← lacp_rx_action_lacp_disabled bm; Some (bm, LACP_ERROR_NONE)
  | ACT_DEFAULTED => bm ← lacp_rx_action_defaulted bm; Some (bm, LACP_ERROR_NONE)
  | ACT_CURRENT => lacp_rx_action_current bm
  end.

End RxActions.

Fixpoint lacp_rx_dispatch (fuel : nat) (mi : Z) (ev : lacp_rx_event_t) (bm : bond_main_t)
  : option (bond_main_t * lacp_error_t) :=
  match fuel with
  | O => None
  | S fuel =>
      let m := mif_at bm mi in
      let '(action, next) := fsm_transition lacp_rx_fsm_table rx_state_num (m_rx_state m) (rx_event_num ev) in
      let bm := set_mif bm mi (m <| m_rx_state := next |>) in
      match action with
      | None => Some (bm, LACP_ERROR_NONE)
      | Some a => rx_action mi (lacp_rx_dispatch fuel mi) a bm
      end
  end.

(** Enough for every chain of events; see [lacp_dispatch_terminates]. *)
Definition RX_FUEL : nat := 9.
Definition rx_run : Z -> lacp_rx_event_t -> bond_main_t -> option (bond_main_t * lacp_error_t) := lacp_rx_dispatch RX_FUEL.

(** ** Input *)

(** [lacp_packet_scan] on [last_rx_pkt]. *)
Definition lacp_packet_scan (mi : Z) (bm : bond_main_t) : option (bond_main_t * lacp_error_t) :=
  let pkt := m_last_rx_pkt (mif_at bm mi) in
  if negb (lacpdu_subtype pkt =? 1) then Some (bm, LACP_ERROR_UNSUPPORTED)
  else if negb (lacpdu_actor_tlv_length pkt =? 20) || negb (lacpdu_partner_tlv_length pkt =? 20) ||
          negb (lacpdu_collector_tlv_length pkt =? 16) || negb (lacpdu_terminator_tlv_length pkt =? 0)
  then Some (bm, LACP_ERROR_BAD_TLV)
  else rx_run mi RX_PDU_RECEIVED bm.

(** The answer to a marker PDU: its information TLV, marked as a response. *)
Definition marker_fill_pdu (pkt : list Z) : list Z :=
  [2; 1] ++ (2 :: take 15 (drop 3 pkt)) ++ [0; 0] ++ repeat 0 90.

(** Only template 0 exists; with the initial index 255 the code reads past the array of
    templates, and the model sends nothing. *)
Definition send_ethernet_marker_response_pdu (c : member_ctx) : member_ctx :=
  let m := c_mif c in
  if negb (e_buffer env) || negb (m_packet_template_index m =? 0) then c
  else
    let frame := slow_protocol_header (e_hw_address env (m_sw_if_index m)) ++ marker_fill_pdu (m_last_marker_pkt m) in
    c <| c_out := c_out c ++ [LACP_PDU_SENT (m_sw_if_index m) frame] |>
      <| c_mif := m <| m_last_marker_pdu_sent_time := e_now env |>
                    <| m_marker_pdu_sent := u64 (m_marker_pdu_sent m + 1) |> |>.

Definition handle_marker_protocol (c : member_ctx) : member_ctx * lacp_error_t :=
  let pkt := m_last_marker_pkt (c_mif c) in
  if negb (get_u8 pkt 3 =? 16) || negb (get_u8 pkt 19 =? 0) then (c, LACP_ERROR_BAD_TLV)
  else (send_ethernet_marker_response_pdu c, LACP_ERROR_NONE).

Definition lacp_input_marker (c : member_ctx) (data : list Z) : member_ctx * lacp_error_t :=
  let c := on_mif (fun m => m <| m_last_marker_pdu_recd_time := e_now env |> <| m_last_marker_pkt := data |>) c in
  if (length data <? SIZEOF_LACP_PDU)%nat then
    (on_mif (fun m => m <| m_marker_bad_pdu_received := u64 (m_marker_bad_pdu_received m + 1) |>) c, LACP_ERROR_TOO_SMALL)
  else
    let '(c, e) := handle_marker_protocol c in
    (on_mif (fun m => m <| m_marker_pdu_received := u64 (m_marker_pdu_received m + 1) |>) c, e).

(** The part of [lacp_input] after the copy of the packet. *)
Definition lacp_input_pdu (mi : Z) (bm : bond_main_t) : option (bond_main_t * lacp_error_t) :=
  let m := mif_at bm mi in
  let signature := e_hash_memory env (m_last_rx_pkt m) in
  '(bm, e) ←
    (if m_last_packet_signature_valid m && (m_last_packet_signature m =? signature) &&
        (Z.land (pi_state (m_actor m)) LACP_STEADY_STATE =? LACP_STEADY_STATE)
     then bm ← run_ctx (fun c => Some (lacp_start_current_while_timer c)) mi bm; Some (bm, LACP_ERROR_CACHE_HIT)
     else
       '(bm, e) ← lacp_packet_scan mi bm;
       Some (set_mif bm mi ((mif_at bm mi) <| m_last_packet_signature_valid := true |>
                                           <| m_last_packet_signature := signature |>), e));
  let m := mif_at bm mi in
  Some (set_mif bm mi (m <| m_pdu_received := u64 (m_pdu_received m + 1) |> <| m_last_rx_pkt := [] |>), e).

(** [lacp_input] for a packet of contents [data] received on [sw_if_index]. *)
Definition lacp_input (sw_if_index : Z) (data : list Z) (bm : bond_main_t) : option (bond_main_t * lacp_error_t) :=
  match bond_get_member_by_sw_if_index bm sw_if_index with
  | None => Some (bm, LACP_ERROR_DISABLED)
  | Some mi =>
      if negb (m_mode (mif_at bm mi) =? BOND_MODE_LACP) then Some (bm, LACP_ERROR_DISABLED)
      else if get_u8 data 0 =? 2 then
        let '(c, e) := lacp_input_marker (load_ctx bm mi) data in Some (store_ctx bm mi c, e)
      else
        let m := (mif_at bm mi) <| m_last_rx_pkt := data |> <| m_last_lacpdu_recd_time := e_now env |> in
        if (length data <? SIZEOF_LACP_PDU)%nat then
          Some (set_mif bm mi (m <| m_bad_pdu_received := u64 (m_bad_pdu_received m + 1) |>), LACP_ERROR_TOO_SMALL)
        else lacp_input_pdu mi (set_mif bm mi m)
  end.

(** ** Periodic process *)

Definition lacp_periodic_member (mi : Z) (bm : bond_main_t) : option bond_main_t :=
  let m := mif_at bm mi in
  if negb (m_port_enabled m) then Some bm
  else
    bm ← (if current_while_expired m then fst <$> rx_run mi RX_TIMER_EXPIRED bm else Some bm);
    bm ← (if periodic_timer_expired (load_ctx bm mi) then run_ctx (ptx_run PTX_TIMER_EXPIRED) mi bm else Some bm);
    let m := mif_at bm mi in
    if lacp_timer_is_running (m_wait_while_timer m) && lacp_timer_is_expired (m_wait_while_timer m) then
      fst <$> lacp_selection_logic mi (set_mif bm mi (m <| m_ready_n := true |> <| m_wait_while_timer := 0 |>))
    else Some bm.

Fixpoint lacp_periodic_list (l : list Z) (bm : bond_main_t) : option bond_main_t :=
  match l with
  | [] => Some bm
  | mi :: l => bm ← lacp_periodic_member mi bm; lacp_periodic_list l bm
  end.

Definition lacp_periodic (bm : bond_main_t) : option bond_main_t :=
  lacp_periodic_list (map fst (pool_foreach (neighbors bm))) bm.

(** ** Start, stop and interface changes *)

Definition lacp_init_neighbor (m : member_if_t) (hw_address : list Z) (port_number group : Z) : member_if_t :=
  let m := m <| m_wait_while_timer := 0 |> <| m_current_while_timer := 0 |> <| m_periodic_timer := 0 |>
             <| m_last_lacpdu_sent_time := 0 |> <| m_last_lacpdu_recd_time := 0 |>
             <| m_last_marker_pdu_sent_time := 0 |> <| m_last_marker_pdu_recd_time := 0 |>
             <| m_lacp_enabled := true |> <| m_loopback_port := false |> <| m_ready := false |> <| m_ready_n := false |>
             <| m_port_moved := false |> <| m_ntt := false |> <| m_selected := LACP_PORT_UNSELECTED |> in
  let state := Z.lor LACP_STATE_AGGREGATION
    (Z.lor (if m_ttl_in_seconds m =? LACP_SHORT_TIMOUT_TIME then LACP_STATE_LACP_TIMEOUT else 0)
           (if m_is_passive m then 0 else LACP_STATE_LACP_ACTIVITY)) in
  let key := host_to_net_u16 (u16 group) in
  let number := host_to_net_u16 (u16 port_number) in
  let actor := mk_port_info (host_to_net_u16 0xffff) hw_address key (host_to_net_u16 0xff) number state in
  let partner := mk_port_info (host_to_net_u16 0xffff) (pi_system (m_partner m)) key (host_to_net_u16 0xff) number 0 in
  m <| m_actor := actor |> <| m_partner := partner |> <| m_actor_admin := actor |> <| m_partner_admin := partner |>.

Definition lacp_init_rx_machine (mi : Z) (bm : bond_main_t) : option bond_main_t :=
  bm ← fst <$> rx_run mi RX_BEGIN bm; fst <$> rx_run mi RX_LACP_ENABLED bm.

Definition lacp_init_state_machines (mi : Z) (bm : bond_main_t) : option bond_main_t :=
  bm ← run_ctx (fun c => Some (lacp_tx_dispatch TX_BEGIN c)) mi bm;
  bm ← run_ctx (mux_run MUX_BEGIN) mi bm;
  bm ← run_ctx (ptx_run PTX_EV_NO_PERIODIC) mi bm;
  lacp_init_rx_machine mi bm.

(** [clib_bitmap_first_clear] of the port numbers in use. *)
Fixpoint first_clear (fuel : nat) (used : gset Z) (n : Z) : Z :=
  match fuel with
  | O => n
  | S fuel => if bool_decide (n ∈ used) then first_clear fuel used (n + 1) else n
  end.

Definition lacp_interface_enable_disable (bm : bond_main_t) (bi mi : Z) (enable : bool) : option bond_main_t :=
  if enable then
    let b := bif_at bm bi in
    let port_number := first_clear (S (size (b_port_numbers b))) (b_port_numbers b) 0 in
    let bm := set_bif bm bi (b <| b_port_numbers := {[port_number]} ∪ b_port_numbers b |>) in
    let m := mif_at bm mi in
    let bm := set_mif bm mi (lacp_init_neighbor m (b_hw_address b) (port_number + 1) (m_group m)) in
    bm ← lacp_init_state_machines mi bm;
    Some (bm <| lacp_int := u32 (lacp_int bm + 1) |>)
  else Some (if lacp_int bm =? 0 then bm else bm <| lacp_int := lacp_int bm - 1 |>).

(** [lacp_sw_interface_up_down] and [lacp_hw_interface_up_down]: [up] when the interface
    is administratively up and its link is up. *)
Definition lacp_interface_up_down (sw_if_index : Z) (up : bool) (bm : bond_main_t) : option bond_main_t :=
  match bond_get_member_by_sw_if_index bm sw_if_index with
  | None => Some bm
  | Some mi =>
      if negb (m_lacp_enabled (mif_at bm mi)) then Some bm
      else
        let m := (mif_at bm mi) <| m_port_enabled := up |> in
        if up then Some (set_mif bm mi m)
        else
          let m := lacp_init_neighbor m (pi_system (m_actor_admin m)) (net_to_host_u16 (pi_port_number (m_actor_admin m)))
                     (net_to_host_u16 (pi_key (m_actor_admin m))) in
          lacp_init_state_machines mi (set_mif bm mi m)
  end.

End Lacp.
