(* ===== verification/LacpMux.v ===== *)
(** * LACP: the machines of one port

    Termination of the mux and periodic transmission machines, what they leave alone,
    and the invariant that ties the mux state of a port to the active members of its
    bond and to the bits that the port announces. *)

From stdpp Require Import gmap.
From S2P Require Import Prelude NetTypes Pool BondTypes Bond Lacp.

(** ** What the machines may change *)

(** A member without the fields that the mux and the transmission machines write; of the
    actor state, the three bits of the mux are cleared. *)
Definition mux_mask (m : member_if_t) : member_if_t :=
  m <| m_actor := pi_clear LACP_STEADY_STATE (m_actor m) |> <| m_ready := false |> <| m_ready_n := false |> <| m_ntt := false |>
    <| m_periodic_timer := 0 |> <| m_wait_while_timer := 0 |> <| m_mux_state := MUX_DETACHED |> <| m_is_local_numa := false |>
    <| m_ptx_state := PTX_NO_PERIODIC |> <| m_tx_state := TX_TRANSMIT |> <| m_packet_template_index := 0 |>
    <| m_last_lacpdu_sent_time := 0 |> <| m_pdu_sent := 0 |>.

(** The variables of the transmission machines. *)
Definition tx_fields (m : member_if_t) : lacp_ptx_sm_state_t * lacp_tx_sm_state_t * Z * Z * Z :=
  (m_ptx_state m, m_tx_state m, m_packet_template_index m, m_last_lacpdu_sent_time m, m_pdu_sent m).

(** What the mux does outside its own state: it transmits nothing, restarts the periodic timer only
    with a request to transmit, and starts the wait-while timer only when it is not running. *)
Record mux_touch (m m' : member_if_t) : Prop := {
  mt_tx : tx_fields m' = tx_fields m;
  mt_ntt : (m_periodic_timer m' = m_periodic_timer m /\ m_ntt m' = m_ntt m) \/ m_ntt m' = true;
  mt_wait : m_wait_while_timer m' = m_wait_while_timer m \/ m_wait_while_timer m = 0
}.

#[export] Instance mux_touch_refl : Reflexive mux_touch.
Proof. intros m. split; auto. Qed.

#[export] Instance mux_touch_trans : Transitive mux_touch.
Proof.
  intros m1 m2 m3 [A1 A2 A3] [B1 B2 B3]. split; [congruence| |].
  - destruct A2 as [[]|], B2 as [[]|]; [left; split; congruence|right; congruence..].
  - destruct A3 as [A3|A3]; [|now right]. rewrite <- A3. destruct B3 as [B3|B3]; [left|right]; exact B3.
Qed.

Definition bif_mask (b : bond_if_t) : bond_if_t := b <| b_active_members := [] |> <| b_n_numa_members := 0 |>.

(** The members of the NUMA node of the main thread come first; without the option, or without LACP
    ([en]), none are counted. *)
Record numa_ok (en : bool) (b : bond_if_t) : Prop := {
  nu_range : 0 <= b_n_numa_members b <= Z.of_nat (length (b_active_members b));
  nu_off : en && b_numa_only b = false -> b_n_numa_members b = 0
}.

(** The active members other than [sw] are the same. *)
Record active_frame (en : bool) (sw : Z) (b b' : bond_if_t) : Prop := {
  af_nodup : NoDup (b_active_members b) -> NoDup (b_active_members b');
  af_other : forall sw', sw' <> sw -> sw' ∈ b_active_members b' <-> sw' ∈ b_active_members b;
  af_numa : numa_ok en b -> numa_ok en b'
}.

Record mux_frame (c c' : member_ctx) : Prop := {
  mx_mif : mux_mask (c_mif c') = mux_mask (c_mif c);
  mx_bif : bif_mask (c_bif c') = bif_mask (c_bif c);
  mx_active : active_frame (m_lacp_enabled (c_mif c)) (m_sw_if_index (c_mif c)) (c_bif c) (c_bif c')
}.

Lemma active_frame_refl en sw b : active_frame en sw b b.
Proof. split; [auto|reflexivity|auto]. Qed.

Lemma active_frame_trans en sw b1 b2 b3 : active_frame en sw b1 b2 -> active_frame en sw b2 b3 -> active_frame en sw b1 b3.
Proof. intros [H1 H2 H3] [H4 H5 H6]. split; [auto| |auto]. intros s Hs. now rewrite H5, H2. Qed.

#[export] Instance mux_frame_refl : Reflexive mux_frame.
Proof. intros c. split; [reflexivity..|apply active_frame_refl]. Qed.

Lemma mux_frame_sw c c' : mux_frame c c' -> m_sw_if_index (c_mif c') = m_sw_if_index (c_mif c).
Proof. intros H. exact (f_equal m_sw_if_index (mx_mif _ _ H)). Qed.

Lemma mux_frame_enabled c c' : mux_frame c c' -> m_lacp_enabled (c_mif c') = m_lacp_enabled (c_mif c).
Proof. intros H. exact (f_equal m_lacp_enabled (mx_mif _ _ H)). Qed.

#[export] Instance mux_frame_trans : Transitive mux_frame.
Proof.
  intros c1 c2 c3 H12 H23. pose proof (mux_frame_sw _ _ H12) as E. pose proof (mux_frame_enabled _ _ H12) as E0. destruct H12 as [A1 A2 A3], H23 as [B1 B2 B3].
  split; [congruence..|]. rewrite E, E0 in B3. exact (active_frame_trans _ _ _ _ _ A3 B3).
Qed.

(** A step that changes masked fields of the member only. *)
Lemma on_mif_frame f c : (forall m, mux_mask (f m) = mux_mask m) -> mux_frame c (on_mif f c).
Proof. intros H. split; [apply H|reflexivity|apply active_frame_refl]. Qed.

Lemma ldiff_steady_set st f : Z.ldiff f LACP_STEADY_STATE = 0 -> Z.ldiff (Z.lor st f) LACP_STEADY_STATE = Z.ldiff st LACP_STEADY_STATE.
Proof.
  intros Hf. apply Z.bits_inj'. intros i Hi. rewrite !Z.ldiff_spec, Z.lor_spec.
  pose proof (f_equal (fun x => Z.testbit x i) Hf) as E. cbn beta in E. rewrite Z.ldiff_spec, Z.bits_0 in E.
  destruct (Z.testbit st i), (Z.testbit f i), (Z.testbit LACP_STEADY_STATE i); easy.
Qed.

Lemma ldiff_steady_clear st f : Z.ldiff f LACP_STEADY_STATE = 0 -> Z.ldiff (Z.ldiff st f) LACP_STEADY_STATE = Z.ldiff st LACP_STEADY_STATE.
Proof.
  intros Hf. apply Z.bits_inj'. intros i Hi. rewrite !Z.ldiff_spec.
  pose proof (f_equal (fun x => Z.testbit x i) Hf) as E. cbn beta in E. rewrite Z.ldiff_spec, Z.bits_0 in E.
  destruct (Z.testbit st i), (Z.testbit f i), (Z.testbit LACP_STEADY_STATE i); easy.
Qed.

Lemma actor_mask f m :
  (forall p, pi_clear LACP_STEADY_STATE (f p) = pi_clear LACP_STEADY_STATE p) ->
  mux_mask (m <| m_actor := f (m_actor m) |>) = mux_mask m.
Proof. intros Hf. unfold mux_mask. cbn [m_actor set_field]. now rewrite Hf. Qed.

Lemma on_actor_set_frame f c : Z.ldiff f LACP_STEADY_STATE = 0 -> mux_frame c (on_actor (pi_set f) c).
Proof.
  intros Hf. apply on_mif_frame. intros m. apply actor_mask. intros p. unfold pi_clear, pi_set. cbn [pi_state set_field].
  now rewrite ldiff_steady_set.
Qed.

Lemma on_actor_clear_frame f c : Z.ldiff f LACP_STEADY_STATE = 0 -> mux_frame c (on_actor (pi_clear f) c).
Proof.
  intros Hf. apply on_mif_frame. intros m. apply actor_mask. intros p. unfold pi_clear. cbn [pi_state set_field].
  now rewrite ldiff_steady_clear.
Qed.

(** ** The vector of active members *)

Lemma vec_search_eqb (l : list Z) x n : vec_search (Z.eqb x) l = Some n -> l !! n = Some x.
Proof. intros H. destruct (vec_search_lookup _ _ _ H) as (y & Hy & E). apply Z.eqb_eq in E. now subst y. Qed.

Lemma vec_search_none (l : list Z) x : vec_search (Z.eqb x) l = None -> x ∉ l.
Proof. intros H Hx. destruct (vec_search_complete (Z.eqb x) l x Hx (Z.eqb_refl x)) as [n E]. congruence. Qed.

Lemma vec_del1_length {A} (l : list A) n x : l !! n = Some x -> length (vec_del1 l n) = (length l - 1)%nat.
Proof. intros H. rewrite (Permutation_length (vec_del1_perm _ _ _ H)). rewrite (length_delete l n) by eauto. reflexivity. Qed.

(** What disabling does: the port is not active any more. *)
Lemma bond_disable_spec c :
  let c' := bond_disable_collecting_distributing c in
  c_mif c' = c_mif c /\ bif_mask (c_bif c') = bif_mask (c_bif c) /\
  active_frame (m_lacp_enabled (c_mif c)) (m_sw_if_index (c_mif c)) (c_bif c) (c_bif c') /\
  (NoDup (b_active_members (c_bif c)) -> m_sw_if_index (c_mif c) ∉ b_active_members (c_bif c')).
Proof.
  cbv zeta. unfold bond_disable_collecting_distributing. set (sw := m_sw_if_index (c_mif c)). set (b := c_bif c). set (en := m_lacp_enabled (c_mif c)).
  destruct (vec_search (Z.eqb sw) (b_active_members b)) as [n|] eqn:E.
  2: { split; [reflexivity|]. split; [reflexivity|]. split; [apply active_frame_refl|]. intros _. now apply vec_search_none. }
  apply vec_search_eqb in E. cbv zeta. set (b1 := b <| b_active_members := vec_del1 (b_active_members b) n |>).
  set (b2 := if _ && _ && _ then b1 <| b_n_numa_members := _ |> else b1).
  assert (b_active_members b2 = vec_del1 (b_active_members b) n) as Ea by (subst b2; now destruct (_ && _)).
  assert (bif_mask b2 = bif_mask b) as Eb by (subst b2; now destruct (_ && _)).
  assert (numa_ok en b -> numa_ok en b2) as Hnuma.
  { intros [H1 H2]. assert (n < length (b_active_members b))%nat as Hlt by (apply lookup_lt_is_Some; eauto).
    assert (Z.of_nat (length (vec_del1 (b_active_members b) n)) = Z.of_nat (length (b_active_members b)) - 1) as Hlen by (rewrite (vec_del1_length _ _ _ E); lia).
    subst b2. destruct (en && b_numa_only b1 && (Z.of_nat n <? b_n_numa_members b1)) eqn:Et.
    - apply andb_true_iff in Et as [Et1 Et2]. apply Z.ltb_lt in Et2. change (b_n_numa_members b1) with (b_n_numa_members b) in Et2.
      split; cbn; [rewrite Hlen; lia|]. change (b_numa_only b1) with (b_numa_only b) in Et1. congruence.
    - split; cbn; [|exact H2]. rewrite Hlen. apply andb_false_iff in Et as [Et|Et]; [rewrite (H2 Et) in *; lia|].
      apply Z.ltb_ge in Et. change (b_n_numa_members b1) with (b_n_numa_members b) in Et. lia. }
  clearbody b2. assert (active_frame en sw b b2) as Hf.
  { split; [| |exact Hnuma]; rewrite Ea; [intros Hn; exact (vec_del1_nodup _ _ _ Hn E)|].
    intros sw' Hne. rewrite (vec_del1_perm _ _ _ E). split; [apply elem_of_delete|]. intros Hin. exact (delete_elem _ _ _ _ E Hin Hne). }
  assert (NoDup (b_active_members b) -> sw ∉ b_active_members b2) as Hno.
  { rewrite Ea. intros Hn. rewrite (vec_del1_elem _ _ _ _ Hn E). now intros [_ ?]. }
  destruct (_ && _ && _); (split; [reflexivity|]; split; [exact Eb|]; split; [exact Hf|exact Hno]).
Qed.

Section Port.
Variable env : bond_env.
Variable qsort : list Z -> list Z.
Hypothesis Hqsort : forall l, qsort l ≡ₚ l.

(** What enabling does: the port is active. *)
Lemma bond_enable_spec c :
  let c' := bond_enable_collecting_distributing env qsort c in
  mux_frame c c' /\ m_sw_if_index (c_mif c) ∈ b_active_members (c_bif c') /\
  m_mux_state (c_mif c') = m_mux_state (c_mif c) /\ m_actor (c_mif c') = m_actor (c_mif c).
Proof.
  cbv zeta. unfold bond_enable_collecting_distributing. set (sw := m_sw_if_index (c_mif c)). set (b := c_bif c). set (en := m_lacp_enabled (c_mif c)).
  destruct (vec_search (Z.eqb sw) (b_active_members b)) as [n|] eqn:E.
  - apply vec_search_eqb in E. split; [reflexivity|]. split; [exact (list_elem_of_lookup_2 _ _ _ E)|now split].
  - apply vec_search_none in E. set (b1 := if _ && _ && _ then _ else _).
    assert (b_active_members b1 ≡ₚ sw :: b_active_members b) as Ea.
    { subst b1. destruct (_ && _ && _); cbn.
      - now rewrite <- Permutation_middle, take_drop.
      - now rewrite Permutation_app_comm. }
    assert (bif_mask b1 = bif_mask b) as Eb by (subst b1; now destruct (_ && _ && _)).
    assert (numa_ok en b -> numa_ok en b1) as Hnuma.
    { intros [H1 H2]. assert (Z.of_nat (length (b_active_members b1)) = Z.of_nat (length (b_active_members b)) + 1) as Hlen
        by (rewrite (Permutation_length Ea); cbn [length]; lia).
      split; [rewrite Hlen|]; subst b1; destruct (en && b_numa_only b && _) eqn:Et; cbn; try lia; [|exact H2].
      apply andb_true_iff in Et as [Et _]. congruence. }
    clearbody b1.
    assert (forall b2, bif_mask b2 = bif_mask b1 -> b_active_members b2 ≡ₚ b_active_members b1 -> b_n_numa_members b2 = b_n_numa_members b1 ->
      bif_mask b2 = bif_mask b /\ active_frame en sw b b2 /\ sw ∈ b_active_members b2) as Hfin.
    { intros b2 Em Ep En. pose proof (f_equal b_numa_only Em) as Eo. change (b_numa_only b2 = b_numa_only b1) in Eo.
      split; [congruence|]. split; [|rewrite Ep, Ea; left]. split.
      - intros Hn. rewrite Ep, Ea. now constructor.
      - intros sw' Hne. rewrite Ep, Ea, elem_of_cons. intuition.
      - intros H. destruct (Hnuma H) as [H1 H2]. split; rewrite En, ?Eo; [|exact H2]. now rewrite (Permutation_length Ep). }
    set (c1 := c <| c_bif := b1 |> <| c_mif := _ |>).
    assert (forall c2, c_mif c2 = c_mif c1 -> bif_mask (c_bif c2) = bif_mask b1 -> b_active_members (c_bif c2) ≡ₚ b_active_members b1 ->
      b_n_numa_members (c_bif c2) = b_n_numa_members b1 ->
      mux_frame c c2 /\ sw ∈ b_active_members (c_bif c2) /\ m_mux_state (c_mif c2) = m_mux_state (c_mif c) /\ m_actor (c_mif c2) = m_actor (c_mif c)) as Hres.
    { intros c2 E1 E2 E3 E4. destruct (Hfin _ E2 E3 E4) as (F1 & F2 & F3). split; [split; [now rewrite E1|exact F1|exact F2]|].
      split; [exact F3|]. now rewrite E1. }
    destruct (b_mode b1 =? BOND_MODE_ACTIVE_BACKUP); [|now apply Hres].
    destruct (length (b_active_members b1) =? 1)%nat; [now apply Hres|]. unfold bond_sort_members. cbv zeta. destruct (bool_decide _); (apply Hres; [reflexivity|reflexivity|apply Hqsort|reflexivity]).
Qed.

(** ** Frames of the machines *)

Ltac mif_frame := apply on_mif_frame; intros; reflexivity.

Lemma start_periodic_frame e c : mux_frame c (lacp_start_periodic_timer env e c).
Proof. mif_frame. Qed.

Lemma schedule_periodic_frame c : mux_frame c (lacp_schedule_periodic_timer env c).
Proof. unfold lacp_schedule_periodic_timer. destruct (_ || _); apply start_periodic_frame. Qed.

Lemma send_pdu_frame c : mux_frame c (lacp_send_lacp_pdu env c).
Proof.
  unfold lacp_send_lacp_pdu. destruct (_ || _); [mif_frame|]. cbv zeta. set (c1 := if _ =? 255 then _ else c).
  assert (mux_frame c c1) as H1 by (subst c1; destruct (_ =? 255); [mif_frame|reflexivity]).
  destruct (_ =? 0); [|exact H1]. transitivity c1; [exact H1|]. unfold lacp_send_ethernet_lacp_pdu.
  destruct (negb _); [reflexivity|]. split; [reflexivity..|apply active_frame_refl].
Qed.

Lemma tx_dispatch_frame ev c : mux_frame c (lacp_tx_dispatch env ev c).
Proof.
  unfold lacp_tx_dispatch. destruct (fsm_transition _ _ _ _) as [[[]|] next].
  - transitivity (on_mif (fun m => m <| m_tx_state := next |>) c); [mif_frame|]. unfold lacp_tx_action_transmit.
    destruct (negb _); [reflexivity|]. destruct (_ <=? _); [reflexivity|].
    set (c1 := if m_ntt _ then _ else _). transitivity c1; [|mif_frame]. subst c1. destruct (m_ntt _); [|reflexivity].
    transitivity (lacp_send_lacp_pdu env (on_mif (fun m => m <| m_tx_state := next |>) c)); [apply send_pdu_frame|apply schedule_periodic_frame].
  - mif_frame.
Qed.

(** Fields that the transmission machines leave alone as well. *)
Definition ptx_same (c c' : member_ctx) : Prop :=
  mux_frame c c' /\ m_mux_state (c_mif c') = m_mux_state (c_mif c) /\ m_actor (c_mif c') = m_actor (c_mif c) /\
  m_ready (c_mif c') = m_ready (c_mif c) /\ m_ready_n (c_mif c') = m_ready_n (c_mif c) /\
  m_wait_while_timer (c_mif c') = m_wait_while_timer (c_mif c) /\ c_bif c' = c_bif c.

Lemma ptx_same_refl c : ptx_same c c.
Proof. split; [reflexivity|now repeat split]. Qed.

Lemma ptx_same_trans c1 c2 c3 : ptx_same c1 c2 -> ptx_same c2 c3 -> ptx_same c1 c3.
Proof.
  intros (A1 & A2 & A3 & A4 & A5 & A6 & A7) (B1 & B2 & B3 & B4 & B5 & B6 & B7).
  split; [now transitivity c2|]. repeat split; congruence.
Qed.

Lemma ptx_same_mif f c :
  (forall m, mux_mask (f m) = mux_mask m /\ m_mux_state (f m) = m_mux_state m /\ m_actor (f m) = m_actor m /\
     m_ready (f m) = m_ready m /\ m_ready_n (f m) = m_ready_n m /\ m_wait_while_timer (f m) = m_wait_while_timer m) -> ptx_same c (on_mif f c).
Proof.
  intros H. destruct (H (c_mif c)) as (E1 & E2 & E3 & E4 & E5 & E6). split; [apply on_mif_frame; intros m; apply H|]. now repeat split.
Qed.

Ltac mif_same := apply ptx_same_mif; intros; repeat split; reflexivity.

Lemma start_periodic_same e c : ptx_same c (lacp_start_periodic_timer env e c).
Proof. mif_same. Qed.

Lemma schedule_periodic_same c : ptx_same c (lacp_schedule_periodic_timer env c).
Proof. unfold lacp_schedule_periodic_timer. destruct (_ || _); mif_same. Qed.

Lemma tx_dispatch_same ev c : ptx_same c (lacp_tx_dispatch env ev c).
Proof.
  split; [apply tx_dispatch_frame|]. unfold lacp_tx_dispatch. destruct (fsm_transition _ _ _ _) as [[[]|] next]; [|repeat split].
  unfold lacp_tx_action_transmit. destruct (negb _); [repeat split|]. destruct (_ <=? _); [repeat split|].
  destruct (m_ntt _); [|repeat split]. set (c0 := on_mif _ c).
  assert (ptx_same c0 (lacp_send_lacp_pdu env c0)) as Hs.
  { split; [apply send_pdu_frame|]. unfold lacp_send_lacp_pdu. destruct (_ || _); [repeat split|]. cbv zeta.
    destruct (_ =? 255); (destruct (_ =? 0); [|repeat split]); unfold lacp_send_ethernet_lacp_pdu; destruct (negb _); repeat split. }
  destruct (ptx_same_trans _ _ _ Hs (schedule_periodic_same (lacp_send_lacp_pdu env c0))) as (_ & E1 & E2 & E3 & E4 & E5 & E6).
  repeat split; assumption.
Qed.

(** The conditions of the actions. *)
Lemma ptx_same_partner c c' : ptx_same c c' -> m_partner (c_mif c') = m_partner (c_mif c).
Proof. intros [H _]. exact (f_equal m_partner (mx_mif _ _ H)). Qed.

Lemma ptx_same_active c c' : ptx_same c c' -> lacp_active c' = lacp_active c.
Proof.
  intros H. pose proof (ptx_same_partner _ _ H) as Ep. destruct H as (_ & _ & Ea & _). unfold lacp_active, partner_has, actor_has.
  now rewrite Ep, Ea.
Qed.

Lemma ptx_same_flag f c c' : ptx_same c c' -> partner_has f c' = partner_has f c.
Proof. intros H. unfold partner_has. now rewrite (ptx_same_partner _ _ H). Qed.

(** ** The periodic transmission machine *)

Definition ptx_ends (n : nat) (ev : lacp_ptx_event_t) (c : member_ctx) : Prop :=
  exists c', lacp_ptx_dispatch env n ev c = Some c' /\ ptx_same c c'.

Lemma ptx_step n ev c a next :
  fsm_transition lacp_ptx_fsm_table ptx_state_num (m_ptx_state (c_mif c)) (ptx_event_num ev) = (a, next) ->
  lacp_ptx_dispatch env (S n) ev c =
  let c := on_mif (fun m => m <| m_ptx_state := next |>) c in
  match a with None => Some c | Some a => ptx_action env (lacp_ptx_dispatch env n) a c end.
Proof. intros E. cbn [lacp_ptx_dispatch]. now rewrite E. Qed.

Lemma ptx_state_same s c : ptx_same c (on_mif (fun m => m <| m_ptx_state := s |>) c).
Proof. mif_same. Qed.

(** The result of a dispatch from a state that is the same as [c]. *)
Lemma ptx_ends_from n ev c0 c :
  ptx_same c0 c -> ptx_ends n ev c -> exists c', lacp_ptx_dispatch env n ev c = Some c' /\ ptx_same c0 c'.
Proof. intros H0 (c' & E & H). exists c'. split; [exact E|]. exact (ptx_same_trans _ _ _ H0 H). Qed.

Ltac ptx_enter next :=
  match goal with |- ptx_ends _ _ ?c =>
    unfold ptx_ends; rewrite (ptx_step _ _ c _ next) by (first [reflexivity | match goal with E : m_ptx_state _ = _ |- _ => rewrite E; reflexivity end]);
    cbv zeta; pose proof (ptx_state_same next c) as Hs0; set (c0 := on_mif (fun m => m <| m_ptx_state := next |>) c) in *
  end.

Lemma ptx_quiet n ev c :
  m_ptx_state (c_mif c) = PTX_PERIODIC_TX -> ev = PTX_LONG_TIMEOUT \/ ev = PTX_SHORT_TIMEOUT -> ptx_ends (S n) ev c.
Proof. intros E [-> | ->]; ptx_enter PTX_PERIODIC_TX; exists c0; now split. Qed.

Lemma ptx_inactive n c : lacp_active c = false -> ptx_ends (S n) PTX_EV_NO_PERIODIC c.
Proof.
  intros Ha. unfold ptx_ends. rewrite (ptx_step _ _ c (Some ACT_NO_PERIODIC) PTX_NO_PERIODIC) by (now destruct (m_ptx_state (c_mif c))).
  cbv zeta. cbn [ptx_action]. unfold lacp_ptx_action_no_periodic, lacp_ptx_post_short_timeout_event. set (c1 := on_mif _ _).
  assert (ptx_same c c1) as H1 by (apply ptx_same_trans with (on_mif (fun m => m <| m_ptx_state := PTX_NO_PERIODIC |>) c); mif_same).
  rewrite (ptx_same_active _ _ H1), Ha, andb_false_r. now exists c1.
Qed.

Lemma send_ptx_state c : m_ptx_state (c_mif (lacp_send_lacp_pdu env c)) = m_ptx_state (c_mif c).
Proof.
  unfold lacp_send_lacp_pdu. destruct (_ || _); [reflexivity|]. cbv zeta. unfold lacp_send_ethernet_lacp_pdu.
  destruct (_ =? 255); (destruct (_ =? 0); [destruct (negb _)|]); reflexivity.
Qed.

Lemma schedule_ptx_state c : m_ptx_state (c_mif (lacp_schedule_periodic_timer env c)) = m_ptx_state (c_mif c).
Proof. unfold lacp_schedule_periodic_timer. now destruct (_ || _). Qed.

Lemma tx_dispatch_ptx_state ev c : m_ptx_state (c_mif (lacp_tx_dispatch env ev c)) = m_ptx_state (c_mif c).
Proof.
  unfold lacp_tx_dispatch. destruct (fsm_transition _ _ _ _) as [[[]|] next]; [|reflexivity]. unfold lacp_tx_action_transmit.
  destruct (negb _); [reflexivity|]. destruct (_ <=? _); [reflexivity|]. destruct (m_ntt _); [|reflexivity].
  change (m_ptx_state (c_mif (lacp_schedule_periodic_timer env (lacp_send_lacp_pdu env (on_mif (fun m => m <| m_tx_state := next |>) c)))) = m_ptx_state (c_mif c)).
  now rewrite schedule_ptx_state, send_ptx_state.
Qed.

Lemma ptx_timer_action n c :
  m_ptx_state (c_mif c) = PTX_PERIODIC_TX ->
  exists c', lacp_ptx_action_timer_expired env (lacp_ptx_dispatch env (S n)) c = Some c' /\ ptx_same c c'.
Proof.
  intros E. unfold lacp_ptx_action_timer_expired. destruct (lacp_active c) eqn:Ha; cbn [negb]; [|now apply ptx_inactive].
  set (c1 := on_mif _ c). assert (ptx_same c c1) as H1 by mif_same.
  pose proof (ptx_same_trans _ _ _ H1 (tx_dispatch_same TX_NTT c1)) as H2. set (c2 := lacp_tx_dispatch _ _ _) in *.
  assert (m_ptx_state (c_mif c2) = PTX_PERIODIC_TX) as E2.
  { subst c2. now rewrite tx_dispatch_ptx_state. }
  cbv zeta. destruct (partner_has _ c2); apply (ptx_ends_from _ _ _ _ H2), ptx_quiet; auto.
Qed.

Lemma ptx_timer n c : m_ptx_state (c_mif c) <> PTX_NO_PERIODIC -> ptx_ends (S (S n)) PTX_TIMER_EXPIRED c.
Proof.
  intros Hne. unfold ptx_ends. rewrite (ptx_step _ _ c (Some ACT_TIMER_EXPIRED) PTX_PERIODIC_TX) by (now destruct (m_ptx_state (c_mif c))).
  cbv zeta. pose proof (ptx_state_same PTX_PERIODIC_TX c) as Hs. set (c0 := on_mif _ c) in *.
  destruct (ptx_timer_action n c0 eq_refl) as (c' & E & H). exists c'. split; [exact E|]. exact (ptx_same_trans _ _ _ Hs H).
Qed.

Lemma ptx_slow n c : m_ptx_state (c_mif c) <> PTX_PERIODIC_TX -> ptx_ends (S (S (S n))) PTX_LONG_TIMEOUT c.
Proof.
  intros Hne. unfold ptx_ends. rewrite (ptx_step _ _ c (Some ACT_SLOW_PERIODIC) PTX_SLOW_PERIODIC) by (now destruct (m_ptx_state (c_mif c))).
  cbv zeta. pose proof (ptx_state_same PTX_SLOW_PERIODIC c) as Hs.
  set (c0 := on_mif (fun m => m <| m_ptx_state := PTX_SLOW_PERIODIC |>) c) in *. cbn [ptx_action]. unfold lacp_ptx_action_slow_periodic.
  destruct (lacp_active c0) eqn:Ha; cbn [negb]; [|apply (ptx_ends_from _ _ _ _ Hs); now apply ptx_inactive].
  pose proof (ptx_same_trans _ _ _ Hs (schedule_periodic_same c0)) as H2.
  assert (m_ptx_state (c_mif (lacp_schedule_periodic_timer env c0)) = PTX_SLOW_PERIODIC) as E2
    by (now rewrite schedule_ptx_state).
  set (c2 := lacp_schedule_periodic_timer env c0) in *. clearbody c2. cbv zeta.
  destruct (_ || _); [|now exists c2]. apply (ptx_ends_from _ _ _ _ H2), ptx_timer. now rewrite E2.
Qed.

Lemma ptx_long n c : ptx_ends (S (S (S n))) PTX_LONG_TIMEOUT c.
Proof. destruct (decide (m_ptx_state (c_mif c) = PTX_PERIODIC_TX)); [apply ptx_quiet; auto|now apply ptx_slow]. Qed.

Lemma ptx_short n c : ptx_ends (S (S (S (S n)))) PTX_SHORT_TIMEOUT c.
Proof.
  destruct (decide (m_ptx_state (c_mif c) = PTX_PERIODIC_TX)) as [|Hne]; [apply ptx_quiet; auto|].
  unfold ptx_ends. rewrite (ptx_step _ _ c (Some ACT_FAST_PERIODIC) PTX_FAST_PERIODIC) by (now destruct (m_ptx_state (c_mif c))).
  cbv zeta. pose proof (ptx_state_same PTX_FAST_PERIODIC c) as Hs.
  set (c0 := on_mif (fun m => m <| m_ptx_state := PTX_FAST_PERIODIC |>) c) in *. cbn [ptx_action]. unfold lacp_ptx_action_fast_periodic.
  destruct (lacp_active c0) eqn:Ha; cbn [negb]; [|apply (ptx_ends_from _ _ _ _ Hs); now apply ptx_inactive].
  pose proof (ptx_same_trans _ _ _ Hs (start_periodic_same LACP_FAST_PERIODIC_TIMER c0)) as H1.
  assert (m_ptx_state (c_mif (lacp_start_periodic_timer env LACP_FAST_PERIODIC_TIMER c0)) <> PTX_NO_PERIODIC) as E1 by (cbn; discriminate).
  set (c1 := lacp_start_periodic_timer env LACP_FAST_PERIODIC_TIMER c0) in *. clearbody c1.
  assert (exists c2, (if periodic_timer_expired env c0 then lacp_ptx_dispatch env (S (S (S n))) PTX_TIMER_EXPIRED c1 else Some c1) = Some c2 /\ ptx_same c c2)
    as (c2 & E2 & H2).
  { destruct (periodic_timer_expired env c0); [|now exists c1]. apply (ptx_ends_from _ _ _ _ H1). now apply ptx_timer. }
  rewrite E2. cbn [mbind option_bind]. destruct (negb _); [|now exists c2]. apply (ptx_ends_from _ _ _ _ H2), ptx_long.
Qed.

(** Every event ends, and leaves what belongs to the other machines alone. *)
Lemma ptx_terminates ev c : ptx_ends PTX_FUEL ev c.
Proof.
  assert (forall c, exists c', lacp_ptx_action_no_periodic (lacp_ptx_dispatch env 4) c = Some c' /\ ptx_same c c') as Hno.
  { intros c0. unfold lacp_ptx_action_no_periodic, lacp_ptx_post_short_timeout_event. set (c1 := on_mif _ c0).
    assert (ptx_same c0 c1) as H1 by mif_same. destruct (_ && _); [|now exists c1]. apply (ptx_ends_from _ _ _ _ H1), ptx_short. }
  destruct ev; [| apply ptx_long | | apply ptx_short].
  - unfold ptx_ends, PTX_FUEL. rewrite (ptx_step _ _ c (Some ACT_NO_PERIODIC) PTX_NO_PERIODIC) by (now destruct (m_ptx_state (c_mif c))).
    destruct (Hno (on_mif (fun m => m <| m_ptx_state := PTX_NO_PERIODIC |>) c)) as (c' & E & H). exists c'. split; [exact E|].
    exact (ptx_same_trans _ _ _ (ptx_state_same _ _) H).
  - destruct (decide (m_ptx_state (c_mif c) = PTX_NO_PERIODIC)) as [E0|Hne]; [|now apply ptx_timer].
    unfold ptx_ends, PTX_FUEL. rewrite (ptx_step _ _ c (Some ACT_NO_PERIODIC) PTX_NO_PERIODIC) by (now rewrite E0).
    destruct (Hno (on_mif (fun m => m <| m_ptx_state := PTX_NO_PERIODIC |>) c)) as (c' & E & H). exists c'. split; [exact E|].
    exact (ptx_same_trans _ _ _ (ptx_state_same _ _) H).
Qed.

(** ** The mux machine *)

(** The port is active in state [s] exactly if [s] is [MUX_COLLECTING_DISTRIBUTING], and announces the bits
    of that state. *)
Record port_ok (s : lacp_mux_sm_state_t) (c : member_ctx) : Prop := {
  po_nodup : NoDup (b_active_members (c_bif c));
  po_active : m_sw_if_index (c_mif c) ∈ b_active_members (c_bif c) <-> s = MUX_COLLECTING_DISTRIBUTING;
  po_collecting : actor_has LACP_STATE_COLLECTING c = bool_decide (s = MUX_COLLECTING_DISTRIBUTING);
  po_distributing : actor_has LACP_STATE_DISTRIBUTING c = bool_decide (s = MUX_COLLECTING_DISTRIBUTING);
  po_sync : actor_has LACP_STATE_SYNCHRONIZATION c = bool_decide (s = MUX_ATTACHED \/ s = MUX_COLLECTING_DISTRIBUTING)
}.

Definition mux_ok (c : member_ctx) : Prop := port_ok (m_mux_state (c_mif c)) c.

(** The state that the selection of the port, [ready] and the partner ask for. *)
Definition mux_settled (m : member_if_t) : Prop :=
  match m_selected m with
  | LACP_PORT_UNSELECTED => m_mux_state m = MUX_DETACHED
  | LACP_PORT_STANDBY => m_mux_state m = MUX_WAITING
  | LACP_PORT_SELECTED =>
      match m_mux_state m with
      | MUX_DETACHED => False
      | MUX_WAITING => m_ready m = false
      | MUX_ATTACHED => has (pi_state (m_partner m)) LACP_STATE_SYNCHRONIZATION = false
      | MUX_COLLECTING_DISTRIBUTING => has (pi_state (m_partner m)) LACP_STATE_SYNCHRONIZATION = true
      end
  end.

Definition mux_post (c c' : member_ctx) : Prop := mux_frame c c' /\ mux_ok c' /\ mux_settled (c_mif c').

Lemma mux_frame_selected c c' : mux_frame c c' -> m_selected (c_mif c') = m_selected (c_mif c).
Proof. intros H. exact (f_equal m_selected (mx_mif _ _ H)). Qed.

Lemma mux_frame_is_selected s c c' : mux_frame c c' -> is_selected s c' = is_selected s c.
Proof. intros H. unfold is_selected. now rewrite (mux_frame_selected _ _ H). Qed.

Lemma mux_frame_partner c c' : mux_frame c c' -> m_partner (c_mif c') = m_partner (c_mif c).
Proof. intros H. exact (f_equal m_partner (mx_mif _ _ H)). Qed.

Lemma mux_frame_partner_has f c c' : mux_frame c c' -> partner_has f c' = partner_has f c.
Proof. intros H. unfold partner_has. now rewrite (mux_frame_partner _ _ H). Qed.

Lemma mux_frame_nodup c c' : mux_frame c c' -> NoDup (b_active_members (c_bif c)) -> NoDup (b_active_members (c_bif c')).
Proof. intros H. apply (mx_active _ _ H). Qed.

(** Evaluates comparisons of selections. *)
Ltac eval_sel :=
  repeat match goal with
  | |- context [@bool_decide (@eq lacp_port_t ?a ?b) ?d] =>
      let v := eval vm_compute in (@bool_decide (@eq lacp_port_t a b) d) in
      match v with true => idtac | false => idtac end; change (@bool_decide (@eq lacp_port_t a b) d) with v
  end; cbn [andb orb negb mbind option_bind]; rewrite ?andb_false_r.

(** The bits and the active members after the body of each action. *)
Lemma stop_distributing_spec c :
  NoDup (b_active_members (c_bif c)) -> let c' := stop_distributing env c in
  mux_frame c c' /\ m_mux_state (c_mif c') = m_mux_state (c_mif c) /\ m_ready (c_mif c') = m_ready (c_mif c) /\
  NoDup (b_active_members (c_bif c')) /\ (m_sw_if_index (c_mif c') ∉ b_active_members (c_bif c')) /\
  actor_has LACP_STATE_COLLECTING c' = false /\ actor_has LACP_STATE_DISTRIBUTING c' = false /\
  actor_has LACP_STATE_SYNCHRONIZATION c' = actor_has LACP_STATE_SYNCHRONIZATION c.
Proof.
  intros Hnd. cbv zeta. unfold stop_distributing. cbv zeta. set (c1 := on_actor (pi_clear LACP_STATE_COLLECTING) c).
  assert (mux_frame c c1) as H1 by (now apply on_actor_clear_frame).
  pose proof (bond_disable_spec c1) as (E2 & M2 & A2 & N2). set (c2 := bond_disable_collecting_distributing c1) in *.
  assert (mux_frame c1 c2) as H2 by (split; [now rewrite E2|exact M2|exact A2]).
  assert (mux_frame c2 (on_actor (pi_clear LACP_STATE_DISTRIBUTING) c2)) as H3 by (now apply on_actor_clear_frame).
  set (c3 := on_actor (pi_clear LACP_STATE_DISTRIBUTING) c2) in *.
  set (c4 := lacp_start_periodic_timer env 0 _). assert (mux_frame c3 c4) as H4 by (transitivity (on_mif (fun m => m <| m_ntt := true |>) c3); mif_frame).
  split; [now transitivity c1; [|transitivity c2; [|transitivity c3]]|].
  assert (m_actor (c_mif c4) = pi_clear LACP_STATE_DISTRIBUTING (pi_clear LACP_STATE_COLLECTING (m_actor (c_mif c)))) as Ea.
  { change (m_actor (c_mif c4)) with (pi_clear LACP_STATE_DISTRIBUTING (m_actor (c_mif c2))). now rewrite E2. }
  split; [change (m_mux_state (c_mif c2) = m_mux_state (c_mif c)); now rewrite E2|].
  split; [change (m_ready (c_mif c2) = m_ready (c_mif c)); now rewrite E2|]. split; [exact (af_nodup _ _ _ _ A2 Hnd)|].
  split; [change (m_sw_if_index (c_mif c2) ∉ b_active_members (c_bif c2)); rewrite E2; now apply N2|].
  unfold actor_has. rewrite Ea, !has_clear. eval_bits. now rewrite !has_0.
Qed.

Lemma actor_set_has f p g : has f g = true -> has (pi_state (pi_set f p)) g = true.
Proof. intros H. rewrite has_set, H. apply orb_true_r. Qed.

Lemma detached_spec c :
  NoDup (b_active_members (c_bif c)) -> let c' := stop_distributing env (lacp_detach_mux_from_aggregator c) in
  mux_frame c c' /\ m_mux_state (c_mif c') = m_mux_state (c_mif c) /\ m_ready (c_mif c') = false /\ port_ok MUX_DETACHED c'.
Proof.
  intros Hnd. cbv zeta. set (c1 := lacp_detach_mux_from_aggregator c).
  assert (mux_frame c c1) as H1.
  { transitivity (on_actor (pi_clear LACP_STATE_SYNCHRONIZATION) c); [now apply on_actor_clear_frame|mif_frame]. }
  destruct (stop_distributing_spec c1 Hnd) as (H2 & Es & Er & N2 & A2 & B1 & B2 & B3). set (c2 := stop_distributing env c1) in *. clearbody c2.
  split; [now transitivity c1|]. split; [exact Es|]. split; [exact Er|].
  assert (actor_has LACP_STATE_SYNCHRONIZATION c1 = false) as B0.
  { change (actor_has LACP_STATE_SYNCHRONIZATION c1) with (has (pi_state (pi_clear LACP_STATE_SYNCHRONIZATION (m_actor (c_mif c)))) LACP_STATE_SYNCHRONIZATION).
    rewrite has_clear. eval_bits. apply has_0. }
  split; [exact N2| |exact B1|exact B2|now rewrite B3]. now split.
Qed.

Lemma attached_spec c :
  NoDup (b_active_members (c_bif c)) -> let c' := stop_distributing env (lacp_attach_mux_to_aggregator c) in
  mux_frame c c' /\ m_mux_state (c_mif c') = m_mux_state (c_mif c) /\ port_ok MUX_ATTACHED c'.
Proof.
  intros Hnd. cbv zeta. set (c1 := lacp_attach_mux_to_aggregator c).
  assert (mux_frame c c1) as H1 by (now apply on_actor_set_frame).
  destruct (stop_distributing_spec c1 Hnd) as (H2 & Es & Er & N2 & A2 & B1 & B2 & B3). set (c2 := stop_distributing env c1) in *. clearbody c2.
  split; [now transitivity c1|]. split; [exact Es|].
  assert (actor_has LACP_STATE_SYNCHRONIZATION c1 = true) as B0.
  { change (actor_has LACP_STATE_SYNCHRONIZATION c1) with (has (pi_state (pi_set LACP_STATE_SYNCHRONIZATION (m_actor (c_mif c)))) LACP_STATE_SYNCHRONIZATION).
    now apply actor_set_has. }
  split; [exact N2| |exact B1|exact B2|now rewrite B3]. now split.
Qed.

Lemma distributing_spec c :
  NoDup (b_active_members (c_bif c)) ->
  let c' := lacp_start_periodic_timer env 0 (on_mif (fun m => m <| m_ntt := true |>) (bond_enable_collecting_distributing env qsort
    (on_actor (pi_set (Z.lor LACP_STATE_SYNCHRONIZATION (Z.lor LACP_STATE_COLLECTING LACP_STATE_DISTRIBUTING))) c))) in
  mux_frame c c' /\ m_mux_state (c_mif c') = m_mux_state (c_mif c) /\ port_ok MUX_COLLECTING_DISTRIBUTING c'.
Proof.
  intros Hnd. cbv zeta. set (c1 := on_actor _ c). assert (mux_frame c c1) as H1 by (now apply on_actor_set_frame).
  pose proof (bond_enable_spec c1) as (H2 & A2 & S2 & B2). set (c2 := bond_enable_collecting_distributing env qsort c1) in *.
  set (c3 := lacp_start_periodic_timer env 0 _). assert (mux_frame c2 c3) as H3 by (transitivity (on_mif (fun m => m <| m_ntt := true |>) c2); mif_frame).
  split; [now transitivity c1; [|transitivity c2]|]. split; [exact S2|].
  assert (m_actor (c_mif c3) = m_actor (c_mif c1)) as Ea by exact B2.
  split; [exact (mux_frame_nodup _ _ H2 Hnd)| | | |].
  - split; [reflexivity|]. intros _. change (m_sw_if_index (c_mif c2) ∈ b_active_members (c_bif c2)). now rewrite (mux_frame_sw _ _ H2).
  - unfold actor_has. rewrite Ea. now apply actor_set_has.
  - unfold actor_has. rewrite Ea. now apply actor_set_has.
  - unfold actor_has. rewrite Ea. now apply actor_set_has.
Qed.

Lemma port_ok_frame s c c' :
  c_bif c' = c_bif c -> m_sw_if_index (c_mif c') = m_sw_if_index (c_mif c) -> m_actor (c_mif c') = m_actor (c_mif c) ->
  port_ok s c -> port_ok s c'.
Proof. intros E1 E2 E3 [H1 H2 H3 H4 H5]. split; unfold actor_has in *; rewrite ?E1, ?E2, ?E3; assumption. Qed.

(** An action ends: with the context [c] as it is when the action starts. *)
Definition mux_act_ends (n : nat) (a : mux_action_t) (c : member_ctx) : Prop :=
  exists c', mux_action env qsort (lacp_mux_dispatch env qsort n) a c = Some c' /\ mux_post c c'.

Definition mux_ends (n : nat) (ev : lacp_mux_event_t) (c : member_ctx) : Prop :=
  exists c', lacp_mux_dispatch env qsort n ev c = Some c' /\ mux_post c c'.

Lemma mux_post_from c0 c c' : mux_frame c0 c -> mux_post c c' -> mux_post c0 c'.
Proof. intros H0 (H1 & H2 & H3). split; [now transitivity c|now split]. Qed.

Lemma mux_ends_from n ev c0 c :
  mux_frame c0 c -> mux_ends n ev c -> exists c', lacp_mux_dispatch env qsort n ev c = Some c' /\ mux_post c0 c'.
Proof. intros H0 (c' & E & H). exists c'. split; [exact E|]. exact (mux_post_from _ _ _ H0 H). Qed.

Lemma mux_dispatch_ends n ev c a next :
  fsm_transition lacp_mux_fsm_table mux_state_num (m_mux_state (c_mif c)) (mux_event_num ev) = (Some a, next) ->
  mux_act_ends n a (on_mif (fun m => m <| m_mux_state := next |>) c) -> mux_ends (S n) ev c.
Proof.
  intros E (c' & E' & H). exists c'. split.
  - cbn [lacp_mux_dispatch]. now rewrite E.
  - apply (mux_post_from _ (on_mif (fun m => m <| m_mux_state := next |>) c)); [mif_frame|exact H].
Qed.

Definition mux_state_of (a : mux_action_t) : lacp_mux_sm_state_t :=
  match a with
  | ACT_DETACHED => MUX_DETACHED | ACT_WAITING => MUX_WAITING | ACT_ATTACHED => MUX_ATTACHED
  | ACT_COLLECTING_DISTRIBUTING => MUX_COLLECTING_DISTRIBUTING
  end.

(** What an action may assume: it runs in the state of its name. *)
Record mux_pre (a : mux_action_t) (c : member_ctx) : Prop := {
  mp_state : m_mux_state (c_mif c) = mux_state_of a;
  mp_nodup : NoDup (b_active_members (c_bif c));
  mp_waiting : a = ACT_WAITING -> port_ok MUX_WAITING c
}.

(** The dispatch of [ev] in state [s], where the table runs [a]. *)
Lemma mux_chain n ev c0 c s a :
  m_mux_state (c_mif c) = s ->
  fsm_transition lacp_mux_fsm_table mux_state_num s (mux_event_num ev) = (Some a, mux_state_of a) ->
  mux_frame c0 c -> port_ok s c -> (a = ACT_WAITING -> s = MUX_DETACHED \/ s = MUX_WAITING) ->
  (forall c1, mux_pre a c1 -> mux_frame c c1 -> m_ready (c_mif c1) = m_ready (c_mif c) -> mux_act_ends n a c1) ->
  exists c', lacp_mux_dispatch env qsort (S n) ev c = Some c' /\ mux_post c0 c'.
Proof.
  intros Es Et H0 Hok Hw Hact. apply (mux_ends_from _ _ _ _ H0). apply (mux_dispatch_ends _ _ _ a (mux_state_of a)); [now rewrite Es|].
  apply Hact; [|mif_frame|reflexivity]. split; [reflexivity|exact (po_nodup _ _ Hok)|]. intros Ea. destruct Hok as [K1 K2 K3 K4 K5].
  destruct (Hw Ea) as [-> | ->]; split; auto; (split; [|discriminate]; intros Hin; apply K2 in Hin; discriminate).
Qed.

(** *** Actions that post nothing *)

Lemma waiting_rests n c :
  mux_pre ACT_WAITING c -> m_selected (c_mif c) = LACP_PORT_STANDBY \/ (m_selected (c_mif c) = LACP_PORT_SELECTED /\ m_ready (c_mif c) = false) ->
  mux_act_ends n ACT_WAITING c.
Proof.
  intros [Es Hn Hw] Hsel. unfold mux_act_ends. cbn [mux_action]. unfold lacp_mux_action_waiting. set (c1 := if lacp_timer_is_running _ then c else _).
  assert (mux_frame c c1 /\ c_bif c1 = c_bif c /\ m_actor (c_mif c1) = m_actor (c_mif c) /\ m_mux_state (c_mif c1) = m_mux_state (c_mif c) /\
          m_ready (c_mif c1) = m_ready (c_mif c)) as (F1 & F2 & F3 & F4 & F5).
  { subst c1. destruct (lacp_timer_is_running _); [now split|]. split; [mif_frame|now split]. }
  clearbody c1. pose proof (mux_frame_selected _ _ F1) as F6. pose proof (port_ok_frame _ _ _ F2 (mux_frame_sw _ _ F1) F3 (Hw eq_refl)) as Hok.
  exists c1. split.
  - unfold is_selected. rewrite F6, F5. destruct Hsel as [E|[E Er]]; rewrite E, ?Er; eval_sel; rewrite F6, E; now eval_sel.
  - split; [exact F1|]. split; [unfold mux_ok; now rewrite F4, Es|]. unfold mux_settled. rewrite F6, F4, Es, F5. destruct Hsel as [-> | [-> ->]]; reflexivity.
Qed.

Lemma distributing_rests n c :
  mux_pre ACT_COLLECTING_DISTRIBUTING c -> m_selected (c_mif c) = LACP_PORT_SELECTED -> partner_has LACP_STATE_SYNCHRONIZATION c = true ->
  mux_act_ends n ACT_COLLECTING_DISTRIBUTING c.
Proof.
  intros [Es Hn _] Hsel Hsync. unfold mux_act_ends. cbn [mux_action]. unfold lacp_mux_action_collecting_distributing. cbv zeta.
  destruct (distributing_spec c Hn) as (F1 & F2 & F3). set (c1 := lacp_start_periodic_timer env 0 _) in *. clearbody c1.
  rewrite !(mux_frame_is_selected _ _ _ F1), (mux_frame_partner_has _ _ _ F1), Hsync. unfold is_selected. rewrite Hsel. exists c1. split; [reflexivity|].
  split; [exact F1|]. split; [unfold mux_ok; now rewrite F2, Es|]. unfold mux_settled.
  rewrite (mux_frame_selected _ _ F1), Hsel, F2, Es, (mux_frame_partner _ _ F1). exact Hsync.
Qed.

(** *** Actions that post *)

Lemma detached_ends n c : mux_pre ACT_DETACHED c -> mux_act_ends (S n) ACT_DETACHED c.
Proof.
  intros [Es Hn _]. unfold mux_act_ends. cbn [mux_action]. unfold lacp_mux_action_detached. cbv zeta.
  destruct (detached_spec c Hn) as (F1 & F2 & F3 & F4). set (c1 := stop_distributing env _) in *. clearbody c1. rewrite Es in F2. cbn [mux_state_of] in F2.
  pose proof (mux_frame_selected _ _ F1) as F6.
  assert (forall ev, ev = MUX_SELECTED \/ ev = MUX_STANDBY -> m_selected (c_mif c) <> LACP_PORT_UNSELECTED ->
    exists c', lacp_mux_dispatch env qsort (S n) ev c1 = Some c' /\ mux_post c c') as Hpost.
  { intros ev Hev Hu. apply (mux_chain _ _ _ _ MUX_DETACHED ACT_WAITING); [exact F2|now destruct Hev as [-> | ->]|exact F1|exact F4|auto|].
    intros c2 Hp Hf Hr. apply waiting_rests; [exact Hp|]. rewrite Hr, (mux_frame_selected _ _ Hf), F6, F3. destruct (m_selected (c_mif c)); auto. now destruct Hu. }
  unfold is_selected. rewrite F6. destruct (m_selected (c_mif c)) eqn:Hsel.
  - exists c1. eval_sel. rewrite F6. split; [now eval_sel|]. split; [exact F1|]. split; [unfold mux_ok; now rewrite F2|]. unfold mux_settled. now rewrite F6.
  - destruct (Hpost MUX_SELECTED) as (c' & E & P); [auto|discriminate|]. eval_sel. rewrite E. cbn [mbind option_bind].
    rewrite (mux_frame_selected _ _ (proj1 P)), Hsel. eval_sel. now exists c'.
  - eval_sel. rewrite F6. eval_sel. apply Hpost; [auto|discriminate].
Qed.

Lemma attached_ends n c : mux_pre ACT_ATTACHED c -> mux_act_ends (S (S n)) ACT_ATTACHED c.
Proof.
  intros [Es Hn _]. unfold mux_act_ends. cbn [mux_action]. unfold lacp_mux_action_attached. cbv zeta.
  destruct (attached_spec c Hn) as (F1 & F2 & F4). set (c1 := stop_distributing env _) in *. clearbody c1. rewrite Es in F2. cbn [mux_state_of] in F2.
  pose proof (mux_frame_selected _ _ F1) as F6.
  assert (exists c', lacp_mux_dispatch env qsort (S (S n)) MUX_UNSELECTED c1 = Some c' /\ mux_post c c') as (cu & Eu & Pu).
  { apply (mux_chain _ _ _ _ MUX_ATTACHED ACT_DETACHED); [exact F2|reflexivity|exact F1|exact F4|discriminate|]. intros c2 Hp _ _. now apply detached_ends. }
  unfold is_selected. rewrite F6. destruct (m_selected (c_mif c)) eqn:Hsel.
  - eval_sel. rewrite Eu. cbn [mbind option_bind]. rewrite (mux_frame_selected _ _ (proj1 Pu)), Hsel. eval_sel. now exists cu.
  - eval_sel. rewrite F6. eval_sel. rewrite (mux_frame_partner_has _ _ _ F1). destruct (partner_has _ c) eqn:Hy.
    + apply (mux_chain _ _ _ _ MUX_ATTACHED ACT_COLLECTING_DISTRIBUTING); [exact F2|reflexivity|exact F1|exact F4|discriminate|].
      intros c2 Hp Hf _. apply distributing_rests; [exact Hp|now rewrite (mux_frame_selected _ _ Hf)|].
      now rewrite (mux_frame_partner_has _ _ _ Hf), (mux_frame_partner_has _ _ _ F1).
    + exists c1. split; [reflexivity|]. split; [exact F1|]. split; [unfold mux_ok; now rewrite F2|]. unfold mux_settled. rewrite F6, F2.
      now rewrite (mux_frame_partner _ _ F1).
  - eval_sel. rewrite Eu. cbn [mbind option_bind]. rewrite (mux_frame_selected _ _ (proj1 Pu)), Hsel. eval_sel. now exists cu.
Qed.

Lemma distributing_ends n c : mux_pre ACT_COLLECTING_DISTRIBUTING c -> mux_act_ends (S (S (S n))) ACT_COLLECTING_DISTRIBUTING c.
Proof.
  intros Hpre. destruct (decide (m_selected (c_mif c) = LACP_PORT_SELECTED /\ partner_has LACP_STATE_SYNCHRONIZATION c = true)) as [[]|Hno];
    [now apply distributing_rests|].
  destruct Hpre as [Es Hn _]. unfold mux_act_ends. cbn [mux_action]. unfold lacp_mux_action_collecting_distributing. cbv zeta.
  destruct (distributing_spec c Hn) as (F1 & F2 & F4). set (c1 := lacp_start_periodic_timer env 0 _) in *. clearbody c1. rewrite Es in F2. cbn [mux_state_of] in F2.
  rewrite !(mux_frame_is_selected _ _ _ F1), (mux_frame_partner_has _ _ _ F1).
  assert (is_selected LACP_PORT_UNSELECTED c || is_selected LACP_PORT_STANDBY c || negb (partner_has LACP_STATE_SYNCHRONIZATION c) = true) as ->.
  { unfold is_selected. destruct (m_selected (c_mif c)); [reflexivity| |reflexivity]. eval_sel. destruct (partner_has _ c); [|reflexivity]. destruct Hno; auto. }
  apply (mux_chain _ _ _ _ MUX_COLLECTING_DISTRIBUTING ACT_ATTACHED); [exact F2|reflexivity|exact F1|exact F4|discriminate|]. intros c2 Hp _ _. now apply attached_ends.
Qed.

Lemma waiting_ends n c : mux_pre ACT_WAITING c -> mux_act_ends (S (S (S n))) ACT_WAITING c.
Proof.
  intros Hpre.
  destruct (decide (m_selected (c_mif c) = LACP_PORT_STANDBY \/ (m_selected (c_mif c) = LACP_PORT_SELECTED /\ m_ready (c_mif c) = false))) as [Hr|Hno];
    [now apply waiting_rests|].
  destruct Hpre as [Es Hn Hw]. unfold mux_act_ends. cbn [mux_action]. unfold lacp_mux_action_waiting. set (c1 := if lacp_timer_is_running _ then c else _).
  assert (mux_frame c c1 /\ c_bif c1 = c_bif c /\ m_actor (c_mif c1) = m_actor (c_mif c) /\ m_mux_state (c_mif c1) = m_mux_state (c_mif c) /\
          m_ready (c_mif c1) = m_ready (c_mif c)) as (F1 & F2 & F3 & F4 & F5).
  { subst c1. destruct (lacp_timer_is_running _); [now split|]. split; [mif_frame|now split]. }
  clearbody c1. pose proof (mux_frame_selected _ _ F1) as F6. pose proof (port_ok_frame _ _ _ F2 (mux_frame_sw _ _ F1) F3 (Hw eq_refl)) as Hok.
  rewrite Es in F4. cbn [mux_state_of] in F4. unfold is_selected. rewrite F6, F5. destruct (m_selected (c_mif c)) eqn:Hsel.
  - eval_sel. rewrite F6. eval_sel. apply (mux_chain _ _ _ _ MUX_WAITING ACT_DETACHED); [exact F4|reflexivity|exact F1|exact Hok|discriminate|].
    intros c2 Hp _ _. now apply detached_ends.
  - destruct (m_ready (c_mif c)); [|destruct Hno; auto]. eval_sel.
    assert (exists c', lacp_mux_dispatch env qsort (S (S (S n))) MUX_READY c1 = Some c' /\ mux_post c c') as (c' & E & P).
    { apply (mux_chain _ _ _ _ MUX_WAITING ACT_ATTACHED); [exact F4|reflexivity|exact F1|exact Hok|discriminate|]. intros c2 Hp _ _. now apply attached_ends. }
    rewrite E. cbn [mbind option_bind]. rewrite (mux_frame_selected _ _ (proj1 P)), Hsel. eval_sel. now exists c'.
  - destruct Hno. auto.
Qed.

(** Every event ends in the state that the inputs ask for. *)
Lemma mux_terminates ev c : mux_ok c -> mux_ends MUX_FUEL ev c.
Proof.
  intros Hok. pose proof (mux_chain 4 ev c c (m_mux_state (c_mif c))) as H.
  unfold mux_ok in Hok. destruct (m_mux_state (c_mif c)) eqn:Es, ev;
    first [specialize (H ACT_DETACHED eq_refl eq_refl) | specialize (H ACT_ATTACHED eq_refl eq_refl)
          | specialize (H ACT_WAITING eq_refl eq_refl) | specialize (H ACT_COLLECTING_DISTRIBUTING eq_refl eq_refl)];
    (apply H; [reflexivity|exact Hok|auto; discriminate|]); intros c1 Hp _ _;
    first [now apply detached_ends | now apply attached_ends | now apply waiting_ends | now apply distributing_ends].
Qed.

(** The start of the machine needs the vector of active members only. *)
Lemma mux_begins c : NoDup (b_active_members (c_bif c)) -> mux_ends MUX_FUEL MUX_BEGIN c.
Proof.
  intros Hn. apply (mux_dispatch_ends _ _ _ ACT_DETACHED MUX_DETACHED); [now destruct (m_mux_state (c_mif c))|]. apply detached_ends. now split.
Qed.

(** The mux, on every event. *)
Lemma mux_action_touch dispatch :
  (forall ev c c', dispatch ev c = Some c' -> mux_touch (c_mif c) (c_mif c')) ->
  forall a c c', mux_action env qsort dispatch a c = Some c' -> mux_touch (c_mif c) (c_mif c').
Proof.
  intros Hd a c c'.
  assert (forall (b1 b2 : member_ctx -> bool) e1 e2 c1, mux_touch (c_mif c) (c_mif c1) ->
    (c2 ← (if b1 c1 then dispatch e1 c1 else Some c1); if b2 c2 then dispatch e2 c2 else Some c2) = Some c' -> mux_touch (c_mif c) (c_mif c')) as Hpost.
  { intros b1 b2 e1 e2 c1 H1 (c2 & E1 & E2)%bind_Some. transitivity (c_mif c2); [transitivity (c_mif c1); [exact H1|]|].
    - destruct (b1 c1); [exact (Hd _ _ _ E1)|injection E1 as <-; reflexivity].
    - destruct (b2 c2); [exact (Hd _ _ _ E2)|injection E2 as <-; reflexivity]. }
  assert (forall c1, mux_touch (c_mif c1) (c_mif (stop_distributing env c1))) as Hstop.
  { intros c1. unfold stop_distributing. cbv zeta. destruct (bond_disable_spec (on_actor (pi_clear LACP_STATE_COLLECTING) c1)) as (E & _).
    unfold lacp_start_periodic_timer, on_actor, on_mif in *. cbn [c_mif set_field] in *. rewrite E. now split; [|right|left]. }
  destruct a; cbn [mux_action].
  - apply (Hpost (is_selected LACP_PORT_SELECTED) (is_selected LACP_PORT_STANDBY)). destruct (Hstop (lacp_detach_mux_from_aggregator c)) as [A B C]. split; [exact A|exact B|exact C].
  - unfold lacp_mux_action_waiting. set (c1 := if lacp_timer_is_running _ then c else _).
    apply (Hpost (fun c => is_selected LACP_PORT_SELECTED c && m_ready (c_mif c)) (is_selected LACP_PORT_UNSELECTED)).
    subst c1. unfold lacp_timer_is_running. destruct (Z.eqb_spec (m_wait_while_timer (c_mif c)) 0); [|reflexivity]. split; auto.
  - apply (Hpost (fun c => is_selected LACP_PORT_UNSELECTED c || is_selected LACP_PORT_STANDBY c) (fun c => is_selected LACP_PORT_SELECTED c && partner_has LACP_STATE_SYNCHRONIZATION c)).
    destruct (Hstop (lacp_attach_mux_to_aggregator c)) as [A B C]. split; [exact A|exact B|exact C].
  - unfold lacp_mux_action_collecting_distributing. cbv zeta. set (c1 := lacp_start_periodic_timer env 0 _).
    assert (mux_touch (c_mif c) (c_mif c1)) as H1.
    { subst c1. unfold bond_enable_collecting_distributing, bond_sort_members. cbv zeta.
      destruct (vec_search _ _); [|destruct (_ =? BOND_MODE_ACTIVE_BACKUP); [destruct (_ =? 1)%nat; [|destruct (bool_decide _)]|]]; (split; [reflexivity|now right|now left]). }
    destruct (_ || _ || _); [|intros [= <-]; exact H1]. intros E. transitivity (c_mif c1); [exact H1|exact (Hd _ _ _ E)].
Qed.

Lemma mux_dispatch_touch n : forall ev c c', lacp_mux_dispatch env qsort n ev c = Some c' -> mux_touch (c_mif c) (c_mif c').
Proof.
  induction n as [|n IH]; [discriminate|]. intros ev c c'. cbn [lacp_mux_dispatch]. destruct (fsm_transition _ _ _ _) as [[a|] next].
  - intros E. apply (mux_action_touch _ IH) in E as [A B C]. split; [exact A|exact B|exact C].
  - intros [= <-]. now split; [|left|left].
Qed.

End Port.
