(* ===== verification/LacpInv.v ===== *)
(** * Bonds and LACP: the invariant of the whole state

    Pools, lookup tables, vectors of members and vectors of active members agree, and a
    member is active exactly when the machine of its bond says so: the mux machine for
    LACP, the state of the interface for the other modes.  Every operation of the LACP
    machines on a member keeps the invariant, ends, and leaves all but the mux of the
    other members alone. *)

From stdpp Require Import gmap.
From S2P Require Import Prelude NetTypes Pool BondTypes Bond Lacp LacpMux.

Definition live_mif (bm : bond_main_t) (i : Z) (m : member_if_t) : Prop := pool_lookup (neighbors bm) i = Some m.
Definition live_bif (bm : bond_main_t) (k : Z) (b : bond_if_t) : Prop := pool_lookup (interfaces bm) k = Some b.

(** ** The invariant *)

(** The timers of a member without LACP never run. *)
Definition timers_off (m : member_if_t) : Prop := m_current_while_timer m = 0 /\ m_periodic_timer m = 0 /\ m_wait_while_timer m = 0.

(** When member [m] of bond [b] is active. *)
Definition member_ok (m : member_if_t) (b : bond_if_t) : Prop :=
  if b_mode b =? BOND_MODE_LACP then m_lacp_enabled m = true /\ mux_ok (mk_ctx m b [])
  else m_lacp_enabled m = false /\ (m_sw_if_index m ∈ b_active_members b <-> m_port_enabled m = true) /\ timers_off m.

Record bif_ok (bm : bond_main_t) (k : Z) (b : bond_if_t) : Prop := {
  bk_instance : b_dev_instance b = k;
  bk_members : NoDup (b_members b);
  bk_active : NoDup (b_active_members b);
  bk_subset : forall sw, sw ∈ b_active_members b -> sw ∈ b_members b;
  bk_live : forall sw, sw ∈ b_members b -> exists i m, live_mif bm i m /\ m_sw_if_index m = sw /\ m_bif_dev_instance m = k;
  bk_plugin : b_mode b = BOND_MODE_LACP -> lacp_plugin_loaded bm = true;
  bk_numa : numa_ok (b_mode b =? BOND_MODE_LACP) b
}.

(** [S] says which members are settled; all are between operations. *)
Record bond_inv (S : Z -> Prop) (bm : bond_main_t) : Prop := {
  bi_neighbors : pool_ok (neighbors bm);
  bi_interfaces : pool_ok (interfaces bm);
  bi_map : forall sw i, member_by_sw_if_index bm !! sw = Some i <-> exists m, live_mif bm i m /\ m_sw_if_index m = sw;
  bi_member : forall i m, live_mif bm i m -> exists b, live_bif bm (m_bif_dev_instance m) b /\
    m_mode m = b_mode b /\ m_sw_if_index m ∈ b_members b /\ (S i -> member_ok m b);
  bi_bond : forall k b, live_bif bm k b -> bif_ok bm k b;
  bi_name : forall sw k, bond_by_sw_if_index bm !! sw = Some k -> exists b, live_bif bm k b /\ b_sw_if_index b = sw
}.

Definition bond_ok : bond_main_t -> Prop := bond_inv (fun _ => True).

Lemma inv_unique S bm i j m n :
  bond_inv S bm -> live_mif bm i m -> live_mif bm j n -> m_sw_if_index m = m_sw_if_index n -> i = j.
Proof.
  intros H Hi Hj E. pose proof (proj2 (bi_map _ _ H (m_sw_if_index m) i) (ex_intro _ m (conj Hi eq_refl))) as E1.
  pose proof (proj2 (bi_map _ _ H (m_sw_if_index m) j) (ex_intro _ n (conj Hj (eq_sym E)))) as E2. congruence.
Qed.

Lemma live_mif_at bm i m : live_mif bm i m -> mif_at bm i = m.
Proof. intros H. unfold mif_at. now rewrite (pool_lookup_elt _ _ _ H). Qed.

Lemma live_bif_at bm k b : live_bif bm k b -> bif_at bm k = b.
Proof. intros H. unfold bif_at. now rewrite (pool_lookup_elt _ _ _ H). Qed.

Lemma load_live bm i m b : live_mif bm i m -> live_bif bm (m_bif_dev_instance m) b -> load_ctx bm i = mk_ctx m b (outputs bm).
Proof. intros Hm Hb. unfold load_ctx. now rewrite (live_mif_at _ _ _ Hm), (live_bif_at _ _ _ Hb). Qed.

(** ** Assignments *)

(** [bm'] is [bm] with member [i] and bond [k] assigned. *)
Record updated (bm bm' : bond_main_t) (i : Z) (m' : member_if_t) (k : Z) (b' : bond_if_t) : Prop := {
  up_neighbors : pool_ok (neighbors bm) -> pool_ok (neighbors bm');
  up_interfaces : pool_ok (interfaces bm) -> pool_ok (interfaces bm');
  up_mif : forall j, pool_lookup (neighbors bm') j = if decide (j = i) then Some m' else pool_lookup (neighbors bm) j;
  up_bif : forall j, pool_lookup (interfaces bm') j = if decide (j = k) then Some b' else pool_lookup (interfaces bm) j;
  up_members : member_by_sw_if_index bm' = member_by_sw_if_index bm;
  up_bonds : bond_by_sw_if_index bm' = bond_by_sw_if_index bm;
  up_ids : id_used bm' = id_used bm;
  up_plugin : lacp_plugin_loaded bm' = lacp_plugin_loaded bm;
  up_int : lacp_int bm' = lacp_int bm
}.

Lemma lookup_same {A} (p : pool A) i x : pool_lookup p i = Some x -> forall j, pool_lookup p j = if decide (j = i) then Some x else pool_lookup p j.
Proof. intros H j. destruct (decide (j = i)) as [->|]; auto. Qed.

Lemma set_mif_updated bm i m k b m' : live_mif bm i m -> live_bif bm k b -> updated bm (set_mif bm i m') i m' k b.
Proof.
  intros Hm Hb. split; try reflexivity; auto.
  - apply pool_write_ok.
  - intros j. exact (pool_write_lookup _ _ _ _ _ Hm).
  - exact (lookup_same _ _ _ Hb).
Qed.

Lemma set_bif_updated bm i m k b b' : live_mif bm i m -> live_bif bm k b -> updated bm (set_bif bm k b') i m k b'.
Proof.
  intros Hm Hb. split; try reflexivity; auto.
  - apply pool_write_ok.
  - exact (lookup_same _ _ _ Hm).
  - intros j. exact (pool_write_lookup _ _ _ _ _ Hb).
Qed.

Lemma store_updated bm i m b c :
  live_mif bm i m -> live_bif bm (m_bif_dev_instance (c_mif c)) b ->
  updated bm (store_ctx bm i c) i (c_mif c) (m_bif_dev_instance (c_mif c)) (c_bif c).
Proof.
  intros Hm Hb. split; try reflexivity.
  - apply pool_write_ok.
  - apply pool_write_ok.
  - intros j. exact (pool_write_lookup _ _ _ _ _ Hm).
  - intros j. exact (pool_write_lookup _ _ _ _ _ Hb).
Qed.

Lemma updated_live bm bm' i m' k b' : updated bm bm' i m' k b' -> live_mif bm' i m' /\ live_bif bm' k b'.
Proof. intros H. unfold live_mif, live_bif. rewrite (up_mif _ _ _ _ _ _ H), (up_bif _ _ _ _ _ _ H), !decide_True by reflexivity. now split. Qed.

(** What identifies a bond. *)
Definition bif_core (b : bond_if_t) : list Z * Z * Z * Z := (b_members b, b_mode b, b_dev_instance b, b_sw_if_index b).

(** What an operation on a member may change of a bond that matters here: the active members, for that member only. *)
Record bif_step (en : bool) (sw : Z) (b b' : bond_if_t) : Prop := {
  bs_core : bif_core b' = bif_core b;
  bs_active : active_frame en sw b b'
}.

Lemma bif_step_refl en sw b : bif_step en sw b b.
Proof. split; [reflexivity|apply active_frame_refl]. Qed.

Lemma bif_core_fields b b' : bif_core b' = bif_core b ->
  b_members b' = b_members b /\ b_mode b' = b_mode b /\ b_dev_instance b' = b_dev_instance b /\ b_sw_if_index b' = b_sw_if_index b.
Proof. now intros [= -> -> -> ->]. Qed.

Lemma port_ok_other s m b b' en sw o o' :
  active_frame en sw b b' -> m_sw_if_index m <> sw -> port_ok s (mk_ctx m b o) -> port_ok s (mk_ctx m b' o').
Proof.
  intros [A1 A2 A3] Hne [P1 P2 P3 P4 P5]. split; cbn in *; auto. rewrite <- P2. now apply A2.
Qed.

Lemma member_ok_other m b b' en sw : bif_step en sw b b' -> m_sw_if_index m <> sw -> member_ok m b -> member_ok m b'.
Proof.
  intros [Hm Ha] Hne. destruct (bif_core_fields _ _ Hm) as (_ & Em & _). unfold member_ok. rewrite Em.
  destruct (_ =? _); intros [H1 H2]; (split; [exact H1|]).
  - exact (port_ok_other _ _ _ _ _ _ _ _ Ha Hne H2).
  - destruct H2 as [H2 H3]. split; [|exact H3]. rewrite <- H2. now apply (af_other _ _ _ _ Ha).
Qed.

(** The fields that tie a member to the rest of the state. *)
Definition member_core (m : member_if_t) : Z * Z * Z := (m_sw_if_index m, m_bif_dev_instance m, m_mode m).

Lemma inv_updated (S S' : Z -> Prop) bm bm' i m b m' b' :
  bond_inv S bm -> live_mif bm i m -> live_bif bm (m_bif_dev_instance m) b ->
  updated bm bm' i m' (m_bif_dev_instance m) b' -> member_core m' = member_core m ->
  bif_step (b_mode b =? BOND_MODE_LACP) (m_sw_if_index m) b b' ->
  (forall j, j <> i -> S' j -> S j) -> (S' i -> member_ok m' b') -> bond_inv S' bm'.
Proof.
  intros Hinv Hm Hb Hu [= Ec1 Ec2 Ec3] Hs HS Hok. destruct (bif_core_fields _ _ (bs_core _ _ _ _ Hs)) as (Fm & Fo & Fd & Fn).
  pose proof (up_mif _ _ _ _ _ _ Hu) as Um. pose proof (up_bif _ _ _ _ _ _ Hu) as Ub.
  destruct (bi_member _ _ Hinv _ _ Hm) as (b0 & Hb0 & Hmode & Hin & _). assert (b0 = b) as -> by (unfold live_bif in *; congruence).
  assert (forall j n', live_mif bm' j n' -> exists n, live_mif bm j n /\ member_core n' = member_core n /\ (j = i -> n = m /\ n' = m') /\ (j <> i -> n' = n)) as Hback.
  { intros j n'. unfold live_mif. rewrite Um. destruct (decide (j = i)) as [->|Hne]; intros E.
    - injection E as <-. exists m. split; [exact Hm|]. split; [unfold member_core; congruence|]. now split.
    - exists n'. split; [exact E|]. split; [reflexivity|]. split; [intros ->; now destruct Hne|reflexivity]. }
  assert (forall j n, live_mif bm j n -> exists n', live_mif bm' j n' /\ member_core n' = member_core n) as Hfwd.
  { intros j n E. unfold live_mif. rewrite Um. destruct (decide (j = i)) as [->|Hne]; [|now exists n].
    exists m'. assert (n = m) as -> by (unfold live_mif in *; congruence). split; [reflexivity|unfold member_core; congruence]. }
  split.
  - exact (up_neighbors _ _ _ _ _ _ Hu (bi_neighbors _ _ Hinv)).
  - exact (up_interfaces _ _ _ _ _ _ Hu (bi_interfaces _ _ Hinv)).
  - intros sw j. rewrite (up_members _ _ _ _ _ _ Hu), (bi_map _ _ Hinv). split; intros (n & Hn & E).
    + destruct (Hfwd _ _ Hn) as (n' & Hn' & [= K _ _]). exists n'. split; [exact Hn'|congruence].
    + destruct (Hback _ _ Hn) as (n0 & Hn0 & [= K _ _] & _). exists n0. split; [exact Hn0|congruence].
  - intros j n' Hn'. destruct (Hback _ _ Hn') as (n & Hn & [= K1 K2 K3] & Hi & Ho).
    destruct (bi_member _ _ Hinv _ _ Hn) as (bn & Hbn & Mn & In & On). unfold live_bif. rewrite Ub, K2, K1, K3.
    destruct (decide (m_bif_dev_instance n = m_bif_dev_instance m)) as [Ek|Ek].
    + assert (bn = b) as -> by (unfold live_bif in *; congruence). exists b'. split; [reflexivity|]. rewrite Fo, Fm.
      split; [exact Mn|]. split; [exact In|]. intros HS'. destruct (decide (j = i)) as [->|Hne].
      * destruct (Hi eq_refl) as [_ ->]. now apply Hok.
      * rewrite (Ho Hne). apply (member_ok_other _ _ _ _ _ Hs); [|auto]. intros E. exact (Hne (inv_unique _ _ _ _ _ _ Hinv Hn Hm E)).
    + exists bn. split; [exact Hbn|]. split; [exact Mn|]. split; [exact In|]. intros HS'. destruct (decide (j = i)) as [->|Hne].
      * destruct (Hi eq_refl) as [-> _]. now destruct Ek.
      * rewrite (Ho Hne). auto.
  - assert (forall k sw, (exists j n, live_mif bm j n /\ m_sw_if_index n = sw /\ m_bif_dev_instance n = k) ->
      exists j n, live_mif bm' j n /\ m_sw_if_index n = sw /\ m_bif_dev_instance n = k) as Hlive.
    { intros k sw (j & n & Hn & E1 & E2). destruct (Hfwd _ _ Hn) as (n' & Hn' & [= K1 K2 K3]). exists j, n'. split; [exact Hn'|]. split; congruence. }
    intros k bk. unfold live_bif. rewrite Ub. destruct (decide (k = m_bif_dev_instance m)) as [->|Hne]; intros E.
    + injection E as <-. destruct (bi_bond _ _ Hinv _ _ Hb) as [B1 B2 B3 B4 B5 B6 B7]. destruct (bs_active _ _ _ _ Hs) as [A1 A2 A3].
      split; rewrite ?Fd, ?Fm, ?Fo, ?(up_plugin _ _ _ _ _ _ Hu); auto.
      intros sw Hsw. destruct (decide (sw = m_sw_if_index m)) as [->|Hne]; [exact Hin|]. apply B4. now apply A2.
    + destruct (bi_bond _ _ Hinv _ _ E) as [B1 B2 B3 B4 B5 B6 B7]. split; rewrite ?(up_plugin _ _ _ _ _ _ Hu); auto.
  - intros sw k. rewrite (up_bonds _ _ _ _ _ _ Hu). intros E. destruct (bi_name _ _ Hinv _ _ E) as (bk & Hbk & En).
    unfold live_bif. rewrite Ub. destruct (decide (k = m_bif_dev_instance m)) as [->|]; [|now exists bk].
    exists b'. split; [reflexivity|]. assert (bk = b) as -> by (unfold live_bif in *; congruence). congruence.
Qed.

(** ** Operations on one member *)

(** What no machine changes of a member. *)
Definition member_fixed (m : member_if_t) : Z * Z * Z * bool * bool :=
  (m_sw_if_index m, m_bif_dev_instance m, m_mode m, m_lacp_enabled m, m_port_enabled m).

(** The variables of the receive machine. *)
Definition member_rx (m : member_if_t) : lacp_rx_sm_state_t * bool := (m_rx_state m, m_port_moved m).

Record ctx_rel (c c' : member_ctx) : Prop := {
  cr_fixed : member_fixed (c_mif c') = member_fixed (c_mif c);
  cr_rx : member_rx (c_mif c') = member_rx (c_mif c);
  cr_bif : bif_step (m_lacp_enabled (c_mif c)) (m_sw_if_index (c_mif c)) (c_bif c) (c_bif c');
  cr_ok : mux_ok c'
}.

Lemma ctx_rel_refl c : mux_ok c -> ctx_rel c c.
Proof. intros H. split; [reflexivity..|apply bif_step_refl|exact H]. Qed.

Lemma ctx_rel_trans c1 c2 c3 : ctx_rel c1 c2 -> ctx_rel c2 c3 -> ctx_rel c1 c3.
Proof.
  intros [A1 A2 A3 A4] [B1 B2 B3 B4]. pose proof A1 as [= K _ _ K4 _]. rewrite K, K4 in B3. destruct A3 as [A5 A6], B3 as [B5 B6].
  split; [congruence..| |exact B4]. split; [congruence|exact (active_frame_trans _ _ _ _ _ A6 B6)].
Qed.

(** [r] is the result of an operation on [c]. *)
Definition steps (c : member_ctx) (r : option member_ctx) : Prop := exists c', r = Some c' /\ ctx_rel c c'.

Lemma steps_bind c r k : steps c r -> (forall c', ctx_rel c c' -> steps c' (k c')) -> steps c (r ≫= k).
Proof.
  intros (c1 & -> & H1) Hk. destruct (Hk c1 H1) as (c2 & E2 & H2). exists c2. split; [exact E2|]. exact (ctx_rel_trans _ _ _ H1 H2).
Qed.

Lemma steps_from c0 c r : ctx_rel c0 c -> steps c r -> steps c0 r.
Proof. intros H0 (c' & E & H). exists c'. split; [exact E|]. exact (ctx_rel_trans _ _ _ H0 H). Qed.

Lemma steps_some c c' : ctx_rel c c' -> steps c (Some c').
Proof. intros H. now exists c'. Qed.

(** Changes of the member that the mux does not see. *)
Definition quiet (g : member_if_t -> member_if_t) : Prop := forall m,
  member_fixed (g m) = member_fixed m /\ member_rx (g m) = member_rx m /\ m_mux_state (g m) = m_mux_state m /\
  forall f, f = LACP_STATE_COLLECTING \/ f = LACP_STATE_DISTRIBUTING \/ f = LACP_STATE_SYNCHRONIZATION ->
    has (pi_state (m_actor (g m))) f = has (pi_state (m_actor m)) f.

Lemma mux_ok_quiet g m b o o' : quiet g -> mux_ok (mk_ctx m b o) -> mux_ok (mk_ctx (g m) b o').
Proof.
  intros Hg [P1 P2 P3 P4 P5]. destruct (Hg m) as ([= K _ _ _ _] & _ & Es & Eb). unfold mux_ok. cbn [c_mif]. rewrite Es.
  split; [exact P1|cbn; rewrite K; exact P2| | |]; unfold actor_has in *; cbn [c_mif] in *; rewrite Eb by auto; assumption.
Qed.

Lemma mux_ok_out m b o o' : mux_ok (mk_ctx m b o) -> mux_ok (mk_ctx m b o').
Proof. exact (port_ok_frame (m_mux_state m) (mk_ctx m b o) (mk_ctx m b o') eq_refl eq_refl eq_refl). Qed.

Lemma rel_mif g c : quiet g -> mux_ok c -> ctx_rel c (on_mif g c).
Proof.
  intros Hg H. destruct (Hg (c_mif c)) as (E1 & E2 & _). split; [exact E1|exact E2|apply bif_step_refl|]. destruct c as [m b o].
  exact (mux_ok_quiet g m b o o Hg H).
Qed.

Lemma rel_same c c' :
  member_fixed (c_mif c') = member_fixed (c_mif c) -> member_rx (c_mif c') = member_rx (c_mif c) -> m_mux_state (c_mif c') = m_mux_state (c_mif c) ->
  m_actor (c_mif c') = m_actor (c_mif c) -> c_bif c' = c_bif c -> mux_ok c -> ctx_rel c c'.
Proof.
  intros E1 E2 E3 E4 E5 H. split; [exact E1|exact E2|rewrite E5; apply bif_step_refl|]. unfold mux_ok. rewrite E3. pose proof E1 as [= K _ _ _ _].
  exact (port_ok_frame _ _ _ E5 K E4 H).
Qed.

Lemma on_mif_id c : on_mif (fun m => m) c = c.
Proof. now destruct c. Qed.

(** Bits that are not the mux's. *)
Lemma quiet_set f : Z.land f LACP_STEADY_STATE = 0 -> quiet (fun m => m <| m_actor := pi_set f (m_actor m) |>).
Proof.
  intros Hf m. split; [reflexivity|]. split; [reflexivity|]. split; [reflexivity|]. intros g Hg. cbn [m_actor set_field].
  rewrite has_set. assert (has f g = false) as ->; [|apply orb_false_r]. unfold has. apply negb_false_iff, Z.eqb_eq.
  assert (Z.land LACP_STEADY_STATE g = g) as Eg by (now destruct Hg as [-> | [-> | ->]]). rewrite <- Eg, Z.land_assoc, Hf. apply Z.land_0_l.
Qed.

Lemma quiet_clear f : Z.land f LACP_STEADY_STATE = 0 -> quiet (fun m => m <| m_actor := pi_clear f (m_actor m) |>).
Proof.
  intros Hf m. split; [reflexivity|]. split; [reflexivity|]. split; [reflexivity|]. intros g Hg. cbn [m_actor set_field].
  rewrite has_clear. f_equal. assert (Z.land LACP_STEADY_STATE g = g) as Eg by (now destruct Hg as [-> | [-> | ->]]).
  apply Z.bits_inj'. intros i Hi. rewrite Z.ldiff_spec.
  pose proof (f_equal (fun x => Z.testbit x i) Hf) as E1. pose proof (f_equal (fun x => Z.testbit x i) Eg) as E2. cbn beta in *.
  rewrite Z.land_spec in E1, E2. rewrite Z.bits_0 in E1. destruct (Z.testbit g i), (Z.testbit f i), (Z.testbit LACP_STEADY_STATE i); easy.
Qed.

Ltac quiet_now := intros ?; repeat split; intros; reflexivity.

Section World.
Variable env : bond_env.
Variable qsort : list Z -> list Z.
Hypothesis Hqsort : forall l, qsort l ≡ₚ l.

Lemma mux_frame_rel c c' : mux_frame c c' -> mux_ok c' -> ctx_rel c c'.
Proof.
  intros H Hok. pose proof (mx_mif _ _ H) as E. split; [exact (f_equal member_fixed E)|exact (f_equal member_rx E)| |exact Hok].
  split; [exact (f_equal bif_core (mx_bif _ _ H))|exact (mx_active _ _ H)].
Qed.

Lemma mux_steps ev c : mux_ok c -> steps c (mux_run env qsort ev c).
Proof.
  intros H. destruct (mux_terminates env qsort Hqsort ev c H) as (c' & E & H1 & H2 & _). exists c'. split; [exact E|]. now apply mux_frame_rel.
Qed.

Lemma ptx_rel c c' : ptx_same c c' -> mux_ok c -> ctx_rel c c'.
Proof.
  intros (H1 & H2 & H3 & _ & _ & _ & H7) Hok. apply mux_frame_rel; [exact H1|]. unfold mux_ok. rewrite H2.
  exact (port_ok_frame _ _ _ H7 (mux_frame_sw _ _ H1) H3 Hok).
Qed.

Lemma ptx_steps ev c : mux_ok c -> steps c (ptx_run env ev c).
Proof. intros H. destruct (ptx_terminates env ev c) as (c' & E & H1). exists c'. split; [exact E|]. now apply ptx_rel. Qed.

Lemma short_timeout_steps c : mux_ok c -> steps c (lacp_ptx_post_short_timeout_event (ptx_run env) c).
Proof. intros H. unfold lacp_ptx_post_short_timeout_event. destruct (_ && _); [now apply ptx_steps|]. apply steps_some. now apply ctx_rel_refl. Qed.

Lemma unselected_steps c : mux_ok c -> steps c (lacp_set_port_unselected env qsort c).
Proof.
  intros H. unfold lacp_set_port_unselected. set (c1 := set_selected LACP_PORT_UNSELECTED c).
  assert (ctx_rel c c1) as H1 by (apply rel_mif; [quiet_now|exact H]). cbv zeta. apply (steps_from _ _ _ H1). pose proof (cr_ok _ _ H1) as H2.
  destruct (m_mux_state (c_mif c1)); try (now apply mux_steps); try (apply steps_some; now apply ctx_rel_refl).
  destruct (partner_has _ c1); [apply steps_some; now apply ctx_rel_refl|now apply mux_steps].
Qed.

Lemma unless_partner_steps p c : mux_ok c -> steps c (unselect_unless_partner env qsort p c).
Proof. intros H. unfold unselect_unless_partner. cbv zeta. destruct (_ || _); [now apply unselected_steps|]. apply steps_some. now apply ctx_rel_refl. Qed.

Lemma on_partner_rel f c : mux_ok c -> ctx_rel c (on_partner f c).
Proof. intros H. apply rel_mif; [quiet_now|exact H]. Qed.

Lemma actor_set_rel f c : Z.land f LACP_STEADY_STATE = 0 -> mux_ok c -> ctx_rel c (on_actor (pi_set f) c).
Proof. intros Hf H. apply rel_mif; [now apply quiet_set|exact H]. Qed.

Lemma actor_clear_rel f c : Z.land f LACP_STEADY_STATE = 0 -> mux_ok c -> ctx_rel c (on_actor (pi_clear f) c).
Proof. intros Hf H. apply rel_mif; [now apply quiet_clear|exact H]. Qed.

Lemma record_default_rel c : mux_ok c -> ctx_rel c (lacp_record_default c).
Proof.
  intros H. unfold lacp_record_default. set (c1 := on_mif _ c). assert (ctx_rel c c1) as H1 by (apply rel_mif; [quiet_now|exact H]).
  apply (ctx_rel_trans _ _ _ H1). apply actor_set_rel; [reflexivity|exact (cr_ok _ _ H1)].
Qed.

Lemma update_ntt_rel c : mux_ok c -> ctx_rel c (lacp_update_ntt env c).
Proof.
  intros H. unfold lacp_update_ntt. cbv zeta. destruct (_ || _); [|now apply ctx_rel_refl].
  set (c1 := on_mif _ c). assert (ctx_rel c c1) as H1 by (apply rel_mif; [quiet_now|exact H]).
  apply (ctx_rel_trans _ _ _ H1). apply rel_mif; [quiet_now|exact (cr_ok _ _ H1)].
Qed.

Lemma record_pdu_steps c : mux_ok c -> steps c (lacp_record_pdu env c).
Proof.
  intros H. unfold lacp_record_pdu. cbv zeta. apply steps_bind.
  - destruct (_ && _); [now apply short_timeout_steps|]. apply steps_some. now apply ctx_rel_refl.
  - intros c1 H1. apply steps_some. set (c2 := on_mif _ c1).
    assert (ctx_rel c1 c2) as H2 by (apply rel_mif; [quiet_now|exact (cr_ok _ _ H1)]). apply (ctx_rel_trans _ _ _ H2).
    pose proof (actor_clear_rel LACP_STATE_DEFAULTED c2 eq_refl (cr_ok _ _ H2)) as H3. apply (ctx_rel_trans _ _ _ H3), on_partner_rel, (cr_ok _ _ H3).
Qed.

(** ** Operations on the whole state *)

Definition partner_sync (m : member_if_t) : bool := has (pi_state (m_partner m)) LACP_STATE_SYNCHRONIZATION.

(** What the receive machine has recorded. *)
Definition heard (m : member_if_t) : lacp_port_info_t * Z * list Z := (m_partner m, m_current_while_timer m, m_last_rx_pkt m).

(** Without a partner in sync the mux does not start to distribute. *)
Definition idle_kept (m m' : member_if_t) : Prop :=
  heard m' = heard m /\
  (partner_sync m = false -> m_mux_state m <> MUX_COLLECTING_DISTRIBUTING -> m_mux_state m' <> MUX_COLLECTING_DISTRIBUTING).

(** What an operation on one member changes of the others: the mux and its request to transmit,
    and only of selected ports; of others, the flag that all are ready. *)
Definition bystander (m m' : member_if_t) : Prop :=
  mux_mask m' = mux_mask m /\ mux_touch m m' /\
  (m_selected m <> LACP_PORT_SELECTED -> m' = m <| m_ready := m_ready m' |>) /\ idle_kept m m'.

Lemma idle_kept_refl m : idle_kept m m.
Proof. now split. Qed.

Lemma idle_kept_trans m1 m2 m3 : idle_kept m1 m2 -> idle_kept m2 m3 -> idle_kept m1 m3.
Proof.
  intros [A1 A2] [B1 B2]. split; [congruence|]. intros Hs Hn. pose proof A1 as [= K _ _]. apply B2; [unfold partner_sync in *; now rewrite K|now apply A2].
Qed.

(** A settled mux without a partner in sync does not distribute. *)
Lemma settled_idle m : mux_settled m -> partner_sync m = false -> m_mux_state m <> MUX_COLLECTING_DISTRIBUTING.
Proof. unfold mux_settled, partner_sync. intros H Hs E. rewrite E in H. destruct (m_selected m); congruence. Qed.

Record world (mi : Z) (bm bm' : bond_main_t) : Prop := {
  w_mif : forall j m, live_mif bm j m -> exists m', live_mif bm' j m' /\ member_fixed m' = member_fixed m /\ (j <> mi -> bystander m m');
  w_bif : forall k b, live_bif bm k b -> exists b', live_bif bm' k b' /\ bif_core b' = bif_core b;
  w_members : member_by_sw_if_index bm' = member_by_sw_if_index bm;
  w_bonds : bond_by_sw_if_index bm' = bond_by_sw_if_index bm
}.

Lemma set_ready_id m : m = m <| m_ready := m_ready m |>.
Proof. now destruct m. Qed.

Lemma bystander_refl m : bystander m m.
Proof. split; [reflexivity|]. split; [reflexivity|]. split; [intros _; apply set_ready_id|apply idle_kept_refl]. Qed.

Lemma bystander_trans m1 m2 m3 : bystander m1 m2 -> bystander m2 m3 -> bystander m1 m3.
Proof.
  intros (A1 & T1 & A2 & A3) (B1 & T2 & B2 & B3). split; [congruence|]. split; [now transitivity m2|]. split; [|exact (idle_kept_trans _ _ _ A3 B3)].
  intros H. rewrite B2; [now rewrite (A2 H)|]. now rewrite (f_equal m_selected A1 : m_selected m2 = m_selected m1).
Qed.

Lemma world_refl mi bm : world mi bm bm.
Proof. split; [|eauto|reflexivity..]. intros j m H. exists m. split; [exact H|]. split; [reflexivity|]. intros _. apply bystander_refl. Qed.

Lemma world_trans mi bm1 bm2 bm3 : world mi bm1 bm2 -> world mi bm2 bm3 -> world mi bm1 bm3.
Proof.
  intros [A1 A2 A3 A4] [B1 B2 B3 B4]. split; [| |congruence..].
  - intros j m Hm. destruct (A1 _ _ Hm) as (m2 & Hm2 & E2 & O2). destruct (B1 _ _ Hm2) as (m3 & Hm3 & E3 & O3).
    exists m3. split; [exact Hm3|]. split; [congruence|]. intros Hne. exact (bystander_trans _ _ _ (O2 Hne) (O3 Hne)).
  - intros k b Hb. destruct (A2 _ _ Hb) as (b2 & Hb2 & E2). destruct (B2 _ _ Hb2) as (b3 & Hb3 & E3). exists b3. split; [exact Hb3|congruence].
Qed.

(** Member [mi], which is [m] in [bm], is [m'] in [bm']. *)
Record moves (mi : Z) (bm : bond_main_t) (m : member_if_t) (bm' : bond_main_t) (m' : member_if_t) : Prop := {
  mv_ok : bond_ok bm';
  mv_world : world mi bm bm';
  mv_live : live_mif bm' mi m';
  mv_fixed : member_fixed m' = member_fixed m
}.

Lemma moves_refl mi bm m : bond_ok bm -> live_mif bm mi m -> moves mi bm m bm m.
Proof. intros H Hm. split; [exact H|apply world_refl|exact Hm|reflexivity]. Qed.

Lemma moves_trans mi bm1 m1 bm2 m2 bm3 m3 : moves mi bm1 m1 bm2 m2 -> moves mi bm2 m2 bm3 m3 -> moves mi bm1 m1 bm3 m3.
Proof. intros [A1 A2 A3 A4] [B1 B2 B3 B4]. split; [exact B1|exact (world_trans _ _ _ _ A2 B2)|exact B3|congruence]. Qed.

Lemma world_updated mi bm bm' i m b m' b' :
  live_mif bm i m -> live_bif bm (m_bif_dev_instance m) b -> updated bm bm' i m' (m_bif_dev_instance m) b' ->
  member_fixed m' = member_fixed m -> bif_core b' = bif_core b -> (i <> mi -> bystander m m') -> world mi bm bm'.
Proof.
  intros Hm Hb Hu Ef Eb Ho. split.
  - intros j n Hn. unfold live_mif. rewrite (up_mif _ _ _ _ _ _ Hu). destruct (decide (j = i)) as [->|Hne].
    + assert (n = m) as -> by (unfold live_mif in *; congruence). exists m'. auto.
    + exists n. split; [exact Hn|]. split; [reflexivity|]. intros _. apply bystander_refl.
  - intros k bk Hk. unfold live_bif. rewrite (up_bif _ _ _ _ _ _ Hu). destruct (decide (k = m_bif_dev_instance m)) as [->|]; [|now exists bk].
    assert (bk = b) as -> by (unfold live_bif in *; congruence). now exists b'.
  - exact (up_members _ _ _ _ _ _ Hu).
  - exact (up_bonds _ _ _ _ _ _ Hu).
Qed.

(** The context of a member of an LACP bond. *)
Lemma lacp_ctx bm i m :
  bond_ok bm -> live_mif bm i m -> m_mode m = BOND_MODE_LACP ->
  exists b, live_bif bm (m_bif_dev_instance m) b /\ load_ctx bm i = mk_ctx m b (outputs bm) /\ mux_ok (mk_ctx m b (outputs bm)) /\
    m_lacp_enabled m = true /\ b_mode b = BOND_MODE_LACP.
Proof.
  intros H Hm Hl. destruct (bi_member _ _ H _ _ Hm) as (b & Hb & Em & _ & Hok). exists b. split; [exact Hb|].
  split; [now apply load_live|]. specialize (Hok I). unfold member_ok in Hok. rewrite <- Em, Hl in Hok. cbn in Hok.
  destruct Hok as [H1 H2]. split; [exact (mux_ok_out _ _ _ _ H2)|]. split; [exact H1|congruence].
Qed.

(** Running an operation of member [i] changes [i] as the operation does; [mi] is the member that is being
    handled. *)
Lemma run_moves mi i bm m f :
  bond_ok bm -> live_mif bm i m -> m_mode m = BOND_MODE_LACP ->
  (forall c, c_mif c = m -> mux_ok c -> exists c', f c = Some c' /\ ctx_rel c c' /\ (i <> mi -> bystander m (c_mif c'))) ->
  exists bm' b o c', (live_bif bm (m_bif_dev_instance m) b /\ mux_ok (mk_ctx m b o)) /\ f (mk_ctx m b o) = Some c' /\ ctx_rel (mk_ctx m b o) c' /\
    run_ctx f i bm = Some bm' /\ bond_ok bm' /\ world mi bm bm' /\ live_mif bm' i (c_mif c') /\
    (forall j n, j <> i -> live_mif bm j n -> live_mif bm' j n).
Proof.
  intros H Hm Hl Hf. destruct (lacp_ctx _ _ _ H Hm Hl) as (b & Hb & El & Hok & Hen & Hmode). destruct (Hf (mk_ctx m b (outputs bm)) eq_refl Hok) as (c' & Ec & Hr & Ho).
  pose proof (cr_fixed _ _ Hr) as Ef. pose proof Ef as [= K1 K2 K3 K4 K5]. destruct (bif_core_fields _ _ (bs_core _ _ _ _ (cr_bif _ _ Hr))) as (_ & Em & _).
  assert (updated bm (store_ctx bm i c') i (c_mif c') (m_bif_dev_instance m) (c_bif c')) as Hu.
  { rewrite <- K2. apply (store_updated _ _ m b); [exact Hm|]. now rewrite K2. }
  exists (store_ctx bm i c'), b, (outputs bm), c'. split; [now split|]. split; [exact Ec|]. split; [exact Hr|]. split; [unfold run_ctx; now rewrite El, Ec|].
  split; [|split; [|split]].
  - apply (inv_updated _ _ _ _ _ _ _ _ _ H Hm Hb Hu); [unfold member_core; cbn in *; congruence| |auto|].
    { pose proof (cr_bif _ _ Hr) as Hbs. cbn [c_mif c_bif] in Hbs. rewrite Hen in Hbs. now rewrite Hmode. }
    intros _. unfold member_ok. rewrite Em. cbn [c_bif]. rewrite Hmode. cbn. split; [cbn in *; congruence|].
    pose proof (cr_ok _ _ Hr) as Hk. destruct c' as [m' b' o']. exact (mux_ok_out _ _ _ _ Hk).
  - apply (world_updated mi _ _ _ _ _ _ _ Hm Hb Hu Ef); [exact (bs_core _ _ _ _ (cr_bif _ _ Hr))|exact Ho].
  - apply (updated_live _ _ _ _ _ _ Hu).
  - intros j n Hne Hn. unfold live_mif. now rewrite (up_mif _ _ _ _ _ _ Hu), decide_False.
Qed.

(** The same for the member that is being handled. *)
Lemma run_self mi bm m f :
  bond_ok bm -> live_mif bm mi m -> m_mode m = BOND_MODE_LACP -> (forall c, c_mif c = m -> mux_ok c -> steps c (f c)) ->
  exists bm' b o c', (live_bif bm (m_bif_dev_instance m) b /\ mux_ok (mk_ctx m b o)) /\ f (mk_ctx m b o) = Some c' /\ run_ctx f mi bm = Some bm' /\ moves mi bm m bm' (c_mif c') /\ member_rx (c_mif c') = member_rx m.
Proof.
  intros H Hm Hl Hf. destruct (run_moves mi mi bm m f H Hm Hl) as (bm' & b & o & c' & E0 & E1 & Hr & E2 & H1 & H2 & H3 & _).
  - intros c Ec Hc. destruct (Hf c Ec Hc) as (c' & E & Hr). exists c'. split; [exact E|]. split; [exact Hr|]. intros Hne. now destruct Hne.
  - exists bm', b, o, c'. split; [exact E0|]. split; [exact E1|]. split; [exact E2|]. split; [|exact (cr_rx _ _ Hr)].
    split; [exact H1|exact H2|exact H3|exact (cr_fixed _ _ Hr)].
Qed.

(** Assignments to the member that the mux does not see. *)
Lemma set_quiet mi bm m m' :
  bond_ok bm -> live_mif bm mi m -> m_mode m = BOND_MODE_LACP -> member_fixed m' = member_fixed m -> m_mux_state m' = m_mux_state m ->
  Z.land (pi_state (m_actor m')) LACP_STEADY_STATE = Z.land (pi_state (m_actor m)) LACP_STEADY_STATE ->
  moves mi bm m (set_mif bm mi m') m'.
Proof.
  intros H Hm Hl Ef Es Ea. destruct (lacp_ctx _ _ _ H Hm Hl) as (b & Hb & El & Hok & Hen & Hmode). pose proof Ef as [= K1 K2 K3 K4 K5].
  pose proof (set_mif_updated _ _ _ _ _ m' Hm Hb) as Hu. split.
  - apply (inv_updated _ _ _ _ _ _ _ _ _ H Hm Hb Hu); [unfold member_core; congruence|apply bif_step_refl|auto|].
    intros _. unfold member_ok. rewrite Hmode. cbn. split; [congruence|]. destruct Hok as [P1 P2 P3 P4 P5].
    assert (forall f, Z.land LACP_STEADY_STATE f = f -> has (pi_state (m_actor m')) f = has (pi_state (m_actor m)) f) as Hbits.
    { intros f Hf. unfold has. rewrite <- Hf, !Z.land_assoc, Ea. reflexivity. }
    split; unfold actor_has in *; cbn [c_mif c_bif] in *; rewrite ?Es, ?K1, ?Hbits by reflexivity; assumption.
  - apply (world_updated mi _ _ _ _ _ _ _ Hm Hb Hu Ef eq_refl). intros Hne. now destruct Hne.
  - apply (updated_live _ _ _ _ _ _ Hu).
  - exact Ef.
Qed.

(** ** Selection *)

Lemma ready_step c :
  mux_ok c -> exists c',
    (let c := on_mif (fun m => m <| m_ready := true |>) c in if is_selected LACP_PORT_SELECTED c then mux_run env qsort MUX_READY c else Some c) = Some c' /\
    ctx_rel c c' /\ bystander (c_mif c) (c_mif c').
Proof.
  intros H. set (c1 := on_mif _ c). assert (ctx_rel c c1) as H1 by (apply rel_mif; [quiet_now|exact H]). cbv zeta.
  assert (mux_frame c c1) as F1 by (apply on_mif_frame; reflexivity). destruct (is_selected LACP_PORT_SELECTED c1) eqn:Es.
  - destruct (mux_terminates env qsort Hqsort MUX_READY c1 (cr_ok _ _ H1)) as (c' & E & F2 & K & Hs). exists c'. split; [exact E|].
    split; [exact (ctx_rel_trans _ _ _ H1 (mux_frame_rel _ _ F2 K))|]. split; [exact (mx_mif _ _ (mux_frame_trans _ _ _ F1 F2))|].
    split; [destruct (mux_dispatch_touch env qsort _ _ _ _ E) as [A B C]; split; [exact A|exact B|exact C]|]. split; [|split; [exact (f_equal heard (mx_mif _ _ F2))|intros Hp _; apply (settled_idle _ Hs); unfold partner_sync; now rewrite (mux_frame_partner _ _ F2)]].
    intros Hu. unfold is_selected in Es. apply bool_decide_eq_true in Es. change (m_selected (c_mif c) = LACP_PORT_SELECTED) in Es. congruence.
  - exists c1. split; [reflexivity|]. split; [exact H1|]. split; [exact (mx_mif _ _ F1)|]. split; [split; [reflexivity|now left..]|]. split; [reflexivity|now split].
Qed.

(** The members of an LACP bond run LACP. *)
Definition lacp_member (bm : bond_main_t) (sw : Z) : Prop :=
  forall j n, live_mif bm j n -> m_sw_if_index n = sw -> m_mode n = BOND_MODE_LACP.

Lemma world_back mi bm bm' j n' :
  bond_ok bm -> bond_ok bm' -> world mi bm bm' -> live_mif bm' j n' -> exists n, live_mif bm j n /\ member_fixed n' = member_fixed n.
Proof.
  intros H H' Hw Hn'. pose proof (proj2 (bi_map _ _ H' (m_sw_if_index n') j) (ex_intro _ n' (conj Hn' eq_refl))) as E.
  rewrite (w_members _ _ _ Hw) in E. apply (bi_map _ _ H) in E as (n & Hn & En). exists n. split; [exact Hn|].
  destruct (w_mif _ _ _ Hw _ _ Hn) as (n2 & Hn2 & E2 & _). assert (n2 = n') as -> by (unfold live_mif in *; congruence). exact E2.
Qed.

Lemma lacp_member_world mi bm bm' sw : bond_ok bm -> bond_ok bm' -> world mi bm bm' -> lacp_member bm sw -> lacp_member bm' sw.
Proof.
  intros H H' Hw Hl j n' Hn' E. destruct (world_back _ _ _ _ _ H H' Hw Hn') as (n & Hn & [= K1 K2 K3 K4 K5]). rewrite K3.
  apply (Hl j n Hn). congruence.
Qed.

Lemma lacp_members bm k b sw : bond_ok bm -> live_bif bm k b -> b_mode b = BOND_MODE_LACP -> sw ∈ b_members b -> lacp_member bm sw.
Proof.
  intros H Hb Hmode Hin j n Hn E. destruct (bk_live _ _ _ (bi_bond _ _ H _ _ Hb) _ Hin) as (i & m & Hm & E1 & E2).
  assert (j = i) as -> by (apply (inv_unique _ _ _ _ _ _ H Hn Hm); congruence). assert (n = m) as -> by (unfold live_mif in *; congruence).
  destruct (bi_member _ _ H _ _ Hm) as (b' & Hb' & Em & _). rewrite E2 in Hb'. assert (b' = b) as -> by (unfold live_bif in *; congruence). congruence.
Qed.

Lemma set_ready_moves mi bm m sw :
  bond_ok bm -> live_mif bm mi m -> lacp_member bm sw ->
  exists bm' m', set_ready env qsort bm sw = Some bm' /\ moves mi bm m bm' m' /\ bystander m m'.
Proof.
  intros H Hm Hl. unfold set_ready, bond_get_member_by_sw_if_index. destruct (member_by_sw_if_index bm !! sw) as [j|] eqn:Ej.
  2: { exists bm, m. split; [reflexivity|]. split; [now apply moves_refl|apply bystander_refl]. }
  apply (bi_map _ _ H) in Ej as (n & Hn & En).
  destruct (run_moves mi j bm n (fun c => let c := on_mif (fun m => m <| m_ready := true |>) c in
      if is_selected LACP_PORT_SELECTED c then mux_run env qsort MUX_READY c else Some c) H Hn (Hl j n Hn En))
    as (bm' & b & o & c' & (_ & Hok) & E1 & Hr & E2 & K1 & K2 & K3 & K4).
  { intros c Ec Hc. destruct (ready_step c Hc) as (c' & E & Hr & Hb). exists c'. split; [exact E|]. split; [exact Hr|]. now rewrite <- Ec. }
  assert (bystander n (c_mif c')) as Hby.
  { destruct (ready_step _ Hok) as (c2 & E3 & _ & Hb). assert (c2 = c') as -> by congruence. exact Hb. }
  destruct (decide (j = mi)) as [->|Hne].
  - assert (n = m) as -> by (unfold live_mif in *; congruence). exists bm', (c_mif c'). split; [exact E2|].
    split; [|exact Hby]. split; [exact K1|exact K2|exact K3|exact (cr_fixed _ _ Hr)].
  - exists bm', m. split; [exact E2|]. split; [|apply bystander_refl]. split; [exact K1|exact K2|apply K4; auto|reflexivity].
Qed.

Lemma set_all_ready_moves mi sws bm m :
  bond_ok bm -> live_mif bm mi m -> (forall sw, sw ∈ sws -> lacp_member bm sw) ->
  exists bm' m', set_all_ready env qsort sws bm = Some bm' /\ moves mi bm m bm' m' /\ bystander m m'.
Proof.
  revert bm m. induction sws as [|sw sws IH]; intros bm m H Hm Hl; cbn [set_all_ready].
  - exists bm, m. split; [reflexivity|]. split; [now apply moves_refl|apply bystander_refl].
  - destruct (set_ready_moves mi bm m sw H Hm) as (bm1 & m1 & E1 & M1 & B1); [apply Hl; left|]. rewrite E1. cbn [mbind option_bind].
    destruct (IH bm1 m1 (mv_ok _ _ _ _ _ M1) (mv_live _ _ _ _ _ M1)) as (bm2 & m2 & E2 & M2 & B2).
    { intros sw' Hin. apply (lacp_member_world _ _ _ _ H (mv_ok _ _ _ _ _ M1) (mv_world _ _ _ _ _ M1)), Hl. now right. }
    exists bm2, m2. split; [exact E2|]. split; [exact (moves_trans _ _ _ _ _ _ _ M1 M2)|exact (bystander_trans _ _ _ B1 B2)].
Qed.

Lemma bystander_rx m m' : bystander m m' -> member_rx m' = member_rx m.
Proof. intros [H _]. exact (f_equal member_rx H). Qed.

Lemma moves_mode mi bm m bm' m' : moves mi bm m bm' m' -> m_mode m' = m_mode m.
Proof. intros H. pose proof (mv_fixed _ _ _ _ _ H) as [= _ _ K _ _]. exact K. Qed.

(** A result of an operation on member [mi] that leaves the receive machine alone. *)
Definition moved (mi : Z) (bm : bond_main_t) (m : member_if_t) (r : option (bond_main_t * lacp_error_t)) : Prop :=
  exists bm' m' e, r = Some (bm', e) /\ moves mi bm m bm' m' /\ member_rx m' = member_rx m /\ idle_kept m m'.

Lemma moved_from mi bm0 m0 bm m r :
  moves mi bm0 m0 bm m -> member_rx m = member_rx m0 -> idle_kept m0 m -> moved mi bm m r -> moved mi bm0 m0 r.
Proof.
  intros H0 E0 K0 (bm' & m' & e & E & H & Er & K). exists bm', m', e. split; [exact E|]. split; [exact (moves_trans _ _ _ _ _ _ _ H0 H)|].
  split; [congruence|exact (idle_kept_trans _ _ _ K0 K)].
Qed.

(** Running the mux after a change of the member that keeps the partner. *)
Lemma run_mux_moved mi bm m ev g e :
  bond_ok bm -> live_mif bm mi m -> m_mode m = BOND_MODE_LACP -> quiet g -> (forall m, heard (g m) = heard m) ->
  moved mi bm m (bm ← run_ctx (fun c => mux_run env qsort ev (on_mif g c)) mi bm; Some (bm, e)).
Proof.
  intros H Hm Hl Hg Hp. destruct (run_self mi bm m (fun c => mux_run env qsort ev (on_mif g c)) H Hm Hl) as (bm' & b & o & c' & (_ & Hok) & Ef & E & M & R).
  - intros c _ Hc. pose proof (rel_mif g c Hg Hc) as Hr. apply (steps_from _ _ _ Hr), mux_steps, (cr_ok _ _ Hr).
  - exists bm', (c_mif c'), e. rewrite E. split; [reflexivity|]. split; [exact M|]. split; [exact R|].
    pose proof (cr_ok _ _ (rel_mif g _ Hg Hok)) as Hok1. destruct (mux_terminates env qsort Hqsort ev _ Hok1) as (c2 & E2 & F2 & _ & Hs).
    assert (c2 = c') as -> by (unfold mux_run in Ef; congruence). assert (heard (c_mif c') = heard m) as Eh by (rewrite <- (Hp m); exact (f_equal heard (mx_mif _ _ F2))).
    split; [exact Eh|]. pose proof Eh as [= Ep _ _]. intros Hsync _. apply (settled_idle _ Hs). unfold partner_sync in *. now rewrite Ep.
Qed.

Lemma set_port_selected_moves mi bm m :
  bond_ok bm -> live_mif bm mi m -> m_mode m = BOND_MODE_LACP -> moved mi bm m (lacp_set_port_selected env qsort mi bm).
Proof.
  intros H Hm Hl. unfold lacp_set_port_selected. rewrite (live_mif_at _ _ _ Hm). cbv zeta.
  destruct (same_system_key _ _).
  - set (m1 := m <| m_loopback_port := true |> <| m_actor := _ |>).
    assert (moves mi bm m (set_mif bm mi m1) m1) as M.
    { apply set_quiet; auto. subst m1. unfold pi_clear. cbn [m_actor set_field pi_state]. apply Z.bits_inj'. intros i Hi.
      rewrite !Z.land_spec, Z.ldiff_spec. destruct (decide (i = 2)) as [->|Hne]; [now rewrite !andb_false_r|].
      assert (Z.testbit LACP_STATE_AGGREGATION i = false) as ->; [|now rewrite andb_true_r].
      change LACP_STATE_AGGREGATION with (2 ^ 2). rewrite Z.pow2_bits_eqb by lia. apply Z.eqb_neq. congruence. }
    apply (moved_from _ _ _ _ _ _ M eq_refl); [now split|]. apply run_mux_moved; [apply M..| |quiet_now|reflexivity]. now rewrite (moves_mode _ _ _ _ _ M).
  - destruct (match first_active _ _ with Some _ => _ | None => _ end); [apply run_mux_moved; auto; quiet_now|]. set (m1 := m <| m_selected := LACP_PORT_SELECTED |>).
    assert (moves mi bm m (set_mif bm mi m1) m1) as M by (now apply set_quiet). apply (moved_from _ _ _ _ _ _ M eq_refl); [now split|].
    destruct (match m_mux_state m with MUX_DETACHED => _ | MUX_WAITING => _ | MUX_ATTACHED => _ | MUX_COLLECTING_DISTRIBUTING => _ end).
    + exists (set_mif bm mi m1), m1, LACP_ERROR_NONE. split; [reflexivity|]. split; [apply moves_refl; apply M|]. split; [reflexivity|apply idle_kept_refl].
    + pose proof (run_mux_moved mi (set_mif bm mi m1) m1 MUX_SELECTED (fun m => m) LACP_ERROR_NONE) as Hrun.
      destruct Hrun as (bm' & m' & e & E & Hr); [apply M..|now rewrite (moves_mode _ _ _ _ _ M)|quiet_now|reflexivity|].
      exists bm', m', e. split; [|exact Hr]. unfold run_ctx in *. rewrite on_mif_id in E. exact E.
Qed.

Lemma selection_moves mi bm m :
  bond_ok bm -> live_mif bm mi m -> m_mode m = BOND_MODE_LACP -> moved mi bm m (lacp_selection_logic env qsort mi bm).
Proof.
  intros H Hm Hl. unfold lacp_selection_logic. rewrite (live_mif_at _ _ _ Hm). destruct (lacp_ctx _ _ _ H Hm Hl) as (b & Hb & _ & _ & _ & Hmode).
  rewrite (live_bif_at _ _ _ Hb). cbv zeta. destruct (existsb _ _); [now apply set_port_selected_moves|].
  destruct (set_all_ready_moves mi (b_members b) bm m H Hm) as (bm1 & m1 & E & M & B).
  { intros sw Hin. exact (lacp_members _ _ _ _ H Hb Hmode Hin). }
  rewrite E. cbn [mbind option_bind]. apply (moved_from _ _ _ _ _ _ M (bystander_rx _ _ B)); [apply B|]. apply set_port_selected_moves; [apply M..|].
  now rewrite (moves_mode _ _ _ _ _ M).
Qed.

End World.
