(* ===== verification/LacpRx.v ===== *)
(** * LACP: the receive machine ends

    Every event that the receive machine can get, in every state, ends within
    [RX_FUEL] nested dispatches and keeps the invariant of the bonds; with it the
    input of a packet, the periodic process and the changes of interfaces. *)

From stdpp Require Import gmap.
From S2P Require Import Prelude NetTypes Pool BondTypes Bond Lacp LacpMux LacpInv.

Section Rx.
Variable env : bond_env.
Variable qsort : list Z -> list Z.
Hypothesis Hqsort : forall l, qsort l ≡ₚ l.
Variable mi : Z.

(** Member [mi] is [m], of an LACP bond. *)
Record at_port (bm : bond_main_t) (m : member_if_t) : Prop := {
  ap_ok : bond_ok bm;
  ap_live : live_mif bm mi m;
  ap_lacp : m_mode m = BOND_MODE_LACP
}.

Lemma at_port_moves bm m bm' m' : at_port bm m -> moves mi bm m bm' m' -> at_port bm' m'.
Proof. intros [H1 H2 H3] M. split; [apply M|apply M|]. now rewrite (moves_mode _ _ _ _ _ M). Qed.

(** The operation [r] on [mi] ends; [get] is the state in its result, and [Q] holds of the member. *)
Definition ends {A} (get : A -> bond_main_t) (r : option A) (bm : bond_main_t) (m : member_if_t) (Q : member_if_t -> Prop) : Prop :=
  exists x m', r = Some x /\ moves mi bm m (get x) m' /\ Q m'.

Abbreviation always := (fun _ : member_if_t => True).

Lemma ends_bind {A B} (ga : A -> bond_main_t) (gb : B -> bond_main_t) r k bm m Q Q' :
  at_port bm m -> ends ga r bm m Q ->
  (forall x m', at_port (ga x) m' -> moves mi bm m (ga x) m' -> Q m' -> ends gb (k x) (ga x) m' Q') -> ends gb (r ≫= k) bm m Q'.
Proof.
  intros Hat (x & m1 & -> & M1 & Q1) Hk. destruct (Hk x m1 (at_port_moves _ _ _ _ Hat M1) M1 Q1) as (y & m2 & E2 & M2 & Q2).
  exists y, m2. split; [exact E2|]. split; [exact (moves_trans _ _ _ _ _ _ _ M1 M2)|exact Q2].
Qed.

Lemma ends_ret {A} (get : A -> bond_main_t) x m (Q : member_if_t -> Prop) : at_port (get x) m -> Q m -> ends get (Some x) (get x) m Q.
Proof. intros [H1 H2 _] HQ. exists x, m. split; [reflexivity|]. split; [now apply moves_refl|exact HQ]. Qed.

Lemma ends_weaken {A} (get : A -> bond_main_t) r bm m (Q Q' : member_if_t -> Prop) :
  ends get r bm m Q -> (forall m', member_fixed m' = member_fixed m -> Q m' -> Q' m') -> ends get r bm m Q'.
Proof. intros (x & m' & E & M & HQ) Hw. exists x, m'. split; [exact E|]. split; [exact M|]. apply Hw; [apply M|exact HQ]. Qed.

Lemma ends_from {A} (get : A -> bond_main_t) r bm0 m0 bm m Q : moves mi bm0 m0 bm m -> ends get r bm m Q -> ends get r bm0 m0 Q.
Proof. intros M0 (x & m' & E & M & HQ). exists x, m'. split; [exact E|]. split; [exact (moves_trans _ _ _ _ _ _ _ M0 M)|exact HQ]. Qed.

(** Operations on the context of the member. *)
Lemma ends_run f bm m :
  at_port bm m -> (forall c, c_mif c = m -> mux_ok c -> steps c (f c)) -> ends (fun x => x) (run_ctx f mi bm) bm m (fun m' => member_rx m' = member_rx m).
Proof.
  intros [H1 H2 H3] Hf. destruct (run_self mi bm m f H1 H2 H3 Hf) as (bm' & b & o & c' & _ & _ & E & M & R).
  exists bm', (c_mif c'). now split.
Qed.

Lemma ends_selection bm m : at_port bm m -> ends fst (lacp_selection_logic env qsort mi bm) bm m (fun m' => member_rx m' = member_rx m).
Proof.
  intros [H1 H2 H3]. destruct (selection_moves env qsort Hqsort mi bm m H1 H2 H3) as (bm' & m' & e & E & M & R & K). exists (bm', e), m'. split; [exact E|now split].
Qed.

(** ** Dispatch *)

Definition rx_ends (n : nat) (ev : lacp_rx_event_t) (bm : bond_main_t) (m : member_if_t) (Q : member_if_t -> Prop) : Prop :=
  ends fst (lacp_rx_dispatch env qsort n mi ev bm) bm m Q.

Definition act_ends (n : nat) (a : rx_action_t) (bm : bond_main_t) (m : member_if_t) (Q : member_if_t -> Prop) : Prop :=
  ends fst (rx_action env qsort mi (lacp_rx_dispatch env qsort n mi) a bm) bm m Q.

Lemma post_ends n ev bm m Q : rx_ends n ev bm m Q -> ends (fun x => x) (post (lacp_rx_dispatch env qsort n mi) ev bm) bm m Q.
Proof. intros ([bm' e] & m' & E & M & HQ). exists bm', m'. unfold post. rewrite E. now split. Qed.

Lemma action_ret r bm m Q : at_port bm m -> ends (fun x => x) r bm m Q -> ends fst (bm ← r; Some (bm, LACP_ERROR_NONE)) bm m Q.
Proof. intros _ (x & m' & -> & M & HQ). exists (x, LACP_ERROR_NONE), m'. now split. Qed.

Definition set_rx_state (s : lacp_rx_sm_state_t) (m : member_if_t) : member_if_t := m <| m_rx_state := s |>.

Lemma set_rx_moves s bm m : at_port bm m -> moves mi bm m (set_mif bm mi (set_rx_state s m)) (set_rx_state s m).
Proof. intros [H1 H2 H3]. now apply set_quiet. Qed.

(** An event that the table ignores, and one that runs an action. *)
Lemma rx_ignored n ev bm m next (Q : member_if_t -> Prop) :
  at_port bm m -> fsm_transition lacp_rx_fsm_table rx_state_num (m_rx_state m) (rx_event_num ev) = (None, next) ->
  Q (set_rx_state next m) -> rx_ends (S n) ev bm m Q.
Proof.
  intros Hat E HQ. unfold rx_ends. cbn [lacp_rx_dispatch]. rewrite (live_mif_at _ _ _ (ap_live _ _ Hat)), E. cbv zeta.
  apply (ends_from _ _ _ _ _ _ _ (set_rx_moves next bm m Hat)).
  apply (ends_ret fst (set_mif bm mi (set_rx_state next m), LACP_ERROR_NONE)); [|exact HQ]. exact (at_port_moves _ _ _ _ Hat (set_rx_moves next bm m Hat)).
Qed.

Lemma rx_acts n ev bm m a next (Q : member_if_t -> Prop) :
  at_port bm m -> fsm_transition lacp_rx_fsm_table rx_state_num (m_rx_state m) (rx_event_num ev) = (Some a, next) ->
  (forall bm', at_port bm' (set_rx_state next m) -> act_ends n a bm' (set_rx_state next m) Q) -> rx_ends (S n) ev bm m Q.
Proof.
  intros Hat E Ha. unfold rx_ends. cbn [lacp_rx_dispatch]. rewrite (live_mif_at _ _ _ (ap_live _ _ Hat)), E. cbv zeta.
  apply (ends_from _ _ _ _ _ _ _ (set_rx_moves next bm m Hat)). apply Ha. exact (at_port_moves _ _ _ _ Hat (set_rx_moves next bm m Hat)).
Qed.

(** ** Actions *)

Lemma rx_state_kept m m' : member_rx m' = member_rx m -> m_rx_state m' = m_rx_state m /\ m_port_moved m' = m_port_moved m.
Proof. now intros [= E1 E2]. Qed.

Lemma current_ends n bm m : at_port bm m -> m_rx_state m = RX_CURRENT -> act_ends (S n) ACT_CURRENT bm m (fun m' => m_rx_state m' = RX_CURRENT).
Proof.
  intros Hat Es. unfold act_ends. cbn [rx_action]. unfold lacp_rx_action_current.
  eapply ends_bind; [exact Hat|apply ends_run; [exact Hat|]; intros c _ Hc; now apply unless_partner_steps|]. intros bm1 m1 Hat1 _ R1.
  eapply ends_bind; [exact Hat1|apply ends_run; [exact Hat1|]|].
  { intros c _ Hc. pose proof (update_ntt_rel env c Hc) as Hr. apply (steps_from _ _ _ Hr), record_pdu_steps, (cr_ok _ _ Hr). }
  intros bm2 m2 Hat2 _ R2. eapply ends_bind; [exact Hat2|apply ends_run; [exact Hat2|]|].
  { intros c _ Hc. apply steps_some. pose proof (rel_mif (fun m => m <| m_current_while_timer := e_now env + 1000 * u8 (m_ttl_in_seconds m) |>) c ltac:(quiet_now) Hc) as Hr.
    apply (ctx_rel_trans _ _ _ Hr), actor_clear_rel; [reflexivity|exact (cr_ok _ _ Hr)]. }
  intros bm3 m3 Hat3 _ R3. assert (m_rx_state m3 = RX_CURRENT) as Es3.
  { destruct (rx_state_kept _ _ R1), (rx_state_kept _ _ R2), (rx_state_kept _ _ R3). congruence. }
  eapply (ends_bind (fun x => x) _ _ _ _ _ (fun m' => m_rx_state m' = RX_CURRENT)); [exact Hat3| |].
  2: { intros bm4 m4 Hat4 _ R4. apply (ends_weaken _ _ _ _ _ _ (ends_selection _ _ Hat4)). intros m5 _ R5. destruct (rx_state_kept _ _ R5). congruence. }
  destruct (lacp_port_is_moved mi bm3); [|now apply (ends_ret (fun x => x))]. unfold lacp_set_port_moved. cbv zeta.
  rewrite (live_mif_at _ _ _ (ap_live _ _ Hat3)). set (m4 := m3 <| m_port_moved := true |>).
  assert (moves mi bm3 m3 (set_mif bm3 mi m4) m4) as M4 by (destruct Hat3; now apply set_quiet).
  apply (ends_from _ _ _ _ _ _ _ M4), post_ends. apply (rx_ignored _ _ _ _ RX_CURRENT); [exact (at_port_moves _ _ _ _ Hat3 M4)| |easy].
  change (m_rx_state m4) with (m_rx_state m3). now rewrite Es3.
Qed.

(** The states in which a PDU is taken. *)
Definition receives (m : member_if_t) : Prop := m_rx_state m = RX_EXPIRED \/ m_rx_state m = RX_DEFAULTED \/ m_rx_state m = RX_CURRENT.

Lemma pdu_ends n bm m : at_port bm m -> receives m -> rx_ends (S (S n)) RX_PDU_RECEIVED bm m receives.
Proof.
  intros Hat Hs. apply (rx_acts _ _ _ _ ACT_CURRENT RX_CURRENT); [exact Hat|now destruct Hs as [-> | [-> | ->]]|]. intros bm' Hat'.
  eapply ends_weaken; [now apply current_ends|]. unfold receives. auto.
Qed.

(** The end of the actions that look for a packet. *)
Lemma rx_pkt_ends n bm m : at_port bm m -> receives m ->
  ends (fun x => x) (if has_rx_pkt (mif_at bm mi) then post (lacp_rx_dispatch env qsort (S (S n)) mi) RX_PDU_RECEIVED bm else Some bm) bm m receives.
Proof. intros Hat Hs. destruct (has_rx_pkt _); [now apply post_ends, pdu_ends|now apply (ends_ret (fun x => x))]. Qed.

Lemma receives_kept m m' : member_rx m' = member_rx m -> receives m -> receives m'.
Proof. intros R. unfold receives. destruct (rx_state_kept _ _ R) as [-> _]. auto. Qed.

Lemma defaulted_ends n bm m : at_port bm m -> m_rx_state m = RX_DEFAULTED -> act_ends (S (S n)) ACT_DEFAULTED bm m receives.
Proof.
  intros Hat Es. unfold act_ends. cbn [rx_action]. apply action_ret; [exact Hat|]. unfold lacp_rx_action_defaulted.
  eapply ends_bind; [exact Hat|apply ends_run; [exact Hat|]|].
  { intros c _ Hc. pose proof (rel_mif (fun m => m <| m_current_while_timer := 0 |>) c ltac:(quiet_now) Hc) as Hr.
    apply (steps_from _ _ _ Hr), unless_partner_steps; [exact Hqsort|exact (cr_ok _ _ Hr)]. }
  intros bm1 m1 Hat1 _ R1. eapply ends_bind; [exact Hat1|apply ends_run; [exact Hat1|]|].
  { intros c _ Hc. apply steps_some. pose proof (record_default_rel c Hc) as Hr. apply (ctx_rel_trans _ _ _ Hr), actor_clear_rel; [reflexivity|exact (cr_ok _ _ Hr)]. }
  intros bm2 m2 Hat2 _ R2. apply rx_pkt_ends; [exact Hat2|]. apply (receives_kept _ _ R2), (receives_kept _ _ R1). unfold receives. auto.
Qed.

Lemma timer_ends n bm m : at_port bm m -> m_rx_state m = RX_EXPIRED -> rx_ends (S (S (S n))) RX_TIMER_EXPIRED bm m receives.
Proof. intros Hat Es. apply (rx_acts _ _ _ _ ACT_DEFAULTED RX_DEFAULTED); [exact Hat|now rewrite Es|]. intros bm' Hat'. now apply defaulted_ends. Qed.

Lemma expired_ends n bm m : at_port bm m -> m_rx_state m = RX_EXPIRED -> act_ends (S (S (S n))) ACT_EXPIRED bm m receives.
Proof.
  intros Hat Es. unfold act_ends. cbn [rx_action]. apply action_ret; [exact Hat|]. unfold lacp_rx_action_expired.
  eapply ends_bind; [exact Hat|apply ends_run; [exact Hat|]|].
  { intros c _ Hc. pose proof (on_partner_rel (pi_clear LACP_STATE_SYNCHRONIZATION) c Hc) as Hr. apply (steps_from _ _ _ Hr).
    pose proof (on_partner_rel (pi_set LACP_STATE_LACP_TIMEOUT) _ (cr_ok _ _ Hr)) as Hr2. apply (steps_from _ _ _ Hr2), short_timeout_steps, (cr_ok _ _ Hr2). }
  intros bm1 m1 Hat1 _ R1. cbv zeta. eapply ends_bind; [exact Hat1|apply ends_run; [exact Hat1|]|].
  { intros c _ Hc. apply steps_some. pose proof (rel_mif (fun m => m <| m_current_while_timer := e_now env + 1000 * u8 (m_ttl_in_seconds m) |>) c ltac:(quiet_now) Hc) as Hr.
    apply (ctx_rel_trans _ _ _ Hr), actor_set_rel; [reflexivity|exact (cr_ok _ _ Hr)]. }
  intros bm2 m2 Hat2 _ R2. assert (m_rx_state m2 = RX_EXPIRED) as Es2 by (destruct (rx_state_kept _ _ R1), (rx_state_kept _ _ R2); congruence).
  eapply (ends_bind (fun x => x) _ _ _ _ _ receives); [exact Hat2| |intros bm3 m3 Hat3 _ R3; now apply rx_pkt_ends].
  destruct (current_while_expired _ _); [now apply post_ends, timer_ends|]. apply (ends_ret (fun x => x)); [exact Hat2|]. now left.
Qed.

Lemma lacp_disabled_ends n bm m : at_port bm m -> act_ends n ACT_LACP_DISABLED bm m (fun m' => member_rx m' = member_rx m).
Proof.
  intros Hat. unfold act_ends. cbn [rx_action]. apply action_ret; [exact Hat|]. unfold lacp_rx_action_lacp_disabled.
  eapply ends_bind; [exact Hat|apply ends_run; [exact Hat|]; intros c _ Hc; now apply unselected_steps|]. intros bm1 m1 Hat1 _ R1.
  rewrite <- R1. apply ends_run; [exact Hat1|]. intros c _ Hc. apply steps_some. pose proof (record_default_rel c Hc) as Hr. apply (ctx_rel_trans _ _ _ Hr).
  pose proof (on_partner_rel (pi_clear LACP_STATE_AGGREGATION) _ (cr_ok _ _ Hr)) as Hr2. apply (ctx_rel_trans _ _ _ Hr2), actor_clear_rel; [reflexivity|exact (cr_ok _ _ Hr2)].
Qed.

(** What [lacp_rx_action_port_disabled] posts for an enabled port. *)
Lemma enabled_ends n (b : bool) bm m : at_port bm m ->
  rx_ends (S (S (S (S n)))) (if b then RX_LACP_ENABLED else RX_EV_LACP_DISABLED) bm m always.
Proof.
  intros Hat. destruct b; destruct (m_rx_state m) eqn:Es;
    try (eapply rx_ignored; [exact Hat|rewrite Es; reflexivity|easy]).
  1-2: apply (rx_acts _ _ _ _ ACT_EXPIRED RX_EXPIRED); [exact Hat|now rewrite Es|]; intros bm' Hat'; eapply ends_weaken; [now apply expired_ends|easy].
  all: apply (rx_acts _ _ _ _ ACT_LACP_DISABLED RX_LACP_DISABLED); [exact Hat|now rewrite Es|]; intros bm' Hat'; eapply ends_weaken; [now apply lacp_disabled_ends|easy].
Qed.

(** A port that is down stays in [RX_PORT_DISABLED]. *)
Definition down (m : member_if_t) : Prop := m_rx_state m = RX_PORT_DISABLED /\ m_port_moved m = false.
Definition down_if_disabled (m m' : member_if_t) : Prop := m_port_enabled m = false -> down m'.

Lemma fixed_enabled m m' : member_fixed m' = member_fixed m -> m_port_enabled m' = m_port_enabled m.
Proof. now intros [= _ _ _ _ E]. Qed.

Lemma port_disabled_ends n bm m :
  at_port bm m -> down m -> act_ends (S (S (S (S n)))) ACT_PORT_DISABLED bm m (down_if_disabled m).
Proof.
  intros Hat [Es Em]. unfold act_ends. cbn [rx_action]. apply action_ret; [exact Hat|]. unfold lacp_rx_action_port_disabled.
  eapply ends_bind; [exact Hat|apply ends_run; [exact Hat|]; intros c _ Hc; now apply steps_some, on_partner_rel|]. intros bm1 m1 Hat1 M1 R1.
  destruct (rx_state_kept _ _ R1) as [E1 E2]. pose proof (fixed_enabled _ _ (mv_fixed _ _ _ _ _ M1)) as E3.
  rewrite (live_mif_at _ _ _ (ap_live _ _ Hat1)), E2, Em. cbn [mbind option_bind]. rewrite (live_mif_at _ _ _ (ap_live _ _ Hat1)).
  destruct (m_port_enabled m1) eqn:Ee.
  - eapply ends_weaken; [now apply post_ends, enabled_ends|]. intros m' _ _ Hd. congruence.
  - apply (ends_ret (fun x => x)); [exact Hat1|]. intros _. split; congruence.
Qed.

Lemma down_begin n ev bm m :
  at_port bm m -> down m -> ev = RX_BEGIN \/ ev = RX_EV_PORT_DISABLED -> rx_ends (S (S (S (S (S n))))) ev bm m (down_if_disabled m).
Proof.
  intros Hat Hd Hev. apply (rx_acts _ _ _ _ ACT_PORT_DISABLED RX_PORT_DISABLED); [exact Hat|destruct Hd as [-> _]; now destruct Hev as [-> | ->]|].
  intros bm' Hat'. apply (port_disabled_ends n bm' (set_rx_state RX_PORT_DISABLED m) Hat'). split; [reflexivity|apply Hd].
Qed.

(** [lacp_rx_action_initialize] in state [s], when what it posts ends. *)
Lemma initialize_ends n s bm m :
  at_port bm m -> m_rx_state m = s ->
  (forall ev bm m, at_port bm m -> m_rx_state m = s -> m_port_moved m = false -> ev = RX_BEGIN \/ ev = RX_EV_PORT_DISABLED ->
    rx_ends (S (S (S (S (S n))))) ev bm m (down_if_disabled m)) ->
  act_ends (S (S (S (S (S n))))) ACT_INITIALIZE bm m (down_if_disabled m).
Proof.
  intros Hat Es Hpost. unfold act_ends. cbn [rx_action]. apply action_ret; [exact Hat|]. unfold lacp_rx_action_initialize.
  eapply ends_bind; [exact Hat|apply ends_run; [exact Hat|]; intros c _ Hc; now apply unselected_steps|]. intros bm1 m1 Hat1 M1 R1.
  eapply ends_bind; [exact Hat1|apply ends_run; [exact Hat1|]|].
  { intros c _ Hc. apply steps_some. pose proof (record_default_rel c Hc) as Hr. apply (ctx_rel_trans _ _ _ Hr), actor_clear_rel; [reflexivity|exact (cr_ok _ _ Hr)]. }
  intros bm2 m2 Hat2 M2 R2. unfold lacp_set_port_moved at 1. cbv zeta. rewrite (live_mif_at _ _ _ (ap_live _ _ Hat2)). set (m3 := m2 <| m_port_moved := false |>).
  assert (moves mi bm2 m2 (set_mif bm2 mi m3) m3) as M3 by (destruct Hat2; now apply set_quiet). pose proof (at_port_moves _ _ _ _ Hat2 M3) as Hat3.
  apply (ends_from _ _ _ _ _ _ _ M3). set (bm3 := set_mif bm2 mi m3) in *. rewrite (live_mif_at _ _ _ (ap_live _ _ Hat3)).
  assert (m_rx_state m3 = s) as Es3 by (destruct (rx_state_kept _ _ R1), (rx_state_kept _ _ R2); change (m_rx_state m2 = s); congruence).
  assert (m_port_enabled m3 = m_port_enabled m) as Ee3.
  { pose proof (fixed_enabled _ _ (mv_fixed _ _ _ _ _ M1)). pose proof (fixed_enabled _ _ (mv_fixed _ _ _ _ _ M2)). change (m_port_enabled m2 = m_port_enabled m). congruence. }
  assert (m_port_moved m3 = false) as Em3 by reflexivity. clearbody bm3 m3. destruct (m_port_enabled m3) eqn:Ee; cbn [negb].
  - cbn [mbind option_bind]. apply post_ends. eapply ends_weaken; [now apply Hpost; auto|]. intros m' _ _ Hd. congruence.
  - eapply (ends_bind (fun x => x)); [exact Hat3|now apply post_ends, Hpost; auto|]. intros bm4 m4 Hat4 M4 Hd4. apply post_ends.
    eapply ends_weaken; [apply down_begin; auto|]. intros m' Hf Hd' _. apply Hd'. rewrite (fixed_enabled _ _ (mv_fixed _ _ _ _ _ M4)). exact Ee.
Qed.

(** The action in [RX_PORT_DISABLED], and in [RX_INITIALIZE] where it runs once more. *)
Lemma reinitialize_ends n bm m :
  at_port bm m -> m_rx_state m = RX_PORT_DISABLED -> act_ends (S (S (S (S (S n))))) ACT_INITIALIZE bm m (down_if_disabled m).
Proof. intros Hat Es. apply (initialize_ends _ _ _ _ Hat Es). intros ev bm' m' Hat' E1 E2 Hev. now apply down_begin. Qed.

Lemma first_initialize_ends n bm m :
  at_port bm m -> m_rx_state m = RX_INITIALIZE -> act_ends (S (S (S (S (S (S n)))))) ACT_INITIALIZE bm m (down_if_disabled m).
Proof.
  intros Hat Es. apply (initialize_ends _ _ _ _ Hat Es). intros ev bm' m' Hat' E1 E2 Hev.
  apply (rx_acts _ _ _ _ ACT_INITIALIZE RX_PORT_DISABLED); [exact Hat'|rewrite E1; now destruct Hev as [-> | ->]|].
  intros bm2 Hat2. apply (reinitialize_ends n bm2 (set_rx_state RX_PORT_DISABLED m') Hat2 eq_refl).
Qed.

Lemma port_disabled_any_ends n bm m :
  at_port bm m -> m_rx_state m = RX_PORT_DISABLED -> act_ends (S (S (S (S (S (S (S n))))))) ACT_PORT_DISABLED bm m always.
Proof.
  intros Hat Es. unfold act_ends. cbn [rx_action]. apply action_ret; [exact Hat|]. unfold lacp_rx_action_port_disabled.
  eapply ends_bind; [exact Hat|apply ends_run; [exact Hat|]; intros c _ Hc; now apply steps_some, on_partner_rel|]. intros bm1 m1 Hat1 M1 R1.
  destruct (rx_state_kept _ _ R1) as [E1 E2].
  eapply (ends_bind (fun x => x) _ _ _ _ _ always); [exact Hat1| |].
  - destruct (m_port_moved (mif_at bm1 mi)); [|now apply (ends_ret (fun x => x))]. apply post_ends.
    apply (rx_acts _ _ _ _ ACT_INITIALIZE RX_INITIALIZE); [exact Hat1|now rewrite E1, Es|]. intros bm2 Hat2.
    eapply ends_weaken; [now apply first_initialize_ends|easy].
  - intros bm2 m2 Hat2 _ _. destruct (m_port_enabled _); [|now apply (ends_ret (fun x => x))]. now apply post_ends, enabled_ends.
Qed.

(** Every event, in every state. *)
Lemma rx_terminates ev bm m : at_port bm m -> rx_ends RX_FUEL ev bm m always.
Proof.
  intros Hat. unfold RX_FUEL. destruct (m_rx_state m) eqn:Es, ev;
    try (eapply rx_ignored; [exact Hat|rewrite Es; reflexivity|easy]);
    (eapply rx_acts; [exact Hat|rewrite Es; reflexivity|]); intros bm' Hat';
    first [ now apply port_disabled_any_ends
          | eapply ends_weaken; [first [now apply current_ends | now apply defaulted_ends | now apply expired_ends | now apply lacp_disabled_ends
              | now apply first_initialize_ends | now apply reinitialize_ends]|easy] ].
Qed.

End Rx.

(** ** The operations of the plugin *)

Section Operations.
Variable env : bond_env.
Variable qsort : list Z -> list Z.
Hypothesis Hqsort : forall l, qsort l ≡ₚ l.

Abbreviation always := (fun _ : member_if_t => True).

Lemma set_ends mi bm m m' :
  at_port mi bm m -> member_fixed m' = member_fixed m -> m_mux_state m' = m_mux_state m -> m_actor m' = m_actor m ->
  moves mi bm m (set_mif bm mi m') m'.
Proof. intros [H1 H2 H3] E1 E2 E3. apply set_quiet; auto. now rewrite E3. Qed.

Lemma rx_run_ends mi ev bm m : at_port mi bm m -> ends mi fst (rx_run env qsort mi ev bm) bm m always.
Proof. exact (rx_terminates env qsort Hqsort mi ev bm m). Qed.

Lemma rx_run_state mi ev bm m : at_port mi bm m -> ends mi (fun x => x) (fst <$> rx_run env qsort mi ev bm) bm m always.
Proof. intros H. destruct (rx_run_ends mi ev bm m H) as ([bm' e] & m' & E & M & _). exists bm', m'. rewrite E. now split. Qed.

Lemma packet_scan_ends mi bm m : at_port mi bm m -> ends mi fst (lacp_packet_scan env qsort mi bm) bm m always.
Proof.
  intros H. unfold lacp_packet_scan. cbv zeta. destruct (negb _); [now apply (ends_ret mi fst (bm, LACP_ERROR_UNSUPPORTED))|].
  destruct (_ || _); [now apply (ends_ret mi fst (bm, LACP_ERROR_BAD_TLV))|now apply rx_run_ends].
Qed.

Lemma input_pdu_ends mi bm m : at_port mi bm m -> ends mi fst (lacp_input_pdu env qsort mi bm) bm m always.
Proof.
  intros H. unfold lacp_input_pdu. cbv zeta. eapply (ends_bind mi fst fst _ _ _ _ always); [exact H| |].
  - destruct (_ && _ && _).
    + eapply (ends_bind mi (fun x => x)); [exact H|apply ends_run; [exact H|]|].
      * intros c _ Hc. apply steps_some, rel_mif; [intros ?; repeat split; intros; reflexivity|exact Hc].
      * intros bm1 m1 H1 _ _. now apply (ends_ret mi fst (bm1, LACP_ERROR_CACHE_HIT)).
    + eapply (ends_bind mi fst); [exact H|now apply packet_scan_ends|]. intros [bm1 e] m1 H1 _ _. cbn [fst] in *.
      rewrite (live_mif_at _ _ _ (ap_live _ _ _ H1)). set (m2 := m1 <| m_last_packet_signature_valid := true |> <| m_last_packet_signature := _ |>).
      assert (moves mi bm1 m1 (set_mif bm1 mi m2) m2) as M by (now apply set_ends). apply (ends_from _ _ _ _ _ _ _ _ M).
      apply (ends_ret mi fst (set_mif bm1 mi m2, e)); [exact (at_port_moves _ _ _ _ _ H1 M)|easy].
  - intros [bm1 e] m1 H1 _ _. cbn [fst] in *. rewrite (live_mif_at _ _ _ (ap_live _ _ _ H1)). set (m2 := m1 <| m_pdu_received := _ |> <| m_last_rx_pkt := [] |>).
    assert (moves mi bm1 m1 (set_mif bm1 mi m2) m2) as M by (now apply set_ends). apply (ends_from _ _ _ _ _ _ _ _ M).
    apply (ends_ret mi fst (set_mif bm1 mi m2, e)); [exact (at_port_moves _ _ _ _ _ H1 M)|easy].
Qed.

Lemma marker_rel c data : mux_ok c -> ctx_rel c (fst (lacp_input_marker env c data)).
Proof.
  intros H. apply rel_same; [| | | | |exact H]; unfold lacp_input_marker, handle_marker_protocol, send_ethernet_marker_response_pdu; cbv zeta;
    (destruct (_ <? _)%nat; [reflexivity|]); (destruct (_ || _); [reflexivity|]); destruct (_ || _); reflexivity.
Qed.

Lemma lacp_input_ends sw data bm :
  bond_ok bm -> exists bm' e, lacp_input env qsort sw data bm = Some (bm', e) /\ bond_ok bm' /\
    (bm' = bm \/ exists mi, member_by_sw_if_index bm !! sw = Some mi /\ world mi bm bm').
Proof.
  intros H. unfold lacp_input, bond_get_member_by_sw_if_index. destruct (member_by_sw_if_index bm !! sw) as [mi|] eqn:Ei.
  2: { exists bm, LACP_ERROR_DISABLED. auto. }
  pose proof Ei as Em. apply (bi_map _ _ H) in Em as (m & Hm & Esw). rewrite (live_mif_at _ _ _ Hm).
  destruct (Z.eqb_spec (m_mode m) BOND_MODE_LACP) as [Hl|]; cbn [negb]; [|exists bm, LACP_ERROR_DISABLED; auto].
  assert (at_port mi bm m) as Hat by (now split).
  assert (forall r : option (bond_main_t * lacp_error_t), ends mi fst r bm m always -> exists bm' e, r = Some (bm', e) /\ bond_ok bm' /\
    (bm' = bm \/ exists i, Some mi = Some i /\ world i bm bm')) as Hfin.
  { intros r ([bm' e] & m' & E & M & _). exists bm', e. split; [exact E|]. split; [exact (mv_ok _ _ _ _ _ M)|]. right. exists mi. split; [reflexivity|apply M]. }
  destruct (_ =? 2).
  - destruct (ends_run mi (fun c => Some (fst (lacp_input_marker env c data))) bm m Hat) as (bm' & m' & E & M & _).
    { intros c _ Hc. now apply steps_some, marker_rel. }
    unfold run_ctx in E. cbn [mbind option_bind] in E. injection E as E.
    destruct (lacp_input_marker env (load_ctx bm mi) data) as [c e]. cbn [fst] in E.
    exists bm', e. rewrite E. split; [reflexivity|]. split; [exact (mv_ok _ _ _ _ _ M)|]. right. exists mi. split; [reflexivity|apply M].
  - cbv zeta. set (m1 := m <| m_last_rx_pkt := data |> <| m_last_lacpdu_recd_time := _ |>). destruct (_ <? _)%nat.
    + set (m2 := m1 <| m_bad_pdu_received := _ |>). apply Hfin.
      assert (moves mi bm m (set_mif bm mi m2) m2) as M by (now apply set_ends). apply (ends_from _ _ _ _ _ _ _ _ M).
      apply (ends_ret mi fst (set_mif bm mi m2, LACP_ERROR_TOO_SMALL)); [exact (at_port_moves _ _ _ _ _ Hat M)|easy].
    + apply Hfin. assert (moves mi bm m (set_mif bm mi m1) m1) as M by (now apply set_ends). apply (ends_from _ _ _ _ _ _ _ _ M).
      apply input_pdu_ends. exact (at_port_moves _ _ _ _ _ Hat M).
Qed.

(** ** The periodic process *)

Lemma periodic_member_ends mi bm m :
  bond_ok bm -> live_mif bm mi m -> exists bm' m', lacp_periodic_member env qsort mi bm = Some bm' /\ moves mi bm m bm' m'.
Proof.
  intros H Hm. unfold lacp_periodic_member. rewrite (live_mif_at _ _ _ Hm). cbv zeta.
  destruct (m_port_enabled m); cbn [negb]; [|exists bm, m; split; [reflexivity|now apply moves_refl]].
  destruct (decide (m_mode m = BOND_MODE_LACP)) as [Hl|Hl].
  - assert (at_port mi bm m) as Hat by (now split).
    assert (forall r, ends mi (fun x => x) r bm m always -> exists bm' m', r = Some bm' /\ moves mi bm m bm' m') as Hfin.
    { intros r (x & m' & E & M & _). eauto. }
    apply Hfin. clear Hfin. eapply (ends_bind mi (fun x => x) _ _ _ _ _ always); [exact Hat| |].
    { destruct (current_while_expired _ _); [now apply rx_run_state|now apply (ends_ret mi (fun x => x))]. }
    intros bm1 m1 Hat1 _ _. eapply (ends_bind mi (fun x => x) _ _ _ _ _ always); [exact Hat1| |].
    { destruct (periodic_timer_expired _ _); [|now apply (ends_ret mi (fun x => x))].
      eapply ends_weaken; [apply ends_run; [exact Hat1|]; intros c _ Hc; now apply ptx_steps|easy]. }
    intros bm2 m2 Hat2 _ _. rewrite (live_mif_at _ _ _ (ap_live _ _ _ Hat2)). destruct (_ && _); [|now apply (ends_ret mi (fun x => x))].
    set (m3 := m2 <| m_ready_n := true |> <| m_wait_while_timer := 0 |>).
    assert (moves mi bm2 m2 (set_mif bm2 mi m3) m3) as M3 by (now apply set_ends). apply (ends_from _ _ _ _ _ _ _ _ M3).
    destruct (ends_selection env qsort Hqsort mi _ _ (at_port_moves _ _ _ _ _ Hat2 M3)) as ([bm4 e] & m4 & E4 & M4 & _).
    exists bm4, m4. rewrite E4. now split.
  - destruct (bi_member _ _ H _ _ Hm) as (b & Hb & Emode & _ & Hok). specialize (Hok I). unfold member_ok in Hok. rewrite <- Emode in Hok.
    apply Z.eqb_neq in Hl. rewrite Hl in Hok. destruct Hok as (_ & _ & T1 & T2 & T3).
    unfold current_while_expired. rewrite T1. cbn [lacp_timer_is_running Z.eqb negb andb mbind option_bind].
    unfold periodic_timer_expired. rewrite (load_live _ _ _ _ Hm Hb). cbn [c_mif]. rewrite T2. cbn [lacp_timer_is_running Z.eqb negb andb mbind option_bind].
    rewrite (live_mif_at _ _ _ Hm), T3. cbn [lacp_timer_is_running Z.eqb negb andb]. exists bm, m. split; [reflexivity|now apply moves_refl].
Qed.

Lemma periodic_list_ends l bm :
  bond_ok bm -> (forall i, i ∈ l -> is_Some (pool_lookup (neighbors bm) i)) ->
  exists bm', lacp_periodic_list env qsort l bm = Some bm' /\ bond_ok bm'.
Proof.
  revert bm. induction l as [|i l IH]; intros bm H Hl; cbn [lacp_periodic_list]; [now exists bm|].
  destruct (Hl i) as [m Hm]; [left|]. destruct (periodic_member_ends i bm m H Hm) as (bm1 & m1 & E1 & M1). rewrite E1. cbn [mbind option_bind].
  apply IH; [apply M1|]. intros j Hj. destruct (Hl j) as [n Hn]; [now right|].
  destruct (w_mif _ _ _ (mv_world _ _ _ _ _ M1) _ _ Hn) as (n' & Hn' & _). now exists n'.
Qed.

Lemma lacp_periodic_ends bm : bond_ok bm -> exists bm', lacp_periodic env qsort bm = Some bm' /\ bond_ok bm'.
Proof.
  intros H. apply periodic_list_ends; [exact H|]. intros i Hi. apply list_elem_of_fmap in Hi as ([j x] & -> & Hx).
  apply pool_foreach_elem in Hx. cbn [fst]. eauto.
Qed.

(** ** The start of the machines *)

(** A member whose mux has not been started, in a bond that runs LACP. *)
Record at_start (mi : Z) (bm : bond_main_t) (m : member_if_t) : Prop := {
  as_inv : bond_inv (fun j => j <> mi) bm;
  as_live : live_mif bm mi m;
  as_lacp : m_mode m = BOND_MODE_LACP;
  as_enabled : m_lacp_enabled m = true
}.

(** Running an operation on the context of a member that need not be settled. *)
Lemma run_start mi bm m f (S' : Z -> Prop) :
  at_start mi bm m -> (forall j, j <> mi -> S' j -> j <> mi) ->
  (forall b, NoDup (b_active_members b) -> exists c', f (mk_ctx m b (outputs bm)) = Some c' /\ mux_frame (mk_ctx m b (outputs bm)) c' /\ (S' mi -> mux_ok c')) ->
  exists bm' m', run_ctx f mi bm = Some bm' /\ bond_inv S' bm' /\ live_mif bm' mi m' /\ member_fixed m' = member_fixed m.
Proof.
  intros [H Hm Hl Hen] HS Hf. destruct (bi_member _ _ H _ _ Hm) as (b & Hb & Emode & _). destruct (Hf b (bk_active _ _ _ (bi_bond _ _ H _ _ Hb))) as (c' & E & Hfr & Hok).
  pose proof (f_equal member_fixed (mx_mif _ _ Hfr)) as Ef. change (member_fixed (c_mif c') = member_fixed m) in Ef. pose proof Ef as [= K1 K2 K3 K4 K5].
  assert (updated bm (store_ctx bm mi c') mi (c_mif c') (m_bif_dev_instance m) (c_bif c')) as Hu.
  { rewrite <- K2. apply (store_updated _ _ m b); [exact Hm|]. now rewrite K2. }
  pose proof (f_equal bif_core (mx_bif _ _ Hfr)) as Eb. change (bif_core (c_bif c') = bif_core b) in Eb. pose proof Eb as [= _ L2 _ _].
  exists (store_ctx bm mi c'), (c_mif c'). split; [unfold run_ctx; now rewrite (load_live _ _ _ _ Hm Hb), E|]. split; [|split; [apply (updated_live _ _ _ _ _ _ Hu)|exact Ef]].
  apply (inv_updated _ _ _ _ _ _ _ _ _ H Hm Hb Hu); [unfold member_core; congruence| |exact HS|].
  - split; [exact Eb|]. pose proof (mx_active _ _ Hfr) as Ha. cbn [c_mif c_bif] in Ha. rewrite Hen in Ha. rewrite <- Emode, Hl. exact Ha.
  - intros HS'. unfold member_ok. rewrite L2, <- Emode, Hl. cbn. split; [congruence|]. specialize (Hok HS'). destruct c' as [m' b' o']. exact (mux_ok_out _ _ _ _ Hok).
Qed.

Lemma init_state_machines_ok mi bm m :
  at_start mi bm m -> exists bm', lacp_init_state_machines env qsort mi bm = Some bm' /\ bond_ok bm'.
Proof.
  intros H. unfold lacp_init_state_machines.
  destruct (run_start mi bm m (fun c => Some (lacp_tx_dispatch env TX_BEGIN c)) (fun j => j <> mi) H) as (bm1 & m1 & E1 & I1 & L1 & F1); [auto| |].
  { intros b _. eexists. split; [reflexivity|]. split; [apply tx_dispatch_frame|]. intros Hne. now destruct Hne. }
  rewrite E1. cbn [mbind option_bind]. pose proof F1 as [= _ _ K3 K4 _]. destruct H as [_ _ Hl Hen].
  destruct (run_start mi bm1 m1 (mux_run env qsort MUX_BEGIN) (fun _ => True)) as (bm2 & m2 & E2 & I2 & L2 & F2); [split; congruence|auto| |].
  { intros b Hb. destruct (mux_begins env qsort (mk_ctx m1 b (outputs bm1)) Hb) as (c' & E & P1 & P2 & _). exists c'. auto. }
  rewrite E2. cbn [mbind option_bind]. pose proof F2 as [= _ _ J3 J4 _]. assert (at_port mi bm2 m2) as Hat by (split; [exact I2|exact L2|congruence]).
  assert (ends mi (fun x => x) (bm ← run_ctx (ptx_run env PTX_EV_NO_PERIODIC) mi bm2; lacp_init_rx_machine env qsort mi bm) bm2 m2 always) as (x & m3 & E3 & M3 & _).
  { eapply (ends_bind mi (fun x => x)); [exact Hat|apply ends_run; [exact Hat|]; intros c _ Hc; now apply ptx_steps|]. intros bm3 m3 Hat3 _ _.
    unfold lacp_init_rx_machine. eapply (ends_bind mi (fun x => x)); [exact Hat3|now apply rx_run_state|]. intros bm4 m4 Hat4 _ _. now apply rx_run_state. }
  exists x. split; [exact E3|apply M3].
Qed.

(** ** Interface changes *)

Lemma member_ok_lacp m b : member_ok m b -> m_lacp_enabled m = true -> b_mode b = BOND_MODE_LACP.
Proof. unfold member_ok. destruct (Z.eqb_spec (b_mode b) BOND_MODE_LACP); [auto|]. intros (E & _) ?. congruence. Qed.

Lemma lacp_up_down_ok sw up bm : bond_ok bm -> exists bm', lacp_interface_up_down env qsort sw up bm = Some bm' /\ bond_ok bm'.
Proof.
  intros H. unfold lacp_interface_up_down, bond_get_member_by_sw_if_index. destruct (member_by_sw_if_index bm !! sw) as [mi|] eqn:Ei; [|eauto].
  apply (bi_map _ _ H) in Ei as (m & Hm & Esw). rewrite (live_mif_at _ _ _ Hm). destruct (m_lacp_enabled m) eqn:Hen; cbn [negb]; [|eauto].
  destruct (bi_member _ _ H _ _ Hm) as (b & Hb & Emode & _ & Hok). specialize (Hok I). pose proof (member_ok_lacp _ _ Hok Hen) as Hl. cbv zeta.
  set (m1 := m <| m_port_enabled := up |>). destruct up.
  - exists (set_mif bm mi m1). split; [reflexivity|]. pose proof (set_mif_updated _ _ _ _ _ m1 Hm Hb) as Hu.
    apply (inv_updated _ _ _ _ _ _ _ _ _ H Hm Hb Hu); [reflexivity|apply bif_step_refl|auto|]. intros _. unfold member_ok in *. rewrite Hl in *. cbn in *.
    split; [exact Hen|]. exact (port_ok_frame _ (mk_ctx m b []) (mk_ctx m1 b []) eq_refl eq_refl eq_refl (proj2 Hok)).
  - set (m2 := lacp_init_neighbor m1 _ _ _). pose proof (set_mif_updated _ _ _ _ _ m2 Hm Hb) as Hu. apply (init_state_machines_ok mi _ m2).
    split; [|apply (updated_live _ _ _ _ _ _ Hu)|change (m_mode m = BOND_MODE_LACP); congruence|reflexivity].
    apply (inv_updated _ _ _ _ _ _ _ _ _ H Hm Hb Hu); [reflexivity|apply bif_step_refl|auto|]. intros Hne. now destruct Hne.
Qed.

End Operations.
