(* ===== verification/BondInv.v ===== *)
(** * Link bonding: every operation keeps the invariant

    Creation and deletion of bonds, addition and removal of members and the changes of
    interfaces, proved against what the LACP plugin promises ([LacpPlugin]), which the
    functions of the plugin fulfil ([lacp_plugin]). *)

From stdpp Require Import gmap.
From S2P Require Import Prelude NetTypes Pool BondTypes Bond Lacp LacpMux LacpInv LacpRx.

(** ** What bonding expects from the function that the plugin registers *)

Class LacpPlugin (lacp_enable_disable : bond_main_t -> Z -> Z -> bool -> option bond_main_t) : Prop := {
  lp_start : forall bm mi m, bond_inv (fun j => j <> mi) bm -> live_mif bm mi m -> m_mode m = BOND_MODE_LACP ->
    exists bm', lacp_enable_disable bm (m_bif_dev_instance m) mi true = Some bm' /\ bond_ok bm';
  lp_stop : forall bm bi mi, exists n, lacp_enable_disable bm bi mi false = Some (bm <| lacp_int := n |>)
}.

Lemma inv_lacp_int S bm n : bond_inv S bm -> bond_inv S (bm <| lacp_int := n |>).
Proof.
  intros [H1 H2 H3 H4 H5 H6]. split; try assumption. intros k b Hb. destruct (H5 k b Hb) as [B1 B2 B3 B4 B5 B6 B7]. split; assumption.
Qed.

(** Changes of a bond that are none of the members. *)
Lemma bif_step_same en sw b b' :
  bif_core b' = bif_core b -> b_active_members b' = b_active_members b -> b_n_numa_members b' = b_n_numa_members b ->
  b_numa_only b' = b_numa_only b -> bif_step en sw b b'.
Proof. intros E1 E2 E3 E4. split; [exact E1|]. split; [rewrite E2; auto|rewrite E2; reflexivity|]. intros [H1 H2]. split; now rewrite ?E2, ?E3, ?E4. Qed.

#[export] Instance lacp_plugin env qsort (Hqsort : forall l, qsort l ≡ₚ l) : LacpPlugin (lacp_interface_enable_disable env qsort).
Proof.
  split.
  - intros bm mi m H Hm Hl. unfold lacp_interface_enable_disable. cbv zeta. destruct (bi_member _ _ H _ _ Hm) as (b & Hb & Emode & _).
    rewrite (live_bif_at _ _ _ Hb). set (b1 := b <| b_port_numbers := _ |>). pose proof (set_bif_updated _ _ _ _ _ b1 Hm Hb) as Hu.
    assert (bond_inv (fun j => j <> mi) (set_bif bm (m_bif_dev_instance m) b1)) as H1.
    { apply (inv_updated _ _ _ _ _ _ _ _ _ H Hm Hb Hu); [reflexivity|now apply bif_step_same|auto|]. intros Hne. now destruct Hne. }
    destruct (updated_live _ _ _ _ _ _ Hu) as [Hm1 Hb1]. set (bm1 := set_bif bm _ b1) in *. clearbody bm1.
    rewrite (live_mif_at _ _ _ Hm1). set (m2 := lacp_init_neighbor m _ _ _). pose proof (set_mif_updated _ _ _ _ _ m2 Hm1 Hb1) as Hu2.
    destruct (init_state_machines_ok env qsort Hqsort mi (set_mif bm1 mi m2) m2) as (bm' & E & Hok).
    + split; [|apply (updated_live _ _ _ _ _ _ Hu2)|exact Hl|reflexivity].
      apply (inv_updated _ _ _ _ _ _ _ _ _ H1 Hm1 Hb1 Hu2); [reflexivity|apply bif_step_refl|auto|]. intros Hne. now destruct Hne.
    + eexists. rewrite E. split; [reflexivity|]. now apply inv_lacp_int.
  - intros bm bi mi. unfold lacp_interface_enable_disable. destruct (lacp_int bm =? 0).
    + exists (lacp_int bm). now destruct bm.
    + eexists. reflexivity.
Qed.

(** ** Enabling and disabling without LACP *)

Lemma bond_enable_mif env qsort c : exists l, c_mif (bond_enable_collecting_distributing env qsort c) = (c_mif c) <| m_is_local_numa := l |>.
Proof.
  unfold bond_enable_collecting_distributing. destruct (vec_search _ _); [exists (m_is_local_numa (c_mif c)); now destruct c as [[]]|].
  cbv zeta. exists (e_numa_node env =? e_if_numa env (m_sw_if_index (c_mif c))). set (b1 := if _ && _ && _ then _ else _). clearbody b1. destruct (_ =? BOND_MODE_ACTIVE_BACKUP); [|reflexivity].
  destruct (_ =? 1)%nat; [reflexivity|]. unfold bond_sort_members. cbv zeta. now destruct (bool_decide _).
Qed.

Section Bonding.
Variable env : bond_env.
Variable qsort : list Z -> list Z.
Hypothesis Hqsort : forall l, qsort l ≡ₚ l.

Definition set_active (up : bool) (c : member_ctx) : member_ctx :=
  if up then bond_enable_collecting_distributing env qsort c else bond_disable_collecting_distributing c.

Lemma set_active_spec up c :
  NoDup (b_active_members (c_bif c)) -> let c' := set_active up c in
  (exists l, c_mif c' = (c_mif c) <| m_is_local_numa := l |>) /\
  bif_step (m_lacp_enabled (c_mif c)) (m_sw_if_index (c_mif c)) (c_bif c) (c_bif c') /\
  (m_sw_if_index (c_mif c) ∈ b_active_members (c_bif c') <-> up = true).
Proof.
  intros Hn. cbv zeta. unfold set_active. destruct up.
  - pose proof (bond_enable_spec env qsort Hqsort c) as (Hf & Hin & _). split; [apply bond_enable_mif|]. split; [|now split].
    split; [exact (f_equal bif_core (mx_bif _ _ Hf))|exact (mx_active _ _ Hf)].
  - pose proof (bond_disable_spec c) as (E1 & E2 & E3 & E4). split; [exists (m_is_local_numa (c_mif c)); rewrite E1; now destruct (c_mif c)|].
    split; [split; [exact (f_equal bif_core E2)|exact E3]|]. split; [intros Hin; now destruct (E4 Hn)|discriminate].
Qed.

(** A member without LACP follows its interface. *)
Lemma set_active_ok mi bm m :
  bond_inv (fun j => j <> mi) bm -> live_mif bm mi m -> m_mode m <> BOND_MODE_LACP -> m_lacp_enabled m = false -> timers_off m ->
  bond_ok (store_ctx bm mi (set_active (m_port_enabled m) (load_ctx bm mi))).
Proof.
  intros H Hm Hl Hen Ht. destruct (bi_member _ _ H _ _ Hm) as (b & Hb & Emode & _). rewrite (load_live _ _ _ _ Hm Hb).
  pose proof (bk_active _ _ _ (bi_bond _ _ H _ _ Hb)) as Hn.
  destruct (set_active_spec (m_port_enabled m) (mk_ctx m b (outputs bm)) Hn) as ((l & Em) & Hs & Hi). cbn [c_mif c_bif] in *.
  set (c' := set_active (m_port_enabled m) (mk_ctx m b (outputs bm))) in *. clearbody c'.
  assert (m_bif_dev_instance (c_mif c') = m_bif_dev_instance m) as Ed by (now rewrite Em).
  assert (updated bm (store_ctx bm mi c') mi (c_mif c') (m_bif_dev_instance m) (c_bif c')) as Hu.
  { rewrite <- Ed. apply (store_updated _ _ m b); [exact Hm|]. now rewrite Ed. }
  apply (inv_updated _ _ _ _ _ _ _ _ _ H Hm Hb Hu); [now rewrite Em| |auto|].
  { rewrite Hen in Hs. rewrite <- Emode. apply Z.eqb_neq in Hl. now rewrite Hl. }
  intros _. destruct (bif_core_fields _ _ (bs_core _ _ _ _ Hs)) as (_ & Eo & _). unfold member_ok. rewrite Eo, <- Emode. apply Z.eqb_neq in Hl. rewrite Hl, Em.
  split; [exact Hen|]. split; [exact Hi|exact Ht].
Qed.

Lemma bond_up_down_ok sw up bm : bond_ok bm -> bond_ok (bond_interface_up_down env qsort bm sw up).
Proof.
  intros H. unfold bond_interface_up_down, bond_get_member_by_sw_if_index. destruct (member_by_sw_if_index bm !! sw) as [mi|] eqn:Ei; [|exact H].
  apply (bi_map _ _ H) in Ei as (m & Hm & Esw). rewrite (live_mif_at _ _ _ Hm). destruct (m_lacp_enabled m) eqn:Hen; [exact H|].
  destruct (bi_member _ _ H _ _ Hm) as (b & Hb & Emode & _ & Hok). specialize (Hok I). unfold member_ok in Hok.
  destruct (Z.eqb_spec (b_mode b) BOND_MODE_LACP) as [|Hl]; [destruct Hok; congruence|]. destruct Hok as (_ & _ & Ht).
  set (m1 := m <| m_port_enabled := up |>). pose proof (set_mif_updated _ _ _ _ _ m1 Hm Hb) as Hu. cbv zeta.
  change (bond_ok (store_ctx (set_mif bm mi m1) mi (set_active (m_port_enabled m1) (load_ctx (set_mif bm mi m1) mi)))).
  apply set_active_ok; [|apply (updated_live _ _ _ _ _ _ Hu)|change (m_mode m <> BOND_MODE_LACP); congruence|exact Hen|exact Ht].
  apply (inv_updated _ _ _ _ _ _ _ _ _ H Hm Hb Hu); [reflexivity|apply bif_step_refl|auto|]. intros Hne. now destruct Hne.
Qed.

(** ** Changes of a bond that no member sees *)

Lemma inv_set_bif S bm k b b' :
  bond_inv S bm -> live_bif bm k b -> bif_core b' = bif_core b -> b_active_members b' = b_active_members b ->
  b_n_numa_members b' = b_n_numa_members b -> b_numa_only b' = b_numa_only b -> bond_inv S (set_bif bm k b').
Proof.
  intros [H1 H2 H3 H4 H5 H6] Hb Ec Ea En Eo. pose proof Ec as [= C1 C2 C3 C4].
  assert (forall j, pool_lookup (interfaces (set_bif bm k b')) j = if decide (j = k) then Some b' else pool_lookup (interfaces bm) j) as Ui
    by (intros j; exact (pool_write_lookup _ _ _ _ _ Hb)).
  split; [exact H1|now apply pool_write_ok|exact H3| | |].
  - intros i m Hm. destruct (H4 i m Hm) as (bm0 & Hb0 & E1 & E2 & E3). unfold live_bif. rewrite Ui. destruct (decide (m_bif_dev_instance m = k)) as [Ek|]; [|now exists bm0].
    rewrite Ek in Hb0. assert (bm0 = b) as -> by (unfold live_bif in *; congruence). exists b'. rewrite C1, C2. split; [reflexivity|]. split; [exact E1|].
    split; [exact E2|]. intros HS. specialize (E3 HS). unfold member_ok in *. rewrite C2, Ea. destruct (_ =? _); [|exact E3]. destruct E3 as [E4 [P1 P2 P3 P4 P5]].
    split; [exact E4|]. split; cbn [c_bif c_mif] in *; rewrite ?Ea; assumption.
  - intros j bj. unfold live_bif. rewrite Ui. destruct (decide (j = k)) as [->|]; intros E.
    + injection E as <-. destruct (H5 _ _ Hb) as [B1 B2 B3 B4 B5 B6 B7]. split; rewrite ?C1, ?C2, ?C3, ?Ea; try assumption.
      destruct B7 as [N1 N2]. split; now rewrite ?Ea, ?En, ?Eo.
    + destruct (H5 _ _ E) as [B1 B2 B3 B4 B5 B6 B7]. split; assumption.
  - intros sw j E. destruct (H6 _ _ E) as (bj & Hbj & Es). unfold live_bif. rewrite Ui. destruct (decide (j = k)) as [->|]; [|now exists bj].
    exists b'. split; [reflexivity|]. assert (bj = b) as -> by (unfold live_bif in *; congruence). congruence.
Qed.

Lemma bond_admin_ok bm k up : bond_ok bm -> is_Some (pool_lookup (interfaces bm) k) -> bond_ok (bond_interface_admin_up_down bm k up).
Proof. intros H [b Hb]. unfold bond_interface_admin_up_down. rewrite (live_bif_at _ _ _ Hb). now apply (inv_set_bif _ _ _ b). Qed.

Lemma sort_step en sw c : bif_step en sw (c_bif c) (c_bif (bond_sort_members qsort c)) /\ c_mif (bond_sort_members qsort c) = c_mif c.
Proof.
  unfold bond_sort_members. cbv zeta. set (b1 := (c_bif c) <| b_active_members := _ |>).
  assert (bif_step en sw (c_bif c) b1) as Hs.
  { split; [reflexivity|]. split; cbn; [now rewrite Hqsort|intros s _; now rewrite Hqsort|]. intros [N1 N2]. split; [|exact N2]. cbn. now rewrite (Permutation_length (Hqsort _)). }
  destruct (bool_decide _); now split.
Qed.

Lemma bond_set_weight_ok bm sw weight is_up : bond_ok bm -> bond_ok (fst (bond_set_intf_weight qsort bm sw weight is_up)).
Proof.
  intros H. unfold bond_set_intf_weight, bond_get_member_by_sw_if_index. destruct (member_by_sw_if_index bm !! sw) as [i|] eqn:Ei; [|exact H].
  apply (bi_map _ _ H) in Ei as (m & Hm & _). destruct (bi_member _ _ H _ _ Hm) as (b & Hb & Emode & _ & Hok). specialize (Hok I).
  rewrite (load_live _ _ _ _ Hm Hb). cbv zeta. cbn [c_bif c_mif].
  destruct (Z.eqb_spec (b_mode b) BOND_MODE_ACTIVE_BACKUP) as [Eab|]; cbn [negb]; [|exact H]. set (c1 := (mk_ctx m b (outputs bm)) <| c_mif := _ |>).
  assert (forall c', c_mif c' = c_mif c1 -> bif_step false (m_sw_if_index m) b (c_bif c') -> (forall s, s ∈ b_active_members (c_bif c') <-> s ∈ b_active_members b) ->
    bond_ok (store_ctx bm i c')) as Hfin.
  { intros c' Em Hs Ha. assert (m_bif_dev_instance (c_mif c') = m_bif_dev_instance m) as Ed by (now rewrite Em).
    assert (updated bm (store_ctx bm i c') i (c_mif c') (m_bif_dev_instance m) (c_bif c')) as Hu by (rewrite <- Ed; apply (store_updated _ _ m b); [exact Hm|now rewrite Ed]).
    apply (inv_updated _ _ _ _ _ _ _ _ _ H Hm Hb Hu); [now rewrite Em|now rewrite Eab|auto|]. intros _. destruct (bif_core_fields _ _ (bs_core _ _ _ _ Hs)) as (_ & Eo & _).
    unfold member_ok in *. rewrite Eo, Em. rewrite Eab in *. cbn in *. destruct Hok as (K1 & K2 & K3). split; [exact K1|]. split; [|exact K3]. now rewrite Ha. }
  destruct (_ || _); cbn [fst]; apply Hfin; try reflexivity; try apply bif_step_refl; [apply (sort_step false (m_sw_if_index m) c1)..|].
  intros s. unfold bond_sort_members. cbv zeta. destruct (bool_decide _); cbn; now rewrite Hqsort.
Qed.

Lemma member_ok_step m b b' : member_ok m b -> b_mode b' = b_mode b -> b_active_members b' = b_active_members b -> member_ok m b'.
Proof.
  unfold member_ok. intros H E1 E2. rewrite E1, E2. destruct (_ =? _); [|exact H]. destruct H as [H1 [P1 P2 P3 P4 P5]]. split; [exact H1|].
  split; cbn [c_bif c_mif] in *; rewrite ?E2; assumption.
Qed.

Lemma inv_settle bm mi m :
  bond_inv (fun j => j <> mi) bm -> live_mif bm mi m -> (forall b, live_bif bm (m_bif_dev_instance m) b -> m_mode m = b_mode b -> member_ok m b) -> bond_ok bm.
Proof.
  intros [H1 H2 H3 H4 H5 H6] Hm Hok. split; auto. intros i n Hn. destruct (H4 i n Hn) as (b & Hb & E1 & E2 & E3). exists b.
  split; [exact Hb|]. split; [exact E1|]. split; [exact E2|]. intros _. destruct (decide (i = mi)) as [->|Hne]; [|auto].
  assert (n = m) as -> by (unfold live_mif in *; congruence). auto.
Qed.

(** ** Addition of a member *)

Variable lacp_enable_disable : bond_main_t -> Z -> Z -> bool -> option bond_main_t.
Context `{!LacpPlugin lacp_enable_disable}.

(** [bm'] is [bm] with the new member [mi], which is not settled yet, in bond [k]. *)
Lemma inv_added bm bm' mi m k b b' :
  bond_ok bm -> live_bif bm k b -> pool_lookup (neighbors bm) mi = None -> member_by_sw_if_index bm !! m_sw_if_index m = None ->
  m_bif_dev_instance m = k -> m_mode m = b_mode b ->
  pool_ok (neighbors bm') -> pool_ok (interfaces bm') ->
  (forall j, pool_lookup (neighbors bm') j = if decide (j = mi) then Some m else pool_lookup (neighbors bm) j) ->
  (forall j, pool_lookup (interfaces bm') j = if decide (j = k) then Some b' else pool_lookup (interfaces bm) j) ->
  b_members b' = b_members b ++ [m_sw_if_index m] -> b_mode b' = b_mode b -> b_dev_instance b' = b_dev_instance b ->
  b_sw_if_index b' = b_sw_if_index b -> b_active_members b' = b_active_members b -> numa_ok (b_mode b =? BOND_MODE_LACP) b' ->
  member_by_sw_if_index bm' = <[m_sw_if_index m := mi]> (member_by_sw_if_index bm) ->
  bond_by_sw_if_index bm' = bond_by_sw_if_index bm -> lacp_plugin_loaded bm' = lacp_plugin_loaded bm ->
  bond_inv (fun j => j <> mi) bm'.
Proof.
  intros H Hb Hfresh Hsw Ek Emode P1 P2 Un Ui Fm Fo Fd Fn Fa Fu Mm Mb Mp.
  assert (forall j n, live_mif bm j n -> live_mif bm' j n /\ m_sw_if_index n <> m_sw_if_index m) as Hkeep.
  { intros j n Hn. unfold live_mif. rewrite Un, decide_False by (intros ->; unfold live_mif in Hn; congruence). split; [exact Hn|].
    intros E. pose proof (proj2 (bi_map _ _ H _ j) (ex_intro _ n (conj Hn E))). congruence. }
  split; [exact P1|exact P2| | | |].
  - intros sw j. rewrite Mm. destruct (decide (sw = m_sw_if_index m)) as [->|Hne].
    + rewrite lookup_insert_eq. split; [intros [= <-]; exists m; unfold live_mif; now rewrite Un, decide_True|].
      intros (n & Hn & E). unfold live_mif in Hn. rewrite Un in Hn. destruct (decide (j = mi)) as [->|]; [reflexivity|]. now destruct (proj2 (Hkeep _ _ Hn)).
    + rewrite lookup_insert_ne by congruence. rewrite (bi_map _ _ H). split; intros (n & Hn & E).
      * exists n. split; [apply Hkeep, Hn|exact E].
      * unfold live_mif in Hn. rewrite Un in Hn. destruct (decide (j = mi)); [congruence|]. now exists n.
  - intros j n. unfold live_mif. rewrite Un. destruct (decide (j = mi)) as [->|Hj]; intros E.
    + injection E as <-. exists b'. unfold live_bif. rewrite Ui, Ek, decide_True by reflexivity. split; [reflexivity|]. split; [congruence|].
      split; [rewrite Fm; set_solver|]. intros Hne. now destruct Hne.
    + destruct (bi_member _ _ H _ _ E) as (bn & Hbn & E1 & E2 & E3). specialize (E3 I). unfold live_bif. rewrite Ui.
      destruct (decide (m_bif_dev_instance n = k)) as [Ekn|]; [|exists bn; auto]. rewrite Ekn in Hbn. assert (bn = b) as -> by (unfold live_bif in *; congruence).
      exists b'. split; [reflexivity|]. split; [congruence|]. split; [rewrite Fm; set_solver|]. intros _.
      apply (member_ok_step _ _ _ E3); [congruence|now rewrite Fa].
  - intros j bj. unfold live_bif. rewrite Ui. destruct (decide (j = k)) as [->|Hj]; intros E.
    + injection E as <-. destruct (bi_bond _ _ H _ _ Hb) as [B1 B2 B3 B4 B5 B6 B7]. split; rewrite ?Fd, ?Fm, ?Fa, ?Fo, ?Mp; auto.
      * apply NoDup_app. split; [exact B2|]. split; [|apply NoDup_singleton]. intros x Hx Hx2. apply list_elem_of_singleton in Hx2 as ->.
        destruct (B5 _ Hx) as (i & n & Hn & En & _). now destruct (proj2 (Hkeep _ _ Hn)).
      * intros sw Hin. apply elem_of_app. left. auto.
      * intros sw Hin. apply elem_of_app in Hin as [Hin|Hin].
        -- destruct (B5 _ Hin) as (i & n & Hn & E1 & E2). exists i, n. split; [apply Hkeep, Hn|auto].
        -- apply list_elem_of_singleton in Hin as ->. exists mi, m. unfold live_mif. now rewrite Un, decide_True.
    + destruct (bi_bond _ _ H _ _ E) as [B1 B2 B3 B4 B5 B6 B7]. split; rewrite ?Mp; auto.
      intros sw Hin. destruct (B5 _ Hin) as (i & n & Hn & E1 & E2). exists i, n. split; [apply Hkeep, Hn|auto].
  - intros sw j. rewrite Mb. intros E. destruct (bi_name _ _ H _ _ E) as (bj & Hbj & En). unfold live_bif. rewrite Ui.
    destruct (decide (j = k)) as [->|]; [|now exists bj]. exists b'. split; [reflexivity|]. assert (bj = b) as -> by (unfold live_bif in *; congruence). congruence.
Qed.

Lemma bond_add_member_ok bm args f :
  bond_ok bm -> exists bm' rv, bond_add_member env qsort lacp_enable_disable bm args f = Some (bm', rv) /\ bond_ok bm'.
Proof.
  intros H. unfold bond_add_member, bond_get_bond_if_by_sw_if_index, bond_get_member_by_sw_if_index.
  destruct (bond_by_sw_if_index bm !! am_group args) as [bi|] eqn:Eb; [|eauto]. destruct (member_by_sw_if_index bm !! am_member args) as [|] eqn:Em; [eauto|].
  cbv zeta. destruct (mf_is_bond f); [eauto|]. destruct (_ && negb (mf_gso f)); [eauto|]. destruct (_ && negb (mf_stats f)); [eauto|].
  destruct (bi_name _ _ H _ _ Eb) as (b & Hb & _). pose proof (bi_bond _ _ H _ _ Hb) as Hbk.
  pose proof (pool_get_write mif_zero (neighbors bm) (new_member bm bi args f) (bi_neighbors _ _ H)) as Ha.
  destruct (pool_get mif_zero (neighbors bm)) as [p mi]. destruct Ha as [Ha Hnew]. set (m := new_member bm bi args f) in *.
  rewrite (live_bif_at _ _ _ Hb). set (b1 := b <| b_members := _ |>). set (b2 := if _ && _ then b1 <| b_hw_address := _ |> else b1).
  assert (bif_core b2 = bif_core b1 /\ b_active_members b2 = b_active_members b) as [Ec Ea] by (subst b2; now destruct (_ && _)).
  assert (numa_ok (b_mode b =? BOND_MODE_LACP) b2) as Eu by (subst b2; destruct (bk_numa _ _ _ Hbk); destruct (_ && _); now split).
  pose proof Ec as [= C1 C2 C3 C4]. set (bm1 := bm <| neighbors := _ |> <| member_by_sw_if_index := _ |>).
  assert (live_bif bm1 bi b) as Hb1 by exact Hb. clearbody b2.
  assert (m_bif_dev_instance m = bi /\ m_mode m = b_mode b) as [Ed Eo].
  { subst m. unfold new_member. rewrite (live_bif_at _ _ _ Hb). split; [exact (bk_instance _ _ _ Hbk)|reflexivity]. }
  assert (bond_inv (fun j => j <> mi) (set_bif bm1 bi b2)) as Hinv.
  { eapply (inv_added bm _ mi m bi b b2); [exact H|exact Hb|exact (al_fresh _ _ _ Ha)|exact Em|exact Ed|exact Eo|exact (al_ok _ _ _ Ha)| | | |
      exact C1|exact C2|exact C3|exact C4|exact Ea|exact Eu|reflexivity|reflexivity|reflexivity].
    - apply pool_write_ok, (bi_interfaces _ _ H).
    - intros j. destruct (decide (j = mi)) as [->|Hne]; [exact Hnew|exact (al_other _ _ _ Ha _ Hne)].
    - intros j. exact (pool_write_lookup _ _ _ _ _ Hb). }
  assert (live_mif (set_bif bm1 bi b2) mi m) as Hm by exact Hnew. set (bm2 := set_bif bm1 bi b2) in *.
  assert (live_bif bm2 bi b2) as Hb2.
  { unfold live_bif. subst bm2. cbn. now rewrite (pool_write_lookup _ _ _ _ _ Hb), decide_True. }
  assert (lacp_plugin_loaded bm2 = lacp_plugin_loaded bm) as Ep by reflexivity. clearbody bm2. rewrite C2. change (b_mode b1) with (b_mode b).
  destruct (Z.eqb_spec (b_mode b) BOND_MODE_LACP) as [Hl|Hl].
  - rewrite Ep, (bk_plugin _ _ _ Hbk Hl). destruct (lp_start bm2 mi m Hinv Hm) as (bm' & E & Hok); [congruence|]. rewrite Ed in E. rewrite E. eexists _, _. now split.
  - assert (m_lacp_enabled m = false /\ timers_off m) as [K1 K2] by (repeat split).
    pose proof (set_active_ok mi bm2 m Hinv Hm) as Hset. rewrite Eo in Hset. specialize (Hset Hl K1 K2). destruct (m_port_enabled m) eqn:Hup.
    + eexists _, _. split; [reflexivity|]. exact Hset.
    + eexists _, _. split; [reflexivity|]. apply (inv_settle _ _ _ Hinv Hm). intros b' Hb' Hmode. unfold member_ok. rewrite <- Hmode, Eo.
      apply Z.eqb_neq in Hl. rewrite Hl. split; [exact K1|]. split; [|exact K2]. split; [|congruence]. intros Hact. exfalso.
      rewrite Ed in Hb'. assert (b' = b2) as -> by (unfold live_bif in *; congruence). rewrite Ea in Hact.
      destruct (bk_live _ _ _ Hbk _ (bk_subset _ _ _ Hbk _ Hact)) as (i & n & Hn & En & _). pose proof (proj2 (bi_map _ _ H _ i) (ex_intro _ n (conj Hn En))) as E2.
      change (m_sw_if_index m) with (am_member args) in E2. congruence.
Qed.

(** ** Creation of a bond *)

(** The invariant sees lookups only. *)
Lemma inv_lookups S bm bm' :
  bond_inv S bm -> pool_ok (interfaces bm') -> neighbors bm' = neighbors bm -> (forall k, pool_lookup (interfaces bm') k = pool_lookup (interfaces bm) k) ->
  member_by_sw_if_index bm' = member_by_sw_if_index bm -> bond_by_sw_if_index bm' = bond_by_sw_if_index bm ->
  lacp_plugin_loaded bm' = lacp_plugin_loaded bm -> bond_inv S bm'.
Proof.
  intros [H1 H2 H3 H4 H5 H6] P En Ei Em Eb Ep. split; unfold live_mif, live_bif in *; rewrite ?En, ?Em, ?Eb; auto.
  - intros i m Hm. setoid_rewrite Ei. auto.
  - intros k b Hb. rewrite Ei in Hb. destruct (H5 _ _ Hb) as [B1 B2 B3 B4 B5 B6 B7]. split; unfold live_mif in *; rewrite ?Ep, ?En; auto.
  - intros sw k. setoid_rewrite Ei. auto.
Qed.

Lemma bond_create_if_ok bm args hw sw : bond_ok bm -> bond_ok (fst (bond_create_if bm args hw sw)).
Proof.
  intros H. unfold bond_create_if. destruct ((ca_mode args =? BOND_MODE_LACP) && negb (lacp_plugin_loaded bm)) eqn:Hpl; [exact H|].
  destruct (_ || _); [exact H|]. destruct (_ <? _); [exact H|].
  pose proof (fun x => pool_get_write bif_zero (interfaces bm) x (bi_interfaces _ _ H)) as Hg.
  destruct (pool_get bif_zero (interfaces bm)) as [p k]. cbv zeta. set (b0 := bif_zero <| b_dev_instance := k |> <| b_id := _ |> <| b_lb := _ |> <| b_mode := _ |> <| b_gso := _ |>).
  destruct (bool_decide _); cbn [fst].
  - destruct (Hg b0) as [Ha Hx]. eapply inv_lookups; [exact H|exact (pool_put_ok _ _ _ (al_ok _ _ _ Ha) Hx)|reflexivity| |reflexivity..].
    intros j. cbn. rewrite (pool_put_lookup _ _ _ _ Hx). destruct (decide (j = k)) as [->|Hne]; [now rewrite (al_fresh _ _ _ Ha)|exact (al_other _ _ _ Ha _ Hne)].
  - set (b1 := b0 <| b_lb := _ |> <| b_use_custom_mac := _ |> <| b_hw_address := _ |> <| b_hw_if_index := _ |> <| b_sw_if_index := _ |> <| b_group := _ |> <| b_numa_only := _ |>).
    destruct (Hg b1) as [Ha Hx]. set (bm' := bm <| interfaces := _ |> <| id_used := _ |> <| bond_by_sw_if_index := _ |>).
    assert (forall j b, live_bif bm j b -> live_bif bm' j b) as Hkeep.
    { intros j b Hb. unfold live_bif in *. change (interfaces bm') with (pool_write p k b1). rewrite (al_other _ _ _ Ha); [exact Hb|].
      intros ->. rewrite (al_fresh _ _ _ Ha) in Hb. discriminate. }
    destruct H as [H1 H2 H3 H4 H5 H6]. split; [exact H1|exact (al_ok _ _ _ Ha)|exact H3| | |].
    + intros i m Hm. destruct (H4 i m Hm) as (b & Hb & E). exists b. split; [now apply Hkeep|exact E].
    + intros j b Hb. destruct (decide (j = k)) as [->|Hne].
      * assert (b = b1) as -> by (unfold live_bif in *; change (interfaces bm') with (pool_write p k b1) in *; congruence).
        split; [reflexivity|constructor|constructor| | | |].
        -- intros s Hs. cbn in Hs. now apply elem_of_nil in Hs.
        -- intros s Hs. cbn in Hs. now apply elem_of_nil in Hs.
        -- intros E. change (ca_mode args = BOND_MODE_LACP) in E. change (lacp_plugin_loaded bm = true). rewrite E in Hpl. cbn in Hpl. now apply negb_false_iff.
        -- split; cbn; [lia|reflexivity].
      * unfold live_bif in Hb. change (interfaces bm') with (pool_write p k b1) in Hb. rewrite (al_other _ _ _ Ha _ Hne) in Hb.
        destruct (H5 _ _ Hb) as [B1 B2 B3 B4 B5 B6 B7]. split; assumption.
    + intros s j. change (bond_by_sw_if_index bm') with (<[sw := k]> (bond_by_sw_if_index bm)). destruct (decide (s = sw)) as [->|Hne].
      * rewrite lookup_insert_eq. intros [= <-]. exists b1. split; [exact Hx|reflexivity].
      * rewrite lookup_insert_ne by congruence. intros E. destruct (H6 _ _ E) as (b & Hb & Es). exists b. split; [now apply Hkeep|exact Es].
Qed.

(** ** Removal of a member *)

(** [bm'] is [bm] without member [mi] of bond [k]. *)
Lemma inv_removed bm bm' mi m k b b' :
  bond_ok bm -> live_mif bm mi m -> m_bif_dev_instance m = k -> live_bif bm k b ->
  pool_ok (neighbors bm') -> pool_ok (interfaces bm') ->
  (forall j, pool_lookup (neighbors bm') j = if decide (j = mi) then None else pool_lookup (neighbors bm) j) ->
  (forall j, pool_lookup (interfaces bm') j = if decide (j = k) then Some b' else pool_lookup (interfaces bm) j) ->
  (forall sw, sw ∈ b_members b' <-> sw ∈ b_members b /\ sw <> m_sw_if_index m) -> NoDup (b_members b') ->
  bif_step (b_mode b =? BOND_MODE_LACP) (m_sw_if_index m) (b <| b_members := b_members b' |>) b' -> m_sw_if_index m ∉ b_active_members b' ->
  member_by_sw_if_index bm' = delete (m_sw_if_index m) (member_by_sw_if_index bm) ->
  bond_by_sw_if_index bm' = bond_by_sw_if_index bm -> lacp_plugin_loaded bm' = lacp_plugin_loaded bm -> bond_ok bm'.
Proof.
  intros H Hm Ek Hb P1 P2 Un Ui Fm Fnd [Fc [Fa1 Fa2 Fa3]] Fna Mm Mb Mp. pose proof Fc as [= F1 F2 F3]. cbn in Fa1, Fa2.
  assert (forall j n, live_mif bm' j n -> j <> mi /\ live_mif bm j n /\ m_sw_if_index n <> m_sw_if_index m) as Hback.
  { intros j n Hn. unfold live_mif in Hn. rewrite Un in Hn. destruct (decide (j = mi)) as [|Hne]; [discriminate|]. split; [exact Hne|]. split; [exact Hn|].
    intros E. exact (Hne (inv_unique _ _ _ _ _ _ H Hn Hm E)). }
  assert (forall j n, live_mif bm j n -> m_sw_if_index n <> m_sw_if_index m -> live_mif bm' j n) as Hfwd.
  { intros j n Hn Hne. unfold live_mif. rewrite Un, decide_False; [exact Hn|]. intros ->. unfold live_mif in *. congruence. }
  split; [exact P1|exact P2| | | |].
  - intros sw j. rewrite Mm. destruct (decide (sw = m_sw_if_index m)) as [->|Hne].
    + rewrite lookup_delete_eq. split; [discriminate|]. intros (n & Hn & E). now destruct (proj2 (proj2 (Hback _ _ Hn))).
    + rewrite lookup_delete_ne by congruence. rewrite (bi_map _ _ H). split; intros (n & Hn & E); exists n; (split; [|exact E]).
      * apply Hfwd; congruence.
      * apply Hback, Hn.
  - intros j n Hn. destruct (Hback _ _ Hn) as (Hne & Hn0 & Hsw). destruct (bi_member _ _ H _ _ Hn0) as (bn & Hbn & E1 & E2 & E3). specialize (E3 I).
    unfold live_bif. rewrite Ui. destruct (decide (m_bif_dev_instance n = k)) as [Ekn|]; [|exists bn; auto].
    rewrite Ekn in Hbn. assert (bn = b) as -> by (unfold live_bif in *; congruence). exists b'. split; [reflexivity|]. split; [congruence|].
    split; [now apply Fm|]. intros _. apply (member_ok_other n (b <| b_members := b_members b' |>) _ (b_mode b =? BOND_MODE_LACP) (m_sw_if_index m)); [now split|exact Hsw|].
    now apply (member_ok_step n b).
  - intros j bj Hbj. unfold live_bif in Hbj. rewrite Ui in Hbj. destruct (decide (j = k)) as [->|Hj].
    + injection Hbj as <-. destruct (bi_bond _ _ H _ _ Hb) as [B1 B2 B3 B4 B5 B6 B7]. split; [congruence|exact Fnd|auto| | |rewrite Mp; intros; apply B6; congruence|].
      * intros sw Hin. destruct (decide (sw = m_sw_if_index m)) as [->|Hne]; [now destruct Fna|]. apply Fm. split; [|exact Hne]. apply B4. now apply Fa2.
      * intros sw Hin. apply Fm in Hin as [Hin Hne]. destruct (B5 _ Hin) as (i & n & Hn & E1 & E2). exists i, n. split; [apply Hfwd; congruence|auto].
      * rewrite F1. apply Fa3. destruct B7. now split.
    + destruct (bi_bond _ _ H _ _ Hbj) as [B1 B2 B3 B4 B5 B6 B7]. split; rewrite ?Mp; auto. intros sw Hin. destruct (B5 _ Hin) as (i & n & Hn & E1 & E2).
      exists i, n. split; [|auto]. unfold live_mif. rewrite Un, decide_False; [exact Hn|]. intros ->. unfold live_mif in *. congruence.
  - intros sw j. rewrite Mb. intros E. destruct (bi_name _ _ H _ _ E) as (bj & Hbj & En). unfold live_bif. rewrite Ui.
    destruct (decide (j = k)) as [->|]; [|now exists bj]. exists b'. split; [reflexivity|]. assert (bj = b) as -> by (unfold live_bif in *; congruence). congruence.
Qed.

(** What removal of a member leaves of its bond. *)
Definition bond_id (b : bond_if_t) : Z * Z := (b_sw_if_index b, b_id b).

Lemma bond_delete_neighbor_ok bm mi m b :
  bond_ok bm -> live_mif bm mi m -> live_bif bm (m_bif_dev_instance m) b ->
  exists bm' b', bond_delete_neighbor lacp_enable_disable bm (m_bif_dev_instance m) mi = Some bm' /\ bond_ok bm' /\
    live_bif bm' (m_bif_dev_instance m) b' /\ bond_id b' = bond_id b /\ (forall sw, sw ∈ b_members b' <-> sw ∈ b_members b /\ sw <> m_sw_if_index m).
Proof.
  intros H Hm Hb. unfold bond_delete_neighbor. rewrite (live_mif_at _ _ _ Hm), (live_bif_at _ _ _ Hb). set (k := m_bif_dev_instance m) in *. cbv zeta.
  destruct (bi_member _ _ H _ _ Hm) as (b0 & Hb0 & Emode & Hin & Hok0). specialize (Hok0 I). fold k in Hb0. assert (b0 = b) as -> by (unfold live_bif in *; congruence).
  assert (m_lacp_enabled m = (b_mode b =? BOND_MODE_LACP)) as Hen by (unfold member_ok in Hok0; destruct (b_mode b =? BOND_MODE_LACP); apply Hok0).
  pose proof (bi_bond _ _ H _ _ Hb) as Hbk. set (m1 := m <| m_last_marker_pkt := [] |> <| m_last_rx_pkt := [] |>).
  destruct (vec_search_complete (Z.eqb (m_sw_if_index m)) (b_members b) _ Hin (Z.eqb_refl _)) as [n En].
  set (bp := b <| b_port_numbers := _ |>). change (b_members bp) with (b_members b). change (m_sw_if_index m1) with (m_sw_if_index m). rewrite En.
  apply vec_search_eqb in En. set (b1 := bp <| b_members := vec_del1 (b_members b) n |>). set (bm1 := bm <| member_by_sw_if_index := _ |>).
  set (bm2 := set_bif (set_mif bm1 mi m1) k b1).
  assert (live_mif bm2 mi m1 /\ live_bif bm2 k b1) as [Hm2 Hb2].
  { split; unfold live_mif, live_bif, bm2; cbn; [rewrite (pool_write_lookup _ _ _ _ _ Hm)|rewrite (pool_write_lookup _ _ _ _ _ Hb)]; now rewrite decide_True. }
  rewrite (load_live bm2 mi m1 b1 Hm2 Hb2). pose proof (bond_disable_spec (mk_ctx m1 b1 (outputs bm2))) as (E1 & E2 & E3 & E4).
  set (c := bond_disable_collecting_distributing _) in *. cbn [c_mif c_bif] in *.
  set (bm3 := store_ctx bm2 mi c). pose proof (store_updated bm2 mi m1 b1 c Hm2) as Hu. rewrite E1 in Hu. specialize (Hu Hb2). change (m_bif_dev_instance m1) with k in Hu. fold bm3 in Hu.
  assert (exists bm4, (if (b_mode b1 =? BOND_MODE_LACP) && lacp_plugin_loaded bm3 then lacp_enable_disable bm3 k mi false else Some bm3) = Some bm4 /\
    exists x, bm4 = bm3 <| lacp_int := x |>) as (bm4 & E & x & ->).
  { destruct (_ && _); [|exists bm3; split; [reflexivity|]; exists (lacp_int bm3); now destruct bm3]. destruct (lp_stop bm3 k mi) as [x Ex]. eauto. }
  fold bm2. fold c. fold bm3. rewrite E. cbn [mbind option_bind].
  assert (forall j, pool_lookup (neighbors bm3) j = if decide (j = mi) then Some m1 else pool_lookup (neighbors bm) j) as Un.
  { intros j. rewrite (up_mif _ _ _ _ _ _ Hu). destruct (decide (j = mi)) as [|Hne]; [reflexivity|]. unfold bm2. cbn. now rewrite (pool_write_lookup _ _ _ _ _ Hm), decide_False. }
  assert (forall j, pool_lookup (interfaces bm3) j = if decide (j = k) then Some (c_bif c) else pool_lookup (interfaces bm) j) as Ui.
  { intros j. rewrite (up_bif _ _ _ _ _ _ Hu). destruct (decide (j = k)) as [|Hne]; [reflexivity|]. unfold bm2. cbn. now rewrite (pool_write_lookup _ _ _ _ _ Hb), decide_False. }
  assert (live_mif bm3 mi m1) as Hm3 by (unfold live_mif; now rewrite Un, decide_True).
  pose proof (f_equal b_members E2) as Fm. change (b_members (c_bif c) = vec_del1 (b_members b) n) in Fm.
  assert (forall sw, sw ∈ b_members (c_bif c) <-> sw ∈ b_members b /\ sw <> m_sw_if_index m) as Fe.
  { intros sw. rewrite Fm. exact (vec_del1_elem _ _ _ _ (bk_members _ _ _ Hbk) En). }
  eexists _, (c_bif c). split; [reflexivity|]. split; [|split; [|split; [|exact Fe]]].
  - apply (inv_removed bm _ mi m k b (c_bif c) H Hm eq_refl Hb); [| | |exact Ui|exact Fe| | | | | |].
    + apply (pool_put_ok _ _ m1); [|exact Hm3]. apply (up_neighbors _ _ _ _ _ _ Hu). apply pool_write_ok, (bi_neighbors _ _ H).
    + apply (up_interfaces _ _ _ _ _ _ Hu). apply pool_write_ok, (bi_interfaces _ _ H).
    + intros j. cbn. rewrite (pool_put_lookup _ _ _ _ Hm3). destruct (decide (j = mi)) as [|Hne]; [reflexivity|]. now rewrite Un, decide_False.
    + rewrite Fm. exact (vec_del1_nodup _ _ _ (bk_members _ _ _ Hbk) En).
    + split; [rewrite Fm; exact (f_equal bif_core E2)|]. destruct E3 as [G1 G2 G3]. change (m_lacp_enabled m1) with (m_lacp_enabled m) in G3.
      rewrite <- Hen. split; [exact G1|exact G2|]. intros [N1 N2]. apply G3. now split.
    + apply E4. exact (bk_active _ _ _ Hbk).
    + exact (up_members _ _ _ _ _ _ Hu).
    + exact (up_bonds _ _ _ _ _ _ Hu).
    + exact (up_plugin _ _ _ _ _ _ Hu).
  - unfold live_bif. change (pool_lookup (interfaces bm3) k = Some (c_bif c)). now rewrite Ui, decide_True.
  - exact (f_equal bond_id E2).
Qed.

Lemma bond_detach_member_ok bm sw :
  bond_ok bm -> exists bm' rv, bond_detach_member lacp_enable_disable bm sw = Some (bm', rv) /\ bond_ok bm'.
Proof.
  intros H. unfold bond_detach_member, bond_get_member_by_sw_if_index. destruct (member_by_sw_if_index bm !! sw) as [mi|] eqn:E; [|eauto].
  apply (bi_map _ _ H) in E as (m & Hm & _). destruct (bi_member _ _ H _ _ Hm) as (b & Hb & _). rewrite (live_mif_at _ _ _ Hm).
  destruct (bond_delete_neighbor_ok bm mi m b H Hm Hb) as (bm' & b' & E & Hok & _). rewrite E. eexists _, _. now split.
Qed.

Lemma bond_member_add_del_ok bm sw is_add :
  bond_ok bm -> exists bm', bond_member_interface_add_del lacp_enable_disable bm sw is_add = Some bm' /\ bond_ok bm'.
Proof.
  intros H. unfold bond_member_interface_add_del. destruct is_add; [eauto|]. destruct (bond_get_member_by_sw_if_index bm sw); [|eauto].
  destruct (bond_detach_member_ok bm sw H) as (bm' & rv & E & Hok). rewrite E. cbn. eauto.
Qed.

(** ** Deletion of a bond *)

Lemma delete_members_ok bi l : forall bm b,
  bond_ok bm -> live_bif bm bi b -> NoDup l -> (forall sw, sw ∈ l -> sw ∈ b_members b) ->
  exists bm' b', delete_members lacp_enable_disable bm bi l = Some bm' /\ bond_ok bm' /\ live_bif bm' bi b' /\ bond_id b' = bond_id b /\
    (forall sw, sw ∈ b_members b' <-> sw ∈ b_members b /\ sw ∉ l).
Proof.
  induction l as [|sw l IH]; intros bm b H Hb Hnd Hl; cbn [delete_members].
  - exists bm, b. split; [reflexivity|]. split; [exact H|]. split; [exact Hb|]. split; [reflexivity|]. set_solver.
  - apply NoDup_cons in Hnd as [Hni Hnd]. destruct (bk_live _ _ _ (bi_bond _ _ H _ _ Hb) sw) as (mi & m & Hm & Esw & Ek); [apply Hl; left|].
    unfold bond_get_member_by_sw_if_index. rewrite (proj2 (bi_map _ _ H sw mi) (ex_intro _ m (conj Hm Esw))). rewrite <- Ek in Hb.
    destruct (bond_delete_neighbor_ok bm mi m b H Hm Hb) as (bm1 & b1 & E1 & H1 & Hb1 & Eid & Em). rewrite Ek in E1, Hb1. rewrite E1. cbn [mbind option_bind].
    destruct (IH bm1 b1 H1 Hb1 Hnd) as (bm2 & b2 & E2 & H2 & Hb2 & Eid2 & Em2); [intros s Hs; apply Em; split; [apply Hl; now right|intros ->; congruence]|].
    exists bm2, b2. split; [exact E2|]. split; [exact H2|]. split; [exact Hb2|]. split; [congruence|]. intros s. rewrite Em2, Em, elem_of_cons, Esw. tauto.
Qed.

Lemma bond_delete_if_ok bm dev :
  bond_ok bm -> (forall bi, dev = Some bi -> is_Some (pool_lookup (interfaces bm) bi)) ->
  exists bm' rv, bond_delete_if lacp_enable_disable bm dev = Some (bm', rv) /\ bond_ok bm'.
Proof.
  intros H Hdev. unfold bond_delete_if. destruct dev as [bi|]; [|eauto]. destruct (Hdev bi eq_refl) as [b Hb]. change (live_bif bm bi b) in Hb.
  rewrite (live_bif_at _ _ _ Hb). destruct (delete_members_ok bi (b_members b) bm b H Hb) as (bm1 & b1 & E1 & H1 & Hb1 & Eid & Em);
    [exact (bk_members _ _ _ (bi_bond _ _ H _ _ Hb))|auto|]. rewrite E1. cbn [mbind option_bind]. rewrite (live_bif_at _ _ _ Hb1).
  eexists _, _. split; [reflexivity|]. set (bm' := bm1 <| bond_by_sw_if_index := _ |> <| id_used := _ |> <| interfaces := _ |>).
  pose proof (pool_write_lookup (interfaces bm1) bi bif_zero b1) as Hw. assert (pool_lookup (pool_write (interfaces bm1) bi bif_zero) bi = Some bif_zero) as Hz.
  { now rewrite (Hw _ Hb1), decide_True. }
  assert (forall j, pool_lookup (interfaces bm') j = if decide (j = bi) then None else pool_lookup (interfaces bm1) j) as Ui.
  { intros j. change (interfaces bm') with (pool_put_index (pool_write (interfaces bm1) bi bif_zero) bi). rewrite (pool_put_lookup _ _ _ _ Hz).
    destruct (decide (j = bi)) as [|Hne]; [reflexivity|]. now rewrite (Hw _ Hb1), decide_False. }
  assert (forall j n, live_mif bm1 j n -> m_bif_dev_instance n <> bi) as Hno.
  { intros j n Hn E. destruct (bi_member _ _ H1 _ _ Hn) as (bn & Hbn & _ & Hin & _). rewrite E in Hbn. assert (bn = b1) as -> by (unfold live_bif in *; congruence).
    apply Em in Hin as [Hin Hni]. contradiction. }
  destruct H1 as [I1 I2 I3 I4 I5 I6]. split; [exact I1| |exact I3| | |].
  - apply (pool_put_ok _ _ bif_zero); [now apply pool_write_ok|exact Hz].
  - intros j n Hn. destruct (I4 j n Hn) as (bn & Hbn & E). exists bn. split; [|exact E]. unfold live_bif. now rewrite Ui, (decide_False _ _ (Hno _ _ Hn)).
  - intros j bj. unfold live_bif. rewrite Ui. destruct (decide (j = bi)); [discriminate|]. intros Hbj. destruct (I5 _ _ Hbj) as [B1 B2 B3 B4 B5 B6 B7]. split; assumption.
  - intros sw j. change (bond_by_sw_if_index bm') with (delete (b_sw_if_index b1) (bond_by_sw_if_index bm1)). intros E. apply lookup_delete_Some in E as [Hne E].
    destruct (I6 _ _ E) as (bj & Hbj & Es). exists bj. split; [|exact Es]. unfold live_bif. rewrite Ui, decide_False; [exact Hbj|].
    intros ->. assert (bj = b1) as -> by (unfold live_bif in *; congruence). congruence.
Qed.

End Bonding.
