(* ===== verification/LacpProps.v ===== *)
(** * Bonding and LACP: histories and their properties

    All operations of bonding and of the LACP plugin as events, the states that
    histories of events reach, and what holds in each of them. *)

From stdpp Require Import gmap.
From S2P Require Import Prelude NetTypes Pool BondTypes Bond Lacp LacpMux LacpInv LacpRx BondInv.

(** ** Histories *)

Inductive bond_event :=
| EV_CREATE (args : bond_create_if_args_t) (hw_if_index sw_if_index : Z)
| EV_DELETE (dev : option Z)
| EV_ADD_MEMBER (args : bond_add_member_args_t) (f : member_facts)
| EV_DETACH_MEMBER (sw_if_index : Z)
| EV_INTERFACE_ADD_DEL (sw_if_index : Z) (is_add : bool)
| EV_ADMIN_UP_DOWN (dev_instance : Z) (is_up : bool)
| EV_SET_WEIGHT (sw_if_index weight : Z) (is_up : bool)
| EV_UP_DOWN (sw_if_index : Z) (up : bool)
| EV_LACP_INPUT (sw_if_index : Z) (data : list Z)
| EV_LACP_PERIODIC.

(** The interface layer deletes bonds that exist and sets their state. *)
Definition legal (ev : bond_event) (bm : bond_main_t) : bool :=
  match ev with
  | EV_DELETE (Some bi) | EV_ADMIN_UP_DOWN bi _ => negb (pool_is_free_index (interfaces bm) bi)
  | _ => true
  end.

Section Histories.
Variable qsort : list Z -> list Z.

(** A change of an interface is told to bonding and to LACP. *)
Definition bond_do (env : bond_env) (ev : bond_event) (bm : bond_main_t) : option bond_main_t :=
  let lacp := lacp_interface_enable_disable env qsort in
  match ev with
  | EV_CREATE args hw sw => Some (fst (bond_create_if bm args hw sw))
  | EV_DELETE dev => fst <$> bond_delete_if lacp bm dev
  | EV_ADD_MEMBER args f => fst <$> bond_add_member env qsort lacp bm args f
  | EV_DETACH_MEMBER sw => fst <$> bond_detach_member lacp bm sw
  | EV_INTERFACE_ADD_DEL sw is_add => bond_member_interface_add_del lacp bm sw is_add
  | EV_ADMIN_UP_DOWN bi up => Some (bond_interface_admin_up_down bm bi up)
  | EV_SET_WEIGHT sw weight up => Some (fst (bond_set_intf_weight qsort bm sw weight up))
  | EV_UP_DOWN sw up => lacp_interface_up_down env qsort sw up (bond_interface_up_down env qsort bm sw up)
  | EV_LACP_INPUT sw data => fst <$> lacp_input env qsort sw data bm
  | EV_LACP_PERIODIC => lacp_periodic env qsort bm
  end.

(** [bond_main] at start, with or without the plugin. *)
Definition bond_init (plugin : bool) : bond_main_t := mk_bond_main pool_empty pool_empty ∅ ∅ ∅ plugin 0 [].

Inductive bond_reach : bond_main_t -> Prop :=
| reach_init plugin : bond_reach (bond_init plugin)
| reach_do env ev bm bm' : bond_reach bm -> legal ev bm = true -> bond_do env ev bm = Some bm' -> bond_reach bm'.

(** A history, run. *)
Fixpoint bond_history (l : list (bond_env * bond_event)) (bm : bond_main_t) : option bond_main_t :=
  match l with
  | [] => Some bm
  | (env, ev) :: l => if legal ev bm then bm ← bond_do env ev bm; bond_history l bm else None
  end.

Lemma history_reach l bm bm' : bond_reach bm -> bond_history l bm = Some bm' -> bond_reach bm'.
Proof.
  revert bm. induction l as [|[env ev] l IH]; intros bm Hr; cbn [bond_history]; [now intros [= <-]|].
  destruct (legal ev bm) eqn:El; [|discriminate]. destruct (bond_do env ev bm) as [bm1|] eqn:E; [|discriminate]. cbn [mbind option_bind].
  apply IH. exact (reach_do _ _ _ _ Hr El E).
Qed.

Hypothesis Hqsort : forall l, qsort l ≡ₚ l.

Lemma bond_init_ok plugin : bond_ok (bond_init plugin).
Proof.
  split; try apply pool_empty_ok.
  - intros sw i. cbn. rewrite lookup_empty. split; [discriminate|]. intros (m & Hm & _). unfold live_mif in Hm. cbn in Hm. now rewrite pool_empty_lookup in Hm.
  - intros i m Hm. unfold live_mif in Hm. cbn in Hm. now rewrite pool_empty_lookup in Hm.
  - intros k b Hb. unfold live_bif in Hb. cbn in Hb. now rewrite pool_empty_lookup in Hb.
  - intros sw k. cbn. now rewrite lookup_empty.
Qed.

Lemma bond_do_ok env ev bm : bond_ok bm -> legal ev bm = true -> exists bm', bond_do env ev bm = Some bm' /\ bond_ok bm'.
Proof.
  intros H Hl. pose proof (lacp_plugin env qsort Hqsort) as Hp.
  assert (forall bi, negb (pool_is_free_index (interfaces bm) bi) = true -> is_Some (pool_lookup (interfaces bm) bi)) as Hlive.
  { intros bi Hf. apply negb_true_iff in Hf. destruct (pool_lookup (interfaces bm) bi) eqn:El; [eauto|]. apply pool_is_free_lookup in El. congruence. }
  destruct ev; cbn [bond_do].
  - eexists. split; [reflexivity|]. now apply bond_create_if_ok.
  - destruct (bond_delete_if_ok qsort Hqsort (lacp_interface_enable_disable env qsort) bm dev H) as (bm' & rv & E & Hok).
    + intros bi ->. now apply Hlive.
    + rewrite E. cbn. eauto.
  - destruct (bond_add_member_ok env qsort Hqsort (lacp_interface_enable_disable env qsort) bm args f H) as (bm' & rv & E & Hok). rewrite E. cbn. eauto.
  - destruct (bond_detach_member_ok (lacp_interface_enable_disable env qsort) bm sw_if_index H) as (bm' & rv & E & Hok). rewrite E. cbn. eauto.
  - now apply bond_member_add_del_ok.
  - eexists. split; [reflexivity|]. apply bond_admin_ok; [exact H|]. now apply Hlive.
  - eexists. split; [reflexivity|]. now apply bond_set_weight_ok.
  - apply lacp_up_down_ok; [exact Hqsort|]. now apply bond_up_down_ok.
  - destruct (lacp_input_ends env qsort Hqsort sw_if_index data bm H) as (bm' & e & E & Hok & _). rewrite E. cbn. eauto.
  - now apply lacp_periodic_ends.
Qed.

Lemma reach_ok bm : bond_reach bm -> bond_ok bm.
Proof.
  induction 1 as [|env ev bm bm' _ IH Hl E]; [apply bond_init_ok|]. destruct (bond_do_ok env ev bm IH Hl) as (bm2 & E2 & Hok). congruence.
Qed.

(** C7 Termination: in every reachable state every operation of bonding and LACP ends - the machines post
    events to each other no more than [RX_FUEL], [MUX_FUEL] and [PTX_FUEL] deep - whatever the packet, the
    time and the environment; the result is reachable again. *)
Theorem bond_operations_terminate env ev bm :
  bond_reach bm -> legal ev bm = true -> exists bm', bond_do env ev bm = Some bm' /\ bond_reach bm'.
Proof.
  intros Hr Hl. destruct (bond_do_ok env ev bm (reach_ok _ Hr) Hl) as (bm' & E & _). exists bm'. split; [exact E|]. exact (reach_do _ _ _ _ Hr Hl E).
Qed.

(** C6 In every reachable state the bond of a member exists and lists it, the active members are members
    without repetition, and the member is active exactly if its mux machine is in
    [MUX_COLLECTING_DISTRIBUTING] (for LACP; the bits that the port announces say the same), or its interface
    is up (for the other modes). *)
Theorem active_members_correct bm i m :
  bond_reach bm -> pool_lookup (neighbors bm) i = Some m ->
  exists b, pool_lookup (interfaces bm) (m_bif_dev_instance m) = Some b /\
    member_by_sw_if_index bm !! m_sw_if_index m = Some i /\ m_sw_if_index m ∈ b_members b /\
    NoDup (b_active_members b) /\ (forall sw, sw ∈ b_active_members b -> sw ∈ b_members b) /\
    (b_mode b <> BOND_MODE_LACP -> m_sw_if_index m ∈ b_active_members b <-> m_port_enabled m = true) /\
    (b_mode b = BOND_MODE_LACP ->
       let distributing := bool_decide (m_mux_state m = MUX_COLLECTING_DISTRIBUTING) in
       bool_decide (m_sw_if_index m ∈ b_active_members b) = distributing /\
       has (pi_state (m_actor m)) LACP_STATE_COLLECTING = distributing /\
       has (pi_state (m_actor m)) LACP_STATE_DISTRIBUTING = distributing /\
       has (pi_state (m_actor m)) LACP_STATE_SYNCHRONIZATION = distributing || bool_decide (m_mux_state m = MUX_ATTACHED)).
Proof.
  intros Hr Hm. pose proof (reach_ok _ Hr) as H. destruct (bi_member _ _ H _ _ Hm) as (b & Hb & _ & Hin & Hok). specialize (Hok I).
  destruct (bi_bond _ _ H _ _ Hb) as [_ _ B3 B4 _ _ _]. exists b. split; [exact Hb|]. split; [apply (bi_map _ _ H); eauto|].
  split; [exact Hin|]. split; [exact B3|]. split; [exact B4|]. unfold member_ok in Hok. split; intros Hmode.
  - apply Z.eqb_neq in Hmode. rewrite Hmode in Hok. apply Hok.
  - rewrite Hmode in Hok. destruct Hok as [_ [P1 P2 P3 P4 P5]]. cbn in *. split; [now apply bool_decide_ext|]. split; [exact P3|]. split; [exact P4|].
    unfold actor_has in P5. cbn in P5. rewrite P5. now destruct (m_mux_state m).
Qed.

(** C13 The mux machine of a port of a reachable LACP bond, given any event, ends in the state that the
    selection asks for - detached when unselected, waiting in standby, and when selected attached or
    distributing as the partner is in sync, unless it still waits to be ready - and moves the port in and
    out of the active members accordingly, leaving the other active members alone.  The port announces that
    it collects and distributes exactly when it is active, and that it is in sync when it is attached
    or active; nothing is transmitted. *)
Theorem mux_machine_settles env ev bm i m :
  bond_reach bm -> pool_lookup (neighbors bm) i = Some m -> m_mode m = BOND_MODE_LACP ->
  exists c, mux_run env qsort ev (load_ctx bm i) = Some c /\ mux_settled (c_mif c) /\ mux_mask (c_mif c) = mux_mask m /\
    (m_sw_if_index m ∈ b_active_members (c_bif c) <-> m_mux_state (c_mif c) = MUX_COLLECTING_DISTRIBUTING) /\
    (forall sw, sw <> m_sw_if_index m ->
       sw ∈ b_active_members (c_bif c) <-> sw ∈ b_active_members (bif_at bm (m_bif_dev_instance m))) /\
    actor_has LACP_STATE_COLLECTING c = bool_decide (m_mux_state (c_mif c) = MUX_COLLECTING_DISTRIBUTING) /\
    actor_has LACP_STATE_DISTRIBUTING c = bool_decide (m_mux_state (c_mif c) = MUX_COLLECTING_DISTRIBUTING) /\
    actor_has LACP_STATE_SYNCHRONIZATION c = bool_decide (m_mux_state (c_mif c) = MUX_ATTACHED \/ m_mux_state (c_mif c) = MUX_COLLECTING_DISTRIBUTING) /\
    tx_fields (c_mif c) = tx_fields m.
Proof.
  intros Hr Hm Hl. pose proof (reach_ok _ Hr) as H. destruct (lacp_ctx _ _ _ H Hm Hl) as (b & Hb & El & Hok & _). rewrite El, (live_bif_at _ _ _ Hb).
  destruct (mux_terminates env qsort Hqsort ev _ Hok) as (c & E & F & K & S). exists c. split; [exact E|]. split; [exact S|]. split; [exact (mx_mif _ _ F)|].
  split; [rewrite <- (po_active _ _ K); now rewrite (mux_frame_sw _ _ F)|]. split; [exact (af_other _ _ _ _ (mx_active _ _ F))|].
  split; [apply K|]. split; [apply K|]. split; [apply K|]. exact (mt_tx _ _ (mux_dispatch_touch env qsort _ _ _ _ E)).
Qed.

(** C12 A packet received on one interface changes nothing of the other members but their mux and what
    it asks for.  Beside the mux state, the bits that the mux announces, the flags of readiness and the
    NUMA flag, every field is the same, those of the transmission machines included (nothing is sent);
    the periodic timer changes only with a request to transmit, and the wait-while timer only when it
    does not run.  Of a port that is not selected only the flag that all ports are ready changes; a port
    without a partner in sync is not made to distribute. *)
Theorem lacp_input_isolated env sw data bm bm' e j m :
  bond_reach bm -> lacp_input env qsort sw data bm = Some (bm', e) -> pool_lookup (neighbors bm) j = Some m -> m_sw_if_index m <> sw ->
  exists m', pool_lookup (neighbors bm') j = Some m' /\ mux_mask m' = mux_mask m /\ tx_fields m' = tx_fields m /\
    ((m_periodic_timer m' = m_periodic_timer m /\ m_ntt m' = m_ntt m) \/ m_ntt m' = true) /\
    (m_wait_while_timer m' = m_wait_while_timer m \/ m_wait_while_timer m = 0) /\
    (m_selected m <> LACP_PORT_SELECTED -> m' = m <| m_ready := m_ready m' |>) /\
    (has (pi_state (m_partner m)) LACP_STATE_SYNCHRONIZATION = false -> m_mux_state m <> MUX_COLLECTING_DISTRIBUTING ->
     m_mux_state m' <> MUX_COLLECTING_DISTRIBUTING).
Proof.
  intros Hr E Hm Hne. pose proof (reach_ok _ Hr) as H. destruct (lacp_input_ends env qsort Hqsort sw data bm H) as (bm2 & e2 & E2 & _ & Hw).
  assert (bm2 = bm') as -> by congruence. destruct Hw as [->|(mi & Ei & Hw)].
  - exists m. repeat split; auto using set_ready_id.
  - assert (j <> mi) as Hj.
    { intros ->. apply (bi_map _ _ H) in Ei as (n & Hn & En). unfold live_mif in *. congruence. }
    destruct (w_mif _ _ _ Hw _ _ Hm) as (m' & Hm' & _ & Hb). destruct (Hb Hj) as (B1 & [T1 T2 T3] & B2 & _ & B3). exists m'. repeat split; auto.
Qed.

End Histories.

(** ** Examples *)

Definition example_sort (l : list Z) : list Z := l.

Lemma example_sort_perm l : example_sort l ≡ₚ l.
Proof. reflexivity. Qed.

Definition example_env (now : Z) : bond_env :=
  mk_bond_env now 0 (fun _ => 0) (fun i => [2; 0; 0; 0; 0; i]) true (fun l => fold_left (fun h b => (h * 257 + b) mod (2 ^ 61 - 1)) l 0).

Definition example_partner (state : Z) : lacp_port_info_t := mk_port_info 65535 [9; 9; 9; 9; 9; 9] 7 255 256 state.

(** What the first port announces when it is attached. *)
Definition example_actor : lacp_port_info_t := mk_port_info 65535 [2; 0; 0; 0; 0; 1] 2560 65280 256 15.

Definition example_create (mode : Z) : list (bond_env * bond_event) :=
  let add i := EV_ADD_MEMBER (mk_add_args i 10 false false) (mk_member_facts false true true true i [2; 0; 0; 0; 0; i] None) in
  [(example_env 1000, EV_CREATE (mk_create_args (2 ^ 32 - 1) false [2; 254; 0; 0; 0; 1] mode BOND_LB_L34 false false) 10 10);
   (example_env 1000, EV_ADMIN_UP_DOWN 0 true); (example_env 1000, add 1); (example_env 1000, add 2)].

Definition example_run (l : list (bond_env * bond_event)) : bond_main_t := default (bond_init true) (bond_history example_sort l (bond_init true)).

(** An LACP bond whose first member aggregates with a partner while the second hears nothing. *)
Definition example_join : list (bond_env * bond_event) :=
  [(example_env 1500, EV_LACP_INPUT 1 (lacp_fill_pdu (example_partner 7) (example_partner 0)));
   (example_env 4000, EV_LACP_PERIODIC);
   (example_env 4100, EV_LACP_INPUT 1 (lacp_fill_pdu (example_partner 63) example_actor))].

Definition example_lacp : bond_main_t := example_run (example_create BOND_MODE_LACP ++ example_join).

Lemma example_lacp_reach : bond_reach example_sort example_lacp.
Proof. apply (history_reach _ (example_create BOND_MODE_LACP ++ example_join) (bond_init true)); [apply reach_init|vm_compute; reflexivity]. Qed.

(** A bond without LACP whose two members are up. *)
Definition example_xor : bond_main_t := example_run (example_create BOND_MODE_XOR).

Lemma example_xor_reach : bond_reach example_sort example_xor.
Proof. apply (history_reach _ (example_create BOND_MODE_XOR) (bond_init true)); [apply reach_init|vm_compute; reflexivity]. Qed.

Example example_active : b_active_members (bif_at example_lacp 0) = [1] /\ b_active_members (bif_at example_xor 0) = [1; 2].
Proof. split; vm_compute; reflexivity. Qed.

Lemma bond_operations_terminate_witness :
  exists bm', bond_do example_sort (example_env 8000) EV_LACP_PERIODIC example_lacp = Some bm' /\ bond_reach example_sort bm'.
Proof. apply (bond_operations_terminate example_sort example_sort_perm); [exact example_lacp_reach|reflexivity]. Defined.

Lemma active_members_correct_witness :
  exists b, pool_lookup (interfaces example_lacp) (m_bif_dev_instance (mif_at example_lacp 0)) = Some b /\ m_sw_if_index (mif_at example_lacp 0) ∈ b_members b.
Proof.
  destruct (active_members_correct example_sort example_sort_perm example_lacp 0 (mif_at example_lacp 0) example_lacp_reach) as (b & H1 & _ & H2 & _).
  - vm_compute. reflexivity.
  - exists b. now split.
Defined.

Lemma mux_machine_settles_witness :
  exists c, mux_run (example_env 8000) example_sort MUX_UNSELECTED (load_ctx example_lacp 0) = Some c /\ mux_settled (c_mif c).
Proof.
  destruct (mux_machine_settles example_sort example_sort_perm (example_env 8000) MUX_UNSELECTED example_lacp 0 (mif_at example_lacp 0) example_lacp_reach)
    as (c & H1 & H2 & _).
  - vm_compute. reflexivity.
  - vm_compute. reflexivity.
  - exists c. now split.
Defined.

Definition example_input : option (bond_main_t * lacp_error_t) :=
  lacp_input (example_env 5000) example_sort 1 (lacp_fill_pdu (example_partner 7) example_actor) example_lacp.

Lemma lacp_input_isolated_witness :
  exists m', pool_lookup (neighbors (default (example_lacp, LACP_ERROR_NONE) example_input).1) 1 = Some m' /\ mux_mask m' = mux_mask (mif_at example_lacp 1).
Proof.
  destruct (lacp_input_isolated example_sort example_sort_perm (example_env 5000) 1 (lacp_fill_pdu (example_partner 7) example_actor) example_lacp
    (default (example_lacp, LACP_ERROR_NONE) example_input).1 (default (example_lacp, LACP_ERROR_NONE) example_input).2 1 (mif_at example_lacp 1) example_lacp_reach)
    as (m' & H1 & H2 & _).
  - vm_compute. reflexivity.
  - vm_compute. reflexivity.
  - vm_compute. discriminate.
  - exists m'. now split.
Defined.
