(* ===== verification/LacpLive.v ===== *)
(** * LACP: a port whose partner is silent stops to carry traffic *)

From stdpp Require Import gmap.
From S2P Require Import Prelude NetTypes Pool BondTypes Bond Lacp LacpMux LacpInv LacpRx BondInv LacpProps.

Section Silence.
Variable env : bond_env.
Variable qsort : list Z -> list Z.
Hypothesis Hqsort : forall l, qsort l ≡ₚ l.

(** The default partner of the port. *)
Variable adm : lacp_port_info_t.
Hypothesis Hadm : pi_state adm = 0.

(** An aggregating port that heard from its partner, but not for longer than the timeout. *)
Record silent_port (m : member_if_t) : Prop := {
  si_lacp : m_mode m = BOND_MODE_LACP;
  si_enabled : m_port_enabled m = true;
  si_state : m_rx_state m = RX_CURRENT;
  si_timer : m_current_while_timer m <> 0 /\ m_current_while_timer m <= e_now env;
  si_packet : m_last_rx_pkt m = [];
  si_partner : has (pi_state (m_partner m)) LACP_STATE_AGGREGATION = true;
  si_admin : m_partner_admin m = adm
}.

(** A port that takes the default partner and does not distribute. *)
Record dropped_port (m : member_if_t) : Prop := {
  dr_state : m_rx_state m = RX_DEFAULTED;
  dr_partner : m_partner m = adm;
  dr_mux : m_mux_state m <> MUX_COLLECTING_DISTRIBUTING
}.

Lemma silent_mask m m' : mux_mask m' = mux_mask m -> silent_port m -> silent_port m'.
Proof.
  intros E [H1 H2 H3 H4 H5 H6 H7]. split.
  - rewrite <- H1. exact (f_equal m_mode E).
  - rewrite <- H2. exact (f_equal m_port_enabled E).
  - rewrite <- H3. exact (f_equal m_rx_state E).
  - now rewrite (f_equal m_current_while_timer E : m_current_while_timer m' = m_current_while_timer m).
  - rewrite <- H5. exact (f_equal m_last_rx_pkt E).
  - rewrite <- H6. exact (f_equal (fun m => has (pi_state (m_partner m)) LACP_STATE_AGGREGATION) E).
  - rewrite <- H7. exact (f_equal m_partner_admin E).
Qed.

Lemma dropped_idle m m' : m_rx_state m' = m_rx_state m -> idle_kept m m' -> dropped_port m -> dropped_port m'.
Proof. intros E [[= K1 _ _] K2] [H1 H2 H3]. split; [congruence..|]. apply K2; [|exact H3]. unfold partner_sync. now rewrite H2, Hadm. Qed.

(** ** The receive machine *)

(** Between the timeout and the default partner: in state [s]. *)
Record doomed (s : lacp_rx_sm_state_t) (m : member_if_t) : Prop := {
  do_state : m_rx_state m = s;
  do_packet : m_last_rx_pkt m = [];
  do_partner : has (pi_state (m_partner m)) LACP_STATE_AGGREGATION = true;
  do_sync : partner_sync m = false;
  do_admin : m_partner_admin m = adm
}.

(** The port is unselected, before the default partner is recorded. *)
Record unselected_port (m : member_if_t) : Prop := {
  un_state : m_rx_state m = RX_DEFAULTED;
  un_packet : m_last_rx_pkt m = [];
  un_admin : m_partner_admin m = adm;
  un_mux : m_mux_state m <> MUX_COLLECTING_DISTRIBUTING
}.

(** Operations on the context, with what they say of the member. *)
Lemma ends_run_spec mi f bm m (Q : member_if_t -> Prop) :
  at_port mi bm m -> (forall c, c_mif c = m -> mux_ok c -> exists c', f c = Some c' /\ ctx_rel c c' /\ Q (c_mif c')) ->
  ends mi (fun x => x) (run_ctx f mi bm) bm m Q.
Proof.
  intros [H1 H2 H3] Hf. destruct (run_self mi bm m f H1 H2 H3) as (bm' & b & o & c' & (_ & Hok) & Ec & E & M & _).
  - intros c Ec Hc. destruct (Hf c Ec Hc) as (c' & E & Hr & _). now exists c'.
  - exists bm', (c_mif c'). split; [exact E|]. split; [exact M|]. destruct (Hf (mk_ctx m b o) eq_refl Hok) as (c2 & E2 & _ & HQ). congruence.
Qed.

Lemma no_packet_ends mi n bm m s :
  at_port mi bm m -> m_last_rx_pkt m = [] -> s m ->
  ends mi (fun x => x) (if has_rx_pkt (mif_at bm mi) then post (lacp_rx_dispatch env qsort n mi) RX_PDU_RECEIVED bm else Some bm) bm m s.
Proof. intros Hat Ep Hs. rewrite (live_mif_at _ _ _ (ap_live _ _ _ Hat)). unfold has_rx_pkt. rewrite Ep. now apply (ends_ret mi (fun x => x)). Qed.

(** The partner of a doomed port is not the default one. *)
Lemma doomed_unselects c : mux_ok c -> doomed RX_DEFAULTED (c_mif c) ->
  exists c', lacp_update_default_selected env qsort c = Some c' /\ ctx_rel c c' /\ unselected_port (c_mif c').
Proof.
  intros Hc [D1 D2 D3 D4 D5]. unfold lacp_update_default_selected, unselect_unless_partner. cbv zeta. rewrite D3, D5, Hadm.
  change (has 0 LACP_STATE_AGGREGATION) with false. cbn [Bool.eqb negb orb]. unfold lacp_set_port_unselected.
  set (c1 := set_selected LACP_PORT_UNSELECTED c). assert (ctx_rel c c1) as H1 by (apply rel_mif; [intros ?; repeat split; intros; reflexivity|exact Hc]).
  assert (exists c', mux_run env qsort MUX_UNSELECTED c1 = Some c' /\ ctx_rel c c' /\ unselected_port (c_mif c')) as Hrun.
  { destruct (mux_terminates env qsort Hqsort MUX_UNSELECTED c1 (cr_ok _ _ H1)) as (c' & E & F & K & S). exists c'. split; [exact E|].
    split; [exact (ctx_rel_trans _ _ _ H1 (mux_frame_rel _ _ F K))|]. pose proof (mx_mif _ _ F) as Em. split; [rewrite <- D1; exact (f_equal m_rx_state Em)| | |].
    1: rewrite <- D2; exact (f_equal m_last_rx_pkt Em).
    1: rewrite <- D5; exact (f_equal m_partner_admin Em).
    unfold mux_settled in S. rewrite (f_equal m_selected Em : m_selected (c_mif c') = LACP_PORT_UNSELECTED) in S. congruence. }
  cbv zeta. destruct (m_mux_state (c_mif c1)) eqn:Es; try exact Hrun.
  - exists c1. split; [reflexivity|]. split; [exact H1|]. split; [exact D1|exact D2|exact D5|congruence].
  - unfold partner_sync in D4. change (partner_has LACP_STATE_SYNCHRONIZATION c1) with (has (pi_state (m_partner (c_mif c))) LACP_STATE_SYNCHRONIZATION). now rewrite D4.
Qed.

Lemma defaulted_drops mi n bm m :
  at_port mi bm m -> doomed RX_DEFAULTED m -> act_ends env qsort mi n ACT_DEFAULTED bm m (fun m' => dropped_port m' /\ m_last_rx_pkt m' = []).
Proof.
  intros Hat Hd. unfold act_ends. cbn [rx_action]. apply action_ret; [exact Hat|]. unfold lacp_rx_action_defaulted.
  eapply (ends_bind mi _ _ _ _ _ _ unselected_port); [exact Hat|apply ends_run_spec; [exact Hat|]|].
  { intros c Ec Hc. set (c1 := on_mif (fun m => m <| m_current_while_timer := 0 |>) c).
    assert (ctx_rel c c1) as H1 by (apply rel_mif; [intros ?; repeat split; intros; reflexivity|exact Hc]).
    destruct (doomed_unselects c1 (cr_ok _ _ H1)) as (c' & E & Hr & HQ).
    - rewrite <- Ec in Hd. destruct Hd. now split.
    - exists c'. split; [exact E|]. split; [exact (ctx_rel_trans _ _ _ H1 Hr)|exact HQ]. }
  intros bm1 m1 Hat1 _ [Q1 Q2 Q3 Q4].
  eapply (ends_bind mi _ _ _ _ _ _ (fun m' => dropped_port m' /\ m_last_rx_pkt m' = [])); [exact Hat1|apply ends_run_spec; [exact Hat1|]|].
  { intros c Ec Hc. eexists. split; [reflexivity|]. split.
    - pose proof (record_default_rel c Hc) as Hr. apply (ctx_rel_trans _ _ _ Hr), actor_clear_rel; [reflexivity|exact (cr_ok _ _ Hr)].
    - rewrite <- Ec in Q1, Q2, Q3, Q4. split; [|exact Q2]. split; [exact Q1|exact Q3|exact Q4]. }
  intros bm2 m2 Hat2 _ [Hdr Hp]. now apply no_packet_ends.
Qed.

Lemma expired_drops mi n bm m :
  at_port mi bm m -> silent_port (set_rx_state RX_CURRENT m) -> m_rx_state m = RX_EXPIRED -> act_ends env qsort mi (S n) ACT_EXPIRED bm m dropped_port.
Proof.
  intros Hat Hs Es. unfold act_ends. cbn [rx_action]. apply action_ret; [exact Hat|]. unfold lacp_rx_action_expired.
  eapply (ends_bind mi _ _ _ _ _ _ (fun m' => doomed RX_EXPIRED m' /\ m_current_while_timer m' = m_current_while_timer m)); [exact Hat|apply ends_run_spec; [exact Hat|]|].
  { intros c Ec Hc. set (c1 := on_partner _ (on_partner _ c)).
    assert (ctx_rel c c1) as H1.
    { pose proof (on_partner_rel (pi_clear LACP_STATE_SYNCHRONIZATION) c Hc) as Hr. exact (ctx_rel_trans _ _ _ Hr (on_partner_rel _ _ (cr_ok _ _ Hr))). }
    assert (doomed RX_EXPIRED (c_mif c1) /\ m_current_while_timer (c_mif c1) = m_current_while_timer m) as Hd.
    { destruct Hs as [S1 S2 S3 S4 S5 S6 S7]. rewrite <- Ec in *. split; [|reflexivity]. split; [exact Es|exact S5| | |exact S7].
      - change (has (pi_state (pi_set LACP_STATE_LACP_TIMEOUT (pi_clear LACP_STATE_SYNCHRONIZATION (m_partner (c_mif c))))) LACP_STATE_AGGREGATION = true).
        rewrite has_set, has_clear. eval_bits. change (has (pi_state (m_partner (c_mif c))) 4 = true) in S6. now rewrite S6.
      - change (has (pi_state (pi_set LACP_STATE_LACP_TIMEOUT (pi_clear LACP_STATE_SYNCHRONIZATION (m_partner (c_mif c))))) LACP_STATE_SYNCHRONIZATION = false).
        rewrite has_set, has_clear. eval_bits. rewrite has_0. reflexivity. }
    unfold lacp_ptx_post_short_timeout_event. destruct (_ && _ && _); [|exists c1; now split].
    destruct (ptx_terminates env PTX_SHORT_TIMEOUT c1) as (c2 & E2 & P2). exists c2. split; [exact E2|].
    split; [exact (ctx_rel_trans _ _ _ H1 (ptx_rel _ _ P2 (cr_ok _ _ H1)))|]. pose proof (mx_mif _ _ (proj1 P2)) as Em. destruct Hd as [[D1 D2 D3 D4 D5] D6].
    split; [|rewrite <- D6; exact (f_equal m_current_while_timer Em)]. split.
    - rewrite <- D1. exact (f_equal m_rx_state Em).
    - rewrite <- D2. exact (f_equal m_last_rx_pkt Em).
    - rewrite <- D3. exact (f_equal (fun m => has (pi_state (m_partner m)) LACP_STATE_AGGREGATION) Em).
    - rewrite <- D4. exact (f_equal partner_sync Em).
    - rewrite <- D5. exact (f_equal m_partner_admin Em). }
  intros bm1 m1 Hat1 _ [Hd1 Ht1]. cbv zeta.
  assert (current_while_expired env (mif_at bm1 mi) = true) as ->.
  { rewrite (live_mif_at _ _ _ (ap_live _ _ _ Hat1)). unfold current_while_expired, lacp_timer_is_running, lacp_timer_is_expired. rewrite Ht1.
    destruct (si_timer _ Hs) as [T1 T2]. cbn in T1, T2. apply andb_true_iff. split; [now apply negb_true_iff, Z.eqb_neq|now apply Z.leb_le]. }
  eapply (ends_bind mi _ _ _ _ _ _ (doomed RX_EXPIRED)); [exact Hat1|apply ends_run_spec; [exact Hat1|]|].
  { intros c Ec Hc. eexists. split; [reflexivity|]. split.
    - pose proof (rel_mif (fun m => m <| m_current_while_timer := e_now env + 1000 * u8 (m_ttl_in_seconds m) |>) c ltac:(intros ?; repeat split; intros; reflexivity) Hc) as Hr.
      apply (ctx_rel_trans _ _ _ Hr), actor_set_rel; [reflexivity|exact (cr_ok _ _ Hr)].
    - rewrite <- Ec in Hd1. destruct Hd1. now split. }
  intros bm2 m2 Hat2 _ Hd2. eapply (ends_bind mi (fun x => x) _ _ _ _ _ (fun m' => dropped_port m' /\ m_last_rx_pkt m' = [])); [exact Hat2| |].
  - apply post_ends. apply (rx_acts _ _ _ _ _ _ _ ACT_DEFAULTED RX_DEFAULTED); [exact Hat2|now rewrite (do_state _ _ Hd2)|].
    intros bm3 Hat3. apply defaulted_drops; [exact Hat3|]. destruct Hd2. now split.
  - intros bm3 m3 Hat3 _ [Hdr Hp]. now apply no_packet_ends.
Qed.

Lemma timeout_drops mi bm m : at_port mi bm m -> silent_port m -> ends mi fst (rx_run env qsort mi RX_TIMER_EXPIRED bm) bm m dropped_port.
Proof.
  intros Hat Hs. apply (rx_acts env qsort mi _ RX_TIMER_EXPIRED bm m ACT_EXPIRED RX_EXPIRED); [exact Hat|now rewrite (si_state _ Hs)|].
  intros bm' Hat'. apply expired_drops; [exact Hat'| |reflexivity]. destruct Hs. now split.
Qed.

(** ** The periodic process *)

Lemma periodic_member_drops mi bm m :
  bond_ok bm -> live_mif bm mi m -> silent_port m -> exists bm' m', lacp_periodic_member env qsort mi bm = Some bm' /\ moves mi bm m bm' m' /\ dropped_port m'.
Proof.
  intros H Hm Hs. assert (at_port mi bm m) as Hat by (split; [exact H|exact Hm|exact (si_lacp _ Hs)]).
  change (ends mi (fun x => x) (lacp_periodic_member env qsort mi bm) bm m dropped_port). unfold lacp_periodic_member.
  rewrite (live_mif_at _ _ _ Hm), (si_enabled _ Hs). cbn [negb]. cbv zeta.
  assert (current_while_expired env m = true) as ->.
  { unfold current_while_expired, lacp_timer_is_running, lacp_timer_is_expired. destruct (si_timer _ Hs) as [T1 T2].
    apply andb_true_iff. split; [now apply negb_true_iff, Z.eqb_neq|now apply Z.leb_le]. }
  eapply (ends_bind mi (fun x => x) _ _ _ _ _ dropped_port); [exact Hat| |].
  { destruct (timeout_drops mi bm m Hat Hs) as ([bm1 e] & m1 & E & M & Hd). exists bm1, m1. rewrite E. now split. }
  intros bm1 m1 Hat1 _ Hd1. eapply (ends_bind mi (fun x => x) _ _ _ _ _ dropped_port); [exact Hat1| |].
  { destruct (periodic_timer_expired _ _); [|now apply (ends_ret mi (fun x => x))]. apply ends_run_spec; [exact Hat1|]. intros c Ec Hc.
    destruct (ptx_terminates env PTX_TIMER_EXPIRED c) as (c' & E & P). exists c'. split; [exact E|]. split; [exact (ptx_rel _ _ P Hc)|].
    rewrite <- Ec in Hd1. apply (dropped_idle (c_mif c)); [exact (f_equal m_rx_state (mx_mif _ _ (proj1 P)))| |exact Hd1].
    split; [exact (f_equal heard (mx_mif _ _ (proj1 P)))|]. intros _ Hn. now rewrite (proj1 (proj2 P)). }
  intros bm2 m2 Hat2 _ Hd2. rewrite (live_mif_at _ _ _ (ap_live _ _ _ Hat2)). destruct (_ && _); [|now apply (ends_ret mi (fun x => x))].
  set (m3 := m2 <| m_ready_n := true |> <| m_wait_while_timer := 0 |>).
  assert (moves mi bm2 m2 (set_mif bm2 mi m3) m3) as M3 by (now apply set_ends). apply (ends_from _ _ _ _ _ _ _ _ M3).
  destruct (at_port_moves _ _ _ _ _ Hat2 M3) as [A1 A2 A3]. destruct (selection_moves env qsort Hqsort mi _ _ A1 A2 A3) as (bm4 & m4 & e & E4 & M4 & R4 & K4).
  exists bm4, m4. rewrite E4. split; [reflexivity|]. split; [exact M4|]. apply (dropped_idle m3); [now destruct (rx_state_kept _ _ R4)|exact K4|].
  destruct Hd2. now split.
Qed.

Lemma periodic_list_drops mi l : forall bm m,
  bond_ok bm -> (forall i, i ∈ l -> is_Some (pool_lookup (neighbors bm) i)) -> NoDup l -> live_mif bm mi m ->
  (mi ∈ l /\ silent_port m) \/ ((mi ∉ l) /\ dropped_port m) ->
  exists bm' m', lacp_periodic_list env qsort l bm = Some bm' /\ bond_ok bm' /\ live_mif bm' mi m' /\ member_fixed m' = member_fixed m /\ dropped_port m'.
Proof.
  induction l as [|i l IH]; intros bm m H Hl Hnd Hm Hcase; cbn [lacp_periodic_list].
  - destruct Hcase as [[Hin _]|[_ Hd]]; [now apply elem_of_nil in Hin|]. exists bm, m. auto.
  - apply NoDup_cons in Hnd as [Hni Hnd].
    assert (exists bm1 m1, lacp_periodic_member env qsort i bm = Some bm1 /\ bond_ok bm1 /\ world i bm bm1 /\ live_mif bm1 mi m1 /\
      member_fixed m1 = member_fixed m /\ ((mi ∈ l /\ silent_port m1) \/ ((mi ∉ l) /\ dropped_port m1))) as (bm1 & m1 & E1 & H1 & W1 & Hm1 & F1 & C1).
    { destruct (decide (mi = i)) as [->|Hne].
      - destruct Hcase as [[_ Hs]|[Hno _]]; [|destruct Hno; left]. destruct (periodic_member_drops i bm m H Hm Hs) as (bm1 & m1 & E & M & Hd).
        exists bm1, m1. split; [exact E|]. split; [apply M|]. split; [apply M|]. split; [apply M|]. split; [apply M|]. now right.
      - destruct (Hl i) as [n Hn]; [left|]. destruct (periodic_member_ends env qsort Hqsort i bm n H Hn) as (bm1 & n1 & E & M).
        destruct (w_mif _ _ _ (mv_world _ _ _ _ _ M) _ _ Hm) as (m1 & Hm1 & Ef & Hb). specialize (Hb Hne).
        exists bm1, m1. split; [exact E|]. split; [apply M|]. split; [apply M|]. split; [exact Hm1|]. split; [exact Ef|]. destruct Hcase as [[Hin Hs]|[Hno Hd]].
        + left. apply elem_of_cons in Hin as [|Hin]; [contradiction|]. split; [exact Hin|]. exact (silent_mask _ _ (proj1 Hb) Hs).
        + right. split; [intros Hin; apply Hno; now right|]. apply (dropped_idle m); [exact (f_equal m_rx_state (proj1 Hb))|apply Hb|exact Hd]. }
    rewrite E1. cbn [mbind option_bind]. destruct (IH bm1 m1 H1) as (bm2 & m2 & E2 & H2 & Hm2 & F2 & D2); [|exact Hnd|exact Hm1|exact C1|].
    + intros j Hj. destruct (Hl j) as [n Hn]; [now right|]. destruct (w_mif _ _ _ W1 _ _ Hn) as (n' & Hn' & _). now exists n'.
    + exists bm2, m2. split; [exact E2|]. split; [exact H2|]. split; [exact Hm2|]. split; [congruence|exact D2].
Qed.

End Silence.

(** C8 Liveness: take a port of an LACP bond that is enabled and current, whose timer of received
    PDUs has run out, that keeps no received packet (every packet but one too short is cleared when
    it is handled, see [short_packet_is_kept]), whose partner aggregates and whose default
    partner has no state bits, as [lacp_init_neighbor] sets it.  After the next run of the
    periodic process the port is defaulted, its partner is the default partner, and it is not
    among the active members of its bond; other ports do not prevent this. *)
Theorem silent_partner_removed env qsort (Hqsort : forall l, qsort l ≡ₚ l) bm mi m :
  bond_reach qsort bm -> pool_lookup (neighbors bm) mi = Some m -> m_mode m = BOND_MODE_LACP -> m_port_enabled m = true -> m_rx_state m = RX_CURRENT ->
  m_current_while_timer m <> 0 -> m_current_while_timer m <= e_now env -> m_last_rx_pkt m = [] ->
  has (pi_state (m_partner m)) LACP_STATE_AGGREGATION = true -> pi_state (m_partner_admin m) = 0 ->
  exists bm' m' b', lacp_periodic env qsort bm = Some bm' /\ pool_lookup (neighbors bm') mi = Some m' /\ m_sw_if_index m' = m_sw_if_index m /\
    m_rx_state m' = RX_DEFAULTED /\ m_partner m' = m_partner_admin m /\
    pool_lookup (interfaces bm') (m_bif_dev_instance m) = Some b' /\ m_sw_if_index m ∉ b_active_members b'.
Proof.
  intros Hr Hm H1 H2 H3 H4 H5 H6 H7 H8. pose proof (reach_ok qsort Hqsort bm Hr) as H.
  destruct (periodic_list_drops env qsort Hqsort (m_partner_admin m) H8 mi (map fst (pool_foreach (neighbors bm))) bm m H)
    as (bm' & m' & E & Hok & Hm' & Ef & [D1 D2 D3]).
  - intros i Hi. apply list_elem_of_fmap in Hi as ([j x] & -> & Hx). apply pool_foreach_elem in Hx. eauto.
  - apply pool_foreach_nodup.
  - exact Hm.
  - left. split; [|now split]. apply list_elem_of_fmap. exists (mi, m). split; [reflexivity|]. now apply pool_foreach_elem.
  - pose proof Ef as [= K1 K2 K3 _ _]. destruct (lacp_ctx _ _ _ Hok Hm' ltac:(congruence)) as (b' & Hb' & _ & Hmux & _). rewrite K2 in Hb'.
    exists bm', m', b'. split; [exact E|]. split; [exact Hm'|]. split; [exact K1|]. split; [exact D1|]. split; [exact D2|]. split; [exact Hb'|].
    rewrite <- K1. intros Hin. apply D3. now apply (po_active _ _ Hmux).
Qed.

Lemma silent_partner_removed_witness :
  exists bm' m' b', lacp_periodic (example_env 8000) example_sort example_lacp = Some bm' /\ pool_lookup (neighbors bm') 0 = Some m' /\
    m_rx_state m' = RX_DEFAULTED /\ m_partner m' = m_partner_admin (mif_at example_lacp 0) /\
    pool_lookup (interfaces bm') 0 = Some b' /\ 1 ∉ b_active_members b'.
Proof.
  destruct (silent_partner_removed (example_env 8000) example_sort example_sort_perm example_lacp 0 (mif_at example_lacp 0) example_lacp_reach)
    as (bm' & m' & b' & H1 & H2 & _ & H3 & H4 & H5 & H6); [vm_compute; reflexivity|vm_compute; reflexivity|vm_compute; reflexivity|vm_compute; reflexivity|vm_compute; discriminate|vm_compute; discriminate|vm_compute; reflexivity|vm_compute; reflexivity|vm_compute; reflexivity|].
  exists bm', m', b'. now repeat split.
Defined.

(** The hypothesis on the last packet is needed: [lacp_input] keeps a packet that is too short, and the next
    timeout takes it for a PDU, so that the port stays in [RX_CURRENT]. *)
Example short_packet_is_kept :
  let short := (bm ← fst <$> lacp_input (example_env 5000) example_sort 1 [1; 1; 1; 20] example_lacp; lacp_periodic (example_env 9000) example_sort bm) in
  (fun bm => m_rx_state (mif_at bm 0)) <$> short = Some RX_CURRENT.
Proof. vm_compute. reflexivity. Qed.
