(* ===== verification/BondTx.v ===== *)
(** * Link bonding: transmission

    Where the packets of a frame go.  A run of the transmit function writes buffers to the
    queues of its thread ([add_all]); what reaches a member is what was written to the queue
    of its position, in order ([bond_tx_sent]).  From this: packets leave through active
    members only, each once unless the bond broadcasts, by the hash modulo the number of
    members although the code masks instead of dividing when it can, and the queues are
    empty again for the next frame. *)

From stdpp Require Import gmap.
From S2P Require Import Prelude NetTypes Pool BondTypes Bond Lacp LacpMux LacpInv LacpRx BondInv LacpProps.

(** ** The modulo shortcut *)

Lemma is_pow2_spec n : 1 <= n -> is_pow2 n = true -> n = 2 ^ Z.log2 n.
Proof.
  intros Hn H. apply Z.eqb_eq in H. pose proof (Z.log2_spec n ltac:(lia)) as [L1 L2]. destruct (Z.eq_dec n (2 ^ Z.log2 n)) as [|Hne]; [assumption|exfalso].
  assert (Z.log2 (n - 1) = Z.log2 n) as El by (apply Z.log2_unique; [apply Z.log2_nonneg|lia]).
  assert (0 < n - 1) as Hp by (pose proof (Z.pow_pos_nonneg 2 (Z.log2 n) ltac:(lia) (Z.log2_nonneg n)); lia).
  pose proof (f_equal (fun x => Z.testbit x (Z.log2 n)) H) as E. cbn beta in E. rewrite Z.land_spec, Z.bits_0, Z.bit_log2 in E by lia.
  rewrite <- El, Z.bit_log2 in E by lia. discriminate.
Qed.

Lemma hash_to_port_mod n h : 1 <= n -> bond_hash_to_port n h (is_pow2 n) = h mod n.
Proof.
  intros Hn. unfold bond_hash_to_port. destruct (is_pow2 n) eqn:E; [|reflexivity]. apply is_pow2_spec in E; [|exact Hn]. rewrite E.
  rewrite <- Z.land_ones by apply Z.log2_nonneg. now rewrite Z.ones_equiv, Z.sub_1_r.
Qed.

(** ** Indices *)

Lemma round_robin_range b n b' i : 1 <= n -> bond_lb_round_robin b n = (b', i) -> 0 <= i < n /\ b' = b <| b_lb_rr_last_index := i |>.
Proof.
  intros Hn. unfold bond_lb_round_robin. cbv zeta. intros [= <- <-]. split; [|reflexivity].
  destruct (Z.leb_spec n (u32 (b_lb_rr_last_index b + 1))); [lia|]. split; [|assumption]. apply Z.mod_pos_bound. lia.
Qed.

Lemma tx_round_robin_range n k : 1 <= n -> forall b b' hs, bond_tx_round_robin b n k = (b', hs) -> length hs = k /\ Forall (fun h => 0 <= h < n) hs.
Proof.
  intros Hn. induction k as [|k IH]; intros b b' hs; cbn [bond_tx_round_robin]; [now intros [= <- <-]|].
  destruct (bond_lb_round_robin b n) as [b1 h] eqn:E1. destruct (bond_tx_round_robin b1 n k) as [b2 hs2] eqn:E2. intros [= <- <-].
  destruct (IH _ _ _ E2) as [L F]. split; [cbn; now rewrite L|]. constructor; [exact (proj1 (round_robin_range _ _ _ _ Hn E1))|exact F].
Qed.

(** The number of members that traffic is spread over: the local ones if there are any. *)
Definition spread (b : bond_if_t) : Z := if 1 <=? b_n_numa_members b then b_n_numa_members b else Z.of_nat (length (b_active_members b)).

Lemma spread_range b en : numa_ok en b -> b_active_members b <> [] -> 1 <= spread b <= Z.of_nat (length (b_active_members b)).
Proof.
  intros [H _] Hne. unfold spread. destruct (Z.leb_spec 1 (b_n_numa_members b)); [lia|]. destruct (b_active_members b); [easy|]. cbn [length]. lia.
Qed.

Lemma nth_in_active (l : list Z) i : 0 <= i < Z.of_nat (length l) -> nth (Z.to_nat i) l 0 ∈ l.
Proof. intros H. apply list_elem_of_In, nth_In. lia. Qed.

Lemma length_nonzero (l : list Z) : (Z.of_nat (length l) =? 0) = false -> l <> [].
Proof. intros H ->. discriminate. Qed.

(** ** Queues

    A write is the port, the interface and the buffer of a call of [bond_tx_add_to_queue]. *)

Definition add_all (qs : list bond_per_port_queue_t) (ws : list (nat * Z * Z)) : list bond_per_port_queue_t :=
  foldl (fun qs '(port, sw, bi) => bond_tx_add_to_queue qs port sw bi) qs ws.

(** What the writes put on the queue of a port. *)
Fixpoint queue_of (p : nat) (ws : list (nat * Z * Z)) : bond_per_port_queue_t :=
  match ws with
  | [] => []
  | (port, sw, bi) :: ws => if decide (port = p) then (sw, bi) :: queue_of p ws else queue_of p ws
  end.

(** The frame for the member at a position, if its queue has buffers. *)
Definition frame_for (active : list Z) (qs : list bond_per_port_queue_t) (p : nat) : option (Z * bond_per_port_queue_t) :=
  match qs !! p with Some (x :: q) => Some (nth p active 0, x :: q) | _ => None end.

Lemma length_add_all ws : forall qs, length (add_all qs ws) = length qs.
Proof. induction ws as [|[[port sw] bi] ws IH]; intros qs; [reflexivity|]. cbn [add_all foldl]. unfold add_all in IH. rewrite IH. apply length_alter. Qed.

Lemma add_all_lookup p ws : forall qs q, qs !! p = Some q -> add_all qs ws !! p = Some (q ++ queue_of p ws).
Proof.
  induction ws as [|[[port sw] bi] ws IH]; intros qs q Hq; cbn [add_all foldl queue_of]; [now rewrite app_nil_r|].
  unfold add_all in IH. destruct (decide (port = p)) as [->|Hne].
  - rewrite (IH _ (q ++ [(sw, bi)])); [now rewrite <- app_assoc|]. unfold bond_tx_add_to_queue. now rewrite list_lookup_alter_eq, Hq.
  - apply IH. unfold bond_tx_add_to_queue. now rewrite list_lookup_alter_ne.
Qed.

Lemma add_all_app ws1 ws2 qs : add_all (add_all qs ws1) ws2 = add_all qs (ws1 ++ ws2).
Proof. unfold add_all. now rewrite foldl_app. Qed.

Lemma queue_of_app p ws1 ws2 : queue_of p (ws1 ++ ws2) = queue_of p ws1 ++ queue_of p ws2.
Proof. induction ws1 as [|[[port sw] bi] ws1 IH]; cbn [app queue_of]; [reflexivity|]. rewrite IH. now destruct (decide _). Qed.

(** Emptying a queue changes neither the number of queues nor the frames for other positions. *)
Definition reset_queue (qs : list bond_per_port_queue_t) (p : nat) : list bond_per_port_queue_t := alter (fun _ : bond_per_port_queue_t => ([] : bond_per_port_queue_t)) p qs.

Lemma frame_for_reset active qs k p : k <> p -> frame_for active (reset_queue qs k) p = frame_for active qs p.
Proof. intros Hne. unfold frame_for, reset_queue. now rewrite list_lookup_alter_ne. Qed.

Lemma omap_frame_reset active qs k (l : list nat) : k ∉ l -> omap (frame_for active (reset_queue qs k)) l = omap (frame_for active qs) l.
Proof.
  induction l as [|p l IH]; [reflexivity|]. rewrite not_elem_of_cons. intros [Hne Hl]. cbn [omap list_omap].
  rewrite frame_for_reset by done. now rewrite <- IH.
Qed.

Lemma done_fold active (l : list nat) : NoDup l -> forall qs out,
  foldl (fun '(qs, out) p => match qs !! p with
                             | Some (x :: q) => (<[p := []]> qs, out ++ [(nth p active 0, x :: q)])
                             | _ => (qs, out)
                             end) (qs, out) l = (foldl reset_queue qs l, out ++ omap (frame_for active qs) l).
Proof.
  induction 1 as [|p l Hp _ IH]; intros qs out; cbn [foldl]; [cbn; now rewrite app_nil_r|].
  assert (match qs !! p with Some (x :: q) => (<[p := []]> qs, out ++ [(nth p active 0, x :: q)]) | _ => (qs, out) end =
          (reset_queue qs p, out ++ match frame_for active qs p with Some f => [f] | None => [] end)) as ->.
  { unfold frame_for, reset_queue. destruct (qs !! p) as [[|x q]|] eqn:E; rewrite ?app_nil_r; f_equal; apply list_eq; intros i;
      rewrite ?list_lookup_insert, list_lookup_alter; destruct (decide (p = i)) as [->|Hne]; rewrite ?E; try reflexivity.
    - rewrite decide_True; [reflexivity|]. split; [reflexivity|]. now apply lookup_lt_Some in E.
    - now rewrite decide_False by (intros [? _]; done). }
  rewrite IH, omap_frame_reset by done. f_equal. rewrite <- app_assoc. f_equal. cbn [omap list_omap]. now destruct (frame_for active qs p).
Qed.

(** The loop at [done] sends the frames of the first queues, and leaves them empty. *)
Lemma bond_tx_done_spec active n qs :
  bond_tx_done active n qs = (foldl reset_queue qs (seq 0 n), omap (frame_for active qs) (seq 0 n)).
Proof. unfold bond_tx_done. apply done_fold. rewrite NoDup_ListNoDup. apply seq_NoDup. Qed.

Lemma reset_all_lookup (l : list nat) p : forall qs, foldl reset_queue qs l !! p = if decide (p ∈ l) then (fun _ => []) <$> qs !! p else qs !! p.
Proof.
  induction l as [|k l IH]; intros qs; cbn [foldl]; [reflexivity|]. rewrite IH. unfold reset_queue. rewrite list_lookup_alter.
  destruct (decide (k = p)) as [->|Hne].
  - rewrite (decide_True (P := p ∈ p :: l)) by left. destruct (decide _); [|reflexivity]. now destruct (qs !! p).
  - destruct (decide (p ∈ l)); [rewrite decide_True by now right|rewrite decide_False; [|rewrite elem_of_cons; naive_solver]]; reflexivity.
Qed.

(** Empty queues, enough of them for the bond. *)
Definition queues_ready (b : bond_if_t) (qs : list bond_per_port_queue_t) : Prop :=
  Forall (fun q => q = []) qs /\ (length (b_active_members b) <= length qs)%nat.

Lemma ready_lookup b qs p : queues_ready b qs -> (p < length (b_active_members b))%nat -> qs !! p = Some [].
Proof.
  intros [HF HL] Hp. destruct (lookup_lt_is_Some_2 qs p ltac:(lia)) as [q Hq]. rewrite Hq. f_equal. exact (Forall_lookup_1 _ _ _ _ HF Hq).
Qed.

(** The frames sent when the queue of position [p] has [queue p]: one to each member with packets. *)
Definition sent (active : list Z) (n : nat) (queue : nat -> bond_per_port_queue_t) : list (Z * bond_per_port_queue_t) :=
  omap (fun p => match queue p with [] => None | q => Some (nth p active 0, q) end) (seq 0 n).

Lemma sent_ext active n q1 q2 : (forall p, (p < n)%nat -> q1 p = q2 p) -> sent active n q1 = sent active n q2.
Proof.
  intros H. apply list_omap_ext, Forall_Forall2_diag, Forall_forall. intros p Hp. apply elem_of_seq in Hp. now rewrite H by lia.
Qed.

Lemma elem_of_sent active n queue sw q : (sw, q) ∈ sent active n queue -> exists p, (p < n)%nat /\ sw = nth p active 0 /\ q = queue p /\ q <> [].
Proof.
  intros H. apply list_elem_of_omap in H as (p & Hp & E). apply elem_of_seq in Hp. exists p. split; [lia|]. now destruct (queue p); simplify_eq.
Qed.

(** Writes to the first [n] of the empty queues, and then the loop at [done]: each member gets what was
    written to its queue, and all queues are empty again. *)
Lemma bond_tx_sent b qs ws n :
  queues_ready b qs -> (n <= length (b_active_members b))%nat -> Forall (fun w => (w.1.1 < n)%nat) ws ->
  bond_tx_done (b_active_members b) n (add_all qs ws) =
  (qs, sent (b_active_members b) n (fun p => queue_of p ws)).
Proof.
  intros Hrd Hn Hws. rewrite bond_tx_done_spec. f_equal.
  - apply list_eq. intros p. rewrite reset_all_lookup. destruct (decide _) as [Hp|Hp].
    + apply elem_of_seq in Hp. pose proof (ready_lookup b qs p Hrd ltac:(lia)) as Hq. now rewrite (add_all_lookup p ws _ _ Hq), Hq.
    + destruct (qs !! p) as [q|] eqn:Hq; [|apply lookup_ge_None; rewrite length_add_all; now apply lookup_ge_None].
      rewrite (add_all_lookup p ws _ _ Hq). f_equal. assert (queue_of p ws = []) as ->; [|apply app_nil_r]. clear -Hws Hp.
      induction Hws as [|[[port sw] bi] ws Hw _ IH]; [reflexivity|]. cbn [queue_of]. cbn in Hw. rewrite decide_False by (intros ->; apply Hp, elem_of_seq; lia). exact IH.
  - apply list_omap_ext, Forall_Forall2_diag, Forall_forall. intros p Hp. apply elem_of_seq in Hp. unfold frame_for.
    pose proof (ready_lookup b qs p Hrd ltac:(lia)) as Hq. rewrite (add_all_lookup p ws _ _ Hq). reflexivity.
Qed.

(** *** The writes of each mode *)

Definition single_writes (sw : Z) (frame : list Z) : list (nat * Z * Z) := map (fun bi => (0%nat, sw, bi)) frame.
Definition spread_writes (active hs frame : list Z) : list (nat * Z * Z) :=
  zip_with (fun h bi => (Z.to_nat h, nth (Z.to_nat h) active 0, bi)) hs frame.
Definition copy_writes (copy : Z -> nat -> option Z) (active : list Z) (bi : Z) : list (nat * Z * Z) :=
  omap (fun port => c ← copy bi port; Some (port, nth port active 0, c)) (seq 1 (length active - 1)).

Lemma update_single active frame sw qs : bond_update_sw_if_index active frame [sw] true qs = add_all qs (single_writes sw frame).
Proof. unfold bond_update_sw_if_index, add_all, single_writes. now rewrite foldl_fmap. Qed.

Lemma update_spread active frame hs : forall qs, bond_update_sw_if_index active frame hs false qs = add_all qs (spread_writes active hs frame).
Proof.
  unfold bond_update_sw_if_index, add_all, spread_writes. revert frame.
  induction hs as [|h hs IH]; intros [|bi frame] qs; cbn [zip zip_with foldl]; try reflexivity. apply IH.
Qed.

Lemma broadcast_writes copy active bi : forall qs, bond_lb_broadcast copy active qs bi = add_all qs (copy_writes copy active bi).
Proof.
  unfold bond_lb_broadcast, add_all, copy_writes. generalize (seq 1 (length active - 1)) as l.
  induction l as [|p l IH]; intros qs; cbn [foldl omap list_omap]; [reflexivity|]. rewrite IH. cbn. destruct (copy bi p); reflexivity.
Qed.

Lemma broadcast_all_writes copy active frame : forall qs,
  foldl (bond_lb_broadcast copy active) qs frame = add_all qs (concat (map (copy_writes copy active) frame)).
Proof.
  induction frame as [|bi frame IH]; intros qs; cbn [foldl map concat]; [reflexivity|]. now rewrite IH, broadcast_writes, add_all_app.
Qed.

(** Each queue gets a part of the frame, in its order, for the interface of its position. *)
Fixpoint part (p : nat) (hs frame : list Z) : list Z :=
  match hs, frame with
  | h :: hs, bi :: frame => if decide (Z.to_nat h = p) then bi :: part p hs frame else part p hs frame
  | _, _ => []
  end.

Lemma queue_spread active p hs : forall frame, queue_of p (spread_writes active hs frame) = map (fun bi => (nth p active 0, bi)) (part p hs frame).
Proof.
  induction hs as [|h hs IH]; intros [|bi frame]; try reflexivity. cbn [spread_writes zip_with queue_of part]. specialize (IH frame).
  unfold spread_writes in IH. rewrite IH. now destruct (decide _) as [<-|_].
Qed.

Lemma part_sublist p hs : forall frame, part p hs frame `sublist_of` frame.
Proof.
  induction hs as [|h hs IH]; intros [|bi frame]; cbn [part]; try apply sublist_nil_l. destruct (decide _); [now apply sublist_skip|now apply sublist_cons].
Qed.

Lemma single_spread active frame : single_writes (nth 0 active 0) frame = spread_writes active (map (fun _ => 0) frame) frame.
Proof. induction frame as [|bi frame IH]; [reflexivity|]. cbn. now f_equal. Qed.

Lemma concat_map_insert {A} (f g : nat -> list A) k x l :
  NoDup l -> k ∈ l -> g k = x :: f k -> (forall p, p <> k -> g p = f p) -> concat (map g l) ≡ₚ x :: concat (map f l).
Proof.
  intros Hl Hk Hgk Hg. induction Hl as [|p l Hp Hl IH]; [now apply elem_of_nil in Hk|]. cbn [map concat].
  apply elem_of_cons in Hk as [<-|Hk].
  - rewrite Hgk. cbn [app]. do 2 f_equiv. apply reflexive_eq. f_equal. apply map_ext_in. intros q Hq. apply Hg. intros ->. apply Hp. now apply list_elem_of_In.
  - rewrite Hg by (intros ->; contradiction). rewrite (IH Hk). symmetry. apply Permutation_middle.
Qed.

(** Together, the parts for the first [n] positions are the frame. *)
Lemma parts_complete n hs : forall frame, length hs = length frame -> Forall (fun h => 0 <= h < Z.of_nat n) hs ->
  concat (map (fun p => part p hs frame) (seq 0 n)) ≡ₚ frame.
Proof.
  induction hs as [|h hs IH]; intros [|bi frame] HL HF; try discriminate.
  { cbn [part]. induction (seq 0 n); [reflexivity|exact IHl]. }
  apply Forall_cons in HF as [Hh HF]. rewrite (concat_map_insert (fun p => part p hs frame) _ (Z.to_nat h) bi).
  - now rewrite IH by (try assumption; now injection HL).
  - rewrite NoDup_ListNoDup. apply seq_NoDup.
  - apply elem_of_seq. lia.
  - cbn [part]. now rewrite decide_True.
  - intros p Hp. cbn [part]. now rewrite decide_False by congruence.
Qed.

Lemma sent_concat active n (parts : nat -> list Z) :
  concat (map (fun f => map snd f.2) (sent active n (fun p => map (fun bi => (nth p active 0, bi)) (parts p)))) = concat (map parts (seq 0 n)).
Proof.
  unfold sent. generalize (seq 0 n) as l. induction l as [|p l IH]; [reflexivity|]. cbn [omap list_omap map concat]. rewrite <- IH.
  destruct (parts p) as [|x q]; [reflexivity|]. cbn. do 2 f_equal. rewrite map_map. apply map_id.
Qed.

(** The copies for a position. *)
Lemma queue_copies copy active frame p : (p < length active)%nat ->
  queue_of p (concat (map (copy_writes copy active) frame)) =
  if decide (p = 0%nat) then [] else map (fun c => (nth p active 0, c)) (omap (fun bi => copy bi p) frame).
Proof.
  intros Hp. assert (forall bi, queue_of p (copy_writes copy active bi) =
    if decide (p = 0%nat) then [] else match copy bi p with Some c => [(nth p active 0, c)] | None => [] end) as H1.
  { intros bi. unfold copy_writes. assert (forall l : list nat, NoDup l ->
      queue_of p (omap (fun port => c ← copy bi port; Some (port, nth port active 0, c)) l) =
      if decide (p ∈ l) then match copy bi p with Some c => [(nth p active 0, c)] | None => [] end else []) as H.
    { induction 1 as [|k l Hk _ IH]; [reflexivity|]. cbn [omap list_omap]. destruct (decide (k = p)) as [->|Hne].
      - rewrite decide_False in IH by done. rewrite decide_True by left. destruct (copy bi p); cbn [mbind option_bind queue_of]; [rewrite decide_True by done; f_equal|]; exact IH.
      - transitivity (queue_of p (omap (fun port => c ← copy bi port; Some (port, nth port active 0, c)) l)).
        + destruct (copy bi k); cbn [mbind option_bind queue_of]; [now rewrite decide_False|reflexivity].
        + rewrite IH. destruct (decide (p ∈ l)); [rewrite decide_True by now right|rewrite decide_False; [|rewrite elem_of_cons; naive_solver]]; reflexivity. }
    rewrite H by (rewrite NoDup_ListNoDup; apply seq_NoDup). destruct (decide (p = 0%nat)) as [->|Hne].
    - now rewrite decide_False by (rewrite elem_of_seq; lia).
    - now rewrite decide_True by (rewrite elem_of_seq; lia). }
  induction frame as [|bi frame IH]; cbn [map concat queue_of omap list_omap]; [now destruct (decide _)|]. rewrite queue_of_app, H1, IH.
  destruct (decide _); [reflexivity|]. now destruct (copy bi p).
Qed.

Section Tx.
Variable qsort : list Z -> list Z.
Hypothesis Hqsort : forall l, qsort l ≡ₚ l.

Lemma reach_numa bm k b : bond_reach qsort bm -> pool_lookup (interfaces bm) k = Some b -> numa_ok (b_mode b =? BOND_MODE_LACP) b.
Proof. intros Hr Hb. exact (bk_numa _ _ _ (bi_bond _ _ (reach_ok qsort Hqsort bm Hr) _ _ Hb)). Qed.

(** *** What a run sends *)

Lemma spread_bounds active hs frame n :
  Forall (fun h => 0 <= h < Z.of_nat n) hs -> Forall (fun w => (w.1.1 < n)%nat) (spread_writes active hs frame).
Proof.
  intros HF. revert frame. induction HF as [|h hs Hh _ IH]; intros [|bi frame]; cbn [spread_writes zip_with]; constructor; [cbn; lia|apply IH].
Qed.

(** A mode other than broadcast: the packets are spread over the first [n] active members. *)
Lemma bond_tx_spread b en qs hash copy frame :
  numa_ok en b -> queues_ready b qs -> b_admin_up b = true -> b_active_members b <> [] -> b_lb b <> BOND_LB_BC \/ length (b_active_members b) = 1%nat ->
  exists n hs, (1 <= n <= length (b_active_members b))%nat /\ length hs = length frame /\ Forall (fun h => 0 <= h < Z.of_nat n) hs /\
    (bond_tx b qs hash copy frame).2 = (qs, sent (b_active_members b) n (fun p => map (fun bi => (nth p (b_active_members b) 0, bi)) (part p hs frame))).
Proof.
  intros Hnu Hrd Hup Hne Hbc. pose proof (spread_range b en Hnu Hne) as Hs.
  assert (forall n hs, (n <= length (b_active_members b))%nat -> Forall (fun h => 0 <= h < Z.of_nat n) hs ->
    bond_tx_done (b_active_members b) n (add_all qs (spread_writes (b_active_members b) hs frame)) =
    (qs, sent (b_active_members b) n (fun p => map (fun bi => (nth p (b_active_members b) 0, bi)) (part p hs frame)))) as Hdone.
  { intros n hs Hn HF. rewrite (bond_tx_sent b) by (try assumption; now apply spread_bounds). f_equal. apply sent_ext. intros p _. apply queue_spread. }
  assert (length (b_active_members b) <> 0%nat) as Hl by (destruct (b_active_members b); [easy|discriminate]).
  unfold bond_tx. rewrite Hup. cbn [negb]. cbv zeta. rewrite (proj2 (Z.eqb_neq (Z.of_nat (length (b_active_members b))) 0)) by lia.
  destruct (_ || _) eqn:Eab.
  { exists (length (b_active_members b)), (map (fun _ => 0) frame). rewrite length_map, Nat2Z.id. repeat split; [lia|lia| |].
    - apply Forall_forall. intros h Hh. apply list_elem_of_fmap in Hh as (? & -> & _). lia.
    - cbn [snd]. rewrite update_single, single_spread. apply Hdone; [lia|]. apply Forall_forall. intros h Hh. apply list_elem_of_fmap in Hh as (? & -> & _). lia. }
  apply orb_false_iff in Eab as [_ E1]. apply Z.eqb_neq in E1. destruct Hbc as [Hbc|Hbc]; [|lia]. rewrite (proj2 (Z.eqb_neq _ _) Hbc).
  fold (spread b). set (r := if b_lb b =? BOND_LB_RR then _ else _). assert (length r.2 = length frame) as HL.
  { unfold r. destruct (b_lb b =? BOND_LB_RR); [|apply length_map]. destruct (bond_tx_round_robin b (spread b) (length frame)) as [b2 hs] eqn:E.
    exact (proj1 (tx_round_robin_range (spread b) (length frame) (proj1 Hs) _ _ _ E)). }
  destruct r as [b2 hs]. cbn [snd] in *. exists (Z.to_nat (spread b)), (map (fun h => bond_hash_to_port (spread b) h (is_pow2 (spread b))) hs).
  assert (Forall (fun h => 0 <= h < Z.of_nat (Z.to_nat (spread b))) (map (fun h => bond_hash_to_port (spread b) h (is_pow2 (spread b))) hs)) as HF.
  { apply Forall_forall. intros h Hh. apply list_elem_of_fmap in Hh as (x & -> & _). rewrite hash_to_port_mod by lia. pose proof (Z.mod_pos_bound x (spread b)). lia. }
  repeat split; [lia|lia|now rewrite length_map|exact HF|]. rewrite update_spread. apply Hdone; [lia|exact HF].
Qed.

Lemma part_length p hs frame : (length (part p hs frame) <= length frame)%nat.
Proof. apply sublist_length, part_sublist. Qed.

(** Broadcast: the packets to the first member, copies to the others. *)
Lemma bond_tx_copies b qs hash copy frame :
  queues_ready b qs -> b_admin_up b = true -> (1 < length (b_active_members b))%nat -> b_lb b = BOND_LB_BC ->
  bond_tx b qs hash copy frame =
  (b, (qs, sent (b_active_members b) (length (b_active_members b)) (fun p =>
             map (fun bi => (nth p (b_active_members b) 0, bi)) (if decide (p = 0%nat) then frame else omap (fun bi => copy bi p) frame)))).
Proof.
  intros Hrd Hup Hlen Hbc. unfold bond_tx. rewrite Hup. cbn [negb]. cbv zeta.
  rewrite (proj2 (Z.eqb_neq (Z.of_nat (length (b_active_members b))) 0)), (proj2 (Z.eqb_neq (Z.of_nat (length (b_active_members b))) 1)) by lia.
  rewrite Hbc, Nat2Z.id. cbn [BOND_LB_BC BOND_LB_AB Z.eqb Pos.eqb orb]. f_equal. rewrite broadcast_all_writes, update_single, add_all_app, (bond_tx_sent b).
  - f_equal. apply sent_ext. intros p Hp. rewrite queue_of_app, queue_copies by lia. rewrite single_spread, queue_spread.
    destruct (decide (p = 0%nat)) as [->|Hne]; cbn [app].
    + f_equal. induction frame as [|bi frame IH]; [reflexivity|]. cbn. now f_equal.
    + assert (part p (map (fun _ => 0) frame) frame = []) as ->; [|apply app_nil_r].
      induction frame as [|bi frame IH]; [reflexivity|]. cbn. now destruct p.
  - exact Hrd.
  - lia.
  - apply Forall_app. split.
    + apply Forall_forall. intros w Hw. apply list_elem_of_In, in_concat in Hw as (l & Hl & Hw). apply in_map_iff in Hl as (bi & <- & _).
      apply list_elem_of_In, list_elem_of_omap in Hw as (port & Hport & E). apply elem_of_seq in Hport. destruct (copy bi port); [|discriminate]. injection E as <-. cbn. lia.
    + apply Forall_forall. intros w Hw. apply list_elem_of_fmap in Hw as (? & -> & _). cbn. lia.
Qed.

Lemma omap_length_le {A B} (f : A -> option B) (l : list A) : (length (omap f l) <= length l)%nat.
Proof. induction l as [|x l IH]; [reflexivity|]. cbn. change (list_omap A B f l) with (omap f l). destruct (f x); cbn [length]; lia. Qed.

(** What a member gets is part of what was written for its position. *)
Lemma sent_entries active n (parts : nat -> list Z) (m : nat) sw q :
  (n <= length active)%nat -> (forall p, (p < n)%nat -> (length (parts p) <= m)%nat) ->
  (sw, q) ∈ sent active n (fun p => map (fun bi => (nth p active 0, bi)) (parts p)) ->
  sw ∈ active /\ q <> [] /\ Forall (fun x => x.1 = sw) q /\ (length q <= m)%nat.
Proof.
  intros Hn Hm H. apply elem_of_sent in H as (p & Hp & -> & -> & Hne). rewrite length_map. repeat split; auto.
  - apply list_elem_of_In, nth_In. lia.
  - apply Forall_forall. intros x Hx. apply list_elem_of_fmap in Hx as (bi & -> & _). reflexivity.
Qed.

(** C10 Transmission on a bond of a reachable state, with queues that are empty and enough for the active
    members.  A frame is sent to active members only, with buffers marked for that member; no queue gets more
    buffers than the frame had, which is the size of its array; the queues are left as they were found.
    Unless the bond broadcasts, an active bond that is up sends every packet of the frame exactly once,
    and the packets that go to one member stay in order. *)
Theorem bond_tx_active_once bm k b qs hash copy frame :
  bond_reach qsort bm -> pool_lookup (interfaces bm) k = Some b -> queues_ready b qs ->
  let r := (bond_tx b qs hash copy frame).2 in
  r.1 = qs /\
  (forall sw q, (sw, q) ∈ r.2 -> sw ∈ b_active_members b /\ q <> [] /\ Forall (fun x => x.1 = sw) q /\ (length q <= length frame)%nat) /\
  (b_admin_up b = true -> b_active_members b <> [] -> b_lb b <> BOND_LB_BC ->
   concat (map (fun f => map snd f.2) r.2) ≡ₚ frame /\ Forall (fun f => map snd f.2 `sublist_of` frame) r.2).
Proof.
  intros Hr Hb Hrd. pose proof (reach_numa bm k b Hr Hb) as Hnu. cbv zeta.
  assert (b_admin_up b = false \/ b_active_members b = [] \/ (b_admin_up b = true /\ b_active_members b <> [])) as [Hd|[Hd|[Hup Hne]]].
  { destruct (b_admin_up b); [right|now left]. destruct (b_active_members b); [now left|now right]. }
  1-2: assert ((bond_tx b qs hash copy frame).2 = (qs, [])) as -> by (unfold bond_tx; rewrite Hd; now destruct (b_admin_up b)).
  1-2: split; [reflexivity|]; split; [intros sw q Hin; now apply elem_of_nil in Hin|congruence].
  destruct (decide (b_lb b <> BOND_LB_BC \/ length (b_active_members b) = 1%nat)) as [Hbc|Hbc].
  - destruct (bond_tx_spread b _ qs hash copy frame Hnu Hrd Hup Hne Hbc) as (n & hs & Hn & HL & HF & ->). cbn [fst snd].
    split; [reflexivity|]. split; [intros sw q; apply sent_entries; [lia|]; intros p _; apply part_length|]. intros _ _ _. split.
    + rewrite sent_concat. now apply parts_complete.
    + apply Forall_forall. intros [sw q] Hin. apply elem_of_sent in Hin as (p & _ & _ & -> & _). cbn. rewrite map_map. cbn. rewrite map_id. apply part_sublist.
  - assert (b_lb b = BOND_LB_BC) as Elb by (destruct (decide (b_lb b = BOND_LB_BC)); [assumption|exfalso; apply Hbc; now left]).
    assert (length (b_active_members b) <> 1%nat) as Hl by (intros E; apply Hbc; now right).
    rewrite bond_tx_copies; try assumption; [|destruct (b_active_members b) as [|? [|? ?]]; [easy|easy|cbn; lia]]. cbn [fst snd].
    split; [reflexivity|]. split; [|congruence]. intros sw q. apply sent_entries; [lia|]. intros p _. destruct (decide _); [lia|]. apply omap_length_le.
Qed.

(** C11 A bond with a hash policy and several active members sends to the member at position p, in order, the
    packets whose hash modulo the number of members it spreads over (those of the local NUMA node if there
    are any) is p: masking with a power of two, which the code prefers, is the same as the remainder. *)
Theorem bond_tx_by_hash bm k b qs hash copy frame :
  bond_reach qsort bm -> pool_lookup (interfaces bm) k = Some b -> queues_ready b qs -> b_admin_up b = true ->
  (1 < length (b_active_members b))%nat -> 0 <= b_lb b <= BOND_LB_L23 ->
  bond_tx b qs hash copy frame =
  (b, (qs, sent (b_active_members b) (Z.to_nat (spread b)) (fun p =>
             map (fun bi => (nth p (b_active_members b) 0, bi)) (filter (fun bi => Z.to_nat (hash bi mod spread b) = p) frame)))) /\
  1 <= spread b <= Z.of_nat (length (b_active_members b)).
Proof.
  intros Hr Hb Hrd Hup Hlen Hlb. pose proof (reach_numa bm k b Hr Hb) as Hnu.
  assert (b_active_members b <> []) as Hne by (intros E; rewrite E in Hlen; cbn in Hlen; lia).
  pose proof (spread_range b _ Hnu Hne) as Hs. split; [|exact Hs]. unfold BOND_LB_L23 in Hlb. unfold bond_tx. rewrite Hup. cbn [negb]. cbv zeta.
  rewrite (proj2 (Z.eqb_neq (Z.of_nat (length (b_active_members b))) 0)), (proj2 (Z.eqb_neq (Z.of_nat (length (b_active_members b))) 1)) by lia.
  unfold BOND_LB_AB, BOND_LB_BC, BOND_LB_RR. rewrite (proj2 (Z.eqb_neq (b_lb b) 5)), (proj2 (Z.eqb_neq (b_lb b) 4)), (proj2 (Z.eqb_neq (b_lb b) 3)) by lia.
  cbn [orb]. fold (spread b). f_equal. rewrite update_spread, (bond_tx_sent b); [|exact Hrd|lia|].
  - f_equal. apply sent_ext. intros p _. rewrite queue_spread. f_equal. clear -Hs. induction frame as [|bi frame IH]; [reflexivity|]. cbn [map part].
    rewrite hash_to_port_mod, filter_cons by lia. rewrite IH. reflexivity.
  - apply spread_bounds, Forall_forall. intros h Hh. apply list_elem_of_fmap in Hh as (x & -> & _). rewrite hash_to_port_mod by lia.
    pose proof (Z.mod_pos_bound x (spread b)). lia.
Qed.

(** A bond that broadcasts sends the frame itself to the first of its active members and to every other one
    the copies that could be allocated, one of each packet, in order. *)
Theorem bond_tx_broadcast b qs hash copy frame :
  queues_ready b qs -> b_admin_up b = true -> (1 < length (b_active_members b))%nat -> b_lb b = BOND_LB_BC ->
  bond_tx b qs hash copy frame =
  (b, (qs, sent (b_active_members b) (length (b_active_members b)) (fun p =>
             map (fun bi => (nth p (b_active_members b) 0, bi)) (if decide (p = 0%nat) then frame else omap (fun bi => copy bi p) frame)))).
Proof. apply bond_tx_copies. Qed.

End Tx.

(** Adding a member leaves the queues ready: active members are members, each once. *)
Lemma validate_queues_ready b qs :
  NoDup (b_active_members b) -> b_active_members b ⊆ b_members b -> queues_ready b (bond_validate_queues b qs).
Proof.
  intros Hnd Hsub. split; [now apply Forall_replicate|]. unfold bond_validate_queues. rewrite length_replicate.
  pose proof (submseteq_length _ _ (NoDup_submseteq _ _ Hnd Hsub)). lia.
Qed.

Lemma example_queues_ready : queues_ready (bif_at example_xor 0) [[]; []].
Proof. split; [repeat constructor|]. apply Nat.leb_le. vm_compute. reflexivity. Qed.

Lemma bond_tx_active_once_witness :
  concat (map (fun f => map snd f.2) (bond_tx (bif_at example_xor 0) [[]; []] (fun p => p) (fun _ _ => None) [7; 8; 9]).2.2) ≡ₚ [7; 8; 9].
Proof.
  apply (bond_tx_active_once example_sort example_sort_perm example_xor 0 (bif_at example_xor 0) [[]; []] (fun p => p) (fun _ _ => None) [7; 8; 9] example_xor_reach);
    [vm_compute; reflexivity|exact example_queues_ready|vm_compute; reflexivity|vm_compute; discriminate|vm_compute; discriminate].
Defined.

Lemma bond_tx_by_hash_witness :
  bond_tx (bif_at example_xor 0) [[]; []] (fun p => p) (fun _ _ => None) [7; 8; 9] =
  (bif_at example_xor 0, ([[]; []], [(1, [(1, 8)]); (2, [(2, 7); (2, 9)])])).
Proof.
  destruct (bond_tx_by_hash example_sort example_sort_perm example_xor 0 (bif_at example_xor 0) [[]; []] (fun p => p) (fun _ _ => None) [7; 8; 9] example_xor_reach)
    as [E _]; [vm_compute; reflexivity|exact example_queues_ready|vm_compute; reflexivity|apply Nat.ltb_lt; vm_compute; reflexivity|vm_compute; split; discriminate|].
  rewrite E. vm_compute. reflexivity.
Defined.

Lemma bond_tx_broadcast_witness :
  let b := bif_zero <| b_admin_up := true |> <| b_mode := BOND_MODE_BROADCAST |> <| b_lb := BOND_LB_BC |> <| b_active_members := [1; 2] |> in
  (bond_tx b [[]; []] (fun p => p) (fun bi port => if bi =? 8 then None else Some (100 + bi)) [7; 8]).2 = ([[]; []], [(1, [(1, 7); (1, 8)]); (2, [(2, 107)])]).
Proof.
  intros b. rewrite (bond_tx_broadcast b [[]; []] (fun p => p) (fun bi port => if bi =? 8 then None else Some (100 + bi)) [7; 8]);
    [vm_compute; reflexivity|split; [repeat constructor|cbn; lia]|reflexivity|cbn; lia|reflexivity].
Defined.

(** [bond_disable_collecting_distributing] moves the last active member into the gap.  Of two local members 1
    and 2 and a remote member 3, when 1 leaves the first position is the remote member's, and all traffic
    goes there although 2 is local. *)
Example numa_order_lost :
  let b := bif_zero <| b_admin_up := true |> <| b_mode := BOND_MODE_LACP |> <| b_lb := BOND_LB_L34 |> <| b_numa_only := true |>
             <| b_active_members := [1; 2; 3] |> <| b_n_numa_members := 2 |> in
  let m := mif_zero <| m_sw_if_index := 1 |> <| m_lacp_enabled := true |> in
  let b' := c_bif (bond_disable_collecting_distributing (mk_ctx m b [])) in
  b_active_members b' = [3; 2] /\ b_n_numa_members b' = 1 /\ (bond_tx b' [[]; []; []] (fun p => p) (fun _ _ => None) [7; 8]).2.2 = [(3, [(3, 7); (3, 8)])].
Proof. vm_compute. auto. Qed.
