(* ===== verification/LacpPdu.v ===== *)
(** * LACP: frames, tables and input

    The tables of the machines have an entry for every state and event; what a port
    sends is what its partner reads; packets that are refused leave the machines
    alone, and a packet that is taken is recorded. *)

From stdpp Require Import gmap.
From S2P Require Import Prelude NetTypes Pool BondTypes Bond Lacp LacpMux LacpInv LacpRx BondInv LacpProps LacpLive.

(** ** Tables *)

(** The tables of the four machines have an entry for every state and event, so that a dispatch never
    reads outside of them; in the mux machine every entry runs the action of the state it enters. *)
Theorem fsm_tables_total :
  (forall s e, is_Some (fsm_entry lacp_rx_fsm_table (rx_state_num s) (rx_event_num e))) /\
  (forall s e, is_Some (fsm_entry lacp_tx_fsm_table (tx_state_num s) (tx_event_num e))) /\
  (forall s e, is_Some (fsm_entry lacp_ptx_fsm_table (ptx_state_num s) (ptx_event_num e))) /\
  (forall s e, exists a, fsm_entry lacp_mux_fsm_table (mux_state_num s) (mux_event_num e) = Some (Some a, mux_state_of a)).
Proof.
  split; [|split; [|split]]; intros [] []; try (eexists; reflexivity);
    first [exists ACT_DETACHED; reflexivity | exists ACT_WAITING; reflexivity | exists ACT_ATTACHED; reflexivity
          | exists ACT_COLLECTING_DISTRIBUTING; reflexivity].
Qed.

(** ** Frames *)

(** The widths of the fields. *)
Record port_info_wf (p : lacp_port_info_t) : Prop := {
  wf_system_priority : 0 <= pi_system_priority p < 2 ^ 16;
  wf_system : length (pi_system p) = 6%nat;
  wf_key : 0 <= pi_key p < 2 ^ 16;
  wf_port_priority : 0 <= pi_port_priority p < 2 ^ 16;
  wf_port_number : 0 <= pi_port_number p < 2 ^ 16
}.

Lemma u16_bytes x : x mod 256 + 256 * (x / 256) = x.
Proof. pose proof (Z.div_mod x 256 ltac:(lia)). lia. Qed.

Lemma port_info_bytes_length p : port_info_wf p -> length (port_info_bytes p) = 15%nat.
Proof. intros [_ H _ _ _]. unfold port_info_bytes. rewrite !length_app, H. reflexivity. Qed.

Lemma get_u8_drop (pre l : list Z) n : get_u8 (pre ++ l) (length pre + n) = get_u8 l n.
Proof. unfold get_u8. now rewrite app_nth2_plus. Qed.

(** A port information in the middle of a packet. *)
Lemma port_info_at_bytes pre p l : port_info_wf p -> port_info_at (pre ++ port_info_bytes p ++ l) (length pre) = p.
Proof.
  intros [_ H _ _ _]. destruct p as [sp sys key pp pn st]. cbn in H. unfold port_info_at, get_u16.
  rewrite <- !Nat.add_succ_r, <- (Nat.add_1_r (length pre)). rewrite <- (Nat.add_0_r (length pre)) at 1. rewrite !get_u8_drop, drop_app_add.
  destruct sys as [|s0 [|s1 [|s2 [|s3 [|s4 [|s5 [|]]]]]]]; try discriminate. unfold port_info_bytes, put_u16, get_u8. cbn -[Z.mul Z.div Z.modulo Z.add].
  now rewrite !u16_bytes.
Qed.

(** C9 Round trip: the LACPDU that a port fills in with its own and its partner's information has the size of
    an LACPDU, is accepted by the receiver's scan, and is read back as the same actor and partner. *)
Theorem lacp_pdu_roundtrip a p :
  port_info_wf a -> port_info_wf p ->
  length (lacp_fill_pdu a p) = SIZEOF_LACP_PDU /\ lacpdu_actor (lacp_fill_pdu a p) = a /\ lacpdu_partner (lacp_fill_pdu a p) = p /\
  (forall env qsort mi bm, m_last_rx_pkt (mif_at bm mi) = lacp_fill_pdu a p ->
     lacp_packet_scan env qsort mi bm = rx_run env qsort mi RX_PDU_RECEIVED bm).
Proof.
  intros Ha Hp. pose proof (port_info_bytes_length a Ha) as La. pose proof (port_info_bytes_length p Hp) as Lp.
  set (tail1 := [0; 0; 0] ++ [2; 20] ++ port_info_bytes p ++ [0; 0; 0] ++ ([3; 16; 0; 0] ++ repeat 0 12) ++ [0; 0] ++ repeat 0 50).
  set (tail2 := [0; 0; 0] ++ ([3; 16; 0; 0] ++ repeat 0 12) ++ [0; 0] ++ repeat 0 50).
  set (pre2 := [1; 1; 1; 20] ++ port_info_bytes a ++ [0; 0; 0; 2; 20]).
  assert (lacp_fill_pdu a p = [1; 1; 1; 20] ++ port_info_bytes a ++ tail1) as E1 by (unfold lacp_fill_pdu, tail1; now rewrite <- !app_assoc).
  assert (lacp_fill_pdu a p = pre2 ++ port_info_bytes p ++ tail2) as E2 by (unfold lacp_fill_pdu, tail2, pre2; now rewrite <- !app_assoc).
  assert (length pre2 = 24%nat) as L2 by (unfold pre2; rewrite !length_app, La; reflexivity).
  split; [rewrite E2, !length_app, L2, Lp; reflexivity|]. split; [rewrite E1; exact (port_info_at_bytes [1; 1; 1; 20] a tail1 Ha)|].
  split; [rewrite E2; unfold lacpdu_partner; rewrite <- L2; exact (port_info_at_bytes pre2 p tail2 Hp)|].
  intros env qsort mi bm Em. unfold lacp_packet_scan. rewrite Em. cbv zeta.
  assert (lacpdu_subtype (lacp_fill_pdu a p) = 1 /\ lacpdu_actor_tlv_length (lacp_fill_pdu a p) = 20) as [-> ->] by (rewrite E1; now split).
  assert (lacpdu_partner_tlv_length (lacp_fill_pdu a p) = 20) as ->.
  { rewrite E1. change ([1; 1; 1; 20] ++ port_info_bytes a ++ tail1) with ([1; 1; 1; 20] ++ (port_info_bytes a ++ tail1)). rewrite app_assoc. unfold lacpdu_partner_tlv_length.
    change 23%nat with (19 + 4)%nat. replace 19%nat with (length ([1; 1; 1; 20] ++ port_info_bytes a)) by (rewrite length_app, La; reflexivity). apply get_u8_drop. }
  assert (forall n, get_u8 (lacp_fill_pdu a p) (39 + n) = get_u8 tail2 n) as Ht.
  { intros n. rewrite E2, app_assoc. replace 39%nat with (length (pre2 ++ port_info_bytes p)) by (rewrite length_app, L2, Lp; reflexivity). apply get_u8_drop. }
  assert (lacpdu_collector_tlv_length (lacp_fill_pdu a p) = 16) as -> by exact (Ht 4%nat).
  assert (lacpdu_terminator_tlv_length (lacp_fill_pdu a p) = 0) as -> by exact (Ht 20%nat). reflexivity.
Qed.

(** ** Input *)

Lemma set_mif_set bm mi m1 m2 : set_mif (set_mif bm mi m1) mi m2 = set_mif bm mi m2.
Proof. unfold set_mif. cbn. now rewrite pool_write_write. Qed.

Lemma mif_at_set bm mi m m1 : live_mif bm mi m -> mif_at (set_mif bm mi m1) mi = m1.
Proof. intros H. apply live_mif_at. unfold live_mif. cbn. now rewrite (pool_write_lookup _ _ _ _ _ H), decide_True. Qed.

(** The scan of a packet, as [lacp_packet_scan] does it before the receive machine. *)
Definition scan_error (data : list Z) : option lacp_error_t :=
  if negb (lacpdu_subtype data =? 1) then Some LACP_ERROR_UNSUPPORTED
  else if negb (lacpdu_actor_tlv_length data =? 20) || negb (lacpdu_partner_tlv_length data =? 20) ||
          negb (lacpdu_collector_tlv_length data =? 16) || negb (lacpdu_terminator_tlv_length data =? 0)
  then Some LACP_ERROR_BAD_TLV else None.

Lemma packet_scan_error env qsort mi bm :
  lacp_packet_scan env qsort mi bm =
  match scan_error (m_last_rx_pkt (mif_at bm mi)) with Some e => Some (bm, e) | None => rx_run env qsort mi RX_PDU_RECEIVED bm end.
Proof. unfold lacp_packet_scan, scan_error. cbv zeta. destruct (negb _); [reflexivity|]. now destruct (_ || _). Qed.

Section Input.
Variable env : bond_env.
Variable qsort : list Z -> list Z.

(** The same packet as before on a port in steady state is not looked at. *)
Definition is_cached (m : member_if_t) (data : list Z) : bool :=
  m_last_packet_signature_valid m && (m_last_packet_signature m =? e_hash_memory env data) &&
  (Z.land (pi_state (m_actor m)) LACP_STEADY_STATE =? LACP_STEADY_STATE).

(** What [lacp_input] notes of a packet of the right size. *)
Definition note_packet (m : member_if_t) (data : list Z) : member_if_t :=
  m <| m_last_rx_pkt := [] |> <| m_last_lacpdu_recd_time := e_now env |> <| m_last_packet_signature_valid := true |>
    <| m_last_packet_signature := e_hash_memory env data |> <| m_pdu_received := u64 (m_pdu_received m + 1) |>.

(** Errors of the input: a packet on an interface that is no LACP member changes nothing; one that is too
    short is counted and kept, and nothing else changes; one of another subtype or with wrong TLV lengths
    is counted and its signature noted, and nothing else changes - no machine runs, no timer is started. *)
Theorem lacp_input_refused sw data bm :
  (member_by_sw_if_index bm !! sw = None -> lacp_input env qsort sw data bm = Some (bm, LACP_ERROR_DISABLED)) /\
  forall mi m, member_by_sw_if_index bm !! sw = Some mi -> pool_lookup (neighbors bm) mi = Some m ->
    (m_mode m <> BOND_MODE_LACP -> lacp_input env qsort sw data bm = Some (bm, LACP_ERROR_DISABLED)) /\
    (m_mode m = BOND_MODE_LACP -> get_u8 data 0 <> 2 ->
       ((length data < SIZEOF_LACP_PDU)%nat ->
          lacp_input env qsort sw data bm =
          Some (set_mif bm mi (m <| m_last_rx_pkt := data |> <| m_last_lacpdu_recd_time := e_now env |>
                                 <| m_bad_pdu_received := u64 (m_bad_pdu_received m + 1) |>), LACP_ERROR_TOO_SMALL)) /\
       (forall e, (SIZEOF_LACP_PDU <= length data)%nat -> is_cached m data = false -> scan_error data = Some e ->
          lacp_input env qsort sw data bm = Some (set_mif bm mi (note_packet m data), e))).
Proof.
  unfold lacp_input, bond_get_member_by_sw_if_index. split; [now intros ->|]. intros mi m -> Hm. rewrite (live_mif_at _ _ _ Hm). split.
  - intros Hl. apply Z.eqb_neq in Hl. now rewrite Hl.
  - intros Hl Hsub. rewrite Hl. cbn [Z.eqb negb Pos.eqb BOND_MODE_LACP]. apply Z.eqb_neq in Hsub. rewrite Hsub. split; [intros Hlen; now rewrite (proj2 (Nat.ltb_lt _ _) Hlen)|].
    intros e Hlen Hc Hscan. rewrite (proj2 (Nat.ltb_ge _ _) Hlen). unfold lacp_input_pdu. rewrite (mif_at_set _ _ _ _ Hm). cbv zeta.
    set (m1 := m <| m_last_rx_pkt := data |> <| m_last_lacpdu_recd_time := _ |>). change (m_last_rx_pkt m1) with data.
    change (m_last_packet_signature_valid m1 && (m_last_packet_signature m1 =? e_hash_memory env data) &&
      (Z.land (pi_state (m_actor m1)) LACP_STEADY_STATE =? LACP_STEADY_STATE)) with (is_cached m data). rewrite Hc.
    rewrite packet_scan_error, (mif_at_set _ _ _ _ Hm). change (m_last_rx_pkt m1) with data. rewrite Hscan. cbn [mbind option_bind].
    rewrite !(mif_at_set _ _ _ _ Hm), !set_mif_set, (mif_at_set _ _ _ _ Hm). reflexivity.
Qed.

Hypothesis Hqsort : forall l, qsort l ≡ₚ l.

(** ** A packet that is taken *)

Definition kept (m : member_if_t) : lacp_port_info_t * Z * list Z * Z := (heard m, m_ttl_in_seconds m).

Lemma unselect_keeps p c : mux_ok c ->
  exists c', unselect_unless_partner env qsort p c = Some c' /\ ctx_rel c c' /\ kept (c_mif c') = kept (c_mif c).
Proof.
  intros H. unfold unselect_unless_partner. cbv zeta. destruct (_ || _); [|exists c; split; [reflexivity|]; split; [now apply ctx_rel_refl|reflexivity]].
  unfold lacp_set_port_unselected. set (c1 := set_selected LACP_PORT_UNSELECTED c).
  assert (ctx_rel c c1) as H1 by (apply rel_mif; [intros ?; repeat split; intros; reflexivity|exact H]).
  assert (exists c', mux_run env qsort MUX_UNSELECTED c1 = Some c' /\ ctx_rel c c' /\ kept (c_mif c') = kept (c_mif c)) as Hrun.
  { destruct (mux_terminates env qsort Hqsort MUX_UNSELECTED c1 (cr_ok _ _ H1)) as (c' & E & F & K & _). exists c'. split; [exact E|].
    split; [exact (ctx_rel_trans _ _ _ H1 (mux_frame_rel _ _ F K))|exact (f_equal kept (mx_mif _ _ F))]. }
  assert (exists c', Some c1 = Some c' /\ ctx_rel c c' /\ kept (c_mif c') = kept (c_mif c)) as Hstay by (now exists c1).
  cbv zeta. destruct (m_mux_state (c_mif c1)); [exact Hrun|exact Hrun|exact Hstay|]. destruct (partner_has _ c1); [exact Hstay|exact Hrun].
Qed.

Lemma clear_set f p : pi_clear f (pi_set f p) = pi_clear f p.
Proof.
  unfold pi_clear, pi_set. cbn [pi_state set_field]. replace (Z.ldiff (Z.lor (pi_state p) f) f) with (Z.ldiff (pi_state p) f); [reflexivity|].
  apply Z.bits_inj'. intros i _. rewrite !Z.ldiff_spec, Z.lor_spec. now destruct (Z.testbit (pi_state p) i), (Z.testbit f i).
Qed.

Lemma clear_clear f p : pi_clear f (pi_clear f p) = pi_clear f p.
Proof.
  unfold pi_clear. cbn [pi_state set_field]. replace (Z.ldiff (Z.ldiff (pi_state p) f) f) with (Z.ldiff (pi_state p) f); [reflexivity|].
  apply Z.bits_inj'. intros i _. rewrite !Z.ldiff_spec. now destruct (Z.testbit (pi_state p) i), (Z.testbit f i).
Qed.

(** The partner is recorded, up to the synchronization bit. *)
Record recorded (data : list Z) (ttl : Z) (m : member_if_t) : Prop := {
  re_partner : pi_clear LACP_STATE_SYNCHRONIZATION (m_partner m) = pi_clear LACP_STATE_SYNCHRONIZATION (lacpdu_actor data);
  re_packet : m_last_rx_pkt m = data;
  re_ttl : m_ttl_in_seconds m = ttl
}.

Lemma record_pdu_records data ttl c : mux_ok c -> m_last_rx_pkt (c_mif c) = data -> m_ttl_in_seconds (c_mif c) = ttl ->
  exists c', lacp_record_pdu env (lacp_update_ntt env c) = Some c' /\ ctx_rel c c' /\ recorded data ttl (c_mif c').
Proof.
  intros H Ed Et. pose proof (update_ntt_rel env c H) as R1.
  assert (kept (c_mif (lacp_update_ntt env c)) = kept (c_mif c)) as K1 by (unfold lacp_update_ntt; cbv zeta; now destruct (_ || _)).
  set (c1 := lacp_update_ntt env c) in *. clearbody c1. unfold lacp_record_pdu. pose proof K1 as [= _ _ Ep Ettl]. unfold rx_pdu. rewrite Ep, Ed. cbv zeta.
  assert (exists c2, (if negb (partner_has LACP_STATE_LACP_ACTIVITY c1) && has (pi_state (lacpdu_actor data)) LACP_STATE_LACP_ACTIVITY
    then lacp_ptx_post_short_timeout_event (ptx_run env) c1 else Some c1) = Some c2 /\ ctx_rel c1 c2 /\ kept (c_mif c2) = kept (c_mif c1)) as (c2 & E2 & R2 & K2).
  { pose proof (cr_ok _ _ R1) as H1. assert (exists c2, Some c1 = Some c2 /\ ctx_rel c1 c2 /\ kept (c_mif c2) = kept (c_mif c1)) as Hstay
      by (exists c1; split; [reflexivity|]; split; [now apply ctx_rel_refl|reflexivity]).
    destruct (_ && _); [|exact Hstay]. unfold lacp_ptx_post_short_timeout_event. destruct (_ && _ && _); [|exact Hstay].
    destruct (ptx_terminates env PTX_SHORT_TIMEOUT c1) as (c2 & E & P). exists c2. split; [exact E|]. split; [exact (ptx_rel _ _ P H1)|].
    exact (f_equal kept (mx_mif _ _ (proj1 P))). }
  rewrite E2. cbn [mbind option_bind]. eexists. split; [reflexivity|]. pose proof (ctx_rel_trans _ _ _ R1 R2) as R12. pose proof K2 as [= _ _ Ep2 Ettl2].
  set (c3 := on_mif _ c2). assert (ctx_rel c2 c3) as R3 by (apply rel_mif; [intros ?; repeat split; intros; reflexivity|exact (cr_ok _ _ R2)]).
  pose proof (actor_clear_rel LACP_STATE_DEFAULTED c3 eq_refl (cr_ok _ _ R3)) as R4.
  split; [exact (ctx_rel_trans _ _ _ R12 (ctx_rel_trans _ _ _ R3 (ctx_rel_trans _ _ _ R4 (on_partner_rel _ _ (cr_ok _ _ R4)))))|].
  split; [|change (m_last_rx_pkt (c_mif c2) = data); congruence|change (m_ttl_in_seconds (c_mif c2) = ttl); congruence].
  destruct (lacp_compare_partner c2 && _); [exact (clear_set _ (lacpdu_actor data))|exact (clear_clear _ (lacpdu_actor data))].
Qed.

Lemma current_records mi n data ttl bm m :
  at_port mi bm m -> m_rx_state m = RX_CURRENT -> m_last_rx_pkt m = data -> m_ttl_in_seconds m = ttl ->
  act_ends env qsort mi (S n) ACT_CURRENT bm m (fun m' => m_rx_state m' = RX_CURRENT /\ m_current_while_timer m' = e_now env + 1000 * u8 ttl /\
    pi_clear LACP_STATE_SYNCHRONIZATION (m_partner m') = pi_clear LACP_STATE_SYNCHRONIZATION (lacpdu_actor data)).
Proof.
  intros Hat Es Ed Et. unfold act_ends. cbn [rx_action]. unfold lacp_rx_action_current.
  eapply (ends_bind mi _ _ _ _ _ _ (fun m' => kept m' = kept m /\ m_rx_state m' = RX_CURRENT)); [exact Hat|apply ends_run_spec; [exact Hat|]|].
  { intros c Ec Hc. destruct (unselect_keeps (lacpdu_actor (rx_pdu c)) c Hc) as (c' & E & R & K). exists c'. split; [exact E|]. split; [exact R|].
    pose proof (cr_rx _ _ R) as [= S _]. split; congruence. }
  intros bm1 m1 Hat1 _ [[= _ _ K1 K2] S1].
  eapply (ends_bind mi _ _ _ _ _ _ (fun m' => recorded data ttl m' /\ m_rx_state m' = RX_CURRENT)); [exact Hat1|apply ends_run_spec; [exact Hat1|]|].
  { intros c Ec Hc. destruct (record_pdu_records data ttl c Hc) as (c' & E & R & K); [congruence|congruence|]. exists c'. split; [exact E|]. split; [exact R|].
    pose proof (cr_rx _ _ R) as [= S _]. split; [exact K|congruence]. }
  intros bm2 m2 Hat2 _ [[R1 R2 R3] S2].
  set (Q := fun m' => m_rx_state m' = RX_CURRENT /\ m_current_while_timer m' = e_now env + 1000 * u8 ttl /\
    pi_clear LACP_STATE_SYNCHRONIZATION (m_partner m') = pi_clear LACP_STATE_SYNCHRONIZATION (lacpdu_actor data)).
  eapply (ends_bind mi _ _ _ _ _ _ Q); [exact Hat2|apply ends_run_spec; [exact Hat2|]|].
  { intros c Ec Hc. eexists. split; [reflexivity|]. split.
    - pose proof (rel_mif (fun m => m <| m_current_while_timer := e_now env + 1000 * u8 (m_ttl_in_seconds m) |>) c ltac:(intros ?; repeat split; intros; reflexivity) Hc) as Hr.
      apply (ctx_rel_trans _ _ _ Hr), actor_clear_rel; [reflexivity|exact (cr_ok _ _ Hr)].
    - rewrite <- Ec in R1, R3, S2. split; [exact S2|]. split; [|exact R1]. rewrite <- R3. reflexivity. }
  intros bm3 m3 Hat3 _ Q3. eapply (ends_bind mi (fun x => x) _ _ _ _ _ Q); [exact Hat3| |].
  - destruct (lacp_port_is_moved mi bm3); [|now apply (ends_ret mi (fun x => x))]. unfold lacp_set_port_moved. cbv zeta.
    rewrite (live_mif_at _ _ _ (ap_live _ _ _ Hat3)). set (m4 := m3 <| m_port_moved := true |>).
    assert (moves mi bm3 m3 (set_mif bm3 mi m4) m4) as M4 by (now apply set_ends).
    apply (ends_from _ _ _ _ _ _ _ _ M4), post_ends. destruct Q3 as (Q31 & Q32 & Q33). apply (rx_ignored _ _ _ _ _ _ _ RX_CURRENT); [exact (at_port_moves _ _ _ _ _ Hat3 M4)| |now repeat split].
    change (m_rx_state m4) with (m_rx_state m3). now rewrite Q31.
  - intros bm4 m4 Hat4 _ (Q1 & Q2 & Q4). destruct Hat4 as [A1 A2 A3]. destruct (selection_moves env qsort Hqsort mi bm4 m4 A1 A2 A3) as (bm5 & m5 & e & E & M & [= S _] & [= H1 H2 H3] & _).
    exists (bm5, e), m5. split; [exact E|]. split; [exact M|]. unfold Q. rewrite S, H2, H1. now repeat split.
Qed.

(** A well-formed LACPDU that a port in state [RX_EXPIRED], [RX_DEFAULTED] or [RX_CURRENT] receives, and that
    is not a repetition in steady state, takes it to [RX_CURRENT]: the actor of the PDU is recorded as the
    partner (the synchronization bit apart, which says whether the partner agrees), and the timeout starts
    again. *)
Theorem lacp_input_records_partner sw data bm mi m :
  bond_reach qsort bm -> member_by_sw_if_index bm !! sw = Some mi -> pool_lookup (neighbors bm) mi = Some m -> m_mode m = BOND_MODE_LACP ->
  m_rx_state m = RX_EXPIRED \/ m_rx_state m = RX_DEFAULTED \/ m_rx_state m = RX_CURRENT ->
  get_u8 data 0 <> 2 -> (SIZEOF_LACP_PDU <= length data)%nat -> is_cached m data = false -> scan_error data = None ->
  exists bm' m' e, lacp_input env qsort sw data bm = Some (bm', e) /\ pool_lookup (neighbors bm') mi = Some m' /\ m_rx_state m' = RX_CURRENT /\
    pi_clear LACP_STATE_SYNCHRONIZATION (m_partner m') = pi_clear LACP_STATE_SYNCHRONIZATION (lacpdu_actor data) /\
    m_current_while_timer m' = e_now env + 1000 * u8 (m_ttl_in_seconds m) /\ m_last_rx_pkt m' = [].
Proof.
  intros Hr Ei Hm Hl Hst Hsub Hlen Hc Hscan. pose proof (reach_ok qsort Hqsort bm Hr) as H. unfold lacp_input, bond_get_member_by_sw_if_index.
  rewrite Ei, (live_mif_at _ _ _ Hm), Hl. cbn [Z.eqb negb Pos.eqb BOND_MODE_LACP]. apply Z.eqb_neq in Hsub. rewrite Hsub, (proj2 (Nat.ltb_ge _ _) Hlen).
  set (m1 := m <| m_last_rx_pkt := data |> <| m_last_lacpdu_recd_time := _ |>). assert (at_port mi bm m) as Hat by (now split).
  assert (moves mi bm m (set_mif bm mi m1) m1) as M1 by (now apply set_ends). pose proof (at_port_moves _ _ _ _ _ Hat M1) as Hat1.
  unfold lacp_input_pdu. rewrite (mif_at_set _ _ _ _ Hm). cbv zeta. change (m_last_rx_pkt m1) with data.
  change (m_last_packet_signature_valid m1 && (m_last_packet_signature m1 =? e_hash_memory env data) &&
    (Z.land (pi_state (m_actor m1)) LACP_STEADY_STATE =? LACP_STEADY_STATE)) with (is_cached m data). rewrite Hc.
  rewrite packet_scan_error, (mif_at_set _ _ _ _ Hm). change (m_last_rx_pkt m1) with data. rewrite Hscan.
  assert (ends mi fst (rx_run env qsort mi RX_PDU_RECEIVED (set_mif bm mi m1)) (set_mif bm mi m1) m1 (fun m' => m_rx_state m' = RX_CURRENT /\
    m_current_while_timer m' = e_now env + 1000 * u8 (m_ttl_in_seconds m) /\
    pi_clear LACP_STATE_SYNCHRONIZATION (m_partner m') = pi_clear LACP_STATE_SYNCHRONIZATION (lacpdu_actor data))) as ([bm2 e] & m2 & E2 & M2 & Q1 & Q2 & Q3).
  { apply (rx_acts env qsort mi _ RX_PDU_RECEIVED _ _ ACT_CURRENT RX_CURRENT); [exact Hat1|now destruct Hst as [Es|[Es|Es]]; change (m_rx_state m1) with (m_rx_state m); rewrite Es|].
    intros bm' Hat'. now apply current_records. }
  rewrite E2. cbn [mbind option_bind fst] in *. pose proof (mv_live _ _ _ _ _ M2) as Hm2. rewrite !(live_mif_at _ _ _ Hm2), (mif_at_set _ _ _ _ Hm2), set_mif_set.
  eexists _, _, e. split; [reflexivity|]. split; [cbn; now rewrite (pool_write_lookup _ _ _ _ _ Hm2), decide_True|]. now repeat split.
Qed.

End Input.

Lemma lacp_pdu_roundtrip_witness : lacpdu_partner (lacp_fill_pdu (example_partner 7) example_actor) = example_actor.
Proof. apply (lacp_pdu_roundtrip (example_partner 7) example_actor); split; vm_compute; auto; split; auto; discriminate. Defined.

(** A PDU of another subtype. *)
Lemma lacp_input_refused_witness :
  lacp_input (example_env 5000) example_sort 1 (repeat 7 110) example_lacp =
  Some (set_mif example_lacp 0 (note_packet (example_env 5000) (mif_at example_lacp 0) (repeat 7 110)), LACP_ERROR_UNSUPPORTED).
Proof.
  apply (lacp_input_refused (example_env 5000) example_sort 1 (repeat 7 110) example_lacp);
    [vm_compute; reflexivity|vm_compute; reflexivity|vm_compute; reflexivity|vm_compute; discriminate|apply Nat.leb_le; vm_compute; reflexivity|vm_compute; reflexivity..].
Defined.

Lemma lacp_input_records_partner_witness :
  exists bm' m' e, lacp_input (example_env 5000) example_sort 1 (lacp_fill_pdu (example_partner 7) example_actor) example_lacp = Some (bm', e) /\
    pool_lookup (neighbors bm') 0 = Some m' /\ m_rx_state m' = RX_CURRENT /\ m_current_while_timer m' = 8000.
Proof.
  destruct (lacp_input_records_partner (example_env 5000) example_sort example_sort_perm 1 (lacp_fill_pdu (example_partner 7) example_actor) example_lacp 0
    (mif_at example_lacp 0) example_lacp_reach) as (bm' & m' & e & H1 & H2 & H3 & _ & H4 & _);
    [vm_compute; reflexivity|vm_compute; reflexivity|vm_compute; reflexivity|right; right; vm_compute; reflexivity|vm_compute; discriminate
    |apply Nat.leb_le; vm_compute; reflexivity|vm_compute; reflexivity|vm_compute; reflexivity|].
  exists bm', m', e. split; [exact H1|]. split; [exact H2|]. split; [exact H3|]. rewrite H4. vm_compute. reflexivity.
Defined.
