(* ===== verification/BondInput.v ===== *)
(** * Link bonding: reception

    The node [bond-input] of [vnet/bonding/node.c], which gives the packets of members
    to their bond.  The next node of the feature arc of an interface is outside: it is
    the parameter [feature_next].  The node handles four packets at a time when it can;
    the model keeps that, and the variables that packets of a frame share. *)

From stdpp Require Import gmap.
From S2P Require Import Prelude NetTypes Pool BondTypes Bond Lacp LacpMux LacpInv LacpRx BondInv LacpProps.

(** ** Packets *)

Record bond_packet := mk_bond_packet { bp_sw_if_index : Z; bp_data : list Z }.

#[export] Instance bond_packet_eta : Eta bond_packet := fun p => mk_bond_packet (bp_sw_if_index p) (bp_data p).

(** A 16-bit field in host order. *)
Definition net_u16 (pkt : list Z) (off : nat) : Z := 256 * get_u8 pkt off + get_u8 pkt (S off).

Definition ETHERNET_TYPE_CDP : Z := 0x2000.
Definition ETHERNET_TYPE_SLOW_PROTOCOLS : Z := 0x8809.
Definition ETHERNET_TYPE_802_1_LLDP : Z := 0x88cc.
Definition ETHERNET_TYPE_VLAN : Z := 0x8100.

Definition ethernet_frame_is_tagged (type : Z) : bool :=
  (type =? ETHERNET_TYPE_VLAN) || (type =? 0x88a8) || (type =? 0x9100) || (type =? 0x9200).

(** The LLC header is at 14, the SNAP header at 17. *)
Definition packet_is_cdp (pkt : list Z) : bool :=
  (net_u16 pkt 12 =? ETHERNET_TYPE_CDP) ||
  ((get_u8 pkt 15 =? 0xAA) && (get_u8 pkt 16 =? 0x03) && (net_u16 pkt 20 =? 0x2000) &&
   (get_u8 pkt 17 =? 0) && (get_u8 pkt 18 =? 0) && (get_u8 pkt 19 =? 0x0C)).

(** Packets that stay on the member: slow protocols, CDP and LLDP, also behind VLAN tags. *)
Definition bond_pass_thru (pkt : list Z) : bool :=
  let type := net_u16 pkt 12 in
  if negb (ethernet_frame_is_tagged type) then
    (type =? ETHERNET_TYPE_SLOW_PROTOCOLS) || packet_is_cdp pkt || (type =? ETHERNET_TYPE_802_1_LLDP)
  else
    let type := net_u16 pkt 16 in
    let type := if type =? ETHERNET_TYPE_VLAN then net_u16 pkt 20 else type in
    (type =? ETHERNET_TYPE_SLOW_PROTOCOLS) || (type =? ETHERNET_TYPE_CDP) || (type =? ETHERNET_TYPE_802_1_LLDP).

Definition bond_sw_if_idx_rewrite (bond_sw_if_index : Z) (p : bond_packet) : bond_packet :=
  if bond_pass_thru (bp_data p) then p else p <| bp_sw_if_index := bond_sw_if_index |>.

(** ** The node *)

Definition BOND_INPUT_NEXT_DROP : Z := 0.
Inductive bond_input_error := BOND_INPUT_ERROR_NONE | BOND_INPUT_ERROR_IF_DOWN | BOND_INPUT_ERROR_PASSIVE_IF.

(** The variables of the node function, and its results so far: next node, packet and
    error of each packet. *)
Record bond_input_state := mk_bond_input {
  in_last_member : Z;
  in_bond : Z;
  in_next : Z;
  in_error : bond_input_error;
  in_n_rx_packets : Z;
  in_n_rx_bytes : Z;
  in_out : list (Z * bond_packet * bond_input_error)
}.

#[export] Instance bond_input_eta : Eta bond_input_state := fun s =>
  mk_bond_input (in_last_member s) (in_bond s) (in_next s) (in_error s) (in_n_rx_packets s) (in_n_rx_bytes s) (in_out s).

Section Node.
Variable bm : bond_main_t.
Variable feature_next : Z -> Z.

(** Members without a [member_if_t] fail an assertion. *)
Definition bond_update_next (sw : Z) (s : bond_input_state) : bond_input_state :=
  let s := s <| in_next := BOND_INPUT_NEXT_DROP |> <| in_error := BOND_INPUT_ERROR_NONE |> in
  if in_last_member s =? sw then s <| in_next := feature_next sw |>
  else
    let s := s <| in_last_member := sw |> in
    let b := bif_at bm (m_bif_dev_instance (mif_at bm (default (-1) (bond_get_member_by_sw_if_index bm sw)))) in
    let s := if negb (b_admin_up b) then s <| in_bond := sw |> <| in_error := BOND_INPUT_ERROR_IF_DOWN |> else s in
    if (b_mode b =? BOND_MODE_ACTIVE_BACKUP) && negb (length (b_active_members b) =? 0)%nat &&
       negb (sw =? nth 0 (b_active_members b) 0)
    then s <| in_bond := sw |> <| in_error := BOND_INPUT_ERROR_PASSIVE_IF |>
    else s <| in_bond := b_sw_if_index b |> <| in_next := feature_next sw |>.

(** The packet leaves with the current variables. *)
Definition bond_input_emit (p : bond_packet) (s : bond_input_state) : bond_input_state :=
  if in_next s =? BOND_INPUT_NEXT_DROP then s <| in_out := in_out s ++ [(in_next s, p, in_error s)] |>
  else s <| in_out := in_out s ++ [(in_next s, bond_sw_if_idx_rewrite (in_bond s) p, BOND_INPUT_ERROR_NONE)] |>
         <| in_n_rx_packets := in_n_rx_packets s + 1 |>
         <| in_n_rx_bytes := in_n_rx_bytes s + Z.of_nat (length (bp_data p)) |>.

Definition bond_input_1 (p : bond_packet) (s : bond_input_state) : bond_input_state :=
  bond_input_emit p (bond_update_next (bp_sw_if_index p) s).

(** Four packets of the member of the last packet use the variables as they are. *)
Fixpoint bond_input_loop (frame : list bond_packet) (s : bond_input_state) : bond_input_state :=
  match frame with
  | b0 :: ((b1 :: b2 :: b3 :: rest) as single) =>
      if (bp_sw_if_index b0 =? in_last_member s) && (bp_sw_if_index b1 =? in_last_member s) &&
         (bp_sw_if_index b2 =? in_last_member s) && (bp_sw_if_index b3 =? in_last_member s)
      then bond_input_loop rest (bond_input_emit b3 (bond_input_emit b2 (bond_input_emit b1 (bond_input_emit b0 s))))
      else bond_input_loop rest (bond_input_1 b3 (bond_input_1 b2 (bond_input_1 b1 (bond_input_1 b0 s))))
  | b0 :: single => bond_input_loop single (bond_input_1 b0 s)
  | [] => s
  end.

Definition bond_input_node (frame : list bond_packet) : bond_input_state :=
  bond_input_loop frame (mk_bond_input (2 ^ 32 - 1) 0 0 BOND_INPUT_ERROR_NONE 0 0 []).

(** ** Specification *)

(** What should happen to a packet of a member that is not a passive one. *)
Definition bond_input_spec (p : bond_packet) : Z * bond_packet * bond_input_error :=
  let sw := bp_sw_if_index p in
  let b := bif_at bm (m_bif_dev_instance (mif_at bm (default (-1) (bond_get_member_by_sw_if_index bm sw)))) in
  (feature_next sw, bond_sw_if_idx_rewrite (b_sw_if_index b) p, BOND_INPUT_ERROR_NONE).

(** The member carries traffic: in active-backup mode it is the first active one. *)
Definition receiving (sw : Z) : Prop :=
  exists mi m b, bond_get_member_by_sw_if_index bm sw = Some mi /\ pool_lookup (neighbors bm) mi = Some m /\
    pool_lookup (interfaces bm) (m_bif_dev_instance m) = Some b /\
    (b_mode b = BOND_MODE_ACTIVE_BACKUP -> b_active_members b <> [] -> head (b_active_members b) = Some sw).

(** In active-backup mode, a member that is not the first active one. *)
Definition passive (sw : Z) : Prop :=
  exists mi m b a, bond_get_member_by_sw_if_index bm sw = Some mi /\ pool_lookup (neighbors bm) mi = Some m /\
    pool_lookup (interfaces bm) (m_bif_dev_instance m) = Some b /\
    b_mode b = BOND_MODE_ACTIVE_BACKUP /\ head (b_active_members b) = Some a /\ a <> sw.

(** The member and its bond exist. *)
Definition enslaved (sw : Z) : Prop :=
  exists mi m, bond_get_member_by_sw_if_index bm sw = Some mi /\ pool_lookup (neighbors bm) mi = Some m /\
    is_Some (pool_lookup (interfaces bm) (m_bif_dev_instance m)).

Lemma receiving_or_passive sw : enslaved sw -> receiving sw \/ passive sw.
Proof.
  intros (mi & m & Hi & Hm & [b Hb]).
  destruct (decide (b_mode b = BOND_MODE_ACTIVE_BACKUP /\ b_active_members b <> [] /\ head (b_active_members b) <> Some sw)) as [(H1 & H2 & H3)|Hno].
  - right. exists mi, m, b. destruct (b_active_members b) as [|a l] eqn:Ea; [contradiction|]. exists a. cbn in *. repeat split; congruence.
  - left. exists mi, m, b. repeat split; try assumption. intros H1 H2. destruct (decide (head (b_active_members b) = Some sw)); [assumption|]. destruct Hno. auto.
Qed.

(** What happens to a packet when the packet before it in the frame was of member [last]: with a
    receiving member, the specification; with a passive one it is dropped, or, but never as
    the first after a packet of another member, goes on as a packet of the member itself. *)
Inductive treated (last : Z) (p : bond_packet) : Z * bond_packet * bond_input_error -> Prop :=
| tr_receiving : receiving (bp_sw_if_index p) -> treated last p (bond_input_spec p)
| tr_dropped : passive (bp_sw_if_index p) -> treated last p (BOND_INPUT_NEXT_DROP, p, BOND_INPUT_ERROR_PASSIVE_IF)
| tr_passed : passive (bp_sw_if_index p) -> last = bp_sw_if_index p ->
    treated last p (feature_next (bp_sw_if_index p), p, BOND_INPUT_ERROR_NONE).

Inductive all_treated : Z -> list bond_packet -> list (Z * bond_packet * bond_input_error) -> Prop :=
| at_nil last : all_treated last [] []
| at_cons last p frame r out :
    treated last p r -> all_treated (bp_sw_if_index p) frame out -> all_treated last (p :: frame) (r :: out).

(** The variables belong to the last member. *)
Inductive in_step (s : bond_input_state) : Prop :=
| is_first : in_last_member s = 2 ^ 32 - 1 -> in_step s
| is_receiving : receiving (in_last_member s) -> in_next s = feature_next (in_last_member s) ->
    in_bond s = b_sw_if_index (bif_at bm (m_bif_dev_instance (mif_at bm (default (-1) (bond_get_member_by_sw_if_index bm (in_last_member s)))))) ->
    in_step s
| is_dropping : passive (in_last_member s) -> in_next s = BOND_INPUT_NEXT_DROP -> in_error s = BOND_INPUT_ERROR_PASSIVE_IF ->
    in_bond s = in_last_member s -> in_step s
| is_passing : passive (in_last_member s) -> in_next s = feature_next (in_last_member s) -> in_bond s = in_last_member s -> in_step s.

Hypothesis Hnext : forall sw, feature_next sw <> BOND_INPUT_NEXT_DROP.

Lemma rewrite_self p : bond_sw_if_idx_rewrite (bp_sw_if_index p) p = p.
Proof. unfold bond_sw_if_idx_rewrite. destruct (bond_pass_thru _); [reflexivity|now destruct p]. Qed.

(** Step [s'] of the node on packet [p], from [s]. *)
Definition emits (s : bond_input_state) (p : bond_packet) (s' : bond_input_state) : Prop :=
  exists r, in_out s' = in_out s ++ [r] /\ treated (in_last_member s) p r /\ in_step s' /\ in_last_member s' = bp_sw_if_index p.

Lemma emit_step p s :
  in_step s -> in_last_member s = bp_sw_if_index p -> bp_sw_if_index p <> 2 ^ 32 - 1 -> emits s p (bond_input_emit p s).
Proof.
  intros Hs El Hne. unfold emits, bond_input_emit. destruct Hs as [E|R E1 E2|K E1 E2 E3|K E1 E2]; [congruence|..].
  - destruct (Z.eqb_spec (in_next s) BOND_INPUT_NEXT_DROP) as [E|_]; [rewrite E1 in E; now destruct (Hnext _ E)|].
    exists (bond_input_spec p). split; [|split; [now constructor; rewrite <- El|]].
    + cbn. unfold bond_input_spec. now rewrite E1, E2, El.
    + split; [now apply is_receiving|exact El].
  - rewrite E1. cbn. eexists. split; [reflexivity|]. rewrite E2. split; [constructor; now rewrite <- El|]. split; [now apply is_dropping|exact El].
  - destruct (Z.eqb_spec (in_next s) BOND_INPUT_NEXT_DROP) as [E|_]; [rewrite E1 in E; now destruct (Hnext _ E)|].
    eexists. split; [reflexivity|]. rewrite E1, E2, El, rewrite_self. split; [constructor; [now rewrite <- El|reflexivity]|]. split; [now apply is_passing|exact El].
Qed.

(** The variables after the lookup of a member. *)
Lemma update_step sw s :
  in_step s -> enslaved sw -> sw <> 2 ^ 32 - 1 -> let s' := bond_update_next sw s in
  in_step s' /\ in_last_member s' = sw /\ in_out s' = in_out s /\ (passive sw -> in_last_member s <> sw -> in_next s' = BOND_INPUT_NEXT_DROP).
Proof.
  intros Hs Hen Hne. cbv zeta. unfold bond_update_next. cbn [in_last_member set_field]. destruct (Z.eqb_spec (in_last_member s) sw) as [E|E].
  - split; [|now repeat split]. destruct Hs as [K|R E1 E2|K E1 E2 E3|K E1 E2]; [congruence|apply is_receiving|apply is_passing|apply is_passing]; cbn; first [assumption | now rewrite E].
  - destruct (receiving_or_passive sw Hen) as [Hr|Hp].
    + pose proof Hr as (mi & m & b & Hi & Hm & Hb & Hab). assert (default (-1) (bond_get_member_by_sw_if_index bm sw) = mi) as Ed by (now rewrite Hi).
      rewrite Ed, (live_mif_at _ _ _ Hm), (live_bif_at _ _ _ Hb). cbv zeta.
      assert ((b_mode b =? BOND_MODE_ACTIVE_BACKUP) && negb (length (b_active_members b) =? 0)%nat && negb (sw =? nth 0 (b_active_members b) 0) = false) as ->.
      { destruct (Z.eqb_spec (b_mode b) BOND_MODE_ACTIVE_BACKUP) as [Em|]; [|reflexivity]. destruct (b_active_members b) as [|a l] eqn:Ea; [reflexivity|].
        assert (Some a = Some sw) as [= ->] by (now apply Hab). cbn. now rewrite Z.eqb_refl. }
      assert (~ passive sw) as Hnp.
      { intros (mi' & m' & b' & a & Hi' & Hm' & Hb' & Em & Ea & Hna). assert (b' = b) as -> by congruence.
        assert (head (b_active_members b) = Some sw) as Eh by (apply Hab; [exact Em|now destruct (b_active_members b)]). congruence. }
      destruct (negb (b_admin_up b)); (split; [apply is_receiving; [exact Hr|reflexivity|]; cbn [in_bond in_last_member set_field]; now rewrite Ed, (live_mif_at _ _ _ Hm), (live_bif_at _ _ _ Hb)|]; now repeat split).
    + pose proof Hp as (mi & m & b & a & Hi & Hm & Hb & Em & Ea & Hna). assert (default (-1) (bond_get_member_by_sw_if_index bm sw) = mi) as Ed by (now rewrite Hi).
      rewrite Ed, (live_mif_at _ _ _ Hm), (live_bif_at _ _ _ Hb). cbv zeta.
      destruct (b_active_members b) as [|a' l]; [discriminate|]. injection Ea as ->. rewrite Em. cbn [length Nat.eqb negb andb nth Z.eqb].
      rewrite (proj2 (Z.eqb_neq sw a)) by congruence. destruct (negb (b_admin_up b)); (split; [now apply is_dropping|now repeat split]).
Qed.

Lemma input_1_step p s :
  in_step s -> enslaved (bp_sw_if_index p) -> bp_sw_if_index p <> 2 ^ 32 - 1 -> emits s p (bond_input_1 p s).
Proof.
  intros Hs Hen Hne. unfold bond_input_1. destruct (update_step _ _ Hs Hen Hne) as (U1 & U2 & U3 & U4).
  destruct (emit_step p _ U1 U2 Hne) as (r & E1 & E2 & E3 & E4). exists r. rewrite E1, U3. split; [reflexivity|]. split; [|now split].
  destruct E2 as [H|H|H HL]; [now constructor..|]. destruct (decide (in_last_member s = bp_sw_if_index p)) as [|Hl]; [now constructor|].
  exfalso. unfold bond_input_emit in E1. rewrite (U4 H Hl) in E1. cbn in E1. apply app_inj_2 in E1 as [_ [= E1 _]]; [|reflexivity]. now destruct (Hnext _ (eq_sym E1)).
Qed.

Definition rest_treated (s : bond_input_state) (frame : list bond_packet) (s' : bond_input_state) : Prop :=
  exists out, in_out s' = in_out s ++ out /\ all_treated (in_last_member s) frame out.

Lemma rest_nil s : rest_treated s [] s.
Proof. exists []. split; [now rewrite app_nil_r|constructor]. Qed.

Lemma rest_cons s p s1 frame s' : emits s p s1 -> rest_treated s1 frame s' -> rest_treated s (p :: frame) s'.
Proof.
  intros (r & E & T & _ & L) (out & Eo & To). exists (r :: out). split; [rewrite Eo, E, <- app_assoc; reflexivity|]. constructor; [exact T|now rewrite <- L].
Qed.

Lemma emits_step s p s' : emits s p s' -> in_step s'.
Proof. intros (r & _ & _ & H & _). exact H. Qed.

Lemma emits_last s p s' : emits s p s' -> in_last_member s' = bp_sw_if_index p.
Proof. intros (r & _ & _ & _ & H). exact H. Qed.

Lemma input_loop_treats n : forall frame s, (length frame <= n)%nat ->
  in_step s -> Forall (fun p => enslaved (bp_sw_if_index p) /\ bp_sw_if_index p <> 2 ^ 32 - 1) frame ->
  rest_treated s frame (bond_input_loop frame s).
Proof.
  induction n as [|n IH]; intros frame s Hlen Hs HF; [destruct frame; [apply rest_nil|cbn in Hlen; lia]|].
  assert (forall p fr s0, in_step s0 -> enslaved (bp_sw_if_index p) /\ bp_sw_if_index p <> 2 ^ 32 - 1 ->
    forall s', (in_step (bond_input_1 p s0) -> rest_treated (bond_input_1 p s0) fr s') -> rest_treated s0 (p :: fr) s') as H1.
  { intros p fr s0 H0 [R N] s' Hrest. pose proof (input_1_step p s0 H0 R N) as He. exact (rest_cons _ _ _ _ _ He (Hrest (emits_step _ _ _ He))). }
  destruct frame as [|b0 [|b1 [|b2 [|b3 rest]]]]; cbn [bond_input_loop]; [apply rest_nil|..]; rewrite ?Forall_cons in HF.
  - apply H1; [exact Hs|apply HF|]. intros _. apply rest_nil.
  - destruct HF as (F0 & F1 & _). apply H1; [exact Hs|exact F0|]. intros K0. apply H1; [exact K0|exact F1|]. intros _. apply rest_nil.
  - destruct HF as (F0 & F1 & F2 & _). apply H1; [exact Hs|exact F0|]. intros K0. apply H1; [exact K0|exact F1|]. intros K1. apply H1; [exact K1|exact F2|]. intros _. apply rest_nil.
  - destruct HF as (F0 & F1 & F2 & F3 & HF). cbn in Hlen. destruct (_ && _) eqn:Eq.
    + apply andb_true_iff in Eq as [Eq Q3]. apply andb_true_iff in Eq as [Eq Q2]. apply andb_true_iff in Eq as [Q0 Q1]. apply Z.eqb_eq in Q0, Q1, Q2, Q3.
      pose proof (emit_step b0 s Hs (eq_sym Q0) (proj2 F0)) as E0. apply (rest_cons _ _ _ _ _ E0). pose proof (emits_last _ _ _ E0) as L0.
      pose proof (emit_step b1 _ (emits_step _ _ _ E0) ltac:(congruence) (proj2 F1)) as E1. apply (rest_cons _ _ _ _ _ E1). pose proof (emits_last _ _ _ E1) as L1.
      pose proof (emit_step b2 _ (emits_step _ _ _ E1) ltac:(congruence) (proj2 F2)) as E2. apply (rest_cons _ _ _ _ _ E2). pose proof (emits_last _ _ _ E2) as L2.
      pose proof (emit_step b3 _ (emits_step _ _ _ E2) ltac:(congruence) (proj2 F3)) as E3. apply (rest_cons _ _ _ _ _ E3). apply IH; [lia|exact (emits_step _ _ _ E3)|exact HF].
    + apply H1; [exact Hs|exact F0|]. intros K0. apply H1; [exact K0|exact F1|]. intros K1. apply H1; [exact K1|exact F2|]. intros K2. apply H1; [exact K2|exact F3|]. intros K3.
      apply IH; [lia|exact K3|exact HF].
Qed.

(** C14 Handling a frame four packets at a time, with the result for the last member reused, gives one result
    for each packet, in order.  A packet of a member that carries traffic goes, as one lookup per packet
    would have it, to the next node of the feature arc, on the bond of its member, unless it is of a
    protocol of the link (slow protocols, CDP, LLDP), which stays on the member.  In active-backup mode a
    packet of a member that is not the first active one never enters the bond: it is dropped when it
    follows a packet of another member, and otherwise is dropped or goes on as a packet of the member
    itself ([bond_input_passive_member]). *)
Theorem bond_input_per_packet frame :
  (forall p, p ∈ frame -> enslaved (bp_sw_if_index p) /\ bp_sw_if_index p <> 2 ^ 32 - 1) ->
  all_treated (2 ^ 32 - 1) frame (in_out (bond_input_node frame)).
Proof.
  intros H. destruct (input_loop_treats (length frame) frame (mk_bond_input (2 ^ 32 - 1) 0 0 BOND_INPUT_ERROR_NONE 0 0 [])) as (out & E & T).
  - lia.
  - now apply is_first.
  - now apply Forall_forall.
  - unfold bond_input_node. rewrite E. exact T.
Qed.

End Node.

(** ** Members that carry no traffic *)

Definition example_packet (sw : Z) : bond_packet := mk_bond_packet sw (repeat 0 12 ++ [8; 0] ++ repeat 0 46).

(** Six packets of two members, of which the second is passive. *)
Definition example_backup : bond_main_t := example_run (example_create BOND_MODE_ACTIVE_BACKUP).
Definition example_frame : list bond_packet := map example_packet [1; 1; 2; 2; 1; 2].

Lemma bond_input_per_packet_witness :
  all_treated example_backup (fun _ => 1) (2 ^ 32 - 1) example_frame (in_out (bond_input_node example_backup (fun _ => 1) example_frame)) /\
  in_out (bond_input_node example_backup (fun _ => 1) example_frame) =
    [(1, example_packet 10, BOND_INPUT_ERROR_NONE); (1, example_packet 10, BOND_INPUT_ERROR_NONE);
     (BOND_INPUT_NEXT_DROP, example_packet 2, BOND_INPUT_ERROR_PASSIVE_IF); (1, example_packet 2, BOND_INPUT_ERROR_NONE);
     (1, example_packet 10, BOND_INPUT_ERROR_NONE); (BOND_INPUT_NEXT_DROP, example_packet 2, BOND_INPUT_ERROR_PASSIVE_IF)].
Proof.
  split; [|vm_compute; reflexivity]. apply bond_input_per_packet; [discriminate|].
  intros p Hp. unfold example_frame in Hp. cbn [map] in Hp. repeat (apply elem_of_cons in Hp as [->|Hp]); try (now apply elem_of_nil in Hp).
  all: split; [|vm_compute; discriminate].
  all: eexists _, _; split; [vm_compute; reflexivity|]; split; [vm_compute; reflexivity|]; vm_compute; eauto.
Defined.

(** In active-backup mode the first packet of a frame from a passive member is dropped, and the next one,
    which takes the shortcut for the last member, is let through on the member interface. *)
Example bond_input_passive_member :
  in_out (bond_input_node (example_run (example_create BOND_MODE_ACTIVE_BACKUP)) (fun _ => 1) [example_packet 2; example_packet 2]) =
  [(BOND_INPUT_NEXT_DROP, example_packet 2, BOND_INPUT_ERROR_PASSIVE_IF); (1, example_packet 2, BOND_INPUT_ERROR_NONE)].
Proof. vm_compute. reflexivity. Qed.

(** The packets of a bond that is administratively down are not dropped. *)
Example bond_input_down_bond :
  in_out (bond_input_node (bond_interface_admin_up_down example_xor 0 false) (fun _ => 1) [example_packet 1]) =
  [(1, example_packet 10, BOND_INPUT_ERROR_NONE)].
Proof. vm_compute. reflexivity. Qed.
