(* ===== verification/Policer.v ===== *)
(** * Traffic policers

    The token-bucket policer of [vnet/policer]: the metering of a packet ([police.h]), the
    translation of a configuration into tokens per period ([xlate.c]), the policers by
    name and by interface ([policer.c]), and the nodes that apply them
    ([police_inlines.h], [node_funcs.c]).

    Double-precision numbers are those of the Standard Library's [SpecFloat] with the
    parameters of binary64.  The rate of the time-stamp counter is a parameter.  A result
    [None] stands for an access outside of a vector. *)

From Stdlib Require Import SpecFloat.
From stdpp Require Import gmap strings.
From S2P Require Import Prelude Float NetTypes Packet Pool.

(** ** Data *)

Inductive policer_result_e := POLICE_CONFORM | POLICE_EXCEED | POLICE_VIOLATE.
Inductive qos_action_type_en := QOS_ACTION_DROP | QOS_ACTION_TRANSMIT | QOS_ACTION_MARK_AND_TRANSMIT | QOS_ACTION_HANDOFF.
Inductive qos_policer_type_en :=
  TYPE_1R2C | TYPE_1R3C_RFC_2697 | TYPE_2R3C_RFC_2698 | TYPE_2R3C_RFC_4115 | TYPE_2R3C_RFC_MEF5CF1.
Inductive qos_round_type_en := QOS_ROUND_TO_CLOSEST | QOS_ROUND_TO_UP | QOS_ROUND_TO_DOWN | QOS_ROUND_INVALID.
Inductive qos_rate_type_en := QOS_RATE_KBPS | QOS_RATE_PPS | QOS_RATE_INVALID.

#[export] Instance policer_result_eq_dec : EqDecision policer_result_e.
Proof. solve_decision. Defined.
#[export] Instance qos_action_eq_dec : EqDecision qos_action_type_en.
Proof. solve_decision. Defined.

(** The position of a result in the arrays of a policer. *)
Definition result_num (r : policer_result_e) : nat :=
  match r with POLICE_CONFORM => 0 | POLICE_EXCEED => 1 | POLICE_VIOLATE => 2 end.

Record policer_t := mk_policer {
  pl_single_rate : bool;
  pl_color_aware : bool;
  pl_scale : Z;
  pl_action : list qos_action_type_en;
  pl_mark_dscp : list Z;
  pl_cir_tokens_per_period : Z;
  pl_pir_tokens_per_period : Z;
  pl_current_limit : Z;
  pl_current_bucket : Z;
  pl_extended_limit : Z;
  pl_extended_bucket : Z;
  pl_thread_index : Z;
  pl_last_update_time : Z;
  pl_name : string
}.

#[export] Instance policer_eta : Eta policer_t := fun p =>
  mk_policer (pl_single_rate p) (pl_color_aware p) (pl_scale p) (pl_action p) (pl_mark_dscp p)
    (pl_cir_tokens_per_period p) (pl_pir_tokens_per_period p) (pl_current_limit p) (pl_current_bucket p)
    (pl_extended_limit p) (pl_extended_bucket p) (pl_thread_index p) (pl_last_update_time p) (pl_name p).

Definition policer_zero : policer_t :=
  mk_policer false false 0 (replicate 3 QOS_ACTION_DROP) (replicate 3 0) 0 0 0 0 0 0 0 0 EmptyString.

Record qos_pol_action_params_st := mk_action_params { ap_action_type : qos_action_type_en; ap_dscp : Z }.

(** Rates and bursts are those of the member of the union that [cfg_rate_type] selects:
    kbps and bytes, or packets per second and milliseconds. *)
Record qos_pol_cfg_params_st := mk_pol_cfg {
  cfg_cir : Z;
  cfg_eir : Z;
  cfg_cb : Z;
  cfg_eb : Z;
  cfg_rate_type : qos_rate_type_en;
  cfg_rnd_type : qos_round_type_en;
  cfg_rfc : qos_policer_type_en;
  cfg_color_aware : bool;
  cfg_overwrite_bucket : bool;
  cfg_current_bucket : Z;
  cfg_extended_bucket : Z;
  cfg_conform_action : qos_pol_action_params_st;
  cfg_exceed_action : qos_pol_action_params_st;
  cfg_violate_action : qos_pol_action_params_st
}.

#[export] Instance pol_cfg_eta : Eta qos_pol_cfg_params_st := fun c =>
  mk_pol_cfg (cfg_cir c) (cfg_eir c) (cfg_cb c) (cfg_eb c) (cfg_rate_type c) (cfg_rnd_type c) (cfg_rfc c)
    (cfg_color_aware c) (cfg_overwrite_bucket c) (cfg_current_bucket c) (cfg_extended_bucket c)
    (cfg_conform_action c) (cfg_exceed_action c) (cfg_violate_action c).

Definition action_params_zero : qos_pol_action_params_st := mk_action_params QOS_ACTION_DROP 0.
Definition pol_cfg_zero : qos_pol_cfg_params_st :=
  mk_pol_cfg 0 0 0 0 QOS_RATE_KBPS QOS_ROUND_TO_CLOSEST TYPE_1R2C false false 0 0
    action_params_zero action_params_zero action_params_zero.

(** ** Metering *)

(** A bucket after [n_periods] periods, capped at its limit. *)
Definition tokens (bucket limit n_periods per_period : Z) : Z :=
  let t := u64 (bucket + u64 (n_periods * per_period)) in
  if limit <? t then limit else t.

Definition vnet_police_packet (p : policer_t) (packet_length : Z) (packet_color : policer_result_e) (time : Z)
  : policer_t * policer_result_e :=
  let packet_length := u32 (Z.shiftl packet_length (pl_scale p)) in
  let n_periods := u64 (time - pl_last_update_time p) in
  let p := p <| pl_last_update_time := time |> in
  let put (current extended : Z) := p <| pl_current_bucket := u32 current |> <| pl_extended_bucket := u32 extended |> in
  let aware := pl_color_aware p in
  let current := tokens (pl_current_bucket p) (pl_current_limit p) n_periods (pl_cir_tokens_per_period p) in
  if pl_single_rate p then
    let extended := tokens (pl_extended_bucket p) (pl_extended_limit p) n_periods (pl_cir_tokens_per_period p) in
    if (negb aware || bool_decide (packet_color = POLICE_CONFORM)) && (packet_length <=? current) then
      (put (current - packet_length) (extended - packet_length), POLICE_CONFORM)
    else if (negb aware || negb (bool_decide (packet_color = POLICE_VIOLATE))) && (packet_length <=? extended) then
      (put current (extended - packet_length), POLICE_EXCEED)
    else (put current extended, POLICE_VIOLATE)
  else
    let extended := tokens (pl_extended_bucket p) (pl_extended_limit p) n_periods (pl_pir_tokens_per_period p) in
    if (aware && bool_decide (packet_color = POLICE_VIOLATE)) || (extended <? packet_length) then
      (put current extended, POLICE_VIOLATE)
    else if (aware && bool_decide (packet_color = POLICE_EXCEED)) || (current <? packet_length) then
      (put current (extended - packet_length), POLICE_EXCEED)
    else (put (current - packet_length) (extended - packet_length), POLICE_CONFORM).

(** ** Configuration *)

Definition qos_pol_round (numerator denominator : Z) (round_type : qos_round_type_en) : option Z :=
  if denominator =? 0 then None
  else match round_type with
       | QOS_ROUND_TO_CLOSEST => Some (u64 (numerator + Z.shiftr denominator 1) / denominator)
       | QOS_ROUND_TO_UP =>
           let q := numerator / denominator in
           Some (if u64 (q * denominator) <? numerator then u64 (q + 1) else q)
       | QOS_ROUND_TO_DOWN => Some (numerator / denominator)
       | QOS_ROUND_INVALID => None
       end.

(** The output variable is 0 when rounding fails. *)
Definition rounded (numerator denominator : Z) : Z := default 0 (qos_pol_round numerator denominator QOS_ROUND_TO_CLOSEST).

Definition QOS_POLICER_FIXED_PKT_SIZE : Z := 256.
Definition qos_convert_pps_to_kbps (rate_pps : Z) : Z := u32 (rounded (u64 (u64 (rate_pps * QOS_POLICER_FIXED_PKT_SIZE) * 8)) 1000).
Definition qos_convert_burst_ms_to_bytes (burst_ms rate_kbps : Z) : Z := u32 (rounded (u64 (burst_ms * rate_kbps)) 8).

Definition POLICER_TICKS_PER_PERIOD_SHIFT : Z := 17.
Definition POLICER_TICKS_PER_PERIOD : Z := Z.shiftl 1 POLICER_TICKS_PER_PERIOD_SHIFT.
Definition MAX_RATE_SHIFT : Z := 10.

(** [__builtin_clz] of a [u32] that is not 0. *)
Definition clz32 (x : Z) : Z := 31 - Z.log2 x.

Record policer_params := mk_params {
  pp_current_limit : Z; pp_extended_limit : Z; pp_cir : Z; pp_pir : Z; pp_scale : Z
}.

Definition compute_policer_params (hz cir_rate pir_rate current_limit extended_limit : Z) : policer_params :=
  let period := f64_div (f64_of_u64 hz) (f64_of_u64 POLICER_TICKS_PER_PERIOD) in
  let cir := f64_div (f64_of_u64 cir_rate) period in
  let pir := f64_div (f64_of_u64 pir_rate) period in
  let max := Z.max current_limit extended_limit in
  let max := Z.max max (u32 (Z.shiftl (u32_of_f64 cir) MAX_RATE_SHIFT)) in
  let max := Z.max max (u32 (Z.shiftl (u32_of_f64 pir) MAX_RATE_SHIFT)) in
  let scale_shift := clz32 max in
  let scale_amount := u32 (Z.shiftl 1 scale_shift) in
  let scaled (x : spec_float) :=
    let x := f64_mul x (f64_of_u64 scale_amount) in
    u32_of_f64 (if SFltb x (f64_of_u64 1) then f64_of_u64 1 else x) in
  mk_params (u32 (Z.shiftl current_limit scale_shift)) (u32 (Z.shiftl extended_limit scale_shift))
    (scaled cir) (scaled pir) scale_shift.

Section Policer.
(** [get_tsc_hz] *)
Variable hz : Z.

Definition BYTES_PER_KBIT : Z := 125.

Definition set_params (hw : policer_t) (r : policer_params) : policer_t :=
  hw <| pl_current_limit := pp_current_limit r |> <| pl_extended_limit := pp_extended_limit r |>
     <| pl_cir_tokens_per_period := pp_cir r |> <| pl_pir_tokens_per_period := pp_pir r |> <| pl_scale := pp_scale r |>
     <| pl_current_bucket := pp_current_limit r |> <| pl_extended_bucket := pp_extended_limit r |>.

(** [None] for the result -1. *)
Definition x86_pol_compute_hw_params (cfg : qos_pol_cfg_params_st) (hw : policer_t) : option policer_t :=
  let cap x := if 0xFFFFFFFF <? x then 0xFFFFFFFF else x in
  let hw := hw <| pl_last_update_time := 0 |> <| pl_current_limit := cap (cfg_cb cfg) |>
               <| pl_extended_limit := cap (cfg_eb cfg) |> in
  let compute hw cir_rate pir_rate :=
    Some (set_params hw (compute_policer_params hz cir_rate pir_rate (pl_current_limit hw) (pl_extended_limit hw))) in
  if (cfg_cir cfg =? 0) && (cfg_cb cfg =? 0) && (cfg_eb cfg =? 0) then
    Some (hw <| pl_single_rate := true |> <| pl_cir_tokens_per_period := 0 |>)
  else match cfg_rfc cfg with
       | TYPE_1R2C | TYPE_1R3C_RFC_2697 =>
           let is_1r2c := match cfg_rfc cfg with TYPE_1R2C => true | _ => false end in
           if is_1r2c && negb (cfg_eb cfg =? 0) then None
           else if (cfg_cir cfg =? 0) || negb (cfg_eir cfg =? 0) || ((cfg_cb cfg =? 0) && (cfg_eb cfg =? 0)) then None
           else compute (hw <| pl_single_rate := true |>) (u64 (cfg_cir cfg * BYTES_PER_KBIT)) 0
       | TYPE_2R3C_RFC_2698 | TYPE_2R3C_RFC_4115 =>
           if (cfg_cir cfg =? 0) || (cfg_eir cfg =? 0) || (cfg_eir cfg <? cfg_cir cfg) || (cfg_cb cfg =? 0) || (cfg_eb cfg =? 0)
           then None
           else compute hw (u64 (cfg_cir cfg * BYTES_PER_KBIT)) (u64 (cfg_eir cfg * BYTES_PER_KBIT))
       | TYPE_2R3C_RFC_MEF5CF1 => None
       end.

(** The rates and bursts of a configuration in kbps and bytes. *)
Definition kbps_cfg (cfg : qos_pol_cfg_params_st) : option qos_pol_cfg_params_st :=
  let c := pol_cfg_zero <| cfg_rate_type := QOS_RATE_KBPS |> <| cfg_rnd_type := cfg_rnd_type cfg |> <| cfg_rfc := cfg_rfc cfg |> in
  match cfg_rate_type cfg with
  | QOS_RATE_KBPS =>
      Some (c <| cfg_cir := cfg_cir cfg |> <| cfg_eir := cfg_eir cfg |> <| cfg_cb := cfg_cb cfg |> <| cfg_eb := cfg_eb cfg |>)
  | QOS_RATE_PPS =>
      let cir := qos_convert_pps_to_kbps (cfg_cir cfg) in
      let eir := qos_convert_pps_to_kbps (cfg_eir cfg) in
      Some (c <| cfg_cir := cir |> <| cfg_eir := eir |>
              <| cfg_cb := qos_convert_burst_ms_to_bytes (u32 (cfg_cb cfg)) cir |>
              <| cfg_eb := qos_convert_burst_ms_to_bytes (u32 (cfg_eb cfg)) eir |>)
  | QOS_RATE_INVALID => None
  end.

Definition pol_logical_2_physical (cfg : qos_pol_cfg_params_st) : option policer_t :=
  let actions := [cfg_conform_action cfg; cfg_exceed_action cfg; cfg_violate_action cfg] in
  kbps ← kbps_cfg cfg;
  phys ← x86_pol_compute_hw_params kbps
           (policer_zero <| pl_action := map ap_action_type actions |> <| pl_mark_dscp := map ap_dscp actions |>
                         <| pl_color_aware := cfg_color_aware cfg |>);
  Some (if cfg_overwrite_bucket cfg
        then phys <| pl_current_bucket := cfg_current_bucket cfg |> <| pl_extended_bucket := cfg_extended_bucket cfg |>
        else phys).

(** ** Policers by name and interface *)

(** [policer_counters] are keyed by result and policer: packets and bytes, over all threads.
    The vectors of policers by interface are [by_sw_if_index_rx] and [by_sw_if_index_tx]. *)
Record vnet_policer_main_t := mk_policer_main {
  policers : pool policer_t;
  pol_configs : pool qos_pol_cfg_params_st;
  policer_config_by_name : gmap string Z;
  policer_index_by_name : gmap string Z;
  by_sw_if_index_rx : list Z;
  by_sw_if_index_tx : list Z;
  policer_counters : gmap (nat * Z) (Z * Z)
}.

#[export] Instance policer_main_eta : Eta vnet_policer_main_t := fun m =>
  mk_policer_main (policers m) (pol_configs m) (policer_config_by_name m) (policer_index_by_name m)
    (by_sw_if_index_rx m) (by_sw_if_index_tx m) (policer_counters m).

Definition policer_main_init : vnet_policer_main_t := mk_policer_main pool_empty pool_empty ∅ ∅ [] [] ∅.

Definition policer_at (pm : vnet_policer_main_t) (i : Z) : policer_t := default policer_zero (pool_elt_at_index (policers pm) i).
Definition set_policer (pm : vnet_policer_main_t) (i : Z) (p : policer_t) : vnet_policer_main_t :=
  pm <| policers := pool_write (policers pm) i p |>.

Definition zero_counters (i : Z) (c : gmap (nat * Z) (Z * Z)) : gmap (nat * Z) (Z * Z) :=
  <[(0%nat, i) := (0, 0)]> (<[(1%nat, i) := (0, 0)]> (<[(2%nat, i) := (0, 0)]> c)).

(** No thread: [~0]. *)
Definition NO_THREAD : Z := 2 ^ 32 - 1.

Definition policer_add (pm : vnet_policer_main_t) (name : string) (cfg : qos_pol_cfg_params_st)
  : vnet_policer_main_t * (vnet_api_error_t + Z) :=
  match policer_config_by_name pm !! name with
  | Some _ => (pm, inl VALUE_EXIST)
  | None =>
      match pol_logical_2_physical cfg with
      | None => (pm, inl INVALID_VALUE)
      | Some test_policer =>
          let '(cs, ci) := pool_get pol_cfg_zero (pol_configs pm) in
          let '(ps, pi) := pool_get policer_zero (policers pm) in
          (pm <| pol_configs := pool_write cs ci cfg |>
              <| policers := pool_write ps pi (test_policer <| pl_name := name |> <| pl_thread_index := NO_THREAD |>) |>
              <| policer_config_by_name := <[name := ci]> (policer_config_by_name pm) |>
              <| policer_index_by_name := <[name := pi]> (policer_index_by_name pm) |>
              <| policer_counters := zero_counters pi (policer_counters pm) |>, inr pi)
      end
  end.

Definition policer_del (pm : vnet_policer_main_t) (policer_index : Z) : vnet_policer_main_t * option vnet_api_error_t :=
  if pool_is_free_index (policers pm) policer_index then (pm, Some NO_SUCH_ENTRY)
  else
    let name := pl_name (policer_at pm policer_index) in
    let pm :=
      match policer_config_by_name pm !! name with
      | Some ci => pm <| pol_configs := pool_put_index (pol_configs pm) ci |>
                      <| policer_config_by_name := delete name (policer_config_by_name pm) |>
      | None => pm
      end in
    (pm <| policer_index_by_name := delete name (policer_index_by_name pm) |>
        <| policers := pool_put_index (policers pm) policer_index |>, None).

Definition policer_update (pm : vnet_policer_main_t) (policer_index : Z) (cfg : qos_pol_cfg_params_st)
  : vnet_policer_main_t * option vnet_api_error_t :=
  if pool_is_free_index (policers pm) policer_index then (pm, Some NO_SUCH_ENTRY)
  else
    match pol_logical_2_physical cfg with
    | None => (pm, Some INVALID_VALUE)
    | Some test_policer =>
        let name := pl_name (policer_at pm policer_index) in
        let '(pm, ci) :=
          match policer_config_by_name pm !! name with
          | Some ci => (pm, ci)
          | None =>
              let '(cs, ci) := pool_get pol_cfg_zero (pol_configs pm) in
              (pm <| pol_configs := cs |> <| policer_config_by_name := <[name := ci]> (policer_config_by_name pm) |>, ci)
          end in
        ((set_policer pm policer_index (test_policer <| pl_name := name |> <| pl_thread_index := NO_THREAD |>))
           <| pol_configs := pool_write (pol_configs pm) ci cfg |>
           <| policer_counters := zero_counters policer_index (policer_counters pm) |>, None)
    end.

Definition policer_reset (pm : vnet_policer_main_t) (policer_index : Z) : vnet_policer_main_t * option vnet_api_error_t :=
  if pool_is_free_index (policers pm) policer_index then (pm, Some NO_SUCH_ENTRY)
  else
    let p := policer_at pm policer_index in
    (set_policer pm policer_index (p <| pl_current_bucket := pl_current_limit p |> <| pl_extended_bucket := pl_extended_limit p |>),
     None).

(** [worker_thread] is the thread of a worker, of which there are [num_workers]. *)
Definition policer_bind_worker (num_workers : Z) (worker_thread : Z -> Z) (pm : vnet_policer_main_t)
  (policer_index worker : Z) (bind : bool) : vnet_policer_main_t * option vnet_api_error_t :=
  if pool_is_free_index (policers pm) policer_index then (pm, Some NO_SUCH_ENTRY)
  else
    let p := policer_at pm policer_index in
    if bind then
      if num_workers <=? worker then (pm, Some INVALID_WORKER)
      else (set_policer pm policer_index (p <| pl_thread_index := worker_thread worker |>), None)
    else (set_policer pm policer_index (p <| pl_thread_index := NO_THREAD |>), None).

Inductive vlib_dir_t := VLIB_RX | VLIB_TX.

Definition by_sw_if_index (pm : vnet_policer_main_t) (dir : vlib_dir_t) : list Z :=
  match dir with VLIB_RX => by_sw_if_index_rx pm | VLIB_TX => by_sw_if_index_tx pm end.
Definition set_by_sw_if_index (pm : vnet_policer_main_t) (dir : vlib_dir_t) (v : list Z) : vnet_policer_main_t :=
  match dir with VLIB_RX => pm <| by_sw_if_index_rx := v |> | VLIB_TX => pm <| by_sw_if_index_tx := v |> end.

(** [vec_validate]: new elements are 0. *)
Definition validate_policer_vec (v : list Z) (i : nat) : list Z := v ++ replicate (S i - length v) 0.

(** The feature arcs to change, and the state. *)
Definition policer_input (pm : vnet_policer_main_t) (policer_index : Z) (sw_if_index : nat) (dir : vlib_dir_t) (apply : bool)
  : option (vnet_policer_main_t * list (string * string * nat * bool)) :=
  let v := by_sw_if_index pm dir in
  v ← (if apply then Some (<[sw_if_index := policer_index]> (validate_policer_vec v sw_if_index))
       else if (sw_if_index <? length v)%nat then Some (<[sw_if_index := NO_THREAD]> v) else None);
  Some (set_by_sw_if_index pm dir v,
        match dir with
        | VLIB_RX => [("device-input"%string, "policer-input"%string, sw_if_index, apply)]
        | VLIB_TX => [("ip4-output"%string, "policer-output"%string, sw_if_index, apply);
                      ("ip6-output"%string, "policer-output"%string, sw_if_index, apply)]
        end).

(** ** Packets *)

(** The bytes of the first buffer, the length of the chain, the interfaces, and the policer
    noted for a handoff. *)
Record pol_buffer := mk_pol_buffer {
  pb_data : list Z;
  pb_length_in_chain : Z;
  pb_sw_if_index_rx : nat;
  pb_sw_if_index_tx : nat;
  pb_policer_index : Z
}.

#[export] Instance pol_buffer_eta : Eta pol_buffer := fun b =>
  mk_pol_buffer (pb_data b) (pb_length_in_chain b) (pb_sw_if_index_rx b) (pb_sw_if_index_tx b) (pb_policer_index b).

Definition put_u32 (d : list Z) (i : nat) (x : Z) : list Z :=
  list_inserts i [x mod 256; x / 256 mod 256; x / 65536 mod 256; x / 16777216 mod 256] d.

(** The header at offset [o] as 32-bit words; the word with the checksum has it or not. *)
Definition ip4_header_checksum_inline (d : list Z) (o : nat) (with_checksum : bool) : Z :=
  let option_len := (Z.to_nat (Z.land (byte_at d o) 0xf) - 5)%nat in
  let word i := u32_at d (o + 4 * i) in
  let sum := word 0%nat + word 1%nat + (if with_checksum then word 2%nat else u16_at d (o + 8)) + word 3%nat + word 4%nat in
  let sum := sum + foldr (fun i s => word i + s) 0 (seq 5 option_len) in
  let sum := u32 sum + Z.shiftr sum 32 in
  let sum := u16 sum + Z.shiftr sum 16 in
  let sum := u16 sum + Z.shiftr sum 16 in
  65535 - u16 sum.

Definition IP4_NON_DSCP_BITS : Z := 0x03.
Definition IP4_DSCP_SHIFT : Z := 2.
Definition IP6_NON_DSCP_BITS : Z := 0xf03fffff.
Definition IP6_DSCP_SHIFT : Z := 22.

Definition vnet_policer_mark (d : list Z) (dscp : Z) : list Z :=
  let type := net_to_host_u16 (u16_at d 12) in
  if type =? 0x0800 then
    let tos := Z.land (byte_at d 15) IP4_NON_DSCP_BITS in
    let tos := u8 (Z.lor tos (Z.shiftl dscp IP4_DSCP_SHIFT)) in
    let d := <[15%nat := tos]> d in
    let c := ip4_header_checksum_inline d 14 false in
    list_inserts 24 [c mod 256; c / 256] d
  else if type =? 0x86dd then
    let w := Z.land (u32_at d 14) (host_to_net_u32 IP6_NON_DSCP_BITS) in
    put_u32 d 14 (Z.lor w (host_to_net_u32 (u32 (Z.shiftl dscp IP6_DSCP_SHIFT))))
  else d.

Definition count_packet (r : policer_result_e) (i len : Z) (c : gmap (nat * Z) (Z * Z)) : gmap (nat * Z) (Z * Z) :=
  let '(packets, bytes) := default (0, 0) (c !! (result_num r, i)) in
  <[(result_num r, i) := (u64 (packets + 1), u64 (bytes + len))]> c.

Definition vnet_policer_police (pm : vnet_policer_main_t) (thread_index : Z) (b : pol_buffer) (policer_index time : Z)
  (packet_color : policer_result_e) (handoff : bool) : option (vnet_policer_main_t * pol_buffer * qos_action_type_en) :=
  pol ← pool_elt_at_index (policers pm) policer_index;
  let hand_off := handoff && negb (pl_thread_index pol =? NO_THREAD) && negb (pl_thread_index pol =? thread_index) in
  if hand_off then Some (pm, b, QOS_ACTION_HANDOFF)
  else
    let pol := if handoff && (pl_thread_index pol =? NO_THREAD) then pol <| pl_thread_index := thread_index |> else pol in
    let len := pb_length_in_chain b in
    let '(pol, col) := vnet_police_packet pol len packet_color time in
    let act := nth (result_num col) (pl_action pol) QOS_ACTION_DROP in
    let pm := (set_policer pm policer_index pol) <| policer_counters := count_packet col policer_index len (policer_counters pm) |> in
    let b := if bool_decide (act = QOS_ACTION_MARK_AND_TRANSMIT)
             then b <| pb_data := vnet_policer_mark (pb_data b) (nth (result_num col) (pl_mark_dscp pol) 0) |> else b in
    Some (pm, b, act).

Inductive vnet_policer_next_t := VNET_POLICER_NEXT_DROP | VNET_POLICER_NEXT_HANDOFF | VNET_POLICER_NEXT_FEATURE.

(** A packet of the nodes [policer-input] and [policer-output]. *)
Definition vnet_policer_1 (pm : vnet_policer_main_t) (thread_index time : Z) (dir : vlib_dir_t) (b : pol_buffer)
  : option (vnet_policer_main_t * (pol_buffer * vnet_policer_next_t)) :=
  let sw_if_index := match dir with VLIB_RX => pb_sw_if_index_rx b | VLIB_TX => pb_sw_if_index_tx b end in
  pi ← by_sw_if_index pm dir !! sw_if_index;
  '(pm, b, act) ← vnet_policer_police pm thread_index b pi time POLICE_CONFORM true;
  Some (pm, match act with
            | QOS_ACTION_HANDOFF => (b <| pb_policer_index := pi |>, VNET_POLICER_NEXT_HANDOFF)
            | QOS_ACTION_DROP => (b, VNET_POLICER_NEXT_DROP)
            | _ => (b, VNET_POLICER_NEXT_FEATURE)
            end).

(** A frame, its packets in order, at the time [clock] of the time-stamp counter; the number of
    packets transmitted goes to a counter. *)
Fixpoint vnet_policer_frame (pm : vnet_policer_main_t) (thread_index time : Z) (dir : vlib_dir_t) (frame : list pol_buffer)
  : option (vnet_policer_main_t * list (pol_buffer * vnet_policer_next_t)) :=
  match frame with
  | [] => Some (pm, [])
  | b :: frame =>
      '(pm, r) ← vnet_policer_1 pm thread_index time dir b;
      '(pm, rs) ← vnet_policer_frame pm thread_index time dir frame;
      Some (pm, r :: rs)
  end.

Definition vnet_policer_inline (pm : vnet_policer_main_t) (thread_index clock : Z) (dir : vlib_dir_t) (frame : list pol_buffer)
  : option (vnet_policer_main_t * list (pol_buffer * vnet_policer_next_t)) :=
  vnet_policer_frame pm thread_index (Z.shiftr clock POLICER_TICKS_PER_PERIOD_SHIFT) dir frame.

(** The thread that each packet of a frame is handed to. *)
Definition policer_handoff (pm : vnet_policer_main_t) (policer_index : option Z) (frame : list pol_buffer) : option (list Z) :=
  mapM (fun b => pol ← pool_elt_at_index (policers pm) (default (pb_policer_index b) policer_index);
                 Some (u16 (pl_thread_index pol))) frame.

End Policer.
