(* ===== verification/PolicerMeter.v ===== *)
(** * Traffic policers: metering

    What a policer lets pass.  Over any sequence of packets the traffic that conforms is
    bounded by the burst and the committed rate, and for two rates the traffic that does
    not violate by the peak rate; and traffic within both bounds conforms. *)

From stdpp Require Import gmap strings.
From S2P Require Import Prelude Float NetTypes Pool Policer.

(** ** Well-formed policers *)

Record policer_wf (p : policer_t) : Prop := {
  pw_scale : 0 <= pl_scale p < 32;
  pw_cir : is_u 32 (pl_cir_tokens_per_period p);
  pw_pir : is_u 32 (pl_pir_tokens_per_period p);
  pw_climit : is_u 32 (pl_current_limit p);
  pw_cbucket : is_u 32 (pl_current_bucket p);
  pw_elimit : is_u 32 (pl_extended_limit p);
  pw_ebucket : is_u 32 (pl_extended_bucket p);
  pw_time : is_u 64 (pl_last_update_time p)
}.

(** The tokens that a packet costs. *)
Definition cost (p : policer_t) (len : Z) : Z := u32 (Z.shiftl len (pl_scale p)).

(** The rate of the extended bucket. *)
Definition extended_rate (p : policer_t) : Z :=
  if pl_single_rate p then pl_cir_tokens_per_period p else pl_pir_tokens_per_period p.

Lemma tokens_bounds b l n r : is_u 32 b -> is_u 32 l -> 0 <= n -> is_u 32 r -> 0 <= tokens b l n r <= l /\ tokens b l n r <= b + r * n.
Proof.
  unfold is_u. intros Hb Hl Hn Hr. unfold tokens.
  assert (0 <= n * r) as Hnr by (apply Z.mul_nonneg_nonneg; lia).
  assert (0 <= u64 (n * r) <= n * r) as H1 by (split; [apply Z.mod_pos_bound; lia|apply Z.mod_le; lia]).
  assert (0 <= u64 (b + u64 (n * r)) <= b + u64 (n * r)) as H2 by (split; [apply Z.mod_pos_bound; lia|apply Z.mod_le; lia]).
  destruct (Z.ltb_spec l (u64 (b + u64 (n * r)))); split; nia.
Qed.

Lemma tokens_exact b l n r : is_u 32 b -> 0 <= n -> 0 <= r -> r * n < 2 ^ 63 -> tokens b l n r = Z.min l (b + r * n).
Proof.
  unfold is_u. intros Hb Hn Hr Hnr. unfold tokens. assert (0 <= r * n) by (apply Z.mul_nonneg_nonneg; lia).
  rewrite (Z.mul_comm n r), (u64_small (r * n)), u64_small by (unfold is_u; lia). destruct (Z.ltb_spec l (b + r * n)); lia.
Qed.

(** ** One packet *)

(** The buckets before and after a packet: [c] and [e] are the tokens after the refill. *)
Record metered (p : policer_t) (len t : Z) (p' : policer_t) (r : policer_result_e) (c e : Z) : Prop := {
  me_same : p' = p <| pl_last_update_time := t |> <| pl_current_bucket := pl_current_bucket p' |> <| pl_extended_bucket := pl_extended_bucket p' |>;
  me_c : c = tokens (pl_current_bucket p) (pl_current_limit p) (t - pl_last_update_time p) (pl_cir_tokens_per_period p);
  me_e : e = tokens (pl_extended_bucket p) (pl_extended_limit p) (t - pl_last_update_time p) (extended_rate p);
  me_wf : policer_wf p';
  me_current : pl_current_bucket p' = c - (if decide (r = POLICE_CONFORM) then cost p len else 0);
  me_extended : pl_single_rate p = false -> pl_extended_bucket p' = e - (if decide (r = POLICE_VIOLATE) then 0 else cost p len)
}.

Lemma police_metered p len color t p' r :
  policer_wf p -> pl_last_update_time p <= t < 2 ^ 64 -> vnet_police_packet p len color t = (p', r) -> exists c e, metered p len t p' r c e.
Proof.
  intros [W1 W2 W3 W4 W5 W6 W7 W8] Ht. unfold vnet_police_packet. cbv zeta. fold (cost p len). rewrite u64_small by (unfold is_u in *; lia).
  set (n := t - pl_last_update_time p). assert (0 <= n) as Hn by (unfold n; lia).
  pose proof (tokens_bounds _ _ n _ W5 W4 Hn W2) as [Hc _]. pose proof (u32_range (Z.shiftl len (pl_scale p))) as HL. fold (cost p len) in HL.
  set (c := tokens (pl_current_bucket p) (pl_current_limit p) n (pl_cir_tokens_per_period p)) in *.
  assert (forall x, 0 <= x <= pl_current_limit p -> u32 x = x) as Uc by (intros x Hx; apply u32_small; unfold is_u in *; lia).
  assert (forall x, 0 <= x <= pl_extended_limit p -> u32 x = x) as Ue by (intros x Hx; apply u32_small; unfold is_u in *; lia).
  assert (is_u 32 (extended_rate p)) as Wr by (unfold extended_rate; now destruct (pl_single_rate p)).
  pose proof (tokens_bounds _ _ n _ W7 W6 Hn Wr) as [He _].
  set (e := tokens (pl_extended_bucket p) (pl_extended_limit p) n (extended_rate p)) in *.
  intros H. exists c, e. unfold extended_rate in e. cbn [set_field pl_single_rate pl_current_bucket pl_current_limit pl_cir_tokens_per_period
    pl_extended_bucket pl_extended_limit pl_pir_tokens_per_period pl_color_aware pl_scale pl_last_update_time] in H. fold c in H.
  destruct (pl_single_rate p) eqn:Es; fold e in H.
  all: repeat match type of H with (if ?b then _ else _) = _ => destruct b eqn:?; breflect end; injection H as <- <-.
  all: split; cbn; unfold extended_rate; rewrite ?Es; try reflexivity; try discriminate.
  all: try (intros _); repeat case_decide; try congruence.
  all: rewrite ?Uc, ?Ue by (unfold is_u in *; lia); try lia.
  all: split; cbn; rewrite ?Uc, ?Ue by (unfold is_u in *; lia); try assumption; try apply u32_range; unfold is_u in *; lia.
Qed.

Definition meter_config (p : policer_t) : bool * Z * Z * Z * Z * Z :=
  (pl_single_rate p, pl_scale p, pl_cir_tokens_per_period p, extended_rate p, pl_current_limit p, pl_extended_limit p).

Lemma metered_config p len t p' r c e : metered p len t p' r c e -> meter_config p' = meter_config p /\ pl_last_update_time p' = t.
Proof. intros [-> _ _ _ _ _]. split; reflexivity. Qed.

(** ** Sequences of packets *)

Record arrival := mk_arrival { a_len : Z; a_color : policer_result_e; a_time : Z }.

Fixpoint police_run (p : policer_t) (l : list arrival) : policer_t * list policer_result_e :=
  match l with
  | [] => (p, [])
  | a :: l => let '(p, r) := vnet_police_packet p (a_len a) (a_color a) (a_time a) in
              let '(p, rs) := police_run p l in (p, r :: rs)
  end.

(** Times do not decrease, from [t] on. *)
Fixpoint in_order (t : Z) (l : list arrival) : Prop :=
  match l with
  | [] => True
  | a :: l => t <= a_time a < 2 ^ 64 /\ in_order (a_time a) l
  end.

(** Lengths that the scale of the policer does not push out of 32 bits. *)
Definition lengths_fit (scale : Z) (l : list arrival) : Prop := Forall (fun a => 0 <= a_len a < 2 ^ (32 - scale)) l.

Definition bytes (l : list arrival) : Z := foldr (fun a s => a_len a + s) 0 l.

(** The packets with a result. *)
Fixpoint with_result (f : policer_result_e -> bool) (l : list arrival) (rs : list policer_result_e) : list arrival :=
  match l, rs with
  | a :: l, r :: rs => if f r then a :: with_result f l rs else with_result f l rs
  | _, _ => []
  end.

Definition conforms (r : policer_result_e) : bool := bool_decide (r = POLICE_CONFORM).
Definition not_violating (r : policer_result_e) : bool := bool_decide (r <> POLICE_VIOLATE).

Lemma cost_exact p len : 0 <= pl_scale p < 32 -> 0 <= len < 2 ^ (32 - pl_scale p) -> cost p len = len * 2 ^ pl_scale p.
Proof.
  intros Hs Hl. unfold cost. rewrite Z.shiftl_mul_pow2 by lia. apply u32_small. split; [nia|].
  replace (2 ^ 32) with (2 ^ (32 - pl_scale p) * 2 ^ pl_scale p) by (rewrite <- Z.pow_add_r by lia; f_equal; lia).
  apply Z.mul_lt_mono_pos_r; [apply Z.pow_pos_nonneg|]; lia.
Qed.

(** A bucket pays for what is taken from it: [b] tokens at the start and [r] per period. *)
Lemma police_run_pays p l p' rs :
  policer_wf p -> in_order (pl_last_update_time p) l -> lengths_fit (pl_scale p) l -> police_run p l = (p', rs) ->
  let dt := pl_last_update_time p' - pl_last_update_time p in
  bytes (with_result conforms l rs) * 2 ^ pl_scale p + pl_current_bucket p' <= pl_current_bucket p + pl_cir_tokens_per_period p * dt /\
  (pl_single_rate p = false ->
   bytes (with_result not_violating l rs) * 2 ^ pl_scale p + pl_extended_bucket p' <= pl_extended_bucket p + pl_pir_tokens_per_period p * dt) /\
  policer_wf p'.
Proof.
  cbv zeta. revert p p' rs. induction l as [|a l IH]; intros p p' rs W Ho Hl; cbn [police_run].
  { intros [= <- <-]. cbn. split; [lia|]. split; [intros _; lia|exact W]. }
  destruct (vnet_police_packet p _ _ _) as [p1 r] eqn:E1. destruct (police_run p1 l) as [p2 rs2] eqn:E2. intros [= <- <-].
  destruct Ho as [Ht Ho]. inversion Hl as [|? ? Ha Hl']; subst. destruct (police_metered _ _ _ _ _ _ W Ht E1) as (c & e & M).
  destruct (metered_config _ _ _ _ _ _ _ M) as [[= K1 K2 K3 K4 K5 K6] KT].
  destruct (IH p1 p2 rs2) as (I1 & I2 & I3); [exact (me_wf _ _ _ _ _ _ _ M)|now rewrite KT|now rewrite K2|exact E2|].
  destruct W as [W1 W2 W3 W4 W5 W6 W7 W8]. assert (0 <= a_time a - pl_last_update_time p) as Hdt by lia.
  assert (is_u 32 (extended_rate p)) as Wr by (unfold extended_rate; now destruct (pl_single_rate p)).
  pose proof (proj2 (tokens_bounds _ _ _ _ W5 W4 Hdt W2)) as Bc. pose proof (proj2 (tokens_bounds _ _ _ _ W7 W6 Hdt Wr)) as Be.
  rewrite <- (me_c _ _ _ _ _ _ _ M) in Bc. rewrite <- (me_e _ _ _ _ _ _ _ M) in Be.
  pose proof (me_current _ _ _ _ _ _ _ M) as Mc. pose proof (me_extended _ _ _ _ _ _ _ M) as Me.
  rewrite (cost_exact p _ W1 Ha) in Mc, Me. rewrite K2, K3, KT in I1. rewrite K1, K2, KT in I2.
  split; [|split; [intros Hs|exact I3]].
  - cbn [with_result]. unfold conforms at 1. destruct (decide (r = POLICE_CONFORM)) as [->|Hr].
    + rewrite bool_decide_true by reflexivity. cbn [bytes foldr]. fold (bytes (with_result conforms l rs2)). nia.
    + rewrite bool_decide_false by assumption. nia.
  - specialize (I2 Hs). specialize (Me Hs). unfold extended_rate in K4, Be. rewrite Hs in K4, Be. rewrite K1, Hs in K4. rewrite K4 in I2.
    cbn [with_result]. unfold not_violating at 1. destruct (decide (r = POLICE_VIOLATE)) as [->|Hr].
    + rewrite bool_decide_false by (intros Hc; now apply Hc). nia.
    + rewrite bool_decide_true by assumption. cbn [bytes foldr]. fold (bytes (with_result not_violating l rs2)). nia.
Qed.

(** C31 A policer bounds what it lets pass: over any sequence of packets (times that do not decrease, lengths
    that the scale does not push out of 32 bits, any colors) the bytes that conform, in tokens, are at most
    the tokens in the current bucket at the start and those of the committed rate since; the bytes that do not
    violate are bounded likewise by the extended bucket and the peak rate of a two-rate policer. *)
Theorem policer_rate_bound p l :
  policer_wf p -> in_order (pl_last_update_time p) l -> lengths_fit (pl_scale p) l ->
  let '(p', rs) := police_run p l in
  let dt := pl_last_update_time p' - pl_last_update_time p in
  bytes (with_result conforms l rs) * 2 ^ pl_scale p <= pl_current_bucket p + pl_cir_tokens_per_period p * dt /\
  (pl_single_rate p = false ->
   bytes (with_result not_violating l rs) * 2 ^ pl_scale p <= pl_extended_bucket p + pl_pir_tokens_per_period p * dt).
Proof.
  intros W Ho Hl. destruct (police_run p l) as [p' rs] eqn:E. destruct (police_run_pays p l p' rs W Ho Hl E) as (H1 & H2 & W').
  destruct W' as [_ _ _ _ [Hc _] _ [He _] _]. split; [lia|]. intros Hs. specialize (H2 Hs). lia.
Qed.

(** ** Traffic within the bounds conforms *)

Lemma police_conforms p len color t :
  pl_last_update_time p <= t < 2 ^ 64 -> 0 <= pl_last_update_time p -> pl_color_aware p = false \/ color = POLICE_CONFORM ->
  cost p len <= tokens (pl_current_bucket p) (pl_current_limit p) (t - pl_last_update_time p) (pl_cir_tokens_per_period p) ->
  (pl_single_rate p = false ->
   cost p len <= tokens (pl_extended_bucket p) (pl_extended_limit p) (t - pl_last_update_time p) (pl_pir_tokens_per_period p)) ->
  snd (vnet_police_packet p len color t) = POLICE_CONFORM.
Proof.
  intros Ht H0 Hc Hcur Hext. unfold vnet_police_packet. cbv zeta. fold (cost p len). rewrite u64_small by (unfold is_u; lia). cbn.
  destruct (pl_single_rate p).
  - rewrite (proj2 (Z.leb_le _ _) Hcur), andb_true_r. destruct Hc as [-> | ->]; [reflexivity|]. now rewrite bool_decide_true, orb_true_r.
  - rewrite (proj2 (Z.ltb_ge _ _) Hcur), (proj2 (Z.ltb_ge _ _) (Hext eq_refl)), !orb_false_r.
    destruct Hc as [-> | ->]; [reflexivity|]. now rewrite !bool_decide_false, !andb_false_r by discriminate.
Qed.

Section Curve.
Variables limit rate scale : Z.
Hypothesis Hrate : 0 <= rate.

(** From [b] tokens at time [t0] every packet of [l] can be paid, if the limit is not reached. *)
Definition affordable (b t0 : Z) (l : list arrival) : Prop :=
  forall k a, l !! k = Some a -> bytes (take (S k) l) * 2 ^ scale <= b + rate * (a_time a - t0).

(** Traffic within a burst of [limit] and the rate: between any two packets, both included, there are no
    more bytes than [limit] tokens and the rate over the time between them. *)
Definition within (l : list arrival) : Prop := forall i a, l !! i = Some a -> affordable limit (a_time a) (drop i l).

Lemma within_cons a l : within (a :: l) -> affordable limit (a_time a) (a :: l) /\ within l.
Proof. intros H. split; [exact (H 0%nat a eq_refl)|]. intros i b Hb. exact (H (S i) b Hb). Qed.

Lemma affordable_step b t0 a l :
  affordable b t0 (a :: l) -> affordable limit (a_time a) (a :: l) ->
  let c := Z.min limit (b + rate * (a_time a - t0)) in
  a_len a * 2 ^ scale <= c /\ affordable (c - a_len a * 2 ^ scale) (a_time a) l.
Proof.
  intros Hb Hl. cbv zeta. split.
  - pose proof (Hb 0%nat a eq_refl) as H1. pose proof (Hl 0%nat a eq_refl) as H2. cbn [take bytes foldr] in H1, H2. rewrite Z.add_0_r in H1, H2.
    rewrite Z.sub_diag, Z.mul_0_r in H2. lia.
  - intros k x Hx. pose proof (Hb (S k) x Hx) as H1. pose proof (Hl (S k) x Hx) as H2.
    cbn [take bytes foldr] in H1, H2. change (foldr _ 0 (take (S k) l)) with (bytes (take (S k) l)) in H1, H2.
    rewrite Z.mul_add_distr_r in H1, H2. rewrite !Z.mul_sub_distr_l in *. lia.
Qed.

(** A full bucket affords what is within its limit. *)
Lemma within_affordable l t0 : within l -> in_order t0 l -> affordable limit t0 l.
Proof.
  intros Hw Ho k x Hx. destruct l as [|a l]; [discriminate|]. pose proof (Hw 0%nat a eq_refl k x Hx) as H. cbn [drop] in H. destruct Ho as [Ha _]. nia.
Qed.

End Curve.

(** The rates times the time since the last update stay far from 64 bits. *)
Definition no_overflow (p : policer_t) (l : list arrival) : Prop :=
  Forall (fun a => pl_cir_tokens_per_period p * (a_time a - pl_last_update_time p) < 2 ^ 63 /\
                   pl_pir_tokens_per_period p * (a_time a - pl_last_update_time p) < 2 ^ 63) l.

Lemma police_run_conforming l : forall p,
  policer_wf p -> in_order (pl_last_update_time p) l -> lengths_fit (pl_scale p) l -> no_overflow p l ->
  (pl_color_aware p = false \/ Forall (fun a => a_color a = POLICE_CONFORM) l) ->
  affordable (pl_cir_tokens_per_period p) (pl_scale p) (pl_current_bucket p) (pl_last_update_time p) l ->
  within (pl_current_limit p) (pl_cir_tokens_per_period p) (pl_scale p) l ->
  (pl_single_rate p = false ->
   affordable (pl_pir_tokens_per_period p) (pl_scale p) (pl_extended_bucket p) (pl_last_update_time p) l /\
   within (pl_extended_limit p) (pl_pir_tokens_per_period p) (pl_scale p) l) ->
  snd (police_run p l) = replicate (length l) POLICE_CONFORM.
Proof.
  induction l as [|a l IH]; intros p W Ho Hl Hn Hcol Hac Hwc Hext; [reflexivity|]. cbn [police_run].
  destruct (vnet_police_packet p _ _ _) as [p1 r] eqn:E1. destruct Ho as [Ht Ho]. inversion Hl as [|? ? Ha Hl']; subst. inversion Hn as [|? ? [N1 N2] Hn']; subst.
  destruct (police_metered _ _ _ _ _ _ W Ht E1) as (c & e & M). destruct (metered_config _ _ _ _ _ _ _ M) as [[= K1 K2 K3 K4 K5 K6] KT].
  pose proof W as [W1 W2 W3 W4 W5 W6 W7 W8]. unfold is_u in W2, W3, W8. pose proof (cost_exact p _ W1 Ha) as Hcost.
  apply within_cons in Hwc as [Hc1 Hwc]. destruct (affordable_step _ _ _ _ _ _ _ Hac Hc1) as [Hpay Hac'].
  rewrite <- (tokens_exact _ _ _ _ W5) in Hpay, Hac' by lia. rewrite <- Hcost in Hpay, Hac'.
  assert (pl_single_rate p = false -> cost p (a_len a) <= tokens (pl_extended_bucket p) (pl_extended_limit p) (a_time a - pl_last_update_time p) (pl_pir_tokens_per_period p) /\
    affordable (pl_pir_tokens_per_period p) (pl_scale p) (tokens (pl_extended_bucket p) (pl_extended_limit p) (a_time a - pl_last_update_time p) (pl_pir_tokens_per_period p) - cost p (a_len a)) (a_time a) l /\
    within (pl_extended_limit p) (pl_pir_tokens_per_period p) (pl_scale p) l) as He.
  { intros Hs. destruct (Hext Hs) as [Hae Hwe]. apply within_cons in Hwe as [He1 Hwe]. destruct (affordable_step _ _ _ _ _ _ _ Hae He1) as [Hp2 Hae'].
    rewrite <- (tokens_exact _ _ _ _ W7) in Hp2, Hae' by lia. rewrite <- Hcost in Hp2, Hae'. now repeat split. }
  assert (r = POLICE_CONFORM) as ->.
  { change r with (snd (p1, r)). rewrite <- E1. apply police_conforms; [exact Ht|lia| |exact Hpay|intros Hs; apply (He Hs)].
    destruct Hcol as [|Hcol]; [now left|right]. now inversion Hcol. }
  specialize (IH p1). destruct (police_run p1 l) as [p2 rs]. cbn [snd] in *. cbn [length replicate]. f_equal. apply IH.
  - exact (me_wf _ _ _ _ _ _ _ M).
  - now rewrite KT.
  - now rewrite K2.
  - unfold no_overflow in *. rewrite (me_same _ _ _ _ _ _ _ M). cbn. eapply Forall_impl; [exact Hn'|]. cbn. intros x [X1 X2]. split; nia.
  - rewrite (me_same _ _ _ _ _ _ _ M). cbn. destruct Hcol as [|Hcol]; [now left|right]. now inversion Hcol.
  - pose proof (me_current _ _ _ _ _ _ _ M) as Mc. rewrite (me_c _ _ _ _ _ _ _ M), decide_True in Mc by reflexivity. now rewrite K2, K3, KT, Mc.
  - now rewrite K2, K3, K5.
  - intros Hs. rewrite K1 in Hs. specialize (He Hs) as (_ & He1 & He2). pose proof (me_extended _ _ _ _ _ _ _ M Hs) as Me.
    rewrite (me_e _ _ _ _ _ _ _ M), decide_False in Me by discriminate. unfold extended_rate in K4, Me. rewrite K1, Hs in K4. rewrite Hs in Me.
    now rewrite K2, K4, K6, KT, Me.
Qed.

(** C32 Traffic within the bounds conforms: when the buckets of a policer are full and between any two packets
    there is no more traffic than the committed burst and rate allow - and for a two-rate policer the peak
    burst and rate - every packet conforms, on a policer that ignores colors or for packets that come as
    conforming. *)
Theorem conforming_traffic_passes p l :
  policer_wf p -> in_order (pl_last_update_time p) l -> lengths_fit (pl_scale p) l -> no_overflow p l ->
  pl_color_aware p = false \/ Forall (fun a => a_color a = POLICE_CONFORM) l ->
  pl_current_bucket p = pl_current_limit p -> pl_extended_bucket p = pl_extended_limit p ->
  within (pl_current_limit p) (pl_cir_tokens_per_period p) (pl_scale p) l ->
  (pl_single_rate p = false -> within (pl_extended_limit p) (pl_pir_tokens_per_period p) (pl_scale p) l) ->
  snd (police_run p l) = replicate (length l) POLICE_CONFORM.
Proof.
  intros W Ho Hl Hn Hcol Ec Ee Hc He. pose proof (pw_cir _ W) as [Hcir _]. pose proof (pw_pir _ W) as [Hpir _].
  apply police_run_conforming; try assumption.
  - rewrite Ec. now apply within_affordable.
  - intros Hs. specialize (He Hs). split; [rewrite Ee; now apply within_affordable|exact He].
Qed.

(** ** Examples *)

(** Two rates: 100 and 200 tokens per period, bursts of 1000 and 2000. *)
Definition example_policer : policer_t :=
  policer_zero <| pl_cir_tokens_per_period := 100 |> <| pl_pir_tokens_per_period := 200 |> <| pl_current_limit := 1000 |>
    <| pl_current_bucket := 1000 |> <| pl_extended_limit := 2000 |> <| pl_extended_bucket := 2000 |>.

Lemma example_policer_wf : policer_wf example_policer.
Proof. split; vm_compute; split; congruence. Qed.

Definition example_arrivals : list arrival :=
  [mk_arrival 900 POLICE_CONFORM 1; mk_arrival 900 POLICE_CONFORM 2; mk_arrival 900 POLICE_CONFORM 2; mk_arrival 600 POLICE_CONFORM 6].

Example example_results :
  snd (police_run example_policer example_arrivals) = [POLICE_CONFORM; POLICE_EXCEED; POLICE_VIOLATE; POLICE_CONFORM].
Proof. reflexivity. Qed.

Definition example_conforming : list arrival := [mk_arrival 700 POLICE_CONFORM 1; mk_arrival 400 POLICE_CONFORM 2].

Lemma example_in_order : in_order 0 example_arrivals /\ in_order 0 example_conforming.
Proof. cbn [in_order example_arrivals example_conforming a_time]. lia. Qed.

Lemma example_fit : lengths_fit 0 example_arrivals /\ lengths_fit 0 example_conforming.
Proof. split; repeat apply Forall_cons_2; try apply Forall_nil_2; cbn [a_len]; lia. Qed.

Lemma policer_rate_bound_witness :
  let '(p', rs) := police_run example_policer example_arrivals in
  let dt := pl_last_update_time p' - pl_last_update_time example_policer in
  bytes (with_result conforms example_arrivals rs) * 2 ^ pl_scale example_policer <=
    pl_current_bucket example_policer + pl_cir_tokens_per_period example_policer * dt /\
  (pl_single_rate example_policer = false ->
   bytes (with_result not_violating example_arrivals rs) * 2 ^ pl_scale example_policer <=
     pl_extended_bucket example_policer + pl_pir_tokens_per_period example_policer * dt).
Proof. exact (policer_rate_bound example_policer example_arrivals example_policer_wf (proj1 example_in_order) (proj1 example_fit)). Defined.

Lemma conforming_traffic_passes_witness : snd (police_run example_policer example_conforming) = [POLICE_CONFORM; POLICE_CONFORM].
Proof.
  apply (conforming_traffic_passes example_policer example_conforming example_policer_wf (proj2 example_in_order) (proj2 example_fit));
    [repeat apply Forall_cons_2; try apply Forall_nil_2; split; reflexivity|now left|reflexivity|reflexivity| |intros _].
  all: intros [|[|i]] a Ha; try discriminate; injection Ha as <-; intros [|[|k]] b Hb; try discriminate; injection Hb as <-; vm_compute; discriminate.
Defined.

(** With one rate a conforming packet also takes tokens from the extended bucket, without a check: a packet that
    exceeds and one that conforms take the bucket below 0, it wraps, and the next packet finds it full. *)
Example single_rate_extended_refill :
  let p := policer_zero <| pl_single_rate := true |> <| pl_cir_tokens_per_period := 1 |> <| pl_current_limit := 1000 |>
             <| pl_current_bucket := 1000 |> <| pl_extended_limit := 2000 |> <| pl_extended_bucket := 2000 |> in
  let l := map (fun n => mk_arrival n POLICE_CONFORM 0) [1500; 1000; 2000; 2000] in
  snd (police_run p l) = [POLICE_EXCEED; POLICE_CONFORM; POLICE_EXCEED; POLICE_VIOLATE].
Proof. reflexivity. Qed.

(** A policer of 1 kbps with a burst of 1000 bytes has scale 22: the cost of a packet of 1024 bytes wraps to 0,
    and such packets always conform. *)
Example long_packets_are_free :
  let cfg := pol_cfg_zero <| cfg_cir := 1 |> <| cfg_cb := 1000 |> in
  match pol_logical_2_physical 1000000000 cfg with
  | Some p => map (cost p) [1000; 1024; 2048] = [4194304000; 0; 0] /\
              snd (police_run p (replicate 5 (mk_arrival 1024 POLICE_CONFORM 0))) = replicate 5 POLICE_CONFORM
  | None => False
  end.
Proof. vm_compute. split; reflexivity. Qed.
