(* ===== verification/PolicerProps.v ===== *)
(** * Traffic policers: configuration, names and marking

    Which configurations are accepted and what they become; the tables of policers
    through every history of operations and frames; and the marking of IPv4 packets. *)

From Stdlib Require Import SpecFloat.
From stdpp Require Import gmap strings.
From S2P Require Import Prelude Float NetTypes Pool Policer PolicerMeter.

(** ** Configuration *)

(** The ranges of the fields of a configuration. *)
Record cfg_ok (c : qos_pol_cfg_params_st) : Prop := {
  co_cir : is_u 32 (cfg_cir c);
  co_eir : is_u 32 (cfg_eir c);
  co_cb : is_u 64 (cfg_cb c);
  co_eb : is_u 64 (cfg_eb c);
  co_current : is_u 32 (cfg_current_bucket c);
  co_extended : is_u 32 (cfg_extended_bucket c)
}.

Lemma clz32_fits max x : 1 <= max < 2 ^ 32 -> 0 <= x <= max ->
  0 <= clz32 max < 32 /\ u32 (Z.shiftl x (clz32 max)) = x * 2 ^ clz32 max.
Proof.
  intros Hm Hx. unfold clz32. assert (0 <= Z.log2 max < 32) as Hl by (split; [apply Z.log2_nonneg|apply Z.log2_lt_pow2; lia]).
  split; [lia|]. rewrite Z.shiftl_mul_pow2 by lia. apply u32_small. pose proof (Z.log2_spec max ltac:(lia)) as [_ H2]. split; [nia|].
  replace (2 ^ 32) with (2 ^ Z.succ (Z.log2 max) * 2 ^ (31 - Z.log2 max)) by (rewrite <- Z.pow_add_r by lia; f_equal; lia).
  apply Z.mul_lt_mono_pos_r; [apply Z.pow_pos_nonneg|]; lia.
Qed.

Lemma compute_params_fit hz cir pir cl el :
  is_u 32 cl -> is_u 32 el -> cl <> 0 \/ el <> 0 ->
  let r := compute_policer_params hz cir pir cl el in
  0 <= pp_scale r < 32 /\ pp_current_limit r = cl * 2 ^ pp_scale r /\ pp_extended_limit r = el * 2 ^ pp_scale r /\
  is_u 32 (pp_current_limit r) /\ is_u 32 (pp_extended_limit r) /\ is_u 32 (pp_cir r) /\ is_u 32 (pp_pir r).
Proof.
  intros Hc He Hne. cbv zeta. unfold compute_policer_params. cbv zeta. cbn [pp_scale pp_current_limit pp_extended_limit pp_cir pp_pir].
  set (max := Z.max (Z.max (Z.max cl el) _) _).
  assert (1 <= max < 2 ^ 32 /\ cl <= max /\ el <= max) as (Hm & Hcm & Hem).
  { unfold max. match goal with |- context [Z.max (Z.max _ ?x) ?y] => assert (is_u 32 x /\ is_u 32 y) as [Hx Hy] by (split; apply u32_range) end. unfold is_u in *. lia. }
  unfold is_u in Hc, He. destruct (clz32_fits max cl Hm ltac:(lia)) as [Hs Ec]. destruct (clz32_fits max el Hm ltac:(lia)) as [_ Ee].
  split; [exact Hs|]. split; [exact Ec|]. split; [exact Ee|]. repeat split; try apply u32_range; apply u32_of_f64_range.
Qed.

(** What [x86_pol_compute_hw_params] accepts, and the configuration without rate and bursts, which it
    takes for a policer that is not set up. *)
Definition cfg_unset (k : qos_pol_cfg_params_st) : bool := (cfg_cir k =? 0) && (cfg_cb k =? 0) && (cfg_eb k =? 0).
Definition cfg_valid (k : qos_pol_cfg_params_st) : Prop :=
  match cfg_rfc k with
  | TYPE_1R2C => cfg_cir k <> 0 /\ cfg_eir k = 0 /\ cfg_cb k <> 0 /\ cfg_eb k = 0
  | TYPE_1R3C_RFC_2697 => cfg_cir k <> 0 /\ cfg_eir k = 0 /\ (cfg_cb k <> 0 \/ cfg_eb k <> 0)
  | TYPE_2R3C_RFC_2698 | TYPE_2R3C_RFC_4115 => cfg_cir k <> 0 /\ cfg_cir k <= cfg_eir k /\ cfg_cb k <> 0 /\ cfg_eb k <> 0
  | TYPE_2R3C_RFC_MEF5CF1 => False
  end.

Definition capped (x : Z) : Z := Z.min x (2 ^ 32 - 1).

Lemma kbps_cfg_ok cfg k : cfg_ok cfg -> kbps_cfg cfg = Some k -> cfg_ok k /\ cfg_rfc k = cfg_rfc cfg.
Proof.
  intros [H1 H2 H3 H4 _ _]. unfold kbps_cfg. destruct (cfg_rate_type cfg); intros [= <-]; (split; [|reflexivity]).
  - split; cbn; auto; split; reflexivity || discriminate.
  - assert (forall x, is_u 32 x -> is_u 64 x) as W by (unfold is_u; lia).
    split; cbn; try apply u32_range; try (apply W, u32_range); split; reflexivity || discriminate.
Qed.

(** The limits and buckets that a policer gets. *)
Record translated (k : qos_pol_cfg_params_st) (p : policer_t) : Prop := {
  tr_wf : policer_wf p;
  tr_current : pl_current_limit p = capped (cfg_cb k) * 2 ^ pl_scale p;
  tr_extended : pl_extended_limit p = capped (cfg_eb k) * 2 ^ pl_scale p;
  tr_full : pl_current_bucket p = pl_current_limit p /\ pl_extended_bucket p = pl_extended_limit p
}.

Lemma capped_eq x : (if 0xFFFFFFFF <? x then 0xFFFFFFFF else x) = capped x.
Proof. unfold capped. destruct (Z.ltb_spec 0xFFFFFFFF x); lia. Qed.

Lemma capped_range x : is_u 64 x -> is_u 32 (capped x) /\ (capped x = 0 <-> x = 0).
Proof. unfold is_u, capped. lia. Qed.

Lemma x86_translated hz k hw :
  cfg_ok k -> policer_wf hw -> pl_scale hw = 0 -> pl_current_bucket hw = 0 -> pl_extended_bucket hw = 0 ->
  match x86_pol_compute_hw_params hz k hw with
  | Some p => (cfg_unset k = true \/ cfg_valid k) /\ translated k p
  | None => cfg_unset k = false /\ ~ cfg_valid k
  end.
Proof.
  intros [H1 H2 H3 H4 _ _] [W1 W2 W3 W4 W5 W6 W7 W8] Hs Hcb Heb. unfold x86_pol_compute_hw_params. cbv zeta. rewrite !capped_eq.
  destruct (capped_range _ H3) as [Rc Zc]. destruct (capped_range _ H4) as [Re Ze].
  assert (forall (hw' : policer_t) cir pir, cfg_cb k <> 0 \/ cfg_eb k <> 0 -> pl_last_update_time hw' = 0 ->
    translated k (set_params hw' (compute_policer_params hz cir pir (capped (cfg_cb k)) (capped (cfg_eb k))))) as Hset.
  { intros hw' cir pir Hne Ht. destruct (compute_params_fit hz cir pir _ _ Rc Re ltac:(tauto)) as (P1 & P2 & P3 & P4 & P5 & P6 & P7).
    split; [split|..]; cbn; auto. rewrite Ht. split; reflexivity || lia. }
  fold (cfg_unset k). destruct (cfg_unset k) eqn:Eu.
  { unfold cfg_unset in Eu. breflect. split; [now left|]. rewrite (proj2 Zc), (proj2 Ze) in * by assumption.
    split; [split|..]; cbn; rewrite ?(proj2 Zc), ?(proj2 Ze), ?Hs, ?Hcb, ?Heb by assumption; auto; split; reflexivity || lia. }
  unfold cfg_valid. unfold is_u in H1, H2.
  destruct (cfg_rfc k); cbn [andb]; try (now split).
  all: repeat match goal with |- match (if ?b then _ else _) with _ => _ end => destruct b eqn:?; breflect end; cbn [pl_current_limit pl_extended_limit set_field].
  all: try (split; [reflexivity|]; intros Hv;
    repeat match goal with H : _ || _ = true |- _ => apply orb_true_iff in H; destruct H end; breflect; lia).
  all: split; [right|]; try (apply Hset; [|reflexivity]);
    repeat match goal with H : (_ && _) = false |- _ => apply andb_false_iff in H end; breflect; try lia.
  all: repeat match goal with H : _ \/ _ |- _ => destruct H end; breflect; lia.
Qed.

Lemma policer_zero_wf actions dscps aware :
  policer_wf (policer_zero <| pl_action := actions |> <| pl_mark_dscp := dscps |> <| pl_color_aware := aware |>).
Proof. split; cbn; split; reflexivity || lia. Qed.

Lemma logical_wf hz cfg p : cfg_ok cfg -> pol_logical_2_physical hz cfg = Some p -> policer_wf p.
Proof.
  intros Hc. unfold pol_logical_2_physical. cbv zeta. destruct (kbps_cfg cfg) as [k|] eqn:Ek; [|discriminate]. cbn [mbind option_bind].
  destruct (kbps_cfg_ok _ _ Hc Ek) as [Hk _]. set (hw := policer_zero <| pl_action := _ |> <| pl_mark_dscp := _ |> <| pl_color_aware := _ |>).
  pose proof (x86_translated hz k hw Hk (policer_zero_wf _ _ _) eq_refl eq_refl eq_refl) as H. destruct (x86_pol_compute_hw_params hz k hw) as [q|]; [|discriminate].
  cbn [mbind option_bind]. intros [= <-]. destruct H as [_ [[W1 W2 W3 W4 W5 W6 W7 W8] _ _ _]].
  destruct (cfg_overwrite_bucket cfg); split; cbn; auto; apply Hc.
Qed.

(** C33 A configuration is refused exactly if its rate type is unknown or its rates and bursts do not suit its
    type.  An accepted one gives a policer whose limits are the bursts, capped at 32 bits, times the scale -
    the scale never pushes them out of 32 bits - and whose buckets are full unless the configuration
    overwrites them. *)
Theorem policer_config_translated hz cfg :
  cfg_ok cfg ->
  match pol_logical_2_physical hz cfg with
  | Some p => exists k, kbps_cfg cfg = Some k /\ (cfg_unset k = true \/ cfg_valid k) /\ policer_wf p /\
      pl_current_limit p = capped (cfg_cb k) * 2 ^ pl_scale p /\ pl_extended_limit p = capped (cfg_eb k) * 2 ^ pl_scale p /\
      (cfg_overwrite_bucket cfg = false -> pl_current_bucket p = pl_current_limit p /\ pl_extended_bucket p = pl_extended_limit p)
  | None => kbps_cfg cfg = None \/ exists k, kbps_cfg cfg = Some k /\ cfg_unset k = false /\ ~ cfg_valid k
  end.
Proof.
  intros Hc. pose proof (logical_wf hz cfg) as Hwf. unfold pol_logical_2_physical in *. cbv zeta in *.
  destruct (kbps_cfg cfg) as [k|] eqn:Ek; [|now left]. cbn [mbind option_bind] in *. destruct (kbps_cfg_ok _ _ Hc Ek) as [Hk _].
  set (hw := policer_zero <| pl_action := _ |> <| pl_mark_dscp := _ |> <| pl_color_aware := _ |>) in *.
  pose proof (x86_translated hz k hw Hk (policer_zero_wf _ _ _) eq_refl eq_refl eq_refl) as H.
  destruct (x86_pol_compute_hw_params hz k hw) as [q|]; [|right; eauto]. cbn [mbind option_bind] in *.
  destruct H as [Hv [_ T1 T2 T3]]. specialize (Hwf _ Hc eq_refl). exists k. split; [reflexivity|]. split; [exact Hv|]. split; [exact Hwf|].
  destruct (cfg_overwrite_bucket cfg); cbn; (split; [exact T1|]; split; [exact T2|]; easy).
Qed.

Lemma policer_config_translated_witness :
  exists p, pol_logical_2_physical 2000000000 (pol_cfg_zero <| cfg_cir := 8000 |> <| cfg_cb := 15000 |>) = Some p /\
    pl_current_limit p = 15000 * 2 ^ pl_scale p /\ pl_scale p = 15.
Proof.
  pose proof (policer_config_translated 2000000000 (pol_cfg_zero <| cfg_cir := 8000 |> <| cfg_cb := 15000 |>)) as H.
  destruct (pol_logical_2_physical 2000000000 (pol_cfg_zero <| cfg_cir := 8000 |> <| cfg_cb := 15000 |>)) as [p|] eqn:E; [|vm_compute in E; discriminate].
  destruct H as (k & Ek & _ & _ & H & _); [split; cbn; unfold is_u; lia|]. injection Ek as <-. exists p. split; [reflexivity|].
  split; [exact H|]. vm_compute in E. injection E as <-. reflexivity.
Defined.

(** ** Histories *)

Inductive policer_event :=
| EV_ADD (name : string) (cfg : qos_pol_cfg_params_st)
| EV_DEL (i : Z)
| EV_UPDATE (i : Z) (cfg : qos_pol_cfg_params_st)
| EV_RESET (i : Z)
| EV_BIND (i worker : Z) (bind : bool)
| EV_INPUT (i : Z) (sw_if_index : nat) (dir : vlib_dir_t) (apply : bool)
| EV_FRAME (thread_index clock : Z) (dir : vlib_dir_t) (frame : list pol_buffer).

Section Histories.
Variable hz num_workers : Z.
Variable worker_thread : Z -> Z.

Definition policer_do (ev : policer_event) (pm : vnet_policer_main_t) : option vnet_policer_main_t :=
  match ev with
  | EV_ADD name cfg => Some (fst (policer_add hz pm name cfg))
  | EV_DEL i => Some (fst (policer_del pm i))
  | EV_UPDATE i cfg => Some (fst (policer_update hz pm i cfg))
  | EV_RESET i => Some (fst (policer_reset pm i))
  | EV_BIND i worker bind => Some (fst (policer_bind_worker num_workers worker_thread pm i worker bind))
  | EV_INPUT i sw dir apply => fst <$> policer_input pm i sw dir apply
  | EV_FRAME th clock dir frame => fst <$> vnet_policer_inline pm th clock dir frame
  end.

(** The clock does not go back: a frame is handled at a time that no policer has passed. *)
Definition event_ok (ev : policer_event) (pm : vnet_policer_main_t) : Prop :=
  match ev with
  | EV_ADD _ cfg | EV_UPDATE _ cfg => cfg_ok cfg
  | EV_FRAME _ clock _ _ => is_u 64 clock /\
      forall i p, pool_lookup (policers pm) i = Some p -> pl_last_update_time p <= Z.shiftr clock POLICER_TICKS_PER_PERIOD_SHIFT
  | _ => True
  end.

Inductive policer_reach : vnet_policer_main_t -> Prop :=
| policer_start : policer_reach policer_main_init
| policer_step ev pm pm' : policer_reach pm -> event_ok ev pm -> policer_do ev pm = Some pm' -> policer_reach pm'.

Record policer_inv (pm : vnet_policer_main_t) : Prop := {
  pi_pool : pool_ok (policers pm);
  pi_cpool : pool_ok (pol_configs pm);
  pi_name : forall n i, policer_index_by_name pm !! n = Some i <-> exists p, pool_lookup (policers pm) i = Some p /\ pl_name p = n;
  pi_dom : forall n, is_Some (policer_config_by_name pm !! n) <-> is_Some (policer_index_by_name pm !! n);
  pi_cfg : forall n c, policer_config_by_name pm !! n = Some c -> is_Some (pool_lookup (pol_configs pm) c);
  pi_inj : forall n m c, policer_config_by_name pm !! n = Some c -> policer_config_by_name pm !! m = Some c -> n = m;
  pi_wf : forall i p, pool_lookup (policers pm) i = Some p -> policer_wf p
}.

Lemma policer_init_inv : policer_inv policer_main_init.
Proof.
  split; cbn; try apply pool_empty_ok; try (intros; rewrite ?lookup_empty in *; easy).
  - intros n i. rewrite lookup_empty. split; [easy|]. intros (p & Hp & _). now rewrite pool_empty_lookup in Hp.
  - intros i p Hp. now rewrite pool_empty_lookup in Hp.
Qed.

Lemma policer_at_live pm i p : pool_lookup (policers pm) i = Some p -> policer_at pm i = p.
Proof. intros H. unfold policer_at. now rewrite (pool_lookup_elt _ _ _ H). Qed.

(** A policer is overwritten by one of the same name. *)
Lemma set_policer_inv pm i p q :
  policer_inv pm -> pool_lookup (policers pm) i = Some p -> policer_wf q -> pl_name q = pl_name p -> policer_inv (set_policer pm i q).
Proof.
  intros [I1 I2 I3 I4 I5 I6 I7] Hp Hq Hn. split; cbn; auto.
  - now apply pool_write_ok.
  - intros n j. rewrite I3. setoid_rewrite (pool_write_lookup _ _ q _ j Hp). destruct (decide (j = i)) as [->|]; [|reflexivity].
    rewrite Hp. split; intros (x & [= <-] & <-); eauto.
  - intros j x. rewrite (pool_write_lookup _ _ q _ j Hp). destruct (decide (j = i)); [intros [= <-]; exact Hq|apply I7].
Qed.

(** Changes of counters and interfaces do not matter. *)
Lemma policer_inv_ext pm pm' :
  policer_inv pm -> policers pm' = policers pm -> pol_configs pm' = pol_configs pm ->
  policer_config_by_name pm' = policer_config_by_name pm -> policer_index_by_name pm' = policer_index_by_name pm -> policer_inv pm'.
Proof. intros [I1 I2 I3 I4 I5 I6 I7] E1 E2 E3 E4. split; rewrite ?E1, ?E2, ?E3, ?E4; assumption. Qed.

(** A write to a slot that is not in use does not matter either. *)
Lemma pool_write_dead {A} (p : pool A) i x j : pool_lookup p i = None -> pool_lookup (pool_write p i x) j = pool_lookup p j.
Proof.
  unfold pool_lookup, pool_write. destruct (vec_elt _ i) as [[[|] z]|] eqn:E; try easy. intros _.
  cbn. rewrite (vec_elt_insert _ _ _ _ _ E). destruct (decide (j = i)) as [->|]; [now rewrite E|reflexivity].
Qed.

Lemma set_dead_inv pm i q : policer_inv pm -> pool_lookup (policers pm) i = None -> policer_inv (set_policer pm i q).
Proof.
  intros [I1 I2 I3 I4 I5 I6 I7] Hi. split; cbn; auto.
  - now apply pool_write_ok.
  - intros n j. rewrite I3. setoid_rewrite (pool_write_dead _ _ q j Hi). reflexivity.
  - intros j x. rewrite (pool_write_dead _ _ q j Hi). apply I7.
Qed.

Lemma policer_add_inv pm name cfg : policer_inv pm -> cfg_ok cfg -> policer_inv (fst (policer_add hz pm name cfg)).
Proof.
  intros H Hc. pose proof H as [I1 I2 I3 I4 I5 I6 I7]. unfold policer_add. destruct (policer_config_by_name pm !! name) as [ci|] eqn:En; [exact H|].
  destruct (pol_logical_2_physical hz cfg) as [t|] eqn:Et; [|exact H]. set (q := t <| pl_name := name |> <| pl_thread_index := NO_THREAD |>).
  pose proof (pool_get_write pol_cfg_zero _ cfg I2) as HC. destruct (pool_get pol_cfg_zero (pol_configs pm)) as [cs ci]. destruct HC as [HC Hci].
  pose proof (pool_get_write policer_zero _ q I1) as HP. destruct (pool_get policer_zero (policers pm)) as [ps pi]. destruct HP as [HP Hpi].
  destruct HC as [C1 C2 _ C4 _ _ _]. destruct HP as [P1 P2 _ P4 _ _ _].
  assert (policer_index_by_name pm !! name = None) as Hx by (apply eq_None_not_Some; rewrite <- I4, En; apply is_Some_None).
  assert (policer_wf q) as Hq by (pose proof (logical_wf hz cfg t Hc Et) as [W1 W2 W3 W4 W5 W6 W7 W8]; split; assumption).
  split; cbn; auto.
  - intros n i. destruct (decide (n = name)) as [->|Hn].
    + rewrite lookup_insert_eq. split; [intros [= <-]; eauto|]. intros (p & Hp & Ep). destruct (decide (i = pi)) as [->|Hi]; [reflexivity|].
      rewrite P4 in Hp by assumption. assert (policer_index_by_name pm !! name = Some i) by (apply I3; eauto). congruence.
    + rewrite lookup_insert_ne, I3 by congruence. destruct (decide (i = pi)) as [->|Hi]; [|now rewrite P4].
      rewrite P2. split; [intros (p & ? & _); discriminate|]. intros (p & Hp & Ep). assert (p = q) as -> by congruence. now destruct Hn.
  - intros n. destruct (decide (n = name)) as [->|Hn]; [rewrite !lookup_insert_eq; split; eauto|]. rewrite !lookup_insert_ne by congruence. apply I4.
  - intros n c. destruct (decide (n = name)) as [->|Hn]; [rewrite lookup_insert_eq; intros [= <-]; eauto|]. rewrite lookup_insert_ne by congruence.
    intros Hc'. destruct (I5 _ _ Hc') as [x Hx']. rewrite C4; [eauto|congruence].
  - intros n m c. assert (forall n', n' <> name -> policer_config_by_name pm !! n' = Some ci -> False) as Hf.
    { intros n' _ Hn'. destruct (I5 _ _ Hn') as [x Hx']. congruence. }
    destruct (decide (n = name)) as [->|Hn], (decide (m = name)) as [->|Hm]; rewrite ?lookup_insert_eq, ?lookup_insert_ne by congruence; intros E1 E2; auto.
    + exfalso. apply (Hf m Hm). congruence.
    + exfalso. apply (Hf n Hn). congruence.
    + exact (I6 _ _ _ E1 E2).
  - intros i p Hp. destruct (decide (i = pi)) as [->|Hi]; [congruence|]. rewrite P4 in Hp by assumption. exact (I7 _ _ Hp).
Qed.

Lemma policer_del_inv pm i : policer_inv pm -> policer_inv (fst (policer_del pm i)).
Proof.
  intros H. pose proof H as [I1 I2 I3 I4 I5 I6 I7]. unfold policer_del. destruct (pool_is_free_index (policers pm) i) eqn:Ef; [exact H|].
  destruct (pool_lookup (policers pm) i) as [p|] eqn:Hp; [|apply pool_is_free_lookup in Hp; congruence]. rewrite (policer_at_live _ _ _ Hp). set (name := pl_name p).
  assert (policer_index_by_name pm !! name = Some i) as Hi by (apply I3; eauto).
  destruct (proj2 (I4 name) (ex_intro _ i Hi)) as [ci Hci]. rewrite Hci. destruct (I5 _ _ Hci) as [c Hc]. split; cbn.
  - exact (pool_put_ok _ _ _ I1 Hp).
  - exact (pool_put_ok _ _ _ I2 Hc).
  - intros n j. setoid_rewrite (pool_put_lookup _ _ _ j Hp). destruct (decide (n = name)) as [->|Hn].
    + rewrite lookup_delete_eq. split; [discriminate|]. intros (x & Hx & Ex). destruct (decide (j = i)) as [|Hj]; [discriminate|].
      assert (policer_index_by_name pm !! name = Some j) by (apply I3; eauto). congruence.
    + rewrite lookup_delete_ne, I3 by congruence. destruct (decide (j = i)) as [->|]; [|reflexivity].
      rewrite Hp. split; intros (x & Hx & Ex); [|discriminate]. exfalso. apply Hn. unfold name. congruence.
  - intros n. destruct (decide (n = name)) as [->|Hn]; [rewrite !lookup_delete_eq; split; intros [? ?]; discriminate|]. rewrite !lookup_delete_ne by congruence. apply I4.
  - intros n k Hk. apply lookup_delete_Some in Hk as [Hn Hk]. rewrite (pool_put_lookup _ _ _ k Hc), decide_False; [exact (I5 _ _ Hk)|].
    intros ->. apply Hn. exact (I6 _ _ _ Hci Hk).
  - intros n m k H1 H2. apply lookup_delete_Some in H1 as [_ H1]. apply lookup_delete_Some in H2 as [_ H2]. exact (I6 _ _ _ H1 H2).
  - intros j x. rewrite (pool_put_lookup _ _ _ j Hp). destruct (decide (j = i)); [discriminate|]. apply I7.
Qed.

Lemma policer_update_inv pm i cfg : policer_inv pm -> cfg_ok cfg -> policer_inv (fst (policer_update hz pm i cfg)).
Proof.
  intros H Hc. unfold policer_update. destruct (pool_is_free_index (policers pm) i) eqn:Ef; [exact H|].
  destruct (pool_lookup (policers pm) i) as [p|] eqn:Hp; [|apply pool_is_free_lookup in Hp; congruence]. rewrite (policer_at_live _ _ _ Hp).
  destruct (pol_logical_2_physical hz cfg) as [t|] eqn:Et; [|exact H].
  assert (policer_index_by_name pm !! pl_name p = Some i) as Hi by (apply (pi_name _ H); eauto).
  destruct (proj2 (pi_dom _ H (pl_name p)) (ex_intro _ i Hi)) as [ci Hci]. rewrite Hci. cbv zeta.
  set (q := t <| pl_name := pl_name p |> <| pl_thread_index := NO_THREAD |>).
  assert (policer_wf q) as Hq by (pose proof (logical_wf hz cfg t Hc Et) as [W1 W2 W3 W4 W5 W6 W7 W8]; split; assumption).
  destruct (set_policer_inv pm i p q H Hp Hq eq_refl) as [I1 I2 I3 I4 I5 I6 I7]. destruct (I5 _ _ Hci) as [c Hcc]. split; cbn in *; auto.
  - now apply pool_write_ok.
  - intros n k Hk. rewrite (pool_write_lookup _ _ cfg _ k Hcc). destruct (decide (k = ci)); [eauto|exact (I5 _ _ Hk)].
Qed.

Lemma policer_reset_inv pm i : policer_inv pm -> policer_inv (fst (policer_reset pm i)).
Proof.
  intros H. unfold policer_reset. destruct (pool_is_free_index (policers pm) i) eqn:Ef; [exact H|].
  destruct (pool_lookup (policers pm) i) as [p|] eqn:Hp; [|apply pool_is_free_lookup in Hp; congruence]. rewrite (policer_at_live _ _ _ Hp).
  apply (set_policer_inv pm i p); [exact H|exact Hp| |reflexivity]. destruct (pi_wf _ H _ _ Hp) as [W1 W2 W3 W4 W5 W6 W7 W8]. split; assumption.
Qed.

Lemma policer_bind_inv pm i worker bind :
  policer_inv pm -> policer_inv (fst (policer_bind_worker num_workers worker_thread pm i worker bind)).
Proof.
  intros H. unfold policer_bind_worker. destruct (pool_is_free_index (policers pm) i) eqn:Ef; [exact H|].
  destruct (pool_lookup (policers pm) i) as [p|] eqn:Hp; [|apply pool_is_free_lookup in Hp; congruence]. rewrite (policer_at_live _ _ _ Hp).
  destruct (pi_wf _ H _ _ Hp) as [W1 W2 W3 W4 W5 W6 W7 W8]. destruct bind; [destruct (num_workers <=? worker); [exact H|]|];
    (apply (set_policer_inv pm i p); [exact H|exact Hp|split; assumption|reflexivity]).
Qed.

Lemma policer_input_inv pm i sw dir apply pm' out : policer_inv pm -> policer_input pm i sw dir apply = Some (pm', out) -> policer_inv pm'.
Proof.
  intros H. unfold policer_input. cbv zeta. destruct (if apply then _ else _) as [v|]; [|discriminate]. cbn [mbind option_bind].
  intros [= <- _]. apply (policer_inv_ext pm); [exact H|now destruct dir..].
Qed.

(** No policer in use is ahead of the time. *)
Definition not_ahead (time : Z) (pm : vnet_policer_main_t) : Prop :=
  forall i p, pool_lookup (policers pm) i = Some p -> pl_last_update_time p <= time.

Lemma police_keeps pm th b i time color handoff pm' b' act :
  policer_inv pm -> not_ahead time pm -> time < 2 ^ 64 -> vnet_policer_police pm th b i time color handoff = Some (pm', b', act) ->
  policer_inv pm' /\ not_ahead time pm'.
Proof.
  intros H Hna Ht. unfold vnet_policer_police. destruct (pool_elt_at_index (policers pm) i) as [pol|] eqn:Ep; [|discriminate]. cbn [mbind option_bind]. cbv zeta.
  destruct (_ && _ && _); [intros [= <- <- <-]; now split|]. set (pol1 := if _ && _ then _ else _).
  destruct (vnet_police_packet pol1 _ color time) as [pol2 col] eqn:E2. intros [= <- <- <-].
  destruct (pool_lookup (policers pm) i) as [p|] eqn:Hp.
  - rewrite (pool_lookup_elt _ _ _ Hp) in Ep. injection Ep as ->.
    assert (policer_wf pol1 /\ pl_name pol1 = pl_name pol /\ pl_last_update_time pol1 = pl_last_update_time pol) as (Hw & Hn & Hl).
    { destruct (pi_wf _ H _ _ Hp) as [W1 W2 W3 W4 W5 W6 W7 W8]. unfold pol1. destruct (_ && _); (split; [split; assumption|now split]). }
    destruct (police_metered _ _ _ _ _ _ Hw (conj (eq_ind_r (fun x => x <= time) (Hna _ _ Hp) Hl) Ht) E2) as (c & e & M).
    destruct (metered_config _ _ _ _ _ _ _ M) as [_ KT]. assert (pl_name pol2 = pl_name pol) as Hn2 by (rewrite (me_same _ _ _ _ _ _ _ M); exact Hn).
    split.
    + refine (policer_inv_ext _ _ (set_policer_inv pm i pol pol2 H Hp (me_wf _ _ _ _ _ _ _ M) Hn2) _ _ _ _); reflexivity.
    + intros j x. cbn. rewrite (pool_write_lookup _ _ pol2 _ j Hp). destruct (decide (j = i)); [intros [= <-]; lia|apply Hna].
  - split.
    + refine (policer_inv_ext _ _ (set_dead_inv pm i pol2 H Hp) _ _ _ _); reflexivity.
    + intros j x. cbn. rewrite (pool_write_dead _ _ pol2 j Hp). apply Hna.
Qed.

Lemma policer_frame_keeps th time dir frame : time < 2 ^ 64 -> forall pm pm' out,
  policer_inv pm -> not_ahead time pm -> vnet_policer_frame pm th time dir frame = Some (pm', out) -> policer_inv pm' /\ not_ahead time pm'.
Proof.
  intros Ht. induction frame as [|b frame IH]; intros pm pm' out H Hna; cbn [vnet_policer_frame]; [now intros [= <- <-]|].
  unfold vnet_policer_1. destruct (by_sw_if_index pm dir !! _) as [i|]; [|discriminate]. cbn [mbind option_bind].
  destruct (vnet_policer_police pm th b i time _ _) as [[[pm1 b1] act]|] eqn:E1; [|discriminate]. cbn [mbind option_bind].
  destruct (police_keeps _ _ _ _ _ _ _ _ _ _ H Hna Ht E1) as [H1 Hna1].
  destruct (vnet_policer_frame pm1 th time dir frame) as [[pm2 rs]|] eqn:E2; [|discriminate]. cbn [mbind option_bind]. intros [= <- <-]. exact (IH _ _ _ H1 Hna1 E2).
Qed.

Lemma policer_do_inv ev pm pm' : policer_inv pm -> event_ok ev pm -> policer_do ev pm = Some pm' -> policer_inv pm'.
Proof.
  intros H Hok. destruct ev; cbn [policer_do event_ok] in *; try (intros [= <-]).
  - now apply policer_add_inv.
  - now apply policer_del_inv.
  - now apply policer_update_inv.
  - now apply policer_reset_inv.
  - now apply policer_bind_inv.
  - destruct (policer_input pm i sw_if_index dir apply) as [[pm1 out]|] eqn:E; [|discriminate]. intros [= <-]. exact (policer_input_inv _ _ _ _ _ _ _ H E).
  - destruct Hok as [Hc Hna]. destruct (vnet_policer_inline pm thread_index clock dir frame) as [[pm1 out]|] eqn:E; [|discriminate]. intros [= <-].
    refine (proj1 (policer_frame_keeps _ _ _ _ _ _ _ _ H Hna E)). unfold is_u in Hc. rewrite Z.shiftr_div_pow2 by (vm_compute; discriminate).
    apply Z.le_lt_trans with clock; [|apply Hc]. apply Z.div_le_upper_bound; [reflexivity|]. change (2 ^ POLICER_TICKS_PER_PERIOD_SHIFT) with 131072. lia.
Qed.

Lemma policer_reach_inv pm : policer_reach pm -> policer_inv pm.
Proof. induction 1 as [|ev pm pm' _ IH Hok E]; [apply policer_init_inv|exact (policer_do_inv _ _ _ IH Hok E)]. Qed.

(** Through every history of configuration and frames: a policer is in use at an index exactly if its name is
    mapped to that index, so that no two have the same name; each has a configuration of its own; and its rates,
    limits and buckets are 32-bit values with a scale below 32, so that the bounds on what it lets pass apply -
    also when frames are policed by policers that were deleted while an interface still named them. *)
Theorem policer_tables_agree pm :
  policer_reach pm ->
  (forall n i, policer_index_by_name pm !! n = Some i <-> exists p, pool_lookup (policers pm) i = Some p /\ pl_name p = n) /\
  (forall i p, pool_lookup (policers pm) i = Some p -> policer_wf p /\
     exists c, policer_config_by_name pm !! pl_name p = Some c /\ is_Some (pool_lookup (pol_configs pm) c)) /\
  (forall n m c, policer_config_by_name pm !! n = Some c -> policer_config_by_name pm !! m = Some c -> n = m).
Proof.
  intros Hr. destruct (policer_reach_inv _ Hr) as [_ _ I3 I4 I5 I6 I7]. split; [exact I3|]. split; [|exact I6].
  intros i p Hp. split; [exact (I7 _ _ Hp)|]. destruct (proj2 (I4 (pl_name p))) as [c Hc]; [exists i; apply I3; eauto|]. exists c. split; [exact Hc|exact (I5 _ _ Hc)].
Qed.

End Histories.

(** ** An example *)

Definition example_cfg : qos_pol_cfg_params_st := pol_cfg_zero <| cfg_cir := 8000 |> <| cfg_cb := 15000 |>
  <| cfg_conform_action := mk_action_params QOS_ACTION_TRANSMIT 0 |>.
Definition example_pol_run (evs : list policer_event) : vnet_policer_main_t :=
  foldl (fun pm ev => default pm (policer_do 2000000000 4 (fun w => w + 1) ev pm)) policer_main_init evs.
Definition example_pol_buffer : pol_buffer := mk_pol_buffer [] 1500 3 0 0.
Definition example_events : list policer_event :=
  [EV_ADD "a"%string example_cfg; EV_ADD "b"%string example_cfg; EV_INPUT 1 3 VLIB_RX true; EV_FRAME 1 400000 VLIB_RX [example_pol_buffer]].

Lemma example_cfg_ok : cfg_ok example_cfg.
Proof. split; cbn; unfold is_u; lia. Qed.

Lemma example_pol_reach : policer_reach 2000000000 4 (fun w => w + 1) (example_pol_run example_events).
Proof.
  assert (forall evs ev, policer_reach 2000000000 4 (fun w => w + 1) (example_pol_run evs) -> event_ok ev (example_pol_run evs) ->
    is_Some (policer_do 2000000000 4 (fun w => w + 1) ev (example_pol_run evs)) -> policer_reach 2000000000 4 (fun w => w + 1) (example_pol_run (evs ++ [ev]))) as Hstep.
  { intros evs ev Hr Hok [pm' E]. unfold example_pol_run in *. rewrite foldl_app. cbn [foldl]. rewrite E. cbn. exact (policer_step _ _ _ _ _ _ Hr Hok E). }
  apply (Hstep [EV_ADD "a"%string example_cfg; EV_ADD "b"%string example_cfg; EV_INPUT 1 3 VLIB_RX true]).
  - apply (Hstep [EV_ADD "a"%string example_cfg; EV_ADD "b"%string example_cfg]); [|exact I|eexists; vm_compute; reflexivity].
    apply (Hstep [EV_ADD "a"%string example_cfg]); [|exact example_cfg_ok|eexists; reflexivity].
    apply (Hstep []); [apply policer_start|exact example_cfg_ok|eexists; reflexivity].
  - split; [unfold is_u; lia|]. intros i p Hp. apply pool_foreach_elem in Hp. vm_compute in Hp. repeat (apply elem_of_cons in Hp as [[= -> ->]|Hp]; [vm_compute; discriminate|]).
    now apply elem_of_nil in Hp.
  - eexists. vm_compute. reflexivity.
Qed.

Lemma policer_tables_agree_witness :
  policer_index_by_name (example_pol_run example_events) !! "b"%string = Some 1 /\ policer_wf (policer_at (example_pol_run example_events) 1).
Proof.
  destruct (policer_tables_agree 2000000000 4 (fun w => w + 1) (example_pol_run example_events) example_pol_reach) as (_ & H & _).
  split; [vm_compute; reflexivity|]. apply (H 1). vm_compute. reflexivity.
Defined.

(** The frame of the example went to policer 1, and its packet was counted as conforming. *)
Example example_counted : policer_counters (example_pol_run example_events) !! (0%nat, 1) = Some (1, 1500).
Proof. vm_compute. reflexivity. Qed.

(** [policer_del] leaves the interfaces alone: the deleted policer still polices the packets of interface 3, and
    when its slot is used again the new policer does. *)
Example deleted_policer_applies :
  by_sw_if_index_rx (example_pol_run (example_events ++ [EV_DEL 1])) !! 3%nat = Some 1 /\
  pool_lookup (policers (example_pol_run (example_events ++ [EV_DEL 1]))) 1 = None /\
  policer_index_by_name (example_pol_run (example_events ++ [EV_DEL 1; EV_ADD "c"%string example_cfg])) !! "c"%string = Some 1.
Proof. vm_compute. repeat split. Qed.
