(* ===== verification/PolicerMark.v ===== *)
(** * Traffic policers: marking

    A policer can write a code point (DSCP) to the packets it lets pass.  For IPv4 the
    header checksum must follow. *)

From stdpp Require Import gmap strings.
From S2P Require Import Prelude Float NetTypes Packet Pool Policer.

(** ** One's complement sums *)

(** The three folds of [ip4_header_checksum_inline]. *)
Definition fold_sum (sum : Z) : Z :=
  let sum := u32 sum + Z.shiftr sum 32 in
  let sum := u16 sum + Z.shiftr sum 16 in
  let sum := u16 sum + Z.shiftr sum 16 in
  u16 sum.

Lemma fold_sum_spec s : 0 <= s < 2 ^ 36 ->
  0 <= fold_sum s <= 65535 /\ (exists k, s = fold_sum s + 65535 * k) /\ (fold_sum s = 0 -> s = 0).
Proof.
  intros Hs. unfold fold_sum, u16, u32. cbv zeta. rewrite !Z.shiftr_div_pow2 by lia.
  change (2 ^ 32) with 4294967296. change (2 ^ 16) with 65536. change (2 ^ 36) with 68719476736 in Hs.
  assert (exists a b, s = a + 4294967296 * b /\ 0 <= a < 4294967296 /\ 0 <= b < 16 /\ s mod 4294967296 = a /\ s / 4294967296 = b) as (a & b & -> & Ha & Hb & -> & ->).
  { exists (s mod 4294967296), (s / 4294967296). Z.div_mod_to_equations. lia. }
  assert (exists c d, a + b = c + 65536 * d /\ 0 <= c < 65536 /\ 0 <= d <= 65536 /\ (a + b) mod 65536 = c /\ (a + b) / 65536 = d) as (c & d & Eab & Hc & Hd & -> & ->).
  { exists ((a + b) mod 65536), ((a + b) / 65536). Z.div_mod_to_equations. lia. }
  assert (c + d <= 131070) as Hcd by lia.
  assert (exists e f, c + d = e + 65536 * f /\ 0 <= e < 65536 /\ 0 <= f <= 1 /\ (c + d) mod 65536 = e /\ (c + d) / 65536 = f) as (e & f & Ecd & He & Hf & -> & ->).
  { exists ((c + d) mod 65536), ((c + d) / 65536). Z.div_mod_to_equations. lia. }
  rewrite Z.mod_small by lia. split; [lia|]. split; [|lia]. exists (65537 * b + d + f). lia.
Qed.

(** ** Sums of headers *)

(** Header words, with the checksum or without. *)
Definition header_sum (d : list Z) (o : nat) (with_checksum : bool) : Z :=
  let word i := u32_at d (o + 4 * i) in
  word 0%nat + word 1%nat + (if with_checksum then word 2%nat else u16_at d (o + 8)) + word 3%nat + word 4%nat +
  foldr (fun i s => word i + s) 0 (seq 5 (Z.to_nat (Z.land (byte_at d o) 0xf) - 5)).

Lemma checksum_fold d o w : ip4_header_checksum_inline d o w = 65535 - fold_sum (header_sum d o w).
Proof. unfold ip4_header_checksum_inline, fold_sum, header_sum. cbv zeta. reflexivity. Qed.

Lemma foldr_words_range (f : nat -> Z) l : (forall i, 0 <= f i < 4294967296) -> 0 <= foldr (fun i s => f i + s) 0 l <= 4294967296 * Z.of_nat (length l).
Proof. intros H. induction l as [|i l IH]; cbn [foldr length]; [lia|]. specialize (H i). lia. Qed.

Lemma header_sum_range d o w : bytes_ok d -> 0 <= header_sum d o w < 2 ^ 36.
Proof.
  intros H. unfold header_sum. cbv zeta. pose proof (fun i => u32_at_range d i H) as Hw. pose proof (u16_at_range d (o + 8) H).
  pose proof (foldr_words_range (fun i => u32_at d (o + 4 * i)) (seq 5 (Z.to_nat (Z.land (byte_at d o) 0xf) - 5)) (fun i => Hw _)) as Hf. rewrite length_seq in Hf.
  assert (Z.land (byte_at d o) 0xf < 16) as Hl by (change 0xf with (Z.ones 4); rewrite Z.land_ones by lia; apply Z.mod_pos_bound; lia).
  pose proof (Hw (o + 4 * 0)%nat). pose proof (Hw (o + 4 * 1)%nat). pose proof (Hw (o + 4 * 2)%nat). pose proof (Hw (o + 4 * 3)%nat). pose proof (Hw (o + 4 * 4)%nat).
  assert (Z.of_nat (Z.to_nat (Z.land (byte_at d o) 0xf) - 5) <= 10) by lia. destruct w; lia.
Qed.

(** ** Writing the checksum *)

Definition set_checksum (d : list Z) (o : nat) : list Z :=
  let c := ip4_header_checksum_inline d o false in list_inserts (o + 10) [c mod 256; c / 256] d.

Lemma set_checksum_bytes d o i : (o + 12 <= length d)%nat ->
  byte_at (set_checksum d o) i =
  if decide (i = o + 10)%nat then ip4_header_checksum_inline d o false mod 256
  else if decide (i = o + 11)%nat then ip4_header_checksum_inline d o false / 256 else byte_at d i.
Proof.
  intros Hl. unfold set_checksum. cbn [list_inserts]. replace (S (o + 10)) with (o + 11)%nat by lia.
  rewrite byte_at_insert by (rewrite length_insert; lia). destruct (decide (i = o + 10)%nat); [reflexivity|]. apply byte_at_insert. lia.
Qed.

Lemma header_sum_set d o : (o + 12 <= length d)%nat ->
  header_sum (set_checksum d o) o true = header_sum d o false + 65536 * ip4_header_checksum_inline d o false.
Proof.
  intros Hl. set (c := ip4_header_checksum_inline d o false). unfold header_sum. cbv zeta.
  assert (forall j, j <> (o + 10)%nat -> j <> (o + 11)%nat -> byte_at (set_checksum d o) j = byte_at d j) as Hj.
  { intros j H1 H2. rewrite set_checksum_bytes by assumption. now rewrite !decide_False. }
  assert (forall k, k <> 2%nat -> u32_at (set_checksum d o) (o + 4 * k) = u32_at d (o + 4 * k)) as Hw.
  { intros k Hk. apply u32_at_ext. intros j H. apply Hj; lia. }
  rewrite (Hw 0%nat), (Hw 1%nat), (Hw 3%nat), (Hw 4%nat), (Hj o) by lia.
  assert (foldr (fun i s => u32_at (set_checksum d o) (o + 4 * i) + s) 0 (seq 5 (Z.to_nat (Z.land (byte_at d o) 0xf) - 5)) =
          foldr (fun i s => u32_at d (o + 4 * i) + s) 0 (seq 5 (Z.to_nat (Z.land (byte_at d o) 0xf) - 5))) as ->.
  { assert (forall k n, (3 <= k)%nat -> foldr (fun i s => u32_at (set_checksum d o) (o + 4 * i) + s) 0 (seq k n) = foldr (fun i s => u32_at d (o + 4 * i) + s) 0 (seq k n)) as G.
    { intros k n. revert k. induction n as [|n IH]; intros k Hk; cbn [seq foldr]; [reflexivity|]. rewrite (Hw k), IH by lia. reflexivity. }
    apply G. lia. }
  assert (u32_at (set_checksum d o) (o + 4 * 2) = u16_at d (o + 8) + 65536 * c) as ->; [|lia].
  unfold u32_at, u16_at. replace (o + 4 * 2)%nat with (o + 8)%nat by lia. rewrite (Hj (o + 8)%nat), (Hj (o + 8 + 1)%nat) by lia.
  replace (o + 8 + 2)%nat with (o + 10)%nat by lia. replace (o + 10 + 1)%nat with (o + 11)%nat by lia.
  rewrite !set_checksum_bytes, decide_True, (decide_False (P := (o + 11 = o + 10)%nat)), decide_True by lia. fold c. pose proof (Z.div_mod c 256). lia.
Qed.

(** The header is valid after its checksum is written, unless it is all zeroes. *)
Lemma set_checksum_valid d o :
  bytes_ok d -> (o + 12 <= length d)%nat -> header_sum d o false <> 0 -> ip4_header_checksum_inline (set_checksum d o) o true = 0.
Proof.
  intros Hb Hl Hne. rewrite (checksum_fold (set_checksum d o)). pose proof (header_sum_range d o false Hb) as Hr.
  destruct (fold_sum_spec _ Hr) as (F1 & (k & F2) & F3). set (s := header_sum d o false) in *. set (f := fold_sum s) in *.
  assert (bytes_ok (set_checksum d o)) as Hb'.
  { unfold set_checksum. rewrite checksum_fold. fold s. fold f. cbn [list_inserts]. apply Forall_insert; [apply Forall_insert; [exact Hb|]|]; unfold is_u; Z.div_mod_to_equations; lia. }
  destruct (fold_sum_spec _ (header_sum_range (set_checksum d o) o true Hb')) as (G1 & (m & G2) & G3).
  rewrite header_sum_set, checksum_fold in * by assumption. fold s f in G1, G2, G3 |- *. set (g := fold_sum (s + 65536 * (65535 - f))) in *. lia.
Qed.

(** ** Marking *)

(** A marked IPv4 packet (Ethernet header and IP header in the buffer) has the given code point, its
    congestion bits and all other bytes but the checksum are as they were, and the header checksum is right. *)
Theorem mark_ip4_valid d dscp :
  bytes_ok d -> (14 + 4 * (5 `max` Z.to_nat (Z.land (byte_at d 14) 0xf)) <= length d)%nat -> byte_at d 12 = 0x08 -> byte_at d 13 = 0x00 -> byte_at d 14 <> 0 -> 0 <= dscp < 64 ->
  let d' := vnet_policer_mark d dscp in
  length d' = length d /\ byte_at d' 15 = 4 * dscp + byte_at d 15 mod 4 /\
  (forall i, i <> 15%nat -> i <> 24%nat -> i <> 25%nat -> byte_at d' i = byte_at d i) /\
  ip4_header_checksum_inline d' 14 true = 0.
Proof.
  intros Hb Hl H12 H13 H14 Hd. cbv zeta. unfold vnet_policer_mark. cbv zeta. assert (u16_at d 12 = 8) as -> by (unfold u16_at; cbn [Nat.add]; rewrite H12, H13; reflexivity).
  change (net_to_host_u16 8 =? 2048) with true. cbv iota.
  assert (u8 (Z.lor (Z.land (byte_at d 15) IP4_NON_DSCP_BITS) (Z.shiftl dscp IP4_DSCP_SHIFT)) = 4 * dscp + byte_at d 15 mod 4) as ->.
  { unfold IP4_NON_DSCP_BITS, IP4_DSCP_SHIFT. change 3 with (Z.ones 2). rewrite Z.land_ones by lia. change (2 ^ 2) with 4.
    rewrite lor_shiftl_add by (try lia; unfold is_u; apply Z.mod_pos_bound; lia). change (2 ^ 2) with 4. unfold u8. pose proof (Z.mod_pos_bound (byte_at d 15) 4). rewrite Z.mod_small; lia. }
  set (tos := 4 * dscp + byte_at d 15 mod 4). set (d1 := <[15%nat := tos]> d). change (list_inserts 24 _ d1) with (set_checksum d1 14).
  assert (length d1 = length d) as L1 by apply length_insert.
  assert (bytes_ok d1) as Hb1 by (apply Forall_insert; [exact Hb|]; unfold tos, is_u; pose proof (Z.mod_pos_bound (byte_at d 15) 4); lia).
  assert (forall i, i <> 15%nat -> byte_at d1 i = byte_at d i) as Hi1 by (intros i Hi; unfold d1; rewrite byte_at_insert by lia; now rewrite decide_False).
  split; [|split; [|split]].
  - unfold set_checksum. cbn [list_inserts]. now rewrite !length_insert.
  - rewrite set_checksum_bytes by lia. rewrite !decide_False by lia. unfold d1. rewrite byte_at_insert by lia. now rewrite decide_True.
  - intros i H1 H2 H3. rewrite set_checksum_bytes by lia. rewrite !decide_False by lia. now apply Hi1.
  - apply set_checksum_valid; [exact Hb1|lia|]. unfold header_sum. cbv zeta.
    pose proof (fun i => u32_at_range d1 i Hb1) as Hw. pose proof (u16_at_range d1 (14 + 8) Hb1).
    pose proof (foldr_words_range (fun i => u32_at d1 (14 + 4 * i)) (seq 5 (Z.to_nat (Z.land (byte_at d1 14) 0xf) - 5)) (fun i => Hw _)) as Hf.
    pose proof (Hw (14 + 4 * 1)%nat). pose proof (Hw (14 + 4 * 3)%nat). pose proof (Hw (14 + 4 * 4)%nat).
    assert (0 < u32_at d1 (14 + 4 * 0)); [|lia]. unfold u32_at, u16_at. cbn [Nat.add Nat.mul]. rewrite (Hi1 14%nat) by lia.
    pose proof (byte_range d 14 Hb). pose proof (byte_range d1 15 Hb1). pose proof (byte_range d1 16 Hb1). pose proof (byte_range d1 17 Hb1). unfold is_u in *. lia.
Qed.

(** A UDP packet of 10.0.0.1 to 10.0.0.2. *)
Definition example_ip4 : list Z :=
  repeat 0x11 12 ++ [0x08; 0x00] ++ [0x45; 0x01; 0; 28; 0; 0; 0; 0; 64; 17; 0; 0; 10; 0; 0; 1; 10; 0; 0; 2] ++ [0; 53; 0; 53; 0; 8; 0; 0].

Lemma mark_ip4_valid_witness :
  byte_at (vnet_policer_mark example_ip4 46) 15 = 0xb9 /\ ip4_header_checksum_inline (vnet_policer_mark example_ip4 46) 14 true = 0.
Proof.
  destruct (mark_ip4_valid example_ip4 46) as (_ & H1 & _ & H2); [|apply Nat.leb_le; reflexivity|reflexivity|reflexivity|discriminate|lia|].
  - repeat apply Forall_cons_2; try apply Forall_nil_2; unfold is_u; lia.
  - split; [exact H1|exact H2].
Defined.
