(* ===== verification/Dpo.v ===== *)
(** * Data-path objects (src/vnet/dpo/dpo.h, dpo.c, drop_dpo.c)

    A [dpo_id_t] names an object of the forwarding graph by its type and index,
    and carries the graph arc to follow.  Objects are reference counted: every
    place that stores an id holds one reference.  The references are a ledger, a
    number per object; what the class of an object does when its last reference
    goes is not part of it.  The drop object is not counted, as in
    [drop_dpo_lock]. *)

From stdpp Require Import gmap.
From S2P Require Import Prelude Pool.

Definition FIB_NODE_INDEX_INVALID : Z := 2 ^ 32 - 1.

(** ** Types *)

Definition DPO_FIRST : Z := 0.
Definition DPO_DROP : Z := 1.
Definition DPO_LOAD_BALANCE : Z := 4.

Definition DPO_PROTO_IP4 : Z := 0.
Definition DPO_PROTO_IP6 : Z := 1.
Definition DPO_PROTO_MPLS : Z := 2.
Definition DPO_PROTO_NUM : Z := 6.
Definition DPO_PROTO_NONE : Z := DPO_PROTO_NUM + 1.

Record dpo_id_t := mk_dpo {
  dpoi_type : Z;
  dpoi_proto : Z;
  dpoi_next_node : Z;
  dpoi_index : Z
}.

#[export] Instance dpo_eta : Eta dpo_id_t := fun d => mk_dpo (dpoi_type d) (dpoi_proto d) (dpoi_next_node d) (dpoi_index d).
#[export] Instance dpo_eq_dec : EqDecision dpo_id_t.
Proof. solve_decision. Defined.

Definition DPO_INVALID : dpo_id_t := mk_dpo DPO_FIRST DPO_PROTO_NONE 0 INDEX_INVALID.

(** The contents of zeroed memory. *)
Definition dpo_zero : dpo_id_t := mk_dpo 0 0 0 0.

Definition dpo_id_is_valid (d : dpo_id_t) : bool := negb (dpoi_type d =? DPO_FIRST) && negb (dpoi_index d =? INDEX_INVALID).
Definition dpo_is_drop (d : dpo_id_t) : bool := dpoi_type d =? DPO_DROP.
Definition drop_dpo_get (proto : Z) : dpo_id_t := mk_dpo DPO_DROP proto 0 proto.

(** The index under which the drop object of IPv4 stands in a table of
    load-balances. *)
Definition drop_dpo_index : Z := dpoi_index (drop_dpo_get DPO_PROTO_IP4).

(** ** References *)

Definition dpo_refs : Type := gmap (Z * Z) Z.


Definition dpo_key (d : dpo_id_t) : Z * Z := (dpoi_type d, dpoi_index d).
Definition refs_of (r : dpo_refs) (k : Z * Z) : Z := default 0 ((r : gmap (Z * Z) Z) !! k).

(** The classes count their references but for the drop object. *)
Definition counted (d : dpo_id_t) : bool := dpo_id_is_valid d && negb (dpo_is_drop d).

Definition add_refs (n : Z) (d : dpo_id_t) (r : dpo_refs) : dpo_refs :=
  if dpo_is_drop d then r else <[dpo_key d := refs_of r (dpo_key d) + n]> (r : gmap (Z * Z) Z).

Definition dpo_lock (d : dpo_id_t) (r : dpo_refs) : dpo_refs := if dpo_id_is_valid d then add_refs 1 d r else r.
Definition dpo_unlock (d : dpo_id_t) (r : dpo_refs) : dpo_refs := if dpo_id_is_valid d then add_refs (-1) d r else r.

(** [dpo_copy (dst, src)] where [dst] holds [old]: what it holds then, and the
    references.  The write of [dst] is a single store. *)
Definition dpo_copy (old src : dpo_id_t) (r : dpo_refs) : dpo_id_t * dpo_refs := (src, dpo_unlock old (dpo_lock src r)).
Definition dpo_reset (old : dpo_id_t) (r : dpo_refs) : dpo_id_t * dpo_refs := dpo_copy old DPO_INVALID r.

(** [dpo_stack_i]: a temporary takes the parent and the arc and is copied. *)
Definition dpo_stack_i (edge : Z) (old parent : dpo_id_t) (r : dpo_refs) : dpo_id_t * dpo_refs :=
  let '(tmp, r) := dpo_copy DPO_INVALID parent r in
  let tmp := tmp <| dpoi_next_node := u16 edge |> in
  let '(d, r) := dpo_copy old tmp r in
  let '(_, r) := dpo_reset tmp r in
  (d, r).

(** Like [memcmp]. *)
Definition dpo_cmp (d1 d2 : dpo_id_t) : Z :=
  let res := dpoi_type d1 - dpoi_type d2 in
  if negb (res =? 0) then res else i32 (u32 (dpoi_index d1 - dpoi_index d2)).

(** ** Lemmas *)

(** The references that a list of stored ids holds on an object. *)
Fixpoint held (k : Z * Z) (l : list dpo_id_t) : Z :=
  match l with
  | [] => 0
  | d :: l' => (if counted d && bool_decide (dpo_key d = k) then 1 else 0) + held k l'
  end.

Lemma held_app k l1 l2 : held k (l1 ++ l2) = held k l1 + held k l2.
Proof. induction l1 as [|d l IH]; cbn [app held]; lia. Qed.

#[export] Instance held_perm k : Proper ((≡ₚ) ==> (=)) (held k).
Proof. induction 1; cbn [held]; lia. Qed.

Lemma held_uncounted k l : Forall (fun d => counted d = false) l -> held k l = 0.
Proof. induction 1 as [|d l H _ IH]; cbn [held]; [reflexivity|]. now rewrite H, IH. Qed.

(** Overwriting an element of a vector. *)
Lemma held_insert k l i d old : l !! i = Some old -> held k (<[i := d]> l) = held k l + held k [d] - held k [old].
Proof.
  intros H. rewrite <- (take_drop_middle l i old H) at 2. rewrite insert_take_drop by (eapply lookup_lt_Some; eauto).
  rewrite !held_app. cbn [held]. lia.
Qed.

Lemma refs_add n d r k : refs_of (add_refs n d r) k = refs_of r k + (if negb (dpo_is_drop d) && bool_decide (dpo_key d = k) then n else 0).
Proof.
  unfold add_refs, refs_of. destruct (dpo_is_drop d); cbn [negb andb]; [lia|]. case_bool_decide as E; subst.
  - rewrite lookup_insert_eq. cbn. lia.
  - rewrite lookup_insert_ne by easy. lia.
Qed.

Lemma refs_lock d r k : refs_of (dpo_lock d r) k = refs_of r k + held k [d].
Proof.
  unfold dpo_lock, held, counted. destruct (dpo_id_is_valid d); cbn [andb]; [|lia]. rewrite refs_add. destruct (_ && _); lia.
Qed.

Lemma refs_unlock d r k : refs_of (dpo_unlock d r) k = refs_of r k - held k [d].
Proof.
  unfold dpo_unlock, held, counted. destruct (dpo_id_is_valid d); cbn [andb]; [|lia]. rewrite refs_add. destruct (_ && _); lia.
Qed.

Lemma refs_copy old src r k : refs_of (snd (dpo_copy old src r)) k = refs_of r k + held k [src] - held k [old].
Proof. unfold dpo_copy. cbn [snd]. now rewrite refs_unlock, refs_lock. Qed.

Lemma refs_reset old r k : refs_of (snd (dpo_reset old r)) k = refs_of r k - held k [old].
Proof. unfold dpo_reset. rewrite refs_copy. cbn. lia. Qed.

(** The arc is not part of the identity. *)
Lemma held_next k d e l : held k (d <| dpoi_next_node := e |> :: l) = held k (d :: l).
Proof. reflexivity. Qed.

Lemma held_invalid k : held k [DPO_INVALID] = 0.
Proof. reflexivity. Qed.

Create Rewrite HintDb dpo.
#[export] Hint Rewrite refs_lock refs_unlock refs_copy refs_reset held_next held_invalid held_app : dpo.

(** A stacked id is the parent with the arc; it takes one reference and releases
    the one of what was there. *)
Lemma dpo_stack_spec edge old parent r :
  fst (dpo_stack_i edge old parent r) = parent <| dpoi_next_node := u16 edge |>
  /\ forall k, refs_of (snd (dpo_stack_i edge old parent r)) k = refs_of r k + held k [parent] - held k [old].
Proof.
  split; [reflexivity|]. intros k. unfold dpo_stack_i. cbn [dpo_copy dpo_reset fst snd].
  autorewrite with dpo. lia.
Qed.
