(* ===== verification/Mtrie.v ===== *)
(** * The IPv4 forwarding trie

    [vnet/ip/ip4_mtrie.c] and [vnet/ip/ip4_mtrie.h].  A trie is a tree of plies: 256
    leaves each, or 65536 for the root of the 16-8-8 variant, which is part of the
    table itself.  All other plies, of all tables, live in one pool.  A leaf is a word:
    [1 + 2 * adj_index], a result, or [2 * ply_index], the ply that continues the
    search.  Beside each leaf a ply keeps the length of the route that put it there.

    An address is the word [as_u32] of the union [ip4_address_t], its bytes in network
    order.  An operation is [None] if it reads outside of an array or of the pool, or if
    it descends deeper than its fuel; the theorems show that it never does. *)

From stdpp Require Import gmap.
From S2P Require Import Prelude NetTypes Pool.

(** ** Loops *)

(** [for] over the indices [l]. *)
Fixpoint for_each {A} (body : A -> Z -> option A) (l : list Z) (s : A) : option A :=
  match l with
  | [] => Some s
  | i :: l' => s ← body s i; for_each body l' s
  end.

(** [for] over the indices [l] with a [return] in its body: the flag says that the body
    returned. *)
Fixpoint for_until {A} (body : A -> Z -> option (A * bool)) (l : list Z) (s : A) : option (A * bool) :=
  match l with
  | [] => Some (s, false)
  | i :: l' =>
      match body s i with
      | Some (s, true) => Some (s, true)
      | Some (s, false) => for_until body l' s
      | None => None
      end
  end.

(** ** Addresses *)

Definition as_u8 (a k : Z) : Z := Z.land (Z.shiftr a (8 * k)) 255.
Definition as_u16_0 (a : Z) : Z := Z.land a 65535.

(** [pow2_mask], which is only asked for less than 64 bits here. *)
Definition low_mask (x : Z) : Z := Z.shiftl 1 x - 1.

(** [ip4_main.fib_masks]. *)
Definition fib_masks (i : Z) : Z :=
  host_to_net_u32 (if i <? 32 then u32 (Z.shiftl (low_mask i) (32 - i)) else Z.ones 32).

(** ** Leaves *)

Definition IP4_MTRIE_LEAF_EMPTY : Z := 1 + 2 * 0.

Definition ip4_mtrie_leaf_is_terminal (n : Z) : bool := negb (Z.land n 1 =? 0).
Definition ip4_mtrie_leaf_get_adj_index (n : Z) : Z := Z.shiftr n 1.
Definition ip4_mtrie_leaf_set_adj_index (adj_index : Z) : Z := u32 (1 + 2 * adj_index).
Definition ip4_mtrie_leaf_is_next_ply (n : Z) : bool := Z.land n 1 =? 0.
Definition ip4_mtrie_leaf_get_next_ply_index (n : Z) : Z := Z.shiftr n 1.
Definition ip4_mtrie_leaf_set_next_ply_index (i : Z) : Z := u32 (0 + 2 * i).

(** ** Plies *)

Record ip4_mtrie_8_ply_t := mk_ply {
  leaves : list Z;
  dst_address_bits_of_leaves : list Z;
  n_non_empty_leafs : Z;
  dst_address_bits_base : Z
}.

#[export] Instance ply_eta : Eta ip4_mtrie_8_ply_t := fun p =>
  mk_ply (leaves p) (dst_address_bits_of_leaves p) (n_non_empty_leafs p) (dst_address_bits_base p).

Definition zero_ply : ip4_mtrie_8_ply_t := mk_ply (repeat 0 256) (repeat 0 256) 0 0.

(** An array of [PLY_16_SIZE] words: what [memset] filled it with, and the elements
    assigned since.  It is indexed by a [u16]. *)
Record arr16 := mk_arr16 { arr_fill : Z; arr_set : gmap Z Z }.

Definition arr_get (a : arr16) (i : Z) : Z := default (arr_fill a) (arr_set a !! i).
Definition arr_put (a : arr16) (i x : Z) : arr16 := mk_arr16 (arr_fill a) (<[i := x]> (arr_set a)).

(** [ip4_mtrie_16_ply_t], which is all of [ip4_mtrie_16_t]. *)
Record ip4_mtrie_16_ply_t := mk_ply_16 { leaves_16 : arr16; dst_address_bits_of_leaves_16 : arr16 }.

(** [ip4_ply_pool]. *)
Abbreviation plies := (pool ip4_mtrie_8_ply_t).

Definition ip4_mtrie_leaf_is_non_empty (p : ip4_mtrie_8_ply_t) (dst_byte : Z) : option Z :=
  bits ← vec_elt (dst_address_bits_of_leaves p) dst_byte;
  Some (if dst_address_bits_base p <? bits then 1 else 0).

Definition ply_8_init (init prefix_len ply_base_len : Z) : ip4_mtrie_8_ply_t :=
  mk_ply (repeat init 256) (repeat (u8 prefix_len) 256) (if ply_base_len <? prefix_len then 256 else 0) ply_base_len.

Definition ply_16_init (init prefix_len : Z) : ip4_mtrie_16_ply_t :=
  mk_ply_16 (mk_arr16 init ∅) (mk_arr16 (u8 prefix_len) ∅).

Definition ply_create (ps : plies) (init_leaf leaf_prefix_len ply_base_len : Z) : plies * Z :=
  let '(ps, i) := pool_get zero_ply ps in
  (pool_write ps i (ply_8_init init_leaf leaf_prefix_len ply_base_len), ip4_mtrie_leaf_set_next_ply_index i).

(** Assignment of a leaf and its length. *)
Definition put_leaf (p : ip4_mtrie_8_ply_t) (i leaf bits : Z) : ip4_mtrie_8_ply_t :=
  p <| leaves := <[Z.to_nat i := leaf]> (leaves p) |>
    <| dst_address_bits_of_leaves := <[Z.to_nat i := u8 bits]> (dst_address_bits_of_leaves p) |>.

(** The same between the two updates of the number of non-empty leaves. *)
Definition replace_leaf (p : ip4_mtrie_8_ply_t) (i leaf bits : Z) : option ip4_mtrie_8_ply_t :=
  n ← ip4_mtrie_leaf_is_non_empty p i;
  let p := p <| n_non_empty_leafs := i32 (n_non_empty_leafs p - n) |> in
  let p := put_leaf p i leaf bits in
  n ← ip4_mtrie_leaf_is_non_empty p i;
  Some (p <| n_non_empty_leafs := i32 (n_non_empty_leafs p + n) |>).

(** ** Insertion *)

Record ip4_mtrie_set_unset_leaf_args_t := mk_args {
  a_dst_address : Z;
  a_dst_address_length : Z;
  a_adj_index : Z;
  a_cover_address_length : Z;
  a_cover_adj_index : Z
}.

(** [for (i = lo; i < lo + n; i++)]. *)
Definition range (lo n : Z) : list Z := seqZ lo n.

Fixpoint set_ply_with_more_specific_leaf (fuel : nat) (ps : plies) (ply new_leaf new_leaf_dst_address_bits : Z) : option plies :=
  match fuel with
  | O => None
  | S fuel' =>
      for_each (fun ps i =>
        p ← pool_elt_at_index ps ply;
        old_leaf ← vec_elt (leaves p) i;
        bits ← vec_elt (dst_address_bits_of_leaves p) i;
        if negb (ip4_mtrie_leaf_is_terminal old_leaf) then
          set_ply_with_more_specific_leaf fuel' ps (ip4_mtrie_leaf_get_next_ply_index old_leaf) new_leaf
            new_leaf_dst_address_bits
        else if bits <=? new_leaf_dst_address_bits then
          let p := put_leaf p i new_leaf new_leaf_dst_address_bits in
          n ← ip4_mtrie_leaf_is_non_empty p i;
          Some (pool_write ps ply (p <| n_non_empty_leafs := i32 (n_non_empty_leafs p + n) |>))
        else Some ps) (range 0 256) ps
  end.

Fixpoint set_leaf (fuel : nat) (a : ip4_mtrie_set_unset_leaf_args_t) (ps : plies) (old_ply dst_address_byte_index : Z) : option plies :=
  match fuel with
  | O => None
  | S fuel' =>
      let n_dst_bits_next_plies := i32 (a_dst_address_length a - 8 * (dst_address_byte_index + 1)) in
      let dst_byte := as_u8 (a_dst_address a) dst_address_byte_index in
      if n_dst_bits_next_plies <=? 0 then
        let n_dst_bits_this_ply := Z.min 8 (- n_dst_bits_next_plies) in
        for_each (fun ps i =>
          p ← pool_elt_at_index ps old_ply;
          old_leaf ← vec_elt (leaves p) i;
          bits ← vec_elt (dst_address_bits_of_leaves p) i;
          if bits <=? a_dst_address_length a then
            let new_leaf := ip4_mtrie_leaf_set_adj_index (a_adj_index a) in
            if ip4_mtrie_leaf_is_terminal old_leaf then
              p ← replace_leaf p i new_leaf (a_dst_address_length a);
              Some (pool_write ps old_ply p)
            else
              set_ply_with_more_specific_leaf fuel' ps (ip4_mtrie_leaf_get_next_ply_index old_leaf) new_leaf
                (a_dst_address_length a)
          else if negb (ip4_mtrie_leaf_is_terminal old_leaf) then
            set_leaf fuel' a ps (ip4_mtrie_leaf_get_next_ply_index old_leaf) (dst_address_byte_index + 1)
          else Some ps) (range dst_byte (Z.shiftl 1 n_dst_bits_this_ply)) ps
      else
        let ply_base_len := u8 (8 * (dst_address_byte_index + 1)) in
        p ← pool_elt_at_index ps old_ply;
        old_leaf ← vec_elt (leaves p) dst_byte;
        if ip4_mtrie_leaf_is_terminal old_leaf then
          bits ← vec_elt (dst_address_bits_of_leaves p) dst_byte;
          let '(ps, new_leaf) := ply_create ps old_leaf bits ply_base_len in
          p ← pool_elt_at_index ps old_ply;
          p ← replace_leaf p dst_byte new_leaf ply_base_len;
          set_leaf fuel' a (pool_write ps old_ply p) (ip4_mtrie_leaf_get_next_ply_index new_leaf) (dst_address_byte_index + 1)
        else
          set_leaf fuel' a ps (ip4_mtrie_leaf_get_next_ply_index old_leaf) (dst_address_byte_index + 1)
  end.

(** The assignment to a leaf of the embedded root and to its length. *)
Definition put_leaf_16 (m : ip4_mtrie_16_ply_t) (slot leaf bits : Z) : ip4_mtrie_16_ply_t :=
  mk_ply_16 (arr_put (leaves_16 m) slot leaf) (arr_put (dst_address_bits_of_leaves_16 m) slot (u8 bits)).

(** Slot [i] after that of [dst_byte], in the order of the addresses. *)
Definition slot_16 (dst_byte i : Z) : Z := host_to_net_u16 (u16 (net_to_host_u16 dst_byte + i)).

Definition set_root_leaf (m : ip4_mtrie_16_ply_t) (ps : plies) (a : ip4_mtrie_set_unset_leaf_args_t) : option (ip4_mtrie_16_ply_t * plies) :=
  let n_dst_bits_next_plies := i32 (a_dst_address_length a - 16) in
  let dst_byte := as_u16_0 (a_dst_address a) in
  if n_dst_bits_next_plies <=? 0 then
    let n_dst_bits_this_ply := 16 - a_dst_address_length a in
    for_each (fun '(m, ps) i =>
      let slot := slot_16 dst_byte i in
      let old_leaf := arr_get (leaves_16 m) slot in
      if arr_get (dst_address_bits_of_leaves_16 m) slot <=? a_dst_address_length a then
        let new_leaf := ip4_mtrie_leaf_set_adj_index (a_adj_index a) in
        if ip4_mtrie_leaf_is_terminal old_leaf then
          Some (put_leaf_16 m slot new_leaf (a_dst_address_length a), ps)
        else
          ps ← set_ply_with_more_specific_leaf 2 ps (ip4_mtrie_leaf_get_next_ply_index old_leaf) new_leaf
            (a_dst_address_length a);
          Some (m, ps)
      else if negb (ip4_mtrie_leaf_is_terminal old_leaf) then
        ps ← set_leaf 2 a ps (ip4_mtrie_leaf_get_next_ply_index old_leaf) 2; Some (m, ps)
      else Some (m, ps)) (range 0 (Z.shiftl 1 n_dst_bits_this_ply)) (m, ps)
  else
    let ply_base_len := 16 in
    let old_leaf := arr_get (leaves_16 m) dst_byte in
    if ip4_mtrie_leaf_is_terminal old_leaf then
      let '(ps, new_leaf) := ply_create ps old_leaf (arr_get (dst_address_bits_of_leaves_16 m) dst_byte) ply_base_len in
      let m := put_leaf_16 m dst_byte new_leaf ply_base_len in
      ps ← set_leaf 2 a ps (ip4_mtrie_leaf_get_next_ply_index new_leaf) 2; Some (m, ps)
    else
      ps ← set_leaf 2 a ps (ip4_mtrie_leaf_get_next_ply_index old_leaf) 2; Some (m, ps).

(** ** Removal *)

(** The flag says that the ply [old_ply] was freed. *)
Fixpoint unset_leaf (fuel : nat) (a : ip4_mtrie_set_unset_leaf_args_t) (ps : plies) (old_ply dst_address_byte_index : Z) : option (plies * bool) :=
  match fuel with
  | O => None
  | S fuel' =>
      let n_dst_bits_next_plies := i32 (a_dst_address_length a - 8 * (dst_address_byte_index + 1)) in
      let dst_byte := as_u8 (a_dst_address a) dst_address_byte_index in
      let dst_byte := if n_dst_bits_next_plies <? 0 then Z.ldiff dst_byte (low_mask (- n_dst_bits_next_plies)) else dst_byte in
      let n_dst_bits_this_ply := if n_dst_bits_next_plies <=? 0 then - n_dst_bits_next_plies else 0 in
      let n_dst_bits_this_ply := Z.min 8 n_dst_bits_this_ply in
      let del_leaf := ip4_mtrie_leaf_set_adj_index (a_adj_index a) in
      for_until (fun ps i =>
        p ← pool_elt_at_index ps old_ply;
        old_leaf ← vec_elt (leaves p) i;
        '(ps, hit) ←
          (if old_leaf =? del_leaf then Some (ps, true)
           else if ip4_mtrie_leaf_is_terminal old_leaf then Some (ps, false)
           else unset_leaf fuel' a ps (ip4_mtrie_leaf_get_next_ply_index old_leaf) (dst_address_byte_index + 1));
        if hit : bool then
          p ← pool_elt_at_index ps old_ply;
          p ← replace_leaf p i (ip4_mtrie_leaf_set_adj_index (a_cover_adj_index a)) (a_cover_address_length a);
          let ps := pool_write ps old_ply p in
          if (n_non_empty_leafs p =? 0) && (0 <? dst_address_byte_index) then Some (pool_put_index ps old_ply, true)
          else Some (ps, false)
        else Some (ps, false)) (range dst_byte (Z.shiftl 1 n_dst_bits_this_ply)) ps
  end.

Definition unset_root_leaf (m : ip4_mtrie_16_ply_t) (ps : plies) (a : ip4_mtrie_set_unset_leaf_args_t) : option (ip4_mtrie_16_ply_t * plies) :=
  let n_dst_bits_next_plies := i32 (a_dst_address_length a - 16) in
  let dst_byte := as_u16_0 (a_dst_address a) in
  let n_dst_bits_this_ply := if n_dst_bits_next_plies <=? 0 then 16 - a_dst_address_length a else 0 in
  let del_leaf := ip4_mtrie_leaf_set_adj_index (a_adj_index a) in
  for_each (fun '(m, ps) i =>
    let slot := slot_16 dst_byte i in
    let old_leaf := arr_get (leaves_16 m) slot in
    '(ps, hit) ←
      (if old_leaf =? del_leaf then Some (ps, true)
       else if ip4_mtrie_leaf_is_terminal old_leaf then Some (ps, false)
       else unset_leaf 2 a ps (ip4_mtrie_leaf_get_next_ply_index old_leaf) 2);
    Some (if hit : bool
          then put_leaf_16 m slot (ip4_mtrie_leaf_set_adj_index (a_cover_adj_index a)) (a_cover_address_length a)
          else m, ps)) (range 0 (Z.shiftl 1 n_dst_bits_this_ply)) (m, ps).

(** ** The interface *)

(** [ip4_mtrie_module_init]: ply 0 is never used. *)
Definition ip4_mtrie_module_init (ps : plies) : plies := fst (pool_get zero_ply ps).

Definition ip4_mtrie_16_init : ip4_mtrie_16_ply_t := ply_16_init IP4_MTRIE_LEAF_EMPTY 0.

(** The root ply of the new table. *)
Definition ip4_mtrie_8_init (ps : plies) : plies * Z :=
  let '(ps, root) := pool_get zero_ply ps in (pool_write ps root (ply_8_init IP4_MTRIE_LEAF_EMPTY 0 0), root).

Definition ip4_mtrie_16_free (m : ip4_mtrie_16_ply_t) (ps : plies) : plies := ps.
Definition ip4_mtrie_8_free (root : Z) (ps : plies) : plies := pool_put_index ps root.

Definition ip4_mtrie_16_route_add (m : ip4_mtrie_16_ply_t) (ps : plies) (dst_address dst_address_length adj_index : Z) : option (ip4_mtrie_16_ply_t * plies) :=
  set_root_leaf m ps
    (mk_args (Z.land dst_address (fib_masks dst_address_length)) dst_address_length adj_index 0 0).

Definition ip4_mtrie_8_route_add (root : Z) (ps : plies) (dst_address dst_address_length adj_index : Z) : option plies :=
  set_leaf 4 (mk_args (Z.land dst_address (fib_masks dst_address_length)) dst_address_length adj_index 0 0) ps root 0.

Definition ip4_mtrie_16_route_del (m : ip4_mtrie_16_ply_t) (ps : plies) (dst_address dst_address_length adj_index cover_address_length cover_adj_index : Z) : option (ip4_mtrie_16_ply_t * plies) :=
  unset_root_leaf m ps
    (mk_args (Z.land dst_address (fib_masks dst_address_length)) dst_address_length adj_index
       cover_address_length cover_adj_index).

Definition ip4_mtrie_8_route_del (root : Z) (ps : plies) (dst_address dst_address_length adj_index cover_address_length cover_adj_index : Z) : option plies :=
  fst <$> unset_leaf 4
    (mk_args (Z.land dst_address (fib_masks dst_address_length)) dst_address_length adj_index
       cover_address_length cover_adj_index) ps root 0.

(** ** Lookup *)

(** [ip4_mtrie_16_lookup_step] and [ip4_mtrie_8_lookup_step]. *)
Definition ip4_mtrie_16_lookup_step (ps : plies) (current_leaf dst_address k : Z) : option Z :=
  if negb (ip4_mtrie_leaf_is_terminal current_leaf) then
    p ← pool_elt_at_index ps (Z.shiftr current_leaf 1); vec_elt (leaves p) (as_u8 dst_address k)
  else Some current_leaf.

Definition ip4_mtrie_16_lookup_step_one (m : ip4_mtrie_16_ply_t) (dst_address : Z) : Z :=
  arr_get (leaves_16 m) (as_u16_0 dst_address).

Definition ip4_mtrie_8_lookup_step (ps : plies) (current_leaf dst_address k : Z) : option Z :=
  if negb (ip4_mtrie_leaf_is_terminal current_leaf) then
    p ← pool_elt_at_index ps (Z.shiftr current_leaf 1); vec_elt (leaves p) (as_u8 dst_address k)
  else Some current_leaf.

Definition ip4_mtrie_8_lookup_step_one (ps : plies) (root dst_address : Z) : option Z :=
  p ← pool_elt_at_index ps root; vec_elt (leaves p) (as_u8 dst_address 0).

(** [ip4_fib_forwarding_lookup] with the 16-8-8 trie. *)
Definition ip4_fib_forwarding_lookup_16 (m : ip4_mtrie_16_ply_t) (ps : plies) (addr : Z) : option Z :=
  let leaf := ip4_mtrie_16_lookup_step_one m addr in
  leaf ← ip4_mtrie_16_lookup_step ps leaf addr 2;
  leaf ← ip4_mtrie_16_lookup_step ps leaf addr 3;
  Some (ip4_mtrie_leaf_get_adj_index leaf).

(** The same with the 8-8-8-8 trie. *)
Definition ip4_fib_forwarding_lookup_8 (root : Z) (ps : plies) (addr : Z) : option Z :=
  leaf ← ip4_mtrie_8_lookup_step_one ps root addr;
  leaf ← ip4_mtrie_8_lookup_step ps leaf addr 1;
  leaf ← ip4_mtrie_8_lookup_step ps leaf addr 2;
  leaf ← ip4_mtrie_8_lookup_step ps leaf addr 3;
  Some (ip4_mtrie_leaf_get_adj_index leaf).

(** ** Several lookups at once, step by step *)

Definition ip4_fib_forwarding_lookup_x2_16 (m0 m1 : ip4_mtrie_16_ply_t) (ps : plies) (addr0 addr1 : Z) : option (Z * Z) :=
  let leaf0 := ip4_mtrie_16_lookup_step_one m0 addr0 in
  let leaf1 := ip4_mtrie_16_lookup_step_one m1 addr1 in
  leaf0 ← ip4_mtrie_16_lookup_step ps leaf0 addr0 2;
  leaf1 ← ip4_mtrie_16_lookup_step ps leaf1 addr1 2;
  leaf0 ← ip4_mtrie_16_lookup_step ps leaf0 addr0 3;
  leaf1 ← ip4_mtrie_16_lookup_step ps leaf1 addr1 3;
  Some (ip4_mtrie_leaf_get_adj_index leaf0, ip4_mtrie_leaf_get_adj_index leaf1).

Definition ip4_fib_forwarding_lookup_x4_16 (m0 m1 m2 m3 : ip4_mtrie_16_ply_t) (ps : plies) (addr0 addr1 addr2 addr3 : Z) : option (Z * Z * Z * Z) :=
  let leaf0 := ip4_mtrie_16_lookup_step_one m0 addr0 in
  let leaf1 := ip4_mtrie_16_lookup_step_one m1 addr1 in
  let leaf2 := ip4_mtrie_16_lookup_step_one m2 addr2 in
  let leaf3 := ip4_mtrie_16_lookup_step_one m3 addr3 in
  leaf0 ← ip4_mtrie_16_lookup_step ps leaf0 addr0 2;
  leaf1 ← ip4_mtrie_16_lookup_step ps leaf1 addr1 2;
  leaf2 ← ip4_mtrie_16_lookup_step ps leaf2 addr2 2;
  leaf3 ← ip4_mtrie_16_lookup_step ps leaf3 addr3 2;
  leaf0 ← ip4_mtrie_16_lookup_step ps leaf0 addr0 3;
  leaf1 ← ip4_mtrie_16_lookup_step ps leaf1 addr1 3;
  leaf2 ← ip4_mtrie_16_lookup_step ps leaf2 addr2 3;
  leaf3 ← ip4_mtrie_16_lookup_step ps leaf3 addr3 3;
  Some (ip4_mtrie_leaf_get_adj_index leaf0, ip4_mtrie_leaf_get_adj_index leaf1, ip4_mtrie_leaf_get_adj_index leaf2, ip4_mtrie_leaf_get_adj_index leaf3).

Definition ip4_fib_forwarding_lookup_x2_8 (root0 root1 : Z) (ps : plies) (addr0 addr1 : Z) : option (Z * Z) :=
  leaf0 ← ip4_mtrie_8_lookup_step_one ps root0 addr0;
  leaf1 ← ip4_mtrie_8_lookup_step_one ps root1 addr1;
  leaf0 ← ip4_mtrie_8_lookup_step ps leaf0 addr0 1;
  leaf1 ← ip4_mtrie_8_lookup_step ps leaf1 addr1 1;
  leaf0 ← ip4_mtrie_8_lookup_step ps leaf0 addr0 2;
  leaf1 ← ip4_mtrie_8_lookup_step ps leaf1 addr1 2;
  leaf0 ← ip4_mtrie_8_lookup_step ps leaf0 addr0 3;
  leaf1 ← ip4_mtrie_8_lookup_step ps leaf1 addr1 3;
  Some (ip4_mtrie_leaf_get_adj_index leaf0, ip4_mtrie_leaf_get_adj_index leaf1).

Definition ip4_fib_forwarding_lookup_x4_8 (root0 root1 root2 root3 : Z) (ps : plies) (addr0 addr1 addr2 addr3 : Z) : option (Z * Z * Z * Z) :=
  leaf0 ← ip4_mtrie_8_lookup_step_one ps root0 addr0;
  leaf1 ← ip4_mtrie_8_lookup_step_one ps root1 addr1;
  leaf2 ← ip4_mtrie_8_lookup_step_one ps root2 addr2;
  leaf3 ← ip4_mtrie_8_lookup_step_one ps root3 addr3;
  leaf0 ← ip4_mtrie_8_lookup_step ps leaf0 addr0 1;
  leaf1 ← ip4_mtrie_8_lookup_step ps leaf1 addr1 1;
  leaf2 ← ip4_mtrie_8_lookup_step ps leaf2 addr2 1;
  leaf3 ← ip4_mtrie_8_lookup_step ps leaf3 addr3 1;
  leaf0 ← ip4_mtrie_8_lookup_step ps leaf0 addr0 2;
  leaf1 ← ip4_mtrie_8_lookup_step ps leaf1 addr1 2;
  leaf2 ← ip4_mtrie_8_lookup_step ps leaf2 addr2 2;
  leaf3 ← ip4_mtrie_8_lookup_step ps leaf3 addr3 2;
  leaf0 ← ip4_mtrie_8_lookup_step ps leaf0 addr0 3;
  leaf1 ← ip4_mtrie_8_lookup_step ps leaf1 addr1 3;
  leaf2 ← ip4_mtrie_8_lookup_step ps leaf2 addr2 3;
  leaf3 ← ip4_mtrie_8_lookup_step ps leaf3 addr3 3;
  Some (ip4_mtrie_leaf_get_adj_index leaf0, ip4_mtrie_leaf_get_adj_index leaf1, ip4_mtrie_leaf_get_adj_index leaf2, ip4_mtrie_leaf_get_adj_index leaf3).

(** ** Memory *)

(** [sizeof (ip4_mtrie_8_ply_t)], padded to cache lines, [sizeof (ip4_mtrie_16_t)] and
    [sizeof (ip4_mtrie_8_t)]. *)
Definition SIZEOF_PLY_8 : Z := 1344.
Definition SIZEOF_MTRIE_16 : Z := 5 * 65536.
Definition SIZEOF_MTRIE_8 : Z := 4.

(** The loop over leaves that adds up the plies they lead to. *)
Fixpoint leaves_memory_usage (usage : Z -> option Z) (l : list Z) (bytes : Z) : option Z :=
  match l with
  | [] => Some bytes
  | leaf :: l' =>
      if ip4_mtrie_leaf_is_next_ply leaf then
        n ← usage (ip4_mtrie_leaf_get_next_ply_index leaf); leaves_memory_usage usage l' (bytes + n)
      else leaves_memory_usage usage l' bytes
  end.

Fixpoint mtrie_ply_memory_usage (fuel : nat) (ps : plies) (p : Z) : option Z :=
  match fuel with
  | O => None
  | S fuel' => ply ← pool_elt_at_index ps p; leaves_memory_usage (mtrie_ply_memory_usage fuel' ps) (leaves ply) SIZEOF_PLY_8
  end.

Definition ip4_mtrie_16_memory_usage (m : ip4_mtrie_16_ply_t) (ps : plies) : option Z :=
  leaves_memory_usage (mtrie_ply_memory_usage 2 ps) (arr_get (leaves_16 m) <$> seqZ 0 65536) SIZEOF_MTRIE_16.

Definition ip4_mtrie_8_memory_usage (root : Z) (ps : plies) : option Z :=
  ply ← pool_elt_at_index ps root; leaves_memory_usage (mtrie_ply_memory_usage 3 ps) (leaves ply) SIZEOF_MTRIE_8.
