(* ===== verification/MtrieSpec.v ===== *)
(** * Longest prefix match

    The specification of a forwarding table: routes as a finite map from prefixes to
    results, and the result of the longest route that covers an address.  A prefix is
    its length and its leading bits as a number.  The lemmas say how the answer for a
    prefix changes when a route is added or removed. *)

From stdpp Require Import gmap.
From S2P Require Import Prelude.

Abbreviation prefix := (nat * Z)%type.
Abbreviation routes := (gmap prefix Z).

(** ** Prefixes *)

(** [under e e']: [e] is [e'] or more specific. *)
Definition under (e e' : prefix) : Prop := (e'.1 <= e.1)%nat /\ e.2 / 2 ^ Z.of_nat (e.1 - e'.1) = e'.2.

#[export] Instance under_dec e e' : Decision (under e e').
Proof. unfold under. apply _. Defined.

(** The leading [d] bits of an address. *)
Definition addr_prefix (d : nat) (x : Z) : prefix := (d, x / 2 ^ Z.of_nat (32 - d)).

(** ** Longest match *)

(** Length and result of the longest route that covers a prefix; the adjacency of a
    miss is 0. *)
Fixpoint best_match (R : routes) (d : nat) (q : Z) : nat * Z :=
  match R !! (d, q) with
  | Some a => (d, a)
  | None => match d with O => (O, 0) | S d' => best_match R d' (q / 2) end
  end.

Definition best (R : routes) (e : prefix) : nat * Z := best_match R e.1 e.2.

(** The specification of a lookup. *)
Definition lpm (R : routes) (x : Z) : Z := (best R (32%nat, x)).2.

(** There is a route strictly more specific than [e]. *)
Definition has_longer (R : routes) (e : prefix) : Prop :=
  exists e' a, R !! e' = Some a /\ under e' e /\ (e.1 < e'.1)%nat.

Definition prefix_ok (e : prefix) : Prop := (e.1 <= 32)%nat /\ 0 <= e.2 < 2 ^ Z.of_nat e.1.

Definition routes_ok (R : routes) : Prop := forall e a, R !! e = Some a -> prefix_ok e /\ 0 <= a < 2 ^ 31.

(** ** Lemmas on prefixes *)

Lemma div_pow2_add x (n m : nat) : x / 2 ^ Z.of_nat (n + m) = x / 2 ^ Z.of_nat n / 2 ^ Z.of_nat m.
Proof. rewrite Nat2Z.inj_add, Z.pow_add_r, Z.div_div by lia. reflexivity. Qed.

Lemma under_refl e : under e e.
Proof. split; [lia|]. rewrite Nat.sub_diag. apply Z.div_1_r. Qed.

Lemma under_trans e1 e2 e3 : under e1 e2 -> under e2 e3 -> under e1 e3.
Proof.
  intros [H1 E1] [H2 E2]. split; [lia|]. replace (e1.1 - e3.1)%nat with ((e1.1 - e2.1) + (e2.1 - e3.1))%nat by lia.
  rewrite div_pow2_add. congruence.
Qed.

(** Two prefixes that cover the same one are comparable. *)
Lemma under_comparable e e1 e2 : under e e1 -> under e e2 -> (e2.1 <= e1.1)%nat -> under e1 e2.
Proof.
  intros [H1 E1] [H2 E2] H. split; [lia|]. rewrite <- E1, <- div_pow2_add.
  replace (e.1 - e1.1 + (e1.1 - e2.1))%nat with (e.1 - e2.1)%nat by lia. exact E2.
Qed.

Lemma under_same_len e e1 e2 : under e e1 -> under e e2 -> e1.1 = e2.1 -> e1 = e2.
Proof. intros [_ E1] [_ E2] H. rewrite H in E1. destruct e1, e2. cbn in *. congruence. Qed.

Lemma under_antisym e1 e2 : under e1 e2 -> under e2 e1 -> e1 = e2.
Proof. intros H1 H2. apply (under_same_len e1); [apply under_refl|exact H1|]. destruct H1, H2. lia. Qed.

(** The [2 ^ w] prefixes one level below. *)
Definition child (e : prefix) (w : nat) (i : Z) : prefix := ((e.1 + w)%nat, e.2 * 2 ^ Z.of_nat w + i).

Lemma child_under e w i : 0 <= i < 2 ^ Z.of_nat w -> under (child e w i) e.
Proof.
  intros Hi. split; cbn; [lia|]. replace (e.1 + w - e.1)%nat with w by lia. rewrite Z.div_add_l by lia.
  rewrite (Z.div_small i) by lia. lia.
Qed.

Lemma child_inj e w i j : child e w i = child e w j -> i = j.
Proof. unfold child. intros [= H]. lia. Qed.

Lemma under_child e e0 w :
  under e e0 -> (e0.1 + w <= e.1)%nat -> exists i, 0 <= i < 2 ^ Z.of_nat w /\ under e (child e0 w i).
Proof.
  intros [H E] Hl. set (y := e.2 / 2 ^ Z.of_nat (e.1 - (e0.1 + w))).
  assert (e0.2 = y / 2 ^ Z.of_nat w) as Hy.
  { unfold y. rewrite <- div_pow2_add. now replace (e.1 - (e0.1 + w) + w)%nat with (e.1 - e0.1)%nat by lia. }
  exists (y mod 2 ^ Z.of_nat w). split; [apply Z.mod_pos_bound; lia|]. split; cbn; [lia|].
  fold y. rewrite Hy. pose proof (Z.div_mod y (2 ^ Z.of_nat w)). lia.
Qed.

Lemma child_disjoint e e0 w i j : under e (child e0 w i) -> under e (child e0 w j) -> i = j.
Proof. intros H1 H2. apply (child_inj e0 w), (under_same_len e); auto. Qed.

Lemma addr_prefix_under d d' x : (d <= d' <= 32)%nat -> under (addr_prefix d' x) (addr_prefix d x).
Proof.
  intros H. split; cbn; [lia|]. rewrite <- div_pow2_add. f_equal. f_equal. lia.
Qed.

Lemma addr_prefix_32 x : addr_prefix 32 x = (32%nat, x).
Proof. unfold addr_prefix. cbn. now rewrite Z.div_1_r. Qed.

(** ** Lemmas on the longest match *)

Lemma best_step R d q :
  best R (S d, q) = match R !! (S d, q) with Some a => (S d, a) | None => best R (d, q / 2) end.
Proof. reflexivity. Qed.

Lemma best_hit R e a : R !! e = Some a -> best R e = (e.1, a).
Proof. intros H. destruct e as [[|d] q]; unfold best; cbn [fst snd best_match]; now rewrite H. Qed.

Lemma best_len R e : (fst (best R e) <= e.1)%nat.
Proof.
  destruct e as [d q]. revert q. induction d as [|d IH]; intros q; unfold best; cbn.
  - now destruct (R !! _).
  - destruct (R !! _); cbn; [lia|]. specialize (IH (q / 2)). unfold best in IH. cbn in IH. lia.
Qed.

Lemma under_parent d q e : (e.1 <= d)%nat -> under (S d, q) e <-> under (d, q / 2) e.
Proof.
  intros H. unfold under. cbn [fst snd]. replace (S d - e.1)%nat with (1 + (d - e.1))%nat by lia.
  rewrite div_pow2_add. change (2 ^ Z.of_nat 1) with 2. intuition lia.
Qed.

(** Either the match is a route, or no route covers the prefix. *)
Lemma best_spec R e :
  (exists e', under e e' /\ R !! e' = Some (best R e).2 /\ e'.1 = (best R e).1) \/
  (best R e = (O, 0) /\ forall e', under e e' -> R !! e' = None).
Proof.
  destruct e as [d q]. revert q. induction d as [|d IH]; intros q; [unfold best; cbn|rewrite best_step].
  - destruct (R !! (O, q)) as [a|] eqn:E; [left; exists (O, q); auto using under_refl|right].
    split; [reflexivity|]. intros e' H. replace e' with (O, q); [exact E|].
    apply (under_same_len (O, q)); [apply under_refl|exact H|]. destruct H as [H _]. cbn in *. lia.
  - destruct (R !! (S d, q)) as [a|] eqn:E; [left; exists (S d, q); auto using under_refl|].
    destruct (IH (q / 2)) as [(e' & Hu & Hr & Hl)|[Hb Hn]]; [left; exists e'|right].
    + split; [|auto]. apply under_parent; [|exact Hu]. destruct Hu. exact H.
    + split; [exact Hb|]. intros e' H. destruct (decide (e'.1 = S d)) as [Hd|Hd].
      * replace e' with (S d, q); [exact E|]. apply (under_same_len (S d, q)); auto using under_refl.
      * apply Hn, under_parent; [|exact H]. destruct H as [H _]. cbn in H. lia.
Qed.

(** The match is at least as long as every route that covers the prefix. *)
Lemma best_longest R e e' a : R !! e' = Some a -> under e e' -> (e'.1 <= (best R e).1)%nat.
Proof.
  destruct e as [d q]. revert q. induction d as [|d IH]; intros q Hr Hu; [unfold best; cbn|rewrite best_step].
  - destruct Hu as [Hu _]. cbn in Hu. lia.
  - destruct (decide (e'.1 = S d)) as [Hd|Hd].
    + replace e' with (S d, q) in Hr by (apply (under_same_len (S d, q)); auto using under_refl).
      rewrite Hr. cbn. lia.
    + assert (e'.1 <= d)%nat by (destruct Hu as [Hu _]; cbn in Hu; lia). destruct (R !! (S d, q)); [cbn; lia|].
      apply IH; [exact Hr|now apply under_parent].
Qed.

(** The longest match is determined by these two facts. *)
Lemma best_eq R e e' a :
  R !! e' = Some a -> under e e' -> (forall e'' b, R !! e'' = Some b -> under e e'' -> (e''.1 <= e'.1)%nat) ->
  best R e = (e'.1, a).
Proof.
  intros Hr Hu Hmax. pose proof (best_longest R e e' a Hr Hu) as H1.
  destruct (best_spec R e) as [(e2 & H2 & Hr2 & Hl2)|[_ Hn]]; [|rewrite (Hn _ Hu) in Hr; discriminate].
  pose proof (Hmax _ _ Hr2 H2) as H3. assert (e2 = e') as -> by (apply (under_same_len e); auto; lia).
  rewrite (surjective_pairing (best R e)). congruence.
Qed.

Lemma best_none R e : (forall e', under e e' -> R !! e' = None) -> best R e = (O, 0).
Proof.
  intros Hn. destruct (best_spec R e) as [(e2 & H2 & Hr2 & _)|[H _]]; [|exact H]. now rewrite (Hn _ H2) in Hr2.
Qed.

(** Tables that agree on the routes that cover a prefix agree on its match. *)
Lemma best_agree R R' e : (forall e', under e e' -> R' !! e' = R !! e') -> best R' e = best R e.
Proof.
  intros H. destruct (best_spec R e) as [(e2 & H2 & Hr2 & Hl2)|[Hb Hn]].
  - rewrite (surjective_pairing (best R e)), <- Hl2. apply best_eq; [now rewrite H|exact H2|].
    intros e3 b Hr3 Hu3. rewrite Hl2. rewrite H in Hr3 by exact Hu3. eapply best_longest; eauto.
  - rewrite Hb. apply best_none. intros e' Hu. rewrite H by exact Hu. auto.
Qed.

(** Below a prefix without longer routes the match stays the same. *)
Lemma best_inside R e e' : ~ has_longer R e -> under e' e -> best R e' = best R e.
Proof.
  intros Hn Hu. assert (forall e2 a, R !! e2 = Some a -> under e' e2 -> under e e2) as Hc.
  { intros e2 a Hr H2. destruct (decide (e2.1 <= e.1)%nat); [now apply (under_comparable e')|].
    destruct Hn. exists e2, a. split_and!; [exact Hr|apply (under_comparable e'); auto; lia|lia]. }
  destruct (best_spec R e) as [(e2 & H2 & Hr2 & Hl2)|[Hb Hnone]].
  - rewrite (surjective_pairing (best R e)), <- Hl2. apply best_eq; [exact Hr2|eapply under_trans; eauto|].
    intros e3 b Hr3 Hu3. rewrite Hl2. eapply best_longest; eauto.
  - rewrite Hb. apply best_none. intros e2 H2. destruct (R !! e2) as [b|] eqn:E; [|reflexivity].
    rewrite <- E. apply Hnone. eauto.
Qed.

Lemma has_longer_mono R e e' : has_longer R e' -> under e' e -> has_longer R e.
Proof.
  intros (e2 & a & Hr & Hu & Hl) H. exists e2, a. split_and!; [exact Hr|eapply under_trans; eauto|]. destruct H. lia.
Qed.

(** A match below [e] that is longer than [e] is a longer route. *)
Lemma best_longer R e e' : under e' e -> (e.1 < (best R e').1)%nat -> has_longer R e.
Proof.
  intros Hu Hl. destruct (best_spec R e') as [(e2 & H2 & Hr & Hl2)|[Hb _]]; [|rewrite Hb in Hl; cbn in Hl; lia].
  exists e2, (best R e').2. split_and!; [exact Hr|apply (under_comparable e'); auto; lia|lia].
Qed.

(** *** Addition of a route *)

Section Add.
Context (R : routes) (r : prefix) (adj : Z).
Abbreviation R' := (<[r := adj]> R).

Lemma best_add_outside e : ~ under e r -> best R' e = best R e.
Proof. intros Hn. apply best_agree. intros e' Hu. apply lookup_insert_ne. congruence. Qed.

Lemma best_add_inside e : under e r -> best R' e = if decide ((best R e).1 <= r.1)%nat then (r.1, adj) else best R e.
Proof.
  intros Hu. destruct (decide _) as [Hd|Hd].
  - apply best_eq; [apply lookup_insert_eq|exact Hu|]. intros e2 b Hr2 Hu2.
    destruct (decide (e2 = r)) as [->|]; [lia|]. rewrite lookup_insert_ne in Hr2 by congruence.
    pose proof (best_longest R e e2 b Hr2 Hu2). lia.
  - destruct (best_spec R e) as [(e2 & H2 & Hr2 & Hl2)|[Hb _]]; [|rewrite Hb in Hd; cbn in Hd; lia].
    rewrite (surjective_pairing (best R e)), <- Hl2. apply best_eq; [|exact H2|].
    + rewrite lookup_insert_ne; [exact Hr2|]. intros ->. lia.
    + intros e3 b Hr3 Hu3. destruct (decide (e3 = r)) as [->|]; [lia|]. rewrite lookup_insert_ne in Hr3 by congruence.
      rewrite Hl2. eapply best_longest; eauto.
Qed.

Lemma has_longer_add e : has_longer R e -> has_longer R' e.
Proof.
  intros (e2 & a & Hr & Hu & Hl). destruct (decide (e2 = r)) as [->|].
  - exists r, adj. split_and!; [apply lookup_insert_eq|exact Hu|exact Hl].
  - exists e2, a. split_and!; [rewrite lookup_insert_ne by congruence; exact Hr|exact Hu|exact Hl].
Qed.

Lemma has_longer_add_inv e : has_longer R' e -> has_longer R e \/ under r e /\ (e.1 < r.1)%nat.
Proof.
  intros (e2 & a & Hr & Hu & Hl). destruct (decide (e2 = r)) as [->|]; [auto|].
  rewrite lookup_insert_ne in Hr by congruence. left. exists e2, a. auto.
Qed.

Lemma has_longer_add_path e : under r e -> (e.1 < r.1)%nat -> has_longer R' e.
Proof. intros Hu Hl. exists r, adj. split_and!; [apply lookup_insert_eq|exact Hu|exact Hl]. Qed.

End Add.

(** *** Removal of a route *)

Section Del.
Context (R : routes) (r : prefix) (adj : Z).
Abbreviation R' := (delete r R).

Lemma best_del_outside e : ~ under e r -> best R' e = best R e.
Proof. intros Hn. apply best_agree. intros e' Hu. apply lookup_delete_ne. congruence. Qed.

(** Inside of the removed prefix the match is the route and becomes its cover, or it
    is a longer route and stays. *)
Lemma best_del_inside e :
  under e r -> R !! r = Some adj ->
  (best R e = (r.1, adj) /\ best R' e = best R' r) \/
  (best R' e = best R e /\ exists e', R !! e' = Some (best R e).2 /\ under e' r /\ (r.1 < e'.1)%nat /\ e'.1 = (best R e).1).
Proof.
  intros Hu Hr. destruct (best_spec R e) as [(e2 & H2 & Hr2 & Hl2)|[_ Hn]]; [|rewrite (Hn _ Hu) in Hr; discriminate].
  pose proof (best_longest R e r adj Hr Hu) as Hle. destruct (decide (e2 = r)) as [->|Hne].
  - left. split; [rewrite (surjective_pairing (best R e)); congruence|].
    assert (forall e3 b, R' !! e3 = Some b -> under e e3 -> under r e3 /\ (e3.1 < r.1)%nat) as Hin.
    { intros e3 b Hr3 Hu3. apply lookup_delete_Some in Hr3 as [Hne3 Hr3]. pose proof (best_longest R e e3 b Hr3 Hu3).
      assert (e3.1 <> r.1) by (intros He; apply Hne3, (under_same_len e); auto).
      split; [apply (under_comparable e); auto; lia|lia]. }
    destruct (best_spec R' r) as [(e3 & H3 & Hr3 & Hl3)|[Hb Hn]].
    + rewrite (surjective_pairing (best R' r)), <- Hl3. apply best_eq; [exact Hr3|eapply under_trans; eauto|].
      intros e4 b Hr4 Hu4. rewrite Hl3. eapply best_longest; [exact Hr4|]. now apply (Hin e4 b).
    + rewrite Hb. apply best_none. intros e3 Hu3. destruct (R' !! e3) as [b|] eqn:E; [|reflexivity].
      rewrite (Hn e3) in E; [discriminate|]. now apply (Hin e3 b).
  - right. assert (r.1 <> e2.1) as Hn by (intros He; apply Hne, (under_same_len e); auto). split.
    + rewrite (surjective_pairing (best R e)), <- Hl2. apply best_eq; [now rewrite lookup_delete_ne|exact H2|].
      intros e3 b Hr3 Hu3. apply lookup_delete_Some in Hr3 as [_ Hr3]. rewrite Hl2. eapply best_longest; eauto.
    + exists e2. split_and!; [exact Hr2|apply (under_comparable e); auto; lia|lia|exact Hl2].
Qed.

Lemma has_longer_del e : has_longer R' e -> has_longer R e.
Proof.
  intros (e2 & a & Hr & Hu & Hl). apply lookup_delete_Some in Hr as [_ Hr]. exists e2, a. auto.
Qed.

(** Off the path to the removed route nothing gets shorter. *)
Lemma has_longer_del_off e : has_longer R e -> ~ (under r e /\ (e.1 < r.1)%nat) -> has_longer R' e.
Proof.
  intros (e2 & a & Hr & Hu & Hl) Hn. exists e2, a. split_and!; [|exact Hu|exact Hl].
  rewrite lookup_delete_ne; [exact Hr|]. intros ->. auto.
Qed.

End Del.

#[export] Hint Resolve under_refl : vpp.
