(* ===== verification/MtrieInv.v ===== *)
(** * The invariant of the forwarding tries

    A table owns the plies at certain positions: [P] maps the prefix a ply stands for to
    its index in the pool.  A leaf is right for a set of routes if it holds the longest
    match and no route is longer, or if it leads to the ply of its prefix.  The frame of
    an operation on the plies below a prefix says that nothing else changes, and that no
    ply is lost. *)

From stdpp Require Import gmap.
From S2P Require Import Prelude NetTypes Pool Mtrie MtrieSpec.

Abbreviation positions := (gmap prefix Z).

(** ** Definitions *)

Inductive slot_good (R : routes) (P : positions) (e : prefix) (leaf bits : Z) : Prop :=
| slot_terminal :
    leaf = 1 + 2 * (best R e).2 -> bits = Z.of_nat (best R e).1 -> ~ has_longer R e ->
    (forall e', under e' e -> P !! e' = None) -> slot_good R P e leaf bits
| slot_next p :
    leaf = 2 * p -> bits = Z.of_nat e.1 -> P !! e = Some p -> slot_good R P e leaf bits.

(** Number of lengths greater than [b]. *)
Fixpoint n_longer (b : Z) (l : list Z) : Z :=
  match l with
  | [] => 0
  | x :: l' => (if b <? x then 1 else 0) + n_longer b l'
  end.

Record ply_wf (b : nat) (p : ip4_mtrie_8_ply_t) : Prop := {
  wf_leaves : length (leaves p) = 256%nat;
  wf_bits : length (dst_address_bits_of_leaves p) = 256%nat;
  wf_base : dst_address_bits_base p = Z.of_nat b;
  wf_count : n_non_empty_leafs p = n_longer (Z.of_nat b) (dst_address_bits_of_leaves p)
}.

Definition ply_slot (p : ip4_mtrie_8_ply_t) (i : Z) : Z * Z :=
  (default 0 (vec_elt (leaves p) i), default 0 (vec_elt (dst_address_bits_of_leaves p) i)).

Definition ply_ok (R : routes) (P : positions) (ps : plies) (e : prefix) (p : Z) : Prop :=
  exists ply, pool_lookup ps p = Some ply /\ ply_wf e.1 ply /\
    forall i, 0 <= i < 256 -> slot_good R P (child e 8 i) (ply_slot ply i).1 (ply_slot ply i).2.

(** The plies at and below a prefix. *)
Definition tree_ok (R : routes) (P : positions) (ps : plies) (e0 : prefix) : Prop :=
  forall e p, P !! e = Some p -> under e e0 -> ply_ok R P ps e p.

(** Every ply below [e0], except the root of a table, has a longer route. *)
Definition busy (R : routes) (P : positions) (e0 : prefix) : Prop :=
  forall e p, P !! e = Some p -> under e e0 -> e.1 <> 0%nat -> has_longer R e.

(** Plies stand at the ends of bytes, each at one position, and are in use. *)
Record store_ok (P : positions) (ps : plies) : Prop := {
  st_pool : pool_ok ps;
  st_level : forall e p, P !! e = Some p -> exists k, (k <= 3)%nat /\ e.1 = (8 * k)%nat;
  st_inj : forall e e' p, P !! e = Some p -> P !! e' = Some p -> e = e';
  st_live : forall e p, P !! e = Some p -> is_Some (pool_lookup ps p)
}.

(** The [2 ^ w] leaves below [e], with contents [c]; leaf [i] is right for [Rm i]. *)
Definition node_ok (Rm : Z -> routes) (P : positions) (ps : plies) (e : prefix) (w : nat) (c : Z -> Z * Z) : Prop :=
  forall i, 0 <= i < 2 ^ Z.of_nat w ->
    slot_good (Rm i) P (child e w i) (c i).1 (c i).2 /\ tree_ok (Rm i) P ps (child e w i).

Record frame (e0 : prefix) (P : positions) (ps : plies) (P' : positions) (ps' : plies) : Prop := {
  fr_store : store_ok P' ps';
  fr_pos : forall e, ~ under e e0 -> P' !! e = P !! e;
  fr_plies : forall p ply, pool_lookup ps p = Some ply -> (forall e, P !! e = Some p -> ~ under e e0) ->
    pool_lookup ps' p = Some ply;
  fr_new : forall e p, P' !! e = Some p -> is_Some (pool_lookup ps p) -> (forall e', P !! e' <> Some p) -> False;
  fr_live : forall p, is_Some (pool_lookup ps' p) -> (forall e, P' !! e <> Some p) ->
    is_Some (pool_lookup ps p) /\ forall e, P !! e <> Some p
}.

Definition upd {A} (f : Z -> A) (i : Z) (x : A) : Z -> A := fun j => if decide (j = i) then x else f j.

Lemma upd_eq {A} (f : Z -> A) i x : upd f i x i = x.
Proof. unfold upd. now rewrite decide_True. Qed.

Lemma upd_ne {A} (f : Z -> A) i x j : j <> i -> upd f i x j = f j.
Proof. intros H. unfold upd. now rewrite decide_False. Qed.

(** ** Leaves *)

Lemma land_1 n : Z.land n 1 = n mod 2.
Proof. exact (land_pow2_minus1 n 1 ltac:(lia)). Qed.

Lemma leaf_adj_terminal a : ip4_mtrie_leaf_is_terminal (1 + 2 * a) = true.
Proof.
  unfold ip4_mtrie_leaf_is_terminal. rewrite land_1. replace ((1 + 2 * a) mod 2) with 1 by mod_lia. reflexivity.
Qed.

Lemma leaf_ply_not_terminal p : ip4_mtrie_leaf_is_terminal (2 * p) = false.
Proof.
  unfold ip4_mtrie_leaf_is_terminal. rewrite land_1. replace ((2 * p) mod 2) with 0 by mod_lia. reflexivity.
Qed.

Lemma leaf_adj a : ip4_mtrie_leaf_get_adj_index (1 + 2 * a) = a.
Proof. unfold ip4_mtrie_leaf_get_adj_index. rewrite Z.shiftr_div_pow2 by lia. change (2 ^ 1) with 2. mod_lia. Qed.

Lemma leaf_ply p : ip4_mtrie_leaf_get_next_ply_index (2 * p) = p.
Proof. unfold ip4_mtrie_leaf_get_next_ply_index. rewrite Z.shiftr_div_pow2 by lia. change (2 ^ 1) with 2. mod_lia. Qed.

Lemma set_adj_small a : 0 <= a < 2 ^ 31 -> ip4_mtrie_leaf_set_adj_index a = 1 + 2 * a.
Proof. intros H. unfold ip4_mtrie_leaf_set_adj_index. apply u32_small. unfold is_u. lia. Qed.

Lemma set_ply_small p : 0 <= p < 2 ^ 31 -> ip4_mtrie_leaf_set_next_ply_index p = 2 * p.
Proof. intros H. unfold ip4_mtrie_leaf_set_next_ply_index. rewrite u32_small; unfold is_u; lia. Qed.

Lemma slot_good_cases R P e leaf bits :
  slot_good R P e leaf bits ->
  (ip4_mtrie_leaf_is_terminal leaf = true /\ leaf = 1 + 2 * (best R e).2 /\ bits = Z.of_nat (best R e).1 /\
     ~ has_longer R e /\ (forall e', under e' e -> P !! e' = None)) \/
  (ip4_mtrie_leaf_is_terminal leaf = false /\ exists p, ip4_mtrie_leaf_get_next_ply_index leaf = p /\ leaf = 2 * p /\
     bits = Z.of_nat e.1 /\ P !! e = Some p).
Proof.
  intros [H1 H2 H3 H4|p H1 H2 H3]; [left|right]; subst leaf.
  - auto using leaf_adj_terminal.
  - split; [apply leaf_ply_not_terminal|]. exists p. auto using leaf_ply.
Qed.

(** ** Counting *)

Lemma n_longer_insert b l (i : nat) old new :
  l !! i = Some old ->
  n_longer b (<[i := new]> l) = n_longer b l - (if b <? old then 1 else 0) + (if b <? new then 1 else 0).
Proof.
  revert i. induction l as [|x l IH]; intros [|i] H; try easy.
  - injection H as ->. cbn [insert list_insert n_longer]. lia.
  - change (<[S i := new]> (x :: l)) with (x :: <[i := new]> l). cbn [n_longer]. rewrite (IH i H). lia.
Qed.

Lemma n_longer_bounds b l : 0 <= n_longer b l <= Z.of_nat (length l).
Proof. induction l as [|x l IH]; cbn [n_longer length]; [lia|]. destruct (b <? x); lia. Qed.

Lemma n_longer_pos b l i x : vec_elt l i = Some x -> b < x -> 0 < n_longer b l.
Proof.
  intros Hi%vec_elt_lookup Hx. revert Hi. generalize (Z.to_nat i). induction l as [|y l IH]; intros [|n] H; try easy.
  - injection H as ->. cbn [n_longer]. destruct (Z.ltb_spec b x); [|lia]. pose proof (n_longer_bounds b l). lia.
  - cbn [n_longer]. specialize (IH n H). destruct (b <? y); lia.
Qed.

Lemma n_longer_zero b l i x : n_longer b l = 0 -> vec_elt l i = Some x -> x <= b.
Proof. intros H Hi. destruct (decide (x <= b)); [assumption|]. pose proof (n_longer_pos b l i x Hi). lia. Qed.

Lemma n_longer_witness b l : 0 < n_longer b l -> exists i x, vec_elt l i = Some x /\ b < x.
Proof.
  induction l as [|y l IH]; cbn [n_longer]; [lia|]. destruct (Z.ltb_spec b y); [exists 0, y; auto|].
  intros (i & x & Hi & Hx)%IH. exists (i + 1), x. split; [|exact Hx]. pose proof (vec_elt_lt _ _ _ Hi). apply vec_elt_lookup in Hi.
  unfold vec_elt. destruct (Z.ltb_spec (i + 1) 0); [lia|]. now replace (Z.to_nat (i + 1)) with (S (Z.to_nat i)) by lia.
Qed.

Lemma n_longer_repeat b x n : n_longer b (repeat x n) = if b <? x then Z.of_nat n else 0.
Proof. induction n as [|n IH]; cbn [n_longer repeat]; [now destruct (b <? x)|]. rewrite IH. destruct (b <? x); lia. Qed.

Lemma i32_id x : - 2 ^ 31 <= x < 2 ^ 31 -> i32 x = x.
Proof. intros H. unfold i32. rewrite Z.mod_small; lia. Qed.

Lemma u8_id x : 0 <= x < 256 -> u8 x = x.
Proof. intros H. unfold u8. apply Z.mod_small. change (2 ^ 8) with 256. lia. Qed.

Lemma vec_elt_some {A} (l : list A) i : 0 <= i < Z.of_nat (length l) -> is_Some (vec_elt l i).
Proof.
  intros H. unfold vec_elt. destruct (Z.ltb_spec i 0); [lia|]. apply lookup_lt_is_Some_2. lia.
Qed.

Lemma vec_elt_repeat {A} (x : A) (n : nat) i : 0 <= i < Z.of_nat n -> vec_elt (repeat x n) i = Some x.
Proof.
  intros H. unfold vec_elt. destruct (Z.ltb_spec i 0); [lia|]. assert (Z.to_nat i < n)%nat as Hi by lia.
  revert Hi. generalize (Z.to_nat i). clear. induction n as [|n IH]; intros [|k] Hk; [lia..|reflexivity|]. cbn. apply IH. lia.
Qed.

(** ** Plies *)

Lemma ply_elt b p i :
  ply_wf b p -> 0 <= i < 256 ->
  vec_elt (leaves p) i = Some (ply_slot p i).1 /\ vec_elt (dst_address_bits_of_leaves p) i = Some (ply_slot p i).2.
Proof.
  intros H Hi. unfold ply_slot. cbn [fst snd].
  destruct (vec_elt_some (leaves p) i) as [x ->]; [rewrite (wf_leaves _ _ H); lia|].
  destruct (vec_elt_some (dst_address_bits_of_leaves p) i) as [y ->]; [rewrite (wf_bits _ _ H); lia|]. auto.
Qed.

Lemma put_leaf_slot b p i leaf bits j :
  ply_wf b p -> 0 <= i < 256 -> 0 <= bits < 256 ->
  ply_slot (put_leaf p i leaf bits) j = upd (ply_slot p) i (leaf, bits) j.
Proof.
  intros H Hi Hb. destruct (ply_elt b p i H Hi) as [E1 E2]. unfold ply_slot, put_leaf, upd. cbn.
  rewrite (vec_elt_insert _ _ _ _ _ E1), (vec_elt_insert _ _ _ _ _ E2). destruct (decide (j = i)); [|reflexivity].
  cbn. now rewrite u8_id.
Qed.

(** An assigned leaf with the number of non-empty leaves brought up to date. *)
Lemma put_leaf_wf b p i leaf bits n :
  ply_wf b p -> 0 <= i < 256 -> 0 <= bits < 256 ->
  n = n_non_empty_leafs p - (if Z.of_nat b <? (ply_slot p i).2 then 1 else 0) + (if Z.of_nat b <? bits then 1 else 0) ->
  ply_wf b ((put_leaf p i leaf bits) <| n_non_empty_leafs := n |>) /\ 0 <= n <= 256.
Proof.
  intros H Hi Hb Hn. destruct (ply_elt b p i H Hi) as [_ E2]. assert (n = n_longer (Z.of_nat b) (<[Z.to_nat i := u8 bits]> (dst_address_bits_of_leaves p))) as Hn'.
  { rewrite (n_longer_insert _ _ _ _ _ (vec_elt_lookup _ _ _ E2)), <- (wf_count _ _ H), u8_id by exact Hb. exact Hn. }
  split.
  - split; cbn; rewrite ?length_insert; [apply (wf_leaves _ _ H)|apply (wf_bits _ _ H)|apply (wf_base _ _ H)|exact Hn'].
  - rewrite Hn'. pose proof (n_longer_bounds (Z.of_nat b) (<[Z.to_nat i := u8 bits]> (dst_address_bits_of_leaves p))) as Hl.
    rewrite length_insert, (wf_bits _ _ H) in Hl. lia.
Qed.

Lemma non_empty_val b p i :
  ply_wf b p -> 0 <= i < 256 ->
  ip4_mtrie_leaf_is_non_empty p i = Some (if Z.of_nat b <? (ply_slot p i).2 then 1 else 0).
Proof.
  intros H Hi. destruct (ply_elt b p i H Hi) as [_ E2]. unfold ip4_mtrie_leaf_is_non_empty. rewrite E2. cbn.
  now rewrite (wf_base _ _ H).
Qed.

Lemma count_bounds b p : ply_wf b p -> 0 <= n_non_empty_leafs p <= 256.
Proof.
  intros H. rewrite (wf_count _ _ H). pose proof (n_longer_bounds (Z.of_nat b) (dst_address_bits_of_leaves p)) as Hl.
  rewrite (wf_bits _ _ H) in Hl. lia.
Qed.

(** The bit lengths an assigned leaf has, whatever the count is meanwhile. *)
Lemma non_empty_put b p i leaf bits n :
  ply_wf b p -> 0 <= i < 256 -> 0 <= bits < 256 ->
  ip4_mtrie_leaf_is_non_empty (put_leaf (p <| n_non_empty_leafs := n |>) i leaf bits) i =
  Some (if Z.of_nat b <? bits then 1 else 0).
Proof.
  intros H Hi Hb. destruct (ply_elt b p i H Hi) as [_ E2]. unfold ip4_mtrie_leaf_is_non_empty, put_leaf. cbn.
  rewrite (vec_elt_insert _ _ _ _ _ E2), decide_True by reflexivity. cbn. now rewrite (wf_base _ _ H), u8_id.
Qed.

Lemma replace_leaf_ok b p i leaf bits :
  ply_wf b p -> 0 <= i < 256 -> 0 <= bits < 256 ->
  exists p', replace_leaf p i leaf bits = Some p' /\ ply_wf b p' /\ (forall j, ply_slot p' j = upd (ply_slot p) i (leaf, bits) j).
Proof.
  intros H Hi Hb. unfold replace_leaf. rewrite (non_empty_val b p i H Hi). cbn [mbind option_bind].
  rewrite (non_empty_put b p i leaf bits _ H Hi Hb). cbn [mbind option_bind]. eexists. split; [reflexivity|].
  pose proof (count_bounds b p H) as Hc.
  destruct (put_leaf_wf b p i leaf bits _ H Hi Hb eq_refl) as [Hw Hn]. split.
  - cbn. rewrite (i32_id (_ - _)), i32_id by (destruct (_ <? _); cbn in *; lia). exact Hw.
  - intros j. rewrite <- (put_leaf_slot b p i leaf bits j H Hi Hb). reflexivity.
Qed.

(** A leaf that is assigned without the first of the two updates, as long as neither
    the old nor the new one counts. *)
Lemma put_covered_ok b p i leaf bits :
  ply_wf b p -> 0 <= i < 256 -> 0 <= bits <= Z.of_nat b -> bits < 256 -> (ply_slot p i).2 <= Z.of_nat b ->
  exists n, ip4_mtrie_leaf_is_non_empty (put_leaf p i leaf bits) i = Some n /\ ply_wf b ((put_leaf p i leaf bits) <| n_non_empty_leafs := i32 (n_non_empty_leafs p + n) |>).
Proof.
  intros H Hi Hb Hb' Ho. pose proof (count_bounds b p H) as Hc. exists 0. split.
  - pose proof (non_empty_put b p i leaf bits (n_non_empty_leafs p) H Hi ltac:(lia)) as E.
    rewrite (proj2 (Z.ltb_ge _ _)) in E by lia. exact E.
  - rewrite i32_id by lia. apply (put_leaf_wf b p i leaf bits _ H Hi ltac:(lia)).
    rewrite !(proj2 (Z.ltb_ge _ _)) by lia. lia.
Qed.

Lemma ply_8_init_wf leaf bits (b : nat) :
  0 <= bits <= Z.of_nat b -> Z.of_nat b < 256 ->
  ply_wf b (ply_8_init leaf bits (Z.of_nat b)) /\ (forall i, 0 <= i < 256 -> ply_slot (ply_8_init leaf bits (Z.of_nat b)) i = (leaf, bits)).
Proof.
  intros Hb Hb'. split.
  - split; cbn [ply_8_init leaves dst_address_bits_of_leaves n_non_empty_leafs dst_address_bits_base]; rewrite ?repeat_length, ?n_longer_repeat, ?u8_id by lia; try reflexivity.
  - intros i Hi. unfold ply_slot, ply_8_init. cbn [leaves dst_address_bits_of_leaves].
    rewrite !vec_elt_repeat, u8_id by lia. reflexivity.
Qed.

(** ** Trees and frames *)

Lemma slot_good_ext R P P' e leaf bits :
  (forall e', under e' e -> P' !! e' = P !! e') -> slot_good R P e leaf bits -> slot_good R P' e leaf bits.
Proof.
  intros H [H1 H2 H3 H4|p H1 H2 H3]; [apply slot_terminal; auto|eapply slot_next; eauto].
  - intros e' He. rewrite H by exact He. auto.
  - rewrite H; auto using under_refl.
Qed.

Lemma tree_ok_under R P ps e e0 : tree_ok R P ps e0 -> under e e0 -> tree_ok R P ps e.
Proof. intros H Hu e1 p Hp He. apply H; [exact Hp|eapply under_trans; eauto]. Qed.

Lemma busy_under R P e e0 : busy R P e0 -> under e e0 -> busy R P e.
Proof. intros H Hu e1 p Hp He. apply (H e1 p); [exact Hp|eapply under_trans; eauto]. Qed.

Lemma tree_ok_ext R P ps P' ps' e0 :
  (forall e, under e e0 -> P' !! e = P !! e) ->
  (forall e p, under e e0 -> P !! e = Some p -> pool_lookup ps' p = pool_lookup ps p) ->
  tree_ok R P ps e0 -> tree_ok R P' ps' e0.
Proof.
  intros HP Hps H e p Hp He. rewrite HP in Hp by exact He. destruct (H e p Hp He) as (ply & Hl & Hw & Hs).
  exists ply. split_and!; [rewrite (Hps e p); auto|exact Hw|]. intros i Hi. apply (slot_good_ext R P); [|auto].
  intros e' He'. apply HP. eapply under_trans; [exact He'|]. eapply under_trans; [apply child_under; lia|exact He].
Qed.

Lemma tree_ok_empty R P ps e0 : (forall e, under e e0 -> P !! e = None) -> tree_ok R P ps e0.
Proof. intros H e p Hp He. rewrite (H e He) in Hp. discriminate. Qed.

Lemma frame_refl e0 P ps : store_ok P ps -> frame e0 P ps P ps.
Proof. intros H. split; eauto. intros e p Hp _ Hn. exact (Hn e Hp). Qed.

Lemma frame_weaken e e0 P ps P' ps' : under e e0 -> frame e P ps P' ps' -> frame e0 P ps P' ps'.
Proof.
  intros Hu [H1 H2 H3 H4 H5]. split; auto.
  - intros e' He. apply H2. contradict He. eapply under_trans; eauto.
  - intros p ply Hp Hn. apply H3; [exact Hp|]. intros e' He Hue. apply (Hn e' He). eapply under_trans; eauto.
Qed.

Lemma frame_trans e0 P ps P1 ps1 P2 ps2 :
  frame e0 P ps P1 ps1 -> frame e0 P1 ps1 P2 ps2 -> frame e0 P ps P2 ps2.
Proof.
  intros [A1 A2 A3 A4 A5] [B1 B2 B3 B4 B5].
  assert (forall p, is_Some (pool_lookup ps p) -> (forall e, P !! e = Some p -> ~ under e e0) ->
    forall e, P1 !! e = Some p -> ~ under e e0) as Hkeep.
  { intros p Hp Hn e He Hu. apply (A4 e p He Hp). intros e' He'.
    assert (P1 !! e' = Some p) as H1 by (rewrite A2; auto). apply (Hn e' He'). now rewrite (st_inj _ _ A1 e' e p). }
  split; auto.
  - intros e He. rewrite B2, A2; auto.
  - intros p ply Hp Hn. apply B3; [apply A3; auto|]. apply Hkeep; eauto.
  - intros e p He Hp Hn. destruct Hp as [ply Hp]. apply (B4 e p He).
    + exists ply. apply A3; [exact Hp|]. intros e' He'. destruct (Hn e' He').
    + intros e' He'. apply (A4 e' p He'); eauto.
  - intros p Hp Hn. destruct (B5 p Hp Hn) as [H1 H2]. apply A5; auto.
Qed.

(** What is elsewhere stays. *)
Lemma tree_ok_frame R e0 e P ps P' ps' :
  (forall e', under e' e -> ~ under e' e0) -> store_ok P ps -> frame e0 P ps P' ps' -> tree_ok R P ps e -> tree_ok R P' ps' e.
Proof.
  intros Hd Hs Hf. apply tree_ok_ext; [intros e1 He; apply (fr_pos _ _ _ _ _ Hf), Hd, He|].
  intros e1 p He Hp. destruct (st_live _ _ Hs _ _ Hp) as [ply Hl]. rewrite Hl. apply (fr_plies _ _ _ _ _ Hf); [exact Hl|].
  intros e2 He2. rewrite (st_inj _ _ Hs _ _ _ He2 Hp). auto.
Qed.

(** *** Nodes *)

Lemma child_apart e w i j e' : i <> j -> under e' (child e w i) -> ~ under e' (child e w j).
Proof. intros Hn H1 H2. apply Hn. eapply child_disjoint; eauto. Qed.

(** An operation below leaf [i], with the leaf as [c' i] afterwards. *)
Lemma node_step Rm R' P ps P' ps' e w c c' i :
  store_ok P ps -> node_ok Rm P ps e w c -> frame (child e w i) P ps P' ps' ->
  slot_good R' P' (child e w i) (c' i).1 (c' i).2 -> tree_ok R' P' ps' (child e w i) ->
  (forall j, j <> i -> c' j = c j) -> node_ok (upd Rm i R') P' ps' e w c'.
Proof.
  intros Hs Hn Hf Hg Ht Hc j Hj. destruct (decide (j = i)) as [->|Hne]; [rewrite upd_eq; auto|].
  rewrite upd_ne, Hc by exact Hne. destruct (Hn j Hj) as [H1 H2]. split.
  - apply (slot_good_ext _ P); [|exact H1]. intros e' He. apply (fr_pos _ _ _ _ _ Hf). eapply child_apart; eauto.
  - eapply tree_ok_frame; eauto. intros e' He. eapply child_apart; eauto.
Qed.

(** An assignment to the ply at [e] itself. *)
Lemma node_write Rm P ps e w c p ply :
  store_ok P ps -> (0 < w)%nat -> P !! e = Some p -> node_ok Rm P ps e w c -> node_ok Rm P (pool_write ps p ply) e w c.
Proof.
  intros Hs Hw Hp Hn i Hi. destruct (Hn i Hi) as [H1 H2]. split; [exact H1|]. revert H2. apply tree_ok_ext; [auto|].
  intros e' p' He Hp'. destruct (st_live _ _ Hs _ _ Hp) as [y Hy]. rewrite (pool_write_lookup ps p ply y p' Hy), decide_False; [reflexivity|].
  intros ->. assert (e' = e) as -> by (eapply st_inj; eauto). destruct He as [He _]. cbn in He. lia.
Qed.

Lemma write_frame e P ps p ply : store_ok P ps -> P !! e = Some p -> frame e P ps P (pool_write ps p ply).
Proof.
  intros Hs Hp. destruct (st_live _ _ Hs _ _ Hp) as [y Hy]. pose proof (fun j => pool_write_lookup ps p ply y j Hy) as Hw.
  split; auto.
  - split; [apply pool_write_ok, Hs|apply Hs|apply Hs|]. intros e' p' He. rewrite Hw.
    destruct (decide _); [eauto|]. eapply st_live; eauto.
  - intros p' ply' Hl Hn. rewrite Hw, decide_False; [exact Hl|]. intros ->. apply (Hn e Hp), under_refl.
  - intros e' p' He _ Hn. exact (Hn e' He).
  - intros p' Hl Hn. split; [|exact Hn]. rewrite Hw in Hl. destruct (decide (p' = p)); [subst; eauto|exact Hl].
Qed.

(** A ply whose leaf [i] is right for [Rm i]. *)
Definition ply_mid (Rm : Z -> routes) (P : positions) (ps : plies) (e : prefix) (p : Z) : Prop :=
  exists ply, pool_lookup ps p = Some ply /\ ply_wf e.1 ply /\ node_ok Rm P ps e 8 (ply_slot ply).

Lemma tree_mid R P ps e p : P !! e = Some p -> tree_ok R P ps e -> ply_mid (fun _ => R) P ps e p.
Proof.
  intros Hp H. destruct (H e p Hp (under_refl e)) as (ply & Hl & Hw & Hs). exists ply. split_and!; auto.
  intros i Hi. split; [auto|]. eapply tree_ok_under; [exact H|]. now apply child_under.
Qed.

Lemma mid_tree Rm R P ps e p :
  store_ok P ps -> P !! e = Some p -> (forall i, 0 <= i < 256 -> Rm i = R) -> ply_mid Rm P ps e p -> tree_ok R P ps e.
Proof.
  intros Hs Hp HR (ply & Hl & Hw & Hn) e' p' Hp' Hu. destruct (st_level _ _ Hs _ _ Hp) as (k & Hk & Ek).
  destruct (st_level _ _ Hs _ _ Hp') as (k' & Hk' & Ek'). destruct (decide (k = k')) as [->|Hne].
  - assert (e' = e) as -> by (apply (under_same_len e'); auto using under_refl; lia).
    assert (p' = p) as -> by congruence. exists ply. split_and!; auto. intros i Hi. rewrite <- (HR i Hi).
    now destruct (Hn i Hi).
  - destruct (under_child e' e 8 Hu) as (i & Hi & Hui); [destruct Hu; lia|]. destruct (Hn i Hi) as [_ Ht].
    rewrite (HR i Hi) in Ht. now apply Ht.
Qed.

Lemma node_change Rm Rm' P ps e w c :
  (forall i, 0 <= i < 2 ^ Z.of_nat w -> Rm' i = Rm i) -> node_ok Rm P ps e w c -> node_ok Rm' P ps e w c.
Proof. intros H Hn i Hi. rewrite H by exact Hi. auto. Qed.

(** *** Loops *)

Lemma for_each_inv {A} (I : list Z -> A -> Prop) body l s :
  I [] s ->
  (forall done i rest s, l = done ++ i :: rest -> I done s -> exists s', body s i = Some s' /\ I (done ++ [i]) s') ->
  exists s', for_each body l s = Some s' /\ I l s'.
Proof.
  intros H0 Hstep. assert (forall rest done s, l = done ++ rest -> I done s -> exists s', for_each body rest s = Some s' /\ I l s') as H.
  { induction rest as [|i rest IH]; intros done s1 Hl Hi; cbn [for_each].
    - exists s1. split; [reflexivity|]. now rewrite Hl, app_nil_r.
    - destruct (Hstep done i rest s1 Hl Hi) as (s2 & -> & H2). cbn [mbind option_bind].
      apply (IH (done ++ [i])); [now rewrite <- app_assoc|exact H2]. }
  now apply (H l []).
Qed.

(** The routes a leaf is right for while the leaves [done] have been processed. *)
Definition mixed (R R' : routes) (done : list Z) (i : Z) : routes := if decide (i ∈ done) then R' else R.

Lemma mixed_snoc R R' done i j : mixed R R' (done ++ [i]) j = upd (mixed R R' done) i R' j.
Proof.
  unfold mixed, upd. destruct (decide (j = i)) as [->|Hn]; [now rewrite decide_True by set_solver|].
  apply decide_ext. set_solver.
Qed.

Lemma mixed_todo R R' done i rest l : NoDup l -> l = done ++ i :: rest -> mixed R R' done i = R.
Proof.
  intros Hl ->. unfold mixed. rewrite decide_False; [reflexivity|]. apply NoDup_app in Hl as (_ & Hd & _).
  intros Hi. exact (Hd i Hi (list_elem_of_here _ _)).
Qed.

Lemma mixed_in R R' l i : i ∈ l -> mixed R R' l i = R'.
Proof. intros H. unfold mixed. now rewrite decide_True. Qed.

Lemma mixed_out R R' l i : i ∉ l -> mixed R R' l i = R.
Proof. intros H. unfold mixed. now rewrite decide_False. Qed.

Lemma elem_of_range lo n i : i ∈ range lo n <-> lo <= i < lo + n.
Proof. apply elem_of_seqZ. Qed.

Lemma range_nodup lo n : NoDup (range lo n).
Proof. apply NoDup_seqZ. Qed.

(** The step of a loop over the leaves of a ply: what the body does to leaf [i] is an
    operation below it, then perhaps an assignment to the leaf. *)
Lemma ply_step R R' P ps P' ps' e p done i rest l ply ply' :
  store_ok P ps -> P !! e = Some p -> NoDup l -> l = done ++ i :: rest -> 0 <= i < 256 ->
  ply_mid (mixed R R' done) P ps e p -> pool_lookup ps p = Some ply -> frame (child e 8 i) P ps P' ps' ->
  ply_wf e.1 ply' -> (forall j, j <> i -> ply_slot ply' j = ply_slot ply j) ->
  slot_good R' P' (child e 8 i) (ply_slot ply' i).1 (ply_slot ply' i).2 -> tree_ok R' P' ps' (child e 8 i) ->
  ply_mid (mixed R R' (done ++ [i])) P' (pool_write ps' p ply') e p /\ frame e P ps P' (pool_write ps' p ply').
Proof.
  intros Hs Hp Hnd Hl Hi (ply0 & Hl0 & Hw & Hn) Hlp Hf Hw' Hc Hg Ht. assert (ply0 = ply) as -> by congruence.
  assert (P' !! e = Some p) as Hp'.
  { rewrite (fr_pos _ _ _ _ _ Hf); [exact Hp|]. intros [Hu _]. cbn in Hu. lia. }
  pose proof (fr_store _ _ _ _ _ Hf) as Hs'. destruct (st_live _ _ Hs' _ _ Hp') as [y Hy]. split.
  - exists ply'. split_and!; [rewrite (pool_write_lookup _ _ _ y), decide_True; auto|exact Hw'|].
    apply node_write; auto; [lia|]. eapply node_change; [intros j _; apply mixed_snoc|].
    exact (node_step _ _ _ _ _ _ _ _ _ _ _ Hs Hn Hf Hg Ht Hc).
  - eapply frame_trans; [|now apply write_frame]. apply (frame_weaken (child e 8 i)); [apply child_under; lia|exact Hf].
Qed.

(** The same without an assignment. *)
Lemma ply_step_keep R R' P ps P' ps' e p done i rest l ply :
  store_ok P ps -> P !! e = Some p -> NoDup l -> l = done ++ i :: rest -> 0 <= i < 256 ->
  ply_mid (mixed R R' done) P ps e p -> pool_lookup ps p = Some ply -> frame (child e 8 i) P ps P' ps' ->
  slot_good R' P' (child e 8 i) (ply_slot ply i).1 (ply_slot ply i).2 -> tree_ok R' P' ps' (child e 8 i) ->
  ply_mid (mixed R R' (done ++ [i])) P' ps' e p /\ frame e P ps P' ps'.
Proof.
  intros Hs Hp Hnd Hl Hi (ply0 & Hl0 & Hw & Hn) Hlp Hf Hg Ht. assert (ply0 = ply) as -> by congruence. split.
  - exists ply. split_and!; [|exact Hw|].
    + apply (fr_plies _ _ _ _ _ Hf); [exact Hlp|]. intros e' He'. rewrite (st_inj _ _ Hs e' e p) by auto.
      intros [Hu _]. cbn in Hu. lia.
    + eapply node_change; [intros j _; apply mixed_snoc|]. exact (node_step _ _ _ _ _ _ _ _ _ _ _ Hs Hn Hf Hg Ht (fun _ _ => eq_refl)).
  - apply (frame_weaken (child e 8 i)); [apply child_under; lia|exact Hf].
Qed.

(** ** The embedded root of the 16-8-8 variant *)

Definition root_prefix : prefix := (0%nat, 0).

(** Leaf [q] in the order of the addresses. *)
Definition root_slot (m : ip4_mtrie_16_ply_t) (q : Z) : Z * Z :=
  (arr_get (leaves_16 m) (host_to_net_u16 q), arr_get (dst_address_bits_of_leaves_16 m) (host_to_net_u16 q)).

Lemma u16_small x : is_u 16 x -> u16 x = x.
Proof. apply Z.mod_small. Qed.

Lemma arr_get_put a i x j : arr_get (arr_put a i x) j = if decide (j = i) then x else arr_get a j.
Proof.
  unfold arr_get, arr_put. cbn. destruct (decide (j = i)) as [->|Hn]; [now rewrite lookup_insert_eq|].
  now rewrite lookup_insert_ne by congruence.
Qed.

Lemma root_slot_put m q leaf bits j :
  is_u 16 q -> is_u 16 j -> 0 <= bits < 256 ->
  root_slot (put_leaf_16 m (host_to_net_u16 q) leaf bits) j = upd (root_slot m) q (leaf, bits) j.
Proof.
  intros Hq Hj Hb. unfold root_slot, put_leaf_16, upd. cbn. rewrite !arr_get_put, u8_id by exact Hb.
  destruct (decide (j = q)) as [->|Hne]; [now rewrite !decide_True|].
  rewrite !decide_False; [reflexivity|..]; intros H; apply Hne; now apply (bswap_inj 2).
Qed.

Lemma root_under (r : prefix) i :
  (r.1 <= 16)%nat -> under (child root_prefix 16 i) r <-> i / 2 ^ (16 - Z.of_nat r.1) = r.2.
Proof.
  intros Hr. unfold under, child, root_prefix. cbn [fst snd]. rewrite Z.mul_0_l, Z.add_0_l, Nat.add_0_l.
  replace (Z.of_nat (16 - r.1)) with (16 - Z.of_nat r.1) by lia. intuition.
Qed.

Lemma child_root i : child root_prefix 16 i = (16%nat, i).
Proof. unfold child, root_prefix. cbn [fst snd]. f_equal. Qed.
