(* ===== verification/MtrieAdd.v ===== *)
(** * Addition of routes to the forwarding tries

    [set_leaf] and [set_root_leaf] turn a trie that is right for the routes [R] into one
    that is right for [R] with one more route. *)

From stdpp Require Import gmap.
From S2P Require Import Prelude NetTypes Pool Mtrie MtrieSpec MtrieInv.

(** ** Bytes of an address *)

Lemma as_u8_val a k : is_u 32 a -> 0 <= k < 4 -> as_u8 a k = net_to_host_u32 a / 2 ^ (24 - 8 * k) mod 256.
Proof.
  intros Ha Hk. change 256 with (2 ^ 8). rewrite <- Z.land_ones, <- Z.shiftr_div_pow2 by lia.
  apply Z.bits_inj'. intros i Hi. unfold as_u8. change 255 with (Z.ones 8). rewrite !Z.land_spec, !testbit_ones by lia.
  destruct (Z.ltb_spec i 8); [|now rewrite !andb_false_r]. rewrite !andb_true_r, !Z.shiftr_spec by lia.
  unfold net_to_host_u32. rewrite bswap_bits by lia. f_equal. mod_lia.
Qed.

Lemma as_u16_val a : is_u 32 a -> net_to_host_u16 (as_u16_0 a) = net_to_host_u32 a / 2 ^ 16.
Proof.
  intros Ha. rewrite <- Z.shiftr_div_pow2 by lia. apply Z.bits_inj'. intros i Hi. unfold net_to_host_u16, net_to_host_u32, as_u16_0.
  change 65535 with (Z.ones 16). rewrite Z.shiftr_spec by lia. destruct (decide (i < 16)).
  - rewrite !bswap_bits, Z.land_spec, testbit_ones by mod_lia. rewrite (proj2 (Z.ltb_lt _ 16)), andb_true_r by mod_lia.
    f_equal. mod_lia.
  - now rewrite !bswap_bits_high by lia.
Qed.

(** The mask keeps the leading bits. *)
Lemma fib_masks_val a (n : nat) :
  (n <= 32)%nat ->
  net_to_host_u32 (Z.land a (fib_masks (Z.of_nat n))) = net_to_host_u32 a / 2 ^ Z.of_nat (32 - n) * 2 ^ Z.of_nat (32 - n).
Proof.
  intros Hn. unfold fib_masks, net_to_host_u32, host_to_net_u32. rewrite bswap_land.
  set (m := if Z.of_nat n <? 32 then _ else _).
  assert (m = Z.ldiff (Z.ones 32) (Z.ones (Z.of_nat (32 - n)))) as Hm.
  { unfold m, low_mask, u32. apply Z.bits_inj'. intros i Hi.
    rewrite Z.ldiff_spec, !testbit_ones by lia. destruct (Z.ltb_spec (Z.of_nat n) 32).
    - destruct (decide (i < 32)).
      + rewrite Z.mod_pow2_bits_low, Z.shiftl_spec by lia. replace (Z.shiftl 1 (Z.of_nat n) - 1) with (Z.ones (Z.of_nat n)) by (rewrite Z.ones_equiv, Z.shiftl_mul_pow2 by lia; lia).
        destruct (Z.ltb_spec i (Z.of_nat (32 - n))).
        * rewrite Z.testbit_neg_r by lia. now rewrite andb_false_r.
        * rewrite testbit_ones by lia. rewrite !(proj2 (Z.ltb_lt _ _)) by lia. reflexivity.
      + rewrite Z.mod_pow2_bits_high by lia. now rewrite (proj2 (Z.ltb_ge i 32)) by lia.
    - replace (32 - n)%nat with O by lia. rewrite testbit_ones, (proj2 (Z.ltb_ge i (Z.of_nat 0))) by lia. now rewrite andb_true_r. }
  rewrite (bswap_involutive 4), Hm.
  - rewrite <- Z.shiftr_div_pow2, <- Z.shiftl_mul_pow2 by lia. apply Z.bits_inj'. intros i Hi.
    rewrite Z.land_spec, Z.ldiff_spec, !testbit_ones, Z.shiftl_spec by lia. destruct (Z.ltb_spec i (Z.of_nat (32 - n))).
    + rewrite (Z.testbit_neg_r _ (i - _)) by lia. now rewrite !andb_false_r.
    + rewrite Z.shiftr_spec by lia. replace (i - Z.of_nat (32 - n) + Z.of_nat (32 - n)) with i by lia.
      destruct (Z.ltb_spec i 32); [now rewrite !andb_true_r|]. rewrite (bswap_bits_high 4) by lia. reflexivity.
  - rewrite Hm. apply is_u_bits; [lia|apply (proj2 (Z.ldiff_nonneg _ _)); left; rewrite Z.ones_equiv; lia|].
    intros i Hi. rewrite Z.ldiff_spec, testbit_ones, (proj2 (Z.ltb_ge i 32)) by lia. reflexivity.
Qed.

(** ** Ranges of leaves *)

(** The leaves of the ply at [e] that a route covers, for a route that ends in it or
    above it. *)
Lemma covered_range (x : Z) (e r : prefix) (k : nat) i :
  e.1 = (8 * k)%nat -> (k <= 3)%nat -> (r.1 <= e.1 + 8)%nat -> under r e \/ under e r ->
  x = r.2 * 2 ^ Z.of_nat (32 - r.1) ->
  let lo := x / 2 ^ (24 - 8 * Z.of_nat k) mod 256 in
  let n := 2 ^ Z.min 8 (8 * (Z.of_nat k + 1) - Z.of_nat r.1) in
  (i ∈ range lo n <-> 0 <= i < 256 /\ under (child e 8 i) r) /\ Z.land lo (n - 1) = 0.
Proof.
  intros He Hk Hl Hr Hx lo n. rewrite elem_of_range. set (m := (e.1 + 8 - r.1)%nat).
  assert (x / 2 ^ (24 - 8 * Z.of_nat k) = r.2 * 2 ^ Z.of_nat m) as Hq.
  { rewrite Hx. replace (Z.of_nat (32 - r.1)) with (Z.of_nat m + (24 - 8 * Z.of_nat k)) by lia.
    rewrite Z.pow_add_r, Z.mul_assoc, Z.div_mul by lia. reflexivity. }
  unfold lo, n. rewrite Hq. assert (8 * (Z.of_nat k + 1) - Z.of_nat r.1 = Z.of_nat m) as -> by lia.
  unfold under, child. cbn [fst snd]. change (2 ^ Z.of_nat 8) with 256. fold m.
  destruct (decide (8 <= m)%nat) as [H8|H8].
  - assert (under e r) as [_ Hu]. { destruct Hr as [Hr|Hr]; [|exact Hr]. assert (e = r) as ->; [|apply under_refl]. apply (under_same_len r); [exact Hr|apply under_refl|]. destruct Hr. lia. }
    rewrite Z.min_l by lia. replace (Z.of_nat m) with (Z.of_nat (m - 8) + 8) by lia.
    rewrite Z.pow_add_r, Z.mul_assoc by lia. change (2 ^ 8) with 256. rewrite Z.mod_mul by lia. split; [|reflexivity].
    split; [|lia]. intros Hi. split; [lia|]. split; [lia|].
    replace (2 ^ Z.of_nat (m - 8) * 256) with (256 * 2 ^ Z.of_nat (m - 8)) by lia.
    rewrite <- Z.div_div, Z.div_add_l, (Z.div_small i) by lia. rewrite Z.add_0_r. replace (m - 8)%nat with (e.1 - r.1)%nat by lia. exact Hu.
  - assert (under r e) as [Hle Hu]. { destruct Hr as [Hr|Hr]; [exact Hr|]. assert (e = r) as ->; [|apply under_refl]. apply (under_same_len e); [apply under_refl|exact Hr|]. destruct Hr. lia. }
    rewrite Z.min_r by lia. set (t := r.2 mod 2 ^ Z.of_nat (r.1 - e.1)).
    assert (r.2 = e.2 * 2 ^ Z.of_nat (r.1 - e.1) + t) as Ht.
    { unfold t. pose proof (Z.div_mod r.2 (2 ^ Z.of_nat (r.1 - e.1))). rewrite Hu in H. lia. }
    assert (0 <= t < 2 ^ Z.of_nat (r.1 - e.1)) as Hb by (apply Z.mod_pos_bound; lia).
    assert (2 ^ Z.of_nat (r.1 - e.1) * 2 ^ Z.of_nat m = 256) as H256.
    { rewrite <- Z.pow_add_r by lia. change 256 with (2 ^ 8). f_equal. lia. }
    assert (0 < 2 ^ Z.of_nat m) as Hm by lia.
    assert (r.2 * 2 ^ Z.of_nat m = e.2 * 256 + t * 2 ^ Z.of_nat m) as -> by (rewrite Ht, <- H256; lia).
    rewrite Z.add_comm, Z.mod_add, (Z.mod_small (t * _)) by nia. split.
    + rewrite Ht, <- H256, Z.mul_assoc. set (M := 2 ^ Z.of_nat m) in *. set (N := 2 ^ Z.of_nat (r.1 - e.1)) in *.
      rewrite Z.div_add_l by lia. split.
      * intros Hi. assert (i / M = t) as Hd by (symmetry; apply (Z.div_unique_pos _ _ _ (i - t * M)); lia).
        split; [nia|]. split; [lia|]. rewrite Hd. lia.
      * intros (Hi & _ & Hd). pose proof (Z.div_mod i M). pose proof (Z.mod_pos_bound i M). nia.
    + rewrite land_pow2_minus1 by lia. apply Z.mod_mul. lia.
Qed.

(** The leaf of the ply at [e] that leads to a route below it. *)
Lemma path_byte (x : Z) (e r : prefix) (k : nat) i :
  e.1 = (8 * k)%nat -> (k <= 3)%nat -> (e.1 + 8 <= r.1 <= 32)%nat -> 0 <= i < 256 -> under r (child e 8 i) ->
  x = r.2 * 2 ^ Z.of_nat (32 - r.1) -> x / 2 ^ (24 - 8 * Z.of_nat k) mod 256 = i.
Proof.
  intros He Hk Hl Hi [_ Hu] Hx. cbn [child fst snd] in Hu. change (2 ^ Z.of_nat 8) with 256 in Hu.
  assert (x / 2 ^ (24 - 8 * Z.of_nat k) = r.2 / 2 ^ Z.of_nat (r.1 - (e.1 + 8))) as ->.
  { rewrite Hx. replace (24 - 8 * Z.of_nat k) with (Z.of_nat (32 - r.1) + Z.of_nat (r.1 - (e.1 + 8))) by lia.
    rewrite Z.pow_add_r by lia. rewrite <- Z.div_div, Z.div_mul by lia. reflexivity. }
  rewrite Hu, Z.add_comm, Z.mod_add, Z.mod_small by lia. reflexivity.
Qed.

(** *** New plies *)

(** Replacing a leaf by a ply of copies of it. *)
Lemma create_ok R P ps c k :
  store_ok P ps -> c.1 = (8 * k)%nat -> (k <= 3)%nat -> pool_len ps < 2 ^ 31 ->
  ~ has_longer R c -> (forall e, under e c -> P !! e = None) ->
  exists ps1 q, ply_create ps (1 + 2 * (best R c).2) (Z.of_nat (best R c).1) (Z.of_nat c.1) = (ps1, 2 * q) /\
    frame c P ps (<[c := q]> P) ps1 /\ tree_ok R (<[c := q]> P) ps1 c /\ pool_len ps1 <= pool_len ps + 1.
Proof.
  intros Hs Hk Hk3 Hpl Hn Hnone. unfold ply_create. set (ply := ply_8_init _ _ _).
  pose proof (pool_get_write zero_ply ps ply (st_pool _ _ Hs)) as H. destruct (pool_get zero_ply ps) as [ps0 q].
  destruct H as [[A1 A2 A3 A4 A5 A6 A7] Hq]. pose proof (best_len R c) as Hb. rewrite pool_write_len in A6, A7.
  assert (forall e p, P !! e = Some p -> p <> q) as Hfresh.
  { intros e p Hp ->. destruct (st_live _ _ Hs _ _ Hp) as [y Hy]. congruence. }
  assert (forall e, under e c -> e <> c -> (<[c := q]> P : positions) !! e = None) as Hbelow
    by (intros e He Hne; rewrite lookup_insert_ne by congruence; auto).
  eexists _, q. split_and!.
  - rewrite set_ply_small by lia. reflexivity.
  - split.
    + split; [exact A1|..].
      * intros e p [[<- <-]|[_ Hp]]%lookup_insert_Some; [exists k; auto|eapply st_level; eauto].
      * intros e e' p [[<- <-]|[N1 Hp]]%lookup_insert_Some [[<- Eq]|[N2 Hp']]%lookup_insert_Some; [reflexivity| | |eapply st_inj; eauto].
        -- destruct (Hfresh _ _ Hp' eq_refl).
        -- destruct (Hfresh _ _ Hp (eq_sym Eq)).
      * intros e p [[<- <-]|[_ Hp]]%lookup_insert_Some; [exact A3|]. rewrite A4 by (eapply Hfresh; exact Hp). eapply st_live; eauto.
    + intros e He. apply lookup_insert_ne. intros <-. apply He, under_refl.
    + intros p y Hy _. rewrite A4; [exact Hy|congruence].
    + intros e p [[<- <-]|[_ Hp]]%lookup_insert_Some [y Hy] H; [congruence|exact (H e Hp)].
    + intros p Hp H. assert (p <> q) as Hne by (intros ->; apply (H c), lookup_insert_eq). rewrite A4 in Hp by exact Hne.
      split; [exact Hp|]. intros e He. apply (H e). rewrite lookup_insert_ne; [exact He|]. intros <-. rewrite Hnone in He by apply under_refl. discriminate.
  - intros e p [[<- <-]|[Hne Hp]]%lookup_insert_Some He; [|rewrite (Hnone e He) in Hp; discriminate].
    exists ply. destruct (ply_8_init_wf (1 + 2 * (best R c).2) (Z.of_nat (best R c).1) c.1) as [Hw Hsl]; [lia..|].
    split_and!; [exact Hq|exact Hw|]. intros i Hi. unfold ply. rewrite (Hsl i Hi).
    assert (under (child c 8 i) c) as Hu by (apply child_under; lia).
    assert (best R (child c 8 i) = best R c) as Hbi by now apply best_inside.
    apply slot_terminal; cbn [fst snd]; rewrite ?Hbi; auto.
    + intros H. exact (Hn (has_longer_mono _ _ _ H Hu)).
    + intros e' He'. apply Hbelow; [eapply under_trans; eauto|]. intros ->. destruct He' as [He' _]. cbn in He'. lia.
  - rewrite pool_write_len. lia.
Qed.

(** ** Addition *)

Lemma range_inv l i done rest (Q : Z -> Prop) : (forall i, i ∈ l -> Q i) -> l = done ++ i :: rest -> Q i.
Proof. intros H ->. apply H. set_solver. Qed.

Section Add.
Context (R : routes) (r : prefix) (adj : Z) (a : ip4_mtrie_set_unset_leaf_args_t).
Abbreviation R' := (<[r := adj]> R).
Context (Hadj : 0 <= adj < 2 ^ 31) (Hlen : (r.1 <= 32)%nat).
Context (Ha_len : a_dst_address_length a = Z.of_nat r.1) (Ha_adj : a_adj_index a = adj).
Context (Ha_u32 : is_u 32 (a_dst_address a)).
Context (Ha_dst : net_to_host_u32 (a_dst_address a) = r.2 * 2 ^ Z.of_nat (32 - r.1)).

(** *** Leaves *)

(** A leaf that is not longer than the route takes it. *)
Lemma add_replace P e leaf bits :
  slot_good R P e leaf bits -> under e r -> ip4_mtrie_leaf_is_terminal leaf = true -> bits <= Z.of_nat r.1 ->
  slot_good R' P e (1 + 2 * adj) (Z.of_nat r.1).
Proof.
  intros Hg Hu Ht Hb. destruct (slot_good_cases _ _ _ _ _ Hg) as [(_ & Hl & Hbits & Hn & Hp)|[E _]]; [|congruence].
  assert (best R' e = (r.1, adj)) as Hbest by (rewrite best_add_inside, decide_True; [reflexivity|lia|exact Hu]).
  apply slot_terminal; rewrite ?Hbest; auto. intros [H|[H1 H2]]%has_longer_add_inv; [auto|]. destruct Hu. lia.
Qed.

(** A longer one stays. *)
Lemma add_keep P e leaf bits :
  slot_good R P e leaf bits -> under e r -> (ip4_mtrie_leaf_is_terminal leaf = true -> Z.of_nat r.1 < bits) ->
  slot_good R' P e leaf bits.
Proof.
  intros Hg Hu Hb. destruct (slot_good_cases _ _ _ _ _ Hg) as [(Ht & Hl & Hbits & Hn & Hp)|(_ & p & _ & Hl & Hbits & Hp)].
  - specialize (Hb Ht). assert (best R' e = best R e) as Hbest by (rewrite best_add_inside, decide_False; [reflexivity|lia|exact Hu]).
    apply slot_terminal; rewrite ?Hbest; auto. intros [H|[H1 H2]]%has_longer_add_inv; [auto|]. destruct Hu. lia.
  - eapply slot_next; eauto.
Qed.

(** So does everything off the way to the route. *)
Lemma add_off P e leaf bits : ~ under e r -> ~ under r e -> slot_good R P e leaf bits -> slot_good R' P e leaf bits.
Proof.
  intros H1 H2 [A1 A2 A3 A4|p A1 A2 A3]; [|eapply slot_next; eauto].
  apply slot_terminal; rewrite ?best_add_outside by exact H1; auto. now intros [H|[H _]]%has_longer_add_inv.
Qed.

Lemma add_off_tree P ps e : ~ under e r -> ~ under r e -> tree_ok R P ps e -> tree_ok R' P ps e.
Proof.
  intros H1 H2 H e' p Hp Hu. destruct (H e' p Hp Hu) as (ply & Hl & Hw & Hs). exists ply. split_and!; auto.
  intros i Hi. assert (under (child e' 8 i) e) as Hc by (eapply under_trans; [apply child_under; lia|exact Hu]).
  apply add_off; auto; intros Hr.
  - destruct (decide (e.1 <= r.1)%nat).
    + apply H2. apply (under_comparable (child e' 8 i)); auto.
    + apply H1. apply (under_comparable (child e' 8 i)); auto. lia.
  - apply H2. eapply under_trans; eauto.
Qed.

(** The leaves of a node when those the route covers have been processed. *)
Lemma add_node_done P ps e w c l :
  (forall i, i ∈ l <-> 0 <= i < 2 ^ Z.of_nat w /\ under (child e w i) r) -> (r.1 <= e.1 + w)%nat ->
  node_ok (mixed R R' l) P ps e w c -> node_ok (fun _ => R') P ps e w c.
Proof.
  intros Hl Hw Hn i Hi. destruct (Hn i Hi) as [H1 H2]. destruct (decide (i ∈ l)) as [Hin|Hin].
  - rewrite mixed_in in H1, H2 by exact Hin. auto.
  - rewrite mixed_out in H1, H2 by exact Hin. assert (~ under (child e w i) r) as N1 by (contradict Hin; now apply Hl).
    assert (~ under r (child e w i)) as N2.
    { intros Hu. apply N1. assert (r = child e w i) as ->; [|apply under_refl]. apply (under_same_len r); [apply under_refl|exact Hu|].
      destruct Hu as [Hu _]. cbn in *. lia. }
    auto using add_off, add_off_tree.
Qed.

(** The state of a loop over the leaves of the ply [p] at [e]. *)
Definition filling P ps0 e p done ps1 : Prop :=
  ply_mid (mixed R R' done) P ps1 e p /\ frame e P ps0 P ps1 /\ pool_len ps1 = pool_len ps0.

Lemma filling_start P ps e p : store_ok P ps -> P !! e = Some p -> tree_ok R P ps e -> filling P ps e p [] ps.
Proof.
  intros Hs Hp Ht. split_and!; [|now apply frame_refl|reflexivity]. destruct (tree_mid _ _ _ _ _ Hp Ht) as (ply & Hl & Hw & Hn).
  exists ply. auto.
Qed.

(** What the body of the loop reads. *)
Lemma filling_open P ps0 e p l done i rest ps1 :
  filling P ps0 e p done ps1 -> NoDup l -> l = done ++ i :: rest -> 0 <= i < 256 ->
  exists ply, pool_lookup ps1 p = Some ply /\ ply_wf e.1 ply /\ pool_elt_at_index ps1 p = Some ply /\
    vec_elt (leaves ply) i = Some (ply_slot ply i).1 /\ vec_elt (dst_address_bits_of_leaves ply) i = Some (ply_slot ply i).2 /\
    slot_good R P (child e 8 i) (ply_slot ply i).1 (ply_slot ply i).2 /\ tree_ok R P ps1 (child e 8 i) /\ store_ok P ps1.
Proof.
  intros ((ply & Hl & Hw & Hn) & Hf & _) Hnd E Hi. destruct (Hn i Hi) as [Hg Ht].
  rewrite (mixed_todo R R' done i rest l Hnd E) in Hg, Ht. destruct (ply_elt _ _ i Hw Hi) as [E1 E2].
  exists ply. split_and!; auto using pool_lookup_elt. apply (fr_store _ _ _ _ _ Hf).
Qed.

(** The leaf gets new contents. *)
Lemma filling_write P ps0 e p l done i rest ps1 ply ply' leaf bits :
  filling P ps0 e p done ps1 -> P !! e = Some p -> NoDup l -> l = done ++ i :: rest -> 0 <= i < 256 ->
  pool_lookup ps1 p = Some ply -> ply_wf e.1 ply' -> (forall j, ply_slot ply' j = upd (ply_slot ply) i (leaf, bits) j) ->
  slot_good R' P (child e 8 i) leaf bits -> (forall e', under e' (child e 8 i) -> P !! e' = None) ->
  filling P ps0 e p (done ++ [i]) (pool_write ps1 p ply').
Proof.
  intros (Hmid & Hf & Hlen1) Hp Hnd E Hi Hl Hw' Hslots Hg Hnone. pose proof (fr_store _ _ _ _ _ Hf) as Hs1.
  destruct (ply_step R R' P ps1 P ps1 e p done i rest _ ply ply' Hs1 Hp Hnd E Hi Hmid Hl (frame_refl _ _ _ Hs1) Hw') as [A B].
  - intros j Hj. rewrite Hslots. now apply upd_ne.
  - rewrite Hslots, upd_eq. exact Hg.
  - now apply tree_ok_empty.
  - split_and!; [exact A|eapply frame_trans; eauto|]. rewrite pool_write_len. exact Hlen1.
Qed.

(** The leaf stays, what is below it may change. *)
Lemma filling_below P ps0 e p l done i rest ps1 ps2 ply :
  filling P ps0 e p done ps1 -> P !! e = Some p -> NoDup l -> l = done ++ i :: rest -> 0 <= i < 256 ->
  pool_lookup ps1 p = Some ply -> frame (child e 8 i) P ps1 P ps2 -> pool_len ps2 = pool_len ps1 ->
  slot_good R' P (child e 8 i) (ply_slot ply i).1 (ply_slot ply i).2 -> tree_ok R' P ps2 (child e 8 i) ->
  filling P ps0 e p (done ++ [i]) ps2.
Proof.
  intros (Hmid & Hf & Hlen1) Hp Hnd E Hi Hl Hf2 Hlen2 Hg Ht. pose proof (fr_store _ _ _ _ _ Hf) as Hs1.
  destruct (ply_step_keep R R' P ps1 P ps2 e p done i rest _ ply Hs1 Hp Hnd E Hi Hmid Hl Hf2 Hg Ht) as [A B].
  split_and!; [exact A|eapply frame_trans; eauto|lia].
Qed.

Lemma filling_done P ps0 e p l ps1 :
  filling P ps0 e p l ps1 -> P !! e = Some p -> (r.1 <= e.1 + 8)%nat ->
  (forall i, i ∈ l <-> 0 <= i < 256 /\ under (child e 8 i) r) -> tree_ok R' P ps1 e.
Proof.
  intros ((ply & Hl & Hw & Hn) & Hf & _) Hp Hr Hin.
  apply (mid_tree (fun _ => R') R' P ps1 e p); auto; [apply Hf|]. exists ply. split_and!; auto. eapply add_node_done; eauto.
Qed.

(** *** [set_ply_with_more_specific_leaf] *)

Lemma more_specific_ok fuel :
  forall P ps e p (k : nat), store_ok P ps -> P !! e = Some p -> e.1 = (8 * k)%nat -> (k <= 3)%nat -> (4 <= k + fuel)%nat ->
  under e r -> tree_ok R P ps e ->
  exists ps', set_ply_with_more_specific_leaf fuel ps p (1 + 2 * adj) (Z.of_nat r.1) = Some ps' /\
    tree_ok R' P ps' e /\ frame e P ps P ps' /\ pool_len ps' = pool_len ps.
Proof.
  induction fuel as [|fuel IH]; intros P ps e p k Hs Hp Hk Hk3 Hf Hu Ht; [lia|]. cbn [set_ply_with_more_specific_leaf].
  assert (r.1 <= e.1)%nat as Hre by (destruct Hu; lia). pose proof (range_nodup 0 256) as Hnd.
  match goal with |- context [for_each ?b ?l ?s] => destruct (for_each_inv (filling P ps e p) b l s) as (ps' & -> & Hfill) end.
  - now apply filling_start.
  - intros done i rest ps1 E Hfill. assert (0 <= i < 256) as Hi by (apply (range_inv _ _ _ _ (fun i => 0 <= i < 256) (fun j => proj1 (elem_of_range 0 256 j)) E)).
    destruct (filling_open _ _ _ _ _ _ _ _ _ Hfill Hnd E Hi) as (ply & Hl & Hw & -> & E1 & E2 & Hg & Hti & Hs1).
    cbn [mbind option_bind]. rewrite E1, E2. cbn [mbind option_bind].
    assert (under (child e 8 i) r) as Hcr by (eapply under_trans; [apply child_under; lia|exact Hu]).
    destruct (slot_good_cases _ _ _ _ _ Hg) as [(T & Hleaf & Hbits & Hnl & Hnone)|(T & q & -> & Hleaf & Hbits & Hpq)]; rewrite T; cbn [negb].
    + destruct (Z.leb_spec (ply_slot ply i).2 (Z.of_nat r.1)).
      * destruct (put_covered_ok e.1 ply i (1 + 2 * adj) (Z.of_nat r.1)) as (n & -> & Hw'); [auto; lia..|]. cbn [mbind option_bind].
        eexists. split; [reflexivity|]. eapply filling_write; eauto; [|now apply (add_replace P _ (ply_slot ply i).1 (ply_slot ply i).2)].
        intros j. now apply (put_leaf_slot e.1); [| |lia].
      * eexists. split; [reflexivity|]. eapply filling_below; eauto using frame_refl, tree_ok_empty. now apply add_keep.
    + destruct (st_level _ _ Hs1 _ _ Hpq) as (k' & Hk' & Ek'). cbn in Ek'.
      destruct (IH P ps1 (child e 8 i) q (S k)) as (ps2 & E' & Ht2 & Hf2 & Hl2); [auto; cbn; lia..|].
      exists ps2. split; [exact E'|]. eapply filling_below; eauto. eapply slot_next; eauto.
  - exists ps'. split_and!; [reflexivity| |apply Hfill|apply Hfill]. eapply filling_done; eauto; [lia|].
    intros i. rewrite elem_of_range. split; [|lia]. intros Hi. split; [lia|]. eapply under_trans; [apply child_under; lia|exact Hu].
Qed.

(** *** [set_leaf], for a route that ends in the ply or above it *)

Lemma set_leaf_fill fuel :
  forall P ps e p (k : nat), store_ok P ps -> P !! e = Some p -> e.1 = (8 * k)%nat -> (k <= 3)%nat -> (4 <= k + fuel)%nat ->
  under r e \/ under e r -> (r.1 <= e.1 + 8)%nat -> tree_ok R P ps e ->
  exists ps', set_leaf fuel a ps p (Z.of_nat k) = Some ps' /\
    tree_ok R' P ps' e /\ frame e P ps P ps' /\ pool_len ps' = pool_len ps.
Proof.
  induction fuel as [|fuel IH]; intros P ps e p k Hs Hp Hk Hk3 Hf Hu Hre Ht; [lia|]. cbn [set_leaf].
  rewrite Ha_len, i32_id, Ha_adj, (set_adj_small adj Hadj) by lia. rewrite (proj2 (Z.leb_le _ 0)) by lia.
  rewrite (as_u8_val _ _ Ha_u32), Ha_dst, Z.shiftl_1_l by lia.
  set (x := r.2 * 2 ^ Z.of_nat (32 - r.1)). pose proof (fun i => proj1 (covered_range x e r k i Hk Hk3 Hre Hu eq_refl)) as Hin. cbv zeta in Hin.
  replace (- (Z.of_nat r.1 - 8 * (Z.of_nat k + 1))) with (8 * (Z.of_nat k + 1) - Z.of_nat r.1) by lia.
  set (l := range _ _) in *. assert (NoDup l) as Hnd by apply range_nodup.
  match goal with |- context [for_each ?b ?l ?s] => destruct (for_each_inv (filling P ps e p) b l s) as (ps' & -> & Hfill) end.
  - now apply filling_start.
  - intros done i rest ps1 E Hfill. destruct (range_inv _ _ _ _ _ (fun j => proj1 (Hin j)) E) as [Hi Hcr].
    destruct (filling_open _ _ _ _ _ _ _ _ _ Hfill Hnd E Hi) as (ply & Hl & Hw & -> & E1 & E2 & Hg & Hti & Hs1).
    cbn [mbind option_bind]. rewrite E1, E2. cbn [mbind option_bind].
    destruct (slot_good_cases _ _ _ _ _ Hg) as [(T & Hleaf & Hbits & Hnl & Hnone)|(T & q & -> & Hleaf & Hbits & Hpq)]; rewrite T; cbn [negb];
      destruct (Z.leb_spec (ply_slot ply i).2 (Z.of_nat r.1)) as [Hb|Hb].
    + destruct (replace_leaf_ok e.1 ply i (1 + 2 * adj) (Z.of_nat r.1)) as (ply' & -> & Hw' & Hslots); [auto; lia..|]. cbn [mbind option_bind].
      eexists. split; [reflexivity|]. eapply filling_write; eauto. now apply (add_replace P _ (ply_slot ply i).1 (ply_slot ply i).2).
    + eexists. split; [reflexivity|]. eapply filling_below; eauto using frame_refl, tree_ok_empty. now apply add_keep.
    + destruct (st_level _ _ Hs1 _ _ Hpq) as (k' & Hk' & Ek'). cbn in Ek'.
      destruct (more_specific_ok fuel P ps1 (child e 8 i) q (S k)) as (ps2 & E' & Ht2 & Hf2 & Hl2); [auto; cbn; lia..|].
      exists ps2. split; [exact E'|]. eapply filling_below; eauto. eapply slot_next; eauto.
    + destruct (st_level _ _ Hs1 _ _ Hpq) as (k' & Hk' & Ek'). cbn in Ek'.
      destruct (IH P ps1 (child e 8 i) q (S k)) as (ps2 & E' & Ht2 & Hf2 & Hl2); [auto; cbn; lia..|].
      exists ps2. rewrite Nat2Z.inj_succ in E'. split; [exact E'|]. eapply filling_below; eauto. eapply slot_next; eauto.
  - exists ps'. split_and!; [reflexivity| |apply Hfill|apply Hfill]. eapply filling_done; eauto.
Qed.

(** *** [set_leaf], for a route below the ply *)

(** New plies are on the way to the route. *)
Definition grown (P P' : positions) : Prop :=
  forall e p, P' !! e = Some p -> P !! e = Some p \/ under r e /\ (e.1 < r.1)%nat.

Lemma grown_refl P : grown P P.
Proof. intros e p. auto. Qed.

Lemma grown_trans P P1 P2 : grown P P1 -> grown P1 P2 -> grown P P2.
Proof. intros H1 H2 e p He. destruct (H2 e p He) as [He'|]; [|auto]. exact (H1 e p He'). Qed.

Lemma grown_insert P c q : under r c -> (c.1 < r.1)%nat -> grown P (<[c := q]> P).
Proof. intros Hu Hl e p [[<- _]|[_ Hp]]%lookup_insert_Some; auto. Qed.

Lemma busy_grown P P' e0 : busy R P e0 -> grown P P' -> busy R' P' e0.
Proof.
  intros Hb Hg e p He Hu Hne. destruct (Hg e p He) as [He'|[H1 H2]]; [|now apply has_longer_add_path].
  apply has_longer_add. eauto.
Qed.

(** What an addition below [e] achieves. *)
Definition added e p P ps P' ps' : Prop :=
  tree_ok R' P' ps' e /\ frame e P ps P' ps' /\ P' !! e = Some p /\ grown P P'.

(** A leaf that leads to the ply with the route, after the addition below it. *)
Lemma added_below P ps e p i q P' ps' :
  store_ok P ps -> P !! e = Some p -> tree_ok R P ps e -> 0 <= i < 256 -> under r (child e 8 i) -> (child e 8 i).1 <> r.1 ->
  P !! child e 8 i = Some q -> added (child e 8 i) q P ps P' ps' -> added e p P ps P' ps'.
Proof.
  intros Hs Hp Ht Hi Hu Hlt Hq (Ht' & Hf & Hq' & Hg). destruct (tree_mid _ _ _ _ _ Hp Ht) as (ply & Hl & Hw & Hn).
  destruct (Hn i Hi) as [Hgi _]. assert (P' !! e = Some p) as Hp'.
  { rewrite (fr_pos _ _ _ _ _ Hf); [exact Hp|]. intros [H _]. cbn in H. lia. }
  destruct (slot_good_cases _ _ _ _ _ Hgi) as [(_ & _ & _ & _ & Hnone)|(_ & q' & _ & Hleaf & Hbits & Hq2)].
  { rewrite Hnone in Hq by apply under_refl. discriminate. }
  destruct (ply_step_keep R R' P ps P' ps' e p [] i [] [i] ply Hs Hp (NoDup_singleton i) eq_refl Hi) as [(ply' & Hl' & Hw' & Hn') Hfe]; auto.
  - exists ply. auto.
  - eapply slot_next; eauto. congruence.
  - split_and!; auto. apply (mid_tree (fun _ => R') R' P' ps' e p); auto; [apply Hf|]. exists ply'. split_and!; auto.
    intros j Hj. destruct (Hn' j Hj) as [H1 H2]. destruct (decide (j = i)) as [->|Hne].
    + rewrite mixed_in in H1, H2 by set_solver. auto.
    + rewrite mixed_out in H1, H2 by set_solver.
      assert (~ under r (child e 8 j)) by (intros H; apply Hne; eapply child_disjoint; eauto).
      assert (~ under (child e 8 j) r).
      { intros H0. apply Hne. assert (under (child e 8 j) (child e 8 i)) as H3 by (eapply under_trans; eauto).
        eapply child_disjoint; [apply under_refl|exact H3]. }
      split; [now apply add_off|now apply add_off_tree].
Qed.

(** The leaf on the way to the route, when it is not a ply yet. *)
Lemma make_ply P ps e p ply i k :
  store_ok P ps -> P !! e = Some p -> e.1 = (8 * k)%nat -> (k <= 2)%nat -> tree_ok R P ps e -> 0 <= i < 256 ->
  under r (child e 8 i) -> ((child e 8 i).1 < r.1)%nat -> pool_len ps < 2 ^ 31 -> pool_lookup ps p = Some ply ->
  ip4_mtrie_leaf_is_terminal (ply_slot ply i).1 = true ->
  exists ps1 q ply',
    ply_create ps (ply_slot ply i).1 (ply_slot ply i).2 (u8 (8 * (Z.of_nat k + 1))) = (ps1, 2 * q) /\
    pool_elt_at_index ps1 p = Some ply /\ replace_leaf ply i (2 * q) (u8 (8 * (Z.of_nat k + 1))) = Some ply' /\
    let P1 := <[child e 8 i := q]> P in let ps2 := pool_write ps1 p ply' in
    tree_ok R P1 ps2 e /\ frame e P ps P1 ps2 /\ grown P P1 /\ pool_len ps2 <= pool_len ps + 1 /\ P1 !! e = Some p.
Proof.
  intros Hs Hp Hk Hk2 Ht Hi Hu Hlt Hpl Hl T. destruct (tree_mid _ _ _ _ _ Hp Ht) as (ply0 & Hl0 & Hw & Hn).
  assert (ply0 = ply) as -> by congruence. destruct (Hn i Hi) as [Hg _].
  destruct (slot_good_cases _ _ _ _ _ Hg) as [(_ & Hleaf & Hbits & Hnl & Hnone)|[T' _]]; [|congruence].
  assert (u8 (8 * (Z.of_nat k + 1)) = Z.of_nat (child e 8 i).1) as -> by (rewrite u8_id; cbn [child fst]; lia).
  destruct (create_ok R P ps (child e 8 i) (S k)) as (ps1 & q & E & Hf & Ht1 & Hpl1); [auto; cbn; lia..|].
  rewrite <- Hleaf, <- Hbits in E. destruct (replace_leaf_ok e.1 ply i (2 * q) (Z.of_nat (child e 8 i).1) Hw Hi) as (ply' & E' & Hw' & Hsl); [cbn; lia|].
  exists ps1, q, ply'. set (P1 := <[child e 8 i := q]> P) in *.
  assert (pool_lookup ps1 p = Some ply) as Hl1.
  { apply (fr_plies _ _ _ _ _ Hf); [exact Hl|]. intros e' He'. rewrite (st_inj _ _ Hs e' e p) by auto. intros [H _]. cbn in H. lia. }
  assert (P1 !! e = Some p) as Hp1 by (rewrite (fr_pos _ _ _ _ _ Hf); [exact Hp|intros [H _]; cbn in H; lia]).
  split_and!; auto using pool_lookup_elt.
  destruct (ply_step R R P ps P1 ps1 e p [] i [] [i] ply ply' Hs Hp (NoDup_singleton i) eq_refl Hi) as [A B]; auto.
  - exists ply. auto.
  - intros j Hj. rewrite Hsl. now apply upd_ne.
  - rewrite Hsl, upd_eq. eapply slot_next; [reflexivity|reflexivity|]. apply lookup_insert_eq.
  - cbv zeta. split_and!; [|exact B|now apply grown_insert|rewrite pool_write_len; exact Hpl1|exact Hp1].
    apply (mid_tree (mixed R R ([] ++ [i])) R P1 _ e p); [apply B|exact Hp1|intros j _; unfold mixed; now destruct (decide _)|exact A].
Qed.

Lemma set_leaf_path fuel :
  forall P ps e p (k : nat), store_ok P ps -> P !! e = Some p -> e.1 = (8 * k)%nat -> (k <= 3)%nat -> (4 <= k + fuel)%nat ->
  under r e -> tree_ok R P ps e -> pool_len ps + (3 - Z.of_nat k) <= 2 ^ 31 ->
  exists P' ps', set_leaf fuel a ps p (Z.of_nat k) = Some ps' /\ added e p P ps P' ps' /\
    pool_len ps' <= pool_len ps + (3 - Z.of_nat k).
Proof.
  induction fuel as [|fuel IH]; intros P ps e p k Hs Hp Hk Hk3 Hf Hu Ht Hpl; [lia|].
  destruct (decide (r.1 <= e.1 + 8)%nat) as [Hre|Hre].
  { destruct (set_leaf_fill (S fuel) P ps e p k) as (ps' & E & Ht' & Hf' & Hl'); auto.
    exists P, ps'. split; [exact E|]. split; [|lia]. split_and!; auto using grown_refl. }
  cbn [set_leaf]. rewrite Ha_len, i32_id, (proj2 (Z.leb_gt _ 0)) by lia.
  destruct (under_child r e 8 Hu) as (i & Hi & Hui); [lia|]. change (2 ^ Z.of_nat 8) with 256 in Hi.
  rewrite (as_u8_val _ _ Ha_u32), (path_byte _ e r k i Hk Hk3 ltac:(lia) Hi Hui Ha_dst) by lia.
  destruct (tree_mid _ _ _ _ _ Hp Ht) as (ply & Hl & Hw & Hn). destruct (Hn i Hi) as [Hg _].
  destruct (ply_elt _ _ i Hw Hi) as [E1 E2]. rewrite (pool_lookup_elt _ _ _ Hl). cbn [mbind option_bind]. rewrite E1. cbn [mbind option_bind].
  assert (forall P ps q, store_ok P ps -> P !! e = Some p -> P !! child e 8 i = Some q -> tree_ok R P ps e ->
    pool_len ps + (2 - Z.of_nat k) <= 2 ^ 31 ->
    exists P' ps', set_leaf fuel a ps q (Z.of_nat k + 1) = Some ps' /\ added e p P ps P' ps' /\
      pool_len ps' <= pool_len ps + (2 - Z.of_nat k)) as Hdown.
  { intros P1 ps1 q Hs1 Hp1 Hq Ht1 Hl1. destruct (IH P1 ps1 (child e 8 i) q (S k)) as (P2 & ps2 & E & Had & Hpl2); [auto; cbn; try lia..|].
    - eapply tree_ok_under; [exact Ht1|]. now apply child_under.
    - exists P2, ps2. replace (Z.of_nat k + 1) with (Z.of_nat (S k)) by lia. split; [exact E|]. split; [|lia].
      eapply added_below; eauto. cbn. lia. }
  destruct (slot_good_cases _ _ _ _ _ Hg) as [(T & Hleaf & Hbits & Hnl & Hnone)|(T & q & -> & Hleaf & Hbits & Hpq)]; rewrite T.
  - destruct (make_ply P ps e p ply i k) as (ps1 & q & ply' & E3 & E4 & E5 & H); [auto; cbn; try lia..|].
    cbv zeta in H. destruct H as (Ht1 & Hf1 & Hg1 & Hl1 & Hp1). rewrite E2. cbn [mbind option_bind]. rewrite E3, E4. cbn [mbind option_bind].
    rewrite E5. cbn [mbind option_bind]. rewrite leaf_ply.
    destruct (Hdown _ _ q (fr_store _ _ _ _ _ Hf1) Hp1 (lookup_insert_eq _ _ _) Ht1) as (P2 & ps2 & E6 & (B1 & B2 & B3 & B4) & Hl2); [lia|].
    exists P2, ps2. split; [exact E6|]. split; [|lia]. split_and!; auto; [eapply frame_trans; eauto|eapply grown_trans; eauto].
  - destruct (Hdown P ps q) as (P2 & ps2 & E6 & Had & Hl2); auto; [lia|]. exists P2, ps2. split; [exact E6|]. split; [exact Had|lia].
Qed.

(** *** [set_root_leaf] *)

(** The state of the loop over the embedded root: [base] is its first leaf. *)
Definition filling_16 P ps0 base done (s : ip4_mtrie_16_ply_t * plies) : Prop :=
  node_ok (mixed R R' (map (Z.add base) done)) P s.2 root_prefix 16 (root_slot s.1) /\
  frame root_prefix P ps0 P s.2 /\ pool_len s.2 = pool_len ps0.

Lemma filling_16_step P ps0 base done i rest n m1 ps1 m2 ps2 :
  filling_16 P ps0 base done (m1, ps1) -> range 0 n = done ++ i :: rest -> is_u 16 (base + i) ->
  frame (child root_prefix 16 (base + i)) P ps1 P ps2 -> pool_len ps2 = pool_len ps1 ->
  slot_good R' P (child root_prefix 16 (base + i)) (root_slot m2 (base + i)).1 (root_slot m2 (base + i)).2 ->
  tree_ok R' P ps2 (child root_prefix 16 (base + i)) ->
  (forall j, is_u 16 j -> j <> base + i -> root_slot m2 j = root_slot m1 j) ->
  filling_16 P ps0 base (done ++ [i]) (m2, ps2).
Proof.
  intros (Hn & Hf & Hl) E Hi Hfr Hl2 Hg Ht Hc. split_and!; cbn [fst snd] in *; [|eapply frame_trans; [exact Hf|]|lia].
  - rewrite map_app. cbn [map]. eapply node_change; [intros j _; apply mixed_snoc|].
    assert (node_ok (upd (mixed R R' (map (Z.add base) done)) (base + i) R') P ps2 root_prefix 16 (upd (root_slot m1) (base + i) (root_slot m2 (base + i)))) as H.
    { refine (node_step _ R' P ps1 P ps2 _ _ (root_slot m1) _ (base + i) (fr_store _ _ _ _ _ Hf) Hn Hfr _ Ht _); [now rewrite upd_eq|]. intros j Hj. now apply upd_ne. }
    intros j Hj. specialize (H j Hj). destruct (decide (j = base + i)) as [->|Hne]; [rewrite upd_eq; auto|].
    rewrite (upd_ne _ _ (root_slot m2 (base + i))) in H by exact Hne. now rewrite Hc.
  - eapply frame_weaken; [|exact Hfr]. now apply child_under.
Qed.

Lemma set_root_fill P ps m :
  store_ok P ps -> (r.1 <= 16)%nat -> prefix_ok r -> node_ok (fun _ => R) P ps root_prefix 16 (root_slot m) ->
  exists m' ps', set_root_leaf m ps a = Some (m', ps') /\
    node_ok (fun _ => R') P ps' root_prefix 16 (root_slot m') /\ frame root_prefix P ps P ps' /\ pool_len ps' = pool_len ps.
Proof.
  intros Hs H16 [_ Hr] Hn. unfold set_root_leaf. rewrite Ha_len, i32_id, (proj2 (Z.leb_le _ 0)), Ha_adj, (set_adj_small adj Hadj), Z.shiftl_1_l by lia.
  set (base := net_to_host_u16 (as_u16_0 (a_dst_address a))).
  assert (base = r.2 * 2 ^ (16 - Z.of_nat r.1)) as Hbase.
  { unfold base. rewrite as_u16_val, Ha_dst by exact Ha_u32. replace (Z.of_nat (32 - r.1)) with (16 - Z.of_nat r.1 + 16) by lia.
    rewrite Z.pow_add_r, Z.mul_assoc, Z.div_mul by lia. reflexivity. }
  assert (2 ^ 16 = 2 ^ Z.of_nat r.1 * 2 ^ (16 - Z.of_nat r.1)) as Hpow by (rewrite <- Z.pow_add_r by lia; f_equal; lia).
  set (N := 2 ^ (16 - Z.of_nat r.1)) in *. assert (0 < N) as HN by (unfold N; lia).
  assert (forall i, i ∈ range 0 N -> is_u 16 (base + i) /\ under (child root_prefix 16 (base + i)) r) as Hcov.
  { intros i Hi%elem_of_range. split; [unfold is_u; nia|]. apply root_under; [lia|]. rewrite Hbase. unfold N. rewrite Z.div_add_l, Z.div_small by (fold N; lia). lia. }
  match goal with |- context [for_each ?b ?l ?s] => destruct (for_each_inv (filling_16 P ps base) b l s) as ([m' ps'] & -> & Hfill) end.
  - split_and!; [exact Hn|now apply frame_refl|reflexivity].
  - intros done i rest [m1 ps1] E Hfill. destruct (range_inv _ _ _ _ _ Hcov E) as [Hi Hcr].
    pose proof Hfill as (Hn1 & Hf1 & _). cbn [fst snd] in Hn1, Hf1. pose proof (fr_store _ _ _ _ _ Hf1) as Hs1.
    destruct (Hn1 (base + i) Hi) as [Hg Ht]. rewrite (mixed_out R R') in Hg, Ht
      by (intros (j & Hj & Hin)%list_elem_of_fmap; assert (j = i) as -> by lia; pose proof (range_nodup 0 N) as Hnd; rewrite E in Hnd;
          apply NoDup_app in Hnd as (_ & Hd & _); exact (Hd i Hin (list_elem_of_here _ _))).
    unfold slot_16. fold base. rewrite (u16_small (base + i) Hi). cbn [root_slot fst snd] in Hg.
    set (leaf := arr_get (leaves_16 m1) _) in *. set (bits := arr_get (dst_address_bits_of_leaves_16 m1) _) in *.
    destruct (slot_good_cases _ _ _ _ _ Hg) as [(T & Hleaf & Hbits & Hnl & Hnone)|(T & q & -> & Hleaf & Hbits & Hpq)]; rewrite T; cbn [negb];
      destruct (Z.leb_spec bits (Z.of_nat r.1)) as [Hb|Hb].
    + eexists. split; [reflexivity|]. eapply filling_16_step; eauto using frame_refl, tree_ok_empty.
      * rewrite root_slot_put, upd_eq by (auto; lia). now apply (add_replace P _ leaf bits).
      * intros j Hj Hne. rewrite root_slot_put, upd_ne by (auto; lia). reflexivity.
    + eexists. split; [reflexivity|]. eapply filling_16_step; eauto using frame_refl, tree_ok_empty. now apply add_keep.
    + destruct (more_specific_ok 2 P ps1 (child root_prefix 16 (base + i)) q 2) as (ps2 & E' & Ht2 & Hf2 & Hl2); [auto..|].
      rewrite E'. eexists. split; [reflexivity|]. eapply filling_16_step; eauto. eapply slot_next; eauto.
    + destruct (set_leaf_fill 2 P ps1 (child root_prefix 16 (base + i)) q 2) as (ps2 & E' & Ht2 & Hf2 & Hl2); [auto; cbn; lia..|].
      change (Z.of_nat 2) with 2 in E'. rewrite E'. eexists. split; [reflexivity|]. eapply filling_16_step; eauto. eapply slot_next; eauto.
  - exists m', ps'. destruct Hfill as (Hn' & Hf' & Hl'). split_and!; auto. eapply add_node_done; [|cbn; lia|exact Hn'].
    intros j. rewrite list_elem_of_fmap. split.
    + intros (i & -> & Hi). apply Hcov, Hi.
    + intros [Hj Hu]. exists (j - base). split; [lia|]. apply elem_of_range. apply root_under in Hu; [|lia].
      pose proof (Z.div_mod j N). pose proof (Z.mod_pos_bound j N). fold N in Hu. rewrite Hu in *. nia.
Qed.

(** The route is below the root: one leaf is or becomes a ply. *)
Lemma root_added P ps m q P' ps' m' i :
  store_ok P ps -> node_ok (fun _ => R) P ps root_prefix 16 (root_slot m) -> is_u 16 i -> under r (child root_prefix 16 i) ->
  root_slot m' i = (2 * q, 16) -> (forall j, is_u 16 j -> j <> i -> root_slot m' j = root_slot m j) ->
  added (child root_prefix 16 i) q P ps P' ps' -> node_ok (fun _ => R') P' ps' root_prefix 16 (root_slot m').
Proof.
  intros Hs Hn Hi Hu Hc Hcj (Ht & Hf & Hq & Hg) j Hj.
  destruct (decide (j = i)) as [->|Hne]; [split; [|exact Ht]; rewrite Hc; eapply slot_next; eauto|].
  rewrite Hcj by auto. destruct (Hn j Hj) as [H1 H2].
  assert (~ under r (child root_prefix 16 j)) by (intros H; apply Hne; eapply child_disjoint; eauto).
  assert (~ under (child root_prefix 16 j) r) by (intros H0; apply Hne; eapply child_disjoint; [apply under_refl|eapply under_trans; eauto]).
  split.
  - apply add_off; auto. apply (slot_good_ext _ P); [|exact H1]. intros e' He. apply (fr_pos _ _ _ _ _ Hf). eapply child_apart; eauto.
  - apply add_off_tree; auto. eapply tree_ok_frame; eauto. intros e' He. eapply child_apart; eauto.
Qed.

Lemma set_root_path P ps m :
  store_ok P ps -> (16 < r.1)%nat -> prefix_ok r -> node_ok (fun _ => R) P ps root_prefix 16 (root_slot m) ->
  pool_len ps + 2 <= 2 ^ 31 ->
  exists m' P' ps', set_root_leaf m ps a = Some (m', ps') /\ node_ok (fun _ => R') P' ps' root_prefix 16 (root_slot m') /\
    (exists i, frame (child root_prefix 16 i) P ps P' ps' /\ is_u 16 i) /\ grown P P' /\ pool_len ps' <= pool_len ps + 2.
Proof.
  intros Hs H16 [_ Hr] Hn Hpl. unfold set_root_leaf. rewrite Ha_len, i32_id, (proj2 (Z.leb_gt _ 0)) by lia.
  set (i := r.2 / 2 ^ Z.of_nat (r.1 - 16)). assert (is_u 16 i) as Hi.
  { unfold i, is_u. split; [apply Z.div_pos; lia|]. apply Z.div_lt_upper_bound; [lia|]. rewrite <- Z.pow_add_r by lia.
    now replace (Z.of_nat (r.1 - 16) + 16) with (Z.of_nat r.1) by lia. }
  assert (under r (child root_prefix 16 i)) as Hu by (rewrite child_root; split; [cbn; lia|reflexivity]).
  assert (as_u16_0 (a_dst_address a) = host_to_net_u16 i) as ->.
  { rewrite <- (net_host_u16 (as_u16_0 _)) by (unfold as_u16_0; change 65535 with (Z.ones 16); rewrite Z.land_ones by lia; apply u16_range).
    f_equal. rewrite as_u16_val, Ha_dst by exact Ha_u32. unfold i.
    replace (2 ^ 16) with (2 ^ Z.of_nat (32 - r.1) * 2 ^ Z.of_nat (r.1 - 16)) by (rewrite <- Z.pow_add_r by lia; f_equal; lia).
    rewrite <- Z.div_div, Z.div_mul by lia. reflexivity. }
  destruct (Hn i Hi) as [Hg Ht]. cbn [root_slot fst snd] in Hg. set (leaf := arr_get (leaves_16 m) _) in *. set (bits := arr_get (dst_address_bits_of_leaves_16 m) _) in *.
  destruct (slot_good_cases _ _ _ _ _ Hg) as [(T & Hleaf & Hbits & Hnl & Hnone)|(T & q & -> & Hleaf & Hbits & Hpq)]; rewrite T.
  - destruct (create_ok R P ps (child root_prefix 16 i) 2) as (ps1 & q & E & Hf & Ht1 & Hpl1); [auto; cbn; lia..|].
    rewrite <- Hleaf, <- Hbits in E. change (Z.of_nat (child root_prefix 16 i).1) with 16 in E. rewrite E, leaf_ply.
    destruct (set_leaf_path 2 _ ps1 (child root_prefix 16 i) q 2 (fr_store _ _ _ _ _ Hf) (lookup_insert_eq _ _ _)) as (P2 & ps2 & E2 & Had & Hpl2); [auto; cbn; lia..|].
    change (Z.of_nat 2) with 2 in *. rewrite E2. eexists _, P2, ps2. split; [reflexivity|]. destruct Had as (B1 & B2 & B3 & B4).
    assert (added (child root_prefix 16 i) q P ps P2 ps2) as Had.
    { split_and!; auto; [eapply frame_trans; eauto|]. eapply grown_trans; [|exact B4]. apply grown_insert; [exact Hu|cbn; lia]. }
    split_and!; [|exists i; split; [apply Had|exact Hi]|apply Had|lia]. eapply root_added; eauto.
    + rewrite root_slot_put, upd_eq by (auto; lia). reflexivity.
    + intros j Hj Hne. rewrite root_slot_put, upd_ne by (auto; lia). reflexivity.
  - destruct (set_leaf_path 2 P ps (child root_prefix 16 i) q 2) as (P2 & ps2 & E2 & Had & Hpl2); [auto; cbn; lia..|].
    change (Z.of_nat 2) with 2 in *. rewrite E2. eexists _, P2, ps2. split; [reflexivity|].
    split_and!; [|exists i; split; [apply Had|exact Hi]|apply Had|lia]. eapply root_added; eauto.
    change (root_slot m i) with (leaf, bits). rewrite Hleaf, Hbits. reflexivity.
Qed.

End Add.
