(* ===== verification/MtrieDel.v ===== *)
(** * Removal of routes from the forwarding tries

    [unset_leaf] and [unset_root_leaf] turn a trie that is right for the routes [R] into
    one that is right without one of them, given the longest match of what is left as its
    cover.  They free exactly the plies that no route needs any more. *)

From stdpp Require Import gmap.
From S2P Require Import Prelude NetTypes Pool Mtrie MtrieSpec MtrieInv MtrieAdd.

Lemma for_until_inv {A} (I : list Z -> A -> Prop) (Q : A -> Prop) body l s :
  I [] s ->
  (forall done i rest s, l = done ++ i :: rest -> I done s ->
     exists s' b, body s i = Some (s', b) /\ if b : bool then Q s' else I (done ++ [i]) s') ->
  exists s' b, for_until body l s = Some (s', b) /\ if b : bool then Q s' else I l s'.
Proof.
  intros H0 Hstep. assert (forall rest done s, l = done ++ rest -> I done s ->
    exists s' b, for_until body rest s = Some (s', b) /\ if b : bool then Q s' else I l s') as H.
  { induction rest as [|i rest IH]; intros done s1 Hl Hi; cbn [for_until].
    - exists s1, false. split; [reflexivity|]. now rewrite Hl, app_nil_r.
    - destruct (Hstep done i rest s1 Hl Hi) as (s2 & [|] & -> & H2); [eauto|].
      apply (IH (done ++ [i])); [now rewrite <- app_assoc|exact H2]. }
  now apply (H l []).
Qed.

(** ** Ranges of leaves *)

Lemma ldiff_aligned lo m : 0 <= lo < 256 -> 0 <= m -> Z.land lo (2 ^ Z.min 8 m - 1) = 0 -> Z.ldiff lo (low_mask m) = lo.
Proof.
  intros Hlo Hm H. unfold low_mask. rewrite Z.shiftl_1_l. replace (2 ^ m - 1) with (Z.ones m) by (rewrite Z.ones_equiv; lia).
  replace (2 ^ Z.min 8 m - 1) with (Z.ones (Z.min 8 m)) in H by (rewrite Z.ones_equiv; lia).
  apply Z.bits_inj'. intros i Hi. rewrite Z.ldiff_spec, testbit_ones by lia. destruct (Z.ltb_spec i m); [|now rewrite andb_true_r].
  cbn [negb]. rewrite andb_false_r. symmetry. destruct (decide (i < 8)).
  - assert (Z.testbit (Z.land lo (Z.ones (Z.min 8 m))) i = false) as E by (rewrite H; apply Z.bits_0).
    rewrite Z.land_spec, testbit_ones, (proj2 (Z.ltb_lt _ _)), andb_true_r in E by lia. exact E.
  - apply (is_u_testbit_high 8); [lia|exact Hlo|lia].
Qed.

(** The leaves [unset_leaf] visits: those the route covers, or the one on the way to
    it. *)
Lemma touched_range (x : Z) (e r : prefix) (k : nat) :
  e.1 = (8 * k)%nat -> (k <= 3)%nat -> (r.1 <= 32)%nat -> under r e \/ under e r -> x = r.2 * 2 ^ Z.of_nat (32 - r.1) ->
  let n := Z.of_nat r.1 - 8 * (Z.of_nat k + 1) in
  let b := x / 2 ^ (24 - 8 * Z.of_nat k) mod 256 in
  let lo := if n <? 0 then Z.ldiff b (low_mask (- n)) else b in
  forall i, i ∈ range lo (Z.shiftl 1 (Z.min 8 (if n <=? 0 then - n else 0))) <->
    0 <= i < 256 /\ (under (child e 8 i) r \/ under r (child e 8 i)).
Proof.
  intros He Hk Hl Hr Hx n b lo i. rewrite Z.shiftl_1_l. destruct (decide (r.1 <= e.1 + 8)%nat) as [Hre|Hre].
  - destruct (covered_range x e r k i He Hk Hre Hr Hx) as [Hin Hal]. fold b in Hin, Hal.
    assert (lo = b) as ->.
    { unfold lo. destruct (Z.ltb_spec n 0); [|reflexivity]. apply ldiff_aligned; [apply Z.mod_pos_bound; lia|lia|].
      replace (- n) with (8 * (Z.of_nat k + 1) - Z.of_nat r.1) by lia. exact Hal. }
    rewrite (proj2 (Z.leb_le n 0)) by lia. replace (- n) with (8 * (Z.of_nat k + 1) - Z.of_nat r.1) by lia. rewrite Hin.
    split; [intuition|]. intros [Hi [H|H]]; [auto|]. split; [exact Hi|].
    assert (r = child e 8 i) as ->; [|apply under_refl]. apply (under_same_len r); [apply under_refl|exact H|]. destruct H. cbn in *. lia.
  - assert (under r e) as Hu by (destruct Hr as [H|[H _]]; [exact H|lia]).
    destruct (under_child r e 8 Hu) as (j & Hj & Huj); [lia|]. change (2 ^ Z.of_nat 8) with 256 in Hj.
    assert (lo = j) as ->.
    { unfold lo. rewrite (proj2 (Z.ltb_ge n 0)) by lia. apply (path_byte x e r k j); auto; lia. }
    rewrite (proj2 (Z.leb_gt n 0)) by lia. change (2 ^ Z.min 8 0) with 1. rewrite elem_of_range. split.
    + intros H. assert (i = j) as -> by lia. auto.
    + intros [_ [[H _]|H]]; [cbn in H; lia|]. pose proof (child_disjoint _ _ _ _ _ H Huj). lia.
Qed.

(** ** Plies that are freed *)

Lemma free_frame e P ps p : store_ok P ps -> P !! e = Some p -> frame e P ps (delete e P) (pool_put_index ps p).
Proof.
  intros Hs Hp. destruct (st_live _ _ Hs _ _ Hp) as [y Hy]. pose proof (fun j => pool_put_lookup ps p y j Hy) as Hput. split.
  - split; [eapply pool_put_ok; [apply Hs|exact Hy]|..].
    + intros e' p' [_ H]%lookup_delete_Some. eapply st_level; eauto.
    + intros e1 e2 p' [_ H1]%lookup_delete_Some [_ H2]%lookup_delete_Some. eapply st_inj; eauto.
    + intros e' p' [Hne H]%lookup_delete_Some. rewrite Hput, decide_False; [eapply st_live; eauto|].
      intros ->. apply Hne. eapply st_inj; eauto.
  - intros e' He. apply lookup_delete_ne. intros <-. apply He, under_refl.
  - intros p' ply Hl Hn. rewrite Hput, decide_False; [exact Hl|]. intros ->. apply (Hn e Hp), under_refl.
  - intros e' p' [_ H]%lookup_delete_Some _ Hn. exact (Hn e' H).
  - intros p' Hl Hn. rewrite Hput in Hl. destruct (decide (p' = p)) as [|Hne]; [destruct Hl; discriminate|]. split; [exact Hl|].
    intros e' He'. destruct (decide (e' = e)) as [->|Hne']; [congruence|]. apply (Hn e'). rewrite lookup_delete_ne; congruence.
Qed.

(** A prefix below [e] and a child of [e] that are comparable. *)
Lemma longer_child e e' : under e' e -> (e.1 < e'.1)%nat ->
  exists i, 0 <= i < 256 /\ (under e' (child e 8 i) /\ (e.1 + 8 < e'.1)%nat \/ under (child e 8 i) e').
Proof.
  intros Hu Hl. destruct (decide (e.1 + 8 < e'.1)%nat) as [H|H].
  - destruct (under_child e' e 8 Hu) as (i & Hi & Hui); [lia|]. eauto.
  - set (m := (e.1 + 8 - e'.1)%nat). destruct Hu as [_ Hu]. pose proof (Z.div_mod e'.2 (2 ^ Z.of_nat (e'.1 - e.1)) ltac:(lia)) as Hdm.
    pose proof (Z.mod_pos_bound e'.2 (2 ^ Z.of_nat (e'.1 - e.1)) ltac:(lia)) as Hm. rewrite Hu in Hdm.
    set (t := e'.2 mod 2 ^ Z.of_nat (e'.1 - e.1)) in *.
    assert (2 ^ Z.of_nat (e'.1 - e.1) * 2 ^ Z.of_nat m = 256) as H256 by (rewrite <- Z.pow_add_r by lia; change 256 with (2 ^ 8); f_equal; lia).
    assert (0 < 2 ^ Z.of_nat m) by lia. exists (t * 2 ^ Z.of_nat m). split; [nia|]. right. split; [cbn; lia|]. cbn [child fst snd].
    change (2 ^ Z.of_nat 8) with 256. rewrite <- H256. fold m.
    replace (e.2 * (2 ^ Z.of_nat (e'.1 - e.1) * 2 ^ Z.of_nat m) + t * 2 ^ Z.of_nat m) with (e'.2 * 2 ^ Z.of_nat m) by (rewrite Hdm; lia).
    apply Z.div_mul. lia.
Qed.

(** A leaf longer than its ply's prefix, if there is a longer route. *)
Lemma busy_count R P ps e ply :
  has_longer R e -> ply_wf e.1 ply -> node_ok (fun _ => R) P ps e 8 (ply_slot ply) -> 0 < n_non_empty_leafs ply.
Proof.
  intros (e' & b & Hr & Hu & Hl) Hw Hn. destruct (longer_child e e' Hu Hl) as (i & Hi & Hc). destruct (Hn i Hi) as [Hg _].
  destruct (ply_elt _ _ i Hw Hi) as [_ E2]. rewrite (wf_count _ _ Hw). apply (n_longer_pos _ _ _ _ E2).
  destruct (slot_good_cases _ _ _ _ _ Hg) as [(_ & _ & -> & Hnl & _)|(_ & q & _ & _ & -> & _)]; [|cbn; lia].
  destruct Hc as [[Hc Hlt]|Hc]; [destruct Hnl; exists e', b; auto|].
  pose proof (best_longest R (child e 8 i) e' b Hr Hc). lia.
Qed.

(** A ply whose leaves are all as short as its prefix has nothing below it. *)
Lemma count_zero Rm P ps e ply R :
  ply_wf e.1 ply -> node_ok Rm P ps e 8 (ply_slot ply) -> n_non_empty_leafs ply = 0 ->
  (forall i e' b, 0 <= i < 256 -> R !! e' = Some b -> exists b', Rm i !! e' = Some b') ->
  ~ has_longer R e /\ forall i e', 0 <= i < 256 -> under e' (child e 8 i) -> P !! e' = None.
Proof.
  intros Hw Hn H0 Hsub. assert (forall i, 0 <= i < 256 -> ~ has_longer (Rm i) (child e 8 i) /\ ((best (Rm i) (child e 8 i)).1 <= e.1)%nat /\
    forall e', under e' (child e 8 i) -> P !! e' = None) as H.
  { intros i Hi. destruct (Hn i Hi) as [Hg _]. destruct (ply_elt _ _ i Hw Hi) as [_ E2]. rewrite (wf_count _ _ Hw) in H0.
    pose proof (n_longer_zero _ _ _ _ H0 E2) as Hb.
    destruct (slot_good_cases _ _ _ _ _ Hg) as [(_ & _ & Eb & Hnl & Hnone)|(_ & q & _ & _ & Eb & _)]; rewrite Eb in Hb; [|cbn in Hb; lia].
    split_and!; auto. lia. }
  split; [|intros i e' Hi; apply (H i Hi)]. intros (e' & b & Hr & Hu & Hl).
  destruct (longer_child e e' Hu Hl) as (i & Hi & Hc). destruct (Hsub i e' b Hi Hr) as [b' Hr']. destruct (H i Hi) as (Hnl & Hb & _).
  destruct Hc as [[Hc Hlt]|Hc]; [apply Hnl; exists e', b'; auto|].
  pose proof (best_longest _ _ _ _ Hr' Hc). lia.
Qed.

(** ** Removal *)

Section Del.
Context (R : routes) (r : prefix) (adj : Z) (a : ip4_mtrie_set_unset_leaf_args_t).
Abbreviation R' := (delete r R).
Abbreviation cover := (best R' r).
Context (Hr : R !! r = Some adj) (Hadj : 0 <= adj < 2 ^ 31) (Hlen : (r.1 <= 32)%nat) (Hcov : 0 <= cover.2 < 2 ^ 31).
(** No route inside of the removed one has its adjacency. *)
Context (Huniq : forall e, R !! e = Some adj -> under e r -> e = r).
Context (Ha_len : a_dst_address_length a = Z.of_nat r.1) (Ha_adj : a_adj_index a = adj).
Context (Ha_clen : a_cover_address_length a = Z.of_nat cover.1) (Ha_cadj : a_cover_adj_index a = cover.2).
Context (Ha_u32 : is_u 32 (a_dst_address a)).
Context (Ha_dst : net_to_host_u32 (a_dst_address a) = r.2 * 2 ^ Z.of_nat (32 - r.1)).

Lemma cover_len : 0 <= Z.of_nat cover.1 < 256.
Proof. pose proof (best_len R' r). lia. Qed.

(** *** Leaves *)

(** The leaf of the route takes the cover. *)
Lemma del_replace P e bits :
  slot_good R P e (1 + 2 * adj) bits -> under e r -> slot_good R' P e (1 + 2 * cover.2) (Z.of_nat cover.1).
Proof.
  intros Hg Hu. destruct (slot_good_cases _ _ _ _ _ Hg) as [(_ & Hl & _ & Hn & Hp)|(_ & p & _ & Hl & _)]; [|lia].
  assert (best R' e = cover) as Hb.
  { destruct (best_del_inside R r adj e Hu Hr) as [[_ H]|(_ & e' & Hr' & Hu' & Hlt & _)]; [exact H|].
    assert (e' = r) as -> by (apply Huniq; [rewrite Hr'; f_equal; lia|exact Hu']). lia. }
  apply slot_terminal; rewrite ?Hb; auto. intros H%has_longer_del. auto.
Qed.

(** Other leaves inside of it stay. *)
Lemma del_keep P e leaf bits :
  slot_good R P e leaf bits -> under e r -> leaf <> 1 + 2 * adj -> slot_good R' P e leaf bits.
Proof.
  intros Hg Hu Hne. destruct (slot_good_cases _ _ _ _ _ Hg) as [(_ & Hl & Hb & Hn & Hp)|(_ & p & _ & Hl & Hb & Hp)]; [|eapply slot_next; eauto].
  assert (best R' e = best R e) as Hbest.
  { destruct (best_del_inside R r adj e Hu Hr) as [[H _]|[H _]]; [|exact H]. rewrite H in Hl. now destruct Hne. }
  apply slot_terminal; rewrite ?Hbest; auto. intros H%has_longer_del. auto.
Qed.

Lemma del_off P e leaf bits : ~ under e r -> slot_good R P e leaf bits -> slot_good R' P e leaf bits.
Proof.
  intros H1 [A1 A2 A3 A4|p A1 A2 A3]; [|eapply slot_next; eauto].
  apply slot_terminal; rewrite ?best_del_outside by exact H1; auto. intros H%has_longer_del. auto.
Qed.

(** A leaf whose ply was freed takes the cover. *)
Lemma del_freed P e :
  under r e -> ~ has_longer R' e -> (forall e', under e' e -> P !! e' = None) ->
  slot_good R' P e (1 + 2 * cover.2) (Z.of_nat cover.1).
Proof. intros Hu Hn Hnone. rewrite (best_inside R' e r Hn Hu). apply slot_terminal; auto. Qed.

Lemma off_below e e' : ~ under e r -> ~ under r e -> under e' e -> ~ under e' r /\ ~ under r e'.
Proof.
  intros H1 H2 Hu. split; intros H.
  - destruct (decide (e.1 <= r.1)%nat); [apply H2|apply H1]; apply (under_comparable e'); auto; lia.
  - apply H2. eapply under_trans; eauto.
Qed.

Lemma del_off_tree P ps e : ~ under e r -> ~ under r e -> tree_ok R P ps e -> tree_ok R' P ps e.
Proof.
  intros H1 H2 H e' p Hp Hu. destruct (H e' p Hp Hu) as (ply & Hl & Hw & Hs). exists ply. split_and!; auto.
  intros i Hi. apply del_off; auto. apply (off_below e); auto. eapply under_trans; [apply child_under; lia|exact Hu].
Qed.

Lemma del_off_busy P e : ~ under e r -> ~ under r e -> busy R P e -> busy R' P e.
Proof.
  intros H1 H2 H e' p Hp Hu Hne. apply has_longer_del_off; [eauto|]. intros [H3 _]. destruct (off_below e e' H1 H2 Hu). auto.
Qed.

(** *** The loop over the leaves of a ply *)

Definition emptying P0 ps0 e p done ps1 : Prop :=
  exists P1 ply, pool_lookup ps1 p = Some ply /\ ply_wf e.1 ply /\ node_ok (mixed R R' done) P1 ps1 e 8 (ply_slot ply) /\
    (forall i, 0 <= i < 256 -> busy (mixed R R' done i) P1 (child e 8 i)) /\
    (e.1 <> 0%nat -> 0 < n_non_empty_leafs ply) /\
    frame e P0 ps0 P1 ps1 /\ P1 !! e = Some p /\ pool_len ps1 = pool_len ps0.

(** The ply is gone. *)
Definition freed P0 ps0 e ps1 : Prop :=
  exists P1, frame e P0 ps0 P1 ps1 /\ (forall e', under e' e -> P1 !! e' = None) /\ under r e /\ ~ has_longer R' e /\
    e.1 <> 0%nat /\ pool_len ps1 = pool_len ps0.

(** The ply is there and right. *)
Definition removed P0 ps0 e p ps1 : Prop :=
  exists P1, frame e P0 ps0 P1 ps1 /\ P1 !! e = Some p /\ tree_ok R' P1 ps1 e /\ busy R' P1 e /\ pool_len ps1 = pool_len ps0.

Lemma emptying_start P ps e p :
  store_ok P ps -> P !! e = Some p -> tree_ok R P ps e -> busy R P e -> emptying P ps e p [] ps.
Proof.
  intros Hs Hp Ht Hb. destruct (tree_mid _ _ _ _ _ Hp Ht) as (ply & Hl & Hw & Hn). exists P, ply. split_and!; auto using frame_refl.
  - intros i Hi. eapply busy_under; [exact Hb|]. now apply child_under.
  - intros Hne. eapply busy_count; eauto using under_refl.
Qed.

Lemma busy_step (Rm : Z -> routes) P ps P' ps' e w i j :
  busy (Rm j) P (child e w j) -> frame (child e w i) P ps P' ps' -> busy R' P' (child e w i) ->
  busy (upd Rm i R' j) P' (child e w j).
Proof.
  intros Hj Hf Hi. destruct (decide (j = i)) as [->|Hne]; [now rewrite upd_eq|]. rewrite upd_ne by exact Hne.
  intros e' q Hq Hu. apply (Hj e' q); [|exact Hu]. rewrite <- (fr_pos _ _ _ _ _ Hf); [exact Hq|]. eapply child_apart; eauto.
Qed.

(** The ply at [e] through an operation below one of its leaves. *)
Lemma kept_below e i p P ps P' ps' ply :
  store_ok P ps -> P !! e = Some p -> pool_lookup ps p = Some ply -> frame (child e 8 i) P ps P' ps' ->
  pool_lookup ps' p = Some ply /\ P' !! e = Some p.
Proof.
  intros Hs Hp Hl Hf. assert (~ under e (child e 8 i)) as Hn by (intros [H _]; cbn in H; lia). split.
  - apply (fr_plies _ _ _ _ _ Hf); [exact Hl|]. intros e' He'. now rewrite (st_inj _ _ Hs e' e p).
  - rewrite (fr_pos _ _ _ _ _ Hf); auto.
Qed.

(** A leaf that stays. *)
Lemma emptying_keep P0 ps0 e p l done i rest ps1 P1 ply P2 ps2 :
  pool_lookup ps1 p = Some ply -> ply_wf e.1 ply -> node_ok (mixed R R' done) P1 ps1 e 8 (ply_slot ply) ->
  (forall i, 0 <= i < 256 -> busy (mixed R R' done i) P1 (child e 8 i)) -> (e.1 <> 0%nat -> 0 < n_non_empty_leafs ply) ->
  frame e P0 ps0 P1 ps1 -> P1 !! e = Some p -> pool_len ps1 = pool_len ps0 ->
  NoDup l -> l = done ++ i :: rest -> 0 <= i < 256 -> frame (child e 8 i) P1 ps1 P2 ps2 -> pool_len ps2 = pool_len ps1 ->
  slot_good R' P2 (child e 8 i) (ply_slot ply i).1 (ply_slot ply i).2 -> tree_ok R' P2 ps2 (child e 8 i) ->
  busy R' P2 (child e 8 i) -> emptying P0 ps0 e p (done ++ [i]) ps2.
Proof.
  intros Hl Hw Hn Hb Hc Hf Hp Hpl Hnd E Hi Hf2 Hpl2 Hg Ht Hbi. pose proof (fr_store _ _ _ _ _ Hf) as Hs.
  destruct (kept_below _ _ _ _ _ _ _ _ Hs Hp Hl Hf2) as [Hl2 Hp2].
  destruct (ply_step_keep R R' P1 ps1 P2 ps2 e p done i rest l ply) as [(ply2 & Hl2' & Hw2 & Hn2) Hfe]; auto; [exists ply; auto|].
  assert (ply2 = ply) as -> by congruence. exists P2, ply. split_and!; auto; [|eapply frame_trans; eauto|lia].
  intros j Hj. rewrite mixed_snoc. eapply busy_step; eauto.
Qed.

(** A leaf that takes the cover; the ply is freed when this was the last one it was
    needed for. *)
Lemma emptying_replace P0 ps0 e p l done i rest ps1 P1 ply P2 ps2 :
  pool_lookup ps1 p = Some ply -> ply_wf e.1 ply -> node_ok (mixed R R' done) P1 ps1 e 8 (ply_slot ply) ->
  (forall i, 0 <= i < 256 -> busy (mixed R R' done i) P1 (child e 8 i)) ->
  frame e P0 ps0 P1 ps1 -> P1 !! e = Some p -> pool_len ps1 = pool_len ps0 ->
  NoDup l -> l = done ++ i :: rest -> 0 <= i < 256 -> frame (child e 8 i) P1 ps1 P2 ps2 -> pool_len ps2 = pool_len ps1 ->
  (forall e', under e' (child e 8 i) -> P2 !! e' = None) ->
  slot_good R' P2 (child e 8 i) (1 + 2 * cover.2) (Z.of_nat cover.1) ->
  (e.1 <> 0%nat -> has_longer R e) -> under r e \/ under e r ->
  pool_elt_at_index ps2 p = Some ply /\
  exists ply', replace_leaf ply i (1 + 2 * cover.2) (Z.of_nat cover.1) = Some ply' /\
    (n_non_empty_leafs ply' = 0 -> e.1 <> 0%nat -> freed P0 ps0 e (pool_put_index (pool_write ps2 p ply') p)) /\
    (n_non_empty_leafs ply' <> 0 \/ e.1 = 0%nat -> emptying P0 ps0 e p (done ++ [i]) (pool_write ps2 p ply')).
Proof.
  intros Hl Hw Hn Hb Hf Hp Hpl Hnd E Hi Hf2 Hpl2 Hnone Hg Hlong Hrel. pose proof (fr_store _ _ _ _ _ Hf) as Hs.
  destruct (kept_below _ _ _ _ _ _ _ _ Hs Hp Hl Hf2) as [Hl2 Hp2]. split; [now apply pool_lookup_elt|].
  destruct (replace_leaf_ok e.1 ply i (1 + 2 * cover.2) (Z.of_nat cover.1) Hw Hi cover_len) as (ply' & E' & Hw' & Hsl).
  exists ply'. split; [exact E'|].
  destruct (ply_step R R' P1 ps1 P2 ps2 e p done i rest l ply ply') as [(ply2 & Hl3 & Hw3 & Hn3) Hfe]; auto.
  { exists ply. auto. } { intros j Hj. rewrite Hsl. now apply upd_ne. } { now rewrite Hsl, upd_eq. } { now apply tree_ok_empty. }
  rewrite (pool_write_lookup _ _ _ ply), decide_True in Hl3 by auto. injection Hl3 as <-. split.
  - intros H0 Hne. assert (frame e P0 ps0 P2 (pool_write ps2 p ply')) as Hfe0 by (eapply frame_trans; eauto).
    destruct (count_zero _ _ _ _ _ R' Hw' Hn3 H0) as [Hnl Hno].
    { intros j e' b Hj He'. unfold mixed. destruct (decide _); [eauto|]. apply lookup_delete_Some in He' as [_ He']. eauto. }
    exists (delete e P2). split_and!; auto.
    + eapply frame_trans; [exact Hfe0|]. apply free_frame; [apply Hfe0|exact Hp2].
    + intros e' Hu. destruct (decide (e' = e)) as [->|Hne']; [apply lookup_delete_eq|]. rewrite lookup_delete_ne by congruence.
      destruct (P2 !! e') as [q|] eqn:Eq; [|reflexivity]. pose proof (fr_store _ _ _ _ _ Hfe0) as Hs2.
      destruct (st_level _ _ Hs2 _ _ Eq) as (k1 & _ & Ek1). destruct (st_level _ _ Hs2 _ _ Hp2) as (k2 & _ & Ek2).
      destruct (under_child e' e 8 Hu) as (j & Hj & Huj).
      { pose proof Hu as [Hu1 _]. assert (e'.1 <> e.1) by (intros He; apply Hne', (under_same_len e'); auto using under_refl). lia. }
      rewrite <- Eq. exact (Hno j e' Hj Huj).
    + destruct Hrel as [H|H]; [exact H|]. destruct Hnl. apply has_longer_del_off; [auto|]. intros [_ Hlt]. destruct H. lia.
    + rewrite pool_put_len, pool_write_len. lia.
  - intros Hne. exists P2, ply'. split_and!; auto.
    + rewrite (pool_write_lookup _ _ _ ply), decide_True; auto.
    + intros j Hj. rewrite mixed_snoc. eapply busy_step; eauto. intros e' q Hq Hu. rewrite (Hnone e' Hu) in Hq. discriminate.
    + intros He. pose proof (count_bounds _ _ Hw'). destruct Hne; [lia|contradiction].
    + eapply frame_trans; eauto.
    + rewrite pool_write_len. lia.
Qed.

(** The leaves are done. *)
Lemma emptying_done P0 ps0 e p l ps1 :
  emptying P0 ps0 e p l ps1 -> (forall i, i ∈ l <-> 0 <= i < 256 /\ (under (child e 8 i) r \/ under r (child e 8 i))) ->
  removed P0 ps0 e p ps1.
Proof.
  intros (P1 & ply & Hl & Hw & Hn & Hb & Hc & Hf & Hp & Hpl) Hin. pose proof (fr_store _ _ _ _ _ Hf) as Hs.
  assert (forall i, 0 <= i < 256 -> slot_good R' P1 (child e 8 i) (ply_slot ply i).1 (ply_slot ply i).2 /\
    tree_ok R' P1 ps1 (child e 8 i) /\ busy R' P1 (child e 8 i)) as H.
  { intros i Hi. destruct (Hn i Hi) as [H1 H2]. specialize (Hb i Hi). destruct (decide (i ∈ l)) as [Hd|Hd].
    - rewrite mixed_in in H1, H2, Hb by exact Hd. auto.
    - rewrite mixed_out in H1, H2, Hb by exact Hd. rewrite Hin in Hd.
      assert (~ under (child e 8 i) r) by tauto. assert (~ under r (child e 8 i)) by tauto. auto using del_off, del_off_tree, del_off_busy. }
  exists P1. split_and!; auto.
  - apply (mid_tree (fun _ => R') R' P1 ps1 e p); auto. exists ply. split_and!; auto. intros i Hi. destruct (H i Hi) as (? & ? & ?). auto.
  - intros e' q Hq Hu Hne. destruct (st_level _ _ Hs _ _ Hq) as (k1 & _ & Ek1). destruct (st_level _ _ Hs _ _ Hp) as (k2 & _ & Ek2).
    destruct (decide (e'.1 = e.1)) as [He|He].
    + assert (e' = e) as -> by (apply (under_same_len e'); auto using under_refl). specialize (Hc Hne). rewrite (wf_count _ _ Hw) in Hc.
      destruct (n_longer_witness _ _ Hc) as (i & x & Ei & Hx). assert (0 <= i < 256) as Hi by (apply vec_elt_lt in Ei; rewrite (wf_bits _ _ Hw) in Ei; lia).
      destruct (ply_elt _ _ i Hw Hi) as [_ E2]. assert (x = (ply_slot ply i).2) as -> by congruence. destruct (H i Hi) as (Hg & _ & Hbi).
      assert (under (child e 8 i) e) as Hce by now apply child_under.
      destruct (slot_good_cases _ _ _ _ _ Hg) as [(_ & _ & Eb & _)|(_ & q' & _ & _ & _ & Hq')].
      * apply (best_longer R' e (child e 8 i) Hce). lia.
      * apply (has_longer_mono _ _ (child e 8 i)); [|exact Hce]. apply (Hbi _ _ Hq'); [apply under_refl|cbn; lia].
    + destruct (under_child e' e 8 Hu) as (i & Hi & Hui); [destruct Hu; lia|]. destruct (H i Hi) as (_ & _ & Hbi). eauto.
Qed.

(** A leaf without longer routes that the route touches is inside of it. *)
Lemma related_terminal e : ~ has_longer R e -> under e r \/ under r e -> under e r.
Proof.
  intros Hn [H|H]; [exact H|]. destruct (decide (r = e)) as [->|Hne]; [apply under_refl|]. destruct Hn. exists r, adj. split_and!; auto.
  assert (r.1 <> e.1) by (intros He; apply Hne, (under_same_len r); auto using under_refl). destruct H. lia.
Qed.

(** *** [unset_leaf] *)

Lemma unset_leaf_ok fuel :
  forall P ps e p (k : nat), store_ok P ps -> P !! e = Some p -> e.1 = (8 * k)%nat -> (k <= 3)%nat -> (4 <= k + fuel)%nat ->
  under r e \/ under e r -> tree_ok R P ps e -> busy R P e ->
  exists ps' b, unset_leaf fuel a ps p (Z.of_nat k) = Some (ps', b) /\ if b : bool then freed P ps e ps' else removed P ps e p ps'.
Proof.
  induction fuel as [|fuel IH]; intros P ps e p k Hs Hp Hk Hk3 Hf Hu Ht Hb; [lia|]. cbn [unset_leaf].
  rewrite Ha_len, i32_id, Ha_adj, (set_adj_small adj Hadj), Ha_cadj, Ha_clen, (set_adj_small cover.2 Hcov) by lia.
  rewrite (as_u8_val _ _ Ha_u32), Ha_dst by lia. set (x := r.2 * 2 ^ Z.of_nat (32 - r.1)).
  pose proof (touched_range x e r k Hk Hk3 Hlen Hu eq_refl) as Hin. cbv zeta in Hin. set (l := range _ _) in *.
  assert (NoDup l) as Hnd by apply range_nodup.
  assert (e.1 <> 0%nat -> has_longer R e) as Hlong by (intros Hne; exact (Hb e p Hp (under_refl e) Hne)).
  match goal with |- context [for_until ?b ?l ?s] => destruct (for_until_inv (emptying P ps e p) (freed P ps e) b l s) as (ps' & fr & -> & Hres) end.
  - now apply emptying_start.
  - intros done i rest ps1 E (P1 & ply & Hl & Hw & Hn & Hbs & Hc & Hf1 & Hp1 & Hpl). destruct (range_inv _ _ _ _ _ (fun j => proj1 (Hin j)) E) as [Hi Hrel].
    rewrite (pool_lookup_elt _ _ _ Hl). cbn [mbind option_bind]. destruct (ply_elt _ _ i Hw Hi) as [-> E2]. cbn [mbind option_bind].
    destruct (Hn i Hi) as [Hg Hti]. pose proof (Hbs i Hi) as Hbi. rewrite (mixed_todo R R' done i rest l Hnd E) in Hg, Hti, Hbi.
    pose proof (fr_store _ _ _ _ _ Hf1) as Hs1.
    assert (forall P2 ps2, frame (child e 8 i) P1 ps1 P2 ps2 -> pool_len ps2 = pool_len ps1 -> (forall e', under e' (child e 8 i) -> P2 !! e' = None) ->
      slot_good R' P2 (child e 8 i) (1 + 2 * cover.2) (Z.of_nat cover.1) ->
      exists ps3 fr, (p0 ← pool_elt_at_index ps2 p; p1 ← replace_leaf p0 i (1 + 2 * cover.2) (Z.of_nat cover.1);
        if (n_non_empty_leafs p1 =? 0) && (0 <? Z.of_nat k) then Some (pool_put_index (pool_write ps2 p p1) p, true) else Some (pool_write ps2 p p1, false)) = Some (ps3, fr) /\
        if fr : bool then freed P ps e ps3 else emptying P ps e p (done ++ [i]) ps3) as Hrep.
    { intros P2 ps2 H1 H2 H3 H4. destruct (emptying_replace P ps e p l done i rest ps1 P1 ply P2 ps2) as [-> (ply' & E' & Hfr & Hgo)]; auto.
      cbn [mbind option_bind]. rewrite E'. cbn [mbind option_bind]. destruct (Z.eqb_spec (n_non_empty_leafs ply') 0), (Z.ltb_spec 0 (Z.of_nat k)); cbn [andb].
      all: eexists _, _; split; [reflexivity|]; cbv iota; first [apply Hfr; lia | apply Hgo; lia]. }
    destruct (Z.eqb_spec (ply_slot ply i).1 (1 + 2 * adj)) as [El|El].
    + cbn [mbind option_bind]. rewrite El in Hg. destruct (slot_good_cases _ _ _ _ _ Hg) as [(_ & _ & _ & Hnl & Hnone)|(_ & q & _ & Hq & _)]; [|lia].
      apply (Hrep P1 ps1); auto using frame_refl. eapply del_replace; [exact Hg|]. eapply related_terminal; eauto.
    + destruct (slot_good_cases _ _ _ _ _ Hg) as [(T & _ & _ & Hnl & Hnone)|(T & q & -> & Hq & Hbits & Hpq)]; rewrite T; cbn [mbind option_bind].
      * eexists _, false. split; [reflexivity|]. eapply emptying_keep; eauto using frame_refl, tree_ok_empty.
        -- destruct (decide (under (child e 8 i) r)); [now apply del_keep|now apply del_off].
        -- intros e' q Hq Hue. rewrite (Hnone e' Hue) in Hq. discriminate.
      * destruct (st_level _ _ Hs1 _ _ Hpq) as (k' & Hk' & Ek'). cbn in Ek'.
        destruct (IH P1 ps1 (child e 8 i) q (S k)) as (ps2 & fr & E' & Hres); [auto; cbn; try lia; tauto..|].
        replace (Z.of_nat k + 1) with (Z.of_nat (S k)) by lia. rewrite E'. cbn [mbind option_bind]. destruct fr.
        -- destruct Hres as (P2 & Hf2 & Hnone & Hur & Hnl & _ & Hpl2). apply (Hrep P2 ps2); auto using del_freed.
        -- destruct Hres as (P2 & Hf2 & Hq2 & Ht2 & Hb2 & Hpl2). eexists _, false. split; [reflexivity|].
           eapply emptying_keep; eauto. eapply slot_next; eauto.
  - exists ps', fr. split; [reflexivity|]. destruct fr; [exact Hres|]. eapply emptying_done; eauto.
Qed.

(** *** [unset_root_leaf] *)

Definition emptying_16 P0 ps0 base done (s : ip4_mtrie_16_ply_t * plies) : Prop :=
  exists P1, node_ok (mixed R R' (map (Z.add base) done)) P1 s.2 root_prefix 16 (root_slot s.1) /\
    (forall j, is_u 16 j -> busy (mixed R R' (map (Z.add base) done) j) P1 (child root_prefix 16 j)) /\
    frame root_prefix P0 ps0 P1 s.2 /\ (forall e p, P1 !! e = Some p -> (16 <= e.1)%nat) /\ pool_len s.2 = pool_len ps0.

Lemma emptying_16_step P0 ps0 base done i m1 ps1 m2 P1 P2 ps2 :
  node_ok (mixed R R' (map (Z.add base) done)) P1 ps1 root_prefix 16 (root_slot m1) ->
  (forall j, is_u 16 j -> busy (mixed R R' (map (Z.add base) done) j) P1 (child root_prefix 16 j)) ->
  frame root_prefix P0 ps0 P1 ps1 -> (forall e p, P1 !! e = Some p -> (16 <= e.1)%nat) -> pool_len ps1 = pool_len ps0 ->
  is_u 16 (base + i) -> frame (child root_prefix 16 (base + i)) P1 ps1 P2 ps2 -> pool_len ps2 = pool_len ps1 ->
  slot_good R' P2 (child root_prefix 16 (base + i)) (root_slot m2 (base + i)).1 (root_slot m2 (base + i)).2 ->
  tree_ok R' P2 ps2 (child root_prefix 16 (base + i)) -> busy R' P2 (child root_prefix 16 (base + i)) ->
  (forall j, is_u 16 j -> j <> base + i -> root_slot m2 j = root_slot m1 j) ->
  emptying_16 P0 ps0 base (done ++ [i]) (m2, ps2).
Proof.
  intros Hn Hb Hf H16 Hpl Hi Hfr Hpl2 Hg Ht Hbi Hc. exists P2. cbn [fst snd]. rewrite map_app. cbn [map]. split_and!.
  - eapply node_change; [intros j _; apply mixed_snoc|].
    assert (node_ok (upd (mixed R R' (map (Z.add base) done)) (base + i) R') P2 ps2 root_prefix 16 (upd (root_slot m1) (base + i) (root_slot m2 (base + i)))) as H.
    { refine (node_step _ R' P1 ps1 P2 ps2 _ _ (root_slot m1) _ (base + i) (fr_store _ _ _ _ _ Hf) Hn Hfr _ Ht _); [now rewrite upd_eq|]. intros j Hj. now apply upd_ne. }
    intros j Hj. specialize (H j Hj). destruct (decide (j = base + i)) as [->|Hne]; [rewrite upd_eq; auto|].
    rewrite (upd_ne _ _ (root_slot m2 (base + i))) in H by exact Hne. now rewrite Hc.
  - intros j Hj. rewrite mixed_snoc. eapply busy_step; eauto.
  - eapply frame_trans; [exact Hf|]. apply (frame_weaken (child root_prefix 16 (base + i))); [now apply child_under|exact Hfr].
  - intros e p Hp. destruct (decide (under e (child root_prefix 16 (base + i)))) as [[H _]|H]; [exact H|].
    rewrite (fr_pos _ _ _ _ _ Hfr) in Hp by exact H. eauto.
  - lia.
Qed.

(** The leaves of the root that [unset_root_leaf] visits. *)
Lemma root_touched :
  0 <= r.2 < 2 ^ Z.of_nat r.1 ->
  let base := net_to_host_u16 (as_u16_0 (a_dst_address a)) in
  let n := Z.shiftl 1 (if Z.of_nat r.1 - 16 <=? 0 then 16 - Z.of_nat r.1 else 0) in
  forall j, j ∈ map (Z.add base) (range 0 n) <->
    is_u 16 j /\ (under (child root_prefix 16 j) r \/ under r (child root_prefix 16 j)).
Proof.
  intros Hv base n j. assert (base = r.2 * 2 ^ Z.of_nat (32 - r.1) / 2 ^ 16) as Hbase by (unfold base; rewrite as_u16_val, Ha_dst; auto).
  rewrite list_elem_of_fmap. unfold n. rewrite Z.shiftl_1_l. destruct (Z.leb_spec (Z.of_nat r.1 - 16) 0) as [H16|H16].
  - assert (2 ^ 16 = 2 ^ Z.of_nat r.1 * 2 ^ (16 - Z.of_nat r.1)) as Hpow by (rewrite <- Z.pow_add_r by lia; f_equal; lia).
    set (N := 2 ^ (16 - Z.of_nat r.1)) in *. assert (0 < N) as HN by (unfold N; lia). assert (base = r.2 * N) as Hb.
    { rewrite Hbase. replace (Z.of_nat (32 - r.1)) with (16 - Z.of_nat r.1 + 16) by lia. rewrite Z.pow_add_r, Z.mul_assoc, Z.div_mul by lia. reflexivity. }
    assert (under (child root_prefix 16 j) r \/ under r (child root_prefix 16 j) <-> j / N = r.2) as ->.
    { rewrite (root_under r j) by lia. fold N. split; [|auto]. intros [H|H]; [exact H|]. apply root_under; [lia|].
      assert (r = child root_prefix 16 j) as <-; [|apply under_refl]. apply (under_same_len r); [apply under_refl|exact H|]. destruct H as [H _]. cbn in *. lia. }
    split.
    + intros (i & -> & Hi%elem_of_range). rewrite Hb. rewrite Z.div_add_l, Z.div_small by lia. split; [unfold is_u; nia|lia].
    + intros [Hj Hd]. exists (j - base). split; [lia|]. apply elem_of_range. pose proof (Z.div_mod j N). pose proof (Z.mod_pos_bound j N). rewrite Hd in *. nia.
  - assert (base = r.2 / 2 ^ Z.of_nat (r.1 - 16)) as Hb.
    { rewrite Hbase. replace (2 ^ 16) with (2 ^ Z.of_nat (32 - r.1) * 2 ^ Z.of_nat (r.1 - 16)) by (rewrite <- Z.pow_add_r by lia; f_equal; lia).
      rewrite <- Z.div_div, Z.div_mul by lia. reflexivity. }
    rewrite child_root. change (2 ^ 0) with 1. split.
    + intros (i & -> & Hi%elem_of_range). assert (i = 0) as -> by lia. rewrite Z.add_0_r. split; [rewrite Hb; unfold is_u; split|].
      * apply Z.div_pos; lia.
      * apply Z.div_lt_upper_bound; [lia|]. rewrite <- Z.pow_add_r by lia. now replace (Z.of_nat (r.1 - 16) + 16) with (Z.of_nat r.1) by lia.
      * right. split; [cbn; lia|]. symmetry. exact Hb.
    + intros [_ [[H _]|[_ H]]]; [cbn in H; lia|]. exists 0. cbn [fst snd] in H. split; [lia|]. apply elem_of_range. lia.
Qed.

Lemma unset_root_ok P ps m :
  store_ok P ps -> prefix_ok r -> node_ok (fun _ => R) P ps root_prefix 16 (root_slot m) -> busy R P root_prefix ->
  (forall e p, P !! e = Some p -> (16 <= e.1)%nat) ->
  exists m' P' ps', unset_root_leaf m ps a = Some (m', ps') /\ node_ok (fun _ => R') P' ps' root_prefix 16 (root_slot m') /\
    frame root_prefix P ps P' ps' /\ (forall j, is_u 16 j -> busy R' P' (child root_prefix 16 j)) /\
    (forall e p, P' !! e = Some p -> (16 <= e.1)%nat) /\ pool_len ps' = pool_len ps.
Proof.
  intros Hs [_ Hv] Hn Hb H16. pose proof (root_touched Hv) as Hin. unfold unset_root_leaf. cbv zeta in *.
  rewrite Ha_len, i32_id, Ha_adj, (set_adj_small adj Hadj), Ha_cadj, Ha_clen, (set_adj_small cover.2 Hcov) by lia.
  set (base := net_to_host_u16 (as_u16_0 (a_dst_address a))) in *. set (l := range _ _) in *. assert (NoDup l) as Hnd by apply range_nodup.
  match goal with |- context [for_each ?b ?l ?s] => destruct (for_each_inv (emptying_16 P ps base) b l s) as ([m' ps'] & -> & Hres) end.
  - exists P. split_and!; auto using frame_refl. intros j Hj. eapply busy_under; [exact Hb|]. now apply child_under.
  - intros done i rest [m1 ps1] E (P1 & Hn1 & Hb1 & Hf1 & H161 & Hpl1). cbn [fst snd] in Hn1, Hf1, Hpl1.
    assert (base + i ∈ map (Z.add base) l) as [Hi Hrel]%Hin by (apply list_elem_of_fmap; exists i; split; [reflexivity|rewrite E; set_solver]).
    pose proof (fr_store _ _ _ _ _ Hf1) as Hs1. destruct (Hn1 (base + i) Hi) as [Hg Ht]. pose proof (Hb1 _ Hi) as Hbi.
    rewrite (mixed_out R R') in Hg, Ht, Hbi
      by (intros (j & Hj & Hjn)%list_elem_of_fmap; assert (j = i) as -> by lia; rewrite E in Hnd;
          apply NoDup_app in Hnd as (_ & Hd & _); exact (Hd i Hjn (list_elem_of_here _ _))).
    unfold slot_16. fold base. rewrite (u16_small (base + i) Hi).
    change (arr_get (leaves_16 m1) (host_to_net_u16 (base + i))) with (root_slot m1 (base + i)).1.
    assert (forall P2 ps2, frame (child root_prefix 16 (base + i)) P1 ps1 P2 ps2 -> pool_len ps2 = pool_len ps1 ->
      (forall e', under e' (child root_prefix 16 (base + i)) -> P2 !! e' = None) ->
      slot_good R' P2 (child root_prefix 16 (base + i)) (1 + 2 * cover.2) (Z.of_nat cover.1) ->
      emptying_16 P ps base (done ++ [i]) (put_leaf_16 m1 (host_to_net_u16 (base + i)) (1 + 2 * cover.2) (Z.of_nat cover.1), ps2)) as Hrep.
    { intros P2 ps2 H1 H2 H3 H4. eapply emptying_16_step; eauto using tree_ok_empty.
      - rewrite root_slot_put, upd_eq by (auto using cover_len). exact H4.
      - intros e' q Hq Hue. rewrite (H3 e' Hue) in Hq. discriminate.
      - intros j Hj Hne. rewrite root_slot_put, upd_ne by (auto using cover_len). reflexivity. }
    destruct (Z.eqb_spec (root_slot m1 (base + i)).1 (1 + 2 * adj)) as [El|El].
    + cbn [mbind option_bind]. rewrite El in Hg. destruct (slot_good_cases _ _ _ _ _ Hg) as [(_ & _ & _ & Hnl & Hnone)|(_ & q & _ & Hq & _)]; [|lia].
      eexists. split; [reflexivity|]. apply (Hrep P1 ps1); auto using frame_refl. eapply del_replace; [exact Hg|]. eapply related_terminal; eauto.
    + destruct (slot_good_cases _ _ _ _ _ Hg) as [(T & _ & _ & Hnl & Hnone)|(T & q & -> & Hq & Hbits & Hpq)]; rewrite T; cbn [mbind option_bind].
      * eexists. split; [reflexivity|]. eapply emptying_16_step; eauto using frame_refl, tree_ok_empty.
        -- destruct (decide (under (child root_prefix 16 (base + i)) r)); [now apply del_keep|now apply del_off].
        -- intros e' q Hq Hue. rewrite (Hnone e' Hue) in Hq. discriminate.
      * destruct (unset_leaf_ok 2 P1 ps1 (child root_prefix 16 (base + i)) q 2) as (ps2 & fr & E' & Hres); [auto; cbn; try lia; tauto..|].
        change (Z.of_nat 2) with 2 in E'. rewrite E'. cbn [mbind option_bind]. eexists. split; [reflexivity|]. destruct fr.
        -- destruct Hres as (P2 & Hf2 & Hnone & Hur & Hnl & _ & Hpl2). apply (Hrep P2 ps2); auto using del_freed.
        -- destruct Hres as (P2 & Hf2 & Hq2 & Ht2 & Hb2 & Hpl2). eapply emptying_16_step; eauto. eapply slot_next; eauto.
  - destruct Hres as (P2 & Hn2 & Hb2 & Hf2 & H162 & Hpl2). cbn [fst snd] in *. exists m', P2, ps'.
    assert (forall j, is_u 16 j -> j ∉ map (Z.add base) l -> ~ under (child root_prefix 16 j) r /\ ~ under r (child root_prefix 16 j)) as Hoff.
    { intros j Hj Hd. rewrite Hin in Hd. tauto. }
    split_and!; auto.
    + intros j Hj. destruct (Hn2 j Hj) as [H1 H2]. destruct (decide (j ∈ map (Z.add base) l)) as [Hd|Hd].
      * rewrite mixed_in in H1, H2 by exact Hd. auto.
      * rewrite mixed_out in H1, H2 by exact Hd. destruct (Hoff j Hj Hd). auto using del_off, del_off_tree.
    + intros j Hj. specialize (Hb2 j Hj). destruct (decide (j ∈ map (Z.add base) l)) as [Hd|Hd].
      * now rewrite mixed_in in Hb2 by exact Hd.
      * rewrite mixed_out in Hb2 by exact Hd. destruct (Hoff j Hj Hd). auto using del_off_busy.
Qed.

End Del.
