(* ===== verification/MtrieTables.v ===== *)
(** * Forwarding tables that share the plies

    Any number of tables of both variants over one pool, through every history of
    creation, addition, removal and deletion: each lookup gives the longest match, no
    operation reads outside of an array, and no ply is lost. *)

From stdpp Require Import gmap.
From S2P Require Import Prelude NetTypes Pool Mtrie MtrieSpec MtrieInv MtrieAdd MtrieDel.

(** ** Lookup *)

Lemma addr_child a (k : nat) :
  is_u 32 a -> (k <= 3)%nat ->
  child (addr_prefix (8 * k) (net_to_host_u32 a)) 8 (as_u8 a (Z.of_nat k)) = addr_prefix (8 * S k) (net_to_host_u32 a).
Proof.
  intros Ha Hk. rewrite as_u8_val by (auto; lia). set (x := net_to_host_u32 a). unfold child, addr_prefix. cbn [fst snd]. f_equal; [lia|].
  change (2 ^ Z.of_nat 8) with 256. set (y := x / 2 ^ (24 - 8 * Z.of_nat k)).
  replace (x / 2 ^ Z.of_nat (32 - 8 * k)) with (y / 256).
  - replace (Z.of_nat (32 - 8 * S k)) with (24 - 8 * Z.of_nat k) by lia. fold y. pose proof (Z.div_mod y 256). lia.
  - unfold y. change 256 with (2 ^ 8). rewrite Z.div_div, <- Z.pow_add_r by lia. f_equal. f_equal. lia.
Qed.

Lemma as_u8_range a k : 0 <= as_u8 a k < 256.
Proof. unfold as_u8. change 255 with (Z.ones 8). rewrite Z.land_ones by lia. apply Z.mod_pos_bound. lia. Qed.

(** The leaf a lookup has reached after [d] bits. *)
Definition reached_leaf (R : routes) (P : positions) (x : Z) (d : nat) (leaf : Z) : Prop :=
  leaf = 1 + 2 * lpm R x \/ exists q, leaf = 2 * q /\ P !! addr_prefix d x = Some q.

Lemma reached_slot R P x d leaf bits : (d <= 32)%nat -> slot_good R P (addr_prefix d x) leaf bits -> reached_leaf R P x d leaf.
Proof.
  intros Hd [H1 _ H3 _|q H1 _ H3]; [left|right; eauto]. rewrite H1. unfold lpm. rewrite <- addr_prefix_32.
  rewrite (best_inside R (addr_prefix d x) (addr_prefix 32 x)); [reflexivity|exact H3|]. apply addr_prefix_under. lia.
Qed.

Lemma lookup_step_ok R P ps a (k : nat) leaf :
  is_u 32 a -> (k <= 3)%nat -> tree_ok R P ps (addr_prefix (8 * k) (net_to_host_u32 a)) ->
  reached_leaf R P (net_to_host_u32 a) (8 * k) leaf ->
  exists leaf', ip4_mtrie_16_lookup_step ps leaf a (Z.of_nat k) = Some leaf' /\ reached_leaf R P (net_to_host_u32 a) (8 * S k) leaf'.
Proof.
  intros Ha Hk Ht Hl. unfold ip4_mtrie_16_lookup_step. destruct Hl as [->|(q & -> & Hq)].
  - rewrite leaf_adj_terminal. cbn [negb]. eexists. split; [reflexivity|]. now left.
  - rewrite leaf_ply_not_terminal. cbn [negb]. change (Z.shiftr (2 * q) 1) with (ip4_mtrie_leaf_get_next_ply_index (2 * q)). rewrite leaf_ply.
    destruct (Ht _ q Hq (under_refl _)) as (ply & Hl & Hw & Hs). rewrite (pool_lookup_elt _ _ _ Hl). cbn [mbind option_bind].
    pose proof (as_u8_range a (Z.of_nat k)) as Hi. destruct (ply_elt _ _ _ Hw Hi) as [-> _]. eexists. split; [reflexivity|].
    apply (reached_slot _ _ _ _ _ (ply_slot ply (as_u8 a (Z.of_nat k))).2); [lia|]. rewrite <- (addr_child a k Ha Hk). now apply Hs.
Qed.

Lemma reached_end R P ps x leaf : store_ok P ps -> reached_leaf R P x 32 leaf -> ip4_mtrie_leaf_get_adj_index leaf = lpm R x.
Proof.
  intros Hs [->|(q & _ & Hq)]; [apply leaf_adj|]. destruct (st_level _ _ Hs _ _ Hq) as (k & Hk & Ek). cbn in Ek. lia.
Qed.

(** ** Tables *)

(** A table of one of the two variants: the embedded root, or the index of the root
    ply. *)
Inductive mtrie := M16 (m : ip4_mtrie_16_ply_t) | M8 (root : Z).

Definition mtrie_add (t : mtrie) (ps : plies) (addr len adj : Z) : option (mtrie * plies) :=
  match t with
  | M16 m => '(m, ps) ← ip4_mtrie_16_route_add m ps addr len adj; Some (M16 m, ps)
  | M8 root => ps ← ip4_mtrie_8_route_add root ps addr len adj; Some (M8 root, ps)
  end.

Definition mtrie_del (t : mtrie) (ps : plies) (addr len adj cover_len cover_adj : Z) : option (mtrie * plies) :=
  match t with
  | M16 m => '(m, ps) ← ip4_mtrie_16_route_del m ps addr len adj cover_len cover_adj; Some (M16 m, ps)
  | M8 root => ps ← ip4_mtrie_8_route_del root ps addr len adj cover_len cover_adj; Some (M8 root, ps)
  end.

(** [ip4_fib_forwarding_lookup]. *)
Definition mtrie_lookup (t : mtrie) (ps : plies) (addr : Z) : option Z :=
  match t with
  | M16 m => ip4_fib_forwarding_lookup_16 m ps addr
  | M8 root => ip4_fib_forwarding_lookup_8 root ps addr
  end.

Record table_ok (R : routes) (P : positions) (ps : plies) (t : mtrie) : Prop := {
  tb_store : store_ok P ps;
  tb_routes : routes_ok R;
  tb_busy : busy R P root_prefix;
  tb_under : forall e p, P !! e = Some p -> under e root_prefix;
  tb_trie :
    match t with
    | M16 m => node_ok (fun _ => R) P ps root_prefix 16 (root_slot m) /\ forall e p, P !! e = Some p -> (16 <= e.1)%nat
    | M8 root => P !! root_prefix = Some root /\ tree_ok R P ps root_prefix
    end
}.

Lemma addr_prefix_0 x : is_u 32 x -> addr_prefix 0 x = root_prefix.
Proof. intros Hx. unfold addr_prefix, root_prefix. f_equal. apply Z.div_small. exact Hx. Qed.

Lemma table_lookup_ok R P ps t a : table_ok R P ps t -> is_u 32 a -> mtrie_lookup t ps a = Some (lpm R (net_to_host_u32 a)).
Proof.
  intros [Hs Hr Hb Hu Ht] Ha. pose proof (net_to_host_u32_range a) as Hx. set (x := net_to_host_u32 a) in *. destruct t as [m|root]; cbn [mtrie_lookup].
  - destruct Ht as [Hn _]. unfold ip4_fib_forwarding_lookup_16, ip4_mtrie_16_lookup_step_one.
    set (i := x / 2 ^ 16). assert (is_u 16 i) as Hi.
    { destruct Hx as [Hx1 Hx2]. unfold i. split; [apply Z.div_pos; [exact Hx1|lia]|]. apply Z.div_lt_upper_bound; [lia|exact Hx2]. }
    assert (as_u16_0 a = host_to_net_u16 i) as ->.
    { rewrite <- (net_host_u16 (as_u16_0 _)) by (unfold as_u16_0; change 65535 with (Z.ones 16); rewrite Z.land_ones by lia; apply u16_range).
      f_equal. now apply as_u16_val. }
    destruct (Hn i Hi) as [Hg Htree]. rewrite child_root in Hg, Htree. change (16%nat, i) with (addr_prefix (8 * 2) x) in Hg, Htree.
    pose proof (reached_slot _ _ x (8 * 2) _ _ ltac:(lia) Hg) as H0. cbn [root_slot fst] in H0.
    destruct (lookup_step_ok R P ps a 2 _ Ha ltac:(lia) Htree H0) as (l1 & E1 & H1). change (Z.of_nat 2) with 2 in E1. rewrite E1. cbn [mbind option_bind].
    destruct (lookup_step_ok R P ps a 3 _ Ha ltac:(lia) (tree_ok_under _ _ _ _ _ Htree (addr_prefix_under (8 * 2) (8 * 3) x ltac:(lia))) H1) as (l2 & E2 & H2).
    change (Z.of_nat 3) with 3 in E2. rewrite E2. cbn [mbind option_bind]. f_equal. eapply reached_end; eauto.
  - destruct Ht as [Hp Htree]. rewrite <- (addr_prefix_0 x Hx) in Hp, Htree. change 0%nat with (8 * 0)%nat in Hp, Htree.
    unfold ip4_fib_forwarding_lookup_8, ip4_mtrie_8_lookup_step_one. change ip4_mtrie_8_lookup_step with ip4_mtrie_16_lookup_step.
    destruct (lookup_step_ok R P ps a 0 (2 * root) Ha ltac:(lia) Htree) as (l0 & E0 & H0); [right; eauto|].
    unfold ip4_mtrie_16_lookup_step in E0 at 1. rewrite leaf_ply_not_terminal in E0. cbn [negb] in E0.
    change (Z.shiftr (2 * root) 1) with (ip4_mtrie_leaf_get_next_ply_index (2 * root)) in E0. rewrite leaf_ply in E0. change (Z.of_nat 0) with 0 in E0. rewrite E0.
    cbn [mbind option_bind].
    assert (forall k : nat, (k <= 4)%nat -> tree_ok R P ps (addr_prefix (8 * k) x)) as Hk by (intros k Hk; eapply tree_ok_under; [exact Htree|apply addr_prefix_under; lia]).
    destruct (lookup_step_ok R P ps a 1 _ Ha ltac:(lia) (Hk 1%nat ltac:(lia)) H0) as (l1 & E1 & H1). change (Z.of_nat 1) with 1 in E1. rewrite E1. cbn [mbind option_bind].
    destruct (lookup_step_ok R P ps a 2 _ Ha ltac:(lia) (Hk 2%nat ltac:(lia)) H1) as (l2 & E2 & H2). change (Z.of_nat 2) with 2 in E2. rewrite E2. cbn [mbind option_bind].
    destruct (lookup_step_ok R P ps a 3 _ Ha ltac:(lia) (Hk 3%nat ltac:(lia)) H2) as (l3 & E3 & H3). change (Z.of_nat 3) with 3 in E3. rewrite E3. cbn [mbind option_bind].
    f_equal. eapply reached_end; eauto.
Qed.

(** ** Operations on one table *)

(** The prefix of a route: the leading [len] bits of its address. *)
Definition route (addr len : Z) : prefix := addr_prefix (Z.to_nat len) (net_to_host_u32 addr).

Definition args_ok (addr len : Z) : Prop := is_u 32 addr /\ 0 <= len <= 32.

Lemma route_ok addr len : args_ok addr len -> prefix_ok (route addr len).
Proof.
  intros [Ha Hl]. pose proof (net_to_host_u32_range addr) as Hx. split; cbn [route addr_prefix fst snd]; [lia|]. split; [apply Z.div_pos; [apply Hx|lia]|].
  apply Z.div_lt_upper_bound; [lia|]. rewrite <- Z.pow_add_r by lia. replace (Z.of_nat (32 - Z.to_nat len) + Z.of_nat (Z.to_nat len)) with 32 by lia. apply Hx.
Qed.

Lemma masked_addr addr len :
  args_ok addr len ->
  is_u 32 (Z.land addr (fib_masks len)) /\
  net_to_host_u32 (Z.land addr (fib_masks len)) = (route addr len).2 * 2 ^ Z.of_nat (32 - (route addr len).1).
Proof.
  intros [Ha Hl]. split; [apply is_u_land; [lia|exact Ha|apply host_to_net_u32_range]|].
  replace len with (Z.of_nat (Z.to_nat len)) at 1 by lia. rewrite fib_masks_val by lia. reflexivity.
Qed.

Lemma routes_ok_insert R r adj : routes_ok R -> prefix_ok r -> 0 <= adj < 2 ^ 31 -> routes_ok (<[r := adj]> R).
Proof. intros H Hr Ha e b [[<- <-]|[_ He]]%lookup_insert_Some; auto. Qed.

Lemma routes_ok_delete R r : routes_ok R -> routes_ok (delete r R).
Proof. intros H e b [_ He]%lookup_delete_Some. auto. Qed.

Lemma best_range R e : routes_ok R -> 0 <= (best R e).2 < 2 ^ 31.
Proof. intros H. destruct (best_spec R e) as [(e' & _ & Hr & _)|[-> _]]; [eapply H; eauto|cbn; lia]. Qed.

Lemma under_frame e0 P ps P' ps' : frame e0 P ps P' ps' -> (forall e p, P !! e = Some p -> under e e0) -> forall e p, P' !! e = Some p -> under e e0.
Proof.
  intros Hf H e p Hp. destruct (decide (under e e0)) as [|Hn]; [assumption|]. rewrite (fr_pos _ _ _ _ _ Hf) in Hp by exact Hn. eauto.
Qed.

Lemma under_root (e : prefix) : 0 <= e.2 < 2 ^ Z.of_nat e.1 -> under e root_prefix.
Proof. intros H. split; cbn; [lia|]. rewrite Nat.sub_0_r. now apply Z.div_small. Qed.

Lemma table_add_ok R P ps t addr len adj :
  table_ok R P ps t -> args_ok addr len -> 0 <= adj < 2 ^ 31 -> pool_len ps + 3 <= 2 ^ 31 ->
  exists t' P' ps', mtrie_add t ps addr len adj = Some (t', ps') /\
    table_ok (<[route addr len := adj]> R) P' ps' t' /\ frame root_prefix P ps P' ps' /\
    (forall root, t = M8 root <-> t' = M8 root).
Proof.
  intros [Hs Hrt Hb Hu Ht] Hargs Hadj Hpl. pose proof (route_ok _ _ Hargs) as Hrok. pose proof (masked_addr _ _ Hargs) as [Hm Hd].
  pose proof Hargs as [_ Hlen]. set (r := route addr len) in *. pose proof (proj1 Hrok) as Hr32.
  set (a := mk_args (Z.land addr (fib_masks len)) len adj 0 0). assert (a_dst_address_length a = Z.of_nat r.1) as Hal by (cbn; lia).
  assert (forall P' ps' t', store_ok P' ps' -> frame root_prefix P ps P' ps' -> grown r P P' ->
    match t' with
    | M16 m => node_ok (fun _ => <[r := adj]> R) P' ps' root_prefix 16 (root_slot m) /\ forall e p, P' !! e = Some p -> (16 <= e.1)%nat
    | M8 root => P' !! root_prefix = Some root /\ tree_ok (<[r := adj]> R) P' ps' root_prefix
    end -> table_ok (<[r := adj]> R) P' ps' t') as Hwrap.
  { intros P' ps' t' H1 H2 H3 H4. split; auto; [now apply routes_ok_insert|eapply busy_grown; eauto|eapply under_frame; eauto]. }
  destruct t as [m|root]; cbn [mtrie_add].
  - destruct Ht as [Hn H16]. unfold ip4_mtrie_16_route_add. fold a. destruct (decide (r.1 <= 16)%nat) as [Hle|Hgt].
    + destruct (set_root_fill R r adj a Hadj Hr32 Hal eq_refl Hm Hd P ps m Hs Hle Hrok Hn) as (m' & ps' & -> & Hn' & Hf & Hl).
      exists (M16 m'), P, ps'. split_and!; [reflexivity| |exact Hf|intros root; split; discriminate].
      apply Hwrap; auto using grown_refl. apply Hf.
    + destruct (set_root_path R r adj a Hadj Hr32 Hal eq_refl Hm Hd P ps m Hs ltac:(lia) Hrok Hn ltac:(lia)) as (m' & P' & ps' & -> & Hn' & (i & Hf & Hi) & Hg & Hl).
      exists (M16 m'), P', ps'. assert (frame root_prefix P ps P' ps') as Hf0 by (apply (frame_weaken (child root_prefix 16 i)); [now apply child_under|exact Hf]).
      split_and!; [reflexivity| |exact Hf0|intros root; split; discriminate]. apply Hwrap; auto; [apply Hf0|]. split; [exact Hn'|].
      intros e p Hp. destruct (decide (under e (child root_prefix 16 i))) as [[H _]|H]; [exact H|]. rewrite (fr_pos _ _ _ _ _ Hf) in Hp by exact H. eauto.
  - destruct Ht as [Hp Htree]. unfold ip4_mtrie_8_route_add. fold a.
    destruct (set_leaf_path R r adj a Hadj Hr32 Hal eq_refl Hm Hd 4 P ps root_prefix root 0 Hs Hp) as (P' & ps' & E & (B1 & B2 & B3 & B4) & Hl); [auto; try lia..| | |].
    + apply under_root. apply Hrok.
    + exact Htree.
    + lia.
    + change (Z.of_nat 0) with 0 in E. rewrite E. exists (M8 root), P', ps'. split_and!; [reflexivity| |exact B2|tauto]. apply Hwrap; auto. apply B2.
Qed.

(** The adjacency of a removed route is its own among the routes inside of it, and the
    cover is the longest match of the others. *)
Definition removable (R : routes) (r : prefix) (adj cover_len cover_adj : Z) : Prop :=
  R !! r = Some adj /\ (forall e, R !! e = Some adj -> under e r -> e = r) /\
  best (delete r R) r = (Z.to_nat cover_len, cover_adj) /\ 0 <= cover_len.

Lemma table_del_ok R P ps t addr len adj cover_len cover_adj :
  table_ok R P ps t -> args_ok addr len -> removable R (route addr len) adj cover_len cover_adj ->
  exists t' P' ps', mtrie_del t ps addr len adj cover_len cover_adj = Some (t', ps') /\
    table_ok (delete (route addr len) R) P' ps' t' /\ frame root_prefix P ps P' ps' /\
    (forall root, t = M8 root <-> t' = M8 root).
Proof.
  intros [Hs Hrt Hb Hu Ht] Hargs (Hr & Huniq & Hcov & Hcl). pose proof (route_ok _ _ Hargs) as Hrok. pose proof (masked_addr _ _ Hargs) as [Hm Hd].
  pose proof Hargs as [_ Hlen]. set (r := route addr len) in *. pose proof (proj1 Hrok) as Hr32. pose proof (proj2 (Hrt _ _ Hr)) as Hadj.
  pose proof (best_range _ r (routes_ok_delete R r Hrt)) as Hcr.
  set (a := mk_args (Z.land addr (fib_masks len)) len adj cover_len cover_adj). assert (a_dst_address_length a = Z.of_nat r.1) as Hal by (cbn; lia).
  assert (a_cover_address_length a = Z.of_nat (best (delete r R) r).1) as Hac by (rewrite Hcov; cbn; lia).
  assert (a_cover_adj_index a = (best (delete r R) r).2) as Hacj by now rewrite Hcov.
  destruct t as [m|root]; cbn [mtrie_del].
  - destruct Ht as [Hn H16]. unfold ip4_mtrie_16_route_del. fold a.
    destruct (unset_root_ok R r adj a Hr Hadj Hr32 Hcr Huniq Hal eq_refl Hac Hacj Hm Hd P ps m Hs Hrok Hn Hb H16) as (m' & P' & ps' & -> & Hn' & Hf & Hb' & H16' & Hl).
    exists (M16 m'), P', ps'. split_and!; [reflexivity| |exact Hf|intros root; split; discriminate]. split; auto.
    + apply Hf.
    + now apply routes_ok_delete.
    + intros e p Hp Hue Hne. destruct (under_child e root_prefix 16 Hue) as (j & Hj & Huj); [cbn; eauto|]. eapply Hb'; eauto.
    + eapply under_frame; eauto.
  - destruct Ht as [Hp Htree]. unfold ip4_mtrie_8_route_del. fold a.
    destruct (unset_leaf_ok R r adj a Hr Hadj Hr32 Hcr Huniq Hal eq_refl Hac Hacj Hm Hd 4 P ps root_prefix root 0 Hs Hp) as (ps' & fr & E & Hres); [auto; try lia..| | | |].
    + left. apply under_root. apply Hrok.
    + exact Htree.
    + exact Hb.
    + change (Z.of_nat 0) with 0 in E. rewrite E. cbn [fmap option_fmap option_map fst mbind option_bind].
      destruct fr; [destruct Hres as (? & _ & _ & _ & _ & H0 & _); now destruct H0|]. destruct Hres as (P' & Hf & Hp' & Ht' & Hb' & Hl).
      exists (M8 root), P', ps'. split_and!; [reflexivity| |exact Hf|tauto]. split; auto; [apply Hf|now apply routes_ok_delete|eapply under_frame; eauto].
Qed.

(** ** All tables *)

Record mtries := mk_mtries { mt_pool : plies; mt_tables : gmap Z mtrie }.

Inductive mtrie_op :=
| Create16 (t : Z) | Create8 (t : Z) | Free (t : Z)
| Add (t addr len adj : Z) | Del (t addr len adj cover_len cover_adj : Z).

Definition exec (op : mtrie_op) (s : mtries) : option mtries :=
  match op with
  | Create16 t => Some (mk_mtries (mt_pool s) (<[t := M16 ip4_mtrie_16_init]> (mt_tables s)))
  | Create8 t =>
      let '(ps, root) := ip4_mtrie_8_init (mt_pool s) in Some (mk_mtries ps (<[t := M8 root]> (mt_tables s)))
  | Free t =>
      tbl ← mt_tables s !! t;
      Some (mk_mtries match tbl with M16 m => ip4_mtrie_16_free m (mt_pool s) | M8 root => ip4_mtrie_8_free root (mt_pool s) end
              (delete t (mt_tables s)))
  | Add t addr len adj =>
      tbl ← mt_tables s !! t;
      '(tbl, ps) ← mtrie_add tbl (mt_pool s) addr len adj;
      Some (mk_mtries ps (<[t := tbl]> (mt_tables s)))
  | Del t addr len adj cover_len cover_adj =>
      tbl ← mt_tables s !! t;
      '(tbl, ps) ← mtrie_del tbl (mt_pool s) addr len adj cover_len cover_adj;
      Some (mk_mtries ps (<[t := tbl]> (mt_tables s)))
  end.

(** ** The specification: a set of routes per table *)

Abbreviation route_tables := (gmap Z routes).

Definition spec (op : mtrie_op) (Rs : route_tables) : route_tables :=
  match op with
  | Create16 t | Create8 t => <[t := ∅]> Rs
  | Free t => delete t Rs
  | Add t addr len adj => alter (fun R => <[route addr len := adj]> R) t Rs
  | Del t addr len _ _ _ => alter (fun R => delete (route addr len) R) t Rs
  end.

(** When an operation may be called: a table is created once and freed when it is
    empty; adjacency and ply indices fit the leaves; a removal names a route and its
    cover. *)
Definition allowed (op : mtrie_op) (s : mtries) (Rs : route_tables) : Prop :=
  pool_len (mt_pool s) + 3 <= 2 ^ 31 /\
  match op with
  | Create16 t | Create8 t => Rs !! t = None
  | Free t => Rs !! t = Some ∅
  | Add t addr len adj => is_Some (Rs !! t) /\ args_ok addr len /\ 0 <= adj < 2 ^ 31
  | Del t addr len adj cover_len cover_adj =>
      args_ok addr len /\ exists R, Rs !! t = Some R /\ removable R (route addr len) adj cover_len cover_adj
  end.

Inductive reachable : mtries -> route_tables -> Prop :=
| reach_init : reachable (mk_mtries (ip4_mtrie_module_init pool_empty) ∅) ∅
| reach_step s Rs op s' : reachable s Rs -> allowed op s Rs -> exec op s = Some s' -> reachable s' (spec op Rs).

(** ** The invariant *)

(** [Ps t] are the positions of the plies of table [t]; ply 0 belongs to no table. *)
Record tables_ok (Ps : Z -> positions) (s : mtries) (Rs : route_tables) : Prop := {
  tk_pool : pool_ok (mt_pool s);
  tk_dom : forall t, match mt_tables s !! t, Rs !! t with
    | Some tbl, Some R => table_ok R (Ps t) (mt_pool s) tbl
    | None, None => Ps t = ∅
    | _, _ => False
    end;
  tk_disjoint : forall t t' e e' p, Ps t !! e = Some p -> Ps t' !! e' = Some p -> t = t';
  tk_zero : is_Some (pool_lookup (mt_pool s) 0) /\ forall t e, Ps t !! e <> Some 0;
  tk_live : forall p, is_Some (pool_lookup (mt_pool s) p) -> p = 0 \/ exists t e, Ps t !! e = Some p
}.

Lemma table_ok_pool R P ps ps' t :
  pool_ok ps' -> (forall e p, P !! e = Some p -> pool_lookup ps' p = pool_lookup ps p) -> table_ok R P ps t -> table_ok R P ps' t.
Proof.
  intros Hok Hl [Hs Hr Hb Hu Ht]. assert (forall e, tree_ok R P ps e -> tree_ok R P ps' e) as Htree by (intros e; apply tree_ok_ext; eauto).
  split; auto.
  - split; auto; try apply Hs. intros e p Hp. rewrite (Hl e p Hp). eapply st_live; eauto.
  - destruct t; [|destruct Ht; auto]. destruct Ht as [Hn H16]. split; [|exact H16]. intros i Hi. destruct (Hn i Hi). auto.
Qed.

(** Every operation changes one table and the plies of that table. *)
Lemma tables_update Ps s Rs t P' ps' otbl oR :
  tables_ok Ps s Rs -> frame root_prefix (Ps t) (mt_pool s) P' ps' ->
  match otbl, oR with Some tbl, Some R => table_ok R P' ps' tbl | None, None => P' = ∅ | _, _ => False end ->
  tables_ok (upd Ps t P') (mk_mtries ps' (partial_alter (fun _ => otbl) t (mt_tables s))) (partial_alter (fun _ => oR) t Rs).
Proof.
  intros [Hpool Hdom Hdis [H0 H0'] Hlive] Hf Ht.
  assert (forall t' e p, Ps t' !! e = Some p -> is_Some (pool_lookup (mt_pool s) p)) as Hlv.
  { intros t' e p Hp. specialize (Hdom t'). destruct (mt_tables s !! t') as [tbl|], (Rs !! t') as [R|]; try easy.
    - eapply st_live; [apply Hdom|exact Hp].
    - rewrite Hdom, lookup_empty in Hp. discriminate. }
  assert (forall t' e e' p, t' <> t -> P' !! e = Some p -> Ps t' !! e' = Some p -> False) as Hnew.
  { intros t' e e' p Hne H1 H2. apply (fr_new _ _ _ _ _ Hf e p H1); [eauto|]. intros e2 H3. apply Hne. eauto. }
  assert (forall p, is_Some (pool_lookup (mt_pool s) p) -> (forall e, Ps t !! e <> Some p) -> pool_lookup ps' p = pool_lookup (mt_pool s) p) as Hkeep.
  { intros p [ply Hp] Hn. rewrite Hp. apply (fr_plies _ _ _ _ _ Hf); [exact Hp|]. intros e He. destruct (Hn e He). }
  split; cbn [mt_pool mt_tables].
  - apply Hf.
  - intros t'. destruct (decide (t' = t)) as [->|Hne]; [now rewrite upd_eq, !lookup_partial_alter_eq|].
    rewrite upd_ne, !lookup_partial_alter_ne by congruence. specialize (Hdom t'). destruct (mt_tables s !! t') as [tbl|], (Rs !! t') as [R|]; auto.
    apply (table_ok_pool _ _ (mt_pool s)); [apply Hf| |exact Hdom]. intros e p Hp. apply Hkeep; [eauto|]. intros e' He'. apply Hne. eauto.
  - intros t1 t2 e1 e2 p. unfold upd. destruct (decide (t1 = t)) as [->|], (decide (t2 = t)) as [->|]; eauto; intros; exfalso; eauto.
  - split; [rewrite Hkeep by auto; exact H0|]. intros t' e. unfold upd. destruct (decide (t' = t)); [|auto]. intros He.
    apply (fr_new _ _ _ _ _ Hf e 0 He); auto.
  - intros p Hp. destruct (decide (map_Exists (fun _ q => q = p) P')) as [(e & q & He & ->)%map_Exists_lookup|Hno]; [right; exists t, e; now rewrite upd_eq|].
    destruct (fr_live _ _ _ _ _ Hf p Hp) as [H1 H2].
    { intros e He. apply Hno, map_Exists_lookup. eauto. }
    destruct (Hlive p H1) as [->|(t' & e & He)]; [auto|]. right. exists t', e. rewrite upd_ne; [exact He|]. intros ->. destruct (H2 e He).
Qed.

Lemma table_empty_16 ps : pool_ok ps -> table_ok ∅ ∅ ps (M16 ip4_mtrie_16_init).
Proof.
  intros Hp. assert (forall e, ~ has_longer ∅ e) as Hn by (intros e (e' & b & H & _); rewrite lookup_empty in H; discriminate).
  split; try (intros e p H; rewrite lookup_empty in H; discriminate).
  - split; [exact Hp|..]; intros e; intros; rewrite lookup_empty in *; discriminate.
  - split; [|intros e p H; rewrite lookup_empty in H; discriminate]. intros i Hi. split; [|apply tree_ok_empty; intros; apply lookup_empty].
    apply slot_terminal; auto; try (intros; apply lookup_empty); rewrite best_none by (intros; apply lookup_empty); unfold root_slot, arr_get; cbn; rewrite lookup_empty; reflexivity.
Qed.

Lemma create_root ps :
  pool_ok ps -> pool_len ps < 2 ^ 31 ->
  exists ps1 q, ip4_mtrie_8_init ps = (ps1, q) /\ frame root_prefix ∅ ps (<[root_prefix := q]> ∅) ps1 /\
    table_ok ∅ (<[root_prefix := q]> ∅) ps1 (M8 q).
Proof.
  intros Hp Hl. assert (store_ok ∅ ps) as Hs by (split; [exact Hp|..]; intros e; intros; rewrite lookup_empty in *; discriminate).
  assert (forall e, ~ has_longer ∅ e) as Hn by (intros e (e' & b & H & _); rewrite lookup_empty in H; discriminate).
  destruct (create_ok ∅ ∅ ps root_prefix 0 Hs eq_refl ltac:(lia) Hl (Hn _)) as (ps1 & q & E & Hf & Ht & _); [intros; apply lookup_empty|].
  rewrite best_none in E by (intros; apply lookup_empty). cbn [fst snd] in E. change (1 + 2 * 0) with IP4_MTRIE_LEAF_EMPTY in E.
  unfold ip4_mtrie_8_init. unfold ply_create in E. pose proof (pool_get_allocated zero_ply ps Hp) as Ha.
  change (Z.of_nat 0) with 0 in E. change (Z.of_nat root_prefix.1) with 0 in E. destruct (pool_get zero_ply ps) as [ps0 i].
  destruct Ha as [_ _ _ _ _ Hi Hl2]. injection E as <- Eq. rewrite set_ply_small in Eq by lia. assert (i = q) as -> by lia. eexists _, q. split; [reflexivity|]. split; [exact Hf|].
  assert (forall e p, (<[root_prefix := q]> ∅ : positions) !! e = Some p -> e = root_prefix) as He.
  { intros e p [[<- _]|[_ H]]%lookup_insert_Some; [reflexivity|]. rewrite lookup_empty in H. discriminate. }
  split.
  - apply Hf.
  - intros e b H. rewrite lookup_empty in H. discriminate.
  - intros e p H _ Hne. rewrite (He e p H) in Hne. now destruct Hne.
  - intros e p H. rewrite (He e p H). apply under_refl.
  - split; [apply lookup_insert_eq|exact Ht].
Qed.

(** A table without routes has no ply but its root. *)
Lemma empty_table_plies P ps t e p :
  table_ok ∅ P ps t -> P !! e = Some p -> e = root_prefix /\ t = M8 p.
Proof.
  intros [Hs _ Hb Hu Ht] Hp. assert (e.1 = 0%nat) as He0.
  { destruct (decide (e.1 = 0%nat)) as [|Hne]; [assumption|]. destruct (Hb e p Hp (Hu _ _ Hp) Hne) as (e' & b & H & _). rewrite lookup_empty in H. discriminate. }
  assert (e = root_prefix) as ->. { apply (under_same_len e); [apply under_refl|eauto|exact He0]. } split; [reflexivity|].
  destruct t as [m|root]; [destruct Ht as [_ H16]; specialize (H16 _ _ Hp); cbn in H16; lia|]. destruct Ht as [Hr _]. congruence.
Qed.

Lemma alter_insert_at {A} (f : A -> A) (m : gmap Z A) t x : m !! t = Some x -> alter f t m = <[t := f x]> m.
Proof.
  intros H. apply map_eq. intros t'. destruct (decide (t' = t)) as [->|Hne].
  - now rewrite lookup_alter_eq, lookup_insert_eq, H.
  - now rewrite lookup_alter_ne, lookup_insert_ne by congruence.
Qed.

Lemma step_ok Ps s Rs op :
  tables_ok Ps s Rs -> allowed op s Rs -> exists s' Ps', exec op s = Some s' /\ tables_ok Ps' s' (spec op Rs).
Proof.
  intros Hok [Hpl Hal]. destruct op as [t|t|t|t addr len adj|t addr len adj cl ca]; cbn [exec spec] in *; pose proof (tk_dom _ _ _ Hok t) as Hd.
  - rewrite Hal in Hd. destruct (mt_tables s !! t); [easy|]. eexists _, (upd Ps t ∅). split; [reflexivity|].
    apply (tables_update Ps s Rs t ∅ (mt_pool s) (Some _) (Some ∅) Hok); [|apply table_empty_16, Hok].
    rewrite Hd. apply frame_refl, (table_empty_16 _ (tk_pool _ _ _ Hok)).
  - rewrite Hal in Hd. destruct (mt_tables s !! t); [easy|]. destruct (create_root (mt_pool s) (tk_pool _ _ _ Hok) ltac:(lia)) as (ps1 & q & -> & Hf & Ht).
    eexists _, _. split; [reflexivity|]. apply (tables_update Ps s Rs t (<[root_prefix := q]> ∅) ps1 (Some _) (Some ∅) Hok); [now rewrite Hd|exact Ht].
  - rewrite Hal in Hd. destruct (mt_tables s !! t) as [tbl|] eqn:Et; [|easy]. cbn [mbind option_bind]. eexists _, (upd Ps t ∅). split; [reflexivity|].
    apply (tables_update Ps s Rs t ∅ _ None None Hok); [|reflexivity].
    assert (forall root, tbl = M8 root -> delete root_prefix (Ps t) = ∅) as Hdel.
    { intros root ->. apply map_empty. intros e. destruct (decide (e = root_prefix)) as [->|Hne]; [apply lookup_delete_eq|]. rewrite lookup_delete_ne by congruence.
      destruct (Ps t !! e) as [p|] eqn:E; [|reflexivity]. now destruct (empty_table_plies _ _ _ _ _ Hd E). }
    destruct tbl as [m|root].
    + assert (Ps t = ∅) as ->. { apply map_empty. intros e. destruct (Ps t !! e) as [p|] eqn:E; [|reflexivity]. now destruct (empty_table_plies _ _ _ _ _ Hd E). }
      apply frame_refl, (table_empty_16 _ (tk_pool _ _ _ Hok)).
    + rewrite <- (Hdel root eq_refl). apply free_frame; [apply Hd|]. apply (tb_trie _ _ _ _ Hd).
  - destruct Hal as ([R HR] & Hargs & Hadj). rewrite HR in Hd. destruct (mt_tables s !! t) as [tbl|]; [|easy]. cbn [mbind option_bind].
    destruct (table_add_ok _ _ _ _ _ _ _ Hd Hargs Hadj Hpl) as (tbl' & P' & ps' & -> & Ht & Hf & _). cbn [mbind option_bind].
    eexists _, _. split; [reflexivity|]. rewrite (alter_insert_at _ _ _ _ HR). now apply (tables_update Ps s Rs t P' ps' (Some tbl') (Some _) Hok).
  - destruct Hal as (Hargs & R & HR & Hrem). rewrite HR in Hd. destruct (mt_tables s !! t) as [tbl|]; [|easy]. cbn [mbind option_bind].
    destruct (table_del_ok _ _ _ _ _ _ _ _ _ Hd Hargs Hrem) as (tbl' & P' & ps' & -> & Ht & Hf & _). cbn [mbind option_bind].
    eexists _, _. split; [reflexivity|]. rewrite (alter_insert_at _ _ _ _ HR). now apply (tables_update Ps s Rs t P' ps' (Some tbl') (Some _) Hok).
Qed.

Lemma tables_reachable s Rs : reachable s Rs -> exists Ps, tables_ok Ps s Rs.
Proof.
  induction 1 as [|s Rs op s' _ [Ps IH] Hal Hx].
  - exists (fun _ => ∅). split; cbn [mt_pool mt_tables].
    + apply (al_ok _ _ _ (pool_get_allocated zero_ply pool_empty pool_empty_ok)).
    + intros t. now rewrite !lookup_empty.
    + intros t t' e e' p H. rewrite lookup_empty in H. discriminate.
    + split; [eexists; reflexivity|]. intros t e. now rewrite lookup_empty.
    + intros p [y Hp]. left. apply pool_lookup_range in Hp. change (0 <= p < 1) in Hp. lia.
  - destruct (step_ok Ps s Rs op IH Hal) as (s2 & Ps' & E & Hok). exists Ps'. congruence.
Qed.
