(* ===== verification/Ip4Fib.v ===== *)
(** * The two prefix tables of an IPv4 FIB

    [vnet/fib/ip4_fib_hash.c], [ip4_fib_16.c], [ip4_fib_8.c] and the parts of
    [fib_table.c] and [fib_entry_src.c] that keep them in step: the control plane looks
    prefixes up in one hash table per length, the data plane in the trie.  A route is in
    both as long as it is installed, and both give the same load-balance for every
    address.

    [None] is a read outside of the array of hash tables or of the pool of entries. *)

From stdpp Require Import gmap.
From S2P Require Import Prelude NetTypes Pool Dpo Mtrie MtrieSpec MtrieInv MtrieAdd MtrieDel MtrieTables.

(** ** Data *)

(** [ip4_fib_hash_t]: [fib_entry_by_dst_address], from masked addresses to entries. *)
Abbreviation ip4_fib_hash_t := (list (gmap Z Z)).

(** [ip4_fib_16_t] or [ip4_fib_8_t]. *)
Record ip4_fib_t := mk_fib { fib_mtrie : mtrie; fib_hash : ip4_fib_hash_t }.

(** What the tables use of an entry: its prefix and its load-balance, if it has one. *)
Record fib_entry_t := mk_entry { fe_addr : Z; fe_len : Z; fe_lb : option Z }.

Record fib_sys := mk_fib_sys { fs_plies : plies; fs_fib : ip4_fib_t; fs_entries : gmap Z fib_entry_t }.

(** ** The hash tables *)

Definition hash_key (addr len : Z) : Z := Z.land addr (fib_masks len).

Definition ip4_fib_hash_table_lookup_exact_match (fib : ip4_fib_hash_t) (addr len : Z) : option Z :=
  hash ← vec_elt fib len; Some (default FIB_NODE_INDEX_INVALID (hash !! hash_key addr len)).

(** The loop from [mask_len] to 0. *)
Fixpoint lookup_from (fib : ip4_fib_hash_t) (addr : Z) (mask_len : nat) : option Z :=
  hash ← vec_elt fib (Z.of_nat mask_len);
  match hash !! hash_key addr (Z.of_nat mask_len) with
  | Some result => Some result
  | None => match mask_len with O => Some FIB_NODE_INDEX_INVALID | S n => lookup_from fib addr n end
  end.

Definition ip4_fib_hash_table_lookup (fib : ip4_fib_hash_t) (addr len : Z) : option Z := lookup_from fib addr (Z.to_nat len).

(** An entry that is there already stays ([ASSERT (0)]). *)
Definition ip4_fib_hash_table_entry_insert (fib : ip4_fib_hash_t) (addr len fib_entry_index : Z) : option ip4_fib_hash_t :=
  hash ← vec_elt fib len;
  match hash !! hash_key addr len with
  | None => Some (<[Z.to_nat len := <[hash_key addr len := fib_entry_index]> hash]> fib)
  | Some _ => Some fib
  end.

Definition ip4_fib_hash_table_entry_remove (fib : ip4_fib_hash_t) (addr len : Z) : option ip4_fib_hash_t :=
  hash ← vec_elt fib len;
  let hash := match hash !! hash_key addr len with None => hash | Some _ => delete (hash_key addr len) hash end in
  Some (<[Z.to_nat len := hash]> fib).

(** ** Entries *)

Definition fib_entry_contribute_ip_forwarding (entries : gmap Z fib_entry_t) (fei : Z) : option Z :=
  e ← entries !! fei; Some (default drop_dpo_index (fe_lb e)).

Definition ip4_fib_hash_table_lookup_lb (fib : ip4_fib_hash_t) (entries : gmap Z fib_entry_t) (addr : Z) : option Z :=
  fei ← ip4_fib_hash_table_lookup fib addr 32;
  if FIB_NODE_INDEX_INVALID =? fei then Some INDEX_INVALID else fib_entry_contribute_ip_forwarding entries fei.

(** ** Forwarding *)

(** [ip4_fib_16_table_fwding_dpo_update] and [ip4_fib_8_table_fwding_dpo_update]. *)
Definition ip4_fib_table_fwding_dpo_update (fib : ip4_fib_t) (ps : plies) (addr len dpo : Z) : option (ip4_fib_t * plies) :=
  '(m, ps) ← mtrie_add (fib_mtrie fib) ps addr len dpo; Some (mk_fib m (fib_hash fib), ps).

(** [ip4_fib_16_table_fwding_dpo_remove] and [ip4_fib_8_table_fwding_dpo_remove]. *)
Definition ip4_fib_table_fwding_dpo_remove (fib : ip4_fib_t) (ps : plies) (entries : gmap Z fib_entry_t)
  (addr len dpo cover_index : Z) : option (ip4_fib_t * plies) :=
  cover ← entries !! cover_index;
  cover_dpo ← fib_entry_contribute_ip_forwarding entries cover_index;
  '(m, ps) ← mtrie_del (fib_mtrie fib) ps addr len dpo (fe_len cover) cover_dpo;
  Some (mk_fib m (fib_hash fib), ps).

(** The cover is the longest match for a prefix one bit shorter. *)
Definition fib_table_get_less_specific_i (fib : ip4_fib_hash_t) (addr len : Z) : option Z :=
  ip4_fib_hash_table_lookup fib addr (if negb (len =? 0) then len - 1 else len).

Definition fib_table_fwding_dpo_remove (fib : ip4_fib_t) (ps : plies) (entries : gmap Z fib_entry_t) (addr len dpo : Z) : option (ip4_fib_t * plies) :=
  cover_index ← fib_table_get_less_specific_i (fib_hash fib) addr len;
  ip4_fib_table_fwding_dpo_remove fib ps entries addr len dpo cover_index.

(** [fib_entry_src_action_install]; [lb] is the load-balance that [fib_entry_src_mk_lb]
    creates for an entry without one. *)
Definition fib_entry_src_action_install (s : fib_sys) (fei lb : Z) : option fib_sys :=
  e ← fs_entries s !! fei;
  match fe_lb e with
  | Some _ => Some s
  | None =>
      '(fib, ps) ← ip4_fib_table_fwding_dpo_update (fs_fib s) (fs_plies s) (fe_addr e) (fe_len e) lb;
      Some (mk_fib_sys ps fib (<[fei := mk_entry (fe_addr e) (fe_len e) (Some lb)]> (fs_entries s)))
  end.

Definition fib_entry_src_action_uninstall (s : fib_sys) (fei : Z) : option fib_sys :=
  e ← fs_entries s !! fei;
  match fe_lb e with
  | Some lb =>
      '(fib, ps) ← fib_table_fwding_dpo_remove (fs_fib s) (fs_plies s) (fs_entries s) (fe_addr e) (fe_len e) lb;
      Some (mk_fib_sys ps fib (<[fei := mk_entry (fe_addr e) (fe_len e) None]> (fs_entries s)))
  | None => Some s
  end.

(** The prefix table of [fib_table_entry_insert] and [fib_table_entry_remove]. *)
Definition fib_table_entry_insert (s : fib_sys) (addr len fei : Z) : option fib_sys :=
  h ← ip4_fib_hash_table_entry_insert (fib_hash (fs_fib s)) addr len fei;
  Some (mk_fib_sys (fs_plies s) (mk_fib (fib_mtrie (fs_fib s)) h) (fs_entries s)).

Definition fib_table_entry_remove (s : fib_sys) (addr len : Z) : option fib_sys :=
  h ← ip4_fib_hash_table_entry_remove (fib_hash (fs_fib s)) addr len;
  Some (mk_fib_sys (fs_plies s) (mk_fib (fib_mtrie (fs_fib s)) h) (fs_entries s)).

(** ** A route through its life *)

(** The entry is created and installed, then put into the prefix table. *)
Definition route_add (s : fib_sys) (fei addr len lb : Z) : option fib_sys :=
  s ← fib_entry_src_action_install (mk_fib_sys (fs_plies s) (fs_fib s) (<[fei := mk_entry addr len None]> (fs_entries s))) fei lb;
  fib_table_entry_insert s addr len fei.

(** It is uninstalled, taken out of the prefix table, and freed. *)
Definition route_remove (s : fib_sys) (fei : Z) : option fib_sys :=
  e ← fs_entries s !! fei;
  s ← fib_entry_src_action_uninstall s fei;
  s ← fib_table_entry_remove s (fe_addr e) (fe_len e);
  Some (mk_fib_sys (fs_plies s) (fs_fib s) (delete fei (fs_entries s))).

(** A new table of one of the two variants. *)
Definition new_fib_16 (ps : plies) : fib_sys := mk_fib_sys ps (mk_fib (M16 ip4_mtrie_16_init) (repeat ∅ 33)) ∅.
Definition new_fib_8 (ps : plies) : fib_sys :=
  let '(ps, root) := ip4_mtrie_8_init ps in mk_fib_sys ps (mk_fib (M8 root) (repeat ∅ 33)) ∅.

(** A load-balance that is in range and of no other entry. *)
Definition own_lb (s : fib_sys) (lb : Z) : Prop :=
  0 <= lb < 2 ^ 31 /\ forall fei e, fs_entries s !! fei = Some e -> fe_lb e <> Some lb.

Definition may_add (s : fib_sys) (fei addr len lb : Z) : Prop :=
  fs_entries s !! fei = None /\ 0 <= fei < FIB_NODE_INDEX_INVALID /\ args_ok addr len /\ own_lb s lb /\
  ip4_fib_hash_table_lookup_exact_match (fib_hash (fs_fib s)) addr len = Some FIB_NODE_INDEX_INVALID /\
  pool_len (fs_plies s) + 3 <= 2 ^ 31.

(** Histories of a table: it gets its default route first, and keeps it. *)
Inductive fib_run : fib_sys -> Prop :=
| run_start ps s0 fei lb s :
    pool_ok ps -> pool_len ps + 4 <= 2 ^ 31 -> s0 = new_fib_16 ps \/ s0 = new_fib_8 ps ->
    0 <= fei < FIB_NODE_INDEX_INVALID -> 0 <= lb < 2 ^ 31 -> route_add s0 fei 0 0 lb = Some s -> fib_run s
| run_add s fei addr len lb s' : fib_run s -> may_add s fei addr len lb -> route_add s fei addr len lb = Some s' -> fib_run s'
| run_remove s fei e s' : fib_run s -> fs_entries s !! fei = Some e -> fe_len e <> 0 -> route_remove s fei = Some s' -> fib_run s'.
