(* ===== verification/Ip4FibInv.v ===== *)
(** * The prefix table and the trie of a FIB agree

    The invariant of the two tables of [Ip4Fib]: both represent the same finite map from
    prefixes to entries, the trie through the load-balances of the entries. *)

From stdpp Require Import gmap.
From S2P Require Import Prelude NetTypes Pool Dpo Mtrie MtrieSpec MtrieInv MtrieAdd MtrieDel MtrieTables Ip4Fib.

(** ** The hash tables as one finite map *)

Record hash_repr (h : ip4_fib_hash_t) (H : routes) : Prop := {
  hr_len : length h = 33%nat;
  hr_get : forall addr len, args_ok addr len ->
    exists hash, vec_elt h len = Some hash /\ hash !! hash_key addr len = H !! route addr len
}.

Lemma hash_key_route a b len : args_ok a len -> args_ok b len -> hash_key a len = hash_key b len <-> route a len = route b len.
Proof.
  intros Ha Hb. destruct (masked_addr a len Ha) as [Ua Ea], (masked_addr b len Hb) as [Ub Eb]. unfold hash_key. split; intros H.
  - rewrite H, Eb in Ea. unfold route, addr_prefix in *. cbn [fst snd] in *. f_equal. nia.
  - apply (bswap_inj 4); [exact Ua|exact Ub|]. unfold net_to_host_u32 in *. now rewrite Ea, Eb, H.
Qed.

Lemma route_len addr len : (route addr len).1 = Z.to_nat len.
Proof. reflexivity. Qed.

(** The table of one length is replaced by one that represents [H']. *)
Lemma hash_repr_set h H H' addr len hash' :
  hash_repr h H -> args_ok addr len ->
  (forall addr', args_ok addr' len -> hash' !! hash_key addr' len = H' !! route addr' len) ->
  (forall e, e.1 <> Z.to_nat len -> H' !! e = H !! e) -> hash_repr (<[Z.to_nat len := hash']> h) H'.
Proof.
  intros [Hl Hg] Hargs Hsame Hother. split; [now rewrite length_insert|]. intros addr' len' Hargs'.
  destruct (Hg addr len Hargs) as (hash & E & _). destruct (Hg addr' len' Hargs') as (hash2 & E2 & Eg).
  rewrite (vec_elt_insert _ _ _ _ _ E). destruct (decide (len' = len)) as [->|Hne]; [exists hash'; auto|].
  exists hash2. split; [exact E2|]. rewrite Eg, Hother; [reflexivity|]. rewrite route_len. destruct Hargs, Hargs'. lia.
Qed.

Lemma hash_insert_ok h H addr len fei :
  hash_repr h H -> args_ok addr len -> H !! route addr len = None ->
  exists h', ip4_fib_hash_table_entry_insert h addr len fei = Some h' /\ hash_repr h' (<[route addr len := fei]> H).
Proof.
  intros Hr Hargs Hn. destruct (hr_get _ _ Hr addr len Hargs) as (hash & E & Eg). unfold ip4_fib_hash_table_entry_insert. rewrite E. cbn [mbind option_bind].
  rewrite Eg, Hn. eexists. split; [reflexivity|]. apply (hash_repr_set h H _ addr); auto.
  - intros addr' Hargs'. destruct (decide (route addr len = route addr' len)) as [He|He].
    + rewrite He, (proj2 (hash_key_route addr addr' len Hargs Hargs') He), !lookup_insert_eq. reflexivity.
    + rewrite !lookup_insert_ne; [|exact He|now rewrite hash_key_route]. destruct (hr_get _ _ Hr addr' len Hargs') as (hash2 & E2 & Eg2). congruence.
  - intros e He. apply lookup_insert_ne. intros <-. apply He, route_len.
Qed.

Lemma hash_remove_ok h H addr len :
  hash_repr h H -> args_ok addr len ->
  exists h', ip4_fib_hash_table_entry_remove h addr len = Some h' /\ hash_repr h' (delete (route addr len) H).
Proof.
  intros Hr Hargs. destruct (hr_get _ _ Hr addr len Hargs) as (hash & E & Eg). unfold ip4_fib_hash_table_entry_remove. rewrite E. cbn [mbind option_bind].
  eexists. split; [reflexivity|]. apply (hash_repr_set h H _ addr); auto.
  - intros addr' Hargs'. destruct (hr_get _ _ Hr addr' len Hargs') as (hash2 & E2 & Eg2). assert (hash2 = hash) as -> by congruence.
    destruct (decide (route addr len = route addr' len)) as [He|He].
    + rewrite <- He, lookup_delete_eq, <- (proj2 (hash_key_route addr addr' len Hargs Hargs') He).
      destruct (hash !! hash_key addr len) eqn:Eh; [apply lookup_delete_eq|exact Eh].
    + rewrite lookup_delete_ne by exact He. rewrite <- Eg2. destruct (hash !! hash_key addr len); [|reflexivity].
      apply lookup_delete_ne. now rewrite hash_key_route.
  - intros e He. apply lookup_delete_ne. intros <-. apply He, route_len.
Qed.

Lemma addr_parent n x : (n < 32)%nat -> addr_prefix n x = (n, x / 2 ^ Z.of_nat (32 - S n) / 2).
Proof.
  intros Hn. unfold addr_prefix. f_equal. rewrite Z.div_div by lia. f_equal. replace (Z.of_nat (32 - n)) with (Z.of_nat (32 - S n) + 1) by lia.
  rewrite Z.pow_add_r by lia. reflexivity.
Qed.

Lemma best_addr_step R n x :
  (n < 32)%nat -> best R (addr_prefix (S n) x) = match R !! addr_prefix (S n) x with Some a => (S n, a) | None => best R (addr_prefix n x) end.
Proof. intros Hn. rewrite (addr_parent n x Hn). apply best_step. Qed.

(** With a default route the search from a length is the longest match. *)
Lemma lookup_from_ok h H addr n d :
  hash_repr h H -> is_u 32 addr -> (n <= 32)%nat -> H !! root_prefix = Some d ->
  lookup_from h addr n = Some (best H (addr_prefix n (net_to_host_u32 addr))).2.
Proof.
  intros Hr Ha Hn Hd. induction n as [|n IH]; cbn [lookup_from].
  - destruct (hr_get _ _ Hr addr 0) as (hash & E & Eg); [split; [exact Ha|lia]|]. change (Z.of_nat 0) with 0. rewrite E. cbn [mbind option_bind]. rewrite Eg.
    unfold route. change (Z.to_nat 0) with 0%nat. rewrite addr_prefix_0 by apply net_to_host_u32_range. rewrite Hd, (best_hit _ _ _ Hd). reflexivity.
  - destruct (hr_get _ _ Hr addr (Z.of_nat (S n))) as (hash & E & Eg); [split; [exact Ha|lia]|]. rewrite E. cbn [mbind option_bind]. rewrite Eg.
    unfold route. rewrite Nat2Z.id, IH, best_addr_step by lia. now destruct (H !! addr_prefix (S n) (net_to_host_u32 addr)).
Qed.

(** ** Longest match through the load-balances *)

Lemma best_fmap (f : Z -> Z) H e d e0 : H !! e0 = Some d -> under e e0 -> best (f <$> H) e = ((best H e).1, f (best H e).2).
Proof.
  intros Hd Hu. destruct (best_spec H e) as [(e2 & H2 & Hr2 & Hl2)|[_ Hn]]; [|rewrite (Hn _ Hu) in Hd; discriminate].
  rewrite <- Hl2. apply best_eq; [now rewrite lookup_fmap, Hr2|exact H2|]. intros e3 b Hr3 Hu3. rewrite Hl2. rewrite lookup_fmap in Hr3.
  destruct (H !! e3) as [x|] eqn:E; [|discriminate]. eapply best_longest; eauto.
Qed.

(** The cover of a route is the match for its prefix without the last bit. *)
Lemma best_cover R d q : best (delete (S d, q) R) (S d, q) = best R (d, q / 2).
Proof.
  rewrite best_step, lookup_delete_eq. apply best_del_outside. intros [H _]. cbn in H. lia.
Qed.

(** ** The invariant *)

Definition lb_of (entries : gmap Z fib_entry_t) (fei : Z) : Z :=
  match entries !! fei with Some e => default 0 (fe_lb e) | None => 0 end.

(** [H] maps the prefixes of the table to its entries, which are all installed. *)
Record fib_ok (H : routes) (P : positions) (s : fib_sys) : Prop := {
  fo_hash : hash_repr (fib_hash (fs_fib s)) H;
  fo_trie : table_ok (lb_of (fs_entries s) <$> H) P (fs_plies s) (fib_mtrie (fs_fib s));
  fo_entries : forall fei e, fs_entries s !! fei = Some e ->
    args_ok (fe_addr e) (fe_len e) /\ H !! route (fe_addr e) (fe_len e) = Some fei /\ is_Some (fe_lb e);
  fo_prefixes : forall pfx fei, H !! pfx = Some fei ->
    0 <= fei < FIB_NODE_INDEX_INVALID /\ exists e, fs_entries s !! fei = Some e /\ route (fe_addr e) (fe_len e) = pfx;
  fo_own : forall f1 f2 e1 e2, fs_entries s !! f1 = Some e1 -> fs_entries s !! f2 = Some e2 -> fe_lb e1 = fe_lb e2 -> f1 = f2
}.

Lemma lb_of_insert entries fei e f : lb_of (<[fei := e]> entries) f = if decide (f = fei) then default 0 (fe_lb e) else lb_of entries f.
Proof.
  unfold lb_of. destruct (decide (f = fei)) as [->|Hn]; [now rewrite lookup_insert_eq|]. now rewrite lookup_insert_ne by congruence.
Qed.

(** The routes of the trie when an entry is added, or dropped, beside those of [H]. *)
Lemma routes_ext (f g : Z -> Z) (H : routes) : (forall e x, H !! e = Some x -> f x = g x) -> f <$> H = g <$> H.
Proof. intros Hfg. apply map_fmap_ext. exact Hfg. Qed.

(** Both lookups are the load-balance of the longest match. *)
Lemma fib_lookup_ok H P s a d :
  fib_ok H P s -> H !! root_prefix = Some d -> is_u 32 a ->
  exists lb, mtrie_lookup (fib_mtrie (fs_fib s)) (fs_plies s) a = Some lb /\
    ip4_fib_hash_table_lookup_lb (fib_hash (fs_fib s)) (fs_entries s) a = Some lb.
Proof.
  intros [Hh Ht He Hp Ho] Hd Ha. set (x := net_to_host_u32 a). assert (is_u 32 x) as Hx by apply net_to_host_u32_range.
  exists (lpm (lb_of (fs_entries s) <$> H) x). split; [now apply (table_lookup_ok _ P)|].
  unfold ip4_fib_hash_table_lookup_lb, ip4_fib_hash_table_lookup. rewrite (lookup_from_ok _ H _ _ d) by (auto; lia). change (Z.to_nat 32) with 32%nat. fold x. cbn [mbind option_bind].
  assert (under (32%nat, x) root_prefix) as Hu by (apply under_root; exact Hx).
  unfold lpm. rewrite (best_fmap _ _ _ _ _ Hd Hu). cbn [snd]. rewrite addr_prefix_32.
  destruct (best_spec H (32%nat, x)) as [(e2 & H2 & Hr2 & Hl2)|[_ Hn]]; [|rewrite (Hn _ Hu) in Hd; discriminate].
  destruct (Hp _ _ Hr2) as (Hrange & e & Hen & _). destruct (Z.eqb_spec FIB_NODE_INDEX_INVALID (best H (32%nat, x)).2); [lia|].
  unfold fib_entry_contribute_ip_forwarding, lb_of. rewrite Hen. reflexivity.
Qed.

Lemma lb_inj H P s e1 e2 lb :
  fib_ok H P s -> (lb_of (fs_entries s) <$> H) !! e1 = Some lb -> (lb_of (fs_entries s) <$> H) !! e2 = Some lb -> e1 = e2.
Proof.
  intros [Hh Ht He Hp Ho] H1 H2. rewrite lookup_fmap in H1, H2.
  destruct (H !! e1) as [f1|] eqn:E1; [|discriminate]. destruct (H !! e2) as [f2|] eqn:E2; [|discriminate].
  destruct (Hp _ _ E1) as (_ & n1 & N1 & R1). destruct (Hp _ _ E2) as (_ & n2 & N2 & R2).
  destruct (He _ _ N1) as (_ & _ & [l1 L1]). destruct (He _ _ N2) as (_ & _ & [l2 L2]).
  unfold lb_of in H1, H2. cbn in H1, H2. rewrite N1, L1 in H1. rewrite N2, L2 in H2. cbn in H1, H2.
  assert (f1 = f2) as -> by (eapply Ho; eauto; congruence). congruence.
Qed.

Lemma route_add_ok H P s fei addr len lb :
  fib_ok H P s -> may_add s fei addr len lb ->
  exists s' P', route_add s fei addr len lb = Some s' /\ fib_ok (<[route addr len := fei]> H) P' s'.
Proof.
  intros Hok (Hfree & Hfei & Hargs & [Hlb Hown] & Hex & Hpl). destruct Hok as [Hh Ht He Hp Ho].
  assert (H !! route addr len = None) as Hno.
  { destruct (hr_get _ _ Hh addr len Hargs) as (hash & E & Eg). unfold ip4_fib_hash_table_lookup_exact_match in Hex. rewrite E in Hex. cbn [mbind option_bind] in Hex.
    rewrite Eg in Hex. destruct (H !! route addr len) as [f|] eqn:Ef; [|reflexivity]. destruct (Hp _ _ Ef) as [Hr _]. cbn in Hex. injection Hex as Hex. lia. }
  assert (forall pfx f, H !! pfx = Some f -> f <> fei) as Hne by (intros pfx f Hf ->; destruct (Hp _ _ Hf) as (_ & e & Hen & _); congruence).
  unfold route_add, fib_entry_src_action_install. cbn [fs_entries fs_plies fs_fib]. rewrite lookup_insert_eq. cbn [mbind option_bind fe_lb fe_addr fe_len].
  unfold ip4_fib_table_fwding_dpo_update. destruct (table_add_ok _ _ _ _ addr len lb Ht Hargs Hlb Hpl) as (m' & P' & ps' & -> & Ht' & _ & _). cbn [mbind option_bind].
  unfold fib_table_entry_insert. cbn [fs_fib fib_hash]. destruct (hash_insert_ok _ _ addr len fei Hh Hargs Hno) as (h' & -> & Hh'). cbn [mbind option_bind].
  eexists _, P'. split; [reflexivity|]. rewrite insert_insert_eq.
  set (entries := <[fei := mk_entry addr len (Some lb)]> (fs_entries s)). split; cbn [fs_fib fib_hash fib_mtrie fs_plies fs_entries].
  - exact Hh'.
  - assert (lb_of entries <$> <[route addr len := fei]> H = <[route addr len := lb]> (lb_of (fs_entries s) <$> H)) as ->; [|exact Ht'].
    rewrite fmap_insert. f_equal; [unfold entries; rewrite lb_of_insert, decide_True; reflexivity|].
    apply routes_ext. intros e f Hf. unfold entries. rewrite lb_of_insert, decide_False; eauto.
  - intros f e [[<- <-]|[Hf Hen]]%lookup_insert_Some; cbn [fe_addr fe_len fe_lb]; [split_and!; auto; apply lookup_insert_eq|].
    destruct (He _ _ Hen) as (A1 & A2 & A3). split_and!; auto. rewrite lookup_insert_ne; [exact A2|]. congruence.
  - intros pfx f [[<- <-]|[Hf Hx]]%lookup_insert_Some.
    + split; [exact Hfei|]. eexists. split; [apply lookup_insert_eq|reflexivity].
    + destruct (Hp _ _ Hx) as (A1 & e & A2 & A3). split; [exact A1|]. exists e. split; [|exact A3]. unfold entries. rewrite lookup_insert_ne; [exact A2|]. intros ->. eapply Hne; eauto.
  - intros f1 f2 e1 e2 [[<- <-]|[N1 Hx1]]%lookup_insert_Some [[<- <-]|[N2 Hx2]]%lookup_insert_Some Heq; cbn in Heq; auto; [destruct (Hown _ _ Hx2); auto|destruct (Hown _ _ Hx1); auto|eauto].
Qed.

Lemma route_remove_ok H P s fei e d :
  fib_ok H P s -> H !! root_prefix = Some d -> fs_entries s !! fei = Some e -> fe_len e <> 0 ->
  exists s' P', route_remove s fei = Some s' /\ fib_ok (delete (route (fe_addr e) (fe_len e)) H) P' s'.
Proof.
  intros Hok Hd Hen Hlen. pose proof Hok as [Hh Ht He Hp Ho]. destruct (He _ _ Hen) as (Hargs & Hroute & [lb Hlb]). pose proof Hargs as [Ha Hl].
  set (addr := fe_addr e) in *. set (len := fe_len e) in *. set (R := lb_of (fs_entries s) <$> H) in *.
  unfold route_remove, fib_entry_src_action_uninstall. rewrite Hen. cbn [mbind option_bind]. rewrite Hlb. fold addr len.
  unfold fib_table_fwding_dpo_remove, fib_table_get_less_specific_i, ip4_fib_hash_table_lookup.
  rewrite (proj2 (Z.eqb_neq len 0)) by exact Hlen. cbn [negb]. set (n := Z.to_nat (len - 1)).
  assert (Z.to_nat len = S n) as Hn by lia. rewrite (lookup_from_ok _ H _ _ d) by (auto; lia). cbn [mbind option_bind].
  set (x := net_to_host_u32 addr). set (c := addr_prefix n x).
  assert (route addr len = (S n, x / 2 ^ Z.of_nat (32 - S n))) as Hr by (unfold route, addr_prefix; now rewrite Hn).
  assert (c = (n, x / 2 ^ Z.of_nat (32 - S n) / 2)) as Hc.
  { apply addr_parent. lia. }
  assert (under c root_prefix) as Hcu. { unfold c. rewrite <- (addr_prefix_0 x) by apply net_to_host_u32_range. apply addr_prefix_under. lia. }
  destruct (best_spec H c) as [(e2 & H2 & Hr2 & Hl2)|[_ Hno]]; [|rewrite (Hno _ Hcu) in Hd; discriminate].
  destruct (Hp _ _ Hr2) as (_ & ce & Hce & Hcr). destruct (He _ _ Hce) as ([_ Hcl] & _ & [clb Hclb]).
  unfold ip4_fib_table_fwding_dpo_remove, fib_entry_contribute_ip_forwarding. rewrite Hce. cbn [mbind option_bind]. rewrite Hclb. change (default drop_dpo_index (Some clb)) with clb. cbn [mbind option_bind].
  assert (removable R (route addr len) lb (fe_len ce) clb) as Hrem.
  { split_and!.
    - unfold R. rewrite lookup_fmap, Hroute. cbn. unfold lb_of. now rewrite Hen, Hlb.
    - intros e' He' _. eapply lb_inj; [exact Hok|exact He'|]. rewrite lookup_fmap, Hroute. cbn. unfold lb_of. now rewrite Hen, Hlb.
    - rewrite Hr, best_cover, <- Hc. unfold R. rewrite (best_fmap _ _ _ _ _ Hd Hcu). rewrite <- Hl2, <- Hcr, route_len. unfold lb_of. now rewrite Hce, Hclb.
    - lia. }
  destruct (table_del_ok _ _ _ _ addr len _ _ _ Ht Hargs Hrem) as (m' & P' & ps' & -> & Ht' & _ & _). cbn [mbind option_bind].
  unfold fib_table_entry_remove. cbn [fs_fib fib_hash fs_plies fs_entries fib_mtrie]. destruct (hash_remove_ok _ _ addr len Hh Hargs) as (h' & -> & Hh'). cbn [mbind option_bind].
  eexists _, P'. split; [reflexivity|]. cbn [fs_fib fib_hash fs_plies fs_entries fib_mtrie]. rewrite delete_insert_eq.
  assert (forall f e', f <> fei -> fs_entries s !! f = Some e' -> route (fe_addr e') (fe_len e') <> route addr len) as Hdiff.
  { intros f e' Hf Hx Heq. destruct (He _ _ Hx) as (_ & A & _). congruence. }
  split; cbn [fs_fib fib_hash fib_mtrie fs_plies fs_entries].
  - exact Hh'.
  - assert (lb_of (delete fei (fs_entries s)) <$> delete (route addr len) H = delete (route addr len) R) as ->; [|exact Ht'].
    unfold R. rewrite <- fmap_delete. apply routes_ext. intros e' f [N Hf]%lookup_delete_Some. unfold lb_of. rewrite lookup_delete_ne; [reflexivity|].
    intros <-. destruct (Hp _ _ Hf) as (_ & e3 & A & B). apply N. assert (e3 = e) as -> by congruence. exact B.
  - intros f e' [N Hx]%lookup_delete_Some. destruct (He _ _ Hx) as (A1 & A2 & A3). split_and!; auto. rewrite lookup_delete_ne; [exact A2|]. intros Heq. eapply Hdiff; eauto.
  - intros pfx f [N Hf]%lookup_delete_Some. destruct (Hp _ _ Hf) as (A1 & e' & A2 & A3). split; [exact A1|]. exists e'. split; [|exact A3].
    rewrite lookup_delete_ne; [exact A2|]. intros <-. apply N. assert (e' = e) as -> by congruence. exact A3.
  - intros f1 f2 e1 e2' [_ Hx1]%lookup_delete_Some [_ Hx2]%lookup_delete_Some. eauto.
Qed.
