(* ===== verification/MtrieProps.v ===== *)
(** * Properties of IPv4 forwarding

    The theorems about the forwarding tries and the prefix tables of the FIB, with
    concrete tables they apply to. *)

From stdpp Require Import gmap.
From S2P Require Import Prelude NetTypes Pool Dpo Mtrie MtrieSpec MtrieInv MtrieAdd MtrieDel MtrieTables Ip4Fib Ip4FibInv.

(** ** Lookup *)

(** C21 Refinement of the routing table by the trie: through every history of creating
    tables of both variants, adding, replacing and removing routes and freeing tables,
    all over one pool of plies, a lookup in a table gives the adjacency of the longest of
    its routes that covers the address, and 0 if none does.  Adjacencies and ply indices
    fit a leaf; a removed route does not share its adjacency with a route inside of it,
    and is removed with its cover. *)
Theorem mtrie_lookup_longest_match s Rs t tbl R a :
  reachable s Rs -> mt_tables s !! t = Some tbl -> Rs !! t = Some R -> is_u 32 a ->
  mtrie_lookup tbl (mt_pool s) a = Some (lpm R (net_to_host_u32 a)).
Proof.
  intros [Ps Hok]%tables_reachable Ht HR Ha. pose proof (tk_dom _ _ _ Hok t) as Hd. rewrite Ht, HR in Hd. now apply (table_lookup_ok _ (Ps t)).
Qed.

(** C24 Totality of the operations on tries: in every state they can get into, each
    operation returns.  It never reads outside of a ply or of the pool, never follows a
    leaf to a ply that is not there, and never descends below the fourth byte. *)
Theorem mtrie_operations_return s Rs op : reachable s Rs -> allowed op s Rs -> is_Some (exec op s).
Proof. intros [Ps Hok]%tables_reachable Hal. destruct (step_ok Ps s Rs op Hok Hal) as (s' & _ & -> & _). eauto. Qed.

(** C23 No ply is lost and none is kept without need: beside ply 0, every ply in use is
    the root of a table or stands for a prefix of one table that has a longer route, one
    ply for each; when all routes are gone only the roots are left. *)
Theorem mtrie_plies_needed s Rs :
  reachable s Rs ->
  (exists Ps : Z -> positions,
     (forall p, is_Some (pool_lookup (mt_pool s) p) -> p = 0 \/ exists t e, Ps t !! e = Some p) /\
     (forall t e p, Ps t !! e = Some p -> exists R, Rs !! t = Some R /\ (mt_tables s !! t = Some (M8 p) \/ has_longer R e))) /\
  ((forall t R, Rs !! t = Some R -> R = ∅) ->
   forall p, is_Some (pool_lookup (mt_pool s) p) <-> p = 0 \/ exists t, mt_tables s !! t = Some (M8 p)).
Proof.
  intros [Ps Hok]%tables_reachable.
  assert (forall t e p, Ps t !! e = Some p -> exists R tbl, Rs !! t = Some R /\ mt_tables s !! t = Some tbl /\ table_ok R (Ps t) (mt_pool s) tbl) as Hown.
  { intros t e p Hp. pose proof (tk_dom _ _ _ Hok t) as Hd. destruct (mt_tables s !! t) as [tbl|], (Rs !! t) as [R|]; try easy; [eauto|].
    rewrite Hd, lookup_empty in Hp. discriminate. }
  split.
  - exists Ps. split; [apply (tk_live _ _ _ Hok)|]. intros t e p Hp. destruct (Hown t e p Hp) as (R & tbl & HR & Htbl & Ht). exists R. split; [exact HR|].
    destruct (decide (e.1 = 0%nat)) as [He|He]; [left|right; eapply tb_busy; eauto using tb_under].
    assert (e = root_prefix) as -> by (apply (under_same_len e); [apply under_refl|eapply tb_under; eauto|exact He]).
    rewrite Htbl. f_equal. destruct Ht as [_ _ _ _ Ht]. destruct tbl as [m|root]; [destruct Ht as [_ H16]; specialize (H16 _ _ Hp); cbn in H16; lia|].
    destruct Ht as [Hr _]. congruence.
  - intros Hempty p. split.
    + intros [->|(t & e & Hp)]%(tk_live _ _ _ Hok); [auto|]. right. exists t. destruct (Hown t e p Hp) as (R & tbl & HR & Htbl & Ht).
      rewrite (Hempty _ _ HR) in Ht. now destruct (empty_table_plies _ _ _ _ _ Ht Hp) as [_ <-].
    + intros [->|[t Ht]]; [apply (tk_zero _ _ _ Hok)|]. pose proof (tk_dom _ _ _ Hok t) as Hd. rewrite Ht in Hd. destruct (Rs !! t) as [R|]; [|easy].
      eapply st_live; [apply Hd|]. apply (tb_trie _ _ _ _ Hd).
Qed.

(** ** Several lookups at once *)

(** Each of them gives what a lookup of its own gives. *)
Lemma lookup_x4_16 m0 m1 m2 m3 ps a0 a1 a2 a3 r0 r1 r2 r3 :
  ip4_fib_forwarding_lookup_16 m0 ps a0 = Some r0 -> ip4_fib_forwarding_lookup_16 m1 ps a1 = Some r1 ->
  ip4_fib_forwarding_lookup_16 m2 ps a2 = Some r2 -> ip4_fib_forwarding_lookup_16 m3 ps a3 = Some r3 ->
  ip4_fib_forwarding_lookup_x4_16 m0 m1 m2 m3 ps a0 a1 a2 a3 = Some (r0, r1, r2, r3) /\
  ip4_fib_forwarding_lookup_x2_16 m0 m1 ps a0 a1 = Some (r0, r1).
Proof.
  unfold ip4_fib_forwarding_lookup_16, ip4_fib_forwarding_lookup_x4_16, ip4_fib_forwarding_lookup_x2_16. cbv zeta. intros H0 H1 H2 H3.
  repeat (simplify_option_eq; eauto).
Qed.

Lemma lookup_x4_8 m0 m1 m2 m3 ps a0 a1 a2 a3 r0 r1 r2 r3 :
  ip4_fib_forwarding_lookup_8 m0 ps a0 = Some r0 -> ip4_fib_forwarding_lookup_8 m1 ps a1 = Some r1 ->
  ip4_fib_forwarding_lookup_8 m2 ps a2 = Some r2 -> ip4_fib_forwarding_lookup_8 m3 ps a3 = Some r3 ->
  ip4_fib_forwarding_lookup_x4_8 m0 m1 m2 m3 ps a0 a1 a2 a3 = Some (r0, r1, r2, r3) /\
  ip4_fib_forwarding_lookup_x2_8 m0 m1 ps a0 a1 = Some (r0, r1).
Proof.
  unfold ip4_fib_forwarding_lookup_8, ip4_fib_forwarding_lookup_x4_8, ip4_fib_forwarding_lookup_x2_8. intros H0 H1 H2 H3.
  repeat (simplify_option_eq; eauto).
Qed.

(** ** Memory *)

(** Number of plies at and below a prefix. *)
Definition plies_below (P : positions) (e : prefix) : nat := size (filter (fun x => under x.1 e) P).

Fixpoint sum_below (P : positions) (e : prefix) (w : nat) (l : list Z) : nat :=
  match l with [] => 0%nat | i :: l' => (plies_below P (child e w i) + sum_below P e w l')%nat end.

Lemma sum_below_filter P e w l :
  NoDup l -> sum_below P e w l = size (filter (fun x : prefix * Z => Exists (fun i => under x.1 (child e w i)) l) P).
Proof.
  induction l as [|i l IH]; intros Hnd; cbn [sum_below].
  - rewrite map_empty_filter_2; [reflexivity|]. intros e' p _ H%Exists_nil. exact H.
  - apply NoDup_cons in Hnd as [Hi Hnd]. rewrite (IH Hnd). unfold plies_below. rewrite <- map_size_disj_union.
    + f_equal. apply map_eq. intros e'. apply option_eq. intros p. rewrite lookup_union_Some.
      * rewrite !map_lookup_filter_Some, Exists_cons. cbn [fst]. tauto.
      * apply map_disjoint_spec. intros e2 x y [_ H1]%map_lookup_filter_Some [_ H2]%map_lookup_filter_Some. cbn [fst] in *.
        apply Exists_exists in H2 as (j & Hj & H2). apply Hi. now rewrite (child_disjoint _ _ _ _ _ H1 H2).
    + apply map_disjoint_spec. intros e2 x y [_ H1]%map_lookup_filter_Some [_ H2]%map_lookup_filter_Some. cbn [fst] in *.
      apply Exists_exists in H2 as (j & Hj & H2). apply Hi. now rewrite (child_disjoint _ _ _ _ _ H1 H2).
Qed.

Lemma plies_below_ply P ps e p :
  store_ok P ps -> P !! e = Some p -> plies_below P e = S (sum_below P e 8 (seqZ 0 256)).
Proof.
  intros Hs Hp. rewrite sum_below_filter by apply NoDup_seqZ. unfold plies_below.
  rewrite <- (map_size_insert_None e p).
  - f_equal. apply map_eq. intros e'. apply option_eq. intros q. rewrite lookup_insert_Some, !map_lookup_filter_Some, Exists_exists. cbn [fst]. split.
    + intros [Hq Hu]. destruct (decide (e = e')) as [->|Hne]; [left; split; congruence|right]. split; [exact Hne|]. split; [exact Hq|].
      destruct (st_level _ _ Hs _ _ Hp) as (k & _ & Ek). destruct (st_level _ _ Hs _ _ Hq) as (k' & _ & Ek').
      destruct (under_child e' e 8 Hu) as (i & Hi & Hui).
      { pose proof Hu as [Hle _]. assert (e'.1 <> e.1) by (intros He; apply Hne; symmetry; apply (under_same_len e'); auto using under_refl). lia. }
      exists i. split; [apply elem_of_seqZ; change (2 ^ Z.of_nat 8) with 256 in Hi; lia|exact Hui].
    + intros [[<- <-]|(Hne & Hq & i & Hi%elem_of_seqZ & Hui)]; [auto using under_refl|]. split; [exact Hq|]. eapply under_trans; [exact Hui|]. apply child_under. lia.
  - apply map_lookup_filter_None. right. intros q _ (i & Hi & [H _])%Exists_exists. cbn in H. lia.
Qed.

(** The loop over the leaves of a node. *)
Lemma leaves_usage usage R P ps e w c l bytes :
  (forall i, i ∈ l -> 0 <= i < 2 ^ Z.of_nat w) -> node_ok (fun _ => R) P ps e w c ->
  (forall i q, i ∈ l -> P !! child e w i = Some q -> usage q = Some (SIZEOF_PLY_8 * Z.of_nat (plies_below P (child e w i)))) ->
  leaves_memory_usage usage ((fun i => (c i).1) <$> l) bytes = Some (bytes + SIZEOF_PLY_8 * Z.of_nat (sum_below P e w l)).
Proof.
  intros Hl Hn. revert bytes. induction l as [|i l IH]; intros bytes Hu; cbn [fmap list_fmap leaves_memory_usage sum_below]; [f_equal; lia|].
  destruct (Hn i (Hl i (list_elem_of_here _ _))) as [Hg _]. assert (forall leaf, ip4_mtrie_leaf_is_next_ply leaf = negb (ip4_mtrie_leaf_is_terminal leaf)) as ->
    by (intros leaf; unfold ip4_mtrie_leaf_is_next_ply, ip4_mtrie_leaf_is_terminal; now rewrite negb_involutive).
  destruct (slot_good_cases _ _ _ _ _ Hg) as [(-> & _ & _ & _ & Hnone)|(-> & q & -> & _ & _ & Hq)]; cbn [negb].
  - assert (plies_below P (child e w i) = 0%nat) as ->.
    { unfold plies_below. rewrite map_empty_filter_2; [reflexivity|]. intros e' p Hp H. rewrite (Hnone e' H) in Hp. discriminate. }
    apply IH; [intros; apply Hl; set_solver|]. intros; apply Hu; set_solver.
  - rewrite (Hu i q (list_elem_of_here _ _) Hq). cbn [mbind option_bind]. rewrite IH; [f_equal; lia|intros; apply Hl; set_solver|intros; apply Hu; set_solver].
Qed.

Lemma ply_leaves b ply : ply_wf b ply -> leaves ply = (fun i => (ply_slot ply i).1) <$> seqZ 0 256.
Proof.
  intros Hw. apply list_eq. intros n. rewrite list_lookup_fmap. destruct (decide (n < 256)%nat) as [Hn|Hn].
  - rewrite lookup_seqZ_lt by lia. cbn. destruct (ply_elt b ply (0 + Z.of_nat n) Hw ltac:(lia)) as [E _]. apply vec_elt_lookup in E.
    now replace (Z.to_nat (0 + Z.of_nat n)) with n in E by lia.
  - rewrite lookup_seqZ_ge by lia. apply lookup_ge_None_2. rewrite (wf_leaves _ _ Hw). lia.
Qed.

Lemma ply_usage fuel :
  forall R P ps e p (k : nat), store_ok P ps -> P !! e = Some p -> e.1 = (8 * k)%nat -> (4 <= k + fuel)%nat -> tree_ok R P ps e ->
  mtrie_ply_memory_usage fuel ps p = Some (SIZEOF_PLY_8 * Z.of_nat (plies_below P e)).
Proof.
  induction fuel as [|fuel IH]; intros R P ps e p k Hs Hp Hk Hf Ht.
  { destruct (st_level _ _ Hs _ _ Hp) as (k' & Hk' & Ek). lia. }
  cbn [mtrie_ply_memory_usage]. destruct (tree_mid _ _ _ _ _ Hp Ht) as (ply & Hl & Hw & Hn). rewrite (pool_lookup_elt _ _ _ Hl). cbn [mbind option_bind].
  rewrite (ply_leaves _ _ Hw), (leaves_usage _ R P ps e 8 (ply_slot ply)).
  - rewrite (plies_below_ply P ps e p Hs Hp). f_equal. lia.
  - intros i Hi%elem_of_seqZ. change (2 ^ Z.of_nat 8) with 256. lia.
  - exact Hn.
  - intros i q Hi%elem_of_seqZ Hq. apply (IH R P ps (child e 8 i) q (S k)); auto; [cbn; lia|lia|]. eapply tree_ok_under; [exact Ht|]. apply child_under. lia.
Qed.

(** The memory of a table of the 8-8-8-8 variant: all plies but the root, which
    [ip4_mtrie_8_memory_usage] does not count. *)
Theorem memory_usage_8 R P ps root :
  table_ok R P ps (M8 root) -> ip4_mtrie_8_memory_usage root ps = Some (SIZEOF_MTRIE_8 + SIZEOF_PLY_8 * (Z.of_nat (plies_below P root_prefix) - 1)).
Proof.
  intros [Hs _ _ _ [Hp Ht]]. unfold ip4_mtrie_8_memory_usage. destruct (tree_mid _ _ _ _ _ Hp Ht) as (ply & Hl & Hw & Hn).
  rewrite (pool_lookup_elt _ _ _ Hl). cbn [mbind option_bind]. rewrite (ply_leaves _ _ Hw), (leaves_usage _ R P ps root_prefix 8 (ply_slot ply)).
  - rewrite (plies_below_ply P ps _ _ Hs Hp). f_equal. lia.
  - intros i Hi%elem_of_seqZ. change (2 ^ Z.of_nat 8) with 256. lia.
  - exact Hn.
  - intros i q Hi%elem_of_seqZ Hq. apply (ply_usage 3 R P ps (child root_prefix 8 i) q 1); auto. eapply tree_ok_under; [exact Ht|]. apply child_under. lia.
Qed.

(** ** The FIB *)

Lemma fib_run_ok s : fib_run s -> exists H P d, fib_ok H P s /\ H !! root_prefix = Some d.
Proof.
  induction 1 as [ps s0 fei lb s Hp Hl H0 Hf Hlb E|s fei addr len lb s' _ (H & P & d & Hok & Hd) Hadd E|s fei e s' _ (H & P & d & Hok & Hd) He Hlen E].
  - assert (exists P, fib_ok ∅ P s0 /\ pool_len (fs_plies s0) <= pool_len ps + 1 /\ fs_entries s0 = ∅) as (P & Hok & Hpl & Hen).
    { assert (forall P ps' m, table_ok ∅ P ps' m -> fib_ok ∅ P (mk_fib_sys ps' (mk_fib m (repeat ∅ 33)) ∅)) as Hmk.
      { intros P ps' m Ht. split; cbn [fs_fib fib_hash fib_mtrie fs_plies fs_entries]; try (intros; rewrite lookup_empty in *; discriminate).
        - split; [reflexivity|]. intros addr len [_ Hargs]. exists ∅. split; [apply vec_elt_repeat; lia|]. now rewrite !lookup_empty.
        - now rewrite fmap_empty. }
      destruct H0 as [-> | ->].
      - exists ∅. split_and!; [apply Hmk, table_empty_16, Hp|cbn; lia|reflexivity].
      - unfold new_fib_8. destruct (create_root ps Hp ltac:(lia)) as (ps1 & q & Eq & _ & Ht). rewrite Eq. exists (<[root_prefix := q]> ∅). split_and!; [exact (Hmk _ _ _ Ht)| |reflexivity].
        cbn. unfold ip4_mtrie_8_init in Eq. pose proof (pool_get_allocated zero_ply ps Hp) as Ha. destruct (pool_get zero_ply ps) as [ps0 i].
        injection Eq as <- <-. rewrite pool_write_len. pose proof (al_len _ _ _ Ha). lia. }
    assert (args_ok 0 0) as Hargs by (split; [split; [lia|reflexivity]|lia]).
    destruct (route_add_ok ∅ P s0 fei 0 0 lb Hok) as (s2 & P2 & E2 & Hok2).
    { split_and!; [now rewrite Hen, lookup_empty|exact (proj1 Hf)|exact (proj2 Hf)|exact Hargs|split; [exact Hlb|]; intros f e; rewrite Hen, lookup_empty; discriminate| |lia].
      destruct (hr_get _ _ (fo_hash _ _ _ Hok) 0 0 Hargs) as (hash & Eh & Eg). unfold ip4_fib_hash_table_lookup_exact_match. rewrite Eh. cbn [mbind option_bind].
      rewrite Eg, lookup_empty. reflexivity. }
    exists (<[route 0 0 := fei]> ∅), P2, fei. split; [congruence|]. apply lookup_insert_eq.
  - destruct (route_add_ok H P s fei addr len lb Hok Hadd) as (s2 & P2 & E2 & Hok2). assert (s2 = s') as -> by congruence.
    destruct (decide (route addr len = root_prefix)) as [Heq|Hne]; eexists _, P2, _; (split; [exact Hok2|]).
    + rewrite Heq. apply lookup_insert_eq.
    + rewrite lookup_insert_ne by exact Hne. exact Hd.
  - destruct (route_remove_ok H P s fei e d Hok Hd He Hlen) as (s2 & P2 & E2 & Hok2). assert (s2 = s') as -> by congruence. eexists _, P2, d. split; [exact Hok2|].
    rewrite lookup_delete_ne; [exact Hd|]. intros Heq. pose proof (fo_entries _ _ _ Hok _ _ He) as ([_ Hl] & _). apply (f_equal fst) in Heq. rewrite route_len in Heq. cbn in Heq. lia.
Qed.

(** C22 Equivalence of the two tables of a FIB: through every history of installing and
    removing routes, each with a load-balance of its own, over a table with a default
    route, the data plane's lookup in the trie and the control plane's search of the hash
    tables from the longest mask give the same load-balance for every address. *)
Theorem fib_lookups_agree s a :
  fib_run s -> is_u 32 a ->
  exists lb, mtrie_lookup (fib_mtrie (fs_fib s)) (fs_plies s) a = Some lb /\
    ip4_fib_hash_table_lookup_lb (fib_hash (fs_fib s)) (fs_entries s) a = Some lb.
Proof. intros (H & P & d & Hok & Hd)%fib_run_ok Ha. eapply fib_lookup_ok; eauto. Qed.

(** A route that may be added can be, and one that is there can be removed. *)
Theorem fib_routes_return s :
  fib_run s ->
  (forall fei addr len lb, may_add s fei addr len lb -> is_Some (route_add s fei addr len lb)) /\
  (forall fei e, fs_entries s !! fei = Some e -> fe_len e <> 0 -> is_Some (route_remove s fei)).
Proof.
  intros (H & P & d & Hok & Hd)%fib_run_ok. split.
  - intros fei addr len lb Hadd. destruct (route_add_ok H P s fei addr len lb Hok Hadd) as (s' & _ & -> & _). eauto.
  - intros fei e He Hlen. destruct (route_remove_ok H P s fei e d Hok Hd He Hlen) as (s' & _ & -> & _). eauto.
Qed.

(** ** Concrete tables *)

Definition net_10_1 : Z := 266.
Definition host_10_1_2_3 : Z := 50462986.

Definition ex_init : mtries := mk_mtries (ip4_mtrie_module_init pool_empty) ∅.
Definition ex_then (op : mtrie_op) (s : mtries) : mtries := default s (exec op s).
Definition ex_created : mtries := ex_then (Create8 1) ex_init.
Definition ex_added : mtries := ex_then (Add 1 net_10_1 16 7) ex_created.
Definition ex_removed : mtries := ex_then (Del 1 net_10_1 16 7 0 0) ex_added.

Definition ex_routes : route_tables := spec (Add 1 net_10_1 16 7) (spec (Create8 1) ∅).

Lemma ex_args : args_ok net_10_1 16.
Proof. split; [split; reflexivity || discriminate|split; discriminate]. Qed.

Lemma ex_added_reachable : reachable ex_added ex_routes.
Proof.
  apply (reach_step ex_created); [apply (reach_step ex_init); [apply reach_init|split; [vm_compute; discriminate|reflexivity]|vm_compute; reflexivity]| |vm_compute; reflexivity].
  split; [vm_compute; discriminate|]. split_and!; [eexists; reflexivity|apply ex_args|discriminate|reflexivity].
Qed.

Lemma ex_removable : allowed (Del 1 net_10_1 16 7 0 0) ex_added ex_routes.
Proof.
  split; [vm_compute; discriminate|]. split; [apply ex_args|]. exists (<[route net_10_1 16 := 7]> ∅). split; [reflexivity|]. split_and!.
  - apply lookup_insert_eq.
  - intros e [[<- _]|[_ H]]%lookup_insert_Some _; [reflexivity|]. rewrite lookup_empty in H. discriminate.
  - vm_compute. reflexivity.
  - lia.
Qed.

Lemma mtrie_lookup_longest_match_witness :
  exists tbl, mt_tables ex_added !! 1 = Some tbl /\ mtrie_lookup tbl (mt_pool ex_added) host_10_1_2_3 = Some 7.
Proof.
  eexists. split; [vm_compute; reflexivity|]. rewrite (mtrie_lookup_longest_match ex_added ex_routes 1 _ (<[route net_10_1 16 := 7]> ∅) host_10_1_2_3 ex_added_reachable).
  - vm_compute. reflexivity.
  - vm_compute. reflexivity.
  - reflexivity.
  - split; [discriminate|reflexivity].
Defined.

Lemma mtrie_operations_return_witness : is_Some (exec (Del 1 net_10_1 16 7 0 0) ex_added).
Proof. exact (mtrie_operations_return _ _ _ ex_added_reachable ex_removable). Defined.

Lemma mtrie_plies_needed_witness : is_Some (pool_lookup (mt_pool ex_removed) 1) /\ pool_lookup (mt_pool ex_removed) 2 = None.
Proof.
  assert (reachable ex_removed (spec (Del 1 net_10_1 16 7 0 0) ex_routes)) as Hr
    by (apply (reach_step ex_added); [apply ex_added_reachable|apply ex_removable|vm_compute; reflexivity]).
  destruct (mtrie_plies_needed _ _ Hr) as [_ H].
  assert (forall p, is_Some (pool_lookup (mt_pool ex_removed) p) <-> p = 0 \/ exists t, mt_tables ex_removed !! t = Some (M8 p)) as Hp.
  { apply H. intros t R HR. destruct (decide (t = 1)) as [->|Hne].
    - assert (spec (Del 1 net_10_1 16 7 0 0) ex_routes !! 1 = Some ∅) as E by (vm_compute; reflexivity). congruence.
    - unfold spec, ex_routes in HR. cbn [spec] in HR. rewrite !lookup_alter_ne, lookup_insert_ne, lookup_empty in HR by congruence. discriminate. }
  split; [apply Hp; right; exists 1; vm_compute; reflexivity|]. vm_compute. reflexivity.
Defined.

Definition ex_fib_0 : fib_sys := new_fib_8 (ip4_mtrie_module_init pool_empty).
Definition ex_fib_1 : fib_sys := default ex_fib_0 (route_add ex_fib_0 1 0 0 3).
Definition ex_fib_2 : fib_sys := default ex_fib_1 (route_add ex_fib_1 2 net_10_1 16 7).

Lemma ex_fib_run : fib_run ex_fib_2.
Proof.
  apply (run_add ex_fib_1 2 net_10_1 16 7); [apply (run_start (ip4_mtrie_module_init pool_empty) ex_fib_0 1 3)| |vm_compute; reflexivity].
  - apply (al_ok _ _ _ (pool_get_allocated zero_ply pool_empty pool_empty_ok)).
  - vm_compute. discriminate.
  - right. reflexivity.
  - split; [lia|reflexivity].
  - lia.
  - vm_compute. reflexivity.
  - split_and!; [vm_compute; reflexivity|lia|reflexivity|apply ex_args|split; [lia|]|vm_compute; reflexivity|vm_compute; discriminate].
    intros fei e He. destruct (decide (fei = 1)) as [->|Hne].
    + assert (fs_entries ex_fib_1 !! 1 = Some (mk_entry 0 0 (Some 3))) as E by (vm_compute; reflexivity). rewrite E in He. injection He as <-. discriminate.
    + assert (fs_entries ex_fib_1 = <[1 := mk_entry 0 0 (Some 3)]> ∅) as E by (vm_compute; reflexivity).
      rewrite E, lookup_insert_ne, lookup_empty in He by congruence. discriminate He.
Qed.

Lemma fib_lookups_agree_witness :
  exists lb, mtrie_lookup (fib_mtrie (fs_fib ex_fib_2)) (fs_plies ex_fib_2) host_10_1_2_3 = Some lb /\
    ip4_fib_hash_table_lookup_lb (fib_hash (fs_fib ex_fib_2)) (fs_entries ex_fib_2) host_10_1_2_3 = Some lb.
Proof. apply (fib_lookups_agree ex_fib_2 host_10_1_2_3 ex_fib_run). split; [discriminate|reflexivity]. Defined.

(** Removal tells leaves apart by their adjacency only.  With one that a route inside of
    the removed one shares, that route is removed, too: of 10.0.0.0/8 and 10.1.0.0/16 with
    the same adjacency, the removal of the first leaves the second without effect. *)
Example shared_adjacency_removed :
  let s := ex_then (Del 1 10 8 5 0 0) (ex_then (Add 1 net_10_1 16 5) (ex_then (Add 1 10 8 5) ex_created)) in
  (tbl ← mt_tables s !! 1; mtrie_lookup tbl (mt_pool s) host_10_1_2_3) = Some 0 /\
  (R ← spec (Del 1 10 8 5 0 0) (spec (Add 1 net_10_1 16 5) (spec (Add 1 10 8 5) (spec (Create8 1) ∅))) !! 1;
   Some (lpm R (net_to_host_u32 host_10_1_2_3))) = Some 5.
Proof. split; vm_compute; reflexivity. Qed.
