(* ===== verification/UrpfList.v ===== *)
(** * uRPF lists (src/vnet/fib/fib_urpf_list.c, fib_urpf_list.h)

    A list holds the interfaces on which packets from a source may arrive; it is
    shared by load-balances and counted.  Interfaces are appended, and the list is
    then baked: sorted, and duplicates removed in place.

    The sort is the [qsort] of the C library, a parameter; what is used of it is
    that it permutes and leaves no element before one that the comparison puts
    first. *)

From stdpp Require Import gmap sorting.
From S2P Require Import Prelude Pool Dpo.

Definition FIB_URPF_LIST_BAKED : Z := Z.shiftl 1 0.

Record fib_urpf_list_t := mk_urpf {
  furpf_itfs : list Z;
  furpf_flags : Z;
  furpf_locks : Z
}.

#[export] Instance urpf_eta : Eta fib_urpf_list_t := fun u => mk_urpf (furpf_itfs u) (furpf_flags u) (furpf_locks u).

Definition urpf_zero : fib_urpf_list_t := mk_urpf [] 0 0.

Abbreviation urpfs := (pool fib_urpf_list_t).

Definition fib_urpf_list_get (p : urpfs) (ui : Z) : option fib_urpf_list_t := pool_elt_at_index p ui.

Definition fib_urpf_list_alloc_and_lock (p : urpfs) : urpfs * Z :=
  let '(p, ui) := pool_get urpf_zero p in (pool_write p ui (urpf_zero <| furpf_locks := u32 (0 + 1) |>), ui).

Definition fib_urpf_list_unlock (p : urpfs) (ui : Z) : option urpfs :=
  if INDEX_INVALID =? ui then Some p
  else
    urpf ← fib_urpf_list_get p ui;
    let locks := u32 (furpf_locks urpf - 1) in
    let p := pool_write p ui (urpf <| furpf_locks := locks |>) in
    if 0 =? locks then Some (pool_put_index (pool_write p ui (urpf <| furpf_locks := locks |> <| furpf_itfs := [] |>)) ui) else Some p.

Definition fib_urpf_list_lock (p : urpfs) (ui : Z) : option urpfs :=
  urpf ← fib_urpf_list_get p ui;
  Some (pool_write p ui (urpf <| furpf_locks := u32 (furpf_locks urpf + 1) |>)).

Definition fib_urpf_list_append (p : urpfs) (ui sw_if_index : Z) : option urpfs :=
  urpf ← fib_urpf_list_get p ui;
  Some (pool_write p ui (urpf <| furpf_itfs := furpf_itfs urpf ++ [sw_if_index] |>)).

Definition fib_urpf_list_combine (p : urpfs) (ui1 ui2 : Z) : option urpfs :=
  urpf1 ← fib_urpf_list_get p ui1;
  urpf2 ← fib_urpf_list_get p ui2;
  Some (pool_write p ui1 (urpf1 <| furpf_itfs := furpf_itfs urpf1 ++ furpf_itfs urpf2 |>)).

(** ** Baking *)

Definition fib_urpf_itf_cmp_for_sort (i1 i2 : Z) : Z := Z.b2z (i2 <? i1).

(** One turn of the loop over [j]: [v] is the vector, [i] the last of its unique
    elements. *)
Definition uniq_step (s : list Z * nat) (j : nat) : option (list Z * nat) :=
  let '(v, i) := s in
  a ← v !! i;
  b ← v !! j;
  Some (if negb (a =? b) then (<[S i := b]> v, S i) else (v, i)).

Fixpoint uniq_loop (js : list nat) (s : list Z * nat) : option (list Z * nat) :=
  match js with [] => Some s | j :: js => s ← uniq_step s j; uniq_loop js s end.

Section Bake.
Variable qsort : (Z -> Z -> Z) -> list Z -> list Z.

Definition bake_itfs (itfs : list Z) : option (list Z) :=
  if (1 <? length itfs)%nat then
    let v := qsort fib_urpf_itf_cmp_for_sort itfs in
    '(v, i) ← uniq_loop (seq 1 (length v - 1)) (v, 0%nat);
    Some (take (S i) v)
  else Some itfs.

Definition fib_urpf_list_bake (p : urpfs) (ui : Z) : option urpfs :=
  urpf ← fib_urpf_list_get p ui;
  itfs ← bake_itfs (furpf_itfs urpf);
  Some (pool_write p ui (urpf <| furpf_itfs := itfs |> <| furpf_flags := Z.lor (furpf_flags urpf) FIB_URPF_LIST_BAKED |>)).

End Bake.

(** ** What workers read *)

Definition fib_urpf_check (p : urpfs) (ui sw_if_index : Z) : option Z :=
  urpf ← fib_urpf_list_get p ui;
  Some (Z.b2z (existsb (Z.eqb sw_if_index) (furpf_itfs urpf))).

Definition fib_urpf_check_size (p : urpfs) (ui : Z) : option Z :=
  urpf ← fib_urpf_list_get p ui; Some (Z.of_nat (length (furpf_itfs urpf))).

(** ** The loop removes adjacent duplicates *)

Fixpoint uniq (l : list Z) : list Z :=
  match l with
  | a :: l' => match l' with b :: _ => if a =? b then uniq l' else a :: uniq l' | [] => [a] end
  | [] => []
  end.

(** An element after the end. *)
Lemma uniq_snoc l a b : uniq (l ++ [a; b]) = if a =? b then uniq (l ++ [a]) else uniq (l ++ [a]) ++ [b].
Proof.
  induction l as [|x l IH]; [cbn; now destruct (Z.eqb_spec a b) as [->|]|]. destruct l as [|y l].
  - cbn. destruct (Z.eqb_spec a b) as [->|]; now destruct (x =? _).
  - cbn [app uniq] in *. rewrite IH. destruct (x =? y), (a =? b); reflexivity.
Qed.

Lemma uniq_last l a : last (uniq (l ++ [a])) = Some a.
Proof.
  induction l as [|x l IH]; [reflexivity|]. destruct l as [|y l]; [cbn; now destruct (x =? a)|]. cbn [app uniq] in *.
  destruct (x =? y); [exact IH|]. rewrite last_cons. cbn [uniq]. now rewrite IH.
Qed.

Lemma uniq_length l : (length (uniq l) <= length l)%nat.
Proof. induction l as [|a [|b l] IH]; cbn in *; [lia|lia|]. destruct (a =? b); cbn; lia. Qed.

Lemma uniq_loop_spec l n : forall k v i, (k + n = length l)%nat -> (0 < k)%nat -> length v = length l -> take (S i) v = uniq (take k l) -> drop k v = drop k l -> (i < k)%nat ->
  exists v' i', uniq_loop (seq k n) (v, i) = Some (v', i') /\ take (S i') v' = uniq l.
Proof.
  induction n as [|n IH]; intros k v i Hk H0 Hl Ht Hd Hi; cbn [seq uniq_loop].
  - exists v, i. split; [reflexivity|]. rewrite Ht. now rewrite take_ge by lia.
  - destruct (lookup_lt_is_Some_2 l k ltac:(lia)) as [b Hb]. assert (v !! k = Some b) as Hvb by (rewrite <- (Nat.add_0_r k), <- lookup_drop, Hd, lookup_drop, Nat.add_0_r; exact Hb).
    destruct (lookup_lt_is_Some_2 l (k - 1) ltac:(lia)) as [a Ha]. assert (take k l = take (k - 1) l ++ [a]) as Etk by (replace k with (S (k - 1)) at 1 by lia; now apply take_S_r).
    assert (v !! i = Some a) as Hva.
    { pose proof (uniq_last (take (k - 1) l) a) as Hla. rewrite <- Etk, <- Ht in Hla. rewrite last_lookup, length_take, Hl in Hla. replace (Nat.pred (S i `min` length l)) with i in Hla by lia. rewrite lookup_take_lt in Hla by lia. exact Hla. }
    unfold uniq_step. rewrite Hva, Hvb. cbn [mbind option_bind]. assert (take (S k) l = take (k - 1) l ++ [a; b]) as Esk by (rewrite (take_S_r _ _ _ Hb), Etk, <- app_assoc; reflexivity).
    assert (drop (S k) v = drop (S k) l) as Hd' by (replace (S k) with (k + 1)%nat by lia; now rewrite <- !drop_drop, Hd).
    destruct (a =? b) eqn:E; cbn [negb].
    + apply IH; try lia; try assumption. rewrite Esk, uniq_snoc, E, <- Etk. exact Ht.
    + apply IH; try lia.
      * now rewrite length_insert.
      * rewrite Esk, uniq_snoc, E, <- Etk, <- Ht. rewrite (take_S_r _ _ b) by (rewrite list_lookup_insert_eq by lia; reflexivity). now rewrite take_insert_ge by lia.
      * rewrite drop_insert_lt by lia. exact Hd'.
Qed.

Lemma uniq_elem l x : x ∈ uniq l <-> x ∈ l.
Proof.
  induction l as [|a [|b l] IH]; [reflexivity|reflexivity|]. cbn [uniq] in *. destruct (Z.eqb_spec a b) as [<-|_].
  - rewrite IH. set_solver.
  - rewrite !elem_of_cons, IH. set_solver.
Qed.

Lemma uniq_head a b l : head (uniq (a :: b :: l)) = Some a \/ a = b.
Proof. cbn. destruct (Z.eqb_spec a b); [now right|now left]. Qed.

(** Sorted lists become strictly sorted. *)
Lemma uniq_sorted l : Sorted Z.le l -> StronglySorted Z.lt (uniq l).
Proof.
  intros H. apply Sorted_StronglySorted in H; [|exact Z.le_trans]. induction H as [|a l Hl IH Ha]; [constructor|]. destruct l as [|b l]; [repeat constructor|]. cbn [uniq] in *. inversion Ha as [|? ? Hab Hal]; subst.
  destruct (Z.eqb_spec a b) as [|Hne]; [exact IH|]. constructor; [exact IH|]. apply Forall_forall. intros x Hx. apply (proj1 (uniq_elem (b :: l) x)) in Hx. inversion Hl as [|? ? _ Hbl]; subst.
  apply elem_of_cons in Hx as [->|Hx]; [lia|]. rewrite Forall_forall in Hbl. specialize (Hbl _ Hx). lia.
Qed.

Section Props.
Variable qsort : (Z -> Z -> Z) -> list Z -> list Z.
Hypothesis qsort_perm : forall cmp l, qsort cmp l ≡ₚ l.
Hypothesis qsort_sorts : forall l, Sorted (fun x y => fib_urpf_itf_cmp_for_sort x y <= 0) (qsort fib_urpf_itf_cmp_for_sort l).

Lemma cmp_le l : Sorted (fun x y => fib_urpf_itf_cmp_for_sort x y <= 0) l -> Sorted Z.le l.
Proof.
  assert (forall x y, fib_urpf_itf_cmp_for_sort x y <= 0 -> x <= y) as H by (intros x y; unfold fib_urpf_itf_cmp_for_sort; destruct (Z.ltb_spec y x); cbn; lia).
  induction 1 as [|a l Hl IH Ha]; [constructor|]. constructor; [exact IH|]. inversion Ha; constructor. now apply H.
Qed.

Lemma bake_itfs_spec itfs : exists v, bake_itfs qsort itfs = Some v /\ StronglySorted Z.lt v /\ forall x, x ∈ v <-> x ∈ itfs.
Proof.
  unfold bake_itfs. destruct (Nat.ltb_spec 1 (length itfs)) as [Hl|Hl].
  - set (v := qsort _ itfs). assert (v ≡ₚ itfs) as Hp by apply qsort_perm. assert (length v = length itfs) as Hlv by now rewrite Hp.
    assert (take 1 v = uniq (take 1 v)) as Ht by (destruct v; reflexivity).
    destruct (uniq_loop_spec v (length v - 1) 1 v 0 ltac:(lia) ltac:(lia) eq_refl Ht eq_refl ltac:(lia)) as (v' & i' & -> & E). cbn [mbind option_bind]. eexists. split; [reflexivity|]. rewrite E. split.
    + apply uniq_sorted, cmp_le, qsort_sorts.
    + intros x. now rewrite uniq_elem, Hp.
  - exists itfs. split; [reflexivity|]. split; [|reflexivity]. destruct itfs as [|a [|b l]]; [constructor|repeat constructor|cbn in Hl; lia].
Qed.

(** a baked list accepts the interfaces that were appended to it and no other,
    and holds each of them once. *)
Theorem bake_keeps_interfaces p ui urpf : pool_lookup p ui = Some urpf ->
  exists p', fib_urpf_list_bake qsort p ui = Some p'
    /\ (forall itf, fib_urpf_check p' ui itf = Some (Z.b2z (existsb (Z.eqb itf) (furpf_itfs urpf))))
    /\ fib_urpf_check_size p' ui = Some (Z.of_nat (length (remove_dups (furpf_itfs urpf))))
    /\ forall i, i <> ui -> pool_lookup p' i = pool_lookup p i.
Proof.
  intros Hu. unfold fib_urpf_list_bake, fib_urpf_check, fib_urpf_check_size, fib_urpf_list_get. rewrite (pool_lookup_elt _ _ _ Hu). cbn [mbind option_bind].
  destruct (bake_itfs_spec (furpf_itfs urpf)) as (v & -> & Hs & He). cbn [mbind option_bind]. eexists. split; [reflexivity|]. set (u' := _ <| furpf_flags := _ |>).
  pose proof (pool_write_lookup p ui u' urpf) as Hw. specialize (fun j => Hw j Hu). assert (pool_lookup (pool_write p ui u') ui = Some u') as Hl by now rewrite Hw, decide_True.
  rewrite (pool_lookup_elt _ _ _ Hl). cbn [mbind option_bind]. split; [|split].
  - intros itf. do 2 f_equal. apply eq_true_iff_eq. rewrite !existsb_exists. setoid_rewrite <- list_elem_of_In. cbn. setoid_rewrite He. reflexivity.
  - do 2 f_equal. apply Permutation_length, NoDup_Permutation.
    + clear -Hs. cbn. induction Hs as [|a l _ IH Ha]; constructor; [|exact IH]. intros Hin. rewrite Forall_forall in Ha. specialize (Ha _ Hin). lia.
    + apply NoDup_remove_dups.
    + intros x. rewrite elem_of_remove_dups. apply He.
  - intros i Hi. now rewrite Hw, decide_False.
Qed.

End Props.

(** A sort that does what is assumed. *)
Fixpoint insert_by (cmp : Z -> Z -> Z) (x : Z) (l : list Z) : list Z :=
  match l with [] => [x] | y :: l' => if cmp x y <=? 0 then x :: l else y :: insert_by cmp x l' end.

Definition sort_by (cmp : Z -> Z -> Z) (l : list Z) : list Z := foldr (insert_by cmp) [] l.

Lemma sort_by_perm cmp l : sort_by cmp l ≡ₚ l.
Proof.
  unfold sort_by. induction l as [|x l IH]; [reflexivity|]. cbn. transitivity (x :: foldr (insert_by cmp) [] l); [|now rewrite IH]. generalize (foldr (insert_by cmp) [] l) as v. clear l IH. intros l. induction l as [|y l IH]; [reflexivity|]. cbn. destruct (_ <=? 0); [reflexivity|]. rewrite IH. apply perm_swap.
Qed.

Lemma sort_by_sorts l : Sorted (fun x y => fib_urpf_itf_cmp_for_sort x y <= 0) (sort_by fib_urpf_itf_cmp_for_sort l).
Proof.
  unfold sort_by. induction l as [|x l IH]; cbn; [constructor|]. revert IH. generalize (foldr (insert_by fib_urpf_itf_cmp_for_sort) [] l) as v. clear l. intros l. induction l as [|y l IH]; intros H; cbn; [repeat constructor|].
  destruct (Z.leb_spec (fib_urpf_itf_cmp_for_sort x y) 0) as [Hc|Hc]; [constructor; [exact H|now constructor]|]. inversion H as [|? ? H1 H2]; subst. constructor; [now apply IH|].
  assert (fib_urpf_itf_cmp_for_sort y x <= 0) as Hyx by (unfold fib_urpf_itf_cmp_for_sort in *; destruct (Z.ltb_spec y x), (Z.ltb_spec x y); cbn in *; lia).
  destruct l as [|z l]; cbn; [now constructor|]. inversion H2; subst. destruct (_ <=? 0); now constructor.
Qed.

Definition urpf_example : urpfs := fst (fib_urpf_list_alloc_and_lock pool_empty).
Definition urpf_example_full : urpfs := default urpf_example (foldl (fun p i => p ← p; fib_urpf_list_append p 0 i) (Some urpf_example) [7; 3; 7; 5; 3]).

Lemma bake_keeps_interfaces_witness : exists p', fib_urpf_list_bake sort_by urpf_example_full 0 = Some p'
  /\ fib_urpf_check p' 0 5 = Some 1 /\ fib_urpf_check p' 0 4 = Some 0 /\ fib_urpf_check_size p' 0 = Some 3.
Proof.
  destruct (bake_keeps_interfaces sort_by sort_by_perm sort_by_sorts urpf_example_full 0 (mk_urpf [7; 3; 7; 5; 3] 0 1) eq_refl) as (p' & E & H1 & H2 & _).
  exists p'. split; [exact E|]. rewrite !H1, H2. repeat split.
Defined.
