(* ===== verification/LbNormalize.v ===== *)
(** * Load-balances: normalisation of path weights (src/vnet/dpo/load_balance.c)

    [ip_multipath_normalize_next_hops] turns the weights of paths into numbers of
    buckets whose sum is a power of two: it doubles the number of buckets until the
    shares of the paths are close enough to their weights, or the maximum is
    reached.  The loop runs at most [14] times, since the number doubles up to
    [LB_MAX_BUCKETS].

    The standard [qsort] is a parameter: it returns a permutation of its argument
    and, by [next_hop_sort_by_weight], the paths by increasing weight. *)

From Stdlib Require Import SpecFloat.
From stdpp Require Import gmap sorting.
From S2P Require Import Prelude Float Dpo.

Definition LB_MAX_BUCKETS : Z := 8192.

Record load_balance_path_t := mk_path {
  path_dpo : dpo_id_t;
  path_index : Z;
  path_weight : Z
}.

#[export] Instance path_eta : Eta load_balance_path_t := fun p => mk_path (path_dpo p) (path_index p) (path_weight p).
#[export] Instance path_eq_dec : EqDecision load_balance_path_t.
Proof. solve_decision. Defined.

Definition multipath_next_hop_error_tolerance : spec_float := f64_tenth.

Definition next_hop_sort_by_weight (n1 n2 : load_balance_path_t) : Z := i32 (i32 (path_weight n1) - i32 (path_weight n2)).

(** [max_pow2]: the least power of two that is not below [x]. *)
Definition max_pow2 (x : Z) : Z := let y := Z.shiftl 1 (Z.log2 x) in if y <? x then y * 2 else y.

Definition set_weight (p : load_balance_path_t) (w : Z) : load_balance_path_t := p <| path_weight := u32 w |>.

(** What is known after the paths have got their shares of [n_adj] buckets: the
    weights of those before the loop ended, what is left and the error. *)
Record shares := mk_shares { sh_weights : list Z; sh_left : Z; sh_error : spec_float }.

(** The loop over the paths with their saved weights; it ends at the first path
    that gets no bucket. *)
Fixpoint share_out (n_adj : Z) (norm : spec_float) (saved : list Z) (n_adj_left : Z) (error : spec_float) : shares :=
  match saved with
  | [] => mk_shares [] n_adj_left error
  | w :: saved =>
      let nf := f64_mul (f64_of_u64 w) norm in
      let n := flt_round_nearest nf in
      let n := if n_adj_left <? n then n_adj_left else n in
      let n_adj_left := u64 (n_adj_left - n) in
      let error := f64_add error (SFabs (f64_sub nf (f64_of_u64 n))) in
      if u32 n =? 0 then mk_shares [] n_adj_left (f64_of_u64 n_adj)
      else
        let r := share_out n_adj norm saved n_adj_left error in
        mk_shares (u32 n :: sh_weights r) (sh_left r) (sh_error r)
  end.

(** The weights after [nhs[0].path_weight += n_adj_left], of the paths before the
    end of the loop. *)
Definition add_left (ws : list Z) (n_adj_left : Z) : list Z :=
  match ws with
  | [] => []
  | w :: ws => u32 (w + n_adj_left) :: ws
  end.

(** Larger and larger numbers of buckets.  [None] if there was not enough fuel. *)
Fixpoint find_n_adj (fuel : nat) (saved : list Z) (sum_weight : Z) (tolerance : spec_float) (n_adj : Z) : option (Z * list Z) :=
  match fuel with
  | O => None
  | S fuel =>
      let norm := f64_div (f64_of_u64 n_adj) (f64_of_u64 sum_weight) in
      let r := share_out n_adj norm saved n_adj (f64_of_u64 0) in
      if SFleb (sh_error r) (f64_mul tolerance (f64_of_u64 n_adj)) || (LB_MAX_BUCKETS <=? n_adj) then
        Some (n_adj, add_left (sh_weights r) (sh_left r))
      else find_n_adj fuel saved sum_weight tolerance (n_adj * 2)
  end.

Definition sum_list : list Z -> Z := foldr Z.add 0.

(** The result: the number of buckets, the normalised paths, the sum of the given
    weights, and the paths beyond the end of the vector, whose ids are reset. *)
Record normalized := mk_normalized {
  nm_n_adj : Z;
  nm_nhs : list load_balance_path_t;
  nm_sum_weight : Z;
  nm_truncated : list load_balance_path_t
}.

(** The general case, for sorted paths. *)
Definition normalize_sorted (nhs : list load_balance_path_t) (tolerance : spec_float) : option normalized :=
  let n_nhs := Z.of_nat (length nhs) in
  let sum_weight := u64 (sum_list (map path_weight nhs)) in
  let '(nhs, sum_weight) :=
    if sum_weight =? 0 then (map (fun p => set_weight p 1) nhs, n_nhs) else (nhs, sum_weight) in
  '(n_adj, ws) ← find_n_adj 14 (map path_weight nhs) sum_weight tolerance (Z.min (max_pow2 n_nhs) LB_MAX_BUCKETS);
  Some (mk_normalized n_adj (zip_with set_weight nhs ws) sum_weight (drop (length ws) nhs)).

Section Normalize.
Variable qsort : list load_balance_path_t -> list load_balance_path_t.

Definition ip_multipath_normalize_next_hops (raw_next_hops : list load_balance_path_t) (tolerance : spec_float) : option normalized :=
  match raw_next_hops with
  | [] => Some (mk_normalized 0 [] 0 [])
  | [p] => Some (mk_normalized 1 [set_weight p 1] 1 [])
  | [p0; p1] =>
      let '(a, b) := if next_hop_sort_by_weight p0 p1 <? 0 then (p1, p0) else (p0, p1) in
      if path_weight a =? path_weight b then Some (mk_normalized 2 [set_weight a 1; set_weight b 1] 2 [])
      else normalize_sorted [a; b] tolerance
  | _ => normalize_sorted (qsort raw_next_hops) tolerance
  end.

End Normalize.

(** Insertion sort: what [qsort] does, for evaluation. *)
Fixpoint insert_sorted (p : load_balance_path_t) (l : list load_balance_path_t) : list load_balance_path_t :=
  match l with
  | [] => [p]
  | q :: l' => if next_hop_sort_by_weight p q <=? 0 then p :: l else q :: insert_sorted p l'
  end.
Definition sort_by_weight : list load_balance_path_t -> list load_balance_path_t := foldr insert_sorted [].

(** ** Lemmas *)

Lemma sum_list_app l1 l2 : sum_list (l1 ++ l2) = sum_list l1 + sum_list l2.
Proof. unfold sum_list. induction l1 as [|x l IH]; cbn; lia. Qed.

(** Shares add up, whatever the rounding: a share is at most what is left. *)
Lemma share_out_spec n_adj norm saved : forall left err, 0 <= left <= LB_MAX_BUCKETS ->
  let r := share_out n_adj norm saved left err in
  0 <= sh_left r <= left /\ sum_list (sh_weights r) + sh_left r = left /\ Forall (fun w => 0 < w) (sh_weights r)
  /\ (length (sh_weights r) <= length saved)%nat
  /\ ((length (sh_weights r) < length saved)%nat -> sh_error r = f64_of_u64 n_adj).
Proof.
  unfold LB_MAX_BUCKETS. induction saved as [|w saved IH]; intros left err Hl; cbn [share_out].
  - cbn. repeat split; try constructor; lia.
  - set (nf := f64_mul _ norm). set (n := if left <? flt_round_nearest nf then left else flt_round_nearest nf).
    assert (0 <= n <= left) as Hn.
    { pose proof (u64_range (f64_trunc (f64_add nf f64_half))) as [H0 _]. subst n. unfold flt_round_nearest, u64_of_f64. cmp_cases; lia. }
    rewrite (u32_small n) by (unfold is_u; lia). rewrite (u64_small (left - n)) by (unfold is_u; lia). destruct (Z.eqb_spec n 0) as [->|Hn0].
    + cbn. repeat split; try constructor; lia.
    + specialize (IH (left - n) (f64_add err (SFabs (f64_sub nf (f64_of_u64 n)))) ltac:(lia)).
      cbn zeta in IH. destruct (share_out _ _ saved _ _) as [ws l e]. cbn in IH |- *. destruct IH as (H1 & H2 & H3 & H4 & H5).
      repeat split; try lia; [constructor; [lia|assumption]|]. intros H. apply H5. lia.
Qed.

Lemma add_left_spec ws left : 0 <= left -> Forall (fun w => 0 < w) ws -> sum_list ws + left <= LB_MAX_BUCKETS ->
  length (add_left ws left) = length ws /\ Forall (fun w => 0 < w) (add_left ws left) /\ (ws <> [] -> sum_list (add_left ws left) = sum_list ws + left).
Proof.
  intros Hl Hpos Hs. destruct Hpos as [|w ws Hw Hpos]; [now repeat split; try constructor|]. cbn [add_left sum_list foldr] in *.
  assert (0 <= sum_list ws) as H0 by (clear Hs; induction Hpos; cbn; lia). unfold sum_list, LB_MAX_BUCKETS in *.
  rewrite u32_small by (unfold is_u; lia). repeat split; [constructor; [lia|assumption]|]. cbn. lia.
Qed.

(** A loop that was left early has an error of 100%, which no number of buckets
    tolerates. *)
Lemma error_not_tolerated k : 0 <= k <= 13 ->
  SFleb (f64_of_u64 (2 ^ k)) (f64_mul multipath_next_hop_error_tolerance (f64_of_u64 (2 ^ k))) = false.
Proof.
  intros H. assert (k ∈ seqZ 0 14) as Hk by (apply elem_of_seqZ; lia).
  assert (forallb (fun k => negb (SFleb (f64_of_u64 (2 ^ k)) (f64_mul multipath_next_hop_error_tolerance (f64_of_u64 (2 ^ k))))) (seqZ 0 14) = true) as Ha by (vm_compute; reflexivity).
  rewrite forallb_forall in Ha. apply negb_true_iff, Ha. now apply list_elem_of_In.
Qed.

Lemma find_n_adj_spec saved sum : forall fuel k, 0 <= k <= 13 -> 14 - k <= Z.of_nat fuel ->
  exists k' ws, find_n_adj fuel saved sum multipath_next_hop_error_tolerance (2 ^ k) = Some (2 ^ k', ws) /\ 0 <= k' <= 13
    /\ Forall (fun w => 0 < w) ws /\ (length ws <= length saved)%nat /\ (ws <> [] -> sum_list ws = 2 ^ k')
    /\ ((length ws < length saved)%nat -> 2 ^ k' = LB_MAX_BUCKETS).
Proof.
  induction fuel as [|fuel IH]; intros k Hk Hf; [lia|]. cbn [find_n_adj].
  assert (2 ^ k <= 2 ^ 13) as Hp by (apply Z.pow_le_mono_r; lia). change (2 ^ 13) with LB_MAX_BUCKETS in Hp. pose proof (Z.pow_pos_nonneg 2 k ltac:(lia) ltac:(lia)).
  pose proof (share_out_spec (2 ^ k) (f64_div (f64_of_u64 (2 ^ k)) (f64_of_u64 sum)) saved (2 ^ k) (f64_of_u64 0) ltac:(lia)) as Hs.
  cbv zeta in Hs. destruct (share_out _ _ saved _ _) as [ws l e]. cbn [sh_weights sh_left sh_error] in *. destruct Hs as (H1 & H2 & H3 & H4 & H5).
  destruct (_ || _) eqn:Ec.
  - destruct (add_left_spec ws l ltac:(lia) H3 ltac:(lia)) as (A1 & A2 & A3). exists k, (add_left ws l).
    repeat split; try assumption; try lia.
    + intros Hne. rewrite A3; [lia|]. now intros ->.
    + rewrite A1. intros Hlt. specialize (H5 Hlt). subst e. rewrite error_not_tolerated in Ec by lia. cbn [orb] in Ec. apply Z.leb_le in Ec. lia.
  - apply orb_false_iff in Ec as [_ Ec]. apply Z.leb_gt in Ec. assert (k < 13). { destruct (Z.eq_dec k 13) as [->|]; [|lia]. now vm_compute in Ec. }
    replace (2 ^ k * 2) with (2 ^ (k + 1)) by (rewrite Z.pow_add_r; lia). apply IH; lia.
Qed.

Lemma max_pow2_pow x : 0 < x -> exists k, 0 <= k /\ max_pow2 x = 2 ^ k.
Proof.
  intros H. unfold max_pow2. rewrite Z.shiftl_1_l. pose proof (Z.log2_nonneg x). cmp_cases; [|eauto].
  exists (Z.log2 x + 1). split; [lia|]. rewrite Z.pow_add_r; lia.
Qed.

Lemma start_pow2 x : 0 < x -> exists k, 0 <= k <= 13 /\ Z.min (max_pow2 x) LB_MAX_BUCKETS = 2 ^ k.
Proof.
  intros (k & Hk & ->)%max_pow2_pow. change LB_MAX_BUCKETS with (2 ^ 13). destruct (Z.le_gt_cases k 13).
  - exists k. rewrite Z.min_l; [split; lia|]. apply Z.pow_le_mono_r; lia.
  - exists 13. rewrite Z.min_r; [lia|]. apply Z.pow_le_mono_r; lia.
Qed.

(** A path without its weight. *)
Definition path_id (p : load_balance_path_t) : dpo_id_t * Z := (path_dpo p, path_index p).

(** What normalisation promises of the paths [raw]: every path kept has buckets,
    all buckets are given to paths, and paths are only dropped at the maximum. *)
Record normalized_ok (raw : list load_balance_path_t) (r : normalized) : Prop := {
  no_pow2 : exists k, 0 <= k <= 13 /\ nm_n_adj r = 2 ^ k;
  no_weights : Forall (fun p => 0 < path_weight p) (nm_nhs r);
  no_sum : nm_nhs r <> [] -> sum_list (map path_weight (nm_nhs r)) = nm_n_adj r;
  no_paths : map path_id (nm_nhs r ++ nm_truncated r) ≡ₚ map path_id raw;
  no_truncated : nm_truncated r <> [] -> nm_n_adj r = LB_MAX_BUCKETS
}.

Lemma weights_zip nhs ws : (length ws <= length nhs)%nat -> Forall (fun w => 0 < w) ws -> sum_list ws <= LB_MAX_BUCKETS ->
  map path_weight (zip_with set_weight nhs ws) = ws.
Proof.
  unfold sum_list, LB_MAX_BUCKETS. revert nhs. induction ws as [|w ws IH]; intros nhs Hl Hp Hs; [now destruct nhs|].
  destruct nhs as [|p nhs]; [cbn in Hl; lia|]. inversion Hp as [|? ? Hw Hp']; subst. cbn in Hl, Hs |- *.
  assert (0 <= foldr Z.add 0 ws) by (clear -Hp'; induction Hp'; cbn; lia). rewrite u32_small by (unfold is_u; lia). now rewrite IH by (assumption || lia).
Qed.

Lemma path_id_set nhs ws : (length ws <= length nhs)%nat -> map path_id (zip_with set_weight nhs ws) = map path_id (take (length ws) nhs).
Proof.
  revert nhs. induction ws as [|w ws IH]; intros [|p nhs] Hl; cbn in *; try easy; try lia. now rewrite IH by lia.
Qed.

Lemma normalize_sorted_spec nhs : nhs <> [] ->
  exists r, normalize_sorted nhs multipath_next_hop_error_tolerance = Some r /\ normalized_ok nhs r.
Proof.
  intros Hne. unfold normalize_sorted. cbv zeta. assert (0 < Z.of_nat (length nhs)) as Hlen by (destruct nhs; [easy|cbn; lia]).
  destruct (start_pow2 (Z.of_nat (length nhs)) Hlen) as (k & Hk & ->).
  set (c := if u64 (sum_list (map path_weight nhs)) =? 0 then _ else _).
  assert (exists nhs' sum, c = (nhs', sum) /\ map path_id nhs' = map path_id nhs /\ length nhs' = length nhs) as (nhs' & sum & Ec & Hid & Hl).
  { subst c. destruct (_ =? 0); [|now repeat esplit]. do 2 eexists. split; [reflexivity|]. split; [|now rewrite length_map]. rewrite map_map. now apply map_ext. }
  rewrite Ec. clear c Ec. destruct (find_n_adj_spec (map path_weight nhs') sum 14 k Hk ltac:(lia)) as (k' & ws & E & Hk' & Hpos & Hlw & Hsum & Htr).
  rewrite E. rewrite length_map in Hlw, Htr. cbn. eexists. split; [reflexivity|].
  assert (sum_list ws <= LB_MAX_BUCKETS) as Hb. { destruct ws as [|w ws]; [easy|]. rewrite Hsum by easy. change LB_MAX_BUCKETS with (2 ^ 13). apply Z.pow_le_mono_r; lia. }
  pose proof (weights_zip nhs' ws Hlw Hpos Hb) as Hw. split; cbn.
  - eauto.
  - apply (Forall_map path_weight (fun w => 0 < w)). now rewrite Hw.
  - intros Hz. rewrite Hw. apply Hsum. intros ->. apply Hz. now destruct nhs'.
  - now rewrite map_app, path_id_set, <- map_app, take_drop, Hid.
  - intros Hd. apply Htr. destruct (decide (length ws < length nhs'))%nat; [assumption|]. destruct Hd. apply drop_ge. lia.
Qed.

Section Spec.
Variable qsort : list load_balance_path_t -> list load_balance_path_t.
Hypothesis qsort_perm : forall l, qsort l ≡ₚ l.

Lemma normalized_ok_perm raw raw' r : raw ≡ₚ raw' -> normalized_ok raw r -> normalized_ok raw' r.
Proof. intros Hp [H1 H2 H3 H4 H5]. split; try assumption. now rewrite H4, Hp. Qed.

Lemma normalize_spec raw : raw <> [] ->
  exists r, ip_multipath_normalize_next_hops qsort raw multipath_next_hop_error_tolerance = Some r /\ normalized_ok raw r.
Proof.
  intros Hne. unfold ip_multipath_normalize_next_hops. destruct raw as [|p0 [|p1 [|p2 raw]]]; [easy| | |].
  - eexists. split; [reflexivity|]. split; cbn; try easy; [now exists 0|]. repeat constructor.
  - set (c := if _ <? 0 then _ else _). assert (exists a b, c = (a, b) /\ [a; b] ≡ₚ [p0; p1]) as (a & b & -> & Hp).
    { subst c. destruct (_ <? 0); do 2 eexists; (split; [reflexivity|]); [apply perm_swap|reflexivity]. }
    destruct (_ =? _).
    + eexists. split; [reflexivity|]. apply (normalized_ok_perm _ _ _ Hp). split; cbn; try easy; [now exists 1|]. repeat constructor.
    + destruct (normalize_sorted_spec [a; b] ltac:(easy)) as (r & E & Hr). exists r. split; [exact E|]. exact (normalized_ok_perm _ _ _ Hp Hr).
  - destruct (normalize_sorted_spec (qsort (p0 :: p1 :: p2 :: raw))) as (r & E & Hr).
    { intros E. pose proof (qsort_perm (p0 :: p1 :: p2 :: raw)) as Hp. rewrite E in Hp. now apply Permutation_nil_cons in Hp. }
    exists r. split; [exact E|]. exact (normalized_ok_perm _ _ _ (qsort_perm _) Hr).
Qed.

End Spec.

Lemma insert_sorted_perm p l : insert_sorted p l ≡ₚ p :: l.
Proof. induction l as [|q l IH]; cbn; [reflexivity|]. destruct (_ <=? 0); [reflexivity|]. rewrite IH. apply perm_swap. Qed.

Lemma sort_by_weight_perm l : sort_by_weight l ≡ₚ l.
Proof. induction l as [|p l IH]; cbn; [reflexivity|]. now rewrite insert_sorted_perm, IH. Qed.

(** C19: normalisation of a non-empty list of paths ends, with a power of two of at
    most 8192 buckets.  Unless every path is dropped, the buckets are all given out,
    at least one to each path that is kept; each path is kept or dropped once, and
    paths are dropped only at the maximum number of buckets. *)
Theorem normalize_gives_out_all_buckets qsort raw : (forall l, qsort l ≡ₚ l) -> raw <> [] ->
  exists r, ip_multipath_normalize_next_hops qsort raw multipath_next_hop_error_tolerance = Some r
    /\ (exists k, 0 <= k <= 13 /\ nm_n_adj r = 2 ^ k)
    /\ Forall (fun p => 0 < path_weight p) (nm_nhs r)
    /\ (nm_nhs r <> [] -> sum_list (map path_weight (nm_nhs r)) = nm_n_adj r)
    /\ map path_id (nm_nhs r ++ nm_truncated r) ≡ₚ map path_id raw
    /\ (nm_truncated r <> [] -> nm_n_adj r = LB_MAX_BUCKETS).
Proof. intros Hq Hne. destruct (normalize_spec qsort Hq raw Hne) as (r & E & [H1 H2 H3 H4 H5]). exists r. auto 10. Qed.

Lemma normalize_gives_out_all_buckets_witness :
  exists r, ip_multipath_normalize_next_hops sort_by_weight [mk_path dpo_zero 1 1; mk_path dpo_zero 2 3; mk_path dpo_zero 3 4] multipath_next_hop_error_tolerance = Some r
    /\ nm_n_adj r = 8 /\ sum_list (map path_weight (nm_nhs r)) = 8.
Proof.
  destruct (normalize_gives_out_all_buckets sort_by_weight [mk_path dpo_zero 1 1; mk_path dpo_zero 2 3; mk_path dpo_zero 3 4] sort_by_weight_perm ltac:(easy)) as (r & E & _ & _ & Hs & _).
  exists r. split; [exact E|]. vm_compute in E. injection E as <-. split; [reflexivity|]. exact (Hs ltac:(easy)).
Defined.

(** Three paths are sorted with the smallest weight first, and the first one that
    gets no bucket ends the list: then no path is left. *)
Lemma normalize_may_drop_all :
  (fun r => (nm_n_adj r, nm_nhs r)) <$> ip_multipath_normalize_next_hops sort_by_weight [mk_path dpo_zero 1 1; mk_path dpo_zero 2 100000; mk_path dpo_zero 3 100000] multipath_next_hop_error_tolerance = Some (LB_MAX_BUCKETS, []).
Proof. vm_compute. reflexivity. Qed.
