(* ===== verification/FibNodeList.v ===== *)
(** * Lists of FIB nodes (src/vnet/fib/fib_node_list.c)

    Doubly-linked lists whose elements and heads live in two pools and refer to
    each other by index.  An element is a sibling index for its owner, who removes
    it or moves it without searching.  The specification is a finite map from
    lists to sequences of siblings and owners; the operations refine those of
    sequences.

    A result [None] is an access outside of a pool. *)

From stdpp Require Import gmap.
From S2P Require Import Prelude Pool Dpo.

(** ** Data *)

Record fib_node_ptr_t := mk_node_ptr { fnp_type : Z; fnp_index : Z }.

Record fib_node_list_elt_t := mk_elt {
  fnle_list : Z;
  fnle_owner : fib_node_ptr_t;
  fnle_next : Z;
  fnle_prev : Z
}.

Record fib_node_list_head_t := mk_head { fnlh_head : Z; fnlh_n_elts : Z }.

#[export] Instance elt_eta : Eta fib_node_list_elt_t := fun e => mk_elt (fnle_list e) (fnle_owner e) (fnle_next e) (fnle_prev e).
#[export] Instance head_eta : Eta fib_node_list_head_t := fun h => mk_head (fnlh_head h) (fnlh_n_elts h).
#[export] Instance node_ptr_eq_dec : EqDecision fib_node_ptr_t.
Proof. solve_decision. Defined.

Definition elt_zero : fib_node_list_elt_t := mk_elt 0 (mk_node_ptr 0 0) 0 0.
Definition head_zero : fib_node_list_head_t := mk_head 0 0.

(** The two pools. *)
Record node_lists := mk_lists { fib_node_list_elt_pool : pool fib_node_list_elt_t; fib_node_list_head_pool : pool fib_node_list_head_t }.

#[export] Instance lists_eta : Eta node_lists := fun s => mk_lists (fib_node_list_elt_pool s) (fib_node_list_head_pool s).

Definition node_lists_empty : node_lists := mk_lists pool_empty pool_empty.

Definition fib_node_list_elt_get (s : node_lists) (i : Z) : option fib_node_list_elt_t := pool_elt_at_index (fib_node_list_elt_pool s) i.
Definition fib_node_list_head_get (s : node_lists) (i : Z) : option fib_node_list_head_t := pool_elt_at_index (fib_node_list_head_pool s) i.
Definition put_elt (s : node_lists) (i : Z) (e : fib_node_list_elt_t) : node_lists :=
  s <| fib_node_list_elt_pool := pool_write (fib_node_list_elt_pool s) i e |>.
Definition put_head (s : node_lists) (i : Z) (h : fib_node_list_head_t) : node_lists :=
  s <| fib_node_list_head_pool := pool_write (fib_node_list_head_pool s) i h |>.

(** ** Operations *)

Definition fib_node_list_elt_create (s : node_lists) (list type index : Z) : node_lists * Z :=
  let '(ep, i) := pool_get elt_zero (fib_node_list_elt_pool s) in
  (put_elt (s <| fib_node_list_elt_pool := ep |>) i
     (mk_elt list (mk_node_ptr type index) FIB_NODE_INDEX_INVALID FIB_NODE_INDEX_INVALID), i).

Definition fib_node_list_head_init : fib_node_list_head_t := mk_head FIB_NODE_INDEX_INVALID 0.

Definition fib_node_list_create (s : node_lists) : node_lists * Z :=
  let '(hp, i) := pool_get head_zero (fib_node_list_head_pool s) in
  (put_head (s <| fib_node_list_head_pool := hp |>) i fib_node_list_head_init, i).

(** The pools and the index that the caller holds afterwards. *)
Definition fib_node_list_destroy (s : node_lists) (list : Z) : node_lists * Z :=
  if FIB_NODE_INDEX_INVALID =? list then (s, list)
  else (s <| fib_node_list_head_pool := pool_put_index (fib_node_list_head_pool s) list |>, FIB_NODE_INDEX_INVALID).

Definition fib_node_list_push_front (s : node_lists) (list type index : Z) : option (node_lists * Z) :=
  head ← fib_node_list_head_get s list;
  let '(s, elt) := fib_node_list_elt_create s list type index in
  e ← fib_node_list_elt_get s elt;
  let s := put_elt s elt (e <| fnle_prev := FIB_NODE_INDEX_INVALID |> <| fnle_next := fnlh_head head |>) in
  s ← (if negb (FIB_NODE_INDEX_INVALID =? fnlh_head head) then
         next ← fib_node_list_elt_get s (fnlh_head head);
         Some (put_elt s (fnlh_head head) (next <| fnle_prev := elt |>))
       else Some s);
  Some (put_head s list (head <| fnlh_head := elt |> <| fnlh_n_elts := u32 (fnlh_n_elts head + 1) |>), elt).

(** [fib_node_list_extract (head, elt)]. *)
Definition fib_node_list_extract (s : node_lists) (list sibling : Z) : option node_lists :=
  elt ← fib_node_list_elt_get s sibling;
  s ← (if negb (FIB_NODE_INDEX_INVALID =? fnle_next elt) then
         next ← fib_node_list_elt_get s (fnle_next elt);
         Some (put_elt s (fnle_next elt) (next <| fnle_prev := fnle_prev elt |>))
       else Some s);
  if negb (FIB_NODE_INDEX_INVALID =? fnle_prev elt) then
    prev ← fib_node_list_elt_get s (fnle_prev elt);
    Some (put_elt s (fnle_prev elt) (prev <| fnle_next := fnle_next elt |>))
  else
    head ← fib_node_list_head_get s list;
    Some (put_head s list (head <| fnlh_head := fnle_next elt |>)).

Definition fib_node_list_insert_after (s : node_lists) (prev sibling : Z) : option node_lists :=
  p ← fib_node_list_elt_get s prev;
  elt ← fib_node_list_elt_get s sibling;
  let s := put_elt s sibling (elt <| fnle_next := fnle_next p |>) in
  s ← (if negb (FIB_NODE_INDEX_INVALID =? fnle_next p) then
         next ← fib_node_list_elt_get s (fnle_next p);
         Some (put_elt s (fnle_next p) (next <| fnle_prev := sibling |>))
       else Some s);
  p ← fib_node_list_elt_get s prev;
  let s := put_elt s prev (p <| fnle_next := sibling |>) in
  elt ← fib_node_list_elt_get s sibling;
  Some (put_elt s sibling (elt <| fnle_prev := prev |>)).

Definition fib_node_list_remove (s : node_lists) (list sibling : Z) : option node_lists :=
  s ← fib_node_list_extract s list sibling;
  head ← fib_node_list_head_get s list;
  let s := put_head s list (head <| fnlh_n_elts := u32 (fnlh_n_elts head - 1) |>) in
  Some (s <| fib_node_list_elt_pool := pool_put_index (fib_node_list_elt_pool s) sibling |>).

Definition fib_node_list_elt_remove (s : node_lists) (sibling : Z) : option node_lists :=
  elt ← fib_node_list_elt_get s sibling;
  fib_node_list_remove s (fnle_list elt) sibling.

(** One step toward the tail; [false] at the end of the list. *)
Definition fib_node_list_advance (s : node_lists) (sibling : Z) : option (node_lists * bool) :=
  elt ← fib_node_list_elt_get s sibling;
  if negb (FIB_NODE_INDEX_INVALID =? fnle_next elt) then
    s' ← fib_node_list_extract s (fnle_list elt) sibling;
    s' ← fib_node_list_insert_after s' (fnle_next elt) sibling;
    Some (s', true)
  else Some (s, false).

(** The owner of the next element, or [None] at the end. *)
Definition fib_node_list_elt_get_next (s : node_lists) (sibling : Z) : option (option fib_node_ptr_t) :=
  elt ← fib_node_list_elt_get s sibling;
  if negb (FIB_NODE_INDEX_INVALID =? fnle_next elt) then
    next ← fib_node_list_elt_get s (fnle_next elt); Some (Some (fnle_owner next))
  else Some None.

Definition fib_node_list_get_size (s : node_lists) (list : Z) : option Z :=
  if FIB_NODE_INDEX_INVALID =? list then Some 0
  else head ← fib_node_list_head_get s list; Some (fnlh_n_elts head).

Definition fib_node_list_get_front (s : node_lists) (list : Z) : option (option fib_node_ptr_t) :=
  n ← fib_node_list_get_size s list;
  if n =? 0 then Some None
  else
    head ← fib_node_list_head_get s list;
    elt ← fib_node_list_elt_get s (fnlh_head head); Some (Some (fnle_owner elt)).

(** The walk: [lists] are the lists of the state that the callback may change; the
    next element is read before the callback runs.  A callback returns [false] to
    stop.  The fuel is a bound on the length of the list. *)
Section Walk.
Context {A : Type} (lists : A -> node_lists) (fn : fib_node_ptr_t -> A -> option (A * bool)).

Fixpoint walk_from (fuel : nat) (sibling : Z) (a : A) : option A :=
  if FIB_NODE_INDEX_INVALID =? sibling then Some a
  else match fuel with
  | O => None
  | S fuel =>
      elt ← fib_node_list_elt_get (lists a) sibling;
      '(a, continue) ← fn (fnle_owner elt) a;
      if (continue : bool) then walk_from fuel (fnle_next elt) a else Some a
  end.

Definition fib_node_list_walk (list : Z) (a : A) : option A :=
  if FIB_NODE_INDEX_INVALID =? list then Some a
  else
    head ← fib_node_list_head_get (lists a) list;
    walk_from (Z.to_nat (pool_len (fib_node_list_elt_pool (lists a)))) (fnlh_head head) a.
End Walk.

(** ** Linked segments *)

(** Siblings and owners of a list, from the head on. *)
Abbreviation siblings := (list (Z * fib_node_ptr_t)).

Definition first_or (l : siblings) (i : Z) : Z := match l with [] => i | (s, _) :: _ => s end.
Definition last_or (l : siblings) (i : Z) : Z := match last l with Some (s, _) => s | None => i end.

Lemma first_or_app l1 l2 n : first_or (l1 ++ l2) n = first_or l1 (first_or l2 n).
Proof. now destruct l1 as [|[]]. Qed.

Lemma last_or_cons s o l p : last_or ((s, o) :: l) p = last_or l s.
Proof.
  unfold last_or. change ((s, o) :: l) with ([(s, o)] ++ l). rewrite last_app. now destruct (last l) as [[]|].
Qed.

Lemma last_or_snoc l s o p : last_or (l ++ [(s, o)]) p = s.
Proof. unfold last_or. now rewrite last_snoc. Qed.

Section Segments.
Context (f : Z -> option fib_node_list_elt_t) (li : Z).

(** The elements of [l] are linked in both directions, between [p] and [n]. *)
Fixpoint seg (p : Z) (l : siblings) (n : Z) : Prop :=
  match l with
  | [] => True
  | (s, o) :: l' => f s = Some (mk_elt li o (first_or l' n) p) /\ seg s l' n
  end.

Lemma seg_app p l1 l2 n : seg p (l1 ++ l2) n <-> seg p l1 (first_or l2 n) /\ seg (last_or l1 p) l2 n.
Proof.
  revert p. induction l1 as [|[s o] l1 IH]; intros p; cbn [app seg].
  - cbn. tauto.
  - rewrite IH, first_or_app, last_or_cons. tauto.
Qed.

Lemma seg_elt p l1 s o l2 n : seg p (l1 ++ (s, o) :: l2) n <->
  seg p l1 s /\ f s = Some (mk_elt li o (first_or l2 n) (last_or l1 p)) /\ seg s l2 n.
Proof. rewrite seg_app. reflexivity. Qed.

Lemma seg_live p l n s : seg p l n -> s ∈ map fst l -> exists e, f s = Some e /\ fnle_list e = li.
Proof.
  revert p. induction l as [|[s' o] l IH]; intros p; [set_solver|]. intros [Hs Hl]. cbn [map fst]. rewrite elem_of_cons.
  intros [->|Hin]; [rewrite Hs; eauto|eauto].
Qed.

End Segments.

(** Segments only depend on their elements. *)
Lemma seg_frame f f' li p l n : (forall s, s ∈ map fst l -> f' s = f s) -> seg f li p l n -> seg f' li p l n.
Proof.
  revert p. induction l as [|[s o] l IH]; intros p Hf; [easy|]. intros [H1 H2]. split.
  - rewrite Hf; [exact H1|]. cbn. set_solver.
  - apply IH; [|exact H2]. intros s' Hs'. apply Hf. cbn. set_solver.
Qed.

(** [f'] is [f] with the element [i] changed by [g]. *)
Definition changed (f f' : Z -> option fib_node_list_elt_t) (i : Z) (g : fib_node_list_elt_t -> fib_node_list_elt_t) : Prop :=
  forall j, f' j = if decide (j = i) then g <$> f j else f j.

(** The first element of a segment gets another predecessor. *)
Lemma seg_set_prev f f' li p p' l n :
  NoDup (map fst l) -> (forall s l', l = s :: l' -> changed f f' (fst s) (fun e => e <| fnle_prev := p' |>)) ->
  seg f li p l n -> seg f' li p' l n.
Proof.
  destruct l as [|[s o] l]; [easy|]. intros Hn Hf [H1 H2]. specialize (Hf _ _ eq_refl). cbn in Hf, Hn. apply NoDup_cons in Hn as [Hn _]. split.
  - now rewrite Hf, decide_True, H1.
  - apply (seg_frame f); [|exact H2]. intros j Hj. rewrite Hf, decide_False; [reflexivity|]. now intros ->.
Qed.

(** The last element of a segment gets another successor. *)
Lemma seg_set_next f f' li p l s o n n' :
  NoDup (map fst (l ++ [(s, o)])) -> changed f f' s (fun e => e <| fnle_next := n' |>) ->
  seg f li p (l ++ [(s, o)]) n -> seg f' li p (l ++ [(s, o)]) n'.
Proof.
  rewrite map_app, NoDup_app. intros (_ & Hd & _) Hf (H1 & H2 & _)%seg_elt. apply seg_elt. split; [|split; [|easy]].
  - apply (seg_frame f); [|exact H1]. intros j Hj. rewrite Hf, decide_False; [reflexivity|]. intros ->. now apply (Hd _ Hj); left.
  - now rewrite Hf, decide_True, H2.
Qed.

(** ** Invariant *)

Definition e_at (s : node_lists) (i : Z) : option fib_node_list_elt_t := pool_lookup (fib_node_list_elt_pool s) i.
Definition h_at (s : node_lists) (i : Z) : option fib_node_list_head_t := pool_lookup (fib_node_list_head_pool s) i.

Abbreviation INV := FIB_NODE_INDEX_INVALID.

(** The pools hold the lists [L] and nothing else, but for a detached element [D]. *)
Record linked (D : option Z) (L : gmap Z siblings) (s : node_lists) : Prop := {
  lk_elts : pool_ok (fib_node_list_elt_pool s);
  lk_hds : pool_ok (fib_node_list_head_pool s);
  lk_elts_len : pool_len (fib_node_list_elt_pool s) <= INV;
  lk_heads_len : pool_len (fib_node_list_head_pool s) <= INV;
  lk_heads : forall li, match L !! li with Some l => exists n, h_at s li = Some (mk_head (first_or l INV) n) | None => h_at s li = None end;
  lk_nodup : forall li l, L !! li = Some l -> NoDup (map fst l);
  lk_seg : forall li l, L !! li = Some l -> seg (e_at s) li INV l INV;
  lk_live : forall i e, e_at s i = Some e -> D = Some i \/ exists l, L !! fnle_list e = Some l /\ i ∈ map fst l;
  lk_detached : forall i, D = Some i -> is_Some (e_at s i) /\ forall li l, L !! li = Some l -> i ∉ map fst l
}.

(** The heads count their elements. *)
Definition counts (L : gmap Z siblings) (s : node_lists) : Prop :=
  forall li l, L !! li = Some l -> exists h, h_at s li = Some h /\ fnlh_n_elts h = u32 (Z.of_nat (length l)).

Definition lists_ok (L : gmap Z siblings) (s : node_lists) : Prop := linked None L s /\ counts L s.

(** From [s] to [s'] only the list [li] changes. *)
Record only_list (li : Z) (s s' : node_lists) : Prop := {
  ol_elts : pool_ok (fib_node_list_elt_pool s) -> pool_ok (fib_node_list_elt_pool s');
  ol_hds : pool_ok (fib_node_list_head_pool s) -> pool_ok (fib_node_list_head_pool s');
  ol_elts_len : pool_len (fib_node_list_elt_pool s') = pool_len (fib_node_list_elt_pool s);
  ol_heads_len : pool_len (fib_node_list_head_pool s') = pool_len (fib_node_list_head_pool s);
  ol_lists : forall i, fnle_list <$> e_at s' i = fnle_list <$> e_at s i;
  ol_others : forall i e, e_at s i = Some e -> fnle_list e <> li -> e_at s' i = Some e;
  ol_heads : forall j, j <> li -> h_at s' j = h_at s j
}.

#[export] Instance only_list_refl li : Reflexive (only_list li).
Proof. now split. Qed.

#[export] Instance only_list_trans li : Transitive (only_list li).
Proof.
  intros s1 s2 s3 [A1 A2 A3 A4 A5 A6 A7] [B1 B2 B3 B4 B5 B6 B7]. split; auto; try congruence.
  intros j Hj. now rewrite B7, A7.
Qed.

Lemma put_elt_changed s i e g : e_at s i = Some e -> changed (e_at s) (e_at (put_elt s i (g e))) i g.
Proof. intros E j. unfold e_at, put_elt in *. cbn. rewrite (pool_write_lookup _ _ _ _ _ E). destruct (decide _) as [->|]; [now rewrite E|reflexivity]. Qed.

Lemma put_elt_only li s i e e' : e_at s i = Some e -> fnle_list e = li -> fnle_list e' = li -> only_list li s (put_elt s i e').
Proof.
  intros E Hl Hl'. pose proof (put_elt_changed s i e (fun _ => e') E) as Hc. split; try (intros; cbn; auto using pool_write_ok, pool_write_len; fail).
  - intros j. rewrite Hc. destruct (decide _) as [->|]; [|reflexivity]. rewrite E. cbn. congruence.
  - intros j x Hx Hne. rewrite Hc, decide_False; [exact Hx|]. intros ->. congruence.
Qed.

Lemma put_head_at s i h h' j : h_at s i = Some h -> h_at (put_head s i h') j = if decide (j = i) then Some h' else h_at s j.
Proof. intros E. unfold h_at, put_head in *. cbn. exact (pool_write_lookup _ _ _ _ _ E). Qed.

Lemma put_head_only s li h h' : h_at s li = Some h -> only_list li s (put_head s li h').
Proof.
  intros E. split; try (intros; cbn; auto using pool_write_ok, pool_write_len; fail).
  intros j Hj. now rewrite (put_head_at _ _ _ _ _ E), decide_False.
Qed.

Lemma e_at_get s i e : e_at s i = Some e -> fib_node_list_elt_get s i = Some e.
Proof. apply pool_lookup_elt. Qed.

Lemma h_at_get s i h : h_at s i = Some h -> fib_node_list_head_get s i = Some h.
Proof. apply pool_lookup_elt. Qed.

(** An index of a live element is not the invalid one. *)
Lemma live_valid s i e : pool_len (fib_node_list_elt_pool s) <= INV -> e_at s i = Some e -> (INV =? i) = false.
Proof. intros Hl H%pool_lookup_range. apply Z.eqb_neq. lia. Qed.

(** A change of one list. *)
Lemma linked_change D D' L s s' li l l' n :
  linked D L s -> L !! li = Some l -> only_list li s s' -> h_at s' li = Some (mk_head (first_or l' INV) n) ->
  NoDup (map fst l') -> seg (e_at s') li INV l' INV ->
  (forall i, i ∈ map fst l' \/ D' = Some i <-> i ∈ map fst l \/ D = Some i) ->
  (forall i, D' = Some i -> i ∉ map fst l') ->
  linked D' (<[li := l']> L) s'.
Proof.
  intros [H1 H2 H3 H4 H5 H6 H7 H8 H9] Hl [O1 O2 O3 O4 O5 O6 O7] Hh Hn Hs Hm Hd.
  assert (forall li' l'', (<[li := l']> L) !! li' = Some l'' -> (li' = li /\ l'' = l') \/ (li' <> li /\ L !! li' = Some l'')) as Hlk.
  { intros li' l''. rewrite lookup_insert_Some. intuition. }
  split; auto; try congruence.
  - intros j. destruct (decide (j = li)) as [->|Hne]; [rewrite lookup_insert_eq; eauto|]. rewrite lookup_insert_ne, O7 by easy. apply H5.
  - intros j l'' [[-> ->]|[_ Hj]]%Hlk; eauto.
  - intros j l'' [[-> ->]|[Hne Hj]]%Hlk; [exact Hs|]. apply (seg_frame (e_at s)); [|exact (H7 _ _ Hj)].
    intros i Hi. destruct (seg_live _ _ _ _ _ _ (H7 _ _ Hj) Hi) as (e & He & Hel). rewrite He. apply O6; congruence.
  - intros i e' He'. specialize (O5 i). rewrite He' in O5. destruct (e_at s i) as [e|] eqn:He; [|discriminate]. cbn in O5. injection O5 as O5.
    destruct (decide (fnle_list e = li)) as [Heq|Hne].
    + assert (i ∈ map fst l \/ D = Some i) as [Hi|Hi]%Hm.
      { destruct (H8 _ _ He) as [HD|(l2 & Hl2 & Hi2)]; [now right|]. left. congruence. }
      * right. exists l'. rewrite O5, Heq, lookup_insert_eq. auto.
      * now left.
    + destruct (H8 _ _ He) as [HD|(l2 & Hl2 & Hi2)].
      * destruct (proj2 (Hm i) (or_intror HD)) as [Hi|Hi]; [|now left]. exfalso.
        destruct (seg_live _ _ _ _ _ _ Hs Hi) as (e2 & He2 & Hle2). congruence.
      * right. exists l2. rewrite O5, lookup_insert_ne by easy. auto.
  - intros i Hi. assert (i ∈ map fst l \/ D = Some i) as Hi' by (apply Hm; now right). assert (is_Some (e_at s i)) as [e He].
    { destruct Hi' as [Hi'|Hi']; [|now apply H9]. destruct (seg_live _ _ _ _ _ _ (H7 _ _ Hl) Hi') as (e & He & _). eauto. }
    split. { specialize (O5 i). rewrite He in O5. destruct (e_at s' i); [eauto|discriminate]. }
    intros j l'' [[-> ->]|[Hne Hj]]%Hlk; [auto|]. intros Hin. destruct Hi' as [Hi'|Hi']; [|now apply (proj2 (H9 _ Hi') _ _ Hj)].
    destruct (seg_live _ _ _ _ _ _ (H7 _ _ Hl) Hi') as (e1 & He1 & ?), (seg_live _ _ _ _ _ _ (H7 _ _ Hj) Hin) as (e2 & He2 & ?). congruence.
Qed.

(** The branch that gives the successor of an element a new predecessor. *)
Lemma set_prev_branch s li p p' l :
  pool_len (fib_node_list_elt_pool s) <= INV -> NoDup (map fst l) -> seg (e_at s) li p l INV ->
  exists s',
    (if negb (INV =? first_or l INV) then
       next ← fib_node_list_elt_get s (first_or l INV); Some (put_elt s (first_or l INV) (next <| fnle_prev := p' |>))
     else Some s) = Some s'
    /\ only_list li s s' /\ seg (e_at s') li p' l INV /\ (forall j, j ∉ map fst l -> e_at s' j = e_at s j) /\ forall j, h_at s' j = h_at s j.
Proof.
  intros Hlen Hn Hs. destruct l as [|[i o] l]; cbn [first_or].
  - rewrite Z.eqb_refl. cbn. eexists. split; [reflexivity|]. split; [reflexivity|]. easy.
  - pose proof Hs as [He _]. rewrite (live_valid _ _ _ Hlen He), (e_at_get _ _ _ He). cbn [negb mbind option_bind].
    pose proof (put_elt_changed s i _ (fun e => e <| fnle_prev := p' |>) He) as Hc. eexists. split; [reflexivity|].
    split; [now apply (put_elt_only _ _ _ _ _ He)|]. split; [|split; [|easy]].
    + apply (seg_set_prev (e_at s) _ li p); [exact Hn| |exact Hs]. intros [? ?] ? [= <- <- <-]. exact Hc.
    + intros j Hj. rewrite Hc, decide_False; [reflexivity|]. intros ->. apply Hj. cbn. left.
Qed.

Lemma split_first (l : siblings) i : i ∈ map fst l -> exists l1 o l2, l = l1 ++ (i, o) :: l2.
Proof.
  intros ([j o] & Hj & Hin)%list_elem_of_In%in_map_iff. cbn in Hj. subst j. apply in_split in Hin as (l1 & l2 & ->). eauto.
Qed.

Lemma nodup_middle (l1 : siblings) i o l2 : NoDup (map fst (l1 ++ (i, o) :: l2)) ->
  NoDup (map fst (l1 ++ l2)) /\ (i ∉ map fst (l1 ++ l2)) /\ NoDup (map fst l1) /\ NoDup (map fst l2) /\ (forall j, j ∈ map fst l1 -> j ∉ map fst l2).
Proof.
  rewrite !map_app. cbn [map fst]. rewrite !NoDup_app, NoDup_cons. intros (H1 & H2 & H3 & H4).
  assert (i ∉ map fst l1) by (intros Hx; apply (H2 _ Hx); left).
  assert (forall j, j ∈ map fst l1 -> j ∉ map fst l2) by (intros j Hj Hj'; apply (H2 _ Hj); now right).
  rewrite not_elem_of_app. tauto.
Qed.

(** Extraction detaches an element. *)
Lemma extract_spec L s li l1 i o l2 :
  linked None L s -> L !! li = Some (l1 ++ (i, o) :: l2) ->
  exists s', fib_node_list_extract s li i = Some s' /\ linked (Some i) (<[li := l1 ++ l2]> L) s' /\ only_list li s s'
    /\ (fnle_owner <$> e_at s' i = Some o /\ fnle_list <$> e_at s' i = Some li)
    /\ (fnlh_n_elts <$> h_at s' li = fnlh_n_elts <$> h_at s li).
Proof.
  intros Hk Hl. pose proof (lk_nodup _ _ _ Hk _ _ Hl) as (Hn & Hi & Hn1 & Hn2 & Hd)%nodup_middle.
  pose proof (lk_seg _ _ _ Hk _ _ Hl) as (S1 & He & S2)%seg_elt. pose proof (lk_heads _ _ _ Hk li) as Hh. rewrite Hl in Hh. destruct Hh as [n Hh].
  pose proof (lk_elts_len _ _ _ Hk) as Hlen. unfold fib_node_list_extract. rewrite (e_at_get _ _ _ He). cbn [mbind option_bind fnle_next fnle_prev].
  destruct (set_prev_branch s li i (last_or l1 INV) l2 Hlen Hn2 S2) as (s1 & E1 & O1 & S2' & F1 & Hh1).
  unfold mbind, option_bind in E1 |- *. rewrite E1. clear E1.
  assert (map fst (l1 ++ ((i, o) :: l2)) ≡ₚ i :: map fst (l1 ++ l2)) as Hperm by (rewrite !map_app; cbn; now rewrite Permutation_middle).
  assert (forall j, j ∈ map fst (l1 ++ l2) \/ Some i = Some j <-> j ∈ map fst (l1 ++ (i, o) :: l2) \/ @None Z = Some j) as Hm.
  { intros j. rewrite Hperm, elem_of_cons. split; [intros [?|[= ->]]; auto|intros [[->|?]|?]; [now right|now left|easy]]. }
  assert (forall j, Some i = Some j -> j ∉ map fst (l1 ++ l2)) as Hdet by congruence.
  assert ((i ∉ map fst l1) /\ i ∉ map fst l2) as [Hi1 Hi2] by (rewrite map_app in Hi; set_solver).
  assert (e_at s1 i = e_at s i) as He1 by auto.
  assert (seg (e_at s1) li INV l1 i) as S1' by (apply (seg_frame (e_at s)); [intros j Hj; apply F1, Hd, Hj|exact S1]).
  destruct l1 as [|[q oq] l1 _] using rev_ind; cbn [last_or last].
  - rewrite Z.eqb_refl. cbn [negb]. rewrite <- Hh1 in Hh. rewrite (h_at_get _ _ _ Hh). eexists. split; [reflexivity|].
    assert (only_list li s (put_head s1 li ((mk_head (first_or [] i) n) <| fnlh_head := first_or l2 INV |>))) as Ho.
    { etransitivity; [exact O1|]. exact (put_head_only _ _ _ _ Hh). }
    split; [|split; [exact Ho|split]].
    + eapply (linked_change None (Some i) L s _ li _ ([] ++ l2)); eauto. cbn [app]. now rewrite (put_head_at _ _ _ _ _ Hh), decide_True.
    + change (e_at (put_head s1 li _)) with (e_at s1). rewrite He1, He. auto.
    + rewrite (put_head_at _ _ _ _ _ Hh), decide_True by reflexivity. rewrite <- Hh1, Hh. reflexivity.
  - rewrite last_or_snoc. pose proof S1' as (Sq & Hq & _)%seg_elt. cbn [first_or] in Hq.
    rewrite (live_valid s1 q _ ltac:(now rewrite (ol_elts_len _ _ _ O1)) Hq), (e_at_get _ _ _ Hq). cbn [negb]. eexists. split; [reflexivity|].
    pose proof (put_elt_changed s1 q _ (fun e => e <| fnle_next := first_or l2 INV |>) Hq) as Hc.
    match goal with |- linked _ _ ?x /\ _ => set (s2 := x) in * end.
    assert (only_list li s s2) as Ho by (etransitivity; [exact O1|]; now apply (put_elt_only _ _ _ _ _ Hq)).
    assert (i <> q) as Hiq. { intros ->. apply Hi1. rewrite map_app. cbn. set_solver. }
    assert (e_at s2 i = e_at s i) as He2 by (unfold s2; rewrite Hc, decide_False by easy; exact He1).
    split; [|split; [exact Ho|split]].
    + eapply (linked_change None (Some i) L s s2 li _ ((l1 ++ [(q, oq)]) ++ l2)); eauto.
      * change (h_at s2 li) with (h_at s1 li). rewrite Hh1, Hh. f_equal. f_equal. now rewrite <- !app_assoc, !first_or_app.
      * apply seg_app. rewrite last_or_snoc. split; [exact (seg_set_next _ _ _ _ _ _ _ _ _ Hn1 Hc S1')|].
        rewrite last_or_snoc in S2'. apply (seg_frame (e_at s1)); [|exact S2']. intros j Hj. unfold s2. rewrite Hc, decide_False; [reflexivity|]. intros ->.
        apply (Hd q); [rewrite map_app; cbn; set_solver|exact Hj].
    + rewrite He2, He. auto.
    + change (h_at s2 li) with (h_at s1 li). now rewrite Hh1.
Qed.

(** Insertion attaches the detached element behind [q]. *)
Lemma insert_after_spec L s li l1 q oq l2 i e :
  linked (Some i) L s -> L !! li = Some (l1 ++ (q, oq) :: l2) -> e_at s i = Some e -> fnle_list e = li ->
  exists s', fib_node_list_insert_after s q i = Some s' /\ linked None (<[li := l1 ++ (q, oq) :: (i, fnle_owner e) :: l2]> L) s'
    /\ forall j, h_at s' j = h_at s j.
Proof.
  intros Hk Hl He Hel. pose proof (lk_nodup _ _ _ Hk _ _ Hl) as Hn0. pose proof Hn0 as (Hn & Hq & Hn1 & Hn2 & Hd)%nodup_middle.
  pose proof (lk_seg _ _ _ Hk _ _ Hl) as (S1 & Eq & S2)%seg_elt. pose proof (lk_heads _ _ _ Hk li) as Hh. rewrite Hl in Hh. destruct Hh as [n Hh].
  pose proof (lk_elts_len _ _ _ Hk) as Hlen. destruct (lk_detached _ _ _ Hk i eq_refl) as [_ Hi]. specialize (Hi _ _ Hl).
  assert ((i ∉ map fst l1) /\ i <> q /\ i ∉ map fst l2) as (Hi1 & Hiq & Hi2) by (rewrite map_app in Hi; cbn in Hi; set_solver).
  assert ((q ∉ map fst l1) /\ q ∉ map fst l2) as (Hq1 & Hq2) by (rewrite map_app in Hq; set_solver).
  unfold fib_node_list_insert_after. rewrite (e_at_get _ _ _ Eq), (e_at_get _ _ _ He). cbn [mbind option_bind fnle_next].
  pose proof (put_elt_changed s i _ (fun e => e <| fnle_next := first_or l2 INV |>) He) as C1. set (s1 := put_elt s i (e <| fnle_next := first_or l2 INV |>)) in *.
  assert (only_list li s s1) as O1 by now apply (put_elt_only _ _ _ _ _ He).
  assert (seg (e_at s1) li q l2 INV) as S2a. { apply (seg_frame (e_at s)); [|exact S2]. intros j Hj. rewrite C1, decide_False; congruence. }
  destruct (set_prev_branch s1 li q i l2 ltac:(now rewrite (ol_elts_len _ _ _ O1)) Hn2 S2a) as (s2 & E2 & O2 & S2b & F2 & Hh2).
  unfold mbind, option_bind in E2 |- *. rewrite E2. clear E2.
  assert (e_at s2 q = e_at s q) as Eq2 by (rewrite F2, C1, decide_False; congruence). rewrite Eq in Eq2. rewrite (e_at_get _ _ _ Eq2).
  pose proof (put_elt_changed s2 q _ (fun e => e <| fnle_next := i |>) Eq2) as C3.
  match goal with |- context [put_elt s2 q ?x] => set (s3 := put_elt s2 q x) in * end.
  assert (only_list li s2 s3) as O3 by now apply (put_elt_only _ _ _ _ _ Eq2).
  assert (e_at s3 i = Some (e <| fnle_next := first_or l2 INV |>)) as Ei3 by (unfold s3; rewrite C3, decide_False, F2, C1, decide_True, He by easy; reflexivity).
  rewrite (e_at_get _ _ _ Ei3). pose proof (put_elt_changed s3 i _ (fun e => e <| fnle_prev := q |>) Ei3) as C4. eexists. split; [reflexivity|].
  match goal with |- linked _ _ ?x /\ _ => set (s4 := x) in * end.
  assert (only_list li s3 s4) as O4 by now apply (put_elt_only _ _ _ _ _ Ei3).
  assert (forall j, j <> i -> j <> q -> j ∉ map fst l2 -> e_at s4 j = e_at s j) as F4.
  { intros j H1 H2 H3. unfold s4. rewrite C4, decide_False by easy. unfold s3. now rewrite C3, decide_False, F2, C1, decide_False. }
  split; [|exact Hh2].
  eapply (linked_change (Some i) None L s s4 li _ _ n Hk Hl).
  - etransitivity; [exact O1|]. etransitivity; [exact O2|]. etransitivity; eassumption.
  - change (h_at s4 li) with (h_at s2 li). rewrite Hh2. change (h_at s1 li) with (h_at s li). now rewrite Hh, !first_or_app.
  - rewrite map_app in Hn0 |- *. cbn [map fst] in Hn0 |- *. apply NoDup_app in Hn0 as (N1 & N2 & N3). apply NoDup_app. split; [exact N1|]. split.
    + intros j Hj. specialize (N2 _ Hj). set_solver.
    + apply NoDup_cons in N3 as [N3 N4]. repeat (apply NoDup_cons; split; [set_solver|]). exact N4.
  - rewrite seg_elt. split; [|split].
    + apply (seg_frame (e_at s)); [|exact S1]. intros j Hj. apply F4; [set_solver|set_solver|]. now apply Hd.
    + unfold s4. rewrite C4, decide_False by easy. unfold s3. now rewrite C3, decide_True, Eq2.
    + split; [unfold s4; rewrite C4, decide_True, Ei3 by easy; now rewrite <- Hel|]. apply (seg_frame (e_at s2)); [|exact S2b].
      intros j Hj. unfold s4. rewrite C4, decide_False by congruence. unfold s3. rewrite C3, decide_False by congruence. reflexivity.
  - intros j. rewrite !map_app. cbn. set_solver.
  - easy.
Qed.

(** ** Refinement: operations on sequences *)

Lemma counts_others L s s' li l' : counts L s -> (forall j, j <> li -> h_at s' j = h_at s j) ->
  (exists h, h_at s' li = Some h /\ fnlh_n_elts h = u32 (Z.of_nat (length l'))) -> counts (<[li := l']> L) s'.
Proof.
  intros Hc Ho Hn j l. destruct (decide (j = li)) as [->|Hne]; [rewrite lookup_insert_eq; now intros [= <-]|].
  rewrite lookup_insert_ne, Ho by easy. apply Hc.
Qed.

(** Freeing the detached element. *)
Lemma free_linked L s i : linked (Some i) L s ->
  linked None L (s <| fib_node_list_elt_pool := pool_put_index (fib_node_list_elt_pool s) i |>).
Proof.
  intros [H1 H2 H3 H4 H5 H6 H7 H8 H9]. destruct (H9 i eq_refl) as [[e He] Hi].
  assert (forall j, pool_lookup (pool_put_index (fib_node_list_elt_pool s) i) j = if decide (j = i) then None else e_at s j) as Hp by (intros j; exact (pool_put_lookup _ _ _ j He)).
  split; cbn; auto; try easy.
  - exact (pool_put_ok _ _ _ H1 He).
  - now rewrite pool_put_len.
  - intros li l Hl. apply (seg_frame (e_at s)); [|auto]. intros j Hj. unfold e_at at 1. cbn. rewrite Hp, decide_False; [reflexivity|]. intros ->. exact (Hi _ _ Hl Hj).
  - intros j x. unfold e_at. cbn. rewrite Hp. destruct (decide _) as [|Hne]; [easy|]. intros Hx. destruct (H8 _ _ Hx); [congruence|auto].
Qed.

Lemma remove_spec L s li l1 i o l2 : lists_ok L s -> L !! li = Some (l1 ++ (i, o) :: l2) ->
  exists s', fib_node_list_remove s li i = Some s' /\ lists_ok (<[li := l1 ++ l2]> L) s'.
Proof.
  intros [Hk Hc] Hl. destruct (extract_spec L s li l1 i o l2 Hk Hl) as (s1 & E & Hk1 & Ho & _ & Hn). unfold fib_node_list_remove. rewrite E. cbn [mbind option_bind].
  pose proof (lk_heads _ _ _ Hk1 li) as Hh. rewrite lookup_insert_eq in Hh. destruct Hh as [n Hh]. rewrite (h_at_get _ _ _ Hh). cbn [mbind option_bind]. eexists. split; [reflexivity|].
  match goal with |- context [put_head s1 li ?h] => set (h' := h) end. destruct (Hc _ _ Hl) as (h0 & Hh0 & Hn0). rewrite Hh, Hh0 in Hn. injection Hn as ->.
  split.
  - apply (free_linked _ (put_head s1 li h')). rewrite <- (insert_insert_eq L li (l1 ++ l2) (l1 ++ l2)).
    eapply (linked_change _ _ _ s1 _ li); try exact Hk1; try apply lookup_insert_eq; try (apply put_head_only with (1 := Hh)).
    + now rewrite (put_head_at _ _ _ _ _ Hh), decide_True.
    + eapply (lk_nodup _ _ _ Hk1). apply lookup_insert_eq.
    + apply (lk_seg _ _ _ Hk1). apply lookup_insert_eq.
    + easy.
    + intros j Hj. apply (proj2 (lk_detached _ _ _ Hk1 j Hj) li). apply lookup_insert_eq.
  - match goal with |- counts _ ?x => assert (forall j, h_at x j = if decide (j = li) then Some h' else h_at s1 j) as Hx by (intros j; exact (put_head_at s1 _ _ _ _ Hh)) end.
    eapply counts_others; [exact Hc| |].
    + intros j Hj. rewrite Hx, decide_False by easy. now apply (ol_heads _ _ _ Ho).
    + exists h'. rewrite Hx, decide_True by easy. split; [reflexivity|].
      unfold h'. cbn. rewrite Hn0, !length_app. cbn. unfold u32. rewrite Zminus_mod_idemp_l. f_equal. lia.
Qed.

(** A new element, not linked yet. *)
Lemma create_linked L s li type index : linked None L s -> pool_len (fib_node_list_elt_pool s) < INV ->
  let '(s', i) := fib_node_list_elt_create s li type index in
  linked (Some i) L s' /\ e_at s' i = Some (mk_elt li (mk_node_ptr type index) INV INV) /\ (forall j, h_at s' j = h_at s j) /\ e_at s i = None.
Proof.
  intros [H1 H2 H3 H4 H5 H6 H7 H8 H9] Hroom. unfold fib_node_list_elt_create.
  pose proof (pool_get_write elt_zero (fib_node_list_elt_pool s) (mk_elt li (mk_node_ptr type index) INV INV) H1) as Ha.
  destruct (pool_get _ _) as [ep i]. destruct Ha as [Ha Hi].
  split; [|split; [exact Hi|split; [easy|exact (al_fresh _ _ _ Ha)]]]. split; cbn; auto.
  - exact (al_ok _ _ _ Ha).
  - pose proof (al_len _ _ _ Ha). lia.
  - intros lj l Hl. apply (seg_frame (e_at s)); [|auto]. intros j Hj. destruct (seg_live _ _ _ _ _ _ (H7 _ _ Hl) Hj) as (x & Hx & _).
    rewrite Hx. unfold e_at. cbn. exact (allocated_elt _ _ _ _ _ Ha Hx).
  - intros j x Hx. destruct (decide (j = i)) as [->|Hne]; [now left|]. right. unfold e_at in Hx. cbn in Hx. rewrite (al_other _ _ _ Ha) in Hx by easy.
    destruct (H8 _ _ Hx); [easy|assumption].
  - intros j [= <-]. split; [unfold e_at; cbn; now rewrite Hi|]. intros lj l Hl Hj. destruct (seg_live _ _ _ _ _ _ (H7 _ _ Hl) Hj) as (x & Hx & _).
    unfold e_at in Hx. now rewrite (al_fresh _ _ _ Ha) in Hx.
Qed.

Lemma push_front_spec L s li l type index : lists_ok L s -> L !! li = Some l -> pool_len (fib_node_list_elt_pool s) < INV ->
  exists s' i, fib_node_list_push_front s li type index = Some (s', i)
    /\ lists_ok (<[li := (i, mk_node_ptr type index) :: l]> L) s' /\ e_at s i = None.
Proof.
  intros [Hk Hc] Hl Hroom. unfold fib_node_list_push_front. pose proof (lk_heads _ _ _ Hk li) as Hh. rewrite Hl in Hh. destruct Hh as [n Hh].
  rewrite (h_at_get _ _ _ Hh). cbn [mbind option_bind]. pose proof (create_linked L s li type index Hk Hroom) as Hcr.
  destruct (fib_node_list_elt_create s li type index) as [s1 i]. destruct Hcr as (Hk1 & Ei & Hh1 & Hfresh). rewrite (e_at_get _ _ _ Ei). cbn [mbind option_bind fnlh_head].
  destruct (lk_detached _ _ _ Hk1 i eq_refl) as [_ Hi]. specialize (Hi _ _ Hl). pose proof (lk_nodup _ _ _ Hk1 _ _ Hl) as Hn.
  set (g := fun e => e <| fnle_prev := INV |> <| fnle_next := first_or l INV |>). pose proof (put_elt_changed s1 i _ g Ei) as C2.
  change ((mk_elt _ _ _ _) <| fnle_prev := INV |> <| fnle_next := first_or l INV |>) with (g (mk_elt li (mk_node_ptr type index) INV INV)).
  set (s2 := put_elt s1 i _) in *. assert (only_list li s1 s2) as O2 by now apply (put_elt_only _ _ _ _ _ Ei).
  assert (seg (e_at s2) li INV l INV) as S2. { apply (seg_frame (e_at s1)); [|exact (lk_seg _ _ _ Hk1 _ _ Hl)]. intros j Hj. rewrite C2, decide_False; congruence. }
  destruct (set_prev_branch s2 li INV i l ltac:(rewrite (ol_elts_len _ _ _ O2); apply (lk_elts_len _ _ _ Hk1)) Hn S2) as (s3 & E3 & O3 & S3 & F3 & Hh3).
  unfold mbind, option_bind in E3 |- *. rewrite E3. clear E3. do 2 eexists. split; [reflexivity|].
  assert (h_at s3 li = Some (mk_head (first_or l INV) n)) as Hh3' by (rewrite Hh3; change (h_at s2 li) with (h_at s1 li); now rewrite Hh1).
  match goal with |- lists_ok _ (put_head s3 li ?h) /\ _ => set (h' := h) end. split; [|exact Hfresh]. split.
  - eapply (linked_change _ _ _ s1 _ li _ _ _ Hk1 Hl).
    + etransitivity; [exact O2|]. etransitivity; [exact O3|]. exact (put_head_only _ _ _ _ Hh3').
    + now rewrite (put_head_at _ _ _ _ _ Hh3'), decide_True.
    + cbn. now apply NoDup_cons.
    + split; [|exact S3]. change (e_at (put_head s3 li h') i) with (e_at s3 i). rewrite F3, C2, decide_True, Ei by easy. reflexivity.
    + cbn. set_solver.
    + easy.
  - eapply counts_others; [exact Hc| |].
    + intros j Hj. rewrite (put_head_at _ _ _ _ _ Hh3'), decide_False, Hh3 by easy. change (h_at s2 j) with (h_at s1 j). apply Hh1.
    + exists h'. rewrite (put_head_at _ _ _ _ _ Hh3'), decide_True by easy. split; [reflexivity|]. destruct (Hc _ _ Hl) as (h0 & Hh0 & Hn0).
      rewrite Hh in Hh0. injection Hh0 as <-. cbn in Hn0. unfold h'. cbn. rewrite Hn0. unfold u32. rewrite Zplus_mod_idemp_l. f_equal. lia.
Qed.

Lemma create_list_spec L s : lists_ok L s -> pool_len (fib_node_list_head_pool s) < INV ->
  let '(s', i) := fib_node_list_create s in lists_ok (<[i := []]> L) s' /\ L !! i = None.
Proof.
  intros [[H1 H2 H3 H4 H5 H6 H7 H8 H9] Hc] Hroom. unfold fib_node_list_create.
  pose proof (pool_get_write head_zero (fib_node_list_head_pool s) fib_node_list_head_init H2) as Ha.
  destruct (pool_get _ _) as [hp i]. destruct Ha as [Ha Hi].
  assert (L !! i = None) as HLi. { pose proof (H5 i) as Hx. destruct (L !! i); [|reflexivity]. destruct Hx as [n Hx]. unfold h_at in Hx. now rewrite (al_fresh _ _ _ Ha) in Hx. }
  match goal with |- lists_ok _ ?x /\ _ => set (s' := x) end. assert (h_at s' i = Some fib_node_list_head_init) as Hhi by exact Hi.
  assert (forall j, j <> i -> h_at s' j = h_at s j) as Hho by exact (al_other _ _ _ Ha).
  assert (forall j l, (<[i := []]> L) !! j = Some l -> (j = i /\ l = []) \/ (j <> i /\ L !! j = Some l)) as Hlk.
  { intros j l. rewrite lookup_insert_Some. intuition. }
  split; [|exact HLi]. split.
  - split; auto.
    + exact (al_ok _ _ _ Ha).
    + pose proof (al_len _ _ _ Ha). cbn. lia.
    + intros j. destruct (decide (j = i)) as [->|Hne]; [rewrite lookup_insert_eq; exists 0; exact Hhi|]. rewrite lookup_insert_ne, Hho by easy. apply H5.
    + intros j l [[-> ->]|[_ Hj]]%Hlk; [constructor|eauto].
    + intros j l [[-> ->]|[_ Hj]]%Hlk; [easy|]. exact (H7 _ _ Hj).
    + intros j e He. destruct (H8 _ _ He) as [|(l & Hl & Hj)]; [easy|]. right. exists l. rewrite lookup_insert_ne by congruence. auto.
    + easy.
  - eapply counts_others; [exact Hc|exact Hho|]. eexists. split; [exact Hhi|reflexivity].
Qed.

Lemma destroy_spec L s li : lists_ok L s -> L !! li = Some [] ->
  lists_ok (base.delete li L) (fst (fib_node_list_destroy s li)) /\ snd (fib_node_list_destroy s li) = INV.
Proof.
  intros [[H1 H2 H3 H4 H5 H6 H7 H8 H9] Hc] Hl. unfold fib_node_list_destroy. pose proof (H5 li) as Hh. rewrite Hl in Hh. destruct Hh as [n Hh].
  replace (INV =? li) with false by (symmetry; apply Z.eqb_neq; pose proof (pool_lookup_range _ _ _ Hh); lia). cbn [fst snd]. split; [|reflexivity].
  match goal with |- lists_ok _ ?x => set (s' := x) end.
  assert (forall j, h_at s' j = if decide (j = li) then None else h_at s j) as Hho by (intros j; exact (pool_put_lookup _ _ _ j Hh)).
  assert (forall j l, base.delete li L !! j = Some l -> j <> li /\ L !! j = Some l) as Hlk by (intros j l; rewrite lookup_delete_Some; intuition).
  split.
  - split; auto.
    + exact (pool_put_ok _ _ _ H2 Hh).
    + cbn. now rewrite pool_put_len.
    + intros j. rewrite Hho. destruct (decide (j = li)) as [->|Hne]; [now rewrite lookup_delete_eq|]. rewrite lookup_delete_ne by easy. apply H5.
    + intros j l [_ Hj]%Hlk. eauto.
    + intros j l [_ Hj]%Hlk. exact (H7 _ _ Hj).
    + intros j e He. destruct (H8 _ _ He) as [|(l & Hl' & Hj)]; [easy|]. right. exists l. split; [|exact Hj]. rewrite lookup_delete_ne; [exact Hl'|].
      intros Heq. rewrite <- Heq, Hl in Hl'. injection Hl' as <-. set_solver.
    + easy.
  - intros j l [Hne Hj]%Hlk. rewrite Hho, decide_False by easy. exact (Hc _ _ Hj).
Qed.

Lemma elt_in_list L s li l1 i o l2 : linked None L s -> L !! li = Some (l1 ++ (i, o) :: l2) ->
  e_at s i = Some (mk_elt li o (first_or l2 INV) (last_or l1 INV)).
Proof. intros Hk Hl. now pose proof (lk_seg _ _ _ Hk _ _ Hl) as (_ & He & _)%seg_elt. Qed.

Lemma elt_remove_spec L s li l1 i o l2 : lists_ok L s -> L !! li = Some (l1 ++ (i, o) :: l2) ->
  exists s', fib_node_list_elt_remove s i = Some s' /\ lists_ok (<[li := l1 ++ l2]> L) s'.
Proof.
  intros H Hl. unfold fib_node_list_elt_remove. rewrite (e_at_get _ _ _ (elt_in_list _ _ _ _ _ _ _ (proj1 H) Hl)). now apply remove_spec with o.
Qed.

Lemma advance_spec L s li l1 i o l2 : lists_ok L s -> L !! li = Some (l1 ++ (i, o) :: l2) ->
  match l2 with
  | [] => fib_node_list_advance s i = Some (s, false)
  | q :: l2 => exists s', fib_node_list_advance s i = Some (s', true) /\ lists_ok (<[li := l1 ++ q :: (i, o) :: l2]> L) s'
  end.
Proof.
  intros [Hk Hc] Hl. pose proof (elt_in_list _ _ _ _ _ _ _ Hk Hl) as He. unfold fib_node_list_advance. rewrite (e_at_get _ _ _ He). cbn [mbind option_bind fnle_next fnle_list].
  destruct l2 as [|[q oq] l2]; [reflexivity|]. cbn [first_or].
  pose proof (elt_in_list L s li (l1 ++ [(i, o)]) q oq l2 Hk ltac:(now rewrite <- app_assoc)) as Hq. rewrite (live_valid _ _ _ (lk_elts_len _ _ _ Hk) Hq). cbn [negb].
  destruct (extract_spec L s li l1 i o ((q, oq) :: l2) Hk Hl) as (s1 & -> & Hk1 & O1 & [Ho Hli] & Hn). cbn [mbind option_bind].
  destruct (e_at s1 i) as [e|] eqn:Ei; [|discriminate]. injection Ho as Ho. injection Hli as Hli.
  destruct (insert_after_spec _ s1 li l1 q oq l2 i e Hk1 (lookup_insert_eq _ _ _) Ei Hli) as (s2 & -> & Hk2 & Hh2). rewrite Ho, insert_insert_eq in Hk2. cbn. eexists. split; [reflexivity|].
  split; [exact Hk2|]. eapply counts_others; [exact Hc| |].
  - intros j Hj. rewrite Hh2. now apply (ol_heads _ _ _ O1).
  - destruct (Hc _ _ Hl) as (h & Hh & Hlen). rewrite Hh in Hn. destruct (h_at s1 li) as [h1|] eqn:Hh1; [|discriminate]. injection Hn as Hn.
    exists h1. rewrite Hh2. split; [exact Hh1|]. rewrite Hn, Hlen, !length_app. reflexivity.
Qed.

(** A list is no longer than the pool. *)
Lemma list_length L s li l : linked None L s -> L !! li = Some l -> Z.of_nat (length l) <= pool_len (fib_node_list_elt_pool s).
Proof.
  intros Hk Hl. assert (map fst l ⊆+ seqZ 0 (pool_len (fib_node_list_elt_pool s))) as Hs%submseteq_length.
  { apply NoDup_submseteq; [exact (lk_nodup _ _ _ Hk _ _ Hl)|]. intros i Hi.
    destruct (seg_live _ _ _ _ _ _ (lk_seg _ _ _ Hk _ _ Hl) Hi) as (e & He & _). apply pool_lookup_range in He. apply elem_of_seqZ. lia. }
  rewrite length_map, length_seqZ in Hs. unfold pool_len in *. lia.
Qed.

Lemma list_valid L s li l : linked None L s -> L !! li = Some l -> (INV =? li) = false.
Proof.
  intros Hk Hl. pose proof (lk_heads _ _ _ Hk li) as Hh. rewrite Hl in Hh. destruct Hh as [n Hh%pool_lookup_range].
  apply Z.eqb_neq. pose proof (lk_heads_len _ _ _ Hk). lia.
Qed.

Lemma get_size_spec L s li l : lists_ok L s -> L !! li = Some l -> fib_node_list_get_size s li = Some (Z.of_nat (length l)).
Proof.
  intros [Hk Hc] Hl. unfold fib_node_list_get_size. rewrite (list_valid _ _ _ _ Hk Hl). destruct (Hc _ _ Hl) as (h & Hh & Hn).
  rewrite (h_at_get _ _ _ Hh). cbn. rewrite Hn, u32_small; [reflexivity|]. pose proof (list_length _ _ _ _ Hk Hl). pose proof (lk_elts_len _ _ _ Hk).
  unfold FIB_NODE_INDEX_INVALID in *. unfold is_u. lia.
Qed.

Lemma get_front_spec L s li l : lists_ok L s -> L !! li = Some l -> fib_node_list_get_front s li = Some (snd <$> head l).
Proof.
  intros H Hl. unfold fib_node_list_get_front. rewrite (get_size_spec _ _ _ _ H Hl). cbn [mbind option_bind]. destruct H as [Hk _].
  destruct l as [|[i o] l]; [reflexivity|]. cbn [length]. replace (Z.of_nat (S (length l)) =? 0) with false by (symmetry; apply Z.eqb_neq; lia).
  pose proof (lk_heads _ _ _ Hk li) as Hh. rewrite Hl in Hh. destruct Hh as [n Hh]. rewrite (h_at_get _ _ _ Hh). cbn [mbind option_bind fnlh_head first_or].
  rewrite (e_at_get _ _ _ (elt_in_list _ _ _ [] _ _ _ Hk Hl)). reflexivity.
Qed.

Lemma get_next_spec L s li l1 i o l2 : lists_ok L s -> L !! li = Some (l1 ++ (i, o) :: l2) ->
  fib_node_list_elt_get_next s i = Some (snd <$> head l2).
Proof.
  intros [Hk _] Hl. unfold fib_node_list_elt_get_next. rewrite (e_at_get _ _ _ (elt_in_list _ _ _ _ _ _ _ Hk Hl)). cbn [mbind option_bind fnle_next].
  destruct l2 as [|[q oq] l2]; [reflexivity|]. cbn [first_or].
  pose proof (elt_in_list L s li (l1 ++ [(i, o)]) q oq l2 Hk ltac:(now rewrite <- app_assoc)) as Hq.
  rewrite (live_valid _ _ _ (lk_elts_len _ _ _ Hk) Hq), (e_at_get _ _ _ Hq). reflexivity.
Qed.

(** ** The walk *)

(** The elements can be followed to the end. *)
Fixpoint chain (f : Z -> option fib_node_list_elt_t) (l : siblings) : Prop :=
  match l with
  | [] => True
  | (s, o) :: l' => (exists e, f s = Some e /\ fnle_owner e = o /\ fnle_next e = first_or l' INV) /\ chain f l'
  end.

Lemma seg_chain f li p l : seg f li p l INV -> chain f l.
Proof. revert p. induction l as [|[s o] l IH]; intros p; [easy|]. intros [H1 H2]. split; [|eauto]. eexists. split; [exact H1|]. easy. Qed.

Section WalkSpec.
Context {A : Type} (lists : A -> node_lists) (fn : fib_node_ptr_t -> A -> option (A * bool)).

(** The callback on one owner after the other, until it stops. *)
Fixpoint walk_owners (os : list fib_node_ptr_t) (a : A) : option A :=
  match os with
  | [] => Some a
  | o :: os => '(a, continue) ← fn o a; if (continue : bool) then walk_owners os a else Some a
  end.

(** A callback may change the lists but for the rest of the walk. *)
Hypothesis fn_safe : forall s o l a a' c, pool_len (fib_node_list_elt_pool (lists a)) <= INV -> chain (e_at (lists a)) ((s, o) :: l) -> fn o a = Some (a', c) ->
  chain (e_at (lists a')) l /\ pool_len (fib_node_list_elt_pool (lists a')) <= INV.

Lemma walk_from_spec l : forall fuel a, (length l <= fuel)%nat -> pool_len (fib_node_list_elt_pool (lists a)) <= INV -> chain (e_at (lists a)) l ->
  walk_from lists fn fuel (first_or l INV) a = walk_owners (map snd l) a.
Proof.
  induction l as [|[s o] l IH]; intros fuel a Hf Hlen Hc; [now destruct fuel|]. pose proof Hc as ((e & He & Ho & Hn) & _).
  destruct fuel as [|fuel]; cbn in Hf; [lia|]. cbn [first_or walk_from map snd walk_owners]. rewrite (live_valid _ _ _ Hlen He), (e_at_get _ _ _ He).
  cbn [mbind option_bind]. rewrite Ho. destruct (fn o a) as [[a' c]|] eqn:Ef; [|reflexivity]. cbn. destruct c; [|reflexivity].
  destruct (fn_safe _ _ _ _ _ _ Hlen Hc Ef) as [Hc' Hlen']. rewrite Hn. apply IH; [lia|assumption|assumption].
Qed.

Lemma walk_spec L a li l : lists_ok L (lists a) -> L !! li = Some l -> fib_node_list_walk lists fn li a = walk_owners (map snd l) a.
Proof.
  intros [Hk _] Hl. unfold fib_node_list_walk. rewrite (list_valid _ _ _ _ Hk Hl). pose proof (lk_heads _ _ _ Hk li) as Hh. rewrite Hl in Hh. destruct Hh as [n Hh].
  rewrite (h_at_get _ _ _ Hh). cbn [mbind option_bind fnlh_head]. apply walk_from_spec.
  - pose proof (list_length _ _ _ _ Hk Hl). lia.
  - apply (lk_elts_len _ _ _ Hk).
  - exact (seg_chain _ _ _ _ (lk_seg _ _ _ Hk _ _ Hl)).
Qed.

End WalkSpec.

(** ** Histories *)

Inductive node_list_op :=
  | OpCreate
  | OpDestroy (list : Z)
  | OpPush (list type index : Z)
  | OpRemove (sibling : Z)
  | OpAdvance (sibling : Z).

(** The lists after an operation and the index it returns. *)
Definition exec (s : node_lists) (op : node_list_op) : option (node_lists * Z) :=
  match op with
  | OpCreate => Some (fib_node_list_create s)
  | OpDestroy list => Some (fib_node_list_destroy s list)
  | OpPush list type index => fib_node_list_push_front s list type index
  | OpRemove sibling => s' ← fib_node_list_elt_remove s sibling; Some (s', 0)
  | OpAdvance sibling => '(s', moved) ← fib_node_list_advance s sibling; Some (s', Z.b2z moved)
  end.

(** What the operations do to sequences. *)
Inductive spec_step : node_list_op -> Z -> gmap Z siblings -> gmap Z siblings -> Prop :=
  | spec_create L i : L !! i = None -> spec_step OpCreate i L (<[i := []]> L)
  | spec_destroy L li : L !! li = Some [] -> spec_step (OpDestroy li) INV L (base.delete li L)
  | spec_push L li l i type index : L !! li = Some l -> (forall lj l', L !! lj = Some l' -> i ∉ map fst l') ->
      spec_step (OpPush li type index) i L (<[li := (i, mk_node_ptr type index) :: l]> L)
  | spec_remove L li l1 i o l2 : L !! li = Some (l1 ++ (i, o) :: l2) -> spec_step (OpRemove i) 0 L (<[li := l1 ++ l2]> L)
  | spec_advance L li l1 i o q l2 : L !! li = Some (l1 ++ (i, o) :: q :: l2) ->
      spec_step (OpAdvance i) 1 L (<[li := l1 ++ q :: (i, o) :: l2]> L)
  | spec_advance_end L li l1 i o : L !! li = Some (l1 ++ [(i, o)]) -> spec_step (OpAdvance i) 0 L L.

(** Lists are used while they exist and destroyed when empty, siblings while they
    are in a list, and the pools do not exceed the range of indices. *)
Definition may (L : gmap Z siblings) (s : node_lists) (op : node_list_op) : Prop :=
  match op with
  | OpCreate => pool_len (fib_node_list_head_pool s) < INV
  | OpDestroy list => L !! list = Some []
  | OpPush list _ _ => is_Some (L !! list) /\ pool_len (fib_node_list_elt_pool s) < INV
  | OpRemove i | OpAdvance i => exists li l, L !! li = Some l /\ i ∈ map fst l
  end.

Inductive lists_run : gmap Z siblings -> node_lists -> Prop :=
  | run_empty : lists_run ∅ node_lists_empty
  | run_op L s op s' r L' : lists_run L s -> may L s op -> exec s op = Some (s', r) -> spec_step op r L L' -> lists_run L' s'.

Lemma empty_lists_ok : lists_ok ∅ node_lists_empty.
Proof.
  split; [|intros li l; now rewrite lookup_empty].
  split; try easy; try apply pool_empty_ok; intros; try (now rewrite lookup_empty in *); try (unfold e_at in *; cbn in *; now rewrite pool_empty_lookup in *).
  rewrite lookup_empty. unfold h_at. cbn. apply pool_empty_lookup.
Qed.

Lemma list_step_ok L s op s' r L' : lists_ok L s -> may L s op -> exec s op = Some (s', r) -> spec_step op r L L' -> lists_ok L' s'.
Proof.
  intros H Hmay E Hs. destruct Hs as [L i Hi|L li Hl|L li l i type index Hl Hf|L li l1 i o l2 Hl|L li l1 i o q l2 Hl|L li l1 i o Hl]; cbn in Hmay, E.
  - pose proof (create_list_spec _ _ H Hmay) as Hc. destruct (fib_node_list_create s) as [s1 j]. injection E as <- <-. apply Hc.
  - destruct (destroy_spec _ _ _ H Hl) as [Hd _]. destruct (fib_node_list_destroy s li). now injection E as <- _.
  - destruct Hmay as [_ Hroom]. destruct (push_front_spec _ _ _ _ type index H Hl Hroom) as (s1 & j & E1 & H1 & _). rewrite E1 in E. now injection E as <- <-.
  - destruct (elt_remove_spec _ _ _ _ _ _ _ H Hl) as (s1 & E1 & H1). rewrite E1 in E. now injection E as <-.
  - destruct (advance_spec _ _ _ _ _ _ _ H Hl) as (s1 & E1 & H1). rewrite E1 in E. now injection E as <-.
  - pose proof (advance_spec _ _ _ _ _ _ _ H Hl) as E1. cbn in E1. rewrite E1 in E. now injection E as <-.
Qed.

Lemma list_step_returns L s op : lists_ok L s -> may L s op -> exists s' r L', exec s op = Some (s', r) /\ spec_step op r L L'.
Proof.
  intros H Hmay. destruct op as [|li|li type index|i|i]; cbn in Hmay |- *.
  - pose proof (create_list_spec _ _ H Hmay) as Hc. destruct (fib_node_list_create s) as [s1 j]. do 3 eexists. split; [reflexivity|]. now constructor.
  - destruct (destroy_spec _ _ _ H Hmay) as [_ Hd]. destruct (fib_node_list_destroy s li) as [s1 j]. cbn in Hd. subst j. do 3 eexists. split; [reflexivity|]. now constructor.
  - destruct Hmay as [[l Hl] Hroom]. destruct (push_front_spec _ _ _ _ type index H Hl Hroom) as (s1 & j & E1 & H1 & Hf). do 3 eexists. split; [exact E1|].
    constructor; [exact Hl|]. intros lj l' Hl' Hj. destruct (seg_live _ _ _ _ _ _ (lk_seg _ _ _ (proj1 H) _ _ Hl') Hj) as (e & He & _). congruence.
  - destruct Hmay as (li & l & Hl & (l1 & o & l2 & ->)%split_first). destruct (elt_remove_spec _ _ _ _ _ _ _ H Hl) as (s1 & -> & H1). do 3 eexists. split; [reflexivity|]. eapply spec_remove, Hl.
  - destruct Hmay as (li & l & Hl & (l1 & o & l2 & ->)%split_first). pose proof (advance_spec _ _ _ _ _ _ _ H Hl) as Ha. destruct l2 as [|q l2].
    + rewrite Ha. do 3 eexists. split; [reflexivity|]. eapply spec_advance_end, Hl.
    + destruct Ha as (s1 & -> & _). do 3 eexists. split; [reflexivity|]. eapply spec_advance, Hl.
Qed.

Lemma lists_run_ok L s : lists_run L s -> lists_ok L s.
Proof. induction 1 as [|L s op s' r L' _ IH Hmay E Hs]; [apply empty_lists_ok|exact (list_step_ok _ _ _ _ _ _ IH Hmay E Hs)]. Qed.

(** The owners that a walk visits. *)
Definition visit (o : fib_node_ptr_t) (a : node_lists * list fib_node_ptr_t) : option (node_lists * list fib_node_ptr_t * bool) :=
  Some ((fst a, snd a ++ [o]), true).

Lemma walk_visits os a : walk_owners visit os a = Some (fst a, snd a ++ os).
Proof.
  revert a. induction os as [|o os IH]; intros [s v]; cbn; [now rewrite app_nil_r|]. rewrite IH. cbn. now rewrite <- app_assoc.
Qed.

Lemma visits_spec L s li l : lists_ok L s -> L !! li = Some l -> fib_node_list_walk fst visit li (s, []) = Some (s, map snd l).
Proof.
  intros H Hl. rewrite (walk_spec fst visit) with (L := L) (l := l); [apply walk_visits| |exact H|exact Hl].
  intros i o l' a a' c Hlen Hc [= <- _]. split; [apply Hc|exact Hlen].
Qed.

(** C20 Lists of FIB nodes are sequences: through every history of creations,
    insertions at the front, removals, steps toward the tail and destructions, the
    linked elements of the two pools represent the sequences that these operations
    give; every operation returns, without an access outside of the pools; size,
    front and the owners that a walk visits are those of the sequence; and no
    element is left in the pool outside of the lists. *)
Theorem node_lists_refine_sequences L s :
  lists_run L s ->
  (forall op, may L s op -> exists s' r L', exec s op = Some (s', r) /\ spec_step op r L L')
  /\ (forall li l, L !! li = Some l ->
        fib_node_list_get_size s li = Some (Z.of_nat (length l))
        /\ fib_node_list_get_front s li = Some (snd <$> head l)
        /\ fib_node_list_walk fst visit li (s, []) = Some (s, map snd l)
        /\ forall l1 i o l2, l = l1 ++ (i, o) :: l2 -> fib_node_list_elt_get_next s i = Some (snd <$> head l2))
  /\ (forall i e, pool_lookup (fib_node_list_elt_pool s) i = Some e -> exists l, L !! fnle_list e = Some l /\ i ∈ map fst l).
Proof.
  intros H%lists_run_ok. split; [|split].
  - intros op. apply list_step_returns, H.
  - intros li l Hl. split; [now apply get_size_spec with L|]. split; [now apply get_front_spec with L|]. split; [now apply visits_spec with L|].
    intros l1 i o l2 ->. now apply get_next_spec with L li l1 o.
  - intros i e He. destruct (lk_live _ _ _ (proj1 H) _ _ He) as [|]; [easy|assumption].
Qed.

(** Two elements, the front one moved behind the other. *)
Lemma node_lists_refine_sequences_witness :
  exists L s, lists_run L s /\ L !! 0 = Some [(0, mk_node_ptr 0 10); (1, mk_node_ptr 0 11)]
    /\ fib_node_list_walk fst visit 0 (s, []) = Some (s, [mk_node_ptr 0 10; mk_node_ptr 0 11]).
Proof.
  assert (exists L s, lists_run L s /\ L !! 0 = Some [(0, mk_node_ptr 0 10); (1, mk_node_ptr 0 11)]) as (L & s & Hs & Hl).
  { do 2 eexists. split.
    { eapply (run_op _ _ (OpAdvance 1)).
      { eapply (run_op _ _ (OpPush 0 0 11)).
        { eapply (run_op _ _ (OpPush 0 0 10)).
          { eapply (run_op _ _ OpCreate); [apply run_empty|now vm_compute|vm_compute; reflexivity|]. apply spec_create. reflexivity. }
          { split; [eexists; reflexivity|now vm_compute]. }
          { vm_compute. reflexivity. }
          { eapply spec_push; [reflexivity|]. intros lj l' [[_ <-]|[_ ?]]%lookup_insert_Some; [cbn; set_solver|now rewrite lookup_empty in *]. } }
        { split; [eexists; reflexivity|now vm_compute]. }
        { vm_compute. reflexivity. }
        { eapply spec_push; [reflexivity|]. intros lj l'. rewrite insert_insert_eq. intros [[_ <-]|[_ ?]]%lookup_insert_Some; [cbn; set_solver|now rewrite lookup_empty in *]. } }
      { exists 0. eexists. split; [reflexivity|]. cbn. set_solver. }
      { vm_compute. reflexivity. }
      { eapply (spec_advance _ 0 []). reflexivity. } }
    reflexivity. }
  exists L, s. split; [exact Hs|]. split; [exact Hl|]. exact (proj1 (proj2 (proj2 (proj1 (proj2 (node_lists_refine_sequences _ _ Hs)) 0 _ Hl)))).
Defined.
