(* ===== verification/LoadBalanceMap.v ===== *)
(** * Load-balance maps (src/vnet/dpo/load_balance_map.c, load_balance_map.h)

    A map translates the bucket that a flow hashes to into a bucket of a path that
    is resolved, so that the loss of a path changes one map and not every
    load-balance over the path.  Maps are shared: the database finds the map of a
    set of paths by a 32-bit hash of their indices, and a list per path finds the
    maps that use it.

    Whether a path is resolved ([fib_path_is_resolved]) is an argument.  A result
    [None] is an access outside of a vector or a pool. *)

From stdpp Require Import gmap.
From S2P Require Import Prelude Pool Float Dpo LbNormalize FibNodeList.

Record load_balance_map_path_t := mk_map_path {
  lbmp_index : Z;
  lbmp_sibling : Z;
  lbmp_weight : Z;
  lbmp_flags : Z
}.

Record load_balance_map_t := mk_map {
  lbm_buckets : list Z;
  lbm_paths : list load_balance_map_path_t;
  lbm_sum_of_norm_weights : Z;
  lbm_locks : Z
}.

#[export] Instance map_path_eta : Eta load_balance_map_path_t :=
  fun p => mk_map_path (lbmp_index p) (lbmp_sibling p) (lbmp_weight p) (lbmp_flags p).
#[export] Instance map_eta : Eta load_balance_map_t := fun m => mk_map (lbm_buckets m) (lbm_paths m) (lbm_sum_of_norm_weights m) (lbm_locks m).

Definition map_zero : load_balance_map_t := mk_map [] [] 0 0.

(** The pool of maps, the database by hash, the lists of maps by path. *)
Record lb_maps := mk_lb_maps {
  load_balance_map_pool : pool load_balance_map_t;
  load_balance_map_db : gmap Z Z;
  lb_maps_by_path_index : gmap Z Z;
  lbm_lists : node_lists
}.

#[export] Instance lb_maps_eta : Eta lb_maps :=
  fun s => mk_lb_maps (load_balance_map_pool s) (load_balance_map_db s) (lb_maps_by_path_index s) (lbm_lists s).

(** [load_balance_map_module_init]. *)
Definition load_balance_map_module_init : lb_maps := mk_lb_maps pool_empty ∅ ∅ node_lists_empty.

Definition load_balance_map_get (s : lb_maps) (lbmi : Z) : option load_balance_map_t := pool_elt_at_index (load_balance_map_pool s) lbmi.
Definition put_map (s : lb_maps) (lbmi : Z) (m : load_balance_map_t) : lb_maps :=
  s <| load_balance_map_pool := pool_write (load_balance_map_pool s) lbmi m |>.

(** ** The hash of a set of paths *)

Definition hash_mix_step (s0 s1 s2 : Z) (v : Z * Z * Z) : Z * Z * Z :=
  let '(a, b, c) := v in
  let a := Z.lxor (u32 (a - u32 (b + c))) (Z.shiftr c s0) in
  let b := Z.lxor (u32 (b - u32 (c + a))) (u32 (Z.shiftl a s1)) in
  let c := Z.lxor (u32 (c - u32 (a + b))) (Z.shiftr b s2) in
  (a, b, c).

Definition hash_mix32 (v : Z * Z * Z) : Z * Z * Z :=
  hash_mix_step 3 10 15 (hash_mix_step 12 16 5 (hash_mix_step 13 8 13 v)).

Fixpoint mix_paths (indices : list Z) (old_lbm_hash new_lbm_hash : Z) : Z :=
  match indices with
  | [] => new_lbm_hash
  | i :: indices => let '(_, old_lbm_hash, new_lbm_hash) := hash_mix32 (i, old_lbm_hash, new_lbm_hash) in mix_paths indices old_lbm_hash new_lbm_hash
  end.

Definition hash_indices (indices : list Z) : Z := let n := Z.of_nat (length indices) in mix_paths indices n n.

Definition load_balance_map_hash (m : load_balance_map_t) : Z := hash_indices (map lbmp_index (lbm_paths m)).

(** ** The database

    Keys of the table are equal when the hashes of their maps are
    ([load_balance_map_db_hash_key_equal]): the table is a map from hashes. *)

Definition load_balance_map_db_find (s : lb_maps) (m : load_balance_map_t) : Z :=
  default INV (load_balance_map_db s !! load_balance_map_hash m).

Definition FIB_NODE_TYPE_FIRST : Z := 0.

(** Insertion of map [lbmi] into the list of each path; returns the paths with
    their siblings. *)
Fixpoint insert_by_path (by_path : gmap Z Z) (lists : node_lists) (lbmi : Z) (paths : list load_balance_map_path_t)
  : option (gmap Z Z * node_lists * list load_balance_map_path_t) :=
  match paths with
  | [] => Some (by_path, lists, [])
  | p :: paths =>
      let '(by_path, lists, list) :=
        match by_path !! lbmp_index p with
        | None => let '(lists, list) := fib_node_list_create lists in (<[lbmp_index p := list]> by_path, lists, list)
        | Some list => (by_path, lists, list)
        end in
      '(lists, sibling) ← fib_node_list_push_front lists list FIB_NODE_TYPE_FIRST lbmi;
      '(by_path, lists, paths) ← insert_by_path by_path lists lbmi paths;
      Some (by_path, lists, p <| lbmp_sibling := sibling |> :: paths)
  end.

Definition load_balance_map_db_insert (s : lb_maps) (lbmi : Z) : option lb_maps :=
  lbm ← load_balance_map_get s lbmi;
  let s := s <| load_balance_map_db := <[load_balance_map_hash lbm := lbmi]> (load_balance_map_db s) |> in
  '(by_path, lists, paths) ← insert_by_path (lb_maps_by_path_index s) (lbm_lists s) lbmi (lbm_paths lbm);
  Some (put_map (s <| lb_maps_by_path_index := by_path |> <| lbm_lists := lists |>) lbmi (lbm <| lbm_paths := paths |>)).

Fixpoint remove_by_path (by_path : gmap Z Z) (lists : node_lists) (paths : list load_balance_map_path_t) : option node_lists :=
  match paths with
  | [] => Some lists
  | p :: paths =>
      list ← by_path !! lbmp_index p;
      lists ← fib_node_list_remove lists list (lbmp_sibling p);
      remove_by_path by_path lists paths
  end.

Definition load_balance_map_db_remove (s : lb_maps) (lbmi : Z) : option lb_maps :=
  lbm ← load_balance_map_get s lbmi;
  let s := s <| load_balance_map_db := base.delete (load_balance_map_hash lbm) (load_balance_map_db s) |> in
  lists ← remove_by_path (lb_maps_by_path_index s) (lbm_lists s) (lbm_paths lbm);
  Some (s <| lbm_lists := lists |>).

(** ** Filling a map *)

Section Fill.
Variable resolved : Z -> bool.

(** The buckets of the paths that are usable, from [bucket] on. *)
Fixpoint usable_buckets (paths : list load_balance_map_path_t) (bucket : Z) : list Z :=
  match paths with
  | [] => []
  | p :: paths =>
      (if resolved (lbmp_index p) then map u16 (seqZ bucket (lbmp_weight p)) else []) ++ usable_buckets paths (bucket + lbmp_weight p)
  end.

(** [n] times [tmp_buckets[jj]; jj = (jj + 1) % vec_len (tmp_buckets)]. *)
Fixpoint cycle (tmp_buckets : list Z) (n : nat) (jj : Z) : list Z * Z :=
  match n with
  | O => ([], jj)
  | S n =>
      let '(l, jj') := cycle tmp_buckets n ((jj + 1) mod Z.of_nat (length tmp_buckets)) in
      (default 0 (vec_elt tmp_buckets jj) :: l, jj')
  end.

(** What the second pass writes, from [bucket] on. *)
Fixpoint stripe (tmp_buckets : list Z) (paths : list load_balance_map_path_t) (bucket jj : Z) : list Z :=
  match paths with
  | [] => []
  | p :: paths =>
      let '(l, jj) := if resolved (lbmp_index p) then (map u16 (seqZ bucket (lbmp_weight p)), jj)
                      else cycle tmp_buckets (Z.to_nat (lbmp_weight p)) jj in
      l ++ stripe tmp_buckets paths (bucket + lbmp_weight p) jj
  end.

(** Writes [l] over the front of the vector [v]. *)
Definition write_front (v l : list Z) : option (list Z) :=
  if (length v <? length l)%nat then None else Some (l ++ drop (length l) v).

Definition load_balance_map_fill (m : load_balance_map_t) : option load_balance_map_t :=
  let n_buckets := length (lbm_buckets m) in
  let tmp_buckets := usable_buckets (lbm_paths m) 0 in
  if (n_buckets <? length tmp_buckets)%nat then None
  else if (length tmp_buckets =? n_buckets)%nat then Some (m <| lbm_buckets := tmp_buckets |>)
  else if (length tmp_buckets =? 0)%nat then Some (m <| lbm_buckets := map u16 (seqZ 0 (Z.of_nat n_buckets)) |>)
  else
    buckets ← write_front (lbm_buckets m) (stripe tmp_buckets (lbm_paths m) 0 0);
    Some (m <| lbm_buckets := buckets |>).

(** ** Operations *)

(** [load_balance_map_alloc]: [vec_validate (lbm->lbm_paths, vec_len (paths) - 1)]
    needs a path. *)
Definition load_balance_map_alloc (s : lb_maps) (paths : list load_balance_path_t) : option (lb_maps * Z) :=
  match paths with
  | [] => None
  | _ =>
      let '(mp, i) := pool_get map_zero (load_balance_map_pool s) in
      Some (put_map (s <| load_balance_map_pool := mp |>) i
              (map_zero <| lbm_paths := map (fun p => mk_map_path (path_index p) 0 (path_weight p) 0) paths |>), i)
  end.

Definition load_balance_map_init (s : lb_maps) (lbmi n_buckets sum_of_weights : Z) : option lb_maps :=
  lbm ← load_balance_map_get s lbmi;
  let s := put_map s lbmi (lbm <| lbm_sum_of_norm_weights := sum_of_weights |>
                               <| lbm_buckets := lbm_buckets lbm ++ replicate (Z.to_nat n_buckets - length (lbm_buckets lbm)) 0 |>) in
  s ← load_balance_map_db_insert s lbmi;
  lbm ← load_balance_map_get s lbmi;
  lbm ← load_balance_map_fill lbm;
  Some (put_map s lbmi lbm).

Definition load_balance_map_destroy (s : lb_maps) (lbmi : Z) : option lb_maps :=
  lbm ← load_balance_map_get s lbmi;
  let s := put_map s lbmi (lbm <| lbm_paths := [] |> <| lbm_buckets := [] |>) in
  Some (s <| load_balance_map_pool := pool_put_index (load_balance_map_pool s) lbmi |>).

Definition load_balance_map_lock (s : lb_maps) (lbmi : Z) : option lb_maps :=
  lbm ← load_balance_map_get s lbmi;
  Some (put_map s lbmi (lbm <| lbm_locks := u32 (lbm_locks lbm + 1) |>)).

Definition load_balance_map_add_or_lock (s : lb_maps) (n_buckets sum_of_weights : Z) (paths : list load_balance_path_t) : option (lb_maps * Z) :=
  '(s, tmp) ← load_balance_map_alloc s paths;
  lbm ← load_balance_map_get s tmp;
  let lbmi := load_balance_map_db_find s lbm in
  '(s, lbmi) ←
    (if INDEX_INVALID =? lbmi then s ← load_balance_map_init s tmp n_buckets sum_of_weights; Some (s, tmp)
     else s ← load_balance_map_destroy s tmp; Some (s, lbmi));
  s ← load_balance_map_lock s lbmi;
  Some (s, lbmi).

Definition load_balance_map_unlock (s : lb_maps) (lbmi : Z) : option lb_maps :=
  if INDEX_INVALID =? lbmi then Some s
  else
    lbm ← load_balance_map_get s lbmi;
    let locks := u32 (lbm_locks lbm - 1) in
    let s := put_map s lbmi (lbm <| lbm_locks := locks |>) in
    if 0 =? locks then
      s ← load_balance_map_db_remove s lbmi;
      load_balance_map_destroy s lbmi
    else Some s.

(** The callback of the walk of the maps of a path. *)
Definition load_balance_map_path_state_change_walk (fptr : fib_node_ptr_t) (s : lb_maps) : option (lb_maps * bool) :=
  lbm ← load_balance_map_get s (fnp_index fptr);
  lbm ← load_balance_map_fill lbm;
  Some (put_map s (fnp_index fptr) lbm, true).

Definition load_balance_map_path_state_change (s : lb_maps) (path_index : Z) : option lb_maps :=
  match lb_maps_by_path_index s !! path_index with
  | None => Some s
  | Some list => fib_node_list_walk lbm_lists load_balance_map_path_state_change_walk list s
  end.

End Fill.

(** [load_balance_map_translate]. *)
Definition load_balance_map_translate (s : lb_maps) (lbmi bucket : Z) : option Z :=
  lbm ← load_balance_map_get s lbmi; vec_elt (lbm_buckets lbm) bucket.

(** The hash of different paths can be the same; the database then hands out the map
    of the others. *)
Lemma hash_indices_collide : hash_indices [111; 186] = hash_indices [1; 30; 34].
Proof. vm_compute. reflexivity. Qed.
