(* ===== verification/LbMapFill.v ===== *)
(** * Load-balance maps: what filling a map gives

    The buckets of a map seen from the paths that own them: buckets of resolved
    paths stay, the others go round the buckets of the resolved paths. *)

From stdpp Require Import gmap.
From S2P Require Import Prelude Pool Float Dpo LbNormalize FibNodeList LoadBalanceMap.

(** The path of each bucket. *)
Definition owners (paths : list load_balance_map_path_t) : list Z :=
  concat (map (fun p => replicate (Z.to_nat (lbmp_weight p)) (lbmp_index p)) paths).

Definition total_weight (paths : list load_balance_map_path_t) : Z := sum_list (map lbmp_weight paths).

(** The vectors of a map have their sizes. *)
Record map_sized (m : load_balance_map_t) : Prop := {
  ms_weights : Forall (fun p => 0 < lbmp_weight p) (lbm_paths m);
  ms_total : total_weight (lbm_paths m) = Z.of_nat (length (lbm_buckets m));
  ms_max : total_weight (lbm_paths m) <= LB_MAX_BUCKETS
}.

Section Fill.
Variable resolved : Z -> bool.

(** Positions, from [b] on, of the buckets of resolved paths. *)
Fixpoint up_positions (os : list Z) (b : Z) : list Z :=
  match os with
  | [] => []
  | o :: os => (if resolved o then [b] else []) ++ up_positions os (b + 1)
  end.

(** Number of buckets of unresolved paths. *)
Definition downs (os : list Z) : Z := Z.of_nat (length (filter (fun o => resolved o = false) os)).

(** The reference: bucket [k] of an unresolved path, of which [r] come before, gets
    number [r], in turn, of the buckets of resolved paths. *)
Definition spec_bucket (os : list Z) (k : nat) (o : Z) : Z :=
  let up := up_positions os 0 in
  if resolved o || (length up =? 0)%nat then Z.of_nat k
  else default 0 (up !! Z.to_nat (downs (take k os) mod Z.of_nat (length up))).

Definition spec_buckets (os : list Z) : list Z := imap (spec_bucket os) os.

(** ** Lemmas *)

Lemma owners_cons p ps : owners (p :: ps) = replicate (Z.to_nat (lbmp_weight p)) (lbmp_index p) ++ owners ps.
Proof. reflexivity. Qed.

Lemma length_owners ps : Forall (fun p => 0 < lbmp_weight p) ps -> Z.of_nat (length (owners ps)) = total_weight ps.
Proof.
  induction 1 as [|p ps Hp _ IH]; [reflexivity|]. rewrite owners_cons, length_app, length_replicate. unfold total_weight in *. cbn. lia.
Qed.

Lemma up_positions_app os1 os2 b : up_positions (os1 ++ os2) b = up_positions os1 b ++ up_positions os2 (b + Z.of_nat (length os1)).
Proof.
  revert b. induction os1 as [|o os IH]; intros b; cbn [app up_positions length]; [now rewrite Z.add_0_r|].
  rewrite IH, app_assoc. do 2 f_equal. lia.
Qed.

Lemma up_positions_replicate n o b : up_positions (replicate n o) b = if resolved o then seqZ b (Z.of_nat n) else [].
Proof.
  revert b. induction n as [|n IH]; intros b; cbn [replicate up_positions]; [now destruct (resolved o)|]. rewrite IH.
  destruct (resolved o); [|reflexivity]. rewrite (seqZ_cons b) by lia. cbn [app]. f_equal. f_equal; lia.
Qed.

Lemma map_u16_seqZ b n : 0 <= b -> b + n <= 2 ^ 16 -> map u16 (seqZ b n) = seqZ b n.
Proof.
  intros Hb Hn. rewrite <- (map_id (seqZ b n)) at 2. apply map_ext_in. intros x Hx%list_elem_of_In%elem_of_seqZ.
  unfold u16. apply Z.mod_small. lia.
Qed.

Lemma usable_positions ps : Forall (fun p => 0 < lbmp_weight p) ps -> forall b, 0 <= b -> b + total_weight ps <= 2 ^ 16 ->
  usable_buckets resolved ps b = up_positions (owners ps) b.
Proof.
  induction 1 as [|p ps Hp Hps IH]; intros b Hb Ht; [reflexivity|]. unfold total_weight in *. cbn [map sum_list foldr] in Ht.
  rewrite owners_cons, up_positions_app, up_positions_replicate, length_replicate, !Z2Nat.id by lia. cbn [usable_buckets].
  assert (0 <= sum_list (map lbmp_weight ps)) by (clear -Hps; induction Hps; cbn; lia). unfold sum_list in *.
  rewrite IH by lia. f_equal. destruct (resolved _); [|reflexivity]. apply map_u16_seqZ; lia.
Qed.

Lemma downs_app os1 os2 : downs (os1 ++ os2) = downs os1 + downs os2.
Proof. unfold downs. rewrite filter_app, length_app. lia. Qed.

Lemma downs_replicate n o : downs (replicate n o) = if resolved o then 0 else Z.of_nat n.
Proof.
  unfold downs. induction n as [|n IH]; [now destruct (resolved o)|]. cbn [replicate]. rewrite filter_cons. destruct (resolved o) eqn:E.
  - rewrite decide_False by congruence. exact IH.
  - rewrite decide_True by reflexivity. cbn [length]. lia.
Qed.

Lemma lookup_replicate_ge {A} n (x : A) k : (n <= k)%nat -> replicate n x !! k = None.
Proof. intros H. apply lookup_ge_None_2. now rewrite length_replicate. Qed.

Lemma cycle_spec tmp n : forall jj, 0 <= jj < Z.of_nat (length tmp) ->
  fst (cycle tmp n jj) = imap (fun k _ => default 0 (tmp !! Z.to_nat ((jj + Z.of_nat k) mod Z.of_nat (length tmp)))) (replicate n 0)
  /\ snd (cycle tmp n jj) = (jj + Z.of_nat n) mod Z.of_nat (length tmp).
Proof.
  induction n as [|n IH]; intros jj Hj; cbn [cycle replicate imap].
  - cbn. rewrite Z.add_0_r, Z.mod_small by lia. auto.
  - assert (0 < Z.of_nat (length tmp)) as H0 by lia. destruct (IH ((jj + 1) mod Z.of_nat (length tmp)) (Z.mod_pos_bound _ _ H0)) as [E1 E2].
    destruct (cycle _ n _) as [l jj']. cbn [fst snd] in *. subst. split.
    + f_equal.
      * unfold vec_elt. destruct (Z.ltb_spec jj 0); [lia|]. change (Z.of_nat 0) with 0. now rewrite Z.add_0_r, Z.mod_small.
      * apply imap_ext. intros k x _. unfold compose. rewrite Zplus_mod_idemp_l. now replace (jj + 1 + Z.of_nat k) with (jj + Z.of_nat (S k)) by lia.
    + rewrite Zplus_mod_idemp_l. f_equal. lia.
Qed.

(** The second pass: each bucket by its path and its rank among the unresolved. *)
Lemma stripe_spec tmp ps : tmp <> [] -> Forall (fun p => 0 < lbmp_weight p) ps -> forall b jj, 0 <= b -> b + total_weight ps <= 2 ^ 16 -> 0 <= jj < Z.of_nat (length tmp) ->
  stripe resolved tmp ps b jj =
  imap (fun k o => if resolved o then b + Z.of_nat k
                   else default 0 (tmp !! Z.to_nat ((jj + downs (take k (owners ps))) mod Z.of_nat (length tmp)))) (owners ps).
Proof.
  intros Htmp. induction 1 as [|p ps Hp Hps IH]; intros b jj Hb Ht Hj; [reflexivity|]. unfold total_weight in *. cbn [map sum_list foldr] in Ht.
  assert (0 <= sum_list (map lbmp_weight ps)) by (clear -Hps; induction Hps; cbn; lia). unfold sum_list in *.
  set (w := Z.to_nat (lbmp_weight p)). assert (Z.of_nat w = lbmp_weight p) as Hw by lia. cbn [stripe]. fold w.
  set (c := if resolved (lbmp_index p) then _ else _).
  assert (fst c = imap (fun k o => if resolved o then b + Z.of_nat k else default 0 (tmp !! Z.to_nat ((jj + downs (take k (owners (p :: ps)))) mod Z.of_nat (length tmp)))) (replicate w (lbmp_index p))
    /\ snd c = (jj + downs (replicate w (lbmp_index p))) mod Z.of_nat (length tmp)) as [E1 E2].
  { rewrite downs_replicate. subst c. destruct (resolved (lbmp_index p)) eqn:Er; cbn [fst snd].
    - rewrite Z.add_0_r, Z.mod_small, map_u16_seqZ by lia. split; [|reflexivity]. rewrite <- Hw. clear -Er.
      apply list_eq. intros k. rewrite list_lookup_imap. destruct (decide (k < w)%nat) as [Hk|Hk].
      + rewrite lookup_replicate_2, lookup_seqZ_lt by lia. cbn. now rewrite Er.
      + rewrite lookup_seqZ_ge, lookup_replicate_ge by lia. reflexivity.
    - destruct (cycle_spec tmp w jj Hj) as [-> ->]. split; [|reflexivity]. clear -Er.
      apply list_eq. intros k. rewrite !list_lookup_imap. destruct (decide (k < w)%nat) as [Hk|Hk].
      + rewrite !lookup_replicate_2 by lia. cbn [fmap option_fmap option_map]. rewrite Er, owners_cons. fold w. rewrite take_app_le, take_replicate, downs_replicate, Er by (rewrite length_replicate; lia).
        now rewrite Nat.min_l by lia.
      + now rewrite !lookup_replicate_ge by lia. }
  destruct c as [l jj']. cbn [fst snd] in E1, E2. subst l jj'. rewrite owners_cons. fold w. rewrite imap_app. f_equal.
  rewrite IH by (try apply Z.mod_pos_bound; lia). apply imap_ext. intros k o Ho. rewrite length_replicate. unfold compose. destruct (resolved o); [lia|].
  rewrite take_app_add', downs_app, Zplus_mod_idemp_l by (now rewrite length_replicate). do 4 f_equal. lia.
Qed.

Lemma up_down_length os b : Z.of_nat (length (up_positions os b)) + downs os = Z.of_nat (length os).
Proof.
  revert b. induction os as [|o os IH]; intros b; [reflexivity|]. change (o :: os) with ([o] ++ os) at 2. rewrite downs_app.
  cbn [up_positions]. rewrite length_app. specialize (IH (b + 1)). change [o] with (replicate 1 o). rewrite downs_replicate.
  cbn [length]. destruct (resolved o); cbn [length]; lia.
Qed.

Lemma up_positions_elem os : forall b x, x ∈ up_positions os b <-> exists k o, os !! k = Some o /\ resolved o = true /\ x = b + Z.of_nat k.
Proof.
  induction os as [|o os IH]; intros b x; cbn [up_positions].
  - split; [intros Hx; now apply elem_of_nil in Hx|]. intros (k & o & Hk & _). now rewrite lookup_nil in Hk.
  - rewrite elem_of_app, IH. split.
    + intros [Hx|(k & o' & Hk & Hr & ->)]; [|exists (S k), o'; repeat split; try assumption; lia].
      destruct (resolved o) eqn:E; [|now apply elem_of_nil in Hx]. apply list_elem_of_singleton in Hx as ->. exists 0%nat, o. repeat split; [exact E|lia].
    + intros ([|k] & o' & Hk & Hr & ->); [injection Hk as ->; left; rewrite Hr; apply list_elem_of_singleton; lia|]. right. exists k, o'. repeat split; try assumption; lia.
Qed.

Lemma all_up os b : length (up_positions os b) = length os -> Forall (fun o => resolved o = true) os.
Proof.
  intros H. apply Forall_forall. intros o Ho. destruct (resolved o) eqn:E; [reflexivity|]. exfalso. pose proof (up_down_length os b) as Hd.
  assert (downs os = 0) as H0 by lia. unfold downs in H0. assert (o ∈ filter (fun o => resolved o = false) os) as Hin by (apply list_elem_of_filter; auto).
  destruct (filter _ os); [set_solver|cbn in H0; lia].
Qed.

Lemma imap_positions (os : list Z) : imap (fun k _ => Z.of_nat k) os = seqZ 0 (Z.of_nat (length os)).
Proof.
  apply list_eq. intros k. rewrite list_lookup_imap. destruct (decide (k < length os)%nat) as [Hk|Hk].
  - rewrite lookup_seqZ_lt by lia. apply lookup_lt_is_Some_2 in Hk as [o ->]. reflexivity.
  - rewrite lookup_seqZ_ge, lookup_ge_None_2 by lia. reflexivity.
Qed.

Lemma up_all os : Forall (fun o => resolved o = true) os -> forall b, up_positions os b = seqZ b (Z.of_nat (length os)).
Proof.
  induction 1 as [|o os Ho _ IH]; intros b; [reflexivity|]. cbn [up_positions length]. rewrite Ho, IH, (seqZ_cons b) by lia.
  cbn [app]. f_equal. f_equal; lia.
Qed.

(** Filling gives the reference. *)
Lemma fill_spec m : map_sized m ->
  load_balance_map_fill resolved m = Some (m <| lbm_buckets := spec_buckets (owners (lbm_paths m)) |>).
Proof.
  intros [Hw Ht Hmax]. pose proof (length_owners _ Hw) as Hl. unfold LB_MAX_BUCKETS in Hmax. unfold load_balance_map_fill. cbv zeta.
  rewrite (usable_positions _ Hw 0) by lia. set (os := owners (lbm_paths m)) in *. pose proof (up_down_length os 0) as Hud. assert (0 <= downs os) by (unfold downs; lia).
  assert (length os = length (lbm_buckets m)) as Hlen by lia. rewrite <- Hlen.
  destruct (Nat.ltb_spec (length os) (length (up_positions os 0))); [lia|].
  assert ((forall k o, os !! k = Some o -> spec_bucket os k o = Z.of_nat k) -> spec_buckets os = seqZ 0 (Z.of_nat (length os))) as Hid.
  { intros Hk. rewrite <- imap_positions. unfold spec_buckets. apply imap_ext. exact Hk. }
  destruct (Nat.eqb_spec (length (up_positions os 0)) (length os)) as [Ha|Hna].
  - pose proof (all_up _ _ Ha) as Hall. rewrite Hid; [now rewrite (up_all _ Hall)|]. intros k o Ho. unfold spec_bucket.
    rewrite Forall_forall in Hall. now rewrite (Hall o) by (eapply list_elem_of_lookup_2; eauto).
  - destruct (Nat.eqb_spec (length (up_positions os 0)) 0) as [Hz|Hz].
    + rewrite Hid, map_u16_seqZ by lia || (intros k o _; unfold spec_bucket; now rewrite Hz, orb_true_r). reflexivity.
    + rewrite (stripe_spec _ _ (fun E => Hz (f_equal length E)) Hw) by lia. fold os. unfold write_front. rewrite length_imap.
      destruct (Nat.ltb_spec (length (lbm_buckets m)) (length os)); [lia|]. rewrite drop_ge, app_nil_r by lia. cbn [mbind option_bind]. do 2 f_equal.
      unfold spec_buckets. apply imap_ext. intros k o _. unfold spec_bucket. destruct (Nat.eqb_spec (length (up_positions os 0)) 0); [easy|].
      rewrite orb_false_r. destruct (resolved o); [lia|reflexivity].
Qed.

Lemma length_spec_buckets os : length (spec_buckets os) = length os.
Proof. apply length_imap. Qed.

(** Every bucket is mapped to one whose path is resolved, if there is one; to
    itself if its own path is resolved or none is. *)
Lemma spec_bucket_resolved os k o : os !! k = Some o ->
  exists k' o', spec_buckets os !! k = Some (Z.of_nat k') /\ os !! k' = Some o'
    /\ (resolved o = true -> k' = k)
    /\ (resolved o' = true \/ (k' = k /\ forall o2, o2 ∈ os -> resolved o2 = false)).
Proof.
  intros Ho. unfold spec_buckets. rewrite list_lookup_imap, Ho. cbn [fmap option_fmap option_map]. unfold spec_bucket.
  destruct (resolved o) eqn:Er; cbn [orb]; [exists k, o; auto|]. destruct (Nat.eqb_spec (length (up_positions os 0)) 0) as [H0|H0].
  - exists k, o. repeat split; try easy; try assumption. right. split; [reflexivity|]. intros o2 (k2 & Hk2)%list_elem_of_lookup. destruct (resolved o2) eqn:E2; [|reflexivity].
    assert (0 + Z.of_nat k2 ∈ up_positions os 0) as Hin by (apply up_positions_elem; eauto). destruct (up_positions os 0); [set_solver|easy].
  - set (r := downs (take k os) mod Z.of_nat (length (up_positions os 0))). assert (0 <= r < Z.of_nat (length (up_positions os 0))) as Hr by (apply Z.mod_pos_bound; lia).
    destruct (lookup_lt_is_Some_2 (up_positions os 0) (Z.to_nat r)) as [x Hx]; [lia|]. rewrite Hx. cbn [default].
    apply list_elem_of_lookup_2, up_positions_elem in Hx as (k' & o' & Hk' & Hr' & ->). exists k', o'. repeat split; try easy; auto.
Qed.

End Fill.
