(* ===== verification/LbMapInv.v ===== *)
(** * Load-balance maps: the database and the lists per path

    The invariant of the tables: the database has exactly the maps in use, and the
    list of a path exactly the maps that use the path, so that a change of the path
    reaches them all. *)

From stdpp Require Import gmap.
From S2P Require Import Prelude Pool Float Dpo LbNormalize FibNodeList LoadBalanceMap LbMapFill.

(** ** Entries of the lists by path *)

(** The list of path [p] has the sibling and owner [x]. *)
Definition listed (by_path : gmap Z Z) (L : gmap Z siblings) (p : Z) (x : Z * fib_node_ptr_t) : Prop :=
  exists li l, by_path !! p = Some li /\ L !! li = Some l /\ x ∈ l.

(** Lists exist and are not shared by paths. *)
Record by_ok (by_path : gmap Z Z) (L : gmap Z siblings) : Prop := {
  by_list : forall p li, by_path !! p = Some li -> is_Some (L !! li);
  by_inj : forall p p' li, by_path !! p = Some li -> by_path !! p' = Some li -> p = p'
}.

Lemma elem_elt L s li l i o : linked None L s -> L !! li = Some l -> (i, o) ∈ l -> exists e, e_at s i = Some e /\ fnle_list e = li /\ fnle_owner e = o.
Proof.
  intros Hk Hl Hin. apply list_elem_of_In, in_split in Hin as (l1 & l2 & ->).
  rewrite (elt_in_list _ _ _ _ _ _ _ Hk Hl). now eexists.
Qed.

(** A sibling is in one place. *)
Lemma sibling_unique L s li lj l l' i o o' : linked None L s -> L !! li = Some l -> (i, o) ∈ l -> L !! lj = Some l' -> (i, o') ∈ l' -> li = lj /\ o = o'.
Proof.
  intros Hk H1 I1 H2 I2. destruct (elem_elt _ _ _ _ _ _ Hk H1 I1) as (e & He & <- & <-), (elem_elt _ _ _ _ _ _ Hk H2 I2) as (e' & He' & <- & <-).
  rewrite He in He'. now injection He' as ->.
Qed.

Lemma listed_unique by_path L s p p' i o o' : lists_ok L s -> by_ok by_path L -> listed by_path L p (i, o) -> listed by_path L p' (i, o') -> p = p' /\ o = o'.
Proof.
  intros [Hk _] Hb (li & l & B1 & L1 & I1) (lj & l' & B2 & L2 & I2). destruct (sibling_unique _ _ _ _ _ _ _ _ _ Hk L1 I1 L2 I2) as [<- ->].
  split; [exact (by_inj _ _ Hb _ _ _ B1 B2)|reflexivity].
Qed.

(** A push to the list of path [p]. *)
Lemma listed_push by_path L p li l x p' y : by_ok by_path L -> by_path !! p = Some li -> L !! li = Some l ->
  listed by_path (<[li := x :: l]> L) p' y <-> listed by_path L p' y \/ (p' = p /\ y = x).
Proof.
  intros Hb Hp Hl. split.
  - intros (lj & l' & B & Hl' & Hin). destruct (decide (lj = li)) as [->|Hne].
    + rewrite lookup_insert_eq in Hl'. injection Hl' as <-. pose proof (by_inj _ _ Hb _ _ _ B Hp) as ->. apply elem_of_cons in Hin as [->|Hin]; [auto|]. left. now exists li, l.
    + rewrite lookup_insert_ne in Hl' by congruence. left. now exists lj, l'.
  - intros [(lj & l' & B & Hl' & Hin)|[-> ->]].
    + destruct (decide (lj = li)) as [->|Hne].
      * exists li, (x :: l). rewrite lookup_insert_eq. repeat split; [exact B|]. right. rewrite Hl in Hl'. now injection Hl' as ->.
      * exists lj, l'. now rewrite lookup_insert_ne by congruence.
    + exists li, (x :: l). rewrite lookup_insert_eq. repeat split; [exact Hp|]. left.
Qed.

Lemma by_ok_push by_path L li l : by_ok by_path L -> by_ok by_path (<[li := l]> L).
Proof. intros [H1 H2]. split; [|exact H2]. intros p lj Hp. destruct (decide (lj = li)) as [->|]; [rewrite lookup_insert_eq; eauto|]. rewrite lookup_insert_ne by congruence. eauto. Qed.

(** A new list for a path without one. *)
Lemma listed_new by_path L p li p' y : by_ok by_path L -> by_path !! p = None -> L !! li = None ->
  by_ok (<[p := li]> by_path) (<[li := []]> L) /\ (listed (<[p := li]> by_path) (<[li := []]> L) p' y <-> listed by_path L p' y).
Proof.
  intros [H1 H2] Hp Hli. assert (forall q, by_path !! q <> Some li) as Hno by (intros q Hq; destruct (H1 _ _ Hq); congruence). split; [split|split].
  - intros q lj. rewrite lookup_insert_Some. intros [[_ <-]|[_ Hq]]; [rewrite lookup_insert_eq; eauto|].
    rewrite lookup_insert_ne; [eauto|]. intros <-. exact (Hno _ Hq).
  - intros q q' lj. rewrite !lookup_insert_Some. intros [[<- <-]|[_ Hq]] [[<- E]|[_ Hq']]; subst; [reflexivity|now apply Hno in Hq'|now apply Hno in Hq|eauto].
  - intros (lj & l & [[_ <-]|[_ Hq]]%lookup_insert_Some & Hl & Hin); [rewrite lookup_insert_eq in Hl; injection Hl as <-; now apply elem_of_nil in Hin|].
    exists lj, l. rewrite lookup_insert_ne in Hl; [auto|]. intros <-. exact (Hno _ Hq).
  - intros (lj & l & Hq & Hl & Hin). exists lj, l. repeat split; [|rewrite lookup_insert_ne; [exact Hl|congruence]|exact Hin].
    rewrite lookup_insert_ne; [exact Hq|congruence].
Qed.

(** Room for [n] more elements and lists. *)
Definition room (n : nat) (s : node_lists) : Prop :=
  pool_len (fib_node_list_elt_pool s) + Z.of_nat n <= INV /\ pool_len (fib_node_list_head_pool s) + Z.of_nat n <= INV.

Lemma push_front_len s li type index s' i : pool_ok (fib_node_list_elt_pool s) -> fib_node_list_push_front s li type index = Some (s', i) ->
  pool_len (fib_node_list_elt_pool s') <= pool_len (fib_node_list_elt_pool s) + 1 /\ pool_len (fib_node_list_head_pool s') = pool_len (fib_node_list_head_pool s).
Proof.
  intros Hok. unfold fib_node_list_push_front, fib_node_list_elt_create. destruct (fib_node_list_head_get s li) as [h|]; [|easy]. cbn [mbind option_bind].
  pose proof (pool_get_allocated elt_zero _ Hok) as Ha. destruct (pool_get _ _) as [ep j]. pose proof (al_len _ _ _ Ha) as Hlen.
  destruct (fib_node_list_elt_get _ j) as [e|]; [|easy]. cbn [mbind option_bind].
  destruct (negb _); cbn [mbind option_bind]; [destruct (fib_node_list_elt_get _ _) as [e2|]; [|easy]; cbn [mbind option_bind]|];
    intros [= <- <-]; cbn; rewrite ?pool_write_len; lia.
Qed.

Lemma create_len s s' i : pool_ok (fib_node_list_head_pool s) -> fib_node_list_create s = (s', i) ->
  fib_node_list_elt_pool s' = fib_node_list_elt_pool s /\ pool_len (fib_node_list_head_pool s') <= pool_len (fib_node_list_head_pool s) + 1.
Proof.
  intros Hok. unfold fib_node_list_create. pose proof (pool_get_allocated head_zero _ Hok) as Ha. destruct (pool_get _ _) as [hp j]. pose proof (al_len _ _ _ Ha) as Hlen.
  intros [= <- <-]. cbn. rewrite pool_write_len. split; [reflexivity|lia].
Qed.

(** A path without its sibling. *)
Definition path_key (p : load_balance_map_path_t) : Z * Z := (lbmp_index p, lbmp_weight p).

(** The list of the path [p], created if there is none. *)
Lemma list_of_path by_path L s p : lists_ok L s -> by_ok by_path L -> room 1 s ->
  exists by' s' li L' l,
    match by_path !! p with
    | None => let '(lists, list) := fib_node_list_create s in (<[p := list]> by_path, lists, list)
    | Some list => (by_path, s, list)
    end = (by', s', li)
    /\ lists_ok L' s' /\ by_ok by' L' /\ by' !! p = Some li /\ L' !! li = Some l
    /\ (forall p' y, listed by' L' p' y <-> listed by_path L p' y)
    /\ pool_len (fib_node_list_elt_pool s') = pool_len (fib_node_list_elt_pool s)
    /\ pool_len (fib_node_list_head_pool s') <= pool_len (fib_node_list_head_pool s) + 1.
Proof.
  intros H Hb [_ Hr]. destruct (by_path !! p) as [li|] eqn:Hp.
  - destruct (by_list _ _ Hb _ _ Hp) as [l Hl]. exists by_path, s, li, L, l. repeat split; try tauto; try apply H; try apply Hb; try assumption; lia.
  - pose proof (create_list_spec _ _ H ltac:(lia)) as Hc. destruct (fib_node_list_create s) as [s' li] eqn:E.
    destruct (create_len _ _ _ (lk_hds _ _ _ (proj1 H)) E) as [El Hlen]. destruct Hc as [Hc HL]. exists (<[p := li]> by_path), s', li, (<[li := []]> L), [].
    split; [reflexivity|]. split; [exact Hc|]. split; [now apply listed_new; try exact 0; try exact (0, mk_node_ptr 0 0)|]. rewrite !lookup_insert_eq.
    repeat split; try (now apply listed_new); [now rewrite El|exact Hlen].
Qed.

Lemma insert_by_path_spec lbmi paths : forall by_path L s, lists_ok L s -> by_ok by_path L -> room (length paths) s ->
  exists by' s' paths' L', insert_by_path by_path s lbmi paths = Some (by', s', paths') /\ lists_ok L' s' /\ by_ok by' L'
    /\ map path_key paths' = map path_key paths
    /\ (forall p y, listed by' L' p y <-> listed by_path L p y \/ exists q, q ∈ paths' /\ lbmp_index q = p /\ y = (lbmp_sibling q, mk_node_ptr FIB_NODE_TYPE_FIRST lbmi))
    /\ NoDup (map lbmp_sibling paths')
    /\ (forall q p o, q ∈ paths' -> ~ listed by_path L p (lbmp_sibling q, o)).
Proof.
  induction paths as [|p paths IH]; intros by_path L s H Hb Hr; cbn [insert_by_path length] in *.
  - exists by_path, s, [], L. split; [reflexivity|]. do 2 (split; [assumption|]). split; [reflexivity|].
    split; [intros p y; split; [auto|intros [?|(q & Hq & _)]; [assumption|set_solver]]|]. split; [constructor|]. intros q ? ? Hq. set_solver.
  - destruct (list_of_path by_path L s (lbmp_index p) H Hb ltac:(unfold room in *; lia)) as (by1 & s1 & li & L1 & l & E & H1 & Hb1 & Hp1 & Hl1 & V1 & Le & Lh).
    rewrite E. unfold room in *. destruct (push_front_spec L1 s1 li l FIB_NODE_TYPE_FIRST lbmi H1 Hl1 ltac:(lia)) as (s2 & i & E2 & H2 & Hi).
    pose proof (push_front_len _ _ _ _ _ _ (lk_elts _ _ _ (proj1 H1)) E2) as [Le2 Lh2]. rewrite E2. cbn [mbind option_bind].
    assert (forall p' y, listed by1 (<[li := (i, mk_node_ptr FIB_NODE_TYPE_FIRST lbmi) :: l]> L1) p' y <-> listed by_path L p' y \/ (p' = lbmp_index p /\ y = (i, mk_node_ptr FIB_NODE_TYPE_FIRST lbmi))) as V2.
    { intros p' y. rewrite (listed_push _ _ _ _ _ _ _ _ Hb1 Hp1 Hl1), V1. reflexivity. }
    destruct (IH by1 _ s2 H2 (by_ok_push _ _ _ _ Hb1) ltac:(lia)) as (by3 & s3 & paths' & L3 & E3 & H3 & Hb3 & K3 & V3 & N3 & F3).
    rewrite E3. cbn [mbind option_bind]. do 4 eexists. split; [reflexivity|]. do 2 (split; [eassumption|]). split; [cbn; now rewrite K3|]. split; [|split].
    + intros p' y. rewrite V3, V2. split.
      * intros [[Hy|[-> ->]]|(q & Hq & <- & ->)]; [now left|right; eexists; split; [left|now split]|right; exists q; split; [now right|now split]].
      * intros [Hy|(q & [->|Hq]%elem_of_cons & <- & ->)]; [now left; left|left; right; now split|right; now exists q].
    + cbn. apply NoDup_cons. split; [|exact N3]. intros (q & Hs & Hq)%list_elem_of_In%in_map_iff. apply (F3 q (lbmp_index p) (mk_node_ptr FIB_NODE_TYPE_FIRST lbmi)); [now apply list_elem_of_In|].
      apply V2. right. now rewrite Hs.
    + intros q p' o [->|Hq]%elem_of_cons Hli; cbn in *; [|apply (F3 q p' o Hq), V2; now left].
      apply V1 in Hli as (lj & l' & _ & Hl' & Hin). destruct (elem_elt _ _ _ _ _ _ (proj1 H1) Hl' Hin) as (e & He & _). congruence.
Qed.

Lemma listed_remove by_path L s p li l1 i o l2 p' y : lists_ok L s -> by_ok by_path L -> by_path !! p = Some li -> L !! li = Some (l1 ++ (i, o) :: l2) ->
  listed by_path (<[li := l1 ++ l2]> L) p' y <-> listed by_path L p' y /\ fst y <> i.
Proof.
  intros [Hk _] Hb Hp Hl. pose proof (lk_nodup _ _ _ Hk _ _ Hl) as (_ & Hn & _)%nodup_middle. split.
  - intros (lj & l' & B & Hl' & Hin). destruct (decide (lj = li)) as [->|Hne].
    + rewrite lookup_insert_eq in Hl'. injection Hl' as <-. split.
      * exists li, (l1 ++ (i, o) :: l2). repeat split; try assumption. set_solver.
      * intros <-. apply Hn. apply list_elem_of_In, in_map, list_elem_of_In, Hin.
    + rewrite lookup_insert_ne in Hl' by congruence. split; [now exists lj, l'|]. intros Hi. destruct y as [j oj]. cbn in Hi. subst j.
      assert ((i, o) ∈ l1 ++ (i, o) :: l2) as Hin2 by set_solver. now destruct (sibling_unique _ _ _ _ _ _ _ _ _ Hk Hl' Hin Hl Hin2) as [? _].
  - intros [(lj & l' & B & Hl' & Hin) Hi]. destruct (decide (lj = li)) as [->|Hne].
    + exists li, (l1 ++ l2). rewrite lookup_insert_eq. repeat split; [exact B|]. rewrite Hl in Hl'. injection Hl' as <-.
      apply elem_of_app in Hin as [?|[->|?]%elem_of_cons]; [set_solver|now destruct Hi|set_solver].
    + exists lj, l'. now rewrite lookup_insert_ne by congruence.
Qed.

Lemma remove_by_path_spec by_path paths : forall L s, lists_ok L s -> by_ok by_path L -> NoDup (map lbmp_sibling paths) ->
  (forall q, q ∈ paths -> exists o, listed by_path L (lbmp_index q) (lbmp_sibling q, o)) ->
  exists s' L', remove_by_path by_path s paths = Some s' /\ lists_ok L' s' /\ by_ok by_path L'
    /\ forall p y, listed by_path L' p y <-> listed by_path L p y /\ fst y ∉ map lbmp_sibling paths.
Proof.
  induction paths as [|q paths IH]; intros L s H Hb Hn Hq; cbn [remove_by_path].
  - exists s, L. split; [reflexivity|]. do 2 (split; [assumption|]). intros p y. cbn. set_solver.
  - destruct (Hq q ltac:(left)) as (o & li & l & B & Hl & Hin). rewrite B. cbn [mbind option_bind]. cbn in Hn. apply NoDup_cons in Hn as [Hn1 Hn2].
    apply list_elem_of_In, in_split in Hin as (l1 & l2 & ->). destruct (remove_spec _ _ _ _ _ _ _ H Hl) as (s1 & E1 & H1). rewrite E1. cbn [mbind option_bind].
    assert (forall p y, listed by_path (<[li := l1 ++ l2]> L) p y <-> listed by_path L p y /\ fst y <> lbmp_sibling q) as V1 by (intros; eapply listed_remove; eassumption).
    destruct (IH _ s1 H1 (by_ok_push _ _ _ _ Hb) Hn2) as (s2 & L2 & E2 & H2 & Hb2 & V2).
    { intros q' Hq'. destruct (Hq q' ltac:(now right)) as [o' Ho']. exists o'. apply V1. split; [exact Ho'|]. cbn. intros E. apply Hn1. rewrite <- E. apply list_elem_of_In, in_map, list_elem_of_In, Hq'. }
    exists s2, L2. split; [exact E2|]. do 2 (split; [assumption|]). intros p y. rewrite V2, V1. cbn. set_solver.
Qed.

(** ** The invariant of the tables *)

Definition map_at (s : lb_maps) (i : Z) : option load_balance_map_t := pool_lookup (load_balance_map_pool s) i.

Record maps_ok (L : gmap Z siblings) (s : lb_maps) : Prop := {
  mo_pool : pool_ok (load_balance_map_pool s);
  mo_len : pool_len (load_balance_map_pool s) <= INV;
  mo_lists : lists_ok L (lbm_lists s);
  mo_by : by_ok (lb_maps_by_path_index s) L;
  mo_db : forall h i, load_balance_map_db s !! h = Some i <-> exists m, map_at s i = Some m /\ load_balance_map_hash m = h;
  mo_sized : forall i m, map_at s i = Some m -> map_sized m /\ lbm_paths m <> [] /\ 0 < lbm_locks m < 2 ^ 32;
  mo_siblings : forall i m, map_at s i = Some m -> NoDup (map lbmp_sibling (lbm_paths m));
  mo_listed : forall i m q, map_at s i = Some m -> q ∈ lbm_paths m ->
    listed (lb_maps_by_path_index s) L (lbmp_index q) (lbmp_sibling q, mk_node_ptr FIB_NODE_TYPE_FIRST i);
  mo_owned : forall p j o, listed (lb_maps_by_path_index s) L p (j, o) ->
    exists m q, map_at s (fnp_index o) = Some m /\ q ∈ lbm_paths m /\ lbmp_index q = p /\ lbmp_sibling q = j
}.

(** Each map [i] is filled for the path states [told i]: those it was told last. *)
Definition maps_filled (told : Z -> Z -> bool) (s : lb_maps) : Prop :=
  forall i m, map_at s i = Some m -> lbm_buckets m = spec_buckets (told i) (owners (lbm_paths m)).

(** A map that is created is told the states [r]. *)
Definition told_new (r : Z -> bool) (s : lb_maps) (told : Z -> Z -> bool) : Z -> Z -> bool :=
  fun i => match map_at s i with Some _ => told i | None => r end.

Definition uses_path (m : load_balance_map_t) (p : Z) : bool := existsb (fun q => lbmp_index q =? p) (lbm_paths m).

(** The maps of path [p] are told the states [r]. *)
Definition told_path (r : Z -> bool) (s : lb_maps) (p : Z) (told : Z -> Z -> bool) : Z -> Z -> bool :=
  fun i => match map_at s i with Some m => if uses_path m p then r else told i | None => told i end.

Lemma uses_path_iff m p : uses_path m p = true <-> exists q, q ∈ lbm_paths m /\ lbmp_index q = p.
Proof.
  unfold uses_path. rewrite existsb_exists. split; intros (q & Hq & E); exists q; [apply list_elem_of_In in Hq; apply Z.eqb_eq in E|apply list_elem_of_In in Hq; rewrite E, Z.eqb_refl]; auto.
Qed.

Lemma maps_init_ok : maps_ok ∅ load_balance_map_module_init /\ forall told, maps_filled told load_balance_map_module_init.
Proof.
  assert (forall i, map_at load_balance_map_module_init i = None) as Hn by (intros i; apply pool_empty_lookup). split; [|intros r i m; now rewrite Hn].
  split; try (intros; now rewrite Hn in *); try easy.
  - apply pool_empty_ok.
  - apply empty_lists_ok.
  - intros h i. cbn. rewrite lookup_empty. split; [easy|]. intros (m & Hm & _). now rewrite Hn in Hm.
  - intros p j o (li & l & B & _). cbn in B. now rewrite lookup_empty in B.
Qed.

(** A change of one map in use that keeps its paths. *)
Lemma maps_ok_write L s i m m' : maps_ok L s -> map_at s i = Some m -> lbm_paths m' = lbm_paths m -> length (lbm_buckets m') = length (lbm_buckets m) -> 0 < lbm_locks m' < 2 ^ 32 ->
  maps_ok L (put_map s i m') /\ forall j, map_at (put_map s i m') j = if decide (j = i) then Some m' else map_at s j.
Proof.
  intros [H1 H2 H3 H4 H5 H6 H7 H8 H9] Hm Hp Hlen Hl.
  assert (forall j, map_at (put_map s i m') j = if decide (j = i) then Some m' else map_at s j) as Hw by (intros j; exact (pool_write_lookup _ _ _ _ _ Hm)).
  split; [|exact Hw].
  assert (forall j x, map_at (put_map s i m') j = Some x -> exists y, map_at s j = Some y /\ lbm_paths x = lbm_paths y /\ length (lbm_buckets x) = length (lbm_buckets y) /\ 0 < lbm_locks x < 2 ^ 32) as Hback.
  { intros j x. rewrite Hw. destruct (decide _) as [->|]; [intros [= <-]; now exists m|]. intros Hx. exists x. repeat split; try assumption; apply (H6 _ _ Hx). }
  split; cbn; auto.
  - now apply pool_write_ok.
  - now rewrite pool_write_len.
  - intros h j. rewrite H5, Hw. destruct (decide _) as [->|]; [|reflexivity]. unfold load_balance_map_hash.
    split; intros (x & Hx & <-); [exists m'|exists m]; (split; [easy|]); [rewrite Hm in Hx|]; injection Hx as <-; now rewrite Hp.
  - intros j x (y & Hy & Ep & El & Hlk)%Hback. destruct (H6 _ _ Hy) as ([S1 S2 S3] & Hne & _). split; [|split; [now rewrite Ep|exact Hlk]]. split; rewrite ?Ep, ?El; assumption.
  - intros j x (y & Hy & Ep & _)%Hback. rewrite Ep. eauto.
  - intros j x q (y & Hy & Ep & _)%Hback. rewrite Ep. apply H8, Hy.
  - intros p j o Hli. destruct (H9 _ _ _ Hli) as (x & q & Hx & Hq). rewrite Hw. destruct (decide _) as [E|]; [|now exists x, q].
    exists m', q. split; [reflexivity|]. rewrite E, Hm in Hx. injection Hx as <-. now rewrite Hp.
Qed.

Lemma map_get s i m : map_at s i = Some m -> load_balance_map_get s i = Some m.
Proof. apply pool_lookup_elt. Qed.

(** ** A path changes its state *)

Lemma owners_elem ps o : o ∈ owners ps -> exists q, q ∈ ps /\ lbmp_index q = o.
Proof.
  induction ps as [|p ps IH]; [intros H; now apply elem_of_nil in H|]. rewrite owners_cons, elem_of_app. intros [[-> _]%elem_of_replicate|Hin].
  - exists p. split; [left|reflexivity].
  - destruct (IH Hin) as (q & Hq & <-). exists q. split; [now right|reflexivity].
Qed.

Definition refilled (r : Z -> bool) (m : load_balance_map_t) : load_balance_map_t := m <| lbm_buckets := spec_buckets r (owners (lbm_paths m)) |>.

Lemma refilled_length r m : map_sized m -> length (lbm_buckets (refilled r m)) = length (lbm_buckets m).
Proof. intros [H1 H2 H3]. cbn. rewrite length_spec_buckets. pose proof (length_owners _ H1). lia. Qed.

Lemma refill_walk r L os : forall s, maps_ok L s -> (forall o, o ∈ os -> is_Some (map_at s (fnp_index o))) ->
  exists s', walk_owners (load_balance_map_path_state_change_walk r) os s = Some s' /\ maps_ok L s'
    /\ (forall i, map_at s' i = if decide (i ∈ map fnp_index os) then refilled r <$> map_at s i else map_at s i)
    /\ lb_maps_by_path_index s' = lb_maps_by_path_index s /\ lbm_lists s' = lbm_lists s.
Proof.
  induction os as [|o os IH]; intros s Hok Hlive; cbn [walk_owners map].
  - exists s. split; [reflexivity|]. split; [exact Hok|]. split; [|easy]. intros i. rewrite decide_False; [reflexivity|]. apply not_elem_of_nil.
  - destruct (Hlive o ltac:(left)) as [m Hm]. destruct (mo_sized _ _ Hok _ _ Hm) as (Hs & _ & Hlk).
    assert (load_balance_map_path_state_change_walk r o s = Some (put_map s (fnp_index o) (refilled r m), true)) as ->.
    { unfold load_balance_map_path_state_change_walk. rewrite (map_get _ _ _ Hm). cbn [mbind option_bind]. now rewrite (fill_spec r m Hs). }
    cbn [mbind option_bind].
    destruct (maps_ok_write L s (fnp_index o) m (refilled r m) Hok Hm eq_refl (refilled_length r m Hs) Hlk) as [Hok1 Hw].
    destruct (IH (put_map s (fnp_index o) (refilled r m)) Hok1) as (s' & E & Hok' & Hat & E1 & E2).
    { intros o' Ho'. rewrite Hw. destruct (decide _); [eauto|]. apply Hlive. now right. }
    exists s'. split; [exact E|]. split; [exact Hok'|]. split; [|now rewrite E1, E2]. intros i. rewrite Hat, Hw. cbn [map].
    destruct (decide (i = fnp_index o)) as [->|Hne].
    + rewrite (decide_True (P := fnp_index o ∈ _ :: _)) by left. rewrite Hm. destruct (decide _); reflexivity.
    + destruct (decide (i ∈ map fnp_index os)) as [Hi|Hi].
      * now rewrite decide_True by now right.
      * rewrite decide_False; [reflexivity|]. now intros [?|?]%elem_of_cons.
Qed.

(** The callback does not touch the lists. *)
Lemma callback_safe r i o l a a' c : pool_len (fib_node_list_elt_pool (lbm_lists a)) <= INV -> chain (e_at (lbm_lists a)) ((i, o) :: l) ->
  load_balance_map_path_state_change_walk r o a = Some (a', c) -> chain (e_at (lbm_lists a')) l /\ pool_len (fib_node_list_elt_pool (lbm_lists a')) <= INV.
Proof.
  intros Hlen Hc. unfold load_balance_map_path_state_change_walk. destruct (load_balance_map_get a (fnp_index o)) as [m|]; [|discriminate]. cbn.
  destruct (load_balance_map_fill r m) as [m'|]; [|discriminate]. intros [= <- _]. split; [apply Hc|exact Hlen].
Qed.

Lemma path_state_change_spec r told L s p : maps_ok L s -> maps_filled told s ->
  exists s', load_balance_map_path_state_change r s p = Some s' /\ maps_ok L s' /\ maps_filled (told_path r s p told) s'
    /\ forall i, (fun m => (lbm_paths m, lbm_locks m)) <$> map_at s' i = (fun m => (lbm_paths m, lbm_locks m)) <$> map_at s i.
Proof.
  intros Hok Hf. unfold load_balance_map_path_state_change. destruct (lb_maps_by_path_index s !! p) as [li|] eqn:Hp.
  - destruct (by_list _ _ (mo_by _ _ Hok) _ _ Hp) as [l Hl].
    rewrite (walk_spec lbm_lists _ (callback_safe r) L s li l (mo_lists _ _ Hok) Hl).
    assert (forall o, o ∈ map snd l -> exists m, map_at s (fnp_index o) = Some m /\ uses_path m p = true) as Howned.
    { intros o ([j o'] & <- & Hin)%list_elem_of_In%in_map_iff. cbn. apply list_elem_of_In in Hin.
      destruct (mo_owned _ _ Hok p j o') as (m & q & Hm & Hq & Hi & _); [now exists li, l|]. exists m. split; [exact Hm|]. apply uses_path_iff. eauto. }
    destruct (refill_walk r L (map snd l) s Hok) as (s' & E & Hok' & Hat & _); [intros o Ho; destruct (Howned o Ho) as (m & Hm & _); eauto|].
    exists s'. split; [exact E|]. split; [exact Hok'|]. split.
    + intros i m. rewrite Hat. unfold told_path. destruct (decide _) as [Hi|Hi].
      * apply list_elem_of_In, in_map_iff in Hi as (o & <- & Ho). apply list_elem_of_In in Ho. destruct (Howned o Ho) as (m0 & -> & ->). now intros [= <-].
      * intros Hm. rewrite Hm. destruct (uses_path m p) eqn:Eu; [|exact (Hf _ _ Hm)]. exfalso. apply uses_path_iff in Eu as (q & Hq & Hidx). apply Hi.
        pose proof (mo_listed _ _ Hok _ _ _ Hm Hq) as (lj & l' & B & Hl' & Hin).
        rewrite Hidx, Hp in B. injection B as <-. rewrite Hl in Hl'. injection Hl' as <-. apply list_elem_of_In. rewrite map_map. apply list_elem_of_In in Hin.
        exact (in_map (fun x => fnp_index (snd x)) _ _ Hin).
    + intros i. rewrite Hat. destruct (decide _); [|reflexivity]. now destruct (map_at s i).
  - exists s. split; [reflexivity|]. split; [exact Hok|]. split; [|reflexivity]. intros i m Hm. unfold told_path. rewrite Hm.
    destruct (uses_path m p) eqn:Eu; [|exact (Hf _ _ Hm)]. apply uses_path_iff in Eu as (q & Hq & <-).
    pose proof (mo_listed _ _ Hok _ _ _ Hm Hq) as (lj & l' & B & _). congruence.
Qed.

(** ** References *)

Lemma maps_ok_same L s mp : maps_ok L s -> pool_ok mp -> pool_len mp <= INV -> (forall j, pool_lookup mp j = map_at s j) ->
  maps_ok L (s <| load_balance_map_pool := mp |>).
Proof.
  intros [H1 H2 H3 H4 H5 H6 H7 H8 H9] Hok Hlen Hl. assert (forall j, map_at (s <| load_balance_map_pool := mp |>) j = map_at s j) as E by exact Hl.
  split; cbn; auto.
  - intros h i. now rewrite E, H5.
  - intros i m. rewrite E. apply H6.
  - intros i m. rewrite E. apply H7.
  - intros i m q. rewrite E. apply H8.
  - intros p j o Hp. rewrite E. apply H9, Hp.
Qed.

Lemma map_valid L s i m : maps_ok L s -> map_at s i = Some m -> (INDEX_INVALID =? i) = false.
Proof. intros Hok H%pool_lookup_range. apply Z.eqb_neq. pose proof (mo_len _ _ Hok). unfold INDEX_INVALID, FIB_NODE_INDEX_INVALID in *. lia. Qed.

(** A map that goes: the last reference is released. *)
Lemma maps_ok_del L L' s s' i m : maps_ok L s -> map_at s i = Some m ->
  pool_ok (load_balance_map_pool s') -> pool_len (load_balance_map_pool s') <= INV -> (forall j, map_at s' j = if decide (j = i) then None else map_at s j) ->
  load_balance_map_db s' = base.delete (load_balance_map_hash m) (load_balance_map_db s) -> lb_maps_by_path_index s' = lb_maps_by_path_index s ->
  lists_ok L' (lbm_lists s') -> by_ok (lb_maps_by_path_index s) L' ->
  (forall p y, listed (lb_maps_by_path_index s) L' p y <-> listed (lb_maps_by_path_index s) L p y /\ fst y ∉ map lbmp_sibling (lbm_paths m)) ->
  maps_ok L' s'.
Proof.
  intros [H1 H2 H3 H4 H5 H6 H7 H8 H9] Hm P1 P2 Hat Edb Eby Hl' Hb' V. assert (forall j x, map_at s' j = Some x -> j <> i /\ map_at s j = Some x) as Hback.
  { intros j x. rewrite Hat. now destruct (decide _). }
  split; rewrite ?Eby; auto.
  - intros h j. rewrite Edb, lookup_delete_Some, H5, Hat. split.
    + intros [Hne (x & Hx & <-)]. rewrite decide_False; [eauto|]. intros ->. congruence.
    + destruct (decide (j = i)) as [|Hne]; [now intros (? & ? & _)|]. intros (x & Hx & <-). split; [|eauto]. intros Eh.
      assert (load_balance_map_db s !! load_balance_map_hash m = Some i) as D1 by (apply H5; eauto).
      assert (load_balance_map_db s !! load_balance_map_hash m = Some j) as D2 by (apply H5; eauto). congruence.
  - intros j x [_ Hx]%Hback. eauto.
  - intros j x [_ Hx]%Hback. eauto.
  - intros j x q [Hne Hx]%Hback Hq. apply V. split; [now apply H8 with x|]. cbn. intros (q' & Es & Hq')%list_elem_of_In%in_map_iff. apply list_elem_of_In in Hq'.
    pose proof (H8 _ _ _ Hx Hq) as L1. pose proof (H8 _ _ _ Hm Hq') as L2. rewrite Es in L2. destruct (listed_unique _ _ _ _ _ _ _ _ H3 H4 L1 L2) as [_ [= ->]]. congruence.
  - intros p j o [Hli Hns]%V. destruct (H9 _ _ _ Hli) as (x & q & Hx & Hq & Hi & Hs). exists x, q. rewrite Hat, decide_False; [auto|].
    intros Hio. rewrite Hio, Hm in Hx. injection Hx as <-. apply Hns. cbn. rewrite <- Hs. apply list_elem_of_In, in_map, list_elem_of_In, Hq.
Qed.

Lemma unlock_spec L s i m : maps_ok L s -> map_at s i = Some m ->
  exists s' L', load_balance_map_unlock s i = Some s' /\ maps_ok L' s' /\ (forall told, maps_filled told s -> maps_filled told s')
    /\ forall j, map_at s' j = if decide (j = i) then (if lbm_locks m =? 1 then None else Some (m <| lbm_locks := lbm_locks m - 1 |>)) else map_at s j.
Proof.
  intros Hok Hm. unfold load_balance_map_unlock. rewrite (map_valid _ _ _ _ Hok Hm), (map_get _ _ _ Hm). cbn [mbind option_bind].
  destruct (mo_sized _ _ Hok _ _ Hm) as (Hs & Hne & Hlk). rewrite u32_small by (unfold is_u; lia). set (m1 := m <| lbm_locks := lbm_locks m - 1 |>).
  destruct (Z.eqb_spec 0 (lbm_locks m - 1)) as [H0|H0].
  - replace (lbm_locks m =? 1) with true by (symmetry; apply Z.eqb_eq; lia).
    assert (map_at (put_map s i m1) i = Some m1) as Hm1 by (unfold map_at; cbn; now rewrite (pool_write_lookup _ _ _ _ _ Hm), decide_True).
    unfold load_balance_map_db_remove. rewrite (map_get _ _ _ Hm1). cbn [mbind option_bind].
    destruct (remove_by_path_spec (lb_maps_by_path_index s) (lbm_paths m) L (lbm_lists s) (mo_lists _ _ Hok) (mo_by _ _ Hok) (mo_siblings _ _ Hok _ _ Hm)) as (ls & L' & E & Hl' & Hb' & V).
    { intros q Hq. eexists. exact (mo_listed _ _ Hok _ _ _ Hm Hq). }
    change (remove_by_path _ _ (lbm_paths m1)) with (remove_by_path (lb_maps_by_path_index s) (lbm_lists s) (lbm_paths m)). rewrite E. cbn [mbind option_bind].
    unfold load_balance_map_destroy. match goal with |- context [load_balance_map_get ?x i] => set (s2 := x) end.
    assert (map_at s2 i = Some m1) as Hm2 by exact Hm1. rewrite (map_get _ _ _ Hm2). cbn [mbind option_bind].
    match goal with |- context [put_map s2 i ?x] => set (m3 := x) end. do 2 eexists. split; [reflexivity|].
    match goal with |- maps_ok _ ?x /\ _ => set (s' := x) end.
    assert (forall j, pool_lookup (pool_write (load_balance_map_pool s2) i m3) j = if decide (j = i) then Some m3 else pool_lookup (load_balance_map_pool s2) j) as Hw3 by (intros j; exact (pool_write_lookup _ _ _ _ _ Hm2)).
    assert (pool_lookup (pool_write (load_balance_map_pool s2) i m3) i = Some m3) as Hm3 by now rewrite Hw3, decide_True.
    assert (forall j, map_at s' j = if decide (j = i) then None else map_at s j) as Hat.
    { intros j. change (map_at s' j) with (pool_lookup (pool_put_index (pool_write (load_balance_map_pool s2) i m3) i) j).
      rewrite (pool_put_lookup _ _ _ j Hm3), Hw3. destruct (decide _); [reflexivity|]. cbn. now rewrite (pool_write_lookup _ _ _ _ _ Hm), decide_False. }
    split; [|split; [|exact Hat]].
    + apply (maps_ok_del L L' s s' i m Hok Hm); try assumption; try reflexivity.
      * apply (pool_put_ok _ _ m3); [|exact Hm3]. apply pool_write_ok. cbn. apply pool_write_ok, (mo_pool _ _ Hok).
      * cbn. rewrite pool_put_len, !pool_write_len. apply (mo_len _ _ Hok).
    + intros told Hf j x. rewrite Hat. destruct (decide _); [easy|]. apply Hf.
  - replace (lbm_locks m =? 1) with false by (symmetry; apply Z.eqb_neq; lia).
    destruct (maps_ok_write L s i m m1 Hok Hm eq_refl eq_refl ltac:(cbn; lia)) as [Hok1 Hw]. exists (put_map s i m1), L. split; [reflexivity|]. split; [exact Hok1|]. split; [|exact Hw].
    intros told Hf j x. rewrite Hw. destruct (decide _) as [->|]; [|apply Hf]. intros [= <-]. exact (Hf _ _ Hm).
Qed.

(** What the caller of [load_balance_map_add_or_lock] passes: normalised paths. *)
Record paths_ok (n_buckets : Z) (paths : list load_balance_path_t) : Prop := {
  pk_some : paths <> [];
  pk_weights : Forall (fun p => 0 < path_weight p) paths;
  pk_sum : sum_list (map path_weight paths) = n_buckets;
  pk_max : n_buckets <= LB_MAX_BUCKETS
}.

Definition new_paths (paths : list load_balance_path_t) : list load_balance_map_path_t :=
  map (fun p => mk_map_path (path_index p) 0 (path_weight p) 0) paths.

Lemma total_new_paths paths : total_weight (new_paths paths) = sum_list (map path_weight paths).
Proof. unfold total_weight, new_paths. now rewrite map_map. Qed.

Lemma path_key_owners ps ps' : map path_key ps = map path_key ps' -> owners ps = owners ps' /\ map lbmp_index ps = map lbmp_index ps' /\ map lbmp_weight ps = map lbmp_weight ps'.
Proof.
  intros E. assert (forall l, owners l = concat (map (fun k => replicate (Z.to_nat (snd k)) (fst k)) (map path_key l))) as Ho by (intros l; unfold owners; now rewrite map_map).
  assert (forall l, map lbmp_index l = map fst (map path_key l)) as Hi by (intros l; now rewrite map_map).
  assert (forall l, map lbmp_weight l = map snd (map path_key l)) as Hw by (intros l; now rewrite map_map).
  now rewrite !Ho, !Hi, !Hw, E.
Qed.

Lemma allocated_write {A} (p p' : pool A) i x : allocated p p' i -> allocated p (pool_write p' i x) i.
Proof.
  intros [H1 H2 [y H3] H4 H5 H6 H7]. assert (forall j, pool_lookup (pool_write p' i x) j = if decide (j = i) then Some x else pool_lookup p' j) as Hw by (intros j; exact (pool_write_lookup _ _ _ _ _ H3)).
  split; rewrite ?pool_write_elts, ?pool_write_len; auto using pool_write_ok.
  - rewrite Hw, decide_True by reflexivity. eauto.
  - intros j Hj. rewrite Hw, decide_False by exact Hj. auto.
Qed.

(** A map that is added. *)
Lemma maps_ok_add L L' s s' i m : maps_ok L s -> allocated (load_balance_map_pool s) (load_balance_map_pool s') i -> map_at s' i = Some m -> pool_len (load_balance_map_pool s') <= INV ->
  load_balance_map_db s !! load_balance_map_hash m = None -> load_balance_map_db s' = <[load_balance_map_hash m := i]> (load_balance_map_db s) ->
  map_sized m -> lbm_paths m <> [] -> 0 < lbm_locks m < 2 ^ 32 -> NoDup (map lbmp_sibling (lbm_paths m)) ->
  lists_ok L' (lbm_lists s') -> by_ok (lb_maps_by_path_index s') L' ->
  (forall p y, listed (lb_maps_by_path_index s') L' p y <-> listed (lb_maps_by_path_index s) L p y
     \/ exists q, q ∈ lbm_paths m /\ lbmp_index q = p /\ y = (lbmp_sibling q, mk_node_ptr FIB_NODE_TYPE_FIRST i)) ->
  maps_ok L' s'.
Proof.
  intros [H1 H2 H3 H4 H5 H6 H7 H8 H9] Ha Hm Hlen Hnew Edb Hs Hne Hlk Hnd Hl' Hb' V.
  assert (forall j, j <> i -> map_at s' j = map_at s j) as Hoth by exact (al_other _ _ _ Ha). assert (map_at s i = None) as Hfr by exact (al_fresh _ _ _ Ha).
  assert (forall j x, map_at s' j = Some x -> (j = i /\ x = m) \/ (j <> i /\ map_at s j = Some x)) as Hback.
  { intros j x Hx. destruct (decide (j = i)) as [->|Hj]; [left; split; congruence|right]. now rewrite <- Hoth. }
  split; auto.
  - exact (al_ok _ _ _ Ha).
  - intros h j. rewrite Edb, lookup_insert_Some, H5. split.
    + intros [[<- <-]|[Hh (x & Hx & <-)]]; [eauto|]. exists x. rewrite Hoth by congruence. auto.
    + intros (x & [[-> ->]|[Hj Hx]]%Hback & <-); [now left|]. right. split; [|eauto]. intros Eh. assert (load_balance_map_db s !! load_balance_map_hash m = Some j) by (apply H5; eauto). congruence.
  - intros j x [[-> ->]|[_ Hx]]%Hback; eauto.
  - intros j x [[-> ->]|[_ Hx]]%Hback; eauto.
  - intros j x q [[-> ->]|[_ Hx]]%Hback Hq; apply V; [right; eauto|left; eauto].
  - intros p j o [Hli|(q & Hq & Hi & [= -> ->])]%V.
    + destruct (H9 _ _ _ Hli) as (x & q & Hx & Hq). exists x, q. split; [|exact Hq]. rewrite Hoth; [exact Hx|]. intros E. rewrite E in Hx. congruence.
    + exists m, q. auto.
Qed.

(** The temporary map is released again. *)
Lemma destroy_tmp L s s1 i m0 : maps_ok L s -> pool_len (load_balance_map_pool s) < INV ->
  allocated (load_balance_map_pool s) (load_balance_map_pool s1) i -> map_at s1 i = Some m0 -> s1 = s <| load_balance_map_pool := load_balance_map_pool s1 |> ->
  exists s2, load_balance_map_destroy s1 i = Some s2 /\ maps_ok L s2 /\ forall k, map_at s2 k = map_at s k.
Proof.
  intros Hok Hlen Ha Hm1 E1. unfold load_balance_map_destroy. rewrite (map_get _ _ _ Hm1). cbn [mbind option_bind]. set (m2 := _ <| lbm_buckets := [] |>).
  eexists. split; [reflexivity|]. match goal with |- maps_ok _ ?x /\ _ => set (s2 := x) end. pose proof (al_len _ _ _ Ha) as Hlen1.
  assert (pool_lookup (pool_write (load_balance_map_pool s1) i m2) i = Some m2) as Hi2 by now rewrite (pool_write_lookup _ _ _ _ _ Hm1), decide_True.
  assert (load_balance_map_pool s2 = pool_put_index (pool_write (load_balance_map_pool s1) i m2) i) as E2 by reflexivity.
  assert (forall k, pool_lookup (load_balance_map_pool s2) k = map_at s k) as Hsame.
  { intros k. rewrite E2, (pool_put_lookup _ _ _ _ Hi2), (pool_write_lookup _ _ _ _ _ Hm1).
    destruct (decide (k = i)) as [->|Hk]; [symmetry; exact (al_fresh _ _ _ Ha)|exact (al_other _ _ _ Ha _ Hk)]. }
  split; [|exact Hsame]. replace s2 with (s <| load_balance_map_pool := load_balance_map_pool s2 |>) by (unfold s2; rewrite E1; reflexivity).
  apply maps_ok_same; [exact Hok| | |exact Hsame]; rewrite E2.
  - apply (pool_put_ok _ _ m2); [|exact Hi2]. apply pool_write_ok, (al_ok _ _ _ Ha).
  - rewrite pool_put_len, pool_write_len. lia.
Qed.

(** The temporary map becomes the map of the paths. *)
Lemma init_new r L s s1 i n sum paths : maps_ok L s -> paths_ok n paths -> room (length paths) (lbm_lists s) ->
  allocated (load_balance_map_pool s) (load_balance_map_pool s1) i -> map_at s1 i = Some (map_zero <| lbm_paths := new_paths paths |>) -> s1 = s <| load_balance_map_pool := load_balance_map_pool s1 |> ->
  exists s2 L' m2, load_balance_map_init r s1 i n sum = Some s2 /\ allocated (load_balance_map_pool s) (load_balance_map_pool s2) i /\ map_at s2 i = Some m2
    /\ load_balance_map_db s2 = <[load_balance_map_hash m2 := i]> (load_balance_map_db s) /\ lists_ok L' (lbm_lists s2) /\ by_ok (lb_maps_by_path_index s2) L'
    /\ (forall p y, listed (lb_maps_by_path_index s2) L' p y <-> listed (lb_maps_by_path_index s) L p y
          \/ exists q, q ∈ lbm_paths m2 /\ lbmp_index q = p /\ y = (lbmp_sibling q, mk_node_ptr FIB_NODE_TYPE_FIRST i))
    /\ map_sized m2 /\ map path_key (lbm_paths m2) = map path_key (new_paths paths) /\ NoDup (map lbmp_sibling (lbm_paths m2))
    /\ lbm_buckets m2 = spec_buckets r (owners (lbm_paths m2)) /\ lbm_locks m2 = 0.
Proof.
  intros Hok [Pne Pw Ps Pm] Hroom Ha Hm1 E1. unfold load_balance_map_init. rewrite (map_get _ _ _ Hm1). cbn [mbind option_bind].
  match goal with |- context [put_map s1 i ?x] => set (m2 := x) end. set (s2 := put_map s1 i m2).
  assert (map_at s2 i = Some m2) as Hm2 by (unfold map_at; cbn; now rewrite (pool_write_lookup _ _ _ _ _ Hm1), decide_True).
  unfold load_balance_map_db_insert. rewrite (map_get _ _ _ Hm2). cbn [mbind option_bind].
  assert (lb_maps_by_path_index s1 = lb_maps_by_path_index s /\ lbm_lists s1 = lbm_lists s /\ load_balance_map_db s1 = load_balance_map_db s) as (Eb & El & Ed) by (rewrite E1; auto).
  change (lb_maps_by_path_index (s2 <| load_balance_map_db := _ |>)) with (lb_maps_by_path_index s1). change (lbm_lists (s2 <| load_balance_map_db := _ |>)) with (lbm_lists s1).
  change (lbm_paths m2) with (new_paths paths). rewrite Eb, El.
  destruct (insert_by_path_spec i (new_paths paths) (lb_maps_by_path_index s) L (lbm_lists s) (mo_lists _ _ Hok) (mo_by _ _ Hok) ltac:(unfold new_paths; now rewrite length_map)) as (by' & ls & ps & L' & E & Hl' & Hb' & K & V & Nd & _).
  rewrite E. cbn [mbind option_bind]. destruct (path_key_owners _ _ K) as (Ko & Ki & Kw). set (m3 := m2 <| lbm_paths := ps |>).
  match goal with |- context [put_map ?x i m3] => set (s3 := x) end.
  assert (map_at (put_map s3 i m3) i = Some m3) as Hm3 by (unfold map_at; cbn; now rewrite (pool_write_lookup _ _ _ _ _ Hm2), decide_True).
  rewrite (map_get _ _ _ Hm3). cbn [mbind option_bind]. pose proof (total_new_paths paths) as Ht. unfold total_weight in Ht.
  assert (map_sized m3) as Hs3.
  { split; unfold total_weight; change (lbm_paths m3) with ps; rewrite ?Kw, ?Ht, ?Ps; [| |exact Pm].
    - apply (Forall_map lbmp_weight (fun w => 0 < w)). rewrite Kw. unfold new_paths. rewrite map_map. now apply Forall_map.
    - unfold m3, m2. cbn. rewrite length_replicate. assert (0 <= n) by (rewrite <- Ps; clear -Pw; induction Pw; cbn; lia). lia. }
  rewrite (fill_spec r m3 Hs3). cbn [mbind option_bind]. change (m3 <| lbm_buckets := _ |>) with (refilled r m3). do 3 eexists. split; [reflexivity|].
  split; [cbn; do 3 apply allocated_write; exact Ha|]. split; [unfold map_at; cbn; now rewrite (pool_write_lookup _ _ _ _ _ Hm3), decide_True|].
  split; [cbn; rewrite Ed; f_equal; unfold load_balance_map_hash; cbn; now rewrite Ki|]. split; [exact Hl'|]. split; [exact Hb'|]. split; [exact V|].
  split; [|auto]. pose proof (refilled_length r m3 Hs3) as Hlr. destruct Hs3 as [S1 S2 S3]. split; [exact S1|now rewrite Hlr|exact S3].
Qed.

(** The map for the paths: one in use with their hash, or a new one. *)
Lemma add_or_lock_spec r L s n sum paths : maps_ok L s -> paths_ok n paths ->
  pool_len (load_balance_map_pool s) < INV -> room (length paths) (lbm_lists s) -> (forall i m, map_at s i = Some m -> lbm_locks m + 1 < 2 ^ 32) ->
  exists s' i L' m', load_balance_map_add_or_lock r s n sum paths = Some (s', i) /\ maps_ok L' s' /\ (forall told, maps_filled told s -> maps_filled (told_new r s told) s')
    /\ (forall j, j <> i -> map_at s' j = map_at s j) /\ map_at s' i = Some m' /\ load_balance_map_hash m' = hash_indices (map path_index paths)
    /\ match map_at s i with
       | Some m => m' = m <| lbm_locks := lbm_locks m + 1 |>
       | None => map path_key (lbm_paths m') = map path_key (new_paths paths) /\ lbm_locks m' = 1
       end.
Proof.
  intros Hok Hp Hlen Hroom Hlocks. unfold load_balance_map_add_or_lock, load_balance_map_alloc. pose proof (pk_some _ _ Hp) as Hne.
  destruct paths as [|p0 paths0] eqn:Ep; [easy|]. rewrite <- Ep in *. clear Ep. fold (new_paths paths). set (m0 := map_zero <| lbm_paths := new_paths paths |>).
  pose proof (pool_get_write map_zero (load_balance_map_pool s) m0 (mo_pool _ _ Hok)) as Ha. destruct (pool_get _ _) as [mp i]. destruct Ha as [Ha Hi].
  cbn [mbind option_bind]. set (s1 := put_map _ i m0). assert (map_at s1 i = Some m0) as Hm1 by exact Hi. rewrite (map_get _ _ _ Hm1). cbn [mbind option_bind].
  assert (load_balance_map_hash m0 = hash_indices (map path_index paths)) as Hh0 by (unfold load_balance_map_hash, m0; cbn; unfold new_paths; now rewrite map_map).
  unfold load_balance_map_db_find. rewrite Hh0. change (load_balance_map_db s1) with (load_balance_map_db s). unfold load_balance_map_lock.
  destruct (load_balance_map_db s !! hash_indices (map path_index paths)) as [j|] eqn:Hdb; unfold default, id.
  - destruct (proj1 (mo_db _ _ Hok _ _) Hdb) as (m & Hm & Hh). rewrite (map_valid _ _ _ _ Hok Hm).
    destruct (destroy_tmp L s s1 i m0 Hok Hlen Ha Hm1 eq_refl) as (s2 & -> & Hok2 & Hs2). cbn [mbind option_bind].
    pose proof Hm as Hm2. rewrite <- Hs2 in Hm2. rewrite (map_get _ _ _ Hm2). cbn [mbind option_bind].
    specialize (Hlocks _ _ Hm). destruct (mo_sized _ _ Hok _ _ Hm) as (Hs & _ & Hlk). rewrite u32_small by (unfold is_u; lia).
    assert (0 < lbm_locks m + 1 < 2 ^ 32) as Hlk1 by lia. set (ml := m <| lbm_locks := lbm_locks m + 1 |>).
    destruct (maps_ok_write L s2 j m ml Hok2 Hm2 eq_refl eq_refl Hlk1) as [Hok3 Hw].
    do 4 eexists. split; [reflexivity|]. split; [exact Hok3|]. split; [|split; [|split; [now rewrite Hw, decide_True|split; [exact Hh|now rewrite Hm]]]].
    + intros told Hf k x. unfold told_new. rewrite Hw. destruct (decide _) as [->|]; [rewrite Hm; intros [= <-]; exact (Hf _ _ Hm)|].
      rewrite Hs2. intros Hx. rewrite Hx. exact (Hf _ _ Hx).
    + intros k Hk. now rewrite Hw, decide_False, Hs2.
  - change (INDEX_INVALID =? INV) with true. cbv iota.
    destruct (init_new r L s s1 i n sum paths Hok Hp Hroom Ha Hm1 eq_refl) as (s2 & L' & m2 & -> & Ha2 & Hm2 & Ed & Hl' & Hb' & V & Hs & K & Nd & Hfill & Hlk).
    cbn [mbind option_bind]. rewrite (map_get _ _ _ Hm2). cbn [mbind option_bind]. set (m3 := m2 <| lbm_locks := _ |>).
    assert (map_at (put_map s2 i m3) i = Some m3) as Hm3 by (unfold map_at; cbn; now rewrite (pool_write_lookup _ _ _ _ _ Hm2), decide_True).
    assert (lbm_locks m3 = 1) as Hlk3 by (unfold m3; cbn; now rewrite Hlk). destruct (path_key_owners _ _ K) as (_ & Ki & _).
    assert (load_balance_map_hash m3 = hash_indices (map path_index paths)) as Hh3 by (unfold load_balance_map_hash; change (lbm_paths m3) with (lbm_paths m2); rewrite Ki; unfold new_paths; now rewrite map_map).
    assert (allocated (load_balance_map_pool s) (load_balance_map_pool (put_map s2 i m3)) i) as Ha3 by (cbn; now apply allocated_write).
    do 4 eexists. split; [reflexivity|]. split; [|split; [|split; [exact (al_other _ _ _ Ha3)|split; [exact Hm3|split; [exact Hh3|]]]]].
    + apply (maps_ok_add L L' s (put_map s2 i m3) i m3 Hok Ha3 Hm3); try assumption.
      * pose proof (al_len _ _ _ Ha3). lia.
      * now rewrite Hh3.
      * destruct Hs as [S1 S2 S3]. now split.
      * change (lbm_paths m3) with (lbm_paths m2). intros Hps. rewrite Hps in K. unfold new_paths in K. now destruct paths.
      * rewrite Hlk3. now vm_compute.
    + intros told Hf k x. unfold told_new. destruct (decide (k = i)) as [->|Hk]; [rewrite Hm3; intros [= <-]; unfold map_at; rewrite (al_fresh _ _ _ Ha); exact Hfill|].
      unfold map_at at 1. rewrite (al_other _ _ _ Ha3 _ Hk). fold (map_at s k). intros Hx. rewrite Hx. exact (Hf _ _ Hx).
    + unfold map_at. rewrite (al_fresh _ _ _ Ha). auto.
Qed.
