(* ===== verification/LoadBalance.v ===== *)
(** * Load-balance objects (src/vnet/dpo/load_balance.c, load_balance.h)

    A load-balance has a power of two of buckets, each stacked on the object of a
    path; up to four are stored inline, more in a vector.  Workers read it while
    [load_balance_multipath_update] rewrites it.  The update is therefore written in
    a monad that records, after every store to the object or the maps, what a
    worker can see; the order of the stores is that of the code.

    The object of a path is stacked with the graph arc of [dpo_get_next_node], a
    parameter; so are the standard [qsort] and whether a path is resolved.  A
    result [None] is an access outside of a vector or a pool. *)

From Stdlib Require Import SpecFloat.
From stdpp Require Import gmap.
From S2P Require Import Prelude Pool Float Dpo LbNormalize FibNodeList LoadBalanceMap.

Definition LB_NUM_INLINE_BUCKETS : Z := 4.

Definition LOAD_BALANCE_FLAG_USES_MAP : Z := Z.shiftl 1 0.
Definition LOAD_BALANCE_FLAG_STICKY : Z := Z.shiftl 1 1.

Record load_balance_t := mk_lb {
  lb_n_buckets : Z;
  lb_n_buckets_minus_1 : Z;
  lb_proto : Z;
  lb_flags : Z;
  lb_fib_entry_flags : Z;
  lb_locks : Z;
  lb_map : Z;
  lb_urpf : Z;
  lb_hash_config : Z;
  lb_buckets : list dpo_id_t;
  lb_buckets_inline : list dpo_id_t
}.

#[export] Instance lb_eta : Eta load_balance_t :=
  fun lb => mk_lb (lb_n_buckets lb) (lb_n_buckets_minus_1 lb) (lb_proto lb) (lb_flags lb) (lb_fib_entry_flags lb) (lb_locks lb)
                  (lb_map lb) (lb_urpf lb) (lb_hash_config lb) (lb_buckets lb) (lb_buckets_inline lb).

Definition LB_HAS_INLINE_BUCKETS (lb : load_balance_t) : bool := lb_n_buckets lb <=? LB_NUM_INLINE_BUCKETS.

(** ** What workers read *)

Definition load_balance_get_bucket_i (lb : load_balance_t) (bucket : Z) : option dpo_id_t :=
  if LB_HAS_INLINE_BUCKETS lb then vec_elt (lb_buckets_inline lb) bucket else vec_elt (lb_buckets lb) bucket.

Definition load_balance_get_fwd_bucket (maps : lb_maps) (lb : load_balance_t) (bucket : Z) : option dpo_id_t :=
  bucket ← (if negb (INDEX_INVALID =? lb_map lb) then load_balance_map_translate maps (lb_map lb) bucket else Some bucket);
  if LB_HAS_INLINE_BUCKETS lb then vec_elt (lb_buckets_inline lb) bucket else vec_elt (lb_buckets lb) bucket.

(** The bucket of a packet with this flow hash, as the lookup nodes choose it. *)
Definition worker_bucket (maps : lb_maps) (lb : load_balance_t) (hash : Z) : option dpo_id_t :=
  if 1 <? lb_n_buckets lb then load_balance_get_fwd_bucket maps lb (Z.land hash (lb_n_buckets_minus_1 lb))
  else load_balance_get_bucket_i lb 0.

(** ** Effects *)

(** The object under update, the references, the maps, a vector of buckets that is
    not part of the object yet, and what workers could see so far, last first. *)
Record lb_state := mk_lbs {
  st_lb : load_balance_t;
  st_refs : dpo_refs;
  st_maps : lb_maps;
  st_new : list dpo_id_t;
  st_trace : list (load_balance_t * lb_maps)
}.

#[export] Instance lbs_eta : Eta lb_state := fun st => mk_lbs (st_lb st) (st_refs st) (st_maps st) (st_new st) (st_trace st).

Definition M (A : Type) : Type := lb_state -> option (A * lb_state).

Definition ret {A} (a : A) : M A := fun st => Some (a, st).
Definition bind {A B} (m : M A) (k : A -> M B) : M B := fun st => match m st with Some (a, st) => k a st | None => None end.
Definition lift {A} (o : option A) : M A := fun st => a ← o; Some (a, st).

Declare Scope lb_scope.
Delimit Scope lb_scope with lb.
Notation "'let!' x := m 'in' k" := (bind m (fun x => k)) (at level 10, x pattern, m at level 100, k at level 200) : lb_scope.
Notation "m ;;! k" := (bind m (fun _ => k)) (at level 100, k at level 200, right associativity) : lb_scope.
#[global] Open Scope lb_scope.

Definition get : M lb_state := fun st => Some (st, st).
Definition get_lb : M load_balance_t := fun st => Some (st_lb st, st).

(** A store to the object. *)
Definition store (f : load_balance_t -> load_balance_t) : M unit :=
  fun st => let lb := f (st_lb st) in Some (tt, st <| st_lb := lb |> <| st_trace := (lb, st_maps st) :: st_trace st |>).

(** A change of the maps. *)
Definition set_maps (maps : lb_maps) : M unit :=
  fun st => Some (tt, st <| st_maps := maps |> <| st_trace := (st_lb st, maps) :: st_trace st |>).

Definition set_refs (f : dpo_refs -> dpo_refs) : M unit := fun st => Some (tt, st <| st_refs := f (st_refs st) |>).

(** [dpo_reset] of ids outside of the object. *)
Definition reset_all (l : list dpo_id_t) : M unit := set_refs (fun r => foldl (fun r d => snd (dpo_reset d r)) r l).

(** The arrays of buckets: inline, the vector of the object, a new vector. *)
Inductive buckets_at := InInline | InVector | InNew.

Definition load_balance_get_buckets (lb : load_balance_t) : buckets_at := if LB_HAS_INLINE_BUCKETS lb then InInline else InVector.

Definition read_at (a : buckets_at) (st : lb_state) : list dpo_id_t :=
  match a with InInline => lb_buckets_inline (st_lb st) | InVector => lb_buckets (st_lb st) | InNew => st_new st end.

Definition with_at (a : buckets_at) (v : list dpo_id_t) (lb : load_balance_t) : load_balance_t :=
  match a with InInline => lb <| lb_buckets_inline := v |> | InVector => lb <| lb_buckets := v |> | InNew => lb end.

(** The array [a] is now [v]. *)
Definition write_at (a : buckets_at) (v : list dpo_id_t) : M unit :=
  match a with InNew => fun st => Some (tt, st <| st_new := v |>) | _ => store (with_at a v) end.

(** A store of bucket [i] by [f], from what it holds. *)
Definition update_bucket (a : buckets_at) (i : Z) (f : dpo_id_t -> dpo_refs -> dpo_id_t * dpo_refs) : M unit :=
  fun st =>
    old ← vec_elt (read_at a st) i;
    let '(d, r) := f old (st_refs st) in
    bind (write_at a (<[Z.to_nat i := d]> (read_at a st))) (fun _ => set_refs (fun _ => r)) st.

Definition reset_bucket (a : buckets_at) (i : Z) : M unit := update_bucket a i dpo_reset.

(** ** Operations *)

Section Update.
Variable next_node : Z -> Z -> dpo_id_t -> Z.
Variable qsort : list load_balance_path_t -> list load_balance_path_t.
Variable resolved : Z -> bool.

Definition load_balance_set_bucket_i (a : buckets_at) (bucket : Z) (next : dpo_id_t) : M unit :=
  let! lb := get_lb in
  update_bucket a bucket (fun old r => dpo_stack_i (next_node DPO_LOAD_BALANCE (lb_proto lb) next) old next r).

(** [n] buckets for one path. *)
Fixpoint fill_path (a : buckets_at) (next : dpo_id_t) (n : nat) (bucket : Z) : M Z :=
  match n with
  | O => ret bucket
  | S n => load_balance_set_bucket_i a bucket next;;! fill_path a next n (u16 (bucket + 1))
  end.

Fixpoint load_balance_fill_buckets_norm (a : buckets_at) (nhs : list load_balance_path_t) (bucket : Z) : M unit :=
  match nhs with
  | [] => ret tt
  | nh :: nhs => let! bucket := fill_path a (path_dpo nh) (Z.to_nat (path_weight nh)) bucket in load_balance_fill_buckets_norm a nhs bucket
  end.

(** [n] buckets of a path that is down, from the forwarding paths in turn. *)
Fixpoint fill_from (a : buckets_at) (fwding_paths : list load_balance_path_t) (n : nat) (bucket fpath : Z) : M (Z * Z) :=
  match n with
  | O => ret (bucket, fpath)
  | S n =>
      let! nh := lift (vec_elt fwding_paths fpath) in
      load_balance_set_bucket_i a bucket (path_dpo nh);;!
      fill_from a fwding_paths n (u16 (bucket + 1)) (u16 (fpath + 1) mod Z.of_nat (length fwding_paths))
  end.

Fixpoint fill_sticky_from (a : buckets_at) (fwding_paths nhs : list load_balance_path_t) (bucket fpath : Z) : M unit :=
  match nhs with
  | [] => ret tt
  | nh :: nhs =>
      let! s := (if negb (dpo_is_drop (path_dpo nh)) then
                   let! b := fill_path a (path_dpo nh) (Z.to_nat (path_weight nh)) bucket in ret (b, fpath)
                 else fill_from a fwding_paths (Z.to_nat (path_weight nh)) bucket fpath) in
      fill_sticky_from a fwding_paths nhs (fst s) (snd s)
  end.

(** The paths that are not drops, or all of them. *)
Definition fwding_paths_of (nhs : list load_balance_path_t) : list load_balance_path_t :=
  match filter (fun nh => dpo_is_drop (path_dpo nh) = false) nhs with [] => nhs | l => l end.

Definition load_balance_fill_buckets_sticky (a : buckets_at) (nhs : list load_balance_path_t) : M unit :=
  fill_sticky_from a (fwding_paths_of nhs) nhs 0 0.

Definition load_balance_fill_buckets (a : buckets_at) (nhs : list load_balance_path_t) (flags : Z) : M unit :=
  if negb (Z.land flags LOAD_BALANCE_FLAG_STICKY =? 0) then load_balance_fill_buckets_sticky a nhs
  else load_balance_fill_buckets_norm a nhs 0.

Definition load_balance_set_n_buckets (n_buckets : Z) : M unit :=
  store (fun lb => lb <| lb_n_buckets := u16 n_buckets |>);;!
  store (fun lb => lb <| lb_n_buckets_minus_1 := u16 (n_buckets - 1) |>).

(** [vec_validate (v, n - 1)]: new elements are zero. *)
Definition vec_validate_buckets (v : list dpo_id_t) (n : Z) : list dpo_id_t := v ++ replicate (Z.to_nat n - length v) dpo_zero.

Definition validate_buckets (n_buckets : Z) : M unit := store (fun lb => lb <| lb_buckets := vec_validate_buckets (lb_buckets lb) n_buckets |>).

(** [dpo_reset] of the buckets [from], [from + 1], ... *)
Fixpoint reset_from (a : buckets_at) (n : nat) (from : Z) : M unit :=
  match n with
  | O => ret tt
  | S n => reset_bucket a from;;! reset_from a n (from + 1)
  end.

(** More buckets. *)
Definition update_grow (nhs : list load_balance_path_t) (n_buckets flags lbmi : Z) : M unit :=
  let! lb := get_lb in
  (if (LB_NUM_INLINE_BUCKETS <? n_buckets) && (lb_n_buckets lb <=? LB_NUM_INLINE_BUCKETS) then
     validate_buckets n_buckets;;!
     load_balance_fill_buckets InVector nhs flags;;!
     load_balance_set_n_buckets n_buckets;;!
     reset_from InInline 4 0
   else if n_buckets <=? LB_NUM_INLINE_BUCKETS then
     load_balance_fill_buckets (load_balance_get_buckets lb) nhs flags;;!
     load_balance_set_n_buckets n_buckets
   else
     let! st := get in
     let old_buckets := read_at (load_balance_get_buckets lb) st in
     write_at InNew (vec_validate_buckets [] n_buckets);;!
     load_balance_fill_buckets InNew nhs flags;;!
     let! st := get in
     store (fun lb => lb <| lb_buckets := st_new st |>);;!
     load_balance_set_n_buckets n_buckets;;!
     reset_all old_buckets);;!
  store (fun lb => lb <| lb_map := lbmi |>).

(** Fewer buckets. *)
Definition update_shrink (nhs : list load_balance_path_t) (n_buckets flags lbmi : Z) : M unit :=
  store (fun lb => lb <| lb_map := lbmi |>);;!
  let! lb := get_lb in
  if (n_buckets <=? LB_NUM_INLINE_BUCKETS) && (LB_NUM_INLINE_BUCKETS <? lb_n_buckets lb) then
    load_balance_fill_buckets InInline nhs flags;;!
    load_balance_set_n_buckets n_buckets;;!
    let! lb := get_lb in
    reset_from InVector (length (lb_buckets lb)) 0;;!
    store (fun lb => lb <| lb_buckets := [] |>)
  else
    let old_n_buckets := lb_n_buckets lb in
    let buckets := load_balance_get_buckets lb in
    load_balance_set_n_buckets n_buckets;;!
    load_balance_fill_buckets buckets nhs flags;;!
    reset_from buckets (Z.to_nat (old_n_buckets - n_buckets)) n_buckets.

(** First time: no packets in flight. *)
Definition update_first (nhs : list load_balance_path_t) (n_buckets flags lbmi : Z) : M unit :=
  load_balance_set_n_buckets n_buckets;;!
  let! lb := get_lb in
  (if negb (LB_HAS_INLINE_BUCKETS lb) then validate_buckets n_buckets else ret tt);;!
  load_balance_fill_buckets (load_balance_get_buckets lb) nhs flags;;!
  store (fun lb => lb <| lb_map := lbmi |>).

Definition update_buckets (nhs : list load_balance_path_t) (n_buckets flags lbmi : Z) : M unit :=
  let! lb := get_lb in
  if 0 =? lb_n_buckets lb then update_first nhs n_buckets flags lbmi
  else if n_buckets =? lb_n_buckets lb then
    load_balance_fill_buckets (load_balance_get_buckets lb) nhs flags;;!
    store (fun lb => lb <| lb_map := lbmi |>)
  else if lb_n_buckets lb <? n_buckets then update_grow nhs n_buckets flags lbmi
  else update_shrink nhs n_buckets flags lbmi.

(** Without a path, the drop object; the code leaves the path index unset. *)
Definition load_balance_multipath_next_hop_fixup (nhs : list load_balance_path_t) (drop_proto : Z) : M (option (list load_balance_path_t)) :=
  match nhs with
  | [] =>
      set_refs (fun r => snd (dpo_copy dpo_zero (drop_dpo_get drop_proto) r));;!
      ret (Some [mk_path (drop_dpo_get drop_proto) 0 1])
  | _ => ret None
  end.

Definition load_balance_multipath_update (raw_nhs : list load_balance_path_t) (flags : Z) : M unit :=
  store (fun lb => lb <| lb_flags := flags |>);;!
  let! lb := get_lb in
  let! fixed_nhs := load_balance_multipath_next_hop_fixup raw_nhs (lb_proto lb) in
  let! r := lift (ip_multipath_normalize_next_hops qsort (default raw_nhs fixed_nhs) multipath_next_hop_error_tolerance) in
  reset_all (map path_dpo (nm_truncated r));;!
  let old_lbmi := lb_map lb in
  let! lbmi :=
    (if negb (Z.land flags LOAD_BALANCE_FLAG_USES_MAP =? 0) then
       let! st := get in
       let! m := lift (load_balance_map_add_or_lock resolved (st_maps st) (nm_n_adj r) (nm_sum_weight r) (nm_nhs r)) in
       set_maps (fst m);;! ret (snd m)
     else ret INDEX_INVALID) in
  update_buckets (nm_nhs r) (nm_n_adj r) flags lbmi;;!
  reset_all (map path_dpo (nm_nhs r));;!
  let! st := get in
  let! maps := lift (load_balance_map_unlock (st_maps st) old_lbmi) in
  set_maps maps.

End Update.
