(* ===== verification/LbFill.v ===== *)
(** * Load-balances: filling arrays of buckets

    The loops that fill buckets write the objects of the paths one after the other;
    what they write, what references they move and what workers see meanwhile. *)

From stdpp Require Import gmap.
From S2P Require Import Prelude Pool Float Dpo LbNormalize FibNodeList LoadBalanceMap LoadBalance.

Section Fill.
Variable next_node : Z -> Z -> dpo_id_t -> Z.

(** What a bucket holds when it is stacked on [d]. *)
Definition stacked (proto : Z) (d : dpo_id_t) : dpo_id_t := d <| dpoi_next_node := u16 (next_node DPO_LOAD_BALANCE proto d) |>.

(** The objects for the buckets in order: of each path as many as its weight. *)
Definition norm_dpos (nhs : list load_balance_path_t) : list dpo_id_t :=
  concat (map (fun nh => replicate (Z.to_nat (path_weight nh)) (path_dpo nh)) nhs).

(** [n] objects of the forwarding paths, in turn from [fpath] on. *)
Fixpoint turn_dpos (fwd : list load_balance_path_t) (n : nat) (fpath : Z) : list dpo_id_t :=
  match n with
  | O => []
  | S n => default dpo_zero (path_dpo <$> vec_elt fwd fpath) :: turn_dpos fwd n ((fpath + 1) mod Z.of_nat (length fwd))
  end.

(** Sticky: the buckets of a drop go to the forwarding paths. *)
Fixpoint sticky_dpos (fwd nhs : list load_balance_path_t) (fpath : Z) : list dpo_id_t :=
  match nhs with
  | [] => []
  | nh :: nhs =>
      let n := Z.to_nat (path_weight nh) in
      if negb (dpo_is_drop (path_dpo nh)) then replicate n (path_dpo nh) ++ sticky_dpos fwd nhs fpath
      else turn_dpos fwd n fpath ++ sticky_dpos fwd nhs ((fpath + Z.of_nat n) mod Z.of_nat (length fwd))
  end.

Definition fill_dpos (flags : Z) (nhs : list load_balance_path_t) : list dpo_id_t :=
  if negb (Z.land flags LOAD_BALANCE_FLAG_STICKY =? 0) then sticky_dpos (fwding_paths_of nhs) nhs 0 else norm_dpos nhs.

(** One bucket after the other. *)
Fixpoint stack_list (a : buckets_at) (ds : list dpo_id_t) (b : Z) : M unit :=
  match ds with
  | [] => ret tt
  | d :: ds => load_balance_set_bucket_i next_node a b d;;! stack_list a ds (b + 1)
  end.

(** ** The loops as one *)

Lemma stack_app a ds1 ds2 b st : stack_list a (ds1 ++ ds2) b st = (stack_list a ds1 b;;! stack_list a ds2 (b + Z.of_nat (length ds1))) st.
Proof.
  revert b st. induction ds1 as [|d ds IH]; intros b st; [cbn; now rewrite Z.add_0_r|]. cbn [app stack_list length]. unfold bind.
  destruct (load_balance_set_bucket_i _ _ _ _ _) as [[[] st1]|]; [|reflexivity]. rewrite IH. unfold bind.
  replace (b + 1 + Z.of_nat (length ds)) with (b + Z.of_nat (S (length ds))) by lia. reflexivity.
Qed.

Lemma fill_path_stack a d n : forall b st, 0 <= b -> b + Z.of_nat n < 2 ^ 16 ->
  fill_path next_node a d n b st = (stack_list a (replicate n d) b;;! ret (b + Z.of_nat n)) st.
Proof.
  induction n as [|n IH]; intros b st Hb Hn; [cbn; now rewrite Z.add_0_r|]. cbn [fill_path replicate stack_list]. unfold bind.
  destruct (load_balance_set_bucket_i _ _ _ _ _) as [[[] st1]|]; [|reflexivity]. unfold u16. rewrite Z.mod_small by lia. rewrite IH by lia. unfold bind.
  replace (b + 1 + Z.of_nat n) with (b + Z.of_nat (S n)) by lia. reflexivity.
Qed.

Lemma fill_from_stack a fwd n : fwd <> [] -> Z.of_nat (length fwd) < 2 ^ 16 -> forall b f st, 0 <= b -> b + Z.of_nat n < 2 ^ 16 -> 0 <= f < Z.of_nat (length fwd) ->
  fill_from next_node a fwd n b f st = (stack_list a (turn_dpos fwd n f) b;;! ret (b + Z.of_nat n, (f + Z.of_nat n) mod Z.of_nat (length fwd))) st.
Proof.
  intros Hne Hlen. induction n as [|n IH]; intros b f st Hb Hn Hf; [cbn; now rewrite !Z.add_0_r, Z.mod_small by lia|]. cbn [fill_from turn_dpos stack_list]. unfold bind, lift.
  destruct (vec_elt fwd f) as [nh|] eqn:E.
  - cbn [mbind option_bind fmap option_fmap option_map default]. unfold default, id. destruct (load_balance_set_bucket_i _ _ _ _ _) as [[[] st1]|]; [|reflexivity].
    unfold u16. rewrite !(Z.mod_small _ (2 ^ 16)) by lia. rewrite IH by (try apply Z.mod_pos_bound; lia). unfold bind. rewrite Zplus_mod_idemp_l.
    replace (b + 1 + Z.of_nat n) with (b + Z.of_nat (S n)) by lia. now replace (f + 1 + Z.of_nat n) with (f + Z.of_nat (S n)) by lia.
  - exfalso. unfold vec_elt in E. destruct (Z.ltb_spec f 0); [lia|]. apply lookup_ge_None in E. lia.
Qed.

Lemma length_turn fwd n f : length (turn_dpos fwd n f) = n.
Proof. revert f. induction n as [|n IH]; intros f; cbn; [reflexivity|]. now rewrite IH. Qed.

Definition weights_ok (nhs : list load_balance_path_t) : Prop := Forall (fun p => 0 < path_weight p) nhs /\ sum_list (map path_weight nhs) <= LB_MAX_BUCKETS.

Lemma weights_ok_cons nh nhs : weights_ok (nh :: nhs) -> 0 < path_weight nh /\ weights_ok nhs /\ path_weight nh + sum_list (map path_weight nhs) <= LB_MAX_BUCKETS /\ 0 <= sum_list (map path_weight nhs).
Proof.
  intros [H1 H2]. inversion H1 as [|? ? Hp Hps]; subst. cbn in H2. assert (0 <= sum_list (map path_weight nhs)) as H0 by (clear -Hps; induction Hps; cbn; lia).
  split; [exact Hp|]. split; [split; [exact Hps|lia]|]. split; assumption.
Qed.

Lemma norm_stack a nhs : weights_ok nhs -> forall b st, 0 <= b -> b + sum_list (map path_weight nhs) <= LB_MAX_BUCKETS ->
  load_balance_fill_buckets_norm next_node a nhs b st = stack_list a (norm_dpos nhs) b st.
Proof.
  unfold LB_MAX_BUCKETS. induction nhs as [|nh nhs IH]; intros Hw b st Hb Hs; [reflexivity|]. apply weights_ok_cons in Hw as (Hp & Hw & _ & H0). cbn [map sum_list foldr] in Hs. unfold sum_list in *.
  cbn [load_balance_fill_buckets_norm]. unfold norm_dpos. cbn [map concat]. fold (norm_dpos nhs). rewrite stack_app. unfold bind. rewrite fill_path_stack by lia. unfold bind, ret.
  destruct (stack_list a (replicate _ _) b st) as [[[] st1]|]; [|reflexivity]. rewrite length_replicate, Z2Nat.id by lia. apply IH; [exact Hw|lia|lia].
Qed.

Lemma sticky_stack a fwd nhs : fwd <> [] -> Z.of_nat (length fwd) < 2 ^ 16 -> weights_ok nhs -> forall b f st, 0 <= b -> b + sum_list (map path_weight nhs) <= LB_MAX_BUCKETS -> 0 <= f < Z.of_nat (length fwd) ->
  fill_sticky_from next_node a fwd nhs b f st = stack_list a (sticky_dpos fwd nhs f) b st.
Proof.
  unfold LB_MAX_BUCKETS. intros Hne Hlen. induction nhs as [|nh nhs IH]; intros Hw b f st Hb Hs Hf; [reflexivity|]. apply weights_ok_cons in Hw as (Hp & Hw & _ & H0). cbn [map sum_list foldr] in Hs. unfold sum_list in *.
  cbn [fill_sticky_from sticky_dpos]. destruct (negb _); rewrite stack_app; unfold bind.
  - rewrite fill_path_stack by lia. unfold bind, ret. destruct (stack_list a (replicate _ _) b st) as [[[] st1]|]; [|reflexivity]. cbn [fst snd].
    rewrite length_replicate, Z2Nat.id by lia. apply IH; [exact Hw|lia|lia|lia].
  - rewrite fill_from_stack by (assumption || lia). unfold bind, ret. destruct (stack_list a (turn_dpos _ _ _) b st) as [[[] st1]|]; [|reflexivity]. cbn [fst snd].
    rewrite length_turn, Z2Nat.id by lia. apply IH; [exact Hw|lia|lia|apply Z.mod_pos_bound; lia].
Qed.

Lemma weights_length nhs : weights_ok nhs -> Z.of_nat (length nhs) <= sum_list (map path_weight nhs).
Proof. intros [H _]. induction H; cbn [length map sum_list foldr]; unfold sum_list in *; lia. Qed.

Lemma fwding_some nhs : nhs <> [] -> fwding_paths_of nhs <> [].
Proof. unfold fwding_paths_of. now destruct (filter _ nhs). Qed.

Lemma fwding_length nhs : (length (fwding_paths_of nhs) <= length nhs)%nat.
Proof. unfold fwding_paths_of. pose proof (length_filter (fun nh => dpo_is_drop (path_dpo nh) = false) nhs). destruct (filter _ nhs); lia. Qed.

(** Filling is one list of stores. *)
Lemma fill_stack a nhs flags st : nhs <> [] -> weights_ok nhs ->
  load_balance_fill_buckets next_node a nhs flags st = stack_list a (fill_dpos flags nhs) 0 st.
Proof.
  intros Hne Hw. unfold load_balance_fill_buckets, fill_dpos. pose proof Hw as [_ Hmax]. destruct (negb _).
  - pose proof (weights_length _ Hw) as Hl. pose proof (fwding_length nhs) as Hf. pose proof (fwding_some nhs Hne) as Hs. unfold LB_MAX_BUCKETS in *. apply sticky_stack; try assumption; try lia.
    destruct (fwding_paths_of nhs); [easy|]. cbn. lia.
  - apply norm_stack; [exact Hw|lia|exact Hmax].
Qed.

Lemma length_fill_dpos flags nhs : weights_ok nhs -> Z.of_nat (length (fill_dpos flags nhs)) = sum_list (map path_weight nhs).
Proof.
  intros Hw. unfold fill_dpos. assert (forall fwd f, Z.of_nat (length (sticky_dpos fwd nhs f)) = sum_list (map path_weight nhs)) as Hst.
  { intros fwd. induction nhs as [|nh nhs IH]; intros f; [reflexivity|]. apply weights_ok_cons in Hw as (Hp & Hw & _). cbn [sticky_dpos map sum_list foldr]. unfold sum_list in *.
    destruct (negb _); rewrite length_app, ?length_replicate, ?length_turn, Nat2Z.inj_add, IH by exact Hw; lia. }
  destruct (negb _); [apply Hst|]. clear Hst. induction nhs as [|nh nhs IH]; [reflexivity|]. apply weights_ok_cons in Hw as (Hp & Hw & _). unfold norm_dpos in *. cbn [map concat sum_list foldr]. unfold sum_list in *.
  rewrite length_app, length_replicate, Nat2Z.inj_add, IH by exact Hw. lia.
Qed.

(** ** What the stores do *)

(** [l] written over [v] from [b] on. *)
Definition patch (v : list dpo_id_t) (b : nat) (l : list dpo_id_t) : list dpo_id_t := take b v ++ l ++ drop (b + length l) v.

Lemma patch_insert v b x : (b < length v)%nat -> <[b := x]> v = patch v b [x].
Proof. intros H. unfold patch. rewrite insert_take_drop by exact H. cbn [app length]. now rewrite Nat.add_1_r. Qed.

Lemma patch_cons v b x l : (b < length v)%nat -> patch (patch v b [x]) (S b) l = patch v b (x :: l).
Proof.
  intros H. unfold patch. cbn [length]. set (D := drop (b + 1) v). assert (length (take b v ++ [x]) = S b) as Hl by (rewrite length_app, length_take; cbn; lia).
  rewrite (app_assoc (take b v) [x] D), <- Hl, take_app_length, drop_app_add', <- app_assoc by reflexivity. cbn [app]. do 3 f_equal. unfold D. rewrite drop_drop. f_equal. lia.
Qed.

Lemma length_patch v b l : (b + length l <= length v)%nat -> length (patch v b l) = length v.
Proof. intros H. unfold patch. rewrite !length_app, length_take, length_drop. lia. Qed.

(** From [st] to [st'] only the array [a] was written; workers saw it as [V] says. *)
Record wrote (a : buckets_at) (v' : list dpo_id_t) (V : list dpo_id_t -> Prop) (st st' : lb_state) : Prop := {
  wr_lb : st_lb st' = with_at a v' (st_lb st);
  wr_new : st_new st' = match a with InNew => v' | _ => st_new st end;
  wr_maps : st_maps st' = st_maps st;
  wr_trace : exists t, st_trace st' = t ++ st_trace st /\ Forall (fun x => exists v, V v /\ x = (with_at a v (st_lb st), st_maps st)) t
}.

Lemma read_wrote a v V st st' : wrote a v V st st' -> read_at a st' = v.
Proof. intros [H1 H2 _ _]. destruct a; cbn; [rewrite H1|rewrite H1|]; auto. Qed.

Lemma with_at_at a v1 v2 lb : with_at a v2 (with_at a v1 lb) = with_at a v2 lb.
Proof. now destruct a. Qed.

Lemma wrote_trans a v1 v2 V st st1 st2 : wrote a v1 V st st1 -> wrote a v2 V st1 st2 -> wrote a v2 V st st2.
Proof.
  intros [A1 A2 A3 (t1 & A4 & A5)] [B1 B2 B3 (t2 & B4 & B5)]. split.
  - now rewrite B1, A1, with_at_at.
  - rewrite B2. destruct a; auto.
  - congruence.
  - exists (t2 ++ t1). rewrite B4, A4, app_assoc. split; [reflexivity|]. apply Forall_app. split; [|exact A5].
    eapply Forall_impl; [exact B5|]. cbn. intros x (v & Hv & ->). exists v. now rewrite A1, A3, with_at_at.
Qed.

Lemma wrote_impl a v (V V' : list dpo_id_t -> Prop) st st' : (forall v, V v -> V' v) -> wrote a v V st st' -> wrote a v V' st st'.
Proof.
  intros HV [H1 H2 H3 (t & H4 & H5)]. split; try assumption. exists t. split; [exact H4|]. eapply Forall_impl; [exact H5|]. cbn. intros x (w & Hw & ->). eauto.
Qed.

Lemma wrote_refl a V st : wrote a (read_at a st) V st st.
Proof. split; try (now destruct st as [[] ? ? ? ?], a). exists []. now split. Qed.

(** A store of one bucket. *)
Lemma update_bucket_spec a i f st old : vec_elt (read_at a st) i = Some old ->
  exists st', update_bucket a i f st = Some (tt, st') /\ wrote a (<[Z.to_nat i := fst (f old (st_refs st))]> (read_at a st)) (fun v => v = <[Z.to_nat i := fst (f old (st_refs st))]> (read_at a st)) st st'
    /\ st_refs st' = snd (f old (st_refs st)).
Proof.
  intros E. unfold update_bucket. rewrite E. cbn [mbind option_bind]. destruct (f old (st_refs st)) as [d r]. cbn [fst snd]. unfold bind.
  destruct a; cbn [write_at]; (eexists; split; [reflexivity|]); (split; [|reflexivity]); split; try reflexivity.
  - eexists [_]. split; [reflexivity|]. constructor; [|constructor]. eexists. split; reflexivity.
  - eexists [_]. split; [reflexivity|]. constructor; [|constructor]. eexists. split; reflexivity.
  - exists []. now split.
Qed.

(** A list of objects stacked from bucket [b] on. *)
Lemma stack_list_spec a ds : forall b st, (b + length ds <= length (read_at a st))%nat ->
  exists st', stack_list a ds (Z.of_nat b) st = Some (tt, st')
    /\ wrote a (patch (read_at a st) b (map (stacked (lb_proto (st_lb st))) ds)) (fun v => exists j, v = patch (read_at a st) b (map (stacked (lb_proto (st_lb st))) (take j ds))) st st'
    /\ forall k, refs_of (st_refs st') k = refs_of (st_refs st) k + held k ds - held k (take (length ds) (drop b (read_at a st))).
Proof.
  induction ds as [|d ds IH]; intros b st Hlen; cbn [stack_list length] in *.
  - exists st. split; [reflexivity|]. split; [|intros k; rewrite take_0; cbn; lia]. unfold patch. cbn. rewrite Nat.add_0_r, take_drop. apply wrote_refl.
  - destruct (lookup_lt_is_Some_2 (read_at a st) b) as [old Hold]; [lia|]. set (v := read_at a st) in *. set (proto := lb_proto (st_lb st)) in *.
    assert (vec_elt v (Z.of_nat b) = Some old) as Hv by (unfold vec_elt; destruct (Z.ltb_spec (Z.of_nat b) 0); [lia|]; now rewrite Nat2Z.id).
    unfold bind at 1. unfold load_balance_set_bucket_i. unfold bind at 1, get_lb.
    destruct (update_bucket_spec a (Z.of_nat b) (fun old r => dpo_stack_i (next_node DPO_LOAD_BALANCE proto d) old d r) st old Hv) as (st1 & E1 & W1 & R1).
    fold proto. rewrite E1. destruct (dpo_stack_spec (next_node DPO_LOAD_BALANCE proto d) old d (st_refs st)) as [S1 S2]. rewrite S1 in W1. fold (stacked proto d) in W1.
    rewrite Nat2Z.id in W1. fold v in W1. rewrite patch_insert in W1 by lia. pose proof (read_wrote _ _ _ _ _ W1) as Hr1.
    assert (lb_proto (st_lb st1) = proto) as Hp1 by (rewrite (wr_lb _ _ _ _ _ W1); now destruct a).
    destruct (IH (S b) st1) as (st2 & E2 & W2 & R2). { rewrite Hr1, length_patch; cbn; lia. }
    replace (Z.of_nat b + 1) with (Z.of_nat (S b)) by lia. exists st2. split; [exact E2|]. rewrite Hr1, Hp1 in *. split.
    + cbn [map]. rewrite <- patch_cons by lia. eapply wrote_trans; [eapply wrote_impl; [|exact W1]|eapply wrote_impl; [|exact W2]]; cbn.
      * intros w ->. exists 1%nat. cbn. now rewrite take_0.
      * intros w (j & ->). exists (S j). cbn [take map]. now rewrite patch_cons by lia.
    + intros k. rewrite R2, R1, S2. cbn [held]. assert (take (length ds) (drop (S b) (patch v b [stacked proto d])) = take (length ds) (drop (S b) v)) as ->.
      { unfold patch. rewrite app_assoc, drop_app_length' by (rewrite length_app, length_take; cbn; lia). cbn [length]. now rewrite Nat.add_1_r. }
      rewrite (drop_S v old b Hold). cbn [take held]. lia.
Qed.

(** Resetting buckets [b], [b + 1], ... *)
Lemma reset_from_spec a n : forall b st, (b + n <= length (read_at a st))%nat ->
  exists st', reset_from a n (Z.of_nat b) st = Some (tt, st')
    /\ wrote a (patch (read_at a st) b (replicate n DPO_INVALID)) (fun v => exists j, (j <= n)%nat /\ v = patch (read_at a st) b (replicate j DPO_INVALID)) st st'
    /\ forall k, refs_of (st_refs st') k = refs_of (st_refs st) k - held k (take n (drop b (read_at a st))).
Proof.
  induction n as [|n IH]; intros b st Hlen; cbn [reset_from].
  - exists st. split; [reflexivity|]. split; [|intros k; rewrite take_0; cbn; lia]. unfold patch. cbn. rewrite Nat.add_0_r, take_drop. apply wrote_refl.
  - destruct (lookup_lt_is_Some_2 (read_at a st) b) as [old Hold]; [lia|]. set (v := read_at a st) in *.
    assert (vec_elt v (Z.of_nat b) = Some old) as Hv by (unfold vec_elt; destruct (Z.ltb_spec (Z.of_nat b) 0); [lia|]; now rewrite Nat2Z.id).
    unfold bind at 1. unfold reset_bucket. destruct (update_bucket_spec a (Z.of_nat b) dpo_reset st old Hv) as (st1 & E1 & W1 & R1). rewrite E1.
    change (fst (dpo_reset old (st_refs st))) with DPO_INVALID in W1. rewrite Nat2Z.id in W1. fold v in W1. rewrite patch_insert in W1 by lia. pose proof (read_wrote _ _ _ _ _ W1) as Hr1.
    destruct (IH (S b) st1) as (st2 & E2 & W2 & R2). { rewrite Hr1, length_patch; cbn; lia. }
    replace (Z.of_nat b + 1) with (Z.of_nat (S b)) by lia. exists st2. split; [exact E2|]. rewrite Hr1 in *. split.
    + cbn [replicate]. rewrite <- patch_cons by lia. eapply wrote_trans; [eapply wrote_impl; [|exact W1]|eapply wrote_impl; [|exact W2]]; cbn.
      * intros w ->. exists 1%nat. split; [lia|reflexivity].
      * intros w (j & Hj & ->). exists (S j). split; [lia|]. cbn [replicate]. now rewrite patch_cons by lia.
    + intros k. rewrite R2, R1, refs_reset. assert (take n (drop (S b) (patch v b [DPO_INVALID])) = take n (drop (S b) v)) as ->.
      { unfold patch. rewrite app_assoc, drop_app_length' by (rewrite length_app, length_take; cbn; lia). cbn [length]. now rewrite Nat.add_1_r. }
      rewrite (drop_S v old b Hold). cbn [take held]. lia.
Qed.

End Fill.
