(* ===== verification/LbUpdate.v ===== *)
(** * Load-balances: the update

    [update_buckets] replaces the buckets of a load-balance.  On every branch the
    object ends with the buckets of the new paths, the references of the old buckets
    are released, and every state that workers can see in between leads packets to
    an object of the old or of the new paths. *)

From stdpp Require Import gmap.
From S2P Require Import Prelude Pool Float Dpo LbNormalize FibNodeList LoadBalanceMap LoadBalance LbFill.

(** ** Invariant of an object *)

(** The array in use, the buckets in use, and the slots that are not. *)
Definition arr (lb : load_balance_t) : list dpo_id_t := if LB_HAS_INLINE_BUCKETS lb then lb_buckets_inline lb else lb_buckets lb.
Definition cur (lb : load_balance_t) : list dpo_id_t := take (Z.to_nat (lb_n_buckets lb)) (arr lb).
Definition unused (lb : load_balance_t) : list dpo_id_t :=
  drop (Z.to_nat (lb_n_buckets lb)) (arr lb) ++ (if LB_HAS_INLINE_BUCKETS lb then lb_buckets lb else lb_buckets_inline lb).

Abbreviation uncounted := (Forall (fun d => counted d = false)).

Record lb_ok (lb : load_balance_t) : Prop := {
  lo_n : lb_n_buckets lb = 0 \/ exists k, 0 <= k <= 13 /\ lb_n_buckets lb = 2 ^ k;
  lo_minus : lb_n_buckets_minus_1 lb = u16 (lb_n_buckets lb - 1);
  lo_inline : length (lb_buckets_inline lb) = 4%nat;
  lo_small : lb_n_buckets lb <= LB_NUM_INLINE_BUCKETS -> lb_buckets lb = [];
  lo_large : lb_n_buckets lb <= Z.of_nat (length (arr lb));
  lo_unused : uncounted (unused lb)
}.

(** The fields that the update does not touch. *)
Definition same_fields (lb lb' : load_balance_t) : Prop :=
  lb_proto lb' = lb_proto lb /\ lb_flags lb' = lb_flags lb /\ lb_fib_entry_flags lb' = lb_fib_entry_flags lb /\ lb_locks lb' = lb_locks lb
  /\ lb_urpf lb' = lb_urpf lb /\ lb_hash_config lb' = lb_hash_config lb.

Lemma pow2_range k : 0 <= k <= 13 -> 1 <= 2 ^ k <= 8192.
Proof. intros H. pose proof (Z.pow_pos_nonneg 2 k ltac:(lia) ltac:(lia)). pose proof (Z.pow_le_mono_r 2 k 13 ltac:(lia) ltac:(lia)). change (2 ^ 13) with 8192 in *. lia. Qed.

Lemma n_range lb : lb_ok lb -> 0 <= lb_n_buckets lb <= 8192.
Proof. intros H. destruct (lo_n _ H) as [->|(k & Hk & ->)]; [lia|]. pose proof (pow2_range k Hk). lia. Qed.

(** What an object holds is what its buckets in use hold. *)
Lemma held_cur lb k : lb_ok lb -> held k (lb_buckets_inline lb) + held k (lb_buckets lb) = held k (cur lb).
Proof.
  intros H. pose proof (held_uncounted k _ (lo_unused _ H)) as Hu. unfold unused, cur, arr in *. rewrite held_app in Hu.
  destruct (LB_HAS_INLINE_BUCKETS lb); [rewrite <- (take_drop (Z.to_nat (lb_n_buckets lb)) (lb_buckets_inline lb)) at 1|rewrite <- (take_drop (Z.to_nat (lb_n_buckets lb)) (lb_buckets lb)) at 1]; rewrite held_app; lia.
Qed.

(** ** Readers *)

(** The map [lbmi] translates [n] buckets into [n] buckets. *)
Definition fits (maps : lb_maps) (lbmi n : Z) : Prop :=
  exists m, load_balance_map_get maps lbmi = Some m /\ Z.of_nat (length (lbm_buckets m)) = n /\ Forall (fun b => 0 <= b < n) (lbm_buckets m).

(** Every packet gets an object of [A]. *)
Definition safe (A : list dpo_id_t) (x : load_balance_t * lb_maps) : Prop :=
  forall hash, 0 <= hash -> exists d, worker_bucket (snd x) (fst x) hash = Some d /\ d ∈ A.

(** The first [c] elements of [v] are in [A]. *)
Definition prefix_in (A v : list dpo_id_t) (c : Z) : Prop := c <= Z.of_nat (length v) /\ Forall (fun d => d ∈ A) (take (Z.to_nat c) v).

Lemma prefix_elt A v c i : prefix_in A v c -> 0 <= i < c -> exists d, vec_elt v i = Some d /\ d ∈ A.
Proof.
  intros [Hl Hf] Hi. destruct (lookup_lt_is_Some_2 v (Z.to_nat i)) as [d Hd]; [lia|]. exists d. split.
  - unfold vec_elt. destruct (Z.ltb_spec i 0); [lia|exact Hd].
  - rewrite Forall_lookup in Hf. apply (Hf (Z.to_nat i)). rewrite lookup_take_lt by lia. exact Hd.
Qed.

(** How many buckets a worker may read. *)
Definition reads (lb : load_balance_t) : Z := if 1 <? lb_n_buckets lb then lb_n_buckets_minus_1 lb + 1 else 1.

Lemma land_le a b : 0 <= a -> 0 <= b -> Z.land a b <= b.
Proof.
  intros Ha Hb. rewrite <- (Z2N.id a), <- (Z2N.id b) by assumption. rewrite <- N2Z.inj_land. apply N2Z.inj_le, N.land_le_r.
Qed.

Lemma safe_intro A lb maps : 0 <= lb_n_buckets_minus_1 lb -> prefix_in A (arr lb) (reads lb) -> lb_map lb = INDEX_INVALID \/ fits maps (lb_map lb) (reads lb) -> safe A (lb, maps).
Proof.
  intros Hm Hp Hmap hash Hh. cbn [fst snd]. unfold worker_bucket, load_balance_get_fwd_bucket, load_balance_get_bucket_i. unfold arr, reads in *. destruct (Z.ltb_spec 1 (lb_n_buckets lb)).
  - set (i := Z.land hash (lb_n_buckets_minus_1 lb)). assert (0 <= i < lb_n_buckets_minus_1 lb + 1) as Hi.
    { split; [apply Z.land_nonneg; now right|]. pose proof (land_le hash (lb_n_buckets_minus_1 lb) Hh Hm). subst i. lia. }
    assert (exists j, (if negb (INDEX_INVALID =? lb_map lb) then load_balance_map_translate maps (lb_map lb) i else Some i) = Some j /\ 0 <= j < lb_n_buckets_minus_1 lb + 1) as (j & -> & Hj).
    { destruct (Z.eqb_spec INDEX_INVALID (lb_map lb)) as [E|E]; cbn [negb]; [now exists i|]. destruct Hmap as [|(m & Hg & Hl & Hf)]; [congruence|]. unfold load_balance_map_translate. rewrite Hg. cbn [mbind option_bind].
      destruct (lookup_lt_is_Some_2 (lbm_buckets m) (Z.to_nat i)) as [j Hj]; [lia|]. exists j. rewrite Forall_lookup in Hf. split; [|exact (Hf _ _ Hj)]. unfold vec_elt. destruct (Z.ltb_spec i 0); [lia|exact Hj]. }
    cbn [mbind option_bind]. destruct (LB_HAS_INLINE_BUCKETS lb); exact (prefix_elt _ _ _ j Hp Hj).
  - destruct (LB_HAS_INLINE_BUCKETS lb); apply (prefix_elt _ _ _ 0 Hp); lia.
Qed.

(** ** Traces *)

Definition ext (Q : load_balance_t * lb_maps -> Prop) (st st' : lb_state) : Prop := exists t, st_trace st' = t ++ st_trace st /\ Forall Q t.

Lemma ext_trans Q st1 st2 st3 : ext Q st1 st2 -> ext Q st2 st3 -> ext Q st1 st3.
Proof. intros (t1 & E1 & F1) (t2 & E2 & F2). exists (t2 ++ t1). rewrite E2, E1, app_assoc. split; [reflexivity|]. now apply Forall_app. Qed.

Lemma ext_same Q st st' : st_trace st' = st_trace st -> ext Q st st'.
Proof. intros E. exists []. split; [exact E|constructor]. Qed.

Lemma wrote_ext (Q : load_balance_t * lb_maps -> Prop) a v (V : list dpo_id_t -> Prop) st st' : (forall w, V w -> Q (with_at a w (st_lb st), st_maps st)) -> wrote a v V st st' -> ext Q st st'.
Proof. intros HQ [_ _ _ (t & E & F)]. exists t. split; [exact E|]. eapply Forall_impl; [exact F|]. cbn. intros x (w & Hw & ->). auto. Qed.

(** A store is one more state to be seen. *)
Definition stored (f : load_balance_t -> load_balance_t) (st : lb_state) : lb_state :=
  st <| st_lb := f (st_lb st) |> <| st_trace := (f (st_lb st), st_maps st) :: st_trace st |>.

Lemma stored_ext (Q : load_balance_t * lb_maps -> Prop) f st : Q (f (st_lb st), st_maps st) -> ext Q st (stored f st).
Proof. intros H. exists [(f (st_lb st), st_maps st)]. split; [reflexivity|]. now constructor. Qed.

Lemma bind_store {B} f (k : unit -> M B) st : bind (store f) k st = k tt (stored f st).
Proof. reflexivity. Qed.

Lemma bind_some {A B} (m : M A) (k : A -> M B) st a st' : m st = Some (a, st') -> bind m k st = k a st'.
Proof. intros E. unfold bind. now rewrite E. Qed.

Lemma bind_assoc {A B C} (m : M A) (k : A -> M B) (l : B -> M C) st : bind (bind m k) l st = bind m (fun a => bind (k a) l) st.
Proof. unfold bind. now destruct (m st) as [[a s]|]. Qed.

Lemma bind_ext {A B} (m : M A) (k l : A -> M B) st : (forall a s, k a s = l a s) -> bind m k st = bind m l st.
Proof. intros H. unfold bind. destruct (m st) as [[a s]|]; [apply H|reflexivity]. Qed.

(** Sequences up to the nesting of their parts. *)
Ltac flatten_binds := repeat (rewrite bind_assoc; apply bind_ext; intros ? ?); try reflexivity.

(** ** The branches *)

Section Branches.
Variable next_node : Z -> Z -> dpo_id_t -> Z.
Variables (nhs : list load_balance_path_t) (flags n lbmi proto : Z).
Hypothesis Hne : nhs <> [].
Hypothesis Hw : weights_ok nhs.
Hypothesis Hsum : sum_list (map path_weight nhs) = n.
Hypothesis Hpow : exists k, 0 <= k <= 13 /\ n = 2 ^ k.

Definition new_dpos : list dpo_id_t := fill_dpos flags nhs.
Definition new_buckets : list dpo_id_t := map (stacked next_node proto) new_dpos.

Lemma n_pos : 1 <= n <= 8192.
Proof. destruct Hpow as (k & Hk & ->). exact (pow2_range k Hk). Qed.

Lemma length_new_dpos : length new_dpos = Z.to_nat n.
Proof. unfold new_dpos. pose proof (length_fill_dpos flags nhs Hw). lia. Qed.

Lemma length_new : length new_buckets = Z.to_nat n.
Proof. unfold new_buckets. rewrite length_map. exact length_new_dpos. Qed.

Lemma held_new k : held k new_buckets = held k new_dpos.
Proof. unfold new_buckets. induction new_dpos as [|d ds IH]; [reflexivity|]. cbn [map held]. rewrite IH. reflexivity. Qed.

(** The array [v] when [j] of its buckets are new. *)
Definition mixed (v : list dpo_id_t) (j : nat) : list dpo_id_t := take j new_buckets ++ drop (length (take j new_buckets)) v.

Lemma fill_at a st : lb_proto (st_lb st) = proto -> n <= Z.of_nat (length (read_at a st)) ->
  exists st', load_balance_fill_buckets next_node a nhs flags st = Some (tt, st')
    /\ wrote a (new_buckets ++ drop (Z.to_nat n) (read_at a st)) (fun v => exists j, v = mixed (read_at a st) j) st st'
    /\ forall k, refs_of (st_refs st') k = refs_of (st_refs st) k + held k new_dpos - held k (take (Z.to_nat n) (read_at a st)).
Proof.
  intros Hp Hl. rewrite (fill_stack next_node a nhs flags st Hne Hw). pose proof length_new_dpos as Hd. pose proof n_pos.
  destruct (stack_list_spec next_node a new_dpos 0 st) as (st' & E & W & R); [rewrite Hd; cbn; lia|]. exists st'. split; [exact E|]. rewrite Hp in W. rewrite Hd, drop_0 in R. split; [|exact R].
  fold new_buckets in W. unfold patch in W at 1. cbn [take app] in W. rewrite Nat.add_0_l, length_new in W. eapply wrote_impl; [|exact W]. cbn. intros v (j & ->). exists j. unfold mixed, patch. cbn [take app].
  unfold new_buckets. now rewrite firstn_map, Nat.add_0_l.
Qed.

(** Partly new arrays lead to old or new objects. *)
Lemma mixed_prefix A v c j : prefix_in (A ++ new_buckets) v c -> c <= Z.of_nat (length v) -> n <= Z.of_nat (length v) -> prefix_in (A ++ new_buckets) (mixed v j) c.
Proof.
  intros [_ Hf] Hc Hn. unfold mixed. set (l := take j new_buckets). assert (length l <= Z.to_nat n)%nat as Hl by (unfold l; rewrite length_take, length_new; lia). split.
  - rewrite length_app, length_drop. lia.
  - rewrite take_app, Forall_app. split.
    + apply Forall_take. apply Forall_forall. intros d Hd. apply elem_of_app. right. unfold l in Hd. apply elem_of_take in Hd as (i & Hi & _). eapply list_elem_of_lookup_2; eauto.
    + destruct (decide (length l <= Z.to_nat c)%nat).
      * rewrite take_drop_commute. apply Forall_drop. now replace (length l + (Z.to_nat c - length l))%nat with (Z.to_nat c) by lia.
      * replace (Z.to_nat c - length l)%nat with 0%nat by lia. rewrite take_0. constructor.
Qed.

(** The result of a branch that starts with the object [lb]. *)
Record updated (Q : load_balance_t * lb_maps -> Prop) (st st' : lb_state) : Prop := {
  up_ok : lb_ok (st_lb st');
  up_n : lb_n_buckets (st_lb st') = n;
  up_cur : cur (st_lb st') = new_buckets;
  up_map : lb_map (st_lb st') = lbmi;
  up_same : same_fields (st_lb st) (st_lb st');
  up_maps : st_maps st' = st_maps st;
  up_refs : forall k, refs_of (st_refs st') k = refs_of (st_refs st) k + held k new_dpos - held k (cur (st_lb st));
  up_ext : ext Q st st'
}.

Lemma updated_intro Q st st' lb' : st_lb st' = lb' -> lb_ok lb' /\ cur lb' = new_buckets -> lb_n_buckets lb' = n -> lb_map lb' = lbmi -> same_fields (st_lb st) lb' -> st_maps st' = st_maps st ->
  (forall k, refs_of (st_refs st') k = refs_of (st_refs st) k + held k new_dpos - held k (cur (st_lb st))) -> ext Q st st' -> updated Q st st'.
Proof. intros <- [? ?]. now split. Qed.

Lemma u16_n : u16 n = n.
Proof. pose proof n_pos. unfold u16. apply Z.mod_small. lia. Qed.

Lemma u16_n1 : u16 (n - 1) = n - 1.
Proof. pose proof n_pos. unfold u16. apply Z.mod_small. lia. Qed.

Lemma minus_1_ok lb : lb_ok lb -> 1 <= lb_n_buckets lb -> lb_n_buckets_minus_1 lb = lb_n_buckets lb - 1.
Proof. intros H Hn. rewrite (lo_minus _ H). pose proof (n_range _ H). unfold u16. apply Z.mod_small. lia. Qed.

Lemma reads_ok lb : lb_ok lb -> 1 <= lb_n_buckets lb -> reads lb = lb_n_buckets lb.
Proof. intros H Hn. unfold reads. rewrite (minus_1_ok _ H Hn). destruct (Z.ltb_spec 1 (lb_n_buckets lb)); lia. Qed.

Lemma old_prefix lb : lb_ok lb -> prefix_in (cur lb ++ new_buckets) (arr lb) (lb_n_buckets lb).
Proof. intros H. split; [exact (lo_large _ H)|]. apply Forall_forall. intros d Hd. apply elem_of_app. now left. Qed.

Lemma new_prefix A rest c : 0 <= c <= n -> prefix_in (A ++ new_buckets) (new_buckets ++ rest) c.
Proof.
  intros Hc. split; [rewrite length_app, length_new; lia|]. rewrite take_app_le by (rewrite length_new; lia). apply Forall_forall. intros d (i & Hi & _)%elem_of_take.
  apply elem_of_app. right. eapply list_elem_of_lookup_2; eauto.
Qed.

Lemma prefix_le A v c c' : prefix_in A v c -> c' <= c -> prefix_in A v c'.
Proof.
  intros [H1 H2] Hc. split; [lia|]. replace (take (Z.to_nat c') v) with (take (Z.to_nat c') (take (Z.to_nat c) v)); [now apply Forall_take|]. rewrite take_take. f_equal. lia.
Qed.

(** An object with the new buckets in its array. *)
Lemma new_lb_ok lb rest : lb_n_buckets lb = n -> lb_n_buckets_minus_1 lb = u16 (n - 1) -> length (lb_buckets_inline lb) = 4%nat -> (n <= LB_NUM_INLINE_BUCKETS -> lb_buckets lb = []) ->
  arr lb = new_buckets ++ rest -> uncounted (rest ++ (if LB_HAS_INLINE_BUCKETS lb then lb_buckets lb else lb_buckets_inline lb)) -> lb_ok lb /\ cur lb = new_buckets.
Proof.
  intros Hn Hm Hi Hs Ha Hu. pose proof length_new as Hl. split; [split|].
  - right. now rewrite Hn.
  - now rewrite Hn.
  - exact Hi.
  - now rewrite Hn.
  - rewrite Hn, Ha, length_app, Hl. pose proof n_pos. lia.
  - unfold unused. rewrite Hn, Ha, drop_app_length' by exact (eq_sym Hl). exact Hu.
  - unfold cur. rewrite Hn, Ha. apply take_app_length'. exact (eq_sym Hl).
Qed.

Lemma read_get_buckets st : read_at (load_balance_get_buckets (st_lb st)) st = arr (st_lb st).
Proof. unfold load_balance_get_buckets, arr. now destruct (LB_HAS_INLINE_BUCKETS _). Qed.

(** Writing the array in use. *)
Lemma arr_with lb v : arr (with_at (load_balance_get_buckets lb) v lb) = v.
Proof. unfold arr, load_balance_get_buckets. destruct (LB_HAS_INLINE_BUCKETS lb) eqn:E; unfold LB_HAS_INLINE_BUCKETS in *; cbn; now rewrite E. Qed.

Lemma same_with a v lb : same_fields lb (with_at a v lb).
Proof. now destruct a. Qed.

(** The map of the object is none or translates as many buckets as are read. *)
Definition map_fits (x : load_balance_t * lb_maps) : Prop := lb_map (fst x) = INDEX_INVALID \/ fits (snd x) (lb_map (fst x)) (reads (fst x)).

(** The count of buckets says inline while the mask is still that of a vector. *)
Definition torn (lb : load_balance_t) : Prop := lb_n_buckets lb <= LB_NUM_INLINE_BUCKETS < reads lb.

(** What is seen of an object that was [lb]: its map is the old one or the new one,
    only a shrink from a vector to inline storage tears the object, and packets get
    old or new objects unless it is torn or the map does not fit. *)
Definition seen (lb : load_balance_t) (x : load_balance_t * lb_maps) : Prop :=
  (lb_n_buckets lb = n -> reads (fst x) = n)
  /\ (lb_map (fst x) = lb_map lb \/ (lb_map (fst x) = lbmi /\ (lb_n_buckets lb <= n -> reads (fst x) = n)))
  /\ (torn (fst x) -> 1 < n <= LB_NUM_INLINE_BUCKETS /\ LB_NUM_INLINE_BUCKETS < lb_n_buckets lb)
  /\ (map_fits x -> ~ torn (fst x) -> safe (cur lb ++ new_buckets) x).

(** As many buckets as before. *)
Lemma equal_ok (Q : load_balance_t * lb_maps -> Prop) st :
  let lb := st_lb st in
  lb_ok lb -> lb_proto lb = proto -> n = lb_n_buckets lb -> (forall x, seen lb x -> Q x) ->
  exists st', (load_balance_fill_buckets next_node (load_balance_get_buckets lb) nhs flags;;! store (fun lb => lb <| lb_map := lbmi |>)) st = Some (tt, st') /\ updated Q st st'.
Proof.
  intros lb Hok Hp Hn HQ. pose proof n_pos as Hpos. set (a := load_balance_get_buckets lb). pose proof (read_get_buckets st : read_at a st = arr lb) as Hr. pose proof (lo_large _ Hok) as Hlg.
  destruct (fill_at a st Hp ltac:(rewrite Hr; lia)) as (st1 & E1 & W1 & R1). rewrite Hr in *. rewrite (bind_some _ _ _ _ _ E1). exists (stored (fun lb => lb <| lb_map := lbmi |>) st1). split; [reflexivity|].
  pose proof (wr_lb _ _ _ _ _ W1) as L1. fold lb in L1. set (v := new_buckets ++ drop (Z.to_nat n) (arr lb)) in *.
  assert (forall w, arr (with_at a w lb) = w) as Haw by (intros w; apply arr_with).
  assert (forall w, lb_n_buckets (with_at a w lb) = n /\ lb_n_buckets_minus_1 (with_at a w lb) = n - 1 /\ lb_map (with_at a w lb) = lb_map lb) as Hf.
  { intros w. rewrite Hn. rewrite <- (minus_1_ok lb Hok) by lia. now destruct a. }
  assert (forall w, reads (with_at a w lb) = n) as Hrd by (intros w; unfold reads; destruct (Hf w) as (-> & -> & _); destruct (Z.ltb_spec 1 n); lia).
  destruct (new_lb_ok ((with_at a v lb) <| lb_map := lbmi |>) (drop (Z.to_nat n) (arr lb))) as [Hok1 Hcur].
  { exact (proj1 (Hf v)). } { cbn. rewrite u16_n1. exact (proj1 (proj2 (Hf v))). }
  { unfold a, load_balance_get_buckets. destruct (LB_HAS_INLINE_BUCKETS lb) eqn:Ei; cbn; [|apply (lo_inline _ Hok)]. unfold v. rewrite length_app, length_new, length_drop. unfold arr in *. rewrite Ei in *. pose proof (lo_inline _ Hok). lia. }
  { intros Hs. rewrite Hn in Hs. unfold a, load_balance_get_buckets, LB_HAS_INLINE_BUCKETS. destruct (Z.leb_spec (lb_n_buckets lb) LB_NUM_INLINE_BUCKETS); [|lia]. cbn. now apply (lo_small _ Hok). }
  { exact (Haw v). }
  { pose proof (lo_unused _ Hok) as Hu. unfold unused in Hu. rewrite <- Hn in Hu. unfold a, load_balance_get_buckets. destruct (LB_HAS_INLINE_BUCKETS lb) eqn:Ei; unfold LB_HAS_INLINE_BUCKETS in *; cbn; rewrite Ei; exact Hu. }
  assert (st_lb (stored (fun lb => lb <| lb_map := lbmi |>) st1) = (with_at a v lb) <| lb_map := lbmi |>) as L2 by (cbn; now rewrite L1).
  split; rewrite ?L2; try assumption.
  - exact (proj1 (Hf v)).
  - reflexivity.
  - exact (same_with a v lb).
  - exact (wr_maps _ _ _ _ _ W1).
  - intros k. cbn. rewrite R1. unfold cur. fold lb. now rewrite <- Hn.
  - eapply ext_trans; [eapply wrote_ext; [|exact W1]|apply stored_ext].
    + intros w [j ->]. fold lb. apply HQ. destruct (Hf (mixed (arr lb) j)) as (F1 & F2 & F3). split; [intros _; apply Hrd|]. split; [left; exact F3|]. split; [intros [Ht1 Ht2]; cbn in Ht1, Ht2; rewrite Hrd, F1 in *; lia|]. intros Hmf _. apply safe_intro; [rewrite F2; lia| |exact Hmf].
      rewrite Hrd, Haw. apply mixed_prefix; try lia. rewrite Hn. now apply old_prefix.
    + rewrite L1, (wr_maps _ _ _ _ _ W1). apply HQ. destruct (Hf v) as (F1 & F2 & _). assert (reads ((with_at a v lb) <| lb_map := lbmi |>) = n) as Hrd2 by exact (Hrd v).
      split; [now intros _|]. split; [right; split; [reflexivity|now intros _]|]. split; [intros [Ht1 Ht2]; cbn [fst] in Ht1, Ht2; rewrite Hrd2 in Ht2; cbn in Ht1; rewrite F1 in Ht1; lia|]. intros Hmf _. apply safe_intro; [cbn; rewrite F2; lia| |exact Hmf]. rewrite Hrd2. change (arr ((with_at a v lb) <| lb_map := lbmi |>)) with (arr (with_at a v lb)). rewrite Haw. apply new_prefix. lia.
Qed.

Definition set_n (lb : load_balance_t) : load_balance_t := lb <| lb_n_buckets := n |>.
Definition set_n1 (lb : load_balance_t) : load_balance_t := lb <| lb_n_buckets_minus_1 := n - 1 |>.
Definition set_map (lb : load_balance_t) : load_balance_t := lb <| lb_map := lbmi |>.

Lemma bind_set_n {B} (k : unit -> M B) st : bind (load_balance_set_n_buckets n) k st = k tt (stored set_n1 (stored set_n st)).
Proof. unfold load_balance_set_n_buckets. rewrite u16_n, u16_n1. reflexivity. Qed.

Lemma set_n_ext (Q : load_balance_t * lb_maps -> Prop) st : Q (set_n (st_lb st), st_maps st) -> Q (set_n1 (set_n (st_lb st)), st_maps st) -> ext Q st (stored set_n1 (stored set_n st)).
Proof. intros H1 H2. exact (ext_trans _ _ _ _ (stored_ext Q set_n st H1) (stored_ext Q set_n1 (stored set_n st) H2)). Qed.

(** The map is the old one, or the new one when all is done. *)
Definition map_seen (lb0 lb : load_balance_t) : Prop :=
  (lb_n_buckets lb0 = n -> reads lb = n) /\ (lb_map lb = lb_map lb0 \/ (lb_map lb = lbmi /\ (lb_n_buckets lb0 <= n -> reads lb = n))).

Lemma seen_inline lb0 lb maps : lb_n_buckets lb <= LB_NUM_INLINE_BUCKETS -> reads lb <= LB_NUM_INLINE_BUCKETS -> 0 <= lb_n_buckets_minus_1 lb -> prefix_in (cur lb0 ++ new_buckets) (lb_buckets_inline lb) (reads lb) ->
  map_seen lb0 lb -> seen lb0 (lb, maps).
Proof.
  intros Hn Hr Hm Hp [M1 M2]. split; [exact M1|]. split; [exact M2|]. split; [intros [_ Ht]; cbn in Ht; lia|]. intros Hmf _. apply safe_intro; try assumption.
  unfold arr, LB_HAS_INLINE_BUCKETS. destruct (Z.leb_spec (lb_n_buckets lb) LB_NUM_INLINE_BUCKETS); [exact Hp|lia].
Qed.

Lemma reads_vector lb : LB_NUM_INLINE_BUCKETS < lb_n_buckets lb -> reads lb = lb_n_buckets_minus_1 lb + 1.
Proof. unfold LB_NUM_INLINE_BUCKETS, reads. intros H. destruct (Z.ltb_spec 1 (lb_n_buckets lb)); lia. Qed.

Lemma seen_vector lb0 lb maps : LB_NUM_INLINE_BUCKETS < lb_n_buckets lb -> 0 <= lb_n_buckets_minus_1 lb -> prefix_in (cur lb0 ++ new_buckets) (lb_buckets lb) (lb_n_buckets_minus_1 lb + 1) ->
  map_seen lb0 lb -> seen lb0 (lb, maps).
Proof.
  intros Hn Hm Hp [M1 M2]. pose proof (reads_vector lb Hn) as Hr. split; [exact M1|]. split; [exact M2|]. split; [intros [Ht _]; cbn in Ht; lia|]. intros Hmf _. apply safe_intro; [exact Hm| |exact Hmf].
  rewrite Hr. unfold arr, LB_HAS_INLINE_BUCKETS. destruct (Z.leb_spec (lb_n_buckets lb) LB_NUM_INLINE_BUCKETS); [lia|exact Hp].
Qed.

#[local] Ltac small_reads := unfold reads, LB_NUM_INLINE_BUCKETS; cbn; destruct (Z.ltb_spec 1 n).

Lemma arr_inline lb : lb_n_buckets lb <= LB_NUM_INLINE_BUCKETS -> arr lb = lb_buckets_inline lb /\ LB_HAS_INLINE_BUCKETS lb = true.
Proof. intros H. unfold arr, LB_HAS_INLINE_BUCKETS. now rewrite (proj2 (Z.leb_le _ _) H). Qed.

Lemma arr_vector lb : LB_NUM_INLINE_BUCKETS < lb_n_buckets lb -> arr lb = lb_buckets lb /\ LB_HAS_INLINE_BUCKETS lb = false.
Proof. intros H. unfold arr, LB_HAS_INLINE_BUCKETS. now rewrite (proj2 (Z.leb_gt _ _) H). Qed.

Lemma prefix_new_all A c : 0 <= c <= n -> prefix_in (A ++ new_buckets) new_buckets c.
Proof. intros Hc. rewrite <- (app_nil_r new_buckets) at 2. now apply new_prefix. Qed.

(** From inline storage to a vector. *)
Lemma grow_cross_ok (Q : load_balance_t * lb_maps -> Prop) st :
  let lb := st_lb st in
  lb_ok lb -> lb_proto lb = proto -> 1 <= lb_n_buckets lb <= LB_NUM_INLINE_BUCKETS -> LB_NUM_INLINE_BUCKETS < n -> (forall x, seen lb x -> Q x) ->
  exists st', (validate_buckets n;;! load_balance_fill_buckets next_node InVector nhs flags;;! load_balance_set_n_buckets n;;! reset_from InInline 4 0;;! store set_map) st = Some (tt, st') /\ updated Q st st'.
Proof.
  intros lb Hok Hp Hn Hgt HQ. pose proof n_pos as Hpos. unfold LB_NUM_INLINE_BUCKETS in Hn, Hgt. pose proof (minus_1_ok lb Hok ltac:(lia)) as Hm. pose proof (lo_inline _ Hok) as Hli.
  destruct (arr_inline lb ltac:(unfold LB_NUM_INLINE_BUCKETS; lia)) as [Ha Hi]. assert (lb_buckets lb = []) as Hb by (apply (lo_small _ Hok); unfold LB_NUM_INLINE_BUCKETS; lia).
  pose proof (old_prefix lb Hok) as Hpre. rewrite Ha in Hpre. pose proof (reads_ok lb Hok ltac:(lia)) as Hrd.
  unfold validate_buckets. rewrite bind_store. set (f1 := fun lb => lb <| lb_buckets := vec_validate_buckets (lb_buckets lb) n |>). set (st1 := stored f1 st).
  assert (lb_buckets (st_lb st1) = replicate (Z.to_nat n) dpo_zero) as Hz by (cbn; fold lb; rewrite Hb; unfold vec_validate_buckets; cbn; now rewrite Nat.sub_0_r).
  destruct (fill_at InVector st1 Hp ltac:(cbn [read_at]; rewrite Hz, length_replicate; lia)) as (st2 & E2 & W2 & R2). cbn [read_at] in W2, R2. rewrite Hz in W2, R2. rewrite drop_ge, app_nil_r in W2 by (rewrite length_replicate; lia).
  rewrite (bind_some _ _ _ _ _ E2), bind_set_n. set (st3 := stored set_n1 (stored set_n st2)).
  assert (st_lb st3 = set_n1 (set_n (lb <| lb_buckets := new_buckets |>))) as L3 by (unfold st3; cbn; rewrite (wr_lb _ _ _ _ _ W2); reflexivity).
  assert (st_maps st3 = st_maps st) as M3 by exact (wr_maps _ _ _ _ _ W2).
  destruct (reset_from_spec InInline 4 0 st3) as (st4 & E4 & W4 & R4). { cbn [read_at]. rewrite L3. cbn. fold lb. lia. }
  cbn [read_at] in W4, R4. rewrite L3 in W4, R4. change (lb_buckets_inline (set_n1 _)) with (lb_buckets_inline lb) in W4, R4.
  change (Z.of_nat 0) with 0 in E4. rewrite (bind_some _ _ _ _ _ E4). exists (stored set_map st4). split; [reflexivity|].
  assert (patch (lb_buckets_inline lb) 0 (replicate 4 DPO_INVALID) = replicate 4 DPO_INVALID) as Hpi by (unfold patch; cbn [take app length]; rewrite drop_ge, app_nil_r by (cbn; lia); reflexivity).
  rewrite Hpi in W4. pose proof (wr_lb _ _ _ _ _ W4) as L4. rewrite L3 in L4. pose proof (wr_maps _ _ _ _ _ W4) as M4.
  set (lb5 := set_map (st_lb st4)). assert (lb5 = set_map ((set_n1 (set_n (lb <| lb_buckets := new_buckets |>))) <| lb_buckets_inline := replicate 4 DPO_INVALID |>)) as L5 by (unfold lb5; rewrite L4; reflexivity).
  apply (updated_intro Q st (stored set_map st4) lb5 eq_refl).
  - apply (new_lb_ok lb5 []); rewrite ?L5; try reflexivity; [now rewrite u16_n1|unfold LB_NUM_INLINE_BUCKETS; lia| |].
    + destruct (arr_vector lb5) as [Hv _]; [rewrite L5; exact Hgt|]. rewrite L5 in Hv. rewrite Hv. cbn. now rewrite app_nil_r.
    + destruct (arr_vector lb5) as [_ Hv]; [rewrite L5; exact Hgt|]. rewrite L5 in Hv. rewrite Hv. repeat constructor.
  - now rewrite L5.
  - now rewrite L5.
  - rewrite L5. easy.
  - cbn. fold lb. now rewrite M4, M3.
  - intros k. change (st_refs (stored set_map st4)) with (st_refs st4). rewrite R4. change (st_refs st3) with (st_refs st2). rewrite R2. change (st_refs st1) with (st_refs st).
    rewrite drop_0, (take_ge (lb_buckets_inline lb)) by lia. rewrite (held_uncounted k (take _ (replicate _ _))) by (apply Forall_take, Forall_replicate; reflexivity).
    fold lb. pose proof (held_cur lb k Hok) as Hc. rewrite Hb in Hc. cbn [held] in Hc. lia.
  - assert (forall w, seen lb (lb <| lb_buckets := w |>, st_maps st)) as Hsold.
    { intros w. apply seen_inline; change (reads (lb <| lb_buckets := w |>)) with (reads lb); rewrite ?Hrd; [cbn; unfold LB_NUM_INLINE_BUCKETS; lia|unfold LB_NUM_INLINE_BUCKETS; lia|cbn; lia|exact Hpre|split; [cbn; fold lb; lia|now left]]. }
    eapply ext_trans; [apply stored_ext, HQ, Hsold|]. eapply ext_trans; [eapply wrote_ext; [|exact W2]; intros w _; apply HQ; exact (Hsold w)|].
    assert (st_lb st2 = lb <| lb_buckets := new_buckets |> /\ st_maps st2 = st_maps st) as [L2 M2] by (split; [exact (wr_lb _ _ _ _ _ W2)|exact (wr_maps _ _ _ _ _ W2)]).
    eapply ext_trans; [apply (set_n_ext Q st2); rewrite L2, M2|].
    + apply HQ, seen_vector; cbn; fold lb; try assumption; [lia| |split; [cbn; fold lb; lia|now left]]. rewrite Hm. apply prefix_new_all. lia.
    + apply HQ, seen_vector; cbn; fold lb; try assumption; [lia| |split; [cbn; fold lb; lia|now left]]. apply prefix_new_all. lia.
    + fold st3. eapply ext_trans; [eapply wrote_ext; [|exact W4]|apply stored_ext].
      * intros w _. rewrite L3, M3. apply HQ, seen_vector; cbn; fold lb; try assumption; [lia| |split; [cbn; fold lb; lia|now left]]. apply prefix_new_all. lia.
      * fold lb5. rewrite L5, M4, M3. apply HQ, seen_vector; cbn; try assumption; [lia|apply prefix_new_all; lia|]. split; [cbn; fold lb; lia|right; split; [reflexivity|]]. unfold reads. cbn. destruct (Z.ltb_spec 1 n); lia.
Qed.

(** More buckets, still inline. *)
Lemma grow_inline_ok (Q : load_balance_t * lb_maps -> Prop) st :
  let lb := st_lb st in
  lb_ok lb -> lb_proto lb = proto -> 1 <= lb_n_buckets lb < n -> n <= LB_NUM_INLINE_BUCKETS -> (forall x, seen lb x -> Q x) ->
  exists st', (load_balance_fill_buckets next_node InInline nhs flags;;! load_balance_set_n_buckets n;;! store set_map) st = Some (tt, st') /\ updated Q st st'.
Proof.
  intros lb Hok Hp Hn Hle HQ. pose proof n_pos as Hpos. unfold LB_NUM_INLINE_BUCKETS in Hle. pose proof (minus_1_ok lb Hok ltac:(lia)) as Hm. pose proof (lo_inline _ Hok) as Hli.
  destruct (arr_inline lb ltac:(unfold LB_NUM_INLINE_BUCKETS; lia)) as [Ha Hi]. assert (lb_buckets lb = []) as Hb by (apply (lo_small _ Hok); unfold LB_NUM_INLINE_BUCKETS; lia).
  pose proof (old_prefix lb Hok) as Hpre. rewrite Ha in Hpre. pose proof (reads_ok lb Hok ltac:(lia)) as Hrd.
  destruct (fill_at InInline st Hp ltac:(cbn [read_at]; fold lb; lia)) as (st1 & E1 & W1 & R1). cbn [read_at] in W1, R1. fold lb in W1, R1. set (rest := drop (Z.to_nat n) (lb_buckets_inline lb)) in *.
  rewrite (bind_some _ _ _ _ _ E1), bind_set_n. set (st2 := stored set_n1 (stored set_n st1)). exists (stored set_map st2). split; [reflexivity|].
  assert (st_lb st1 = lb <| lb_buckets_inline := new_buckets ++ rest |> /\ st_maps st1 = st_maps st) as [L1 M1] by (split; [exact (wr_lb _ _ _ _ _ W1)|exact (wr_maps _ _ _ _ _ W1)]).
  set (lb3 := set_map (set_n1 (set_n (lb <| lb_buckets_inline := new_buckets ++ rest |>)))). assert (st_lb (stored set_map st2) = lb3) as L3 by (unfold st2; cbn; now rewrite L1).
  assert (uncounted (drop (Z.to_nat (lb_n_buckets lb)) (lb_buckets_inline lb))) as Hu.
  { pose proof (lo_unused _ Hok) as Hu. unfold unused in Hu. rewrite Ha, Hi in Hu. now apply Forall_app in Hu as [? _]. }
  assert (uncounted rest) as Hur. { unfold rest. replace (Z.to_nat n) with (Z.to_nat (lb_n_buckets lb) + (Z.to_nat n - Z.to_nat (lb_n_buckets lb)))%nat by lia. rewrite <- drop_drop. now apply Forall_drop. }
  apply (updated_intro Q st (stored set_map st2) lb3 L3); try easy.
  - destruct (arr_inline lb3 ltac:(cbn; unfold LB_NUM_INLINE_BUCKETS; lia)) as [Ha3 Hi3]. apply (new_lb_ok lb3 rest); try easy.
    + cbn. now rewrite u16_n1.
    + cbn. unfold rest. rewrite length_app, length_new, length_drop. lia.
    + rewrite Hi3. cbn. fold lb. rewrite Hb, app_nil_r. exact Hur.
  - intros k. cbn. rewrite R1. fold lb. rewrite <- (held_cur lb k Hok), Hb. rewrite <- (take_drop (Z.to_nat n) (lb_buckets_inline lb)) at 2. rewrite held_app. fold rest. rewrite (held_uncounted k rest Hur). cbn [held]. lia.
  - eapply ext_trans; [eapply wrote_ext; [|exact W1]|eapply ext_trans; [apply (set_n_ext Q st1)|apply stored_ext]]; fold lb; rewrite ?L1, ?M1.
    + intros w [j ->]. apply HQ, seen_inline; change (reads (with_at _ _ _)) with (reads lb); rewrite ?Hrd; cbn; fold lb; [unfold LB_NUM_INLINE_BUCKETS; lia|unfold LB_NUM_INLINE_BUCKETS; lia|lia| |split; [cbn; fold lb; lia|now left]].
      apply mixed_prefix; [exact Hpre|lia|lia].
    + apply HQ, seen_inline; cbn; fold lb; [unfold LB_NUM_INLINE_BUCKETS; lia|small_reads; lia|lia| |split; [cbn; fold lb; lia|now left]]. small_reads; apply new_prefix; lia.
    + apply HQ, seen_inline; cbn; fold lb; [unfold LB_NUM_INLINE_BUCKETS; lia|small_reads; lia|lia| |split; [cbn; fold lb; lia|now left]]. small_reads; apply new_prefix; lia.
    + change (st_lb st2) with (set_n1 (set_n (st_lb st1))). change (st_maps st2) with (st_maps st1). rewrite L1, M1. apply HQ, seen_inline; cbn; [unfold LB_NUM_INLINE_BUCKETS; lia|small_reads; lia|lia| |].
      * small_reads; apply new_prefix; lia.
      * unfold reads. cbn. destruct (Z.ltb_spec 1 n); [|lia]. split; [cbn; fold lb; lia|right; split; [reflexivity|]]. unfold reads. cbn. destruct (Z.ltb_spec 1 n); lia.
Qed.

Lemma reset_all_spec l st : exists st', reset_all l st = Some (tt, st') /\ st_lb st' = st_lb st /\ st_maps st' = st_maps st /\ st_new st' = st_new st /\ st_trace st' = st_trace st
  /\ forall k, refs_of (st_refs st') k = refs_of (st_refs st) k - held k l.
Proof.
  assert (forall r k, refs_of (foldl (fun r d => snd (dpo_reset d r)) r l) k = refs_of r k - held k l) as Hf.
  { induction l as [|d l IH]; intros r k; cbn [foldl held]; [lia|]. rewrite IH, refs_reset. cbn [held]. lia. }
  eexists. split; [reflexivity|]. repeat split; try reflexivity. intros k. exact (Hf (st_refs st) k).
Qed.

(** More buckets, in a new vector. *)
Lemma grow_vector_ok (Q : load_balance_t * lb_maps -> Prop) st :
  let lb := st_lb st in
  lb_ok lb -> lb_proto lb = proto -> LB_NUM_INLINE_BUCKETS < lb_n_buckets lb -> lb_n_buckets lb < n -> (forall x, seen lb x -> Q x) ->
  exists st', (write_at InNew (vec_validate_buckets [] n);;! load_balance_fill_buckets next_node InNew nhs flags;;!
    let! st := get in store (fun lb => lb <| lb_buckets := st_new st |>);;! load_balance_set_n_buckets n;;! reset_all (lb_buckets lb);;! store set_map) st = Some (tt, st') /\ updated Q st st'.
Proof.
  intros lb Hok Hp Hn Hlt HQ. pose proof n_pos as Hpos. pose proof Hn as Hn'. unfold LB_NUM_INLINE_BUCKETS in Hn'. pose proof (minus_1_ok lb Hok ltac:(lia)) as Hm. pose proof (lo_inline _ Hok) as Hli.
  destruct (arr_vector lb Hn) as [Ha Hi]. change (bind (write_at InNew (vec_validate_buckets [] n)) ?k st) with (k tt (st <| st_new := vec_validate_buckets [] n |>)). set (st1 := st <| st_new := vec_validate_buckets [] n |>).
  assert (vec_validate_buckets [] n = replicate (Z.to_nat n) dpo_zero) as Hz by (unfold vec_validate_buckets; cbn; now rewrite Nat.sub_0_r).
  destruct (fill_at InNew st1 Hp ltac:(change (read_at InNew st1) with (vec_validate_buckets [] n); rewrite Hz, length_replicate; lia)) as (st2 & E2 & W2 & R2). cbn [read_at] in W2, R2. change (st_new st1) with (vec_validate_buckets [] n) in W2, R2. rewrite Hz in W2, R2. rewrite drop_ge, app_nil_r in W2 by (rewrite length_replicate; lia).
  rewrite (bind_some _ _ _ _ _ E2). unfold bind at 1, get. rewrite bind_store. pose proof (wr_new _ _ _ _ _ W2) as N2. cbn in N2. rewrite N2. rewrite bind_set_n.
  set (f3 := fun lb => lb <| lb_buckets := new_buckets |>). set (st4 := stored set_n1 (stored set_n (stored f3 st2))).
  assert (st_lb st2 = lb /\ st_maps st2 = st_maps st) as [L2 M2] by (split; [exact (wr_lb _ _ _ _ _ W2)|exact (wr_maps _ _ _ _ _ W2)]).
  destruct (reset_all_spec (lb_buckets lb) st4) as (st5 & E5 & L5 & M5 & N5 & T5 & R5). rewrite (bind_some _ _ _ _ _ E5). exists (stored set_map st5). split; [reflexivity|].
  set (lb6 := set_map (set_n1 (set_n (f3 lb)))). assert (st_lb (stored set_map st5) = lb6) as L6 by (unfold st4 in L5; cbn; rewrite L5; cbn; now rewrite L2).
  assert (uncounted (lb_buckets_inline lb)) as Hu. { pose proof (lo_unused _ Hok) as Hu. unfold unused in Hu. rewrite Hi in Hu. now apply Forall_app in Hu as [_ ?]. }
  apply (updated_intro Q st (stored set_map st5) lb6 L6); try easy.
  - destruct (arr_vector lb6) as [Ha6 Hi6]; [cbn; unfold LB_NUM_INLINE_BUCKETS; lia|]. apply (new_lb_ok lb6 []); try easy.
    + cbn. now rewrite u16_n1.
    + cbn. unfold LB_NUM_INLINE_BUCKETS. lia.
    + rewrite Ha6. cbn. now rewrite app_nil_r.
    + rewrite Hi6. exact Hu.
  - change (st_maps (stored set_map st5)) with (st_maps st5). rewrite M5. exact M2.
  - intros k. change (st_refs (stored set_map st5)) with (st_refs st5). rewrite R5. change (st_refs st4) with (st_refs st2). rewrite R2. change (st_refs st1) with (st_refs st).
    rewrite (held_uncounted k (take _ (replicate _ _))) by (apply Forall_take, Forall_replicate; reflexivity). fold lb. rewrite <- (held_cur lb k Hok), (held_uncounted k _ Hu). lia.
  - apply (ext_trans Q st st1); [now apply ext_same|]. eapply ext_trans; [eapply wrote_ext; [|exact W2]|].
    { intros w _. cbn. fold lb. apply HQ, seen_vector; try assumption; [lia| |split; [cbn; fold lb; lia|now left]]. rewrite Hm. replace (lb_n_buckets lb - 1 + 1) with (lb_n_buckets lb) by lia. rewrite <- Ha. now apply old_prefix. }
    eapply ext_trans; [apply (stored_ext Q f3)|eapply ext_trans; [apply (set_n_ext Q (stored f3 st2))|]]; change (st_lb (stored f3 st2)) with (f3 (st_lb st2)); change (st_maps (stored f3 st2)) with (st_maps st2); rewrite ?L2, ?M2.
    + apply HQ, seen_vector; cbn; fold lb; try assumption; [lia| |split; [cbn; fold lb; lia|now left]]. rewrite Hm. apply prefix_new_all. lia.
    + apply HQ, seen_vector; cbn; fold lb; [unfold LB_NUM_INLINE_BUCKETS; lia|lia| |split; [cbn; fold lb; lia|now left]]. rewrite Hm. apply prefix_new_all. lia.
    + apply HQ, seen_vector; cbn; fold lb; [unfold LB_NUM_INLINE_BUCKETS; lia|lia| |split; [cbn; fold lb; lia|now left]]. apply prefix_new_all. lia.
    + eapply ext_trans; [apply (ext_same Q st4 st5 T5)|apply stored_ext]. rewrite M5, L5. change (st_maps st4) with (st_maps st2). change (st_lb st4) with (set_n1 (set_n (f3 (st_lb st2)))). rewrite L2, M2.
      apply HQ, seen_vector; cbn; fold lb; [unfold LB_NUM_INLINE_BUCKETS; lia|lia|apply prefix_new_all; lia|]. split; [cbn; fold lb; lia|right; split; [reflexivity|]]. unfold reads. cbn. destruct (Z.ltb_spec 1 n); lia.
Qed.

(** From a vector to inline storage: the two stores of the count and the mask are
    not one. *)
Lemma seen_cross lb lb' maps : 1 <= n <= LB_NUM_INLINE_BUCKETS -> LB_NUM_INLINE_BUCKETS < lb_n_buckets lb -> lb_n_buckets lb' = n -> 0 <= lb_n_buckets_minus_1 lb' -> LB_NUM_INLINE_BUCKETS <= lb_n_buckets_minus_1 lb' ->
  prefix_in (cur lb ++ new_buckets) (lb_buckets_inline lb') 1 -> lb_map lb' = lbmi -> seen lb (lb', maps).
Proof.
  intros Hn Hlt En Hm Hm' Hp Em. split; [lia|]. split; [right; split; [exact Em|lia]|]. split.
  - intros [_ Ht]. unfold reads, LB_NUM_INLINE_BUCKETS in *. cbn in Ht. rewrite En in Ht. destruct (Z.ltb_spec 1 n); lia.
  - intros Hmf Ht. cbn in Ht. unfold torn, LB_NUM_INLINE_BUCKETS in *. assert (reads lb' = 1) as Hr by (unfold reads in *; rewrite En in *; destruct (Z.ltb_spec 1 n); lia).
    apply safe_intro; [exact Hm| |exact Hmf]. rewrite Hr. unfold arr, LB_HAS_INLINE_BUCKETS, LB_NUM_INLINE_BUCKETS. destruct (Z.leb_spec (lb_n_buckets lb') 4); [exact Hp|lia].
Qed.

Lemma shrink_cross_ok (Q : load_balance_t * lb_maps -> Prop) st :
  let lb := st_lb st in
  lb_ok lb -> lb_proto lb = proto -> LB_NUM_INLINE_BUCKETS < lb_n_buckets lb -> n <= LB_NUM_INLINE_BUCKETS -> (forall x, seen lb x -> Q x) ->
  exists st', (store set_map;;! load_balance_fill_buckets next_node InInline nhs flags;;! load_balance_set_n_buckets n;;!
    let! lb := get_lb in reset_from InVector (length (lb_buckets lb)) 0;;! store (fun lb => lb <| lb_buckets := [] |>)) st = Some (tt, st') /\ updated Q st st'.
Proof.
  intros lb Hok Hp Hlt Hle HQ. pose proof n_pos as Hpos. unfold LB_NUM_INLINE_BUCKETS in Hle. pose proof Hlt as Hlt'. unfold LB_NUM_INLINE_BUCKETS in Hlt'. pose proof (minus_1_ok lb Hok ltac:(lia)) as Hm. pose proof (lo_inline _ Hok) as Hli.
  destruct (arr_vector lb Hlt) as [Ha Hi]. pose proof (old_prefix lb Hok) as Hpre. rewrite Ha in Hpre.
  assert (uncounted (lb_buckets_inline lb)) as Hu. { pose proof (lo_unused _ Hok) as Hu. unfold unused in Hu. rewrite Hi in Hu. now apply Forall_app in Hu as [_ ?]. }
  rewrite bind_store. set (st1 := stored set_map st). destruct (fill_at InInline st1 Hp ltac:(cbn; fold lb; lia)) as (st2 & E2 & W2 & R2). cbn [read_at] in W2, R2. change (lb_buckets_inline (st_lb st1)) with (lb_buckets_inline lb) in W2, R2.
  set (rest := drop (Z.to_nat n) (lb_buckets_inline lb)) in *. rewrite (bind_some _ _ _ _ _ E2), bind_set_n. set (st3 := stored set_n1 (stored set_n st2)).
  set (lb2 := (set_map lb) <| lb_buckets_inline := new_buckets ++ rest |>). assert (st_lb st2 = lb2 /\ st_maps st2 = st_maps st) as [L2 M2] by (split; [exact (wr_lb _ _ _ _ _ W2)|exact (wr_maps _ _ _ _ _ W2)]).
  unfold bind at 1, get_lb. assert (lb_buckets (st_lb st3) = lb_buckets lb) as Hb3 by (unfold st3; cbn; now rewrite L2). rewrite Hb3.
  destruct (reset_from_spec InVector (length (lb_buckets lb)) 0 st3) as (st4 & E4 & W4 & R4); [cbn [read_at]; rewrite Hb3; lia|]. cbn [read_at] in W4, R4. rewrite Hb3 in W4, R4. change (Z.of_nat 0) with 0 in E4.
  rewrite (bind_some _ _ _ _ _ E4). set (f5 := fun lb => lb <| lb_buckets := [] |>). exists (stored f5 st4). split; [reflexivity|].
  pose proof (wr_maps _ _ _ _ _ W4) as M4. change (st_maps st3) with (st_maps st2) in M4. pose proof (wr_lb _ _ _ _ _ W4) as L4.
  set (lb5 := f5 (set_n1 (set_n lb2))). assert (st_lb (stored f5 st4) = lb5) as L5 by (cbn; rewrite L4; unfold st3; cbn; now rewrite L2).
  assert (prefix_in (cur lb ++ new_buckets) (new_buckets ++ rest) n) as Hnp by (apply new_prefix; lia).
  assert (forall w, seen lb ((set_n1 (set_n lb2)) <| lb_buckets := w |>, st_maps st)) as Hs3.
  { intros w. apply seen_inline; cbn; [unfold LB_NUM_INLINE_BUCKETS; lia|small_reads; lia|lia|small_reads; (eapply prefix_le; [exact Hnp|lia])|]. split; [cbn; fold lb; lia|]. right. split; [reflexivity|lia]. }
  apply (updated_intro Q st (stored f5 st4) lb5 L5); try easy.
  - destruct (arr_inline lb5 ltac:(cbn; unfold LB_NUM_INLINE_BUCKETS; lia)) as [Ha5 Hi5]. apply (new_lb_ok lb5 rest); try easy.
    + cbn. now rewrite u16_n1.
    + cbn. unfold rest. rewrite length_app, length_new, length_drop. lia.
    + rewrite Hi5. cbn. rewrite app_nil_r. now apply Forall_drop.
  - cbn. now rewrite M4, M2.
  - intros k. change (st_refs (stored f5 st4)) with (st_refs st4). rewrite R4. change (st_refs st3) with (st_refs st2). rewrite R2. change (st_refs st1) with (st_refs st).
    rewrite drop_0, (take_ge (lb_buckets lb)) by lia. rewrite (held_uncounted k (take _ (lb_buckets_inline lb))) by now apply Forall_take. fold lb. rewrite <- (held_cur lb k Hok), (held_uncounted k _ Hu). lia.
  - assert (forall w, seen lb ((set_map lb) <| lb_buckets_inline := w |>, st_maps st)) as Hs1.
    { intros w. apply seen_vector; cbn; fold lb; [exact Hlt|lia| |]; [rewrite Hm; replace (lb_n_buckets lb - 1 + 1) with (lb_n_buckets lb) by lia; exact Hpre|]. split; [cbn; fold lb; lia|]. right. split; [reflexivity|lia]. }
    eapply ext_trans; [apply (stored_ext Q set_map), HQ; exact (Hs1 (lb_buckets_inline lb))|]. eapply ext_trans; [eapply wrote_ext; [|exact W2]; intros w _; apply HQ; exact (Hs1 w)|].
    eapply ext_trans; [apply (set_n_ext Q st2); rewrite L2, M2; apply HQ|eapply ext_trans; [eapply wrote_ext; [|exact W4]|apply (stored_ext Q f5)]].
    + apply seen_cross; cbn; fold lb; try easy; try lia. apply (prefix_le _ _ n); [exact Hnp|lia].
    + exact (Hs3 (lb_buckets lb)).
    + intros w _. unfold st3. cbn [stored st_lb st_maps]. cbn. rewrite L2, M2. apply HQ. exact (Hs3 w).
    + change (f5 (st_lb st4)) with (st_lb (stored f5 st4)). rewrite L5, M4, M2. apply HQ. exact (Hs3 []).
Qed.

Lemma seen_arr lb0 lb maps : (reads lb <= LB_NUM_INLINE_BUCKETS \/ LB_NUM_INLINE_BUCKETS < lb_n_buckets lb) -> 0 <= lb_n_buckets_minus_1 lb -> prefix_in (cur lb0 ++ new_buckets) (arr lb) (reads lb) ->
  map_seen lb0 lb -> seen lb0 (lb, maps).
Proof.
  intros Hr Hm Hp [M1 M2]. split; [exact M1|]. split; [exact M2|]. split; [intros Ht; unfold torn in Ht; cbn in Ht, Hr; lia|]. intros Hmf _. now apply safe_intro.
Qed.

(** The buckets that fall away. *)
Lemma patch_tail v c : (Z.to_nat n <= c <= length v)%nat ->
  patch (new_buckets ++ drop (Z.to_nat n) v) (Z.to_nat n) (replicate (c - Z.to_nat n) DPO_INVALID) = new_buckets ++ replicate (c - Z.to_nat n) DPO_INVALID ++ drop c v.
Proof.
  intros Hc. unfold patch. rewrite take_app_length' by exact (eq_sym length_new). do 2 f_equal. rewrite length_replicate, drop_app_add' by exact (eq_sym length_new).
  rewrite drop_drop. f_equal. lia.
Qed.

Lemma patch_prefix v j l A : prefix_in (A ++ new_buckets) (patch (new_buckets ++ v) (Z.to_nat n) (replicate j l)) n.
Proof.
  pose proof n_pos. unfold patch. rewrite take_app_length' by exact (eq_sym length_new). apply new_prefix. lia.
Qed.

(** Fewer buckets in the same storage. *)
Lemma shrink_ok (Q : load_balance_t * lb_maps -> Prop) st :
  let lb := st_lb st in
  lb_ok lb -> lb_proto lb = proto -> n < lb_n_buckets lb -> (n <= LB_NUM_INLINE_BUCKETS -> lb_n_buckets lb <= LB_NUM_INLINE_BUCKETS) -> (forall x, seen lb x -> Q x) ->
  exists st', (store set_map;;! load_balance_set_n_buckets n;;! load_balance_fill_buckets next_node (load_balance_get_buckets lb) nhs flags;;!
    reset_from (load_balance_get_buckets lb) (Z.to_nat (lb_n_buckets lb - n)) n) st = Some (tt, st') /\ updated Q st st'.
Proof.
  intros lb Hok Hp Hlt Hcr HQ. pose proof n_pos as Hpos. unfold LB_NUM_INLINE_BUCKETS in Hcr. pose proof (minus_1_ok lb Hok ltac:(lia)) as Hm. pose proof (lo_large _ Hok) as Hlg.
  set (a := load_balance_get_buckets lb). set (lb1 := set_n1 (set_n (set_map lb))).
  assert (LB_HAS_INLINE_BUCKETS lb1 = LB_HAS_INLINE_BUCKETS lb) as Hi by (unfold LB_HAS_INLINE_BUCKETS, LB_NUM_INLINE_BUCKETS; cbn; fold lb; destruct (Z.leb_spec n 4), (Z.leb_spec (lb_n_buckets lb) 4); (reflexivity || lia)).
  assert (load_balance_get_buckets lb1 = a) as Hga by (unfold a, load_balance_get_buckets; now rewrite Hi). assert (arr lb1 = arr lb) as Har by (unfold arr; now rewrite Hi).
  rewrite bind_store, bind_set_n. set (st1 := stored set_n1 (stored set_n (stored set_map st))). assert (read_at a st1 = arr lb) as Hr1 by (rewrite <- Hga, <- Har; exact (read_get_buckets st1)).
  destruct (fill_at a st1 Hp ltac:(rewrite Hr1; lia)) as (st2 & E2 & W2 & R2). rewrite Hr1 in W2, R2. rewrite (bind_some _ _ _ _ _ E2). pose proof (read_wrote _ _ _ _ _ W2) as Hr2.
  assert (length (read_at a st2) = length (arr lb)) as Hl2 by (rewrite Hr2, length_app, length_new, length_drop; lia).
  destruct (reset_from_spec a (Z.to_nat (lb_n_buckets lb - n)) (Z.to_nat n) st2) as (st3 & E3 & W3 & R3); [lia|]. rewrite Hr2 in W3, R3. rewrite Z2Nat.id in E3 by lia. exists st3. split; [exact E3|].
  set (c := Z.to_nat (lb_n_buckets lb)). replace (Z.to_nat (lb_n_buckets lb - n)) with (c - Z.to_nat n)%nat in W3, R3 by lia. rewrite patch_tail in W3 by lia.
  set (rest := replicate (c - Z.to_nat n) DPO_INVALID ++ drop c (arr lb)) in *. pose proof (wr_lb _ _ _ _ _ W2) as L2. change (st_lb st1) with lb1 in L2.
  assert (st_lb st3 = with_at a (new_buckets ++ rest) lb1) as L3 by (rewrite (wr_lb _ _ _ _ _ W3), L2; apply with_at_at). assert (st_maps st3 = st_maps st) as M3 by (rewrite (wr_maps _ _ _ _ _ W3); exact (wr_maps _ _ _ _ _ W2)).
  assert (forall w, arr (with_at a w lb1) = w) as Haw by (intros w; rewrite <- Hga; apply arr_with).
  assert (forall w, lb_n_buckets (with_at a w lb1) = n /\ lb_n_buckets_minus_1 (with_at a w lb1) = n - 1 /\ lb_map (with_at a w lb1) = lbmi /\ reads (with_at a w lb1) = n) as Hf.
  { intros w. repeat split; try (now destruct a). unfold reads. destruct a; cbn; destruct (Z.ltb_spec 1 n); lia. }
  apply (updated_intro Q st st3 _ L3); try apply Hf; try assumption.
  - apply (new_lb_ok _ rest); try apply Haw.
    + apply Hf.
    + rewrite u16_n1. apply Hf.
    + unfold a, load_balance_get_buckets. destruct (LB_HAS_INLINE_BUCKETS lb) eqn:Ei; cbn; [|apply (lo_inline _ Hok)]. rewrite length_app, length_new. unfold rest. rewrite length_app, length_replicate, length_drop. pose proof (lo_inline _ Hok). unfold arr in Hlg |- *. rewrite Ei in *. unfold c. lia.
    + intros Hs. unfold LB_NUM_INLINE_BUCKETS in Hs. specialize (Hcr Hs). unfold a, load_balance_get_buckets. destruct (arr_inline lb Hcr) as [_ ->]. cbn. now apply (lo_small _ Hok).
    + pose proof (lo_unused _ Hok) as Hu. unfold unused in Hu. fold c in Hu. assert (LB_HAS_INLINE_BUCKETS (with_at a (new_buckets ++ rest) lb1) = LB_HAS_INLINE_BUCKETS lb) as -> by (rewrite <- Hi; now destruct a).
      apply Forall_app in Hu as [Hu1 Hu2]. unfold rest. rewrite !Forall_app. repeat split; [now apply Forall_replicate|exact Hu1|]. unfold a, load_balance_get_buckets. now destruct (LB_HAS_INLINE_BUCKETS lb).
  - unfold same_fields. now destruct a.
  - intros k. rewrite R3, R2. change (st_refs st1) with (st_refs st). rewrite drop_app_length' by exact (eq_sym length_new). unfold cur. fold lb c.
    replace (take c (arr lb)) with (take (Z.to_nat n) (arr lb) ++ take (c - Z.to_nat n) (drop (Z.to_nat n) (arr lb))); [rewrite held_app; lia|]. rewrite take_drop_commute. replace (Z.to_nat n + (c - Z.to_nat n))%nat with c by lia.
    rewrite <- (take_drop (Z.to_nat n) (take c (arr lb))) at 2. rewrite take_take. do 2 f_equal. lia.
  - pose proof (old_prefix lb Hok) as Hpre. assert (forall x, lb_map x = lbmi -> map_seen lb x) as Hms by (intros x Ex; split; [lia|right; split; [exact Ex|lia]]).
    assert (forall w, prefix_in (cur lb ++ new_buckets) w n -> Q (with_at a w lb1, st_maps st)) as HQ1.
    { intros w Hw1. destruct (Hf w) as (F1 & F2 & F3 & F4). apply HQ, seen_arr; [rewrite F1, F4; lia|rewrite F2; lia|rewrite Haw, F4; exact Hw1|now apply Hms]. }
    eapply ext_trans; [apply (stored_ext Q set_map), HQ, seen_arr|eapply ext_trans; [apply (set_n_ext Q (stored set_map st))|eapply ext_trans; [eapply wrote_ext; [|exact W2]|eapply wrote_ext; [|exact W3]]]].
    + change (reads (set_map (st_lb st))) with (reads lb). rewrite (reads_ok lb Hok) by lia. cbn. fold lb. lia.
    + cbn. fold lb. lia.
    + change (reads (set_map (st_lb st))) with (reads lb). rewrite (reads_ok lb Hok) by lia. exact Hpre.
    + now apply Hms.
    + assert (reads (set_n (set_map lb)) <= lb_n_buckets lb) as Hrd by (unfold reads; cbn; fold lb; rewrite Hm; destruct (Z.ltb_spec 1 n); lia). apply HQ, seen_arr; [cbn [stored st_lb]; cbn; fold lb; unfold LB_NUM_INLINE_BUCKETS|cbn; fold lb; lia| |now apply Hms].
      * change (reads _) with (reads (set_n (set_map lb))). lia.
      * change (arr _) with (arr lb1). change (reads _) with (reads (set_n (set_map lb))). rewrite Har. now apply (prefix_le _ _ _ _ Hpre).
    + replace (set_n1 (set_n (st_lb (stored set_map st)))) with (with_at a (arr lb) lb1); [apply HQ1, (prefix_le _ _ _ _ Hpre); lia|]. rewrite <- Har, <- Hga. change (set_n1 (set_n (st_lb (stored set_map st)))) with lb1.
      unfold load_balance_get_buckets, arr. now destruct (LB_HAS_INLINE_BUCKETS lb1), lb1.
    + intros w (j & ->). apply HQ1, mixed_prefix; [apply (prefix_le _ _ _ _ Hpre)| |]; lia.
    + intros w (j & _ & ->). rewrite L2, with_at_at, (wr_maps _ _ _ _ _ W2). apply HQ1, patch_prefix.
Qed.

Lemma ext_any st st' : (exists t, st_trace st' = t ++ st_trace st) -> ext (fun _ => True) st st'.
Proof. intros [t E]. exists t. split; [exact E|]. now apply Forall_forall. Qed.

(** A new object. *)
Lemma first_ok st :
  let lb := st_lb st in
  lb_ok lb -> lb_proto lb = proto -> lb_n_buckets lb = 0 ->
  exists st', update_first next_node nhs n flags lbmi st = Some (tt, st') /\ updated (fun _ => True) st st'.
Proof.
  intros lb Hok Hp H0. pose proof n_pos as Hpos. pose proof (lo_inline _ Hok) as Hli. destruct (arr_inline lb ltac:(rewrite H0; easy)) as [Ha Hi].
  assert (lb_buckets lb = []) as Hb by (apply (lo_small _ Hok); rewrite H0; easy). assert (uncounted (lb_buckets_inline lb)) as Hu.
  { pose proof (lo_unused _ Hok) as Hu. unfold unused in Hu. rewrite Hi, Ha, H0 in Hu. now apply Forall_app in Hu as [? _]. }
  assert (cur lb = []) as Hc by (unfold cur; now rewrite H0). unfold update_first. rewrite bind_set_n. set (st1 := stored set_n1 (stored set_n st)). unfold bind at 1, get_lb.
  assert (ext (fun _ => True) st st1) as X1 by now apply set_n_ext. destruct (Z_le_gt_dec n LB_NUM_INLINE_BUCKETS) as [Hn|Hn].
  - destruct (arr_inline (st_lb st1) Hn) as [Ha1 Hi1]. unfold load_balance_get_buckets. rewrite Hi1. cbn [negb]. change (bind (ret tt) ?k st1) with (k tt st1). cbv beta. unfold LB_NUM_INLINE_BUCKETS in Hn.
    destruct (fill_at InInline st1 Hp ltac:(cbn; fold lb; lia)) as (st2 & E2 & W2 & R2). change (read_at InInline st1) with (lb_buckets_inline lb) in W2, R2. rewrite (bind_some _ _ _ _ _ E2).
    exists (stored set_map st2). split; [reflexivity|]. set (rest := drop (Z.to_nat n) (lb_buckets_inline lb)) in *. set (lb3 := set_map ((set_n1 (set_n lb)) <| lb_buckets_inline := new_buckets ++ rest |>)).
    assert (st_lb (stored set_map st2) = lb3) as L3 by (cbn; now rewrite (wr_lb _ _ _ _ _ W2)). apply (updated_intro _ st _ lb3 L3); try easy.
    + destruct (arr_inline lb3 Hn) as [Ha3 Hi3]. apply (new_lb_ok lb3 rest); try easy.
      * cbn. now rewrite u16_n1.
      * cbn. unfold rest. rewrite length_app, length_new, length_drop. lia.
      * rewrite Hi3. cbn. fold lb. rewrite Hb, app_nil_r. now apply Forall_drop.
    + exact (wr_maps _ _ _ _ _ W2).
    + intros k. cbn. rewrite R2, (held_uncounted k (take _ _)) by now apply Forall_take. fold lb. now rewrite Hc.
    + eapply ext_trans; [exact X1|]. eapply ext_trans; [eapply wrote_ext; [|exact W2]; easy|now apply stored_ext].
  - destruct (arr_vector (st_lb st1) ltac:(cbn; lia)) as [Ha1 Hi1]. unfold load_balance_get_buckets. rewrite Hi1. cbn [negb]. unfold validate_buckets. rewrite bind_store. set (f2 := fun lb => lb <| lb_buckets := vec_validate_buckets (lb_buckets lb) n |>). set (st2 := stored f2 st1).
    assert (lb_buckets (st_lb st2) = replicate (Z.to_nat n) dpo_zero) as Hz by (cbn; fold lb; rewrite Hb; unfold vec_validate_buckets; cbn; now rewrite Nat.sub_0_r).
    destruct (fill_at InVector st2 Hp ltac:(cbn [read_at]; rewrite Hz, length_replicate; lia)) as (st3 & E3 & W3 & R3). cbn [read_at] in W3, R3. rewrite Hz in W3, R3. rewrite drop_ge, app_nil_r in W3 by (rewrite length_replicate; lia). rewrite (bind_some _ _ _ _ _ E3).
    exists (stored set_map st3). split; [reflexivity|]. set (lb4 := set_map ((set_n1 (set_n lb)) <| lb_buckets := new_buckets |>)).
    assert (st_lb (stored set_map st3) = lb4) as L4 by (cbn; now rewrite (wr_lb _ _ _ _ _ W3)). apply (updated_intro _ st _ lb4 L4); try easy.
    + destruct (arr_vector lb4 ltac:(cbn; lia)) as [Ha4 Hi4]. apply (new_lb_ok lb4 []); try easy.
      * cbn. now rewrite u16_n1.
      * rewrite Ha4. cbn. now rewrite app_nil_r.
      * rewrite Hi4. exact Hu.
    + exact (wr_maps _ _ _ _ _ W3).
    + intros k. cbn. rewrite R3, (held_uncounted k (take _ _)) by (apply Forall_take, Forall_replicate; reflexivity). fold lb. now rewrite Hc.
    + eapply ext_trans; [exact X1|]. eapply ext_trans; [now apply (stored_ext _ f2)|]. eapply ext_trans; [eapply wrote_ext; [|exact W3]; easy|now apply stored_ext].
Qed.

(** ** All branches *)

(** What workers may see of an object in use. *)
Definition seen_in_use (lb : load_balance_t) (x : load_balance_t * lb_maps) : Prop := lb_n_buckets lb <> 0 -> seen lb x.

Lemma update_buckets_ok st :
  let lb := st_lb st in
  lb_ok lb -> lb_proto lb = proto -> exists st', update_buckets next_node nhs n flags lbmi st = Some (tt, st') /\ updated (seen_in_use lb) st st'.
Proof.
  intros lb Hok Hp. pose proof n_pos as Hpos. pose proof (n_range _ Hok) as Hr. unfold update_buckets. unfold bind at 1, get_lb. fold lb.
  assert (forall x, seen lb x -> seen_in_use lb x) as HQ by (now intros x Hx _).
  destruct (Z.eqb_spec 0 (lb_n_buckets lb)) as [E|E].
  { destruct (first_ok st Hok Hp (eq_sym E)) as (st' & E' & U). exists st'. split; [exact E'|]. destruct U as [? ? ? ? ? ? ? (t & Et & _)]. split; try assumption.
    exists t. split; [exact Et|]. apply Forall_forall. intros x _ Hx. now rewrite E in Hx. }
  destruct (Z.eqb_spec n (lb_n_buckets lb)) as [En|En]; [exact (equal_ok _ st Hok Hp En HQ)|].
  destruct (Z.ltb_spec (lb_n_buckets lb) n) as [Hlt|Hlt].
  - unfold update_grow. unfold bind at 1, get_lb. fold lb. destruct (Z.ltb_spec LB_NUM_INLINE_BUCKETS n) as [Hn|Hn]; cbn [andb]; [destruct (Z.leb_spec (lb_n_buckets lb) LB_NUM_INLINE_BUCKETS) as [Hl|Hl]; cbn [andb]|].
    + destruct (grow_cross_ok _ st Hok Hp ltac:(fold lb; lia) Hn HQ) as (st' & E' & U). exists st'. split; [|exact U]. rewrite <- E'. flatten_binds.
    + destruct (grow_vector_ok _ st Hok Hp Hl Hlt HQ) as (st' & E' & U). exists st'. split; [|exact U]. rewrite <- E'. destruct (Z.leb_spec n LB_NUM_INLINE_BUCKETS); [lia|].
      unfold load_balance_get_buckets. destruct (arr_vector lb Hl) as [_ ->]. cbn [read_at]. rewrite bind_assoc. unfold bind at 1, get. cbn [read_at]. fold lb. flatten_binds.
    + destruct (grow_inline_ok _ st Hok Hp ltac:(fold lb; lia) Hn HQ) as (st' & E' & U). exists st'. split; [|exact U]. rewrite <- E'. destruct (Z.leb_spec n LB_NUM_INLINE_BUCKETS); [|lia].
      unfold load_balance_get_buckets. destruct (arr_inline lb ltac:(lia)) as [_ ->]. flatten_binds.
  - unfold update_shrink. rewrite bind_store. unfold bind at 1, get_lb. change (st_lb (stored _ st)) with (set_map lb). change (lb_n_buckets (set_map lb)) with (lb_n_buckets lb). change (load_balance_get_buckets (set_map lb)) with (load_balance_get_buckets lb).
    destruct (Z.leb_spec n LB_NUM_INLINE_BUCKETS) as [Hn|Hn]; cbn [andb]; [destruct (Z.ltb_spec LB_NUM_INLINE_BUCKETS (lb_n_buckets lb)) as [Hl|Hl]|].
    + exact (shrink_cross_ok _ st Hok Hp Hl Hn HQ).
    + exact (shrink_ok _ st Hok Hp ltac:(fold lb; lia) ltac:(now intros _) HQ).
    + exact (shrink_ok _ st Hok Hp ltac:(fold lb; lia) ltac:(lia) HQ).
Qed.

End Branches.
