(* ===== verification/LoadBalanceProps.v ===== *)
(** * Load-balances: the whole update

    [load_balance_multipath_update] from the paths given to it to the release of
    the old map: the buckets it leaves, the references it moves, the maps it keeps
    and what workers see meanwhile. *)

From stdpp Require Import gmap.
From S2P Require Import Prelude Pool Float Dpo LbNormalize FibNodeList LoadBalanceMap LbMapFill LbMapInv LoadBalance LbFill LbUpdate.

Section Props.
Variable next_node : Z -> Z -> dpo_id_t -> Z.
Variable qsort : list load_balance_path_t -> list load_balance_path_t.
Variable resolved : Z -> bool.
Hypothesis qsort_perm : forall l, qsort l ≡ₚ l.

(** The paths that are normalised: those given, or a drop when there is none. *)
Definition paths_for (proto : Z) (raw : list load_balance_path_t) : list load_balance_path_t :=
  match raw with [] => [mk_path (drop_dpo_get proto) 0 1] | _ => raw end.

(** The map of an object is a map in use. *)
Definition lb_map_ok (maps : lb_maps) (lb : load_balance_t) : Prop := lb_map lb = INDEX_INVALID \/ is_Some (map_at maps (lb_map lb)).

(** Maps are in order and there is room for one more over [n] paths. *)
Record maps_ready (L : gmap Z siblings) (n : nat) (maps : lb_maps) : Prop := {
  mr_ok : maps_ok L maps;
  mr_pool : pool_len (load_balance_map_pool maps) < INV;
  mr_room : room n (lbm_lists maps);
  mr_locks : forall i m, map_at maps i = Some m -> lbm_locks m + 1 < 2 ^ 32
}.

Definition uses_map (flags : Z) : bool := negb (Z.land flags LOAD_BALANCE_FLAG_USES_MAP =? 0).

(** The fixup and the normalisation. *)
Lemma fixup_spec raw proto st : exists st', load_balance_multipath_next_hop_fixup raw proto st = Some (match raw with [] => Some (paths_for proto raw) | _ => None end, st')
  /\ st_lb st' = st_lb st /\ st_maps st' = st_maps st /\ st_trace st' = st_trace st /\ forall k, refs_of (st_refs st') k = refs_of (st_refs st) k.
Proof.
  destruct raw as [|p raw]; (eexists; split; [reflexivity|]); [|easy]. repeat split. intros k. cbn [st_refs]. change (refs_of (snd (dpo_copy dpo_zero (drop_dpo_get proto) (st_refs st))) k = refs_of (st_refs st) k).
  rewrite refs_copy. rewrite !held_uncounted by (repeat constructor; unfold counted; cbn; now rewrite ?andb_false_r). lia.
Qed.

Lemma held_paths_for k proto raw : held k (map path_dpo (paths_for proto raw)) = held k (map path_dpo raw).
Proof. destruct raw; [|reflexivity]. apply held_uncounted. repeat constructor. unfold counted. cbn. apply andb_false_r. Qed.

Lemma normalized_held k raw r : normalized_ok raw r -> held k (map path_dpo (nm_nhs r)) + held k (map path_dpo (nm_truncated r)) = held k (map path_dpo raw).
Proof.
  intros H. rewrite <- held_app, <- map_app. apply held_perm. pose proof (Permutation_map fst (no_paths _ _ H)) as Hp. now rewrite !map_map in Hp.
Qed.

Lemma normalized_weights raw r : normalized_ok raw r -> nm_nhs r <> [] -> weights_ok (nm_nhs r) /\ paths_ok (nm_n_adj r) (nm_nhs r).
Proof.
  intros H Hne. pose proof (no_sum _ _ H Hne) as Hs. assert (nm_n_adj r <= LB_MAX_BUCKETS) as Hm.
  { destruct (no_pow2 _ _ H) as (j & Hj & ->). pose proof (pow2_range j Hj). unfold LB_MAX_BUCKETS. lia. }
  split; split; try assumption; try apply (no_weights _ _ H). lia.
Qed.

(** ** Locks of maps *)

Definition lock_count (maps : lb_maps) (i : Z) : Z := from_option lbm_locks 0 (map_at maps i).

(** Whether map [i] is [lbmi]. *)
Definition holds (lbmi i : Z) : Z := Z.b2z ((lbmi =? i) && negb (i =? INDEX_INVALID)).

Lemma locked_some L maps i : maps_ok L maps -> 0 < lock_count maps i <-> is_Some (map_at maps i).
Proof.
  intros H. unfold lock_count. destruct (map_at maps i) as [m|] eqn:E; cbn [from_option]; [|split; [lia|now intros [? ?]]].
  destruct (mo_sized _ _ H _ _ E) as (_ & _ & Hl). split; [eauto|lia].
Qed.

Lemma lock_count_nonneg L maps i : maps_ok L maps -> 0 <= lock_count maps i.
Proof. intros H. unfold lock_count. destruct (map_at maps i) as [m|] eqn:E; cbn [from_option]; [|lia]. destruct (mo_sized _ _ H _ _ E) as (_ & _ & Hl). lia. Qed.

Lemma unlock_locks L maps old : maps_ok L maps -> old = INDEX_INVALID \/ is_Some (map_at maps old) ->
  exists maps' L', load_balance_map_unlock maps old = Some maps' /\ maps_ok L' maps' /\ (forall told, maps_filled told maps -> maps_filled told maps')
    /\ (forall i, lock_count maps' i = lock_count maps i - holds old i)
    /\ forall i m', map_at maps' i = Some m' -> exists m, map_at maps i = Some m /\ lbm_paths m' = lbm_paths m /\ lbm_buckets m' = lbm_buckets m.
Proof.
  intros Hok [->|[m Hm]].
  - exists maps, L. split; [reflexivity|]. split; [exact Hok|]. split; [auto|]. split; [|eauto]. intros i. unfold holds. destruct (Z.eqb_spec INDEX_INVALID i) as [<-|]; rewrite ?Z.eqb_refl; cbn; lia.
  - destruct (unlock_spec L maps old m Hok Hm) as (maps' & L' & E & Hok' & Hf' & Hat). exists maps', L'. split; [exact E|]. split; [exact Hok'|]. split; [exact Hf'|]. split.
    + intros i. unfold lock_count, holds. rewrite Hat. destruct (decide (i = old)) as [->|Hi].
      * rewrite Z.eqb_refl, (Z.eqb_sym old INDEX_INVALID), (map_valid _ _ _ _ Hok Hm), Hm. cbn. destruct (Z.eqb_spec (lbm_locks m) 1); cbn; lia.
      * destruct (Z.eqb_spec old i); [congruence|]. cbn. lia.
    + intros i m'. rewrite Hat. destruct (decide (i = old)) as [->|Hi]; [|eauto]. destruct (_ =? 1); [easy|]. intros [= <-]. eauto.
Qed.

(** A map for the new paths, when the flags ask for one. *)
Definition acquire (r : normalized) (flags : Z) : M Z :=
  if uses_map flags then
    let! st := get in
    let! m := lift (load_balance_map_add_or_lock resolved (st_maps st) (nm_n_adj r) (nm_sum_weight r) (nm_nhs r)) in
    set_maps (fst m);;! ret (snd m)
  else ret INDEX_INVALID.

Record acquired (r : normalized) (flags lbmi : Z) (st st' : lb_state) : Prop := {
  ac_lb : st_lb st' = st_lb st;
  ac_refs : st_refs st' = st_refs st;
  ac_ok : exists L', maps_ok L' (st_maps st');
  ac_filled : forall told, maps_filled told (st_maps st) -> maps_filled (told_new resolved (st_maps st) told) (st_maps st');
  ac_locks : forall i, lock_count (st_maps st') i = lock_count (st_maps st) i + holds lbmi i;
  ac_none : uses_map flags = false -> lbmi = INDEX_INVALID /\ st_maps st' = st_maps st;
  ac_some : uses_map flags = true -> exists m, map_at (st_maps st') lbmi = Some m /\ load_balance_map_hash m = hash_indices (map path_index (nm_nhs r));
  ac_ext : ext (fun x => x = (st_lb st, st_maps st')) st st'
}.

Lemma acquire_spec L st r flags : maps_ready L (length (nm_nhs r)) (st_maps st) -> paths_ok (nm_n_adj r) (nm_nhs r) ->
  exists lbmi st', acquire r flags st = Some (lbmi, st') /\ acquired r flags lbmi st st'.
Proof.
  intros [M1 M3 M4 M5] Hp. unfold acquire. destruct (uses_map flags) eqn:Ef.
  - destruct (add_or_lock_spec resolved L (st_maps st) (nm_n_adj r) (nm_sum_weight r) (nm_nhs r) M1 Hp M3 M4 M5) as (maps & i & L' & m & E & Hok & Hf & Ho & Hm & Hh & Hl).
    unfold bind at 1, get. unfold bind at 1, lift. rewrite E. cbn [mbind option_bind fst snd]. do 2 eexists. split; [reflexivity|]. split; cbn; try easy; eauto.
    + intros j. unfold lock_count, holds. destruct (Z.eqb_spec i j) as [<-|Hj]; [|rewrite Ho by congruence; cbn; lia]. rewrite Hm, (Z.eqb_sym i INDEX_INVALID), (map_valid _ _ _ _ Hok Hm). cbn.
      destruct (map_at (st_maps st) i) as [m0|]; [rewrite Hl|destruct Hl as [_ Hl]; rewrite Hl]; cbn; lia.
    + now rewrite Ef.
    + exists [(st_lb st, maps)]. split; [reflexivity|]. now constructor.
  - do 2 eexists. split; [reflexivity|]. split; try easy; eauto.
    + intros told Hf i m Hm. unfold told_new. rewrite Hm. exact (Hf _ _ Hm).
    + intros j. unfold holds. destruct (Z.eqb_spec INDEX_INVALID j) as [<-|]; rewrite ?Z.eqb_refl; cbn; lia.
    + now rewrite Ef.
    + now apply ext_same.
Qed.

(** ** The update *)

(** What an update with the normalised paths [r] does to an object. *)
Record multipath_updated (raw : list load_balance_path_t) (r : normalized) (flags : Z) (st st' : lb_state) : Prop := {
  mu_ok : lb_ok (st_lb st');
  mu_n : lb_n_buckets (st_lb st') = nm_n_adj r;
  mu_cur : cur (st_lb st') = new_buckets next_node (nm_nhs r) flags (lb_proto (st_lb st));
  mu_same : same_fields ((st_lb st) <| lb_flags := flags |>) (st_lb st');
  mu_refs : forall k, refs_of (st_refs st') k = refs_of (st_refs st) k + held k (cur (st_lb st')) - held k (cur (st_lb st)) - held k (map path_dpo raw);
  mu_maps : exists L', maps_ok L' (st_maps st');
  mu_filled : forall told, maps_filled told (st_maps st) -> maps_filled (told_new resolved (st_maps st) told) (st_maps st');
  mu_locks : forall i, lock_count (st_maps st') i = lock_count (st_maps st) i + holds (lb_map (st_lb st')) i - holds (lb_map (st_lb st)) i;
  mu_map : if uses_map flags then exists m, map_at (st_maps st') (lb_map (st_lb st')) = Some m /\ load_balance_map_hash m = hash_indices (map path_index (nm_nhs r))
           else lb_map (st_lb st') = INDEX_INVALID;
  mu_ext : ext (seen_in_use next_node (nm_nhs r) flags (nm_n_adj r) (lb_map (st_lb st')) (lb_proto (st_lb st)) (st_lb st)) st st'
}.

(** The object before its buckets change is seen as it was. *)
Lemma seen_before nhs flags n lbmi proto lb lb' maps : lb_ok lb -> lb' = lb \/ (exists f, lb' = lb <| lb_flags := f |>) -> seen_in_use next_node nhs flags n lbmi proto lb (lb', maps).
Proof.
  intros Hok Hlb Hn. assert (1 <= lb_n_buckets lb) as H1 by (pose proof (n_range _ Hok); lia). pose proof (reads_ok lb Hok H1) as Hr. pose proof (minus_1_ok lb Hok H1) as Hm.
  assert (seen next_node nhs flags n lbmi proto lb (lb, maps)) as H.
  { apply seen_arr; rewrite ?Hr; try lia; [now apply old_prefix|]. split; [now rewrite Hr|now left]. }
  now destruct Hlb as [->|[f ->]].
Qed.

Lemma acquired_held r flags lbmi st st' : acquired r flags lbmi st st' -> lbmi = INDEX_INVALID \/ is_Some (map_at (st_maps st') lbmi).
Proof. intros H. destruct (uses_map flags) eqn:E; [right|left; now apply (ac_none _ _ _ _ _ H)]. destruct (ac_some _ _ _ _ _ H E) as (m & Hm & _). eauto. Qed.

(** The object with its new buckets. *)
Lemma seen_after nhs flags n lbmi proto lb lb' maps : lb_ok lb' -> 1 <= n -> lb_n_buckets lb' = n -> cur lb' = new_buckets next_node nhs flags proto -> lb_map lb' = lbmi -> seen_in_use next_node nhs flags n lbmi proto lb (lb', maps).
Proof.
  intros Hok H1 Hn Hc Hm _. pose proof (reads_ok lb' Hok ltac:(lia)) as Hr. pose proof (minus_1_ok lb' Hok ltac:(lia)) as Hm1. rewrite Hn in Hr. apply seen_arr.
  - lia.
  - lia.
  - rewrite Hr. split; [rewrite <- Hn; apply (lo_large _ Hok)|]. rewrite <- Hn. fold (cur lb'). rewrite Hc. apply Forall_forall. intros d Hd. apply elem_of_app. now right.
  - split; [now rewrite Hr|]. right. split; [exact Hm|]. now rewrite Hr.
Qed.

Lemma multipath_update_spec L st raw flags r :
  let lb := st_lb st in
  lb_ok lb -> lb_map_ok (st_maps st) lb ->
  ip_multipath_normalize_next_hops qsort (paths_for (lb_proto lb) raw) multipath_next_hop_error_tolerance = Some r -> nm_nhs r <> [] ->
  maps_ready L (length (nm_nhs r)) (st_maps st) ->
  exists st', load_balance_multipath_update next_node qsort resolved raw flags st = Some (tt, st') /\ multipath_updated raw r flags st st'.
Proof.
  intros lb Hok Hmap Hr Hne Hready. unfold load_balance_multipath_update. rewrite bind_store. set (st1 := stored _ st). unfold bind at 1, get_lb. set (lb1 := st_lb st1).
  assert (normalized_ok (paths_for (lb_proto lb) raw) r) as Hno.
  { destruct (normalize_spec qsort qsort_perm (paths_for (lb_proto lb) raw)) as (r' & Er & Hr'); [now destruct raw|]. congruence. }
  destruct (normalized_weights _ _ Hno Hne) as [Hw Hpk]. pose proof (pk_sum _ _ Hpk) as Hsum.
  destruct (fixup_spec raw (lb_proto lb1) st1) as (st2 & E2 & L2 & M2 & T2 & R2). rewrite (bind_some _ _ _ _ _ E2).
  assert (default raw (match raw with [] => Some (paths_for (lb_proto lb1) raw) | _ => None end) = paths_for (lb_proto lb) raw) as -> by (now destruct raw).
  rewrite Hr. unfold bind at 1. unfold lift at 1. cbn [mbind option_bind]. destruct (reset_all_spec (map path_dpo (nm_truncated r)) st2) as (st3 & E3 & L3 & M3 & _ & T3 & R3). rewrite (bind_some _ _ _ _ _ E3).
  assert (st_lb st3 = lb1 /\ st_maps st3 = st_maps st) as [L3' M3'] by (rewrite L3, L2, M3, M2; now split).
  destruct (acquire_spec L st3 r flags ltac:(now rewrite M3') Hpk) as (lbmi & st4 & E4 & A4). unfold acquire in E4. unfold uses_map in E4. rewrite (bind_some _ _ _ _ _ E4).
  assert (st_lb st4 = lb1) as L4 by (rewrite (ac_lb _ _ _ _ _ A4); exact L3'). assert (lb_ok lb1) as Hok1 by (destruct Hok; now split).
  destruct (update_buckets_ok next_node (nm_nhs r) flags (nm_n_adj r) lbmi (lb_proto lb) Hne Hw Hsum (no_pow2 _ _ Hno) st4 ltac:(now rewrite L4) ltac:(now rewrite L4)) as (st5 & E5 & U5). rewrite (bind_some _ _ _ _ _ E5).
  destruct (reset_all_spec (map path_dpo (nm_nhs r)) st5) as (st6 & E6 & L6 & M6 & _ & T6 & R6). rewrite (bind_some _ _ _ _ _ E6). unfold bind at 1, get.
  pose proof (up_maps _ _ _ _ _ _ _ _ _ U5) as M5. destruct (ac_ok _ _ _ _ _ A4) as [L4' Hok4]. pose proof (acquired_held _ _ _ _ _ A4) as Hheld.
  assert (lb_map lb = INDEX_INVALID \/ is_Some (map_at (st_maps st4) (lb_map lb))) as Hold.
  { destruct Hmap as [Hi|Hs]; [now left|right]. apply (locked_some L4' _ _ Hok4). rewrite (ac_locks _ _ _ _ _ A4), M3'. apply (locked_some L _ _ (mr_ok _ _ _ Hready)) in Hs. unfold holds. destruct (_ && _); cbn; lia. }
  destruct (unlock_locks L4' (st_maps st4) (lb_map lb) Hok4 Hold) as (maps7 & L7 & E7 & Hok7 & Hf7 & Hl7 & Hc7).
  rewrite M6, M5. change (lb_map lb1) with (lb_map lb). rewrite E7. unfold bind, lift. cbn [mbind option_bind]. eexists. split; [reflexivity|].
  pose proof (no_pow2 _ _ Hno) as (kp & Hkp & Hn). pose proof (pow2_range kp Hkp) as Hn1. rewrite <- Hn in Hn1. assert (lb_map (st_lb st5) = lbmi) as Hm5 by apply U5.
  assert (forall i, lock_count maps7 i = lock_count (st_maps st) i + holds lbmi i - holds (lb_map lb) i) as Hlk by (intros i; rewrite Hl7, (ac_locks _ _ _ _ _ A4), M3'; lia).
  split; cbn [st_lb st_refs st_maps]; cbn; rewrite ?L6.
  - apply U5.
  - apply U5.
  - apply U5.
  - pose proof (up_same _ _ _ _ _ _ _ _ _ U5) as Hs. now rewrite L4 in Hs.
  - intros k. rewrite R6, (up_refs _ _ _ _ _ _ _ _ _ U5), L4, (ac_refs _ _ _ _ _ A4), R3, R2, (up_cur _ _ _ _ _ _ _ _ _ U5), held_new. change (cur lb1) with (cur lb). change (st_refs st1) with (st_refs st).
    pose proof (normalized_held k _ _ Hno) as Hh. rewrite held_paths_for in Hh. fold lb. lia.
  - eauto.
  - intros told Hf. rewrite <- M3' in Hf. apply Hf7. pose proof (ac_filled _ _ _ _ _ A4 told Hf) as H. now rewrite M3' in H.
  - rewrite Hm5. exact Hlk.
  - rewrite Hm5. destruct (uses_map flags) eqn:Eu; [|now apply (ac_none _ _ _ _ _ A4)]. destruct (ac_some _ _ _ _ _ A4 Eu) as (m & Hm & Hh).
    assert (is_Some (map_at maps7 lbmi)) as [m7 Hm7].
    { apply (locked_some L7 _ _ Hok7). rewrite Hlk. pose proof (lock_count_nonneg L _ lbmi (mr_ok _ _ _ Hready)). unfold holds. rewrite Z.eqb_refl, (Z.eqb_sym lbmi INDEX_INVALID), (map_valid _ _ _ _ Hok4 Hm). cbn.
      destruct (Z.eqb_spec (lb_map lb) lbmi) as [<-|]; cbn; [|lia]. destruct Hmap as [Hi|Hs]; [|apply (locked_some L _ _ (mr_ok _ _ _ Hready)) in Hs; fold lb; lia].
      pose proof (map_valid _ _ _ _ Hok4 Hm) as Hv. rewrite Hi, Z.eqb_refl in Hv. easy. }
    exists m7. split; [exact Hm7|]. destruct (Hc7 _ _ Hm7) as (m4 & Hm4 & Hp & _). rewrite Hm in Hm4. injection Hm4 as <-. unfold load_balance_map_hash in *. now rewrite Hp.
  - rewrite Hm5. fold lb. set (Q := seen_in_use _ _ _ _ _ _ _). assert (forall maps, Q (lb1, maps)) as Hb by (intros maps; apply seen_before; [exact Hok|right; now exists flags]).
    apply (ext_trans Q st st1); [apply stored_ext, Hb|]. apply (ext_trans Q st1 st3); [apply ext_same; congruence|]. apply (ext_trans Q st3 st4).
    { destruct (ac_ext _ _ _ _ _ A4) as (t & Et & Ft). exists t. split; [exact Et|]. eapply Forall_impl; [exact Ft|]. cbn. intros x ->. rewrite L3'. apply Hb. }
    apply (ext_trans Q st4 st5); [pose proof (up_ext _ _ _ _ _ _ _ _ _ U5) as X; now rewrite L4 in X|]. exists [(st_lb st5, maps7)]. split; [cbn; now rewrite T6|]. constructor; [|constructor].
    apply seen_after; try apply U5. lia.
Qed.

(** C17: an update whose normalisation keeps a path ([normalize_may_drop_all] shows that
    it may keep none), while the maps are in order with room for one more, succeeds.  It
    leaves the buckets of the kept paths in turn, as many per path as its normalised
    weight (drops of a sticky load-balance are replaced by the paths that forward); it
    gives back the references of the old buckets and those of the paths it was given,
    takes one per new bucket, and moves its lock from the old map to a map whose paths
    have the 32-bit hash of the kept paths: one over these paths or, when hashes collide
    ([hash_indices_collide]), over others. *)
Theorem multipath_update_replaces_buckets L st raw flags r :
  let lb := st_lb st in
  lb_ok lb -> lb_map_ok (st_maps st) lb ->
  ip_multipath_normalize_next_hops qsort (paths_for (lb_proto lb) raw) multipath_next_hop_error_tolerance = Some r -> nm_nhs r <> [] ->
  maps_ready L (length (nm_nhs r)) (st_maps st) ->
  exists st', load_balance_multipath_update next_node qsort resolved raw flags st = Some (tt, st')
    /\ let lb' := st_lb st' in
       lb_ok lb' /\ lb_n_buckets lb' = nm_n_adj r
       /\ cur lb' = map (stacked next_node (lb_proto lb)) (fill_dpos flags (nm_nhs r))
       /\ same_fields (lb <| lb_flags := flags |>) lb'
       /\ (forall k, refs_of (st_refs st') k = refs_of (st_refs st) k + held k (cur lb') - held k (cur lb) - held k (map path_dpo raw))
       /\ (forall i, lock_count (st_maps st') i = lock_count (st_maps st) i + holds (lb_map lb') i - holds (lb_map lb) i)
       /\ (if uses_map flags then exists m, map_at (st_maps st') (lb_map lb') = Some m /\ load_balance_map_hash m = hash_indices (map path_index (nm_nhs r))
           else lb_map lb' = INDEX_INVALID).
Proof.
  intros lb Hok Hmap Hr Hne Hready. destruct (multipath_update_spec L st raw flags r Hok Hmap Hr Hne Hready) as (st' & E & [U1 U2 U3 U4 U5 U6 U7 U8 U9 U10]).
  exists st'. split; [exact E|]. cbv zeta. auto 10.
Qed.

(** What workers get from a state of the object, given the old and the new one. *)
Definition serves (old new : load_balance_t) (x : load_balance_t * lb_maps) : Prop :=
  forall hash, 0 <= hash -> exists d, worker_bucket (snd x) (fst x) hash = Some d /\ (d ∈ cur old \/ d ∈ cur new).

(** C15: while an object in use is updated with paths of which normalisation keeps one
    ([normalize_may_drop_all] shows that it may keep none), and the maps are in order
    with room for one more, every packet gets an object of the old or
    of the new paths, whenever the map in place translates as many buckets as the
    worker reads, and except between the two stores that shrink the object from a
    vector to more than one inline bucket.  Maps never get in the way when there is
    none, nor when the number of buckets stays. *)
Theorem workers_get_old_or_new L st raw flags r :
  let lb := st_lb st in
  lb_ok lb -> lb_n_buckets lb <> 0 -> lb_map_ok (st_maps st) lb ->
  ip_multipath_normalize_next_hops qsort (paths_for (lb_proto lb) raw) multipath_next_hop_error_tolerance = Some r -> nm_nhs r <> [] ->
  maps_ready L (length (nm_nhs r)) (st_maps st) ->
  exists st' t, load_balance_multipath_update next_node qsort resolved raw flags st = Some (tt, st') /\ st_trace st' = t ++ st_trace st
    /\ Forall (fun x =>
         (map_fits x -> ~ torn (fst x) -> serves lb (st_lb st') x)
         /\ (torn (fst x) -> 1 < nm_n_adj r <= LB_NUM_INLINE_BUCKETS /\ LB_NUM_INLINE_BUCKETS < lb_n_buckets lb)
         /\ (lb_map lb = INDEX_INVALID -> uses_map flags = false -> map_fits x)
         /\ (lb_n_buckets lb = nm_n_adj r -> fits (snd x) (lb_map lb) (nm_n_adj r) -> fits (snd x) (lb_map (st_lb st')) (nm_n_adj r) -> map_fits x)) t.
Proof.
  intros lb Hok Hn Hmap Hr Hne Hready. destruct (multipath_update_spec L st raw flags r Hok Hmap Hr Hne Hready) as (st' & E & [U1 U2 U3 U4 U5 U6 U7 U8 U9 (t & Et & Ft)]).
  exists st', t. split; [exact E|]. split; [exact Et|]. eapply Forall_impl; [exact Ft|]. cbv beta. intros x Hx. destruct (Hx Hn) as (S1 & S2 & S3 & S4). fold lb in S1, S2, S3, S4. split; [|split; [exact S3|split]].
  - intros Hf Ht hash Hh. destruct (S4 Hf Ht hash Hh) as (d & Ed & Hd). exists d. split; [exact Ed|]. rewrite U3. now apply elem_of_app in Hd.
  - intros H0 Hu. left. rewrite Hu in U9. destruct S2 as [->|[-> _]]; assumption.
  - intros En F1 F2. right. rewrite (S1 En). destruct S2 as [->|[-> _]]; assumption.
Qed.

End Props.

(** ** Examples *)

Definition ex_dpo (i : Z) : dpo_id_t := mk_dpo 8 DPO_PROTO_IP4 0 i.
Definition ex_path (i weight : Z) : load_balance_path_t := mk_path (ex_dpo i) i weight.
Definition ex_next (_ _ : Z) (_ : dpo_id_t) : Z := 3.

(** A load-balance with two inline buckets over objects 1 and 2. *)
Definition ex_lb : load_balance_t :=
  mk_lb 2 1 DPO_PROTO_IP4 0 0 1 INDEX_INVALID INDEX_INVALID 0 [] [stacked ex_next 0 (ex_dpo 1); stacked ex_next 0 (ex_dpo 2); DPO_INVALID; DPO_INVALID].
Definition ex_state : lb_state := mk_lbs ex_lb ∅ load_balance_map_module_init [] [].

Lemma ex_lb_ok : lb_ok ex_lb.
Proof. split; try reflexivity; [right; now exists 1|easy|repeat constructor]. Qed.

Lemma init_ready n : Z.of_nat n <= INV -> maps_ready ∅ n load_balance_map_module_init.
Proof.
  intros Hn. destruct maps_init_ok as [H1 _]. split; [exact H1|reflexivity|split; exact Hn|]. intros i m Hm. unfold map_at in Hm. cbn in Hm. now rewrite pool_empty_lookup in Hm.
Qed.

Lemma multipath_update_replaces_buckets_witness :
  exists st', load_balance_multipath_update ex_next sort_by_weight (fun _ => true) [ex_path 3 1; ex_path 4 2; ex_path 5 1] LOAD_BALANCE_FLAG_USES_MAP ex_state = Some (tt, st')
    /\ map dpoi_index (cur (st_lb st')) = [3; 5; 4; 4].
Proof.
  edestruct (multipath_update_replaces_buckets ex_next sort_by_weight (fun _ => true) sort_by_weight_perm ∅ ex_state [ex_path 3 1; ex_path 4 2; ex_path 5 1] LOAD_BALANCE_FLAG_USES_MAP) as (st' & E & _ & _ & Hc & _).
  - exact ex_lb_ok.
  - now left.
  - vm_compute. reflexivity.
  - easy.
  - apply init_ready. easy.
  - exists st'. split; [exact E|]. rewrite Hc. reflexivity.
Defined.

Lemma workers_get_old_or_new_witness :
  exists st' t, load_balance_multipath_update ex_next sort_by_weight (fun _ => true) [ex_path 3 1; ex_path 4 1] 0 ex_state = Some (tt, st') /\ st_trace st' = t ++ []
    /\ Forall (fun x => map_fits x) t.
Proof.
  edestruct (workers_get_old_or_new ex_next sort_by_weight (fun _ => true) sort_by_weight_perm ∅ ex_state [ex_path 3 1; ex_path 4 1] 0) as (st' & t & E & Et & Ft).
  - exact ex_lb_ok.
  - easy.
  - now left.
  - vm_compute. reflexivity.
  - easy.
  - apply init_ready. easy.
  - exists st', t. split; [exact E|]. split; [exact Et|]. eapply Forall_impl; [exact Ft|]. cbv beta. intros x (_ & _ & Hx & _). now apply Hx.
Defined.

(** ** What the conditions exclude *)

(** A worker finds no bucket for [hash] in some state of the trace. *)
Definition lost (hash : Z) (t : list (load_balance_t * lb_maps)) : bool :=
  existsb (fun x => match worker_bucket (snd x) (fst x) hash with None => true | Some _ => false end) t.

Definition ex_update (paths : list load_balance_path_t) (flags : Z) : M unit := load_balance_multipath_update ex_next sort_by_weight (fun _ => true) paths flags.

(** Updates one after the other, the trace of the last one only. *)
Definition ex_updates (p1 p2 : list load_balance_path_t) (flags : Z) : option (list (load_balance_t * lb_maps)) :=
  '(_, st) ← ex_update p1 flags ex_state;
  '(_, st) ← ex_update p2 flags (st <| st_trace := [] |>);
  Some (st_trace st).

Definition ex_paths (n : nat) : list load_balance_path_t := map (fun i => ex_path (Z.of_nat i) 1) (seq 1 n).

(** From eight buckets to four: the count of buckets already says inline, the mask
    is still seven, and a worker indexes the four inline buckets with it. *)
Lemma shrink_to_inline_tears : lost 7 <$> ex_updates (ex_paths 8) (ex_paths 4) 0 = Some true.
Proof. vm_compute. reflexivity. Qed.

(** From two buckets to four with maps: the mask grows while the map still has two
    buckets, and a worker indexes the map beyond its end. *)
Lemma grow_outruns_map : lost 3 <$> ex_updates (ex_paths 2) (ex_paths 4) LOAD_BALANCE_FLAG_USES_MAP = Some true.
Proof. vm_compute. reflexivity. Qed.

(** From four buckets to two with maps: the smaller map is stored before the mask. *)
Lemma shrink_outruns_map : lost 3 <$> ex_updates (ex_paths 4) (ex_paths 2) LOAD_BALANCE_FLAG_USES_MAP = Some true.
Proof. vm_compute. reflexivity. Qed.
