(* ===== verification/LbPool.v ===== *)
(** * The pool of load-balances (src/vnet/dpo/load_balance.c)

    Load-balances are created, changed, locked and unlocked by index; the last
    unlock destroys the object and gives back the objects its buckets are stacked
    on, its uRPF list and its map.

    The counters of the data path are not part of the model. *)

From stdpp Require Import gmap.
From S2P Require Import Prelude Pool Float Dpo UrpfList LbNormalize FibNodeList LoadBalanceMap LbMapFill LbMapInv LoadBalance.

(** The object of [load_balance_alloc_i]. *)
Definition lb_zero : load_balance_t := mk_lb 0 0 0 0 0 0 INDEX_INVALID INDEX_INVALID 0 [] (replicate 4 dpo_zero).

Record lb_world := mk_world {
  load_balance_pool : pool load_balance_t;
  w_refs : dpo_refs;
  w_maps : lb_maps;
  fib_urpf_list_pool : urpfs
}.

#[export] Instance world_eta : Eta lb_world := fun w => mk_world (load_balance_pool w) (w_refs w) (w_maps w) (fib_urpf_list_pool w).

Definition load_balance_get (w : lb_world) (lbi : Z) : option load_balance_t := pool_elt_at_index (load_balance_pool w) lbi.
Definition put_lb (w : lb_world) (lbi : Z) (lb : load_balance_t) : lb_world := w <| load_balance_pool := pool_write (load_balance_pool w) lbi lb |>.

(** An operation on the object [lbi]. *)
Definition on_lb (w : lb_world) (lbi : Z) (m : M unit) : option lb_world :=
  lb ← load_balance_get w lbi;
  '(_, st) ← m (mk_lbs lb (w_refs w) (w_maps w) [] []);
  Some (put_lb (w <| w_refs := st_refs st |> <| w_maps := st_maps st |>) lbi (st_lb st)).

Definition load_balance_alloc_i (w : lb_world) : lb_world * Z :=
  let '(p, lbi) := pool_get lb_zero (load_balance_pool w) in (w <| load_balance_pool := pool_write p lbi lb_zero |>, lbi).

Definition load_balance_create_i (num_buckets proto fhc : Z) (lb : load_balance_t) : load_balance_t :=
  let lb := lb <| lb_hash_config := fhc |> <| lb_n_buckets := u16 num_buckets |> <| lb_n_buckets_minus_1 := u16 (num_buckets - 1) |> <| lb_proto := proto |> in
  if negb (LB_HAS_INLINE_BUCKETS lb) then lb <| lb_buckets := vec_validate_buckets (lb_buckets lb) (lb_n_buckets lb) |> else lb.

Definition load_balance_create (w : lb_world) (n_buckets proto fhc : Z) : lb_world * Z :=
  let '(w, lbi) := load_balance_alloc_i w in (put_lb w lbi (load_balance_create_i n_buckets proto fhc lb_zero), lbi).

Section Ops.
Variable next_node : Z -> Z -> dpo_id_t -> Z.
Variable qsort : list load_balance_path_t -> list load_balance_path_t.

Definition load_balance_set_bucket (w : lb_world) (lbi bucket : Z) (next : dpo_id_t) : option lb_world :=
  on_lb w lbi (let! lb := get_lb in load_balance_set_bucket_i next_node (load_balance_get_buckets lb) bucket next).

Definition load_balance_update (resolved : Z -> bool) (w : lb_world) (lbi : Z) (raw_nhs : list load_balance_path_t) (flags : Z) : option lb_world :=
  on_lb w lbi (load_balance_multipath_update next_node qsort resolved raw_nhs flags).

Definition load_balance_is_drop (w : lb_world) (dpo : dpo_id_t) : option bool :=
  if negb (DPO_LOAD_BALANCE =? dpoi_type dpo) then Some false
  else
    lb ← load_balance_get w (dpoi_index dpo);
    if 1 =? lb_n_buckets lb then d ← load_balance_get_bucket_i lb 0; Some (dpo_is_drop d) else Some false.

Definition load_balance_n_buckets (w : lb_world) (lbi : Z) : option Z := lb ← load_balance_get w lbi; Some (lb_n_buckets lb).

Definition load_balance_set_fib_entry_flags (w : lb_world) (lbi flags : Z) : option lb_world :=
  lb ← load_balance_get w lbi; Some (put_lb w lbi (lb <| lb_fib_entry_flags := flags |>)).

Definition load_balance_set_urpf (w : lb_world) (lbi urpf : Z) : option lb_world :=
  lb ← load_balance_get w lbi;
  let old := lb_urpf lb in
  let w := put_lb w lbi (lb <| lb_urpf := urpf |>) in
  u ← fib_urpf_list_unlock (fib_urpf_list_pool w) old;
  u ← fib_urpf_list_lock u urpf;
  Some (w <| fib_urpf_list_pool := u |>).

Definition load_balance_get_urpf (w : lb_world) (lbi : Z) : option Z := lb ← load_balance_get w lbi; Some (lb_urpf lb).

Definition load_balance_lock (w : lb_world) (lbi : Z) : option lb_world :=
  lb ← load_balance_get w lbi; Some (put_lb w lbi (lb <| lb_locks := u32 (lb_locks lb + 1) |>)).

Definition load_balance_destroy (w : lb_world) (lbi : Z) : option lb_world :=
  w ← on_lb w lbi
    (let! lb := get_lb in
     reset_from (load_balance_get_buckets lb) (Z.to_nat (lb_n_buckets lb)) 0;;!
     if negb (LB_HAS_INLINE_BUCKETS lb) then store (fun lb => lb <| lb_buckets := [] |>) else ret tt);
  lb ← load_balance_get w lbi;
  u ← fib_urpf_list_unlock (fib_urpf_list_pool w) (lb_urpf lb);
  maps ← load_balance_map_unlock (w_maps w) (lb_map lb);
  Some (w <| fib_urpf_list_pool := u |> <| w_maps := maps |> <| load_balance_pool := pool_put_index (load_balance_pool w) lbi |>).

Definition load_balance_unlock (w : lb_world) (lbi : Z) : option lb_world :=
  lb ← load_balance_get w lbi;
  let locks := u32 (lb_locks lb - 1) in
  let w := put_lb w lbi (lb <| lb_locks := locks |>) in
  if 0 =? locks then load_balance_destroy w lbi else Some w.

End Ops.

(** ** Histories *)

(** What the FIB does with load-balances, uRPF lists and path states.  The maps of a
    path are told of a change only by [PathEdge]: a recursive path that is no longer
    resolved ([fib_path_recursive_adj_update]).  All other changes, up or down, are
    [PathChange]. *)
Inductive lb_op :=
  | LbCreate (n_buckets proto fhc : Z)
  | LbSetBucket (lbi bucket : Z) (next : dpo_id_t)
  | LbMultipathUpdate (lbi : Z) (raw_nhs : list load_balance_path_t) (flags : Z)
  | LbSetEntryFlags (lbi flags : Z)
  | LbSetUrpf (lbi urpf : Z)
  | LbLock (lbi : Z)
  | LbUnlock (lbi : Z)
  | PathChange (path : Z) (up : bool)
  | PathEdge (path : Z)
  | UrpfAlloc
  | UrpfUnlock (urpf : Z).

(** The objects and which paths are resolved now. *)
Definition lb_system : Type := lb_world * (Z -> bool).

Definition set_path (r : Z -> bool) (p : Z) (up : bool) : Z -> bool := fun i => if i =? p then up else r i.

Section Histories.
Variable next_node : Z -> Z -> dpo_id_t -> Z.
Variable qsort : list load_balance_path_t -> list load_balance_path_t.

Definition lb_exec (op : lb_op) (s : lb_system) : option lb_system :=
  let '(w, r) := s in
  match op with
  | LbCreate n proto fhc => Some (fst (load_balance_create w n proto fhc), r)
  | LbSetBucket lbi b next => w ← load_balance_set_bucket next_node w lbi b next; Some (w, r)
  | LbMultipathUpdate lbi raw flags => w ← load_balance_update next_node qsort r w lbi raw flags; Some (w, r)
  | LbSetEntryFlags lbi f => w ← load_balance_set_fib_entry_flags w lbi f; Some (w, r)
  | LbSetUrpf lbi ui => w ← load_balance_set_urpf w lbi ui; Some (w, r)
  | LbLock lbi => w ← load_balance_lock w lbi; Some (w, r)
  | LbUnlock lbi => w ← load_balance_unlock w lbi; Some (w, r)
  | PathChange p up => Some (w, set_path r p up)
  | PathEdge p =>
      let r := set_path r p false in
      maps ← load_balance_map_path_state_change r (w_maps w) p; Some (w <| w_maps := maps |>, r)
  | UrpfAlloc => Some (w <| fib_urpf_list_pool := fst (fib_urpf_list_alloc_and_lock (fib_urpf_list_pool w)) |>, r)
  | UrpfUnlock ui => u ← fib_urpf_list_unlock (fib_urpf_list_pool w) ui; Some (w <| fib_urpf_list_pool := u |>, r)
  end.

Fixpoint lb_run (ops : list lb_op) (s : lb_system) : option lb_system :=
  match ops with [] => Some s | op :: ops => s ← lb_exec op s; lb_run ops s end.

(** The path states that each map was filled with last: an update tells the map that it
    creates, the loss of a recursive path the maps of this path. *)
Definition told_after (op : lb_op) (s : lb_system) (told : Z -> Z -> bool) : Z -> Z -> bool :=
  let '(w, r) := s in
  match op with
  | LbMultipathUpdate _ _ _ => told_new r (w_maps w) told
  | PathEdge p => told_path (set_path r p false) (w_maps w) p told
  | _ => told
  end.

Fixpoint told_by (ops : list lb_op) (s : lb_system) (told : Z -> Z -> bool) : Z -> Z -> bool :=
  match ops with
  | [] => told
  | op :: ops => match lb_exec op s with Some s' => told_by ops s' (told_after op s told) | None => told end
  end.

End Histories.
