(* ===== verification/LbPoolInv.v ===== *)
(** * The pool of load-balances: references are conserved

    Along every history of the pool, the references on objects that load-balances
    hold are those of their buckets, the locks of a map are the load-balances that
    use it, and every map is filled for the states of its paths that it was told
    last.  Nothing is left behind when the last load-balance is gone. *)

From stdpp Require Import gmap.
From S2P Require Import Prelude Pool Float Dpo UrpfList LbNormalize FibNodeList LoadBalanceMap LbMapFill LbMapInv LoadBalance LbFill LbUpdate LoadBalanceProps LbPool.

(** ** Locks of uRPF lists *)

Record urpfs_ok (p : urpfs) : Prop := {
  uo_pool : pool_ok p;
  uo_len : pool_len p <= INV;
  uo_locks : forall i u, pool_lookup p i = Some u -> 0 < furpf_locks u < 2 ^ 32
}.

Definition urpf_count (p : urpfs) (i : Z) : Z := from_option furpf_locks 0 (pool_lookup p i).

Lemma urpf_live p i : urpfs_ok p -> 0 < urpf_count p i -> exists u, pool_lookup p i = Some u /\ (INDEX_INVALID =? i) = false.
Proof.
  intros H. unfold urpf_count. destruct (pool_lookup p i) as [u|] eqn:E; cbn [from_option]; [|lia]. intros _. exists u. split; [reflexivity|].
  pose proof (pool_lookup_range _ _ _ E). pose proof (uo_len _ H). apply Z.eqb_neq. unfold INDEX_INVALID, INV in *. lia.
Qed.

Lemma holds_self i : (INDEX_INVALID =? i) = false -> holds i i = 1.
Proof. intros H. unfold holds. now rewrite Z.eqb_refl, Z.eqb_sym, H. Qed.

Lemma holds_other i j : i <> j -> holds i j = 0.
Proof. intros H. unfold holds. now rewrite (proj2 (Z.eqb_neq _ _) H). Qed.

Lemma holds_invalid j : holds INDEX_INVALID j = 0.
Proof. unfold holds. destruct (Z.eqb_spec INDEX_INVALID j) as [<-|]; rewrite ?Z.eqb_refl; reflexivity. Qed.

Lemma holds_range i j : 0 <= holds i j <= 1.
Proof. unfold holds. destruct (_ && _); cbn; lia. Qed.

(** A list in use with another number of locks. *)
Lemma urpfs_write p ui u u1 : urpfs_ok p -> pool_lookup p ui = Some u -> 0 < furpf_locks u1 < 2 ^ 32 ->
  urpfs_ok (pool_write p ui u1) /\ forall i, urpf_count (pool_write p ui u1) i = urpf_count p i + (furpf_locks u1 - furpf_locks u) * holds ui i.
Proof.
  intros Hok Hu Hl. assert (forall j, pool_lookup (pool_write p ui u1) j = if decide (j = ui) then Some u1 else pool_lookup p j) as Hat by (intros j; exact (pool_write_lookup _ _ _ _ _ Hu)). split; [split|].
  - apply pool_write_ok, Hok.
  - rewrite pool_write_len. apply Hok.
  - intros j x. rewrite Hat. destruct (decide _); [now intros [= <-]|]. apply Hok.
  - intros j. unfold urpf_count. rewrite Hat. destruct (decide (j = ui)) as [->|Hj]; [|rewrite holds_other by congruence; lia]. rewrite Hu. cbn.
    destruct (urpf_live p ui Hok) as (_ & _ & Hi); [unfold urpf_count; rewrite Hu; apply (uo_locks _ Hok _ _ Hu)|]. rewrite (holds_self _ Hi). lia.
Qed.

Lemma urpf_unlock_spec p ui : urpfs_ok p -> ui = INDEX_INVALID \/ 0 < urpf_count p ui ->
  exists p', fib_urpf_list_unlock p ui = Some p' /\ urpfs_ok p' /\ forall i, urpf_count p' i = urpf_count p i - holds ui i.
Proof.
  intros Hok [->|Hc]. { exists p. split; [reflexivity|]. split; [exact Hok|]. intros i. rewrite holds_invalid. lia. }
  destruct (urpf_live _ _ Hok Hc) as (u & Hu & Hi). unfold fib_urpf_list_unlock, fib_urpf_list_get. rewrite Hi, (pool_lookup_elt _ _ _ Hu). cbn [mbind option_bind].
  pose proof (uo_locks _ Hok _ _ Hu) as Hl. rewrite u32_small by (unfold is_u; lia). set (u1 := u <| furpf_locks := furpf_locks u - 1 |>). rewrite pool_write_write.
  destruct (Z.eqb_spec 0 (furpf_locks u - 1)) as [H0|H0].
  - set (u2 := u1 <| furpf_itfs := [] |>). assert (pool_lookup (pool_write p ui u2) ui = Some u2) as Hu2 by now rewrite (pool_write_lookup _ _ _ _ _ Hu), decide_True.
    assert (forall j, pool_lookup (pool_put_index (pool_write p ui u2) ui) j = if decide (j = ui) then None else pool_lookup p j) as Hat.
    { intros j. rewrite (pool_put_lookup _ _ _ j Hu2), (pool_write_lookup _ _ _ _ _ Hu). now destruct (decide _). }
    eexists. split; [reflexivity|]. split; [split|].
    + apply (pool_put_ok _ _ u2); [|exact Hu2]. apply pool_write_ok, Hok.
    + rewrite pool_put_len, pool_write_len. apply Hok.
    + intros j x. rewrite Hat. destruct (decide _); [easy|]. apply Hok.
    + intros j. unfold urpf_count. rewrite Hat. destruct (decide (j = ui)) as [->|Hj]; [rewrite Hu, (holds_self _ Hi); cbn; lia|]. rewrite holds_other by congruence. lia.
  - destruct (urpfs_write p ui u u1 Hok Hu ltac:(cbn; lia)) as [Hok1 Hc1]. eexists. split; [reflexivity|]. split; [exact Hok1|]. intros i. rewrite Hc1. cbn. lia.
Qed.

Lemma urpf_lock_spec p ui : urpfs_ok p -> 0 < urpf_count p ui -> urpf_count p ui + 1 < 2 ^ 32 ->
  exists p', fib_urpf_list_lock p ui = Some p' /\ urpfs_ok p' /\ forall i, urpf_count p' i = urpf_count p i + holds ui i.
Proof.
  intros Hok Hc Hb. destruct (urpf_live _ _ Hok Hc) as (u & Hu & Hi). unfold fib_urpf_list_lock, fib_urpf_list_get. rewrite (pool_lookup_elt _ _ _ Hu). cbn [mbind option_bind].
  assert (urpf_count p ui = furpf_locks u) as Eu by (unfold urpf_count; now rewrite Hu). rewrite Eu in *. rewrite u32_small by (unfold is_u; lia). set (u1 := u <| furpf_locks := _ |>).
  destruct (urpfs_write p ui u u1 Hok Hu ltac:(cbn; lia)) as [Hok1 Hc1]. eexists. split; [reflexivity|]. split; [exact Hok1|]. intros i. rewrite Hc1. cbn. lia.
Qed.

Lemma urpf_alloc_spec p : urpfs_ok p -> pool_len p < INV -> urpfs_ok (fst (fib_urpf_list_alloc_and_lock p)) /\ forall i, urpf_count p i <= urpf_count (fst (fib_urpf_list_alloc_and_lock p)) i.
Proof.
  intros Hok Hl. unfold fib_urpf_list_alloc_and_lock. set (u := _ <| furpf_locks := _ |>). pose proof (pool_get_write urpf_zero p u (uo_pool _ Hok)) as Ha. destruct (pool_get _ _) as [q i]. cbn [fst]. destruct Ha as [Ha Hi]. split; [split|].
  - apply Ha.
  - pose proof (al_len _ _ _ Ha). lia.
  - intros j x Hj. destruct (decide (j = i)) as [->|Hne]; [rewrite Hi in Hj; injection Hj as <-; now vm_compute|]. rewrite (al_other _ _ _ Ha _ Hne) in Hj. exact (uo_locks _ Hok _ _ Hj).
  - intros j. unfold urpf_count. destruct (decide (j = i)) as [->|Hne]; [rewrite (al_fresh _ _ _ Ha), Hi; now vm_compute|]. now rewrite (al_other _ _ _ Ha _ Hne).
Qed.

(** ** The invariant *)

Abbreviation lb_at w := (pool_lookup (load_balance_pool w)).

(** What the load-balances hold of an object, of a map, of a uRPF list. *)
Definition held_by (w : lb_world) (k : Z * Z) : Z := pool_sum (fun lb => held k (cur lb)) (load_balance_pool w).
Definition users (w : lb_world) (i : Z) : Z := pool_sum (fun lb => holds (lb_map lb) i) (load_balance_pool w).
Definition urpf_users (w : lb_world) (i : Z) : Z := pool_sum (fun lb => holds (lb_urpf lb) i) (load_balance_pool w).

Record world_ok (told : Z -> Z -> bool) (w : lb_world) : Prop := {
  wo_pool : pool_ok (load_balance_pool w);
  wo_lb : forall i lb, lb_at w i = Some lb -> lb_ok lb;
  wo_maps : exists L, maps_ok L (w_maps w);
  wo_filled : maps_filled told (w_maps w);
  wo_locks : forall i, lock_count (w_maps w) i = users w i;
  wo_urpfs : urpfs_ok (fib_urpf_list_pool w);
  wo_urpf_locks : forall i, urpf_users w i <= urpf_count (fib_urpf_list_pool w) i
}.

(** References that are not held by load-balances. *)
Definition balance (w : lb_world) (k : Z * Z) : Z := refs_of (w_refs w) k - held_by w k.

Lemma lb_users w i lb : lb_at w i = Some lb -> (forall j, holds (lb_map lb) j <= users w j) /\ (forall j, holds (lb_urpf lb) j <= urpf_users w j).
Proof.
  intros H. split; intros j.
  - exact (pool_sum_ge (fun lb => holds (lb_map lb) j) _ _ _ ltac:(intros; apply holds_range) H).
  - exact (pool_sum_ge (fun lb => holds (lb_urpf lb) j) _ _ _ ltac:(intros; apply holds_range) H).
Qed.

(** The map and the uRPF list of a load-balance are in use. *)
Lemma world_map_ok r w i lb : world_ok r w -> lb_at w i = Some lb -> lb_map_ok (w_maps w) lb.
Proof.
  intros Hw Hl. destruct (lb_users _ _ _ Hl) as [H _]. specialize (H (lb_map lb)). rewrite <- (wo_locks _ _ Hw) in H. destruct (wo_maps _ _ Hw) as [L HL].
  destruct (INDEX_INVALID =? lb_map lb) eqn:E; [left; now apply Z.eqb_eq in E|right]. apply (locked_some L _ _ HL). rewrite (holds_self _ E) in H. lia.
Qed.

Lemma world_urpf_ok r w i lb : world_ok r w -> lb_at w i = Some lb -> lb_urpf lb = INDEX_INVALID \/ 0 < urpf_count (fib_urpf_list_pool w) (lb_urpf lb).
Proof.
  intros Hw Hl. destruct (lb_users _ _ _ Hl) as [_ H]. specialize (H (lb_urpf lb)). pose proof (wo_urpf_locks _ _ Hw (lb_urpf lb)).
  destruct (INDEX_INVALID =? lb_urpf lb) eqn:E; [left; now apply Z.eqb_eq in E|right]. rewrite (holds_self _ E) in H. lia.
Qed.

(** One load-balance changes. *)
Lemma world_write (r r' : Z -> Z -> bool) w w' i lb lb' : world_ok r w -> lb_at w i = Some lb -> load_balance_pool w' = pool_write (load_balance_pool w) i lb' -> lb_ok lb' ->
  (exists L, maps_ok L (w_maps w')) -> maps_filled r' (w_maps w') -> (forall j, lock_count (w_maps w') j = lock_count (w_maps w) j + holds (lb_map lb') j - holds (lb_map lb) j) ->
  urpfs_ok (fib_urpf_list_pool w') -> (forall j, urpf_count (fib_urpf_list_pool w) j + holds (lb_urpf lb') j - holds (lb_urpf lb) j <= urpf_count (fib_urpf_list_pool w') j) ->
  world_ok r' w' /\ forall k, held_by w' k = held_by w k + held k (cur lb') - held k (cur lb).
Proof.
  intros Hw Hl Hp Hok HL Hf Hlk Hu Huc. assert (forall f, pool_sum f (load_balance_pool w') = pool_sum f (load_balance_pool w) - f lb + f lb') as Hs by (intros f; rewrite Hp; now apply pool_sum_write). split; [split|]; try assumption.
  - rewrite Hp. apply pool_write_ok, Hw.
  - intros j x. rewrite Hp, (pool_write_lookup _ _ _ _ _ Hl). destruct (decide _); [now intros [= <-]|]. apply Hw.
  - intros j. rewrite Hlk, (wo_locks _ _ Hw). unfold users. rewrite Hs. lia.
  - intros j. pose proof (wo_urpf_locks _ _ Hw j). specialize (Huc j). unfold urpf_users in *. rewrite Hs. lia.
  - intros k. unfold held_by. rewrite Hs. lia.
Qed.

(** ** The operations *)

(** A change of fields that hold nothing. *)
Lemma field_ok r w i lb lb' : world_ok r w -> lb_at w i = Some lb -> lb_ok lb' -> lb_map lb' = lb_map lb -> lb_urpf lb' = lb_urpf lb -> cur lb' = cur lb ->
  world_ok r (put_lb w i lb') /\ forall k, balance (put_lb w i lb') k = balance w k.
Proof.
  intros Hw Hl Hok Hm Hu Hc. destruct (world_write r r w (put_lb w i lb') i lb lb' Hw Hl eq_refl Hok) as [Hw' Hh]; try apply Hw.
  - intros j. rewrite Hm. cbn. lia.
  - intros j. rewrite Hu. cbn. lia.
  - split; [exact Hw'|]. intros k. unfold balance. rewrite Hh, Hc. cbn. lia.
Qed.

Lemma created_lb_ok n proto fhc : n = 0 \/ (exists k, 0 <= k <= 13 /\ n = 2 ^ k) -> lb_ok (load_balance_create_i n proto fhc lb_zero) /\ uncounted (cur (load_balance_create_i n proto fhc lb_zero)).
Proof.
  intros Hn. assert (0 <= n <= 8192) as Hr by (destruct Hn as [->|(k & Hk & ->)]; [lia|]; pose proof (pow2_range k Hk); lia). assert (forall m, uncounted (replicate m dpo_zero)) as Hz by (intros m; now apply Forall_replicate).
  unfold load_balance_create_i. cbv zeta. assert (u16 n = n) as Eu by (unfold u16; apply Z.mod_small; lia). unfold LB_HAS_INLINE_BUCKETS at 1 2, LB_NUM_INLINE_BUCKETS at 1 2. cbn. rewrite Eu. destruct (Z.leb_spec n 4) as [H4|H4]; cbn [negb].
  - assert (arr ((mk_lb n (u16 (n - 1)) proto 0 0 0 INDEX_INVALID INDEX_INVALID fhc [] (replicate 4 dpo_zero))) = replicate 4 dpo_zero) as Ha by (unfold arr, LB_HAS_INLINE_BUCKETS, LB_NUM_INLINE_BUCKETS; cbn; now destruct (Z.leb_spec n 4); [|lia]).
    change (lb_ok (mk_lb n (u16 (n - 1)) proto 0 0 0 INDEX_INVALID INDEX_INVALID fhc [] (replicate 4 dpo_zero)) /\ uncounted (cur (mk_lb n (u16 (n - 1)) proto 0 0 0 INDEX_INVALID INDEX_INVALID fhc [] (replicate 4 dpo_zero)))).
    split; [split; try reflexivity; try exact Hn|].
    + rewrite Ha. cbn. lia.
    + unfold unused. rewrite Ha. cbn [lb_n_buckets lb_buckets]. apply Forall_app. split; [apply Forall_drop, Hz|]. destruct (LB_HAS_INLINE_BUCKETS _); [constructor|apply (Hz 4%nat)].
    + unfold cur. rewrite Ha. apply Forall_take, Hz.
  - set (lb := _ <| lb_buckets := _ |>). assert (lb_buckets lb = replicate (Z.to_nat n) dpo_zero) as Hb by (unfold lb, vec_validate_buckets; cbn; now rewrite Nat.sub_0_r).
    assert (arr lb = lb_buckets lb /\ LB_HAS_INLINE_BUCKETS lb = false) as [Ha Hi] by (apply arr_vector; exact H4).
    split; [split; try reflexivity; try exact Hn|].
    + cbn. unfold LB_NUM_INLINE_BUCKETS. lia.
    + rewrite Ha, Hb, length_replicate. cbn. lia.
    + unfold unused. rewrite Ha, Hb, Hi. apply Forall_app. split; [apply Forall_drop, Hz|apply (Hz 4%nat)].
    + unfold cur. rewrite Ha, Hb. apply Forall_take, Hz.
Qed.

Lemma create_step r w n proto fhc : world_ok r w -> n = 0 \/ (exists k, 0 <= k <= 13 /\ n = 2 ^ k) ->
  world_ok r (fst (load_balance_create w n proto fhc)) /\ forall k, balance (fst (load_balance_create w n proto fhc)) k = balance w k.
Proof.
  intros Hw Hn. destruct (created_lb_ok n proto fhc Hn) as [Hok Hc]. unfold load_balance_create, load_balance_alloc_i. set (lb := load_balance_create_i _ _ _ _) in *.
  assert (lb_map lb = INDEX_INVALID /\ lb_urpf lb = INDEX_INVALID) as [Em Eu] by (unfold lb, load_balance_create_i; cbv zeta; now destruct (negb _)).
  pose proof (pool_get_write lb_zero (load_balance_pool w) lb (wo_pool _ _ Hw)) as Ha. pose proof (fun f => pool_sum_get_write f lb_zero (load_balance_pool w) lb (wo_pool _ _ Hw)) as Hs. destruct (pool_get _ _) as [p i]. destruct Ha as [Ha Hi]. cbn [fst].
  assert (load_balance_pool (put_lb (w <| load_balance_pool := pool_write p i lb_zero |>) i lb) = pool_write p i lb) as Ep by (cbn; apply pool_write_write).
  set (w' := put_lb _ i lb) in *. split; [split|]; try (now apply Hw); rewrite ?Ep.
  - apply Ha.
  - intros j x Hj. destruct (decide (j = i)) as [->|Hne]; [rewrite Hi in Hj; now injection Hj as <-|]. rewrite (al_other _ _ _ Ha _ Hne) in Hj. exact (wo_lb _ _ Hw _ _ Hj).
  - intros j. unfold users. rewrite Ep, Hs, Em, holds_invalid, Z.add_0_r. apply Hw.
  - intros j. unfold urpf_users. rewrite Ep, Hs, Eu, holds_invalid, Z.add_0_r. apply Hw.
  - intros k. unfold balance, held_by. rewrite Ep, Hs, (held_uncounted k _ Hc). cbn. lia.
Qed.

(** One bucket in use is written. *)
Lemma bucket_ok lb b x : lb_ok lb -> (Z.of_nat b < lb_n_buckets lb) ->
  let lb' := with_at (load_balance_get_buckets lb) (<[b := x]> (arr lb)) lb in lb_ok lb' /\ cur lb' = <[b := x]> (cur lb).
Proof.
  intros Hok Hb lb'. assert (lb_n_buckets lb' = lb_n_buckets lb /\ LB_HAS_INLINE_BUCKETS lb' = LB_HAS_INLINE_BUCKETS lb) as [En Ei] by (unfold lb', load_balance_get_buckets; destruct (LB_HAS_INLINE_BUCKETS lb) eqn:E; now rewrite <- ?E).
  pose proof (arr_with lb (<[b := x]> (arr lb)) : arr lb' = _) as Ea. split.
  - split; rewrite ?En.
    + apply (lo_n _ Hok).
    + unfold lb', load_balance_get_buckets. destruct (LB_HAS_INLINE_BUCKETS lb); apply (lo_minus _ Hok).
    + unfold lb', load_balance_get_buckets, arr. destruct (LB_HAS_INLINE_BUCKETS lb); cbn; rewrite ?length_insert; apply (lo_inline _ Hok).
    + intros Hs. unfold lb', load_balance_get_buckets. destruct (arr_inline lb Hs) as [_ ->]. cbn. now apply (lo_small _ Hok).
    + rewrite Ea, length_insert. apply (lo_large _ Hok).
    + pose proof (lo_unused _ Hok) as Hu. unfold unused in *. rewrite En, Ea, Ei, drop_insert_lt by lia. unfold lb', load_balance_get_buckets. now destruct (LB_HAS_INLINE_BUCKETS lb).
  - unfold cur. rewrite En, Ea, take_insert_lt by lia. reflexivity.
Qed.

Lemma set_urpf_step r w lbi lb ui : world_ok r w -> lb_at w lbi = Some lb -> urpf_users w ui < urpf_count (fib_urpf_list_pool w) ui -> urpf_count (fib_urpf_list_pool w) ui + 1 < 2 ^ 32 ->
  exists w', load_balance_set_urpf w lbi ui = Some w' /\ world_ok r w' /\ forall k, balance w' k = balance w k.
Proof.
  intros Hw Hl Hu Hb. unfold load_balance_set_urpf, load_balance_get. rewrite (pool_lookup_elt _ _ _ Hl). cbn [mbind option_bind]. set (lb' := lb <| lb_urpf := ui |>). change (fib_urpf_list_pool (put_lb w lbi lb')) with (fib_urpf_list_pool w).
  destruct (urpf_unlock_spec _ _ (wo_urpfs _ _ Hw) (world_urpf_ok _ _ _ _ Hw Hl)) as (p1 & -> & Hok1 & Hc1). cbn [mbind option_bind]. destruct (lb_users _ _ _ Hl) as [_ Hself]. specialize (Hself ui). pose proof (holds_range (lb_urpf lb) ui).
  destruct (urpf_lock_spec p1 ui Hok1 ltac:(rewrite Hc1; lia) ltac:(rewrite Hc1; lia)) as (p2 & -> & Hok2 & Hc2). cbn [mbind option_bind]. eexists. split; [reflexivity|].
  match goal with |- world_ok _ ?x /\ _ => set (w' := x) end. assert (lb_ok lb') as Hok' by (destruct (wo_lb _ _ Hw _ _ Hl); now split).
  destruct (world_write r r w w' lbi lb lb' Hw Hl eq_refl Hok') as [Hw' Hh]; try apply Hw.
  - intros j. cbn. lia.
  - exact Hok2.
  - intros j. cbn. rewrite Hc2, Hc1. lia.
  - split; [exact Hw'|]. intros k. unfold balance. rewrite Hh. change (cur lb') with (cur lb). cbn. lia.
Qed.

(** The buckets of an object that is destroyed are given back. *)
Lemma release_buckets lb refs maps : lb_ok lb ->
  exists lb' refs' t, (let! lb := get_lb in
     reset_from (load_balance_get_buckets lb) (Z.to_nat (lb_n_buckets lb)) 0;;!
     if negb (LB_HAS_INLINE_BUCKETS lb) then store (fun lb => lb <| lb_buckets := [] |>) else ret tt) (mk_lbs lb refs maps [] []) = Some (tt, mk_lbs lb' refs' maps [] t)
    /\ lb_urpf lb' = lb_urpf lb /\ lb_map lb' = lb_map lb /\ forall k, refs_of refs' k = refs_of refs k - held k (cur lb).
Proof.
  intros Hok. set (st := mk_lbs lb refs maps [] []). unfold bind at 1, get_lb. change (st_lb st) with lb. set (a := load_balance_get_buckets lb). pose proof (read_get_buckets st : read_at a st = arr lb) as Hr. pose proof (lo_large _ Hok) as Hlg.
  destruct (reset_from_spec a (Z.to_nat (lb_n_buckets lb)) 0 st) as (st1 & E & W & R); [rewrite Hr; lia|]. change (Z.of_nat 0) with 0 in E. rewrite (bind_some _ _ _ _ _ E). rewrite Hr, drop_0 in R. fold (cur lb) in R.
  pose proof (wr_lb _ _ _ _ _ W) as L. pose proof (wr_maps _ _ _ _ _ W) as M. pose proof (wr_new _ _ _ _ _ W) as N. assert (st_new st1 = []) as N1 by (rewrite N; unfold a, load_balance_get_buckets; now destruct (LB_HAS_INLINE_BUCKETS lb)).
  assert (lb_urpf (st_lb st1) = lb_urpf lb /\ lb_map (st_lb st1) = lb_map lb) as [Eu Em] by (rewrite L; now destruct a). clear N E W. destruct st1 as [lb1 refs1 maps1 new1 t1]. cbn in Eu, Em, M, N1, R. subst maps1 new1.
  destruct (negb _); (do 3 eexists; split; [reflexivity|]); auto.
Qed.

Lemma destroy_step r w lbi lb : world_ok r w -> lb_at w lbi = Some lb ->
  exists w', load_balance_destroy w lbi = Some w' /\ world_ok r w' /\ (forall k, balance w' k = balance w k) /\ forall j, lb_at w' j = if decide (j = lbi) then None else lb_at w j.
Proof.
  intros Hw Hl. pose proof (wo_lb _ _ Hw _ _ Hl) as Hok. unfold load_balance_destroy, on_lb, load_balance_get. rewrite (pool_lookup_elt _ _ _ Hl). cbn [mbind option_bind].
  destruct (release_buckets lb (w_refs w) (w_maps w) Hok) as (lb' & refs' & t & -> & Eu & Em & R). cbn [mbind option_bind]. cbn [st_lb st_refs st_maps].
  match goal with |- context [put_lb ?x lbi lb'] => set (w1 := put_lb x lbi lb') end. assert (lb_at w1 lbi = Some lb') as Hl1 by (cbn; now rewrite (pool_write_lookup _ _ _ _ _ Hl), decide_True).
  rewrite (pool_lookup_elt _ _ _ Hl1). cbn [mbind option_bind]. rewrite Eu, Em. change (fib_urpf_list_pool w1) with (fib_urpf_list_pool w). change (w_maps w1) with (w_maps w).
  destruct (urpf_unlock_spec _ _ (wo_urpfs _ _ Hw) (world_urpf_ok _ _ _ _ Hw Hl)) as (u & -> & Hu & Hc). cbn [mbind option_bind]. destruct (wo_maps _ _ Hw) as [L HL].
  destruct (unlock_locks L (w_maps w) (lb_map lb) HL (world_map_ok _ _ _ _ Hw Hl)) as (maps & L' & -> & HL' & Hf & Hlk & _). cbn [mbind option_bind]. eexists. split; [reflexivity|].
  match goal with |- world_ok _ ?x /\ _ => set (w' := x) end.
  assert (forall f, pool_sum f (load_balance_pool w') = pool_sum f (load_balance_pool w) - f lb) as Hs.
  { intros f. change (load_balance_pool w') with (pool_put_index (load_balance_pool w1) lbi). rewrite (pool_sum_put f _ _ lb' Hl1). change (load_balance_pool w1) with (pool_write (load_balance_pool w) lbi lb'). rewrite (pool_sum_write f _ _ lb' lb Hl). lia. }
  assert (forall j, lb_at w' j = if decide (j = lbi) then None else lb_at w j) as Hat.
  { intros j. change (load_balance_pool w') with (pool_put_index (load_balance_pool w1) lbi). rewrite (pool_put_lookup _ _ _ j Hl1). destruct (decide _); [reflexivity|]. cbn. now rewrite (pool_write_lookup _ _ _ _ _ Hl), decide_False. }
  split; [split|split; [|exact Hat]].
  - apply (pool_put_ok _ _ lb'); [|exact Hl1]. apply pool_write_ok, Hw.
  - intros j x. rewrite Hat. destruct (decide _); [easy|]. apply Hw.
  - now exists L'.
  - exact (Hf r (wo_filled _ _ Hw)).
  - intros j. change (w_maps w') with maps. rewrite Hlk, (wo_locks _ _ Hw). unfold users. rewrite Hs. lia.
  - exact Hu.
  - intros j. change (fib_urpf_list_pool w') with u. rewrite Hc. unfold urpf_users. rewrite Hs. pose proof (wo_urpf_locks _ _ Hw j). unfold urpf_users in *. lia.
  - intros k. unfold balance, held_by. rewrite Hs. change (w_refs w') with refs'. rewrite R. lia.
Qed.

Lemma unlock_step r w lbi lb : world_ok r w -> lb_at w lbi = Some lb ->
  exists w', load_balance_unlock w lbi = Some w' /\ world_ok r w' /\ (forall k, balance w' k = balance w k) /\ (lb_locks lb = 1 -> lb_at w' lbi = None).
Proof.
  intros Hw Hl. unfold load_balance_unlock. unfold load_balance_get at 1. rewrite (pool_lookup_elt _ _ _ Hl). cbn [mbind option_bind]. set (lb1 := lb <| lb_locks := _ |>).
  assert (lb_ok lb1) as Hok1 by (destruct (wo_lb _ _ Hw _ _ Hl); now split). destruct (field_ok r w lbi lb lb1 Hw Hl Hok1 eq_refl eq_refl eq_refl) as [Hw1 Hb1].
  assert (lb_at (put_lb w lbi lb1) lbi = Some lb1) as Hl1 by (cbn; now rewrite (pool_write_lookup _ _ _ _ _ Hl), decide_True). destruct (Z.eqb_spec 0 (u32 (lb_locks lb - 1))) as [E|E].
  - destruct (destroy_step r _ lbi lb1 Hw1 Hl1) as (w' & E' & Hw' & Hb' & Hat). exists w'. split; [exact E'|]. split; [exact Hw'|]. split; [intros k; rewrite Hb'; apply Hb1|]. intros _. now rewrite Hat, decide_True.
  - eexists. split; [reflexivity|]. split; [exact Hw1|]. split; [exact Hb1|]. intros H1. rewrite H1 in E. now vm_compute in E.
Qed.

Lemma path_edge_step told r w p : world_ok told w ->
  exists maps, load_balance_map_path_state_change r (w_maps w) p = Some maps /\ world_ok (told_path r (w_maps w) p told) (w <| w_maps := maps |>).
Proof.
  intros Hw. destruct (wo_maps _ _ Hw) as [L HL]. destruct (path_state_change_spec r told L (w_maps w) p HL (wo_filled _ _ Hw)) as (maps & E & HL' & Hf & Hsame).
  exists maps. split; [exact E|]. split; try apply Hw; [now exists L|exact Hf|]. intros i. cbn. change (users _ i) with (users w i). rewrite <- (wo_locks _ _ Hw). unfold lock_count. specialize (Hsame i).
  destruct (map_at maps i), (map_at (w_maps w) i); cbn in *; congruence.
Qed.

Section Steps.
Variable next_node : Z -> Z -> dpo_id_t -> Z.
Variable qsort : list load_balance_path_t -> list load_balance_path_t.
Hypothesis qsort_perm : forall l, qsort l ≡ₚ l.

Lemma set_bucket_step r w lbi lb bucket next : world_ok r w -> lb_at w lbi = Some lb -> 0 <= bucket < lb_n_buckets lb ->
  exists w', load_balance_set_bucket next_node w lbi bucket next = Some w' /\ world_ok r w' /\ forall k, balance w' k = balance w k.
Proof.
  intros Hw Hl Hb. pose proof (wo_lb _ _ Hw _ _ Hl) as Hok. unfold load_balance_set_bucket, on_lb, load_balance_get. rewrite (pool_lookup_elt _ _ _ Hl). cbn [mbind option_bind].
  set (st := mk_lbs lb (w_refs w) (w_maps w) [] []). unfold bind at 1, get_lb. change (st_lb st) with lb. set (a := load_balance_get_buckets lb). pose proof (read_get_buckets st : read_at a st = arr lb) as Hr. pose proof (lo_large _ Hok) as Hlg.
  destruct (lookup_lt_is_Some_2 (arr lb) (Z.to_nat bucket)) as [old Hold]; [lia|]. assert (vec_elt (read_at a st) bucket = Some old) as Hv by (rewrite Hr; unfold vec_elt; destruct (Z.ltb_spec bucket 0); [lia|exact Hold]).
  unfold load_balance_set_bucket_i. unfold bind at 1, get_lb. change (st_lb st) with lb.
  destruct (update_bucket_spec a bucket (fun old r => dpo_stack_i (next_node DPO_LOAD_BALANCE (lb_proto lb) next) old next r) st old Hv) as (st' & E & W & R). rewrite E. cbn [mbind option_bind]. rewrite Hr in W.
  destruct (dpo_stack_spec (next_node DPO_LOAD_BALANCE (lb_proto lb) next) old next (st_refs st)) as [S1 S2]. rewrite S1 in W. pose proof (wr_lb _ _ _ _ _ W) as L. pose proof (wr_maps _ _ _ _ _ W) as M. cbn in L, M. fold (stacked next_node (lb_proto lb) next) in L.
  destruct (bucket_ok lb (Z.to_nat bucket) (stacked next_node (lb_proto lb) next) Hok ltac:(lia)) as [Hok' Hc]. fold a in Hok', Hc. rewrite <- L in Hok', Hc. eexists. split; [reflexivity|]. rewrite M.
  assert (lb_map (st_lb st') = lb_map lb /\ lb_urpf (st_lb st') = lb_urpf lb) as [Em Eu] by (rewrite L; now destruct a).
  match goal with |- world_ok _ ?x /\ _ => set (w' := x) end.
  destruct (world_write r r w w' lbi lb (st_lb st') Hw Hl eq_refl Hok') as [Hw' Hh]; try apply Hw.
  - intros j. rewrite Em. cbn. lia.
  - intros j. rewrite Eu. cbn. lia.
  - split; [exact Hw'|]. intros k. unfold balance. rewrite Hh. cbn. rewrite R, S2, Hc. change (st_refs st) with (w_refs w).
    rewrite (held_insert k (cur lb) (Z.to_nat bucket) _ old) by (unfold cur; rewrite lookup_take_lt by lia; exact Hold). unfold stacked. rewrite held_next. lia.
Qed.

(** What an update needs: a path that keeps buckets, and room for a map. *)
Definition update_ready (w : lb_world) (lb : load_balance_t) (raw : list load_balance_path_t) : Prop :=
  exists r, ip_multipath_normalize_next_hops qsort (paths_for (lb_proto lb) raw) multipath_next_hop_error_tolerance = Some r /\ nm_nhs r <> []
    /\ pool_len (load_balance_map_pool (w_maps w)) < INV /\ room (length (nm_nhs r)) (lbm_lists (w_maps w)) /\ forall i, lock_count (w_maps w) i + 1 < 2 ^ 32.

Lemma multipath_step told r w lbi lb raw flags : world_ok told w -> lb_at w lbi = Some lb -> update_ready w lb raw ->
  exists w', load_balance_update next_node qsort r w lbi raw flags = Some w' /\ world_ok (told_new r (w_maps w) told) w' /\ forall k, balance w' k = balance w k - held k (map path_dpo raw).
Proof.
  intros Hw Hl (nr & Hn & Hne & H1 & H2 & H3). pose proof (wo_lb _ _ Hw _ _ Hl) as Hok. unfold load_balance_update, on_lb, load_balance_get. rewrite (pool_lookup_elt _ _ _ Hl). cbn [mbind option_bind].
  set (st := mk_lbs lb (w_refs w) (w_maps w) [] []). destruct (wo_maps _ _ Hw) as [L HL]. assert (maps_ready L (length (nm_nhs nr)) (w_maps w)) as Hready.
  { split; try assumption. intros i m Hm. specialize (H3 i). unfold lock_count in H3. now rewrite Hm in H3. }
  destruct (multipath_update_spec next_node qsort r qsort_perm L st raw flags nr Hok (world_map_ok _ _ _ _ Hw Hl) Hn Hne Hready) as (st' & E & U). rewrite E. cbn [mbind option_bind]. eexists. split; [reflexivity|].
  match goal with |- world_ok _ ?x /\ _ => set (w' := x) end.
  destruct (world_write told (told_new r (w_maps w) told) w w' lbi lb (st_lb st') Hw Hl eq_refl (mu_ok _ _ _ _ _ _ _ U)) as [Hw' Hh].
  - apply (mu_maps _ _ _ _ _ _ _ U).
  - apply (mu_filled _ _ _ _ _ _ _ U told), Hw.
  - apply (mu_locks _ _ _ _ _ _ _ U).
  - apply Hw.
  - intros j. destruct (mu_same _ _ _ _ _ _ _ U) as (_ & _ & _ & _ & Eu & _). rewrite Eu. cbn. lia.
  - split; [exact Hw'|]. intros k. unfold balance. rewrite Hh. cbn. rewrite (mu_refs _ _ _ _ _ _ _ U). cbn. lia.
Qed.

End Steps.
