(* ===== verification/LbPoolProps.v ===== *)
(** * Load-balances: histories

    The properties of load-balances and their maps along every history of their
    operations, and of one update. *)

From stdpp Require Import gmap.
From S2P Require Import Prelude Pool Float Dpo UrpfList LbNormalize FibNodeList LoadBalanceMap LbMapFill LbMapInv LoadBalance LbFill LbUpdate LoadBalanceProps LbPool LbPoolInv.

(** References that an operation takes over from its caller. *)
Definition given (op : lb_op) : list dpo_id_t :=
  match op with LbMultipathUpdate _ raw _ => map path_dpo raw | _ => [] end.

(** The system at start. *)
Definition lb_system_init (refs : dpo_refs) (r : Z -> bool) : lb_system := (mk_world pool_empty refs load_balance_map_module_init pool_empty, r).

Section Props.
Variable next_node : Z -> Z -> dpo_id_t -> Z.
Variable qsort : list load_balance_path_t -> list load_balance_path_t.
Hypothesis qsort_perm : forall l, qsort l ≡ₚ l.

(** What callers observe: indices are of objects in use, the number of buckets is a
    power of two, a list that is unlocked or handed over is locked by its caller,
    and counters do not wrap. *)
Definition lb_may (op : lb_op) (s : lb_system) : Prop :=
  let w := fst s in
  match op with
  | LbCreate n _ _ => n = 0 \/ exists k, 0 <= k <= 13 /\ n = 2 ^ k
  | LbSetBucket lbi b _ => exists lb, lb_at w lbi = Some lb /\ 0 <= b < lb_n_buckets lb
  | LbMultipathUpdate lbi raw _ => exists lb, lb_at w lbi = Some lb /\ update_ready qsort w lb raw
  | LbSetEntryFlags lbi _ | LbLock lbi | LbUnlock lbi => is_Some (lb_at w lbi)
  | LbSetUrpf lbi ui => is_Some (lb_at w lbi) /\ urpf_users w ui < urpf_count (fib_urpf_list_pool w) ui /\ urpf_count (fib_urpf_list_pool w) ui + 1 < 2 ^ 32
  | PathChange _ _ | PathEdge _ => True
  | UrpfAlloc => pool_len (fib_urpf_list_pool w) < INV
  | UrpfUnlock ui => urpf_users w ui < urpf_count (fib_urpf_list_pool w) ui
  end.

Fixpoint lb_may_run (ops : list lb_op) (s : lb_system) : Prop :=
  match ops with
  | [] => True
  | op :: ops => lb_may op s /\ forall s', lb_exec next_node qsort op s = Some s' -> lb_may_run ops s'
  end.

(** The invariant, with the path states that the maps were told. *)
Definition system_ok (told : Z -> Z -> bool) (s : lb_system) : Prop := world_ok told (fst s).

(** Other fields of the world do not change what load-balances hold. *)
Lemma world_urpfs (r : Z -> Z -> bool) w u : world_ok r w -> urpfs_ok u -> (forall i, urpf_users w i <= urpf_count u i) -> world_ok r (w <| fib_urpf_list_pool := u |>).
Proof. intros [? ? ? ? ? ? ?] Hu Hc. now split. Qed.

Lemma lb_step told op s : system_ok told s -> lb_may op s ->
  exists s', lb_exec next_node qsort op s = Some s' /\ system_ok (told_after op s told) s' /\ forall k, balance (fst s') k = balance (fst s) k - held k (given op).
Proof.
  destruct s as [w r]. unfold system_ok. cbn [fst snd]. intros Hw Hm. destruct op; cbn [lb_may fst given held] in Hm |- *; cbn [lb_exec told_after].
  - destruct (create_step told w n_buckets proto fhc Hw Hm) as [Hw' Hb]. eexists. split; [reflexivity|]. split; [exact Hw'|]. intros k. cbn [fst]. rewrite Hb. lia.
  - destruct Hm as (lb & Hl & Hb). destruct (set_bucket_step next_node told w lbi lb bucket next Hw Hl Hb) as (w' & -> & Hw' & Hbal). eexists. split; [reflexivity|]. split; [exact Hw'|]. intros k. cbn [fst]. rewrite Hbal. lia.
  - destruct Hm as (lb & Hl & Hr). destruct (multipath_step next_node qsort qsort_perm told r w lbi lb raw_nhs flags Hw Hl Hr) as (w' & -> & Hw' & Hbal). eexists. split; [reflexivity|]. now split.
  - destruct Hm as [lb Hl]. unfold load_balance_set_fib_entry_flags, load_balance_get. rewrite (pool_lookup_elt _ _ _ Hl). eexists. split; [reflexivity|].
    cbn [fst snd]. set (lb' := lb <| lb_fib_entry_flags := flags |>). destruct (field_ok told w lbi lb lb' Hw Hl) as [Hw' Hb]; try reflexivity; [destruct (wo_lb _ _ Hw _ _ Hl); now split|]. split; [exact Hw'|]. intros k. rewrite (Hb k). lia.
  - destruct Hm as ([lb Hl] & H1 & H2). destruct (set_urpf_step told w lbi lb urpf Hw Hl H1 H2) as (w' & -> & Hw' & Hbal). eexists. split; [reflexivity|]. split; [exact Hw'|]. intros k. cbn [fst]. rewrite Hbal. lia.
  - destruct Hm as [lb Hl]. unfold load_balance_lock, load_balance_get. rewrite (pool_lookup_elt _ _ _ Hl). eexists. split; [reflexivity|].
    cbn [fst snd]. set (lb' := lb <| lb_locks := u32 (lb_locks lb + 1) |>). destruct (field_ok told w lbi lb lb' Hw Hl) as [Hw' Hb]; try reflexivity; [destruct (wo_lb _ _ Hw _ _ Hl); now split|]. split; [exact Hw'|]. intros k. rewrite (Hb k). lia.
  - destruct Hm as [lb Hl]. destruct (unlock_step told w lbi lb Hw Hl) as (w' & -> & Hw' & Hbal & _). eexists. split; [reflexivity|]. split; [exact Hw'|]. intros k. cbn [fst]. rewrite Hbal. lia.
  - eexists. split; [reflexivity|]. split; [exact Hw|]. intros k. cbn [fst]. lia.
  - destruct (path_edge_step told (set_path r path false) w path Hw) as (maps & -> & Hw'). eexists. split; [reflexivity|]. split; [exact Hw'|]. intros k. unfold balance, held_by. cbn. lia.
  - destruct (urpf_alloc_spec _ (wo_urpfs _ _ Hw) Hm) as [Hu Hc]. eexists. split; [reflexivity|]. split; [|intros k; unfold balance, held_by; cbn; lia]. apply world_urpfs; [exact Hw|exact Hu|]. intros i. pose proof (wo_urpf_locks _ _ Hw i). specialize (Hc i). lia.
  - assert (0 <= urpf_users w urpf) as H0 by (apply slots_sum_nonneg; intros; apply holds_range). destruct (urpf_unlock_spec _ urpf (wo_urpfs _ _ Hw) ltac:(right; lia)) as (u & -> & Hu & Hc). eexists. split; [reflexivity|].
    split; [|intros k; unfold balance, held_by; cbn; lia]. apply world_urpfs; [exact Hw|exact Hu|]. intros i. rewrite Hc. pose proof (wo_urpf_locks _ _ Hw i). unfold holds. destruct (Z.eqb_spec urpf i) as [<-|]; cbn; [|lia]. destruct (negb _); cbn; lia.
Qed.

Lemma lb_run_ok ops : forall told s, system_ok told s -> lb_may_run ops s ->
  exists s', lb_run next_node qsort ops s = Some s' /\ system_ok (told_by next_node qsort ops s told) s' /\ forall k, balance (fst s') k = balance (fst s) k - held k (concat (map given ops)).
Proof.
  induction ops as [|op ops IH]; intros told s Hs Hm; cbn [lb_run told_by]. { exists s. split; [reflexivity|]. split; [exact Hs|]. intros k. cbn. lia. }
  destruct Hm as [Hm Hrest]. destruct (lb_step told op s Hs Hm) as (s1 & E & Hs1 & B1). rewrite E. cbn [mbind option_bind]. destruct (IH _ s1 Hs1 (Hrest _ E)) as (s2 & E2 & Hs2 & B2).
  exists s2. split; [exact E2|]. split; [exact Hs2|]. intros k. rewrite B2, B1. cbn [map concat]. rewrite held_app. lia.
Qed.

Lemma init_system_ok told refs r : system_ok told (lb_system_init refs r).
Proof.
  destruct maps_init_ok as [HL Hf]. assert (forall f, pool_sum f (@pool_empty load_balance_t) = 0) as Hs by (intros f; reflexivity). split; cbn; try apply Hf; eauto.
  - apply pool_empty_ok.
  - intros i lb. now rewrite pool_empty_lookup.
  - intros i. unfold lock_count. replace (map_at load_balance_map_module_init i) with (@None load_balance_map_t); [reflexivity|]. symmetry. apply pool_empty_lookup.
  - split; [apply pool_empty_ok|easy|]. intros i u. now rewrite pool_empty_lookup.
  - intros i. unfold urpf_count. now rewrite pool_empty_lookup.
Qed.

(** C16: along every history of load-balances, maps and uRPF lists in which callers keep
    to [lb_may] (indices of objects in use; a power of two of buckets; normalisation
    keeps one of the paths of an update, see [normalize_may_drop_all]; room in the pools;
    no counter at its maximum; a list that is handed over or unlocked is locked by its
    caller), each operation
    succeeds; the references on an object are those at the start, without those that
    updates were given, and one per bucket that is stacked on it; a map has one lock
    per load-balance that uses it.  When no load-balance is left, no bucket holds a
    reference and no map is in use. *)
Theorem load_balances_conserve_references ops refs r : lb_may_run ops (lb_system_init refs r) ->
  exists w r', lb_run next_node qsort ops (lb_system_init refs r) = Some (w, r')
    /\ (forall i lb, lb_at w i = Some lb -> lb_ok lb)
    /\ (forall k, refs_of (w_refs w) k = refs_of refs k - held k (concat (map given ops)) + held_by w k)
    /\ (forall i, lock_count (w_maps w) i = users w i)
    /\ ((forall i, lb_at w i = None) -> (forall k, refs_of (w_refs w) k = refs_of refs k - held k (concat (map given ops))) /\ forall i, map_at (w_maps w) i = None).
Proof.
  intros Hm. destruct (lb_run_ok ops (fun _ _ => false) (lb_system_init refs r) (init_system_ok _ refs r) Hm) as ([w r'] & E & Hw & Hb). unfold system_ok in Hw. cbn [fst snd] in *. exists w, r'. split; [exact E|].
  assert (forall k, refs_of (w_refs w) k = refs_of refs k - held k (concat (map given ops)) + held_by w k) as Hr.
  { intros k. specialize (Hb k). unfold balance in Hb at 1. change (balance (fst (lb_system_init refs r)) k) with (refs_of refs k - 0) in Hb. lia. }
  split; [apply Hw|]. split; [exact Hr|]. split; [apply Hw|]. intros Hnone. split.
  - intros k. rewrite Hr. unfold held_by. rewrite (pool_sum_empty _ _ Hnone). lia.
  - intros i. destruct (wo_maps _ _ Hw) as [L HL]. destruct (map_at (w_maps w) i) as [m|] eqn:Em; [|reflexivity]. exfalso.
    assert (0 < lock_count (w_maps w) i) as Hp by (apply (locked_some L _ _ HL); eauto). rewrite (wo_locks _ _ Hw) in Hp. unfold users in Hp. rewrite (pool_sum_empty _ _ Hnone) in Hp. lia.
Qed.

(** C18: along every history as above, a map in use translates for the states that its
    paths had when it was filled last, at its creation or when one of its paths, a
    recursive one, lost its resolution and the maps of the path were told: it sends each
    bucket to one whose path was resolved then if there was any, and to itself if its own
    path was resolved or none was.  Other changes of paths are not told to maps
    ([map_keeps_old_states]). *)
Theorem maps_follow_path_states ops refs r told : lb_may_run ops (lb_system_init refs r) ->
  exists w r', lb_run next_node qsort ops (lb_system_init refs r) = Some (w, r')
    /\ forall i m b o, map_at (w_maps w) i = Some m -> owners (lbm_paths m) !! b = Some o ->
         let up := told_by next_node qsort ops (lb_system_init refs r) told i in
         exists b' o', load_balance_map_translate (w_maps w) i (Z.of_nat b) = Some (Z.of_nat b') /\ owners (lbm_paths m) !! b' = Some o'
           /\ (up o = true -> b' = b)
           /\ (up o' = true \/ (b' = b /\ forall o2, o2 ∈ owners (lbm_paths m) -> up o2 = false)).
Proof.
  intros Hm. destruct (lb_run_ok ops told (lb_system_init refs r) (init_system_ok told refs r) Hm) as ([w r'] & E & Hw & _). unfold system_ok in Hw. cbn [fst] in Hw. exists w, r'. split; [exact E|].
  intros i m b o Hi Ho up. destruct (spec_bucket_resolved up _ _ _ Ho) as (b' & o' & Hb & Ho' & H1 & H2). exists b', o'. split; [|auto].
  unfold load_balance_map_translate. rewrite (map_get _ _ _ Hi). cbn [mbind option_bind]. rewrite (wo_filled _ _ Hw _ _ Hi). unfold vec_elt. rewrite (proj2 (Z.ltb_ge _ _)), Nat2Z.id by lia. exact Hb.
Qed.

End Props.

(** ** An example history *)

Definition ex_history : list lb_op :=
  [UrpfAlloc; LbCreate 1 DPO_PROTO_IP4 0; LbLock 0; LbSetUrpf 0 0; UrpfUnlock 0;
   LbMultipathUpdate 0 [ex_path 3 1; ex_path 4 2; ex_path 5 1] LOAD_BALANCE_FLAG_USES_MAP;
   PathEdge 4; PathChange 4 true].

Abbreviation ex_start := (lb_system_init ∅ (fun _ => true)).

Lemma ex_history_may : lb_may_run ex_next sort_by_weight ex_history ex_start.
Proof.
  split; [reflexivity|]. intros s1 [= <-]. split; [right; now exists 0|]. intros s2 [= <-]. split; [eexists; reflexivity|]. intros s3 [= <-].
  split; [split; [eexists; reflexivity|split; reflexivity]|]. intros s4 E4. vm_compute in E4. injection E4 as <-.
  split; [reflexivity|]. intros s5 E5. vm_compute in E5. injection E5 as <-. split.
  { eexists. split; [reflexivity|]. eexists. split; [vm_compute; reflexivity|]. split; [easy|]. split; [reflexivity|]. split; [easy|].
    intros i. change (lock_count load_balance_map_module_init i + 1 < 2 ^ 32). unfold lock_count, map_at. cbn. now rewrite pool_empty_lookup. }
  intros s6 E6. split; [exact I|]. intros s7 E7. split; [exact I|]. now intros s8 _.
Qed.

Lemma load_balances_conserve_references_witness : exists w r', lb_run ex_next sort_by_weight ex_history ex_start = Some (w, r') /\ refs_of (w_refs w) (8, 4) = 1.
Proof.
  destruct (load_balances_conserve_references ex_next sort_by_weight sort_by_weight_perm ex_history ∅ (fun _ => true) ex_history_may) as (w & r' & E & _ & Hr & _). exists w, r'. split; [exact E|]. rewrite Hr.
  vm_compute in E. injection E as <- <-. reflexivity.
Defined.

Lemma maps_follow_path_states_witness : exists w r' m, lb_run ex_next sort_by_weight ex_history ex_start = Some (w, r') /\ map_at (w_maps w) 0 = Some m
  /\ lbm_buckets m = [0; 1; 0; 1] /\ told_by ex_next sort_by_weight ex_history ex_start (fun _ _ => true) 0 4 = false
  /\ exists b', load_balance_map_translate (w_maps w) 0 2 = Some (Z.of_nat b').
Proof.
  destruct (maps_follow_path_states ex_next sort_by_weight sort_by_weight_perm ex_history ∅ (fun _ => true) (fun _ _ => true) ex_history_may) as (w & r' & E & H). exists w, r'. pose proof E as E'. vm_compute in E'. injection E' as <- <-.
  eexists. split; [exact E|]. split; [reflexivity|]. split; [reflexivity|]. split; [vm_compute; reflexivity|]. destruct (H 0 _ 2%nat 4 eq_refl eq_refl) as (b' & _ & Hb & _). now exists b'.
Defined.

(** Path 4 is resolved again at the end, and the map still avoids its buckets; without
    [PathEdge] a lost path keeps them. *)
Lemma map_keeps_old_states :
  let translate s := load_balance_map_translate (w_maps (fst s)) 0 2 in
  (s ← lb_run ex_next sort_by_weight ex_history ex_start; Some (snd s 4, translate s)) = Some (true, Some 0)
  /\ (s ← lb_run ex_next sort_by_weight (take 6 ex_history ++ [PathChange 4 false]) ex_start; Some (snd s 4, translate s)) = Some (false, Some 2).
Proof. vm_compute. split; reflexivity. Qed.
