(* ===== verification/IpCsum.v ===== *)
(** * Internet checksums (src/vppinfra/vector/ip_csum.h)

    The checksum of the bytes of a packet, given in chunks of any length, and the
    variant that copies the bytes on the way.  The code is compiled for vectors of
    512, 256 or 128 bits, with or without masked loads, or for none; all variants
    are modelled.

    Source and destination are two memories, lists of bytes from the pointers on;
    the result [None] is an access outside of one of them.  Loops end because each
    turn takes bytes from the count; the bound on the turns is the count. *)

From stdpp Require Import base list numbers.
From S2P Require Import Prelude Bitmap.

Record clib_ip_csum_t := mk_csum { csum_sum : Z; csum_odd : Z }.

#[export] Instance csum_eta : Eta clib_ip_csum_t := fun c => mk_csum (csum_sum c) (csum_odd c).

Inductive vectors := VEC512 (masked : bool) | VEC256 (masked : bool) | VEC128 | NOVEC.

(** ** Memory *)

Definition read (m : list Z) (off n : nat) : option (list Z) :=
  if decide (off + n <= length m)%nat then Some (take n (drop off m)) else None.

Definition splice (d : list Z) (off : nat) (l : list Z) : list Z := take off d ++ l ++ drop (off + length l) d.

Definition write (d : list Z) (off : nat) (l : list Z) : option (list Z) :=
  if decide (off + length l <= length d)%nat then Some (splice d off l) else None.

(** The 32-bit words of a vector, little endian. *)
Fixpoint words32 (l : list Z) : list Z :=
  match l with
  | b0 :: b1 :: b2 :: b3 :: l => b0 + 2 ^ 8 * b1 + 2 ^ 16 * b2 + 2 ^ 24 * b3 :: words32 l
  | _ => []
  end.

(** ** Vectors of 64-bit sums *)

(** [clib_ip_csum_cvt_and_add_4], [_8] and [_16]: the words of each 128-bit part are
    widened and added in pairs. *)
Fixpoint cvt_and_add (v : list Z) : list Z :=
  match v with
  | w0 :: w1 :: w2 :: w3 :: v => u64 (w0 + w2) :: u64 (w1 + w3) :: cvt_and_add v
  | _ => []
  end.

Definition add_lanes (a b : list Z) : list Z := zip_with (fun x y => u64 (x + y)) a b.

Definition clib_ip_csum_hadd_2 (v : list Z) : Z := u64 (foldr Z.add 0 v).
Definition clib_ip_csum_hadd_4 (v : list Z) : Z := clib_ip_csum_hadd_2 (add_lanes (take 2 v) (drop 2 v)).
Definition clib_ip_csum_hadd_8 (v : list Z) : Z := clib_ip_csum_hadd_4 (add_lanes (take 4 v) (drop 4 v)).

(** ** The loops *)

(** The variables of the function. *)
Record csum_run := mk_run {
  r_sum : Z;
  r_odd : Z;
  r_lanes : list Z;
  r_src : nat;
  r_count : nat;
  r_dst : list Z;
  r_dpos : nat
}.

#[export] Instance run_eta : Eta csum_run :=
  fun r => mk_run (r_sum r) (r_odd r) (r_lanes r) (r_src r) (r_count r) (r_dst r) (r_dpos r).

Section Run.
Variable is_copy : bool.
Variable src : list Z.

(** The [n] bytes at [off] are stored at the destination, which then moves by
    [advance]. *)
Definition copy_from (off n advance : nat) (r : csum_run) : option csum_run :=
  if is_copy then
    s ← read src off n;
    d ← write (r_dst r) (r_dpos r) s;
    Some (r <| r_dst := d |> <| r_dpos := (r_dpos r + advance)%nat |>)
  else Some r.

Definition skip (n : nat) (r : csum_run) : csum_run := r <| r_count := (r_count r - n)%nat |> <| r_src := (r_src r + n)%nat |>.

Definition add_to_sum (x : Z) (r : csum_run) : csum_run := r <| r_sum := u64 (r_sum r + x) |>.

(** [sum += cvt_and_add (s[i])] for the vectors [i] of [width] bytes at the source. *)
Fixpoint add_vectors (width : nat) (idx : list nat) (r : csum_run) : option csum_run :=
  match idx with
  | [] => Some r
  | i :: idx =>
      v ← read src (r_src r + width * i)%nat width;
      add_vectors width idx (r <| r_lanes := add_lanes (r_lanes r) (cvt_and_add (words32 v)) |>)
  end.

(** Eight vectors, of which [idx] are added. *)
Definition eight_vectors (width : nat) (idx : list nat) (r : csum_run) : option csum_run :=
  r1 ← add_vectors width idx r;
  copy_from (r_src r) (8 * width) (8 * width) (skip (8 * width) r1).

(** One vector; the destination moves by [advance]. *)
Definition one_vector (width advance : nat) (r : csum_run) : option csum_run :=
  r1 ← add_vectors width [0%nat] r;
  copy_from (r_src r) width advance (skip width r1).

(** [while (count >= n)]. *)
Fixpoint while_count (fuel n : nat) (body : csum_run -> option csum_run) (r : csum_run) : option csum_run :=
  match fuel with
  | O => Some r
  | S fuel => if decide (n <= r_count r)%nat then r ← body r; while_count fuel n body r else Some r
  end.

Definition loop (n : nat) (body : csum_run -> option csum_run) (r : csum_run) : option csum_run := while_count (r_count r) n body r.

(** The mask has a bit per byte, the store takes a bit per 32-bit word. *)
Fixpoint mask_store (mask : Z) (v : list Z) (ks : list nat) (r : csum_run) : option csum_run :=
  match ks with
  | [] => Some r
  | k :: ks =>
      if Z.testbit mask (Z.of_nat k) then
        d ← write (r_dst r) (r_dpos r + 4 * k) (take 4 (drop (4 * k) v));
        mask_store mask v ks (r <| r_dst := d |>)
      else mask_store mask v ks r
  end.

(** The rest of less than a vector, with masked accesses.  The targets that have them
    (AVX-512) have BMI2. *)
Definition masked_rest (width : nat) (r : csum_run) : option csum_run :=
  if decide (r_count r = 0%nat) then Some r
  else
    bytes ← read src (r_src r) (r_count r);
    let v := bytes ++ replicate (width - r_count r) 0 in
    let mask := pow2_mask true (Z.of_nat (r_count r)) in
    let r := r <| r_lanes := add_lanes (r_lanes r) (cvt_and_add (words32 v)) |> <| r_odd := Z.of_nat (r_count r) mod 2 |> in
    if is_copy then mask_store mask v (seq 0 (width / 4)) r else Some r.

Definition four_bytes (r : csum_run) : option csum_run :=
  s ← read src (r_src r) 4;
  copy_from (r_src r) 4 4 (skip 4 (add_to_sum (foldr Z.add 0 (words32 s)) r)).

Definition two_bytes (r : csum_run) : option csum_run :=
  s ← read src (r_src r) 2;
  copy_from (r_src r) 2 2 (skip 2 (add_to_sum (nth 0 s 0 + 2 ^ 8 * nth 1 s 0) r)).

Definition last_byte (r : csum_run) : option csum_run :=
  if decide (r_count r = 0%nat) then Some r
  else
    s ← read src (r_src r) 1;
    copy_from (r_src r) 1 0 (add_to_sum (nth 0 s 0) (r <| r_odd := 1 |>)).

Definition tail_bytes (r : csum_run) : option csum_run := r ← loop 2 two_bytes r; last_byte r.

(** [count--] at 16 bits. *)
Definition count_pred (n : nat) : nat := match n with O => Z.to_nat 65535 | S n => n end.

(** The byte that completes the 16-bit word of an earlier chunk. *)
Definition odd_byte (r : csum_run) : option csum_run :=
  if negb (r_odd r =? 0) then
    s ← read src (r_src r) 1;
    let r := add_to_sum (Z.shiftl (nth 0 s 0) 8) (r <| r_odd := 0 |>) in
    let r := r <| r_count := count_pred (r_count r) |> <| r_src := S (r_src r) |> in
    copy_from (r_src r) 1 1 r
  else Some r.

Definition zero_lanes (n : nat) (r : csum_run) : csum_run := r <| r_lanes := replicate n 0 |>.

Definition vector_part (v : vectors) (r : csum_run) : option csum_run :=
  match v with
  | VEC512 masked =>
      r ← loop 512 (eight_vectors 64 [0; 1; 2; 3; 8; 5; 6; 7]%nat) (zero_lanes 8 r);
      r ← loop 64 (one_vector 64 512) r;
      if masked then r ← masked_rest 64 r; Some (add_to_sum (clib_ip_csum_hadd_8 (r_lanes r)) r)
      else tail_bytes (add_to_sum (clib_ip_csum_hadd_8 (r_lanes r)) r)
  | VEC256 masked =>
      r ← loop 256 (eight_vectors 32 [0; 1; 2; 3; 4; 5; 6; 7]%nat) (zero_lanes 4 r);
      r ← loop 32 (one_vector 32 32) r;
      if masked then r ← masked_rest 32 r; Some (add_to_sum (clib_ip_csum_hadd_4 (r_lanes r)) r)
      else tail_bytes (add_to_sum (clib_ip_csum_hadd_4 (r_lanes r)) r)
  | VEC128 =>
      r ← loop 128 (eight_vectors 16 [0; 1; 2; 3; 4; 5; 6; 7]%nat) (zero_lanes 2 r);
      r ← loop 16 (one_vector 16 16) r;
      tail_bytes (add_to_sum (clib_ip_csum_hadd_2 (r_lanes r)) r)
  | NOVEC =>
      r ← loop 4 four_bytes r;
      tail_bytes r
  end.

Definition clib_ip_csum_inline (v : vectors) (c : clib_ip_csum_t) (dst : list Z) (count : nat) : option (clib_ip_csum_t * list Z) :=
  r ← odd_byte (mk_run (csum_sum c) (csum_odd c) [] 0 count dst 0);
  r ← vector_part v r;
  Some (mk_csum (r_sum r) (r_odd r), r_dst r).

End Run.

(** ** Interface *)

(** The C code; the instructions for BMI2 do the same. *)
Definition clib_ip_csum_fold (c : clib_ip_csum_t) : Z :=
  let sum := csum_sum c in
  let sum := u32 sum + Z.shiftr sum 32 in
  let sum := u16 sum + Z.shiftr sum 16 in
  let sum := u16 sum + Z.shiftr sum 16 in
  65535 - u16 sum.

Definition clib_ip_csum_chunk (v : vectors) (c : clib_ip_csum_t) (src : list Z) (count : nat) : option clib_ip_csum_t :=
  fst <$> clib_ip_csum_inline false src v c [] count.

Definition clib_ip_csum_and_copy_chunk (v : vectors) (c : clib_ip_csum_t) (src dst : list Z) (count : nat) : option (clib_ip_csum_t * list Z) :=
  clib_ip_csum_inline true src v c dst count.

(** Lengths that the compiler knows are added up word by word. *)
Definition clib_ip_csum (v : vectors) (known : bool) (src : list Z) (count : nat) : option Z :=
  let c := mk_csum 0 0 in
  c ← (if known && bool_decide (count = 12 \/ count = 20 \/ count = 40)%nat then
         s ← read src 0 count; Some (mk_csum (u64 (foldr Z.add 0 (words32 s))) 0)
       else clib_ip_csum_chunk v c src count);
  Some (clib_ip_csum_fold c).

Definition clib_ip_csum_and_copy (v : vectors) (dst src : list Z) (count : nat) : option (Z * list Z) :=
  '(c, d) ← clib_ip_csum_inline true src v (mk_csum 0 0) dst count;
  Some (clib_ip_csum_fold c, d).
