(* ===== verification/IpCsumSum.v ===== *)
(** * Internet checksums: sums

    The sum of 16-bit words modulo 2^16 - 1 is the specification.  The sums of 32-bit
    words, of vectors and of chunks are related to it. *)

From stdpp Require Import base list numbers.
From S2P Require Import Prelude Packet IpCsum.

(** ** The reference *)

(** Bytes as the low and the high parts of 16-bit words, in turn. *)
Fixpoint bsum (high : bool) (l : list Z) : Z :=
  match l with [] => 0 | b :: l => (if high then 256 * b else b) + bsum (negb high) l end.

(** The one's complement sum: zero only if all words are. *)
Definition ones_sum (s : Z) : Z := if s =? 0 then 0 else (s - 1) mod 65535 + 1.

Definition internet_checksum (l : list Z) : Z := 65535 - ones_sum (bsum false l).

(** ** Sums that fold alike *)

Definition sim (x y : Z) : Prop := 0 <= x /\ 0 <= y /\ (x = 0 <-> y = 0) /\ exists k, x = y + 65535 * k.

Lemma sim_refl x : 0 <= x -> sim x x.
Proof. intros H. split_and!; try easy. exists 0. lia. Qed.

Lemma alike_add x1 y1 x2 y2 : sim x1 y1 -> sim x2 y2 -> sim (x1 + x2) (y1 + y2).
Proof. intros (? & ? & ? & k1 & ?) (? & ? & ? & k2 & ?). split_and!; [lia..|]. exists (k1 + k2). lia. Qed.

Lemma sim_trans x y z : sim x y -> sim y z -> sim x z.
Proof. intros (? & ? & ? & k1 & ?) (? & ? & ? & k2 & ?). split_and!; [lia..|]. exists (k1 + k2). lia. Qed.

Lemma ones_sum_sim x y : sim x y -> ones_sum x = ones_sum y.
Proof.
  intros (Hx & Hy & H0 & k & E). unfold ones_sum. destruct (Z.eqb_spec x 0), (Z.eqb_spec y 0); try lia.
  replace (x - 1) with (y - 1 + k * 65535) by lia. now rewrite Z.mod_add by lia.
Qed.

(** ** Folding *)

Lemma fold_ones_sum c : 0 <= csum_sum c < 2 ^ 48 -> clib_ip_csum_fold c = 65535 - ones_sum (csum_sum c).
Proof.
  intros Hs. unfold clib_ip_csum_fold, u16, u32. cbv zeta. f_equal. set (s := csum_sum c) in *. clearbody s. rewrite !Z.shiftr_div_pow2 by lia.
  change (2 ^ 32) with 4294967296. change (2 ^ 16) with 65536. change (2 ^ 48) with 281474976710656 in Hs.
  assert (exists a b, s = a + 4294967296 * b /\ 0 <= a < 4294967296 /\ 0 <= b < 65536 /\ s mod 4294967296 = a /\ s / 4294967296 = b) as (a & b & -> & Ha & Hb & -> & ->).
  { exists (s mod 4294967296), (s / 4294967296). Z.div_mod_to_equations. lia. }
  assert (exists e d, a + b = e + 65536 * d /\ 0 <= e < 65536 /\ 0 <= d <= 65536 /\ (a + b) mod 65536 = e /\ (a + b) / 65536 = d) as (e & d & Eab & He & Hd & -> & ->).
  { exists ((a + b) mod 65536), ((a + b) / 65536). Z.div_mod_to_equations. lia. }
  assert (exists g f, e + d = g + 65536 * f /\ 0 <= g < 65536 /\ 0 <= f <= 1 /\ (e + d) mod 65536 = g /\ (e + d) / 65536 = f) as (g & f & Eed & Hg & Hf & -> & ->).
  { exists ((e + d) mod 65536), ((e + d) / 65536). Z.div_mod_to_equations. lia. }
  rewrite Z.mod_small by lia. rewrite (ones_sum_sim _ (g + f)).
  - unfold ones_sum. destruct (Z.eqb_spec (g + f) 0); [lia|]. rewrite Z.mod_small by lia. lia.
  - split_and!; [lia..|]. exists (65537 * b + d + f). lia.
Qed.

(** ** Lists of bytes *)

Lemma bsum_app h l1 l2 : bsum h (l1 ++ l2) = bsum h l1 + bsum (if Nat.even (length l1) then h else negb h) l2.
Proof.
  revert h. induction l1 as [|b l1 IH]; intros h; cbn [app bsum length]; [reflexivity|]. rewrite IH, Nat.even_succ, <- Nat.negb_even.
  destruct (Nat.even (length l1)), h; cbn; lia.
Qed.

Lemma bsum_range h l : bytes_ok l -> 0 <= bsum h l <= 2 ^ 16 * Z.of_nat (length l).
Proof. intros H. revert h. induction H as [|b l Hb _ IH]; intros h; cbn [bsum length]; [lia|]. specialize (IH (negb h)). unfold is_u in Hb. destruct h; lia. Qed.

Lemma bsum_zeros h n : bsum h (replicate n 0) = 0.
Proof. revert h. induction n as [|n IH]; intros h; cbn [replicate bsum]; [reflexivity|]. rewrite IH. now destruct h. Qed.

Abbreviation sumz := (foldr Z.add 0).

Lemma sumz_zeros n : sumz (replicate n 0) = 0.
Proof. induction n as [|n IH]; cbn; lia. Qed.

Lemma sumz_app l1 l2 : sumz (l1 ++ l2) = sumz l1 + sumz l2.
Proof. induction l1 as [|x l IH]; cbn [app foldr]; lia. Qed.

(** Induction on blocks of four. *)
Lemma four_ind (P : list Z -> Prop) : P [] -> (forall a b c d l, P l -> P (a :: b :: c :: d :: l)) -> forall q l, length l = (4 * q)%nat -> P l.
Proof.
  intros H0 H4. induction q as [|q IH]; intros l Hl; [now destruct l|]. destruct l as [|a [|b [|c [|d l]]]]; cbn in Hl; try lia. apply H4, IH. lia.
Qed.

Lemma sumz_bytes l : bytes_ok l -> 0 <= sumz l <= 255 * Z.of_nat (length l).
Proof. induction 1 as [|b l Hb _ IH]; cbn [foldr length]; [lia|]. unfold is_u in Hb. lia. Qed.

Lemma words32_sim q l : length l = (4 * q)%nat -> bytes_ok l -> sim (sumz (words32 l)) (bsum false l) /\ sumz (words32 l) <= 2 ^ 24 * sumz l.
Proof.
  intros Hl. refine (four_ind (fun l => bytes_ok l -> sim (sumz (words32 l)) (bsum false l) /\ sumz (words32 l) <= 2 ^ 24 * sumz l) _ _ q l Hl).
  - intros _. split; [apply sim_refl; reflexivity|]. cbn. lia.
  - intros a b c d l' IH Hb. repeat (apply Forall_cons in Hb as [? Hb]). destruct (IH Hb) as [Hs Hle]. unfold is_u in *. cbn [words32 foldr bsum negb]. split; [|lia].
    replace (a + (256 * b + (c + (256 * d + bsum false l')))) with (a + 256 * b + c + 256 * d + bsum false l') by lia. apply alike_add; [|exact Hs].
    split_and!; [lia..|]. exists (c + 256 * d). lia.
Qed.

Lemma length_words32 q l : length l = (4 * q)%nat -> length (words32 l) = q.
Proof. revert l. induction q as [|q IH]; intros l Hl; [now destruct l|]. destruct l as [|a [|b [|c [|d l]]]]; cbn in Hl; try lia. cbn. rewrite IH; lia. Qed.

Lemma words32_app q l1 l2 : length l1 = (4 * q)%nat -> words32 (l1 ++ l2) = words32 l1 ++ words32 l2.
Proof. revert l1. induction q as [|q IH]; intros l Hl; [now destruct l|]. destruct l as [|a [|b [|c [|d l]]]]; cbn in Hl; try lia. cbn. rewrite IH by lia. reflexivity. Qed.

(** ** Vectors modulo 2^64 *)

Definition eqm (x y : Z) : Prop := u64 x = u64 y.

Lemma eqm_add x1 y1 x2 y2 : eqm x1 y1 -> eqm x2 y2 -> eqm (x1 + x2) (y1 + y2).
Proof. unfold eqm, u64. intros H1 H2. now rewrite Zplus_mod, H1, H2, <- Zplus_mod. Qed.

Lemma eqm_u64 x : eqm (u64 x) x.
Proof. unfold eqm, u64. now rewrite Zmod_mod. Qed.

#[export] Instance eqm_equiv : Equivalence eqm.
Proof. unfold eqm. split; red; intros; congruence. Qed.

#[export] Instance eqm_add_proper : Proper (eqm ==> eqm ==> eqm) Z.add.
Proof. intros x1 y1 H1 x2 y2 H2. now apply eqm_add. Qed.

Lemma cvt_and_add_sum q ws : length ws = (4 * q)%nat -> eqm (sumz (cvt_and_add ws)) (sumz ws) /\ length (cvt_and_add ws) = (2 * q)%nat.
Proof.
  revert ws. induction q as [|q IH]; intros ws Hl; [now destruct ws|]. destruct ws as [|a [|b [|c [|d ws]]]]; cbn in Hl; try lia. cbn [cvt_and_add foldr length].
  destruct (IH ws ltac:(lia)) as [H1 H2]. split; [|lia]. rewrite !eqm_u64, H1. unfold eqm. f_equal. lia.
Qed.

Lemma add_lanes_sum a b : length a = length b -> eqm (sumz (add_lanes a b)) (sumz a + sumz b) /\ length (add_lanes a b) = length a.
Proof.
  revert b. induction a as [|x a IH]; intros [|y b] Hl; try discriminate; [split; reflexivity|]. injection Hl as Hl. destruct (IH b Hl) as [H1 H2]. cbn. split; [|now rewrite <- H2].
  unfold add_lanes in H1. rewrite eqm_u64, H1. unfold eqm. f_equal. lia.
Qed.

Lemma hadd_sum v : (length v = 2%nat -> eqm (clib_ip_csum_hadd_2 v) (sumz v)) /\ (length v = 4%nat -> eqm (clib_ip_csum_hadd_4 v) (sumz v)) /\ (length v = 8%nat -> eqm (clib_ip_csum_hadd_8 v) (sumz v)).
Proof.
  assert (forall v, eqm (clib_ip_csum_hadd_2 v) (sumz v)) as H2 by (intros; apply eqm_u64).
  assert (forall n v, length v = (2 * n)%nat -> eqm (sumz (add_lanes (take n v) (drop n v))) (sumz v) /\ length (add_lanes (take n v) (drop n v)) = n) as Hh.
  { intros n x Hx. assert (length (take n x) = n /\ length (drop n x) = n) as [L1 L2] by (rewrite length_take, length_drop; lia).
    destruct (add_lanes_sum (take n x) (drop n x) ltac:(congruence)) as [H ->]. split; [|exact L1]. rewrite H, <- sumz_app, take_drop. reflexivity. }
  assert (forall v, length v = 4%nat -> eqm (clib_ip_csum_hadd_4 v) (sumz v)) as H4 by (intros x Hx; unfold clib_ip_csum_hadd_4; rewrite H2; now apply Hh).
  split_and!; auto. intros Hx. unfold clib_ip_csum_hadd_8. destruct (Hh 4%nat v Hx) as [E L]. now rewrite H4.
Qed.

(** ** Memory *)

Lemma read_some m off n : (off + n <= length m)%nat -> read m off n = Some (take n (drop off m)) /\ length (take n (drop off m)) = n.
Proof. intros H. unfold read. rewrite decide_True by exact H. rewrite length_take, length_drop. split; [reflexivity|lia]. Qed.

Lemma length_splice d off l : (off + length l <= length d)%nat -> length (splice d off l) = length d.
Proof. intros H. unfold splice. rewrite !length_app, length_take, length_drop. lia. Qed.

Lemma splice_splice d off l1 l2 : (off + length l1 + length l2 <= length d)%nat -> splice (splice d off l1) (off + length l1) l2 = splice d off (l1 ++ l2).
Proof.
  intros H. assert (length (take off d) = off) as L by (rewrite length_take; lia). unfold splice at 1. unfold splice at 1 2.
  assert (take (off + length l1) (take off d ++ l1 ++ drop (off + length l1) d) = take off d ++ l1) as ->.
  { rewrite app_assoc. apply take_app_length'. rewrite length_app, L. reflexivity. }
  assert (drop (off + length l1 + length l2) (take off d ++ l1 ++ drop (off + length l1) d) = drop (off + length (l1 ++ l2)) d) as ->.
  { rewrite app_assoc, drop_app_ge by (rewrite length_app, L; lia). rewrite length_app, L, drop_drop, length_app. f_equal. lia. }
  unfold splice. now rewrite <- !app_assoc.
Qed.
