(* ===== verification/IpCsumProps.v ===== *)
(** * Internet checksums: all variants compute the same

    A run over a chunk leaves the sum of its bytes, whether they are added as 16-bit
    words, 32-bit words or vectors, and the copy of it, in all variants but for the
    cases that are shown to fail. *)

From stdpp Require Import base list numbers.
From S2P Require Import Prelude Packet IpCsum IpCsumSum.

(** ** One chunk *)

Section Chunk.
Variables (is_copy : bool) (src : list Z).
(** The run starts after the odd byte, with the sum [S0]. *)
Variables (S0 : Z) (src0 n : nat) (dst0 : list Z) (dpos0 : nat).
Hypothesis Hbytes : bytes_ok src.
Hypothesis Hsrc : (src0 + n <= length src)%nat.
Hypothesis Hdst : is_copy = true -> (dpos0 + n <= length dst0)%nat.

(** The first [k] bytes. *)
Definition done (k : nat) : list Z := take k (drop src0 src).

(** The sum so far, with that of the vector if one is in use. *)
Definition total (vec : bool) (r : csum_run) : Z := r_sum r + (if vec then sumz (r_lanes r) else 0).

Definition adds_up (x : Z) (l : list Z) : Prop := sim x (bsum false l) /\ x <= 2 ^ 32 * Z.of_nat (length l).

Record at_byte (vec : bool) (lanes k : nat) (r : csum_run) : Prop := {
  ab_le : (k <= n)%nat;
  ab_even : Nat.even k = true;
  ab_src : r_src r = (src0 + k)%nat;
  ab_count : r_count r = (n - k)%nat;
  ab_odd : r_odd r = 0;
  ab_range : is_u 64 (r_sum r);
  ab_lanes : length (r_lanes r) = lanes;
  ab_dpos : is_copy = true -> r_dpos r = (dpos0 + k)%nat;
  ab_dst : r_dst r = if is_copy then splice dst0 dpos0 (done k) else dst0;
  ab_sum : exists x, eqm (total vec r) (S0 + x) /\ adds_up x (done k)
}.

Lemma length_done k : (k <= n)%nat -> length (done k) = k.
Proof. intros H. unfold done. rewrite length_take, length_drop. lia. Qed.

Lemma done_add k m : done (k + m) = done k ++ take m (drop (src0 + k) src).
Proof. unfold done. rewrite <- drop_drop. symmetry. apply take_take_drop. Qed.

Lemma bytes_at off m : bytes_ok (take m (drop off src)).
Proof. now apply Forall_take, Forall_drop. Qed.

Lemma adds_up_app k m x y : (k <= n)%nat -> Nat.even k = true -> adds_up x (done k) -> adds_up y (take m (drop (src0 + k) src)) -> adds_up (x + y) (done (k + m)).
Proof.
  intros Hk He [H1 H2] [H3 H4]. rewrite done_add. split; [|rewrite length_app; lia]. rewrite bsum_app, (length_done k Hk), He. now apply alike_add.
Qed.

(** A turn that takes [m] bytes with the sum [y]. *)
Lemma advance vec lanes k m r r1 y :
  at_byte vec lanes k r -> (k + m <= n)%nat -> Nat.even m = true -> adds_up y (take m (drop (src0 + k) src)) ->
  eqm (total vec r1) (total vec r + y) -> is_u 64 (r_sum r1) -> r_src r1 = r_src r -> r_count r1 = r_count r -> r_odd r1 = 0 -> length (r_lanes r1) = lanes -> r_dst r1 = r_dst r -> r_dpos r1 = r_dpos r ->
  exists r2, copy_from is_copy src (r_src r) m m (skip m r1) = Some r2 /\ at_byte vec lanes (k + m) r2 /\ r_count r2 = (r_count r - m)%nat.
Proof.
  intros [A1 A2 A3 A4 A5 AR A6 A7 A8 (x & A9 & A10)] Hm Hev Hy Hs BR B1 B2 B3 B4 B5 B6. unfold copy_from.
  assert (Nat.even (k + m) = true) as Hkm by (rewrite Nat.even_add, A2, Hev; reflexivity).
  assert (exists x, eqm (total vec r1) (S0 + x) /\ adds_up x (done (k + m))) as Hsum.
  { exists (x + y). split; [rewrite Hs, A9; unfold eqm; f_equal; lia|]. now apply adds_up_app. }
  pose proof (length_done k A1) as Lk. pose proof Hdst as Hd. destruct is_copy eqn:Hc.
  - destruct (read_some src (r_src r) m ltac:(lia)) as [-> Hl]. cbn [mbind option_bind]. rewrite A3 in *. specialize (A7 eq_refl). specialize (Hd eq_refl).
    assert (r_dst (skip m r1) = splice dst0 dpos0 (done k) /\ r_dpos (skip m r1) = (dpos0 + k)%nat) as [E1 E2] by (cbn; split; congruence).
    rewrite E1, E2. unfold write. rewrite decide_True by (rewrite Hl, length_splice; lia). cbn [mbind option_bind]. eexists. split; [reflexivity|]. cbn. split; [|congruence]. split; cbn; try assumption; try lia.
    rewrite Hc, done_add, <- splice_splice by lia. now rewrite Lk.
  - eexists. split; [reflexivity|]. cbn. split; [|congruence]. split; cbn; try assumption; try lia; try (intros; congruence). rewrite Hc. congruence.
Qed.

(** [while (count >= m)] with such turns. *)
Lemma loop_advance vec lanes m body : (0 < m)%nat -> Nat.even m = true ->
  (forall k r, at_byte vec lanes k r -> (m <= r_count r)%nat -> exists r2, body r = Some r2 /\ at_byte vec lanes (k + m) r2) ->
  forall k r, at_byte vec lanes k r -> exists k2 r2, loop m body r = Some r2 /\ at_byte vec lanes k2 r2 /\ (r_count r2 < m)%nat.
Proof.
  intros Hm He Hbody k r Hr. unfold loop. assert (forall fuel k r, (r_count r <= fuel)%nat -> at_byte vec lanes k r -> exists k2 r2, while_count fuel m body r = Some r2 /\ at_byte vec lanes k2 r2 /\ (r_count r2 < m)%nat) as H; [|eauto].
  clear k r Hr. induction fuel as [|fuel IH]; intros k r Hf Hr; cbn [while_count]; [exists k, r; split_and!; auto; lia|].
  destruct (decide (m <= r_count r)%nat) as [Hle|Hgt]; [|exists k, r; split_and!; auto; lia]. destruct (Hbody k r Hr Hle) as (r2 & -> & Hr2). cbn [mbind option_bind].
  apply (IH (k + m)%nat); [|exact Hr2]. rewrite (ab_count _ _ _ _ Hr2). rewrite (ab_count _ _ _ _ Hr) in Hf. lia.
Qed.

(** A loop that is not entered. *)
Lemma loop_skip m body r : (r_count r < m)%nat -> loop m body r = Some r.
Proof. intros H. unfold loop. destruct (r_count r) eqn:E; cbn [while_count]; [reflexivity|]. now rewrite decide_False by lia. Qed.

(** ** The turns *)

(** A block of [m] bytes as 32-bit words. *)
Lemma block_adds_up k m q : (k + m <= n)%nat -> m = (4 * q)%nat -> adds_up (sumz (words32 (take m (drop (src0 + k) src)))) (take m (drop (src0 + k) src)).
Proof.
  intros Hk ->. assert (length (take (4 * q) (drop (src0 + k) src)) = (4 * q)%nat) as L by (rewrite length_take, length_drop; lia).
  destruct (words32_sim q _ L (bytes_at _ _)) as [Hs Hle]. split; [exact Hs|]. pose proof (sumz_bytes _ (bytes_at (src0 + k) (4 * q))). lia.
Qed.

Lemma add_vectors_sum width q i m r : width = (16 * q)%nat -> length (r_lanes r) = (2 * q)%nat -> (r_src r + width * (i + m) <= length src)%nat ->
  exists r1, add_vectors src width (seq i m) r = Some r1 /\ length (r_lanes r1) = (2 * q)%nat /\
    eqm (sumz (r_lanes r1)) (sumz (r_lanes r) + sumz (words32 (take (width * m) (drop (r_src r + width * i) src)))) /\
    r_sum r1 = r_sum r /\ r_src r1 = r_src r /\ r_count r1 = r_count r /\ r_odd r1 = r_odd r /\ r_dst r1 = r_dst r /\ r_dpos r1 = r_dpos r.
Proof.
  intros Hw. revert i r. induction m as [|m IH]; intros i r Hl Hin; cbn [seq add_vectors].
  { exists r. rewrite Nat.mul_0_r, take_0. cbn [words32 foldr]. split_and!; auto. unfold eqm. f_equal. lia. }
  destruct (read_some src (r_src r + width * i) width ltac:(nia)) as [-> Lv]. cbn [mbind option_bind]. set (v := take width (drop (r_src r + width * i) src)) in *.
  assert (length (words32 v) = (4 * q)%nat) as Lw by (apply length_words32; lia). destruct (cvt_and_add_sum q _ Lw) as [Ec Lc]. destruct (add_lanes_sum (r_lanes r) (cvt_and_add (words32 v)) ltac:(lia)) as [Ea La].
  set (r' := r <| r_lanes := add_lanes (r_lanes r) (cvt_and_add (words32 v)) |>).
  destruct (IH (S i) r') as (r1 & E & L1 & E1 & Hrest); [cbn; lia|cbn; nia|]. exists r1. split; [exact E|]. split; [exact L1|]. split; [|exact Hrest]. rewrite E1. cbn [r' r_lanes r_src set_field run_eta].
  change (r_lanes r') with (add_lanes (r_lanes r) (cvt_and_add (words32 v))). change (r_src r') with (r_src r). rewrite Ea, Ec.
  replace (take (width * S m) (drop (r_src r + width * i) src)) with (v ++ take (width * m) (drop (r_src r + width * S i) src)).
  - rewrite (words32_app (4 * q)) by lia. rewrite sumz_app. unfold eqm. f_equal. lia.
  - unfold v. replace (drop (r_src r + width * S i) src) with (drop width (drop (r_src r + width * i) src)) by (rewrite drop_drop; f_equal; lia).
    rewrite take_take_drop. f_equal. lia.
Qed.

Lemma even_block q m : Nat.even (16 * q * m) = true.
Proof. rewrite !Nat.even_mul. reflexivity. Qed.

Lemma vectors_turn q m k r : at_byte true (2 * q) k r -> (16 * q * m <= r_count r)%nat ->
  exists r2, (r1 ← add_vectors src (16 * q) (seq 0 m) r; copy_from is_copy src (r_src r) (16 * q * m) (16 * q * m) (skip (16 * q * m) r1)) = Some r2 /\ at_byte true (2 * q) (k + 16 * q * m) r2.
Proof.
  intros Hr Hc. pose proof (ab_count _ _ _ _ Hr) as Hn. pose proof (ab_src _ _ _ _ Hr) as Hs. pose proof (ab_le _ _ _ _ Hr) as Hle.
  destruct (add_vectors_sum (16 * q) q 0 m r eq_refl (ab_lanes _ _ _ _ Hr) ltac:(nia)) as (r1 & -> & L1 & E1 & B0 & B1 & B2 & B3 & B4 & B5). cbn [mbind option_bind].
  rewrite Nat.mul_0_r, Nat.add_0_r, Hs in E1.
  destruct (advance true (2 * q) k (16 * q * m) r r1 (sumz (words32 (take (16 * q * m) (drop (src0 + k) src)))) Hr) as (r2 & E2 & H2 & _); try assumption.
  - lia.
  - apply even_block.
  - apply (block_adds_up k _ (4 * q * m)); lia.
  - unfold total. rewrite B0, E1. unfold eqm. f_equal. lia.
  - rewrite B0. apply (ab_range _ _ _ _ Hr).
  - rewrite B3. apply (ab_odd _ _ _ _ Hr).
  - eauto.
Qed.

Lemma eight_turn q k r : at_byte true (2 * q) k r -> (8 * (16 * q) <= r_count r)%nat ->
  exists r2, eight_vectors is_copy src (16 * q) [0; 1; 2; 3; 4; 5; 6; 7]%nat r = Some r2 /\ at_byte true (2 * q) (k + 8 * (16 * q)) r2.
Proof. intros Hr Hc. replace (8 * (16 * q))%nat with (16 * q * 8)%nat in * by lia. unfold eight_vectors. replace (8 * (16 * q))%nat with (16 * q * 8)%nat by lia. exact (vectors_turn q 8 k r Hr Hc). Qed.

Lemma one_turn q adv k r : at_byte true (2 * q) k r -> (16 * q <= r_count r)%nat -> is_copy = false \/ adv = (16 * q)%nat ->
  exists r2, one_vector is_copy src (16 * q) adv r = Some r2 /\ at_byte true (2 * q) (k + 16 * q) r2.
Proof.
  intros Hr Hc Ha. pose proof (vectors_turn q 1 k r Hr ltac:(lia)) as H. rewrite Nat.mul_1_r in H. unfold one_vector. destruct Ha as [Ha| ->]; [|exact H].
  destruct H as (r2 & E & H2). exists r2. split; [|exact H2]. rewrite <- E. unfold copy_from. now rewrite Ha.
Qed.

Lemma four_turn lanes k r : at_byte false lanes k r -> (4 <= r_count r)%nat -> exists r2, four_bytes is_copy src r = Some r2 /\ at_byte false lanes (k + 4) r2.
Proof.
  intros Hr Hc. pose proof (ab_count _ _ _ _ Hr) as Hn. pose proof (ab_src _ _ _ _ Hr) as Hs. unfold four_bytes. destruct (read_some src (r_src r) 4 ltac:(lia)) as [-> Ls]. cbn [mbind option_bind].
  set (y := sumz (words32 (take 4 (drop (r_src r) src)))). destruct (advance false lanes k 4 r (add_to_sum y r) y Hr) as (r2 & E2 & H2 & _); try reflexivity; try apply Hr.
  - lia.
  - subst y. rewrite Hs. apply (block_adds_up k 4 1); lia.
  - unfold total. cbn. rewrite !Z.add_0_r. apply eqm_u64.
  - apply u64_range.
  - eauto.
Qed.

Lemma two_turn lanes k r : at_byte false lanes k r -> (2 <= r_count r)%nat -> exists r2, two_bytes is_copy src r = Some r2 /\ at_byte false lanes (k + 2) r2.
Proof.
  intros Hr Hc. pose proof (ab_count _ _ _ _ Hr) as Hn. pose proof (ab_src _ _ _ _ Hr) as Hs. unfold two_bytes. destruct (read_some src (r_src r) 2 ltac:(lia)) as [-> Ls]. cbn [mbind option_bind].
  set (s := take 2 (drop (r_src r) src)) in *. destruct (advance false lanes k 2 r (add_to_sum (nth 0 s 0 + 2 ^ 8 * nth 1 s 0) r) (nth 0 s 0 + 2 ^ 8 * nth 1 s 0) Hr) as (r2 & E2 & H2 & _); try reflexivity; try apply Hr.
  - lia.
  - pose proof (bytes_at (r_src r) 2) as Hb. fold s in Hb. rewrite <- Hs. fold s. destruct s as [|b0 [|b1 [|? ?]]]; try discriminate. apply Forall_cons in Hb as [H0 [H1 _]%Forall_cons]. unfold is_u in *. cbn [nth]. split; [|cbn; lia].
    cbn [bsum negb]. replace (b0 + 2 ^ 8 * b1) with (b0 + (256 * b1 + 0)) by lia. apply sim_refl. lia.
  - unfold total. cbn. rewrite !Z.add_0_r. apply eqm_u64.
  - apply u64_range.
  - eauto.
Qed.

(** ** The end of a chunk *)

Record finished (r : csum_run) : Prop := {
  fin_range : is_u 64 (r_sum r);
  fin_odd : r_odd r = Z.of_nat n mod 2;
  fin_dst : r_dst r = if is_copy then splice dst0 dpos0 (done n) else dst0;
  fin_sum : exists x, eqm (r_sum r) (S0 + x) /\ adds_up x (done n)
}.

Lemma parity k : (k <= n)%nat -> Nat.even k = true -> Z.of_nat n mod 2 = Z.of_nat (n - k) mod 2.
Proof. intros Hk [j ->]%Nat.even_spec. rewrite Nat2Z.inj_sub by exact Hk. rewrite Nat2Z.inj_mul. Z.div_mod_to_equations. lia. Qed.

Lemma last_finished lanes k r : at_byte false lanes k r -> (r_count r < 2)%nat -> exists r2, last_byte is_copy src r = Some r2 /\ finished r2.
Proof.
  intros Hr Hc. pose proof (parity k (ab_le _ _ _ _ Hr) (ab_even _ _ _ _ Hr)) as Hp. pose proof Hr as [A1 A2 A3 A4 A5 AR A6 A7 A8 (x & A9 & A10)]. rewrite <- A4 in Hp. unfold last_byte. unfold total in A9. rewrite Z.add_0_r in A9.
  destruct (decide (r_count r = 0%nat)) as [H0|H0].
  - exists r. split; [reflexivity|]. assert (k = n) as -> by lia. split; [exact AR| |exact A8|eauto]. rewrite A5, Hp, H0. reflexivity.
  - assert (n = k + 1)%nat as Hn by lia. destruct (read_some src (r_src r) 1 ltac:(lia)) as [E Ls]. rewrite E. cbn [mbind option_bind]. set (s := take 1 (drop (r_src r) src)) in *.
    assert (done n = done k ++ s) as Ed by (rewrite Hn, done_add; unfold s; now rewrite A3).
    assert (exists x, eqm (u64 (r_sum r + nth 0 s 0)) (S0 + x) /\ adds_up x (done n)) as Hsum.
    { exists (x + nth 0 s 0). split; [rewrite eqm_u64, A9; unfold eqm; f_equal; lia|]. rewrite Hn. apply adds_up_app; auto. rewrite <- A3. fold s. pose proof (bytes_at (r_src r) 1) as Hb. fold s in Hb.
      destruct s as [|b0 [|? ?]]; try discriminate. apply Forall_cons in Hb as [H _]. unfold is_u in H. cbn [nth]. split; [|cbn; lia]. cbn [bsum]. rewrite Z.add_0_r. apply sim_refl. lia. }
    assert (1 = Z.of_nat n mod 2) as Hodd by (rewrite Hp; replace (r_count r) with 1%nat by lia; reflexivity).
    pose proof (length_done k A1) as Lk. pose proof Hdst as Hd. unfold copy_from. destruct is_copy eqn:Hcp.
    + rewrite E. cbn [mbind option_bind]. unfold write. cbn [r_dst r_dpos add_to_sum set_field]. specialize (A7 eq_refl). specialize (Hd eq_refl).
      set (r1 := add_to_sum _ _). change (r_dst r1) with (r_dst r). change (r_dpos r1) with (r_dpos r). rewrite A8, A7, decide_True by (rewrite Ls, length_splice; lia).
      cbn [mbind option_bind]. eexists. split; [reflexivity|]. split; cbn; try assumption; try apply u64_range. rewrite Hcp, Ed, <- splice_splice by lia. now rewrite Lk.
    + eexists. split; [reflexivity|]. split; cbn; try assumption; try apply u64_range. rewrite Hcp. exact A8.
Qed.

Lemma tail_finished lanes k r : at_byte false lanes k r -> exists r2, tail_bytes is_copy src r = Some r2 /\ finished r2.
Proof.
  intros Hr. unfold tail_bytes. destruct (loop_advance false lanes 2 (two_bytes is_copy src) ltac:(lia) eq_refl (fun k r H1 H2 => two_turn lanes k r H1 H2) k r Hr) as (k2 & r2 & -> & H2 & Hc).
  cbn [mbind option_bind]. eapply last_finished; eauto.
Qed.

Lemma vector_to_sum lanes k r h : at_byte true lanes k r -> eqm h (sumz (r_lanes r)) -> at_byte false lanes k (add_to_sum h r).
Proof.
  intros [A1 A2 A3 A4 A5 AR A6 A7 A8 (x & A9 & A10)] Hh. split; try assumption; try apply u64_range. exists x. split; [|exact A10]. rewrite <- A9. unfold total. cbn. rewrite Z.add_0_r, eqm_u64. now rewrite Hh.
Qed.

Lemma masked_finished q k r hadd : (forall v, length v = (2 * q)%nat -> eqm (hadd v) (sumz v)) -> is_copy = false -> at_byte true (2 * q) k r -> (r_count r < 16 * q)%nat ->
  exists r2, masked_rest is_copy src (16 * q) r = Some r2 /\ finished (add_to_sum (hadd (r_lanes r2)) r2).
Proof.
  intros Hh Hcp Hr Hc. pose proof (parity k (ab_le _ _ _ _ Hr) (ab_even _ _ _ _ Hr)) as Hp. pose proof Hr as [A1 A2 A3 A4 A5 AR A6 A7 A8 (x & A9 & A10)]. rewrite <- A4 in Hp. unfold masked_rest.
  destruct (decide (r_count r = 0%nat)) as [H0|H0].
  - exists r. split; [reflexivity|]. assert (k = n) as -> by lia. split; cbn; [apply u64_range|rewrite A5, Hp, H0; reflexivity|exact A8|]. exists x. split; [|exact A10]. rewrite eqm_u64, <- A9. unfold total. now rewrite Hh.
  - destruct (read_some src (r_src r) (r_count r) ltac:(lia)) as [-> Ls]. cbn [mbind option_bind]. set (s := take (r_count r) (drop (r_src r) src)) in *. rewrite Hcp. eexists. split; [reflexivity|].
    set (v := s ++ replicate (16 * q - r_count r) 0). assert (length v = (4 * (4 * q))%nat) as Lv by (unfold v; rewrite length_app, length_replicate; lia).
    pose proof (bytes_at (r_src r) (r_count r) : bytes_ok s) as Hb. assert (bytes_ok v) as Hv by (apply Forall_app; split; [exact Hb|apply Forall_replicate; now split]).
    destruct (words32_sim _ _ Lv Hv) as [Hs Hle]. destruct (cvt_and_add_sum q (words32 v) ltac:(now apply length_words32)) as [Ec Lc]. destruct (add_lanes_sum (r_lanes r) (cvt_and_add (words32 v)) ltac:(lia)) as [Ea La].
    assert (bsum false v = bsum false s) as Eb by (unfold v; rewrite bsum_app, bsum_zeros; lia).
    split; cbn; [apply u64_range|symmetry; exact Hp|rewrite Hcp; exact (eq_trans A8 ltac:(now rewrite Hcp))|].
    exists (x + sumz (words32 v)). split.
    + rewrite eqm_u64, Hh by lia. rewrite Ea, Ec. unfold total in A9. rewrite !Z.add_assoc, A9. reflexivity.
    + replace n with (k + r_count r)%nat by lia. apply adds_up_app; auto. rewrite <- A3. fold s. split; [now rewrite <- Eb|].
      unfold v in Hle. rewrite sumz_app, sumz_zeros in Hle. pose proof (sumz_bytes s Hb). fold v in Hle. lia.
Qed.

(** The cases in which a variant is right. *)
Definition sound (v : vectors) : Prop :=
  match v with
  | VEC512 _ => is_copy = false /\ (n < 512)%nat
  | VEC256 true => is_copy = false
  | _ => True
  end.

Lemma start_lanes m r : at_byte false 0 0 r -> at_byte true m 0 (zero_lanes m r).
Proof.
  intros [A1 A2 A3 A4 A5 AR A6 A7 A8 (x & A9 & A10)]. split; try assumption; [apply length_replicate|]. exists x. split; [|exact A10]. unfold total in *. cbn. now rewrite sumz_zeros.
Qed.

Lemma vector_part_finished v r : sound v -> at_byte false 0 0 r -> exists r2, vector_part is_copy src v r = Some r2 /\ finished r2.
Proof.
  intros Hv Hr. destruct v as [m|m| |]; cbn [vector_part sound] in *.
  - destruct Hv as [Hcp Hn]. pose proof (start_lanes 8 r Hr) as H8. rewrite loop_skip by (rewrite (ab_count _ _ _ _ H8); lia). cbn [mbind option_bind].
    destruct (loop_advance true 8 64 (one_vector is_copy src 64 512) ltac:(lia) eq_refl (fun k r H1 H2 => one_turn 4 512 k r H1 H2 (or_introl Hcp)) 0 _ H8) as (k2 & r2 & -> & H2 & Hc). cbn [mbind option_bind]. destruct m.
    + destruct (masked_finished 4 k2 r2 clib_ip_csum_hadd_8 (fun v => proj2 (proj2 (hadd_sum v))) Hcp H2 Hc) as (r3 & E3 & H3). change (16 * 4)%nat with 64%nat in E3. rewrite E3. cbn [mbind option_bind]. eauto.
    + apply (tail_finished 8 k2). apply vector_to_sum; [exact H2|]. apply hadd_sum, (ab_lanes _ _ _ _ H2).
  - pose proof (start_lanes 4 r Hr) as H4.
    destruct (loop_advance true 4 256 (eight_vectors is_copy src 32 [0; 1; 2; 3; 4; 5; 6; 7]%nat) ltac:(lia) eq_refl (fun k r H1 H2 => eight_turn 2 k r H1 H2) 0 _ H4) as (k1 & r1 & -> & H1 & _). cbn [mbind option_bind].
    destruct (loop_advance true 4 32 (one_vector is_copy src 32 32) ltac:(lia) eq_refl (fun k r H1 H2 => one_turn 2 32 k r H1 H2 (or_intror eq_refl)) k1 _ H1) as (k2 & r2 & -> & H2 & Hc). cbn [mbind option_bind]. destruct m.
    + destruct (masked_finished 2 k2 r2 clib_ip_csum_hadd_4 (fun v => proj1 (proj2 (hadd_sum v))) Hv H2 Hc) as (r3 & E3 & H3). change (16 * 2)%nat with 32%nat in E3. rewrite E3. cbn [mbind option_bind]. eauto.
    + apply (tail_finished 4 k2). apply vector_to_sum; [exact H2|]. apply hadd_sum, (ab_lanes _ _ _ _ H2).
  - pose proof (start_lanes 2 r Hr) as H4.
    destruct (loop_advance true 2 128 (eight_vectors is_copy src 16 [0; 1; 2; 3; 4; 5; 6; 7]%nat) ltac:(lia) eq_refl (fun k r H1 H2 => eight_turn 1 k r H1 H2) 0 _ H4) as (k1 & r1 & -> & H1 & _). cbn [mbind option_bind].
    destruct (loop_advance true 2 16 (one_vector is_copy src 16 16) ltac:(lia) eq_refl (fun k r H1 H2 => one_turn 1 16 k r H1 H2 (or_intror eq_refl)) k1 _ H1) as (k2 & r2 & -> & H2 & _). cbn [mbind option_bind].
    apply (tail_finished 2 k2). apply vector_to_sum; [exact H2|]. apply hadd_sum, (ab_lanes _ _ _ _ H2).
  - destruct (loop_advance false 0 4 (four_bytes is_copy src) ltac:(lia) eq_refl (fun k r H1 H2 => four_turn 0 k r H1 H2) 0 _ Hr) as (k2 & r2 & -> & H2 & _). cbn [mbind option_bind].
    now apply (tail_finished 0 k2).
Qed.

End Chunk.

(** ** Chunks *)

Definition is_odd (c : clib_ip_csum_t) : bool := negb (csum_odd c =? 0).

(** A chunk continues the 16-bit words of the ones before it. *)
Lemma inline_spec is_copy src v c dst count :
  is_u 64 (csum_sum c) ->
  bytes_ok src -> (count <= length src)%nat -> (is_copy = true -> count <= length dst)%nat -> (is_odd c = true -> 1 <= count)%nat -> (is_copy = true -> is_odd c = false) ->
  sound is_copy count v ->
  exists c' x, clib_ip_csum_inline is_copy src v c dst count = Some (c', if is_copy then splice dst 0 (take count src) else dst) /\ is_u 64 (csum_sum c') /\
    csum_odd c' = (Z.b2z (is_odd c) + Z.of_nat count) mod 2 /\ eqm (csum_sum c') (csum_sum c + x) /\
    sim x (bsum (is_odd c) (take count src)) /\ x <= 2 ^ 32 * Z.of_nat count.
Proof.
  intros Hcr Hb Hl Hd Ho Hcp Hv. unfold clib_ip_csum_inline, odd_byte. cbn [r_odd]. fold (is_odd c). destruct (is_odd c) eqn:Eo.
  - destruct is_copy; [now specialize (Hcp eq_refl)|]. specialize (Ho eq_refl). cbn [r_src]. destruct (read_some src 0 1 ltac:(lia)) as [-> L1]. cbn [mbind option_bind]. rewrite drop_0 in *.
    destruct count as [|n]; [lia|]. destruct src as [|b src]; [cbn in Hl; lia|]. cbn [take nth] in *. apply Forall_cons in Hb as [Hb0 Hb]. unfold copy_from. cbn [mbind option_bind].
    match goal with |- context [vector_part _ _ _ ?r0] => set (r := r0) end.
    destruct (vector_part_finished false (b :: src) (u64 (csum_sum c + Z.shiftl b 8)) 1 n dst 0) with (v := v) (r := r) as (r2 & -> & [FR F1 F2 (x & F3 & F4 & F5)]).
    + now constructor.
    + cbn in *. lia.
    + easy.
    + destruct v as [m|[]| |]; cbn in *; try easy. destruct Hv. split; [reflexivity|lia].
    + split; try easy; try (cbn; lia); [apply u64_range|]. exists 0. split; [unfold total; cbn; rewrite !Z.add_0_r; reflexivity|]. split; [now apply sim_refl|cbn; lia].
    + cbn [mbind option_bind]. unfold done in *. cbn [drop] in *. rewrite F2. eexists _, (256 * b + x). split; [reflexivity|]. cbn [csum_odd csum_sum is_odd Z.b2z]. split; [exact FR|]. split; [rewrite F1; mod_lia|].
      split; [rewrite F3, eqm_u64, Z.shiftl_mul_pow2 by lia; unfold eqm; f_equal; lia|]. cbn [bsum negb]. unfold is_u in Hb0. rewrite length_take in F5. cbn in Hl. split; [apply alike_add; [apply sim_refl; lia|exact F4]|lia].
  - cbn [mbind option_bind]. destruct (vector_part_finished is_copy src (csum_sum c) 0 count dst 0) with (v := v) (r := mk_run (csum_sum c) (csum_odd c) [] 0 count dst 0) as (r2 & -> & [FR F1 F2 (x & F3 & F4 & F5)]); auto.
    + split; cbn; try easy; try lia.
      * unfold is_odd in Eo. apply negb_false_iff, Z.eqb_eq in Eo. exact Eo.
      * destruct is_copy; [|reflexivity]. reflexivity.
      * exists 0. split; [unfold total; cbn; rewrite !Z.add_0_r; reflexivity|]. split; [now apply sim_refl|cbn; lia].
    + cbn [mbind option_bind]. unfold done in *. rewrite drop_0 in *. rewrite F2. eexists _, x. split; [reflexivity|]. cbn [csum_odd csum_sum is_odd Z.b2z]. split; [exact FR|]. split; [rewrite F1; f_equal; lia|].
      split; [exact F3|]. split; [exact F4|]. rewrite length_take in F5. lia.
Qed.

Lemma odd_after (o : bool) n : negb ((Z.b2z o + Z.of_nat n) mod 2 =? 0) = if Nat.even n then o else negb o.
Proof.
  assert (Z.of_nat n mod 2 = if Nat.even n then 0 else 1) as E.
  { destruct (Nat.even n) eqn:Ev; [apply Nat.even_spec in Ev as [j ->]|assert (Nat.odd n = true) as [j ->]%Nat.odd_spec by now rewrite <- Nat.negb_even, Ev]; mod_lia. }
  rewrite Zplus_mod, E. now destruct (Nat.even n), o.
Qed.

(** The checksum of data that comes in chunks. *)
Fixpoint csum_chunks (v : vectors) (c : clib_ip_csum_t) (chunks : list (list Z)) : option clib_ip_csum_t :=
  match chunks with
  | [] => Some c
  | s :: chunks => c ← clib_ip_csum_chunk v c s (length s); csum_chunks v c chunks
  end.

(** No variant takes 512 bytes at once. *)
Definition short_for (v : vectors) (s : list Z) : Prop := match v with VEC512 _ => (length s < 512)%nat | _ => True end.

Lemma chunks_spec v chunks : Forall bytes_ok chunks -> Forall (fun s => s <> []) chunks -> Forall (short_for v) chunks ->
  forall c, is_u 64 (csum_sum c) -> csum_odd c = 0 \/ csum_odd c = 1 ->
  exists c' x, csum_chunks v c chunks = Some c' /\ is_u 64 (csum_sum c') /\ eqm (csum_sum c') (csum_sum c + x) /\ sim x (bsum (is_odd c) (concat chunks)) /\ x <= 2 ^ 32 * Z.of_nat (length (concat chunks)).
Proof.
  induction chunks as [|s chunks IH]; intros Hb Hne Hs c Hcr Hc; cbn [csum_chunks concat].
  { exists c, 0. split; [reflexivity|]. split; [exact Hcr|]. split; [unfold eqm; f_equal; lia|]. split; [now apply sim_refl|cbn; lia]. }
  apply Forall_cons in Hb as [Hb0 Hb], Hne as [Hn0 Hne], Hs as [Hs0 Hs]. unfold clib_ip_csum_chunk.
  destruct (inline_spec false s v c [] (length s)) as (c1 & x1 & -> & R1 & O1 & E1 & S1 & L1); auto; try easy.
  { intros _. destruct s; [easy|cbn; lia]. } { destruct v as [m|[]| |]; cbn in *; auto. }
  cbn [fmap option_fmap option_map fst mbind option_bind]. rewrite take_ge in S1 by lia.
  destruct (IH Hb Hne Hs c1 R1) as (c2 & x2 & -> & R2 & E2 & S2 & L2). { rewrite O1. Z.div_mod_to_equations. lia. }
  exists c2, (x1 + x2). split; [reflexivity|]. split; [exact R2|]. split; [rewrite E2, E1; unfold eqm; f_equal; lia|]. rewrite bsum_app, length_app. split; [|lia]. apply alike_add; [exact S1|].
  now rewrite <- odd_after, <- O1.
Qed.

Lemma zero_sum : is_u 64 (csum_sum (mk_csum 0 0)).
Proof. split; [reflexivity|]. cbn. lia. Qed.

Lemma fold_internet c x l : is_u 64 (csum_sum c) -> eqm (csum_sum c) (0 + x) -> sim x (bsum false l) -> x < 2 ^ 48 -> clib_ip_csum_fold c = internet_checksum l.
Proof.
  intros Hc Hx Hs Hl. assert (csum_sum c = x) as E.
  { unfold eqm in Hx. rewrite u64_small in Hx by exact Hc. rewrite Hx, Z.add_0_l. apply u64_small. destruct Hs as [H0 _]. unfold is_u. lia. }
  rewrite fold_ones_sum by (rewrite E; destruct Hs as [H0 _]; lia). unfold internet_checksum. now rewrite E, (ones_sum_sim _ _ Hs).
Qed.

(** C27: the checksum of a packet that comes in chunks, of any even or odd lengths, is
    the Internet checksum of its bytes: the complement of the one's complement sum of
    their 16-bit words, the last one padded.  No byte outside of a chunk is read.  This
    holds for the code with and without vectors, but with 512-bit vectors only for
    chunks of less than 512 bytes.  Chunks are not empty and packets have less than
    2^16 bytes. *)
Theorem checksum_of_chunks v chunks :
  Forall bytes_ok chunks -> Forall (fun s => s <> []) chunks -> Forall (short_for v) chunks -> Z.of_nat (length (concat chunks)) < 2 ^ 16 ->
  exists c, csum_chunks v (mk_csum 0 0) chunks = Some c /\ clib_ip_csum_fold c = internet_checksum (concat chunks).
Proof.
  intros Hb Hne Hs Hl. destruct (chunks_spec v chunks Hb Hne Hs (mk_csum 0 0) zero_sum (or_introl eq_refl)) as (c & x & E & R & Hx & Hsim & Hle). exists c. split; [exact E|].
  apply (fold_internet c x); auto; lia.
Qed.

Lemma chunk_internet v src count : bytes_ok src -> (count <= length src)%nat -> Z.of_nat count < 2 ^ 16 -> short_for v (take count src) ->
  (c ← clib_ip_csum_chunk v (mk_csum 0 0) src count; Some (clib_ip_csum_fold c)) = Some (internet_checksum (take count src)).
Proof.
  intros Hb Hl Hc Hs. unfold clib_ip_csum_chunk. destruct (inline_spec false src v (mk_csum 0 0) [] count zero_sum Hb Hl) as (c & x & -> & R & _ & Hx & Hsim & Hle); auto; try easy.
  { destruct v as [m|[]| |]; cbn in *; auto. split; [reflexivity|]. rewrite length_take in Hs. lia. }
  cbn. f_equal. apply (fold_internet c x); auto; lia.
Qed.

Lemma csum_internet v known src count : bytes_ok src -> (count <= length src)%nat -> Z.of_nat count < 2 ^ 16 -> short_for v (take count src) ->
  clib_ip_csum v known src count = Some (internet_checksum (take count src)).
Proof.
  intros Hb Hl Hc Hs. assert (bytes_ok (take count src)) as Ht by now apply Forall_take.
  unfold clib_ip_csum. cbv zeta. case_bool_decide as Hk; [destruct known; cbn [andb]|rewrite andb_false_r].
  - destruct (read_some src 0 count ltac:(lia)) as [-> Lc]. rewrite drop_0 in *. cbn [mbind option_bind]. f_equal. set (s := take count src) in *.
    assert (exists q, length s = 4 * q)%nat as [q Hq] by (rewrite Lc; destruct Hk as [->|[->| ->]]; [now exists 3%nat|now exists 5%nat|now exists 10%nat]).
    destruct (words32_sim q s Hq Ht) as [Hsim Hle]. pose proof (sumz_bytes s Ht). apply (fold_internet _ (sumz (words32 s))); [apply u64_range|cbn; apply eqm_u64|exact Hsim|lia].
  - apply (chunk_internet v src count); auto.
  - apply (chunk_internet v src count); auto.
Qed.

(** Likewise for the whole of a packet, and for the copy: the destination has the
    bytes of the source, and is as it was behind them.  This holds without vectors, with
    those of 128 bits, and with those of 256 bits if there are no masked stores. *)
Theorem checksum_and_copy v known src dst count :
  bytes_ok src -> (count <= length src)%nat -> Z.of_nat count < 2 ^ 16 ->
  (short_for v (take count src) -> clib_ip_csum v known src count = Some (internet_checksum (take count src))) /\
  (v = NOVEC \/ v = VEC128 \/ v = VEC256 false -> (count <= length dst)%nat ->
   clib_ip_csum_and_copy v dst src count = Some (internet_checksum (take count src), take count src ++ drop count dst)).
Proof.
  intros Hb Hl Hc. split; [now apply csum_internet|].
  intros Hv Hd. unfold clib_ip_csum_and_copy. destruct (inline_spec true src v (mk_csum 0 0) dst count zero_sum Hb Hl) as (c & x & -> & R & _ & Hx & Hs & Hle); auto; try easy.
  { destruct Hv as [->|[->| ->]]; exact I. }
  cbn [mbind option_bind]. unfold splice. rewrite take_0, length_take, Nat.min_l by lia. cbn [app Nat.add]. do 2 f_equal. apply (fold_internet c x); auto; lia.
Qed.

(** ** Examples *)

Definition ex_bytes (n : nat) : list Z := map (fun i => Z.of_nat i * Z.of_nat i mod 251) (seq 0 n).

Lemma ex_bytes_ok n : bytes_ok (ex_bytes n).
Proof.
  unfold ex_bytes, bytes_ok. rewrite Forall_map. apply Forall_true. intros i. cbn. pose proof (Z.mod_pos_bound (Z.of_nat i * Z.of_nat i) 251 ltac:(lia)). unfold is_u. lia.
Qed.

Definition ex_chunks : list (list Z) := [ex_bytes 3; ex_bytes 300; ex_bytes 5].

Lemma checksum_of_chunks_witness : exists c, csum_chunks (VEC256 true) (mk_csum 0 0) ex_chunks = Some c /\ clib_ip_csum_fold c = 39915.
Proof.
  destruct (checksum_of_chunks (VEC256 true) ex_chunks) as (c & E & H).
  - repeat (apply Forall_cons_2; [apply ex_bytes_ok|]). apply Forall_nil_2.
  - repeat (apply Forall_cons_2; [discriminate|]). apply Forall_nil_2.
  - repeat (apply Forall_cons_2; [exact I|]). apply Forall_nil_2.
  - vm_compute. reflexivity.
  - exists c. split; [exact E|]. rewrite H. vm_compute. reflexivity.
Defined.

Lemma checksum_and_copy_witness : clib_ip_csum (VEC512 true) false (ex_bytes 40) 33 = Some 24383 /\ clib_ip_csum_and_copy VEC128 (replicate 40 7) (ex_bytes 40) 33 = Some (24383, ex_bytes 33 ++ replicate 7 7).
Proof.
  destruct (checksum_and_copy (VEC512 true) false (ex_bytes 40) [] 33 (ex_bytes_ok 40)) as [H1 _]; [vm_compute; lia|reflexivity|].
  destruct (checksum_and_copy VEC128 false (ex_bytes 40) (replicate 40 7) 33 (ex_bytes_ok 40)) as [_ H2]; [vm_compute; lia|reflexivity|].
  split; [rewrite H1 by (vm_compute; lia); vm_compute; reflexivity|]. rewrite H2 by (auto; vm_compute; lia). vm_compute. reflexivity.
Defined.

(** With vectors of 512 bits, eight vectors are not added right: the ninth is taken
    for the fifth.  Of 512 bytes and more, 64 bytes do not count and 64 bytes behind the
    block do, which may not belong to the packet. *)
Lemma vec512_takes_ninth_vector m :
  clib_ip_csum (VEC512 m) false (ex_bytes 700) 700 = Some 9467 /\ internet_checksum (ex_bytes 700) = 28189 /\ clib_ip_csum (VEC512 m) false (ex_bytes 550) 550 = None.
Proof. destruct m; vm_compute; auto. Qed.

(** The copy with vectors of 512 bits leaves gaps: the destination moves by 512 bytes
    for each vector of 64 bytes. *)
Lemma vec512_copy_leaves_gaps :
  exists x d, clib_ip_csum_and_copy (VEC512 false) (replicate 640 7) (ex_bytes 80) 80 = Some (x, d) /\
    take 64 d ++ take 16 (drop 512 d) = ex_bytes 80 /\ take 16 (drop 64 d) = replicate 16 7.
Proof. eexists _, _. split; [vm_compute; reflexivity|]. split; vm_compute; reflexivity. Qed.

(** Masked stores write up to the end of the vector: the mask of bytes is taken as one
    of 32-bit words. *)
Lemma masked_copy_overwrites :
  clib_ip_csum_and_copy (VEC256 true) (replicate 40 7) (ex_bytes 20) 20 = Some (internet_checksum (ex_bytes 20), ex_bytes 20 ++ replicate 12 0 ++ replicate 8 7) /\
  clib_ip_csum_and_copy (VEC256 true) (replicate 20 7) (ex_bytes 20) 20 = None.
Proof. split; vm_compute; reflexivity. Qed.

(** After a chunk of odd length the first byte of the next one is not copied but the
    second one is, twice. *)
Lemma odd_chunk_copy_wrong v : v = NOVEC \/ v = VEC128 \/ v = VEC256 false ->
  snd <$> clib_ip_csum_and_copy_chunk v (mk_csum 9 1) [1; 2; 3] (replicate 3 7) 3 = Some [2; 2; 3].
Proof. intros [->|[->| ->]]; vm_compute; reflexivity. Qed.

(** An empty chunk after one of odd length is taken for one of 65536 bytes. *)
Lemma empty_chunk_after_odd v : clib_ip_csum_chunk v (mk_csum 9 1) [] 0 = None.
Proof. destruct v; reflexivity. Qed.
