(* ===== verification/Ip4Input.v ===== *)
(** * Checks of received IPv4 headers (src/vnet/ip/ip4_input.h)

    ip4-input verifies the header of every packet before it is forwarded, four, two or
    one at a time.  A packet is its buffer's memory from the IP header on, with the
    metadata that the checks and ip4-rewrite use; the result [None] is an access
    outside of that memory, when options are claimed that are not there. *)

From stdpp Require Import base list numbers.
From S2P Require Import Prelude NetTypes Packet IpCsum.

(** ** Packets *)

Record ip4_pkt := mk_pkt {
  pk_data : list Z;
  pk_length_in_chain : Z;
  pk_flags : Z;
  pk_error : Z;
  pk_icmp : Z * Z * Z;
  pk_frag : Z * Z * Z;
  pk_sw_if_index_tx : Z
}.

#[export] Instance pkt_eta : Eta ip4_pkt :=
  fun p => mk_pkt (pk_data p) (pk_length_in_chain p) (pk_flags p) (pk_error p) (pk_icmp p) (pk_frag p) (pk_sw_if_index_tx p).

Definition ip_version_and_header_length (p : ip4_pkt) : Z := byte_at (pk_data p) 0.
Definition ip_length (p : ip4_pkt) : Z := u16_at (pk_data p) 2.
Definition flags_and_fragment_offset (p : ip4_pkt) : Z := u16_at (pk_data p) 6.
Definition ip_ttl (p : ip4_pkt) : Z := byte_at (pk_data p) 8.
Definition ip_checksum (p : ip4_pkt) : Z := u16_at (pk_data p) 10.

Definition SIZEOF_IP4_HEADER : Z := 20.

Definition ip4_get_fragment_offset (p : ip4_pkt) : Z := Z.land (net_to_host_u16 (flags_and_fragment_offset p)) 0x1fff.
Definition ip4_header_bytes (p : ip4_pkt) : Z := 4 * Z.land (ip_version_and_header_length p) 0xf.

(** ** Errors and next nodes *)

Definition IP4_ERROR_NONE : Z := 0.
Definition IP4_ERROR_TOO_SHORT : Z := 1.
Definition IP4_ERROR_BAD_LENGTH : Z := 2.
Definition IP4_ERROR_BAD_CHECKSUM : Z := 3.
Definition IP4_ERROR_VERSION : Z := 4.
Definition IP4_ERROR_OPTIONS : Z := 5.
Definition IP4_ERROR_FRAGMENT_OFFSET_ONE : Z := 6.
Definition IP4_ERROR_TIME_EXPIRED : Z := 7.
Definition IP4_ERROR_HDR_TOO_SHORT : Z := 8.
Definition IP4_ERROR_MTU_EXCEEDED : Z := 9.

Definition IP4_INPUT_NEXT_DROP : Z := 0.
Definition IP4_INPUT_NEXT_PUNT : Z := 1.
Definition IP4_INPUT_NEXT_OPTIONS : Z := 2.
Definition IP4_INPUT_NEXT_LOOKUP : Z := 3.
Definition IP4_INPUT_NEXT_LOOKUP_MULTICAST : Z := 4.
Definition IP4_INPUT_NEXT_ICMP_ERROR : Z := 5.

Definition ICMP4_destination_unreachable : Z := 3.
Definition ICMP4_destination_unreachable_fragmentation_needed_and_dont_fragment_set : Z := 4.
Definition ICMP4_time_exceeded : Z := 11.
Definition ICMP4_time_exceeded_ttl_exceeded_in_transit : Z := 0.

Definition icmp4_error_set_vnet_buffer (p : ip4_pkt) (type code data : Z) : ip4_pkt := p <| pk_icmp := (type, code, data) |>.

(** ** The checks *)

Section Checks.
(** The vectors the code is built for. *)
Variable vec : vectors.

Definition check_ver_opt_csum (p : ip4_pkt) (error : Z) (verify_checksum : bool) : option Z :=
  if negb (ip_version_and_header_length p =? 0x45) then
    if negb (Z.land (ip_version_and_header_length p) 0xf0 =? 0x40) then Some IP4_ERROR_VERSION
    else if Z.land (ip_version_and_header_length p) 0x0f <? 5 then Some IP4_ERROR_HDR_TOO_SHORT
    else if verify_checksum then
      csum ← clib_ip_csum vec false (pk_data p) (Z.to_nat (ip4_header_bytes p));
      Some (if negb (csum =? 0) then IP4_ERROR_BAD_CHECKSUM else IP4_ERROR_OPTIONS)
    else Some IP4_ERROR_OPTIONS
  else if verify_checksum then
    csum ← clib_ip_csum vec true (pk_data p) (Z.to_nat SIZEOF_IP4_HEADER);
    Some (if negb (csum =? 0) then IP4_ERROR_BAD_CHECKSUM else error)
  else Some error.

(** What is done with the packet of an error. *)
Definition set_error (p : ip4_pkt) (next error : Z) : ip4_pkt * Z :=
  if negb (error =? IP4_ERROR_NONE) then
    let '(p, next) :=
      if error =? IP4_ERROR_TIME_EXPIRED then
        (icmp4_error_set_vnet_buffer p ICMP4_time_exceeded ICMP4_time_exceeded_ttl_exceeded_in_transit 0, IP4_INPUT_NEXT_ICMP_ERROR)
      else (p, if negb (error =? IP4_ERROR_OPTIONS) then IP4_INPUT_NEXT_DROP else IP4_INPUT_NEXT_OPTIONS) in
    (p <| pk_error := error |>, next)
  else (p, next).

Definition ip4_input_check_x1 (p0 : ip4_pkt) (next0 : Z) (verify_checksum : bool) : option (ip4_pkt * Z) :=
  let error0 := IP4_ERROR_NONE in
  error0 ← check_ver_opt_csum p0 error0 verify_checksum;
  let error0 := if ip_ttl p0 <? 1 then IP4_ERROR_TIME_EXPIRED else error0 in
  let error0 := if ip4_get_fragment_offset p0 =? 1 then IP4_ERROR_FRAGMENT_OFFSET_ONE else error0 in
  let ip_len0 := net_to_host_u16 (ip_length p0) in
  let error0 := if ip_len0 <? SIZEOF_IP4_HEADER then IP4_ERROR_TOO_SHORT else error0 in
  let cur_len0 := pk_length_in_chain p0 in
  let len_diff0 := i32 (u32 (cur_len0 - ip_len0)) in
  let error0 := if len_diff0 <? 0 then IP4_ERROR_BAD_LENGTH else error0 in
  Some (set_error p0 next0 error0).

Definition ip4_input_check_x2 (p0 p1 : ip4_pkt) (next0 next1 : Z) (verify_checksum : bool) : option (ip4_pkt * Z * (ip4_pkt * Z)) :=
  let error0 := IP4_ERROR_NONE in
  let error1 := IP4_ERROR_NONE in
  error0 ← check_ver_opt_csum p0 error0 verify_checksum;
  error1 ← check_ver_opt_csum p1 error1 verify_checksum;
  let error0 := if ip_ttl p0 <? 1 then IP4_ERROR_TIME_EXPIRED else error0 in
  let error1 := if ip_ttl p1 <? 1 then IP4_ERROR_TIME_EXPIRED else error1 in
  let error0 := if ip4_get_fragment_offset p0 =? 1 then IP4_ERROR_FRAGMENT_OFFSET_ONE else error0 in
  let error1 := if ip4_get_fragment_offset p1 =? 1 then IP4_ERROR_FRAGMENT_OFFSET_ONE else error1 in
  let ip_len0 := net_to_host_u16 (ip_length p0) in
  let ip_len1 := net_to_host_u16 (ip_length p1) in
  let error0 := if ip_len0 <? SIZEOF_IP4_HEADER then IP4_ERROR_TOO_SHORT else error0 in
  let error1 := if ip_len1 <? SIZEOF_IP4_HEADER then IP4_ERROR_TOO_SHORT else error1 in
  let cur_len0 := pk_length_in_chain p0 in
  let cur_len1 := pk_length_in_chain p1 in
  let len_diff0 := i32 (u32 (cur_len0 - ip_len0)) in
  let len_diff1 := i32 (u32 (cur_len1 - ip_len1)) in
  let error0 := if len_diff0 <? 0 then IP4_ERROR_BAD_LENGTH else error0 in
  let error1 := if len_diff1 <? 0 then IP4_ERROR_BAD_LENGTH else error1 in
  Some (set_error p0 next0 error0, set_error p1 next1 error1).

Definition ip4_input_check_x4 (p0 p1 p2 p3 : ip4_pkt) (next0 next1 next2 next3 : Z) (verify_checksum : bool) : option (list (ip4_pkt * Z)) :=
  let error0 := IP4_ERROR_NONE in
  let error1 := IP4_ERROR_NONE in
  let error2 := IP4_ERROR_NONE in
  let error3 := IP4_ERROR_NONE in
  error0 ← check_ver_opt_csum p0 error0 verify_checksum;
  error1 ← check_ver_opt_csum p1 error1 verify_checksum;
  error2 ← check_ver_opt_csum p2 error2 verify_checksum;
  error3 ← check_ver_opt_csum p3 error3 verify_checksum;
  let error0 := if ip_ttl p0 <? 1 then IP4_ERROR_TIME_EXPIRED else error0 in
  let error1 := if ip_ttl p1 <? 1 then IP4_ERROR_TIME_EXPIRED else error1 in
  let error2 := if ip_ttl p2 <? 1 then IP4_ERROR_TIME_EXPIRED else error2 in
  let error3 := if ip_ttl p3 <? 1 then IP4_ERROR_TIME_EXPIRED else error3 in
  let error0 := if ip4_get_fragment_offset p0 =? 1 then IP4_ERROR_FRAGMENT_OFFSET_ONE else error0 in
  let error1 := if ip4_get_fragment_offset p1 =? 1 then IP4_ERROR_FRAGMENT_OFFSET_ONE else error1 in
  let error2 := if ip4_get_fragment_offset p2 =? 1 then IP4_ERROR_FRAGMENT_OFFSET_ONE else error2 in
  let error3 := if ip4_get_fragment_offset p3 =? 1 then IP4_ERROR_FRAGMENT_OFFSET_ONE else error3 in
  let ip_len0 := net_to_host_u16 (ip_length p0) in
  let ip_len1 := net_to_host_u16 (ip_length p1) in
  let ip_len2 := net_to_host_u16 (ip_length p2) in
  let ip_len3 := net_to_host_u16 (ip_length p3) in
  let error0 := if ip_len0 <? SIZEOF_IP4_HEADER then IP4_ERROR_TOO_SHORT else error0 in
  let error1 := if ip_len1 <? SIZEOF_IP4_HEADER then IP4_ERROR_TOO_SHORT else error1 in
  let error2 := if ip_len2 <? SIZEOF_IP4_HEADER then IP4_ERROR_TOO_SHORT else error2 in
  let error3 := if ip_len3 <? SIZEOF_IP4_HEADER then IP4_ERROR_TOO_SHORT else error3 in
  let cur_len0 := pk_length_in_chain p0 in
  let cur_len1 := pk_length_in_chain p1 in
  let cur_len2 := pk_length_in_chain p2 in
  let cur_len3 := pk_length_in_chain p3 in
  let len_diff0 := i32 (u32 (cur_len0 - ip_len0)) in
  let len_diff1 := i32 (u32 (cur_len1 - ip_len1)) in
  let len_diff2 := i32 (u32 (cur_len2 - ip_len2)) in
  let len_diff3 := i32 (u32 (cur_len3 - ip_len3)) in
  let error0 := if len_diff0 <? 0 then IP4_ERROR_BAD_LENGTH else error0 in
  let error1 := if len_diff1 <? 0 then IP4_ERROR_BAD_LENGTH else error1 in
  let error2 := if len_diff2 <? 0 then IP4_ERROR_BAD_LENGTH else error2 in
  let error3 := if len_diff3 <? 0 then IP4_ERROR_BAD_LENGTH else error3 in
  Some [set_error p0 next0 error0; set_error p1 next1 error1; set_error p2 next2 error2; set_error p3 next3 error3].

End Checks.
