(* ===== verification/Ip4Rewrite.v ===== *)
(** * Hop limit and size of forwarded packets (src/vnet/ip/ip4_forward.c)

    ip4-rewrite takes one from the hop limit of a packet and adjusts its checksum, and
    compares its length to what the next hop takes.  Packets that are too long are
    given back the hop limit and go to fragmentation or are answered with an ICMP
    error. *)

From stdpp Require Import base list numbers.
From S2P Require Import Prelude NetTypes Packet IpCsum IpCsumSum Ip4Input.

Definition VNET_BUFFER_F_LOCALLY_ORIGINATED : Z := Z.shiftl 1 (32 - 7).

Definition IP4_REWRITE_NEXT_DROP : Z := 0.
Definition IP4_REWRITE_NEXT_ICMP_ERROR : Z := 1.
Definition IP4_REWRITE_NEXT_FRAGMENT : Z := 2.

Definition IP_FRAG_NEXT_IP_REWRITE : Z := 0.
Definition IP_FRAG_NEXT_IP_REWRITE_MIDCHAIN : Z := 1.

Definition ip_frag_set_vnet_buffer (p : ip4_pkt) (mtu next_index flags : Z) : ip4_pkt := p <| pk_frag := (mtu, next_index, flags) |>.

(** Stores to the fields of the header. *)
Definition store_checksum (p : ip4_pkt) (c : Z) : ip4_pkt := p <| pk_data := <[10%nat := u16 c mod 256]> (<[11%nat := u16 c / 256]> (pk_data p)) |>.
Definition store_ttl (p : ip4_pkt) (ttl : Z) : ip4_pkt := p <| pk_data := <[8%nat := u8 ttl]> (pk_data p) |>.

Definition locally_originated (p : ip4_pkt) : bool := negb (Z.land (pk_flags p) VNET_BUFFER_F_LOCALLY_ORIGINATED =? 0).

Definition ip4_mtu_check (p : ip4_pkt) (packet_len adj_packet_bytes : Z) (df : bool) (next : Z) (is_midchain : bool) (error : Z) : ip4_pkt * Z * Z :=
  if adj_packet_bytes <? packet_len then
    let error := IP4_ERROR_MTU_EXCEEDED in
    if df then
      (icmp4_error_set_vnet_buffer p ICMP4_destination_unreachable ICMP4_destination_unreachable_fragmentation_needed_and_dont_fragment_set adj_packet_bytes,
       IP4_REWRITE_NEXT_ICMP_ERROR, error)
    else
      (ip_frag_set_vnet_buffer p adj_packet_bytes (if is_midchain then IP_FRAG_NEXT_IP_REWRITE_MIDCHAIN else IP_FRAG_NEXT_IP_REWRITE) 0,
       IP4_REWRITE_NEXT_FRAGMENT, error)
  else (p, next, error).

Definition ip4_ttl_inc (p : ip4_pkt) : ip4_pkt :=
  if locally_originated p then p
  else
    let ttl := ip_ttl p in
    let checksum := u32 (ip_checksum p - host_to_net_u16 0x0100) in
    let checksum := u32 (checksum + Z.b2z (0xffff <=? checksum)) in
    let p := store_checksum p checksum in
    let ttl := ttl + 1 in
    store_ttl p ttl.

Definition ip4_ttl_and_checksum_check (p : ip4_pkt) (next error : Z) : ip4_pkt * Z * Z :=
  if locally_originated p then (p, next, error)
  else
    let ttl := ip_ttl p in
    let checksum := u32 (ip_checksum p + host_to_net_u16 0x0100) in
    let checksum := u32 (checksum + Z.b2z (0xffff <=? checksum)) in
    let p := store_checksum p checksum in
    let ttl := ttl - 1 in
    let p := store_ttl p ttl in
    if ttl <=? 0 then
      let error := IP4_ERROR_TIME_EXPIRED in
      let p := p <| pk_sw_if_index_tx := Z.ones 32 |> in
      let p := icmp4_error_set_vnet_buffer p ICMP4_time_exceeded ICMP4_time_exceeded_ttl_exceeded_in_transit 0 in
      (p, IP4_REWRITE_NEXT_ICMP_ERROR, error)
    else (p, next, error).

(** ** Headers *)

Definition header (p : ip4_pkt) : list Z := take (Z.to_nat (ip4_header_bytes p)) (pk_data p).

(** A header with its checksum. *)
Record header_ok (p : ip4_pkt) : Prop := {
  ho_bytes : bytes_ok (pk_data p);
  ho_version : Z.land (ip_version_and_header_length p) 0xf0 = 0x40;
  ho_length : 20 <= ip4_header_bytes p <= Z.of_nat (length (pk_data p));
  ho_checksum : internet_checksum (header p) = 0
}.

Lemma bsum_insert h l i x : (i < length l)%nat -> bsum h (<[i := x]> l) = bsum h l + (x - nth i l 0) * (if Nat.even i then (if h then 256 else 1) else (if h then 1 else 256)).
Proof.
  revert h i. induction l as [|b l IH]; intros h i Hi; [cbn in Hi; lia|]. destruct i as [|i]; cbn [insert list_insert bsum nth].
  - cbn [Nat.even]. destruct h; lia.
  - cbn [length] in Hi. rewrite IH by lia. rewrite Nat.even_succ, <- Nat.negb_even. destruct (Nat.even i), h; cbn [negb]; lia.
Qed.

Lemma checksum_zero l : 0 < bsum false l -> internet_checksum l = 0 <-> exists k, bsum false l = 65535 * k.
Proof.
  intros H. unfold internet_checksum, ones_sum. destruct (Z.eqb_spec (bsum false l) 0); [lia|]. set (s := bsum false l) in *. split.
  - intros E. exists ((s - 1) / 65535 + 1). pose proof (Z.div_mod (s - 1) 65535 ltac:(lia)). lia.
  - intros [k E]. rewrite E. replace (65535 * k - 1) with (65534 + (k - 1) * 65535) by lia. rewrite Z.mod_add by lia. reflexivity.
Qed.

(** The header with another hop limit and checksum. *)
Definition edited (d : list Z) (ttl c : Z) : list Z := <[8%nat := ttl]> (<[10%nat := c mod 256]> (<[11%nat := c / 256]> d)).

Lemma edited_sum d n ttl c : (20 <= n <= length d)%nat ->
  bsum false (take n (edited d ttl c)) = bsum false (take n d) + (ttl - byte_at d 8) + (c - u16_at d 10).
Proof.
  intros Hn. unfold edited. rewrite !take_insert_lt by lia. assert (length (take n d) = n) as L by (rewrite length_take; lia).
  rewrite !bsum_insert by (rewrite ?length_insert; lia). unfold u16_at, byte_at. cbn [Nat.even Nat.add].
  assert (forall i, (i < 20)%nat -> nth i (take n d) 0 = nth i d 0) as Hnth by (intros i Hi; rewrite !nth_lookup, lookup_take_lt by lia; reflexivity).
  assert (forall i j x (l : list Z), i <> j -> nth j (<[i := x]> l) 0 = nth j l 0) as Hne by (intros; rewrite !nth_lookup, list_lookup_insert_ne by easy; reflexivity).
  rewrite (Hne 10%nat 8%nat), (Hne 11%nat 8%nat), (Hne 11%nat 10%nat), !Hnth by lia. pose proof (Z.div_mod c 256). lia.
Qed.

(** An edit that keeps the sum. *)
Lemma edit_ok p p' t c :
  header_ok p -> pk_data p' = edited (pk_data p) t c -> is_u 8 t -> is_u 16 c -> (exists k, t - ip_ttl p + (c - ip_checksum p) = 65535 * k) ->
  header_ok p' /\ ip_ttl p' = t /\ ip_checksum p' = c /\ length (pk_data p') = length (pk_data p) /\
  forall i, i <> 8%nat -> i <> 10%nat -> i <> 11%nat -> byte_at (pk_data p') i = byte_at (pk_data p) i.
Proof.
  intros [Hb Hv Hl Hc] E Ht Hu [k Hk]. set (d := pk_data p) in *. assert (20 <= length d)%nat as Hd by lia.
  assert (length (edited d t c) = length d) as Le by (unfold edited; now rewrite !length_insert).
  assert (forall i, byte_at (edited d t c) i = if decide (i = 8%nat) then t else if decide (i = 10%nat) then c mod 256 else if decide (i = 11%nat) then c / 256 else byte_at d i) as Hi.
  { intros i. unfold edited. rewrite !byte_at_insert by (rewrite ?length_insert; lia). reflexivity. }
  assert (ip_version_and_header_length p' = ip_version_and_header_length p) as Ev by (unfold ip_version_and_header_length; rewrite E, Hi; reflexivity).
  assert (ip4_header_bytes p' = ip4_header_bytes p) as Eh by (unfold ip4_header_bytes; now rewrite Ev).
  assert (bytes_ok (edited d t c)) as Hb'.
  { unfold edited. repeat apply Forall_insert; auto; unfold is_u in *; Z.div_mod_to_equations; lia. }
  assert (0 < bsum false (take (Z.to_nat (ip4_header_bytes p)) d) /\ 0 < bsum false (take (Z.to_nat (ip4_header_bytes p)) (edited d t c))) as [P1 P2].
  { assert (forall x, bytes_ok x -> byte_at x 0 <> 0 -> 0 < bsum false (take (Z.to_nat (ip4_header_bytes p)) x)) as Hp.
    { intros [|b x] Hx Hne; [now cbn in Hne|]. destruct (Z.to_nat (ip4_header_bytes p)) as [|m] eqn:Em; [lia|]. cbn [take bsum negb]. apply Forall_cons in Hx as [Hb0 Hx].
      pose proof (bsum_range true (take m x) ltac:(now apply Forall_take)). unfold byte_at in Hne. cbn in Hne. unfold is_u in Hb0. lia. }
    assert (byte_at d 0 <> 0) as Hne by (intros H0; unfold ip_version_and_header_length in Hv; fold d in Hv; rewrite H0 in Hv; discriminate).
    split; apply Hp; auto. now rewrite Hi. }
  split; [split|].
  - now rewrite E.
  - now rewrite Ev.
  - rewrite Eh, E, Le. exact Hl.
  - unfold header. rewrite Eh, E. apply checksum_zero; [exact P2|]. unfold header in Hc. fold d in Hc. apply checksum_zero in Hc as [m Hm]; [|exact P1].
    rewrite edited_sum by lia. exists (m + k). fold d in Hk. unfold ip_ttl, ip_checksum in Hk. fold d in Hk. lia.
  - split; [unfold ip_ttl; now rewrite E, Hi|]. split; [unfold ip_checksum, u16_at; rewrite E, !Hi; cbn [Nat.add]; repeat case_decide; try lia; pose proof (Z.div_mod c 256); lia|]. split; [now rewrite E|].
    intros i H8 H10 H11. rewrite E, Hi, !decide_False by assumption. reflexivity.
Qed.

Lemma header_ok_data p q : pk_data p = pk_data q -> header_ok q -> header_ok p.
Proof.
  intros E [H1 H2 H3 H4]. assert (ip_version_and_header_length p = ip_version_and_header_length q) as Ev by (unfold ip_version_and_header_length; now rewrite E).
  assert (ip4_header_bytes p = ip4_header_bytes q) as Eh by (unfold ip4_header_bytes; now rewrite Ev). split; [now rewrite E|now rewrite Ev|now rewrite Eh, E|].
  unfold header. now rewrite Eh, E.
Qed.

Lemma ttl_inc_spec p : header_ok p -> locally_originated p = false -> ip_ttl p < 255 -> ip_checksum p <> 0 ->
  pk_data (ip4_ttl_inc p) = edited (pk_data p) (ip_ttl p + 1) (ip_checksum p - 1) /\ header_ok (ip4_ttl_inc p) /\ ip_ttl (ip4_ttl_inc p) = ip_ttl p + 1.
Proof.
  intros Hok Hloc Ht Hne. assert (is_u 16 (ip_checksum p)) as Hc by (apply u16_at_range, Hok). assert (is_u 8 (ip_ttl p)) as H8 by (apply byte_range, Hok).
  assert (pk_data (ip4_ttl_inc p) = edited (pk_data p) (ip_ttl p + 1) (ip_checksum p - 1)) as E.
  { unfold ip4_ttl_inc. rewrite Hloc. cbv zeta. change (host_to_net_u16 256) with 1. set (c := ip_checksum p) in *. unfold is_u in *.
    assert (u32 (c - 1) = c - 1) as -> by (apply u32_small; unfold is_u; lia). destruct (Z.leb_spec 65535 (c - 1)); [lia|]. cbn [Z.b2z]. rewrite Z.add_0_r, u32_small by (unfold is_u; lia).
    assert (u16 (c - 1) = c - 1) as E16 by (apply Z.mod_small; lia). assert (u8 (ip_ttl p + 1) = ip_ttl p + 1) as E8 by (apply Z.mod_small; lia).
    unfold edited. cbn. now rewrite E8, E16. }
  split; [exact E|]. destruct (edit_ok p (ip4_ttl_inc p) _ _ Hok E) as (Q1 & Q2 & _); [unfold is_u in *; lia|unfold is_u in *; lia|exists 0; lia|auto].
Qed.

Lemma edited_back d t c : (20 <= length d)%nat -> bytes_ok d -> edited (edited d t c) (byte_at d 8) (u16_at d 10) = d.
Proof.
  intros Hl Hb. assert (length (edited d t c) = length d) as Le by (unfold edited; now rewrite !length_insert). apply (nth_ext _ _ 0 0); [unfold edited at 1; now rewrite !length_insert|].
  intros i _. change (byte_at (edited (edited d t c) (byte_at d 8) (u16_at d 10)) i = byte_at d i). unfold edited. rewrite !byte_at_insert by (rewrite ?length_insert; lia). unfold u16_at.
  pose proof (byte_range d 10 Hb). pose proof (byte_range d 11 Hb). cbn [Nat.add] in *. unfold is_u in *. repeat case_decide; subst; try reflexivity; Z.div_mod_to_equations; lia.
Qed.

(** C29: ip4-rewrite keeps the header of a forwarded packet valid: the hop limit is one
    less, the checksum fits, and all other bytes are as they were.  A packet whose hop
    limit becomes zero is answered with an ICMP error, others are not changed otherwise.
    Taking it back, for packets that are too long, restores the hop limit and a valid
    header, unless the checksum has become zero; it restores every byte if the checksum
    was less than 0xfffe. *)
Theorem ttl_keeps_header_valid p next error : header_ok p -> locally_originated p = false -> 1 <= ip_ttl p ->
  exists p' next' error', ip4_ttl_and_checksum_check p next error = (p', next', error') /\
    header_ok p' /\ ip_ttl p' = ip_ttl p - 1 /\
    (forall i, i <> 8%nat -> i <> 10%nat -> i <> 11%nat -> byte_at (pk_data p') i = byte_at (pk_data p) i) /\
    (ip_ttl p = 1 -> next' = IP4_REWRITE_NEXT_ICMP_ERROR /\ error' = IP4_ERROR_TIME_EXPIRED /\ pk_icmp p' = (ICMP4_time_exceeded, ICMP4_time_exceeded_ttl_exceeded_in_transit, 0)) /\
    (1 < ip_ttl p -> next' = next /\ error' = error /\ pk_icmp p' = pk_icmp p) /\
    (ip_checksum p' <> 0 -> header_ok (ip4_ttl_inc p') /\ ip_ttl (ip4_ttl_inc p') = ip_ttl p) /\
    (ip_checksum p < 0xfffe -> pk_data (ip4_ttl_inc p') = pk_data p).
Proof.
  intros Hok Hloc Ht. set (c := ip_checksum p). assert (is_u 16 c) as Hc by (apply u16_at_range, Hok). assert (is_u 8 (ip_ttl p)) as H8 by (apply byte_range, Hok).
  set (c1 := u16 (u32 (u32 (c + 1) + Z.b2z (65535 <=? u32 (c + 1))))).
  assert (is_u 16 c1 /\ (c1 = c + 1 /\ c < 65534 \/ c1 = c + 1 - 65535 /\ 65534 <= c)) as [R1 V1].
  { split; [apply u16_range|]. unfold c1, u16, u32, is_u in *. destruct (Z.leb_spec 65535 ((c + 1) mod 2 ^ 32)); cbn [Z.b2z]; Z.div_mod_to_equations; lia. }
  set (q := store_ttl (store_checksum p c1) (ip_ttl p - 1)).
  assert (u8 (ip_ttl p - 1) = ip_ttl p - 1) as E8 by (unfold u8, is_u in *; apply Z.mod_small; lia). assert (u16 c1 = c1) as E16 by (unfold u16; now apply Z.mod_small).
  assert (pk_data q = edited (pk_data p) (ip_ttl p - 1) c1) as Eq by (unfold q, edited; cbn; now rewrite E8, E16).
  destruct (edit_ok p q _ c1 Hok Eq) as (Q1 & Q2 & Q3 & Q4 & Q5); [unfold is_u in *; lia|exact R1|fold c; destruct V1 as [[-> _]|[-> _]]; [exists 0|exists (-1)]; lia|].
  assert (ip4_ttl_and_checksum_check p next error =
    if ip_ttl p - 1 <=? 0 then (icmp4_error_set_vnet_buffer (q <| pk_sw_if_index_tx := Z.ones 32 |>) ICMP4_time_exceeded ICMP4_time_exceeded_ttl_exceeded_in_transit 0, IP4_REWRITE_NEXT_ICMP_ERROR, IP4_ERROR_TIME_EXPIRED)
    else (q, next, error)) as E.
  { unfold ip4_ttl_and_checksum_check. rewrite Hloc. cbv zeta. change (host_to_net_u16 256) with 1. fold c. unfold q. assert (store_checksum p c1 = store_checksum p (u32 (u32 (c + 1) + Z.b2z (65535 <=? u32 (c + 1))))) as ->; [|reflexivity].
    unfold store_checksum. now rewrite E16. }
  assert (forall p', pk_data p' = pk_data q -> pk_flags p' = pk_flags q -> header_ok p' /\ ip_ttl p' = ip_ttl p - 1 /\
    (forall i, i <> 8%nat -> i <> 10%nat -> i <> 11%nat -> byte_at (pk_data p') i = byte_at (pk_data p) i) /\
    (ip_checksum p' <> 0 -> header_ok (ip4_ttl_inc p') /\ ip_ttl (ip4_ttl_inc p') = ip_ttl p) /\ (c < 0xfffe -> pk_data (ip4_ttl_inc p') = pk_data p)) as Hall.
  { intros p' Ed Ef. pose proof (header_ok_data _ _ Ed Q1) as Hp'. assert (ip_ttl p' = ip_ttl p - 1) as T' by (unfold ip_ttl in *; now rewrite Ed). assert (ip_checksum p' = c1) as C' by (unfold ip_checksum in *; now rewrite Ed).
    assert (locally_originated p' = false) as L' by (unfold locally_originated in *; now rewrite Ef). unfold is_u in H8. split; [exact Hp'|]. split; [exact T'|]. split; [now rewrite Ed|]. split.
    - intros Hne. destruct (ttl_inc_spec p' Hp' L' ltac:(lia) Hne) as (_ & I1 & I2). split; [exact I1|lia].
    - intros Hlt. unfold is_u in Hc. destruct (ttl_inc_spec p' Hp' L' ltac:(lia) ltac:(lia)) as (-> & _). rewrite Ed, Eq. destruct V1 as [[V1 _]|[_ V1]]; [|lia]. rewrite T', C', V1.
      replace (ip_ttl p - 1 + 1) with (byte_at (pk_data p) 8) by (unfold ip_ttl; lia). replace (c + 1 - 1) with (u16_at (pk_data p) 10) by (unfold c, ip_checksum; lia).
      apply edited_back; [|apply Hok]. pose proof (ho_length _ Hok). lia. }
  destruct (Z.leb_spec (ip_ttl p - 1) 0) as [H0|H0].
  - set (p' := icmp4_error_set_vnet_buffer _ _ _ _) in E. destruct (Hall p' eq_refl eq_refl) as (F1 & F2 & F3 & F4 & F5). exists p', IP4_REWRITE_NEXT_ICMP_ERROR, IP4_ERROR_TIME_EXPIRED. split_and!; auto; intros; lia.
  - destruct (Hall q eq_refl eq_refl) as (F1 & F2 & F3 & F4 & F5). exists q, next, error. split_and!; auto; intros; lia.
Qed.

(** ** Examples *)

Definition ex_pkt (id0 id1 c0 c1 : Z) : ip4_pkt :=
  mk_pkt ([0x45; 0; 0; 28; id0; id1; 0; 0; 64; 17; c0; c1; 10; 0; 0; 1; 10; 0; 0; 2] ++ repeat 0 40) 28 0 0 (0, 0, 0) (0, 0, 0) 0.

Ltac concrete_header :=
  split; [repeat (apply Forall_cons_2; [split; [discriminate|reflexivity]|]); apply Forall_nil_2|reflexivity|split; vm_compute; discriminate|vm_compute; reflexivity].

Definition ex_valid : ip4_pkt := ex_pkt 0 0 102 207.

Lemma ex_valid_ok : header_ok ex_valid.
Proof. concrete_header. Qed.

Lemma ttl_keeps_header_valid_witness :
  exists p' next' error', ip4_ttl_and_checksum_check ex_valid 7 IP4_ERROR_NONE = (p', next', error') /\ header_ok p' /\ ip_ttl p' = 63 /\ next' = 7 /\ pk_data (ip4_ttl_inc p') = pk_data ex_valid.
Proof.
  destruct (ttl_keeps_header_valid ex_valid 7 IP4_ERROR_NONE ex_valid_ok eq_refl) as (p' & next' & error' & E & H1 & H2 & _ & _ & H3 & _ & H4); [vm_compute; discriminate|].
  exists p', next', error'. split; [exact E|]. split; [exact H1|]. split; [exact H2|]. split; [now apply H3|now apply H4].
Defined.

(** With the checksum 0xfffe the header is valid, it is after the decrement, and it is
    not after the increment. *)
Lemma ttl_inc_breaks_checksum :
  header_ok (ex_pkt 103 207 0xfe 0xff) /\
  exists p', ip4_ttl_and_checksum_check (ex_pkt 103 207 0xfe 0xff) 7 IP4_ERROR_NONE = (p', 7, IP4_ERROR_NONE) /\ header_ok p' /\
    ip_ttl (ip4_ttl_inc p') = 64 /\ internet_checksum (header (ip4_ttl_inc p')) <> 0.
Proof.
  split; [concrete_header|]. eexists. split; [reflexivity|]. split; [concrete_header|]. split; [reflexivity|]. vm_compute. discriminate.
Qed.
