(* ===== verification/Ip4InputProps.v ===== *)
(** * Checks of received IPv4 headers: what passes

    Every packet with a fault is told from those without, the reported fault is there,
    and the checks of several packets at once are those of each. *)

From stdpp Require Import base list numbers.
From S2P Require Import Prelude NetTypes Packet IpCsum IpCsumSum IpCsumProps Ip4Input Ip4Rewrite.

(** ** Faults *)

(** What can be wrong with a packet, by the error that stands for it. *)
Inductive fault (verify_checksum : bool) (p : ip4_pkt) : Z -> Prop :=
| bad_version : Z.land (ip_version_and_header_length p) 0xf0 <> 0x40 -> fault verify_checksum p IP4_ERROR_VERSION
| header_too_short : Z.land (ip_version_and_header_length p) 0x0f < 5 -> fault verify_checksum p IP4_ERROR_HDR_TOO_SHORT
| has_options : 5 < Z.land (ip_version_and_header_length p) 0x0f -> fault verify_checksum p IP4_ERROR_OPTIONS
| wrong_checksum : verify_checksum = true -> internet_checksum (header p) <> 0 -> fault verify_checksum p IP4_ERROR_BAD_CHECKSUM
| expired : ip_ttl p < 1 -> fault verify_checksum p IP4_ERROR_TIME_EXPIRED
| fragment_one : ip4_get_fragment_offset p = 1 -> fault verify_checksum p IP4_ERROR_FRAGMENT_OFFSET_ONE
| packet_too_short : net_to_host_u16 (ip_length p) < 20 -> fault verify_checksum p IP4_ERROR_TOO_SHORT
| truncated : pk_length_in_chain p < net_to_host_u16 (ip_length p) -> fault verify_checksum p IP4_ERROR_BAD_LENGTH.

(** The buffer has room for the longest header. *)
Definition received (p : ip4_pkt) : Prop := bytes_ok (pk_data p) /\ (60 <= length (pk_data p))%nat /\ 0 <= pk_length_in_chain p < 2 ^ 31.

Lemma header_checksum vec known p : received p ->
  clib_ip_csum vec known (pk_data p) (Z.to_nat (ip4_header_bytes p)) = Some (internet_checksum (header p)).
Proof.
  intros (Hb & Hl & _). assert (0 <= Z.land (ip_version_and_header_length p) 0xf < 16) as Hr by (change 0xf with (Z.ones 4); rewrite Z.land_ones by lia; apply Z.mod_pos_bound; lia).
  assert (Z.to_nat (ip4_header_bytes p) <= 60)%nat by (unfold ip4_header_bytes; lia).
  apply csum_internet; auto; try lia. destruct vec; cbn; auto. rewrite length_take. lia.
Qed.

(** The first byte and its two parts. *)
Lemma version_byte b : is_u 8 b -> b = 0x45 <-> Z.land b 0xf0 = 0x40 /\ Z.land b 0x0f = 5.
Proof.
  intros Hb. split; [now intros ->|]. intros [H1 H2]. assert (b = Z.lor (Z.land b 0xf0) (Z.land b 0x0f)) as ->; [|now rewrite H1, H2].
  rewrite <- Z.land_lor_distr_r. change (Z.lor 240 15) with (Z.ones 8). rewrite Z.land_ones by lia. symmetry. now apply Z.mod_small.
Qed.

(** The first check. *)
Lemma check_ver_opt_csum_spec vec p verify : received p ->
  exists e, check_ver_opt_csum vec p IP4_ERROR_NONE verify = Some e /\ (e <> IP4_ERROR_NONE -> fault verify p e) /\
    (e = IP4_ERROR_NONE -> ip_version_and_header_length p = 0x45 /\ (verify = true -> internet_checksum (header p) = 0)).
Proof.
  intros Hp. pose proof Hp as (Hb & _ & _). assert (is_u 8 (ip_version_and_header_length p)) as Hv by now apply byte_range. pose proof (version_byte _ Hv) as Hver. unfold check_ver_opt_csum.
  destruct (Z.eqb_spec (ip_version_and_header_length p) 0x45) as [E|E]; cbn [negb].
  - destruct verify.
    + replace SIZEOF_IP4_HEADER with (ip4_header_bytes p) by (unfold ip4_header_bytes; rewrite E; reflexivity). rewrite (header_checksum vec true p Hp). cbn [mbind option_bind].
      eexists. split; [reflexivity|]. destruct (Z.eqb_spec (internet_checksum (header p)) 0); cbn [negb]; (split; [|auto]); [easy|intros _; now constructor|discriminate].
    + eexists. split; [reflexivity|]. split; [easy|]. intros _. now split.
  - destruct (Z.eqb_spec (Z.land (ip_version_and_header_length p) 0xf0) 0x40) as [E1|E1]; cbn [negb].
    + destruct (Z.ltb_spec (Z.land (ip_version_and_header_length p) 0x0f) 5); [eexists; split; [reflexivity|]; split; [now constructor|discriminate]|].
      assert (5 < Z.land (ip_version_and_header_length p) 0x0f) as H5 by (assert (Z.land (ip_version_and_header_length p) 15 <> 5) by tauto; lia). destruct verify.
      * rewrite (header_checksum vec false p Hp). cbn [mbind option_bind]. eexists. split; [reflexivity|].
        destruct (Z.eqb_spec (internet_checksum (header p)) 0); cbn [negb]; (split; [intros _; now constructor|discriminate]).
      * eexists. split; [reflexivity|]. split; [now constructor|discriminate].
    + eexists. split; [reflexivity|]. split; [now constructor|discriminate].
Qed.

Lemma length_difference a b : 0 <= a < 2 ^ 31 -> is_u 16 b -> i32 (u32 (a - b)) = a - b.
Proof. unfold i32, u32, is_u. intros Ha Hb. mod_lia. Qed.

(** C28: ip4-input finds faults: a packet of the right version, without options, with a
    right checksum (where it is verified), not expired, not the fragment at offset one,
    and neither shorter than a header nor truncated passes unchanged; any other packet
    gets an error whose fault it has, and is dropped, answered or sent to the options.
    Two or four packets at once are checked like one. *)
Theorem ip4_input_finds_faults vec verify p next : received p ->
  (exists e, ip4_input_check_x1 vec p next verify = Some (set_error p next e) /\
     (e = IP4_ERROR_NONE <-> forall e', ~ fault verify p e') /\ (e <> IP4_ERROR_NONE -> fault verify p e)) /\
  (forall p1 next1, ip4_input_check_x2 vec p p1 next next1 verify =
     (r ← ip4_input_check_x1 vec p next verify; r1 ← ip4_input_check_x1 vec p1 next1 verify; Some (r, r1))) /\
  (forall p1 p2 p3 next1 next2 next3, ip4_input_check_x4 vec p p1 p2 p3 next next1 next2 next3 verify =
     (r ← ip4_input_check_x1 vec p next verify; r1 ← ip4_input_check_x1 vec p1 next1 verify;
      r2 ← ip4_input_check_x1 vec p2 next2 verify; r3 ← ip4_input_check_x1 vec p3 next3 verify; Some [r; r1; r2; r3])).
Proof.
  intros Hp. split; [|split].
  - destruct (check_ver_opt_csum_spec vec p verify Hp) as (e0 & E & Hf & H0). unfold ip4_input_check_x1. cbv zeta. rewrite E. cbn [mbind option_bind]. eexists. split; [reflexivity|].
    rewrite length_difference by (apply Hp || apply net_to_host_u16_range). unfold SIZEOF_IP4_HEADER. cmp_cases; (split; [split; [intros He|intros Hno]|intros He]); try discriminate He; try (constructor; lia); try lia; auto;
      try (exfalso; eapply Hno; constructor; lia).
    + intros e'. destruct (H0 He) as [Hv Hc]. intros [Hx|Hx|Hx|Hx1 Hx2|Hx|Hx|Hx|Hx]; try (rewrite Hv in Hx; cbv in Hx); try discriminate Hx; try lia; auto.
    + destruct (Z.eq_dec e0 IP4_ERROR_NONE) as [->|Hne]; [reflexivity|]. destruct (Hno e0 (Hf Hne)).
  - intros p1 next1. unfold ip4_input_check_x2, ip4_input_check_x1. cbv zeta. destruct (check_ver_opt_csum vec p _ verify) as [e|]; [|reflexivity]. cbn [mbind option_bind].
    destruct (check_ver_opt_csum vec p1 _ verify) as [e1|]; reflexivity.
  - intros p1 p2 p3 next1 next2 next3. unfold ip4_input_check_x4, ip4_input_check_x1. cbv zeta. destruct (check_ver_opt_csum vec p _ verify) as [e|]; [|reflexivity]. cbn [mbind option_bind].
    destruct (check_ver_opt_csum vec p1 _ verify) as [e1|]; [|reflexivity]. cbn [mbind option_bind]. destruct (check_ver_opt_csum vec p2 _ verify) as [e2|]; [|reflexivity]. cbn [mbind option_bind].
    destruct (check_ver_opt_csum vec p3 _ verify) as [e3|]; reflexivity.
Qed.

(** ** Examples *)

Lemma ex_received : received ex_valid.
Proof. split; [apply ex_valid_ok|]. split; [cbn; lia|]. cbn. lia. Qed.

Lemma ip4_input_finds_faults_witness :
  ip4_input_check_x1 VEC128 ex_valid IP4_INPUT_NEXT_LOOKUP true = Some (ex_valid, IP4_INPUT_NEXT_LOOKUP) /\ forall e, ~ fault true ex_valid e.
Proof.
  destruct (ip4_input_finds_faults VEC128 true ex_valid IP4_INPUT_NEXT_LOOKUP ex_received) as [(e & E & H & _) _].
  assert (ip4_input_check_x1 VEC128 ex_valid IP4_INPUT_NEXT_LOOKUP true = Some (ex_valid, IP4_INPUT_NEXT_LOOKUP)) as E' by (vm_compute; reflexivity).
  split; [exact E'|]. apply H. destruct (Z.eq_dec e IP4_ERROR_NONE) as [|Hne]; [assumption|]. rewrite E in E'. unfold set_error in E'. rewrite (proj2 (Z.eqb_neq _ _) Hne) in E'. cbn [negb] in E'.
  destruct (e =? IP4_ERROR_TIME_EXPIRED); [discriminate|]. injection E' as _ E'. now destruct (negb (e =? IP4_ERROR_OPTIONS)).
Defined.

(** An expired packet with a wrong checksum is answered. *)
Lemma corrupt_packet_answered :
  let p := store_ttl ex_valid 0 in
  internet_checksum (header p) <> 0 /\ snd <$> ip4_input_check_x1 VEC128 p IP4_INPUT_NEXT_LOOKUP true = Some IP4_INPUT_NEXT_ICMP_ERROR.
Proof. split; [vm_compute; discriminate|vm_compute; reflexivity]. Qed.
