(* ===== verification/FlowHash.v ===== *)
(** * Flow hashes of IPv4 packets (src/vnet/ip/ip4_inlines.h, ip_flow_hash.h)

    The hash by which a packet is given one of several paths.  The options of the
    load-balance say which fields it depends on.  A packet is what the function
    reads of it: the addresses and ports as they stand in memory. *)

From stdpp Require Import base numbers.
From S2P Require Import Prelude.

(** ** Options *)

Definition IP_FLOW_HASH_SRC_ADDR : Z := Z.shiftl 1 0.
Definition IP_FLOW_HASH_DST_ADDR : Z := Z.shiftl 1 1.
Definition IP_FLOW_HASH_SRC_PORT : Z := Z.shiftl 1 2.
Definition IP_FLOW_HASH_DST_PORT : Z := Z.shiftl 1 3.
Definition IP_FLOW_HASH_PROTO : Z := Z.shiftl 1 4.
Definition IP_FLOW_HASH_REVERSE_SRC_DST : Z := Z.shiftl 1 5.
Definition IP_FLOW_HASH_SYMMETRIC : Z := Z.shiftl 1 6.
Definition IP_FLOW_HASH_FL : Z := Z.shiftl 1 7.
Definition IP_FLOW_HASH_GTPV1_TEID : Z := Z.shiftl 1 8.

Definition GTPV1_PORT_BE : Z := 0x6808.
Definition IP_PROTOCOL_TCP : Z := 6.
Definition IP_PROTOCOL_UDP : Z := 17.

(** [flow_hash_config & flag]. *)
Definition hashes (config flag : Z) : bool := negb (Z.land config flag =? 0).

(** ** Packets *)

(** The IP header, the ports at the place they have in TCP and UDP, and the tunnel
    identifier at the place it has behind a UDP header. *)
Record ip4_flow := mk_flow {
  ip_src : Z;
  ip_dst : Z;
  ip_protocol : Z;
  l4_src : Z;
  l4_dst : Z;
  gtpu_teid : Z
}.

#[export] Instance flow_eta : Eta ip4_flow := fun p => mk_flow (ip_src p) (ip_dst p) (ip_protocol p) (l4_src p) (l4_dst p) (gtpu_teid p).

Definition flow_ok (p : ip4_flow) : Prop :=
  is_u 32 (ip_src p) /\ is_u 32 (ip_dst p) /\ is_u 8 (ip_protocol p) /\ is_u 16 (l4_src p) /\ is_u 16 (l4_dst p) /\ is_u 32 (gtpu_teid p).

(** ** Mixing *)

Definition hash32_rotate_left (x i : Z) : Z := Z.lor (u32 (Z.shiftl x i)) (Z.shiftr x (32 - i)).

(** [x -= z; x ^= rotate (z, i); z += y]. *)
Definition mix_step (x y z i : Z) : Z * Z := (Z.lxor (u32 (x - z)) (hash32_rotate_left z i), u32 (z + y)).

Definition hash_v3_mix32 (v : Z * Z * Z) : Z * Z * Z :=
  let '(a, b, c) := v in
  let '(a, c) := mix_step a b c 4 in
  let '(b, a) := mix_step b c a 6 in
  let '(c, b) := mix_step c a b 8 in
  let '(a, c) := mix_step a b c 16 in
  let '(b, a) := mix_step b c a 19 in
  let '(c, b) := mix_step c a b 4 in
  (a, b, c).

(** [x ^= y; x -= rotate (y, i)]. *)
Definition final_step (x y i : Z) : Z := u32 (Z.lxor x y - hash32_rotate_left y i).

Definition hash_v3_finalize32 (v : Z * Z * Z) : Z * Z * Z :=
  let '(a, b, c) := v in
  let c := final_step c b 14 in
  let a := final_step a c 11 in
  let b := final_step b a 25 in
  let c := final_step c b 16 in
  let a := final_step a c 4 in
  let b := final_step b a 14 in
  let c := final_step c b 24 in
  (a, b, c).

(** ** The hash *)

Section Hash.
(** [ip_flow_hash_router_id]. *)
Variable router_id : Z.

(** The smaller address and the smaller port first. *)
Definition order_ends (a b t1 t2 : Z) : Z * Z * Z * Z :=
  let '(a, b) := if b <? a then (b, a) else (a, b) in
  let '(t1, t2) :=
    if t2 <? t1 then
      let t2 := u32 (t2 + t1) in
      let t1 := u32 (t2 - t1) in
      let t2 := u32 (t2 - t1) in
      (t1, t2)
    else (t1, t2) in
  (a, b, t1, t2).

Definition ip4_compute_flow_hash (ip : ip4_flow) (config : Z) : Z :=
  let is_udp := ip_protocol ip =? IP_PROTOCOL_UDP in
  let is_tcp_udp := (ip_protocol ip =? IP_PROTOCOL_TCP) || is_udp in
  let t1 := if hashes config IP_FLOW_HASH_SRC_ADDR then ip_src ip else 0 in
  let t2 := if hashes config IP_FLOW_HASH_DST_ADDR then ip_dst ip else 0 in
  let a := if hashes config IP_FLOW_HASH_REVERSE_SRC_DST then t2 else t1 in
  let b := if hashes config IP_FLOW_HASH_REVERSE_SRC_DST then t1 else t2 in
  let t1 := if is_tcp_udp then l4_src ip else 0 in
  let t2 := if is_tcp_udp then l4_dst ip else 0 in
  let t1 := if hashes config IP_FLOW_HASH_SRC_PORT then t1 else 0 in
  let t2 := if hashes config IP_FLOW_HASH_DST_PORT then t2 else 0 in
  let '(a, b, t1, t2) := if hashes config IP_FLOW_HASH_SYMMETRIC then order_ends a b t1 t2 else (a, b, t1, t2) in
  let b := Z.lxor b (if hashes config IP_FLOW_HASH_PROTO then ip_protocol ip else 0) in
  let c :=
    if hashes config IP_FLOW_HASH_REVERSE_SRC_DST then Z.lor (u32 (Z.shiftl t1 16)) t2
    else Z.lor (u32 (Z.shiftl t2 16)) t1 in
  let c :=
    if is_udp && (hashes config IP_FLOW_HASH_GTPV1_TEID && (l4_dst ip =? GTPV1_PORT_BE)) then Z.lxor c (gtpu_teid ip)
    else c in
  let a := Z.lxor a router_id in
  let '(_, _, c) := hash_v3_finalize32 (hash_v3_mix32 (a, b, c)) in
  c.

(** ** Properties *)

Lemma finalize_range v : is_u 32 (snd (hash_v3_finalize32 v)).
Proof. destruct v as [[a b] c]. unfold hash_v3_finalize32. cbv zeta. cbn [snd]. apply u32_range. Qed.

Lemma flow_hash_range ip config : is_u 32 (ip4_compute_flow_hash ip config).
Proof.
  unfold ip4_compute_flow_hash. cbv zeta. destruct (if hashes config IP_FLOW_HASH_SYMMETRIC then _ else _) as [[[a b] t1] t2].
  set (v := hash_v3_mix32 _). pose proof (finalize_range v) as H. now destruct (hash_v3_finalize32 v) as [[x y] z].
Qed.

(** The packet of the other direction. *)
Definition swap_ends (p : ip4_flow) : ip4_flow :=
  p <| ip_src := ip_dst p |> <| ip_dst := ip_src p |> <| l4_src := l4_dst p |> <| l4_dst := l4_src p |>.

(** The three assignments exchange the ports. *)
Lemma swap_by_sum x y : is_u 16 x -> is_u 16 y -> u32 (u32 (x + y) - y) = x /\ u32 (u32 (x + y) - x) = y.
Proof. unfold is_u, u32. intros Hx Hy. split; mod_lia. Qed.

(** Sources and destinations count alike, and tunnels do not. *)
Definition even_handed (config : Z) : Prop :=
  hashes config IP_FLOW_HASH_SRC_ADDR = hashes config IP_FLOW_HASH_DST_ADDR /\
  hashes config IP_FLOW_HASH_SRC_PORT = hashes config IP_FLOW_HASH_DST_PORT /\
  hashes config IP_FLOW_HASH_GTPV1_TEID = false.

Lemma order_ends_swap a b t1 t2 : is_u 16 t1 -> is_u 16 t2 -> order_ends b a t2 t1 = order_ends a b t1 t2.
Proof.
  intros H1 H2. unfold order_ends. cbv zeta. destruct (swap_by_sum t2 t1 H2 H1) as [E1 E2]. destruct (swap_by_sum t1 t2 H1 H2) as [E3 E4].
  rewrite E1, E2, E3, E4. assert (forall x y : Z, (if y <? x then (y, x) else (x, y)) = (if x <? y then (x, y) else (y, x))) as Hc.
  { intros x y. destruct (Z.ltb_spec x y), (Z.ltb_spec y x); try lia; [reflexivity..|]. now assert (x = y) as -> by lia. }
  now rewrite (Hc b a), (Hc t2 t1).
Qed.

Lemma port_range (counts flag : bool) x : is_u 16 x -> is_u 16 (if flag then (if counts then x else 0) else 0).
Proof. intros H. destruct flag, counts; unfold is_u in *; lia. Qed.

Lemma hashes_lor config x flag : Z.land x flag = 0 -> hashes (Z.lor config x) flag = hashes config flag.
Proof. intros H. unfold hashes. now rewrite Z.land_lor_distr_l, H, Z.lor_0_r. Qed.

(** C30: with the symmetric option, both directions of a flow have the same hash;
    with the reverse option, a packet has the hash that the packet of the other
    direction has without.  Sources and destinations are hashed alike and tunnel
    identifiers are not.  The hash is a 32-bit number. *)
Theorem flow_hash_directions p config : flow_ok p -> even_handed config ->
  is_u 32 (ip4_compute_flow_hash p config) /\
  (hashes config IP_FLOW_HASH_SYMMETRIC = true -> ip4_compute_flow_hash (swap_ends p) config = ip4_compute_flow_hash p config) /\
  (hashes config IP_FLOW_HASH_REVERSE_SRC_DST = false -> hashes config IP_FLOW_HASH_SYMMETRIC = false ->
   ip4_compute_flow_hash p (Z.lor config IP_FLOW_HASH_REVERSE_SRC_DST) = ip4_compute_flow_hash (swap_ends p) config).
Proof.
  intros (_ & _ & _ & Hs & Hd & _) (E1 & E2 & E3). split; [apply flow_hash_range|]. destruct p as [src dst proto sp dp teid].
  change (swap_ends (mk_flow src dst proto sp dp teid)) with (mk_flow dst src proto dp sp teid). cbn [l4_src l4_dst] in Hs, Hd.
  unfold ip4_compute_flow_hash. cbv zeta. cbn [ip_src ip_dst ip_protocol l4_src l4_dst gtpu_teid]. split.
  - intros Hsym. rewrite Hsym, E1, E2, E3. cbn [andb]. rewrite !andb_false_r.
    match goal with |- context [order_ends ?a ?b ?t1 ?t2] => rewrite (order_ends_swap b a t2 t1) by auto using port_range end.
    destruct (hashes config IP_FLOW_HASH_REVERSE_SRC_DST); reflexivity.
  - intros Hrev Hsym. pose proof (fun flag => hashes_lor config IP_FLOW_HASH_REVERSE_SRC_DST flag) as Hl.
    rewrite (Hl IP_FLOW_HASH_SRC_ADDR), (Hl IP_FLOW_HASH_DST_ADDR), (Hl IP_FLOW_HASH_SRC_PORT), (Hl IP_FLOW_HASH_DST_PORT), (Hl IP_FLOW_HASH_PROTO),
      (Hl IP_FLOW_HASH_SYMMETRIC), (Hl IP_FLOW_HASH_GTPV1_TEID) by reflexivity.
    rewrite Hrev, Hsym, E1, E2, E3. cbn [andb]. rewrite !andb_false_r.
    assert (hashes (Z.lor config IP_FLOW_HASH_REVERSE_SRC_DST) IP_FLOW_HASH_REVERSE_SRC_DST = true) as ->; [|reflexivity].
    unfold hashes. rewrite Z.land_lor_distr_l. apply negb_true_iff, Z.eqb_neq. intros [_ H]%Z.lor_eq_0_iff. discriminate H.
Qed.

End Hash.

Definition ex_flow : ip4_flow := mk_flow 0x0100000a 0x0200000a IP_PROTOCOL_UDP 0x1234 0x3500 0.

Lemma flow_hash_directions_witness :
  ip4_compute_flow_hash 0 (swap_ends ex_flow) 0x5f = ip4_compute_flow_hash 0 ex_flow 0x5f /\
  ip4_compute_flow_hash 0 (swap_ends ex_flow) 0x1f <> ip4_compute_flow_hash 0 ex_flow 0x1f /\
  ip4_compute_flow_hash 0 ex_flow (Z.lor 0x1f IP_FLOW_HASH_REVERSE_SRC_DST) = ip4_compute_flow_hash 0 (swap_ends ex_flow) 0x1f.
Proof.
  assert (flow_ok ex_flow) as Hf by (repeat split; vm_compute; reflexivity || discriminate).
  destruct (flow_hash_directions 0 ex_flow 0x5f Hf) as (_ & H1 & _); [now repeat split|].
  destruct (flow_hash_directions 0 ex_flow 0x1f Hf) as (_ & _ & H2); [now repeat split|].
  split; [exact (H1 eq_refl)|]. split; [vm_compute; discriminate|exact (H2 eq_refl eq_refl)].
Defined.
