(* ===== verification/Ip4Lookup.v ===== *)
(** * IPv4 lookup and load-balance nodes (src/vnet/ip/ip4_forward.h, ip4_forward.c)

    ip4-lookup finds the load-balance of the destination of each packet in the
    table of its interface, and chooses one of its buckets by the flow hash;
    ip4-load-balance chooses a bucket of the load-balance that an earlier node
    chose.  Both work on a frame of packets, several at a time: four, two or one,
    as the machine prefetches.

    A buffer is its packet and the metadata the nodes use.  The buffers of a frame
    are distinct.  The result [None] is an access outside of a vector, a pool or a
    table.  Counters are those of one thread; they are allocated with the
    load-balance.  Prefetches, traces and the enqueueing of the buffers to the
    chosen nodes are not modelled. *)

From stdpp Require Import gmap.
From S2P Require Import Prelude Pool Dpo Mtrie LoadBalanceMap LoadBalance LbPool FlowHash.

(** ** Buffers, tables and counters *)

Record ip4_buffer := mk_buf {
  b_ip : ip4_flow;
  sw_if_index_rx : Z;
  sw_if_index_tx : Z;
  ip_fib_index : Z;
  ip_flow_hash : Z;
  adj_index_tx : Z;
  length_in_chain : Z
}.

#[export] Instance buf_eta : Eta ip4_buffer :=
  fun b => mk_buf (b_ip b) (sw_if_index_rx b) (sw_if_index_tx b) (ip_fib_index b) (ip_flow_hash b) (adj_index_tx b) (length_in_chain b).

(** The forwarding tables by index; all are of the variant the build chooses. *)
Inductive ip4_fibs := Fibs16 (fibs : gmap Z ip4_mtrie_16_ply_t) | Fibs8 (fibs : gmap Z Z).

Abbreviation counters := (gmap Z (Z * Z)).

Definition counter_of (cs : counters) (i : Z) : Z * Z := default (0, 0) (cs !! i).

Definition vlib_increment_combined_counter (cs : counters) (index n_packets n_bytes : Z) : counters :=
  let '(packets, bytes) := counter_of cs index in <[index := (u64 (packets + n_packets), u64 (bytes + n_bytes))]> cs.

(** How many packets the loop takes at once. *)
Inductive unroll := By4 | By2 | By1.

(** ** Lookup in the tables *)

Section Lookups.
Variables (fibs : ip4_fibs) (ps : plies).

Definition ip4_fib_forwarding_lookup (fib_index addr : Z) : option Z :=
  match fibs with
  | Fibs16 f => m ← f !! fib_index; ip4_fib_forwarding_lookup_16 m ps addr
  | Fibs8 f => m ← f !! fib_index; ip4_fib_forwarding_lookup_8 m ps addr
  end.

Definition ip4_fib_forwarding_lookup_x2 (fib_index0 fib_index1 addr0 addr1 : Z) : option (Z * Z) :=
  match fibs with
  | Fibs16 f => m0 ← f !! fib_index0; m1 ← f !! fib_index1; ip4_fib_forwarding_lookup_x2_16 m0 m1 ps addr0 addr1
  | Fibs8 f => m0 ← f !! fib_index0; m1 ← f !! fib_index1; ip4_fib_forwarding_lookup_x2_8 m0 m1 ps addr0 addr1
  end.

Definition ip4_fib_forwarding_lookup_x4 (fib_index0 fib_index1 fib_index2 fib_index3 addr0 addr1 addr2 addr3 : Z) : option (Z * Z * Z * Z) :=
  match fibs with
  | Fibs16 f =>
      m0 ← f !! fib_index0; m1 ← f !! fib_index1; m2 ← f !! fib_index2; m3 ← f !! fib_index3;
      ip4_fib_forwarding_lookup_x4_16 m0 m1 m2 m3 ps addr0 addr1 addr2 addr3
  | Fibs8 f =>
      m0 ← f !! fib_index0; m1 ← f !! fib_index1; m2 ← f !! fib_index2; m3 ← f !! fib_index3;
      ip4_fib_forwarding_lookup_x4_8 m0 m1 m2 m3 ps addr0 addr1 addr2 addr3
  end.

End Lookups.

(** ** The nodes *)

Section Nodes.
Variable fib_index_by_sw_if_index : list Z.
Variables (fibs : ip4_fibs) (ps : plies) (w : lb_world) (router_id : Z).

Definition ip_lookup_set_buffer_fib_index (b : ip4_buffer) : option ip4_buffer :=
  fib_index ← vec_elt fib_index_by_sw_if_index (sw_if_index_rx b);
  let b := b <| ip_fib_index := fib_index |> in
  Some (b <| ip_fib_index := if sw_if_index_tx b =? Z.ones 32 then ip_fib_index b else sw_if_index_tx b |>).

(** The flow hash and the bucket of a packet in the lookup node. *)
Definition choose_bucket (lb : load_balance_t) (b : ip4_buffer) : option (dpo_id_t * ip4_buffer) :=
  if 1 <? lb_n_buckets lb then
    let hash_c := ip4_compute_flow_hash router_id (b_ip b) (lb_hash_config lb) in
    let b := b <| ip_flow_hash := hash_c |> in
    dpo ← load_balance_get_fwd_bucket (w_maps w) lb (Z.land hash_c (lb_n_buckets_minus_1 lb));
    Some (dpo, b)
  else
    dpo ← load_balance_get_bucket_i lb 0;
    Some (dpo, b).

(** The same in the load-balance node, which uses the hash of an earlier node. *)
Definition rechoose_bucket (lb : load_balance_t) (b : ip4_buffer) : option (dpo_id_t * ip4_buffer) :=
  if 1 <? lb_n_buckets lb then
    let hc :=
      if negb (ip_flow_hash b =? 0) then Z.shiftr (ip_flow_hash b) 1
      else ip4_compute_flow_hash router_id (b_ip b) (lb_hash_config lb) in
    let b := b <| ip_flow_hash := hc |> in
    dpo ← load_balance_get_fwd_bucket (w_maps w) lb (Z.land hc (lb_n_buckets_minus_1 lb));
    Some (dpo, b)
  else
    dpo ← load_balance_get_bucket_i lb 0;
    Some (dpo, b).

(** What a loop leaves: the buffers and their next nodes, in order, and the
    counters. *)
Definition node_result : Type := list (ip4_buffer * Z) * counters.

Definition lookup_1 (b0 : ip4_buffer) (cs : counters) : option (ip4_buffer * Z * counters) :=
  b0 ← ip_lookup_set_buffer_fib_index b0;
  lbi0 ← ip4_fib_forwarding_lookup fibs ps (ip_fib_index b0) (ip_dst (b_ip b0));
  lb0 ← load_balance_get w lbi0;
  let b0 := b0 <| ip_flow_hash := 0 |> in
  '(dpo0, b0) ← choose_bucket lb0 b0;
  let next0 := dpoi_next_node dpo0 in
  let b0 := b0 <| adj_index_tx := dpoi_index dpo0 |> in
  let cs := vlib_increment_combined_counter cs lbi0 1 (length_in_chain b0) in
  Some (b0, next0, cs).

Definition lookup_2 (b0 b1 : ip4_buffer) (cs : counters) : option (list (ip4_buffer * Z) * counters) :=
  b0 ← ip_lookup_set_buffer_fib_index b0;
  b1 ← ip_lookup_set_buffer_fib_index b1;
  '(lbi0, lbi1) ← ip4_fib_forwarding_lookup_x2 fibs ps (ip_fib_index b0) (ip_fib_index b1) (ip_dst (b_ip b0)) (ip_dst (b_ip b1));
  lb0 ← load_balance_get w lbi0;
  lb1 ← load_balance_get w lbi1;
  let b0 := b0 <| ip_flow_hash := 0 |> in
  let b1 := b1 <| ip_flow_hash := 0 |> in
  '(dpo0, b0) ← choose_bucket lb0 b0;
  '(dpo1, b1) ← choose_bucket lb1 b1;
  let next0 := dpoi_next_node dpo0 in
  let b0 := b0 <| adj_index_tx := dpoi_index dpo0 |> in
  let next1 := dpoi_next_node dpo1 in
  let b1 := b1 <| adj_index_tx := dpoi_index dpo1 |> in
  let cs := vlib_increment_combined_counter cs lbi0 1 (length_in_chain b0) in
  let cs := vlib_increment_combined_counter cs lbi1 1 (length_in_chain b1) in
  Some ([(b0, next0); (b1, next1)], cs).

Definition lookup_4 (b0 b1 b2 b3 : ip4_buffer) (cs : counters) : option (list (ip4_buffer * Z) * counters) :=
  b0 ← ip_lookup_set_buffer_fib_index b0;
  b1 ← ip_lookup_set_buffer_fib_index b1;
  b2 ← ip_lookup_set_buffer_fib_index b2;
  b3 ← ip_lookup_set_buffer_fib_index b3;
  '(lbi0, lbi1, lbi2, lbi3) ← ip4_fib_forwarding_lookup_x4 fibs ps (ip_fib_index b0) (ip_fib_index b1) (ip_fib_index b2) (ip_fib_index b3)
                               (ip_dst (b_ip b0)) (ip_dst (b_ip b1)) (ip_dst (b_ip b2)) (ip_dst (b_ip b3));
  lb0 ← load_balance_get w lbi0;
  lb1 ← load_balance_get w lbi1;
  lb2 ← load_balance_get w lbi2;
  lb3 ← load_balance_get w lbi3;
  let b0 := b0 <| ip_flow_hash := 0 |> in
  let b1 := b1 <| ip_flow_hash := 0 |> in
  let b2 := b2 <| ip_flow_hash := 0 |> in
  let b3 := b3 <| ip_flow_hash := 0 |> in
  '(dpo0, b0) ← choose_bucket lb0 b0;
  '(dpo1, b1) ← choose_bucket lb1 b1;
  '(dpo2, b2) ← choose_bucket lb2 b2;
  '(dpo3, b3) ← choose_bucket lb3 b3;
  let next0 := dpoi_next_node dpo0 in
  let b0 := b0 <| adj_index_tx := dpoi_index dpo0 |> in
  let next1 := dpoi_next_node dpo1 in
  let b1 := b1 <| adj_index_tx := dpoi_index dpo1 |> in
  let next2 := dpoi_next_node dpo2 in
  let b2 := b2 <| adj_index_tx := dpoi_index dpo2 |> in
  let next3 := dpoi_next_node dpo3 in
  let b3 := b3 <| adj_index_tx := dpoi_index dpo3 |> in
  let cs := vlib_increment_combined_counter cs lbi0 1 (length_in_chain b0) in
  let cs := vlib_increment_combined_counter cs lbi1 1 (length_in_chain b1) in
  let cs := vlib_increment_combined_counter cs lbi2 1 (length_in_chain b2) in
  let cs := vlib_increment_combined_counter cs lbi3 1 (length_in_chain b3) in
  Some ([(b0, next0); (b1, next1); (b2, next2); (b3, next3)], cs).

Definition load_balance_1 (b0 : ip4_buffer) (cs : counters) : option (ip4_buffer * Z * counters) :=
  let lbi0 := adj_index_tx b0 in
  lb0 ← load_balance_get w lbi0;
  '(dpo0, b0) ← rechoose_bucket lb0 b0;
  let next0 := dpoi_next_node dpo0 in
  let b0 := b0 <| adj_index_tx := dpoi_index dpo0 |> in
  let cs := vlib_increment_combined_counter cs lbi0 1 (length_in_chain b0) in
  Some (b0, next0, cs).

Definition load_balance_2 (b0 b1 : ip4_buffer) (cs : counters) : option (list (ip4_buffer * Z) * counters) :=
  let lbi0 := adj_index_tx b0 in
  let lbi1 := adj_index_tx b1 in
  lb0 ← load_balance_get w lbi0;
  lb1 ← load_balance_get w lbi1;
  '(dpo0, b0) ← rechoose_bucket lb0 b0;
  '(dpo1, b1) ← rechoose_bucket lb1 b1;
  let next0 := dpoi_next_node dpo0 in
  let next1 := dpoi_next_node dpo1 in
  let b0 := b0 <| adj_index_tx := dpoi_index dpo0 |> in
  let b1 := b1 <| adj_index_tx := dpoi_index dpo1 |> in
  let cs := vlib_increment_combined_counter cs lbi0 1 (length_in_chain b0) in
  let cs := vlib_increment_combined_counter cs lbi1 1 (length_in_chain b1) in
  Some ([(b0, next0); (b1, next1)], cs).

(** The loop that takes one packet at a time: what each of the nodes means. *)
Fixpoint one_by_one (body : ip4_buffer -> counters -> option (ip4_buffer * Z * counters)) (bufs : list ip4_buffer) (cs : counters) : option node_result :=
  match bufs with
  | [] => Some ([], cs)
  | b :: bufs =>
      '(b, next, cs) ← body b cs;
      '(out, cs) ← one_by_one body bufs cs;
      Some ((b, next) :: out, cs)
  end.

(** Four packets while there are at least four. *)
Fixpoint lookup_by_4 (bufs : list ip4_buffer) (cs : counters) : option node_result :=
  match bufs with
  | b0 :: b1 :: b2 :: b3 :: bufs =>
      '(out4, cs) ← lookup_4 b0 b1 b2 b3 cs;
      '(out, cs) ← lookup_by_4 bufs cs;
      Some (out4 ++ out, cs)
  | _ => one_by_one lookup_1 bufs cs
  end.

(** Two packets while there are at least four. *)
Fixpoint by_2 (body2 : ip4_buffer -> ip4_buffer -> counters -> option (list (ip4_buffer * Z) * counters))
    (body : ip4_buffer -> counters -> option (ip4_buffer * Z * counters)) (bufs : list ip4_buffer) (cs : counters) : option node_result :=
  match bufs with
  | b0 :: b1 :: ((_ :: _ :: _) as bufs) =>
      '(out2, cs) ← body2 b0 b1 cs;
      '(out, cs) ← by_2 body2 body bufs cs;
      Some (out2 ++ out, cs)
  | _ => one_by_one body bufs cs
  end.

Definition ip4_lookup_inline (u : unroll) (bufs : list ip4_buffer) (cs : counters) : option node_result :=
  match u with
  | By4 => lookup_by_4 bufs cs
  | By2 => by_2 lookup_2 lookup_1 bufs cs
  | By1 => one_by_one lookup_1 bufs cs
  end.

Definition ip4_load_balance_node (bufs : list ip4_buffer) (cs : counters) : option node_result :=
  by_2 load_balance_2 load_balance_1 bufs cs.

End Nodes.
