(* ===== verification/Ip4LookupBatch.v ===== *)
(** * IPv4 lookup nodes: several packets at once

    The loops over four or two packets do to each of them what the loop over one
    does. *)

From stdpp Require Import gmap.
From S2P Require Import Prelude Pool Dpo Mtrie LoadBalanceMap LoadBalance LbPool FlowHash Ip4Lookup.

(** ** Several packets at once *)

(** Two sequences of reads agree when both succeed with the same results. *)
Lemma same_results {A} (x y : option A) : (forall a, x = Some a -> y = Some a) -> (forall a, y = Some a -> x = Some a) -> x = y.
Proof. intros H1 H2. destruct x as [a|]; [now rewrite (H1 a)|]. destruct y as [a|]; [now rewrite (H2 a)|reflexivity]. Qed.

Lemma lookup_x2_split fibs ps f0 f1 a0 a1 :
  ip4_fib_forwarding_lookup_x2 fibs ps f0 f1 a0 a1 =
  (l0 ← ip4_fib_forwarding_lookup fibs ps f0 a0; l1 ← ip4_fib_forwarding_lookup fibs ps f1 a1; Some (l0, l1)).
Proof.
  apply same_results; intros [r0 r1]; unfold ip4_fib_forwarding_lookup_x2, ip4_fib_forwarding_lookup; destruct fibs;
    unfold ip4_fib_forwarding_lookup_x2_16, ip4_fib_forwarding_lookup_16, ip4_fib_forwarding_lookup_x2_8, ip4_fib_forwarding_lookup_8; cbv zeta;
    intros H; repeat (simplify_option_eq; eauto).
Qed.

Lemma lookup_x4_split fibs ps f0 f1 f2 f3 a0 a1 a2 a3 :
  ip4_fib_forwarding_lookup_x4 fibs ps f0 f1 f2 f3 a0 a1 a2 a3 =
  (l0 ← ip4_fib_forwarding_lookup fibs ps f0 a0; l1 ← ip4_fib_forwarding_lookup fibs ps f1 a1;
   l2 ← ip4_fib_forwarding_lookup fibs ps f2 a2; l3 ← ip4_fib_forwarding_lookup fibs ps f3 a3; Some (l0, l1, l2, l3)).
Proof.
  apply same_results; intros [[[r0 r1] r2] r3]; unfold ip4_fib_forwarding_lookup_x4, ip4_fib_forwarding_lookup; destruct fibs;
    unfold ip4_fib_forwarding_lookup_x4_16, ip4_fib_forwarding_lookup_16, ip4_fib_forwarding_lookup_x4_8, ip4_fib_forwarding_lookup_8; cbv zeta;
    intros H; repeat (simplify_option_eq; eauto).
Qed.

Section Batches.
Variable fib_index_by_sw_if_index : list Z.
Variables (fibs : ip4_fibs) (ps : plies) (w : lb_world) (router_id : Z).

(** All that the lookup node does with a packet but for counting it. *)
Definition forward (b : ip4_buffer) : option (ip4_buffer * Z * Z) :=
  b ← ip_lookup_set_buffer_fib_index fib_index_by_sw_if_index b;
  lbi ← ip4_fib_forwarding_lookup fibs ps (ip_fib_index b) (ip_dst (b_ip b));
  lb ← load_balance_get w lbi;
  '(dpo, b) ← choose_bucket w router_id lb (b <| ip_flow_hash := 0 |>);
  Some (b <| adj_index_tx := dpoi_index dpo |>, dpoi_next_node dpo, lbi).

Definition rebalance (b : ip4_buffer) : option (ip4_buffer * Z * Z) :=
  lb ← load_balance_get w (adj_index_tx b);
  '(dpo, b') ← rechoose_bucket w router_id lb b;
  Some (b' <| adj_index_tx := dpoi_index dpo |>, dpoi_next_node dpo, adj_index_tx b).

(** A packet through [f], and counted. *)
Definition counting (f : ip4_buffer -> option (ip4_buffer * Z * Z)) (b : ip4_buffer) (cs : counters) : option (ip4_buffer * Z * counters) :=
  '(b, next, lbi) ← f b; Some (b, next, vlib_increment_combined_counter cs lbi 1 (length_in_chain b)).

Abbreviation lookup1 := (lookup_1 fib_index_by_sw_if_index fibs ps w router_id).

Lemma lookup_1_counting b cs : lookup1 b cs = counting forward b cs.
Proof.
  unfold lookup_1, counting, forward. destruct (ip_lookup_set_buffer_fib_index _ b) as [b0|]; [|reflexivity]. cbn [mbind option_bind].
  destruct (ip4_fib_forwarding_lookup _ _ _ _) as [lbi|]; [|reflexivity]. cbn [mbind option_bind].
  destruct (load_balance_get _ _) as [lb|]; [|reflexivity]. cbn [mbind option_bind].
  destruct (choose_bucket _ _ _ _) as [[dpo b1]|]; reflexivity.
Qed.

Lemma load_balance_1_counting b cs : load_balance_1 w router_id b cs = counting rebalance b cs.
Proof.
  unfold load_balance_1, counting, rebalance. cbv zeta. destruct (load_balance_get _ _) as [lb|]; [|reflexivity]. cbn [mbind option_bind].
  destruct (rechoose_bucket _ _ _ _) as [[dpo b1]|]; reflexivity.
Qed.

#[local] Ltac stages := repeat (simplify_option_eq || case_match || rewrite lookup_x2_split in * || rewrite lookup_x4_split in *); try reflexivity; eauto.

Lemma lookup_2_split b0 b1 cs : lookup_2 fib_index_by_sw_if_index fibs ps w router_id b0 b1 cs = one_by_one lookup1 [b0; b1] cs.
Proof. cbn [one_by_one]. apply same_results; intros [out cs']; unfold lookup_2, lookup_1; intros H; stages. Qed.

Lemma load_balance_2_split b0 b1 cs : load_balance_2 w router_id b0 b1 cs = one_by_one (load_balance_1 w router_id) [b0; b1] cs.
Proof. cbn [one_by_one]. apply same_results; intros [out cs']; unfold load_balance_2, load_balance_1; intros H; stages. Qed.

Lemma lookup_4_split b0 b1 b2 b3 cs : lookup_4 fib_index_by_sw_if_index fibs ps w router_id b0 b1 b2 b3 cs = one_by_one lookup1 [b0; b1; b2; b3] cs.
Proof. cbn [one_by_one]. apply same_results; intros [out cs']; unfold lookup_4, lookup_1; intros H; stages. Qed.

Lemma one_by_one_app body l1 l2 cs :
  one_by_one body (l1 ++ l2) cs = ('(out1, cs) ← one_by_one body l1 cs; '(out2, cs) ← one_by_one body l2 cs; Some (out1 ++ out2, cs)).
Proof.
  revert cs. induction l1 as [|b l1 IH]; intros cs; cbn [app one_by_one]; [cbn; now destruct (one_by_one body l2 cs) as [[o c]|]|].
  destruct (body b cs) as [[[b' n] cs1]|]; [|reflexivity]. cbn [mbind option_bind]. rewrite IH. destruct (one_by_one body l1 cs1) as [[o1 cs2]|]; [|reflexivity].
  cbn [mbind option_bind]. now destruct (one_by_one body l2 cs2) as [[o2 cs3]|].
Qed.

Lemma by_2_split body2 body : (forall b0 b1 cs, body2 b0 b1 cs = one_by_one body [b0; b1] cs) ->
  forall bufs cs, by_2 body2 body bufs cs = one_by_one body bufs cs.
Proof.
  intros H2. assert (forall n bufs cs, (length bufs <= n)%nat -> by_2 body2 body bufs cs = one_by_one body bufs cs) as H; [|eauto].
  induction n as [|n IH]; intros bufs cs Hl; [now destruct bufs; [|cbn in Hl; lia]|]. destruct bufs as [|b0 [|b1 [|b2 [|b3 bufs]]]]; try reflexivity.
  change (b0 :: b1 :: b2 :: b3 :: bufs) with ([b0; b1] ++ b2 :: b3 :: bufs) at 2. rewrite one_by_one_app, <- H2.
  change (by_2 body2 body (b0 :: b1 :: b2 :: b3 :: bufs) cs) with ('(out2, cs) ← body2 b0 b1 cs; '(out, cs) ← by_2 body2 body (b2 :: b3 :: bufs) cs; Some (out2 ++ out, cs)).
  destruct (body2 b0 b1 cs) as [[o cs1]|]; [|reflexivity]. cbn [mbind option_bind]. rewrite IH by (cbn in *; lia). reflexivity.
Qed.

Lemma by_4_split bufs cs : lookup_by_4 fib_index_by_sw_if_index fibs ps w router_id bufs cs = one_by_one lookup1 bufs cs.
Proof.
  assert (forall n bufs cs, (length bufs <= n)%nat -> lookup_by_4 fib_index_by_sw_if_index fibs ps w router_id bufs cs = one_by_one lookup1 bufs cs) as H; [|eauto].
  clear bufs cs. induction n as [|n IH]; intros bufs cs Hl; [now destruct bufs; [|cbn in Hl; lia]|]. destruct bufs as [|b0 [|b1 [|b2 [|b3 bufs]]]]; try reflexivity.
  change (b0 :: b1 :: b2 :: b3 :: bufs) with ([b0; b1; b2; b3] ++ bufs) at 2. rewrite one_by_one_app, <- lookup_4_split. cbn [lookup_by_4].
  destruct (lookup_4 _ _ _ _ _ b0 b1 b2 b3 cs) as [[o cs1]|]; [|reflexivity]. cbn [mbind option_bind]. rewrite IH by (cbn in *; lia). reflexivity.
Qed.

Lemma one_by_one_ext f g : (forall b cs, f b cs = g b cs) -> forall bufs cs, one_by_one f bufs cs = one_by_one g bufs cs.
Proof.
  intros Hfg l. induction l as [|b l IH]; intros c; cbn [one_by_one]; [reflexivity|]. rewrite Hfg. destruct (g b c) as [[[b' n] c1]|]; [|reflexivity].
  cbn [mbind option_bind]. now rewrite IH.
Qed.

Lemma inline_forward u bufs cs : ip4_lookup_inline fib_index_by_sw_if_index fibs ps w router_id u bufs cs = one_by_one (counting forward) bufs cs.
Proof.
  rewrite <- (one_by_one_ext _ _ lookup_1_counting). destruct u; cbn [ip4_lookup_inline]; [apply by_4_split|apply by_2_split, lookup_2_split|reflexivity].
Qed.

Lemma node_rebalance bufs cs : ip4_load_balance_node w router_id bufs cs = one_by_one (counting rebalance) bufs cs.
Proof. rewrite <- (one_by_one_ext _ _ load_balance_1_counting). apply by_2_split, load_balance_2_split. Qed.

(** C26: the lookup node does the same to a frame of packets whether it takes four,
    two or one of them at a time, and the load-balance node, which takes two, does
    what it does to each: the same buffers, next nodes and counters, for frames of
    any size. *)
Theorem nodes_work_packet_by_packet u bufs cs :
  ip4_lookup_inline fib_index_by_sw_if_index fibs ps w router_id u bufs cs = one_by_one (counting forward) bufs cs /\
  ip4_load_balance_node w router_id bufs cs = one_by_one (counting rebalance) bufs cs.
Proof. split; [apply inline_forward|apply node_rebalance]. Qed.

End Batches.
