(* ===== verification/Ip4LookupProps.v ===== *)
(** * IPv4 lookup nodes: where packets go

    With the tables of any history of routes and the load-balances of any history of
    updates, a packet goes to a bucket of the load-balance of the longest match. *)

From stdpp Require Import gmap.
From S2P Require Import Prelude NetTypes Pool Dpo Mtrie MtrieSpec MtrieInv MtrieTables MtrieProps LbNormalize LoadBalanceMap LbMapInv LoadBalance LbUpdate LoadBalanceProps LbPool LbPoolInv LbPoolProps FlowHash Ip4Lookup Ip4LookupBatch.

(** ** Where packets go *)

(** A load-balance that can forward: it has buckets, and its map, if any, translates
    as many. *)
Definition forwards (w : lb_world) (lbi : Z) (lb : load_balance_t) : Prop :=
  lb_at w lbi = Some lb /\ 1 <= lb_n_buckets lb /\ (lb_map lb = INDEX_INVALID \/ fits (w_maps w) (lb_map lb) (lb_n_buckets lb)).

(** Every hash leads to a bucket in use. *)
Lemma bucket_for_hash r w lbi lb hash : world_ok r w -> forwards w lbi lb -> 0 <= hash ->
  load_balance_get w lbi = Some lb /\ exists d, worker_bucket (w_maps w) lb hash = Some d /\ d ∈ cur lb.
Proof.
  intros Hw (Hl & Hn & Hm) Hh. split; [exact (pool_lookup_elt _ _ _ Hl)|]. pose proof (wo_lb _ _ Hw _ _ Hl) as Hok. pose proof (reads_ok lb Hok Hn) as Hr.
  apply (safe_intro (cur lb) lb (w_maps w)); [rewrite (minus_1_ok lb Hok Hn); lia| |now rewrite Hr|exact Hh]. rewrite Hr. split; [exact (lo_large _ Hok)|]. now apply Forall_forall.
Qed.

(** The hash a packet gets in the lookup node, and what it is then. *)
Definition lookup_hash (router_id : Z) (lb : load_balance_t) (b : ip4_buffer) : Z :=
  if 1 <? lb_n_buckets lb then ip4_compute_flow_hash router_id (b_ip b) (lb_hash_config lb) else 0.

Definition lookup_table (fib_index_by_sw_if_index : list Z) (b : ip4_buffer) : option Z :=
  t ← vec_elt fib_index_by_sw_if_index (sw_if_index_rx b); Some (if sw_if_index_tx b =? Z.ones 32 then t else sw_if_index_tx b).

Definition looked_up (t hash : Z) (d : dpo_id_t) (b : ip4_buffer) : ip4_buffer :=
  mk_buf (b_ip b) (sw_if_index_rx b) (sw_if_index_tx b) t hash (dpoi_index d) (length_in_chain b).

Lemma forward_ok v fibs ps w router_id b t lbi lb d :
  lookup_table v b = Some t -> ip4_fib_forwarding_lookup fibs ps t (ip_dst (b_ip b)) = Some lbi -> load_balance_get w lbi = Some lb ->
  worker_bucket (w_maps w) lb (lookup_hash router_id lb b) = Some d ->
  forward v fibs ps w router_id b = Some (looked_up t (lookup_hash router_id lb b) d b, dpoi_next_node d, lbi).
Proof.
  unfold lookup_table, forward, ip_lookup_set_buffer_fib_index. intros Ht Hlbi Hlb Hd. destruct (vec_elt v _) as [t0|]; [|discriminate]. injection Ht as <-. cbn in Hlbi |- *.
  rewrite Hlbi. cbn [mbind option_bind]. rewrite Hlb. cbn [mbind option_bind]. unfold choose_bucket, worker_bucket, lookup_hash in *. destruct (1 <? lb_n_buckets lb).
  - cbn. rewrite Hd. reflexivity.
  - rewrite Hd. reflexivity.
Qed.

(** What ip4-lookup says of a packet. *)
Definition delivered (v : list Z) (Rs : route_tables) (w : lb_world) (router_id : Z) (b : ip4_buffer) (out : ip4_buffer * Z) : Prop :=
  exists t R lb d, lookup_table v b = Some t /\ Rs !! t = Some R /\ lb_at w (lpm R (net_to_host_u32 (ip_dst (b_ip b)))) = Some lb /\
    d ∈ cur lb /\ worker_bucket (w_maps w) lb (lookup_hash router_id lb b) = Some d /\
    out = (looked_up t (lookup_hash router_id lb b) d b, dpoi_next_node d).

(** The load-balance of a packet. *)
Definition matched (v : list Z) (Rs : route_tables) (b : ip4_buffer) : Z :=
  default 0 (t ← lookup_table v b; R ← Rs !! t; Some (lpm R (net_to_host_u32 (ip_dst (b_ip b))))).

(** Packets and bytes counted for a load-balance. *)
Fixpoint counted_for (lbi_of : ip4_buffer -> Z) (i : Z) (bufs : list ip4_buffer) : Z * Z :=
  match bufs with
  | [] => (0, 0)
  | b :: bufs => let '(p, n) := counted_for lbi_of i bufs in if lbi_of b =? i then (1 + p, length_in_chain b + n) else (p, n)
  end.

Lemma increment_other cs i j p n : i <> j -> counter_of (vlib_increment_combined_counter cs i p n) j = counter_of cs j.
Proof. intros H. unfold vlib_increment_combined_counter. destruct (counter_of cs i). unfold counter_of. now rewrite lookup_insert_ne. Qed.

Lemma increment_same cs i p n : counter_of (vlib_increment_combined_counter cs i p n) i = (u64 ((counter_of cs i).1 + p), u64 ((counter_of cs i).2 + n)).
Proof. unfold vlib_increment_combined_counter. destruct (counter_of cs i) as [a c]. unfold counter_of. now rewrite lookup_insert_eq. Qed.

Lemma u64_add_l x y : u64 (u64 x + y) = u64 (x + y).
Proof. unfold u64. now rewrite Zplus_mod_idemp_l. Qed.

(** A loop over packets each of which is forwarded. *)
Lemma counting_all f lbi_of (Q : ip4_buffer -> ip4_buffer * Z -> Prop) bufs :
  (forall b, b ∈ bufs -> exists b' next, f b = Some (b', next, lbi_of b) /\ length_in_chain b' = length_in_chain b /\ Q b (b', next)) ->
  forall cs, exists out cs', one_by_one (counting f) bufs cs = Some (out, cs') /\ Forall2 Q bufs out /\
    forall i, u64 (counter_of cs' i).1 = u64 ((counter_of cs i).1 + (counted_for lbi_of i bufs).1) /\
              u64 (counter_of cs' i).2 = u64 ((counter_of cs i).2 + (counted_for lbi_of i bufs).2).
Proof.
  induction bufs as [|b bufs IH]; intros Hf cs.
  { exists [], cs. split; [reflexivity|]. split; [constructor|]. intros i. cbn. now rewrite !Z.add_0_r. }
  destruct (Hf b (list_elem_of_here _ _)) as (b' & next & E & Hlen & HQ). cbn [one_by_one].
  assert (counting f b cs = Some (b', next, vlib_increment_combined_counter cs (lbi_of b) 1 (length_in_chain b'))) as -> by (unfold counting; now rewrite E). cbn [mbind option_bind].
  destruct (IH (fun x Hx => Hf x (list_elem_of_further _ _ _ Hx)) (vlib_increment_combined_counter cs (lbi_of b) 1 (length_in_chain b'))) as (out & cs' & -> & HF & Hc).
  exists ((b', next) :: out), cs'. split; [reflexivity|]. split; [now constructor|]. intros i. destruct (Hc i) as [-> ->]. cbn [counted_for]. destruct (counted_for lbi_of i bufs) as [p n]. cbn [fst snd].
  destruct (Z.eqb_spec (lbi_of b) i) as [<-|Hne]; cbn [fst snd].
  - rewrite increment_same, Hlen. cbn [fst snd]. rewrite !u64_add_l. split; f_equal; lia.
  - now rewrite (increment_other _ _ _ _ _ Hne).
Qed.

(** The tables of the nodes as those of the routes. *)
Definition tables_of (fibs : ip4_fibs) : gmap Z mtrie := match fibs with Fibs16 f => M16 <$> f | Fibs8 f => M8 <$> f end.

Lemma lookup_in_tables s Rs fibs t R a : reachable s Rs -> tables_of fibs = mt_tables s -> Rs !! t = Some R -> is_u 32 a ->
  ip4_fib_forwarding_lookup fibs (mt_pool s) t a = Some (lpm R (net_to_host_u32 a)).
Proof.
  intros [Ps Hok]%tables_reachable Hf HR Ha. pose proof (tk_dom _ _ _ Hok t) as Hd. rewrite HR, <- Hf in Hd. destruct (tables_of fibs !! t) as [tbl|] eqn:Et; [|easy].
  pose proof (table_lookup_ok _ _ _ _ a Hd Ha) as Hl. unfold ip4_fib_forwarding_lookup. destruct fibs as [f|f]; cbn [tables_of] in Et; rewrite lookup_fmap in Et;
    destruct (f !! t) as [m|]; try discriminate; injection Et as <-; exact Hl.
Qed.

(** A default route, and load-balances that forward behind all routes. *)
Definition routed (w : lb_world) (R : routes) : Prop :=
  is_Some (R !! root_prefix) /\ forall e lbi, R !! e = Some lbi -> exists lb, forwards w lbi lb.

Lemma routed_match w R x : is_u 32 x -> routed w R -> exists lb, forwards w (lpm R x) lb.
Proof.
  intros Hx [[d Hd] Hf]. unfold lpm. destruct (best_spec R (32%nat, x)) as [(e & _ & He & _)|[_ Hn]]; [eauto|].
  rewrite Hn in Hd; [discriminate|]. apply under_root. exact Hx.
Qed.

(** A packet of an interface or for a table that is there. *)
Definition packet_ok (v : list Z) (Rs : route_tables) (b : ip4_buffer) : Prop :=
  is_u 32 (ip_dst (b_ip b)) /\ exists t, lookup_table v b = Some t /\ is_Some (Rs !! t).

Lemma lookup_hash_range router_id lb b : 0 <= lookup_hash router_id lb b.
Proof. unfold lookup_hash. destruct (1 <? _); [apply flow_hash_range|lia]. Qed.

(** The hash in the load-balance node. *)
Definition rehash (router_id : Z) (lb : load_balance_t) (b : ip4_buffer) : Z :=
  if negb (ip_flow_hash b =? 0) then Z.shiftr (ip_flow_hash b) 1 else ip4_compute_flow_hash router_id (b_ip b) (lb_hash_config lb).

Lemma rehash_range router_id lb b : 0 <= ip_flow_hash b -> 0 <= rehash router_id lb b.
Proof. intros H. unfold rehash. destruct (negb _); [now apply Z.shiftr_nonneg|apply flow_hash_range]. Qed.

Lemma rebalance_ok w router_id b lb d : load_balance_get w (adj_index_tx b) = Some lb -> worker_bucket (w_maps w) lb (rehash router_id lb b) = Some d ->
  exists b', rebalance w router_id b = Some (b', dpoi_next_node d, adj_index_tx b) /\ length_in_chain b' = length_in_chain b /\ adj_index_tx b' = dpoi_index d.
Proof.
  unfold rebalance, rechoose_bucket, worker_bucket. intros Hg Hd. rewrite Hg. cbn [mbind option_bind]. fold (rehash router_id lb b).
  destruct (1 <? lb_n_buckets lb); rewrite Hd; cbn [mbind option_bind]; (eexists; split; [reflexivity|]); split; reflexivity.
Qed.

Section Forwarding.
Variable next_node : Z -> Z -> dpo_id_t -> Z.
Variable qsort : list load_balance_path_t -> list load_balance_path_t.
Hypothesis qsort_perm : forall l, qsort l ≡ₚ l.

(** C25: with forwarding tables of any history of routes and load-balances of any
    history of updates, where every table has a default route and the load-balances
    of its routes can forward, ip4-lookup handles every frame: each packet goes to
    a bucket in use of the load-balance of the longest match for its destination,
    in the table it asks for or that of its interface; which one depends on its
    flow hash.  The counters of each load-balance grow by its packets and bytes. *)
Theorem packets_follow_longest_match s Rs fibs v ops refs r w r' router_id u bufs cs :
  reachable s Rs -> tables_of fibs = mt_tables s ->
  lb_may_run next_node qsort ops (lb_system_init refs r) -> lb_run next_node qsort ops (lb_system_init refs r) = Some (w, r') ->
  (forall t R, Rs !! t = Some R -> routed w R) -> Forall (packet_ok v Rs) bufs ->
  exists out cs', ip4_lookup_inline v fibs (mt_pool s) w router_id u bufs cs = Some (out, cs') /\
    Forall2 (delivered v Rs w router_id) bufs out /\
    forall i, u64 (counter_of cs' i).1 = u64 ((counter_of cs i).1 + (counted_for (matched v Rs) i bufs).1) /\
              u64 (counter_of cs' i).2 = u64 ((counter_of cs i).2 + (counted_for (matched v Rs) i bufs).2).
Proof.
  intros Hr Hf Hm E HR Hb. destruct (lb_run_ok next_node qsort qsort_perm ops (fun _ _ => false) _ (init_system_ok _ refs r) Hm) as (sys & E' & Hw & _).
  rewrite E in E'. injection E' as <-. unfold system_ok in Hw. cbn [fst snd] in Hw. rewrite inline_forward. apply counting_all. intros b Hin.
  rewrite Forall_forall in Hb. destruct (Hb b Hin) as (Ha & t & Ht & R & HRt). destruct (routed_match w R _ (net_to_host_u32_range (ip_dst (b_ip b))) (HR t R HRt)) as [lb Hlb].
  destruct (bucket_for_hash _ w _ lb (lookup_hash router_id lb b) Hw Hlb (lookup_hash_range _ _ _)) as (Hg & d & Hd & Hcur).
  assert (matched v Rs b = lpm R (net_to_host_u32 (ip_dst (b_ip b)))) as Hmt by (unfold matched; rewrite Ht; cbn [mbind option_bind]; now rewrite HRt).
  eexists _, _. rewrite Hmt. split; [exact (forward_ok v fibs _ w router_id b t _ lb d Ht (lookup_in_tables s Rs fibs t R _ Hr Hf HRt Ha) Hg Hd)|]. split; [reflexivity|].
  exists t, R, lb, d. split_and!; auto. apply Hlb.
Qed.

(** ip4-load-balance sends a packet to a bucket in use of the load-balance it came
    with, by half of the hash it came with if that is not zero. *)
Theorem packets_rebalanced ops refs r w r' router_id bufs cs :
  lb_may_run next_node qsort ops (lb_system_init refs r) -> lb_run next_node qsort ops (lb_system_init refs r) = Some (w, r') ->
  Forall (fun b => 0 <= ip_flow_hash b /\ exists lb, forwards w (adj_index_tx b) lb) bufs ->
  exists out cs', ip4_load_balance_node w router_id bufs cs = Some (out, cs') /\
    Forall2 (fun b out => exists lb hash d, lb_at w (adj_index_tx b) = Some lb /\ (ip_flow_hash b <> 0 -> hash = ip_flow_hash b / 2) /\
               worker_bucket (w_maps w) lb hash = Some d /\ d ∈ cur lb /\ adj_index_tx (fst out) = dpoi_index d /\ snd out = dpoi_next_node d) bufs out.
Proof.
  intros Hm E Hb. destruct (lb_run_ok next_node qsort qsort_perm ops (fun _ _ => false) _ (init_system_ok _ refs r) Hm) as (sys & E' & Hw & _).
  rewrite E in E'. injection E' as <-. unfold system_ok in Hw. cbn [fst snd] in Hw. rewrite node_rebalance.
  destruct (counting_all (rebalance w router_id) adj_index_tx (fun b out => exists lb hash d, lb_at w (adj_index_tx b) = Some lb /\ (ip_flow_hash b <> 0 -> hash = ip_flow_hash b / 2) /\
               worker_bucket (w_maps w) lb hash = Some d /\ d ∈ cur lb /\ adj_index_tx (fst out) = dpoi_index d /\ snd out = dpoi_next_node d) bufs) with (cs := cs) as (out & cs' & H1 & H2 & _); [|eauto].
  intros b Hin. rewrite Forall_forall in Hb. destruct (Hb b Hin) as (Hh & lb & Hlb).
  destruct (bucket_for_hash _ w _ lb (rehash router_id lb b) Hw Hlb (rehash_range _ _ _ Hh)) as (Hg & d & Hd & Hcur). destruct (rebalance_ok w router_id b lb d Hg Hd) as (b' & E1 & E2 & E3).
  exists b', (dpoi_next_node d). split; [exact E1|]. split; [exact E2|]. exists lb, (rehash router_id lb b), d. split_and!; auto; [apply Hlb|].
  intros Hn. unfold rehash. rewrite (proj2 (Z.eqb_neq _ _) Hn). now rewrite Z.shiftr_div_pow2.
Qed.

End Forwarding.

(** ** An example *)

(** Three load-balances; the last one has four buckets for three paths, one of which
    fails. *)
Definition ex_lbs : list lb_op :=
  [LbCreate 1 DPO_PROTO_IP4 0; LbCreate 1 DPO_PROTO_IP4 0; LbSetBucket 1 0 (mk_dpo 8 DPO_PROTO_IP4 0 9); LbCreate 1 DPO_PROTO_IP4 0x1f;
   LbMultipathUpdate 2 [ex_path 3 1; ex_path 4 2; ex_path 5 1] LOAD_BALANCE_FLAG_USES_MAP; PathEdge 4].

Definition ex_world : lb_world := from_option fst (fst ex_start) (lb_run ex_next sort_by_weight ex_lbs ex_start).

Lemma ex_lbs_may : lb_may_run ex_next sort_by_weight ex_lbs ex_start.
Proof.
  split; [right; now exists 0|]. intros s1 [= <-]. split; [right; now exists 0|]. intros s2 [= <-]. split; [eexists; split; [reflexivity|split; reflexivity || easy]|]. intros s3 E3. vm_compute in E3. injection E3 as <-.
  split; [right; now exists 0|]. intros s4 E4. vm_compute in E4. injection E4 as <-. split.
  { eexists. split; [reflexivity|]. eexists. split; [vm_compute; reflexivity|]. split; [easy|]. split; [reflexivity|]. split; [easy|].
    intros i. change (lock_count load_balance_map_module_init i + 1 < 2 ^ 32). unfold lock_count, map_at. cbn. now rewrite pool_empty_lookup. }
  intros s5 _. split; [exact I|]. now intros s6 _.
Qed.

Definition ex_tables_1 : mtries := ex_then (Add 1 0 0 1) ex_created.
Definition ex_tables : mtries := ex_then (Add 1 net_10_1 16 2) ex_tables_1.
Definition ex_table_routes : route_tables := spec (Add 1 net_10_1 16 2) (spec (Add 1 0 0 1) (spec (Create8 1) ∅)).

Lemma ex_tables_reachable : reachable ex_tables ex_table_routes.
Proof.
  apply (reach_step ex_tables_1); [apply (reach_step ex_created); [apply (reach_step ex_init); [apply reach_init|split; [vm_compute; discriminate|reflexivity]|vm_compute; reflexivity]| |vm_compute; reflexivity]| |vm_compute; reflexivity].
  - split; [vm_compute; discriminate|]. split_and!; [eexists; reflexivity|split; [split; reflexivity || discriminate|split; discriminate]|discriminate|reflexivity].
  - split; [vm_compute; discriminate|]. split_and!; [eexists; reflexivity|apply ex_args|discriminate|reflexivity].
Qed.

Definition ex_packet (dst port : Z) : ip4_buffer := mk_buf (mk_flow 0x0100000a dst IP_PROTOCOL_UDP port 0x3500 0) 3 (Z.ones 32) 0 0 0 100.
Definition ex_frame : list ip4_buffer := [ex_packet host_10_1_2_3 1; ex_packet host_10_1_2_3 2; ex_packet host_10_1_2_3 3; ex_packet 0x01010101 4; ex_packet host_10_1_2_3 5].
Definition ex_fibs : ip4_fibs := Fibs8 {[ 1 := 1 ]}.
Definition ex_interfaces : list Z := [0; 0; 0; 1].

Lemma ex_routed t R : ex_table_routes !! t = Some R -> routed ex_world R.
Proof.
  intros HR. destruct (decide (t = 1)) as [->|Hne].
  - assert (ex_table_routes !! 1 = Some (<[route net_10_1 16 := 2]> (<[route 0 0 := 1]> ∅))) as E by reflexivity. rewrite E in HR. injection HR as <-. clear E. split.
    + rewrite lookup_insert_ne by discriminate. eexists. apply lookup_insert_eq.
    + intros e lbi [[_ <-]|[_ [[_ <-]|[_ H]]%lookup_insert_Some]]%lookup_insert_Some; [| |rewrite lookup_empty in H; discriminate].
      * eexists. split; [vm_compute; reflexivity|]. split; [cbn; lia|]. right. eexists. split; [vm_compute; reflexivity|]. split; [reflexivity|]. repeat constructor; cbn; lia.
      * eexists. split; [vm_compute; reflexivity|]. split; [cbn; lia|]. now left.
  - unfold ex_table_routes in HR. cbn [spec] in HR. rewrite !lookup_alter_ne, lookup_insert_ne, lookup_empty in HR by congruence. discriminate.
Qed.

Lemma packets_follow_longest_match_witness :
  exists out cs', ip4_lookup_inline ex_interfaces ex_fibs (mt_pool ex_tables) ex_world 0 By4 ex_frame ∅ = Some (out, cs') /\
    map (fun x => adj_index_tx (fst x)) out = [5; 3; 3; 9; 3] /\ u64 (counter_of cs' 2).1 = 4.
Proof.
  destruct (packets_follow_longest_match ex_next sort_by_weight sort_by_weight_perm ex_tables ex_table_routes ex_fibs ex_interfaces ex_lbs ∅ (fun _ => true) ex_world
              (set_path (fun _ => true) 4 false) 0 By4 ex_frame ∅ ex_tables_reachable) as (out & cs' & E & _ & Hc).
  - vm_compute. reflexivity.
  - exact ex_lbs_may.
  - vm_compute. reflexivity.
  - exact ex_routed.
  - repeat (apply Forall_cons_2; [split; [split; reflexivity || discriminate|exists 1; split; [reflexivity|eexists; reflexivity]]|]). apply Forall_nil_2.
  - exists out, cs'. split; [exact E|]. split; [|rewrite (proj1 (Hc 2)); vm_compute; reflexivity]. vm_compute in E. injection E as <- <-. reflexivity.
Defined.
